(* ===== verification/_CoqProject ===== *)
-Q . S2P
Prelude.v
Runs.v
SdkDec.v
SdkCoins.v
GoStd.v
CoinFacts.v
CommonErrors.v
TokenErrors.v
SwapErrors.v
OrderErrors.v
DexErrors.v
GovErrors.v
FarmErrors.v
Common.v
Token.v
TokenSpec.v
Swap.v
SwapSpec.v
OrderTypes.v
DepthBook.v
Match.v
Dex.v
DexSpec.v
OrderKeeper.v
OrderBook.v
OrderMatch.v
OrderSpec.v
OrderEngine.v
OrderBlock.v
OrderTheorems.v
Farm.v
FarmSpec.v
Gov.v
GovTally.v
GovSpec.v
Params.v
GovApp.v
GovGenesis.v
GovTheorems.v
EvmErrors.v
Account.v
Evm.v
EvmSpec.v
EvmRevert.v
EvmSnapshot.v
EvmCommit.v
EvmTheorems.v
EvmMsg.v
EvmTx.v
EvmAnte.v
EvmSign.v
EvmTxSpec.v
EvmBlock.v
EvmTxImpl.v
StakingErrors.v
Staking.v
StakingSpec.v
StakingShares.v
StakingMoney.v
StakingMsgs.v
StakingHandlers.v
StakingBlock.v
StakingEnd.v
StakingImpl.v
StakingTheorems.v
Slashing.v
Evidence.v
DistrErrors.v
Distribution.v
DistrSpec.v
SlashSpec.v
JailLock.v
PosApp.v
