(* ===== verification/Prelude.v ===== *)
(** * A verification of the modules of okexchain

    okexchain is a Cosmos SDK application.  Its own logic lives in modules under
    src/x: each keeps a store, reads and writes it through a keeper, and changes
    it in message handlers and in begin and end blockers.  This library models
    the modules that hold and move funds, the modules that decide who produces the
    blocks, and proves what keeps those funds safe and the chain running.

    ** The program and the files that model it

    - [Prelude] (this file): the three ways a Go function ends ([outcome]), the
      state monad [M] of keepers and handlers, zooming into a component's state,
      the tactics [minv] and [dec_simp] of the development, wrap-around of
      machine integers, sums over lists and maps.
    - [SdkDec], [SdkCoins]: the decimals, coin sets and the bank and supply
      keepers of the Cosmos SDK.  They are not code of this repository, so they
      are type classes: operations ([Dec.Ops], [Coins.Ops], [Bank.Ops]) and what
      the SDK documents about them ([Dec.Laws], [Coins.Laws], [Bank.Laws]).
      Every definition takes the operations and every theorem the laws; each
      file ends with an implementation that satisfies the laws ([Dec18],
      [CoinsImpl], [BankImpl]), on which the witnesses run.
    - [GoStd]: what the source uses of Go's standard library (binary search,
      splitting and printing, byte order), and the class [GoRt] of what the
      language leaves open: the order in which a map is ranged over, which is a
      permutation of its keys, and the sort of package sort, which is a permutation
      and sorts by every strict weak order.
    - [CoinFacts]: the amounts of coin sets and balances after the operations of the
      SDK, derived from its laws once for all modules.
    - [CommonErrors], [TokenErrors], [SwapErrors], [OrderErrors], [DexErrors],
      [GovErrors], [FarmErrors], [EvmErrors], [StakingErrors], [DistrErrors]: the errors of each module by codespace and code.
    - [Common]: src/x/common/util.go and const.go.
    - [Token], [TokenSpec]: src/x/token.  [Token.TokenState] is the bank state
      and the token store; [Token.NewTokenHandler] dispatches the messages.
    - [Swap], [SwapSpec]: src/x/ammswap.  [Swap.SwapState] contains the token
      state, since the swap keeper mints, burns and sends through it.
    - [OrderTypes], [DepthBook], [Match]: src/x/order: orders, the depth book
      and the price of the periodic auction.
    - [Dex], [DexSpec]: src/x/dex: trading pairs, their deposits and delayed
      withdrawals, operators, transfers of ownership, delist proposals, the locks
      of products.  [Dex.DexState] contains the token state.
    - [OrderKeeper]: src/x/order/keeper, src/x/order/handler.go and the messages.
      [OrderKeeper.OrderState] contains the dex state, the stores of the module, and
      the two caches the keeper keeps in memory, which are part of the state because
      the code changes them outside of the store: a failed item of a message does not
      undo its changes of them ([OrderKeeper.discard]).
    - [OrderMatch]: src/x/order/match/periodicauction (fill.go, the block loop of
      match.go, impl.go), the begin and end blockers and genesis.  The class
      [OrderKeeper.OrderEnv] is the one thing about slices the code depends on,
      whether an append reuses the array.
    - [OrderBook]: the invariant that ties ids, depth books and orders together, and
      that inserting and removing keeps it.  [OrderSpec]: a calculus of runs that
      return ([runs]) and the handlers.  [OrderEngine]: the fills.  [OrderBlock]:
      whole blocks and restarts.  [OrderTheorems]: the properties of the module.
    - [Farm], [FarmSpec]: src/x/farm.  [Farm.FarmState] contains the swap
      state, since the value of locked pool tokens is asked from it.

    - [Runs]: the calculus of runs that return, of which the theorems that exclude
      panics are made.
    - [Gov]: src/x/gov: proposals, deposits, votes, the three queues, the tally, the
      message handlers, the end blocker and genesis.  The module asks the modules it
      serves through handlers and routes and staking through an interface, so its state
      has the state of the rest of the application as a field ([Gov.world]).
      [GovTally]: the tally and its decisions.  [GovSpec]: what the served modules
      promise ([GovSpec.AppLaws]) and the invariant.  [GovGenesis]: genesis.
      [GovTheorems]: the properties of the module.
    - [Params]: src/x/params: parameter change proposals.  [GovApp]: gov with the params
      and dex modules behind it, for which the promises of [GovSpec.AppLaws] and
      [GovTally.StakingLaws] are proved, so that the theorems of the module hold of the
      composition.
    - [Account]: the account type of src/app/types/account.go and the account keeper of
      the SDK as a class ([Auth.Ops], [Auth.Laws]).  [Evm]: the state database of
      src/x/evm/types (statedb.go, state_object.go, journal.go, access_list.go), through
      which the virtual machine of go-ethereum reads and writes accounts; its hashes are
      the class [Eth].  [EvmSpec]: what a database shows and its invariant.  [EvmRevert]:
      every operation extends the journal by entries that lead back.  [EvmSnapshot]:
      snapshots.  [EvmCommit]: Finalise and Commit.  [EvmTheorems]: the properties.
    - [EvmMsg]: the messages of src/x/evm/types/msg.go with signatures and their recovery,
      the chain id, parameters, chain configuration and the checks of genesis.  [EvmTx]:
      the transition of a transaction around the virtual machine, the handlers of
      src/x/evm/handler.go with the refund of gas, the keeper, blocks, invariants and
      genesis; a message runs on a database over the stores and on the gas meter of its
      context.  [EvmAnte]: the chain of decorators of src/app/ante.  The cryptography, the
      machine, the gas meter and the deduction of fees are the classes [Crypto],
      [EvmTx.VM], [Gas.Ops] and [EvmAnte.AnteEnv].  [EvmSign], [EvmTxSpec], [EvmBlock]: the
      theorems on signatures, on what a transaction costs and on the filter of a block.
      [EvmTxImpl]: concrete instances and two transactions that run.
    - [Staking]: src/x/staking: validators, the shares that delegators add to validators,
      proxies, undelegations, abandoned validators and the validator set that is given to
      Tendermint.  Its state has the rest of the application as a field
      ([Staking.world]), with the bank and the hooks of other modules as the interface
      [Staking.App].  [StakingSpec]: the invariant in four parts.  [StakingShares],
      [StakingMoney]: rewriting validators, shares, proxies and pools.  [StakingMsgs],
      [StakingHandlers]: messages keep the invariant.  [StakingBlock], [StakingEnd]: so
      does the end of a block.  [StakingImpl]: concrete instances.  [StakingTheorems]: the
      properties.
    - [Slashing]: src/x/slashing: signing infos, the window of missed blocks, jail.
      [Evidence]: src/x/evidence: double signing and submitted evidence.
      [Distribution]: src/x/distribution: the allocation of fees, accumulated
      commissions, withdraw addresses.  They are written against the state around the
      staking module.  [DistrSpec], [SlashSpec]: their invariants and what their
      operations do.  [JailLock]: no operation lets a validator out of the jail but the
      message to unjail it.
    - [PosApp]: the composition as src/app/app.go wires it: the hooks of staking go to
      distribution and then to slashing, the bank and the stores of these modules are the
      world of staking.

    The handlers run on nested states: a farm handler moves coins in the bank
    inside the token state inside the swap state, by [zoom].  A function that
    returns an error leaves its earlier writes behind, as in the source, where
    it is the transaction that discards them; theorems about a successful
    message speak of the state that is kept.

    ** What the theorems show

    - Token: locked coins and fees are backed by the module account over any
      sequence of locks and unlocks and over all messages; unlocking undoes
      locking; supply changes only as mint, burn and issue say; ownership moves
      only by the owner or the nominee the owner recorded.
    - Swap: all pools stay sound and covered; the price never lowers the product
      of reserves nor empties a pool; the sender's and recipient's balances
      change by what the message says; deposit and withdrawal give no profit;
      the routed swap charges the sender for the intermediate hop.
    - Order: the depth book is a canonical form of the multiset of orders;
      insertion and removal are exact; the auction is optimal among all prices
      and follows its three rules; ids decode.
      Over any sequence of blocks with valid messages no blocker or handler panics,
      the depth books and ids in memory and in the store are those of the open
      orders, and no id is given out twice; a match that is not cut short by the
      budget of deals executes exactly the volume of the auction on both sides; fees
      never exceed what was locked for them; a failed item leaves no trace; only the
      sender of an order cancels it; a restart is not observable.  The cleanup of a
      delisted product is shown to skip orders.
    - Dex: the module account holds exactly the deposits and waiting withdrawals over
      any run; withdrawals are paid in full when their time has come; the registered
      invariant holds; the order of products is deterministic where deposits or
      heights differ, and shown not to be in general; a transfer of ownership that is
      pending survives a delisting.
    - Farm: the reward ledger and its reference counts are exact and the module
      accounts solvent over the begin blocker and all messages other than the
      destruction of a pool whose name is a prefix of another's history keys,
      and while they are, claims and full unlocks succeed; the registered
      invariants hold; genesis is restored; the destruction of such a pool is
      shown to break the other one.
    - Gov: over any run the module account holds the deposits, the queues list exactly
      the proposals that wait for their deposit, their vote or their execution, and votes
      are on proposals in their voting period; the end of a block never panics and
      settles what is due; deposits are paid out once and in full; the tally counts every
      share at most once; a decision before the end of the voting period is the one that
      the end would bring unless a delegator of a validator that has voted votes later,
      and is shown to be another one in such a case; genesis is restored.
    - State database: reverting to a snapshot restores every answer, the journal and the
      snapshots, whatever was done in between but for a touch of the RIPEMD contract, which
      is shown to survive a revert and to corrupt the index of the dirty addresses.  If
      there was no such touch, no dirty address is blacklisted, codes do not collide and
      every account that replaced another is dirty, writing back succeeds and a new
      database over the stores answers what the old one did, except for dirty accounts
      that were destroyed or are empty.  Coins other than the one of the virtual machine
      are shown to be lost in two ways.
    - Ethereum transactions: a message that is signed for a chain verifies there and gives
      the address of its key; in a block it passes the decorators only with the nonce of its
      sender and not twice, and then the sender has paid for all of the gas
      ([EvmTxSpec.ante_charges], [EvmTxSpec.ante_once]); when it is executed, the sender
      has paid for the gas that was used, at most the limit
      ([EvmTxSpec.transaction_pays]).  A transaction that is only checked leaves the keeper
      alone, and the bloom filter of a block has that of every transaction that succeeded
      in it.  A message of a standard transaction is shown to be refunded for gas that it
      did not buy.
    - Staking: every message keeps the module in order and the tokens of delegators
      covered by the pools; the end of a block always comes, elects the validators with the
      most power and reports to Tendermint exactly the change of the set; undelegations
      are paid in full when they are due; the registered invariants hold as long as no
      validator with a pending undelegation of its self delegation is destroyed, and
      are shown to break when one is; the promises that gov relies on are kept.
    - Distribution: over any run of all modules of the stakes the module account covers the
      community pool and all commissions; an allocation pays out exactly the collected
      fees, by equal parts and by shares as the source says; a commission can always be
      withdrawn, and nothing else changes then; fees that no voter is there to receive halt the chain (as in the source).
    - Slashing and evidence: a vote moves the window by one block and jails exactly when
      the count of missed blocks passes the limit; a double signer is jailed and
      tombstoned, but not slashed as the documentation says; a tombstone stays for ever and
      a validator in jail under it stays there, but a new validator with its key is shown
      to be elected again.
    - Common: fixed point division is exact, key coding is a monotone injection.

    ** Integers, fuel and bounds

    Decimals are their mantissa in [Z]; the SDK's overflow panic beyond 315 bits
    is outside of the laws.  Heights, periods and reference counts are kept at
    their width where the code can reach it ([int64], [uint64], 16 bits in
    genesis).  Loops over slices and store iterators are structural recursion;
    two loops have fuel.  The binary search of package sort has the length of the
    interval, which halves in every iteration.  The loop of fillBuyOrders
    ([OrderMatch.fill_buy_loop]) removes a level or moves to the next in every
    iteration and has the number of levels; [OrderEngine.runs_buy_loop] shows that it
    never runs out.

    ** What is not modelled

    - Queriers, REST and command line clients, the RPC server, event emission, logging
      and codecs: they read the state or carry it in and out of the program.
    - The backend and stream modules: they copy what happened into databases and message
      queues and never write to a store of the chain.
    - genutil, the wiring of src/app/app.go beyond the hooks, debug, monitor and perf:
      files of input and output, calls of constructors, diagnostics.
    - The import and export of contracts through files, and the indexer of bloom filters
      that works in the background on a database of the node.
    - The interpreter of the virtual machine, the store, the bank, gas and the discarding
      of a failed transaction's writes are code of go-ethereum and of the Cosmos SDK.
*)

From stdpp Require Export base list gmap strings sorting.
From Stdlib Require Export ZArith Lia.

#[global] Open Scope Z_scope.

(** ** Errors and outcomes

    A Go function of the modelled packages ends in one of three ways: it
    returns a value with a nil error, it returns a non-nil error, or it panics.
    An error is identified by the codespace and the code the source gives it;
    the human readable message is dropped. *)

Record error := MkError { codespace : string; code : Z }.

#[export] Instance error_eq_dec : EqDecision error.
Proof. solve_decision. Defined.

Inductive outcome (A : Type) : Type :=
| Ok (a : A)
| Err (e : error)
| Panic.
Arguments Ok {A} a.
Arguments Err {A} e.
Arguments Panic {A}.

#[export] Instance outcome_ret : MRet outcome := λ A a, Ok a.
#[export] Instance outcome_bind : MBind outcome := λ A B f m,
  match m with Ok a => f a | Err e => Err e | Panic => Panic end.

Definition is_ok {A} (o : outcome A) : bool :=
  match o with Ok _ => true | _ => false end.

(** A value that the source obtains by an operation that panics when it is not
    defined (an index out of range, a nil dereference, a division by zero). *)
Definition or_panic {A} (o : option A) : outcome A :=
  match o with Some a => Ok a | None => Panic end.

(** ** The state monad of keepers and handlers

    The store of a context is threaded explicitly.  As in the source, a
    function that returns an error leaves behind the writes it made before: it
    is the caller (a transaction's cache-wrapped store) that may discard them. *)

Definition M (S A : Type) : Type := S → outcome A * S.

#[export] Instance M_ret {S} : MRet (M S) := λ A a s, (Ok a, s).
#[export] Instance M_bind {S} : MBind (M S) := λ A B f m s,
  match m s with
  | (Ok a, s') => f a s'
  | (Err e, s') => (Err e, s')
  | (Panic, s') => (Panic, s')
  end.

Section monad_ops.
Context {S : Type}.

Definition get : M S S := λ s, (Ok s, s).
Definition gets {A} (f : S → A) : M S A := λ s, (Ok (f s), s).
Definition modify (f : S → S) : M S unit := λ s, (Ok tt, f s).
Definition throw {A} (e : error) : M S A := λ s, (Err e, s).
Definition panic {A} : M S A := λ s, (Panic, s).
Definition lift {A} (o : outcome A) : M S A := λ s, (o, s).

(** [if cond { return err }] *)
Definition throw_if (b : bool) (e : error) : M S unit :=
  if b then throw e else mret tt.

(** [if !found { return err }] on a lookup. *)
Definition or_throw {A} (o : option A) (e : error) : M S A :=
  match o with Some a => mret a | None => throw e end.

(** [if err != nil { panic(err) }] *)
Definition must {A} (m : M S A) : M S A := λ s,
  match m s with
  | (Err _, s') => (Panic, s')
  | r => r
  end.

(** A call whose error the source only logs: the writes stay, the error is
    dropped.  A panic is not caught. *)
Definition swallow (m : M S unit) : M S unit := λ s,
  match m s with
  | (Err _, s') => (Ok tt, s')
  | r => r
  end.

(** A call whose error the source replaces by its own. *)
Definition wrap_err {A} (f : error → error) (m : M S A) : M S A := λ s,
  match m s with
  | (Err e, s') => (Err (f e), s')
  | r => r
  end.

(** The call's error as a value ([err := f(...)] examined later). *)
Definition catch {A} (m : M S A) : M S (A + error) := λ s,
  match m s with
  | (Ok a, s') => (Ok (inl a), s')
  | (Err e, s') => (Ok (inr e), s')
  | (Panic, s') => (Panic, s')
  end.

Fixpoint mapM_ {A} (f : A → M S unit) (l : list A) : M S unit :=
  match l with
  | [] => mret tt
  | x :: l => f x ≫= λ _, mapM_ f l
  end.
End monad_ops.

(** A computation on a part of the state. *)
Definition zoom {S T A} (view : S → T) (update : T → S → S) (m : M T A) : M S A := λ s,
  let '(r, t) := m (view s) in (r, update t s).

(** What a transaction sees of its block: height, time in nanoseconds since the
    epoch, and its own bytes. *)
Record Context := MkContext { BlockHeight : Z; BlockTime : Z; TxBytes : string }.

(** ctx.BlockTime().Unix() *)
Definition Unix (ctx : Context) : Z := BlockTime ctx / 10 ^ 9.

(** Inversion of a successful run of a bind. *)
Lemma bind_ok {S A B} (m : M S A) (f : A → M S B) s b s' :
  (m ≫= f) s = (Ok b, s') ↔ ∃ a s1, m s = (Ok a, s1) ∧ f a s1 = (Ok b, s').
Proof.
  unfold mbind, M_bind. split.
  - destruct (m s) as [[a|e|] s1]; intros H; simplify_eq; eauto.
  - intros (a & s1 & -> & Hf). exact Hf.
Qed.

(** A bind whose first part is known to succeed. *)
Lemma bind_eq {S A B} (m : M S A) (f : A → M S B) s a s1 :
  m s = (Ok a, s1) → (m ≫= f) s = f a s1.
Proof. intros H. unfold mbind, M_bind. by rewrite H. Qed.

Lemma throw_if_ok {S} b e (s : S) u s' :
  throw_if b e s = (Ok u, s') ↔ b = false ∧ u = tt ∧ s' = s.
Proof.
  destruct b, u; unfold throw_if, throw, mret, M_ret; split;
    intros; destruct_and?; simplify_eq; done.
Qed.

Lemma gets_ok {S A} (f : S → A) s a s' : gets f s = (Ok a, s') ↔ a = f s ∧ s' = s.
Proof. unfold gets. split; intros; destruct_and?; by simplify_eq. Qed.

Lemma modify_ok {S} (f : S → S) s u s' : modify f s = (Ok u, s') ↔ s' = f s.
Proof. unfold modify. destruct u. split; intros; by simplify_eq. Qed.

Lemma lift_ok {S A} (o : outcome A) (s : S) a s' : lift o s = (Ok a, s') ↔ o = Ok a ∧ s' = s.
Proof. unfold lift. split; intros; destruct_and?; by simplify_eq. Qed.

Lemma throw_ok {S A} e (s : S) (a : A) s' : throw e s = (Ok a, s') ↔ False.
Proof. unfold throw. split; [|done]. intros. by simplify_eq. Qed.

Lemma panic_ok {S A} (s : S) (a : A) s' : panic s = (Ok a, s') ↔ False.
Proof. unfold panic. split; [|done]. intros. by simplify_eq. Qed.

Lemma mret_ok {S A} (x : A) (s : S) a s' : (mret x : M S A) s = (Ok a, s') ↔ a = x ∧ s' = s.
Proof. unfold mret, M_ret. split; intros; destruct_and?; by simplify_eq. Qed.

Lemma wrap_err_ok {S A} f (m : M S A) s a s' : wrap_err f m s = (Ok a, s') ↔ m s = (Ok a, s').
Proof. unfold wrap_err. destruct (m s) as [[]]; split; intros; by simplify_eq. Qed.

Lemma zoom_ok {S T A} (view : S → T) update (m : M T A) s a s' :
  zoom view update m s = (Ok a, s') ↔ ∃ t, m (view s) = (Ok a, t) ∧ s' = update t s.
Proof. unfold zoom. destruct (m (view s)) as [r t]. split; [|intros (?&?&?)]; intros; simplify_eq; eauto. Qed.

Lemma or_panic_ok {A} (o : option A) a : or_panic o = Ok a ↔ o = Some a.
Proof. destruct o; cbn; naive_solver. Qed.

Lemma obind_ok {A B} (m : outcome A) (f : A → outcome B) b :
  (m ≫= f) = Ok b ↔ ∃ a, m = Ok a ∧ f a = Ok b.
Proof.
  unfold mbind, outcome_bind. destruct m; naive_solver.
Qed.

Lemma catch_ok {S A} (m : M S A) s r s' : catch m s = (Ok r, s') ↔
  match r with inl a => m s = (Ok a, s') | inr e => m s = (Err e, s') end.
Proof. unfold catch. destruct (m s) as [[a|e|] t], r; split; intros; simplify_eq; done. Qed.

Lemma or_throw_ok {S A} (o : option A) e (s : S) a s' :
  or_throw o e s = (Ok a, s') ↔ o = Some a ∧ s' = s.
Proof.
  destruct o; cbn; unfold mret, M_ret, throw; (split; [|intros [??]]); intros; by simplify_eq.
Qed.

Lemma must_ok {S A} (m : M S A) s a s' : must m s = (Ok a, s') ↔ m s = (Ok a, s').
Proof. unfold must. destruct (m s) as [[]]; split; intros; by simplify_eq. Qed.

(** A run whose result is known by computation. *)
Lemma run_ok {S A} (m : M S A) s a : fst (m s) = Ok a → m s = (Ok a, snd (m s)).
Proof. destruct (m s) as [r s']. cbn. by intros ->. Qed.

(** Inverts a successful run into the runs of its parts. *)
Ltac minv1 :=
  match goal with
  | H : (_ ≫= _) _ = (Ok _, _) |- _ => apply bind_ok in H as (? & ? & ? & ?)
  | H : (mret _ : M _ _) _ = (Ok _, _) |- _ => apply mret_ok in H as [? ?]
  | H : throw_if _ _ _ = (Ok _, _) |- _ => apply throw_if_ok in H as (? & ? & ?)
  | H : or_throw _ _ _ = (Ok _, _) |- _ => apply or_throw_ok in H as [? ?]
  | H : must _ _ = (Ok _, _) |- _ => apply must_ok in H
  | H : gets _ _ = (Ok _, _) |- _ => apply gets_ok in H as [? ?]
  | H : modify _ _ = (Ok _, _) |- _ => apply modify_ok in H
  | H : lift _ _ = (Ok _, _) |- _ => apply lift_ok in H as [? ?]
  | H : throw _ _ = (Ok _, _) |- _ => by apply throw_ok in H
  | H : panic _ = (Ok _, _) |- _ => by apply panic_ok in H
  | H : wrap_err _ _ _ = (Ok _, _) |- _ => apply wrap_err_ok in H
  | H : zoom _ _ _ _ = (Ok _, _) |- _ => apply zoom_ok in H as (? & ? & ?)
  | H : or_panic _ = Ok _ |- _ => apply or_panic_ok in H
  | H : (_ ≫= _) = Ok _ |- _ => apply obind_ok in H as (? & ? & ?)
  | H : Err _ = Ok _ |- _ => discriminate H
  | H : Panic = Ok _ |- _ => discriminate H
  | H : Ok _ = Ok _ |- _ => injection H as H
  | u : unit |- _ => destruct u
  end.
Ltac minv := repeat (minv1; simplify_eq).

(** ** int64 and uint64 arithmetic *)

Definition int64 (z : Z) : Z := (z + 2 ^ 63) mod 2 ^ 64 - 2 ^ 63.
Definition uint64 (z : Z) : Z := z mod 2 ^ 64.
Definition in_int64 (z : Z) : Prop := - 2 ^ 63 ≤ z < 2 ^ 63.

Lemma int64_small z : in_int64 z → int64 z = z.
Proof. unfold in_int64, int64. intros. rewrite Z.mod_small; lia. Qed.

Lemma int64_range z : in_int64 (int64 z).
Proof.
  unfold in_int64, int64.
  pose proof (Z.mod_pos_bound (z + 2 ^ 63) (2 ^ 64) ltac:(lia)). lia.
Qed.

Lemma uint64_small z : 0 ≤ z < 2 ^ 64 → uint64 z = z.
Proof. apply Z.mod_small. Qed.

(** ** Sums of integers over lists *)

Definition zsum (l : list Z) : Z := foldr Z.add 0 l.

Lemma zsum_app l k : zsum (l ++ k) = zsum l + zsum k.
Proof. unfold zsum. induction l; cbn; lia. Qed.

Lemma zsum_nonneg l : Forall (λ x, 0 ≤ x) l → 0 ≤ zsum l.
Proof. induction 1; cbn; [lia|]. unfold zsum in *. lia. Qed.

Lemma zsum_perm l k : l ≡ₚ k → zsum l = zsum k.
Proof. unfold zsum. induction 1; cbn; lia. Qed.

Lemma zsum_cons x l : zsum (x :: l) = x + zsum l.
Proof. done. Qed.

Lemma zsum_take_1 x l : zsum (take 1 (x :: l)) = x.
Proof. rewrite firstn_cons, take_0. cbn. lia. Qed.

Lemma zsum_take_mono l i j : Forall (λ x, 0 ≤ x) l → (i ≤ j)%nat →
  zsum (take i l) ≤ zsum (take j l).
Proof.
  intros Hl Hij. rewrite <-(take_drop i (take j l)), take_take, Nat.min_l, zsum_app by done.
  assert (0 ≤ zsum (drop i (take j l))) by (by apply zsum_nonneg, Forall_drop, Forall_take).
  lia.
Qed.

Lemma zsum_drop_anti l i j : Forall (λ x, 0 ≤ x) l → (i ≤ j)%nat →
  zsum (drop j l) ≤ zsum (drop i l).
Proof.
  intros Hl Hij. pose proof (zsum_take_mono l i j Hl Hij).
  pose proof (f_equal zsum (take_drop i l)) as E1. pose proof (f_equal zsum (take_drop j l)) as E2.
  rewrite zsum_app in E1, E2. lia.
Qed.

(** The sum over the elements that are chosen: none, and one. *)
Lemma zsum_none {A} (P : A → Prop) `{∀ x, Decision (P x)} (f : A → Z) (l : list A) :
  (∀ x, x ∈ l → ¬ P x) → zsum ((λ x, if decide (P x) then f x else 0) <$> l) = 0.
Proof.
  induction l as [|x l IH]; intros Hl; [done|]. rewrite fmap_cons, zsum_cons, IH by set_solver.
  rewrite decide_False; [lia|]. apply Hl. set_solver.
Qed.

Lemma zsum_pick {A} (key : A → string) (f : A → Z) (l : list A) (y : A) : NoDup (key <$> l) → y ∈ l →
  zsum ((λ x, if decide (key x = key y) then f x else 0) <$> l) = f y.
Proof.
  induction l as [|x l IH]; [by intros _ ?%not_elem_of_nil|]. rewrite fmap_cons, NoDup_cons. intros [Hx Hnd].
  rewrite fmap_cons, zsum_cons. intros [->|Hy]%elem_of_cons.
  - rewrite decide_True by done. rewrite (zsum_none (λ z, key z = key x)); [lia|].
    intros z Hz E. apply Hx. rewrite <-E. by apply list_elem_of_fmap_2.
  - rewrite IH, decide_False by (done || intros E; apply Hx; rewrite E; by apply list_elem_of_fmap_2). lia.
Qed.

(** ** Running maxima and minima, and filters of intervals *)

Lemma foldl_max_spec {A} (f : A → Z) l m :
  let r := foldl (λ m x, Z.max (f x) m) m l in
  m ≤ r ∧ (∀ x, x ∈ l → f x ≤ r) ∧ (r = m ∨ ∃ x, x ∈ l ∧ f x = r).
Proof.
  revert m. induction l as [|x l IH]; intros m; cbn [foldl].
  - set_solver by lia.
  - destruct (IH (Z.max (f x) m)) as (H1 & H2 & H3). split; [lia|]. split.
    + intros y [->|Hy]%elem_of_cons; [lia|auto].
    + destruct H3 as [H3|(y & Hy & Ey)]; [|right; exists y; set_solver].
      rewrite H3. destruct (Z.max_spec (f x) m) as [[_ ->]|[_ ->]]; [by left|].
      right. exists x. set_solver.
Qed.

Lemma foldl_min_spec {A} (f : A → Z) l m :
  let r := foldl (λ m x, Z.min m (f x)) m l in
  r ≤ m ∧ (∀ x, x ∈ l → r ≤ f x) ∧ (r = m ∨ ∃ x, x ∈ l ∧ f x = r).
Proof.
  revert m. induction l as [|x l IH]; intros m; cbn [foldl].
  - set_solver by lia.
  - destruct (IH (Z.min m (f x))) as (H1 & H2 & H3). split; [lia|]. split.
    + intros y [->|Hy]%elem_of_cons; [lia|auto].
    + destruct H3 as [H3|(y & Hy & Ey)]; [|right; exists y; set_solver].
      rewrite H3. destruct (Z.min_spec m (f x)) as [[_ ->]|[_ ->]]; [by left|].
      right. exists x. set_solver.
Qed.

(** A convex property selects an interval of an interval. *)
Lemma filter_seq_convex (P : nat → Prop) `{∀ i, Decision (P i)} s n :
  (∀ i j k, (s ≤ i ≤ j)%nat → (j ≤ k < s + n)%nat → P i → P k → P j) →
  ∃ a m, filter P (seq s n) = seq a m ∧ (s ≤ a)%nat ∧ (a + m ≤ s + n)%nat.
Proof.
  revert s. induction n as [|n IH]; intros s Hc; cbn [seq]; [exists s, 0%nat; split; [done|lia]|].
  destruct (IH (S s)) as (a & m & E & Ha & Hm); [intros i j k ????; apply (Hc i j k); (done || lia)|].
  rewrite filter_cons, E. case_decide as Hs; [|exists a, m; split; [done|lia]].
  destruct m as [|m]; [exists s, 1%nat; split; [done|lia]|].
  exists s, (S (S m)). split; [|lia]. cbn [seq]. f_equal.
  assert (a ∈ filter P (seq (S s) n)) as [Pa _]%list_elem_of_filter
    by (rewrite E; cbn; set_solver).
  destruct (decide (a = S s)) as [->|]; [done|].
  assert (S s ∈ filter P (seq (S s) n)) as Hin.
  { apply list_elem_of_filter. split; [|apply elem_of_seq; lia]. apply (Hc s _ a); (done || lia). }
  rewrite E, elem_of_seq in Hin. lia.
Qed.

(** ** Sums over maps *)

Definition msum `{Countable K} {A} (f : A → Z) (m : gmap K A) : Z :=
  zsum ((λ kv, f (snd kv)) <$> map_to_list m).

Section msum.
Context `{Countable K} {A : Type} (f : A → Z).
Implicit Types m : gmap K A.

Lemma msum_empty : msum f (∅ : gmap K A) = 0.
Proof. unfold msum. by rewrite map_to_list_empty. Qed.

Lemma msum_delete m k : msum f (delete k m) = msum f m - from_option f 0 (m !! k).
Proof.
  destruct (m !! k) as [x|] eqn:E; cbn; [|by rewrite delete_id, Z.sub_0_r].
  unfold msum. rewrite <-(zsum_perm _ _ (fmap_Permutation _ _ _ (map_to_list_delete m k x E))).
  cbn. unfold zsum. cbn. lia.
Qed.

Lemma msum_insert m k x : msum f (<[k := x]> m) = msum f m - from_option f 0 (m !! k) + f x.
Proof.
  rewrite <-msum_delete, <-insert_delete_eq. unfold msum.
  rewrite (zsum_perm _ _ (fmap_Permutation _ _ _ (map_to_list_insert (delete k m) k x (lookup_delete_eq m k)))).
  cbn. unfold zsum. cbn. lia.
Qed.

Lemma msum_nonneg m : map_Forall (λ _ x, 0 ≤ f x) m → 0 ≤ msum f m.
Proof.
  intros Hm. apply zsum_nonneg, Forall_fmap, Forall_forall. intros [k x] Hx%elem_of_map_to_list.
  by apply (Hm k x).
Qed.

Lemma msum_le m k x : map_Forall (λ _ x, 0 ≤ f x) m → m !! k = Some x → f x ≤ msum f m.
Proof.
  intros Hm Hk. pose proof (msum_delete m k) as E. rewrite Hk in E. cbn in E.
  assert (0 ≤ msum f (delete k m)) by (by apply msum_nonneg, map_Forall_delete). lia.
Qed.

(** The sum over the keys, in any order. *)
Lemma msum_keys (m : gmap K A) l : l ≡ₚ elements (dom m) →
  msum f m = zsum ((λ k, from_option f 0 (m !! k)) <$> l).
Proof.
  intros Hl. assert (elements (dom m) ≡ₚ (map_to_list m).*1) as E.
  { apply NoDup_Permutation; [apply NoDup_elements|apply NoDup_fst_map_to_list|]. intros k.
    rewrite elem_of_elements, elem_of_dom, list_elem_of_fmap. split.
    - intros [x Hx]. exists (k, x). by rewrite elem_of_map_to_list.
    - intros ([k' x] & -> & Hx%elem_of_map_to_list). eauto. }
  rewrite (zsum_perm _ _ (fmap_Permutation _ _ _ Hl)), (zsum_perm _ _ (fmap_Permutation _ _ _ E)).
  unfold msum. rewrite <-list_fmap_compose. f_equal. apply list_fmap_ext. intros i [k x] Hx. cbn.
  apply list_elem_of_lookup_2, elem_of_map_to_list in Hx. by rewrite Hx.
Qed.
End msum.

(** Writes or deletes one entry of a map. *)
Definition upd `{Countable K} {A} (k : K) (o : option A) (m : gmap K A) : gmap K A :=
  partial_alter (λ _, o) k m.

Section upd.
Context `{Countable K} {A : Type}.
Implicit Types m : gmap K A.

Lemma upd_some k x m : upd k (Some x) m = <[k := x]> m.
Proof. done. Qed.
Lemma upd_none k m : upd k None m = delete k m.
Proof. done. Qed.
Lemma upd_self k m : upd k (m !! k) m = m.
Proof. unfold upd. symmetry. apply map_eq. intros k'. destruct (decide (k = k')) as [->|];
  [by rewrite lookup_partial_alter_eq|by rewrite lookup_partial_alter_ne]. Qed.
Lemma lookup_upd k o m k' : upd k o m !! k' = if decide (k = k') then o else m !! k'.
Proof.
  unfold upd. case_decide; subst; [apply lookup_partial_alter_eq|by apply lookup_partial_alter_ne].
Qed.
Lemma upd_delete k o m : upd k o (delete k m) = upd k o m.
Proof. apply map_eq. intros k'. rewrite !lookup_upd. case_decide; [done|]. by rewrite lookup_delete_ne. Qed.
Lemma msum_upd f k o m :
  msum f (upd k o m) = msum f m - from_option f 0 (m !! k) + from_option f 0 o.
Proof.
  destruct o as [x|]; [by rewrite upd_some, msum_insert|].
  rewrite upd_none, msum_delete. cbn. lia.
Qed.
Lemma msum_ext f g m : map_Forall (λ _ x, f x = g x) m → msum f m = msum g m.
Proof.
  intros Hm. unfold msum. f_equal. apply list_fmap_ext. intros i [k x] Hx. cbn.
  apply (Hm k x). apply elem_of_map_to_list. by apply list_elem_of_lookup_2 in Hx.
Qed.
Lemma msum_add f g m : msum (λ x, f x + g x) m = msum f m + msum g m.
Proof.
  unfold msum. induction (map_to_list m) as [|[k x] l IH]; cbn; [done|].
  unfold zsum in *. cbn in *. lia.
Qed.
Lemma msum_scale f a m : msum (λ x, a * f x) m = a * msum f m.
Proof.
  unfold msum. induction (map_to_list m) as [|[k x] l IH]; [cbn; lia|].
  rewrite !fmap_cons, !zsum_cons, IH. cbn. lia.
Qed.
End upd.
