(* ===== verification/Runs.v ===== *)
(** * Runs of keepers and handlers

    Two triples for the state monad of [Prelude].  [runs m s Q]: the computation [m]
    returns a value from [s], without an error or a panic, and its result satisfies
    [Q]; for code that must not fail, such as the end of a block.  [safe m s Q]: [m]
    does not panic, and if it returns then its result satisfies [Q]; for message
    handlers, whose errors undo the message. *)

From S2P Require Import Prelude.

(** ** Runs *)

Section runs.
Context {S : Type}.

(** The computation returns, without an error or a panic, and its result satisfies [Q]. *)
Definition runs {A} (m : M S A) (s : S) (Q : A → S → Prop) : Prop :=
  ∃ a s', m s = (Ok a, s') ∧ Q a s'.

Lemma runs_mono {A} (m : M S A) s (P Q : A → S → Prop) :
  runs m s P → (∀ a s', P a s' → Q a s') → runs m s Q.
Proof. intros (a & s' & E & H) HPQ. exists a, s'. auto. Qed.

Lemma runs_eq {A} (m : M S A) s a s' (Q : A → S → Prop) : m s = (Ok a, s') → runs m s Q → Q a s'.
Proof. intros E (b & s1 & E1 & H). congruence. Qed.

Lemma runs_bind {A B} (m : M S A) (f : A → M S B) s Q :
  runs m s (λ a s', runs (f a) s' Q) → runs (m ≫= f) s Q.
Proof.
  intros (a & s1 & E & b & s2 & E2 & H). exists b, s2. split; [|done].
  by rewrite (bind_eq _ _ _ _ _ E).
Qed.

Lemma runs_assoc {A B C} (m : M S A) (f : A → M S B) (g : B → M S C) s Q :
  runs ((m ≫= f) ≫= g) s Q → runs (m ≫= λ a, f a ≫= g) s Q.
Proof.
  unfold runs, mbind, M_bind. by destruct (m s) as [[] s1].
Qed.
Lemma runs_ret {A} (a : A) s (Q : A → S → Prop) : Q a s → runs (mret a) s Q.
Proof. intros. by exists a, s. Qed.
Lemma runs_gets {A} (f : S → A) s (Q : A → S → Prop) : Q (f s) s → runs (gets f) s Q.
Proof. intros. by exists (f s), s. Qed.
Lemma runs_get s (Q : S → S → Prop) : Q s s → runs get s Q.
Proof. intros. by exists s, s. Qed.
Lemma runs_modify f s (Q : unit → S → Prop) : Q tt (f s) → runs (modify f) s Q.
Proof. intros. by exists tt, (f s). Qed.
Lemma runs_lift {A} (o : outcome A) a s (Q : A → S → Prop) : o = Ok a → Q a s → runs (lift o) s Q.
Proof. intros -> ?. by exists a, s. Qed.

(** A loop whose body keeps a property. *)
Lemma runs_mapM_ {A} (f : A → M S unit) l s (I : S → Prop) :
  I s → (∀ x s, x ∈ l → I s → runs (f x) s (λ _, I)) → runs (mapM_ f l) s (λ _, I).
Proof.
  intros Hs Hf. revert s Hs. induction l as [|x l IH]; intros s Hs; cbn [mapM_]; [by apply runs_ret|].
  apply runs_bind. eapply runs_mono; [apply Hf; [set_solver|done]|]. intros u s' Hs'. cbn in Hs'. cbn beta.
  apply IH; [|done]. intros y s1 Hy. apply Hf. set_solver.
Qed.
(** Loops with equal bodies. *)
Lemma mapM_ext {A} (f g : A → M S unit) l s : (∀ x s, f x s = g x s) → mapM_ f l s = mapM_ g l s.
Proof.
  intros H. revert s. induction l as [|x l IH]; intros s; cbn [mapM_]; [done|].
  unfold mbind, M_bind. rewrite H. destruct (g x s) as [[] s']; [apply IH|done|done].
Qed.
End runs.

(** ** Code that may fail, but does not panic *)

Section safe.
Context {S : Type}.

Definition safe {A} (m : M S A) (s : S) (Q : A → S → Prop) : Prop :=
  match m s with
  | (Ok a, s') => Q a s'
  | (Err _, _) => True
  | (Panic, _) => False
  end.

Lemma safe_mono {A} (m : M S A) s (P Q : A → S → Prop) :
  safe m s P → (∀ a s', P a s' → Q a s') → safe m s Q.
Proof. unfold safe. destruct (m s) as [[] s']; auto. Qed.

Lemma safe_runs {A} (m : M S A) s (Q : A → S → Prop) : runs m s Q → safe m s Q.
Proof. intros (a & s' & E & H). unfold safe. by rewrite E. Qed.

Lemma safe_ok {A} (m : M S A) s a s' (Q : A → S → Prop) : safe m s Q → m s = (Ok a, s') → Q a s'.
Proof. unfold safe. by intros H E; rewrite E in H. Qed.

Lemma safe_no_panic {A} (m : M S A) s (Q : A → S → Prop) : safe m s Q → fst (m s) ≠ Panic.
Proof. unfold safe. by destruct (m s) as [[] s']. Qed.

Lemma safe_bind {A B} (m : M S A) (f : A → M S B) s Q :
  safe m s (λ a s', safe (f a) s' Q) → safe (m ≫= f) s Q.
Proof. unfold safe, mbind, M_bind. by destruct (m s) as [[] s']. Qed.

Lemma safe_assoc {A B C} (m : M S A) (f : A → M S B) (g : B → M S C) s Q :
  safe ((m ≫= f) ≫= g) s Q → safe (m ≫= λ a, f a ≫= g) s Q.
Proof. unfold safe, mbind, M_bind. by destruct (m s) as [[] s']. Qed.
Lemma safe_ret {A} (a : A) s (Q : A → S → Prop) : Q a s → safe (mret a) s Q.
Proof. done. Qed.
Lemma safe_throw {A} e s (Q : A → S → Prop) : safe (throw e) s Q.
Proof. done. Qed.
Lemma safe_gets {A} (f : S → A) s (Q : A → S → Prop) : Q (f s) s → safe (gets f) s Q.
Proof. done. Qed.
Lemma safe_throw_if b e s (Q : unit → S → Prop) : (b = false → Q tt s) → safe (throw_if b e) s Q.
Proof. destruct b; [done|]. intros H. by apply H. Qed.
Lemma safe_or_throw {A} (o : option A) e s (Q : A → S → Prop) :
  (∀ a, o = Some a → Q a s) → safe (or_throw o e) s Q.
Proof. destruct o; [|done]. intros H. by apply H. Qed.
Lemma safe_wrap {A} f (m : M S A) s Q : safe m s Q → safe (wrap_err f m) s Q.
Proof. unfold safe, wrap_err. by destruct (m s) as [[] s']. Qed.
Lemma safe_lift {A} (o : outcome A) s (Q : A → S → Prop) :
  o ≠ Panic → (∀ a, o = Ok a → Q a s) → safe (lift o) s Q.
Proof. unfold safe, lift. destruct o; auto. Qed.
End safe.
