(* ===== verification/SdkDec.v ===== *)
(** * sdk.Dec: the fixed point decimals of the Cosmos SDK, as an interface

    [sdk.Dec] lives in github.com/cosmos/cosmos-sdk/types (in the fork pinned
    by src/go.mod), outside of this repository.  A value is the big.Int
    mantissa of a decimal with [Precision] digits after the point, so the model
    of a [Dec] is that mantissa, a [Z].  The operations are the fields of the
    class [Dec.Ops]; what the SDK documents about them is the class [Dec.Laws].
    Every definition of the development takes the operations, every theorem the
    laws; [Dec18] at the end is a concrete implementation that satisfies them.

    A division by zero panics in big.Int: the two divisions return [None] then.
    The overflow panic of the SDK (beyond 315 bits) is outside of the laws: they
    speak about executions in which no operation overflows. *)

From S2P Require Import Prelude.
From stdpp Require Import pretty.

#[local] Open Scope Z_scope.

Abbreviation Dec := Z (only parsing).

Module Dec.

Class Ops := {
  Precision : Z;
  ZeroDec : Dec;
  OneDec : Dec;
  NewDec : Z → Dec;
  NewDecFromBigInt : Z → Dec;
  NewDecWithPrec : Z → Z → Dec;
  MustNewDecFromStr : string → Dec;
  NewDecFromStr : string → option Dec;
  ToString : Dec → string;
  Add : Dec → Dec → Dec;
  Sub : Dec → Dec → Dec;
  Neg : Dec → Dec;
  Abs : Dec → Dec;
  Mul : Dec → Dec → Dec;
  MulTruncate : Dec → Dec → Dec;
  Quo : Dec → Dec → option Dec;
  QuoTruncate : Dec → Dec → option Dec;
  RoundDecimal : Dec → Z → Dec;
  MinDec : Dec → Dec → Dec;
  MaxDec : Dec → Dec → Dec;
  LT : Dec → Dec → bool;
  LTE : Dec → Dec → bool;
  GT : Dec → Dec → bool;
  GTE : Dec → Dec → bool;
  Equal : Dec → Dec → bool;
  IsZero : Dec → bool;
  IsPositive : Dec → bool;
  IsNegative : Dec → bool;
}.

(** One unit of the decimal, 10^Precision. *)
Definition unit `{Ops} : Z := 10 ^ Precision.

(** n / d rounded to a nearest integer, ties to even; [0 < d]. *)
Definition bankers (n d : Z) : Z :=
  let q := n / d in
  let r := 2 * (n mod d) in
  if (r <? d)%Z then q
  else if (d <? r)%Z then q + 1
  else if Z.even q then q else q + 1.

Class Laws `{O : Ops} : Prop := {
  Precision_ge : 8 ≤ Precision;
  ZeroDec_spec : ZeroDec = 0;
  OneDec_spec : OneDec = unit;
  NewDec_spec i : NewDec i = i * unit;
  NewDecFromBigInt_spec i : NewDecFromBigInt i = i * unit;
  NewDecWithPrec_spec i p :
    0 ≤ p ≤ Precision → NewDecWithPrec i p = i * 10 ^ (Precision - p);
  (* the decimal literals of the source *)
  lit_0 : MustNewDecFromStr "0" = 0;
  lit_1 : MustNewDecFromStr "1" = unit;
  lit_0_8 : MustNewDecFromStr "0.8" = 8 * 10 ^ (Precision - 1);
  lit_1_05 : MustNewDecFromStr "1.05" = 105 * 10 ^ (Precision - 2);
  lit_0_95 : MustNewDecFromStr "0.95" = 95 * 10 ^ (Precision - 2);
  lit_minFee : MustNewDecFromStr "0.00000001" = 10 ^ (Precision - 8);
  ToString_inj a b : ToString a = ToString b → a = b;
  Add_spec a b : Add a b = a + b;
  Sub_spec a b : Sub a b = a - b;
  Neg_spec a : Neg a = - a;
  Abs_spec a : Abs a = Z.abs a;
  (* Mul rounds to a nearest decimal, MulTruncate towards zero *)
  Mul_spec a b : 2 * Z.abs (Mul a b * unit - a * b) ≤ unit;
  MulTruncate_spec a b : MulTruncate a b = Z.quot (a * b) unit;
  Quo_zero a : Quo a 0 = None;
  Quo_spec a b : b ≠ 0 →
    ∃ q, Quo a b = Some q ∧ Z.abs (q * b - a * unit) < Z.abs b;
  (* Quo divides with twice the digits and rounds to a nearest decimal, ties to even *)
  Quo_bankers a b : 0 ≤ a → 0 < b →
    Quo a b = Some (bankers (a * unit * unit / b) unit);
  QuoTruncate_zero a : QuoTruncate a 0 = None;
  QuoTruncate_spec a b : b ≠ 0 → QuoTruncate a b = Some (Z.quot (a * unit) b);
  (* RoundDecimal keeps n digits, rounding to a nearest decimal *)
  RoundDecimal_digits a n :
    0 ≤ n ≤ Precision → (10 ^ (Precision - n) | RoundDecimal a n);
  RoundDecimal_near a n :
    0 ≤ n ≤ Precision → 2 * Z.abs (RoundDecimal a n - a) ≤ 10 ^ (Precision - n);
  MinDec_spec a b : MinDec a b = Z.min a b;
  MaxDec_spec a b : MaxDec a b = Z.max a b;
  LT_spec a b : LT a b = (a <? b)%Z;
  LTE_spec a b : LTE a b = (a <=? b)%Z;
  GT_spec a b : GT a b = (b <? a)%Z;
  GTE_spec a b : GTE a b = (b <=? a)%Z;
  Equal_spec a b : Equal a b = (a =? b)%Z;
  IsZero_spec a : IsZero a = (a =? 0)%Z;
  IsPositive_spec a : IsPositive a = (0 <? a)%Z;
  IsNegative_spec a : IsNegative a = (a <? 0)%Z;
}.

End Dec.

Create Rewrite HintDb dec.
#[export] Hint Rewrite @Dec.ZeroDec_spec @Dec.OneDec_spec @Dec.NewDec_spec
  @Dec.NewDecFromBigInt_spec @Dec.lit_0 @Dec.lit_1 @Dec.Add_spec @Dec.Sub_spec
  @Dec.Neg_spec @Dec.Abs_spec
  @Dec.MulTruncate_spec @Dec.MinDec_spec @Dec.MaxDec_spec @Dec.LT_spec
  @Dec.LTE_spec @Dec.GT_spec @Dec.GTE_spec @Dec.Equal_spec @Dec.IsZero_spec
  @Dec.IsPositive_spec @Dec.IsNegative_spec using typeclasses eauto : dec.

(** [dec_simp] turns the decimal operations of goal and context into integer
    ones, [dec_lia] then closes linear goals. *)
Ltac dec_simp := autorewrite with dec in *.
Ltac dec_bool :=
  repeat match goal with
  | H : (_ <? _)%Z = true |- _ => apply Z.ltb_lt in H
  | H : (_ <? _)%Z = false |- _ => apply Z.ltb_ge in H
  | H : (_ <=? _)%Z = true |- _ => apply Z.leb_le in H
  | H : (_ <=? _)%Z = false |- _ => apply Z.leb_gt in H
  | H : (_ =? _)%Z = true |- _ => apply Z.eqb_eq in H
  | H : (_ =? _)%Z = false |- _ => apply Z.eqb_neq in H
  | H : (_ && _)%bool = true |- _ => apply andb_true_iff in H as [??]
  | H : (_ && _)%bool = false |- _ => apply andb_false_iff in H
  | H : (_ || _)%bool = false |- _ => apply orb_false_iff in H as [??]
  | H : (_ || _)%bool = true |- _ => apply orb_true_iff in H
  | H : negb _ = true |- _ => apply negb_true_iff in H
  | H : negb _ = false |- _ => apply negb_false_iff in H
  end.
Ltac dec_lia := dec_simp; dec_bool; lia.

Section dec_lemmas.
Context `{L : Dec.Laws}.

Lemma unit_pos : 0 < Dec.unit.
Proof. unfold Dec.unit. pose proof Dec.Precision_ge. apply Z.pow_pos_nonneg; lia. Qed.

(** A product whose exact value has no more digits than a [Dec] is exact. *)
Lemma Mul_exact a b c : a * b = c * Dec.unit → Dec.Mul a b = c.
Proof.
  intros E. pose proof (Dec.Mul_spec a b) as H. rewrite E in H.
  pose proof unit_pos. nia.
Qed.

Lemma Mul_nonneg a b : 0 ≤ a → 0 ≤ b → 0 ≤ Dec.Mul a b.
Proof. intros. pose proof (Dec.Mul_spec a b). pose proof unit_pos. nia. Qed.

(** Rounding to nearest is monotone up to one unit in the last place. *)
Lemma Mul_le_mono a b c : 0 ≤ c → a ≤ b → Dec.Mul a c ≤ Dec.Mul b c + 1.
Proof.
  intros. pose proof (Dec.Mul_spec a c). pose proof (Dec.Mul_spec b c).
  pose proof unit_pos. nia.
Qed.

Lemma Mul_int a n : Dec.Mul a (n * Dec.unit) = a * n.
Proof. apply Mul_exact. lia. Qed.

Lemma Mul_0_r a : Dec.Mul a 0 = 0.
Proof. apply Mul_exact. lia. Qed.

Lemma Mul_0_l a : Dec.Mul 0 a = 0.
Proof. apply Mul_exact. lia. Qed.

(** RoundDecimal is the identity on decimals of at most [n] digits, and only
    on them: this is what the accuracy check of new orders tests. *)
Lemma RoundDecimal_id a n : 0 ≤ n ≤ Dec.Precision →
  Dec.RoundDecimal a n = a ↔ (10 ^ (Dec.Precision - n) | a).
Proof.
  intros Hn. pose proof (Dec.RoundDecimal_digits a n Hn) as [k Hk].
  pose proof (Dec.RoundDecimal_near a n Hn) as Hd.
  assert (0 < 10 ^ (Dec.Precision - n)) by (apply Z.pow_pos_nonneg; lia).
  split.
  - intros <-. by exists k.
  - intros [j ->]. rewrite Hk in *. f_equal. nia.
Qed.

Lemma RoundDecimal_mono a b n : 0 ≤ n ≤ Dec.Precision →
  (10 ^ (Dec.Precision - n) | a) → a ≤ b → a ≤ Dec.RoundDecimal b n.
Proof.
  intros Hn [k ->] ?. pose proof (Dec.RoundDecimal_digits b n Hn) as [j Hj].
  pose proof (Dec.RoundDecimal_near b n Hn).
  assert (0 < 10 ^ (Dec.Precision - n)) by (apply Z.pow_pos_nonneg; lia).
  rewrite Hj in *. destruct (Z.le_gt_cases k j); [nia|].
  assert (j * 10 ^ (Dec.Precision - n) + 10 ^ (Dec.Precision - n)
    ≤ k * 10 ^ (Dec.Precision - n)) by nia. lia.
Qed.

(** ** The rounded quotient is monotone, and a ratio and its complement round to one at most *)

Lemma bankers_range n d : 0 < d → n / d ≤ Dec.bankers n d ≤ n / d + 1.
Proof. intros. unfold Dec.bankers. repeat case_match; lia. Qed.

Lemma bankers_mono n m d : 0 < d → n ≤ m → Dec.bankers n d ≤ Dec.bankers m d.
Proof.
  intros Hd Hnm. pose proof (bankers_range n d Hd). pose proof (bankers_range m d Hd).
  pose proof (Z.div_le_mono n m d Hd Hnm). destruct (decide (n / d = m / d)) as [E|]; [|lia].
  pose proof (Z.div_mod n d ltac:(lia)) as En. pose proof (Z.div_mod m d ltac:(lia)) as Em.
  unfold Dec.bankers. rewrite E in *.
  destruct (Z.ltb_spec (2 * (n mod d)) d), (Z.ltb_spec (2 * (m mod d)) d); try lia; [repeat case_match; lia|].
  destruct (Z.ltb_spec d (2 * (n mod d))), (Z.ltb_spec d (2 * (m mod d))); try lia.
  destruct (Z.even (m / d)); lia.
Qed.

Lemma bankers_compl t u : 0 < u → Z.even u = true → Dec.bankers t u + Dec.bankers (u * u - t) u = u.
Proof.
  intros Hu Hev. pose proof (Z.div_mod t u ltac:(lia)) as Et. pose proof (Z.mod_pos_bound t u Hu) as Hr.
  set (k := t / u) in *. set (r := t mod u) in *. unfold Dec.bankers. fold k r.
  destruct (decide (r = 0)) as [E0|Hr0].
  - assert (u * u - t = (u - k) * u) as -> by nia. rewrite Z.div_mul, Z.mod_mul, E0 by lia.
    destruct (Z.ltb_spec (2 * 0) u); lia.
  - assert (u * u - t = (u - r) + (u - k - 1) * u) as -> by nia.
    rewrite Z.div_add, Z.mod_add, (Z.div_small (u - r)), (Z.mod_small (u - r)) by lia.
    destruct (Z.ltb_spec (2 * r) u), (Z.ltb_spec (2 * (u - r)) u); try lia.
    + destruct (Z.ltb_spec u (2 * (u - r))); lia.
    + destruct (Z.ltb_spec u (2 * r)); lia.
    + destruct (Z.ltb_spec u (2 * r)), (Z.ltb_spec u (2 * (u - r))); try lia.
      replace (0 + (u - k - 1)) with (u - (k + 1)) by lia. rewrite Z.even_sub, Hev, Z.even_add.
      cbn. destruct (Z.even k); cbn; lia.
Qed.

Lemma unit_even : Z.even Dec.unit = true.
Proof.
  unfold Dec.unit. pose proof Dec.Precision_ge.
  rewrite <-(Z.succ_pred Dec.Precision), Z.pow_succ_r, Z.even_mul by lia. done.
Qed.

Lemma Quo_mono a b a' b' q q' : 0 ≤ a → 0 < b → 0 ≤ a' → 0 < b' → a * b' ≤ a' * b →
  Dec.Quo a b = Some q → Dec.Quo a' b' = Some q' → q ≤ q'.
Proof.
  intros ? ? ? ? Hle. rewrite !Dec.Quo_bankers by done. intros [= <-] [= <-]. pose proof unit_pos.
  apply bankers_mono; [done|]. apply Z.div_le_lower_bound; [done|].
  pose proof (Z.mul_div_le (a * Dec.unit * Dec.unit) b ltac:(lia)) as Hk.
  set (k := a * Dec.unit * Dec.unit / b) in *. assert (0 ≤ k) by (apply Z.div_pos; nia).
  assert (b * k * b' ≤ a' * b * (Dec.unit * Dec.unit)) by nia. nia.
Qed.

Lemma Quo_compl a b q q' : 0 ≤ a ≤ b → 0 < b →
  Dec.Quo a b = Some q → Dec.Quo (b - a) b = Some q' → q + q' ≤ Dec.unit.
Proof.
  intros ? Hb. rewrite !Dec.Quo_bankers by lia. intros [= <-] [= <-]. pose proof unit_pos as Hu.
  set (u := Dec.unit) in *. set (t := a * u * u / b). set (t' := (b - a) * u * u / b).
  assert (t' ≤ u * u - t) as Ht.
  { pose proof (Z.mul_div_le (a * u * u) b Hb). pose proof (Z.mul_div_le ((b - a) * u * u) b Hb).
    fold t in H0. fold t' in H1. nia. }
  pose proof (bankers_mono t' (u * u - t) u Hu Ht). pose proof (bankers_compl t u Hu unit_even). lia.
Qed.

Lemma quot_quot a b c : 0 ≤ a → 0 < b → 0 < c → a ÷ b ÷ c = a ÷ (b * c).
Proof. intros. rewrite Z.quot_quot; lia. Qed.
End dec_lemmas.

(** ** A concrete implementation

    Eighteen digits, banker's rounding, exact parsing of decimal literals.  It shows
    that the laws are satisfiable and gives the witnesses something to run. *)

Module Dec18.
Definition digit (a : Ascii.ascii) : option Z :=
  let n := Z.of_nat (Ascii.nat_of_ascii a) - 48 in
  if ((0 <=? n) && (n <=? 9))%Z then Some n else None.

(** The mantissa and the number of digits after the point. *)
Fixpoint parse (s : string) (acc : Z) (frac : option Z) : option (Z * Z) :=
  match s with
  | EmptyString => Some (acc, default 0 frac)
  | String a s =>
      if Ascii.eqb a (Ascii.ascii_of_nat 46) then
        match frac with None => parse s acc (Some 0) | Some _ => None end
      else match digit a with
           | Some d => parse s (10 * acc + d) (Z.succ <$> frac)
           | None => None
           end
  end.

Definition from_str (s : string) : Z :=
  match parse s 0 None with Some (m, k) => m * 10 ^ (18 - k) | None => 0 end.

#[local] Instance ops : Dec.Ops := {|
  Dec.Precision := 18;
  Dec.ZeroDec := 0;
  Dec.OneDec := 10 ^ 18;
  Dec.NewDec i := i * 10 ^ 18;
  Dec.NewDecFromBigInt i := i * 10 ^ 18;
  Dec.NewDecWithPrec i p := i * 10 ^ (18 - p);
  Dec.MustNewDecFromStr := from_str;
  Dec.NewDecFromStr s :=
    match parse s 0 None with Some (m, k) => Some (m * 10 ^ (18 - k)) | None => None end;
  Dec.ToString := pretty;
  Dec.Add := Z.add;
  Dec.Sub := Z.sub;
  Dec.Neg := Z.opp;
  Dec.Abs := Z.abs;
  Dec.Mul a b := Dec.bankers (a * b) (10 ^ 18);
  Dec.MulTruncate a b := Z.quot (a * b) (10 ^ 18);
  Dec.Quo a b :=
    if (b =? 0)%Z then None
    else let t := Z.quot (a * 10 ^ 18 * 10 ^ 18) b in
         Some (Z.sgn t * Dec.bankers (Z.abs t) (10 ^ 18));
  Dec.QuoTruncate a b := if (b =? 0)%Z then None else Some (Z.quot (a * 10 ^ 18) b);
  Dec.RoundDecimal a n := Dec.bankers a (10 ^ (18 - n)) * 10 ^ (18 - n);
  Dec.MinDec := Z.min;
  Dec.MaxDec := Z.max;
  Dec.LT := Z.ltb;
  Dec.LTE := Z.leb;
  Dec.GT := Z.gtb;
  Dec.GTE := Z.geb;
  Dec.Equal := Z.eqb;
  Dec.IsZero a := (a =? 0)%Z;
  Dec.IsPositive a := (0 <? a)%Z;
  Dec.IsNegative a := (a <? 0)%Z;
|}.

Lemma bankers_near n d : 0 < d → 2 * Z.abs (Dec.bankers n d * d - n) ≤ d.
Proof.
  intros Hd. unfold Dec.bankers.
  pose proof (Z.div_mod n d ltac:(lia)). pose proof (Z.mod_pos_bound n d Hd).
  destruct (2 * (n mod d) <? d) eqn:E1; dec_bool; [lia|].
  destruct (d <? 2 * (n mod d)) eqn:E2; dec_bool; [lia|].
  destruct (Z.even (n / d)); lia.
Qed.

Lemma quot_near a b : b ≠ 0 → Z.abs (Z.quot a b * b - a) < Z.abs b.
Proof.
  intros Hb. pose proof (Z.quot_rem a b Hb).
  pose proof (Z.rem_bound_abs a b Hb). nia.
Qed.

(** The signed rounding of the truncated quotient stays close. *)
Lemma quo_near a b u : b ≠ 0 → 2 < u →
  let t := Z.quot (a * u * u) b in
  Z.abs (Z.sgn t * Dec.bankers (Z.abs t) u * b - a * u) < Z.abs b.
Proof.
  intros Hb Hu t. pose proof (quot_near (a * u * u) b Hb) as Ht. fold t in Ht.
  pose proof (bankers_near (Z.abs t) u ltac:(lia)) as Hn. set (q := Dec.bankers (Z.abs t) u) in *.
  assert (2 * Z.abs (Z.sgn t * q * u - t) ≤ u) as Hs.
  { destruct (Z.sgn_spec t) as [[? ->]|[[? ->]|[? ->]]]; [lia|nia|lia]. }
  set (r := Z.sgn t * q) in *. assert (Z.abs (r * u - t) * Z.abs b * 2 ≤ u * Z.abs b) by nia.
  rewrite <-Z.abs_mul in *. assert (Z.abs (u * (r * b - a * u)) * 2 < 2 * (u * Z.abs b)) by nia.
  rewrite Z.abs_mul, (Z.abs_eq u) in * by lia. nia.
Qed.

Lemma dec_laws : Dec.Laws.
Proof.
  split; cbn; intros;
    rewrite ?Z.gtb_ltb, ?Z.geb_leb; try reflexivity; try lia.
  - by apply (inj pretty).
  - by apply (bankers_near _ (10 ^ 18)).
  - destruct (Z.eqb_spec b 0); [lia|]. eexists. split; [done|]. by apply (quo_near a b (10 ^ 18)).
  - destruct (Z.eqb_spec b 0); [lia|]. rewrite Z.quot_div_nonneg by lia.
    assert (0 ≤ a * 10 ^ 18 * 10 ^ 18 / b) by (apply Z.div_pos; lia). f_equal.
    change Dec.unit with (10 ^ 18). rewrite Z.abs_eq by done.
    destruct (Z.sgn_spec (a * 10 ^ 18 * 10 ^ 18 / b)) as [[? ->]|[[? ->]|[? ->]]]; [lia| |lia].
    replace (a * 10 ^ 18 * 10 ^ 18 / b) with 0 by lia. done.
  - destruct (Z.eqb_spec b 0); [lia|]. done.
  - apply Z.divide_factor_r.
  - apply bankers_near, Z.pow_pos_nonneg; lia.
Qed.
End Dec18.
