(* ===== verification/SdkCoins.v ===== *)
(** * sdk.SysCoins and the bank and supply keepers, as interfaces

    [sdk.SysCoin] (a denomination with a decimal amount), [sdk.SysCoins] (a
    slice of them) and the bank and supply keepers are code of the Cosmos SDK.
    The two data types are records and lists as the source builds and
    destructures them; the operations are the class [Coins.Ops] and the keepers
    the class [Bank.Ops].  [Coins.Laws] and [Bank.Laws] state what the SDK
    documents, in terms of the amount [amt d c] of a denomination in a set of
    coins and of the balance of an account.  [CoinsImpl] and [BankImpl] at the
    end implement the two interfaces. *)

From S2P Require Import Prelude SdkDec.
From stdpp Require Import pretty.

#[local] Open Scope Z_scope.

(** Bytes of an sdk.AccAddress. *)
Abbreviation AccAddress := string (only parsing).

Record SysCoin := MkCoin { Denom : string; Amount : Dec }.

#[export] Instance SysCoin_eq_dec : EqDecision SysCoin.
Proof. solve_decision. Defined.

Abbreviation SysCoins := (list SysCoin) (only parsing).

(** The amount of denomination [d] in one coin and in a set of coins. *)
Definition coin_amt (d : string) (c : SysCoin) : Z :=
  if decide (Denom c = d) then Amount c else 0.
Definition amt (d : string) (c : SysCoins) : Z := zsum (coin_amt d <$> c).

#[global] Arguments amt : simpl never.
#[global] Arguments coin_amt : simpl never.

(** Strictly sorted by denomination, the form the SDK keeps coins in. *)
Definition sorted_coins (c : SysCoins) : Prop :=
  StronglySorted (λ a b, String.ltb (Denom a) (Denom b) = true) c.

Module Coins.

Class Ops := {
  DefaultBondDenom : string;
  ValidDenom : string → bool;
  NewDecCoinFromDec : string → Dec → option SysCoin;
  ZeroFee : SysCoin;
  CoinIsValid : SysCoin → bool;
  CoinIsPositive : SysCoin → bool;
  CoinIsZero : SysCoin → bool;
  ToCoins : SysCoin → SysCoins;
  CoinAdd : SysCoin → SysCoin → option SysCoin;
  CoinSub : SysCoin → SysCoin → option SysCoin;
  CoinIsLT : SysCoin → SysCoin → option bool;
  Add2 : SysCoins → SysCoins → SysCoins;
  SafeSub : SysCoins → SysCoins → SysCoins * bool;
  Sub : SysCoins → SysCoins → option SysCoins;
  AmountOf : SysCoins → string → Dec;
  IsZero : SysCoins → bool;
  IsValid : SysCoins → bool;
  Sort : SysCoins → SysCoins;
  ToString : SysCoins → string;
  ParseDecCoins : string → option SysCoins;
  MustParseCoins : string → string → option SysCoins;
  IsAllPositive : SysCoins → bool;
  NewDecCoin : string → Z → option SysCoin;
  NewDecCoins : SysCoins → option SysCoins;
  NewDecCoinsFromDec : string → Dec → option SysCoins;
  QuoDecTruncate : SysCoins → Dec → option SysCoins;
  MulDecTruncate : SysCoins → Dec → SysCoins;
  IsAllLT : SysCoins → SysCoins → bool;
  IsEqual : SysCoins → SysCoins → option bool;
  CoinIsEqual : SysCoin → SysCoin → option bool;
  MulDec : SysCoins → Dec → SysCoins;
  Add : SysCoins → SysCoins → SysCoins;
  IsAllGTE : SysCoins → SysCoins → bool;
  IsAnyNegative : SysCoins → bool;
  (* the SDK's own errors *)
  ErrInternal : error;
  ErrInvalidAddress : error;
  ErrInvalidCoins : error;
  ErrInsufficientFunds : error;
  ErrUnknownRequest : error;
}.

(** Sorted, with valid denominations and amounts that are not negative: what
    IsValid demands, but for the coins of amount zero it also excludes. *)
Definition good `{Ops} (c : SysCoins) : Prop :=
  sorted_coins c ∧ Forall (λ x, 0 ≤ Amount x ∧ ValidDenom (Denom x) = true) c.

Class Laws `{DO : Dec.Ops, O : Ops} : Prop := {
  DefaultBondDenom_valid : ValidDenom DefaultBondDenom = true;
  (* the constructor panics on a negative amount or a bad denomination *)
  NewDecCoinFromDec_ok d a :
    ValidDenom d = true → 0 ≤ a → NewDecCoinFromDec d a = Some (MkCoin d a);
  NewDecCoinFromDec_inv d a c :
    NewDecCoinFromDec d a = Some c → c = MkCoin d a ∧ 0 ≤ a;
  NewDecCoinFromDec_valid d a c :
    NewDecCoinFromDec d a = Some c → ValidDenom d = true;
  ZeroFee_spec : Amount ZeroFee = 0;
  CoinIsValid_spec c : CoinIsValid c = (ValidDenom (Denom c) && (0 <=? Amount c)%Z)%bool;
  CoinIsPositive_spec c : CoinIsPositive c = (0 <? Amount c)%Z;
  CoinIsZero_spec c : CoinIsZero c = (Amount c =? 0)%Z;
  ToCoins_sorted c : sorted_coins (ToCoins c);
  ToCoins_amt c d : amt d (ToCoins c) = coin_amt d c;
  ToCoins_good c : 0 ≤ Amount c → ValidDenom (Denom c) = true → good (ToCoins c);
  ToCoins_valid c : 0 < Amount c → ValidDenom (Denom c) = true → IsValid (ToCoins c) = true;
  (* coins of different denominations, or a negative result, panic *)
  CoinAdd_ok a b : Denom a = Denom b →
    CoinAdd a b = Some (MkCoin (Denom a) (Amount a + Amount b));
  CoinAdd_ne a b : Denom a ≠ Denom b → CoinAdd a b = None;
  CoinSub_ok a b : Denom a = Denom b → Amount b ≤ Amount a →
    CoinSub a b = Some (MkCoin (Denom a) (Amount a - Amount b));
  CoinSub_inv a b c : CoinSub a b = Some c →
    Denom a = Denom b ∧ Amount b ≤ Amount a ∧
    c = MkCoin (Denom a) (Amount a - Amount b);
  CoinIsLT_ok a b : Denom a = Denom b →
    CoinIsLT a b = Some (Amount a <? Amount b)%Z;
  CoinIsLT_ne a b : Denom a ≠ Denom b → CoinIsLT a b = None;
  CoinIsEqual_ok a b : Denom a = Denom b →
    CoinIsEqual a b = Some (Amount a =? Amount b)%Z;
  Add2_sorted a b : sorted_coins a → sorted_coins b → sorted_coins (Add2 a b);
  Add2_amt a b d : sorted_coins a → sorted_coins b →
    amt d (Add2 a b) = amt d a + amt d b;
  SafeSub_sorted a b : sorted_coins a → sorted_coins b →
    sorted_coins (SafeSub a b).1;
  SafeSub_amt a b d : sorted_coins a → sorted_coins b →
    amt d (SafeSub a b).1 = amt d a - amt d b;
  SafeSub_neg a b : sorted_coins a → sorted_coins b →
    (SafeSub a b).2 = false ↔ ∀ d, amt d b ≤ amt d a;
  (* Sub is SafeSub with a panic on a negative result *)
  Sub_spec a b : Sub a b = if (SafeSub a b).2 then None else Some (SafeSub a b).1;
  AmountOf_spec c d : sorted_coins c → AmountOf c d = amt d c;
  IsZero_spec c : IsZero c = true ↔ Forall (λ x, Amount x = 0) c;
  IsValid_spec c : IsValid c = true ↔
    sorted_coins c ∧ Forall (λ x, 0 < Amount x ∧ ValidDenom (Denom x) = true) c;
  IsAllPositive_spec c :
    IsAllPositive c = true ↔ c ≠ [] ∧ Forall (λ x, 0 < Amount x) c;
  (* one coin of the parsed amount; an amount that does not parse panics *)
  MustParseCoins_spec d s c : MustParseCoins d s = Some c →
    sorted_coins c ∧ ∃ a, Dec.NewDecFromStr s = Some a ∧ ∀ d', amt d' c = coin_amt d' (MkCoin d a);
  (* sums, differences, quotients and products keep coins valid: they drop the
     coins whose amount has become zero *)
  Add2_valid a b : good a → good b → IsValid (Add2 a b) = true;
  SafeSub_valid a b : good a → good b → (SafeSub a b).2 = false →
    IsValid (SafeSub a b).1 = true;
  NewDecCoin_spec d i : NewDecCoin d i = NewDecCoinFromDec d (Dec.NewDec i);
  NewDecCoins_spec c : 0 ≤ Amount c → ValidDenom (Denom c) = true →
    ∃ l, NewDecCoins [c] = Some l ∧ good l ∧ ∀ d, amt d l = coin_amt d c;
  NewDecCoinsFromDec_inv d a c : NewDecCoinsFromDec d a = Some c →
    0 ≤ a ∧ good c ∧ ∀ d', amt d' c = coin_amt d' (MkCoin d a);
  NewDecCoinsFromDec_total d a : ValidDenom d = true → 0 ≤ a →
    is_Some (NewDecCoinsFromDec d a);
  (* a zero divisor panics *)
  QuoDecTruncate_zero c : QuoDecTruncate c 0 = None;
  QuoDecTruncate_spec c x : good c → 0 < x →
    ∃ r, QuoDecTruncate c x = Some r ∧ IsValid r = true ∧
      ∀ d, amt d r = Z.quot (amt d c * Dec.unit) x;
  MulDecTruncate_valid c x : good c → 0 ≤ x → IsValid (MulDecTruncate c x) = true;
  MulDecTruncate_amt c x d : good c → 0 ≤ x →
    amt d (MulDecTruncate c x) = Z.quot (amt d c * x) Dec.unit;
  (* less in every denomination, and of what is there *)
  IsAllLT_false a b : IsValid a = true → IsValid b = true →
    (∀ d, amt d b ≤ amt d a) → IsAllLT a b = false;
  IsEqual_true a b : IsValid a = true → IsValid b = true →
    (∀ d, amt d a = amt d b) → IsEqual a b = Some true;
  (* Add takes the coins one by one, Add2 as a set *)
  Add_spec a b : Add a b = Add2 a b;
  (* at least as much in every denomination *)
  IsAllGTE_spec a b : IsValid a = true → IsValid b = true →
    IsAllGTE a b = true ↔ ∀ d, amt d b ≤ amt d a;
  IsAnyNegative_spec c : IsAnyNegative c = true ↔ Exists (λ x, Amount x < 0) c;
  Sort_perm c : Sort c ≡ₚ c;
  Sort_sorted c : NoDup (Denom <$> c) → sorted_coins (Sort c);
}.

End Coins.

(** ** Facts on coins that follow from the laws *)

Lemma amt_nil d : amt d [] = 0.
Proof. done. Qed.

Lemma amt_cons d c l : amt d (c :: l) = coin_amt d c + amt d l.
Proof. done. Qed.

Lemma amt_single d c : amt d [c] = coin_amt d c.
Proof. rewrite amt_cons, amt_nil. lia. Qed.

Lemma amt_perm d a b : a ≡ₚ b → amt d a = amt d b.
Proof. intros Hp. apply zsum_perm. by rewrite Hp. Qed.

Lemma amt_zero c d : Forall (λ x, Amount x = 0) c → amt d c = 0.
Proof.
  induction 1; [done|]. rewrite amt_cons. unfold coin_amt. case_decide; lia.
Qed.

Lemma amt_nonneg c d : Forall (λ x, 0 ≤ Amount x) c → 0 ≤ amt d c.
Proof.
  induction 1; [done|]. rewrite amt_cons. unfold coin_amt. case_decide; lia.
Qed.

Lemma coin_amt_eq d a : coin_amt d (MkCoin d a) = a.
Proof. unfold coin_amt. by rewrite decide_True. Qed.

Lemma coin_amt_ne d d' a : d' ≠ d → coin_amt d (MkCoin d' a) = 0.
Proof. intros. unfold coin_amt. by rewrite decide_False. Qed.

Lemma sorted_coins_single c : sorted_coins [c].
Proof. repeat constructor. Qed.

Lemma sorted_coins_nil : sorted_coins [].
Proof. constructor. Qed.

Create HintDb coins.
#[export] Hint Resolve sorted_coins_single sorted_coins_nil Coins.ToCoins_sorted
  Coins.Add2_sorted Coins.SafeSub_sorted : coins.

(** ** The bank and supply keepers *)

Module Bank.

Class Ops := {
  state : Type;
  GetModuleAddress : string → AccAddress;
  GetCoins : state → AccAddress → SysCoins;
  GetSupplyByDenom : state → string → Dec;
  GetSendEnabled : state → bool;
  BlacklistedAddr : AccAddress → bool;
  SendCoins : AccAddress → AccAddress → SysCoins → M state unit;
  SendCoinsFromAccountToModule : AccAddress → string → SysCoins → M state unit;
  SendCoinsFromModuleToAccount : string → AccAddress → SysCoins → M state unit;
  SendCoinsFromModuleToModule : string → string → SysCoins → M state unit;
  MintCoins : string → SysCoins → M state unit;
  BurnCoins : string → SysCoins → M state unit;
  (* writes the coins of a module account, as genesis does *)
  SetModuleCoins : string → SysCoins → state → state;
}.

Definition balance `{Ops} (s : state) (a : AccAddress) (d : string) : Z :=
  amt d (GetCoins s a).

(** [c] left [from], arrived at [to], and nothing else happened. *)
Definition moved `{Ops} (s s' : state) (from to : AccAddress) (c : SysCoins) : Prop :=
  (∀ a d, balance s' a d =
    balance s a d - (if decide (a = from) then amt d c else 0)
                  + (if decide (a = to) then amt d c else 0)) ∧
  (∀ d, GetSupplyByDenom s' d = GetSupplyByDenom s d).

Class Laws `{CO : Coins.Ops, O : Ops} : Prop := {
  GetCoins_sorted s a : sorted_coins (GetCoins s a);
  GetCoins_valid s a : Coins.IsValid (GetCoins s a) = true;
  balance_nonneg s a d : 0 ≤ balance s a d;
  SendCoins_ok from to c s s' :
    SendCoins from to c s = (Ok tt, s') →
    moved s s' from to c ∧ ∀ d, 0 ≤ amt d c ≤ balance s from d;
  SendCoins_err from to c s e s' :
    SendCoins from to c s = (Err e, s') → s' = s;
  SendCoins_no_panic from to c s s' : SendCoins from to c s ≠ (Panic, s');
  (* the three supply keeper transfers are bank transfers *)
  AccountToModule_spec a m c :
    SendCoinsFromAccountToModule a m c = SendCoins a (GetModuleAddress m) c;
  ModuleToAccount_spec m a c :
    SendCoinsFromModuleToAccount m a c = SendCoins (GetModuleAddress m) a c;
  ModuleToModule_spec m m' c :
    SendCoinsFromModuleToModule m m' c =
    SendCoins (GetModuleAddress m) (GetModuleAddress m') c;
  (* a module account has no vesting schedule: it can spend its balance *)
  ModuleSend_total m a c s :
    Coins.IsValid c = true →
    (∀ d, amt d c ≤ balance s (GetModuleAddress m) d) →
    ∃ s', SendCoins (GetModuleAddress m) a c s = (Ok tt, s');
  MintCoins_ok m c s s' :
    MintCoins m c s = (Ok tt, s') →
    (∀ a d, balance s' a d =
      balance s a d + if decide (a = GetModuleAddress m) then amt d c else 0) ∧
    (∀ d, GetSupplyByDenom s' d = GetSupplyByDenom s d + amt d c);
  MintCoins_err m c s e s' : MintCoins m c s = (Err e, s') → s' = s;
  BurnCoins_ok m c s s' :
    BurnCoins m c s = (Ok tt, s') →
    (∀ a d, balance s' a d =
      balance s a d - if decide (a = GetModuleAddress m) then amt d c else 0) ∧
    (∀ d, GetSupplyByDenom s' d = GetSupplyByDenom s d - amt d c) ∧
    (∀ d, 0 ≤ amt d c ≤ balance s (GetModuleAddress m) d);
  BurnCoins_err m c s e s' : BurnCoins m c s = (Err e, s') → s' = s;
  BurnCoins_total m c s : Coins.IsValid c = true →
    (∀ d, amt d c ≤ balance s (GetModuleAddress m) d) →
    ∃ s', BurnCoins m c s = (Ok tt, s');
  SetModuleCoins_spec m c s a : Coins.IsValid c = true →
    GetCoins (SetModuleCoins m c s) a =
      if decide (a = GetModuleAddress m) then c else GetCoins s a;
}.

End Bank.

(** ** Concrete implementations *)

Lemma str_ltb_spec a b : String.ltb a b = true ↔ String.le a b ∧ a ≠ b.
Proof.
  unfold String.ltb, String.le, String.leb. split.
  - destruct (String.compare a b) eqn:E; try done. intros _. split; [done|].
    intros ->. pose proof (String.compare_antisym b b) as H.
    rewrite E in H. done.
  - intros [H Hne]. destruct (String.compare a b) eqn:E; try done.
    by apply String.compare_eq_iff in E.
Qed.

Lemma str_ltb_trans a b c :
  String.ltb a b = true → String.ltb b c = true → String.ltb a c = true.
Proof.
  rewrite !str_ltb_spec. intros [H1 N1] [H2 N2]. split; [by etrans|].
  intros ->. apply N2. by apply (anti_symm String.le).
Qed.

Lemma str_ltb_total a b :
  a ≠ b → String.ltb a b = false → String.ltb b a = true.
Proof.
  intros Hne H. apply str_ltb_spec. split; [|done].
  destruct (total String.le a b) as [Hle|]; [|done].
  exfalso. apply not_true_iff_false in H. apply H. by apply str_ltb_spec.
Qed.

Module CoinsImpl.
(** Adds one coin to a sorted set. *)
Fixpoint insert_coin (c : SysCoin) (l : SysCoins) : SysCoins :=
  match l with
  | [] => [c]
  | x :: l' =>
      if decide (Denom x = Denom c) then MkCoin (Denom x) (Amount x + Amount c) :: l'
      else if String.ltb (Denom c) (Denom x) then c :: l
      else x :: insert_coin c l'
  end.

Definition nonzero (l : SysCoins) : SysCoins := filter (λ x, Amount x ≠ 0) l.
Definition add (a b : SysCoins) : SysCoins := nonzero (foldr insert_coin a b).
Definition negate (l : SysCoins) : SysCoins := (λ x, MkCoin (Denom x) (- Amount x)) <$> l.
Definition safe_sub (a b : SysCoins) : SysCoins * bool :=
  let c := add a (negate b) in (c, existsb (λ x, Amount x <? 0)%Z c).

(** Scales every amount and drops the coins that become zero. *)
Definition map_amount (f : Z → Z) (l : SysCoins) : SysCoins :=
  nonzero ((λ x, MkCoin (Denom x) (f (Amount x))) <$> l).
(** Every coin of [b] is in [a] with a greater amount. *)
Definition all_gt (a b : SysCoins) : bool :=
  match a, b with
  | [], _ => false
  | _, [] => true
  | _, _ => forallb (λ y, (bool_decide (Denom y ∈ Denom <$> a) && (Amount y <? amt (Denom y) a)%Z)%bool) b
  end.

Definition valid_denom (d : string) : bool := negb (String.eqb d "").
Definition sortedb (l : SysCoins) : bool :=
  bool_decide (StronglySorted (λ a b, String.ltb (Denom a) (Denom b) = true) l).

Definition denom_le (a b : SysCoin) : Prop := String.le (Denom a) (Denom b).
#[local] Instance denom_le_dec : RelDecision denom_le.
Proof. intros a b. apply String.le_dec. Defined.

#[local] Existing Instance Dec18.ops.
#[local] Instance ops : Coins.Ops := {|
  Coins.DefaultBondDenom := "okt";
  Coins.ValidDenom := valid_denom;
  Coins.NewDecCoinFromDec d a :=
    if (valid_denom d && (0 <=? a)%Z)%bool then Some (MkCoin d a) else None;
  Coins.ZeroFee := MkCoin "okt" 0;
  Coins.CoinIsValid c := (valid_denom (Denom c) && (0 <=? Amount c)%Z)%bool;
  Coins.CoinIsPositive c := (0 <? Amount c)%Z;
  Coins.CoinIsZero c := (Amount c =? 0)%Z;
  Coins.ToCoins c := [c];
  Coins.CoinAdd a b :=
    if decide (Denom a = Denom b) then Some (MkCoin (Denom a) (Amount a + Amount b)) else None;
  Coins.CoinSub a b :=
    if decide (Denom a = Denom b ∧ Amount b ≤ Amount a)
    then Some (MkCoin (Denom a) (Amount a - Amount b)) else None;
  Coins.CoinIsLT a b :=
    if decide (Denom a = Denom b) then Some (Amount a <? Amount b)%Z else None;
  Coins.Add2 := add;
  Coins.SafeSub := safe_sub;
  Coins.Sub a b := if (safe_sub a b).2 then None else Some (safe_sub a b).1;
  Coins.AmountOf c d := amt d c;
  Coins.IsZero c := forallb (λ x, Amount x =? 0)%Z c;
  Coins.IsValid c :=
    (sortedb c && forallb (λ x, (0 <? Amount x)%Z && valid_denom (Denom x)) c)%bool;
  Coins.Sort := merge_sort denom_le;
  Coins.ToString c := foldr (λ x s, pretty (Amount x) +:+ Denom x +:+ "," +:+ s) "" c;
  Coins.ParseDecCoins s := None;
  Coins.MustParseCoins d s := (λ a, [MkCoin d a]) <$> Dec.NewDecFromStr s;
  Coins.NewDecCoin d i :=
    if (valid_denom d && (0 <=? i * Dec.unit)%Z)%bool then Some (MkCoin d (i * Dec.unit)) else None;
  Coins.NewDecCoins c := Some (add [] c);
  Coins.NewDecCoinsFromDec d a :=
    if (valid_denom d && (0 <=? a)%Z)%bool then Some [MkCoin d a] else None;
  Coins.QuoDecTruncate c x :=
    if decide (x = 0) then None else Some (map_amount (λ a, Z.quot (a * Dec.unit) x) c);
  Coins.MulDecTruncate c x := map_amount (λ a, Z.quot (a * x) Dec.unit) c;
  Coins.IsAllLT a b := all_gt b a;
  Coins.IsEqual a b := Some (bool_decide (a = b));
  Coins.CoinIsEqual a b :=
    if decide (Denom a = Denom b) then Some (Amount a =? Amount b)%Z else None;
  Coins.MulDec c x := map_amount (λ a, Dec.Mul a x) c;
  Coins.Add := add;
  Coins.IsAllGTE a b := forallb (λ x, Amount x <=? amt (Denom x) a)%Z b;
  Coins.IsAnyNegative c := existsb (λ x, Amount x <? 0)%Z c;
  Coins.ErrInternal := MkError "sdk" 1;
  Coins.ErrInvalidAddress := MkError "sdk" 7;
  Coins.IsAllPositive c := negb (bool_decide (c = [])) && forallb (λ x, 0 <? Amount x)%Z c;
  Coins.ErrInvalidCoins := MkError "sdk" 10;
  Coins.ErrInsufficientFunds := MkError "sdk" 5;
  Coins.ErrUnknownRequest := MkError "sdk" 6;
|}.

Lemma insert_coin_amt d c l : amt d (insert_coin c l) = coin_amt d c + amt d l.
Proof.
  induction l as [|x l IH]; cbn [insert_coin]; [done|].
  case_decide as E; [|destruct (String.ltb _ _)]; rewrite ?amt_cons, ?IH; try lia.
  unfold coin_amt. cbn. rewrite <-E. case_decide; lia.
Qed.

Lemma insert_coin_In x c l :
  x ∈ insert_coin c l → Denom x = Denom c ∨ ∃ y, y ∈ l ∧ Denom x = Denom y.
Proof.
  induction l as [|y l IH]; cbn [insert_coin].
  - rewrite list_elem_of_singleton. intros ->. by left.
  - setoid_rewrite elem_of_cons.
    case_decide as E; [|destruct (String.ltb _ _)]; rewrite ?elem_of_cons.
    + intros [->|]; eauto.
    + intros [->|[->|]]; eauto.
    + intros [->|Hx]; [eauto|]. destruct (IH Hx) as [|(z & ? & ?)]; eauto.
Qed.

Lemma insert_coin_sorted c l : sorted_coins l → sorted_coins (insert_coin c l).
Proof.
  unfold sorted_coins. induction 1 as [|x l Hs IH Hx]; cbn [insert_coin].
  - apply sorted_coins_single.
  - case_decide as E; [by constructor|].
    destruct (String.ltb (Denom c) (Denom x)) eqn:Hlt.
    + constructor; [by constructor|]. constructor; [done|].
      eapply Forall_impl; [exact Hx|]. intros y Hy. by eapply str_ltb_trans.
    + constructor; [done|]. apply Forall_forall. intros y Hy.
      apply insert_coin_In in Hy as [->|(z & Hz & ->)].
      * by apply str_ltb_total; [congruence|].
      * by eapply Forall_forall in Hx.
Qed.

Lemma nonzero_amt d l : amt d (nonzero l) = amt d l.
Proof.
  unfold nonzero. induction l as [|x l IH]; [done|]. rewrite filter_cons, amt_cons.
  case_decide as E; rewrite ?amt_cons, IH; [lia|].
  unfold coin_amt. case_decide; lia.
Qed.

Lemma sublist_sorted (k l : SysCoins) : sublist k l → sorted_coins l → sorted_coins k.
Proof.
  unfold sorted_coins. induction 1 as [|x k l Hk IH|x k l Hk IH]; [done|..];
    rewrite ?StronglySorted_cons; intros [Hf Hs]; [|auto].
  split; [|auto]. rewrite !Forall_forall in *. eauto using elem_of_sublist.
Qed.

Lemma add_amt a b d : amt d (add a b) = amt d a + amt d b.
Proof.
  unfold add. rewrite nonzero_amt. induction b as [|x b IH]; cbn [foldr].
  - rewrite amt_nil. lia.
  - rewrite insert_coin_amt, IH, amt_cons. lia.
Qed.

Lemma add_sorted a b : sorted_coins a → sorted_coins (add a b).
Proof.
  intros Ha. apply (sublist_sorted _ (foldr insert_coin a b)); [apply sublist_filter|].
  induction b; cbn; auto using insert_coin_sorted.
Qed.

Lemma negate_amt l d : amt d (negate l) = - amt d l.
Proof.
  induction l as [|x l IH]; [done|]. unfold negate in *. cbn [fmap list_fmap].
  rewrite !amt_cons, IH. unfold coin_amt. cbn. case_decide; lia.
Qed.

(** In a sorted set the amount of a denomination is that of its one coin. *)
Lemma sorted_amt_elem x l : sorted_coins l → x ∈ l → amt (Denom x) l = Amount x.
Proof.
  unfold sorted_coins. induction 1 as [|y l Hs IH Hy]; [by rewrite elem_of_nil|].
  rewrite elem_of_cons, amt_cons. intros [->|Hx].
  - unfold coin_amt. rewrite decide_True by done.
    assert (amt (Denom y) l = 0) as ->; [|lia].
    clear IH Hs. induction Hy as [|z l Hz _ IH]; [done|]. rewrite amt_cons, IH.
    unfold coin_amt. apply str_ltb_spec in Hz as [_ Hz].
    by rewrite decide_False by congruence.
  - rewrite IH by done. unfold coin_amt. eapply Forall_forall in Hy; [|done].
    apply str_ltb_spec in Hy as [_ Hy]. by rewrite decide_False.
Qed.

Lemma safe_sub_neg a b : sorted_coins a →
  (safe_sub a b).2 = false ↔ ∀ d, amt d b ≤ amt d a.
Proof.
  intros Ha. unfold safe_sub. cbn [snd]. set (c := add a (negate b)).
  assert (∀ d, amt d c = amt d a - amt d b) as Hc.
  { intros d. unfold c. rewrite add_amt, negate_amt. lia. }
  assert (sorted_coins c) as Hs by by apply add_sorted.
  rewrite <-not_true_iff_false, existsb_exists. split.
  - intros H d. specialize (Hc d). destruct (Z.le_gt_cases (amt d b) (amt d a)); [done|].
    exfalso. apply H.
    assert (∃ x, x ∈ c ∧ Amount x < 0) as (x & Hx & ?).
    { assert (amt d c < 0) as Hneg by lia. clear -Hneg. induction c as [|x c IH]; [done|].
      rewrite amt_cons in Hneg. unfold coin_amt in Hneg.
      destruct (decide (Amount x < 0)); [exists x; set_solver|].
      destruct IH as (y & ? & ?); [case_decide; lia|]. exists y. set_solver. }
    exists x. rewrite <-list_elem_of_In. split; [done|]. by apply Z.ltb_lt.
  - intros H (x & Hx & Hlt). apply list_elem_of_In in Hx. apply Z.ltb_lt in Hlt.
    specialize (H (Denom x)). specialize (Hc (Denom x)).
    rewrite (sorted_amt_elem x c) in Hc by done. lia.
Qed.

Lemma merge_sort_sorted c : NoDup (Denom <$> c) → sorted_coins (merge_sort denom_le c).
Proof.
  intros Hnd. assert (Total denom_le) by (intros a b; apply (total String.le)).
  assert (Transitive denom_le) by (intros a b e; apply (transitivity (R:=String.le))).
  pose proof (StronglySorted_merge_sort denom_le c) as Hs.
  rewrite <-(merge_sort_Permutation denom_le c) in Hnd.
  unfold sorted_coins. induction Hs as [|x l Hs IH Hx]; [constructor|].
  rewrite fmap_cons in Hnd. apply NoDup_cons in Hnd as [Hx' Hnd].
  constructor; [auto|]. apply Forall_forall. intros y Hy. apply str_ltb_spec.
  eapply Forall_forall in Hx; [|done]. split; [done|].
  intros E. apply Hx'. rewrite E. by apply list_elem_of_fmap_2.
Qed.

Definition valid_denoms (l : SysCoins) : Prop := Forall (λ x, valid_denom (Denom x) = true) l.

Lemma insert_coin_denoms c l :
  valid_denoms l → valid_denom (Denom c) = true → valid_denoms (insert_coin c l).
Proof.
  unfold valid_denoms. rewrite !Forall_forall. intros Hl Hc x Hx.
  destruct (insert_coin_In x c l Hx) as [->|(y & Hy & ->)]; auto.
Qed.

Lemma add_denoms a b : valid_denoms a → valid_denoms b → valid_denoms (add a b).
Proof.
  intros Ha Hb. assert (valid_denoms (foldr insert_coin a b)) as H.
  { induction Hb; cbn; auto using insert_coin_denoms. }
  unfold valid_denoms in *. rewrite Forall_forall in *. intros x [_ Hx]%list_elem_of_filter. auto.
Qed.

(** A sorted set without zero coins and with amounts that are not negative. *)
Lemma nonneg_valid l : sorted_coins l → valid_denoms l → (∀ d, 0 ≤ amt d l) →
  Forall (λ x, Amount x ≠ 0) l →
  sorted_coins l ∧ Forall (λ x, 0 < Amount x ∧ valid_denom (Denom x) = true) l.
Proof.
  intros Hs Hd Ha Hn. split; [done|]. unfold valid_denoms in Hd. rewrite Forall_forall in *.
  intros x Hx. split; [|auto]. specialize (Ha (Denom x)).
  rewrite (sorted_amt_elem x l) in Ha by done. specialize (Hn x Hx). lia.
Qed.

Lemma good_parts c : Coins.good c → sorted_coins c ∧ valid_denoms c ∧ ∀ d, 0 ≤ amt d c.
Proof.
  intros [Hs Hf]. split; [done|]. split; [eapply Forall_impl; [done|]; by intros x []|].
  intros d. apply amt_nonneg. eapply Forall_impl; [done|]. by intros x [].
Qed.

Lemma map_amount_spec f c : Coins.good c → f 0 = 0 → (∀ a, 0 ≤ a → 0 ≤ f a) →
  (sorted_coins (map_amount f c) ∧
   Forall (λ x, 0 < Amount x ∧ valid_denom (Denom x) = true) (map_amount f c)) ∧
  ∀ d, amt d (map_amount f c) = f (amt d c).
Proof.
  intros [Hs Hf] H0 Hp. unfold map_amount. set (g := λ x, MkCoin (Denom x) (f (Amount x))).
  assert (sorted_coins (g <$> c)) as Hsg.
  { clear Hf. unfold sorted_coins in *. induction Hs as [|x l Hs IH Hx]; [constructor|].
    rewrite fmap_cons. constructor; [done|]. apply Forall_fmap. exact Hx. }
  split.
  - split; [eapply sublist_sorted; [apply sublist_filter|done]|].
    apply Forall_forall. intros x [Hn Hx]%list_elem_of_filter.
    apply list_elem_of_fmap in Hx as (y & -> & Hy). eapply Forall_forall in Hf as [Ha Hd]; [|done].
    cbn in *. split; [|done]. specialize (Hp _ Ha). lia.
  - intros d. rewrite nonzero_amt. clear Hf Hsg. unfold sorted_coins in Hs.
    induction Hs as [|x l Hs IH Hx]; [by rewrite amt_nil|].
    rewrite fmap_cons, !amt_cons, IH. unfold coin_amt. cbn.
    case_decide as E; [|by rewrite !Z.add_0_l].
    assert (amt d l = 0) as ->; [|by rewrite H0, !Z.add_0_r].
    clear -Hx E. induction Hx as [|y l Hy _ IH]; [done|]. rewrite amt_cons, IH.
    apply str_ltb_spec in Hy as [_ Hy]. unfold coin_amt. rewrite decide_False by congruence. done.
Qed.

(** Valid coins are determined by their amounts. *)
Lemma amt_ext a b : sorted_coins a → Forall (λ x, 0 < Amount x) a →
  sorted_coins b → Forall (λ x, 0 < Amount x) b → (∀ d, amt d a = amt d b) → a = b.
Proof.
  assert (∀ x l, StronglySorted (λ a b, String.ltb (Denom a) (Denom b) = true) (x :: l) →
    ∀ d, amt d l ≠ 0 → String.ltb (Denom x) d = true) as Hhead.
  { intros x l [_ Hx]%StronglySorted_inv d Hd. induction Hx as [|y l Hy _ IH]; [done|].
    rewrite amt_cons in Hd. unfold coin_amt in Hd. case_decide; [by subst|]. apply IH. lia. }
  unfold sorted_coins. revert b. induction a as [|x a IH]; intros [|y b] Hsa Hpa Hsb Hpb He.
  - done.
  - specialize (He (Denom y)). rewrite (sorted_amt_elem y (y :: b)), amt_nil in He by set_solver.
    apply Forall_cons in Hpb as [? _]. lia.
  - specialize (He (Denom x)). rewrite (sorted_amt_elem x (x :: a)), amt_nil in He by set_solver.
    apply Forall_cons in Hpa as [? _]. lia.
  - pose proof (He (Denom x)) as Ex. pose proof (He (Denom y)) as Ey.
    rewrite (sorted_amt_elem x (x :: a)) in Ex by set_solver.
    rewrite (sorted_amt_elem y (y :: b)) in Ey by set_solver.
    pose proof (Forall_cons_1 _ _ _ Hpa) as [Hx Hpa']. pose proof (Forall_cons_1 _ _ _ Hpb) as [Hy Hpb'].
    assert (Denom x = Denom y) as E.
    { destruct (decide (Denom x = Denom y)) as [|Hne]; [done|].
      rewrite amt_cons in Ex, Ey. unfold coin_amt in Ex, Ey.
      rewrite decide_False in Ex by congruence. rewrite decide_False in Ey by congruence.
      pose proof (Hhead y b Hsb (Denom x) ltac:(lia)) as H1.
      pose proof (Hhead x a Hsa (Denom y) ltac:(lia)) as H2.
      pose proof (str_ltb_trans _ _ _ H1 H2) as H3. by apply str_ltb_spec in H3 as [_ []]. }
    rewrite E, (sorted_amt_elem y (y :: b)) in Ex by set_solver.
    destruct x as [dx ax], y as [dy ay]; cbn in *; subst. f_equal.
    apply StronglySorted_inv in Hsa as [Hsa _]. apply StronglySorted_inv in Hsb as [Hsb _].
    apply IH; [done..|]. intros d. specialize (He d). rewrite !amt_cons in He. lia.
Qed.

Lemma all_gt_false a b : sorted_coins a → Forall (λ x, 0 < Amount x) b → sorted_coins b →
  Forall (λ x, 0 < Amount x) a → (∀ d, amt d b ≤ amt d a) → all_gt b a = false.
Proof.
  intros Hsa Hpb Hsb Hpa Hle. destruct b as [|y b]; [done|]. destruct a as [|x a].
  - specialize (Hle (Denom y)). rewrite (sorted_amt_elem y (y :: b)), amt_nil in Hle by set_solver.
    apply Forall_cons in Hpb as [? _]. lia.
  - unfold all_gt. apply not_true_iff_false. rewrite forallb_forall. intros H.
    specialize (H x ltac:(by left)). apply andb_true_iff in H as [_ H%Z.ltb_lt].
    specialize (Hle (Denom x)). rewrite (sorted_amt_elem x (x :: a)) in Hle by set_solver. lia.
Qed.

Lemma amt_absent d l : d ∉ (Denom <$> l) → amt d l = 0.
Proof.
  induction l as [|x l IH]; [done|]. rewrite fmap_cons, not_elem_of_cons. intros [Hx Hl].
  rewrite amt_cons, IH by done. unfold coin_amt. by rewrite decide_False by congruence.
Qed.

Lemma all_gte_spec a b : sorted_coins a → Forall (λ x, 0 < Amount x) a → sorted_coins b →
  Forall (λ x, 0 < Amount x) b →
  forallb (λ x, Amount x <=? amt (Denom x) a)%Z b = true ↔ ∀ d, amt d b ≤ amt d a.
Proof.
  intros Ha Hpa Hb Hpb. rewrite forallb_forall. setoid_rewrite <-list_elem_of_In.
  setoid_rewrite Z.leb_le. split.
  - intros H d. destruct (decide (d ∈ Denom <$> b)) as [(x & -> & Hx)%list_elem_of_fmap|Hd].
    + rewrite (sorted_amt_elem x b) by done. by apply H.
    + rewrite (amt_absent d b) by done. apply amt_nonneg. eapply Forall_impl; [exact Hpa|]. cbn. lia.
  - intros H x Hx. specialize (H (Denom x)). by rewrite (sorted_amt_elem x b) in H.
Qed.

Lemma valid_parts c :
  sorted_coins c ∧ Forall (λ x, 0 < Amount x ∧ valid_denom (Denom x) = true) c →
  sorted_coins c ∧ Forall (λ x, 0 < Amount x) c.
Proof. intros [Hs Hf]. split; [done|]. eapply Forall_impl; [done|]. by intros x []. Qed.

Lemma IsValid_iff c : Coins.IsValid c = true ↔
  sorted_coins c ∧ Forall (λ x, 0 < Amount x ∧ valid_denom (Denom x) = true) c.
Proof.
  cbn. unfold sortedb. rewrite andb_true_iff, bool_decide_eq_true.
  rewrite forallb_forall, Forall_forall. setoid_rewrite list_elem_of_In.
  setoid_rewrite andb_true_iff. setoid_rewrite Z.ltb_lt. done.
Qed.

Lemma coins_add_valid a b : Coins.good a → Coins.good b → Coins.IsValid (add a b) = true.
Proof.
  intros (Hs & Hd & Hn)%good_parts (Hs' & Hd' & Hn')%good_parts. apply IsValid_iff, nonneg_valid.
  - by apply add_sorted.
  - by apply add_denoms.
  - intros d. rewrite add_amt. specialize (Hn d). specialize (Hn' d). lia.
  - apply Forall_forall. by intros x [? _]%list_elem_of_filter.
Qed.

Lemma sub_valid a b : Coins.good a → Coins.good b → (safe_sub a b).2 = false →
  Coins.IsValid (safe_sub a b).1 = true.
Proof.
  intros (Hs & Hd & Hn)%good_parts (Hs' & Hd' & _)%good_parts Hneg.
  rewrite safe_sub_neg in Hneg by done. apply IsValid_iff, nonneg_valid; unfold safe_sub; cbn.
  - by apply add_sorted.
  - apply add_denoms; [done|]. unfold valid_denoms, negate. by apply Forall_fmap.
  - intros d. rewrite add_amt, negate_amt. specialize (Hneg d). lia.
  - apply Forall_forall. by intros x [? _]%list_elem_of_filter.
Qed.

Lemma dec_unit_pos : 0 < Dec.unit.
Proof. unfold Dec.unit. cbn. lia. Qed.

Lemma single_good c : 0 ≤ Amount c → valid_denom (Denom c) = true → Coins.good [c].
Proof. intros. split; [apply sorted_coins_single|]. by repeat constructor. Qed.

#[local] Arguments add : simpl never.
#[local] Arguments map_amount : simpl never.
#[local] Arguments all_gt : simpl never.
#[local] Arguments safe_sub : simpl never.

Lemma coins_laws : Coins.Laws.
Proof.
  split.
  - done.
  - intros d a H Ha. cbn in *. rewrite H. destruct (Z.leb_spec 0 a); [done|lia].
  - intros d a c. cbn. destruct (valid_denom d), (Z.leb_spec 0 a); cbn; intros; by simplify_eq.
  - intros d a c. cbn. by destruct (valid_denom d).
  - done.
  - done.
  - done.
  - done.
  - intros. apply sorted_coins_single.
  - intros. apply amt_single.
  - intros. by apply single_good.
  - intros. apply IsValid_iff. split; [apply sorted_coins_single|by repeat constructor].
  - intros. cbn. by rewrite decide_True.
  - intros. cbn. by rewrite decide_False.
  - intros. cbn. by rewrite decide_True.
  - intros a b c. cbn. case_decide; intros; destruct_and?; by simplify_eq.
  - intros. cbn. by rewrite decide_True.
  - intros. cbn. by rewrite decide_False.
  - intros. cbn. by rewrite decide_True.
  - intros. by apply add_sorted.
  - intros. apply add_amt.
  - intros. by apply add_sorted.
  - intros. unfold Coins.SafeSub. cbn. unfold safe_sub. cbn. rewrite add_amt, negate_amt. lia.
  - intros. by apply safe_sub_neg.
  - done.
  - done.
  - intros. cbn. rewrite forallb_forall, Forall_forall. setoid_rewrite list_elem_of_In.
    setoid_rewrite Z.eqb_eq. done.
  - apply IsValid_iff.
  - intros. cbn. rewrite andb_true_iff, negb_true_iff, bool_decide_eq_false.
    rewrite forallb_forall, Forall_forall. setoid_rewrite list_elem_of_In.
    setoid_rewrite Z.ltb_lt. done.
  - intros d s c H. apply fmap_Some in H as (a & Ha & ->). split; [apply sorted_coins_single|].
    exists a. split; [done|]. intros. apply amt_single.
  - apply coins_add_valid.
  - apply sub_valid.
  - done.
  - intros c Hc Hd. exists (add [] [c]). split; [done|]. split.
    + assert (Coins.IsValid (add [] [c]) = true) as [Hs Hf]%IsValid_iff
        by (apply coins_add_valid; [split; constructor|by apply single_good]).
      split; [done|]. eapply Forall_impl; [done|]. intros x []. split; [lia|done].
    + intros d. rewrite add_amt, amt_single, amt_nil. lia.
  - intros d a c. cbn. destruct (valid_denom d) eqn:Ed, (Z.leb_spec 0 a); cbn; intros; simplify_eq.
    split; [done|]. split; [by apply single_good|]. intros. apply amt_single.
  - intros d a Hd Ha. cbn in *. rewrite Hd. destruct (Z.leb_spec 0 a); [by eexists|lia].
  - done.
  - intros c x Hc Hx. exists (map_amount (λ a, Z.quot (a * Dec.unit) x) c).
    split; [cbn; by rewrite decide_False by lia|].
    pose proof dec_unit_pos. rewrite IsValid_iff. apply map_amount_spec; [done|..].
    + rewrite Z.mul_0_l. apply Z.quot_0_l. lia.
    + intros a Ha. apply Z.quot_pos; lia.
  - intros c x Hc Hx. apply IsValid_iff. pose proof dec_unit_pos. apply map_amount_spec; [done|..].
    + rewrite Z.mul_0_l. apply Z.quot_0_l. lia.
    + intros a Ha. apply Z.quot_pos; lia.
  - intros c x d Hc Hx. pose proof dec_unit_pos. apply map_amount_spec; [done|..].
    + rewrite Z.mul_0_l. apply Z.quot_0_l. lia.
    + intros a Ha. apply Z.quot_pos; lia.
  - intros a b [Ha Ha']%IsValid_iff%valid_parts [Hb Hb']%IsValid_iff%valid_parts H.
    by apply all_gt_false.
  - intros a b [Ha Ha']%IsValid_iff%valid_parts [Hb Hb']%IsValid_iff%valid_parts H.
    cbn. by rewrite bool_decide_eq_true_2 by by apply amt_ext.
  - done.
  - intros a b [Ha Ha']%IsValid_iff%valid_parts [Hb Hb']%IsValid_iff%valid_parts.
    cbn. by apply all_gte_spec.
  - intros c. cbn. rewrite existsb_exists, Exists_exists. setoid_rewrite list_elem_of_In.
    by setoid_rewrite Z.ltb_lt.
  - intros. apply merge_sort_Permutation.
  - intros. by apply merge_sort_sorted.
Qed.
End CoinsImpl.

(** The bank as two finite maps.  A stored coin set that is not valid reads as
    empty, so that every state is a legal one. *)
Module BankImpl.
#[local] Existing Instance Dec18.ops.
#[local] Existing Instance CoinsImpl.ops.
#[local] Existing Instance CoinsImpl.coins_laws.

Record st := MkSt { accts : gmap string SysCoins; sup : gmap string Z }.

Definition good (c : SysCoins) : bool := Coins.IsValid c.

Definition get_coins (s : st) (a : string) : SysCoins :=
  let c := default [] (accts s !! a) in if good c then c else [].

Definition set_coins (a : string) (c : SysCoins) (s : st) : st :=
  MkSt (<[a := c]> (accts s)) (sup s).

Definition bank_error : error := MkError "bank" 5.
Definition mod_addr (m : string) : string := "module/" +:+ m.

Definition send (from to : string) (c : SysCoins) : M st unit := λ s,
  if Coins.IsValid c then
    let '(r, neg) := Coins.SafeSub (get_coins s from) c in
    if neg then (Err bank_error, s)
    else let s1 := set_coins from r s in
         (Ok tt, set_coins to (Coins.Add2 (get_coins s1 to) c) s1)
  else (Err bank_error, s).

Definition add_supply (f : Z → Z) (c : SysCoins) (m : gmap string Z) : gmap string Z :=
  foldr (λ x m, <[Denom x := default 0 (m !! Denom x) + f (Amount x)]> m) m c.

Definition mint (m : string) (c : SysCoins) : M st unit := λ s,
  if Coins.IsValid c then
    let s' := set_coins (mod_addr m) (Coins.Add2 (get_coins s (mod_addr m)) c) s in
    (Ok tt, MkSt (accts s') (add_supply id c (sup s)))
  else (Err bank_error, s).

Definition burn (m : string) (c : SysCoins) : M st unit := λ s,
  if Coins.IsValid c then
    let '(r, neg) := Coins.SafeSub (get_coins s (mod_addr m)) c in
    if neg then (Err bank_error, s)
    else (Ok tt, MkSt (accts (set_coins (mod_addr m) r s)) (add_supply Z.opp c (sup s)))
  else (Err bank_error, s).

#[local] Instance ops : Bank.Ops := {|
  Bank.state := st;
  Bank.GetModuleAddress := mod_addr;
  Bank.GetCoins := get_coins;
  Bank.GetSupplyByDenom s d := default 0 (sup s !! d);
  Bank.GetSendEnabled s := true;
  Bank.BlacklistedAddr a := false;
  Bank.SendCoins := send;
  Bank.SendCoinsFromAccountToModule a m := send a (mod_addr m);
  Bank.SendCoinsFromModuleToAccount m a := send (mod_addr m) a;
  Bank.SendCoinsFromModuleToModule m m' := send (mod_addr m) (mod_addr m');
  Bank.MintCoins := mint;
  Bank.BurnCoins := burn;
  Bank.SetModuleCoins m c s := set_coins (mod_addr m) c s;
|}.

Definition nonneg (c : SysCoins) : Prop := ∀ d, 0 ≤ amt d c.

Lemma valid_nonneg c : Coins.IsValid c = true → sorted_coins c ∧ nonneg c.
Proof.
  intros [Hs Hp]%Coins.IsValid_spec. split; [done|]. intros d.
  apply amt_nonneg. eapply Forall_impl; [done|]. cbn. intros x [? _]. lia.
Qed.

Lemma valid_coins_good c : Coins.IsValid c = true → Coins.good c.
Proof.
  intros [Hs Hp]%Coins.IsValid_spec. split; [done|].
  eapply Forall_impl; [done|]. cbn. intros x []. split; [lia|done].
Qed.

Lemma get_coins_valid s a : Coins.IsValid (get_coins s a) = true.
Proof. unfold get_coins, good. by destruct (Coins.IsValid (default _ _)) eqn:E. Qed.

Lemma get_coins_good s a : sorted_coins (get_coins s a) ∧ nonneg (get_coins s a).
Proof. apply valid_nonneg, get_coins_valid. Qed.

Lemma get_set s a b c : Coins.IsValid c = true →
  get_coins (set_coins a c s) b = if decide (b = a) then c else get_coins s b.
Proof.
  intros Hc. unfold get_coins, set_coins, good. cbn [accts]. rewrite lookup_insert.
  repeat case_decide; subst; try done.
  change (default [] (Some c)) with c. by rewrite Hc.
Qed.

Lemma add_supply_lookup f c m d : (∀ x y, f (x + y) = f x + f y) → f 0 = 0 →
  default 0 (add_supply f c m !! d) = default 0 (m !! d) + f (amt d c).
Proof.
  intros Hf H0. unfold add_supply. induction c as [|x c IH]; cbn [foldr].
  - rewrite amt_nil, H0. lia.
  - rewrite lookup_insert, amt_cons, Hf. unfold coin_amt.
    case_decide; subst; cbn; rewrite IH; lia.
Qed.

Lemma add_good s a c : Coins.IsValid c = true →
  Coins.IsValid (Coins.Add2 (get_coins s a) c) = true.
Proof. intros Hc. apply Coins.Add2_valid; auto using valid_coins_good, get_coins_valid. Qed.

Lemma sub_good s a c : Coins.IsValid c = true →
  (Coins.SafeSub (get_coins s a) c).2 = false →
  Coins.IsValid (Coins.SafeSub (get_coins s a) c).1 = true ∧
  ∀ d, amt d c ≤ amt d (get_coins s a).
Proof.
  intros Hc H. split; [apply Coins.SafeSub_valid; auto using valid_coins_good, get_coins_valid|].
  apply Coins.SafeSub_neg; [apply get_coins_good|by apply valid_nonneg|done].
Qed.

Lemma bank_send_ok from to c s s' : send from to c s = (Ok tt, s') →
  Bank.moved s s' from to c ∧ ∀ d, 0 ≤ amt d c ≤ Bank.balance s from d.
Proof.
  unfold send. destruct (Coins.IsValid c) eqn:Hv; [|done].
  pose proof (sub_good s from c Hv) as Hsub. destruct (valid_nonneg c Hv) as [Hs Hn].
  destruct (get_coins_good s from) as [Hsf _].
  pose proof (λ d, Coins.SafeSub_amt (get_coins s from) c d Hsf Hs) as Hr.
  destruct (Coins.SafeSub (get_coins s from) c) as [r [|]]; [done|].
  cbn [fst snd] in *. destruct (Hsub eq_refl) as (Hrv & Hle).
  intros [= <-]. split; [|intros d; specialize (Hn d); specialize (Hle d); done].
  pose proof (add_good (set_coins from r s) to c Hv) as Hav.
  split; [|done]. intros a d. unfold Bank.balance. cbn [Bank.GetCoins ops].
  rewrite get_set by done. destruct (decide (a = to)) as [->|Hto].
  - rewrite CoinsImpl.add_amt.
    rewrite get_set by done. case_decide; subst; rewrite ?Hr; lia.
  - rewrite get_set by done. case_decide; subst; rewrite ?Hr; lia.
Qed.

Lemma send_total m a c s : Coins.IsValid c = true →
  (∀ d, amt d c ≤ Bank.balance s m d) → ∃ s', send m a c s = (Ok tt, s').
Proof.
  intros Hv Hle. unfold send. rewrite Hv.
  destruct (valid_nonneg c Hv) as [Hs _]. destruct (get_coins_good s m) as [Hsm _].
  pose proof (Coins.SafeSub_neg (get_coins s m) c Hsm Hs) as Hneg.
  destruct (Coins.SafeSub (get_coins s m) c) as [r neg]; cbn [snd] in Hneg.
  rewrite (proj2 Hneg Hle). eauto.
Qed.

Lemma bank_mint_ok m c s s' : mint m c s = (Ok tt, s') →
  (∀ a d, Bank.balance s' a d =
    Bank.balance s a d + if decide (a = mod_addr m) then amt d c else 0) ∧
  (∀ d, Bank.GetSupplyByDenom s' d = Bank.GetSupplyByDenom s d + amt d c).
Proof.
  unfold mint. destruct (Coins.IsValid c) eqn:Hv; [|done]. intros [= <-].
  pose proof (add_good s (mod_addr m) c Hv) as Hav.
  destruct (valid_nonneg c Hv) as [Hs _]. split.
  - intros a d. change (amt d (get_coins (set_coins (mod_addr m)
      (Coins.Add2 (get_coins s (mod_addr m)) c) s) a) = amt d (get_coins s a)
      + (if decide (a = mod_addr m) then amt d c else 0)).
    rewrite get_set by done. case_decide; subst; [|lia].
    rewrite Coins.Add2_amt by (done || apply get_coins_good). lia.
  - intros d. by apply (add_supply_lookup id).
Qed.

Lemma bank_burn_ok m c s s' : burn m c s = (Ok tt, s') →
  (∀ a d, Bank.balance s' a d =
    Bank.balance s a d - if decide (a = mod_addr m) then amt d c else 0) ∧
  (∀ d, Bank.GetSupplyByDenom s' d = Bank.GetSupplyByDenom s d - amt d c) ∧
  (∀ d, 0 ≤ amt d c ≤ Bank.balance s (mod_addr m) d).
Proof.
  unfold burn. destruct (Coins.IsValid c) eqn:Hv; [|done].
  pose proof (sub_good s (mod_addr m) c Hv) as Hsub.
  destruct (valid_nonneg c Hv) as [Hs Hn].
  destruct (get_coins_good s (mod_addr m)) as [Hsm _].
  pose proof (λ d, Coins.SafeSub_amt (get_coins s (mod_addr m)) c d Hsm Hs) as Hr.
  destruct (Coins.SafeSub (get_coins s (mod_addr m)) c) as [r [|]]; [done|].
  cbn [fst snd] in *. destruct (Hsub eq_refl) as (Hrv & Hle).
  intros [= <-]. split; [|split; [|intros d; specialize (Hn d); specialize (Hle d); done]].
  - intros a d. change (amt d (get_coins (set_coins (mod_addr m) r s) a) =
      amt d (get_coins s a) - (if decide (a = mod_addr m) then amt d c else 0)).
    rewrite get_set by done. case_decide; subst; rewrite ?Hr; lia.
  - intros d. cbn. rewrite (add_supply_lookup Z.opp); lia.
Qed.

Lemma burn_total m c s : Coins.IsValid c = true →
  (∀ d, amt d c ≤ Bank.balance s (mod_addr m) d) → ∃ s', burn m c s = (Ok tt, s').
Proof.
  intros Hv Hle. unfold burn. rewrite Hv.
  destruct (valid_nonneg c Hv) as [Hs _]. destruct (get_coins_good s (mod_addr m)) as [Hsm _].
  pose proof (Coins.SafeSub_neg (get_coins s (mod_addr m)) c Hsm Hs) as Hneg.
  destruct (Coins.SafeSub (get_coins s (mod_addr m)) c) as [r neg]; cbn [snd] in Hneg.
  rewrite (proj2 Hneg Hle). eauto.
Qed.

Lemma bank_laws : Bank.Laws.
Proof.
  split; try (intros; reflexivity).
  - intros. apply get_coins_good.
  - intros. apply get_coins_valid.
  - intros. apply get_coins_good.
  - apply bank_send_ok.
  - cbn. unfold send. intros. repeat case_match; congruence.
  - cbn. unfold send. intros. repeat case_match; congruence.
  - intros. by apply send_total.
  - apply bank_mint_ok.
  - cbn. unfold mint. intros. repeat case_match; congruence.
  - apply bank_burn_ok.
  - cbn. unfold burn. intros. repeat case_match; congruence.
  - intros. by apply burn_total.
  - intros. by apply get_set.
Qed.
End BankImpl.
