(* ===== verification/GoStd.v ===== *)
(** * What the source uses of Go's standard library

    [sort.Search] and [sort.Sort], the order of a range over a map,
    [strings.Split] on a one-character separator, the decimal verbs of [fmt] and
    [fmt.Sscanf], and the little-endian coding of [encoding/binary]. *)

From S2P Require Import Prelude.

#[local] Open Scope Z_scope.

(** ** sort.Search

    The binary search of package sort, with the loop's fuel explicit.  The
    interval [i, j) shrinks in every iteration, so [n] iterations are enough
    for an interval of length [n]. *)

Fixpoint search_loop (fuel : nat) (f : nat → bool) (i j : nat) : nat :=
  match fuel with
  | O => i
  | S fuel =>
      if (i <? j)%nat then
        let h := Nat.div2 (i + j) in
        if f h then search_loop fuel f i h else search_loop fuel f (S h) j
      else i
  end.

Definition Search (n : nat) (f : nat → bool) : nat := search_loop n f 0 n.

Lemma search_loop_bounds fuel f i j :
  (i ≤ j)%nat → (i ≤ search_loop fuel f i j ≤ j)%nat.
Proof.
  revert i j. induction fuel as [|fuel IH]; intros i j Hij; cbn [search_loop]; [lia|].
  destruct (Nat.ltb_spec i j); [|lia].
  pose proof (Nat.div2_odd (i + j)). destruct (Nat.odd (i + j)); cbn in *.
  all: destruct (f _); [specialize (IH i (Nat.div2 (i + j)))
                       |specialize (IH (S (Nat.div2 (i + j))) j)]; lia.
Qed.

(** The result separates the [false] part from the [true] part, whatever is
    known about the two ends of the interval. *)
Lemma search_loop_spec fuel f i j :
  (j - i ≤ fuel)%nat → (i ≤ j)%nat →
  (∀ a b, (a ≤ b)%nat → (b < j)%nat → f a = true → f b = true) →
  let k := search_loop fuel f i j in
  (∀ a, (i ≤ a < k)%nat → f a = false) ∧ (∀ a, (k ≤ a < j)%nat → f a = true).
Proof.
  revert i j. induction fuel as [|fuel IH]; intros i j Hf Hij Hm; cbn [search_loop].
  { split; intros; lia. }
  destruct (Nat.ltb_spec i j); [|split; intros; lia].
  set (h := Nat.div2 (i + j)).
  assert (i ≤ h < j)%nat as Hh.
  { pose proof (Nat.div2_odd (i + j)). unfold h. destruct (Nat.odd (i + j)); cbn in *; lia. }
  destruct (f h) eqn:Eh.
  - destruct (IH i h) as [H1 H2]; [lia|lia|intros; eapply Hm; eauto; lia|].
    split; [done|]. intros a Ha. destruct (Nat.lt_ge_cases a h); [apply H2; lia|].
    by apply (Hm h a); [lia..|].
  - destruct (IH (S h) j) as [H1 H2]; [lia|lia|done|].
    split; [|done]. intros a Ha. destruct (Nat.le_gt_cases a h); [|apply H1; lia].
    destruct (f a) eqn:Ea; [|done]. rewrite (Hm a h) in Eh; [done|lia..|done].
Qed.

(** [Search n f] is the least index below [n] where [f] holds, or [n]. *)
Lemma Search_spec n f :
  (∀ a b, (a ≤ b)%nat → (b < n)%nat → f a = true → f b = true) →
  (Search n f ≤ n)%nat ∧
  (∀ a, (a < Search n f)%nat → f a = false) ∧
  (∀ a, (Search n f ≤ a < n)%nat → f a = true).
Proof.
  intros Hm. unfold Search.
  pose proof (search_loop_bounds n f 0 n) as Hb.
  destruct (search_loop_spec n f 0 n) as [H1 H2]; [lia..|done|].
  split; [lia|]. split; [|done]. intros a Ha. apply H1. lia.
Qed.

(** ** strings.Split *)

Fixpoint Split (s : string) (sep : Ascii.ascii) : list string :=
  match s with
  | EmptyString => [""]
  | String a s =>
      if Ascii.eqb a sep then "" :: Split s sep
      else match Split s sep with
           | [] => [String a ""]
           | x :: l => String a x :: l
           end
  end.

Definition underscore : Ascii.ascii := Ascii.ascii_of_nat 95.

(** No separator in the string. *)
Fixpoint lacks (sep : Ascii.ascii) (s : string) : Prop :=
  match s with
  | EmptyString => True
  | String a s => a ≠ sep ∧ lacks sep s
  end.

Lemma Split_lacks sep s : lacks sep s → Split s sep = [s].
Proof.
  induction s as [|a s IH]; [done|]. intros [Ha Hs]. cbn.
  destruct (Ascii.eqb_spec a sep); [done|]. by rewrite IH.
Qed.

(** Splitting what was joined gives the parts back. *)
Lemma Split_join sep s t : lacks sep s →
  Split (s +:+ String sep t) sep = s :: Split t sep.
Proof.
  induction s as [|a s IH]; cbn [lacks].
  - intros _. change ("" +:+ String sep t) with (String sep t). cbn [Split].
    by destruct (Ascii.eqb_spec sep sep).
  - intros [Ha Hs]. change (String a s +:+ String sep t) with (String a (s +:+ String sep t)).
    cbn [Split]. destruct (Ascii.eqb_spec a sep); [done|]. by rewrite IH.
Qed.

(** ** The decimal verbs of fmt

    [fmt_d] is %d for a non-negative number, [fmt_0d w] pads with zeros to
    width [w] (%010d).  [scan_d] reads a %d field. *)

Definition digit_char (d : Z) : Ascii.ascii := Ascii.ascii_of_nat (Z.to_nat d + 48).

(** Digits, least significant first; 20 digits hold every uint64. *)
Fixpoint digits_rev (fuel : nat) (n : Z) : list Z :=
  match fuel with
  | O => []
  | S fuel => n mod 10 :: if (n / 10 =? 0)%Z then [] else digits_rev fuel (n / 10)
  end.

Definition string_of_digits (l : list Z) : string :=
  foldr (λ d s, String (digit_char d) s) "" l.

Definition fmt_digits (n : Z) : list Z := rev (digits_rev 20 n).

Definition fmt_d (n : Z) : string :=
  if (n <? 0)%Z then String (Ascii.ascii_of_nat 45) (string_of_digits (fmt_digits (- n)))
  else string_of_digits (fmt_digits n).

(** The zero flag pads after the sign. *)
Definition fmt_0d (w : nat) (n : Z) : string :=
  let pad k := replicate (w - k - length (fmt_digits (Z.abs n))) 0 in
  if (n <? 0)%Z
  then String (Ascii.ascii_of_nat 45) (string_of_digits (pad 1%nat ++ fmt_digits (- n)))
  else string_of_digits (pad 0%nat ++ fmt_digits n).

Definition char_digit (a : Ascii.ascii) : option Z :=
  let n := Z.of_nat (Ascii.nat_of_ascii a) - 48 in
  if ((0 <=? n) && (n <=? 9))%Z then Some n else None.

(** A run of digits: its value, how many there were, and the rest. *)
Fixpoint scan_digits (s : string) (acc : Z) (cnt : nat) : Z * nat * string :=
  match s with
  | String a s' =>
      match char_digit a with
      | Some d => scan_digits s' (10 * acc + d) (S cnt)
      | None => (acc, cnt, s)
      end
  | EmptyString => (acc, cnt, s)
  end.

(** An optionally signed run of at least one digit that fits in an int64. *)
Definition scan_d (s : string) : option (Z * string) :=
  let '(neg, s) := match s with
                   | String a s' =>
                       if Ascii.eqb a (Ascii.ascii_of_nat 45) then (true, s')
                       else if Ascii.eqb a (Ascii.ascii_of_nat 43) then (false, s')
                       else (false, s)
                   | EmptyString => (false, s)
                   end in
  let '(v, cnt, rest) := scan_digits s 0 0 in
  let v := if neg then - v else v in
  if (cnt =? 0)%nat then None
  else if decide (in_int64 v) then Some (v, rest) else None.

Definition is_digit (d : Z) : Prop := 0 ≤ d ≤ 9.

Lemma char_digit_char d : is_digit d → char_digit (digit_char d) = Some d.
Proof.
  unfold is_digit. intros Hd.
  assert (d = 0 ∨ d = 1 ∨ d = 2 ∨ d = 3 ∨ d = 4 ∨ d = 5 ∨ d = 6 ∨ d = 7 ∨ d = 8 ∨ d = 9)
    by lia. destruct_or!; subst; reflexivity.
Qed.

Lemma digits_rev_digits fuel n : Forall is_digit (digits_rev fuel n).
Proof.
  revert n. induction fuel as [|fuel IH]; intros n; cbn [digits_rev]; constructor.
  - unfold is_digit. pose proof (Z.mod_pos_bound n 10). lia.
  - destruct (_ =? _)%Z; auto.
Qed.

Lemma digits_rev_value fuel n : 0 ≤ n < 10 ^ Z.of_nat fuel →
  foldr (λ d a, 10 * a + d) 0 (digits_rev fuel n) = n.
Proof.
  revert n. induction fuel as [|fuel IH]; intros n Hn; cbn [digits_rev foldr].
  { cbn in Hn. lia. }
  rewrite Nat2Z.inj_succ, Z.pow_succ_r in Hn by lia.
  pose proof (Z.div_mod n 10). pose proof (Z.mod_pos_bound n 10).
  destruct (Z.eqb_spec (n / 10) 0); cbn [foldr]; [lia|]. rewrite IH; [lia|].
  split; [apply Z.div_pos; lia|]. apply Z.div_lt_upper_bound; lia.
Qed.

Lemma scan_digits_app l rest acc cnt : Forall is_digit l →
  scan_digits (string_of_digits l +:+ rest) acc cnt =
  scan_digits rest (foldl (λ a d, 10 * a + d) acc l) (cnt + length l).
Proof.
  intros Hl. revert acc cnt. induction Hl as [|d l Hd Hl IH]; intros acc cnt.
  - cbn. by rewrite Nat.add_0_r.
  - change (string_of_digits (d :: l) +:+ rest)
      with (String (digit_char d) (string_of_digits l +:+ rest)).
    cbn [scan_digits foldl length]. rewrite char_digit_char, IH by done.
    f_equal. lia.
Qed.

Lemma foldl_zeros k l : foldl (λ a d, 10 * a + d) 0 (replicate k 0 ++ l) =
  foldl (λ a d, 10 * a + d) 0 l.
Proof. induction k; cbn; done. Qed.

Lemma foldl_rev {A B} (f : A → B → A) a l : foldl f a (rev l) = foldr (flip f) a l.
Proof. induction l as [|x l IH]; [done|]. cbn. by rewrite foldl_app, IH. Qed.

Lemma fmt_digits_value n : 0 ≤ n < 10 ^ 20 →
  foldl (λ a d, 10 * a + d) 0 (fmt_digits n) = n.
Proof.
  intros Hn. unfold fmt_digits. rewrite foldl_rev. by apply digits_rev_value.
Qed.

Lemma fmt_digits_digits n : Forall is_digit (fmt_digits n).
Proof. unfold fmt_digits. apply Forall_rev, digits_rev_digits. Qed.

Lemma fmt_digits_nonempty n : (0 < length (fmt_digits n))%nat.
Proof. unfold fmt_digits. rewrite length_rev. cbn. lia. Qed.

(** The digits printed by %d and %010d for a non-negative number. *)
Definition padded (w : nat) (n : Z) : list Z :=
  replicate (w - length (fmt_digits n)) 0 ++ fmt_digits n.

Lemma fmt_0d_nonneg w n : 0 ≤ n → fmt_0d w n = string_of_digits (padded w n).
Proof.
  intros Hn. unfold fmt_0d, padded. destruct (Z.ltb_spec n 0); [lia|].
  rewrite Z.abs_eq by done. by rewrite Nat.sub_0_r.
Qed.

Lemma fmt_d_nonneg n : 0 ≤ n → fmt_d n = string_of_digits (padded 0 n).
Proof. intros Hn. unfold fmt_d. by destruct (Z.ltb_spec n 0); [lia|]. Qed.

Lemma padded_digits w n : Forall is_digit (padded w n).
Proof.
  apply Forall_app. split; [|apply fmt_digits_digits].
  apply Forall_replicate. unfold is_digit. lia.
Qed.

(** No digit at the start. *)
Definition stops (s : string) : Prop :=
  match s with String a _ => char_digit a = None | EmptyString => True end.

Lemma scan_stops s acc cnt : stops s → scan_digits s acc cnt = (acc, cnt, s).
Proof. destruct s as [|a s]; cbn; [done|]. by intros ->. Qed.

(** A printed number, padded or not, followed by no digit scans back. *)
Lemma scan_padded w n rest :
  0 ≤ n < 2 ^ 63 → stops rest →
  scan_d (string_of_digits (padded w n) +:+ rest) = Some (n, rest).
Proof.
  intros Hn Ha. pose proof (padded_digits w n) as Hd.
  assert (foldl (λ a d, 10 * a + d) 0 (padded w n) = n) as Hv.
  { unfold padded. rewrite foldl_zeros. apply fmt_digits_value. lia. }
  assert (0 < length (padded w n))%nat as Hlen.
  { unfold padded. rewrite length_app. pose proof (fmt_digits_nonempty n). lia. }
  unfold scan_d. destruct (padded w n) as [|d l] eqn:El; [cbn in Hlen; lia|].
  change (string_of_digits (d :: l) +:+ rest)
    with (String (digit_char d) (string_of_digits l +:+ rest)).
  assert (∀ k, char_digit (Ascii.ascii_of_nat k) = None →
    Ascii.eqb (digit_char d) (Ascii.ascii_of_nat k) = false) as Hne.
  { intros k Hk. destruct (Ascii.eqb_spec (digit_char d) (Ascii.ascii_of_nat k)) as [E|]; [|done].
    rewrite <-E, char_digit_char in Hk; [done|]. by inversion Hd. }
  cbv beta iota zeta. rewrite (Hne 45%nat), (Hne 43%nat) by reflexivity.
  change (String (digit_char d) (string_of_digits l +:+ rest))
    with (string_of_digits (d :: l) +:+ rest).
  rewrite scan_digits_app, Hv, scan_stops by done.
  destruct (Nat.eqb_spec (0 + length (d :: l)) 0) as [E|_]; [cbn in E; lia|].
  rewrite decide_True; [done|]. unfold in_int64. lia.
Qed.

Lemma append_cons x (s t : string) : String x s +:+ t = String x (s +:+ t).
Proof. done. Qed.

Lemma append_nil (s : string) : "" +:+ s = s.
Proof. done. Qed.

Lemma append_nil_r (s : string) : s +:+ "" = s.
Proof. induction s as [|x s IH]; [done|]. by rewrite append_cons, IH. Qed.

Lemma string_append_assoc (a b c : string) : (a +:+ b) +:+ c = a +:+ (b +:+ c).
Proof. induction a as [|x a IH]; [done|]. by rewrite !append_cons, IH. Qed.

Lemma prefix_split p s : String.prefix p s = true ↔ ∃ t, s = p +:+ t.
Proof.
  revert s. induction p as [|a p IH]; intros s.
  - split; [intros _; by exists s|]. intros _. by destruct s.
  - destruct s as [|b s]; [split; [done|]; intros (t & [=])|].
    change (String.prefix (String a p) (String b s)) with
      (if Ascii.ascii_dec a b then String.prefix p s else false).
    setoid_rewrite append_cons. destruct (Ascii.ascii_dec a b) as [->|Hne].
    + rewrite IH. split; intros (t & E); exists t; [by rewrite E|]. by injection E.
    + split; [done|]. intros (t & E). by injection E.
Qed.

(** Two printed numbers followed by the same separator start alike only if they
    are equal. *)
Lemma padded_prefix w w' n n' t :
  0 ≤ n < 2 ^ 63 → 0 ≤ n' < 2 ^ 63 → ∀ u,
  string_of_digits (padded w n) +:+ String (Ascii.ascii_of_nat 45) t =
  string_of_digits (padded w' n') +:+ String (Ascii.ascii_of_nat 45) u → n = n'.
Proof.
  intros Hn Hn' u E. pose proof (scan_padded w n (String (Ascii.ascii_of_nat 45) t) Hn eq_refl) as H.
  rewrite E, (scan_padded w' n' (String (Ascii.ascii_of_nat 45) u) Hn' eq_refl) in H.
  by injection H.
Qed.


(** ** Ordered iteration

    A store iterator visits the keys in byte order; sort.Sort on a slice with
    distinct keys gives the same. *)

Definition key_le {A} (x y : string * A) : Prop := String.le (fst x) (fst y).

#[export] Instance key_le_dec {A} : RelDecision (@key_le A).
Proof. intros x y. apply String.le_dec. Defined.

Definition kv_sorted {A} (m : gmap string A) : list (string * A) :=
  merge_sort key_le (map_to_list m).

Lemma kv_sorted_perm {A} (m : gmap string A) : kv_sorted m ≡ₚ map_to_list m.
Proof. apply merge_sort_Permutation. Qed.

Lemma elem_of_kv_sorted {A} (m : gmap string A) k x : (k, x) ∈ kv_sorted m ↔ m !! k = Some x.
Proof. rewrite kv_sorted_perm. apply elem_of_map_to_list. Qed.
(** Iteration over keys that are built from a pair or a number: [key] gives the
    bytes. *)
Definition keyed_sorted `{Countable K} {A} (key : K → string) (m : gmap K A) : list (K * A) :=
  snd <$> merge_sort key_le ((λ kx : K * A, (key (fst kx), kx)) <$> map_to_list m).

Lemma keyed_sorted_perm `{Countable K} {A} (key : K → string) (m : gmap K A) :
  keyed_sorted key m ≡ₚ map_to_list m.
Proof.
  unfold keyed_sorted. rewrite merge_sort_Permutation, <-list_fmap_compose.
  by rewrite (list_fmap_ext _ id), list_fmap_id by done.
Qed.

(** The members of a set of keys, in order. *)
Definition set_sorted (X : gset string) : list string := merge_sort String.le (elements X).

Lemma elem_of_set_sorted X k : k ∈ set_sorted X ↔ k ∈ X.
Proof. unfold set_sorted. rewrite merge_sort_Permutation. apply elem_of_elements. Qed.

Lemma NoDup_set_sorted X : NoDup (set_sorted X).
Proof. unfold set_sorted. rewrite merge_sort_Permutation. apply NoDup_elements. Qed.

(** ** binary.LittleEndian *)

(** PutUint64 writes the [n] low bytes, the lowest first. *)
Fixpoint le_bytes (n : nat) (v : Z) : string :=
  match n with
  | O => ""
  | S n => String (Ascii.ascii_of_nat (Z.to_nat (v mod 256))) (le_bytes n (v / 256))
  end.

Fixpoint le_value (s : string) : Z :=
  match s with
  | EmptyString => 0
  | String a s => Z.of_nat (Ascii.nat_of_ascii a) + 256 * le_value s
  end.

Lemma le_bytes_length n v : String.length (le_bytes n v) = n.
Proof. revert v. induction n; intros v; cbn; auto. Qed.

Lemma le_value_bytes n v : 0 ≤ v < 256 ^ Z.of_nat n → le_value (le_bytes n v) = v.
Proof.
  revert v. induction n as [|n IH]; intros v Hv; cbn [le_bytes le_value]; [cbn in Hv; lia|].
  rewrite Nat2Z.inj_succ, Z.pow_succ_r in Hv by lia.
  pose proof (Z.mod_pos_bound v 256 ltac:(lia)).
  rewrite Ascii.nat_ascii_embedding by lia.
  rewrite IH by (split; [apply Z.div_pos; lia|apply Z.div_lt_upper_bound; lia]).
  pose proof (Z.div_mod v 256 ltac:(lia)). lia.
Qed.

(** ** Slices of strings *)

Lemma string_length_app (s t : string) :
  String.length (s +:+ t) = (String.length s + String.length t)%nat.
Proof. induction s as [|a s IH]; [done|]. rewrite append_cons. cbn. by rewrite IH. Qed.

Lemma substring_all s : String.substring 0 (String.length s) s = s.
Proof. induction s as [|a s IH]; cbn; [done|]. by rewrite IH. Qed.

Lemma substring_app_l s t : String.substring 0 (String.length s) (s +:+ t) = s.
Proof. induction s as [|a s IH]; [by destruct t|]. rewrite append_cons. cbn. by rewrite IH. Qed.

Lemma substring_app_r s t n :
  String.substring (String.length s) n (s +:+ t) = String.substring 0 n t.
Proof. induction s as [|a s IH]; [done|]. rewrite append_cons. cbn. by rewrite IH. Qed.

(** ** strings.TrimSpace

    The runes with Unicode's White_Space property, in UTF-8: six ASCII characters,
    and sequences of two and three bytes.  The right end is the left end of the
    reversed string, where the bytes of a rune come in the other order. *)

Definition space1 (a : nat) : bool := ((9 <=? a) && (a <=? 13) || (a =? 32))%nat.
Definition space2 (a b : nat) : bool := ((a =? 194) && ((b =? 133) || (b =? 160)))%nat.
Definition space3 (a b c : nat) : bool :=
  ((a =? 225) && (b =? 154) && (c =? 128)
   || (a =? 226) && (b =? 128) && ((128 <=? c) && (c <=? 138) || (c =? 168) || (c =? 169) || (c =? 175))
   || (a =? 226) && (b =? 129) && (c =? 159)
   || (a =? 227) && (b =? 128) && (c =? 128))%nat.

Fixpoint trim_left (back : bool) (s : string) : string :=
  match s with
  | EmptyString => s
  | String a s1 =>
      let a := Ascii.nat_of_ascii a in
      if space1 a then trim_left back s1
      else match s1 with
      | EmptyString => s
      | String b s2 =>
          let b := Ascii.nat_of_ascii b in
          if (if back then space2 b a else space2 a b) then trim_left back s2
          else match s2 with
          | EmptyString => s
          | String c s3 =>
              let c := Ascii.nat_of_ascii c in
              if (if back then space3 c b a else space3 a b c) then trim_left back s3 else s
          end
      end
  end.

Definition string_rev (s : string) : string :=
  String.string_of_list_ascii (rev (String.list_ascii_of_string s)).

Definition TrimSpace (s : string) : string :=
  string_rev (trim_left true (string_rev (trim_left false s))).

(** ** strconv.ParseUint with base 10 and 64 bits *)

Fixpoint all_digits (s : string) (acc : Z) : option Z :=
  match s with
  | EmptyString => Some acc
  | String a s => match char_digit a with Some d => all_digits s (10 * acc + d) | None => None end
  end.

Definition ParseUint (s : string) : option Z :=
  match s with
  | EmptyString => None
  | _ => match all_digits s 0 with
         | Some n => if (n <? 2 ^ 64)%Z then Some n else None
         | None => None
         end
  end.

Lemma all_digits_value l acc : Forall is_digit l →
  all_digits (string_of_digits l) acc = Some (foldl (λ a d, 10 * a + d) acc l).
Proof.
  intros Hl. revert acc. induction Hl as [|d l Hd _ IH]; intros acc; [done|].
  change (string_of_digits (d :: l)) with (String (digit_char d) (string_of_digits l)).
  cbn [all_digits foldl]. by rewrite char_digit_char, IH.
Qed.

(** What is printed parses. *)
Lemma ParseUint_fmt_d n : 0 ≤ n < 2 ^ 64 → ParseUint (fmt_d n) = Some n.
Proof.
  intros Hn. unfold fmt_d. destruct (Z.ltb_spec n 0); [lia|]. unfold ParseUint.
  rewrite all_digits_value by apply fmt_digits_digits. rewrite fmt_digits_value by lia.
  destruct (Z.ltb_spec n (2 ^ 64)); [|lia]. pose proof (fmt_digits_nonempty n) as Hne.
  destruct (fmt_digits n); [cbn in Hne; lia|done].
Qed.

(** ** sort.Sort and the range over a map

    Package sort promises a sorted permutation when Less is a strict weak order
    on the elements, and a permutation in any case; which one is not specified
    when elements are equivalent or Less is no order.  A range over a map visits
    every key once, in an order that the language leaves open. *)

Class GoRt := {
  go_sort : ∀ {A}, (A → A → bool) → list A → list A;
  map_range : list string → list string;
}.

(** [less] is a strict weak order on the elements of [l]. *)
Record weak_order {A} (less : A → A → bool) (l : list A) : Prop := {
  wo_irrefl x : x ∈ l → less x x = false;
  wo_trans x y z : x ∈ l → y ∈ l → z ∈ l → less x y = true → less y z = true → less x z = true;
  wo_neg x y z : x ∈ l → y ∈ l → z ∈ l → less x y = false → less y z = false → less x z = false;
}.

Class GoRtLaws `{R : GoRt} : Prop := {
  go_sort_perm {A} (less : A → A → bool) l : go_sort less l ≡ₚ l;
  go_sort_sorted {A} (less : A → A → bool) l : weak_order less l →
    StronglySorted (λ x y, less y x = false) (go_sort less l);
  map_range_perm l : map_range l ≡ₚ l;
}.

(** The insertion sort that package sort uses on short slices: an element moves
    left while it is less than its predecessor. *)
Module GoRtImpl.
Fixpoint ins {A} (less : A → A → bool) (x : A) (l : list A) : list A :=
  match l with
  | [] => [x]
  | y :: l' => if less x y then y :: ins less x l' else x :: l
  end.

Definition isort {A} (less : A → A → bool) (l : list A) : list A :=
  rev (foldr (ins less) [] (rev l)).

#[local] Instance ops : GoRt := {| go_sort := @isort; map_range l := l |}.

Lemma ins_perm {A} (less : A → A → bool) x l : ins less x l ≡ₚ x :: l.
Proof.
  induction l as [|y l IH]; cbn; [done|]. destruct (less x y); [|done].
  rewrite IH. apply Permutation_swap.
Qed.

Lemma foldr_ins_perm {A} (less : A → A → bool) l : foldr (ins less) [] l ≡ₚ l.
Proof. induction l as [|x l IH]; cbn; [done|]. by rewrite ins_perm, IH. Qed.

Lemma rev_perm {A} (l : list A) : rev l ≡ₚ l.
Proof. symmetry. apply Permutation_rev. Qed.

Lemma ins_sorted {A} (less : A → A → bool) (P : A → Prop) x l :
  (∀ x y, P x → P y → less x y = true → less y x = false) →
  (∀ x y z, P x → P y → P z → less x y = false → less y z = false → less x z = false) →
  P x → Forall P l → StronglySorted (λ x y, less x y = false) l →
  StronglySorted (λ x y, less x y = false) (ins less x l).
Proof.
  intros Ha Hn Hx Hl Hs. induction Hs as [|y l Hs IH Hy]; cbn; [by repeat constructor|].
  apply Forall_cons in Hl as [Py Hl]. destruct (less x y) eqn:E.
  - constructor; [by apply IH|]. rewrite (ins_perm less x l). constructor; [by apply Ha|done].
  - constructor; [by constructor|]. constructor; [done|]. rewrite Forall_forall in *. eauto.
Qed.

Lemma StronglySorted_rev {A} (R : A → A → Prop) l :
  StronglySorted R l → StronglySorted (λ x y, R y x) (rev l).
Proof.
  induction 1 as [|x l Hs IH Hx]; cbn; [constructor|].
  assert (Forall (λ y, R x y) (rev l)) as Hf by (by rewrite rev_perm).
  clear -IH Hf. induction IH as [|y k Hs IH Hy]; cbn; [repeat constructor|].
  apply Forall_cons in Hf as [??]. constructor; [by apply IH|]. apply Forall_app. by repeat constructor.
Qed.

Lemma laws : GoRtLaws.
Proof.
  split.
  - intros A less l. cbn. unfold isort. by rewrite rev_perm, foldr_ins_perm, rev_perm.
  - intros A less l [H1 H2 H3]. cbn. unfold isort.
    apply (StronglySorted_rev (λ x y, less x y = false)).
    assert (Forall (λ x, x ∈ l) (rev l)) as Hf by (rewrite rev_perm; by apply Forall_forall).
    assert (∀ x y, x ∈ l → y ∈ l → less x y = true → less y x = false) as Ha.
    { intros x y Hx Hy E. destruct (less y x) eqn:E'; [|done]. rewrite <-(H1 x Hx). symmetry. eauto. }
    induction Hf as [|x k Hx Hk IH]; cbn; [constructor|].
    apply (ins_sorted less (λ x, x ∈ l)); try done. by rewrite foldr_ins_perm.
  - done.
Qed.
End GoRtImpl.
