(* ===== verification/CoinFacts.v ===== *)
(** * Facts on coins that follow from the laws of [SdkCoins]

    Validity and amounts of sums and differences, sums over a list, and the tactic
    [coins] that proves coins valid from the validity of their parts. *)

From S2P Require Import Prelude SdkDec SdkCoins GoStd.

#[local] Open Scope Z_scope.

Section coins.
Context `{DO : Dec.Ops} `{DL : !Dec.Laws} `{CO : !Coins.Ops} `{CL : !Coins.Laws}.

Lemma valid_good c : Coins.IsValid c = true → Coins.good c.
Proof.
  intros [Hs Hp]%Coins.IsValid_spec. split; [done|]. eapply Forall_impl; [done|].
  cbn. intros x []. split; [lia|done].
Qed.
Lemma good_sorted c : Coins.good c → sorted_coins c.
Proof. by intros []. Qed.
Lemma valid_sorted c : Coins.IsValid c = true → sorted_coins c.
Proof. intros. by apply good_sorted, valid_good. Qed.
Lemma good_amt c d : Coins.good c → 0 ≤ amt d c.
Proof. intros [_ Hf]. apply amt_nonneg. eapply Forall_impl; [done|]. by intros x []. Qed.
Lemma valid_amt c d : Coins.IsValid c = true → 0 ≤ amt d c.
Proof. intros. by apply good_amt, valid_good. Qed.
Lemma valid_nil : Coins.IsValid [] = true.
Proof. apply Coins.IsValid_spec. split; constructor. Qed.
Lemma Add2_good_amt a b d : Coins.good a → Coins.good b → amt d (Coins.Add2 a b) = amt d a + amt d b.
Proof. intros [] []. by apply Coins.Add2_amt. Qed.

(** A difference that stays non-negative. *)
Lemma Sub_ok a b : Coins.IsValid a = true → Coins.IsValid b = true → (∀ d, amt d b ≤ amt d a) →
  ∃ c, Coins.Sub a b = Some c ∧ Coins.IsValid c = true ∧ ∀ d, amt d c = amt d a - amt d b.
Proof.
  intros Ha Hb Hle. rewrite Coins.Sub_spec.
  assert ((Coins.SafeSub a b).2 = false) as E by (apply Coins.SafeSub_neg; try done; by apply valid_sorted).
  rewrite E. eexists. split; [done|]. split; [apply Coins.SafeSub_valid; try done; by apply valid_good|].
  intros d. apply Coins.SafeSub_amt; by apply valid_sorted.
Qed.

End coins.

(** Validity of coins from that of their parts. *)
Ltac coins := solve [repeat first [assumption | apply valid_nil | apply valid_good
  | apply Coins.Add2_valid | apply valid_sorted | apply good_sorted]].

Section sums.
Context `{DO : Dec.Ops} `{DL : !Dec.Laws} `{CO : !Coins.Ops} `{CL : !Coins.Laws}.

Lemma foldl_Add2 {A} (f : A → SysCoins) (l : list A) (t : SysCoins) :
  Coins.IsValid t = true → Forall (λ x, Coins.good (f x)) l →
  Coins.IsValid (foldl (λ t x, Coins.Add2 t (f x)) t l) = true ∧
  ∀ d, amt d (foldl (λ t x, Coins.Add2 t (f x)) t l) = amt d t + zsum ((λ x, amt d (f x)) <$> l).
Proof.
  intros Ht Hl. revert t Ht. induction Hl as [|x l Hx _ IH]; intros t Ht; cbn [foldl].
  - split; [done|]. intros d. cbn. lia.
  - destruct (IH (Coins.Add2 t (f x))) as [Hv Ha]; [apply Coins.Add2_valid; coins|]. split; [done|].
    intros d. rewrite Ha, fmap_cons, zsum_cons, Add2_good_amt by coins. lia.
Qed.

Lemma zsum_values {A} (f : A → Z) (m : gmap string A) : zsum (f <$> (snd <$> kv_sorted m)) = msum f m.
Proof. unfold msum. rewrite <-list_fmap_compose. apply zsum_perm. by rewrite kv_sorted_perm. Qed.
End sums.
