(* ===== verification/CommonErrors.v ===== *)
(** * Errors of the shared code: src/x/common/errors.go

    An error is its codespace and code; the constructors' arguments only fill in
    the message, which the model drops. *)

From S2P Require Import Prelude.

#[local] Open Scope Z_scope.

Module CommonErr.
Definition DefaultCodespace : string := "common".

Definition ErrInvalidParam : error := MkError DefaultCodespace 60109.
Definition ErrInvalidPaginateParam : error := MkError DefaultCodespace 60101.
Definition ErrCreateAddrFromBech32Failed : error := MkError DefaultCodespace 60102.
Definition ErrMarshalJSONFailed : error := MkError DefaultCodespace 60103.
Definition ErrUnMarshalJSONFailed : error := MkError DefaultCodespace 60104.
Definition ErrStrconvFailed : error := MkError DefaultCodespace 60105.
Definition ErrUnknownProposalType (codespace : string) : error := MkError codespace 60106.
Definition ErrInsufficientCoins (codespace : string) : error := MkError codespace 60107.

  (** Every error the file can build, in the order of the file. *)
Definition all : list error := [
    ErrInvalidParam;
    ErrInvalidPaginateParam;
    ErrCreateAddrFromBech32Failed;
    ErrMarshalJSONFailed;
    ErrUnMarshalJSONFailed;
    ErrStrconvFailed;
    ErrUnknownProposalType DefaultCodespace;
    ErrInsufficientCoins DefaultCodespace
  ].
End CommonErr.
