(* ===== verification/TokenErrors.v ===== *)
(** * Errors of the token module: src/x/token/types/errors.go

    An error is its codespace and code; the constructors' arguments only fill in
    the message, which the model drops. *)

From S2P Require Import Prelude.

#[local] Open Scope Z_scope.

Module TokenErr.
Definition DefaultCodespace : string := "token".

Definition ErrBlockedContractRecipient : error := MkError DefaultCodespace 61033.
Definition ErrBlockedRecipient : error := MkError DefaultCodespace 61001.
Definition ErrSendDisabled : error := MkError DefaultCodespace 61002.
Definition ErrSendCoinsFromAccountToModuleFailed : error := MkError DefaultCodespace 61003.
Definition ErrUnrecognizedLockCoinsType : error := MkError DefaultCodespace 61004.
Definition ErrFailedToUnlockAddress : error := MkError DefaultCodespace 61005.
Definition ErrInvalidCoins : error := MkError DefaultCodespace 61006.
Definition ErrGetConfirmOwnership : error := MkError DefaultCodespace 61010.
Definition ErrUpdateLockedCoins : error := MkError DefaultCodespace 61011.
Definition ErrUnknownTokenQueryType : error := MkError DefaultCodespace 61012.
Definition ErrUserInputSymbolIsEmpty : error := MkError DefaultCodespace 61013.
Definition ErrNotAllowedOriginalSymbol : error := MkError DefaultCodespace 61014.
Definition ErrWholeNameIsNotValidl : error := MkError DefaultCodespace 61015.
Definition ErrDescLenBiggerThanLimit : error := MkError DefaultCodespace 61016.
Definition ErrTotalSupplyOutOfRange : error := MkError DefaultCodespace 61017.
Definition ErrAmountBiggerThanTotalSupplyUpperbound : error := MkError DefaultCodespace 61018.
Definition ErrAmountIsNotValid : error := MkError DefaultCodespace 61019.
Definition ErrMsgSymbolIsEmpty : error := MkError DefaultCodespace 61020.
Definition ErrMintCoinsFailed : error := MkError DefaultCodespace 61021.
Definition ErrSendCoinsFromModuleToAccountFailed : error := MkError DefaultCodespace 61022.
Definition ErrSendCoinsFromAccountToAccountFailed : error := MkError DefaultCodespace 61034.
Definition ErrBurnCoinsFailed : error := MkError DefaultCodespace 61023.
Definition ErrConfirmOwnershipNotExistOrBlockTimeAfter : error := MkError DefaultCodespace 61024.
Definition ErrWholeNameAndDescriptionIsNotModified : error := MkError DefaultCodespace 61025.
Definition ErrTokenIsNotMintable : error := MkError DefaultCodespace 61026.
Definition ErrMsgTransfersAmountBiggerThanSendLimit : error := MkError DefaultCodespace 61027.
Definition ErrInputOwnerIsNotEqualTokenOwner : error := MkError DefaultCodespace 61028.
Definition ErrCodeinputFromAddressIsNotEqualTokenInfoOwner : error := MkError DefaultCodespace 61029.
Definition ErrCodeConfirmOwnershipAddressNotEqualsMsgAddress : error := MkError DefaultCodespace 61030.
Definition ErrAddressIsRequired : error := MkError DefaultCodespace 61009.
Definition ErrGetDecimalFromDecimalStringFailed : error := MkError DefaultCodespace 61031.
Definition ErrCodeTotalsupplyExceedsTheUpperLimit : error := MkError DefaultCodespace 61032.

  (** Every error the file can build, in the order of the file. *)
Definition all : list error := [
    ErrBlockedContractRecipient;
    ErrBlockedRecipient;
    ErrSendDisabled;
    ErrSendCoinsFromAccountToModuleFailed;
    ErrUnrecognizedLockCoinsType;
    ErrFailedToUnlockAddress;
    ErrInvalidCoins;
    ErrGetConfirmOwnership;
    ErrUpdateLockedCoins;
    ErrUnknownTokenQueryType;
    ErrUserInputSymbolIsEmpty;
    ErrNotAllowedOriginalSymbol;
    ErrWholeNameIsNotValidl;
    ErrDescLenBiggerThanLimit;
    ErrTotalSupplyOutOfRange;
    ErrAmountBiggerThanTotalSupplyUpperbound;
    ErrAmountIsNotValid;
    ErrMsgSymbolIsEmpty;
    ErrMintCoinsFailed;
    ErrSendCoinsFromModuleToAccountFailed;
    ErrSendCoinsFromAccountToAccountFailed;
    ErrBurnCoinsFailed;
    ErrConfirmOwnershipNotExistOrBlockTimeAfter;
    ErrWholeNameAndDescriptionIsNotModified;
    ErrTokenIsNotMintable;
    ErrMsgTransfersAmountBiggerThanSendLimit;
    ErrInputOwnerIsNotEqualTokenOwner;
    ErrCodeinputFromAddressIsNotEqualTokenInfoOwner;
    ErrCodeConfirmOwnershipAddressNotEqualsMsgAddress;
    ErrAddressIsRequired;
    ErrGetDecimalFromDecimalStringFailed;
    ErrCodeTotalsupplyExceedsTheUpperLimit
  ].
End TokenErr.
