(* ===== verification/SwapErrors.v ===== *)
(** * Errors of the swap module: src/x/ammswap/types/errors.go

    An error is its codespace and code; the constructors' arguments only fill in
    the message, which the model drops. *)

From S2P Require Import Prelude.

#[local] Open Scope Z_scope.

Module SwapErr.
Definition DefaultCodespace : string := "ammswap".

Definition ErrNonExistSwapTokenPair : error := MkError DefaultCodespace 65000.
Definition ErrNonExistPoolToken : error := MkError DefaultCodespace 65001.
Definition ErrCodeMinCoinsFailed : error := MkError DefaultCodespace 65002.
Definition ErrSendCoinsFromAccountToModule : error := MkError DefaultCodespace 65003.
Definition ErrBaseAmountNameBiggerThanQuoteAmountName : error := MkError DefaultCodespace 65004.
Definition ErrValidateSwapAmountName : error := MkError DefaultCodespace 65005.
Definition ErrBaseNameEqualQuoteName : error := MkError DefaultCodespace 65006.
Definition ErrValidateDenom : error := MkError DefaultCodespace 65007.
Definition ErrNotAllowedOriginSymbol : error := MkError DefaultCodespace 65008.
Definition ErrInsufficientPoolToken : error := MkError DefaultCodespace 65009.
Definition ErrTokenNotExist : error := MkError DefaultCodespace 65010.
Definition ErrInvalidCoins : error := MkError DefaultCodespace 65011.
Definition ErrInvalidTokenPair : error := MkError DefaultCodespace 65012.
Definition ErrAddressIsRequire : error := MkError DefaultCodespace 65013.
Definition ErrIsZeroValue : error := MkError DefaultCodespace 65014.
Definition ErrBlockTimeBigThanDeadline : error := MkError DefaultCodespace 65015.
Definition ErrLessThan : error := MkError DefaultCodespace 65016.
Definition ErrMintPoolTokenFailed : error := MkError DefaultCodespace 65017.
Definition ErrSendCoinsFromPoolToAccountFailed : error := MkError DefaultCodespace 65018.
Definition ErrBurnPoolTokenFailed : error := MkError DefaultCodespace 65019.
Definition ErrSendCoinsToPoolFailed : error := MkError DefaultCodespace 65020.
Definition ErrSwapUnknownMsgType : error := MkError DefaultCodespace 65021.
Definition ErrSwapUnknownQueryType : error := MkError DefaultCodespace 65022.
Definition ErrSellAmountOrBuyTokenIsEmpty : error := MkError DefaultCodespace 65023.
Definition ErrSellAmountEqualBuyToken : error := MkError DefaultCodespace 65024.
Definition ErrQueryParamsAddressIsEmpty : error := MkError DefaultCodespace 65025.
Definition ErrQueryParamsQuoteTokenAmountIsEmpty : error := MkError DefaultCodespace 65026.
Definition ErrQueryParamsBaseTokenIsEmpty : error := MkError DefaultCodespace 65027.
Definition ErrMinLiquidityIsNegative : error := MkError DefaultCodespace 65028.
Definition ErrMaxBaseAmountOrQuoteAmountIsNegative : error := MkError DefaultCodespace 65029.
Definition ErrMaxBaseAmount : error := MkError DefaultCodespace 65030.
Definition ErrQuoteAmount : error := MkError DefaultCodespace 65031.
Definition ErrMinBaseAmount : error := MkError DefaultCodespace 65032.
Definition ErrMinQuoteAmount : error := MkError DefaultCodespace 65033.
Definition ErrSoldTokenAmountIsNegative : error := MkError DefaultCodespace 65034.
Definition ErrToken0NameEqualToken1Name : error := MkError DefaultCodespace 65035.
Definition ErrSoldTokenAmount : error := MkError DefaultCodespace 65036.
Definition ErrMinBoughtTokenAmount : error := MkError DefaultCodespace 65037.
Definition ErrConvertSellTokenAmount : error := MkError DefaultCodespace 65038.
Definition ErrConvertQuoteTokenAmount : error := MkError DefaultCodespace 65039.
Definition ErrSendCoinsFailed : error := MkError DefaultCodespace 65040.
Definition ErrMsgDeadlineLessThanBlockTime : error := MkError DefaultCodespace 65041.
Definition ErrBaseTokensAmountBiggerThanMax : error := MkError DefaultCodespace 65042.
Definition ErrSwapTokenPairExist : error := MkError DefaultCodespace 65043.
Definition ErrPoolTokenPairExist : error := MkError DefaultCodespace 65044.

  (** Every error the file can build, in the order of the file. *)
Definition all : list error := [
    ErrNonExistSwapTokenPair;
    ErrNonExistPoolToken;
    ErrCodeMinCoinsFailed;
    ErrSendCoinsFromAccountToModule;
    ErrBaseAmountNameBiggerThanQuoteAmountName;
    ErrValidateSwapAmountName;
    ErrBaseNameEqualQuoteName;
    ErrValidateDenom;
    ErrNotAllowedOriginSymbol;
    ErrInsufficientPoolToken;
    ErrTokenNotExist;
    ErrInvalidCoins;
    ErrInvalidTokenPair;
    ErrAddressIsRequire;
    ErrIsZeroValue;
    ErrBlockTimeBigThanDeadline;
    ErrLessThan;
    ErrMintPoolTokenFailed;
    ErrSendCoinsFromPoolToAccountFailed;
    ErrBurnPoolTokenFailed;
    ErrSendCoinsToPoolFailed;
    ErrSwapUnknownMsgType;
    ErrSwapUnknownQueryType;
    ErrSellAmountOrBuyTokenIsEmpty;
    ErrSellAmountEqualBuyToken;
    ErrQueryParamsAddressIsEmpty;
    ErrQueryParamsQuoteTokenAmountIsEmpty;
    ErrQueryParamsBaseTokenIsEmpty;
    ErrMinLiquidityIsNegative;
    ErrMaxBaseAmountOrQuoteAmountIsNegative;
    ErrMaxBaseAmount;
    ErrQuoteAmount;
    ErrMinBaseAmount;
    ErrMinQuoteAmount;
    ErrSoldTokenAmountIsNegative;
    ErrToken0NameEqualToken1Name;
    ErrSoldTokenAmount;
    ErrMinBoughtTokenAmount;
    ErrConvertSellTokenAmount;
    ErrConvertQuoteTokenAmount;
    ErrSendCoinsFailed;
    ErrMsgDeadlineLessThanBlockTime;
    ErrBaseTokensAmountBiggerThanMax;
    ErrSwapTokenPairExist;
    ErrPoolTokenPairExist
  ].
End SwapErr.
