(* ===== verification/OrderErrors.v ===== *)
(** * Errors of the order module: src/x/order/types/errors.go

    An error is its codespace and code; the constructors' arguments only fill in
    the message, which the model drops. *)

From S2P Require Import Prelude.

#[local] Open Scope Z_scope.

Module OrderErr.
Definition DefaultCodespace : string := "order".

Definition ErrInvalidAddress : error := MkError DefaultCodespace 63000.
Definition ErrInvalidSizeParam : error := MkError DefaultCodespace 63001.
Definition ErrTokenPairNotExist : error := MkError DefaultCodespace 63002.
Definition ErrSendCoinsFailed : error := MkError DefaultCodespace 63003.
Definition ErrTradingPairIsDelisting : error := MkError DefaultCodespace 63004.
Definition ErrPriceOverAccuracy : error := MkError DefaultCodespace 63005.
Definition ErrQuantityOverAccuracy : error := MkError DefaultCodespace 63006.
Definition ErrMsgQuantityLessThan : error := MkError DefaultCodespace 63007.
Definition ErrOrderIsNotExist : error := MkError DefaultCodespace 63008.
Definition ErrCheckTokenPairUnderDexDelistFailed : error := MkError DefaultCodespace 63009.
Definition ErrIsProductLocked : error := MkError DefaultCodespace 63010.
Definition ErrNoOrdersIsCanceled : error := MkError DefaultCodespace 63011.
Definition ErrOrderStatusIsNotOpen : error := MkError DefaultCodespace 63012.
Definition ErrOrderIsNotExistOrClosed : error := MkError DefaultCodespace 63013.
Definition ErrUnknownOrderQueryType : error := MkError DefaultCodespace 63014.
Definition ErrOrderItemCountsBiggerThanLimit : error := MkError DefaultCodespace 63015.
Definition ErrOrderItemCountsIsEmpty : error := MkError DefaultCodespace 63016.
Definition ErrOrderItemProductCountsIsEmpty : error := MkError DefaultCodespace 63017.
Definition ErrOrderItemProductFormat : error := MkError DefaultCodespace 63018.
Definition ErrOrderItemProductSymbolIsEqual : error := MkError DefaultCodespace 63019.
Definition ErrOrderItemSideIsNotBuyAndSell : error := MkError DefaultCodespace 63020.
Definition ErrOrderItemPriceOrQuantityIsNotPositive : error := MkError DefaultCodespace 63021.
Definition ErrOrderIDsIsEmpty : error := MkError DefaultCodespace 63022.
Definition ErrCancelOrderBiggerThanLimit : error := MkError DefaultCodespace 63023.
Definition ErrOrderIDsHasDuplicatedID : error := MkError DefaultCodespace 63024.
Definition ErrUserInputOrderIDIsEmpty : error := MkError DefaultCodespace 63025.
Definition ErrNotOrderOwner : error := MkError DefaultCodespace 63026.
Definition ErrAllOrderFailedToExecute : error := MkError DefaultCodespace 63028.

  (** Every error the file can build, in the order of the file. *)
Definition all : list error := [
    ErrInvalidAddress;
    ErrInvalidSizeParam;
    ErrTokenPairNotExist;
    ErrSendCoinsFailed;
    ErrTradingPairIsDelisting;
    ErrPriceOverAccuracy;
    ErrQuantityOverAccuracy;
    ErrMsgQuantityLessThan;
    ErrOrderIsNotExist;
    ErrCheckTokenPairUnderDexDelistFailed;
    ErrIsProductLocked;
    ErrNoOrdersIsCanceled;
    ErrOrderStatusIsNotOpen;
    ErrOrderIsNotExistOrClosed;
    ErrUnknownOrderQueryType;
    ErrOrderItemCountsBiggerThanLimit;
    ErrOrderItemCountsIsEmpty;
    ErrOrderItemProductCountsIsEmpty;
    ErrOrderItemProductFormat;
    ErrOrderItemProductSymbolIsEqual;
    ErrOrderItemSideIsNotBuyAndSell;
    ErrOrderItemPriceOrQuantityIsNotPositive;
    ErrOrderIDsIsEmpty;
    ErrCancelOrderBiggerThanLimit;
    ErrOrderIDsHasDuplicatedID;
    ErrUserInputOrderIDIsEmpty;
    ErrNotOrderOwner;
    ErrAllOrderFailedToExecute
  ].
End OrderErr.
