(* ===== verification/DexErrors.v ===== *)
(** * Errors of the dex module: src/x/dex/types/errors.go

    An error is its codespace and code; the constructors' arguments only fill in
    the message, which the model drops. *)

From S2P Require Import Prelude.

#[local] Open Scope Z_scope.

Module DexErr.
Definition DefaultCodespace : string := "dex".

Definition ErrAddrAndProductAllRequired : error := MkError DefaultCodespace 64000.
Definition ErrInvalidTokenPair : error := MkError DefaultCodespace 64001.
Definition ErrTokenPairNotFound : error := MkError DefaultCodespace 64002.
Definition ErrBalanceNotEnough : error := MkError DefaultCodespace 64003.
Definition ErrInvalidAsset : error := MkError DefaultCodespace 64004.
Definition ErrUnknownOperator : error := MkError DefaultCodespace 64005.
Definition ErrExistOperator : error := MkError DefaultCodespace 64006.
Definition ErrInvalidWebsiteLength : error := MkError DefaultCodespace 64007.
Definition ErrInvalidWebsiteURL : error := MkError DefaultCodespace 64008.
Definition ErrTokenPairSaveFailed : error := MkError DefaultCodespace 64009.
Definition ErrInsufficientFeeCoins : error := MkError DefaultCodespace 64010.
Definition ErrTokenPairExisted : error := MkError DefaultCodespace 64011.
Definition ErrMustTokenPairOwner : error := MkError DefaultCodespace 64012.
Definition ErrDepositOnlySupportDenom : error := MkError DefaultCodespace 64013.
Definition ErrInsufficientDepositCoins : error := MkError DefaultCodespace 64014.
Definition ErrWithdrawOnlySupportDenom : error := MkError DefaultCodespace 64015.
Definition ErrInsufficientWithdrawCoins : error := MkError DefaultCodespace 64016.
Definition ErrInvalidAddress : error := MkError DefaultCodespace 64017.
Definition ErrUnauthorized : error := MkError DefaultCodespace 64018.
Definition ErrInvalidCoins : error := MkError DefaultCodespace 64019.
Definition ErrRepeatedTransferOwner : error := MkError DefaultCodespace 64020.
Definition ErrDepositFailed : error := MkError DefaultCodespace 64021.
Definition ErrWithdrawFailed : error := MkError DefaultCodespace 64022.
Definition ErrGetConfirmOwnershipNotExist : error := MkError DefaultCodespace 64023.
Definition ErrTokenPairIsRequired : error := MkError DefaultCodespace 64024.
Definition ErrIsTokenPairLocked : error := MkError DefaultCodespace 64025.
Definition ErrDexUnknownMsgType : error := MkError DefaultCodespace 64026.
Definition ErrDexUnknownQueryType : error := MkError DefaultCodespace 64027.
Definition ErrInitPriceIsNotPositive : error := MkError DefaultCodespace 64028.
Definition ErrAddressIsRequired : error := MkError DefaultCodespace 64029.
Definition ErrTokenOfPairNotExist : error := MkError DefaultCodespace 64030.
Definition ErrIsTransferringOwner : error := MkError DefaultCodespace 64031.
Definition ErrIsTransferOwnerExpired : error := MkError DefaultCodespace 64032.
Definition ErrUnauthorizedOperator : error := MkError DefaultCodespace 64033.

  (** Every error the file can build, in the order of the file. *)
Definition all : list error := [
    ErrAddrAndProductAllRequired;
    ErrInvalidTokenPair;
    ErrTokenPairNotFound;
    ErrBalanceNotEnough;
    ErrInvalidAsset;
    ErrUnknownOperator;
    ErrExistOperator;
    ErrInvalidWebsiteLength;
    ErrInvalidWebsiteURL;
    ErrTokenPairSaveFailed;
    ErrInsufficientFeeCoins;
    ErrTokenPairExisted;
    ErrMustTokenPairOwner;
    ErrDepositOnlySupportDenom;
    ErrInsufficientDepositCoins;
    ErrWithdrawOnlySupportDenom;
    ErrInsufficientWithdrawCoins;
    ErrInvalidAddress;
    ErrUnauthorized;
    ErrInvalidCoins;
    ErrRepeatedTransferOwner;
    ErrDepositFailed;
    ErrWithdrawFailed;
    ErrGetConfirmOwnershipNotExist;
    ErrTokenPairIsRequired;
    ErrIsTokenPairLocked;
    ErrDexUnknownMsgType;
    ErrDexUnknownQueryType;
    ErrInitPriceIsNotPositive;
    ErrAddressIsRequired;
    ErrTokenOfPairNotExist;
    ErrIsTransferringOwner;
    ErrIsTransferOwnerExpired;
    ErrUnauthorizedOperator
  ].
End DexErr.
