(* ===== verification/GovErrors.v ===== *)
(** * Errors of the gov module: src/x/gov/types/errors.go

    An error is its codespace and code; the constructors' arguments only fill in
    the message, which the model drops. *)

From S2P Require Import Prelude.

#[local] Open Scope Z_scope.

Module GovErr.
Definition DefaultCodespace : string := "gov".

Definition ErrInvalidAddress : error := MkError DefaultCodespace 68000.
Definition ErrUnknownProposal : error := MkError DefaultCodespace 68001.
Definition ErrInvalidProposalContent : error := MkError DefaultCodespace 68002.
Definition ErrInvalidProposalType : error := MkError DefaultCodespace 68003.
Definition ErrInvalidVote : error := MkError DefaultCodespace 68004.
Definition ErrInvalidGenesis : error := MkError DefaultCodespace 68005.
Definition ErrNoProposalHandlerExists : error := MkError DefaultCodespace 68006.
Definition ErrInvalidateProposalStatus : error := MkError DefaultCodespace 68007.
Definition ErrInitialDepositNotEnough : error := MkError DefaultCodespace 68008.
Definition ErrInvalidProposer : error := MkError DefaultCodespace 68009.
Definition ErrInvalidHeight : error := MkError DefaultCodespace 68010.
Definition ErrInvalidCoins : error := MkError DefaultCodespace 68011.
Definition ErrUnknownGovParamType : error := MkError DefaultCodespace 68012.

  (** Every error the file can build, in the order of the file. *)
Definition all : list error := [
    ErrInvalidAddress;
    ErrUnknownProposal;
    ErrInvalidProposalContent;
    ErrInvalidProposalType;
    ErrInvalidVote;
    ErrInvalidGenesis;
    ErrNoProposalHandlerExists;
    ErrInvalidateProposalStatus;
    ErrInitialDepositNotEnough;
    ErrInvalidProposer;
    ErrInvalidHeight;
    ErrInvalidCoins;
    ErrUnknownGovParamType
  ].
End GovErr.
