(* ===== verification/FarmErrors.v ===== *)
(** * Errors of the farm module: src/x/farm/types/errors.go

    An error is its codespace and code; the constructors' arguments only fill in
    the message, which the model drops. *)

From S2P Require Import Prelude.

#[local] Open Scope Z_scope.

Module FarmErr.
Definition DefaultCodespace : string := "farm".

Definition ErrInvalidInput : error := MkError DefaultCodespace 66000.
Definition ErrPoolAlreadyExist : error := MkError DefaultCodespace 66001.
Definition ErrNoFarmPoolFound : error := MkError DefaultCodespace 66002.
Definition ErrPoolNameNotExistedInWhiteList : error := MkError DefaultCodespace 66003.
Definition ErrNoLockInfoFound : error := MkError DefaultCodespace 66004.
Definition ErrTokenNotExist : error := MkError DefaultCodespace 66005.
Definition ErrPoolNotFinished : error := MkError DefaultCodespace 66006.
Definition ErrUnexpectedProposalType : error := MkError DefaultCodespace 66007.
Definition ErrNilAddress : error := MkError DefaultCodespace 66008.
Definition ErrRemainingAmountNotZero : error := MkError DefaultCodespace 66009.
Definition ErrInvalidPoolOwner : error := MkError DefaultCodespace 66010.
Definition ErrInvalidDenom : error := MkError DefaultCodespace 66011.
Definition ErrSendCoinsFromAccountToModuleFailed : error := MkError DefaultCodespace 66012.
Definition ErrUnknownFarmMsgType : error := MkError DefaultCodespace 66013.
Definition ErrUnknownFarmQueryType : error := MkError DefaultCodespace 66014.
Definition ErrInvalidInputAmount : error := MkError DefaultCodespace 66015.
Definition ErrInsufficientAmount : error := MkError DefaultCodespace 66016.
Definition ErrInvalidStartHeight : error := MkError DefaultCodespace 66017.
Definition ErrPoolNameLength : error := MkError DefaultCodespace 66018.
Definition ErrLockAmountBelowMinimum : error := MkError DefaultCodespace 66019.
Definition ErrSendCoinsFromModuleToAccountFailed : error := MkError DefaultCodespace 66020.
Definition ErrSwapTokenPairNotExist : error := MkError DefaultCodespace 66021.

  (** Every error the file can build, in the order of the file. *)
Definition all : list error := [
    ErrInvalidInput;
    ErrPoolAlreadyExist;
    ErrNoFarmPoolFound;
    ErrPoolNameNotExistedInWhiteList;
    ErrNoLockInfoFound;
    ErrTokenNotExist;
    ErrPoolNotFinished;
    ErrUnexpectedProposalType;
    ErrNilAddress;
    ErrRemainingAmountNotZero;
    ErrInvalidPoolOwner;
    ErrInvalidDenom;
    ErrSendCoinsFromAccountToModuleFailed;
    ErrUnknownFarmMsgType;
    ErrUnknownFarmQueryType;
    ErrInvalidInputAmount;
    ErrInsufficientAmount;
    ErrInvalidStartHeight;
    ErrPoolNameLength;
    ErrLockAmountBelowMinimum;
    ErrSendCoinsFromModuleToAccountFailed;
    ErrSwapTokenPairNotExist
  ].
End FarmErr.
