(* ===== verification/Common.v ===== *)
(** * Shared helpers: src/x/common/{util,const}.go

    Exact fixed point division, the big-endian coding of int64 keys, paging, the
    coin sufficiency check and the validators of module parameters. *)

From S2P Require Import Prelude SdkDec SdkCoins CommonErrors.

#[local] Open Scope Z_scope.

Module Common.

(** A byte is an integer below 256; binary.BigEndian writes eight of them. *)
Fixpoint be_bytes (n : nat) (v : Z) : list Z :=
  match n with
  | O => []
  | S n => Z.land (Z.shiftr v (8 * Z.of_nat n)) 255 :: be_bytes n v
  end.

Fixpoint be_value (acc : Z) (l : list Z) : Z :=
  match l with
  | [] => acc
  | b :: l => be_value (Z.lor (Z.shiftl acc 8) b) l
  end.

Definition Int64ToBytes (i : Z) : list Z := be_bytes 8 (uint64 i).

(** binary.BigEndian.Uint64 reads the first eight bytes and panics on fewer. *)
Definition BytesToInt64 (buf : list Z) : outcome Z :=
  if (length buf <? 8)%nat then Panic else Ok (int64 (be_value 0 (take 8 buf))).

(** Both results are Go ints. *)
Definition GetPage (page perPage : Z) : Z * Z :=
  if ((page <=? 0) || (perPage <=? 0))%bool then (0, 0)
  else (int64 ((page - 1) * perPage), perPage).

(** The address of blackHoleHex: twenty zero bytes. *)
Definition BlackHoleAddress : AccAddress :=
  foldr (λ _ s, String (Ascii.ascii_of_nat 0) s) "" (seq 0 20).

Section ops.
Context `{DO : Dec.Ops} `{CO : Coins.Ops}.

Definition NativeToken : string := Coins.DefaultBondDenom.

Definition HasSufficientCoins (addr : AccAddress) (availableCoins amt : SysCoins) : outcome unit :=
  if negb (Coins.IsValid amt) then Err Coins.ErrInvalidCoins
  else if negb (Coins.IsValid availableCoins) then Err Coins.ErrInvalidCoins
  else
    let '(_, hasNeg) := Coins.SafeSub availableCoins amt in
    if (hasNeg : bool) then Err Coins.ErrInsufficientFunds else Ok tt.

(** a * b / c; a division by zero panics. *)
Definition MulAndQuo (a b c : Dec) : outcome Dec :=
  let auxiliaryDec := Dec.NewDecFromBigInt (10 ^ Dec.Precision) in
  let a := Dec.MulTruncate a auxiliaryDec in
  q ← or_panic (Dec.QuoTruncate (Dec.MulTruncate a b) c);
  or_panic (Dec.QuoTruncate q auxiliaryDec).

(** ** Parameter validators

    A parameter arrives as an interface{} value: its dynamic type decides. *)
Inductive iface :=
| IDec (v : Dec) | ISysCoin (v : SysCoin) | ISysCoins (v : SysCoins) | IDuration (v : Z)
| IBool (v : bool) | IInt64 (v : Z) | IUint64 (v : Z) | IUint16 (v : Z) | IString (v : string).

(** fmt.Errorf: an error of no registered codespace. *)
Definition plain_error : error := MkError "" 1.

Definition check (b : bool) : outcome unit := if b then Ok tt else Err plain_error.

Definition ValidateSysCoin (i : iface) : outcome unit :=
  match i with ISysCoin v => check (Coins.CoinIsValid v) | _ => Err plain_error end.
Definition ValidateSysCoins (i : iface) : outcome unit :=
  match i with ISysCoins v => check (Coins.IsValid v) | _ => Err plain_error end.
Definition ValidateDurationPositive (i : iface) : outcome unit :=
  match i with IDuration v => check (negb (v <=? 0)%Z) | _ => Err plain_error end.
Definition ValidateBool (i : iface) : outcome unit :=
  match i with IBool _ => Ok tt | _ => Err plain_error end.
Definition ValidateInt64Positive (i : iface) : outcome unit :=
  match i with IInt64 v => check (negb (v <=? 0)%Z) | _ => Err plain_error end.
Definition ValidateUint64Positive (i : iface) : outcome unit :=
  match i with IUint64 v => check (negb (v =? 0)%Z) | _ => Err plain_error end.
Definition ValidateRateNotNeg (i : iface) : outcome unit :=
  match i with
  | IDec v => if Dec.IsNegative v then Err plain_error else check (negb (Dec.GT v Dec.OneDec))
  | _ => Err plain_error
  end.
Definition ValidateDecPositive (i : iface) : outcome unit :=
  match i with IDec v => check (Dec.IsPositive v) | _ => Err plain_error end.
Definition ValidateDenom (i : iface) : outcome unit :=
  match i with IString v => check (Coins.ValidDenom v) | _ => Err plain_error end.
Definition ValidateUint16Positive (i : iface) : outcome unit :=
  match i with IUint16 v => check (negb (v =? 0)%Z) | _ => Err plain_error end.
End ops.

(** ** MulAndQuo is exact

    The detour through ten to the precision keeps all digits: on non-negative
    operands the result is the floor of the exact quotient. *)
Section mulandquo.
Context `{DL : Dec.Laws}.

Lemma MulAndQuo_zero a b : MulAndQuo a b 0 = Panic.
Proof. unfold MulAndQuo. cbn. by rewrite Dec.QuoTruncate_zero. Qed.

Lemma MulAndQuo_floor a b c : 0 ≤ a → 0 ≤ b → 0 < c → MulAndQuo a b c = Ok (a * b / c).
Proof.
  intros Ha Hb Hc. pose proof unit_pos as Hu. unfold MulAndQuo.
  change (10 ^ Dec.Precision) with Dec.unit. dec_simp.
  rewrite Dec.QuoTruncate_spec by lia. cbn [or_panic mbind outcome_bind].
  rewrite Dec.QuoTruncate_spec by nia. cbn. f_equal.
  assert (∀ x, (x * (Dec.unit * Dec.unit)) ÷ Dec.unit = x * Dec.unit) as E1.
  { intros x. rewrite Z.mul_assoc. apply Z.quot_mul. lia. }
  rewrite E1. replace (a * Dec.unit * b) with (a * b * Dec.unit) by lia.
  rewrite Z.quot_mul by lia.
  rewrite Z.quot_mul_cancel_r by nia. rewrite quot_quot by nia.
  rewrite Z.quot_mul_cancel_r by nia. apply Z.quot_div_nonneg; nia.
Qed.
End mulandquo.

Section exact.
Context `{DL : Dec.Laws}.

(** Multiplying and dividing loses nothing in between: on non-negative
    operands the result is the exact quotient rounded down to the last digit, and
    a zero divisor panics. *)
Theorem MulAndQuo_exact a b c : 0 ≤ a → 0 ≤ b → 0 ≤ c →
  MulAndQuo a b c = if c =? 0 then Panic else Ok (a * b / c).
Proof.
  intros. destruct (Z.eqb_spec c 0) as [->|]; [apply MulAndQuo_zero|apply MulAndQuo_floor; lia].
Qed.
End exact.

(** ** The big-endian coding *)

Lemma lor_byte acc b : 0 ≤ b < 256 → Z.lor (Z.shiftl acc 8) b = acc * 256 + b.
Proof.
  intros Hb. rewrite <-Z.add_nocarry_lor; [by rewrite Z.shiftl_mul_pow2 by lia|].
  apply Z.bits_inj'. intros n Hn. rewrite Z.land_spec, Z.bits_0.
  destruct (Z.lt_ge_cases n 8).
  - by rewrite Z.shiftl_spec_low.
  - rewrite (Z.testbit_eqb b), Z.div_small; [by rewrite andb_false_r| |lia].
    split; [lia|]. apply Z.lt_le_trans with (2 ^ 8); [lia|]. apply Z.pow_le_mono_r; lia.
Qed.

Lemma byte_spec v n : 0 ≤ n → Z.land (Z.shiftr v n) 255 = v / 2 ^ n mod 256.
Proof.
  intros. change 255 with (Z.ones 8). by rewrite Z.land_ones, Z.shiftr_div_pow2 by lia.
Qed.

Lemma be_value_bytes n v acc :
  be_value acc (be_bytes n v) = acc * 2 ^ (8 * Z.of_nat n) + v mod 2 ^ (8 * Z.of_nat n).
Proof.
  revert acc. induction n as [|n IH]; intros acc; cbn [be_bytes be_value].
  { cbn. rewrite Z.mod_1_r. lia. }
  rewrite byte_spec, IH, lor_byte by (lia || apply Z.mod_pos_bound; lia).
  replace (8 * Z.of_nat (S n)) with (8 * Z.of_nat n + 8) by lia.
  rewrite Z.pow_add_r by lia. change (2 ^ 8) with 256.
  rewrite Z.rem_mul_r by lia. lia.
Qed.

Lemma be_bytes_length n v : length (be_bytes n v) = n.
Proof. induction n; cbn; congruence. Qed.

(** Decoding an encoded int64 gives it back, the negative ones included. *)
Theorem Int64_roundtrip i : in_int64 i → BytesToInt64 (Int64ToBytes i) = Ok i.
Proof.
  intros Hi. unfold BytesToInt64, Int64ToBytes. rewrite be_bytes_length. cbn [Nat.ltb Nat.leb].
  rewrite take_ge by (by rewrite be_bytes_length). rewrite be_value_bytes. f_equal.
  unfold uint64, int64, in_int64 in *. change (2 ^ (8 * Z.of_nat 8)) with (2 ^ 64).
  rewrite Z.mod_mod, Z.add_0_l by lia. rewrite Zplus_mod_idemp_l, Z.mod_small; lia.
Qed.

Lemma Int64_roundtrip_witness : BytesToInt64 (Int64ToBytes (-2)) = Ok (-2).
Proof. apply Int64_roundtrip. unfold in_int64. lia. Defined.

(** The order of the store's keys: the first differing byte decides. *)
Fixpoint lex_lt (a b : list Z) : Prop :=
  match a, b with
  | x :: a, y :: b => x < y ∨ (x = y ∧ lex_lt a b)
  | [], _ :: _ => True
  | _, [] => False
  end.

Lemma be_bytes_lt n u v : 0 ≤ u → 0 ≤ v →
  u mod 2 ^ (8 * Z.of_nat n) < v mod 2 ^ (8 * Z.of_nat n) → lex_lt (be_bytes n u) (be_bytes n v).
Proof.
  intros Hu Hv. induction n as [|n IH]; cbn [be_bytes lex_lt].
  { cbn. rewrite !Z.mod_1_r. lia. }
  replace (8 * Z.of_nat (S n)) with (8 * Z.of_nat n + 8) by lia.
  rewrite !byte_spec, Z.pow_add_r by lia. change (2 ^ 8) with 256.
  assert (0 < 2 ^ (8 * Z.of_nat n)) by (apply Z.pow_pos_nonneg; lia).
  rewrite !Z.rem_mul_r by lia. intros Hlt.
  set (M := 2 ^ (8 * Z.of_nat n)) in *.
  pose proof (Z.mod_pos_bound u M ltac:(lia)). pose proof (Z.mod_pos_bound v M ltac:(lia)).
  destruct (Z.lt_trichotomy (u / M mod 256) (v / M mod 256)) as [?|[E|?]]; [by left|right|nia].
  split; [done|]. apply IH. rewrite E in Hlt. lia.
Qed.

(** Keys made from non-negative heights sort in the store like the heights,
    which is what the store iterators of the modules rely on. *)
Theorem Int64ToBytes_ordered i j : 0 ≤ i → i < j → in_int64 j →
  lex_lt (Int64ToBytes i) (Int64ToBytes j).
Proof.
  unfold in_int64. intros Hi Hij Hj. unfold Int64ToBytes.
  rewrite !uint64_small by lia. apply be_bytes_lt; [lia..|].
  change (2 ^ (8 * Z.of_nat 8)) with (2 ^ 64). rewrite !Z.mod_small; lia.
Qed.

Lemma Int64ToBytes_ordered_witness : lex_lt (Int64ToBytes 255) (Int64ToBytes 256).
Proof. apply Int64ToBytes_ordered; unfold in_int64; lia. Defined.

#[local] Existing Instance Dec18.ops.
#[local] Existing Instance Dec18.dec_laws.

Lemma MulAndQuo_exact_witness : MulAndQuo 7 3 2 = Ok 10 ∧ MulAndQuo 7 3 0 = Panic.
Proof. split; [apply (MulAndQuo_exact 7 3 2); lia|apply (MulAndQuo_exact 7 3 0); lia]. Defined.

End Common.
