(* ===== verification/Token.v ===== *)
(** * The token module: src/x/token/{keeper,handler,genesis,memory_cache}.go and
      src/x/token/types

    Issuing, minting, burning and sending tokens, the ownership of tokens, and
    the locked coins that the order module settles against.  [TokenState] is the
    bank and supply state next to what the module keeps in its two stores: keys
    that the source prefixes with a byte are separate maps.  A nil address is the
    empty string. *)

From S2P Require Import Prelude SdkDec SdkCoins GoStd CommonErrors Common TokenErrors.

#[local] Open Scope Z_scope.

Module Token.

Definition ModuleName : string := "token".
Definition LockCoinsTypeQuantity : Z := 1.
Definition LockCoinsTypeFee : Z := 2.
Definition DescLenLimit : nat := 256.
Definition MultiSendLimit : nat := 1000.
Definition TotalSupplyUpperbound : Z := 9 * 10 ^ 10.

Record Token := MkToken {
  Description : string;
  Symbol : string;
  OriginalSymbol : string;
  WholeName : string;
  OriginalTotalSupply : Dec;
  Type_ : Z;
  Owner : AccAddress;
  Mintable : bool;
}.

(** The zero value of the struct. *)
Definition zero_token : Token := MkToken "" "" "" "" 0 0 "" false.

Definition set_Owner (x : AccAddress) (t : Token) : Token :=
  MkToken (Description t) (Symbol t) (OriginalSymbol t) (WholeName t)
    (OriginalTotalSupply t) (Type_ t) x (Mintable t).
Definition set_WholeName (x : string) (t : Token) : Token :=
  MkToken (Description t) (Symbol t) (OriginalSymbol t) x
    (OriginalTotalSupply t) (Type_ t) (Owner t) (Mintable t).
Definition set_Description (x : string) (t : Token) : Token :=
  MkToken x (Symbol t) (OriginalSymbol t) (WholeName t)
    (OriginalTotalSupply t) (Type_ t) (Owner t) (Mintable t).

Record ConfirmOwnership := MkConfirmOwnership {
  cSymbol : string; cAddress : AccAddress; cExpire : Z
}.

Record Params := MkParams {
  FeeIssue : SysCoin;
  FeeMint : SysCoin;
  FeeBurn : SysCoin;
  FeeModify : SysCoin;
  FeeChown : SysCoin;
  OwnershipConfirmWindow : Z;
}.

Record FeeDetail := MkFeeDetail {
  fdAddress : string; fdReceiver : string; fdFee : string; fdFeeType : string; fdTimestamp : Z
}.

Record Currency := MkCurrency { cuDescription : string; cuSymbol : string; cuTotalSupply : Dec }.
Record TransferUnit := MkTransferUnit { To : AccAddress; TCoins : SysCoins }.
Record AccCoins := MkAccCoins { Acc : AccAddress; ACoins : SysCoins }.
Record CoinInfo := MkCoinInfo { ciSymbol : string; Available : string; Locked : string }.

(** ** Messages *)

Record MsgTokenIssue := MkMsgTokenIssue {
  miDescription : string; miSymbol : string; miOriginalSymbol : string; miWholeName : string;
  miTotalSupply : string; miOwner : AccAddress; miMintable : bool
}.
Record MsgTokenBurn := MkMsgTokenBurn { mbAmount : SysCoin; mbOwner : AccAddress }.
Record MsgTokenMint := MkMsgTokenMint { mmAmount : SysCoin; mmOwner : AccAddress }.
Record MsgMultiSend := MkMsgMultiSend { msFrom : AccAddress; Transfers : list TransferUnit }.
Record MsgSend := MkMsgSend { FromAddress : AccAddress; ToAddress : AccAddress; sAmount : SysCoins }.
Record MsgTransferOwnership := MkMsgTransferOwnership {
  toFromAddress : AccAddress; toToAddress : AccAddress; toSymbol : string
}.
Record MsgTokenModify := MkMsgTokenModify {
  moOwner : AccAddress; moSymbol : string; moDescription : string; moWholeName : string;
  IsDescriptionModified : bool; IsWholeNameModified : bool
}.
Record MsgConfirmOwnership := MkMsgConfirmOwnership { mcSymbol : string; mcAddress : AccAddress }.

Inductive Msg :=
| MTokenIssue (m : MsgTokenIssue)
| MTokenBurn (m : MsgTokenBurn)
| MTokenMint (m : MsgTokenMint)
| MMultiSend (m : MsgMultiSend)
| MSend (m : MsgSend)
| MTransferOwnership (m : MsgTransferOwnership)
| MConfirmOwnership (m : MsgConfirmOwnership)
| MTokenModify (m : MsgTokenModify)
| MOther.

(** GetSigners of each message. *)
Definition signer (msg : Msg) : AccAddress :=
  match msg with
  | MTokenIssue m => miOwner m
  | MTokenBurn m => mbOwner m
  | MTokenMint m => mmOwner m
  | MMultiSend m => msFrom m
  | MSend m => FromAddress m
  | MTransferOwnership m => toFromAddress m
  | MConfirmOwnership m => mcAddress m
  | MTokenModify m => moOwner m
  | MOther => ""
  end.

(** ** Names

    The three regular expressions of util.go, as predicates on bytes. *)

Definition in_range (lo hi : nat) (a : Ascii.ascii) : bool :=
  let n := Ascii.nat_of_ascii a in ((lo <=? n)%nat && (n <=? hi)%nat)%bool.
Definition lower (a : Ascii.ascii) : bool := in_range 97 122 a.
Definition upper (a : Ascii.ascii) : bool := in_range 65 90 a.
Definition numeral (a : Ascii.ascii) : bool := in_range 48 57 a.
(** [[:space:]]: tab, newline, vertical tab, form feed, return, blank *)
Definition space (a : Ascii.ascii) : bool := (in_range 9 13 a || in_range 32 32 a)%bool.

Fixpoint all_chars (p : Ascii.ascii → bool) (s : string) : bool :=
  match s with EmptyString => true | String a s => (p a && all_chars p s)%bool end.

(** ^ammswap.*? *)
Definition NotAllowedOriginSymbol (name : string) : bool := String.prefix "ammswap" name.

(** ^[a-z][a-z0-9]{0,5}$ *)
Definition regOriginalSymbol (name : string) : bool :=
  match name with
  | EmptyString => false
  | String a s => (lower a && all_chars (λ c, lower c || numeral c) s
                   && (String.length s <=? 5)%nat)%bool
  end.

Definition ValidOriginalSymbol (name : string) : bool :=
  (negb (NotAllowedOriginSymbol name) && regOriginalSymbol name)%bool.

(** ^[a-zA-Z0-9[:space:]]{1,30}$ *)
Definition wholeNameValid (s : string) : bool :=
  (all_chars (λ c, lower c || upper c || numeral c || space c) s
   && (1 <=? String.length s)%nat && (String.length s <=? 30)%nat)%bool.

(** strings.ToLower on ASCII. *)
Definition to_lower (a : Ascii.ascii) : Ascii.ascii :=
  if upper a then Ascii.ascii_of_nat (Ascii.nat_of_ascii a + 32) else a.
Fixpoint ToLower (s : string) : string :=
  match s with EmptyString => "" | String a s => String (to_lower a) (ToLower s) end.

(** sdk.AccAddress.Empty *)
Definition Empty (a : AccAddress) : bool := String.eqb a "".

Section validate.
Context `{DO : Dec.Ops} `{CO : Coins.Ops}.

Definition MsgTokenIssue_ValidateBasic (msg : MsgTokenIssue) : outcome unit :=
  if Empty (miOwner msg) then Err TokenErr.ErrAddressIsRequired
  else if (String.length (miOriginalSymbol msg) =? 0)%nat
  then Err TokenErr.ErrUserInputSymbolIsEmpty
  else if negb (ValidOriginalSymbol (miOriginalSymbol msg))
  then Err TokenErr.ErrNotAllowedOriginalSymbol
  else if negb (wholeNameValid (miWholeName msg)) then Err TokenErr.ErrWholeNameIsNotValidl
  else if (DescLenLimit <? String.length (miDescription msg))%nat
  then Err TokenErr.ErrDescLenBiggerThanLimit
  else match Dec.NewDecFromStr (miTotalSupply msg) with
       | None => Err Common.plain_error
       | Some totalSupply =>
           if (Dec.GT totalSupply (Dec.NewDec TotalSupplyUpperbound)
               || Dec.LTE totalSupply Dec.ZeroDec)%bool
           then Err TokenErr.ErrTotalSupplyOutOfRange
           else Ok tt
       end.

Definition MsgTokenBurn_ValidateBasic (msg : MsgTokenBurn) : outcome unit :=
  if Empty (mbOwner msg) then Err TokenErr.ErrAddressIsRequired
  else if negb (Coins.CoinIsValid (mbAmount msg))
  then Err (CommonErr.ErrInsufficientCoins ModuleName)
  else Ok tt.

Definition MsgTokenMint_ValidateBasic (msg : MsgTokenMint) : outcome unit :=
  if Empty (mmOwner msg) then Err TokenErr.ErrAddressIsRequired
  else if Dec.GT (Amount (mmAmount msg)) (Dec.NewDec TotalSupplyUpperbound)
  then Err TokenErr.ErrAmountBiggerThanTotalSupplyUpperbound
  else if negb (Coins.CoinIsValid (mmAmount msg)) then Err TokenErr.ErrAmountIsNotValid
  else Ok tt.

Fixpoint transfers_ok (l : list TransferUnit) : outcome unit :=
  match l with
  | [] => Ok tt
  | transfer :: l =>
      if (negb (Coins.IsAllPositive (TCoins transfer))
          || negb (Coins.IsValid (TCoins transfer)))%bool
      then Err TokenErr.ErrInvalidCoins
      else if Empty (To transfer) then Err TokenErr.ErrAddressIsRequired
      else transfers_ok l
  end.

Definition MsgMultiSend_ValidateBasic (msg : MsgMultiSend) : outcome unit :=
  if Empty (msFrom msg) then Err TokenErr.ErrAddressIsRequired
  else if (MultiSendLimit <? length (Transfers msg))%nat
  then Err TokenErr.ErrMsgTransfersAmountBiggerThanSendLimit
  else transfers_ok (Transfers msg).

Definition MsgSend_ValidateBasic (msg : MsgSend) : outcome unit :=
  if Empty (FromAddress msg) then Err TokenErr.ErrAddressIsRequired
  else if Empty (ToAddress msg) then Err TokenErr.ErrAddressIsRequired
  else if negb (Coins.IsValid (sAmount msg)) then Err TokenErr.ErrInvalidCoins
  else if negb (Coins.IsAllPositive (sAmount msg))
  then Err (CommonErr.ErrInsufficientCoins ModuleName)
  else Ok tt.

Definition MsgTransferOwnership_ValidateBasic (msg : MsgTransferOwnership) : outcome unit :=
  if Empty (toFromAddress msg) then Err TokenErr.ErrAddressIsRequired
  else if Empty (toToAddress msg) then Err TokenErr.ErrAddressIsRequired
  else if (String.length (toSymbol msg) =? 0)%nat then Err TokenErr.ErrMsgSymbolIsEmpty
  else if negb (Coins.ValidDenom (toSymbol msg))
  then Err TokenErr.ErrConfirmOwnershipNotExistOrBlockTimeAfter
  else Ok tt.

Definition MsgTokenModify_ValidateBasic (msg : MsgTokenModify) : outcome unit :=
  if Empty (moOwner msg) then Err TokenErr.ErrAddressIsRequired
  else if (String.length (moSymbol msg) =? 0)%nat then Err TokenErr.ErrMsgSymbolIsEmpty
  else if negb (Coins.ValidDenom (moSymbol msg)) then Err TokenErr.ErrNotAllowedOriginalSymbol
  else if (IsWholeNameModified msg && negb (wholeNameValid (moWholeName msg)))%bool
  then Err TokenErr.ErrWholeNameIsNotValidl
  else if (IsDescriptionModified msg
           && (DescLenLimit <? String.length (moDescription msg))%nat)%bool
  then Err TokenErr.ErrDescLenBiggerThanLimit
  else Ok tt.

Definition MsgConfirmOwnership_ValidateBasic (msg : MsgConfirmOwnership) : outcome unit :=
  if Empty (mcAddress msg) then Err TokenErr.ErrAddressIsRequired
  else if (String.length (mcSymbol msg) =? 0)%nat then Err TokenErr.ErrMsgSymbolIsEmpty
  else if negb (Coins.ValidDenom (mcSymbol msg)) then Err TokenErr.ErrNotAllowedOriginalSymbol
  else Ok tt.
End validate.

(** ** State *)

(** What the module takes from elsewhere: the fork height, the code hash of an
    account when it is an EthAccount, keccak256 of nothing, the transaction hash
    in hexadecimal, and the configuration of the keeper. *)
Class Env `{BO : Bank.Ops} := {
  HigherThanMercury : Z → bool;
  EthCodeHash : Bank.state → AccAddress → option string;
  Keccak256_nil : string;
  tmhash_hex : string → string;
  feeCollectorName : string;
  enableBackend : bool;
}.

Record TokenState `{BO : Bank.Ops} := MkTokenState {
  bank : Bank.state;
  tokens : gmap string Token;
  userTokens : gset string;
  tokenNum : Z;
  confirms : gmap string ConfirmOwnership;
  lockedCoins : gmap AccAddress SysCoins;
  lockedFees : gmap AccAddress SysCoins;
  params : Params;
  feeDetails : list FeeDetail;
}.

Section keeper.
Context `{DO : Dec.Ops} `{CO : Coins.Ops} `{BO : Bank.Ops} `{E : !Env}.

Abbreviation MT := (M TokenState) (only parsing).

Definition set_bank (x : Bank.state) (s : TokenState) : TokenState :=
  MkTokenState _ x (tokens s) (userTokens s) (tokenNum s) (confirms s)
    (lockedCoins s) (lockedFees s) (params s) (feeDetails s).
Definition set_tokens (x : gmap string Token) (s : TokenState) : TokenState :=
  MkTokenState _ (bank s) x (userTokens s) (tokenNum s) (confirms s)
    (lockedCoins s) (lockedFees s) (params s) (feeDetails s).
Definition set_userTokens (x : gset string) (s : TokenState) : TokenState :=
  MkTokenState _ (bank s) (tokens s) x (tokenNum s) (confirms s)
    (lockedCoins s) (lockedFees s) (params s) (feeDetails s).
Definition set_tokenNum (x : Z) (s : TokenState) : TokenState :=
  MkTokenState _ (bank s) (tokens s) (userTokens s) x (confirms s)
    (lockedCoins s) (lockedFees s) (params s) (feeDetails s).
Definition set_confirms (x : gmap string ConfirmOwnership) (s : TokenState) : TokenState :=
  MkTokenState _ (bank s) (tokens s) (userTokens s) (tokenNum s) x
    (lockedCoins s) (lockedFees s) (params s) (feeDetails s).
Definition set_lockedCoins (x : gmap AccAddress SysCoins) (s : TokenState) : TokenState :=
  MkTokenState _ (bank s) (tokens s) (userTokens s) (tokenNum s) (confirms s)
    x (lockedFees s) (params s) (feeDetails s).
Definition set_lockedFees (x : gmap AccAddress SysCoins) (s : TokenState) : TokenState :=
  MkTokenState _ (bank s) (tokens s) (userTokens s) (tokenNum s) (confirms s)
    (lockedCoins s) x (params s) (feeDetails s).
Definition set_params (x : Params) (s : TokenState) : TokenState :=
  MkTokenState _ (bank s) (tokens s) (userTokens s) (tokenNum s) (confirms s)
    (lockedCoins s) (lockedFees s) x (feeDetails s).
Definition set_feeDetails (x : list FeeDetail) (s : TokenState) : TokenState :=
  MkTokenState _ (bank s) (tokens s) (userTokens s) (tokenNum s) (confirms s)
    (lockedCoins s) (lockedFees s) (params s) x.

(** A call of the bank or supply keeper. *)
Definition on_bank {A} (m : M Bank.state A) : MT A := zoom bank set_bank m.

(** ** The keeper *)

Definition ResetCache : MT unit := modify (set_feeDetails []).

Definition GetTokenInfo (symbol : string) (s : TokenState) : Token :=
  default zero_token (tokens s !! symbol).

Definition GetTokenTotalSupply (symbol : string) (s : TokenState) : Dec :=
  Bank.GetSupplyByDenom (bank s) symbol.

Definition TokenExist (symbol : string) (s : TokenState) : bool :=
  bool_decide (is_Some (tokens s !! symbol)).

Definition GetTokensInfo (s : TokenState) : list Token := snd <$> kv_sorted (tokens s).

(** GetUserTokenKey without its prefix byte. *)
Definition GetUserTokenKey (owner : AccAddress) (symbol : string) : string := owner +:+ symbol.

Definition GetUserTokensInfo (owner : AccAddress) (s : TokenState) : list Token :=
  let keys := merge_sort String.le (filter (λ k, String.prefix owner k = true) (elements (userTokens s))) in
  (λ k, GetTokenInfo (String.substring (String.length owner)
                        (String.length k - String.length owner) k) s) <$> keys.

Definition GetCurrenciesInfo (s : TokenState) : list Currency :=
  (λ token, MkCurrency (Description token) (Symbol token)
              (Bank.GetSupplyByDenom (bank s) (Symbol token))) <$> GetTokensInfo s.

Definition DeleteUserToken (owner : AccAddress) (symbol : string) : MT unit :=
  modify (λ s, set_userTokens (userTokens s ∖ {[GetUserTokenKey owner symbol]}) s).

Definition getTokenNum (s : TokenState) : Z := tokenNum s.

Definition NewToken (token : Token) : MT unit :=
  modify (λ s, set_tokens (<[Symbol token := token]> (tokens s)) s);;
  modify (λ s, set_userTokens (userTokens s ∪ {[GetUserTokenKey (Owner token) (Symbol token)]}) s);;
  modify (λ s, set_tokenNum (uint64 (getTokenNum s + 1)) s).

Definition UpdateToken (token : Token) : MT unit :=
  modify (λ s, set_tokens (<[Symbol token := token]> (tokens s)) s).

Definition IsContractAddress (addr : AccAddress) (s : TokenState) : bool :=
  match EthCodeHash (bank s) addr with
  | Some codeHash => negb (String.eqb codeHash Keccak256_nil)
  | None => false
  end.

Definition SendCoinsFromAccountToAccount (ctx : Context) (from to : AccAddress) (amt : SysCoins)
    : MT unit :=
  if Bank.BlacklistedAddr to then throw TokenErr.ErrBlockedRecipient
  else
    contract ← gets (IsContractAddress to);
    if (HigherThanMercury (BlockHeight ctx) && contract)%bool
    then throw TokenErr.ErrBlockedContractRecipient
    else on_bank (Bank.SendCoins from to amt).

(** store.Set, or store.Delete for an empty slice. *)
Definition put_coins (addr : AccAddress) (newCoins : SysCoins) (m : gmap AccAddress SysCoins)
    : gmap AccAddress SysCoins :=
  match newCoins with [] => delete addr m | _ => <[addr := newCoins]> m end.

(** The new value of the key, from the old one. *)
Definition locked_update (coins : SysCoins) (doAdd : bool) (old : option SysCoins)
    : outcome SysCoins :=
  newCoins ←
    (if doAdd then
       match old with
       | None => Ok coins
       | Some oldCoins => Ok (Coins.Add2 oldCoins coins)
       end
     else
       match old with
       | None => Err TokenErr.ErrFailedToUnlockAddress
       | Some oldCoins =>
           let '(newCoins, isNegative) := Coins.SafeSub oldCoins coins in
           if (isNegative : bool) then Err TokenErr.ErrFailedToUnlockAddress else Ok newCoins
       end);
  Ok (Coins.Sort newCoins).

Definition updateLockedCoins (addr : AccAddress) (coins : SysCoins) (doAdd : bool)
    (lockCoinsType : Z) : MT unit :=
  if (lockCoinsType =? LockCoinsTypeQuantity)%Z then
    old ← gets (λ s, lockedCoins s !! addr);
    newCoins ← lift (locked_update coins doAdd old);
    modify (λ s, set_lockedCoins (put_coins addr newCoins (lockedCoins s)) s)
  else if (lockCoinsType =? LockCoinsTypeFee)%Z then
    old ← gets (λ s, lockedFees s !! addr);
    newCoins ← lift (locked_update coins doAdd old);
    modify (λ s, set_lockedFees (put_coins addr newCoins (lockedFees s)) s)
  else throw TokenErr.ErrUnrecognizedLockCoinsType.

Definition LockCoins (addr : AccAddress) (coins : SysCoins) (lockCoinsType : Z) : MT unit :=
  wrap_err (λ _, TokenErr.ErrSendCoinsFromAccountToModuleFailed)
    (on_bank (Bank.SendCoinsFromAccountToModule addr ModuleName coins));;
  updateLockedCoins addr coins true lockCoinsType.

Definition UnlockCoins (addr : AccAddress) (coins : SysCoins) (lockCoinsType : Z) : MT unit :=
  updateLockedCoins addr coins false lockCoinsType;;
  wrap_err (λ _, TokenErr.ErrSendCoinsFromModuleToAccountFailed)
    (on_bank (Bank.SendCoinsFromModuleToAccount ModuleName addr coins)).

Definition GetLockedCoins (addr : AccAddress) (s : TokenState) : SysCoins :=
  default [] (lockedCoins s !! addr).

Definition GetAllLockedCoins (s : TokenState) : list AccCoins :=
  (λ kv, MkAccCoins (fst kv) (snd kv)) <$> kv_sorted (lockedCoins s).

Fixpoint iterate {A} (cb : AccAddress → SysCoins → A → A * bool)
    (l : list (AccAddress * SysCoins)) (acc : A) : A :=
  match l with
  | [] => acc
  | (addr, coins) :: l =>
      let '(acc, stop) := cb addr coins acc in
      if (stop : bool) then acc else iterate cb l acc
  end.

(** The callback threads the state of its closure. *)
Definition IterateLockedFees {A} (cb : AccAddress → SysCoins → A → A * bool) (s : TokenState)
    (acc : A) : A := iterate cb (kv_sorted (lockedFees s)) acc.

Definition BalanceAccount (addr : AccAddress) (outputCoins inputCoins : SysCoins) : MT unit :=
  (if negb (Coins.IsZero outputCoins) then
     wrap_err (λ _, TokenErr.ErrUpdateLockedCoins)
       (updateLockedCoins addr outputCoins false LockCoinsTypeQuantity)
   else mret tt);;
  (if negb (Coins.IsZero inputCoins)
   then on_bank (Bank.SendCoinsFromModuleToAccount ModuleName addr inputCoins)
   else mret tt).

Definition GetCoins (addr : AccAddress) (s : TokenState) : SysCoins := Bank.GetCoins (bank s) addr.

Definition MergeCoinInfo (availableCoins lockedCoins : SysCoins) : list CoinInfo :=
  let m := foldl (λ (m : gmap string CoinInfo) c,
      match m !! Denom c with
      | Some _ => m
      | None => <[Denom c := MkCoinInfo (Denom c) (Dec.ToString (Amount c)) "0"]> m
      end) ∅ availableCoins in
  let m := foldl (λ (m : gmap string CoinInfo) c,
      match m !! Denom c with
      | Some coinInfo =>
          <[Denom c := MkCoinInfo (ciSymbol coinInfo) (Available coinInfo) (Dec.ToString (Amount c))]> m
      | None => <[Denom c := MkCoinInfo (Denom c) "0" (Dec.ToString (Amount c))]> m
      end) m lockedCoins in
  snd <$> kv_sorted m.

Definition GetCoinsInfo (addr : AccAddress) (s : TokenState) : list CoinInfo :=
  MergeCoinInfo (GetCoins addr s) (GetLockedCoins addr s).

Definition AddFeeDetail (ctx : Context) (from : string) (fee : SysCoins) (feeType receiver : string)
    : MT unit :=
  if enableBackend then
    modify (λ s, set_feeDetails
      (feeDetails s ++ [MkFeeDetail from receiver (Coins.ToString fee) feeType (Unix ctx)]) s)
  else mret tt.

(** The loop of addTokenSuffix for the chunks i-1, ..., 0. *)
Fixpoint suffix_loop (hash originalSymbol : string) (s : TokenState) (i : nat) : string * bool :=
  match i with
  | O => ("", false)
  | S i =>
      let name := originalSymbol +:+ "-" +:+ ToLower (String.substring (3 * i) 3 hash) in
      if negb (Coins.ValidDenom name) then ("", false)
      else if negb (TokenExist name s) then (name, true)
      else suffix_loop hash originalSymbol s i
  end.

Definition addTokenSuffix (ctx : Context) (originalSymbol : string) (s : TokenState) : string * bool :=
  let hash := tmhash_hex (TxBytes ctx) in
  suffix_loop hash originalSymbol s (String.length hash / 3).

Definition GetConfirmOwnership (symbol : string) (s : TokenState) : option ConfirmOwnership :=
  confirms s !! symbol.

Definition SetConfirmOwnership (c : ConfirmOwnership) : MT unit :=
  modify (λ s, set_confirms (<[cSymbol c := c]> (confirms s)) s).

Definition DeleteConfirmOwnership (symbol : string) : MT unit :=
  modify (λ s, set_confirms (delete symbol (confirms s)) s).

(** ** Handlers *)

(** keeper.supplyKeeper.SendCoinsFromAccountToModule(ctx, payer, feeCollectorName, fee.ToCoins()) *)
Definition pay_fee (payer : AccAddress) (fee : SysCoin) : MT unit :=
  wrap_err (λ _, TokenErr.ErrSendCoinsFromAccountToModuleFailed)
    (on_bank (Bank.SendCoinsFromAccountToModule payer feeCollectorName (Coins.ToCoins fee))).

Definition handleMsgTokenIssue (ctx : Context) (msg : MsgTokenIssue) : MT unit :=
  match Dec.NewDecFromStr (miTotalSupply msg) with
  | None => throw TokenErr.ErrGetDecimalFromDecimalStringFailed
  | Some totalSupply =>
      throw_if (Dec.GT totalSupply (Dec.NewDec TotalSupplyUpperbound))
        TokenErr.ErrAmountBiggerThanTotalSupplyUpperbound;;
      r ← gets (addTokenSuffix ctx (miOriginalSymbol msg));
      let '(newName, valid) := (r : string * bool) in
      throw_if (negb valid) TokenErr.ErrInvalidCoins;;
      let token := MkToken (miDescription msg) newName (miOriginalSymbol msg) (miWholeName msg)
                     totalSupply 0 (miOwner msg) (miMintable msg) in
      coins ← lift (or_panic (Coins.MustParseCoins (Symbol token) (miTotalSupply msg)));
      wrap_err (λ _, TokenErr.ErrMintCoinsFailed) (on_bank (Bank.MintCoins ModuleName coins));;
      wrap_err (λ _, TokenErr.ErrSendCoinsFromModuleToAccountFailed)
        (on_bank (Bank.SendCoinsFromModuleToAccount ModuleName (Owner token) coins));;
      NewToken token;;
      p ← gets params;
      pay_fee (Owner token) (FeeIssue p)
  end.

Definition handleMsgTokenBurn (msg : MsgTokenBurn) : MT unit :=
  token ← gets (GetTokenInfo (Denom (mbAmount msg)));
  throw_if (negb (String.eqb (Owner token) (mbOwner msg)))
    TokenErr.ErrInputOwnerIsNotEqualTokenOwner;;
  let subCoins := Coins.ToCoins (mbAmount msg) in
  wrap_err (λ _, TokenErr.ErrSendCoinsFromAccountToModuleFailed)
    (on_bank (Bank.SendCoinsFromAccountToModule (mbOwner msg) ModuleName subCoins));;
  wrap_err (λ _, TokenErr.ErrBurnCoinsFailed) (on_bank (Bank.BurnCoins ModuleName subCoins));;
  p ← gets params;
  pay_fee (mbOwner msg) (FeeBurn p).

Definition handleMsgTokenMint (msg : MsgTokenMint) : MT unit :=
  token ← gets (GetTokenInfo (Denom (mmAmount msg)));
  throw_if (negb (String.eqb (Owner token) (mmOwner msg)))
    TokenErr.ErrInputOwnerIsNotEqualTokenOwner;;
  throw_if (negb (Mintable token)) TokenErr.ErrTokenIsNotMintable;;
  supply ← gets (λ s, Bank.GetSupplyByDenom (bank s) (Denom (mmAmount msg)));
  let totalSupplyAfterMint := Dec.Add supply (Amount (mmAmount msg)) in
  throw_if (Dec.GT totalSupplyAfterMint (Dec.NewDec TotalSupplyUpperbound))
    TokenErr.ErrCodeTotalsupplyExceedsTheUpperLimit;;
  let mintCoins := Coins.ToCoins (mmAmount msg) in
  wrap_err (λ _, TokenErr.ErrMintCoinsFailed) (on_bank (Bank.MintCoins ModuleName mintCoins));;
  wrap_err (λ _, TokenErr.ErrSendCoinsFromModuleToAccountFailed)
    (on_bank (Bank.SendCoinsFromModuleToAccount ModuleName (mmOwner msg) mintCoins));;
  p ← gets params;
  pay_fee (mmOwner msg) (FeeMint p).

Definition handleMsgMultiSend (ctx : Context) (msg : MsgMultiSend) : MT unit :=
  enabled ← gets (λ s, Bank.GetSendEnabled (bank s));
  throw_if (negb enabled) TokenErr.ErrSendDisabled;;
  mapM_ (λ transferUnit,
    wrap_err (λ _, TokenErr.ErrSendCoinsFromAccountToAccountFailed)
      (SendCoinsFromAccountToAccount ctx (msFrom msg) (To transferUnit) (TCoins transferUnit)))
    (Transfers msg).

Definition handleMsgSend (ctx : Context) (msg : MsgSend) : MT unit :=
  enabled ← gets (λ s, Bank.GetSendEnabled (bank s));
  throw_if (negb enabled) TokenErr.ErrSendDisabled;;
  wrap_err (λ _, TokenErr.ErrSendCoinsFromAccountToAccountFailed)
    (SendCoinsFromAccountToAccount ctx (FromAddress msg) (ToAddress msg) (sAmount msg)).

Definition handleMsgTransferOwnership (ctx : Context) (msg : MsgTransferOwnership) : MT unit :=
  tokenInfo ← gets (GetTokenInfo (toSymbol msg));
  throw_if (negb (String.eqb (Owner tokenInfo) (toFromAddress msg)))
    TokenErr.ErrCodeinputFromAddressIsNotEqualTokenInfoOwner;;
  confirmOwnership ← gets (GetConfirmOwnership (toSymbol msg));
  throw_if (match confirmOwnership with
            | Some c => negb (cExpire c <? BlockTime ctx)%Z
            | None => false
            end) TokenErr.ErrConfirmOwnershipNotExistOrBlockTimeAfter;;
  p ← gets params;
  (if String.eqb (toToAddress msg) Common.BlackHoleAddress then
     DeleteUserToken (Owner tokenInfo) (Symbol tokenInfo);;
     NewToken (set_Owner (toToAddress msg) tokenInfo)
   else
     SetConfirmOwnership (MkConfirmOwnership (toSymbol msg) (toToAddress msg)
       (BlockTime ctx + OwnershipConfirmWindow p)));;
  pay_fee (toFromAddress msg) (FeeChown p).

Definition handleMsgConfirmOwnership (ctx : Context) (msg : MsgConfirmOwnership) : MT unit :=
  confirmOwnership ← gets (GetConfirmOwnership (mcSymbol msg));
  match confirmOwnership with
  | None => throw TokenErr.ErrGetConfirmOwnership
  | Some c =>
      if (cExpire c <? BlockTime ctx)%Z then
        DeleteConfirmOwnership (cSymbol c);;
        throw TokenErr.ErrConfirmOwnershipNotExistOrBlockTimeAfter
      else if negb (String.eqb (cAddress c) (mcAddress msg)) then
        throw TokenErr.ErrCodeConfirmOwnershipAddressNotEqualsMsgAddress
      else
        tokenInfo ← gets (GetTokenInfo (mcSymbol msg));
        DeleteUserToken (Owner tokenInfo) (Symbol tokenInfo);;
        NewToken (set_Owner (mcAddress msg) tokenInfo);;
        DeleteConfirmOwnership (cSymbol c)
  end.

Definition handleMsgTokenModify (msg : MsgTokenModify) : MT unit :=
  token ← gets (GetTokenInfo (moSymbol msg));
  throw_if (negb (String.eqb (Owner token) (moOwner msg)))
    TokenErr.ErrInputOwnerIsNotEqualTokenOwner;;
  throw_if (negb (IsWholeNameModified msg) && negb (IsDescriptionModified msg))
    TokenErr.ErrWholeNameAndDescriptionIsNotModified;;
  let token := if IsWholeNameModified msg then set_WholeName (moWholeName msg) token else token in
  let token := if IsDescriptionModified msg then set_Description (moDescription msg) token else token in
  UpdateToken token;;
  p ← gets params;
  pay_fee (moOwner msg) (FeeModify p).

Definition NewTokenHandler (ctx : Context) (msg : Msg) : MT unit :=
  match msg with
  | MTokenIssue m => handleMsgTokenIssue ctx m
  | MTokenBurn m => handleMsgTokenBurn m
  | MTokenMint m => handleMsgTokenMint m
  | MMultiSend m => handleMsgMultiSend ctx m
  | MSend m => handleMsgSend ctx m
  | MTransferOwnership m => handleMsgTransferOwnership ctx m
  | MConfirmOwnership m => handleMsgConfirmOwnership ctx m
  | MTokenModify m => handleMsgTokenModify m
  | MOther => throw Coins.ErrUnknownRequest
  end.

Definition beginBlocker : MT unit := ResetCache.

(** ** Genesis *)

Record GenesisState := MkGenesisState {
  gParams : Params; gTokens : list Token; LockedAssets : list AccCoins; LockedFees : list AccCoins
}.

Fixpoint validateGenesis (ts : list Token) : outcome unit :=
  match ts with
  | [] => Ok tt
  | token :: ts =>
      match MsgTokenIssue_ValidateBasic
              (MkMsgTokenIssue (Description token) (Symbol token) (OriginalSymbol token)
                 (WholeName token) (Dec.ToString (OriginalTotalSupply token)) (Owner token)
                 (Mintable token)) with
      | Ok _ => validateGenesis ts
      | Err _ => Err Common.plain_error
      | Panic => Panic
      end
  end.

(** [if err := ...; err != nil { panic(err) }] *)
Definition or_die (m : MT unit) : MT unit := λ s,
  match m s with (Err _, s') => (Panic, s') | r => r end.

Definition initGenesis (data : GenesisState) : MT unit :=
  modify (set_params (gParams data));;
  mapM_ NewToken (gTokens data);;
  mapM_ (λ lock, or_die (updateLockedCoins (Acc lock) (ACoins lock) true LockCoinsTypeQuantity))
    (LockedAssets data);;
  mapM_ (λ lock, or_die (updateLockedCoins (Acc lock) (ACoins lock) true LockCoinsTypeFee))
    (LockedFees data).

Definition ExportGenesis (s : TokenState) : GenesisState :=
  let fees := IterateLockedFees (λ acc coins l, (l ++ [MkAccCoins acc coins], false)) s [] in
  MkGenesisState (params s) (GetTokensInfo s) (GetAllLockedCoins s) fees.
End keeper.
End Token.
