(* ===== verification/TokenSpec.v ===== *)
(** * Theorems on the token module

    Locked coins are backed by the module account; supply follows minting and
    burning; only an owner, or the address an owner nominated, gains authority
    over a token. *)

From S2P Require Import Prelude SdkDec SdkCoins GoStd CommonErrors Common TokenErrors Token.

#[local] Open Scope Z_scope.

Module TokenSpec.
Import Token.

(** A set of coins as the SDK keeps it. *)
Definition good (c : SysCoins) : Prop := sorted_coins c ∧ ∀ d, 0 ≤ amt d c.

Lemma good_nil : good [].
Proof. split; [constructor|]. intros. by rewrite amt_nil. Qed.

Lemma sorted_NoDup c : sorted_coins c → NoDup (Denom <$> c).
Proof.
  induction 1 as [|x c Hs IH Hx]; [constructor|]. rewrite fmap_cons. constructor; [|done].
  intros (y & Ey & Hy)%list_elem_of_fmap. rewrite Forall_forall in Hx.
  specialize (Hx y Hy). rewrite Ey in Hx. by apply str_ltb_spec in Hx as [_ []].
Qed.

Section locked.
Context `{DO : Dec.Ops} `{CO : !Coins.Ops} `{CL : !Coins.Laws}.

Lemma Sort_good c : good c → good (Coins.Sort c).
Proof.
  intros [Hs Hn]. split; [by apply Coins.Sort_sorted, sorted_NoDup|].
  intros d. by rewrite (amt_perm d _ _ (Coins.Sort_perm c)).
Qed.

Lemma Sort_amt c d : amt d (Coins.Sort c) = amt d c.
Proof. apply amt_perm, Coins.Sort_perm. Qed.

Definition locks_ok (m : gmap AccAddress SysCoins) : Prop := map_Forall (λ _ c, good c) m.

Lemma locks_ok_lookup m a : locks_ok m → good (default [] (m !! a)).
Proof. intros Hm. destruct (m !! a) eqn:E; [by apply (Hm a)|apply good_nil]. Qed.

(** What the new value of a lock entry is. *)
Lemma locked_update_ok coins doAdd old c :
  good coins → good (default [] old) → locked_update coins doAdd old = Ok c →
  good c ∧ (∀ d, amt d c = amt d (default [] old) + (if doAdd then amt d coins else - amt d coins)).
Proof.
  intros [Hs Hn] Hold. unfold locked_update. intros H. minv.
  assert (good x ∧ ∀ d, amt d x = amt d (default [] old) +
    (if doAdd then amt d coins else - amt d coins)) as [Hx Hamt].
  { destruct doAdd, old as [o|]; cbn in *; minv.
    - destruct Hold as [Hos Hon]. split; [split; [by apply Coins.Add2_sorted|]|].
      all: intros d; specialize (Hn d); specialize (Hon d); rewrite Coins.Add2_amt by done; lia.
    - split; [done|]. intros d. rewrite amt_nil. lia.
    - destruct Hold as [Hos Hon].
      pose proof (Coins.SafeSub_sorted o coins Hos Hs) as H1.
      pose proof (λ d, Coins.SafeSub_amt o coins d Hos Hs) as H2.
      pose proof (Coins.SafeSub_neg o coins Hos Hs) as H3.
      destruct (Coins.SafeSub o coins) as [y [|]]; minv. cbn in *.
      assert (∀ d, amt d coins ≤ amt d o) as Hle by (by apply H3).
      split; [split; [done|]|]; intros d; rewrite H2; specialize (Hle d); lia. }
  split; [by apply Sort_good|]. intros d. by rewrite Sort_amt.
Qed.

(** The reverse direction: removal succeeds when there is enough. *)
Lemma locked_update_total coins old :
  good coins → good old → (∀ d, amt d coins ≤ amt d old) →
  ∃ c, locked_update coins false (Some old) = Ok c.
Proof.
  intros [Hs Hn] [Hos Hon] Hle. unfold locked_update.
  pose proof (Coins.SafeSub_neg old coins Hos Hs) as H3.
  destruct (Coins.SafeSub old coins) as [y b]. cbn in *.
  apply H3 in Hle as ->. by eexists.
Qed.

Lemma put_coins_lookup a c m a' d :
  amt d (default [] (put_coins a c m !! a')) =
  if decide (a' = a) then amt d c else amt d (default [] (m !! a')).
Proof.
  unfold put_coins. destruct c as [|x c].
  - case_decide; subst; [by rewrite lookup_delete_eq|by rewrite lookup_delete_ne].
  - case_decide; subst; [by rewrite lookup_insert_eq|by rewrite lookup_insert_ne].
Qed.

Lemma put_coins_ok a c m : locks_ok m → good c → locks_ok (put_coins a c m).
Proof.
  intros Hm Hc. unfold put_coins. destruct c; [by apply map_Forall_delete|].
  by apply map_Forall_insert_2.
Qed.

(** The sum of a denomination over all entries. *)
Definition locked_sum (d : string) (m : gmap AccAddress SysCoins) : Z := msum (amt d) m.

Lemma put_coins_sum a c m d :
  locked_sum d (put_coins a c m) = locked_sum d m - amt d (default [] (m !! a)) + amt d c.
Proof.
  unfold locked_sum, put_coins. destruct c as [|x c].
  - rewrite msum_delete, amt_nil. destruct (m !! a); cbn; rewrite ?amt_nil; lia.
  - rewrite msum_insert. destruct (m !! a); cbn; rewrite ?amt_nil; lia.
Qed.

Lemma locked_sum_ge a m d : locks_ok m → amt d (default [] (m !! a)) ≤ locked_sum d m.
Proof.
  intros Hm. destruct (m !! a) as [c|] eqn:E; cbn.
  - apply (msum_le (amt d) m a c); [|done]. intros k x Hx. by destruct (Hm k x Hx).
  - rewrite amt_nil. apply msum_nonneg. intros k x Hx. by destruct (Hm k x Hx).
Qed.
End locked.

Section spec.
Context `{DO : Dec.Ops} `{DL : !Dec.Laws} `{CO : !Coins.Ops} `{CL : !Coins.Laws}
  `{BO : !Bank.Ops} `{BL : !Bank.Laws} `{E : !Env}.

Definition bal (s : TokenState) (a : AccAddress) (d : string) : Z := Bank.balance (bank s) a d.
Definition moduleAcc : AccAddress := Bank.GetModuleAddress ModuleName.

(** The lock entries of one kind. *)
Definition locks (ty : Z) (s : TokenState) : gmap AccAddress SysCoins :=
  if (ty =? LockCoinsTypeQuantity)%Z then lockedCoins s else lockedFees s.
Definition locked (ty : Z) (s : TokenState) (a : AccAddress) (d : string) : Z :=
  amt d (default [] (locks ty s !! a)).

(** Everything locked, and what the module account holds beyond it. *)
Definition locked_total (s : TokenState) (d : string) : Z :=
  locked_sum d (lockedCoins s) + locked_sum d (lockedFees s).
Definition slack (s : TokenState) (d : string) : Z := bal s moduleAcc d - locked_total s d.

Definition lock_type (ty : Z) : Prop := ty = LockCoinsTypeQuantity ∨ ty = LockCoinsTypeFee.

Definition locks_wf (s : TokenState) : Prop := locks_ok (lockedCoins s) ∧ locks_ok (lockedFees s).

(** The part of the state the lock operations do not touch. *)
Definition same_tokens (s s' : TokenState) : Prop :=
  tokens s' = tokens s ∧ userTokens s' = userTokens s ∧ tokenNum s' = tokenNum s ∧
  confirms s' = confirms s ∧ params s' = params s ∧ feeDetails s' = feeDetails s.

Lemma updateLockedCoins_ok addr coins doAdd ty s s' :
  good coins → locks_wf s → updateLockedCoins addr coins doAdd ty s = (Ok tt, s') →
  lock_type ty ∧ bank s' = bank s ∧ same_tokens s s' ∧ locks_wf s' ∧
  (∀ ty' a d, lock_type ty' → locked ty' s' a d = locked ty' s a d +
    (if decide (ty' = ty ∧ a = addr) then if doAdd then amt d coins else - amt d coins else 0)) ∧
  (∀ d, locked_total s' d = locked_total s d + if doAdd then amt d coins else - amt d coins).
Proof.
  intros Hc [HwA HwB] H. unfold updateLockedCoins in H.
  destruct (Z.eqb_spec ty LockCoinsTypeQuantity) as [->|H1];
    [|destruct (Z.eqb_spec ty LockCoinsTypeFee) as [->|H2]; [|by minv]].
  all: minv; match goal with Hu : locked_update _ _ _ = Ok _ |- _ =>
    eapply locked_update_ok in Hu as [Hx Hamt]; [|done|by apply locks_ok_lookup] end.
  all: split; [by (left + right)|]; split; [done|]; split; [by repeat split|].
  all: split; [split; cbn; [|]; (done || by apply put_coins_ok)|]; split.
  all: cbn; unfold locked_total, locked, locks; cbn.
  all: try (intros d; rewrite put_coins_sum, Hamt; lia).
  all: intros ty' a d [->| ->]; cbn; rewrite ?put_coins_lookup, ?Hamt;
    repeat case_decide; destruct_and?; subst; (lia || naive_solver).
Qed.

Lemma updateLockedCoins_unlock_total addr coins ty s :
  lock_type ty → good coins → locks_wf s → (∃ d, 0 < amt d coins) →
  (∀ d, amt d coins ≤ locked ty s addr d) →
  ∃ s', updateLockedCoins addr coins false ty s = (Ok tt, s').
Proof.
  intros Hty Hc [HwA HwB] [d0 Hd0] Hle.
  assert (∃ old, locks ty s !! addr = Some old ∧ good old ∧ ∀ d, amt d coins ≤ amt d old)
    as (old & Eo & Ho & Hle').
  { unfold locked in Hle. destruct (locks ty s !! addr) as [o|] eqn:Eo.
    - exists o. split; [done|]. split; [|done]. unfold locks in Eo.
      destruct (ty =? _)%Z; [by apply (HwA addr)|by apply (HwB addr)].
    - specialize (Hle d0). cbn in Hle. rewrite amt_nil in Hle. lia. }
  destruct (locked_update_total coins old Hc Ho Hle') as [c Hcu].
  unfold updateLockedCoins, locks in *.
  destruct Hty as [->| ->]; unfold LockCoinsTypeQuantity, LockCoinsTypeFee in *; cbn [Z.eqb Pos.eqb] in *; unfold mbind, M_bind, gets, lift, modify;
    rewrite Eo, Hcu; by eexists.
Qed.

(** The bank part of a transfer between an account and the module account. *)
Lemma moved_bal b b' from to c a d : Bank.moved b b' from to c →
  Bank.balance b' a d = Bank.balance b a d - (if decide (a = from) then amt d c else 0)
    + (if decide (a = to) then amt d c else 0).
Proof. intros [H _]. apply H. Qed.

Lemma LockCoins_spec addr coins ty s s' :
  addr ≠ moduleAcc → good coins → locks_wf s → LockCoins addr coins ty s = (Ok tt, s') →
  lock_type ty ∧ same_tokens s s' ∧ locks_wf s' ∧
  Bank.moved (bank s) (bank s') addr moduleAcc coins ∧
  (∀ d, amt d coins ≤ bal s addr d) ∧
  (∀ ty' a d, lock_type ty' → locked ty' s' a d = locked ty' s a d +
    (if decide (ty' = ty ∧ a = addr) then amt d coins else 0)) ∧
  (∀ d, slack s' d = slack s d).
Proof.
  intros Ha Hc Hw H. unfold LockCoins, on_bank in H. minv.
  match goal with Hs : Bank.SendCoinsFromAccountToModule _ _ _ _ = _ |- _ =>
    rewrite Bank.AccountToModule_spec in Hs; apply Bank.SendCoins_ok in Hs as [Hm Hle] end.
  match goal with Hu : updateLockedCoins _ _ _ _ _ = _ |- _ =>
    apply updateLockedCoins_ok in Hu as (Hty & Hb & Hst & Hw' & Hl & Htot); [|done..] end.
  cbn in Hb. split; [done|]. split; [done|]. split; [done|]. rewrite Hb. split; [done|].
  split; [intros; by apply Hle|]. split; [done|].
  intros d. unfold slack, bal. rewrite Hb, Htot, (moved_bal _ _ _ _ _ _ _ Hm).
  rewrite decide_False, decide_True by done. unfold locked_total. cbn. lia.
Qed.

Lemma UnlockCoins_spec addr coins ty s s' :
  addr ≠ moduleAcc → good coins → locks_wf s → UnlockCoins addr coins ty s = (Ok tt, s') →
  lock_type ty ∧ same_tokens s s' ∧ locks_wf s' ∧
  Bank.moved (bank s) (bank s') moduleAcc addr coins ∧
  (∀ ty' a d, lock_type ty' → locked ty' s' a d = locked ty' s a d -
    (if decide (ty' = ty ∧ a = addr) then amt d coins else 0)) ∧
  (∀ d, slack s' d = slack s d).
Proof.
  intros Ha Hc Hw H. unfold UnlockCoins, on_bank in H.
  apply bind_ok in H as ([] & s1 & H & Hs%wrap_err_ok).
  apply zoom_ok in Hs as (b1 & Hs & ->).
  apply updateLockedCoins_ok in H as (Hty & Hb & Hst & Hw' & Hl & Htot); [|done..].
  rewrite Bank.ModuleToAccount_spec in Hs. apply Bank.SendCoins_ok in Hs as [Hm Hle].
  rewrite Hb in Hm. split; [done|]. split; [done|]. split; [done|]. split; [done|]. split.
  - intros ty' a d Hty'. change (locked ty' (set_bank b1 s1) a d) with (locked ty' s1 a d).
    rewrite Hl by done. case_decide; lia.
  - intros d. unfold slack, bal. cbn [bank set_bank].
    change (locked_total (set_bank b1 s1) d) with (locked_total s1 d).
    rewrite Htot, (moved_bal _ _ _ _ _ _ _ Hm), decide_True, decide_False by done. lia.
Qed.

Lemma UnlockCoins_progress addr coins ty s :
  lock_type ty → Coins.IsValid coins = true → good coins → coins ≠ [] → locks_wf s →
  (∀ d, 0 ≤ slack s d) → (∀ d, amt d coins ≤ locked ty s addr d) →
  ∃ s', UnlockCoins addr coins ty s = (Ok tt, s').
Proof.
  intros Hty Hv Hc Hne Hw Hsl Hle.
  destruct (updateLockedCoins_unlock_total addr coins ty s) as [s1 H1]; [done..| |done|].
  { destruct coins as [|x l]; [done|]. apply Coins.IsValid_spec in Hv as [_ Hf].
    apply Forall_cons in Hf as [[Hx _] Hf]. exists (Denom x). rewrite amt_cons.
    unfold coin_amt. rewrite decide_True by done.
    assert (0 ≤ amt (Denom x) l); [|lia]. apply amt_nonneg.
    eapply Forall_impl; [exact Hf|]. cbn. lia. }
  pose proof (updateLockedCoins_ok addr coins false ty s s1 Hc Hw H1) as (_ & Hb & _ & _ & _ & _).
  destruct (Bank.ModuleSend_total ModuleName addr coins (bank s1)) as [b2 H2]; [done| |].
  { intros d. rewrite Hb. fold moduleAcc. specialize (Hle d). specialize (Hsl d).
    unfold slack, bal, locked_total in Hsl. destruct Hw as [HA HB].
    pose proof (locked_sum_ge addr (lockedCoins s) d HA).
    pose proof (locked_sum_ge addr (lockedFees s) d HB).
    pose proof (proj2 (locks_ok_lookup _ addr HA) d). pose proof (proj2 (locks_ok_lookup _ addr HB) d).
    unfold locked, locks in Hle. destruct (ty =? _)%Z; lia. }
  eexists. unfold UnlockCoins, on_bank, zoom, wrap_err, mbind, M_bind. rewrite H1.
  rewrite Bank.ModuleToAccount_spec, H2. done.
Qed.

Lemma BalanceAccount_spec addr outC inC s s' :
  good outC → locks_wf s → (Coins.IsZero outC = true → ∀ d, amt d outC = 0) →
  BalanceAccount addr outC inC s = (Ok tt, s') →
  same_tokens s s' ∧ locks_wf s' ∧ lockedFees s' = lockedFees s ∧
  (∀ a d, locked LockCoinsTypeQuantity s' a d = locked LockCoinsTypeQuantity s a d -
    (if decide (a = addr) then amt d outC else 0)) ∧
  (if Coins.IsZero inC then bank s' = bank s
   else Bank.moved (bank s) (bank s') moduleAcc addr inC) ∧
  (∀ d, locked_total s' d = locked_total s d - amt d outC).
Proof.
  intros Hc Hw Hz H. unfold BalanceAccount, on_bank in H.
  apply bind_ok in H as ([] & s1 & H1 & H2).
  assert (same_tokens s s1 ∧ locks_wf s1 ∧ lockedFees s1 = lockedFees s ∧ bank s1 = bank s ∧
    (∀ a d, locked LockCoinsTypeQuantity s1 a d = locked LockCoinsTypeQuantity s a d -
      (if decide (a = addr) then amt d outC else 0)) ∧
    (∀ d, locked_total s1 d = locked_total s d - amt d outC)) as (Hst & Hw1 & Hf & Hb & Hl & Ht).
  { destruct (Coins.IsZero outC) eqn:Ez; cbn [negb] in H1.
    - minv. split; [by repeat split|]. split; [done|]. split; [done|]. split; [done|].
      split; intros; rewrite ?(Hz eq_refl); try case_decide; lia.
    - apply wrap_err_ok in H1. pose proof H1 as Hfee. apply updateLockedCoins_ok in H1 as (_ & Hb & Hst & Hw' & Hl & Ht); [|done..].
      split; [done|]. split; [done|].
      split; [unfold updateLockedCoins in Hfee; cbn in Hfee; by minv|]. split; [done|]. split.
      + intros a d. rewrite Hl by (by left). repeat case_decide; destruct_and?; (lia || naive_solver).
      + intros d. rewrite Ht. lia. }
  destruct (Coins.IsZero inC) eqn:Ez; cbn [negb] in H2.
  - minv. split; [done|]. by repeat (split; [done|]).
  - apply zoom_ok in H2 as (b2 & H2 & ->). rewrite Bank.ModuleToAccount_spec, Hb in H2.
    destruct Hst as (?&?&?&?&?&?). apply Bank.SendCoins_ok in H2 as [Hm _].
    split; [by repeat split|]. split; [done|]. split; [done|]. split; [done|]. by split.
Qed.

(** ** What each handler does, on success *)

Lemma pay_fee_ok payer fee s s' : pay_fee payer fee s = (Ok tt, s') →
  ∃ b, s' = set_bank b s ∧
    Bank.moved (bank s) b payer (Bank.GetModuleAddress feeCollectorName) (Coins.ToCoins fee) ∧
    ∀ d, 0 ≤ amt d (Coins.ToCoins fee) ≤ bal s payer d.
Proof.
  unfold pay_fee, on_bank. intros H. minv. rewrite Bank.AccountToModule_spec in *.
  match goal with Hs : Bank.SendCoins _ _ _ _ = _ |- _ => apply Bank.SendCoins_ok in Hs as [??] end.
  eauto.
Qed.

Lemma send_ok ctx from to c s s' :
  SendCoinsFromAccountToAccount ctx from to c s = (Ok tt, s') →
  ∃ b, s' = set_bank b s ∧ Bank.moved (bank s) b from to c ∧
    (∀ d, 0 ≤ amt d c ≤ bal s from d) ∧ Bank.BlacklistedAddr to = false.
Proof.
  unfold SendCoinsFromAccountToAccount, on_bank.
  destruct (Bank.BlacklistedAddr to) eqn:Eb; [by intros ?%throw_ok|]. intros H. minv.
  match goal with Hi : (if ?b then _ else _) _ = _ |- _ => destruct b; minv end.
  match goal with Hs : Bank.SendCoins _ _ _ _ = _ |- _ => apply Bank.SendCoins_ok in Hs as [??] end.
  eauto.
Qed.

(** Minting to the module account and paying out moves nothing on it. *)
Lemma mint_out_ok owner c b b1 b2 :
  Bank.MintCoins ModuleName c b = (Ok tt, b1) →
  Bank.SendCoinsFromModuleToAccount ModuleName owner c b1 = (Ok tt, b2) →
  (∀ a d, Bank.balance b2 a d = Bank.balance b a d + if decide (a = owner) then amt d c else 0) ∧
  (∀ d, Bank.GetSupplyByDenom b2 d = Bank.GetSupplyByDenom b d + amt d c).
Proof.
  intros H1 H2. apply Bank.MintCoins_ok in H1 as [Hb1 Hs1].
  rewrite Bank.ModuleToAccount_spec in H2. apply Bank.SendCoins_ok in H2 as [[Hb2 Hs2] _].
  split; intros; rewrite ?Hb2, ?Hb1, ?Hs2, ?Hs1; repeat case_decide; lia.
Qed.

Lemma suffix_loop_fresh hash sym s i name :
  suffix_loop hash sym s i = (name, true) → tokens s !! name = None ∧ Coins.ValidDenom name = true.
Proof.
  induction i as [|i IH]; cbn [suffix_loop]; [done|]. cbv zeta.
  match goal with |- (if negb (Coins.ValidDenom ?n) then _ else _) = _ → _ =>
    destruct (Coins.ValidDenom n) eqn:Ev end; cbn [negb]; [|done].
  unfold TokenExist. destruct (bool_decide _) eqn:Et; cbn [negb]; [apply IH|].
  intros [= <-]. apply bool_decide_eq_false in Et. split; [|done]. by apply eq_None_not_Some.
Qed.

Lemma issue_ok ctx m s s' : handleMsgTokenIssue ctx m s = (Ok tt, s') →
  ∃ total name b c,
    Dec.NewDecFromStr (miTotalSupply m) = Some total ∧
    total ≤ Dec.NewDec TotalSupplyUpperbound ∧ tokens s !! name = None ∧
    let t := MkToken (miDescription m) name (miOriginalSymbol m) (miWholeName m) total 0
               (miOwner m) (miMintable m) in
    s' = MkTokenState _ b (<[name := t]> (tokens s))
           (userTokens s ∪ {[GetUserTokenKey (miOwner m) name]}) (uint64 (tokenNum s + 1))
           (confirms s) (lockedCoins s) (lockedFees s) (params s) (feeDetails s) ∧
    (∀ d, amt d c = coin_amt d (MkCoin name total)) ∧
    (∀ d, Bank.GetSupplyByDenom b d = Bank.GetSupplyByDenom (bank s) d + amt d c) ∧
    (∀ a d, Bank.balance b a d = bal s a d + (if decide (a = miOwner m) then amt d c else 0)
      - (if decide (a = miOwner m) then amt d (Coins.ToCoins (FeeIssue (params s))) else 0)
      + (if decide (a = Bank.GetModuleAddress feeCollectorName)
         then amt d (Coins.ToCoins (FeeIssue (params s))) else 0)) ∧
    (∀ d, 0 ≤ amt d (Coins.ToCoins (FeeIssue (params s)))).
Proof.
  unfold handleMsgTokenIssue. destruct (Dec.NewDecFromStr _) as [total|] eqn:Et; [|by intros ?%throw_ok].
  intros H. minv. destruct (addTokenSuffix _ _ _) as [name valid] eqn:Ea. minv.
  destruct valid; [|done]. apply suffix_loop_fresh in Ea as [Hfresh _].
  unfold on_bank, NewToken in *. minv. cbn in *.
  match goal with Hf : pay_fee _ _ _ = _ |- _ => apply pay_fee_ok in Hf as (b & -> & Hmv & Hfee) end.
  match goal with Hp : Coins.MustParseCoins _ _ = Some ?c |- _ =>
    rename c into cs; apply Coins.MustParseCoins_spec in Hp as (_ & a & Ha & Hamt) end.
  rewrite Et in Ha. injection Ha as <-.
  match goal with Hm : Bank.MintCoins _ _ _ = _, Hs : Bank.SendCoinsFromModuleToAccount _ _ _ _ = _ |- _ =>
    destruct (mint_out_ok _ _ _ _ _ Hm Hs) as [Hbal Hsup] end.
  exists total, name, b, cs. split; [done|]. split; [dec_lia|]. split; [done|]. split; [done|].
  destruct Hmv as [Hmb Hms]. unfold bal in *. cbn in *. split; [done|]. split; [|split].
  - intros d. by rewrite Hms, Hsup.
  - intros a d. rewrite Hmb, Hbal. lia.
  - intros d. by destruct (Hfee d).
Qed.

(** What a payer loses and the fee collector gains. *)
Definition paid (payer : AccAddress) (fee : SysCoin) (a : AccAddress) (d : string) : Z :=
  (if decide (a = Bank.GetModuleAddress feeCollectorName) then amt d (Coins.ToCoins fee) else 0)
  - (if decide (a = payer) then amt d (Coins.ToCoins fee) else 0).

Lemma burn_ok m s s' : handleMsgTokenBurn m s = (Ok tt, s') →
  ∃ b, s' = set_bank b s ∧ Owner (GetTokenInfo (Denom (mbAmount m)) s) = mbOwner m ∧
    (∀ d, Bank.GetSupplyByDenom b d = Bank.GetSupplyByDenom (bank s) d - coin_amt d (mbAmount m)) ∧
    (∀ a d, Bank.balance b a d = bal s a d
      - (if decide (a = mbOwner m) then coin_amt d (mbAmount m) else 0)
      + paid (mbOwner m) (FeeBurn (params s)) a d) ∧
    (∀ d, 0 ≤ coin_amt d (mbAmount m)) ∧
    (∀ d, 0 ≤ amt d (Coins.ToCoins (FeeBurn (params s)))).
Proof.
  unfold handleMsgTokenBurn, on_bank. intros H. minv. cbn in *.
  match goal with Hf : pay_fee _ _ _ = _ |- _ => apply pay_fee_ok in Hf as (b & -> & [Hmb Hms] & Hfee) end.
  rewrite Bank.AccountToModule_spec in *.
  match goal with Hs : Bank.SendCoins _ _ _ _ = _ |- _ => apply Bank.SendCoins_ok in Hs as [[Hb1 Hs1] Hle] end.
  match goal with Hs : Bank.BurnCoins _ _ _ = _ |- _ => apply Bank.BurnCoins_ok in Hs as (Hb2 & Hs2 & _) end.
  exists b. split; [done|]. split; [by apply String.eqb_eq, negb_false_iff|].
  unfold bal, paid in *. cbn in *. split; [|split; [|split]].
  - intros d. rewrite Hms, Hs2, Hs1, Coins.ToCoins_amt. done.
  - intros a d. rewrite Hmb, Hb2, Hb1, !(Coins.ToCoins_amt (mbAmount m)).
    repeat case_decide; lia.
  - intros d. rewrite <-Coins.ToCoins_amt. by destruct (Hle d).
  - intros d. by destruct (Hfee d).
Qed.

Lemma mint_ok m s s' : handleMsgTokenMint m s = (Ok tt, s') →
  ∃ b, s' = set_bank b s ∧ Owner (GetTokenInfo (Denom (mmAmount m)) s) = mmOwner m ∧
    Mintable (GetTokenInfo (Denom (mmAmount m)) s) = true ∧
    (∀ d, Bank.GetSupplyByDenom b d = Bank.GetSupplyByDenom (bank s) d + coin_amt d (mmAmount m)) ∧
    Bank.GetSupplyByDenom b (Denom (mmAmount m)) ≤ Dec.NewDec TotalSupplyUpperbound ∧
    (∀ a d, Bank.balance b a d = bal s a d
      + (if decide (a = mmOwner m) then coin_amt d (mmAmount m) else 0)
      + paid (mmOwner m) (FeeMint (params s)) a d) ∧
    (∀ d, 0 ≤ amt d (Coins.ToCoins (FeeMint (params s)))).
Proof.
  unfold handleMsgTokenMint, on_bank. intros H. minv. cbn in *.
  match goal with Hf : pay_fee _ _ _ = _ |- _ => apply pay_fee_ok in Hf as (b & -> & [Hmb Hms] & Hfee) end.
  match goal with Hm : Bank.MintCoins _ _ _ = _, Hs : Bank.SendCoinsFromModuleToAccount _ _ _ _ = _ |- _ =>
    destruct (mint_out_ok _ _ _ _ _ Hm Hs) as [Hbal Hsup] end.
  exists b. unfold bal, paid in *. cbn in *. split; [done|].
  split; [by apply String.eqb_eq, negb_false_iff|]. split; [by apply negb_false_iff|].
  assert (∀ d, Bank.GetSupplyByDenom b d = Bank.GetSupplyByDenom (bank s) d + coin_amt d (mmAmount m))
    as Hb by (intros d; by rewrite Hms, Hsup, Coins.ToCoins_amt).
  split; [done|]. split; [|split].
  - rewrite Hb. unfold coin_amt. rewrite decide_True by done. dec_lia.
  - intros a d. rewrite Hmb, Hbal, !(Coins.ToCoins_amt (mmAmount m)). repeat case_decide; lia.
  - intros d. by destruct (Hfee d).
Qed.

(** What an account receives from a list of transfers, and their total. *)
Definition received (l : list TransferUnit) (a : AccAddress) (d : string) : Z :=
  zsum ((λ t, if decide (a = To t) then amt d (TCoins t) else 0) <$> l).
Definition total_sent (l : list TransferUnit) (d : string) : Z :=
  zsum ((λ t, amt d (TCoins t)) <$> l).

Lemma sends_ok ctx from l s s' :
  mapM_ (λ t, wrap_err (λ _, TokenErr.ErrSendCoinsFromAccountToAccountFailed)
    (SendCoinsFromAccountToAccount ctx from (To t) (TCoins t))) l s = (Ok tt, s') →
  ∃ b, s' = set_bank b s ∧
    (∀ d, Bank.GetSupplyByDenom b d = Bank.GetSupplyByDenom (bank s) d) ∧
    (∀ a d, Bank.balance b a d = bal s a d
      - (if decide (a = from) then total_sent l d else 0) + received l a d) ∧
    (∀ a d, 0 ≤ received l a d) ∧
    (∀ t, t ∈ l → Bank.BlacklistedAddr (To t) = false).
Proof.
  unfold received, total_sent, bal. revert s.
  induction l as [|t l IH]; intros s H; cbn in H; minv.
  - exists (bank s). split; [by destruct s|]. split; [done|].
    split; [intros; cbn; case_decide; lia|]. split; [done|]. by intros t ?%not_elem_of_nil.
  - match goal with Hs : SendCoinsFromAccountToAccount _ _ _ _ _ = _ |- _ =>
      apply send_ok in Hs as (b1 & -> & [Hb1 Hs1] & Hle & Hbl) end.
    match goal with Hm : mapM_ _ _ _ = _ |- _ =>
      apply IH in Hm as (b & -> & Hs & Hb & Hr & Hbls) end.
    exists b. split; [done|]. cbn in *. split; [intros; by rewrite Hs, Hs1|]. split; [|split].
    + intros a d. rewrite Hb, Hb1. unfold zsum. cbn. repeat case_decide; lia.
    + intros a d. specialize (Hr a d). specialize (Hle d). unfold zsum in *. cbn. case_decide; lia.
    + intros t' [->|Ht]%elem_of_cons; [done|auto].
Qed.

Lemma multisend_ok ctx m s s' : handleMsgMultiSend ctx m s = (Ok tt, s') →
  ∃ b, s' = set_bank b s ∧
    (∀ d, Bank.GetSupplyByDenom b d = Bank.GetSupplyByDenom (bank s) d) ∧
    (∀ a d, Bank.balance b a d = bal s a d
      - (if decide (a = msFrom m) then total_sent (Transfers m) d else 0)
      + received (Transfers m) a d) ∧
    (∀ a d, 0 ≤ received (Transfers m) a d) ∧
    (∀ t, t ∈ Transfers m → Bank.BlacklistedAddr (To t) = false).
Proof. unfold handleMsgMultiSend. intros H. minv. by eapply sends_ok. Qed.

Lemma msgsend_ok ctx m s s' : handleMsgSend ctx m s = (Ok tt, s') →
  ∃ b, s' = set_bank b s ∧ Bank.moved (bank s) b (FromAddress m) (ToAddress m) (sAmount m) ∧
    (∀ d, 0 ≤ amt d (sAmount m) ≤ bal s (FromAddress m) d) ∧
    Bank.BlacklistedAddr (ToAddress m) = false.
Proof. unfold handleMsgSend. intros H. minv. by eapply send_ok. Qed.

(** The store after DeleteUserToken and NewToken for a new owner. *)
Definition chown (t : Token) (new : AccAddress) (s : TokenState) : TokenState :=
  set_tokenNum (uint64 (tokenNum s + 1))
    (set_userTokens (userTokens s ∖ {[GetUserTokenKey (Owner t) (Symbol t)]}
                     ∪ {[GetUserTokenKey new (Symbol t)]})
      (set_tokens (<[Symbol t := set_Owner new t]> (tokens s)) s)).

Lemma transfer_ok ctx m s s' : handleMsgTransferOwnership ctx m s = (Ok tt, s') →
  let t := GetTokenInfo (toSymbol m) s in
  ∃ b, Owner t = toFromAddress m ∧
    (∀ c, confirms s !! toSymbol m = Some c → cExpire c < BlockTime ctx) ∧
    s' = set_bank b
      (if String.eqb (toToAddress m) Common.BlackHoleAddress then chown t (toToAddress m) s
       else set_confirms (<[toSymbol m := MkConfirmOwnership (toSymbol m) (toToAddress m)
              (BlockTime ctx + OwnershipConfirmWindow (params s))]> (confirms s)) s) ∧
    Bank.moved (bank s) b (toFromAddress m) (Bank.GetModuleAddress feeCollectorName)
      (Coins.ToCoins (FeeChown (params s))) ∧
    (∀ d, 0 ≤ amt d (Coins.ToCoins (FeeChown (params s)))).
Proof.
  unfold handleMsgTransferOwnership, DeleteUserToken, NewToken, SetConfirmOwnership, GetConfirmOwnership.
  intros H. destruct (String.eqb (toToAddress m) _) eqn:Eb; minv; cbn in *.
  all: match goal with Hf : pay_fee _ _ _ = _ |- _ =>
    apply pay_fee_ok in Hf as (b & -> & Hmv & Hfee) end.
  all: exists b; split; [by apply String.eqb_eq, negb_false_iff|].
  all: split; [intros c Hc; rewrite Hc in *; dec_bool; lia|].
  all: split; [by destruct s|]; split; [done|]; intros d; by destruct (Hfee d).
Qed.

Lemma confirm_ok ctx m s s' : handleMsgConfirmOwnership ctx m s = (Ok tt, s') →
  ∃ c, confirms s !! mcSymbol m = Some c ∧ BlockTime ctx ≤ cExpire c ∧ cAddress c = mcAddress m ∧
    s' = set_confirms (delete (cSymbol c) (confirms s))
           (chown (GetTokenInfo (mcSymbol m) s) (mcAddress m) s).
Proof.
  unfold handleMsgConfirmOwnership, DeleteUserToken, NewToken, DeleteConfirmOwnership, GetConfirmOwnership.
  intros H. minv. destruct (confirms s !! mcSymbol m) as [c|]; [|by minv].
  destruct (Z.ltb_spec (cExpire c) (BlockTime ctx)); [by minv|].
  destruct (String.eqb_spec (cAddress c) (mcAddress m)); cbn [negb] in *; [|by minv].
  minv. exists c. split; [done|]. split; [lia|]. split; [done|]. by destruct s.
Qed.

Lemma token_modify_ok m s s' : handleMsgTokenModify m s = (Ok tt, s') →
  let t := GetTokenInfo (moSymbol m) s in
  ∃ b t', Owner t = moOwner m ∧
    Symbol t' = Symbol t ∧ Owner t' = Owner t ∧ Mintable t' = Mintable t ∧
    OriginalTotalSupply t' = OriginalTotalSupply t ∧
    s' = set_bank b (set_tokens (<[Symbol t := t']> (tokens s)) s) ∧
    Bank.moved (bank s) b (moOwner m) (Bank.GetModuleAddress feeCollectorName)
      (Coins.ToCoins (FeeModify (params s))) ∧
    (∀ d, 0 ≤ amt d (Coins.ToCoins (FeeModify (params s)))).
Proof.
  unfold handleMsgTokenModify, UpdateToken. intros H. minv. cbn in *. set (t := GetTokenInfo _ _) in *.
  match goal with Hf : pay_fee _ _ _ = _ |- _ =>
    apply pay_fee_ok in Hf as (b & -> & Hmv & Hfee) end.
  set (t' := if IsDescriptionModified m then _ else _) in *.
  exists b, t'. split; [by apply String.eqb_eq, negb_false_iff|].
  assert (Symbol t' = Symbol t) as Es by (unfold t'; by repeat case_match).
  split; [done|]. do 3 (split; [unfold t'; by repeat case_match|]).
  rewrite <-Es. split; [done|]. split; [done|]. intros d. by destruct (Hfee d).
Qed.

(** ** Invariants of all messages *)

(** The token store is keyed by symbol, and only existing tokens have a pending
    transfer. *)
Definition tokens_wf (s : TokenState) : Prop :=
  (∀ k t, tokens s !! k = Some t → Symbol t = k) ∧
  (∀ k c, confirms s !! k = Some c → cSymbol c = k ∧ is_Some (tokens s !! k)).

Lemma GetTokenInfo_cases k s : tokens_wf s →
  (tokens s !! k = Some (GetTokenInfo k s) ∧ Symbol (GetTokenInfo k s) = k) ∨
  (tokens s !! k = None ∧ Owner (GetTokenInfo k s) = "").
Proof.
  intros [Hk _]. unfold GetTokenInfo. destruct (tokens s !! k) as [t|] eqn:Et; cbn; [left|by right].
  split; [done|]. by apply Hk.
Qed.

Lemma chown_wf k new s : tokens_wf s → is_Some (tokens s !! k) →
  tokens_wf (chown (GetTokenInfo k s) new s).
Proof.
  intros Hw Hk. destruct (GetTokenInfo_cases k s Hw) as [[Et Es]|[Et _]];
    [|by rewrite Et in Hk; destruct Hk].
  destruct Hw as [H1 H2]. split; cbn; rewrite Es.
  - intros k' t. rewrite lookup_insert. case_decide; [|apply H1]. intros [= <-]. by subst.
  - intros k' c Hc. destruct (H2 k' c Hc) as [? ?]. split; [done|].
    rewrite lookup_insert. by case_decide.
Qed.

Lemma handler_wf ctx msg s s' : signer msg ≠ "" → tokens_wf s →
  NewTokenHandler ctx msg s = (Ok tt, s') → tokens_wf s'.
Proof.
  intros Hsig Hw H. destruct msg as [m|m|m|m|m|m|m|m|]; cbn in H, Hsig.
  - apply issue_ok in H as (total & name & b & c & _ & _ & Hf & -> & _). destruct Hw as [H1 H2].
    split; cbn; intros k; setoid_rewrite lookup_insert.
    + intros t. case_decide; [|apply H1]. intros [= <-]. by subst.
    + intros co Hc. destruct (H2 k co Hc). split; [done|]. by case_decide.
  - by apply burn_ok in H as (b & -> & _).
  - by apply mint_ok in H as (b & -> & _).
  - by apply multisend_ok in H as (b & -> & _).
  - by apply msgsend_ok in H as (b & -> & _).
  - apply transfer_ok in H as (b & Ho & _ & -> & _).
    destruct (GetTokenInfo_cases (toSymbol m) s Hw) as [[Et Es]|[_ Eo]]; [|congruence].
    destruct (String.eqb _ _); [apply (chown_wf (toSymbol m) _ s Hw); by rewrite Et|].
    destruct Hw as [H1 H2]. split; [done|]. cbn. intros k c. rewrite lookup_insert.
    case_decide; [|apply H2]. intros [= <-]. cbn. subst. by rewrite Et.
  - apply confirm_ok in H as (c & Hc & _ & _ & ->).
    pose proof (proj2 Hw _ _ Hc) as [_ Hex]. apply chown_wf with (new := mcAddress m) in Hex; [|done].
    destruct Hex as [H1 H2]. split; [done|]. cbn in *. intros k c' [_ Hc']%lookup_delete_Some. by apply H2.
  - apply token_modify_ok in H as (b & t' & Ho & Es' & _ & _ & _ & -> & _).
    destruct (GetTokenInfo_cases (moSymbol m) s Hw) as [[Et Es]|[_ Eo]]; [|congruence].
    destruct Hw as [H1 H2]. split; cbn; intros k; setoid_rewrite lookup_insert.
    + intros t. case_decide; [|apply H1]. intros [= <-]. congruence.
    + intros co Hc. destruct (H2 k co Hc). split; [done|]. by case_decide.
  - by apply throw_ok in H.
Qed.

(** ** Properties *)

(** Locking coins and unlocking the same coins always succeeds when the
    locking does and the locks are backed, and gives back every balance and every
    lock entry. *)
Theorem lock_unlock_roundtrip addr coins ty s s1 :
  addr ≠ moduleAcc → Coins.IsValid coins = true → coins ≠ [] → locks_wf s →
  (∀ d, 0 ≤ slack s d) → LockCoins addr coins ty s = (Ok tt, s1) →
  ∃ s2, UnlockCoins addr coins ty s1 = (Ok tt, s2) ∧
    (∀ a d, bal s2 a d = bal s a d) ∧
    (∀ ty' a d, lock_type ty' → locked ty' s2 a d = locked ty' s a d) ∧
    (∀ d, slack s2 d = slack s d) ∧ same_tokens s s2.
Proof.
  intros Ha Hv Hne Hw Hsl H1.
  assert (good coins) as Hg.
  { apply Coins.IsValid_spec in Hv as [Hs Hf]. split; [done|]. intros d. apply amt_nonneg.
    eapply Forall_impl; [exact Hf|]. cbn. lia. }
  destruct (LockCoins_spec _ _ _ _ _ Ha Hg Hw H1) as (Hty & Hst & Hw1 & [Hm1 _] & _ & Hl1 & Hsl1).
  destruct (UnlockCoins_progress addr coins ty s1) as [s2 H2]; [done..|intros; by rewrite Hsl1| |].
  { intros d. rewrite Hl1, decide_True by done. unfold locked.
    pose proof (proj2 (locks_ok_lookup (locks ty s) addr ltac:(unfold locks; case_match; apply Hw)) d). lia. }
  destruct (UnlockCoins_spec _ _ _ _ _ Ha Hg Hw1 H2) as (_ & Hst2 & _ & [Hm2 _] & Hl2 & Hsl2).
  exists s2. split; [done|]. split; [|split; [|split]].
  - intros a d. unfold bal. rewrite Hm2, Hm1. repeat case_decide; lia.
  - intros ty' a d Hty'. rewrite Hl2, Hl1 by done. case_decide; lia.
  - intros d. by rewrite Hsl2, Hsl1.
  - unfold same_tokens in *. destruct_and?. repeat split; congruence.
Qed.

(** One operation of the order module on the locks of an account. *)
Inductive lock_step : TokenState → TokenState → Prop :=
| step_lock addr coins ty s s' :
    addr ≠ moduleAcc → good coins → LockCoins addr coins ty s = (Ok tt, s') → lock_step s s'
| step_unlock addr coins ty s s' :
    addr ≠ moduleAcc → good coins → UnlockCoins addr coins ty s = (Ok tt, s') → lock_step s s'.

(** C22  Whatever sequence of locks and unlocks runs, the coins of the module
    account minus the sum of all lock entries stays what it was, so that locks
    that are backed stay backed, and the entries stay well formed. *)
Theorem locks_stay_backed s s' : rtc lock_step s s' → locks_wf s →
  locks_wf s' ∧ ∀ d, slack s' d = slack s d.
Proof.
  induction 1 as [s|s s1 s2 Hstep _ IH]; [done|]. intros Hw.
  destruct Hstep as [addr coins ty s s1 Ha Hc H|addr coins ty s s1 Ha Hc H].
  - apply LockCoins_spec in H as (_ & _ & Hw1 & _ & _ & _ & Hs); [|done..].
    destruct (IH Hw1) as [? Hs2]. split; [done|]. intros d. by rewrite Hs2, Hs.
  - apply UnlockCoins_spec in H as (_ & _ & Hw1 & _ & _ & Hs); [|done..].
    destruct (IH Hw1) as [? Hs2]. split; [done|]. intros d. by rewrite Hs2, Hs.
Qed.

(** No message of the token module, signed by anybody but the module
    account, touches a lock entry or takes coins that back one. *)
Theorem messages_keep_backing ctx msg s s' :
  signer msg ≠ moduleAcc → NewTokenHandler ctx msg s = (Ok tt, s') →
  lockedCoins s' = lockedCoins s ∧ lockedFees s' = lockedFees s ∧ ∀ d, slack s d ≤ slack s' d.
Proof.
  intros Hsig H. unfold slack, locked_total, bal.
  assert (∀ b c, (∀ d, 0 ≤ amt d c) → ∀ from to, from ≠ moduleAcc →
    Bank.moved (bank s) b from to c → ∀ d,
    Bank.balance (bank s) moduleAcc d ≤ Bank.balance b moduleAcc d) as Hmv.
  { intros b c Hc from to Hf Hm d. rewrite (moved_bal _ _ _ _ _ _ _ Hm), decide_False by congruence.
    specialize (Hc d). case_decide; lia. }
  destruct msg as [m|m|m|m|m|m|m|m|]; cbn in H, Hsig.
  - apply issue_ok in H as (total & name & b & c & _ & _ & _ & -> & _ & _ & Hb & Hfee).
    cbn. do 2 (split; [done|]). intros d. rewrite Hb, !(decide_False (P := moduleAcc = miOwner m)) by congruence.
    specialize (Hfee d). unfold bal. case_decide; lia.
  - apply burn_ok in H as (b & -> & _ & _ & Hb & _ & Hfee). cbn. do 2 (split; [done|]). intros d.
    rewrite Hb. unfold paid. rewrite !(decide_False (P := moduleAcc = mbOwner m)) by congruence.
    specialize (Hfee d). unfold bal. case_decide; lia.
  - apply mint_ok in H as (b & -> & _ & _ & _ & _ & Hb & Hfee). cbn. do 2 (split; [done|]). intros d.
    rewrite Hb. unfold paid. rewrite !(decide_False (P := moduleAcc = mmOwner m)) by congruence.
    specialize (Hfee d). unfold bal. case_decide; lia.
  - apply multisend_ok in H as (b & -> & _ & Hb & Hr & _). cbn. do 2 (split; [done|]). intros d.
    rewrite Hb, (decide_False (P := moduleAcc = msFrom m)) by congruence.
    specialize (Hr moduleAcc d). unfold bal. lia.
  - apply msgsend_ok in H as (b & -> & Hm & Hle & _). cbn. do 2 (split; [done|]). intros d.
    pose proof (Hmv b _ (λ d, proj1 (Hle d)) _ _ Hsig Hm d). lia.
  - apply transfer_ok in H as (b & _ & _ & -> & Hm & Hfee).
    pose proof (Hmv b _ Hfee _ _ Hsig Hm) as Hd. destruct (String.eqb _ _); cbn;
      (do 2 (split; [done|])); intros d; specialize (Hd d); lia.
  - apply confirm_ok in H as (c & _ & _ & _ & ->). cbn. by repeat split.
  - apply token_modify_ok in H as (b & t' & _ & _ & _ & _ & _ & -> & Hm & Hfee).
    pose proof (Hmv b _ Hfee _ _ Hsig Hm) as Hd. cbn. do 2 (split; [done|]).
    intros d. specialize (Hd d). lia.
  - by apply throw_ok in H.
Qed.

Definition supply (s : TokenState) (d : string) : Z := Bank.GetSupplyByDenom (bank s) d.

(** C23  The supply of every denomination changes exactly as the messages say: a
    mint by the owner of a mintable token adds its amount and never passes the
    upper bound, a burn by the owner subtracts its amount, an issue adds the total
    of a token whose symbol was not taken, everything else leaves it alone. *)
Theorem supply_follows_messages ctx msg s s' :
  NewTokenHandler ctx msg s = (Ok tt, s') →
  match msg with
  | MTokenMint m =>
      let t := GetTokenInfo (Denom (mmAmount m)) s in
      Owner t = mmOwner m ∧ Mintable t = true ∧
      (∀ d, supply s' d = supply s d + coin_amt d (mmAmount m)) ∧
      supply s' (Denom (mmAmount m)) ≤ Dec.NewDec TotalSupplyUpperbound
  | MTokenBurn m =>
      Owner (GetTokenInfo (Denom (mbAmount m)) s) = mbOwner m ∧
      ∀ d, supply s' d = supply s d - coin_amt d (mbAmount m)
  | MTokenIssue m =>
      ∃ name total, Dec.NewDecFromStr (miTotalSupply m) = Some total ∧
        total ≤ Dec.NewDec TotalSupplyUpperbound ∧ tokens s !! name = None ∧
        (∃ t, tokens s' !! name = Some t ∧ Owner t = miOwner m ∧ Mintable t = miMintable m) ∧
        ∀ d, supply s' d = supply s d + coin_amt d (MkCoin name total)
  | _ => ∀ d, supply s' d = supply s d
  end.
Proof.
  unfold supply. intros H. destruct msg as [m|m|m|m|m|m|m|m|]; cbn in H.
  - apply issue_ok in H as (total & name & b & c & Ht & Hle & Hf & -> & Hc & Hs & _).
    exists name, total. do 3 (split; [done|]). split.
    + cbn. rewrite lookup_insert_eq. eauto.
    + intros d. cbn. by rewrite Hs, Hc.
  - by apply burn_ok in H as (b & -> & Ho & Hs & _).
  - apply mint_ok in H as (b & -> & Ho & Hm & Hs & Hle & _). by repeat split.
  - by apply multisend_ok in H as (b & -> & Hs & _).
  - by apply msgsend_ok in H as (b & -> & [_ Hs] & _).
  - apply transfer_ok in H as (b & _ & _ & -> & [_ Hs] & _). by destruct (String.eqb _ _).
  - by apply confirm_ok in H as (c & _ & _ & _ & ->).
  - by apply token_modify_ok in H as (b & t' & _ & _ & _ & _ & _ & -> & [_ Hs] & _).
  - by apply throw_ok in H.
Qed.

(** Who may become the owner of [sym], by which message. *)
Definition authorised (ctx : Context) (msg : Msg) (s : TokenState) (sym : string) (t t' : Token)
    : Prop :=
  match msg with
  | MTransferOwnership m =>
      toSymbol m = sym ∧ toFromAddress m = Owner t ∧ toToAddress m = Common.BlackHoleAddress ∧
      Owner t' = Common.BlackHoleAddress
  | MConfirmOwnership m =>
      mcSymbol m = sym ∧ Owner t' = mcAddress m ∧
      ∃ c, confirms s !! sym = Some c ∧ cAddress c = mcAddress m ∧ BlockTime ctx ≤ cExpire c
  | _ => False
  end.

Lemma chown_lookup k new s sym t : tokens_wf s → is_Some (tokens s !! k) → tokens s !! sym = Some t →
  tokens (chown (GetTokenInfo k s) new s) !! sym =
    Some (if decide (sym = k) then set_Owner new t else t).
Proof.
  intros Hw Hk Ht. destruct (GetTokenInfo_cases k s Hw) as [[Et Es]|[Et _]];
    [|by rewrite Et in Hk; destruct Hk].
  cbn. rewrite Es, lookup_insert. destruct (decide (k = sym)) as [->|Hne].
  - rewrite decide_True by done. congruence.
  - by rewrite decide_False.
Qed.

(** C26  A token, once issued, stays; its mintability and original supply are
    fixed; and its owner changes only when the owner sends it to the black hole
    or when the address that is recorded as its nominee confirms in time. *)
Theorem ownership_authority ctx msg s s' sym t :
  tokens_wf s → signer msg ≠ "" → NewTokenHandler ctx msg s = (Ok tt, s') →
  tokens s !! sym = Some t →
  ∃ t', tokens s' !! sym = Some t' ∧ Mintable t' = Mintable t ∧
    OriginalTotalSupply t' = OriginalTotalSupply t ∧
    (Owner t' = Owner t ∨ authorised ctx msg s sym t t').
Proof.
  intros Hw Hsig H Ht. destruct msg as [m|m|m|m|m|m|m|m|]; cbn in H, Hsig.
  - apply issue_ok in H as (total & name & b & c & _ & _ & Hf & -> & _). exists t. cbn.
    rewrite lookup_insert_ne by congruence. auto.
  - apply burn_ok in H as (b & -> & _). by exists t; auto.
  - apply mint_ok in H as (b & -> & _). by exists t; auto.
  - apply multisend_ok in H as (b & -> & _). by exists t; auto.
  - apply msgsend_ok in H as (b & -> & _). by exists t; auto.
  - apply transfer_ok in H as (b & Ho & _ & -> & _).
    destruct (GetTokenInfo_cases (toSymbol m) s Hw) as [[Et Es]|[_ Eo]]; [|congruence].
    destruct (String.eqb_spec (toToAddress m) Common.BlackHoleAddress) as [Eb|]; [|by exists t; auto].
    eexists. split; [apply (chown_lookup (toSymbol m) _ s sym t Hw); [by rewrite Et|done]|].
    case_decide as Ek; [|auto]. subst sym. rewrite Ht in Et. injection Et as Et.
    do 2 (split; [done|]). right. repeat split; [|done|by rewrite <-Eb]. congruence.
  - apply confirm_ok in H as (c & Hc & Hexp & Hadr & ->).
    pose proof (proj2 Hw _ _ Hc) as [_ Hex].
    eexists. split; [by apply (chown_lookup (mcSymbol m) _ s sym t Hw)|].
    case_decide as Ek; [|auto]. subst sym. do 2 (split; [done|]). right.
    repeat split. by exists c.
  - apply token_modify_ok in H as (b & t' & Ho & Es' & Eo' & Em & Et' & -> & _). cbn.
    destruct (GetTokenInfo_cases (moSymbol m) s Hw) as [[Et Es]|[_ Eo]]; [|congruence].
    rewrite Es, lookup_insert. case_decide as Ek; [|by exists t; auto]. subst sym. rewrite Ht in Et.
    injection Et as Et. exists t'. rewrite Eo', Em, Et', <-Et. auto.
  - by apply throw_ok in H.
Qed.

(** Only the owner of a token nominates its next owner: a pending transfer in
    the new state was pending before, or the message is the owner's own. *)
Theorem nomination_authority ctx msg s s' sym c :
  tokens_wf s → signer msg ≠ "" → NewTokenHandler ctx msg s = (Ok tt, s') →
  confirms s' !! sym = Some c →
  confirms s !! sym = Some c ∨
  (∃ m t, msg = MTransferOwnership m ∧ toSymbol m = sym ∧ tokens s !! sym = Some t ∧
    Owner t = signer msg ∧ cAddress c = toToAddress m ∧
    cExpire c = BlockTime ctx + OwnershipConfirmWindow (params s)).
Proof.
  intros Hw Hsig H Hc. destruct msg as [m|m|m|m|m|m|m|m|]; cbn in H, Hsig.
  - left. by apply issue_ok in H as (total & name & b & co & _ & _ & Hf & -> & _).
  - left. by apply burn_ok in H as (b & -> & _).
  - left. by apply mint_ok in H as (b & -> & _).
  - left. by apply multisend_ok in H as (b & -> & _).
  - left. by apply msgsend_ok in H as (b & -> & _).
  - apply transfer_ok in H as (b & Ho & _ & -> & _).
    destruct (GetTokenInfo_cases (toSymbol m) s Hw) as [[Et Es]|[_ Eo]]; [|congruence].
    destruct (String.eqb _ _); [by left|]. cbn in Hc. rewrite lookup_insert in Hc.
    case_decide as Ek; [right|by left]. injection Hc as <-. subst sym. eauto 10.
  - left. apply confirm_ok in H as (c' & _ & _ & _ & ->). cbn in Hc.
    by apply lookup_delete_Some in Hc as [_ Hc].
  - left. by apply token_modify_ok in H as (b & t' & _ & _ & _ & _ & _ & -> & _).
  - by apply throw_ok in H.
Qed.

(** C31  The token store stays keyed by symbol and every pending transfer belongs
    to an existing token, whatever messages run. *)
Theorem tokens_wf_invariant ctx msgs s s' :
  Forall (λ msg, signer msg ≠ "") msgs → tokens_wf s →
  mapM_ (NewTokenHandler ctx) msgs s = (Ok tt, s') → tokens_wf s'.
Proof.
  intros Hm. revert s. induction Hm as [|msg msgs Hsig _ IH]; intros s Hw H; cbn in H; minv; [done|].
  eapply IH; [|done]. by eapply handler_wf.
Qed.
End spec.

(** ** Witnesses: a concrete chain *)

#[local] Existing Instance Dec18.ops.
#[local] Existing Instance Dec18.dec_laws.
#[local] Existing Instance CoinsImpl.ops.
#[local] Existing Instance CoinsImpl.coins_laws.
#[local] Existing Instance BankImpl.ops.
#[local] Existing Instance BankImpl.bank_laws.

#[local] Instance ex_env : Env := {|
  HigherThanMercury _ := false;
  EthCodeHash _ _ := None;
  Keccak256_nil := "";
  tmhash_hex s := s;
  feeCollectorName := "fee_collector";
  enableBackend := false;
|}.

Definition ex_token : Token := MkToken "" "xxb-abc" "xxb" "xxb" 50 0 "alice" true.
Definition ex_state : TokenState :=
  MkTokenState _
    (BankImpl.MkSt {[ "alice" := [MkCoin "okt" 1000; MkCoin "xxb-abc" 50] ]}
                   {[ "okt" := 1000; "xxb-abc" := 50 ]})
    {[ "xxb-abc" := ex_token ]} {[ "alicexxb-abc" ]} 1 ∅ ∅ ∅
    (MkParams (MkCoin "okt" 5) (MkCoin "okt" 1) (MkCoin "okt" 1) (MkCoin "okt" 1) (MkCoin "okt" 1) 100) [].
Definition ex_ctx : Context := MkContext 10 1000 "0123456789abcdef".

Definition run {A} (m : M TokenState A) : TokenState := snd (m ex_state).

Lemma ex_locks_wf : locks_wf ex_state.
Proof. split; apply map_Forall_empty. Qed.

Lemma ex_slack d : 0 ≤ slack ex_state d.
Proof.
  unfold slack, bal, locked_total, locked_sum. cbn [lockedCoins lockedFees ex_state].
  rewrite !msum_empty. pose proof (Bank.balance_nonneg (bank ex_state) moduleAcc d). lia.
Qed.

Lemma ex_tokens_wf : tokens_wf ex_state.
Proof.
  split; cbn; intros k; [|intros c H; by rewrite lookup_empty in H].
  intros t [<- <-]%lookup_singleton_Some. done.
Qed.

Definition ex_coins : SysCoins := [MkCoin "okt" 7].

Lemma lock_unlock_roundtrip_witness :
  ∃ s2, UnlockCoins "alice" ex_coins LockCoinsTypeQuantity
          (run (LockCoins "alice" ex_coins LockCoinsTypeQuantity)) = (Ok tt, s2) ∧
    (∀ a d, bal s2 a d = bal ex_state a d) ∧
    (∀ ty' a d, lock_type ty' → locked ty' s2 a d = locked ty' ex_state a d) ∧
    (∀ d, slack s2 d = slack ex_state d) ∧ same_tokens ex_state s2.
Proof.
  apply (lock_unlock_roundtrip "alice" ex_coins LockCoinsTypeQuantity ex_state);
    [done|vm_compute; reflexivity|done|apply ex_locks_wf|apply ex_slack|apply run_ok; vm_compute; reflexivity].
Defined.

Lemma locks_stay_backed_witness :
  locks_wf (run (LockCoins "alice" ex_coins LockCoinsTypeFee)) ∧
  ∀ d, slack (run (LockCoins "alice" ex_coins LockCoinsTypeFee)) d = slack ex_state d.
Proof.
  apply (locks_stay_backed ex_state); [|apply ex_locks_wf].
  apply rtc_once, (step_lock "alice" ex_coins LockCoinsTypeFee); [done| |apply run_ok; vm_compute; reflexivity].
  split; [apply sorted_coins_single|]. intros d. unfold ex_coins. rewrite amt_single.
  unfold coin_amt. case_decide; cbn; lia.
Defined.

Definition ex_mint : Msg := MTokenMint (MkMsgTokenMint (MkCoin "xxb-abc" 9) "alice").

Lemma messages_keep_backing_witness :
  lockedCoins (run (NewTokenHandler ex_ctx ex_mint)) = lockedCoins ex_state ∧
  lockedFees (run (NewTokenHandler ex_ctx ex_mint)) = lockedFees ex_state ∧
  ∀ d, slack ex_state d ≤ slack (run (NewTokenHandler ex_ctx ex_mint)) d.
Proof.
  apply (messages_keep_backing ex_ctx ex_mint ex_state); [done|apply run_ok; vm_compute; reflexivity].
Defined.

Lemma supply_follows_messages_witness :
  Owner ex_token = "alice" ∧ Mintable ex_token = true ∧
  (∀ d, supply (run (NewTokenHandler ex_ctx ex_mint)) d =
    supply ex_state d + coin_amt d (MkCoin "xxb-abc" 9)) ∧
  supply (run (NewTokenHandler ex_ctx ex_mint)) "xxb-abc" ≤ Dec.NewDec TotalSupplyUpperbound.
Proof.
  apply (supply_follows_messages ex_ctx ex_mint ex_state). apply run_ok. vm_compute. reflexivity.
Defined.

Definition ex_chown : Msg := MTransferOwnership (MkMsgTransferOwnership "alice" "bob" "xxb-abc").
Definition ex_confirm : Msg := MConfirmOwnership (MkMsgConfirmOwnership "xxb-abc" "bob").

Lemma nomination_authority_witness :
  let c := MkConfirmOwnership "xxb-abc" "bob" 1100 in
  confirms ex_state !! "xxb-abc" = Some c ∨
  (∃ m t, ex_chown = MTransferOwnership m ∧ toSymbol m = "xxb-abc" ∧
    tokens ex_state !! "xxb-abc" = Some t ∧ Owner t = signer ex_chown ∧ cAddress c = toToAddress m ∧
    cExpire c = BlockTime ex_ctx + OwnershipConfirmWindow (params ex_state)).
Proof.
  apply (nomination_authority ex_ctx ex_chown ex_state (run (NewTokenHandler ex_ctx ex_chown)));
    [apply ex_tokens_wf|done|apply run_ok; vm_compute; reflexivity|vm_compute; reflexivity].
Defined.

Lemma tokens_wf_invariant_witness :
  tokens_wf (run (mapM_ (NewTokenHandler ex_ctx) [ex_mint; ex_chown; ex_confirm])).
Proof.
  apply (tokens_wf_invariant ex_ctx [ex_mint; ex_chown; ex_confirm] ex_state);
    [by repeat (apply Forall_cons; split; [done|])|apply ex_tokens_wf|].
  apply (run_ok (mapM_ (NewTokenHandler ex_ctx) [ex_mint; ex_chown; ex_confirm]) ex_state).
  vm_compute. reflexivity.
Defined.

Lemma ownership_authority_witness :
  ∃ t', tokens (run (NewTokenHandler ex_ctx ex_mint)) !! "xxb-abc" = Some t' ∧
    Mintable t' = Mintable ex_token ∧ OriginalTotalSupply t' = OriginalTotalSupply ex_token ∧
    (Owner t' = Owner ex_token ∨ authorised ex_ctx ex_mint ex_state "xxb-abc" ex_token t').
Proof.
  apply (ownership_authority ex_ctx ex_mint ex_state);
    [apply ex_tokens_wf|done|apply run_ok; vm_compute; reflexivity|vm_compute; reflexivity].
Defined.
End TokenSpec.
