(* ===== verification/Swap.v ===== *)
(** * The swap module: src/x/ammswap/{handler,keeper,types}

    Constant product pools: creating a pair, adding and removing liquidity, and
    swapping directly or through the native token.  [SwapState] is the token
    module's state, the stored pairs by name, and the fee rate.  The observers
    that the keeper notifies (the backend) do not write to it. *)

From S2P Require Import Prelude SdkDec SdkCoins GoStd CommonErrors Common TokenErrors Token SwapErrors.

#[local] Open Scope Z_scope.

Module Swap.

Definition ModuleName : string := "ammswap".
Definition GenerateTokenType : Z := 2.
Definition PoolTokenPrefix : string := "ammswap_".

Record SwapTokenPair := MkPair {
  QuotePooledCoin : SysCoin;
  BasePooledCoin : SysCoin;
  PoolTokenName : string;
}.

Record Params := MkParams { FeeRate : Dec }.

Record MsgAddLiquidity := MkMsgAddLiquidity {
  MinLiquidity : Dec; MaxBaseAmount : SysCoin; QuoteAmount : SysCoin;
  aDeadline : Z; aSender : AccAddress
}.
Record MsgRemoveLiquidity := MkMsgRemoveLiquidity {
  Liquidity : Dec; MinBaseAmount : SysCoin; MinQuoteAmount : SysCoin;
  rDeadline : Z; rSender : AccAddress
}.
Record MsgCreateExchange := MkMsgCreateExchange {
  Token0Name : string; Token1Name : string; eSender : AccAddress
}.
Record MsgTokenToToken := MkMsgTokenToToken {
  SoldTokenAmount : SysCoin; MinBoughtTokenAmount : SysCoin;
  tDeadline : Z; Recipient : AccAddress; tSender : AccAddress
}.

Inductive Msg :=
| MAddLiquidity (m : MsgAddLiquidity)
| MRemoveLiquidity (m : MsgRemoveLiquidity)
| MCreateExchange (m : MsgCreateExchange)
| MTokenToToken (m : MsgTokenToToken)
| MOther.

(** ** Names of pairs *)

(** token0 < token1, byte by byte *)
Definition GetBaseQuoteTokenName (token0 token1 : string) : string * string :=
  if String.ltb token0 token1 then (token0, token1) else (token1, token0).

Definition GetSwapTokenPairName (token0 token1 : string) : string :=
  let '(baseTokenName, quoteTokenName) := GetBaseQuoteTokenName token0 token1 in
  baseTokenName +:+ "_" +:+ quoteTokenName.

Definition GetPoolTokenName (token1 token2 : string) : string :=
  PoolTokenPrefix +:+ GetSwapTokenPairName token1 token2.

Definition TokenPairName (s : SwapTokenPair) : string :=
  Denom (BasePooledCoin s) +:+ "_" +:+ Denom (QuotePooledCoin s).

Definition IsPoolToken (symbol : string) : bool := Token.NotAllowedOriginSymbol symbol.

Definition SplitPoolToken (symbol : string) : outcome (string * string) :=
  let splits := tail (Split symbol underscore) in
  token0 ← or_panic (splits !! 0%nat);
  token1 ← or_panic (splits !! 1%nat);
  Ok (token0, token1).

(** GetSwapTokenPairName of each message. *)
Definition add_pair_name (msg : MsgAddLiquidity) : string :=
  GetSwapTokenPairName (Denom (MaxBaseAmount msg)) (Denom (QuoteAmount msg)).
Definition remove_pair_name (msg : MsgRemoveLiquidity) : string :=
  GetSwapTokenPairName (Denom (MinBaseAmount msg)) (Denom (MinQuoteAmount msg)).
Definition create_pair_name (msg : MsgCreateExchange) : string :=
  GetSwapTokenPairName (Token0Name msg) (Token1Name msg).
Definition swap_pair_name (msg : MsgTokenToToken) : string :=
  GetSwapTokenPairName (Denom (MinBoughtTokenAmount msg)) (Denom (SoldTokenAmount msg)).

Section validate.
Context `{DO : Dec.Ops} `{CO : Coins.Ops}.

Definition ValidateSwapAmountName (amountName : string) : outcome unit :=
  if negb (Coins.ValidDenom amountName) then Err SwapErr.ErrValidateDenom
  else if Token.NotAllowedOriginSymbol amountName then Err SwapErr.ErrNotAllowedOriginSymbol
  else Ok tt.

Definition ValidateBaseAndQuoteAmount (baseAmountName quoteAmountName : string) : outcome unit :=
  if String.ltb quoteAmountName baseAmountName
  then Err SwapErr.ErrBaseAmountNameBiggerThanQuoteAmountName
  else if String.eqb baseAmountName quoteAmountName then Err SwapErr.ErrBaseNameEqualQuoteName
  else
    _ ← ValidateSwapAmountName baseAmountName;
    ValidateSwapAmountName quoteAmountName.

Definition MsgAddLiquidity_ValidateBasic (msg : MsgAddLiquidity) : outcome unit :=
  if Token.Empty (aSender msg) then Err SwapErr.ErrAddressIsRequire
  else if Dec.IsNegative (MinLiquidity msg) then Err SwapErr.ErrMinLiquidityIsNegative
  else if negb (Coins.CoinIsPositive (MaxBaseAmount msg) && Coins.CoinIsPositive (QuoteAmount msg))
  then Err SwapErr.ErrMaxBaseAmountOrQuoteAmountIsNegative
  else if negb (Coins.CoinIsValid (MaxBaseAmount msg)) then Err SwapErr.ErrMaxBaseAmount
  else if negb (Coins.CoinIsValid (QuoteAmount msg)) then Err SwapErr.ErrQuoteAmount
  else ValidateBaseAndQuoteAmount (Denom (MaxBaseAmount msg)) (Denom (QuoteAmount msg)).

Definition MsgRemoveLiquidity_ValidateBasic (msg : MsgRemoveLiquidity) : outcome unit :=
  if Token.Empty (rSender msg) then Err SwapErr.ErrAddressIsRequire
  else if negb (Dec.IsPositive (Liquidity msg)) then Err SwapErr.ErrMinLiquidityIsNegative
  else if negb (Coins.CoinIsValid (MinBaseAmount msg)) then Err SwapErr.ErrMinBaseAmount
  else if negb (Coins.CoinIsValid (MinQuoteAmount msg)) then Err SwapErr.ErrMinQuoteAmount
  else ValidateBaseAndQuoteAmount (Denom (MinBaseAmount msg)) (Denom (MinQuoteAmount msg)).

Definition MsgCreateExchange_ValidateBasic (msg : MsgCreateExchange) : outcome unit :=
  if Token.Empty (eSender msg) then Err SwapErr.ErrAddressIsRequire
  else
    _ ← ValidateSwapAmountName (Token0Name msg);
    _ ← ValidateSwapAmountName (Token1Name msg);
    if String.eqb (Token0Name msg) (Token1Name msg) then Err SwapErr.ErrToken0NameEqualToken1Name
    else Ok tt.

Definition MsgTokenToToken_ValidateBasic (msg : MsgTokenToToken) : outcome unit :=
  if Token.Empty (tSender msg) then Err SwapErr.ErrAddressIsRequire
  else if Token.Empty (Recipient msg) then Err SwapErr.ErrAddressIsRequire
  else if negb (Coins.CoinIsPositive (SoldTokenAmount msg)) then Err SwapErr.ErrSoldTokenAmountIsNegative
  else if negb (Coins.CoinIsValid (SoldTokenAmount msg)) then Err SwapErr.ErrSoldTokenAmount
  else if negb (Coins.CoinIsValid (MinBoughtTokenAmount msg)) then Err SwapErr.ErrMinBoughtTokenAmount
  else
    let '(baseAmountName, quoteAmountName) :=
      GetBaseQuoteTokenName (Denom (SoldTokenAmount msg)) (Denom (MinBoughtTokenAmount msg)) in
    ValidateBaseAndQuoteAmount baseAmountName quoteAmountName.

Definition ValidateBasic (msg : Msg) : outcome unit :=
  match msg with
  | MAddLiquidity m => MsgAddLiquidity_ValidateBasic m
  | MRemoveLiquidity m => MsgRemoveLiquidity_ValidateBasic m
  | MCreateExchange m => MsgCreateExchange_ValidateBasic m
  | MTokenToToken m => MsgTokenToToken_ValidateBasic m
  | MOther => Ok tt
  end.

(** params.go, validateParams *)
Definition validateParams (value : Common.iface) : outcome unit :=
  match value with
  | Common.IDec v =>
      if Dec.IsNegative v then Err Common.plain_error
      else if Dec.GT v Dec.OneDec then Err Common.plain_error
      else Ok tt
  | _ => Err Common.plain_error
  end.

Definition DefaultParams : Params := MkParams (Dec.NewDecWithPrec 3 3).

(** ** Prices *)

Definition GetInputPrice (inputAmount inputReserve outputReserve feeRate : Dec) : outcome Dec :=
  let inputAmountWithFee :=
    Dec.MulTruncate inputAmount
      (Dec.MulTruncate (Dec.Sub Dec.OneDec feeRate) (Dec.NewDec 1000)) in
  let denominator :=
    Dec.Add (Dec.MulTruncate inputReserve (Dec.NewDec 1000)) inputAmountWithFee in
  Common.MulAndQuo inputAmountWithFee outputReserve denominator.

Definition CalculateTokenToBuy (swapTokenPair : SwapTokenPair) (sellToken : SysCoin)
    (buyTokenDenom : string) (params : Params) : outcome SysCoin :=
  let '(inputReserve, outputReserve) :=
    if String.ltb buyTokenDenom (Denom sellToken)
    then (Amount (QuotePooledCoin swapTokenPair), Amount (BasePooledCoin swapTokenPair))
    else (Amount (BasePooledCoin swapTokenPair), Amount (QuotePooledCoin swapTokenPair)) in
  tokenBuyAmt ← GetInputPrice (Amount sellToken) inputReserve outputReserve (FeeRate params);
  or_panic (Coins.NewDecCoinFromDec buyTokenDenom tokenBuyAmt).

Definition coinSort (coins : SysCoins) : SysCoins :=
  Coins.Sort (filter (λ c, Dec.IsPositive (Amount c) = true) coins).

Definition NewSwapPair (token0 token1 : string) : outcome SwapTokenPair :=
  let '(base, quote) := GetBaseQuoteTokenName token0 token1 in
  quoteCoin ← or_panic (Coins.NewDecCoinFromDec quote Dec.ZeroDec);
  baseCoin ← or_panic (Coins.NewDecCoinFromDec base Dec.ZeroDec);
  Ok (MkPair quoteCoin baseCoin (GetPoolTokenName token0 token1)).
End validate.

(** ** State and keeper *)

Section keeper.
Context `{DO : Dec.Ops} `{CO : Coins.Ops} `{BO : Bank.Ops} `{E : !Token.Env}.

Record SwapState := MkSwapState {
  tok : Token.TokenState;
  pairs : gmap string SwapTokenPair;
  sparams : Params;
}.

Definition set_tok (x : Token.TokenState) (s : SwapState) : SwapState :=
  MkSwapState x (pairs s) (sparams s).
Definition set_pairs (x : gmap string SwapTokenPair) (s : SwapState) : SwapState :=
  MkSwapState (tok s) x (sparams s).

Definition on_token {A} (m : M Token.TokenState A) : M SwapState A := zoom tok set_tok m.
Definition on_supply {A} (m : M Bank.state A) : M SwapState A := on_token (Token.on_bank m).

Definition GetSwapTokenPair (tokenPairName : string) : M SwapState SwapTokenPair := λ s,
  match pairs s !! tokenPairName with
  | None => (Err SwapErr.ErrNonExistSwapTokenPair, s)
  | Some item => (Ok item, s)
  end.

Definition SetSwapTokenPair (tokenPairName : string) (p : SwapTokenPair) : M SwapState unit :=
  modify (λ s, set_pairs (<[tokenPairName := p]> (pairs s)) s).

Definition DeleteSwapTokenPair (tokenPairName : string) : M SwapState unit :=
  modify (λ s, set_pairs (delete tokenPairName (pairs s)) s).

Definition GetSwapTokenPairs (s : SwapState) : list SwapTokenPair := snd <$> kv_sorted (pairs s).

Definition InitPoolToken (poolTokenName : string) : Token.Token :=
  Token.MkToken poolTokenName poolTokenName poolTokenName poolTokenName (Dec.NewDec 0)
    GenerateTokenType (Bank.GetModuleAddress ModuleName) true.

Definition NewPoolToken (symbol : string) : M SwapState unit :=
  on_token (Token.NewToken (InitPoolToken symbol)).

(** [poolToken.Owner == nil] is an error. *)
Definition GetPoolTokenInfo (symbol : string) : M SwapState Token.Token := λ s,
  let poolToken := Token.GetTokenInfo symbol (tok s) in
  if Token.Empty (Token.Owner poolToken) then (Err SwapErr.ErrNonExistPoolToken, s)
  else (Ok poolToken, s).

Definition GetPoolTokenAmount (poolTokenName : string) (s : SwapState) : Dec :=
  Bank.GetSupplyByDenom (Token.bank (tok s)) poolTokenName.

Definition MintPoolCoinsToUser (coins : SysCoins) (addr : AccAddress) : M SwapState unit :=
  wrap_err (λ _, SwapErr.ErrCodeMinCoinsFailed) (on_supply (Bank.MintCoins ModuleName coins));;
  on_supply (Bank.SendCoinsFromModuleToAccount ModuleName addr coins).

Definition BurnPoolCoinsFromUser (coins : SysCoins) (addr : AccAddress) : M SwapState unit :=
  wrap_err (λ _, SwapErr.ErrSendCoinsFromAccountToModule)
    (on_supply (Bank.SendCoinsFromAccountToModule addr ModuleName coins));;
  on_supply (Bank.BurnCoins ModuleName coins).

Definition SendCoinsToPool (coins : SysCoins) (addr : AccAddress) : M SwapState unit :=
  on_supply (Bank.SendCoinsFromAccountToModule addr ModuleName coins).

Definition SendCoinsFromPoolToAccount (coins : SysCoins) (addr : AccAddress) : M SwapState unit :=
  on_supply (Bank.SendCoinsFromModuleToAccount ModuleName addr coins).

Definition IsTokenExist (token : string) : M SwapState unit :=
  isExist ← gets (λ s, Token.TokenExist token (tok s));
  throw_if (negb isExist) SwapErr.ErrTokenNotExist;;
  t ← gets (λ s, Token.GetTokenInfo token (tok s));
  throw_if (Token.Type_ t =? GenerateTokenType)%Z SwapErr.ErrInvalidCoins.

Definition GetRedeemableAssets (baseAmountName quoteAmountName : string) (liquidity : Dec)
    : M SwapState (SysCoin * SysCoin) :=
  wrap_err (λ _, SwapErr.ErrValidateSwapAmountName)
    (lift (ValidateBaseAndQuoteAmount baseAmountName quoteAmountName));;
  swapTokenPair ← GetSwapTokenPair (GetSwapTokenPairName baseAmountName quoteAmountName);
  poolTokenAmount ← gets (GetPoolTokenAmount (PoolTokenName swapTokenPair));
  throw_if (Dec.LT poolTokenAmount liquidity) SwapErr.ErrInsufficientPoolToken;;
  baseDec ← lift (Common.MulAndQuo (Amount (BasePooledCoin swapTokenPair)) liquidity poolTokenAmount);
  quoteDec ← lift (Common.MulAndQuo (Amount (QuotePooledCoin swapTokenPair)) liquidity poolTokenAmount);
  baseAmount ← lift (or_panic (Coins.NewDecCoinFromDec (Denom (BasePooledCoin swapTokenPair)) baseDec));
  quoteAmount ← lift (or_panic (Coins.NewDecCoinFromDec (Denom (QuotePooledCoin swapTokenPair)) quoteDec));
  mret (baseAmount, quoteAmount).

(** ** Handlers *)

Definition handleMsgCreateExchange (msg : MsgCreateExchange) : M SwapState unit :=
  IsTokenExist (Token0Name msg);;
  IsTokenExist (Token1Name msg);;
  let tokenPairName := create_pair_name msg in
  r ← catch (GetSwapTokenPair tokenPairName);
  throw_if (match r with inl _ => true | inr _ => false end) SwapErr.ErrSwapTokenPairExist;;
  let poolTokenName := GetPoolTokenName (Token0Name msg) (Token1Name msg) in
  r ← catch (GetPoolTokenInfo poolTokenName);
  throw_if (match r with inl _ => true | inr _ => false end) SwapErr.ErrPoolTokenPairExist;;
  NewPoolToken poolTokenName;;
  swapTokenPair ← lift (NewSwapPair (Token0Name msg) (Token1Name msg));
  SetSwapTokenPair tokenPairName swapTokenPair.

(** The amount of base tokens and the liquidity of a deposit. *)
Definition deposit_amounts (swapTokenPair : SwapTokenPair) (msg : MsgAddLiquidity)
    : M SwapState (Dec * Dec) :=
  if (Dec.IsZero (Amount (QuotePooledCoin swapTokenPair))
      && Dec.IsZero (Amount (BasePooledCoin swapTokenPair)))%bool then
    mret (Amount (MaxBaseAmount msg), Dec.NewDec 1)
  else if (Coins.CoinIsPositive (BasePooledCoin swapTokenPair)
           && Coins.CoinIsPositive (QuotePooledCoin swapTokenPair))%bool then
    base ← lift (Common.MulAndQuo (Amount (QuoteAmount msg))
              (Amount (BasePooledCoin swapTokenPair)) (Amount (QuotePooledCoin swapTokenPair)));
    totalSupply ← gets (GetPoolTokenAmount (PoolTokenName swapTokenPair));
    let base := if Dec.IsZero base then Dec.NewDecWithPrec 1 Dec.Precision else base in
    throw_if (Dec.IsZero totalSupply) SwapErr.ErrIsZeroValue;;
    liquidity ← lift (Common.MulAndQuo (Amount (QuoteAmount msg)) totalSupply
                       (Amount (QuotePooledCoin swapTokenPair)));
    throw_if (Dec.IsZero liquidity) SwapErr.ErrIsZeroValue;;
    mret (base, liquidity)
  else throw SwapErr.ErrInvalidTokenPair.

Definition handleMsgAddLiquidity (ctx : Context) (msg : MsgAddLiquidity) : M SwapState unit :=
  throw_if (aDeadline msg <? Unix ctx)%Z SwapErr.ErrBlockTimeBigThanDeadline;;
  swapTokenPair ← GetSwapTokenPair (add_pair_name msg);
  baseTokens ← lift (or_panic (Coins.NewDecCoinFromDec (Denom (MaxBaseAmount msg)) Dec.ZeroDec));
  poolToken ← GetPoolTokenInfo (PoolTokenName swapTokenPair);
  r ← deposit_amounts swapTokenPair msg;
  let '(base, liquidity) := (r : Dec * Dec) in
  let baseTokens := MkCoin (Denom baseTokens) base in
  throw_if (Dec.GT (Amount baseTokens) (Amount (MaxBaseAmount msg)))
    SwapErr.ErrBaseTokensAmountBiggerThanMax;;
  throw_if (Dec.LT liquidity (MinLiquidity msg)) SwapErr.ErrLessThan;;
  let coins := coinSort [QuoteAmount msg; baseTokens] in
  wrap_err (λ _, SwapErr.ErrSendCoinsFailed) (SendCoinsToPool coins (aSender msg));;
  quote' ← lift (or_panic (Coins.CoinAdd (QuotePooledCoin swapTokenPair) (QuoteAmount msg)));
  base' ← lift (or_panic (Coins.CoinAdd (BasePooledCoin swapTokenPair) baseTokens));
  SetSwapTokenPair (add_pair_name msg) (MkPair quote' base' (PoolTokenName swapTokenPair));;
  poolCoins ← lift (or_panic (Coins.NewDecCoinFromDec (Token.Symbol poolToken) liquidity));
  wrap_err (λ _, SwapErr.ErrMintPoolTokenFailed) (MintPoolCoinsToUser [poolCoins] (aSender msg)).

Definition handleMsgRemoveLiquidity (ctx : Context) (msg : MsgRemoveLiquidity) : M SwapState unit :=
  throw_if (rDeadline msg <? Unix ctx)%Z SwapErr.ErrMsgDeadlineLessThanBlockTime;;
  swapTokenPair ← GetSwapTokenPair (remove_pair_name msg);
  let liquidity := Liquidity msg in
  poolTokenAmount ← gets (GetPoolTokenAmount (PoolTokenName swapTokenPair));
  throw_if (Dec.LT poolTokenAmount liquidity) SwapErr.ErrLessThan;;
  baseDec ← lift (Common.MulAndQuo (Amount (BasePooledCoin swapTokenPair)) liquidity poolTokenAmount);
  quoteDec ← lift (Common.MulAndQuo (Amount (QuotePooledCoin swapTokenPair)) liquidity poolTokenAmount);
  baseAmount ← lift (or_panic (Coins.NewDecCoinFromDec (Denom (BasePooledCoin swapTokenPair)) baseDec));
  quoteAmount ← lift (or_panic (Coins.NewDecCoinFromDec (Denom (QuotePooledCoin swapTokenPair)) quoteDec));
  lt ← lift (or_panic (Coins.CoinIsLT baseAmount (MinBaseAmount msg)));
  throw_if lt SwapErr.ErrLessThan;;
  lt ← lift (or_panic (Coins.CoinIsLT quoteAmount (MinQuoteAmount msg)));
  throw_if lt SwapErr.ErrLessThan;;
  let coins := coinSort [baseAmount; quoteAmount] in
  wrap_err (λ _, SwapErr.ErrSendCoinsFromPoolToAccountFailed)
    (SendCoinsFromPoolToAccount coins (rSender msg));;
  quote' ← lift (or_panic (Coins.CoinSub (QuotePooledCoin swapTokenPair) quoteAmount));
  base' ← lift (or_panic (Coins.CoinSub (BasePooledCoin swapTokenPair) baseAmount));
  SetSwapTokenPair (remove_pair_name msg) (MkPair quote' base' (PoolTokenName swapTokenPair));;
  poolCoins ← lift (or_panic (Coins.NewDecCoinFromDec (PoolTokenName swapTokenPair) liquidity));
  wrap_err (λ _, SwapErr.ErrBurnPoolTokenFailed) (BurnPoolCoinsFromUser [poolCoins] (rSender msg)).

Definition swapTokenNativeToken (swapTokenPair : SwapTokenPair) (tokenBuy : SysCoin)
    (msg : MsgTokenToToken) : M SwapState unit :=
  wrap_err (λ _, SwapErr.ErrSendCoinsToPoolFailed)
    (SendCoinsToPool [SoldTokenAmount msg] (tSender msg));;
  wrap_err (λ _, SwapErr.ErrSendCoinsFromPoolToAccountFailed)
    (SendCoinsFromPoolToAccount [tokenBuy] (Recipient msg));;
  swapTokenPair ←
    (if String.ltb (Denom (MinBoughtTokenAmount msg)) (Denom (SoldTokenAmount msg)) then
       quote' ← lift (or_panic (Coins.CoinAdd (QuotePooledCoin swapTokenPair) (SoldTokenAmount msg)));
       base' ← lift (or_panic (Coins.CoinSub (BasePooledCoin swapTokenPair) tokenBuy));
       mret (MkPair quote' base' (PoolTokenName swapTokenPair))
     else
       quote' ← lift (or_panic (Coins.CoinSub (QuotePooledCoin swapTokenPair) tokenBuy));
       base' ← lift (or_panic (Coins.CoinAdd (BasePooledCoin swapTokenPair) (SoldTokenAmount msg)));
       mret (MkPair quote' base' (PoolTokenName swapTokenPair)));
  SetSwapTokenPair (swap_pair_name msg) swapTokenPair.

Definition sufficient (msg : MsgTokenToToken) (s : SwapState) : bool :=
  is_ok (Common.HasSufficientCoins (tSender msg) (Token.GetCoins (tSender msg) (tok s))
           [SoldTokenAmount msg]).

Definition empty_pool (p : SwapTokenPair) : bool :=
  (Coins.CoinIsZero (BasePooledCoin p) || Coins.CoinIsZero (QuotePooledCoin p))%bool.

Definition swapToken (ctx : Context) (msg : MsgTokenToToken) : M SwapState unit :=
  ok ← gets (sufficient msg);
  throw_if (negb ok) (CommonErr.ErrInsufficientCoins ModuleName);;
  throw_if (tDeadline msg <? Unix ctx)%Z SwapErr.ErrBlockTimeBigThanDeadline;;
  swapTokenPair ← GetSwapTokenPair (swap_pair_name msg);
  throw_if (empty_pool swapTokenPair) SwapErr.ErrIsZeroValue;;
  params ← gets sparams;
  tokenBuy ← lift (CalculateTokenToBuy swapTokenPair (SoldTokenAmount msg)
                     (Denom (MinBoughtTokenAmount msg)) params);
  throw_if (Coins.CoinIsZero tokenBuy) SwapErr.ErrIsZeroValue;;
  throw_if (Dec.LT (Amount tokenBuy) (Amount (MinBoughtTokenAmount msg))) SwapErr.ErrLessThan;;
  swapTokenNativeToken swapTokenPair tokenBuy msg.

Definition swapTokenByRouter (ctx : Context) (msg : MsgTokenToToken) : M SwapState unit :=
  throw_if (tDeadline msg <? Unix ctx)%Z SwapErr.ErrBlockTimeBigThanDeadline;;
  ok ← gets (sufficient msg);
  throw_if (negb ok) (CommonErr.ErrInsufficientCoins ModuleName);;
  let tokenPairOne := GetSwapTokenPairName (Denom (SoldTokenAmount msg)) Coins.DefaultBondDenom in
  swapTokenPairOne ← wrap_err (λ _, SwapErr.ErrNonExistSwapTokenPair) (GetSwapTokenPair tokenPairOne);
  throw_if (empty_pool swapTokenPairOne) SwapErr.ErrIsZeroValue;;
  let tokenPairTwo := GetSwapTokenPairName (Denom (MinBoughtTokenAmount msg)) Coins.DefaultBondDenom in
  swapTokenPairTwo ← wrap_err (λ _, SwapErr.ErrNonExistSwapTokenPair) (GetSwapTokenPair tokenPairTwo);
  throw_if (empty_pool swapTokenPairTwo) SwapErr.ErrIsZeroValue;;
  nativeAmount ← lift (or_panic (Coins.NewDecCoinFromDec Coins.DefaultBondDenom
                                   (Dec.MustNewDecFromStr "0")));
  params ← gets sparams;
  let msgOne := MkMsgTokenToToken (SoldTokenAmount msg) nativeAmount (tDeadline msg)
                  (Recipient msg) (tSender msg) in
  tokenNative ← lift (CalculateTokenToBuy swapTokenPairOne (SoldTokenAmount msgOne)
                        (Denom (MinBoughtTokenAmount msgOne)) params);
  throw_if (Coins.CoinIsZero tokenNative) SwapErr.ErrIsZeroValue;;
  let msgTwo := MkMsgTokenToToken tokenNative (MinBoughtTokenAmount msg) (tDeadline msg)
                  (Recipient msg) (tSender msg) in
  tokenBuy ← lift (CalculateTokenToBuy swapTokenPairTwo (SoldTokenAmount msgTwo)
                     (Denom (MinBoughtTokenAmount msgTwo)) params);
  throw_if (Coins.CoinIsZero tokenBuy) SwapErr.ErrIsZeroValue;;
  throw_if (Dec.LT (Amount tokenBuy) (Amount (MinBoughtTokenAmount msg))) SwapErr.ErrLessThan;;
  swapTokenNativeToken swapTokenPairOne tokenNative msgOne;;
  swapTokenNativeToken swapTokenPairTwo tokenBuy msgTwo.

Definition handleMsgTokenToToken (ctx : Context) (msg : MsgTokenToToken) : M SwapState unit :=
  r ← catch (GetSwapTokenPair (swap_pair_name msg));
  match r with
  | inr _ => swapTokenByRouter ctx msg
  | inl _ => swapToken ctx msg
  end.

Definition NewHandler (ctx : Context) (msg : Msg) : M SwapState unit :=
  match msg with
  | MAddLiquidity m => handleMsgAddLiquidity ctx m
  | MRemoveLiquidity m => handleMsgRemoveLiquidity ctx m
  | MCreateExchange m => handleMsgCreateExchange m
  | MTokenToToken m => handleMsgTokenToToken ctx m
  | MOther => throw SwapErr.ErrSwapUnknownMsgType
  end.
End keeper.
End Swap.
