(* ===== verification/SwapSpec.v ===== *)
(** * Theorems on the swap module

    The price formula never empties a pool and never lowers the product of its
    reserves; depositing and withdrawing gives nothing away; and every message
    keeps the pools' reserves backed by the module account. *)

From S2P Require Import Prelude SdkDec SdkCoins GoStd CommonErrors Common TokenErrors Token SwapErrors Swap.

#[local] Open Scope Z_scope.

Module SwapSpec.
Import Swap.

Lemma div_bounds a b : 0 < b → a / b * b ≤ a < (a / b + 1) * b.
Proof. intros Hb. pose proof (Z.div_mod a b). pose proof (Z.mod_pos_bound a b Hb). nia. Qed.

Section price.
Context `{DL : Dec.Laws}.

(** The price in integers: [fee] and the unit are mantissas. *)
Definition with_fee (a fee : Z) : Z := a * ((Dec.unit - fee) * 1000) / Dec.unit.

Lemma GetInputPrice_eq a inR outR fee :
  0 ≤ a → 0 < inR → 0 ≤ outR → 0 ≤ fee ≤ Dec.unit →
  GetInputPrice a inR outR fee =
    Ok (with_fee a fee * outR / (inR * 1000 + with_fee a fee)).
Proof.
  intros Ha Hin Hout Hfee. pose proof unit_pos as Hu. unfold GetInputPrice. dec_simp.
  assert (((Dec.unit - fee) * (1000 * Dec.unit)) ÷ Dec.unit = (Dec.unit - fee) * 1000) as E1.
  { rewrite Z.mul_assoc. apply Z.quot_mul. lia. }
  assert ((inR * (1000 * Dec.unit)) ÷ Dec.unit = inR * 1000) as E2.
  { rewrite Z.mul_assoc. apply Z.quot_mul. lia. }
  rewrite E1, E2.
  assert (a * ((Dec.unit - fee) * 1000) ÷ Dec.unit = with_fee a fee) as E3
    by (apply Z.quot_div_nonneg; nia).
  rewrite E3. assert (0 ≤ with_fee a fee) by (apply Z.div_pos; nia).
  apply Common.MulAndQuo_floor; lia.
Qed.

Lemma with_fee_bounds a fee : 0 ≤ a → 0 ≤ fee ≤ Dec.unit → 0 ≤ with_fee a fee ≤ a * 1000.
Proof.
  intros Ha Hfee. pose proof unit_pos. unfold with_fee. split; [apply Z.div_pos; nia|].
  apply Z.div_le_upper_bound; nia.
Qed.

(** What buys nothing and what cannot be exceeded. *)
Lemma price_facts a inR outR fee :
  0 ≤ a → 0 < inR → 0 < outR → 0 ≤ fee ≤ Dec.unit →
  ∃ out, GetInputPrice a inR outR fee = Ok out ∧ 0 ≤ out < outR ∧
    inR * outR ≤ (inR + a) * (outR - out).
Proof.
  intros Ha Hin Hout Hfee. rewrite GetInputPrice_eq by lia.
  pose proof (with_fee_bounds a fee Ha Hfee) as Hw. set (w := with_fee a fee) in *.
  eexists. split; [done|].
  pose proof (div_bounds (w * outR) (inR * 1000 + w) ltac:(lia)) as [Hlo Hhi].
  set (out := w * outR / (inR * 1000 + w)) in *.
  assert (0 ≤ out) by (apply Z.div_pos; nia).
  assert (out < outR) by nia. split; [lia|].
  assert (1000 * (inR * outR) ≤ 1000 * ((inR + a) * (outR - out))); [|lia].
  assert ((inR * 1000 + w) * (outR - out) ≤ (1000 * inR + 1000 * a) * (outR - out)) by nia. nia.
Qed.
End price.

(** Depositing [q] quote tokens into a pool (B, Q) of supply T and withdrawing the
    liquidity again: no more comes back than went in. *)
Lemma deposit_withdraw B Q T q b l :
  0 < B → 0 < Q → 0 < T → 0 < q → q * B / Q ≤ b → l = q * T / Q → 0 < l →
  (B + b) * l / (T + l) ≤ b ∧ (Q + q) * l / (T + l) ≤ q.
Proof.
  intros HB HQ HT Hq Hb -> Hl. set (l := q * T / Q) in *.
  pose proof (div_bounds (q * B) Q HQ) as [Hb1 Hb2].
  pose proof (div_bounds (q * T) Q HQ) as [Hl1 Hl2]. fold l in Hl1, Hl2.
  split.
  - assert ((B + b) * l < (b + 1) * (T + l)) as Hlt.
    { assert (Q * (B * l) < Q * ((b + 1) * T)); [|nia].
      assert (B * (l * Q) ≤ B * (q * T)) by nia.
      assert (q * B < (b + 1) * Q) by nia. nia. }
    assert ((B + b) * l / (T + l) < b + 1); [|lia]. apply Z.div_lt_upper_bound; lia.
  - apply Z.div_le_upper_bound; nia.
Qed.

Section spec.
Context `{DO : Dec.Ops} `{DL : !Dec.Laws} `{CO : !Coins.Ops} `{CL : !Coins.Laws}
  `{BO : !Bank.Ops} `{BL : !Bank.Laws} `{E : !Token.Env}.

Definition bank (s : SwapState) : Bank.state := Token.bank (tok s).
Definition set_bank (b : Bank.state) (s : SwapState) : SwapState :=
  set_tok (Token.set_bank b (tok s)) s.
Definition bal (s : SwapState) (a : AccAddress) (d : string) : Z := Bank.balance (bank s) a d.
Definition supply (s : SwapState) (d : string) : Z := Bank.GetSupplyByDenom (bank s) d.
Definition swapAcc : AccAddress := Bank.GetModuleAddress ModuleName.
Definition pool_supply (s : SwapState) (name : string) : Z := supply s (PoolTokenPrefix +:+ name).

Lemma on_supply_ok {A} (m : M Bank.state A) s a s' :
  on_supply m s = (Ok a, s') ↔ ∃ b, m (bank s) = (Ok a, b) ∧ s' = set_bank b s.
Proof.
  unfold on_supply, on_token, Token.on_bank, set_bank, bank. rewrite zoom_ok.
  setoid_rewrite zoom_ok. naive_solver.
Qed.

Lemma GetSwapTokenPair_ok n s p s' :
  GetSwapTokenPair n s = (Ok p, s') ↔ pairs s !! n = Some p ∧ s' = s.
Proof. unfold GetSwapTokenPair. destruct (pairs s !! n);
  (split; [|intros [??]]); intros; simplify_eq; auto. Qed.

Lemma GetPoolTokenInfo_ok n s t s' :
  GetPoolTokenInfo n s = (Ok t, s') ↔
  t = Token.GetTokenInfo n (tok s) ∧ Token.Empty (Token.Owner t) = false ∧ s' = s.
Proof. unfold GetPoolTokenInfo. destruct (Token.Empty _) eqn:Ee;
  (split; [|intros (?&?&?)]); intros; simplify_eq; auto; congruence. Qed.

Lemma SendCoinsToPool_ok coins a s s' : SendCoinsToPool coins a s = (Ok tt, s') →
  ∃ b, s' = set_bank b s ∧ Bank.moved (bank s) b a swapAcc coins.
Proof.
  unfold SendCoinsToPool. rewrite on_supply_ok, Bank.AccountToModule_spec.
  intros (b & [Hm _]%Bank.SendCoins_ok & ->). eauto.
Qed.

Lemma SendCoinsFromPool_ok coins a s s' : SendCoinsFromPoolToAccount coins a s = (Ok tt, s') →
  ∃ b, s' = set_bank b s ∧ Bank.moved (bank s) b swapAcc a coins ∧
    ∀ d, 0 ≤ amt d coins.
Proof.
  unfold SendCoinsFromPoolToAccount. rewrite on_supply_ok, Bank.ModuleToAccount_spec.
  intros (b & [Hm Hle]%Bank.SendCoins_ok & ->). exists b. split; [done|]. split; [done|].
  intros d. by destruct (Hle d).
Qed.

Lemma MintPool_ok coins a s s' : MintPoolCoinsToUser coins a s = (Ok tt, s') →
  ∃ b, s' = set_bank b s ∧
    (∀ a' d, Bank.balance b a' d = bal s a' d + if decide (a' = a) then amt d coins else 0) ∧
    (∀ d, Bank.GetSupplyByDenom b d = supply s d + amt d coins).
Proof.
  unfold MintPoolCoinsToUser. intros H. minv. apply on_supply_ok in H as (b1 & H1 & ->).
  match goal with Hs : on_supply _ _ = _ |- _ => apply on_supply_ok in Hs as (b2 & H2 & ->) end.
  apply Bank.MintCoins_ok in H1 as [Hb1 Hs1]. rewrite Bank.ModuleToAccount_spec in H2.
  apply Bank.SendCoins_ok in H2 as [[Hb2 Hs2] _]. cbn in *.
  exists b2. split; [done|]. unfold bal, supply.
  split; intros; rewrite ?Hb2, ?Hs2; cbn; rewrite ?Hb1, ?Hs1; repeat case_decide; lia.
Qed.

Lemma BurnPool_ok coins a s s' : BurnPoolCoinsFromUser coins a s = (Ok tt, s') →
  ∃ b, s' = set_bank b s ∧
    (∀ a' d, Bank.balance b a' d = bal s a' d - if decide (a' = a) then amt d coins else 0) ∧
    (∀ d, Bank.GetSupplyByDenom b d = supply s d - amt d coins).
Proof.
  unfold BurnPoolCoinsFromUser. intros H. minv. apply on_supply_ok in H as (b1 & H1 & ->).
  match goal with Hs : on_supply _ _ = _ |- _ => apply on_supply_ok in Hs as (b2 & H2 & ->) end.
  rewrite Bank.AccountToModule_spec in H1. apply Bank.SendCoins_ok in H1 as [[Hb1 Hs1] _].
  apply Bank.BurnCoins_ok in H2 as (Hb2 & Hs2 & _). cbn in *.
  exists b2. split; [done|]. unfold bal, supply.
  split; intros; rewrite ?Hb2, ?Hs2; cbn; rewrite ?Hb1, ?Hs1; repeat case_decide; lia.
Qed.

(** Dropping the coins that are not positive and sorting keeps the amounts of
    coins that are not negative. *)
Lemma coinSort_amt c d : Forall (λ x, 0 ≤ Amount x) c → amt d (coinSort c) = amt d c.
Proof.
  intros Hc. unfold coinSort. rewrite (amt_perm d _ _ (Coins.Sort_perm _)).
  induction Hc as [|x c Hx Hc IH]; [done|]. rewrite filter_cons, amt_cons.
  case_decide as Hp; rewrite ?amt_cons, IH; [lia|].
  rewrite Dec.IsPositive_spec in Hp. unfold coin_amt. case_decide; [|lia].
  destruct (Z.ltb_spec 0 (Amount x)); [done|lia].
Qed.

(** The reserves of all pools in one denomination. *)
Definition pair_amt (d : string) (p : SwapTokenPair) : Z :=
  coin_amt d (BasePooledCoin p) + coin_amt d (QuotePooledCoin p).
Definition reserves (d : string) (m : gmap string SwapTokenPair) : Z := msum (pair_amt d) m.

Definition pair_wf (name : string) (p : SwapTokenPair) : Prop :=
  String.ltb (Denom (BasePooledCoin p)) (Denom (QuotePooledCoin p)) = true ∧
  name = TokenPairName p ∧ PoolTokenName p = PoolTokenPrefix +:+ name.

(** A pool is empty, without pool tokens, or has both reserves and pool tokens. *)
Definition pool_ok (T : Z) (p : SwapTokenPair) : Prop :=
  (Amount (BasePooledCoin p) = 0 ∧ Amount (QuotePooledCoin p) = 0 ∧ T = 0) ∨
  (0 < Amount (BasePooledCoin p) ∧ 0 < Amount (QuotePooledCoin p) ∧ 0 < T).

Record swap_inv (s : SwapState) : Prop := {
  inv_pairs name p : pairs s !! name = Some p → pair_wf name p ∧ pool_ok (pool_supply s name) p;
  inv_none name : pairs s !! name = None → pool_supply s name = 0;
  inv_backed d : reserves d (pairs s) ≤ bal s swapAcc d;
  inv_tokens k t : Token.tokens (tok s) !! k = Some t → Token.Symbol t = k;
  inv_fee : 0 ≤ FeeRate (sparams s) ≤ Dec.unit;
}.

Lemma pool_name_inj a b : PoolTokenPrefix +:+ a = PoolTokenPrefix +:+ b → a = b.
Proof. unfold PoolTokenPrefix. rewrite !append_cons, !append_nil. congruence. Qed.

(** The one place where the invariant is re-established: a pool changed, its pool
    token's supply changed by [dl], and the module account by the difference of
    the reserves. *)
Lemma inv_update s n p p' b dl :
  swap_inv s → pairs s !! n = Some p →
  Denom (BasePooledCoin p') = Denom (BasePooledCoin p) →
  Denom (QuotePooledCoin p') = Denom (QuotePooledCoin p) →
  PoolTokenName p' = PoolTokenName p →
  (∀ d, Bank.GetSupplyByDenom b d =
    supply s d + if decide (d = PoolTokenName p) then dl else 0) →
  pool_ok (pool_supply s n + dl) p' →
  (∀ d, Bank.balance b swapAcc d = bal s swapAcc d + pair_amt d p' - pair_amt d p) →
  swap_inv (set_pairs (<[n := p']> (pairs s)) (set_bank b s)).
Proof.
  intros Hi Hp EB EQ EN Hsup Hok Hbal.
  destruct (inv_pairs s Hi n p Hp) as [(Hlt & Hname & Hpool) _].
  assert (∀ n', pool_supply (set_pairs (<[n := p']> (pairs s)) (set_bank b s)) n' =
    pool_supply s n' + if decide (n' = n) then dl else 0) as Hps.
  { intros n'. unfold pool_supply, supply at 1. cbn. rewrite Hsup, Hpool. f_equal.
    repeat case_decide; try done; subst; [by apply pool_name_inj in H|done]. }
  split; cbn.
  - intros n' q. rewrite Hps, lookup_insert. case_decide as En.
    + intros [= <-]. subst n'. rewrite decide_True by done. split; [|done].
      unfold pair_wf, TokenPairName in *. rewrite EB, EQ, EN. done.
    + intros Hq. rewrite decide_False by done. rewrite Z.add_0_r. by apply (inv_pairs s Hi).
  - intros n' Hn'. rewrite Hps. apply lookup_insert_None in Hn' as [Hn' ?].
    rewrite decide_False by done. rewrite (inv_none s Hi) by done. done.
  - intros d. unfold bal, reserves. cbn. rewrite msum_insert, Hp. cbn.
    pose proof (inv_backed s Hi d) as Hb. unfold reserves in Hb. rewrite Hbal. lia.
  - apply (inv_tokens s Hi).
  - apply (inv_fee s Hi).
Qed.

Lemma deposit_amounts_ok p msg s r s' :
  deposit_amounts p msg s = (Ok r, s') →
  s' = s ∧
  ((Amount (QuotePooledCoin p) = 0 ∧ Amount (BasePooledCoin p) = 0 ∧
    r = (Amount (MaxBaseAmount msg), Dec.unit)) ∨
   (0 < Amount (QuotePooledCoin p) ∧ 0 < Amount (BasePooledCoin p) ∧
    supply s (PoolTokenName p) ≠ 0 ∧ snd r ≠ 0 ∧
    ∃ q, Common.MulAndQuo (Amount (QuoteAmount msg)) (Amount (BasePooledCoin p))
           (Amount (QuotePooledCoin p)) = Ok q ∧
      fst r = (if decide (q = 0) then 1 else q) ∧
      Common.MulAndQuo (Amount (QuoteAmount msg)) (supply s (PoolTokenName p))
        (Amount (QuotePooledCoin p)) = Ok (snd r))).
Proof.
  unfold deposit_amounts. dec_simp. rewrite !Coins.CoinIsPositive_spec.
  destruct ((Amount (QuotePooledCoin p) =? 0) && (Amount (BasePooledCoin p) =? 0))%Z eqn:E0.
  { intros H. minv. split; [done|]. left. dec_bool. split; [done|]. split; [done|].
    f_equal. dec_simp. lia. }
  destruct ((0 <? Amount (BasePooledCoin p)) && (0 <? Amount (QuotePooledCoin p)))%Z eqn:E1;
    [|by intros ?%throw_ok].
  intros H. minv. split; [done|]. right. dec_bool. cbn [fst snd]. dec_simp. dec_bool.
  split; [lia|]. split; [lia|]. split; [done|]. split; [done|].
  eexists. split; [done|]. split; [|done].
  rewrite Dec.NewDecWithPrec_spec by (pose proof Dec.Precision_ge; lia).
  rewrite Z.sub_diag. match goal with |- context [(?a =? 0)%Z] => destruct (Z.eqb_spec a 0) end;
    [by rewrite decide_True|by rewrite decide_False].
Qed.

Lemma CoinAdd_inv a b c : Coins.CoinAdd a b = Some c →
  Denom a = Denom b ∧ c = MkCoin (Denom a) (Amount a + Amount b).
Proof.
  intros H. destruct (decide (Denom a = Denom b)) as [He|Hne].
  - rewrite Coins.CoinAdd_ok in H by done. by simplify_eq.
  - by rewrite Coins.CoinAdd_ne in H.
Qed.

Lemma add_valid msg : MsgAddLiquidity_ValidateBasic msg = Ok tt →
  0 < Amount (MaxBaseAmount msg) ∧ 0 < Amount (QuoteAmount msg).
Proof.
  unfold MsgAddLiquidity_ValidateBasic. rewrite !Coins.CoinIsPositive_spec.
  destruct (Token.Empty _); [done|]. destruct (Dec.IsNegative _); [done|].
  destruct (_ && _)%bool eqn:Ep; [|done]. intros _. dec_bool. lia.
Qed.

(** The symbol under which the pool token is minted. *)
Lemma pool_symbol s n p : swap_inv s → pairs s !! n = Some p →
  Token.Empty (Token.Owner (Token.GetTokenInfo (PoolTokenName p) (tok s))) = false →
  Token.Symbol (Token.GetTokenInfo (PoolTokenName p) (tok s)) = PoolTokenName p.
Proof.
  intros Hi Hp. unfold Token.GetTokenInfo.
  destruct (Token.tokens (tok s) !! PoolTokenName p) as [t|] eqn:Et; cbn; [|done].
  intros _. by apply (inv_tokens s Hi).
Qed.

(** What a deposit costs and gives. *)
Lemma deposit_cases s n p msg base l :
  swap_inv s → pairs s !! n = Some p → 0 < Amount (MaxBaseAmount msg) → 0 < Amount (QuoteAmount msg) →
  deposit_amounts p msg s = (Ok (base, l), s) →
  let B := Amount (BasePooledCoin p) in let Q := Amount (QuotePooledCoin p) in
  let T := pool_supply s n in let q := Amount (QuoteAmount msg) in
  0 < base ∧ 0 < l ∧
  ((B = 0 ∧ Q = 0 ∧ T = 0 ∧ base = Amount (MaxBaseAmount msg) ∧ l = Dec.unit) ∨
   (0 < B ∧ 0 < Q ∧ 0 < T ∧ base = Z.max 1 (q * B / Q) ∧ l = q * T / Q)).
Proof.
  intros Hi Hp Hmax Hq [_ Hd]%deposit_amounts_ok.
  destruct (inv_pairs s Hi n p Hp) as [(_ & _ & Hpool) Hok].
  pose proof unit_pos as Hu. unfold pool_supply in *. rewrite <-Hpool in *. cbn [fst snd] in *.
  destruct Hd as [(HQ & HB & Er)|(HQ & HB & HT & Hl & x & Hx & Eb & El)].
  - simplify_eq. split; [done|]. split; [done|]. left.
    destruct Hok as [(?&?&?)|(?&?&?)]; [done|lia].
  - destruct Hok as [(?&?&?)|(?&?&HT')]; [lia|].
    rewrite Common.MulAndQuo_floor in Hx, El by lia. simplify_eq.
    assert (0 ≤ Amount (QuoteAmount msg) * Amount (BasePooledCoin p) / Amount (QuotePooledCoin p))
      by (apply Z.div_pos; nia).
    assert (0 ≤ Amount (QuoteAmount msg) * supply s (PoolTokenName p) / Amount (QuotePooledCoin p))
      by (apply Z.div_pos; nia).
    split; [case_decide; lia|]. split; [lia|]. right. case_decide; repeat split; lia.
Qed.

(** A successful deposit, in integers. *)
Lemma add_ok ctx msg s s' :
  swap_inv s → MsgAddLiquidity_ValidateBasic msg = Ok tt → aSender msg ≠ swapAcc →
  handleMsgAddLiquidity ctx msg s = (Ok tt, s') →
  let n := add_pair_name msg in let q := Amount (QuoteAmount msg) in
  ∃ p base l b, pairs s !! n = Some p ∧
    let B := Amount (BasePooledCoin p) in let Q := Amount (QuotePooledCoin p) in
    let T := pool_supply s n in
    0 < q ∧ 0 < base ≤ Amount (MaxBaseAmount msg) ∧ 0 < l ∧ MinLiquidity msg ≤ l ∧
    ((B = 0 ∧ Q = 0 ∧ T = 0 ∧ base = Amount (MaxBaseAmount msg) ∧ l = Dec.unit) ∨
     (0 < B ∧ 0 < Q ∧ 0 < T ∧ base = Z.max 1 (q * B / Q) ∧ l = q * T / Q)) ∧
    s' = set_pairs (<[n := MkPair (MkCoin (Denom (QuotePooledCoin p)) (Q + q))
                            (MkCoin (Denom (BasePooledCoin p)) (B + base)) (PoolTokenName p)]> (pairs s))
           (set_bank b s) ∧
    (∀ d, Bank.GetSupplyByDenom b d = supply s d + if decide (d = PoolTokenName p) then l else 0) ∧
    (∀ d, Bank.balance b swapAcc d = bal s swapAcc d
       + coin_amt d (MkCoin (Denom (BasePooledCoin p)) base)
       + coin_amt d (MkCoin (Denom (QuotePooledCoin p)) q)).
Proof.
  intros Hi Hv Hsend H n q. unfold handleMsgAddLiquidity in H.
  apply bind_ok in H as ([] & s0 & [_ [_ ->]]%throw_if_ok & H).
  apply bind_ok in H as (p & s0 & [Hp ->]%GetSwapTokenPair_ok & H). fold n in Hp, H.
  apply bind_ok in H as (c0 & s0 & [Hc0%or_panic_ok ->]%lift_ok & H).
  apply Coins.NewDecCoinFromDec_inv in Hc0 as [-> _].
  apply bind_ok in H as (pt & s0 & (Ept & Hown & ->)%GetPoolTokenInfo_ok & H).
  apply bind_ok in H as ([base l] & s0 & Hdep & H).
  pose proof Hdep as [-> _]%deposit_amounts_ok.
  cbn [Denom Amount fst snd] in *.
  apply bind_ok in H as ([] & s0 & [Hmax [_ ->]]%throw_if_ok & H).
  apply bind_ok in H as ([] & s0 & [Hmin [_ ->]]%throw_if_ok & H).
  apply bind_ok in H as ([] & s1 & Hs1%wrap_err_ok & H).
  apply SendCoinsToPool_ok in Hs1 as (b1 & -> & [Hb1 Hsup1]).
  apply bind_ok in H as (q' & s0 & [Hq'%or_panic_ok ->]%lift_ok & H).
  apply bind_ok in H as (base' & s0 & [Hbase'%or_panic_ok ->]%lift_ok & H).
  apply bind_ok in H as ([] & s0 & ->%modify_ok & H).
  apply bind_ok in H as (pc & s0 & [Hpc%or_panic_ok ->]%lift_ok & H).
  apply Coins.NewDecCoinFromDec_inv in Hpc as [-> Hl0].
  apply wrap_err_ok, MintPool_ok in H as (b & -> & Hb & Hsup).
  apply CoinAdd_inv in Hq' as [EQ ->]. apply CoinAdd_inv in Hbase' as [EB ->].
  cbn [Denom Amount] in *. rewrite Ept in Hsup, Hown. rewrite (pool_symbol s n p) in Hsup by done.
  apply add_valid in Hv as [Hmx Hq].
  destruct (deposit_cases s n p msg base l) as (Hb0 & Hl & Hcases); [done..|].
  exists p, base, l, b. split; [done|]. cbv zeta. rewrite Dec.GT_spec in Hmax. rewrite Dec.LT_spec in Hmin.
  dec_bool. split; [done|]. split; [lia|]. split; [done|]. split; [done|]. split; [done|].
  rewrite EB. split; [by rewrite <-EB|]. split.
  - intros d. rewrite Hsup. unfold supply. cbn. rewrite Hsup1, amt_single. unfold coin_amt. cbn.
    repeat case_decide; naive_solver.
  - intros d. rewrite Hb, decide_False by done. unfold bal. cbn. rewrite Hb1.
    rewrite (decide_False (P := swapAcc = aSender msg)), decide_True by done.
    rewrite coinSort_amt by (repeat constructor; cbn; lia).
    rewrite !amt_cons, amt_nil. unfold coin_amt. cbn. rewrite EQ. unfold q. lia.
Qed.

Lemma remove_valid msg : MsgRemoveLiquidity_ValidateBasic msg = Ok tt → 0 < Liquidity msg.
Proof.
  unfold MsgRemoveLiquidity_ValidateBasic. rewrite Dec.IsPositive_spec.
  destruct (Token.Empty _); [done|]. destruct (Z.ltb_spec 0 (Liquidity msg)); [lia|done].
Qed.

(** A successful withdrawal, in integers. *)
Lemma remove_ok ctx msg s s' :
  swap_inv s → MsgRemoveLiquidity_ValidateBasic msg = Ok tt → rSender msg ≠ swapAcc →
  handleMsgRemoveLiquidity ctx msg s = (Ok tt, s') →
  let n := remove_pair_name msg in let l := Liquidity msg in
  ∃ p b, pairs s !! n = Some p ∧
    let B := Amount (BasePooledCoin p) in let Q := Amount (QuotePooledCoin p) in
    let T := pool_supply s n in
    0 < B ∧ 0 < Q ∧ 0 < l ≤ T ∧
    Amount (MinBaseAmount msg) ≤ B * l / T ∧ Amount (MinQuoteAmount msg) ≤ Q * l / T ∧
    s' = set_pairs (<[n := MkPair (MkCoin (Denom (QuotePooledCoin p)) (Q - Q * l / T))
                            (MkCoin (Denom (BasePooledCoin p)) (B - B * l / T)) (PoolTokenName p)]> (pairs s))
           (set_bank b s) ∧
    (∀ d, Bank.GetSupplyByDenom b d = supply s d + if decide (d = PoolTokenName p) then - l else 0) ∧
    (∀ d, Bank.balance b swapAcc d = bal s swapAcc d
       - coin_amt d (MkCoin (Denom (BasePooledCoin p)) (B * l / T))
       - coin_amt d (MkCoin (Denom (QuotePooledCoin p)) (Q * l / T))).
Proof.
  intros Hi Hv Hsend H n l. unfold handleMsgRemoveLiquidity in H.
  apply bind_ok in H as ([] & s0 & [_ [_ ->]]%throw_if_ok & H).
  apply bind_ok in H as (p & s0 & [Hp ->]%GetSwapTokenPair_ok & H). fold n in Hp, H.
  apply bind_ok in H as (T & s0 & [ET ->]%gets_ok & H).
  apply bind_ok in H as ([] & s0 & [HT [_ ->]]%throw_if_ok & H).
  destruct (inv_pairs s Hi n p Hp) as [(_ & _ & Hpool) Hok].
  apply remove_valid in Hv. fold l in HT, Hv, H.
  change (T = supply s (PoolTokenName p)) in ET. rewrite Dec.LT_spec in HT. dec_bool.
  unfold pool_supply in *. rewrite <-Hpool, <-ET in *.
  destruct Hok as [(?&?&?)|(HB & HQ & HT')]; [lia|].
  apply bind_ok in H as (bd & s0 & [Hbd ->]%lift_ok & H).
  apply bind_ok in H as (qd & s0 & [Hqd ->]%lift_ok & H).
  rewrite Common.MulAndQuo_floor in Hbd, Hqd by lia. injection Hbd as <-. injection Hqd as <-.
  apply bind_ok in H as (ba & s0 & [Hba%or_panic_ok ->]%lift_ok & H).
  apply Coins.NewDecCoinFromDec_inv in Hba as [-> Hb0].
  apply bind_ok in H as (qa & s0 & [Hqa%or_panic_ok ->]%lift_ok & H).
  apply Coins.NewDecCoinFromDec_inv in Hqa as [-> Hq0].
  apply bind_ok in H as (lt1 & s0 & [Hlt1%or_panic_ok ->]%lift_ok & H).
  apply bind_ok in H as ([] & s0 & [-> [_ ->]]%throw_if_ok & H).
  apply bind_ok in H as (lt2 & s0 & [Hlt2%or_panic_ok ->]%lift_ok & H).
  apply bind_ok in H as ([] & s0 & [-> [_ ->]]%throw_if_ok & H).
  apply bind_ok in H as ([] & s1 & Hs1%wrap_err_ok & H).
  apply SendCoinsFromPool_ok in Hs1 as (b1 & -> & [Hb1 Hsup1] & _).
  apply bind_ok in H as (q' & s0 & [Hq'%or_panic_ok ->]%lift_ok & H).
  apply Coins.CoinSub_inv in Hq' as (_ & _ & ->).
  apply bind_ok in H as (base' & s0 & [Hbase'%or_panic_ok ->]%lift_ok & H).
  apply Coins.CoinSub_inv in Hbase' as (_ & _ & ->).
  apply bind_ok in H as ([] & s0 & ->%modify_ok & H).
  apply bind_ok in H as (pc & s0 & [Hpc%or_panic_ok ->]%lift_ok & H).
  apply Coins.NewDecCoinFromDec_inv in Hpc as [-> _].
  apply wrap_err_ok, BurnPool_ok in H as (b & -> & Hb & Hsup). cbn [Denom Amount] in *.
  exists p, b. split; [done|]. cbv zeta. split; [done|]. split; [done|]. split; [lia|].
  assert (∀ c m, Coins.CoinIsLT c m = Some false → Amount m ≤ Amount c) as Hge.
  { intros c m. destruct (decide (Denom c = Denom m)).
    - rewrite Coins.CoinIsLT_ok by done. intros [= ?]. dec_bool. lia.
    - by rewrite Coins.CoinIsLT_ne. }
  apply Hge in Hlt1, Hlt2. split; [done|]. split; [done|]. split; [done|]. split.
  - intros d. rewrite Hsup. unfold supply. cbn. rewrite Hsup1, amt_single. unfold coin_amt. cbn.
    repeat case_decide; subst; try done; lia.
  - intros d. rewrite Hb, decide_False by done. unfold bal. cbn. rewrite Hb1.
    rewrite (decide_True (P := swapAcc = swapAcc)), decide_False by done.
    rewrite coinSort_amt by (repeat constructor; cbn; lia).
    rewrite !amt_cons, amt_nil. lia.
Qed.

(** The pool after a swap: what was sold comes in, what was bought goes out. *)
Definition swapped (p : SwapTokenPair) (buy : SysCoin) (msg : MsgTokenToToken) : SwapTokenPair :=
  let sold := Amount (SoldTokenAmount msg) in
  if String.ltb (Denom (MinBoughtTokenAmount msg)) (Denom (SoldTokenAmount msg))
  then MkPair (MkCoin (Denom (QuotePooledCoin p)) (Amount (QuotePooledCoin p) + sold))
         (MkCoin (Denom (BasePooledCoin p)) (Amount (BasePooledCoin p) - Amount buy)) (PoolTokenName p)
  else MkPair (MkCoin (Denom (QuotePooledCoin p)) (Amount (QuotePooledCoin p) - Amount buy))
         (MkCoin (Denom (BasePooledCoin p)) (Amount (BasePooledCoin p) + sold)) (PoolTokenName p).

(** The pool trades exactly the two tokens of the message. *)
Definition trades (p : SwapTokenPair) (buy : SysCoin) (msg : MsgTokenToToken) : Prop :=
  if String.ltb (Denom (MinBoughtTokenAmount msg)) (Denom (SoldTokenAmount msg))
  then Denom (QuotePooledCoin p) = Denom (SoldTokenAmount msg) ∧ Denom (BasePooledCoin p) = Denom buy
  else Denom (QuotePooledCoin p) = Denom buy ∧ Denom (BasePooledCoin p) = Denom (SoldTokenAmount msg).

Lemma swap_step_ok p buy msg s s' :
  swapTokenNativeToken p buy msg s = (Ok tt, s') →
  trades p buy msg ∧
  ∃ b, s' = set_pairs (<[swap_pair_name msg := swapped p buy msg]> (pairs s)) (set_bank b s) ∧
    (∀ d, Bank.GetSupplyByDenom b d = supply s d) ∧
    (∀ a d, Bank.balance b a d = bal s a d
      - (if decide (a = tSender msg) then coin_amt d (SoldTokenAmount msg) else 0)
      + (if decide (a = swapAcc) then coin_amt d (SoldTokenAmount msg) - coin_amt d buy else 0)
      + (if decide (a = Recipient msg) then coin_amt d buy else 0)).
Proof.
  unfold swapTokenNativeToken, trades, swapped. intros H.
  apply bind_ok in H as ([] & s1 & Hs1%wrap_err_ok & H).
  apply SendCoinsToPool_ok in Hs1 as (b1 & -> & [Hb1 Hsup1]).
  apply bind_ok in H as ([] & s2 & Hs2%wrap_err_ok & H).
  apply SendCoinsFromPool_ok in Hs2 as (b2 & -> & [Hb2 Hsup2] & _).
  assert (∀ a d, Bank.balance b2 a d = bal s a d
      - (if decide (a = tSender msg) then coin_amt d (SoldTokenAmount msg) else 0)
      + (if decide (a = swapAcc) then coin_amt d (SoldTokenAmount msg) - coin_amt d buy else 0)
      + (if decide (a = Recipient msg) then coin_amt d buy else 0)) as Hb.
  { intros a d. rewrite Hb2. cbn. rewrite Hb1, !amt_single. unfold bal. repeat case_decide; lia. }
  assert (∀ d, Bank.GetSupplyByDenom b2 d = supply s d) as Hs
    by (intros d; rewrite Hsup2; apply Hsup1).
  destruct (String.ltb _ _).
  all: apply bind_ok in H as (p' & s3 & Hp' & ->%modify_ok); minv.
  all: repeat match goal with
    | Hc : Coins.CoinAdd _ _ = Some _ |- _ => apply CoinAdd_inv in Hc as [? ->]
    | Hc : Coins.CoinSub _ _ = Some _ |- _ => apply Coins.CoinSub_inv in Hc as (? & ? & ->) end.
  all: split; [done|]; exists b2; done.
Qed.

(** The price, for the reserves of the pool. *)
Lemma buy_ok p sold denom fee buy :
  0 < Amount (BasePooledCoin p) → 0 < Amount (QuotePooledCoin p) → 0 < Amount sold →
  0 ≤ fee ≤ Dec.unit →
  CalculateTokenToBuy p sold denom (MkParams fee) = Ok buy →
  Denom buy = denom ∧ 0 ≤ Amount buy ∧
  let '(inR, outR) := if String.ltb denom (Denom sold)
    then (Amount (QuotePooledCoin p), Amount (BasePooledCoin p))
    else (Amount (BasePooledCoin p), Amount (QuotePooledCoin p)) in
  Amount buy < outR ∧ inR * outR ≤ (inR + Amount sold) * (outR - Amount buy).
Proof.
  intros HB HQ Hs Hf. unfold CalculateTokenToBuy. cbn [FeeRate]. destruct (String.ltb _ _);
    intros H; minv.
  all: match goal with Hg : GetInputPrice ?a ?i ?o ?f = Ok _ |- _ =>
    destruct (price_facts a i o f) as (out & Eo & Hr & Hk); [lia..|];
    rewrite Hg in Eo; injection Eo as -> end.
  all: match goal with Hc : Coins.NewDecCoinFromDec _ _ = Some _ |- _ =>
    apply Coins.NewDecCoinFromDec_inv in Hc as [-> ?] end; cbn; repeat split; lia.
Qed.

Definition product (p : SwapTokenPair) : Z :=
  Amount (BasePooledCoin p) * Amount (QuotePooledCoin p).

Lemma swap_step_inv p buy msg s s' :
  swap_inv s → pairs s !! swap_pair_name msg = Some p → empty_pool p = false →
  CalculateTokenToBuy p (SoldTokenAmount msg) (Denom (MinBoughtTokenAmount msg)) (sparams s) = Ok buy →
  0 < Amount (SoldTokenAmount msg) → tSender msg ≠ swapAcc → Recipient msg ≠ swapAcc →
  swapTokenNativeToken p buy msg s = (Ok tt, s') →
  swap_inv s' ∧ product p ≤ product (swapped p buy msg).
Proof.
  intros Hi Hp He Hbuy Hs Hsend Hrec Hstep.
  destruct (inv_pairs s Hi _ _ Hp) as [Hwf Hok].
  assert (0 < Amount (BasePooledCoin p) ∧ 0 < Amount (QuotePooledCoin p) ∧
    0 < pool_supply s (swap_pair_name msg)) as (HB & HQ & HT).
  { unfold empty_pool in He. rewrite !Coins.CoinIsZero_spec in He. dec_bool.
    destruct Hok as [(?&?&?)|?]; [lia|done]. }
  pose proof (inv_fee s Hi) as Hf. destruct (sparams s) as [fee]. cbn in Hf.
  apply buy_ok in Hbuy as (Ed & Hb0 & Hr); [|done..].
  destruct (swap_step_ok _ _ _ _ _ Hstep) as [Ht (b & -> & Hsup & Hbal)].
  assert (Denom (BasePooledCoin (swapped p buy msg)) = Denom (BasePooledCoin p) ∧
    Denom (QuotePooledCoin (swapped p buy msg)) = Denom (QuotePooledCoin p) ∧
    PoolTokenName (swapped p buy msg) = PoolTokenName p) as (E1 & E2 & E3)
    by (unfold swapped; by destruct (String.ltb _ _)).
  assert (pool_ok (pool_supply s (swap_pair_name msg) + 0) (swapped p buy msg) ∧
    product p ≤ product (swapped p buy msg) ∧
    ∀ d, pair_amt d (swapped p buy msg) - pair_amt d p =
      coin_amt d (SoldTokenAmount msg) - coin_amt d buy) as (Hok' & Hprod & Hpa).
  { unfold trades, product, swapped, pair_amt, coin_amt, pool_ok in *.
    destruct (String.ltb _ _); destruct Ht as [Ea Eb]; cbn; rewrite Ea, Eb;
      (split; [right; lia|]); (split; [lia|]); intros d; repeat case_decide; lia. }
  split; [|done]. apply (inv_update s _ p _ b 0); [done..| |done|].
  - intros d. rewrite Hsup. case_decide; lia.
  - intros d. rewrite Hbal, decide_False, decide_True, decide_False by done.
    specialize (Hpa d). lia.
Qed.

Lemma pair_name_comm a b : GetSwapTokenPairName a b = GetSwapTokenPairName b a.
Proof.
  unfold GetSwapTokenPairName, GetBaseQuoteTokenName.
  destruct (decide (a = b)) as [->|Hne]; [done|].
  destruct (String.ltb a b) eqn:E1, (String.ltb b a) eqn:E2; try done.
  - pose proof (str_ltb_trans _ _ _ E1 E2) as H. by apply str_ltb_spec in H as [_ []].
  - by rewrite (str_ltb_total a b) in E2.
Qed.

Lemma swap_valid msg : MsgTokenToToken_ValidateBasic msg = Ok tt →
  0 < Amount (SoldTokenAmount msg) ∧
  Denom (SoldTokenAmount msg) ≠ Denom (MinBoughtTokenAmount msg).
Proof.
  unfold MsgTokenToToken_ValidateBasic. rewrite Coins.CoinIsPositive_spec.
  do 2 (destruct (Token.Empty _); [done|]). destruct (Z.ltb_spec 0 (Amount (SoldTokenAmount msg))); [|done].
  do 2 (destruct (Coins.CoinIsValid _); [|done]). cbn [negb].
  unfold GetBaseQuoteTokenName, ValidateBaseAndQuoteAmount. intros Hv. split; [done|].
  intros E'. rewrite E' in Hv. destruct (String.ltb _ _) eqn:El;
    [by apply str_ltb_spec in El as [_ []]|]. by rewrite El, String.eqb_refl in Hv.
Qed.

Lemma swapToken_inv ctx msg s s' :
  swap_inv s → MsgTokenToToken_ValidateBasic msg = Ok tt → tSender msg ≠ swapAcc →
  Recipient msg ≠ swapAcc → swapToken ctx msg s = (Ok tt, s') → swap_inv s'.
Proof.
  intros Hi [Hs _]%swap_valid Hsend Hrec H. unfold swapToken in H.
  apply bind_ok in H as (ok & s0 & [_ ->]%gets_ok & H).
  apply bind_ok in H as ([] & s0 & [_ [_ ->]]%throw_if_ok & H).
  apply bind_ok in H as ([] & s0 & [_ [_ ->]]%throw_if_ok & H).
  apply bind_ok in H as (p & s0 & [Hp ->]%GetSwapTokenPair_ok & H).
  apply bind_ok in H as ([] & s0 & [He [_ ->]]%throw_if_ok & H).
  apply bind_ok in H as (params & s0 & [-> ->]%gets_ok & H).
  apply bind_ok in H as (buy & s0 & [Hbuy ->]%lift_ok & H).
  apply bind_ok in H as ([] & s0 & [_ [_ ->]]%throw_if_ok & H).
  apply bind_ok in H as ([] & s0 & [_ [_ ->]]%throw_if_ok & H).
  by apply (swap_step_inv p buy msg s s').
Qed.

(** A successful route through the native token, as its two swaps. *)
Lemma router_ok ctx msg s s' : swapTokenByRouter ctx msg s = (Ok tt, s') →
  ∃ p1 p2 native tokenNative tokenBuy s1,
    let msgOne := MkMsgTokenToToken (SoldTokenAmount msg) native (tDeadline msg)
                    (Recipient msg) (tSender msg) in
    let msgTwo := MkMsgTokenToToken tokenNative (MinBoughtTokenAmount msg) (tDeadline msg)
                    (Recipient msg) (tSender msg) in
    Denom native = Coins.DefaultBondDenom ∧
    pairs s !! swap_pair_name msgOne = Some p1 ∧ empty_pool p1 = false ∧
    pairs s !! GetSwapTokenPairName (Denom (MinBoughtTokenAmount msg)) Coins.DefaultBondDenom = Some p2 ∧
    empty_pool p2 = false ∧
    CalculateTokenToBuy p1 (SoldTokenAmount msg) (Denom native) (sparams s) = Ok tokenNative ∧
    Coins.CoinIsZero tokenNative = false ∧
    CalculateTokenToBuy p2 tokenNative (Denom (MinBoughtTokenAmount msg)) (sparams s) = Ok tokenBuy ∧
    Amount (MinBoughtTokenAmount msg) ≤ Amount tokenBuy ∧
    swapTokenNativeToken p1 tokenNative msgOne s = (Ok tt, s1) ∧
    swapTokenNativeToken p2 tokenBuy msgTwo s1 = (Ok tt, s').
Proof.
  unfold swapTokenByRouter. intros H.
  apply bind_ok in H as ([] & s0 & [_ [_ ->]]%throw_if_ok & H).
  apply bind_ok in H as (ok & s0 & [_ ->]%gets_ok & H).
  apply bind_ok in H as ([] & s0 & [_ [_ ->]]%throw_if_ok & H).
  apply bind_ok in H as (p1 & s0 & [Hp1 ->]%wrap_err_ok%GetSwapTokenPair_ok & H).
  apply bind_ok in H as ([] & s0 & [He1 [_ ->]]%throw_if_ok & H).
  apply bind_ok in H as (p2 & s0 & [Hp2 ->]%wrap_err_ok%GetSwapTokenPair_ok & H).
  apply bind_ok in H as ([] & s0 & [He2 [_ ->]]%throw_if_ok & H).
  apply bind_ok in H as (native & s0 & [Hn%or_panic_ok ->]%lift_ok & H).
  apply Coins.NewDecCoinFromDec_inv in Hn as [-> _].
  apply bind_ok in H as (params & s0 & [-> ->]%gets_ok & H).
  apply bind_ok in H as (tokenNative & s0 & [Hb1 ->]%lift_ok & H).
  apply bind_ok in H as ([] & s0 & [Hz1 [_ ->]]%throw_if_ok & H).
  apply bind_ok in H as (tokenBuy & s0 & [Hb2 ->]%lift_ok & H).
  apply bind_ok in H as ([] & s0 & [_ [_ ->]]%throw_if_ok & H).
  apply bind_ok in H as ([] & s0 & [Hmin [_ ->]]%throw_if_ok & H).
  apply bind_ok in H as ([] & s1 & Hs1 & H). rewrite Dec.LT_spec in Hmin. dec_bool.
  exists p1, p2, (MkCoin Coins.DefaultBondDenom (Dec.MustNewDecFromStr "0")), tokenNative, tokenBuy, s1. split; [done|]. split; [|done].
  unfold swap_pair_name. cbn. by rewrite pair_name_comm.
Qed.

Lemma buy_denom p sold denom params buy : CalculateTokenToBuy p sold denom params = Ok buy →
  Denom buy = denom ∧ 0 ≤ Amount buy.
Proof.
  unfold CalculateTokenToBuy. intros H. destruct (String.ltb _ _); minv.
  all: match goal with Hc : Coins.NewDecCoinFromDec _ _ = Some _ |- _ =>
    by apply Coins.NewDecCoinFromDec_inv in Hc as [-> ?] end.
Qed.

Lemma router_inv ctx msg s s' :
  swap_inv s → MsgTokenToToken_ValidateBasic msg = Ok tt → tSender msg ≠ swapAcc →
  Recipient msg ≠ swapAcc → swapTokenByRouter ctx msg s = (Ok tt, s') → swap_inv s'.
Proof.
  intros Hi [Hs Hne]%swap_valid Hsend Hrec H.
  apply router_ok in H as (p1 & p2 & nat & tn & tb & s1 & En & Hp1 & He1 & Hp2 & He2 & Hb1 & Hz & Hb2
    & _ & Hs1 & Hs2).
  set (m1 := MkMsgTokenToToken (SoldTokenAmount msg) nat _ _ _) in *.
  set (m2 := MkMsgTokenToToken tn _ _ _ _) in *.
  destruct (swap_step_inv p1 tn m1 s s1) as [Hi1 _]; [done..|].
  destruct (swap_step_ok _ _ _ _ _ Hs1) as [Ht1 (b1 & -> & _ & _)].
  destruct (swap_step_ok _ _ _ _ _ Hs2) as [Ht2 _].
  assert (Denom tn = Coins.DefaultBondDenom ∧ 0 ≤ Amount tn) as [Etn Hn0].
  { rewrite <-En. by eapply buy_denom. }
  assert (Denom tb = Denom (MinBoughtTokenAmount msg)) as Etb by (by eapply buy_denom).
  rewrite Coins.CoinIsZero_spec in Hz. dec_bool.
  assert (swap_pair_name m2 =
    GetSwapTokenPairName (Denom (MinBoughtTokenAmount msg)) Coins.DefaultBondDenom) as En2
    by (unfold swap_pair_name; cbn; by rewrite Etn).
  assert (swap_pair_name m1 ≠ swap_pair_name m2) as Hnn.
  { intros Enn. rewrite En2 in Enn. rewrite <-Enn, Hp1 in Hp2. injection Hp2 as <-.
    destruct (inv_pairs s Hi _ _ Hp1) as [(Hlt & _) _]. apply str_ltb_spec in Hlt as [_ Hlt].
    unfold trades in Ht1, Ht2. cbn in Ht1, Ht2.
    destruct (String.ltb (Denom nat) _), (String.ltb _ (Denom tn)), Ht1, Ht2; congruence. }
  destruct (swap_step_inv p2 tb m2 _ s' Hi1) as [Hi2 _]; [|done|done|cbn; lia|done..].
  cbn. rewrite lookup_insert_ne by done. by rewrite En2.
Qed.

Lemma add_inv ctx msg s s' :
  swap_inv s → MsgAddLiquidity_ValidateBasic msg = Ok tt → aSender msg ≠ swapAcc →
  handleMsgAddLiquidity ctx msg s = (Ok tt, s') → swap_inv s'.
Proof.
  intros Hi Hv Hsend H. pose proof unit_pos.
  destruct (add_ok ctx msg s s' Hi Hv Hsend H) as
    (p & base & l & b & Hp & Hq & Hbase & Hl & _ & Hc & -> & Hsup & Hbal).
  apply (inv_update s _ p _ b l); try done.
  - right. cbn. destruct Hc as [(?&?&?&?&?)|(?&?&?&?&?)]; lia.
  - intros d. rewrite Hbal. unfold pair_amt, coin_amt. cbn. repeat case_decide; lia.
Qed.

Lemma remove_inv ctx msg s s' :
  swap_inv s → MsgRemoveLiquidity_ValidateBasic msg = Ok tt → rSender msg ≠ swapAcc →
  handleMsgRemoveLiquidity ctx msg s = (Ok tt, s') → swap_inv s'.
Proof.
  intros Hi Hv Hsend H.
  destruct (remove_ok ctx msg s s' Hi Hv Hsend H) as
    (p & b & Hp & HB & HQ & Hl & _ & _ & -> & Hsup & Hbal).
  apply (inv_update s _ p _ b (- Liquidity msg)); try done.
  - set (T := pool_supply s _) in *. cbn. unfold pool_ok. cbn.
    destruct (decide (Liquidity msg = T)) as [->|].
    + left. rewrite !Z.div_mul by lia. lia.
    + right. pose proof (div_bounds (Amount (BasePooledCoin p) * Liquidity msg) T ltac:(lia)).
      pose proof (div_bounds (Amount (QuotePooledCoin p) * Liquidity msg) T ltac:(lia)). nia.
  - intros d. rewrite Hbal. unfold pair_amt, coin_amt. cbn. repeat case_decide; lia.
Qed.

Lemma IsTokenExist_ok t s s' : IsTokenExist t s = (Ok tt, s') → s' = s.
Proof. unfold IsTokenExist. intros H. by minv. Qed.

Lemma GetSwapTokenPair_err n s e s' :
  GetSwapTokenPair n s = (Err e, s') → pairs s !! n = None ∧ s' = s.
Proof. unfold GetSwapTokenPair. destruct (pairs s !! n); intros; by simplify_eq. Qed.

Lemma GetPoolTokenInfo_err n s e s' : GetPoolTokenInfo n s = (Err e, s') → s' = s.
Proof. unfold GetPoolTokenInfo. destruct (Token.Empty _); intros; by simplify_eq. Qed.

Lemma NewToken_ok t s s' : Token.NewToken t s = (Ok tt, s') →
  Token.bank s' = Token.bank s ∧ Token.tokens s' = <[Token.Symbol t := t]> (Token.tokens s).
Proof. unfold Token.NewToken. intros H. by minv. Qed.

Lemma create_valid msg : MsgCreateExchange_ValidateBasic msg = Ok tt → Token0Name msg ≠ Token1Name msg.
Proof.
  unfold MsgCreateExchange_ValidateBasic. destruct (Token.Empty _); [done|]. intros H. minv.
  destruct (String.eqb_spec (Token0Name msg) (Token1Name msg)); [done|done].
Qed.

(** A new pool: ordered names, no reserves, and the names the store uses. *)
Lemma NewSwapPair_ok t0 t1 p : t0 ≠ t1 → NewSwapPair t0 t1 = Ok p →
  String.ltb (Denom (BasePooledCoin p)) (Denom (QuotePooledCoin p)) = true ∧
  GetSwapTokenPairName t0 t1 = TokenPairName p ∧
  Amount (BasePooledCoin p) = 0 ∧ Amount (QuotePooledCoin p) = 0 ∧
  PoolTokenName p = PoolTokenPrefix +:+ TokenPairName p.
Proof.
  intros Hne. unfold NewSwapPair, GetPoolTokenName, GetSwapTokenPairName, TokenPairName, GetBaseQuoteTokenName.
  destruct (String.ltb t0 t1) eqn:El; intros H; minv.
  all: repeat match goal with Hc : Coins.NewDecCoinFromDec _ _ = Some _ |- _ =>
    apply Coins.NewDecCoinFromDec_inv in Hc as [-> _] end; cbn; rewrite Dec.ZeroDec_spec.
  - done.
  - split; [by apply str_ltb_total|done].
Qed.

Lemma create_inv msg s s' :
  swap_inv s → MsgCreateExchange_ValidateBasic msg = Ok tt →
  handleMsgCreateExchange msg s = (Ok tt, s') → swap_inv s'.
Proof.
  intros Hi Hv H. unfold handleMsgCreateExchange in H.
  apply bind_ok in H as ([] & s0 & ->%IsTokenExist_ok & H).
  apply bind_ok in H as ([] & s0 & ->%IsTokenExist_ok & H).
  apply bind_ok in H as (r & s0 & Hr%catch_ok & H).
  apply bind_ok in H as ([] & s1 & [Er [_ ->]]%throw_if_ok & H).
  destruct r as [?|e]; [done|]. apply GetSwapTokenPair_err in Hr as [Hnone ->].
  apply bind_ok in H as (r & s0 & Hr%catch_ok & H).
  apply bind_ok in H as ([] & s1 & [Er' [_ ->]]%throw_if_ok & H).
  destruct r as [?|e']; [done|]. apply GetPoolTokenInfo_err in Hr as ->.
  apply bind_ok in H as ([] & s1 & (t1 & Ht & ->)%zoom_ok & H).
  apply NewToken_ok in Ht as [Hb1 Ht1].
  apply bind_ok in H as (p & s2 & [Hp ->]%lift_ok & ->%modify_ok).
  apply NewSwapPair_ok in Hp as (Hlt & Ename & HaB & HaQ & Hpn); [|by apply create_valid].
  rewrite <-Ename in Hpn. change (GetSwapTokenPairName _ _) with (create_pair_name msg) in Ename, Hpn.
  set (name := create_pair_name msg) in *.
  assert (∀ n, pool_supply (set_pairs (<[name := p]> (pairs s)) (set_tok t1 s)) n = pool_supply s n)
    as Hps by (intros n; unfold pool_supply, supply, bank; cbn; by rewrite Hb1).
  split; cbn.
  - intros n q. rewrite Hps, lookup_insert. case_decide as En; [|apply (inv_pairs s Hi)].
    intros [= <-]. subst n. split; [done|]. left. split; [done|]. split; [done|].
    by apply (inv_none s Hi).
  - intros n [Hn _]%lookup_insert_None. rewrite Hps. by apply (inv_none s Hi).
  - intros d. unfold reserves, bal, bank. cbn. rewrite msum_insert, Hnone, Hb1. cbn.
    pose proof (inv_backed s Hi d) as Hbk. unfold reserves, bal, bank in Hbk.
    assert (pair_amt d p = 0) by (unfold pair_amt, coin_amt; repeat case_decide; lia). lia.
  - intros k t. rewrite Ht1, lookup_insert. case_decide; [|apply (inv_tokens s Hi)].
    intros [= <-]. done.
  - apply (inv_fee s Hi).
Qed.

(** The accounts a message names. *)
Definition parties (msg : Msg) : list AccAddress :=
  match msg with
  | MAddLiquidity m => [aSender m]
  | MRemoveLiquidity m => [rSender m]
  | MCreateExchange m => [eSender m]
  | MTokenToToken m => [tSender m; Recipient m]
  | MOther => []
  end.

(** ** Properties *)

(** C8  Every message that passed its stateless checks keeps the pools sound: each
    stored pair is ordered and named after its tokens, a pool is either empty
    without pool tokens or has both reserves and pool tokens, and the reserves of
    all pools are covered by the coins of the module account. *)
Theorem swap_invariant ctx msg s s' :
  swap_inv s → ValidateBasic msg = Ok tt → Forall (λ a, a ≠ swapAcc) (parties msg) →
  NewHandler ctx msg s = (Ok tt, s') → swap_inv s'.
Proof.
  intros Hi Hv Hp H. destruct msg as [m|m|m|m|]; cbn in *.
  - inversion Hp. by eapply add_inv.
  - inversion Hp. by eapply remove_inv.
  - by eapply create_inv.
  - apply Forall_cons in Hp as [Hs [Hr _]%Forall_cons]. unfold handleMsgTokenToToken in H.
    apply bind_ok in H as (r & s0 & Hr'%catch_ok & H). destruct r as [p|e].
    + apply GetSwapTokenPair_ok in Hr' as [_ ->]. by eapply swapToken_inv.
    + apply GetSwapTokenPair_err in Hr' as [_ ->]. by eapply router_inv.
  - by apply throw_ok in H.
Qed.

(** The price of a swap: for any fee rate between 0 and 1 the computation
    returns, pays out less than the reserve, and leaves a product of reserves at
    least as large as before. *)
Theorem GetInputPrice_constant_product a inR outR fee :
  0 ≤ a → 0 < inR → 0 < outR → 0 ≤ fee ≤ Dec.unit →
  ∃ out, GetInputPrice a inR outR fee = Ok out ∧ 0 ≤ out < outR ∧
    inR * outR ≤ (inR + a) * (outR - out).
Proof. apply price_facts. Qed.

(** C25  A direct swap charges the sender exactly the amount sold, pays the
    recipient at least the minimum it asked for, and does not lower the product of
    the pool's reserves. *)
Theorem swap_slippage ctx msg s s' p :
  swap_inv s → MsgTokenToToken_ValidateBasic msg = Ok tt → tSender msg ≠ swapAcc →
  Recipient msg ≠ swapAcc → pairs s !! swap_pair_name msg = Some p →
  handleMsgTokenToToken ctx msg s = (Ok tt, s') →
  ∃ p' bought, pairs s' !! swap_pair_name msg = Some p' ∧ product p ≤ product p' ∧
    Amount (MinBoughtTokenAmount msg) ≤ bought ∧
    ∀ a d, a ≠ swapAcc → bal s' a d = bal s a d
      - (if decide (a = tSender msg) then coin_amt d (SoldTokenAmount msg) else 0)
      + (if decide (a = Recipient msg)
         then coin_amt d (MkCoin (Denom (MinBoughtTokenAmount msg)) bought) else 0).
Proof.
  intros Hi [Hs _]%swap_valid Hsend Hrec Hp H. unfold handleMsgTokenToToken in H.
  apply bind_ok in H as (r & s0 & Hr'%catch_ok & H). destruct r as [p0|e].
  2:{ apply GetSwapTokenPair_err in Hr' as [Hn _]. congruence. }
  apply GetSwapTokenPair_ok in Hr' as [_ ->]. unfold swapToken in H.
  apply bind_ok in H as (ok & s0 & [_ ->]%gets_ok & H).
  apply bind_ok in H as ([] & s0 & [_ [_ ->]]%throw_if_ok & H).
  apply bind_ok in H as ([] & s0 & [_ [_ ->]]%throw_if_ok & H).
  apply bind_ok in H as (p1 & s0 & [Hp1 ->]%GetSwapTokenPair_ok & H).
  rewrite Hp in Hp1. injection Hp1 as <-.
  apply bind_ok in H as ([] & s0 & [He [_ ->]]%throw_if_ok & H).
  apply bind_ok in H as (params & s0 & [-> ->]%gets_ok & H).
  apply bind_ok in H as (buy & s0 & [Hbuy ->]%lift_ok & H).
  apply bind_ok in H as ([] & s0 & [_ [_ ->]]%throw_if_ok & H).
  apply bind_ok in H as ([] & s0 & [Hmin [_ ->]]%throw_if_ok & H).
  rewrite Dec.LT_spec in Hmin. dec_bool.
  destruct (swap_step_inv p buy msg s s') as [_ Hprod]; [done..|].
  destruct (swap_step_ok _ _ _ _ _ H) as [_ (b & -> & _ & Hbal)].
  destruct (buy_denom _ _ _ _ _ Hbuy) as [Ed _].
  exists (swapped p buy msg), (Amount buy). cbn. rewrite lookup_insert_eq.
  split; [done|]. split; [done|]. split; [done|]. intros a d Ha. unfold bal at 1. cbn.
  rewrite Hbal, (decide_False (P := a = swapAcc)) by done. rewrite <-Ed. destruct buy. cbn. lia.
Qed.

(** Depositing and at once withdrawing the liquidity received never gives the
    depositor more of either token: the pool ends with at least its reserves of
    before. *)
Theorem deposit_withdraw_no_profit ctx madd mrem s s1 s2 p p2 :
  swap_inv s → MsgAddLiquidity_ValidateBasic madd = Ok tt →
  MsgRemoveLiquidity_ValidateBasic mrem = Ok tt →
  aSender madd ≠ swapAcc → rSender mrem ≠ swapAcc →
  remove_pair_name mrem = add_pair_name madd →
  pairs s !! add_pair_name madd = Some p →
  handleMsgAddLiquidity ctx madd s = (Ok tt, s1) →
  Liquidity mrem = pool_supply s1 (add_pair_name madd) - pool_supply s (add_pair_name madd) →
  handleMsgRemoveLiquidity ctx mrem s1 = (Ok tt, s2) →
  pairs s2 !! add_pair_name madd = Some p2 →
  Amount (BasePooledCoin p) ≤ Amount (BasePooledCoin p2) ∧
  Amount (QuotePooledCoin p) ≤ Amount (QuotePooledCoin p2) ∧
  pool_supply s2 (add_pair_name madd) = pool_supply s (add_pair_name madd).
Proof.
  intros Hi Hva Hvr Hsa Hsr En Hp Ha Hl Hr Hp2.
  assert (swap_inv s1) as Hi1 by (by eapply add_inv).
  destruct (add_ok ctx madd s s1 Hi Hva Hsa Ha) as
    (p0 & base & l & b & Hp0 & Hq & Hbase & Hl0 & _ & Hc & -> & Hsup & _).
  rewrite Hp in Hp0. injection Hp0 as <-.
  destruct (remove_ok ctx mrem _ s2 Hi1 Hvr Hsr Hr) as
    (p1 & b2 & Hp1 & _ & _ & Hl1 & _ & _ & -> & Hsup2 & _).
  rewrite En in *. cbn in Hp1, Hp2. rewrite lookup_insert_eq in Hp1, Hp2. injection Hp1 as <-.
  injection Hp2 as <-. destruct (inv_pairs s Hi _ _ Hp) as [(_ & _ & Hpn) _].
  set (n := add_pair_name madd) in *.
  assert (pool_supply (set_pairs (<[n := MkPair (MkCoin (Denom (QuotePooledCoin p))
      (Amount (QuotePooledCoin p) + Amount (QuoteAmount madd)))
      (MkCoin (Denom (BasePooledCoin p)) (Amount (BasePooledCoin p) + base)) (PoolTokenName p)]> (pairs s))
      (set_bank b s)) n = pool_supply s n + l) as Hps.
  { unfold pool_supply, supply at 1. cbn. by rewrite Hsup, Hpn, decide_True. }
  rewrite Hps in *. cbn in *. replace (Liquidity mrem) with l in * by lia.
  split; [|split].
  - destruct Hc as [(?&?&->&?&?)|(HB&HQ&HT&Eb&El)]; [rewrite Z.add_0_l, Z.div_mul by lia; lia|].
    destruct (deposit_withdraw _ _ _ _ base l HB HQ HT Hq ltac:(lia) El Hl0) as [H1 _]. lia.
  - destruct Hc as [(?&?&->&?&?)|(HB&HQ&HT&Eb&El)]; [rewrite Z.add_0_l, Z.div_mul by lia; lia|].
    destruct (deposit_withdraw _ _ _ _ base l HB HQ HT Hq ltac:(lia) El Hl0) as [_ H2]. lia.
  - unfold pool_supply, supply in *. cbn. rewrite Hsup2. cbn. rewrite Hsup, Hpn, !decide_True by done. lia.
Qed.

(** A swap routed through the native token charges the sender twice: when
    recipient and sender differ, the native tokens bought in the first leg go to
    the recipient and those sold in the second leg come out of the sender's own
    account. *)
Theorem router_charges_sender ctx msg s s' :
  swap_inv s → tSender msg ≠ swapAcc → Recipient msg ≠ swapAcc → Recipient msg ≠ tSender msg →
  Denom (SoldTokenAmount msg) ≠ Coins.DefaultBondDenom →
  Denom (MinBoughtTokenAmount msg) ≠ Coins.DefaultBondDenom →
  swapTokenByRouter ctx msg s = (Ok tt, s') →
  ∃ native, 0 < native ∧
    bal s' (tSender msg) Coins.DefaultBondDenom = bal s (tSender msg) Coins.DefaultBondDenom - native ∧
    bal s' (Recipient msg) Coins.DefaultBondDenom = bal s (Recipient msg) Coins.DefaultBondDenom + native.
Proof.
  intros Hi Hs Hr Hrs Hd1 Hd2 H.
  apply router_ok in H as (p1 & p2 & nat & tn & tb & s1 & En & Hp1 & He1 & Hp2 & He2 & Hb1 & Hz & Hb2
    & _ & Hs1 & Hs2).
  destruct (buy_denom _ _ _ _ _ Hb1) as [Etn Hn0]. destruct (buy_denom _ _ _ _ _ Hb2) as [Etb _].
  destruct (swap_step_ok _ _ _ _ _ Hs1) as [_ (b1 & -> & _ & Hbal1)].
  destruct (swap_step_ok _ _ _ _ _ Hs2) as [_ (b2 & -> & _ & Hbal2)]. cbn in *.
  rewrite Coins.CoinIsZero_spec in Hz. dec_bool. exists (Amount tn). split; [lia|].
  unfold bal in *. cbn in *. rewrite !Hbal2. cbn. rewrite !Hbal1. unfold coin_amt.
  rewrite Etn, Etb, En, !(decide_True (P := Coins.DefaultBondDenom = _)) by done.
  repeat (rewrite decide_False by done). rewrite ?decide_True by done.
  repeat case_decide; try done; lia.
Qed.
End spec.

(** The name of a pool token determines its two tokens: splitting it gives
    them back in order, when neither contains the separator. *)
Theorem pool_token_roundtrip a b :
  lacks underscore a → lacks underscore b →
  SplitPoolToken (GetPoolTokenName a b) = Ok (GetBaseQuoteTokenName a b).
Proof.
  intros Ha Hb. unfold SplitPoolToken, GetPoolTokenName, GetSwapTokenPairName, PoolTokenPrefix.
  assert (∀ x y, lacks underscore x → lacks underscore y →
    Split ("ammswap_" +:+ (x +:+ "_" +:+ y)) underscore = ["ammswap"; x; y]) as Hsplit.
  { intros x y Hx Hy. change ("ammswap_" +:+ (x +:+ "_" +:+ y)) with
      ("ammswap" +:+ String underscore (x +:+ String underscore y)).
    rewrite !Split_join, Split_lacks by (done || by repeat split). done. }
  unfold GetBaseQuoteTokenName. destruct (String.ltb a b); by rewrite Hsplit.
Qed.

Lemma pool_token_roundtrip_witness :
  SplitPoolToken (GetPoolTokenName "xxb-abc" "okt") = Ok (GetBaseQuoteTokenName "xxb-abc" "okt").
Proof. apply pool_token_roundtrip; by repeat split. Defined.

(** ** Witnesses: two pools against the native token *)

#[local] Existing Instance Dec18.ops.
#[local] Existing Instance Dec18.dec_laws.
#[local] Existing Instance CoinsImpl.ops.
#[local] Existing Instance CoinsImpl.coins_laws.
#[local] Existing Instance BankImpl.ops.
#[local] Existing Instance BankImpl.bank_laws.

#[local] Instance ex_env : Token.Env := {|
  Token.HigherThanMercury _ := false;
  Token.EthCodeHash _ _ := None;
  Token.Keccak256_nil := "";
  Token.tmhash_hex s := s;
  Token.feeCollectorName := "fee_collector";
  Token.enableBackend := false;
|}.

Definition pool_token (name : string) : Token.Token := InitPoolToken ("ammswap_" +:+ name).

Definition ex_bank : BankImpl.st := BankImpl.MkSt
  {[ "alice" := [MkCoin "ammswap_okt_xxb" 1000; MkCoin "ammswap_okt_yyb" 1000;
                 MkCoin "okt" 50000; MkCoin "xxb" 50000; MkCoin "yyb" 50000];
     "module/ammswap" := [MkCoin "okt" 10000; MkCoin "xxb" 5000; MkCoin "yyb" 7000] ]}
  {[ "okt" := 60000; "xxb" := 55000; "yyb" := 57000;
     "ammswap_okt_xxb" := 1000; "ammswap_okt_yyb" := 1000 ]}.

Definition ex_pairs : gmap string SwapTokenPair :=
  {[ "okt_xxb" := MkPair (MkCoin "xxb" 5000) (MkCoin "okt" 4000) "ammswap_okt_xxb";
     "okt_yyb" := MkPair (MkCoin "yyb" 7000) (MkCoin "okt" 6000) "ammswap_okt_yyb" ]}.

Definition ex_state : SwapState :=
  MkSwapState
    (Token.MkTokenState _ ex_bank
       {[ "ammswap_okt_xxb" := pool_token "okt_xxb"; "ammswap_okt_yyb" := pool_token "okt_yyb" ]}
       ∅ 2 ∅ ∅ ∅
       (Token.MkParams (MkCoin "okt" 5) (MkCoin "okt" 1) (MkCoin "okt" 1) (MkCoin "okt" 1)
          (MkCoin "okt" 1) 100) [])
    ex_pairs (MkParams (3 * 10 ^ 15)).

Definition ex_ctx : Context := MkContext 10 1000 "".

Lemma ex_pool_coins : Bank.GetCoins (bank ex_state) swapAcc =
  [MkCoin "okt" 10000; MkCoin "xxb" 5000; MkCoin "yyb" 7000].
Proof. vm_compute. reflexivity. Qed.

Lemma ex_inv : swap_inv ex_state.
Proof.
  split.
  - intros name p. cbn. unfold ex_pairs. rewrite lookup_insert_Some, lookup_singleton_Some.
    intros [[<- <-]|[_ [<- <-]]]; (split; [by repeat split|right; repeat split]).
  - intros name. cbn. unfold ex_pairs. rewrite lookup_insert_None, lookup_singleton_None.
    intros [H1 H2]. unfold pool_supply, supply, PoolTokenPrefix. cbn.
    repeat rewrite lookup_insert_ne; [by rewrite lookup_singleton_ne; [|intros <-%(pool_name_inj "okt_yyb")]|..].
    all: try (intros E; discriminate E). intros E. by apply (pool_name_inj "okt_xxb") in E.
  - intros d. unfold reserves, bal. cbn [pairs ex_state]. unfold ex_pairs.
    rewrite msum_insert, lookup_singleton_ne by done. rewrite <-insert_empty, msum_insert, msum_empty.
    rewrite lookup_empty. cbn [from_option]. unfold Bank.balance. rewrite ex_pool_coins.
    rewrite !amt_cons, amt_nil. unfold pair_amt, coin_amt. cbn. repeat case_decide; lia.
  - intros k t. cbn. rewrite lookup_insert_Some, lookup_singleton_Some.
    by intros [[<- <-]|[_ [<- <-]]].
  - cbn. unfold Dec.unit. cbn. lia.
Qed.

Definition run {A} (m : M SwapState A) (s : SwapState) : SwapState := snd (m s).

Lemma ex_run_ok {A} (m : M SwapState A) s a : fst (m s) = Ok a → m s = (Ok a, run m s).
Proof. apply run_ok. Qed.

Definition ex_swap : MsgTokenToToken :=
  MkMsgTokenToToken (MkCoin "xxb" 100) (MkCoin "okt" 50) 100 "bob" "alice".
Definition ex_route : MsgTokenToToken :=
  MkMsgTokenToToken (MkCoin "xxb" 100) (MkCoin "yyb" 50) 100 "bob" "alice".
Definition ex_add : MsgAddLiquidity :=
  MkMsgAddLiquidity 1 (MkCoin "okt" 500) (MkCoin "xxb" 333) 100 "alice".
Definition ex_remove : MsgRemoveLiquidity :=
  MkMsgRemoveLiquidity 66 (MkCoin "okt" 0) (MkCoin "xxb" 0) 100 "alice".

Lemma swap_invariant_witness : swap_inv (run (NewHandler ex_ctx (MTokenToToken ex_route)) ex_state).
Proof.
  apply (swap_invariant ex_ctx (MTokenToToken ex_route) ex_state); [apply ex_inv|..].
  - vm_compute. reflexivity.
  - repeat (apply Forall_cons; split; [done|]). apply Forall_nil_2.
  - apply (run_ok (NewHandler ex_ctx (MTokenToToken ex_route)) ex_state). vm_compute. reflexivity.
Defined.

Lemma GetInputPrice_constant_product_witness :
  ∃ out, GetInputPrice 100 5000 4000 (3 * 10 ^ 15) = Ok out ∧ 0 ≤ out < 4000 ∧
    5000 * 4000 ≤ (5000 + 100) * (4000 - out).
Proof. apply GetInputPrice_constant_product; unfold Dec.unit; cbn; lia. Defined.

Lemma swap_slippage_witness :
  let s' := run (handleMsgTokenToToken ex_ctx ex_swap) ex_state in
  let p := MkPair (MkCoin "xxb" 5000) (MkCoin "okt" 4000) "ammswap_okt_xxb" in
  ∃ p' bought, pairs s' !! swap_pair_name ex_swap = Some p' ∧ product p ≤ product p' ∧
    Amount (MinBoughtTokenAmount ex_swap) ≤ bought ∧
    ∀ a d, a ≠ swapAcc → bal s' a d = bal ex_state a d
      - (if decide (a = tSender ex_swap) then coin_amt d (SoldTokenAmount ex_swap) else 0)
      + (if decide (a = Recipient ex_swap)
         then coin_amt d (MkCoin (Denom (MinBoughtTokenAmount ex_swap)) bought) else 0).
Proof.
  apply (swap_slippage ex_ctx ex_swap ex_state (run (handleMsgTokenToToken ex_ctx ex_swap) ex_state)
    (MkPair (MkCoin "xxb" 5000) (MkCoin "okt" 4000) "ammswap_okt_xxb") ex_inv);
    [vm_compute; reflexivity|done|done|vm_compute; reflexivity|].
  refine (ex_run_ok _ _ tt _). vm_compute. reflexivity.
Defined.

Lemma deposit_withdraw_no_profit_witness :
  let s1 := run (handleMsgAddLiquidity ex_ctx ex_add) ex_state in
  let s2 := run (handleMsgRemoveLiquidity ex_ctx ex_remove) s1 in
  4000 ≤ 4002 ∧ 5000 ≤ 5003 ∧ pool_supply s2 "okt_xxb" = pool_supply ex_state "okt_xxb".
Proof.
  apply (deposit_withdraw_no_profit ex_ctx ex_add ex_remove ex_state
    (run (handleMsgAddLiquidity ex_ctx ex_add) ex_state)
    (run (handleMsgRemoveLiquidity ex_ctx ex_remove) (run (handleMsgAddLiquidity ex_ctx ex_add) ex_state))
    (MkPair (MkCoin "xxb" 5000) (MkCoin "okt" 4000) "ammswap_okt_xxb")
    (MkPair (MkCoin "xxb" 5003) (MkCoin "okt" 4002) "ammswap_okt_xxb") ex_inv);
    [vm_compute; reflexivity|vm_compute; reflexivity|done|done|vm_compute; reflexivity
    |vm_compute; reflexivity| |vm_compute; reflexivity| |vm_compute; reflexivity].
  - refine (ex_run_ok _ _ tt _). vm_compute. reflexivity.
  - refine (ex_run_ok _ _ tt _). vm_compute. reflexivity.
Defined.

Lemma router_charges_sender_witness :
  let s' := run (swapTokenByRouter ex_ctx ex_route) ex_state in
  ∃ native, 0 < native ∧
    bal s' (tSender ex_route) Coins.DefaultBondDenom
      = bal ex_state (tSender ex_route) Coins.DefaultBondDenom - native ∧
    bal s' (Recipient ex_route) Coins.DefaultBondDenom
      = bal ex_state (Recipient ex_route) Coins.DefaultBondDenom + native.
Proof.
  apply (router_charges_sender ex_ctx ex_route ex_state
    (run (swapTokenByRouter ex_ctx ex_route) ex_state) ex_inv); [done..|].
  refine (ex_run_ok _ _ tt _). vm_compute. reflexivity.
Defined.
End SwapSpec.
