(* ===== verification/OrderTypes.v ===== *)
(** * Orders: src/x/order/types/{order,const,keys,params,product_lock}.go

    An [Order] and its methods as pure functions on the record.  A method that
    divides by zero, or indexes the parts of a product name that are not there,
    panics in Go and yields [Panic] here.  [ExtraInfo] is the JSON text of a
    map from strings to strings in the source; the model keeps the map. *)

From S2P Require Import Prelude SdkDec SdkCoins GoStd.

#[local] Open Scope Z_scope.

Definition BuyOrder : string := "BUY".
Definition SellOrder : string := "SELL".

Definition FeeTypeOrderNew : string := "new".
Definition FeeTypeOrderCancel : string := "cancel".
Definition FeeTypeOrderExpire : string := "expire".
Definition FeeTypeOrderDeal : string := "deal".
Definition FeeTypeOrderReceive : string := "receive".

Definition OrderStatusOpen : Z := 0.
Definition OrderStatusFilled : Z := 1.
Definition OrderStatusCancelled : Z := 2.
Definition OrderStatusExpired : Z := 3.
Definition OrderStatusPartialFilledCancelled : Z := 4.
Definition OrderStatusPartialFilledExpired : Z := 5.

(** OrderStatus.String *)
Definition OrderStatusString (p : Z) : string :=
  if (p =? 0)%Z then "Open"
  else if (p =? 1)%Z then "Filled"
  else if (p =? 2)%Z then "Cancelled"
  else if (p =? 3)%Z then "Expired"
  else if (p =? 4)%Z then "PartialFilledCancelled"
  else if (p =? 5)%Z then "PartialFilledExpired"
  else "Unknown".

Definition OrderExtraInfoKeyNewFee : string := "newFee".
Definition OrderExtraInfoKeyCancelFee : string := "cancelFee".
Definition OrderExtraInfoKeyExpireFee : string := "expireFee".
Definition OrderExtraInfoKeyDealFee : string := "dealFee".
Definition OrderExtraInfoKeyReceiveFee : string := "receiveFee".

Record Order := MkOrder {
  TxHash : string;
  OrderID : string;
  Sender : AccAddress;
  Product : string;
  Side : string;
  Price : Dec;
  Quantity : Dec;
  Status : Z;
  FilledAvgPrice : Dec;
  RemainQuantity : Dec;
  RemainLocked : Dec;
  Timestamp : Z;
  OrderExpireBlocks : Z;
  FeePerBlock : SysCoin;
  ExtraInfo : gmap string string;
}.

(** The fields the methods assign. *)
Definition set_OrderID (x : string) (o : Order) : Order :=
  MkOrder (TxHash o) x (Sender o) (Product o) (Side o) (Price o) (Quantity o)
    (Status o) (FilledAvgPrice o) (RemainQuantity o) (RemainLocked o)
    (Timestamp o) (OrderExpireBlocks o) (FeePerBlock o) (ExtraInfo o).
Definition set_Status (x : Z) (o : Order) : Order :=
  MkOrder (TxHash o) (OrderID o) (Sender o) (Product o) (Side o) (Price o) (Quantity o)
    x (FilledAvgPrice o) (RemainQuantity o) (RemainLocked o)
    (Timestamp o) (OrderExpireBlocks o) (FeePerBlock o) (ExtraInfo o).
Definition set_FilledAvgPrice (x : Dec) (o : Order) : Order :=
  MkOrder (TxHash o) (OrderID o) (Sender o) (Product o) (Side o) (Price o) (Quantity o)
    (Status o) x (RemainQuantity o) (RemainLocked o)
    (Timestamp o) (OrderExpireBlocks o) (FeePerBlock o) (ExtraInfo o).
Definition set_RemainQuantity (x : Dec) (o : Order) : Order :=
  MkOrder (TxHash o) (OrderID o) (Sender o) (Product o) (Side o) (Price o) (Quantity o)
    (Status o) (FilledAvgPrice o) x (RemainLocked o)
    (Timestamp o) (OrderExpireBlocks o) (FeePerBlock o) (ExtraInfo o).
Definition set_RemainLocked (x : Dec) (o : Order) : Order :=
  MkOrder (TxHash o) (OrderID o) (Sender o) (Product o) (Side o) (Price o) (Quantity o)
    (Status o) (FilledAvgPrice o) (RemainQuantity o) x
    (Timestamp o) (OrderExpireBlocks o) (FeePerBlock o) (ExtraInfo o).
Definition set_ExtraInfo (x : gmap string string) (o : Order) : Order :=
  MkOrder (TxHash o) (OrderID o) (Sender o) (Product o) (Side o) (Price o) (Quantity o)
    (Status o) (FilledAvgPrice o) (RemainQuantity o) (RemainLocked o)
    (Timestamp o) (OrderExpireBlocks o) (FeePerBlock o) x.

(** types.Params *)
Record OrderParams := MkOrderParams {
  pOrderExpireBlocks : Z;
  pMaxDealsPerBlock : Z;
  pFeePerBlock : SysCoin;
  pTradeFeeRate : Dec;
  pNewOrderMsgGasUnit : Z;
  pCancelOrderMsgGasUnit : Z;
}.

(** types.ProductLock *)
Record ProductLock := MkProductLock {
  lBlockHeight : Z;
  lPrice : Dec;
  lQuantity : Dec;
  lBuyExecuted : Dec;
  lSellExecuted : Dec;
}.

Section order.
Context `{DO : Dec.Ops} `{CO : Coins.Ops}.

(** FilledAvgPrice is the zero value of the struct, which the codec stores
    and reads back as 0. *)
Definition NewOrder (txHash sender product side : string) (price quantity : Dec)
    (timestamp orderExpireBlocks : Z) (feePerBlock : SysCoin) : Order :=
  let order := MkOrder txHash "" sender product side price quantity
    OrderStatusOpen 0 quantity 0 timestamp orderExpireBlocks feePerBlock ∅ in
  if decide (side = BuyOrder)
  then set_RemainLocked (Dec.Mul price quantity) order
  else set_RemainLocked quantity order.

Definition getExtraInfo (order : Order) : gmap string string := ExtraInfo order.

Definition setExtraInfoWithKeyValue (key value : string) (order : Order) : Order :=
  set_ExtraInfo (<[key := value]> (getExtraInfo order)) order.

Definition GetExtraInfoWithKey (key : string) (order : Order) : string :=
  match getExtraInfo order !! key with Some value => value | None => "" end.

Definition RecordOrderNewFee (fee : SysCoins) : Order → Order :=
  setExtraInfoWithKeyValue OrderExtraInfoKeyNewFee (Coins.ToString fee).
Definition RecordOrderCancelFee (fee : SysCoins) : Order → Order :=
  setExtraInfoWithKeyValue OrderExtraInfoKeyCancelFee (Coins.ToString fee).
Definition recordOrderExpireFee (fee : SysCoins) : Order → Order :=
  setExtraInfoWithKeyValue OrderExtraInfoKeyExpireFee (Coins.ToString fee).
Definition RecordOrderReceiveFee (fee : SysCoins) : Order → Order :=
  setExtraInfoWithKeyValue OrderExtraInfoKeyReceiveFee (Coins.ToString fee).

Definition RecordOrderDealFee (fee : SysCoins) (order : Order) : Order :=
  let oldValue := GetExtraInfoWithKey OrderExtraInfoKeyDealFee order in
  if decide (oldValue = "")
  then setExtraInfoWithKeyValue OrderExtraInfoKeyDealFee (Coins.ToString fee) order
  else match Coins.ParseDecCoins oldValue with
       | None => order
       | Some oldFee =>
           setExtraInfoWithKeyValue OrderExtraInfoKeyDealFee
             (Coins.ToString (Coins.Add2 oldFee fee)) order
       end.

(** Order.Fill: panics when nothing is filled in total (division by zero). *)
Definition Fill (price fillAmount : Dec) (order : Order) : outcome Order :=
  let filledSum := Dec.Mul (FilledAvgPrice order)
                     (Dec.Sub (Quantity order) (RemainQuantity order)) in
  let newFilledSum := Dec.Add filledSum (Dec.Mul price fillAmount) in
  let order := set_RemainQuantity (Dec.Sub (RemainQuantity order) fillAmount) order in
  avg ← or_panic (Dec.Quo newFilledSum (Dec.Sub (Quantity order) (RemainQuantity order)));
  let order := set_FilledAvgPrice avg order in
  let order :=
    if decide (Side order = BuyOrder)
    then set_RemainLocked (Dec.Sub (RemainLocked order) (Dec.Mul price fillAmount)) order
    else set_RemainLocked (Dec.Sub (RemainLocked order) fillAmount) order in
  Ok (if Dec.IsZero (RemainQuantity order)
      then set_Status OrderStatusFilled order else order).

Definition Cancel (order : Order) : Order :=
  if Dec.Equal (RemainQuantity order) (Quantity order)
  then set_Status OrderStatusCancelled order
  else set_Status OrderStatusPartialFilledCancelled order.

Definition Expire (order : Order) : Order :=
  if Dec.Equal (RemainQuantity order) (Quantity order)
  then set_Status OrderStatusExpired order
  else set_Status OrderStatusPartialFilledExpired order.

(** strings.Split(product, "_")[i] *)
Definition symbol (product : string) (i : nat) : outcome string :=
  or_panic (Split product underscore !! i).

Definition NeedLockCoins (order : Order) : outcome SysCoins :=
  if decide (Side order = BuyOrder) then
    token ← symbol (Product order) 1;
    Ok [MkCoin token (Dec.Mul (Price order) (Quantity order))]
  else
    token ← symbol (Product order) 0;
    Ok [MkCoin token (Quantity order)].

Definition NeedUnlockCoins (order : Order) : outcome SysCoins :=
  if decide (Side order = BuyOrder) then
    token ← symbol (Product order) 1;
    Ok [MkCoin token (RemainLocked order)]
  else
    token ← symbol (Product order) 0;
    Ok [MkCoin token (RemainLocked order)].

Definition Unlock (order : Order) : Order := set_RemainLocked Dec.ZeroDec order.

(** keys.go: the key of the order ids at one price of one side. *)
Definition FormatOrderIDsKey (product : string) (price : Dec) (side : string) : string :=
  product +:+ ":" +:+ Dec.ToString price +:+ ":" +:+ side.
End order.

(** ** Order ids *)

Definition FormatOrderID (blockHeight orderNum : Z) : string :=
  if (9999999999 <? blockHeight)%Z
  then "ID" +:+ fmt_d blockHeight +:+ "-" +:+ fmt_d orderNum
  else "ID" +:+ fmt_0d 10 blockHeight +:+ "-" +:+ fmt_d orderNum.

Definition FormatOrderIDPrefix (blockHeight : Z) : string :=
  if (9999999999 <? blockHeight)%Z
  then "ID" +:+ fmt_d blockHeight +:+ "-"
  else "ID" +:+ fmt_0d 10 blockHeight +:+ "-".

(** fmt.Sscanf(orderID, "ID%d-%d", &blockHeight, &id), 0 on any error. *)
Definition GetBlockHeightFromOrderID (orderID : string) : Z :=
  match orderID with
  | String i (String d s) =>
      if (Ascii.eqb i (Ascii.ascii_of_nat 73) && Ascii.eqb d (Ascii.ascii_of_nat 68))%bool then
        match scan_d s with
        | Some (blockHeight, String m s') =>
            if Ascii.eqb m (Ascii.ascii_of_nat 45) then
              match scan_d s' with Some _ => blockHeight | None => 0 end
            else 0
        | _ => 0
        end
      else 0
  | _ => 0
  end.

(** The number of an id, printed with the padding its height calls for. *)
Lemma order_id_height_digits h : 0 ≤ h →
  ∃ w, FormatOrderIDPrefix h = "ID" +:+ string_of_digits (padded w h) +:+ "-" ∧
       ∀ n, FormatOrderID h n = "ID" +:+ string_of_digits (padded w h) +:+ "-" +:+ fmt_d n.
Proof.
  intros Hh. unfold FormatOrderID, FormatOrderIDPrefix.
  destruct (_ <? h)%Z; [exists 0%nat|exists 10%nat].
  - by rewrite fmt_d_nonneg.
  - by rewrite fmt_0d_nonneg.
Qed.

(** The two numbers of an id are read back. *)
Lemma order_id_height h n : 0 ≤ h < 2 ^ 63 → 0 ≤ n < 2 ^ 63 →
  GetBlockHeightFromOrderID (FormatOrderID h n) = h.
Proof.
  intros Hh Hn. destruct (order_id_height_digits h) as (w & _ & ->); [lia|].
  rewrite fmt_d_nonneg by lia.
  pose proof (scan_padded w h ("-" +:+ string_of_digits (padded 0 n)) Hh eq_refl) as H1.
  pose proof (scan_padded 0 n "" Hn I) as H2.
  rewrite !append_cons, !append_nil in *. rewrite append_nil_r in H2.
  cbn [GetBlockHeightFromOrderID]. rewrite H1. cbn -[scan_d string_of_digits padded]. by rewrite H2.
Qed.

Lemma fmt_d_inj n n' : 0 ≤ n < 2 ^ 63 → 0 ≤ n' < 2 ^ 63 → fmt_d n = fmt_d n' → n = n'.
Proof.
  intros Hn Hn'. rewrite !fmt_d_nonneg by lia. intros E.
  pose proof (scan_padded 0 n "" Hn I) as H1. pose proof (scan_padded 0 n' "" Hn' I) as H2.
  rewrite append_nil_r in H1, H2. congruence.
Qed.

Lemma append_inj_l (p a b : string) : p +:+ a = p +:+ b → a = b.
Proof. induction p as [|c p IH]; [done|]. rewrite !append_cons. intros [= E]. auto. Qed.

Lemma FormatOrderID_inj h n h' n' : 0 ≤ h < 2 ^ 63 → 0 ≤ n < 2 ^ 63 → 0 ≤ h' < 2 ^ 63 → 0 ≤ n' < 2 ^ 63 →
  FormatOrderID h n = FormatOrderID h' n' → h = h' ∧ n = n'.
Proof.
  intros Hh Hn Hh' Hn' E. assert (h = h') as <-.
  { rewrite <-(order_id_height h n), <-(order_id_height h' n') by lia. by rewrite E. }
  split; [done|]. destruct (order_id_height_digits h) as (w & _ & Hf); [lia|]. rewrite !Hf in E.
  do 3 apply append_inj_l in E. by apply fmt_d_inj.
Qed.

(** The height of the block in which an order was placed is read back from
    its id, with or without the padding to ten digits. *)
Theorem order_id_roundtrip h n : 0 ≤ h < 2 ^ 63 → 0 ≤ n < 2 ^ 63 →
  GetBlockHeightFromOrderID (FormatOrderID h n) = h.
Proof. apply order_id_height. Qed.

Lemma order_id_roundtrip_witness :
  GetBlockHeightFromOrderID (FormatOrderID 2048 7) = 2048.
Proof. apply (order_id_roundtrip 2048 7); lia. Defined.

(** The prefix by which the orders of a block are recognised is a prefix of
    exactly the ids of that block: no padding or longer height is confused. *)
Theorem order_id_prefix_unique h h' n : 0 ≤ h < 2 ^ 63 → 0 ≤ h' < 2 ^ 63 →
  String.prefix (FormatOrderIDPrefix h) (FormatOrderID h' n) = true ↔ h = h'.
Proof.
  intros Hh Hh'.
  destruct (order_id_height_digits h) as (w & Hp & Hf); [lia|].
  destruct (order_id_height_digits h') as (w' & _ & Hf'); [lia|].
  rewrite prefix_split. split.
  - intros (t & E). rewrite Hp, Hf', !append_cons, !append_nil in E.
    injection E as E. rewrite string_append_assoc, append_cons in E.
    symmetry in E. by eapply padded_prefix in E.
  - intros ->. exists (fmt_d n). rewrite Hp, Hf.
    by rewrite !append_cons, !append_nil, string_append_assoc.
Qed.

Lemma order_id_prefix_unique_witness :
  String.prefix (FormatOrderIDPrefix 12) (FormatOrderID 12 3) = true.
Proof. apply (order_id_prefix_unique 12 12 3); [lia|lia|reflexivity]. Defined.
