(* ===== verification/DepthBook.v ===== *)
(** * The depth book of a product: src/x/order/types/depth_book.go

    A depth book is a slice of price levels, sorted by decreasing price; a
    level holds the open buy and the open sell quantity at its price.  Methods
    that mutate the receiver return the new slice.  The abstract view of a book
    is the function [book_qty side price]; [book_ext] shows that it determines a
    well-formed book, and the theorems at the end give insertion and removal by
    their effect on it. *)

From S2P Require Import Prelude SdkDec SdkCoins GoStd OrderTypes.

#[local] Open Scope Z_scope.

Record Deal := MkDeal {
  dOrderID : string; dSide : string; dQuantity : Dec; dFee : string; dFeeReceiver : string
}.

Record MatchResult := MkMatchResult {
  mrBlockHeight : Z; mrPrice : Dec; mrQuantity : Dec; mrDeals : list Deal
}.

Record DepthBookItem := MkItem { iPrice : Dec; BuyQuantity : Dec; SellQuantity : Dec }.

Abbreviation DepthBook := (list DepthBookItem) (only parsing).

Definition set_BuyQuantity (x : Dec) (i : DepthBookItem) : DepthBookItem :=
  MkItem (iPrice i) x (SellQuantity i).
Definition set_SellQuantity (x : Dec) (i : DepthBookItem) : DepthBookItem :=
  MkItem (iPrice i) (BuyQuantity i) x.

Section ops.
Context `{DO : Dec.Ops}.

(** The predicate both binary searches use. *)
Definition price_gte (book : DepthBook) (price : Dec) (i : nat) : bool :=
  match book !! i with Some it => Dec.GTE price (iPrice it) | None => false end.

Definition InsertOrder (order : Order) (book : DepthBook) : outcome DepthBook :=
  let bookLength := length book in
  let newItem := MkItem (Price order) Dec.ZeroDec Dec.ZeroDec in
  let newItem := if decide (Side order = BuyOrder)
                 then set_BuyQuantity (RemainQuantity order) newItem
                 else set_SellQuantity (RemainQuantity order) newItem in
  if match last book with
     | None => true
     | Some it => Dec.LT (Price order) (iPrice it)
     end
  then Ok (book ++ [newItem])
  else
    let index := Search bookLength (price_gte book (Price order)) in
    it ← or_panic (book !! index);
    if Dec.Equal (Price order) (iPrice it) then
      Ok (<[index :=
        if decide (Side order = BuyOrder)
        then set_BuyQuantity (Dec.Add (BuyQuantity it) (RemainQuantity order)) it
        else set_SellQuantity (Dec.Add (SellQuantity it) (RemainQuantity order)) it]> book)
    else
      let rear := newItem :: drop index book in
      Ok (take index book ++ rear).

(** RemoveIfEmpty and Sub index the slice and panic out of range. *)
Definition RemoveIfEmpty (index : nat) (book : DepthBook) : outcome (bool * DepthBook) :=
  it ← or_panic (book !! index);
  let res := (Dec.IsZero (BuyQuantity it) && Dec.IsZero (SellQuantity it))%bool in
  Ok (res, if res then take index book ++ drop (S index) book else book).

Definition BookSub (index : nat) (num : Dec) (side : string) (book : DepthBook)
    : outcome DepthBook :=
  if decide (side = BuyOrder) then
    it ← or_panic (book !! index);
    Ok (<[index := set_BuyQuantity (Dec.Sub (BuyQuantity it) num) it]> book)
  else if decide (side = SellOrder) then
    it ← or_panic (book !! index);
    Ok (<[index := set_SellQuantity (Dec.Sub (SellQuantity it) num) it]> book)
  else Ok book.

Definition RemoveOrder (order : Order) (book : DepthBook) : outcome DepthBook :=
  let bookLen := length book in
  let index := Search bookLen (price_gte book (Price order)) in
  if ((index <? bookLen)%nat &&
      match book !! index with
      | Some it => Dec.Equal (iPrice it) (Price order)
      | None => false
      end)%bool
  then
    it ← or_panic (book !! index);
    let book :=
      if decide (Side order = BuyOrder)
      then <[index := set_BuyQuantity (Dec.Sub (BuyQuantity it) (RemainQuantity order)) it]> book
      else if decide (Side order = SellOrder)
      then <[index := set_SellQuantity (Dec.Sub (SellQuantity it) (RemainQuantity order)) it]> book
      else book in
    r ← RemoveIfEmpty index book;
    Ok (snd r)
  else Ok book.

(** DepthBook.Copy; items are values, so the copy is the same list. *)
Definition BookCopy (book : DepthBook) : DepthBook := [] ++ book.
End ops.

(** ** The abstract view *)

Definition side_qty (side : string) (it : DepthBookItem) : Z :=
  if decide (side = BuyOrder) then BuyQuantity it else SellQuantity it.

Definition item_qty (side : string) (p : Dec) (it : DepthBookItem) : Z :=
  if decide (iPrice it = p) then side_qty side it else 0.

Definition book_qty (side : string) (p : Dec) (book : DepthBook) : Z :=
  zsum (item_qty side p <$> book).

(** A level has no negative quantity, and not both zero. *)
Definition item_ok (it : DepthBookItem) : Prop :=
  0 ≤ BuyQuantity it ∧ 0 ≤ SellQuantity it ∧ 0 < BuyQuantity it + SellQuantity it.

Definition desc (book : DepthBook) : Prop :=
  StronglySorted (λ x y, iPrice y < iPrice x) book.

Definition book_ok (book : DepthBook) : Prop := desc book ∧ Forall item_ok book.

#[global] Arguments book_qty : simpl never.

Lemma book_qty_nil s p : book_qty s p [] = 0.
Proof. done. Qed.

Lemma book_qty_cons s p it b : book_qty s p (it :: b) = item_qty s p it + book_qty s p b.
Proof. done. Qed.

Lemma book_qty_app s p a b : book_qty s p (a ++ b) = book_qty s p a + book_qty s p b.
Proof. unfold book_qty. by rewrite fmap_app, zsum_app. Qed.

Lemma item_qty_ne s p it : iPrice it ≠ p → item_qty s p it = 0.
Proof. intros. unfold item_qty. by rewrite decide_False. Qed.

Lemma item_qty_eq s it : item_qty s (iPrice it) it = side_qty s it.
Proof. unfold item_qty. by rewrite decide_True. Qed.

(** No level of the part has this price. *)
Lemma book_qty_absent s p b : Forall (λ it, iPrice it ≠ p) b → book_qty s p b = 0.
Proof.
  induction 1 as [|it b Hit _ IH]; [done|].
  rewrite book_qty_cons, IH, item_qty_ne by done. lia.
Qed.

Lemma side_qty_buy it : side_qty BuyOrder it = BuyQuantity it.
Proof. done. Qed.

Lemma side_qty_sell it : side_qty SellOrder it = SellQuantity it.
Proof. done. Qed.

Lemma side_qty_nonneg s it : item_ok it → 0 ≤ side_qty s it.
Proof. intros (?&?&?). unfold side_qty. by case_decide. Qed.

Lemma item_qty_nonneg s p it : item_ok it → 0 ≤ item_qty s p it.
Proof. intros. unfold item_qty. case_decide; [by apply side_qty_nonneg|lia]. Qed.

Lemma book_qty_nonneg s p b : Forall item_ok b → 0 ≤ book_qty s p b.
Proof.
  intros H. apply zsum_nonneg, Forall_fmap. eapply Forall_impl; [done|].
  intros. by apply item_qty_nonneg.
Qed.

Lemma desc_app a b :
  desc (a ++ b) ↔ (∀ x y, x ∈ a → y ∈ b → iPrice y < iPrice x) ∧ desc a ∧ desc b.
Proof. unfold desc. rewrite StronglySorted_app. naive_solver. Qed.

Lemma desc_cons x b : desc (x :: b) ↔ Forall (λ y, iPrice y < iPrice x) b ∧ desc b.
Proof. unfold desc. by rewrite StronglySorted_cons. Qed.

Lemma book_ok_cons x b : book_ok (x :: b) ↔
  Forall (λ y, iPrice y < iPrice x) b ∧ item_ok x ∧ book_ok b.
Proof. unfold book_ok. rewrite desc_cons, Forall_cons. naive_solver. Qed.

(** The first level is the highest price with open quantity. *)
Lemma book_head_qty x l s : book_ok (x :: l) →
  book_qty s (iPrice x) (x :: l) = side_qty s x.
Proof.
  rewrite book_ok_cons. intros (Hf & _). rewrite book_qty_cons, item_qty_eq.
  rewrite book_qty_absent; [lia|]. eapply Forall_impl; [done|]. cbn. lia.
Qed.

Lemma book_above_qty x l s p : book_ok (x :: l) → iPrice x < p → book_qty s p (x :: l) = 0.
Proof.
  rewrite book_ok_cons. intros (Hf & _) Hp. apply book_qty_absent.
  constructor; [lia|]. eapply Forall_impl; [done|]. cbn. lia.
Qed.

Lemma item_ok_side x : item_ok x →
  ∃ s, (s = BuyOrder ∨ s = SellOrder) ∧ 0 < side_qty s x.
Proof.
  intros (?&?&?). destruct (decide (0 < BuyQuantity x)); [exists BuyOrder|exists SellOrder];
    (split; [auto|]); unfold side_qty; case_decide; done || lia.
Qed.

(** The quantities of a well-formed book determine it. *)
Lemma book_ext a b : book_ok a → book_ok b →
  (∀ s p, s = BuyOrder ∨ s = SellOrder → book_qty s p a = book_qty s p b) → a = b.
Proof.
  revert b. induction a as [|x a IH]; intros [|y b] Ha Hb Hq; [done|..].
  - exfalso. destruct (item_ok_side y) as (s & Hs & ?); [by apply book_ok_cons in Hb as (?&?&?)|].
    pose proof (book_head_qty y b s Hb) as E. rewrite <-Hq, book_qty_nil in E by done. lia.
  - exfalso. destruct (item_ok_side x) as (s & Hs & ?); [by apply book_ok_cons in Ha as (?&?&?)|].
    pose proof (book_head_qty x a s Ha) as E. rewrite Hq, book_qty_nil in E by done. lia.
  - destruct (item_ok_side x) as (s & Hs & Hsx); [by apply book_ok_cons in Ha as (?&?&?)|].
    destruct (item_ok_side y) as (t & Ht & Hty); [by apply book_ok_cons in Hb as (?&?&?)|].
    assert (iPrice x = iPrice y) as Hxy.
    { destruct (Z.lt_trichotomy (iPrice x) (iPrice y)) as [?|[?|?]]; [|done|].
      - pose proof (book_head_qty y b t Hb) as E.
        rewrite <-Hq, book_above_qty in E by done. lia.
      - pose proof (book_head_qty x a s Ha) as E.
        rewrite Hq, book_above_qty in E by done. lia. }
    assert (x = y) as ->.
    { pose proof (book_head_qty x a BuyOrder Ha) as B.
      pose proof (book_head_qty x a SellOrder Ha) as S.
      rewrite Hq, Hxy, book_head_qty in B, S by auto.
      rewrite (side_qty_buy x), (side_qty_buy y) in B.
      rewrite (side_qty_sell x), (side_qty_sell y) in S.
      destruct x, y; cbn in *. congruence. }
    f_equal. apply IH; [by apply book_ok_cons in Ha as (?&?&?)|by apply book_ok_cons in Hb as (?&?&?)|].
    intros s' p Hs'. specialize (Hq s' p Hs'). rewrite !book_qty_cons in Hq. lia.
Qed.

(** ** Insertion and removal *)

Section proofs.
Context `{DL : Dec.Laws}.

(** Inserting a new level between the higher and the lower ones. *)
Lemma book_ok_insert l1 l2 x :
  book_ok (l1 ++ l2) → item_ok x →
  Forall (λ it, iPrice x < iPrice it) l1 → Forall (λ it, iPrice it < iPrice x) l2 →
  book_ok (l1 ++ x :: l2).
Proof.
  intros [(Hc & Hd1 & Hd2)%desc_app Hi] Hx H1 H2. split.
  - apply desc_app. split; [|split; [done|by apply desc_cons]].
    intros y z Hy. rewrite Forall_forall in H1. rewrite elem_of_cons.
    intros [->|Hz]; [by apply H1|auto].
  - rewrite Forall_app in Hi |- *. rewrite Forall_cons. naive_solver.
Qed.

(** Changing the quantities of one level. *)
Lemma book_ok_update l1 l2 x y :
  book_ok (l1 ++ x :: l2) → iPrice y = iPrice x → item_ok y → book_ok (l1 ++ y :: l2).
Proof.
  intros [(Hc & Hd1 & Hd2)%desc_app Hi] Hxy Hy. split.
  - apply desc_app. split; [|split; [done|]].
    + intros u v Hu. rewrite elem_of_cons. intros [->|Hv]; [rewrite Hxy|]; set_solver.
    + apply desc_cons. rewrite Hxy. by apply desc_cons.
  - rewrite Forall_app in Hi |- *. rewrite Forall_cons in Hi |- *. naive_solver.
Qed.

Lemma book_ok_delete l1 l2 x : book_ok (l1 ++ x :: l2) → book_ok (l1 ++ l2).
Proof.
  intros [(Hc & Hd1 & [_ Hd2]%desc_cons)%desc_app Hi]. split.
  - apply desc_app. set_solver.
  - rewrite Forall_app in Hi |- *. rewrite Forall_cons in Hi. naive_solver.
Qed.

(** The binary search splits a sorted book at a price. *)
Lemma Search_book b p : desc b →
  let k := Search (length b) (price_gte b p) in
  (k ≤ length b)%nat ∧
  Forall (λ it, p < iPrice it) (take k b) ∧ Forall (λ it, iPrice it ≤ p) (drop k b).
Proof.
  intros Hd k. destruct (Search_spec (length b) (price_gte b p)) as (Hk & Hlo & Hhi).
  { intros i j Hij Hj Hi. unfold price_gte in *.
    destruct (b !! i) as [x|] eqn:Ex; [|done].
    destruct (lookup_lt_is_Some_2 b j Hj) as [y Ey]. rewrite Ey.
    destruct (decide (i = j)) as [->|Hne]; [by simplify_eq|].
    assert (iPrice y < iPrice x).
    { rewrite <-(take_drop_middle b i x Ex) in Hd, Ey. apply desc_app in Hd as (_ & _ & Hd).
      apply desc_cons in Hd as [Hf _]. rewrite Forall_forall in Hf. apply Hf.
      pose proof (lookup_lt_Some b i x Ex).
      rewrite lookup_app_r in Ey; rewrite length_take in *; [|lia].
      replace (j - i `min` length b)%nat with (S (j - i - 1))%nat in Ey by lia.
      cbn in Ey. by eapply list_elem_of_lookup_2. }
    dec_lia. }
  split; [done|]. split; apply Forall_lookup; intros i it Hi.
  - rewrite lookup_take in Hi. case_decide; [|done].
    specialize (Hlo i ltac:(done)). unfold price_gte in Hlo. rewrite Hi in Hlo. dec_lia.
  - rewrite lookup_drop in Hi. pose proof (lookup_lt_Some _ _ _ Hi).
    specialize (Hhi (k + i)%nat ltac:(lia)). unfold price_gte in Hhi.
    rewrite Hi in Hhi. dec_lia.
Qed.

(** What the order contributes to the quantity at [p] on side [s]. *)
Definition order_qty (o : Order) (s : string) (p : Dec) : Z :=
  if decide (p = Price o ∧ s = Side o) then RemainQuantity o else 0.

Definition valid_side (s : string) : Prop := s = BuyOrder ∨ s = SellOrder.

(** Cutting a sorted book at a price: the level at that price, if there is
    one, is the first of the lower part. *)
Lemma book_cut b p : book_ok b →
  let k := Search (length b) (price_gte b p) in
  Forall (λ it, p < iPrice it) (take k b) ∧
  ((∃ it, b !! k = Some it ∧ iPrice it = p ∧ b = take k b ++ it :: drop (S k) b ∧
     Forall (λ it, iPrice it < p) (drop (S k) b)) ∨
   ((∀ it, b !! k = Some it → iPrice it ≠ p) ∧ Forall (λ it, iPrice it < p) (drop k b))).
Proof.
  intros [Hd _] k. destruct (Search_book b p Hd) as (Hk & H1 & H2). fold k in Hk, H1, H2.
  split; [done|]. destruct (b !! k) as [it|] eqn:E.
  - rewrite (drop_S b it k E) in H2 |- *. apply Forall_cons in H2 as [Hit H2].
    pose proof (take_drop_middle b k it E) as Em. rewrite <-Em in Hd.
    apply desc_app in Hd as (_ & _ & [Hf _]%desc_cons).
    destruct (Z.eq_dec (iPrice it) p) as [Ep|Ep]; [left|right].
    + exists it. rewrite Ep in Hf. by rewrite Em.
    + split; [by intros ? [= <-]|]. constructor; [lia|].
      eapply Forall_impl; [exact Hf|]. cbn. lia.
  - right. split; [done|]. by rewrite drop_ge by (by apply lookup_ge_None_1).
Qed.

(** Replacing one level changes the quantities at its price only. *)
Lemma book_qty_update l1 l2 x y s p : iPrice y = iPrice x →
  book_qty s p (l1 ++ y :: l2) = book_qty s p (l1 ++ x :: l2) +
    (if decide (p = iPrice x) then side_qty s y - side_qty s x else 0).
Proof.
  intros E. rewrite !book_qty_app, !book_qty_cons. unfold item_qty. rewrite E.
  repeat case_decide; subst; try done; lia.
Qed.

Lemma InsertOrder_spec o b :
  book_ok b → valid_side (Side o) → 0 < RemainQuantity o →
  ∃ b', InsertOrder o b = Ok b' ∧ book_ok b' ∧
    ∀ s p, valid_side s → book_qty s p b' = book_qty s p b + order_qty o s p.
Proof.
  intros Hb Hside Hq. unfold InsertOrder.
  set (x := if decide (Side o = BuyOrder) then _ else _).
  assert (iPrice x = Price o) as Hxp by (unfold x; by case_decide).
  assert (item_ok x) as Hx.
  { unfold x, item_ok. dec_simp. case_decide; cbn; lia. }
  assert (∀ s p, valid_side s → item_qty s p x = order_qty o s p) as Hxq.
  { intros s p Hs. unfold item_qty, order_qty, side_qty, x. dec_simp.
    repeat case_decide; cbn in *; destruct_and?; try congruence;
      unfold valid_side in *; naive_solver. }
  assert (∀ l1 l2, b = l1 ++ l2 → ∀ s p, valid_side s →
    book_qty s p (l1 ++ x :: l2) = book_qty s p b + order_qty o s p) as Hins.
  { intros l1 l2 -> s p Hs. rewrite !book_qty_app, book_qty_cons, Hxq by done. lia. }
  destruct (match last b with None => true | Some it => Dec.LT (Price o) (iPrice it) end) eqn:Elast.
  - exists (b ++ [x]). split; [done|]. split; [|by apply Hins; rewrite app_nil_r].
    apply book_ok_insert; [by rewrite app_nil_r|done| |constructor].
    destruct b as [|it b _] using rev_ind; [constructor|].
    rewrite last_snoc in Elast. destruct Hb as [(Hc & _ & _)%desc_app _].
    rewrite Hxp. apply Forall_app. split; [|repeat constructor; dec_lia].
    apply Forall_forall. intros y Hy. specialize (Hc y it Hy ltac:(set_solver)). dec_lia.
  - set (k := Search _ _). destruct (book_cut b (Price o) Hb) as (H1 & Hcase).
    fold k in H1, Hcase. destruct Hcase as [(it & Ek & Ep & Em & H2)|(Hne & H2)].
    + rewrite Ek. cbn. dec_simp. rewrite Ep, Z.eqb_refl.
      rewrite insert_take_drop by (by eapply lookup_lt_Some).
      eexists. split; [done|].
      set (y := if decide (Side o = BuyOrder) then _ else _).
      assert (iPrice y = iPrice it) as Hy by (unfold y; by case_decide).
      rewrite Em in Hb. assert (item_ok it) as (?&?&?)
        by (destruct Hb as [_ Hb]; by apply Forall_app in Hb as [_ [? _]%Forall_cons]).
      split.
      * apply (book_ok_update _ _ it); [done..|]. unfold y, item_ok. dec_simp. case_decide; cbn; lia.
      * intros s p Hs. rewrite (book_qty_update _ _ it y), <-Em by done. f_equal.
        unfold order_qty, y, side_qty. dec_simp. rewrite Ep. unfold valid_side in *.
        repeat case_decide; cbn; destruct_and?; subst; try lia; naive_solver.
    + destruct (b !! k) as [it|] eqn:Ek.
      * cbn. dec_simp. destruct (Z.eqb_spec (Price o) (iPrice it)); [by destruct (Hne it)|].
        eexists. split; [done|]. split; [|apply Hins; by rewrite take_drop].
        apply book_ok_insert; rewrite ?take_drop, ?Hxp; done.
      * exfalso. destruct b as [|z b _] using rev_ind; [done|].
        rewrite last_snoc in Elast.
        apply lookup_ge_None_1 in Ek. rewrite take_ge in H1 by done.
        apply Forall_app in H1 as [_ [Hz _]%Forall_cons]. dec_lia.
Qed.

(** A level with no negative quantity is kept when something is left of it,
    and dropped otherwise. *)
Lemma RemoveIfEmpty_spec l1 l2 x y :
  book_ok (l1 ++ x :: l2) → iPrice y = iPrice x →
  0 ≤ BuyQuantity y → 0 ≤ SellQuantity y →
  ∃ r, RemoveIfEmpty (length l1) (l1 ++ y :: l2) = Ok r ∧ book_ok (snd r) ∧
    ∀ s p, book_qty s p (snd r) = book_qty s p (l1 ++ y :: l2).
Proof.
  intros Hb Exy HB HS. unfold RemoveIfEmpty. rewrite list_lookup_middle by done. cbn.
  eexists. split; [done|]. cbn [snd]. dec_simp.
  destruct (_ && _)%bool eqn:Eb.
  - dec_bool. rewrite take_app_length. rewrite drop_app.
    rewrite drop_ge by lia. replace (S (length l1) - length l1)%nat with 1%nat by lia.
    cbn [drop app]. rewrite drop_0. split; [by eapply book_ok_delete|]. intros s p.
    rewrite !book_qty_app, book_qty_cons. unfold item_qty, side_qty.
    repeat case_decide; lia.
  - split; [|done]. apply (book_ok_update _ _ x); [done..|].
    unfold item_ok. apply andb_false_iff in Eb. destruct Eb; dec_bool; lia.
Qed.

(** The quantity of a side at the price of a level is the level's. *)
Lemma book_qty_middle l1 l2 x s : book_ok (l1 ++ x :: l2) →
  book_qty s (iPrice x) (l1 ++ x :: l2) = side_qty s x.
Proof.
  intros [(Hc & _ & [Hf _]%desc_cons)%desc_app _].
  rewrite book_qty_app, book_qty_cons, item_qty_eq.
  rewrite (book_qty_absent _ _ l1), (book_qty_absent _ _ l2); [lia|..].
  - eapply Forall_impl; [exact Hf|]. cbn. lia.
  - apply Forall_forall. intros y Hy. specialize (Hc y x Hy ltac:(set_solver)). lia.
Qed.

Lemma RemoveOrder_spec o b :
  book_ok b → valid_side (Side o) →
  0 < RemainQuantity o ≤ book_qty (Side o) (Price o) b →
  ∃ b', RemoveOrder o b = Ok b' ∧ book_ok b' ∧
    ∀ s p, valid_side s → book_qty s p b' = book_qty s p b - order_qty o s p.
Proof.
  intros Hb Hside Hq. unfold RemoveOrder. set (k := Search _ _).
  destruct (book_cut b (Price o) Hb) as (H1 & Hcase). fold k in H1, Hcase.
  destruct Hcase as [(it & Ek & Ep & Em & H2)|(Hne & H2)].
  - assert (k < length b)%nat as Hk by (by eapply lookup_lt_Some).
    rewrite Ek. destruct (Nat.ltb_spec k (length b)); [|lia]. dec_simp.
    rewrite Ep, Z.eqb_refl. cbn [andb or_panic mbind outcome_bind].
    set (y := if decide (Side o = BuyOrder)
      then set_BuyQuantity (BuyQuantity it - RemainQuantity o) it
      else set_SellQuantity (SellQuantity it - RemainQuantity o) it).
    match goal with |- ∃ b', (RemoveIfEmpty k ?B ≫= _) = _ ∧ _ =>
      replace B with (take k b ++ y :: drop (S k) b) end.
    2:{ rewrite <-insert_take_drop by done. unfold y, valid_side in *.
        rewrite !Dec.Sub_spec. repeat case_decide; (done || naive_solver). }
    assert (item_ok it) as (?&?&?).
    { destruct Hb as [_ Hb]. by eapply Forall_lookup_1. }
    rewrite Em in Hb, Hq. rewrite <-Ep, book_qty_middle in Hq by done.
    destruct (RemoveIfEmpty_spec (take k b) (drop (S k) b) it y) as (r & Er & Hr & Hrq);
      [done|unfold y; by case_decide|..].
    1-2: unfold y, side_qty in *; destruct (decide (Side o = BuyOrder)); cbn; lia.
    rewrite length_take_le in Er by lia. rewrite Er. cbn.
    eexists. split; [done|]. split; [done|]. intros s p Hs.
    rewrite Hrq, (book_qty_update _ _ it y), <-Em by (unfold y; by case_decide).
    unfold order_qty, y, side_qty. rewrite Ep. unfold valid_side in *.
    repeat case_decide; cbn; destruct_and?; subst; try lia; naive_solver.
  - exfalso. rewrite <-(take_drop k b), book_qty_app, !book_qty_absent in Hq; [lia|..];
      eapply Forall_impl; [done| |done|]; cbn; lia.
Qed.

(** Inserting a list of orders, the way a book is built. *)
Definition insert_all (os : list Order) (b : DepthBook) : outcome DepthBook :=
  foldl (λ acc o, acc ≫= InsertOrder o) (Ok b) os.

Definition open_order (o : Order) : Prop := valid_side (Side o) ∧ 0 < RemainQuantity o.

Lemma insert_all_spec os b : book_ok b → Forall open_order os →
  ∃ b', insert_all os b = Ok b' ∧ book_ok b' ∧
    ∀ s p, valid_side s →
      book_qty s p b' = book_qty s p b + zsum ((λ o, order_qty o s p) <$> os).
Proof.
  intros Hb Hos. revert b Hb. induction Hos as [|o os [Ho1 Ho2] Hos IH]; intros b Hb.
  - exists b. split; [done|]. split; [done|]. intros. cbn. lia.
  - destruct (InsertOrder_spec o b) as (b1 & E1 & Hb1 & Hq1); [done..|].
    destruct (IH b1 Hb1) as (b2 & E2 & Hb2 & Hq2). exists b2.
    split; [|split; [done|]].
    + unfold insert_all in *. cbn [foldl]. cbn [mbind outcome_bind]. by rewrite E1.
    + intros s p Hs. rewrite Hq2, Hq1 by done. cbn. unfold zsum. cbn. lia.
Qed.
End proofs.

(** ** Correctness *)

Section correctness.
Context `{DL : Dec.Laws}.

(** C10  Inserting an order into a well-formed book never indexes out of
    range, keeps the book sorted with no empty level, and adds the order's
    remaining quantity at its price and side and nowhere else. *)
Theorem InsertOrder_correct o b :
  book_ok b → open_order o →
  ∃ b', InsertOrder o b = Ok b' ∧ book_ok b' ∧
    ∀ s p, valid_side s → book_qty s p b' = book_qty s p b + order_qty o s p.
Proof. intros Hb [??]. by apply InsertOrder_spec. Qed.

(** Removing an order undoes its insertion exactly: whatever happened to
    the slice (a new level, a merged level), the book is the one before. *)
Theorem RemoveOrder_InsertOrder o b :
  book_ok b → open_order o →
  (InsertOrder o b ≫= RemoveOrder o) = Ok b.
Proof.
  intros Hb [Hs Hq]. destruct (InsertOrder_spec o b) as (b1 & E1 & Hb1 & Hq1); [done..|].
  assert (order_qty o (Side o) (Price o) = RemainQuantity o) as Eo
    by (unfold order_qty; by rewrite decide_True).
  destruct (RemoveOrder_spec o b1) as (b2 & E2 & Hb2 & Hq2); [done..| |].
  { rewrite Hq1, Eo by done. pose proof (book_qty_nonneg (Side o) (Price o) b (proj2 Hb)). lia. }
  rewrite E1. cbn. rewrite E2. f_equal. apply book_ext; [done..|].
  intros s p Hsp. rewrite Hq2, Hq1 by done. lia.
Qed.

(** The book is a function of the multiset of open orders: inserting the
    same orders in any order gives the same slice. *)
Theorem insert_all_perm os os' b :
  book_ok b → Forall open_order os → os ≡ₚ os' →
  insert_all os b = insert_all os' b ∧ is_ok (insert_all os b) = true.
Proof.
  intros Hb Hos Hp. destruct (insert_all_spec os b Hb Hos) as (b1 & E1 & Hb1 & Hq1).
  destruct (insert_all_spec os' b Hb) as (b2 & E2 & Hb2 & Hq2); [by rewrite <-Hp|].
  rewrite E1, E2. split; [|done]. f_equal. apply book_ext; [done..|]. intros s p Hs.
  rewrite Hq1, Hq2 by done. f_equal. apply zsum_perm. by rewrite Hp.
Qed.
End correctness.

(** ** Witnesses: a concrete book and concrete orders *)

Definition ex_order (side : string) (price quantity : Z) : Order :=
  MkOrder "" "ID0000000001-1" "alice" "xxb_okt" side price quantity OrderStatusOpen 0
    quantity quantity 0 100 (MkCoin "okt" 0) ∅.

Definition ex_book : list DepthBookItem :=
  [MkItem 30 0 5; MkItem 20 7 2; MkItem 10 4 0].

Lemma ex_book_ok : book_ok ex_book.
Proof. unfold book_ok, desc, item_ok, ex_book. split; repeat constructor; cbn; lia. Qed.

Lemma ex_order_open side p q : valid_side side → 0 < q → open_order (ex_order side p q).
Proof. by split. Qed.

#[local] Existing Instance Dec18.ops.
#[local] Existing Instance Dec18.dec_laws.

Lemma InsertOrder_correct_witness :
  InsertOrder (ex_order BuyOrder 25 3) ex_book =
    Ok [MkItem 30 0 5; MkItem 25 3 0; MkItem 20 7 2; MkItem 10 4 0] ∧
  ∃ b', InsertOrder (ex_order BuyOrder 25 3) ex_book = Ok b' ∧ book_ok b' ∧
    ∀ s p, valid_side s → book_qty s p b' =
      book_qty s p ex_book + order_qty (ex_order BuyOrder 25 3) s p.
Proof.
  split; [reflexivity|].
  apply (InsertOrder_correct (ex_order BuyOrder 25 3) ex_book);
    [apply ex_book_ok|apply ex_order_open; [by left|lia]].
Defined.

Lemma RemoveOrder_InsertOrder_witness :
  (InsertOrder (ex_order SellOrder 20 3) ex_book ≫= RemoveOrder (ex_order SellOrder 20 3))
  = Ok ex_book.
Proof.
  apply (RemoveOrder_InsertOrder (ex_order SellOrder 20 3) ex_book);
    [apply ex_book_ok|apply ex_order_open; [by right|lia]].
Defined.

Lemma insert_all_perm_witness :
  let a := ex_order SellOrder 20 3 in let b := ex_order BuyOrder 40 1 in
  insert_all [a; b] ex_book = insert_all [b; a] ex_book ∧
  is_ok (insert_all [a; b] ex_book) = true.
Proof.
  apply insert_all_perm; [apply ex_book_ok| |apply perm_swap].
  repeat constructor; cbn; (lia || by right || by left).
Defined.
