(* ===== verification/Match.v ===== *)
(** * The periodic auction price: src/x/order/match/periodicauction/match.go

    [periodicAuctionMatchPrice] picks the price of a call auction from a depth
    book: prefix sums of the demand, suffix sums of the supply, then three rules
    (largest execution, smallest imbalance, market pressure around a reference
    price).  The abstract side is [demand] and [supply] at an arbitrary price;
    the theorems at the end state that the price found is optimal among all
    prices, that no slice access of the computation is out of range, and how
    ties are broken. *)

From S2P Require Import Prelude SdkDec SdkCoins GoStd OrderTypes DepthBook.

#[local] Open Scope Z_scope.

Section ops.
Context `{DO : Dec.Ops}.

(** buyAmountSum[i] = buyAmountSum[i-1] + Items[i].BuyQuantity *)
Fixpoint sums_from (acc : Dec) (l : list Dec) : list Dec :=
  match l with
  | [] => []
  | x :: l => let a := Dec.Add acc x in a :: sums_from a l
  end.

Definition buy_sums (l : list Dec) : list Dec :=
  match l with [] => [] | x :: l => x :: sums_from x l end.

(** sellAmountSum[i] = sellAmountSum[i+1] + Items[i].SellQuantity *)
Fixpoint sell_sums (l : list Dec) : list Dec :=
  match l with
  | [] => []
  | x :: l =>
      let r := sell_sums l in
      match r with
      | [] => [x]
      | y :: _ => Dec.Add y x :: r
      end
  end.

Definition preMatchProcessing (book : DepthBook) : list Dec * list Dec :=
  (buy_sums (BuyQuantity <$> book), sell_sums (SellQuantity <$> book)).

(** One iteration per entry of buyAmountSum; sellAmountSum[i] may be missing. *)
Fixpoint rule0_loop (buyAmountSum sellAmountSum : list Dec) (maxExecution : Dec)
    : outcome (Dec * list Dec) :=
  match buyAmountSum, sellAmountSum with
  | [], _ => Ok (maxExecution, [])
  | b :: bs, s :: ss =>
      let e := Dec.MinDec b s in
      r ← rule0_loop bs ss (Dec.MaxDec e maxExecution);
      Ok (fst r, e :: snd r)
  | _ :: _, [] => Panic
  end.

Definition execRule0 (buyAmountSum sellAmountSum : list Dec) : outcome (Dec * list Dec) :=
  rule0_loop buyAmountSum sellAmountSum Dec.ZeroDec.

Fixpoint rule1_loop (maxExecution : Dec) (execution : list Dec) (i : nat) : list nat :=
  match execution with
  | [] => []
  | e :: es =>
      if Dec.Equal e maxExecution then i :: rule1_loop maxExecution es (S i)
      else rule1_loop maxExecution es (S i)
  end.

Definition execRule1 (maxExecution : Dec) (execution : list Dec) : list nat :=
  rule1_loop maxExecution execution 0.

Fixpoint rule2_loop (minAbsImbalance : Dec) (indexes : list nat) (imbalance : list Dec)
    : list nat :=
  match indexes, imbalance with
  | i :: ix, x :: xs =>
      if Dec.Equal (Dec.Abs x) minAbsImbalance then i :: rule2_loop minAbsImbalance ix xs
      else rule2_loop minAbsImbalance ix xs
  | _, _ => []
  end.

Definition execRule2 (buyAmountSum sellAmountSum : list Dec) (indexesRule1 : list nat)
    : outcome (list nat * list Dec) :=
  imbalance ← mapM (λ i,
    b ← or_panic (buyAmountSum !! i); s ← or_panic (sellAmountSum !! i);
    Ok (Dec.Sub b s)) indexesRule1;
  match imbalance with
  | [] => Panic
  | x :: xs =>
      let minAbsImbalance := foldl (λ m y, Dec.MinDec m (Dec.Abs y)) (Dec.Abs x) xs in
      Ok (rule2_loop minAbsImbalance indexesRule1 imbalance, imbalance)
  end.

(** The parameters are called minPrice and maxPrice in the source. *)
Definition bestPriceFromRefPrice (minPrice maxPrice refPrice : Dec) : Dec :=
  if Dec.LTE minPrice refPrice then minPrice
  else if Dec.GTE maxPrice refPrice then maxPrice
  else refPrice.

(** imbalance[index-offset] *)
Definition at_offset (imbalance : list Dec) (index offset : nat) : outcome Dec :=
  if (index <? offset)%nat then Panic else or_panic (imbalance !! (index - offset)%nat).

Definition execRule3 (book : DepthBook) (offset : nat) (refPrice : Dec) (pricePrecision : Z)
    (indexesRule2 : list nat) (imbalance : list Dec) : outcome Dec :=
  i0 ← or_panic (head indexesRule2);
  first ← at_offset imbalance i0 offset;
  i1 ← or_panic (last indexesRule2);
  newRefPrice ←
    (if Dec.GT first Dec.ZeroDec then
       Ok (Dec.RoundDecimal (Dec.Mul refPrice (Dec.MustNewDecFromStr "1.05")) pricePrecision)
     else
       lst ← at_offset imbalance i1 offset;
       if Dec.LT lst Dec.ZeroDec then
         Ok (Dec.RoundDecimal (Dec.Mul refPrice (Dec.MustNewDecFromStr "0.95")) pricePrecision)
       else Ok (Dec.RoundDecimal refPrice pricePrecision));
  it0 ← or_panic (book !! i0);
  it1 ← or_panic (book !! i1);
  Ok (bestPriceFromRefPrice (iPrice it0) (iPrice it1) newRefPrice).

Definition periodicAuctionMatchPrice (book : DepthBook) (pricePrecision : Z) (refPrice : Dec)
    : outcome (Dec * Dec) :=
  let '(buyAmountSum, sellAmountSum) := preMatchProcessing book in
  if (length buyAmountSum =? 0)%nat then Ok (Dec.ZeroDec, Dec.ZeroDec)
  else
    r0 ← execRule0 buyAmountSum sellAmountSum;
    let '(maxExecution, execution) := (r0 : Dec * list Dec) in
    if Dec.IsZero maxExecution then Ok (refPrice, maxExecution)
    else
      let indexesRule1 := execRule1 maxExecution execution in
      i0 ← or_panic (head indexesRule1);
      if (length indexesRule1 =? 1)%nat then
        it ← or_panic (book !! i0);
        Ok (iPrice it, maxExecution)
      else
        r2 ← execRule2 buyAmountSum sellAmountSum indexesRule1;
        let '(indexesRule2, imbalance) := (r2 : list nat * list Dec) in
        if (length indexesRule2 =? 1)%nat then
          j0 ← or_panic (head indexesRule2);
          it ← or_panic (book !! j0);
          Ok (iPrice it, maxExecution)
        else
          bestPrice ← execRule3 book i0 refPrice pricePrecision indexesRule2 imbalance;
          Ok (bestPrice, maxExecution).
End ops.

(** ** The abstract auction

    What buyers would take and sellers would give at an arbitrary price. *)

Definition demand (book : DepthBook) (p : Dec) : Z :=
  zsum ((λ it, if (p <=? iPrice it)%Z then BuyQuantity it else 0) <$> book).
Definition supply (book : DepthBook) (p : Dec) : Z :=
  zsum ((λ it, if (iPrice it <=? p)%Z then SellQuantity it else 0) <$> book).
Definition exec_at (book : DepthBook) (p : Dec) : Z := Z.min (demand book p) (supply book p).
Definition imbalance_at (book : DepthBook) (p : Dec) : Z := demand book p - supply book p.

(** The same by position: demand of the first [k] levels, supply of the others. *)
Definition dem (book : DepthBook) (k : nat) : Z := zsum (take k (BuyQuantity <$> book)).
Definition sup (book : DepthBook) (k : nat) : Z := zsum (drop k (SellQuantity <$> book)).
Definition ex (book : DepthBook) (i : nat) : Z := Z.min (dem book (S i)) (sup book i).
Definition imb (book : DepthBook) (i : nat) : Z := dem book (S i) - sup book i.

Section by_position.
Context (b : DepthBook) (Hb : book_ok b).

Lemma buys_nonneg : Forall (λ x, 0 ≤ x) (BuyQuantity <$> b).
Proof.
  destruct Hb as [_ Hi]. apply Forall_fmap. eapply Forall_impl; [done|]. by intros ? (?&?&?).
Qed.

Lemma sells_nonneg : Forall (λ x, 0 ≤ x) (SellQuantity <$> b).
Proof.
  destruct Hb as [_ Hi]. apply Forall_fmap. eapply Forall_impl; [done|]. by intros ? (?&?&?).
Qed.

Lemma dem_mono i j : (i ≤ j)%nat → dem b i ≤ dem b j.
Proof. apply zsum_take_mono, buys_nonneg. Qed.

Lemma sup_anti i j : (i ≤ j)%nat → sup b j ≤ sup b i.
Proof. apply zsum_drop_anti, sells_nonneg. Qed.

Lemma dem_nonneg i : 0 ≤ dem b i.
Proof. apply zsum_nonneg, Forall_take, buys_nonneg. Qed.

Lemma sup_nonneg i : 0 ≤ sup b i.
Proof. apply zsum_nonneg, Forall_drop, sells_nonneg. Qed.

(** The imbalance grows as the price falls. *)
Lemma imb_mono i j : (i ≤ j)%nat → imb b i ≤ imb b j.
Proof.
  intros Hij. unfold imb. pose proof (dem_mono (S i) (S j) ltac:(lia)).
  pose proof (sup_anti i j Hij). lia.
Qed.

(** Every price separates the book: [k'] levels are above it and [k] at or
    above it, where at most one level is at it. *)
Lemma price_position p :
  ∃ k k', (k' ≤ k ≤ S k')%nat ∧ (k ≤ length b)%nat ∧
    demand b p = dem b k ∧ supply b p = sup b k' ∧
    (∀ i it, b !! i = Some it →
      ((i < k)%nat ↔ p ≤ iPrice it) ∧ ((i < k')%nat ↔ p < iPrice it)).
Proof.
  clear -Hb. unfold demand, supply, dem, sup.
  induction b as [|x l IH]; [exists 0%nat, 0%nat; cbn; set_solver by lia|].
  apply book_ok_cons in Hb as (Hf & Hx & Hl).
  destruct (Z.lt_trichotomy p (iPrice x)) as [Hp|[Hp|Hp]].
  - destruct (IH Hl) as (k & k' & Hk & Hkl & Ed & Es & Hi). exists (S k), (S k').
    rewrite !fmap_cons. cbn [take drop length]. rewrite !zsum_cons, Ed, Es.
    destruct (Z.leb_spec p (iPrice x)); [|lia]. destruct (Z.leb_spec (iPrice x) p); [lia|].
    split; [lia|]. split; [lia|]. split; [done|]. split; [lia|].
    intros [|i] it; cbn; [intros [= <-]; lia|]. intros Ei. specialize (Hi i it Ei). lia.
  - exists 1%nat, 0%nat. subst p. clear IH. split; [lia|]. cbn [length]. split; [lia|].
    rewrite !fmap_cons. cbn [take drop]. rewrite !zsum_cons, Z.leb_refl. split; [|split].
    + replace (zsum ((λ it, if (iPrice x <=? iPrice it)%Z then BuyQuantity it else 0) <$> l))
        with 0; [by rewrite take_0|].
      induction Hf as [|y l Hy Hf IH]; [done|].
      rewrite fmap_cons, zsum_cons, <-IH by (by apply book_ok_cons in Hl as (?&?&?)).
      destruct (Z.leb_spec (iPrice x) (iPrice y)); cbn in *; lia.
    + f_equal. f_equal. apply list_fmap_ext. intros i y Hy.
      eapply Forall_lookup_1 in Hf; [|done]. destruct (Z.leb_spec (iPrice y) (iPrice x)); cbn in *; lia.
    + intros [|i] it; cbn; [intros [= <-]; lia|]. intros Ei.
      eapply Forall_lookup_1 in Hf; [|done]. cbn in Hf. lia.
  - exists 0%nat, 0%nat. clear IH. split; [lia|]. cbn [length]. split; [lia|].
    cbn [take drop].
    assert (Forall (λ y, iPrice y < p) (x :: l)) as Hall.
    { constructor; [done|]. eapply Forall_impl; [done|]. cbn. lia. }
    clear -Hall. rewrite take_0, drop_0. split; [|split].
    + induction Hall as [|y l' Hy Hf IH]; [done|].
      rewrite fmap_cons, zsum_cons, IH. destruct (Z.leb_spec p (iPrice y)); cbn in *; lia.
    + f_equal. apply list_fmap_ext. intros i y Hy.
      eapply Forall_lookup_1 in Hall; [|done]. destruct (Z.leb_spec (iPrice y) p); cbn in *; lia.
    + intros i it Ei. eapply Forall_lookup_1 in Hall; [|done]. cbn in Hall. lia.
Qed.
End by_position.

(** ** The slices the code computes, by position *)

Section slices.
Context `{DL : Dec.Laws}.

Lemma sums_from_seq acc l s :
  sums_from acc l = (λ i, acc + zsum (take (S i - s) l)) <$> seq s (length l).
Proof.
  revert acc s. induction l as [|x l IH]; intros acc s; [done|].
  cbn [sums_from length seq]. rewrite fmap_cons. dec_simp. f_equal.
  - replace (S s - s)%nat with 1%nat by lia. by rewrite zsum_take_1.
  - rewrite (IH _ (S s)). apply list_fmap_ext. intros i k [-> Hk]%lookup_seq.
    replace (S (S s + i) - s)%nat with (S (S (S s + i) - S s)) by lia.
    cbn [take]. rewrite zsum_cons. lia.
Qed.

Lemma buy_sums_seq b : buy_sums (BuyQuantity <$> b) = (λ i, dem b (S i)) <$> seq 0 (length b).
Proof.
  unfold dem, buy_sums. destruct b as [|x l]; [done|]. rewrite fmap_cons.
  cbn [length seq]. rewrite fmap_cons. f_equal; [by rewrite zsum_take_1|].
  rewrite (sums_from_seq _ _ 1), length_fmap. apply list_fmap_ext.
  intros i k [-> Hk]%lookup_seq. cbn [take]. rewrite zsum_cons.
  by replace (S (1 + i) - 1)%nat with (1 + i)%nat by lia.
Qed.

Lemma sell_sums_seq b : sell_sums (SellQuantity <$> b) = sup b <$> seq 0 (length b).
Proof.
  unfold sup. induction b as [|x l IH]; [done|]. rewrite fmap_cons. cbn [sell_sums length seq].
  rewrite IH, fmap_cons. cbn [drop]. rewrite <-fmap_S_seq, <-list_fmap_compose.
  destruct l as [|y l]; [cbn; by rewrite Z.add_0_r|].
  cbn [length seq]. rewrite fmap_cons. cbn [drop]. dec_simp.
  rewrite zsum_cons. f_equal. rewrite drop_0. lia.
Qed.

Lemma rule0_loop_seq f g l m :
  rule0_loop (f <$> l) (g <$> l) m =
  Ok (foldl (λ (m : Z) (i : nat), Z.max (Z.min (f i) (g i)) m) m l,
      (λ i, Z.min (f i) (g i)) <$> l).
Proof.
  revert m. induction l as [|i l IH]; intros m; [done|].
  rewrite !fmap_cons. cbn [rule0_loop]. dec_simp. rewrite IH. done.
Qed.

Lemma rule1_loop_seq E f s n :
  rule1_loop E (f <$> seq s n) s = filter (λ i, f i = E) (seq s n).
Proof.
  revert s. induction n as [|n IH]; intros s; [done|]. cbn [seq].
  rewrite fmap_cons, filter_cons. cbn [rule1_loop]. dec_simp. rewrite IH.
  case_decide as Es; [by rewrite Es, Z.eqb_refl|]. by apply Z.eqb_neq in Es as ->.
Qed.

Lemma rule2_loop_filter m f l :
  rule2_loop m l (f <$> l) = filter (λ i, Z.abs (f i) = m) l.
Proof.
  induction l as [|i l IH]; [done|]. rewrite fmap_cons, filter_cons. cbn [rule2_loop].
  dec_simp. rewrite IH. case_decide as Es; [by rewrite Es, Z.eqb_refl|].
  by apply Z.eqb_neq in Es as ->.
Qed.

Lemma imbalances_seq b l : Forall (λ i, i < length b)%nat l →
  mapM (λ i, x ← or_panic (buy_sums (BuyQuantity <$> b) !! i);
             s ← or_panic (sell_sums (SellQuantity <$> b) !! i);
             Ok (Dec.Sub x s)) l = Ok (imb b <$> l).
Proof.
  intros Hl. rewrite buy_sums_seq, sell_sums_seq. induction Hl as [|i l Hi Hl IH]; [done|].
  cbn [mapM]. rewrite IH. rewrite !list_lookup_fmap, lookup_seq_lt by done.
  cbn. dec_simp. done.
Qed.

(** Rule 2 selects the positions of least absolute imbalance. *)
Lemma execRule2_spec b i l : Forall (λ i, i < length b)%nat (i :: l) →
  ∃ m, execRule2 (buy_sums (BuyQuantity <$> b)) (sell_sums (SellQuantity <$> b)) (i :: l) =
    Ok (filter (λ j, Z.abs (imb b j) = m) (i :: l), imb b <$> i :: l) ∧
    (∀ j, j ∈ i :: l → m ≤ Z.abs (imb b j)) ∧ ∃ j, j ∈ i :: l ∧ Z.abs (imb b j) = m.
Proof.
  intros Hl. unfold execRule2. rewrite imbalances_seq by done.
  cbn [mbind outcome_bind]. rewrite fmap_cons.
  set (m := foldl _ _ _).
  assert (m = foldl (λ m j, Z.min m (Z.abs (imb b j))) (Z.abs (imb b i)) l) as Em.
  { unfold m. rewrite Dec.Abs_spec. generalize (Z.abs (imb b i)). clear -DL.
    induction l as [|j l IH]; intros z; [done|]. rewrite fmap_cons. cbn [foldl].
    dec_simp. apply IH. }
  exists m. split; [by rewrite <-fmap_cons, rule2_loop_filter|].
  destruct (foldl_min_spec (λ j, Z.abs (imb b j)) l (Z.abs (imb b i))) as (H1 & H2 & H3).
  rewrite <-Em in H1, H2, H3. split.
  - intros j [->|Hj]%elem_of_cons; auto.
  - destruct H3 as [H3|(j & Hj & Ej)]; [exists i|exists j]; set_solver.
Qed.
End slices.

(** ** What the auction promises *)

Section spec.
Context `{DO : Dec.Ops}.

(** The prices rules 1 and 2 leave: levels of the book where the execution is
    [E], of least absolute imbalance among those. *)
Definition candidate (b : DepthBook) (E : Z) (p : Dec) : Prop :=
  p ∈ iPrice <$> b ∧ exec_at b p = E ∧
  ∀ q, q ∈ iPrice <$> b → exec_at b q = E → Z.abs (imbalance_at b p) ≤ Z.abs (imbalance_at b q).

(** The reference price of rule 3: 5% up under buy side pressure, 5% down
    under sell side pressure, in both cases rounded to the price digits. *)
Inductive reference (b : DepthBook) (E : Z) (prec : Z) (ref : Dec) : Dec → Prop :=
| ref_buy_pressure :
    (∀ p, candidate b E p → 0 < imbalance_at b p) →
    reference b E prec ref
      (Dec.RoundDecimal (Dec.Mul ref (Dec.MustNewDecFromStr "1.05")) prec)
| ref_sell_pressure :
    (∀ p, candidate b E p → imbalance_at b p < 0) →
    reference b E prec ref
      (Dec.RoundDecimal (Dec.Mul ref (Dec.MustNewDecFromStr "0.95")) prec)
| ref_no_pressure p q :
    candidate b E p → imbalance_at b p ≤ 0 → candidate b E q → 0 ≤ imbalance_at b q →
    reference b E prec ref (Dec.RoundDecimal ref prec).

(** [x] is the point of the interval [lo, hi] nearest to [r]. *)
Definition nearest (lo hi r x : Z) : Prop :=
  lo ≤ x ≤ hi ∧ ∀ y, lo ≤ y ≤ hi → Z.abs (x - r) ≤ Z.abs (y - r).

Inductive auction (b : DepthBook) (prec : Z) (ref : Dec) : Dec → Dec → Prop :=
| auction_empty : b = [] → auction b prec ref 0 0
| auction_no_match : b ≠ [] → (∀ p, exec_at b p ≤ 0) → auction b prec ref ref 0
| auction_match bp E lo hi r :
    0 < E →
    (∀ p, exec_at b p ≤ E) →
    exec_at b bp = E →
    (∀ q, q ∈ iPrice <$> b → exec_at b q = E →
      Z.abs (imbalance_at b bp) ≤ Z.abs (imbalance_at b q)) →
    candidate b E lo → candidate b E hi → (∀ p, candidate b E p → lo ≤ p ≤ hi) →
    reference b E prec ref r → nearest lo hi r bp →
    auction b prec ref bp E.
End spec.

Section main.
Context `{DL : Dec.Laws} (b : DepthBook) (Hb : book_ok b).

Lemma level_price_in i it : b !! i = Some it → iPrice it ∈ iPrice <$> b.
Proof. intros Hi. apply list_elem_of_fmap_2. by eapply list_elem_of_lookup_2. Qed.

Lemma level_at i it : b !! i = Some it →
  exec_at b (iPrice it) = ex b i ∧ imbalance_at b (iPrice it) = imb b i.
Proof.
  intros Hi. destruct (price_position b Hb (iPrice it)) as (k & k' & Hk & _ & Ed & Es & Hpos).
  specialize (Hpos i it Hi). assert (k' = i ∧ k = S i) as [-> ->] by lia.
  unfold exec_at, imbalance_at, ex, imb. rewrite Ed, Es. done.
Qed.

(** The execution at any price is bounded by the one at some level. *)
Lemma exec_at_le E : 0 ≤ E → (∀ i, (i < length b)%nat → ex b i ≤ E) → ∀ p, exec_at b p ≤ E.
Proof.
  intros HE Hmax p.
  destruct (price_position b Hb p) as (k & k' & Hk & Hkn & Ed & Es & _).
  unfold exec_at. rewrite Ed, Es. destruct k as [|j]; [unfold dem; rewrite take_0; cbn; lia|].
  specialize (Hmax j ltac:(lia)). unfold ex in Hmax.
  destruct (decide (k' = j)) as [->|]; [done|]. replace k' with (S j) by lia.
  pose proof (sup_anti b Hb j (S j) ltac:(lia)). lia.
Qed.

Lemma ex_convex E i j k : (∀ i, (i < length b)%nat → ex b i ≤ E) →
  (i ≤ j ≤ k)%nat → (k < length b)%nat → ex b i = E → ex b k = E → ex b j = E.
Proof.
  intros Hmax Hij Hk Ei Ek. specialize (Hmax j ltac:(lia)). unfold ex in *.
  pose proof (dem_mono b Hb (S i) (S j) ltac:(lia)).
  pose proof (sup_anti b Hb j k ltac:(lia)). lia.
Qed.

Lemma prices_desc i j x y : b !! i = Some x → b !! j = Some y → (i ≤ j)%nat →
  iPrice y ≤ iPrice x.
Proof.
  intros Hi Hj Hij.
  destruct (price_position b Hb (iPrice y)) as (k & k' & _ & _ & _ & _ & Hpos).
  pose proof (proj1 (Hpos i x Hi)). pose proof (proj1 (Hpos j y Hj)). lia.
Qed.

Lemma clamp_nearest lo hi r : lo ≤ hi → nearest lo hi r (bestPriceFromRefPrice hi lo r).
Proof.
  intros. unfold nearest, bestPriceFromRefPrice. dec_simp.
  destruct (Z.leb_spec hi r); [split; [|intros]; lia|].
  destruct (Z.leb_spec r lo); split; intros; lia.
Qed.

(** Candidates by position: an interval of levels. *)
Section range.
Context (E : Z) (c l : nat) (prec : Z) (ref : Dec).
Context (HE : 0 < E) (Hmax : ∀ i, (i < length b)%nat → ex b i ≤ E).
Context (Hl : (0 < l)%nat) (Hcl : (c + l ≤ length b)%nat).
Context (Hrange : ∀ i, (i < length b)%nat → (c ≤ i < c + l)%nat ↔
  ex b i = E ∧ ∀ j, (j < length b)%nat → ex b j = E → Z.abs (imb b i) ≤ Z.abs (imb b j)).

Lemma candidate_at i it : b !! i = Some it →
  candidate b E (iPrice it) ↔ (c ≤ i < c + l)%nat.
Proof.
  intros Hi. rewrite Hrange by (by eapply lookup_lt_Some). unfold candidate.
  destruct (level_at i it Hi) as [-> ->]. split.
  - intros (_ & He & Hq). split; [done|]. intros j Hj Ej.
    destruct (lookup_lt_is_Some_2 b j Hj) as [y Hy]. destruct (level_at j y Hy) as [Ee Ei].
    rewrite <-Ei. apply Hq; [by eapply level_price_in|by rewrite Ee].
  - intros [He Hq]. split; [by eapply level_price_in|].
    split; [done|]. intros q (y & -> & [j Hj]%list_elem_of_lookup)%list_elem_of_fmap.
    destruct (level_at j y Hj) as [-> ->]. apply Hq. by eapply lookup_lt_Some.
Qed.

Lemma candidate_inv p : candidate b E p →
  ∃ i it, b !! i = Some it ∧ p = iPrice it ∧ (c ≤ i < c + l)%nat.
Proof.
  intros Hp. pose proof Hp as ((y & -> & [j Hj]%list_elem_of_lookup)%list_elem_of_fmap & _).
  exists j, y. split; [done|]. split; [done|]. by apply (candidate_at j y).
Qed.

(** Prices between the candidates are as good as the candidates. *)
Lemma between_candidates bp hi lo :
  b !! c = Some hi → b !! (c + l - 1)%nat = Some lo → iPrice lo ≤ bp ≤ iPrice hi →
  exec_at b bp = E ∧ ∀ q, q ∈ iPrice <$> b → exec_at b q = E →
    Z.abs (imbalance_at b bp) ≤ Z.abs (imbalance_at b q).
Proof.
  intros Hhi Hlo Hbp.
  destruct (price_position b Hb bp) as (k & k' & Hk & Hkn & Ed & Es & Hpos).
  pose proof (proj1 (Hpos c hi Hhi)) as Hc. pose proof (proj2 (Hpos _ lo Hlo)) as Hc'.
  assert (∃ j, (c ≤ j)%nat ∧ (j ≤ k' ≤ S j)%nat ∧ (k' < c + l)%nat ∧ k = S j) as
    (j & Hj & Hjk & Hk' & ->) by (exists (k - 1)%nat; lia).
  destruct (proj1 (Hrange j ltac:(lia)) ltac:(lia)) as [Ej Hmj].
  destruct (proj1 (Hrange k' ltac:(lia)) ltac:(lia)) as [Ek Hmk].
  pose proof (dem_mono b Hb (S j) (S k') ltac:(lia)).
  pose proof (sup_anti b Hb j k' ltac:(lia)).
  split.
  - unfold exec_at, ex in *. specialize (Hmax j ltac:(lia)). lia.
  - intros q (y & -> & [i Hi]%list_elem_of_lookup)%list_elem_of_fmap Eq.
    assert (i < length b)%nat as Hin by (by eapply lookup_lt_Some).
    destruct (level_at i y Hi) as [Ee ->].
    rewrite Eq in Ee. specialize (Hmj i Hin (eq_sym Ee)). specialize (Hmk i Hin (eq_sym Ee)).
    unfold imbalance_at, imb in *. lia.
Qed.

Lemma auction_of_range bp hi lo r :
  b !! c = Some hi → b !! (c + l - 1)%nat = Some lo →
  reference b E prec ref r → nearest (iPrice lo) (iPrice hi) r bp → auction b prec ref bp E.
Proof.
  intros Hhi Hlo Hr Hn. destruct (between_candidates bp hi lo Hhi Hlo (proj1 Hn)) as [He Hi].
  apply (auction_match b prec ref bp E (iPrice lo) (iPrice hi) r); try done.
  - apply exec_at_le; [lia|done].
  - apply (candidate_at _ _ Hlo). lia.
  - apply (candidate_at _ _ Hhi). lia.
  - intros p (i & it & Hit & -> & Hi')%candidate_inv.
    pose proof (prices_desc c i hi it Hhi Hit ltac:(lia)).
    pose proof (prices_desc i _ it lo Hit Hlo ltac:(lia)). lia.
Qed.

(** The code's choice of the reference, from the two ends of the range. *)
Lemma reference_of_range :
  reference b E prec ref
    (if (0 <? imb b c)%Z
     then Dec.RoundDecimal (Dec.Mul ref (Dec.MustNewDecFromStr "1.05")) prec
     else if (imb b (c + l - 1) <? 0)%Z
     then Dec.RoundDecimal (Dec.Mul ref (Dec.MustNewDecFromStr "0.95")) prec
     else Dec.RoundDecimal ref prec).
Proof.
  destruct (Z.ltb_spec 0 (imb b c)); [|destruct (Z.ltb_spec (imb b (c + l - 1)) 0)].
  - apply ref_buy_pressure. intros p (i & it & Hit & -> & Hi')%candidate_inv.
    destruct (level_at i it Hit) as [_ ->]. pose proof (imb_mono b Hb c i ltac:(lia)). lia.
  - apply ref_sell_pressure. intros p (i & it & Hit & -> & Hi')%candidate_inv.
    destruct (level_at i it Hit) as [_ ->].
    pose proof (imb_mono b Hb i (c + l - 1) ltac:(lia)). lia.
  - destruct (lookup_lt_is_Some_2 b c ltac:(lia)) as [hi Hhi].
    destruct (lookup_lt_is_Some_2 b (c + l - 1) ltac:(lia)) as [lo Hlo].
    apply (ref_no_pressure b E prec ref (iPrice hi) (iPrice lo)).
    + apply (candidate_at _ _ Hhi). lia.
    + by destruct (level_at c hi Hhi) as [_ ->].
    + apply (candidate_at _ _ Hlo). lia.
    + by destruct (level_at _ lo Hlo) as [_ ->].
Qed.
End range.

(** Rule 1: an interval of levels. *)
Lemma rule1_range E i0 : (∀ i, (i < length b)%nat → ex b i ≤ E) →
  (i0 < length b)%nat → ex b i0 = E →
  ∃ a m, filter (λ i, ex b i = E) (seq 0 (length b)) = seq a (S m) ∧ (a + S m ≤ length b)%nat.
Proof.
  intros Hmax Hi0 E0.
  destruct (filter_seq_convex (λ i, ex b i = E) 0 (length b)) as (a & m & Ef & _ & Ham).
  { intros i j k ????. apply (ex_convex E i j k); (done || lia). }
  exists a. assert (i0 ∈ seq a m) as Hin%elem_of_seq.
  { rewrite <-Ef. apply list_elem_of_filter. split; [done|]. apply elem_of_seq. lia. }
  exists (m - 1)%nat. rewrite Ef. replace (S (m - 1)) with m by lia. split; [done|lia].
Qed.

(** Rule 2: an interval of that interval, the candidates. *)
Lemma rule2_range a m mn : (a + m ≤ length b)%nat →
  (∀ j, j ∈ seq a m → mn ≤ Z.abs (imb b j)) → (∃ j, j ∈ seq a m ∧ Z.abs (imb b j) = mn) →
  ∃ c l, filter (λ j, Z.abs (imb b j) = mn) (seq a m) = seq c (S l) ∧
    (a ≤ c)%nat ∧ (c + S l ≤ a + m)%nat.
Proof.
  intros Ham Hmn (j0 & Hj0 & E0).
  destruct (filter_seq_convex (λ j, Z.abs (imb b j) = mn) a m) as (c & l & Ef & Hac & Hcl).
  { intros i j k Hij Hjk Ei Ek. specialize (Hmn j ltac:(apply elem_of_seq; lia)).
    pose proof (imb_mono b Hb i j ltac:(lia)). pose proof (imb_mono b Hb j k ltac:(lia)). lia. }
  exists c. assert (j0 ∈ seq c l) as Hin%elem_of_seq.
  { rewrite <-Ef. by apply list_elem_of_filter. }
  exists (l - 1)%nat. rewrite Ef. replace (S (l - 1)) with l by lia. split; [done|lia].
Qed.

Lemma candidates_of_rules E a m mn c l : (a + m ≤ length b)%nat →
  filter (λ i, ex b i = E) (seq 0 (length b)) = seq a m →
  filter (λ j, Z.abs (imb b j) = mn) (seq a m) = seq c l →
  (∀ j, j ∈ seq a m → mn ≤ Z.abs (imb b j)) → (∃ j, j ∈ seq a m ∧ Z.abs (imb b j) = mn) →
  ∀ i, (i < length b)%nat → (c ≤ i < c + l)%nat ↔
    ex b i = E ∧ ∀ j, (j < length b)%nat → ex b j = E → Z.abs (imb b i) ≤ Z.abs (imb b j).
Proof.
  intros Ham E1 E2 Hmn (j0 & Hj0 & E0) i Hi. rewrite <-elem_of_seq, <-E2, list_elem_of_filter.
  assert (∀ j, j ∈ seq a m ↔ ex b j = E ∧ (j < length b)%nat) as Hin.
  { intros j. rewrite <-E1, list_elem_of_filter, elem_of_seq. naive_solver lia. }
  rewrite (Hin i). split.
  - intros (<- & Ei & _). split; [done|]. intros j ??. apply Hmn, Hin. done.
  - intros (Ei & Hmin). split; [|done]. apply Hin in Hj0 as Hj0'. destruct Hj0' as [??].
    specialize (Hmin j0). specialize (Hmn i). rewrite Hin in Hmn. lia.
Qed.

Lemma at_offset_seq a m i : (a ≤ i < a + m)%nat →
  at_offset (imb b <$> seq a m) i a = Ok (imb b i).
Proof.
  intros Hi. unfold at_offset. destruct (Nat.ltb_spec i a); [lia|].
  rewrite list_lookup_fmap, lookup_seq_lt by lia. cbn. do 2 f_equal. lia.
Qed.

Lemma execRule3_range a m c l ref prec hi lo :
  (a ≤ c)%nat → (c + S l ≤ a + m)%nat → b !! c = Some hi → b !! (c + S l - 1)%nat = Some lo →
  execRule3 b a ref prec (seq c (S l)) (imb b <$> seq a m) =
  Ok (bestPriceFromRefPrice (iPrice hi) (iPrice lo)
      (if (0 <? imb b c)%Z
       then Dec.RoundDecimal (Dec.Mul ref (Dec.MustNewDecFromStr "1.05")) prec
       else if (imb b (c + S l - 1) <? 0)%Z
       then Dec.RoundDecimal (Dec.Mul ref (Dec.MustNewDecFromStr "0.95")) prec
       else Dec.RoundDecimal ref prec)).
Proof.
  intros Hac Hcl Hhi Hlo. unfold execRule3.
  replace (last (seq c (S l))) with (Some (c + S l - 1)%nat)
    by (rewrite last_lookup, length_seq; symmetry; apply lookup_seq; cbn; lia).
  cbn [seq head or_panic mbind outcome_bind]. rewrite !at_offset_seq by lia.
  cbn [mbind outcome_bind]. dec_simp. rewrite Hhi, Hlo. by repeat case_match.
Qed.

(** Everything after rule 0, when some execution is possible. *)
Lemma rules_correct E i0 prec ref : 0 < E → (∀ i, (i < length b)%nat → ex b i ≤ E) →
  (i0 < length b)%nat → ex b i0 = E →
  let indexesRule1 := filter (λ i, ex b i = E) (seq 0 (length b)) in
  ∃ bp, (i0 ← or_panic (head indexesRule1);
      if (length indexesRule1 =? 1)%nat then
        it ← or_panic (b !! i0);
        Ok (iPrice it, E)
      else
        r2 ← execRule2 (buy_sums (BuyQuantity <$> b)) (sell_sums (SellQuantity <$> b)) indexesRule1;
        let '(indexesRule2, imbalance) := (r2 : list nat * list Dec) in
        if (length indexesRule2 =? 1)%nat then
          j0 ← or_panic (head indexesRule2);
          it ← or_panic (b !! j0);
          Ok (iPrice it, E)
        else
          bestPrice ← execRule3 b i0 ref prec indexesRule2 imbalance;
          Ok (bestPrice, E)) = Ok (bp, E) ∧ auction b prec ref bp E.
Proof.
  intros HE Hmax Hi0 Ei0 indexesRule1.
  destruct (rule1_range E i0) as (a & m & E1 & Ham); [done..|].
  unfold indexesRule1. clear indexesRule1. rewrite E1.
  assert (Forall (λ i, i < length b)%nat (seq a (S m))) as Hsm
    by (apply Forall_forall; intros j Hj%elem_of_seq; lia).
  destruct (execRule2_spec b a (seq (S a) m) Hsm) as (mn & E2 & Hmn & Hex).
  change (a :: seq (S a) m) with (seq a (S m)) in *. rewrite E2.
  destruct (rule2_range a (S m) mn) as (c & l & E3 & Hac & Hcl); [done..|]. rewrite E3.
  destruct (lookup_lt_is_Some_2 b c ltac:(lia)) as [hi Hhi].
  destruct (lookup_lt_is_Some_2 b (c + S l - 1) ltac:(lia)) as [lo Hlo].
  pose proof (candidates_of_rules E a (S m) mn c (S l) Ham E1 E3 Hmn Hex) as Hcand.
  pose proof (reference_of_range E c (S l) prec ref ltac:(lia) ltac:(lia) Hcand) as Href.
  match type of Href with reference _ _ _ _ ?x => set (r := x) in Href end.
  assert (∀ bp, nearest (iPrice lo) (iPrice hi) r bp → auction b prec ref bp E) as Hres.
  { intros bp. apply (auction_of_range E c (S l) prec ref); (done || lia). }
  assert (l = 0%nat → auction b prec ref (iPrice hi) E) as Hone.
  { intros ->. replace (c + 1 - 1)%nat with c in Hlo by lia. simplify_eq. apply Hres.
    unfold nearest. split; [lia|]. intros y Hy. replace y with (iPrice hi) by lia. lia. }
  rewrite length_seq. change (head (seq a (S m))) with (Some a).
  cbn [or_panic mbind outcome_bind]. destruct (Nat.eqb_spec (S m) 1).
  { exists (iPrice hi). replace a with c by lia. rewrite Hhi. split; [done|]. apply Hone. lia. }
  rewrite execRule3_range with (hi := hi) (lo := lo) by (done || lia).
  rewrite length_seq. change (head (seq c (S l))) with (Some c).
  cbn [or_panic mbind outcome_bind]. destruct (Nat.eqb_spec (S l) 1).
  { exists (iPrice hi). rewrite Hhi. split; [done|]. apply Hone. lia. }
  eexists. split; [done|]. apply Hres, clamp_nearest.
  apply (prices_desc c (c + S l - 1)); (done || lia).
Qed.
End main.

Section theorem.
Context `{DL : Dec.Laws}.

Lemma match_price_spec b prec ref :
  book_ok b →
  ∃ bp E, periodicAuctionMatchPrice b prec ref = Ok (bp, E) ∧ auction b prec ref bp E.
Proof.
  intros Hb. unfold periodicAuctionMatchPrice, preMatchProcessing.
  rewrite buy_sums_seq, length_fmap, length_seq.
  destruct (Nat.eqb_spec (length b) 0) as [E0|Hn].
  { exists 0, 0. dec_simp. split; [done|]. apply auction_empty. by apply nil_length_inv. }
  rewrite sell_sums_seq. unfold execRule0. rewrite rule0_loop_seq.
  cbn [mbind outcome_bind fst snd]. dec_simp.
  pose proof (foldl_max_spec (ex b) (seq 0 (length b)) 0) as (HE0 & HEm & HEi).
  set (E := foldl _ _ _) in *. change (λ i, _ `min` _) with (ex b).
  assert (∀ i, (i < length b)%nat → ex b i ≤ E) as Hmax
    by (intros; apply HEm, elem_of_seq; lia).
  destruct (Z.eqb_spec E 0) as [Ez|Hne].
  { exists ref, E. split; [done|]. rewrite Ez.
    apply auction_no_match; [by intros ->|]. rewrite <-Ez. by apply exec_at_le; [|lia|]. }
  destruct HEi as [?|(i0 & [_ Hi0]%elem_of_seq & Ei0)]; [done|].
  unfold execRule1. rewrite rule1_loop_seq, <-buy_sums_seq, <-sell_sums_seq.
  destruct (rules_correct b Hb E i0 prec ref) as (bp & Ebp & Hbp); [lia|done|lia|done|].
  exists bp, E. split; [exact Ebp|done].
Qed.

(** C9  The auction never accesses a slice out of range and returns the price
    and volume of [auction]: the volume is the largest that demand and supply
    allow at any price at all, the price achieves it with the least imbalance of
    all levels that achieve it, and among those it is the nearest to the
    reference price that the market pressure prescribes.  A book without a
    match gives the reference price and volume 0. *)
Theorem periodicAuctionMatchPrice_correct b prec ref :
  book_ok b →
  ∃ bp E, periodicAuctionMatchPrice b prec ref = Ok (bp, E) ∧ auction b prec ref bp E.
Proof. apply match_price_spec. Qed.
End theorem.

(** ** A witness: buyers and sellers that cross *)

Definition ex_crossed : DepthBook :=
  [MkItem 105 3 0; MkItem 103 2 2; MkItem 101 1 2; MkItem 99 0 4].

Lemma ex_crossed_ok : book_ok ex_crossed.
Proof. unfold book_ok, desc, item_ok, ex_crossed. split; repeat constructor; cbn; lia. Qed.

#[local] Existing Instance Dec18.ops.
#[local] Existing Instance Dec18.dec_laws.

Lemma periodicAuctionMatchPrice_correct_witness :
  periodicAuctionMatchPrice ex_crossed 18 100 = Ok (101, 6) ∧
  ∃ bp E, periodicAuctionMatchPrice ex_crossed 18 100 = Ok (bp, E) ∧
    auction ex_crossed 18 100 bp E.
Proof.
  split; [vm_compute; reflexivity|].
  apply (periodicAuctionMatchPrice_correct ex_crossed 18 100 ex_crossed_ok).
Defined.
