(* ===== verification/Dex.v ===== *)
(** * The dex module: src/x/dex/{handler,endblocker,genesis,proposal_handler}.go,
      src/x/dex/{keeper,types}

    Trading pairs, their operators and deposits, the queue of withdrawals that
    wait for their time, transfers of ownership, the product locks that the order
    module sets, and the delisting of pairs by proposal.  [DexState] is the token
    module's state and the two dex stores; keys that the source prefixes with a
    byte are separate maps.  An address has a fixed length and a time is formatted
    with a fixed length in an order-preserving way, so that the keys made of an
    owner and a pair name, or of a time and an address, are pairs.  Times are in
    nanoseconds.  A nil address is the empty string.

    The staking keeper, net/url and the transaction hash are
    parameters ([Env]).  The gov module's queue of active proposals, from which a
    delisting removes its proposal, is the set [govQueue].  The observers that the
    keeper notifies (the stream module) do not write to the state. *)

From S2P Require Import Prelude SdkDec SdkCoins GoStd CommonErrors Common DexErrors GovErrors Token OrderTypes.

#[local] Open Scope Z_scope.

Module Dex.

Definition ModuleName : string := "dex".
Definition DefaultMaxPriceDigitSize : Z := 4.
Definition DefaultMaxQuantityDigitSize : Z := 4.
Definition hour : Z := 3600 * 10 ^ 9.

(** ** Types *)

Record TokenPair := MkTokenPair {
  BaseAssetSymbol : string;
  QuoteAssetSymbol : string;
  InitPrice : Dec;
  MaxPriceDigit : Z;
  MaxQuantityDigit : Z;
  MinQuantity : Dec;
  ID : Z;
  Delisting : bool;
  Owner : AccAddress;
  Deposits : SysCoin;
  tpBlockHeight : Z;
}.

Definition set_ID (x : Z) (p : TokenPair) : TokenPair :=
  MkTokenPair (BaseAssetSymbol p) (QuoteAssetSymbol p) (InitPrice p) (MaxPriceDigit p)
    (MaxQuantityDigit p) (MinQuantity p) x (Delisting p) (Owner p) (Deposits p) (tpBlockHeight p).
Definition set_InitPrice (x : Dec) (p : TokenPair) : TokenPair :=
  MkTokenPair (BaseAssetSymbol p) (QuoteAssetSymbol p) x (MaxPriceDigit p)
    (MaxQuantityDigit p) (MinQuantity p) (ID p) (Delisting p) (Owner p) (Deposits p) (tpBlockHeight p).
Definition set_Delisting (x : bool) (p : TokenPair) : TokenPair :=
  MkTokenPair (BaseAssetSymbol p) (QuoteAssetSymbol p) (InitPrice p) (MaxPriceDigit p)
    (MaxQuantityDigit p) (MinQuantity p) (ID p) x (Owner p) (Deposits p) (tpBlockHeight p).
Definition set_Owner (x : AccAddress) (p : TokenPair) : TokenPair :=
  MkTokenPair (BaseAssetSymbol p) (QuoteAssetSymbol p) (InitPrice p) (MaxPriceDigit p)
    (MaxQuantityDigit p) (MinQuantity p) (ID p) (Delisting p) x (Deposits p) (tpBlockHeight p).
Definition set_Deposits (x : SysCoin) (p : TokenPair) : TokenPair :=
  MkTokenPair (BaseAssetSymbol p) (QuoteAssetSymbol p) (InitPrice p) (MaxPriceDigit p)
    (MaxQuantityDigit p) (MinQuantity p) (ID p) (Delisting p) (Owner p) x (tpBlockHeight p).

(** TokenPair.Name *)
Definition Name (tp : TokenPair) : string := BaseAssetSymbol tp +:+ "_" +:+ QuoteAssetSymbol tp.

Record WithdrawInfo := MkWithdrawInfo {
  wOwner : AccAddress; wDeposits : SysCoin; CompleteTime : Z
}.

Record DEXOperator := MkOperator {
  oAddress : AccAddress; HandlingFeeAddress : AccAddress; Website : string;
  InitHeight : Z; oTxHash : string
}.

Record ConfirmOwnership := MkConfirmOwnership {
  cProduct : string; cFromAddress : AccAddress; cToAddress : AccAddress; cExpire : Z
}.

Record Params := MkParams {
  ListFee : SysCoin;
  TransferOwnershipFee : SysCoin;
  RegisterOperatorFee : SysCoin;
  DelistMaxDepositPeriod : Z;
  DelistMinDeposit : SysCoins;
  DelistVotingPeriod : Z;
  WithdrawPeriod : Z;
  OwnershipConfirmWindow : Z;
}.

Record DelistProposal := MkDelistProposal {
  dlTitle : string; dlDescription : string; dlProposer : AccAddress;
  dlBaseAsset : string; dlQuoteAsset : string
}.

(** The content of a proposal that is routed to this module. *)
Inductive Content := CDelist (p : DelistProposal) | COther.

(** What the module reads of a gov proposal. *)
Record Proposal := MkProposal { ProposalID : Z; VotingEndTime : Z; pContent : Content }.

Record MsgList := MkMsgList {
  mlOwner : AccAddress; ListAsset : string; QuoteAsset : string; mlInitPrice : Dec
}.
Record MsgDeposit := MkMsgDeposit {
  mdProduct : string; mdAmount : SysCoin; mdDepositor : AccAddress
}.
Record MsgWithdraw := MkMsgWithdraw {
  mwProduct : string; mwAmount : SysCoin; mwDepositor : AccAddress
}.
Record MsgTransferOwnership := MkMsgTransferOwnership {
  mtFromAddress : AccAddress; mtToAddress : AccAddress; mtProduct : string
}.
Record MsgConfirmOwnership := MkMsgConfirmOwnership {
  mcProduct : string; mcAddress : AccAddress
}.
Record MsgCreateOperator := MkMsgCreateOperator {
  coOwner : AccAddress; coWebsite : string; coHandlingFeeAddress : AccAddress
}.
Record MsgUpdateOperator := MkMsgUpdateOperator {
  uoOwner : AccAddress; uoWebsite : string; uoHandlingFeeAddress : AccAddress
}.

Inductive Msg :=
| MList (m : MsgList)
| MDeposit (m : MsgDeposit)
| MWithdraw (m : MsgWithdraw)
| MTransferOwnership (m : MsgTransferOwnership)
| MConfirmOwnership (m : MsgConfirmOwnership)
| MCreateOperator (m : MsgCreateOperator)
| MUpdateOperator (m : MsgUpdateOperator)
| MOther.

(** What the module takes from elsewhere: whether an account operates a validator,
    the scheme of a URL when it parses, and the transaction hash
    in upper case hexadecimal. *)
Class Env := {
  IsValidator : AccAddress → bool;
  url_scheme : string → option string;
  tmhash_HEX : string → string;
}.

Definition MaxTitleLength : nat := 140.
Definition MaxDescriptionLength : nat := 5000.

(** ** Stateless checks *)

Section validate.
Context `{DO : Dec.Ops} `{CO : Coins.Ops} `{E : Env}.

Definition NewMsgCreateOperator (website : string) (owner handlingFeeAddress : AccAddress)
    : MsgCreateOperator :=
  let handlingFeeAddress := if Token.Empty handlingFeeAddress then owner else handlingFeeAddress in
  MkMsgCreateOperator owner (TrimSpace website) handlingFeeAddress.

Definition NewMsgUpdateOperator (website : string) (owner handlingFeeAddress : AccAddress)
    : MsgUpdateOperator :=
  let handlingFeeAddress := if Token.Empty handlingFeeAddress then owner else handlingFeeAddress in
  MkMsgUpdateOperator owner (TrimSpace website) handlingFeeAddress.

Definition MsgList_ValidateBasic (msg : MsgList) : outcome unit :=
  if String.eqb (ListAsset msg) (QuoteAsset msg) then Err DexErr.ErrInvalidCoins
  else if negb (Dec.IsPositive (mlInitPrice msg)) then Err DexErr.ErrInitPriceIsNotPositive
  else if Token.Empty (mlOwner msg) then Err DexErr.ErrAddressIsRequired
  else Ok tt.

Definition MsgDeposit_ValidateBasic (msg : MsgDeposit) : outcome unit :=
  if Token.Empty (mdDepositor msg) then Err DexErr.ErrAddressIsRequired
  else if (negb (Coins.CoinIsValid (mdAmount msg)) || negb (Coins.CoinIsPositive (mdAmount msg)))%bool
  then Err DexErr.ErrInvalidCoins
  else Ok tt.

Definition MsgWithdraw_ValidateBasic (msg : MsgWithdraw) : outcome unit :=
  if Token.Empty (mwDepositor msg) then Err DexErr.ErrAddressIsRequired
  else if (negb (Coins.CoinIsValid (mwAmount msg)) || negb (Coins.CoinIsPositive (mwAmount msg)))%bool
  then Err DexErr.ErrInvalidCoins
  else Ok tt.

Definition MsgTransferOwnership_ValidateBasic (msg : MsgTransferOwnership) : outcome unit :=
  if Token.Empty (mtFromAddress msg) then Err DexErr.ErrAddressIsRequired
  else if Token.Empty (mtToAddress msg) then Err DexErr.ErrAddressIsRequired
  else if String.eqb (mtProduct msg) "" then Err DexErr.ErrTokenPairIsRequired
  else Ok tt.

Definition MsgConfirmOwnership_ValidateBasic (msg : MsgConfirmOwnership) : outcome unit :=
  if Token.Empty (mcAddress msg) then Err DexErr.ErrAddressIsRequired
  else if (String.length (mcProduct msg) =? 0)%nat then Err DexErr.ErrTokenPairIsRequired
  else Ok tt.

Definition checkWebsite (website : string) : outcome unit :=
  if (String.length website =? 0)%nat then Ok tt
  else if (1024 <? String.length website)%nat then Err DexErr.ErrInvalidWebsiteLength
  else match url_scheme website with
       | None => Err DexErr.ErrInvalidWebsiteURL
       | Some scheme =>
           if (negb (String.eqb scheme "http") && negb (String.eqb scheme "https"))%bool
           then Err DexErr.ErrInvalidWebsiteURL else Ok tt
       end.

Definition MsgCreateOperator_ValidateBasic (msg : MsgCreateOperator) : outcome unit :=
  if Token.Empty (coOwner msg) then Err DexErr.ErrAddressIsRequired
  else if Token.Empty (coHandlingFeeAddress msg) then Err DexErr.ErrAddressIsRequired
  else checkWebsite (coWebsite msg).

Definition MsgUpdateOperator_ValidateBasic (msg : MsgUpdateOperator) : outcome unit :=
  if Token.Empty (uoHandlingFeeAddress msg) then Err DexErr.ErrAddressIsRequired
  else checkWebsite (uoWebsite msg).

Definition ValidateBasic (msg : Msg) : outcome unit :=
  match msg with
  | MList m => MsgList_ValidateBasic m
  | MDeposit m => MsgDeposit_ValidateBasic m
  | MWithdraw m => MsgWithdraw_ValidateBasic m
  | MTransferOwnership m => MsgTransferOwnership_ValidateBasic m
  | MConfirmOwnership m => MsgConfirmOwnership_ValidateBasic m
  | MCreateOperator m => MsgCreateOperator_ValidateBasic m
  | MUpdateOperator m => MsgUpdateOperator_ValidateBasic m
  | MOther => Ok tt
  end.

(** The type check of the source compares a constant with itself. *)
Definition DelistProposal_ValidateBasic (drp : DelistProposal) : outcome unit :=
  if (String.length (TrimSpace (dlTitle drp)) =? 0)%nat then Err GovErr.ErrInvalidProposalContent
  else if (MaxTitleLength <? String.length (dlTitle drp))%nat then Err GovErr.ErrInvalidProposalContent
  else if (String.length (dlDescription drp) =? 0)%nat then Err GovErr.ErrInvalidProposalContent
  else if (MaxDescriptionLength <? String.length (dlDescription drp))%nat
  then Err GovErr.ErrInvalidProposalContent
  else if Token.Empty (dlProposer drp) then Err Coins.ErrInvalidAddress
  else if String.eqb (dlBaseAsset drp) (dlQuoteAsset drp) then Err Coins.ErrInvalidCoins
  else Ok tt.

(** The validators of ParamSetPairs, in its order. *)
Definition validate_params (p : Params) : outcome unit :=
  _ ← Common.ValidateSysCoin (Common.ISysCoin (ListFee p));
  _ ← Common.ValidateSysCoin (Common.ISysCoin (TransferOwnershipFee p));
  _ ← Common.ValidateSysCoin (Common.ISysCoin (RegisterOperatorFee p));
  _ ← Common.ValidateDurationPositive (Common.IDuration (DelistMaxDepositPeriod p));
  _ ← Common.ValidateSysCoins (Common.ISysCoins (DelistMinDeposit p));
  _ ← Common.ValidateDurationPositive (Common.IDuration (DelistVotingPeriod p));
  _ ← Common.ValidateDurationPositive (Common.IDuration (WithdrawPeriod p));
  Common.ValidateDurationPositive (Common.IDuration (OwnershipConfirmWindow p)).

Definition DefaultParams : outcome Params :=
  listFee ← or_panic (Coins.NewDecCoinFromDec Common.NativeToken (Dec.MustNewDecFromStr "20000"));
  transferFee ← or_panic (Coins.NewDecCoinFromDec Common.NativeToken (Dec.MustNewDecFromStr "10"));
  minDeposit ← or_panic (Coins.NewDecCoinFromDec Common.NativeToken (Dec.MustNewDecFromStr "100"));
  operatorFee ← or_panic (Coins.NewDecCoinFromDec Common.NativeToken Dec.ZeroDec);
  Ok (MkParams listFee transferFee operatorFee (hour * 24) [minDeposit] (hour * 72)
        (hour * 24 * 3) (24 * hour)).

Definition DefaultTokenPairDeposit : outcome SysCoin :=
  or_panic (Coins.NewDecCoin Coins.DefaultBondDenom 0).

(** TokenPair.IsGT; comparing deposits of different denominations panics. *)
Definition IsGT (tp other : TokenPair) : outcome bool :=
  lt ← or_panic (Coins.CoinIsLT (Deposits tp) (Deposits other));
  if (lt : bool) then Ok false
  else
    eq ← or_panic (Coins.CoinIsEqual (Deposits tp) (Deposits other));
    if negb eq then Ok true
    else if (tpBlockHeight tp <? tpBlockHeight other)%Z then Ok true
    else if (tpBlockHeight other <? tpBlockHeight tp)%Z then Ok false
    else Ok (String.ltb (BaseAssetSymbol tp) (BaseAssetSymbol other)
             || String.ltb (QuoteAssetSymbol tp) (QuoteAssetSymbol other))%bool.

(** WithdrawInfo.Equal *)
Definition WithdrawInfo_Equal (w other : WithdrawInfo) : outcome bool :=
  if String.eqb (wOwner w) (wOwner other) then
    eq ← or_panic (Coins.CoinIsEqual (wDeposits w) (wDeposits other));
    Ok (eq && (CompleteTime w =? CompleteTime other)%Z)%bool
  else Ok false.

(** WithdrawInfos.Equal, index by index. *)
Fixpoint WithdrawInfos_loop (ws other : list WithdrawInfo) : outcome bool :=
  match ws, other with
  | w :: ws, o :: other =>
      eq ← WithdrawInfo_Equal w o;
      if negb eq then Ok false else WithdrawInfos_loop ws other
  | _, _ => Ok true
  end.
Definition WithdrawInfos_Equal (ws other : list WithdrawInfo) : outcome bool :=
  if negb (length ws =? length other)%nat then Ok false else WithdrawInfos_loop ws other.
End validate.

(** ** State *)

Record DexState `{BO : Bank.Ops} := MkDexState {
  tok : Token.TokenState;
  pairs : gmap string TokenPair;
  userPairs : gset (AccAddress * string);
  maxID : Z;
  productLocks : gmap string ProductLock;
  operators : gmap AccAddress DEXOperator;
  withdraws : gmap AccAddress WithdrawInfo;
  withdrawQueue : gset (Z * AccAddress);
  confirms : gmap string ConfirmOwnership;
  params : Params;
  govQueue : gset (Z * Z);
}.

Section keeper.
Context `{DO : Dec.Ops} `{CO : Coins.Ops} `{BO : Bank.Ops} `{TE : !Token.Env} `{E : Env} `{RT : GoRt}.

Abbreviation MD := (M DexState) (only parsing).

Definition set_tok (x : Token.TokenState) (s : DexState) : DexState :=
  MkDexState _ x (pairs s) (userPairs s) (maxID s) (productLocks s) (operators s) (withdraws s)
    (withdrawQueue s) (confirms s) (params s) (govQueue s).
Definition set_pairs (x : gmap string TokenPair) (s : DexState) : DexState :=
  MkDexState _ (tok s) x (userPairs s) (maxID s) (productLocks s) (operators s) (withdraws s)
    (withdrawQueue s) (confirms s) (params s) (govQueue s).
Definition set_userPairs (x : gset (AccAddress * string)) (s : DexState) : DexState :=
  MkDexState _ (tok s) (pairs s) x (maxID s) (productLocks s) (operators s) (withdraws s)
    (withdrawQueue s) (confirms s) (params s) (govQueue s).
Definition set_maxID (x : Z) (s : DexState) : DexState :=
  MkDexState _ (tok s) (pairs s) (userPairs s) x (productLocks s) (operators s) (withdraws s)
    (withdrawQueue s) (confirms s) (params s) (govQueue s).
Definition set_productLocks (x : gmap string ProductLock) (s : DexState) : DexState :=
  MkDexState _ (tok s) (pairs s) (userPairs s) (maxID s) x (operators s) (withdraws s)
    (withdrawQueue s) (confirms s) (params s) (govQueue s).
Definition set_operators (x : gmap AccAddress DEXOperator) (s : DexState) : DexState :=
  MkDexState _ (tok s) (pairs s) (userPairs s) (maxID s) (productLocks s) x (withdraws s)
    (withdrawQueue s) (confirms s) (params s) (govQueue s).
Definition set_withdraws (x : gmap AccAddress WithdrawInfo) (s : DexState) : DexState :=
  MkDexState _ (tok s) (pairs s) (userPairs s) (maxID s) (productLocks s) (operators s) x
    (withdrawQueue s) (confirms s) (params s) (govQueue s).
Definition set_withdrawQueue (x : gset (Z * AccAddress)) (s : DexState) : DexState :=
  MkDexState _ (tok s) (pairs s) (userPairs s) (maxID s) (productLocks s) (operators s) (withdraws s)
    x (confirms s) (params s) (govQueue s).
Definition set_confirms (x : gmap string ConfirmOwnership) (s : DexState) : DexState :=
  MkDexState _ (tok s) (pairs s) (userPairs s) (maxID s) (productLocks s) (operators s) (withdraws s)
    (withdrawQueue s) x (params s) (govQueue s).
Definition set_params (x : Params) (s : DexState) : DexState :=
  MkDexState _ (tok s) (pairs s) (userPairs s) (maxID s) (productLocks s) (operators s) (withdraws s)
    (withdrawQueue s) (confirms s) x (govQueue s).
Definition set_govQueue (x : gset (Z * Z)) (s : DexState) : DexState :=
  MkDexState _ (tok s) (pairs s) (userPairs s) (maxID s) (productLocks s) (operators s) (withdraws s)
    (withdrawQueue s) (confirms s) (params s) x.

Definition bank (s : DexState) : Bank.state := Token.bank (tok s).
Definition set_bank (b : Bank.state) (s : DexState) : DexState :=
  set_tok (Token.set_bank b (tok s)) s.

(** A call of the supply keeper. *)
Definition on_supply {A} (m : M Bank.state A) : MD A := zoom bank set_bank m.

(** ** The keeper *)

Definition deleteUserTokenPair (owner : AccAddress) (pair : string) : MD unit :=
  modify (λ s, set_userPairs (userPairs s ∖ {[(owner, pair)]}) s).

Definition GetMaxTokenPairID (s : DexState) : Z := maxID s.
Definition SetMaxTokenPairID (id : Z) : MD unit := modify (set_maxID id).

Definition SaveTokenPair (tokenPair : TokenPair) : MD unit :=
  maxTokenPairID ← gets GetMaxTokenPairID;
  let tokenPair := if (ID tokenPair =? 0)%Z then set_ID (uint64 (maxTokenPairID + 1)) tokenPair
                   else tokenPair in
  (if (maxTokenPairID <? ID tokenPair)%Z then SetMaxTokenPairID (ID tokenPair) else mret tt);;
  let keyPair := BaseAssetSymbol tokenPair +:+ "_" +:+ QuoteAssetSymbol tokenPair in
  modify (λ s, set_pairs (<[keyPair := tokenPair]> (pairs s)) s);;
  modify (λ s, set_userPairs (userPairs s ∪ {[(Owner tokenPair, keyPair)]}) s).

Definition GetTokenPair (product : string) (s : DexState) : option TokenPair := pairs s !! product.
Definition GetTokenPairFromStore (product : string) (s : DexState) : option TokenPair :=
  pairs s !! product.
Definition GetTokenPairs (s : DexState) : list TokenPair := snd <$> kv_sorted (pairs s).

(** The pair names under the owner's prefix, in the order of the store. *)
Definition GetUserTokenPairs (owner : AccAddress) (s : DexState) : list TokenPair :=
  let names := merge_sort String.le
    (snd <$> filter (λ k, fst k = owner) (elements (userPairs s))) in
  omap (λ name, GetTokenPairFromStore name s) names.

Definition DeleteTokenPairByName (owner : AccAddress) (product : string) : MD unit :=
  modify (λ s, set_pairs (delete product (pairs s)) s);;
  deleteUserTokenPair owner product.

Definition UpdateUserTokenPair (product : string) (owner to : AccAddress) : MD unit :=
  modify (λ s, set_userPairs (userPairs s ∖ {[(owner, product)]}) s);;
  modify (λ s, set_userPairs (userPairs s ∪ {[(to, product)]}) s).

Definition UpdateTokenPair (product : string) (tokenPair : TokenPair) : MD unit :=
  modify (λ s, set_pairs (<[product := tokenPair]> (pairs s)) s).

Definition CheckTokenPairUnderDexDelist (product : string) (s : DexState) : bool * option error :=
  match GetTokenPair product s with
  | Some tp => (Delisting tp, None)
  | None => (true, Some DexErr.ErrTokenPairNotFound)
  end.

Definition GetWithdrawInfo (addr : AccAddress) (s : DexState) : option WithdrawInfo :=
  withdraws s !! addr.
Definition SetWithdrawInfo (w : WithdrawInfo) : MD unit :=
  modify (λ s, set_withdraws (<[wOwner w := w]> (withdraws s)) s).
Definition deleteWithdrawInfo (addr : AccAddress) : MD unit :=
  modify (λ s, set_withdraws (delete addr (withdraws s)) s).
Definition SetWithdrawCompleteTimeAddress (completeTime : Z) (addr : AccAddress) : MD unit :=
  modify (λ s, set_withdrawQueue (withdrawQueue s ∪ {[(completeTime, addr)]}) s).
Definition DeleteWithdrawCompleteTimeAddress (timestamp : Z) (delAddr : AccAddress) : MD unit :=
  modify (λ s, set_withdrawQueue (withdrawQueue s ∖ {[(timestamp, delAddr)]}) s).
(** IterateWithdrawInfo with a callback that collects. *)
Definition all_withdraws (s : DexState) : list WithdrawInfo := snd <$> kv_sorted (withdraws s).

Definition Deposit (product : string) (from : AccAddress) (amount : SysCoin) : MD unit :=
  o ← gets (GetTokenPair product);
  tokenPair ← or_throw o DexErr.ErrInvalidTokenPair;
  throw_if (negb (String.eqb (Owner tokenPair) from)) DexErr.ErrMustTokenPairOwner;;
  throw_if (negb (String.eqb (Denom amount) Coins.DefaultBondDenom)) DexErr.ErrDepositOnlySupportDenom;;
  let depositCoins := Coins.ToCoins amount in
  wrap_err (λ _, DexErr.ErrInsufficientDepositCoins)
    (on_supply (Bank.SendCoinsFromAccountToModule from ModuleName depositCoins));;
  deposits ← lift (or_panic (Coins.CoinAdd (Deposits tokenPair) amount));
  UpdateTokenPair product (set_Deposits deposits tokenPair).

Definition Withdraw (ctx : Context) (product : string) (to : AccAddress) (amount : SysCoin) : MD unit :=
  o ← gets (GetTokenPair product);
  tokenPair ← or_throw o DexErr.ErrInvalidTokenPair;
  throw_if (negb (String.eqb (Owner tokenPair) to)) DexErr.ErrMustTokenPairOwner;;
  throw_if (negb (String.eqb (Denom amount) Coins.DefaultBondDenom)) DexErr.ErrWithdrawOnlySupportDenom;;
  lt ← lift (or_panic (Coins.CoinIsLT (Deposits tokenPair) amount));
  throw_if lt DexErr.ErrInsufficientWithdrawCoins;;
  p ← gets params;
  let completeTime := BlockTime ctx + WithdrawPeriod p in
  w ← gets (GetWithdrawInfo to);
  withdrawInfo ←
    match w with
    | None => mret (MkWithdrawInfo to amount completeTime)
    | Some w =>
        DeleteWithdrawCompleteTimeAddress (CompleteTime w) to;;
        deposits ← lift (or_panic (Coins.CoinAdd (wDeposits w) amount));
        mret (MkWithdrawInfo (wOwner w) deposits completeTime)
    end;
  SetWithdrawInfo withdrawInfo;;
  SetWithdrawCompleteTimeAddress completeTime to;;
  deposits ← lift (or_panic (Coins.CoinSub (Deposits tokenPair) amount));
  UpdateTokenPair product (set_Deposits deposits tokenPair).

(** sort.Sort calls Less on elements only; a comparison that panics is rendered as
    [false], the pairs that the keeper stores never make it panic. *)
Definition Less (a b : TokenPair) : bool :=
  match IsGT a b with Ok r => r | _ => false end.

Definition GetTokenPairsOrdered (s : DexState) : list TokenPair := go_sort Less (GetTokenPairs s).

(** The sorted names overwrite the front of the slice; names without a pair leave
    as many of the old entries at its end. *)
Definition SortProducts (products : list string) (s : DexState) : list string :=
  let tokenPairs := go_sort Less (omap (λ product, GetTokenPair product s) products) in
  (Name <$> tokenPairs) ++ drop (length tokenPairs) products.

Definition CompleteWithdraw (addr : AccAddress) : MD unit :=
  o ← gets (GetWithdrawInfo addr);
  w ← or_throw o DexErr.ErrInvalidAddress;
  let withdrawCoins := Coins.ToCoins (wDeposits w) in
  wrap_err (λ _, DexErr.ErrInsufficientDepositCoins)
    (on_supply (Bank.SendCoinsFromModuleToAccount ModuleName (wOwner w) withdrawCoins));;
  deleteWithdrawInfo addr.

Definition GetOperator (addr : AccAddress) (s : DexState) : option DEXOperator := operators s !! addr.
Definition SetOperator (operator : DEXOperator) : MD unit :=
  modify (λ s, set_operators (<[oAddress operator := operator]> (operators s)) s).
(** IterateOperators with a callback that collects. *)
Definition all_operators (s : DexState) : list DEXOperator := snd <$> kv_sorted (operators s).

Definition GetConfirmOwnership (product : string) (s : DexState) : option ConfirmOwnership :=
  confirms s !! product.
Definition SetConfirmOwnership (c : ConfirmOwnership) : MD unit :=
  modify (λ s, set_confirms (<[cProduct c := c]> (confirms s)) s).
Definition DeleteConfirmOwnership (product : string) : MD unit :=
  modify (λ s, set_confirms (delete product (confirms s)) s).

(** *** Product locks *)

Definition getProductLock (product : string) (s : DexState) : option ProductLock :=
  productLocks s !! product.
Definition IsTokenPairLocked (product : string) (s : DexState) : bool :=
  bool_decide (is_Some (getProductLock product s)).
Definition LockTokenPair (product : string) (lock : ProductLock) : MD unit :=
  modify (λ s, set_productLocks (<[product := lock]> (productLocks s)) s).
Definition UnlockTokenPair (product : string) : MD unit :=
  modify (λ s, set_productLocks (delete product (productLocks s)) s).
Definition LoadProductLocks (s : DexState) : gmap string ProductLock := productLocks s.
Definition GetLockedProductsCopy (s : DexState) : gmap string ProductLock := LoadProductLocks s.
Definition IsAnyProductLocked (s : DexState) : bool := bool_decide (LoadProductLocks s ≠ ∅).

(** ** Handlers *)

(** Whether a transfer of the product is still waiting to be confirmed. *)
Definition transferring (ctx : Context) (product : string) (s : DexState) : bool :=
  match GetConfirmOwnership product s with
  | Some c => negb (cExpire c <? BlockTime ctx)%Z
  | None => false
  end.

Definition pay_fee (owner : AccAddress) (fee : SysCoin) (e : error) : MD unit :=
  wrap_err (λ _, e)
    (on_supply (Bank.SendCoinsFromAccountToModule owner Token.feeCollectorName (Coins.ToCoins fee))).

Definition handleMsgList (ctx : Context) (msg : MsgList) : MD unit :=
  s ← get;
  throw_if (negb (Token.TokenExist (ListAsset msg) (tok s))
            || negb (Token.TokenExist (QuoteAsset msg) (tok s)))%bool DexErr.ErrTokenOfPairNotExist;;
  throw_if (negb (bool_decide (is_Some (GetOperator (mlOwner msg) s)))) DexErr.ErrUnknownOperator;;
  deposit ← lift DefaultTokenPairDeposit;
  let tokenPair := MkTokenPair (ListAsset msg) (QuoteAsset msg) (mlInitPrice msg)
    DefaultMaxPriceDigitSize DefaultMaxQuantityDigitSize (Dec.MustNewDecFromStr "0.00000001")
    0 false (mlOwner msg) deposit (BlockHeight ctx) in
  throw_if (bool_decide (is_Some (GetTokenPair (BaseAssetSymbol tokenPair +:+ "_" +:+ QuoteAssetSymbol tokenPair) s))
            || bool_decide (is_Some (GetTokenPair (QuoteAssetSymbol tokenPair +:+ "_" +:+ BaseAssetSymbol tokenPair) s)))%bool
    DexErr.ErrTokenPairExisted;;
  pay_fee (mlOwner msg) (ListFee (params s)) DexErr.ErrInsufficientFeeCoins;;
  SaveTokenPair tokenPair.

Definition handleMsgDeposit (ctx : Context) (msg : MsgDeposit) : MD unit :=
  t ← gets (transferring ctx (mdProduct msg));
  throw_if t DexErr.ErrIsTransferringOwner;;
  wrap_err (λ _, DexErr.ErrDepositFailed) (Deposit (mdProduct msg) (mdDepositor msg) (mdAmount msg)).

Definition handleMsgWithDraw (ctx : Context) (msg : MsgWithdraw) : MD unit :=
  Withdraw ctx (mwProduct msg) (mwDepositor msg) (mwAmount msg).

Definition handleMsgTransferOwnership (ctx : Context) (msg : MsgTransferOwnership) : MD unit :=
  o ← gets (GetTokenPair (mtProduct msg));
  tokenPair ← or_throw o DexErr.ErrTokenPairNotFound;
  throw_if (negb (String.eqb (Owner tokenPair) (mtFromAddress msg))) DexErr.ErrUnauthorized;;
  op ← gets (GetOperator (mtToAddress msg));
  throw_if (negb (bool_decide (is_Some op))) DexErr.ErrUnknownOperator;;
  t ← gets (transferring ctx (mtProduct msg));
  throw_if t DexErr.ErrRepeatedTransferOwner;;
  (if Coins.CoinIsPositive (Deposits tokenPair) then
     wrap_err (λ _, DexErr.ErrWithdrawFailed)
       (Withdraw ctx (mtProduct msg) (mtFromAddress msg) (Deposits tokenPair))
   else mret tt);;
  p ← gets params;
  pay_fee (mtFromAddress msg) (TransferOwnershipFee p) DexErr.ErrInsufficientFeeCoins;;
  SetConfirmOwnership (MkConfirmOwnership (mtProduct msg) (mtFromAddress msg) (mtToAddress msg)
    (BlockTime ctx + OwnershipConfirmWindow p)).

Definition handleMsgConfirmOwnership (ctx : Context) (msg : MsgConfirmOwnership) : MD unit :=
  o ← gets (GetConfirmOwnership (mcProduct msg));
  confirmOwnership ← or_throw o DexErr.ErrGetConfirmOwnershipNotExist;
  if (cExpire confirmOwnership <? BlockTime ctx)%Z then
    DeleteConfirmOwnership (cProduct confirmOwnership);;
    throw DexErr.ErrIsTransferOwnerExpired
  else
    throw_if (negb (String.eqb (cToAddress confirmOwnership) (mcAddress msg))) DexErr.ErrUnauthorized;;
    o ← gets (GetTokenPair (mcProduct msg));
    tokenPair ← or_throw o DexErr.ErrTokenPairNotFound;
    UpdateTokenPair (mcProduct msg) (set_Owner (mcAddress msg) tokenPair);;
    UpdateUserTokenPair (mcProduct msg) (cFromAddress confirmOwnership) (mcAddress msg);;
    DeleteConfirmOwnership (cProduct confirmOwnership).

Definition handleMsgCreateOperator (ctx : Context) (msg : MsgCreateOperator) : MD unit :=
  o ← gets (GetOperator (coOwner msg));
  throw_if (bool_decide (is_Some o)) DexErr.ErrExistOperator;;
  SetOperator (MkOperator (coOwner msg) (coHandlingFeeAddress msg) (coWebsite msg)
    (BlockHeight ctx) (tmhash_HEX (TxBytes ctx)));;
  p ← gets params;
  pay_fee (coOwner msg) (RegisterOperatorFee p) (CommonErr.ErrInsufficientCoins ModuleName).

Definition handleMsgUpdateOperator (msg : MsgUpdateOperator) : MD unit :=
  o ← gets (GetOperator (uoOwner msg));
  operator ← or_throw o DexErr.ErrUnknownOperator;
  throw_if (negb (String.eqb (oAddress operator) (uoOwner msg))) DexErr.ErrUnauthorizedOperator;;
  SetOperator (MkOperator (oAddress operator) (uoHandlingFeeAddress msg) (uoWebsite msg)
    (InitHeight operator) (oTxHash operator)).

Definition NewHandler (ctx : Context) (msg : Msg) : MD unit :=
  match msg with
  | MList m => handleMsgList ctx m
  | MDeposit m => handleMsgDeposit ctx m
  | MWithdraw m => handleMsgWithDraw ctx m
  | MTransferOwnership m => handleMsgTransferOwnership ctx m
  | MConfirmOwnership m => handleMsgConfirmOwnership ctx m
  | MCreateOperator m => handleMsgCreateOperator ctx m
  | MUpdateOperator m => handleMsgUpdateOperator m
  | MOther => throw DexErr.ErrDexUnknownMsgType
  end.

(** ** The end blocker *)

(** The keys of the queue up to a time, by time and then by address. *)
Definition queue_le (x y : Z * AccAddress) : Prop :=
  fst x < fst y ∨ (fst x = fst y ∧ String.le (snd x) (snd y)).

#[local] Instance queue_le_dec x y : Decision (queue_le x y).
Proof. unfold queue_le. apply _. Defined.

Definition IterateWithdrawAddress (currentTime : Z) (s : DexState) : list (Z * AccAddress) :=
  merge_sort queue_le (filter (λ k, fst k ≤ currentTime) (elements (withdrawQueue s))).

Definition complete_one (key : Z * AccAddress) : MD unit :=
  r ← catch (CompleteWithdraw (snd key));
  match r with
  | inl _ => DeleteWithdrawCompleteTimeAddress (fst key) (snd key)
  | inr _ => mret tt
  end.

Definition EndBlocker (ctx : Context) : MD unit :=
  keys ← gets (IterateWithdrawAddress (BlockTime ctx));
  mapM_ complete_one keys.

(** ** Proposals *)

Definition GetMinDeposit (content : Content) (s : DexState) : SysCoins :=
  match content with CDelist _ => DelistMinDeposit (params s) | COther => [] end.
Definition GetMaxDepositPeriod (content : Content) (s : DexState) : Z :=
  match content with CDelist _ => DelistMaxDepositPeriod (params s) | COther => 0 end.
Definition GetVotingPeriod (content : Content) (s : DexState) : Z :=
  match content with CDelist _ => DelistVotingPeriod (params s) | COther => 0 end.

Definition checkMsgDelistProposal (p : DelistProposal) (proposer : AccAddress)
    (initialDeposit : SysCoins) (s : DexState) : outcome unit :=
  if negb (IsValidator proposer) then Err GovErr.ErrInvalidProposer
  else if negb (String.eqb proposer (dlProposer p)) then Err GovErr.ErrInvalidProposer
  else match GetTokenPair (dlBaseAsset p +:+ "_" +:+ dlQuoteAsset p) s with
  | None => Err DexErr.ErrTokenPairNotFound
  | Some _ =>
      let localMinDeposit := Coins.MulDec (DelistMinDeposit (params s)) (Dec.NewDecWithPrec 1 1) in
      if negb (is_ok (Common.HasSufficientCoins proposer initialDeposit localMinDeposit))
      then Err DexErr.ErrInvalidAsset
      else if negb (is_ok (Common.HasSufficientCoins proposer (Bank.GetCoins (bank s) proposer)
                             initialDeposit))
      then Err DexErr.ErrBalanceNotEnough
      else Ok tt
  end.

Definition CheckMsgSubmitProposal (content : Content) (proposer : AccAddress)
    (initialDeposit : SysCoins) (s : DexState) : outcome unit :=
  match content with
  | CDelist p => checkMsgDelistProposal p proposer initialDeposit s
  | COther => Err Coins.ErrUnknownRequest
  end.

Definition VoteHandler (proposal : Proposal) (s : DexState) : outcome unit :=
  match pContent proposal with
  | CDelist p =>
      if IsTokenPairLocked (dlBaseAsset p +:+ "_" +:+ dlQuoteAsset p) s
      then Err Coins.ErrInternal else Ok tt
  | COther => Ok tt
  end.

Definition mark_delisting (content : Content) (b : bool) : MD unit :=
  match content with
  | CDelist p =>
      let tokenPairName := dlBaseAsset p +:+ "_" +:+ dlQuoteAsset p in
      o ← gets (GetTokenPair tokenPairName);
      match o with
      | None => mret tt
      | Some tokenPair => UpdateTokenPair tokenPairName (set_Delisting b tokenPair)
      end
  | COther => mret tt
  end.

Definition RejectedHandler (content : Content) : MD unit := mark_delisting content false.
Definition AfterDepositPeriodPassed (proposal : Proposal) : MD unit :=
  mark_delisting (pContent proposal) true.

Definition RemoveFromActiveProposalQueue (proposalID endTime : Z) : MD unit :=
  modify (λ s, set_govQueue (govQueue s ∖ {[(endTime, proposalID)]}) s).

Definition handleDelistProposal (ctx : Context) (proposal : Proposal) (p : DelistProposal) : MD unit :=
  let tokenPairName := dlBaseAsset p +:+ "_" +:+ dlQuoteAsset p in
  o ← gets (GetTokenPair tokenPairName);
  tokenPair ← or_throw o DexErr.ErrTokenPairNotFound;
  locked ← gets (IsTokenPairLocked tokenPairName);
  throw_if locked DexErr.ErrIsTokenPairLocked;;
  (if Coins.CoinIsPositive (Deposits tokenPair) then
     wrap_err (λ _, DexErr.ErrWithdrawFailed)
       (Withdraw ctx (Name tokenPair) (Owner tokenPair) (Deposits tokenPair))
   else mret tt);;
  DeleteTokenPairByName (Owner tokenPair) tokenPairName;;
  RemoveFromActiveProposalQueue (ProposalID proposal) (VotingEndTime proposal).

Definition NewProposalHandler (ctx : Context) (proposal : Proposal) : MD unit :=
  match pContent proposal with
  | CDelist p => handleDelistProposal ctx proposal p
  | COther => throw (CommonErr.ErrUnknownProposalType ModuleName)
  end.

(** ** The registered invariant: whether it is broken *)

Definition ModuleAccountInvariant (s : DexState) : outcome bool :=
  let depositsCoins := foldl (λ t p, Coins.Add2 t [Deposits p]) [] (GetTokenPairs s) in
  let withdrawCoins := foldl (λ t w, Coins.Add2 t [wDeposits w]) [] (all_withdraws s) in
  eq ← or_panic (Coins.IsEqual (Bank.GetCoins (bank s) (Bank.GetModuleAddress ModuleName))
                   (Coins.Add2 depositsCoins withdrawCoins));
  Ok (negb eq).

(** ** Genesis *)

Record GenesisState := MkGenesisState {
  gParams : Params;
  gTokenPairs : list TokenPair;
  gWithdrawInfos : list WithdrawInfo;
  gProductLocks : gmap string ProductLock;
  gOperators : list DEXOperator;
  gMaxTokenPairID : Z;
}.

Fixpoint ValidateGenesis_loop (l : list TokenPair) : outcome unit :=
  match l with
  | [] => Ok tt
  | tp :: l => if (ID tp <=? 0)%Z then Err Common.plain_error else ValidateGenesis_loop l
  end.
Definition ValidateGenesis (data : GenesisState) : outcome unit :=
  ValidateGenesis_loop (gTokenPairs data).

(** The module account always exists in the supply keeper. *)
Definition InitGenesis (data : GenesisState) : MD unit :=
  modify (set_params (gParams data));;
  mapM_ SetOperator (gOperators data);;
  SetMaxTokenPairID (gMaxTokenPairID data);;
  mapM_ SaveTokenPair (gTokenPairs data);;
  mapM_ (λ w, SetWithdrawInfo w;; SetWithdrawCompleteTimeAddress (CompleteTime w) (wOwner w))
    (gWithdrawInfos data);;
  mapM_ (λ kv, LockTokenPair (fst kv) (snd kv)) (map_to_list (gProductLocks data)).

Definition ExportGenesis (s : DexState) : GenesisState :=
  MkGenesisState (params s) (GetTokenPairs s) (all_withdraws s) (LoadProductLocks s)
    (all_operators s) (GetMaxTokenPairID s).
End keeper.
End Dex.
