(* ===== verification/DexSpec.v ===== *)
(** * Theorems on the dex module

    The dex account holds exactly the deposits of the pairs and the withdrawals
    that wait; the queue of withdrawals and their records agree, so that every
    withdrawal is paid in full when its time has come; the order in which products
    are processed is determined when their deposits or heights differ, and not in
    general; and a transfer of ownership that is pending survives the delisting of
    its pair. *)

From S2P Require Import Prelude SdkDec SdkCoins GoStd CoinFacts CommonErrors Common DexErrors GovErrors Token OrderTypes Dex.

#[local] Open Scope Z_scope.

Module DexSpec.
Import Dex.

Section spec.
Context `{DO : Dec.Ops} `{DL : !Dec.Laws} `{CO : !Coins.Ops} `{CL : !Coins.Laws}
  `{BO : !Bank.Ops} `{BL : !Bank.Laws} `{TE : !Token.Env} `{E : !Env} `{RT : !GoRt} `{RL : !GoRtLaws}.

Definition bal (s : DexState) (a : AccAddress) (d : string) : Z := Bank.balance (bank s) a d.
Definition dexAcc : AccAddress := Bank.GetModuleAddress ModuleName.
Definition collector : AccAddress := Bank.GetModuleAddress Token.feeCollectorName.

Definition pair_amt (d : string) (p : TokenPair) : Z := coin_amt d (Deposits p).
Definition wait_amt (d : string) (w : WithdrawInfo) : Z := coin_amt d (wDeposits w).

(** What the dex account owes. *)
Definition held (d : string) (s : DexState) : Z :=
  msum (pair_amt d) (pairs s) + msum (wait_amt d) (withdraws s).

Definition pair_ok (name : string) (p : TokenPair) : Prop :=
  Name p = name ∧ Owner p ≠ dexAcc ∧ Denom (Deposits p) = Coins.DefaultBondDenom ∧ 0 ≤ Amount (Deposits p).
Definition wait_ok (a : AccAddress) (w : WithdrawInfo) : Prop :=
  wOwner w = a ∧ a ≠ dexAcc ∧ Denom (wDeposits w) = Coins.DefaultBondDenom ∧ 0 < Amount (wDeposits w).

Record dex_inv (s : DexState) : Prop := {
  di_pairs : map_Forall pair_ok (pairs s);
  di_waits : map_Forall wait_ok (withdraws s);
  di_queue t a : (t, a) ∈ withdrawQueue s ↔ ∃ w, withdraws s !! a = Some w ∧ CompleteTime w = t;
  di_held d : bal s dexAcc d = held d s;
}.

(** ** Transfers *)

Lemma dex_supply_ok {A} (m : M Bank.state A) s a s' :
  on_supply m s = (Ok a, s') ↔ ∃ b, m (bank s) = (Ok a, b) ∧ s' = set_bank b s.
Proof. apply zoom_ok. Qed.

Lemma dex_fee_ok owner fee e s s' : pay_fee owner fee e s = (Ok tt, s') →
  ∃ b, s' = set_bank b s ∧ Bank.moved (bank s) b owner collector (Coins.ToCoins fee).
Proof.
  unfold pay_fee. rewrite wrap_err_ok, dex_supply_ok, Bank.AccountToModule_spec.
  intros (b & [Hm _]%Bank.SendCoins_ok & ->). eauto.
Qed.

(** Coins that move between other accounts do not matter. *)
Lemma inv_moved s b from to c : dex_inv s → from ≠ dexAcc → to ≠ dexAcc →
  Bank.moved (bank s) b from to c → dex_inv (set_bank b s).
Proof.
  intros I Hf Ht [Hm _]. split; [apply I|apply I|apply I|]. intros d.
  change (Bank.balance b dexAcc d = held d s). rewrite Hm, !decide_False by done.
  pose proof (di_held s I d). unfold bal in *. lia.
Qed.

Lemma coin_add_amt d x a b : coin_amt d (MkCoin x (a + b)) = coin_amt d (MkCoin x a) + coin_amt d (MkCoin x b).
Proof. unfold coin_amt. cbn. case_decide; lia. Qed.

Lemma coin_eta c x : Denom c = x → c = MkCoin x (Amount c).
Proof. destruct c. cbn. by intros ->. Qed.

(** ** Deposits and withdrawals *)

Definition deposited (product : string) (p : TokenPair) (n : Z) (s : DexState) : DexState :=
  set_pairs (<[product := set_Deposits (MkCoin Coins.DefaultBondDenom (Amount (Deposits p) + n)) p]> (pairs s)) s.

Lemma Deposit_ok product from amount s s' : dex_inv s → Deposit product from amount s = (Ok tt, s') →
  ∃ p b, pairs s !! product = Some p ∧ Owner p = from ∧ Denom amount = Coins.DefaultBondDenom ∧
    0 ≤ Amount amount ∧ s' = deposited product p (Amount amount) (set_bank b s) ∧
    Bank.moved (bank s) b from dexAcc (Coins.ToCoins amount).
Proof.
  intros I H. unfold Deposit in H.
  apply bind_ok in H as (o & s0 & [-> ->]%gets_ok & H).
  apply bind_ok in H as (p & s0 & [Hp ->]%or_throw_ok & H).
  apply bind_ok in H as ([] & s0 & [Ho [_ ->]]%throw_if_ok & H).
  apply bind_ok in H as ([] & s0 & [Hd [_ ->]]%throw_if_ok & H).
  apply negb_false_iff, String.eqb_eq in Ho, Hd.
  apply bind_ok in H as ([] & s0 & Hb & H). rewrite wrap_err_ok, dex_supply_ok, Bank.AccountToModule_spec in Hb.
  destruct Hb as (b & [Hm Hle]%Bank.SendCoins_ok & ->).
  apply bind_ok in H as (c & s0 & [Hc ->]%lift_ok & H).
  destruct (di_pairs s I product p Hp) as (_ & _ & Hpd & _).
  rewrite or_panic_ok, Coins.CoinAdd_ok in Hc by congruence. injection Hc as <-.
  apply modify_ok in H. exists p, b. split; [done|]. split; [done|]. split; [done|]. split.
  - specialize (Hle (Denom amount)). rewrite Coins.ToCoins_amt in Hle. destruct amount. cbn in *.
    rewrite coin_amt_eq in Hle. lia.
  - split; [|done]. rewrite H. unfold deposited. by rewrite Hpd.
Qed.

Lemma deposit_inv product from amount s s' : dex_inv s → from ≠ dexAcc →
  Deposit product from amount s = (Ok tt, s') → dex_inv s'.
Proof.
  intros I Hf H. destruct (Deposit_ok _ _ _ _ _ I H) as (p & b & Hp & _ & Hd & Hn & -> & [Hm _]).
  destruct (di_pairs s I product p Hp) as (Hname & Hown & Hpd & Hpa). split.
  - apply map_Forall_insert_2; [|apply I]. unfold pair_ok, Name. cbn. by repeat split; [..|lia].
  - apply I.
  - apply I.
  - intros d. change (Bank.balance b dexAcc d = msum (pair_amt d) (pairs (deposited product p (Amount amount) s))
      + msum (wait_amt d) (withdraws s)). rewrite Hm, decide_False, decide_True by congruence.
    pose proof (di_held s I d) as Hh. unfold held, bal in *. cbn. rewrite msum_insert, Hp. cbn.
    unfold pair_amt at 3. cbn. rewrite coin_add_amt, Coins.ToCoins_amt. unfold pair_amt at 2.
    rewrite (coin_eta (Deposits p) _ Hpd) at 1. rewrite (coin_eta amount _ Hd) at 1. lia.
Qed.

(** The record of a withdrawal after [n] more. *)
Definition waiting (ctx : Context) (to : AccAddress) (n : Z) (s : DexState) : WithdrawInfo :=
  MkWithdrawInfo to (MkCoin Coins.DefaultBondDenom
    (from_option (λ w, Amount (wDeposits w)) 0 (withdraws s !! to) + n))
    (BlockTime ctx + WithdrawPeriod (params s)).

Definition withdrawn (ctx : Context) (product : string) (p : TokenPair) (n : Z) (s : DexState) : DexState :=
  let w := waiting ctx (Owner p) n s in
  let old := match withdraws s !! Owner p with
             | Some w => withdrawQueue s ∖ {[(CompleteTime w, Owner p)]}
             | None => withdrawQueue s
             end in
  deposited product p (- n)
    (set_withdrawQueue (old ∪ {[(CompleteTime w, Owner p)]})
      (set_withdraws (<[Owner p := w]> (withdraws s)) s)).

Lemma Withdraw_ok ctx product to amount s s' : dex_inv s → Withdraw ctx product to amount s = (Ok tt, s') →
  ∃ p, pairs s !! product = Some p ∧ Owner p = to ∧ Denom amount = Coins.DefaultBondDenom ∧
    Amount amount ≤ Amount (Deposits p) ∧ s' = withdrawn ctx product p (Amount amount) s.
Proof.
  intros I H. unfold Withdraw in H.
  apply bind_ok in H as (o & s0 & [-> ->]%gets_ok & H).
  apply bind_ok in H as (p & s0 & [Hp ->]%or_throw_ok & H).
  apply bind_ok in H as ([] & s0 & [Ho [_ ->]]%throw_if_ok & H).
  apply bind_ok in H as ([] & s0 & [Hd [_ ->]]%throw_if_ok & H).
  apply negb_false_iff, String.eqb_eq in Ho, Hd. subst to.
  apply bind_ok in H as (lt & s0 & [Hlt ->]%lift_ok & H).
  apply bind_ok in H as ([] & s0 & [-> [_ ->]]%throw_if_ok & H).
  destruct (di_pairs s I product p Hp) as (_ & _ & Hpd & _).
  rewrite or_panic_ok, Coins.CoinIsLT_ok in Hlt by congruence. injection Hlt as Hlt%Z.ltb_ge.
  apply bind_ok in H as (pr & s0 & [-> ->]%gets_ok & H).
  apply bind_ok in H as (w & s0 & [-> ->]%gets_ok & H).
  exists p. do 3 (split; [done|]). split; [lia|].
  assert (∀ (old : gset (Z * AccAddress)) w s1,
    s1 = set_withdrawQueue old s → w = waiting ctx (Owner p) (Amount amount) s →
    (SetWithdrawInfo w;; SetWithdrawCompleteTimeAddress (CompleteTime w) (Owner p);;
     deposits ← lift (or_panic (Coins.CoinSub (Deposits p) amount));
     UpdateTokenPair product (set_Deposits deposits p)) s1 = (Ok tt, s') →
    s' = deposited product p (- Amount amount)
      (set_withdrawQueue (old ∪ {[(CompleteTime w, Owner p)]})
        (set_withdraws (<[Owner p := w]> (withdraws s)) s))) as Htail.
  { clear H. intros old w s1 -> -> H1. apply bind_ok in H1 as ([] & s0 & ->%modify_ok & H1).
    apply bind_ok in H1 as ([] & s0 & ->%modify_ok & H1).
    apply bind_ok in H1 as (c & s0 & [Hc ->]%lift_ok & ->%modify_ok).
    rewrite or_panic_ok, Coins.CoinSub_ok in Hc by (done || congruence). injection Hc as <-.
    unfold deposited. cbn. by rewrite Hpd, Z.add_opp_r. }
  unfold GetWithdrawInfo in H. unfold withdrawn. destruct (withdraws s !! Owner p) as [w|] eqn:Ew.
  - destruct (di_waits s I _ w Ew) as (Hwo & _ & Hwd & _).
    apply bind_ok in H as (w' & s0 & Hw & H).
    apply bind_ok in Hw as ([] & s1 & ->%modify_ok & Hw).
    apply bind_ok in Hw as (c & s1 & [Hc ->]%lift_ok & [-> ->]%mret_ok).
    rewrite or_panic_ok, Coins.CoinAdd_ok in Hc by congruence. injection Hc as <-.
    rewrite Hwo, Hwd in H. refine (Htail _ _ _ eq_refl eq_refl _). unfold waiting. rewrite Ew. exact H.
  - apply bind_ok in H as (w' & s0 & [-> ->]%mret_ok & H).
    refine (Htail (withdrawQueue s) _ s _ eq_refl _); [by destruct s|]. unfold waiting. rewrite Ew. cbn.
    rewrite (coin_eta amount _ Hd) in H at 1. exact H.
Qed.

Lemma withdrawn_inv ctx product p n s : dex_inv s → pairs s !! product = Some p → 0 < n ≤ Amount (Deposits p) →
  dex_inv (withdrawn ctx product p n s).
Proof.
  intros I Hp Hn. destruct (di_pairs s I product p Hp) as (Hname & Hown & Hpd & Hpa).
  set (old := from_option (λ w, Amount (wDeposits w)) 0 (withdraws s !! Owner p)).
  assert (0 ≤ old) as Hold.
  { unfold old. destruct (withdraws s !! Owner p) as [w|] eqn:Ew; cbn; [|lia].
    destruct (di_waits s I _ w Ew) as (_ & _ & _ & ?). lia. }
  split.
  - apply map_Forall_insert_2; [|apply I]. unfold pair_ok, Name. cbn. by repeat split; [..|lia].
  - apply map_Forall_insert_2; [|apply I]. unfold wait_ok. cbn. fold old. by repeat split; [..|lia].
  - intros t a. unfold withdrawn. cbn. rewrite elem_of_union, elem_of_singleton, lookup_insert.
    destruct (decide (Owner p = a)) as [<-|Hne].
    + split; [intros [Hin|[= ->]]; [exfalso|by eexists]|intros (w & [= <-] & <-); by right].
      destruct (withdraws s !! Owner p) as [w|] eqn:Ew.
      * apply elem_of_difference in Hin as [(w' & Hw' & <-)%(di_queue s I) Hnot].
        rewrite Ew in Hw'. injection Hw' as <-. apply Hnot, elem_of_singleton_2. done.
      * apply (di_queue s I) in Hin as (w' & Hw' & _). congruence.
    + rewrite <-(di_queue s I). split; [intros [Hin|[= _ ->]]; [|done]|left].
      * destruct (withdraws s !! Owner p); [by apply elem_of_difference in Hin as [? _]|done].
      * destruct (withdraws s !! Owner p); [|done]. apply elem_of_difference. split; [done|].
        rewrite elem_of_singleton. congruence.
  - intros d. change (Bank.balance (bank s) dexAcc d = held d (withdrawn ctx product p n s)).
    pose proof (di_held s I d) as Hh. unfold held, bal in *. unfold withdrawn, deposited. cbn.
    rewrite !msum_insert, Hp. cbn. unfold pair_amt at 3, wait_amt at 3. cbn. rewrite !coin_add_amt. fold old.
    assert (from_option (wait_amt d) 0 (withdraws s !! Owner p) = coin_amt d (MkCoin Coins.DefaultBondDenom old)) as ->.
    { unfold old. destruct (withdraws s !! Owner p) as [w|] eqn:Ew; cbn.
      - destruct (di_waits s I _ w Ew) as (_ & _ & Hwd & _). unfold wait_amt. by rewrite (coin_eta _ _ Hwd) at 1.
      - unfold coin_amt. cbn. by case_decide. }
    unfold pair_amt at 2. rewrite (coin_eta (Deposits p) _ Hpd) at 1. unfold coin_amt. cbn. case_decide; lia.
Qed.

Lemma withdraw_inv ctx product to amount s s' : dex_inv s → 0 < Amount amount →
  Withdraw ctx product to amount s = (Ok tt, s') → dex_inv s'.
Proof.
  intros I Hn H. destruct (Withdraw_ok _ _ _ _ _ _ I H) as (p & Hp & _ & _ & Hle & ->).
  apply withdrawn_inv; (done || lia).
Qed.

(** ** The messages *)

Class Accounts : Prop := { collector_ne : collector ≠ dexAcc }.
Context `{AC : !Accounts}.

Definition signer (msg : Msg) : AccAddress :=
  match msg with
  | MList m => mlOwner m
  | MDeposit m => mdDepositor m
  | MWithdraw m => mwDepositor m
  | MTransferOwnership m => mtFromAddress m
  | MConfirmOwnership m => mcAddress m
  | MCreateOperator m => coOwner m
  | MUpdateOperator m => uoOwner m
  | MOther => ""
  end.

(** Changing a pair, but not its name and deposit, nor giving it to the dex account. *)
Lemma dex_inv_update product p p' s : dex_inv s → pairs s !! product = Some p → Name p' = Name p →
  Deposits p' = Deposits p → Owner p' ≠ dexAcc → dex_inv (set_pairs (<[product := p']> (pairs s)) s).
Proof.
  intros I Hp Hn Hd Ho. destruct (di_pairs s I product p Hp) as (Hname & _ & Hpd & Hpa). split.
  - apply map_Forall_insert_2; [|apply I]. unfold pair_ok. by rewrite Hn, Hd.
  - apply I.
  - apply I.
  - intros d. change (Bank.balance (bank s) dexAcc d = held d (set_pairs (<[product := p']> (pairs s)) s)).
    pose proof (di_held s I d) as Hh. unfold held, bal in *. cbn. rewrite msum_insert, Hp. cbn.
    assert (pair_amt d p' = pair_amt d p) as -> by (unfold pair_amt; by rewrite Hd). lia.
Qed.

(** The parts of the state that the invariant reads. *)
Lemma inv_same s s' : tok s' = tok s → pairs s' = pairs s → withdraws s' = withdraws s →
  withdrawQueue s' = withdrawQueue s → dex_inv s → dex_inv s'.
Proof.
  intros E1 E2 E3 E4 [H1 H2 H3 H4]. split; [by rewrite E2|by rewrite E3|intros; by rewrite E4, E3|].
  intros d. specialize (H4 d). unfold held, bal, bank in *. by rewrite E1, E2, E3.
Qed.

Lemma SaveTokenPair_ok tp s s' : SaveTokenPair tp s = (Ok tt, s') →
  ∃ id m u, s' = set_userPairs u (set_pairs (<[Name tp := set_ID id tp]> (pairs s)) (set_maxID m s)).
Proof.
  intros H. unfold SaveTokenPair in H.
  apply bind_ok in H as (m0 & s0 & [-> ->]%gets_ok & H).
  set (tp' := if (ID tp =? 0)%Z then _ else _) in H.
  assert (∃ id, tp' = set_ID id tp) as [id ->].
  { unfold tp'. destruct (ID tp =? 0)%Z; [eauto|]. exists (ID tp). by destruct tp. }
  apply bind_ok in H as ([] & s0 & Hm & H).
  assert (∃ m, s0 = set_maxID m s) as [m ->].
  { destruct (_ <? _)%Z; [apply modify_ok in Hm; eauto|].
    apply mret_ok in Hm as [_ ->]. exists (maxID s). by destruct s. }
  apply bind_ok in H as ([] & s0 & ->%modify_ok & ->%modify_ok). exists id, m. eexists. done.
Qed.

Lemma handleMsgList_ok ctx msg s s' : handleMsgList ctx msg s = (Ok tt, s') →
  let name := ListAsset msg +:+ "_" +:+ QuoteAsset msg in
  ∃ b tp m u, pairs s !! name = None ∧
    Bank.moved (bank s) b (mlOwner msg) collector (Coins.ToCoins (ListFee (params s))) ∧
    Name tp = name ∧ Owner tp = mlOwner msg ∧ Deposits tp = MkCoin Coins.DefaultBondDenom 0 ∧
    s' = set_userPairs u (set_pairs (<[name := tp]> (pairs s)) (set_maxID m (set_bank b s))).
Proof.
  intros H. unfold handleMsgList in H.
  apply bind_ok in H as (s0 & s1 & Hg & H). injection Hg as <- <-.
  apply bind_ok in H as ([] & s1 & [_ [_ ->]]%throw_if_ok & H).
  apply bind_ok in H as ([] & s1 & [_ [_ ->]]%throw_if_ok & H).
  apply bind_ok in H as (dep & s1 & [Hdep ->]%lift_ok & H).
  unfold DefaultTokenPairDeposit in Hdep. rewrite or_panic_ok, Coins.NewDecCoin_spec in Hdep.
  apply Coins.NewDecCoinFromDec_inv in Hdep as [-> _]. rewrite Dec.NewDec_spec, Z.mul_0_l in H.
  cbn zeta in H. apply bind_ok in H as ([] & s1 & [Hne [_ ->]]%throw_if_ok & H).
  apply orb_false_iff in Hne as [Hne _]. rewrite bool_decide_eq_false, <-eq_None_not_Some in Hne.
  apply bind_ok in H as ([] & s1 & (b & -> & Hm)%dex_fee_ok & (id & m & u & ->)%SaveTokenPair_ok).
  exists b. eexists _, m, u. split; [exact Hne|]. split; [exact Hm|]. split; [|split; [|split; [|done]]]; done.
Qed.

Lemma list_inv ctx msg s s' : dex_inv s → mlOwner msg ≠ dexAcc → handleMsgList ctx msg s = (Ok tt, s') → dex_inv s'.
Proof.
  intros I Ho H. apply handleMsgList_ok in H as (b & tp & m & u & Hne & Hm & Hname & Hown & Hdep & ->).
  pose proof (inv_moved _ _ _ _ _ I Ho collector_ne Hm) as I1. split.
  - apply map_Forall_insert_2; [|apply I]. unfold pair_ok. rewrite Hname, Hown, Hdep. cbn. by repeat split.
  - apply I1.
  - apply I1.
  - intros d. pose proof (di_held _ I1 d) as Hh. unfold held in *. cbn in *. rewrite msum_insert, Hne. cbn.
    assert (pair_amt d tp = 0) as -> by (unfold pair_amt, coin_amt; rewrite Hdep; cbn; by case_decide).
    unfold bal in *. cbn in *. lia.
Qed.

(** Withdrawing a deposit when there is one. *)
Lemma withdraw_all_inv ctx product to p e s s' : dex_inv s →
  (if Coins.CoinIsPositive (Deposits p) then wrap_err e (Withdraw ctx product to (Deposits p)) else mret tt) s
    = (Ok tt, s') →
  dex_inv s' ∧ confirms s' = confirms s ∧ params s' = params s ∧ operators s' = operators s ∧
  ((s' = s ∧ Amount (Deposits p) ≤ 0) ∨
   ∃ q, pairs s !! product = Some q ∧ Owner q = to ∧ s' = withdrawn ctx product q (Amount (Deposits p)) s).
Proof.
  intros I. rewrite Coins.CoinIsPositive_spec. destruct (Z.ltb_spec 0 (Amount (Deposits p))) as [Hpos|Hz].
  - rewrite wrap_err_ok. intros H. pose proof (withdraw_inv _ _ _ _ _ _ I Hpos H).
    destruct (Withdraw_ok _ _ _ _ _ _ I H) as (q & Hq & Ho & _ & _ & ->). repeat (split; [done|]). right. eauto.
  - intros [_ ->]%mret_ok. repeat (split; [done|]). by left.
Qed.

Lemma handler_inv ctx msg s s' : dex_inv s → ValidateBasic msg = Ok tt → signer msg ≠ dexAcc →
  NewHandler ctx msg s = (Ok tt, s') → dex_inv s'.
Proof.
  intros I Hv Hs H. destruct msg as [m|m|m|m|m|m|m|]; cbn [NewHandler signer ValidateBasic] in *.
  - by eapply list_inv.
  - unfold handleMsgDeposit in H. apply bind_ok in H as (t & s0 & [-> ->]%gets_ok & H).
    apply bind_ok in H as ([] & s0 & [_ [_ ->]]%throw_if_ok & H). rewrite wrap_err_ok in H. by eapply deposit_inv.
  - eapply withdraw_inv; [done| |exact H]. unfold MsgWithdraw_ValidateBasic in Hv.
    destruct (Token.Empty _); [done|]. destruct (_ || _)%bool eqn:Eb; [done|].
    apply orb_false_iff in Eb as [_ Eb%negb_false_iff]. rewrite Coins.CoinIsPositive_spec in Eb. by apply Z.ltb_lt.
  - unfold handleMsgTransferOwnership in H. apply bind_ok in H as (o & s0 & [-> ->]%gets_ok & H).
    apply bind_ok in H as (p & s0 & [Hp ->]%or_throw_ok & H).
    apply bind_ok in H as ([] & s0 & [_ [_ ->]]%throw_if_ok & H).
    apply bind_ok in H as (op & s0 & [-> ->]%gets_ok & H).
    apply bind_ok in H as ([] & s0 & [_ [_ ->]]%throw_if_ok & H).
    apply bind_ok in H as (t & s0 & [-> ->]%gets_ok & H).
    apply bind_ok in H as ([] & s0 & [_ [_ ->]]%throw_if_ok & H).
    apply bind_ok in H as ([] & s1 & Hw & H). destruct (withdraw_all_inv _ _ _ _ _ _ _ I Hw) as (I1 & _).
    apply bind_ok in H as (pr & s0 & [-> ->]%gets_ok & H).
    apply bind_ok in H as ([] & s0 & (b & -> & Hm)%dex_fee_ok & ->%modify_ok).
    eapply inv_same, (inv_moved s1 b); [done..| |exact collector_ne|exact Hm]. done.
  - unfold handleMsgConfirmOwnership in H. apply bind_ok in H as (o & s0 & [-> ->]%gets_ok & H).
    apply bind_ok in H as (c & s0 & [Hc ->]%or_throw_ok & H).
    destruct (_ <? _)%Z; [apply bind_ok in H as ([] & s0 & _ & []%throw_ok)|].
    apply bind_ok in H as ([] & s0 & [_ [_ ->]]%throw_if_ok & H).
    apply bind_ok in H as (o & s0 & [-> ->]%gets_ok & H).
    apply bind_ok in H as (p & s0 & [Hp ->]%or_throw_ok & H).
    apply bind_ok in H as ([] & s0 & ->%modify_ok & H).
    apply bind_ok in H as ([] & s0 & Hu & ->%modify_ok).
    apply bind_ok in Hu as ([] & s1 & ->%modify_ok & ->%modify_ok).
    eapply inv_same, (dex_inv_update (mcProduct m) p (set_Owner (mcAddress m) p) s); done.
  - unfold handleMsgCreateOperator in H. apply bind_ok in H as (o & s0 & [-> ->]%gets_ok & H).
    apply bind_ok in H as ([] & s0 & [_ [_ ->]]%throw_if_ok & H).
    apply bind_ok in H as ([] & s0 & ->%modify_ok & H).
    apply bind_ok in H as (pr & s0 & [-> ->]%gets_ok & (b & -> & Hm)%dex_fee_ok).
    eapply inv_same, (inv_moved s b); [done..| |exact collector_ne|exact Hm]. done.
  - unfold handleMsgUpdateOperator in H. apply bind_ok in H as (o & s0 & [-> ->]%gets_ok & H).
    apply bind_ok in H as (p & s0 & [Hp ->]%or_throw_ok & H).
    apply bind_ok in H as ([] & s0 & [_ [_ ->]]%throw_if_ok & ->%modify_ok). by apply (inv_same s).
  - by apply throw_ok in H.
Qed.

(** ** Proposals *)

(** Deleting a pair without a deposit. *)
Lemma inv_delete product s : dex_inv s →
  (∀ d, from_option (pair_amt d) 0 (pairs s !! product) = 0) →
  dex_inv (set_pairs (delete product (pairs s)) s).
Proof.
  intros I Hz. split; [apply map_Forall_delete, I|apply I|apply I|].
  intros d. pose proof (di_held _ I d) as Hh.
  change (bal s dexAcc d = held d (set_pairs (delete product (pairs s)) s)).
  unfold held in *. cbn [pairs withdraws set_pairs]. rewrite msum_delete, Hz. lia.
Qed.

Lemma delist_ok ctx prop p s s' : dex_inv s → handleDelistProposal ctx prop p s = (Ok tt, s') →
  let name := dlBaseAsset p +:+ "_" +:+ dlQuoteAsset p in
  dex_inv s' ∧ confirms s' = confirms s ∧ pairs s' = delete name (pairs s) ∧ is_Some (pairs s !! name) ∧
  productLocks s !! name = None.
Proof.
  intros I H. unfold handleDelistProposal in H. cbn zeta in *. set (name := _ +:+ _) in *.
  apply bind_ok in H as (o & s0 & [-> ->]%gets_ok & H).
  apply bind_ok in H as (tp & s0 & [Hp ->]%or_throw_ok & H). unfold GetTokenPair in Hp.
  apply bind_ok in H as (l & s0 & [-> ->]%gets_ok & H).
  apply bind_ok in H as ([] & s0 & [Hl [_ ->]]%throw_if_ok & H).
  apply bool_decide_eq_false, eq_None_not_Some in Hl.
  destruct (di_pairs s I name tp Hp) as (Hname & _ & Hpd & Hpa). rewrite Hname in H.
  apply bind_ok in H as ([] & s1 & Hw & H).
  destruct (withdraw_all_inv _ _ _ _ _ _ _ I Hw) as (I1 & Hc & _ & _ & Hcases).
  apply bind_ok in H as ([] & s2 & Hd & ->%modify_ok).
  apply bind_ok in Hd as ([] & s3 & ->%modify_ok & ->%modify_ok).
  assert (delete name (pairs s1) = delete name (pairs s) ∧
    ∀ d, from_option (pair_amt d) 0 (pairs s1 !! name) = 0) as [Edel Hz].
  { destruct Hcases as [[-> Hle]|(q & Hq & _ & ->)].
    - rewrite Hp. split; [done|]. intros d. cbn. unfold pair_amt, coin_amt. case_decide; lia.
    - rewrite Hp in Hq. injection Hq as <-.
      unfold withdrawn, deposited. cbn. split; [by rewrite delete_insert_eq|].
      intros d. rewrite lookup_insert_eq. cbn. unfold pair_amt, coin_amt. cbn. case_decide; lia. }
  split; [|split; [exact Hc|split; [exact Edel|split; [by rewrite Hp|exact Hl]]]].
  by apply (inv_same (set_pairs (delete name (pairs s1)) s1)), inv_delete.
Qed.

Lemma mark_inv content b s s' : dex_inv s → mark_delisting content b s = (Ok tt, s') → dex_inv s'.
Proof.
  intros I H. destruct content as [p|]; [|by apply mret_ok in H as [_ ->]].
  unfold mark_delisting in H. apply bind_ok in H as (o & s0 & [-> ->]%gets_ok & H).
  destruct (GetTokenPair _ s) as [tp|] eqn:Hp; [|by apply mret_ok in H as [_ ->]].
  apply modify_ok in H as ->. apply (dex_inv_update _ tp (set_Delisting b tp) s); try done. by eapply di_pairs in Hp as (_ & ? & _).
Qed.

(** ** The end blocker *)

Lemma complete_one_ok t a s : dex_inv s → (t, a) ∈ withdrawQueue s →
  ∃ w s', withdraws s !! a = Some w ∧ complete_one (t, a) s = (Ok tt, s') ∧ dex_inv s' ∧
    pairs s' = pairs s ∧ withdraws s' = delete a (withdraws s) ∧
    withdrawQueue s' = withdrawQueue s ∖ {[(t, a)]} ∧
    ∀ x d, x ≠ dexAcc → bal s' x d = bal s x d + if decide (x = a) then wait_amt d w else 0.
Proof.
  intros I Hq. apply (di_queue s I) in Hq as (w & Hw & Ht).
  destruct (di_waits s I a w Hw) as (Ho & Hne & Hd & Hpos).
  destruct (Bank.ModuleSend_total ModuleName a (Coins.ToCoins (wDeposits w)) (bank s)) as [b Hb].
  { apply Coins.ToCoins_valid; [done|]. rewrite Hd. apply Coins.DefaultBondDenom_valid. }
  { intros d. rewrite Coins.ToCoins_amt. change (wait_amt d w ≤ bal s dexAcc d). rewrite (di_held s I d). unfold held.
    assert (wait_amt d w ≤ msum (wait_amt d) (withdraws s)).
    { eapply msum_le; [|done]. intros k x Hx. destruct (di_waits s I k x Hx) as (_ & _ & _ & ?).
      unfold wait_amt, coin_amt. case_decide; lia. }
    assert (0 ≤ msum (pair_amt d) (pairs s)); [|lia]. apply msum_nonneg. intros k x Hx.
    destruct (di_pairs s I k x Hx) as (_ & _ & _ & ?). unfold pair_amt, coin_amt. case_decide; lia. }
  pose proof (Bank.SendCoins_ok _ _ _ _ _ Hb) as [[Hm _] _].
  set (s' := set_withdrawQueue (withdrawQueue s ∖ {[(t, a)]}) (set_withdraws (delete a (withdraws s)) (set_bank b s))).
  exists w, s'. split; [done|]. split.
  { assert (CompleteWithdraw a s = (Ok tt, set_withdraws (delete a (withdraws s)) (set_bank b s))) as Hc.
    { unfold CompleteWithdraw. rewrite (bind_eq _ _ s (Some w) s) by (unfold gets, GetWithdrawInfo; by rewrite Hw).
      rewrite (bind_eq _ _ s w s) by done. rewrite (bind_eq _ _ s tt (set_bank b s)); [done|].
      unfold wrap_err, on_supply, zoom. by rewrite Ho, Bank.ModuleToAccount_spec, Hb. }
    unfold complete_one, catch, mbind, M_bind. cbn [snd fst]. by rewrite Hc. }
  split; [|split; [done|split; [done|split; [done|]]]].
  - split; [apply I|apply map_Forall_delete, I| |].
    + intros t' a'. cbn. rewrite elem_of_difference, elem_of_singleton, (di_queue s I), lookup_delete.
      case_decide as Ea; [subst a'|].
      * split; [|by intros (? & ? & _)]. intros [(w' & Hw' & <-) Hn]. rewrite Hw in Hw'. injection Hw' as <-.
        by rewrite Ht in Hn.
      * split; [by intros [? _]|intros ?; split; [done|congruence]].
    + intros d. pose proof (di_held s I d) as Hh. change (Bank.balance b dexAcc d = held d s').
      rewrite Hm, decide_True, decide_False by done. unfold held, bal in *. cbn. rewrite msum_delete, Hw. cbn.
      rewrite Coins.ToCoins_amt. unfold wait_amt at 2. lia.
  - intros x d Hx. change (Bank.balance b x d = bal s x d + if decide (x = a) then wait_amt d w else 0).
    rewrite Hm, decide_False, Coins.ToCoins_amt by done. unfold bal, wait_amt. lia.
Qed.

Lemma complete_all keys s : dex_inv s → NoDup keys.*2 → Forall (λ k, k ∈ withdrawQueue s) keys →
  ∃ s', mapM_ complete_one keys s = (Ok tt, s') ∧ dex_inv s' ∧ pairs s' = pairs s ∧
    (∀ a, withdraws s' !! a = if decide (a ∈ keys.*2) then None else withdraws s !! a) ∧
    ∀ a d, a ≠ dexAcc → bal s' a d = bal s a d +
      if decide (a ∈ keys.*2) then from_option (wait_amt d) 0 (withdraws s !! a) else 0.
Proof.
  revert s. induction keys as [|[t a] keys IH]; intros s I Hnd Hin.
  { exists s. split; [done|]. do 2 (split; [done|]). split; [intros; by rewrite decide_False by apply not_elem_of_nil|].
    intros. rewrite decide_False by apply not_elem_of_nil. lia. }
  rewrite fmap_cons in Hnd. apply NoDup_cons in Hnd as [Ha Hnd]. cbn in Ha.
  apply Forall_cons in Hin as [Hq Hin].
  destruct (complete_one_ok t a s I Hq) as (w & s1 & Hw & H1 & I1 & Ep & Ew & Eq & Eb).
  destruct (IH s1) as (s2 & H2 & I2 & Ep2 & Ew2 & Eb2); [done..| |].
  { rewrite Forall_forall in *. intros k Hk. rewrite Eq. apply elem_of_difference. split; [by apply Hin|].
    rewrite elem_of_singleton. intros ->. apply Ha. by apply (list_elem_of_fmap_2 snd keys (t, a)). }
  exists s2. cbn [mapM_]. rewrite (bind_eq _ _ _ _ _ H1). split; [done|]. split; [done|]. split; [congruence|].
  assert (∀ x, x ∈ ((t, a) :: keys).*2 ↔ x = a ∨ x ∈ keys.*2) as Hx by (intros; by rewrite fmap_cons, elem_of_cons).
  split.
  - intros x. rewrite Ew2, Ew, lookup_delete.
    destruct (decide (x ∈ keys.*2)); [by rewrite decide_True by (apply Hx; auto)|].
    destruct (decide (a = x)) as [->|]; [by rewrite decide_True by (apply Hx; auto)|].
    rewrite decide_False; [done|]. rewrite Hx. naive_solver.
  - intros x d Hne. rewrite Eb2, Eb by done. rewrite Ew, lookup_delete.
    destruct (decide (x = a)) as [->|].
    + rewrite decide_False by done. rewrite decide_True by (apply Hx; auto). rewrite Hw. cbn. lia.
    + rewrite (decide_False (P := a = x)) by congruence. destruct (decide (x ∈ keys.*2)).
      * rewrite (decide_True (P := x ∈ _)) by (apply Hx; auto). lia.
      * rewrite (decide_False (P := x ∈ _)); [lia|]. rewrite Hx. naive_solver.
Qed.

Lemma due_keys now s : dex_inv s →
  NoDup (IterateWithdrawAddress now s).*2 ∧
  Forall (λ k, k ∈ withdrawQueue s) (IterateWithdrawAddress now s) ∧
  ∀ a w, withdraws s !! a = Some w → a ∈ (IterateWithdrawAddress now s).*2 ↔ CompleteTime w ≤ now.
Proof.
  intros I. unfold IterateWithdrawAddress. set (l := filter _ _).
  assert (∀ k, k ∈ merge_sort queue_le l ↔ fst k ≤ now ∧ k ∈ withdrawQueue s) as Hin.
  { intros k. rewrite merge_sort_Permutation. unfold l. by rewrite list_elem_of_filter, elem_of_elements. }
  split; [|split].
  - apply NoDup_fmap_2_strong.
    + intros [t a] [t' a'] [_ H1]%Hin [_ H2]%Hin. cbn. intros <-.
      apply (di_queue s I) in H1 as (w & Hw & <-), H2 as (w' & Hw' & <-). congruence.
    + rewrite merge_sort_Permutation. apply NoDup_filter, NoDup_elements.
  - apply Forall_forall. by intros k [_ ?]%Hin.
  - intros a w Hw. rewrite list_elem_of_fmap. split.
    + intros ([t a'] & -> & [Hle (w' & Hw' & <-)%(di_queue s I)]%Hin). cbn in *. congruence.
    + intros Hle. exists (CompleteTime w, a). split; [done|]. apply Hin. split; [done|]. apply (di_queue s I). eauto.
Qed.

Lemma EndBlocker_ok ctx s : dex_inv s → ∃ s', EndBlocker ctx s = (Ok tt, s') ∧ dex_inv s' ∧
  ∀ a w, withdraws s !! a = Some w →
    withdraws s' !! a = (if decide (CompleteTime w ≤ BlockTime ctx) then None else Some w) ∧
    ∀ d, bal s' a d = bal s a d + if decide (CompleteTime w ≤ BlockTime ctx) then wait_amt d w else 0.
Proof.
  intros I. destruct (due_keys (BlockTime ctx) s I) as (Hnd & Hq & Hdue).
  destruct (complete_all _ s I Hnd Hq) as (s' & H & I' & _ & Ew & Eb). exists s'.
  unfold EndBlocker. rewrite (bind_eq _ _ s (IterateWithdrawAddress (BlockTime ctx) s) s) by done.
  split; [done|]. split; [done|]. intros a w Hw. destruct (di_waits s I a w Hw) as (_ & Hne & _).
  pose proof (Hdue a w Hw) as Hiff. split; [rewrite Ew|intros d; rewrite Eb by done]; rewrite Hw;
    repeat case_decide; try done; tauto.
Qed.

(** ** Steps of the module

    Everything that happens to the dex state: messages, the end blocker, what the
    gov module calls, the locks of the order module, and coins that other modules
    move between accounts other than the dex account. *)
Inductive dex_step : DexState → DexState → Prop :=
| step_msg ctx msg s s' : ValidateBasic msg = Ok tt → signer msg ≠ dexAcc →
    NewHandler ctx msg s = (Ok tt, s') → dex_step s s'
| step_end ctx s s' : EndBlocker ctx s = (Ok tt, s') → dex_step s s'
| step_proposal ctx prop s s' : NewProposalHandler ctx prop s = (Ok tt, s') → dex_step s s'
| step_rejected content s s' : RejectedHandler content s = (Ok tt, s') → dex_step s s'
| step_deposited prop s s' : AfterDepositPeriodPassed prop s = (Ok tt, s') → dex_step s s'
| step_lock product lock s s' : LockTokenPair product lock s = (Ok tt, s') → dex_step s s'
| step_unlock product s s' : UnlockTokenPair product s = (Ok tt, s') → dex_step s s'
| step_bank b s : (∀ d, Bank.balance b dexAcc d = bal s dexAcc d) → dex_step s (set_bank b s).

Lemma dex_step_inv s s' : dex_step s s' → dex_inv s → dex_inv s'.
Proof.
  intros H I. destruct H as [ctx msg s s' Hv Hs H|ctx s s' H|ctx prop s s' H|content s s' H
    |prop s s' H|product lock s s' H|product s s' H|b s H].
  - by eapply handler_inv.
  - destruct (EndBlocker_ok ctx s I) as (s1 & H1 & I1 & _). congruence.
  - unfold NewProposalHandler in H. destruct (pContent prop) as [p|]; [|by apply throw_ok in H].
    by apply (delist_ok _ _ _ _ _ I H).
  - by eapply mark_inv.
  - by eapply mark_inv.
  - apply modify_ok in H as ->. by apply (inv_same s).
  - apply modify_ok in H as ->. by apply (inv_same s).
  - split; [apply I|apply I|apply I|]. intros d. change (Bank.balance b dexAcc d = held d s). rewrite H. apply I.
Qed.

Lemma dex_steps_inv s s' : rtc dex_step s s' → dex_inv s → dex_inv s'.
Proof. induction 1; eauto using dex_step_inv. Qed.

(** ** The order of products *)

(** The order that IsGT means: more deposits first, then the older pair. *)
Definition before (p q : TokenPair) : Prop :=
  Amount (Deposits q) < Amount (Deposits p) ∨
  (Amount (Deposits p) = Amount (Deposits q) ∧ tpBlockHeight p < tpBlockHeight q).

Definition same_key (p q : TokenPair) : Prop :=
  Amount (Deposits p) = Amount (Deposits q) ∧ tpBlockHeight p = tpBlockHeight q.

Lemma Less_spec p q : Denom (Deposits p) = Denom (Deposits q) → (same_key p q → p = q) →
  Less p q = true ↔ before p q.
Proof.
  intros Hd Hk. unfold Less, IsGT, before. rewrite Coins.CoinIsLT_ok, Coins.CoinIsEqual_ok by done.
  cbn [or_panic mbind outcome_bind]. destruct (Z.ltb_spec (Amount (Deposits p)) (Amount (Deposits q))); [split; [done|lia]|].
  destruct (Z.eqb_spec (Amount (Deposits p)) (Amount (Deposits q))) as [Ed|]; cbn [negb]; [|split; [lia|done]].
  destruct (Z.ltb_spec (tpBlockHeight p) (tpBlockHeight q)); [split; [lia|done]|].
  destruct (Z.ltb_spec (tpBlockHeight q) (tpBlockHeight p)); [split; [done|lia]|].
  rewrite Hk by (unfold same_key; lia). rewrite orb_true_iff, !str_ltb_spec. split; [by intros [[_ []]|[_ []]]|lia].
Qed.

Section sorting.
Variables (l : list TokenPair) (den : string).
Hypothesis Hden : ∀ p, p ∈ l → Denom (Deposits p) = den.
Hypothesis Hkey : ∀ p q, p ∈ l → q ∈ l → same_key p q → p = q.

Lemma Less_l p q : p ∈ l → q ∈ l → Less p q = true ↔ before p q.
Proof. intros Hp Hq. apply Less_spec; [by rewrite !Hden|by apply Hkey]. Qed.

Lemma Less_l_false p q : p ∈ l → q ∈ l → Less p q = false ↔ ¬ before p q.
Proof. intros. by rewrite <-Less_l, not_true_iff_false. Qed.

Lemma Less_weak : weak_order Less l.
Proof.
  split.
  - intros x Hx. apply Less_l_false; [done..|]. unfold before. lia.
  - intros x y z Hx Hy Hz. rewrite !Less_l by done. unfold before. lia.
  - intros x y z Hx Hy Hz. rewrite !Less_l_false by done. unfold before. lia.
Qed.

Lemma sorted_unique k : k ≡ₚ l → go_sort Less k = go_sort Less l.
Proof.
  intros Hp. assert (weak_order Less k) as Hk.
  { destruct Less_weak as [H1 H2 H3]. split; intros *; rewrite !Hp; eauto. }
  apply (StronglySorted_unique_strong (λ x y, Less y x = false)).
  - intros x y Hx Hy H1 H2. rewrite go_sort_perm in Hx, Hy. rewrite Hp in Hx.
    rewrite Less_l_false in H1, H2 by done. apply Hkey; [done..|]. unfold before, same_key in *. lia.
  - by apply go_sort_sorted.
  - by apply go_sort_sorted, Less_weak.
  - by rewrite !go_sort_perm.
Qed.
End sorting.

(** ** Properties *)

(** C21  Over any run of the module, messages, end blocks, proposals and locks of
    products included, the dex account holds exactly the deposits of the listed
    pairs and the withdrawals that wait, in every denomination, and the queue of
    withdrawals lists each waiting withdrawal once, under its completion time. *)
Theorem dex_invariant s s' : rtc dex_step s s' → dex_inv s → dex_inv s'.
Proof. apply dex_steps_inv. Qed.

(** The end blocker never fails, and pays every withdrawal whose time has come
    in full to its owner, once; the others keep waiting. *)
Theorem withdrawals_paid ctx s : dex_inv s → ∃ s', EndBlocker ctx s = (Ok tt, s') ∧ dex_inv s' ∧
  ∀ a w, withdraws s !! a = Some w →
    withdraws s' !! a = (if decide (CompleteTime w ≤ BlockTime ctx) then None else Some w) ∧
    ∀ d, bal s' a d = bal s a d + if decide (CompleteTime w ≤ BlockTime ctx) then wait_amt d w else 0.
Proof. apply EndBlocker_ok. Qed.

(** The invariant that the module registers with the crisis module is never
    reported broken in a state that is in order. *)
Theorem dex_registered_invariant s : dex_inv s → ModuleAccountInvariant s = Ok false.
Proof.
  intros I. unfold ModuleAccountInvariant.
  assert (∀ c, Denom c = Coins.DefaultBondDenom → 0 ≤ Amount c → Coins.good [c]) as Hg.
  { intros c Hd Ha. split; [apply sorted_coins_single|]. constructor; [|constructor]. split; [done|].
    rewrite Hd. apply Coins.DefaultBondDenom_valid. }
  destruct (foldl_Add2 (λ p, [Deposits p]) (GetTokenPairs s) []) as [Hv1 Ha1]; [apply valid_nil|..].
  { apply Forall_forall. intros p ([n p'] & -> & Hp)%list_elem_of_fmap. apply elem_of_kv_sorted in Hp.
    destruct (di_pairs s I n p' Hp) as (_ & _ & ? & ?). by apply Hg. }
  destruct (foldl_Add2 (λ w, [wDeposits w]) (all_withdraws s) []) as [Hv2 Ha2]; [apply valid_nil|..].
  { apply Forall_forall. intros w ([a w'] & -> & Hw)%list_elem_of_fmap. apply elem_of_kv_sorted in Hw.
    destruct (di_waits s I a w' Hw) as (_ & _ & ? & ?). apply Hg; [done|]. cbn. lia. }
  rewrite Coins.IsEqual_true; [done|apply Bank.GetCoins_valid|apply Coins.Add2_valid; coins|].
  intros d. rewrite Add2_good_amt, Ha1, Ha2, amt_nil by coins.
  pose proof (di_held s I d) as Hh. unfold bal, Bank.balance, dexAcc, held in Hh.
  rewrite Hh. unfold GetTokenPairs, all_withdraws.
  rewrite (list_fmap_ext (λ p, amt d [Deposits p]) (pair_amt d)) by (intros; apply amt_single).
  rewrite (list_fmap_ext (λ w, amt d [wDeposits w]) (wait_amt d)) by (intros; apply amt_single).
  rewrite !zsum_values. lia.
Qed.

(** A transfer of ownership that is pending when its pair is delisted stays
    pending: when anybody lists the pair again, the old nominee still confirms
    successfully and owns the pair of the new lister. *)
Theorem relisted_pair_is_taken ctx prop p ctx2 mlist ctx3 s s1 s2 c :
  let name := dlBaseAsset p +:+ "_" +:+ dlQuoteAsset p in
  dex_inv s → confirms s !! name = Some c → cProduct c = name →
  handleDelistProposal ctx prop p s = (Ok tt, s1) →
  handleMsgList ctx2 mlist s1 = (Ok tt, s2) → ListAsset mlist +:+ "_" +:+ QuoteAsset mlist = name →
  BlockTime ctx3 ≤ cExpire c →
  ∃ tp s3 tp', pairs s2 !! name = Some tp ∧ Owner tp = mlOwner mlist ∧
    handleMsgConfirmOwnership ctx3 (MkMsgConfirmOwnership name (cToAddress c)) s2 = (Ok tt, s3) ∧
    pairs s3 !! name = Some tp' ∧ Owner tp' = cToAddress c.
Proof.
  intros name I Hc Hcp Hdel Hlist Hn Htime.
  destruct (delist_ok _ _ _ _ _ I Hdel) as (_ & Ec & _).
  apply handleMsgList_ok in Hlist as (b & tp & m & u & _ & _ & Hname & Hown & _ & ->). rewrite Hn.
  set (s2 := set_userPairs _ _). assert (confirms s2 !! name = Some c) as Hc2 by (cbn; by rewrite Ec).
  assert (pairs s2 !! name = Some tp) as Hp2 by (cbn; by rewrite lookup_insert_eq).
  exists tp. eexists _, (set_Owner (cToAddress c) tp). split; [done|]. split; [done|].
  unfold handleMsgConfirmOwnership. cbn [mcProduct mcAddress].
  rewrite (bind_eq _ _ s2 (Some c) s2) by (unfold gets, GetConfirmOwnership; by rewrite Hc2).
  rewrite (bind_eq _ _ s2 c s2) by done.
  destruct (Z.ltb_spec (cExpire c) (BlockTime ctx3)); [lia|]. rewrite String.eqb_refl.
  rewrite (bind_eq _ _ s2 tt s2) by done.
  rewrite (bind_eq _ _ s2 (Some tp) s2) by (unfold gets, GetTokenPair; by rewrite Hp2).
  rewrite (bind_eq _ _ s2 tp s2) by done. split; [reflexivity|]. cbn. by rewrite lookup_insert_eq.
Qed.

(** Products whose pairs differ in deposits or in height are processed in an
    order that does not depend on the order in which they are presented, that is, on
    the iteration order of the maps they come from. *)
Theorem SortProducts_deterministic products products' s :
  dex_inv s → products ≡ₚ products' → (∀ n, n ∈ products → is_Some (pairs s !! n)) →
  (∀ p q, Name p ∈ products → Name q ∈ products → pairs s !! Name p = Some p →
    pairs s !! Name q = Some q → same_key p q → p = q) →
  SortProducts products s = SortProducts products' s.
Proof.
  intros I Hp Hall Hkey. unfold SortProducts.
  assert (∀ l, l ≡ₚ products → length (omap (λ n, GetTokenPair n s) l) = length l) as Hlen.
  { intros l Hl. assert (∀ n, n ∈ l → is_Some (pairs s !! n)) as Hl' by (intros n; rewrite Hl; apply Hall).
    clear -Hl'. induction l as [|n l IH]; [done|]. destruct (Hl' n) as [p Hn]; [by left|].
    cbn. unfold GetTokenPair at 1. rewrite Hn. cbn. f_equal. apply IH. intros. apply Hl'. by right. }
  assert (∀ p, p ∈ omap (λ n, GetTokenPair n s) products' → Name p ∈ products ∧ pairs s !! Name p = Some p) as Hin.
  { intros p (n & Hn & Hpn)%list_elem_of_omap. unfold GetTokenPair in Hpn.
    destruct (di_pairs s I n p Hpn) as (-> & _). by rewrite Hp. }
  rewrite (sorted_unique (omap (λ n, GetTokenPair n s) products') Coins.DefaultBondDenom) with
    (k := omap (λ n, GetTokenPair n s) products).
  - set (l := go_sort _ _).
    assert (length l = length products') as El.
    { unfold l. rewrite go_sort_perm. by apply Hlen. }
    rewrite !drop_ge; [done|rewrite El; done|rewrite El, Hp; done].
  - intros p [_ Hpp]%Hin. by destruct (di_pairs s I _ p Hpp) as (_ & _ & ? & _).
  - intros p q [? ?]%Hin [? ?]%Hin. by apply Hkey.
  - by rewrite Hp.
Qed.
End spec.

(** ** Witnesses: a pair that is listed, funded and withdrawn from *)

#[local] Existing Instance Dec18.ops.
#[local] Existing Instance Dec18.dec_laws.
#[local] Existing Instance CoinsImpl.ops.
#[local] Existing Instance CoinsImpl.coins_laws.
#[local] Existing Instance BankImpl.ops.
#[local] Existing Instance BankImpl.bank_laws.
#[local] Existing Instance GoRtImpl.ops.
#[local] Existing Instance GoRtImpl.laws.

#[local] Instance ex_env : Token.Env := {|
  Token.HigherThanMercury _ := false;
  Token.EthCodeHash _ _ := None;
  Token.Keccak256_nil := "";
  Token.tmhash_hex s := s;
  Token.feeCollectorName := "fee_collector";
  Token.enableBackend := false;
|}.

#[local] Instance ex_dex_env : Env := {|
  IsValidator _ := true;
  url_scheme _ := Some "https";
  tmhash_HEX s := s;
|}.

#[local] Instance ex_accounts : Accounts.
Proof. split. done. Qed.

Definition ex_okt (n : Z) : SysCoin := MkCoin "okt" n.

Definition ex_token (d : string) : Token.Token := Token.MkToken "" d d d 50 0 "alice" true.

Definition ex_start : DexState :=
  MkDexState _
    (Token.MkTokenState _
       (BankImpl.MkSt {[ "alice" := [ex_okt 1000]; "carol" := [ex_okt 1000] ]} {[ "okt" := 2000 ]})
       {[ "okt" := ex_token "okt"; "xxb" := ex_token "xxb"; "yyb" := ex_token "yyb" ]} ∅ 3 ∅ ∅ ∅
       (Token.MkParams (ex_okt 5) (ex_okt 1) (ex_okt 1) (ex_okt 1) (ex_okt 1) 100) [])
    ∅ ∅ 0 ∅
    {[ "alice" := MkOperator "alice" "alice" "" 1 ""; "bob" := MkOperator "bob" "bob" "" 1 "";
       "carol" := MkOperator "carol" "carol" "" 1 "" ]}
    ∅ ∅ ∅ (MkParams (ex_okt 100) (ex_okt 10) (ex_okt 1) 10 [ex_okt 10] 10 10 1000) ∅.

Definition at_time (t : Z) : Context := MkContext 5 t "tx".

Definition run {A} (m : M DexState A) (s : DexState) : DexState := snd (m s).

Lemma ex_dex_run {A} (m : M DexState A) s a : fst (m s) = Ok a → m s = (Ok a, run m s).
Proof. apply run_ok. Qed.

Lemma dex_start_inv : dex_inv ex_start.
Proof.
  split; [by apply map_Forall_empty|by apply map_Forall_empty|..].
  - intros t a. cbn. split; [set_solver|]. intros (w & Hw & _). by rewrite lookup_empty in Hw.
  - intros d. unfold held. cbn [pairs withdraws ex_start]. by rewrite !msum_empty.
Qed.

Definition ex_list : Msg := MList (MkMsgList "alice" "xxb" "okt" 7).
Definition ex_deposit : Msg := MDeposit (MkMsgDeposit "xxb_okt" (ex_okt 30) "alice").
Definition ex_withdraw : Msg := MWithdraw (MkMsgWithdraw "xxb_okt" (ex_okt 20) "alice").

Definition ex_listed : DexState := run (NewHandler (at_time 1) ex_list) ex_start.
Definition ex_funded : DexState := run (NewHandler (at_time 2) ex_deposit) ex_listed.
Definition ex_waiting : DexState := run (NewHandler (at_time 3) ex_withdraw) ex_funded.

Lemma ex_msg_step ctx msg s : ValidateBasic msg = Ok tt → signer msg ≠ dexAcc →
  fst (NewHandler ctx msg s) = Ok tt → dex_step s (run (NewHandler ctx msg) s).
Proof. intros Hv Hs H. eapply step_msg; [done..|]. by apply ex_dex_run. Qed.

Lemma ex_steps : rtc dex_step ex_start ex_waiting.
Proof.
  eapply rtc_l; [apply (ex_msg_step (at_time 1) ex_list); [vm_compute; reflexivity|done|vm_compute; reflexivity]|].
  eapply rtc_l; [apply (ex_msg_step (at_time 2) ex_deposit); [vm_compute; reflexivity|done|vm_compute; reflexivity]|].
  eapply rtc_l; [apply (ex_msg_step (at_time 3) ex_withdraw); [vm_compute; reflexivity|done|vm_compute; reflexivity]|].
  apply rtc_refl.
Qed.

Lemma ex_waiting_inv : dex_inv ex_waiting.
Proof. apply (dex_steps_inv ex_start); [apply ex_steps|apply dex_start_inv]. Qed.

Lemma dex_invariant_witness : dex_inv ex_waiting.
Proof. apply (dex_invariant ex_start ex_waiting); [apply ex_steps|apply dex_start_inv]. Defined.

Lemma withdrawals_paid_witness : ∃ s', EndBlocker (at_time 13) ex_waiting = (Ok tt, s') ∧ dex_inv s' ∧
  ∀ a w, withdraws ex_waiting !! a = Some w →
    withdraws s' !! a = (if decide (CompleteTime w ≤ 13) then None else Some w) ∧
    ∀ d, bal s' a d = bal ex_waiting a d + if decide (CompleteTime w ≤ 13) then wait_amt d w else 0.
Proof. apply (withdrawals_paid (at_time 13) ex_waiting), ex_waiting_inv. Defined.

Lemma dex_registered_invariant_witness : ModuleAccountInvariant ex_waiting = Ok false.
Proof. apply (dex_registered_invariant ex_waiting), ex_waiting_inv. Defined.

Definition ex_transfer : Msg := MTransferOwnership (MkMsgTransferOwnership "alice" "bob" "xxb_okt").
Definition ex_pending : DexState := run (NewHandler (at_time 4) ex_transfer) ex_waiting.
Definition ex_delist : DelistProposal := MkDelistProposal "t" "d" "alice" "xxb" "okt".
Definition ex_proposal : Proposal := MkProposal 1 50 (CDelist ex_delist).
Definition ex_delisted : DexState := run (handleDelistProposal (at_time 60) ex_proposal ex_delist) ex_pending.
Definition ex_relist : MsgList := MkMsgList "carol" "xxb" "okt" 7.
Definition ex_relisted : DexState := run (handleMsgList (at_time 70) ex_relist) ex_delisted.

Lemma ex_pending_inv : dex_inv ex_pending.
Proof.
  eapply dex_step_inv; [|apply ex_waiting_inv].
  apply ex_msg_step; [vm_compute; reflexivity|done|vm_compute; reflexivity].
Qed.

Lemma relisted_pair_is_taken_witness :
  ∃ tp s3 tp', pairs ex_relisted !! "xxb_okt" = Some tp ∧ Owner tp = "carol" ∧
    handleMsgConfirmOwnership (at_time 80) (MkMsgConfirmOwnership "xxb_okt" "bob") ex_relisted = (Ok tt, s3) ∧
    pairs s3 !! "xxb_okt" = Some tp' ∧ Owner tp' = "bob".
Proof.
  apply (relisted_pair_is_taken (at_time 60) ex_proposal ex_delist (at_time 70) ex_relist (at_time 80)
    ex_pending ex_delisted ex_relisted (MkConfirmOwnership "xxb_okt" "alice" "bob" 1004));
    [apply ex_pending_inv|vm_compute; reflexivity|done|..|done|cbn; lia].
  - refine (ex_dex_run _ _ tt _). vm_compute. reflexivity.
  - refine (ex_dex_run _ _ tt _). vm_compute. reflexivity.
Defined.

Definition ex_list2 : Msg := MList (MkMsgList "alice" "yyb" "okt" 7).
Definition ex_two : DexState := run (NewHandler (MkContext 9 4 "tx") ex_list2) ex_waiting.

Lemma ex_two_inv : dex_inv ex_two.
Proof.
  eapply dex_step_inv; [|apply ex_waiting_inv].
  apply ex_msg_step; [vm_compute; reflexivity|done|vm_compute; reflexivity].
Qed.

Definition ex_pair (base : string) (id n h : Z) : TokenPair :=
  MkTokenPair base "okt" 7 4 4 (10 ^ 10) id false "alice" (ex_okt n) h.

Lemma ex_two_xxb : pairs ex_two !! "xxb_okt" = Some (ex_pair "xxb" 1 10 5).
Proof. vm_compute. reflexivity. Qed.
Lemma ex_two_yyb : pairs ex_two !! "yyb_okt" = Some (ex_pair "yyb" 2 0 9).
Proof. vm_compute. reflexivity. Qed.

Lemma SortProducts_deterministic_witness :
  SortProducts ["xxb_okt"; "yyb_okt"] ex_two = SortProducts ["yyb_okt"; "xxb_okt"] ex_two.
Proof.
  assert (∀ n, n ∈ ["xxb_okt"; "yyb_okt"] → n = "xxb_okt" ∨ n = "yyb_okt") as Hc.
  { intros n [->|[->|[]%not_elem_of_nil]%elem_of_cons]%elem_of_cons; [by left|by right]. }
  apply (SortProducts_deterministic ["xxb_okt"; "yyb_okt"] ["yyb_okt"; "xxb_okt"] ex_two);
    [apply ex_two_inv|apply Permutation_swap|..].
  - intros n [->| ->]%Hc; eexists; [apply ex_two_xxb|apply ex_two_yyb].
  - intros p q Hp%Hc Hq%Hc Ep Eq [Hk _]. destruct Hp as [E1|E1], Hq as [E2|E2]; rewrite E1 in Ep; rewrite E2 in Eq;
      rewrite ?ex_two_xxb, ?ex_two_yyb in Ep; rewrite ?ex_two_xxb, ?ex_two_yyb in Eq;
      injection Ep as <-; injection Eq as <-; (reflexivity || discriminate Hk).
Defined.

(** Two pairs listed in one block that compare as greater than each other. *)
Definition ex_tie : DexState :=
  run (NewHandler (at_time 1) (MList (MkMsgList "alice" "xxb" "yyb" 7)))
    (run (NewHandler (at_time 1) (MList (MkMsgList "carol" "yyb" "okt" 7))) ex_start).

(** The order of products is not determined in general: two pairs listed in the
    same block with equal deposits can each compare as greater than the other, and
    then the order depends on the one in which the products are presented. *)
Theorem SortProducts_ambiguous :
  SortProducts ["xxb_yyb"; "yyb_okt"] ex_tie = ["yyb_okt"; "xxb_yyb"] ∧
  SortProducts ["yyb_okt"; "xxb_yyb"] ex_tie = ["xxb_yyb"; "yyb_okt"].
Proof. split; vm_compute; reflexivity. Qed.
End DexSpec.
