(* ===== verification/OrderKeeper.v ===== *)
(** * The order keeper: src/x/order/keeper, src/x/order/types/msgs.go,
      src/x/order/handler.go

    Orders, the depth book of every product and the order ids at every price.
    [OrderState] is the dex module's state (with the token module's inside it), the
    order store, and what the keeper keeps in memory: [Cache], which lives for one
    block, and [DiskCache], which is written to the store at the end of a block.
    Keys that the source prefixes with a byte are separate maps, heights and
    counters are stored as the integers that their eight bytes code (the coding is
    shown injective in [Common]).  A handler runs each order of a message on a
    cached store and discards the writes of an order that fails; what is in memory is
    not rolled back ([discard]).

    Block heights are int64 values that are not negative, so that their differences
    do not overflow.  Gas, events, logs and metrics are left out.  The keeper's
    enableBackend and feeCollectorName are those of the token keeper, as the
    application sets them. *)

From S2P Require Import Prelude SdkDec SdkCoins GoStd CommonErrors Common TokenErrors Token OrderErrors OrderTypes DepthBook DexErrors Dex.

#[local] Open Scope Z_scope.

Module OrderKeeper.

(** types.BlockMatchResult *)
Record BlockMatchResult := MkBlockMatchResult {
  bmBlockHeight : Z; bmResultMap : gmap string MatchResult; bmTimeStamp : Z
}.

(** ** Memory *)

(** memory_cache.go; the bit set of a message is the set of its successful indexes. *)
Record Cache := MkCache {
  updatedOrderIDs : list string;
  blockMatchResult : option BlockMatchResult;
  handlerTxMsgResult : list (gset nat);
  cancelNum : Z;
  expireNum : Z;
  partialFillNum : Z;
  fullFillNum : Z;
}.

Definition set_updatedOrderIDs (x : list string) (c : Cache) : Cache :=
  MkCache x (blockMatchResult c) (handlerTxMsgResult c) (cancelNum c) (expireNum c) (partialFillNum
    c) (fullFillNum c).
Definition set_blockMatchResult (x : option BlockMatchResult) (c : Cache) : Cache :=
  MkCache (updatedOrderIDs c) x (handlerTxMsgResult c) (cancelNum c) (expireNum c) (partialFillNum
    c) (fullFillNum c).
Definition set_handlerTxMsgResult (x : list (gset nat)) (c : Cache) : Cache :=
  MkCache (updatedOrderIDs c) (blockMatchResult c) x (cancelNum c) (expireNum c) (partialFillNum c)
    (fullFillNum c).
Definition set_cancelNum (x : Z) (c : Cache) : Cache :=
  MkCache (updatedOrderIDs c) (blockMatchResult c) (handlerTxMsgResult c) x (expireNum c)
    (partialFillNum c) (fullFillNum c).
Definition set_expireNum (x : Z) (c : Cache) : Cache :=
  MkCache (updatedOrderIDs c) (blockMatchResult c) (handlerTxMsgResult c) (cancelNum c) x
    (partialFillNum c) (fullFillNum c).
Definition set_partialFillNum (x : Z) (c : Cache) : Cache :=
  MkCache (updatedOrderIDs c) (blockMatchResult c) (handlerTxMsgResult c) (cancelNum c) (expireNum
    c) x (fullFillNum c).
Definition set_fullFillNum (x : Z) (c : Cache) : Cache :=
  MkCache (updatedOrderIDs c) (blockMatchResult c) (handlerTxMsgResult c) (cancelNum c) (expireNum
    c) (partialFillNum c) x.

(** disk_cache.go: the two maps with the keys updated, or new, in this block. *)
Record DiskCache := MkDiskCache {
  bookData : gmap string DepthBook;
  bookUpdated : gset string;
  bookNew : gset string;
  idsData : gmap string (list string);
  idsUpdated : gset string;
  priceMap : gmap string Dec;
  dStoreOrderNum : Z;
  dOpenNum : Z;
  closedOrderIDs : list string;
}.

Definition set_bookData (x : gmap string DepthBook) (c : DiskCache) : DiskCache :=
  MkDiskCache x (bookUpdated c) (bookNew c) (idsData c) (idsUpdated c) (priceMap c) (dStoreOrderNum
    c) (dOpenNum c) (closedOrderIDs c).
Definition set_bookUpdated (x : gset string) (c : DiskCache) : DiskCache :=
  MkDiskCache (bookData c) x (bookNew c) (idsData c) (idsUpdated c) (priceMap c) (dStoreOrderNum c)
    (dOpenNum c) (closedOrderIDs c).
Definition set_bookNew (x : gset string) (c : DiskCache) : DiskCache :=
  MkDiskCache (bookData c) (bookUpdated c) x (idsData c) (idsUpdated c) (priceMap c) (dStoreOrderNum
    c) (dOpenNum c) (closedOrderIDs c).
Definition set_idsData (x : gmap string (list string)) (c : DiskCache) : DiskCache :=
  MkDiskCache (bookData c) (bookUpdated c) (bookNew c) x (idsUpdated c) (priceMap c) (dStoreOrderNum
    c) (dOpenNum c) (closedOrderIDs c).
Definition set_idsUpdated (x : gset string) (c : DiskCache) : DiskCache :=
  MkDiskCache (bookData c) (bookUpdated c) (bookNew c) (idsData c) x (priceMap c) (dStoreOrderNum c)
    (dOpenNum c) (closedOrderIDs c).
Definition set_priceMap (x : gmap string Dec) (c : DiskCache) : DiskCache :=
  MkDiskCache (bookData c) (bookUpdated c) (bookNew c) (idsData c) (idsUpdated c) x (dStoreOrderNum
    c) (dOpenNum c) (closedOrderIDs c).
Definition set_dStoreOrderNum (x : Z) (c : DiskCache) : DiskCache :=
  MkDiskCache (bookData c) (bookUpdated c) (bookNew c) (idsData c) (idsUpdated c) (priceMap c) x
    (dOpenNum c) (closedOrderIDs c).
Definition set_dOpenNum (x : Z) (c : DiskCache) : DiskCache :=
  MkDiskCache (bookData c) (bookUpdated c) (bookNew c) (idsData c) (idsUpdated c) (priceMap c)
    (dStoreOrderNum c) x (closedOrderIDs c).
Definition set_closedOrderIDs (x : list string) (c : DiskCache) : DiskCache :=
  MkDiskCache (bookData c) (bookUpdated c) (bookNew c) (idsData c) (idsUpdated c) (priceMap c)
    (dStoreOrderNum c) (dOpenNum c) x.

Record OrderState `{BO : Bank.Ops} := MkOrderState {
  dex : Dex.DexState;
  orders : gmap string Order;
  books : gmap string DepthBook;
  idsStore : gmap string (list string);
  prices : gmap string Dec;
  expireHeights : gmap Z (list Z);
  blockNums : gmap Z Z;
  lastClosed : list string;
  lastExpired : Z;
  openOrderNum : Z;
  storeOrderNum : Z;
  oparams : OrderParams;
  cache : Cache;
  disk : DiskCache;
  started : bool;
}.

(** What the module takes from Go's runtime: whether appending [k] elements to a
    slice of [n] reuses its array. *)
Class OrderEnv := { append_shares : nat → nat → bool }.

(** ** Messages (msgs.go) *)

Definition OrderItemLimit : nat := 200.
Definition MultiCancelOrderItemLimit : nat := 200.

Record MsgNewOrder := MkMsgNewOrder {
  noSender : AccAddress; noProduct : string; noSide : string; noPrice : Dec; noQuantity : Dec
}.
Record MsgCancelOrder := MkMsgCancelOrder { coSender : AccAddress; coOrderID : string }.
Record OrderItem := MkOrderItem {
  oiProduct : string; oiSide : string; oiPrice : Dec; oiQuantity : Dec
}.
Record MsgNewOrders := MkMsgNewOrders { nosSender : AccAddress; OrderItems : list OrderItem }.
Record MsgCancelOrders := MkMsgCancelOrders { cosSender : AccAddress; OrderIDs : list string }.
Record OrderResult := MkOrderResult { rError : option error; rOrderID : string }.

Inductive Msg := MNewOrders (m : MsgNewOrders) | MCancelOrders (m : MsgCancelOrders) | MOther.

Section validate.
Context `{DO : Dec.Ops}.

Fixpoint validate_items (items : list OrderItem) : outcome unit :=
  match items with
  | [] => Ok tt
  | item :: items =>
      if (String.length (oiProduct item) =? 0)%nat then Err OrderErr.ErrOrderItemProductCountsIsEmpty
      else match Split (oiProduct item) underscore with
      | [symbol0; symbol1] =>
          if String.eqb symbol0 symbol1 then Err OrderErr.ErrOrderItemProductSymbolIsEqual
          else if (negb (String.eqb (oiSide item) BuyOrder) && negb (String.eqb (oiSide item) SellOrder))%bool
          then Err OrderErr.ErrOrderItemSideIsNotBuyAndSell
          else if negb (Dec.IsPositive (oiPrice item) && Dec.IsPositive (oiQuantity item))%bool
          then Err OrderErr.ErrOrderItemPriceOrQuantityIsNotPositive
          else validate_items items
      | _ => Err OrderErr.ErrOrderItemProductFormat
      end
  end.

Definition MsgNewOrders_ValidateBasic (msg : MsgNewOrders) : outcome unit :=
  if Token.Empty (nosSender msg) then Err OrderErr.ErrInvalidAddress
  else if (length (OrderItems msg) =? 0)%nat then Err OrderErr.ErrOrderItemCountsIsEmpty
  else if (OrderItemLimit <? length (OrderItems msg))%nat
  then Err OrderErr.ErrOrderItemCountsBiggerThanLimit
  else validate_items (OrderItems msg).

Fixpoint hasDuplicatedID_loop (idSet : gset string) (ids : list string) : bool :=
  match ids with
  | [] => false
  | item :: ids => if bool_decide (item ∈ idSet) then true
                   else hasDuplicatedID_loop ({[item]} ∪ idSet) ids
  end.
Definition hasDuplicatedID (ids : list string) : bool := hasDuplicatedID_loop ∅ ids.

Definition MsgCancelOrders_ValidateBasic (msg : MsgCancelOrders) : outcome unit :=
  if Token.Empty (cosSender msg) then Err OrderErr.ErrInvalidAddress
  else if (length (OrderIDs msg) =? 0)%nat then Err OrderErr.ErrOrderIDsIsEmpty
  else if (MultiCancelOrderItemLimit <? length (OrderIDs msg))%nat
  then Err OrderErr.ErrCancelOrderBiggerThanLimit
  else if hasDuplicatedID (OrderIDs msg) then Err OrderErr.ErrOrderIDsHasDuplicatedID
  else if existsb (λ item, String.eqb item "") (OrderIDs msg) then Err OrderErr.ErrUserInputOrderIDIsEmpty
  else Ok tt.

Definition ValidateBasic (msg : Msg) : outcome unit :=
  match msg with
  | MNewOrders m => MsgNewOrders_ValidateBasic m
  | MCancelOrders m => MsgCancelOrders_ValidateBasic m
  | MOther => Ok tt
  end.

(** The gas of a message, in uint64. *)
Definition CalculateGas (msg : Msg) (params : OrderParams) : Z :=
  match msg with
  | MNewOrders m => uint64 (Z.of_nat (length (OrderItems m)) * pNewOrderMsgGasUnit params)
  | MCancelOrders m => uint64 (Z.of_nat (length (OrderIDs m)) * pCancelOrderMsgGasUnit params)
  | MOther => 2 ^ 64 - 1
  end.
End validate.

(** ** The disk cache (disk_cache.go) *)

Section disk.
Context `{DO : Dec.Ops}.

Definition newDiskCache : DiskCache := MkDiskCache ∅ ∅ ∅ ∅ ∅ ∅ 0 0 [].

Definition disk_reset (c : DiskCache) : DiskCache :=
  set_closedOrderIDs [] (set_idsUpdated ∅ (set_bookUpdated ∅ (set_bookNew ∅ c))).

Definition setLastPrice (product : string) (price : Dec) (c : DiskCache) : DiskCache :=
  set_priceMap (<[product := price]> (priceMap c)) c.
Definition getLastPrice (product : string) (c : DiskCache) : Dec :=
  match priceMap c !! product with Some price => price | None => Dec.ZeroDec end.

(** A deep copy: the lists of the model are values. *)
Definition GetOrderIDsMapCopy (c : DiskCache) : gmap string (list string) := idsData c.

(** A missing key reads as a nil slice. *)
Definition getOrderIDs (key : string) (c : DiskCache) : list string := default [] (idsData c !! key).

Definition DecreaseStoreOrderNum (num : Z) (c : DiskCache) : DiskCache :=
  set_dStoreOrderNum (dStoreOrderNum c - num) c.

Definition addOrderIDs (key : string) (orderIDs : list string) (c : DiskCache) : DiskCache :=
  set_idsData (<[key := orderIDs]> (idsData c)) c.
Definition addDepthBook (product : string) (book : DepthBook) (c : DiskCache) : DiskCache :=
  set_bookData (<[product := book]> (bookData c)) c.

Definition setOrderIDs (key : string) (orderIDs : list string) (c : DiskCache) : DiskCache :=
  let c := if (length orderIDs =? 0)%nat then set_idsData (delete key (idsData c)) c
           else set_idsData (<[key := orderIDs]> (idsData c)) c in
  set_idsUpdated ({[key]} ∪ idsUpdated c) c.

Definition setDepthBook (product : string) (book : option DepthBook) (c : DiskCache) : DiskCache :=
  let c := match book with
           | Some (it :: book) => set_bookData (<[product := it :: book]> (bookData c)) c
           | _ => set_bookData (delete product (bookData c)) c
           end in
  set_bookUpdated ({[product]} ∪ bookUpdated c) c.

Definition GetUpdatedOrderIDKeys (c : DiskCache) : list string := set_sorted (idsUpdated c).
Definition GetUpdatedDepthbookKeys (c : DiskCache) : list string := set_sorted (bookUpdated c).

Definition getDepthBook (product : string) (c : DiskCache) : option DepthBook := bookData c !! product.

(** Ranges over maps. *)
Definition getProductsFromDepthBookMap `{RT : GoRt} (c : DiskCache) : list string :=
  map_range (elements (dom (bookData c))).
Definition GetNewDepthbookKeys `{RT : GoRt} (c : DiskCache) : list string :=
  map_range (elements (bookNew c)).

Definition insertOrder (order : Order) (c : DiskCache) : outcome DiskCache :=
  let depthBook := default [] (bookData c !! Product order) in
  depthBook ← InsertOrder order depthBook;
  let c := set_bookData (<[Product order := depthBook]> (bookData c)) c in
  let c := set_bookUpdated ({[Product order]} ∪ bookUpdated c) c in
  let c := set_bookNew ({[Product order]} ∪ bookNew c) c in
  let key := FormatOrderIDsKey (Product order) (Price order) (Side order) in
  let orderIDs := default [] (idsData c !! key) in
  let c := set_idsData (<[key := orderIDs ++ [OrderID order]]> (idsData c)) c in
  let c := set_idsUpdated ({[key]} ∪ idsUpdated c) c in
  Ok (set_dStoreOrderNum (dStoreOrderNum c + 1) (set_dOpenNum (dOpenNum c + 1) c)).

Definition closeOrder (orderID : string) (c : DiskCache) : DiskCache :=
  set_dOpenNum (dOpenNum c - 1) (set_closedOrderIDs (closedOrderIDs c ++ [orderID]) c).

(** The first occurrence of an id is cut out of the slice. *)
Fixpoint cut (id : string) (l : list string) : option (list string) :=
  match l with
  | [] => None
  | x :: l => if String.eqb x id then Some l else (λ l, x :: l) <$> cut id l
  end.

Definition removeOrder (order : Order) (c : DiskCache) : outcome DiskCache :=
  c ← match getDepthBook (Product order) c with
      | Some depthBook =>
          depthBook ← RemoveOrder order depthBook;
          Ok (setDepthBook (Product order) (Some depthBook) c)
      | None => Ok c
      end;
  let key := FormatOrderIDsKey (Product order) (Price order) (Side order) in
  let c := match cut (OrderID order) (getOrderIDs key c) with
           | Some orderIDs => setOrderIDs key orderIDs c
           | None => c
           end in
  Ok (closeOrder (OrderID order) c).
End disk.

Definition cache_reset (c : Cache) : Cache := MkCache [] (Some (MkBlockMatchResult 0 ∅ 0)) [] 0 0 0 0.

(** ** Fees (fee.go) *)

Section fee.
Context `{DO : Dec.Ops} `{CO : Coins.Ops}.

Definition minFee : string := "0.00000001".

Definition GetOrderNewFee (order : Order) : outcome SysCoins :=
  let orderExpireBlocks := Dec.NewDec (OrderExpireBlocks order) in
  let amount := Dec.Mul (Amount (FeePerBlock order)) orderExpireBlocks in
  c ← or_panic (Coins.NewDecCoinFromDec (Denom (FeePerBlock order)) amount);
  Ok [c].

Definition GetZeroFee : SysCoins := [Coins.ZeroFee].

Definition GetOrderCostFee (order : Order) (ctx : Context) : outcome SysCoins :=
  let currentHeight := BlockHeight ctx in
  let orderHeight := GetBlockHeightFromOrderID (OrderID order) in
  let blockNum := currentHeight - orderHeight in
  if (blockNum <? 0)%Z then Ok GetZeroFee
  else
    let blockNum := if (OrderExpireBlocks order <? blockNum)%Z then OrderExpireBlocks order else blockNum in
    let costFee := Dec.Mul (Amount (FeePerBlock order)) (Dec.NewDec blockNum) in
    c ← or_panic (Coins.NewDecCoinFromDec (Denom (FeePerBlock order)) costFee);
    Ok [c].
End fee.

(** ** The keeper *)

Section keeper.
Context `{DO : Dec.Ops} `{CO : Coins.Ops} `{BO : Bank.Ops} `{TE : !Token.Env} `{DE : Dex.Env}
  `{RT : GoRt} `{OE : OrderEnv}.

Abbreviation MO := (M OrderState) (only parsing).

Definition set_dex (x : Dex.DexState) (s : OrderState) : OrderState :=
  MkOrderState _ x (orders s) (books s) (idsStore s) (prices s) (expireHeights s) (blockNums s)
    (lastClosed s) (lastExpired s) (openOrderNum s) (storeOrderNum s) (oparams s) (cache s) (disk s)
    (started s).
Definition set_orders (x : gmap string Order) (s : OrderState) : OrderState :=
  MkOrderState _ (dex s) x (books s) (idsStore s) (prices s) (expireHeights s) (blockNums s)
    (lastClosed s) (lastExpired s) (openOrderNum s) (storeOrderNum s) (oparams s) (cache s) (disk s)
    (started s).
Definition set_books (x : gmap string DepthBook) (s : OrderState) : OrderState :=
  MkOrderState _ (dex s) (orders s) x (idsStore s) (prices s) (expireHeights s) (blockNums s)
    (lastClosed s) (lastExpired s) (openOrderNum s) (storeOrderNum s) (oparams s) (cache s) (disk s)
    (started s).
Definition set_idsStore (x : gmap string (list string)) (s : OrderState) : OrderState :=
  MkOrderState _ (dex s) (orders s) (books s) x (prices s) (expireHeights s) (blockNums s)
    (lastClosed s) (lastExpired s) (openOrderNum s) (storeOrderNum s) (oparams s) (cache s) (disk s)
    (started s).
Definition set_prices (x : gmap string Dec) (s : OrderState) : OrderState :=
  MkOrderState _ (dex s) (orders s) (books s) (idsStore s) x (expireHeights s) (blockNums s)
    (lastClosed s) (lastExpired s) (openOrderNum s) (storeOrderNum s) (oparams s) (cache s) (disk s)
    (started s).
Definition set_expireHeights (x : gmap Z (list Z)) (s : OrderState) : OrderState :=
  MkOrderState _ (dex s) (orders s) (books s) (idsStore s) (prices s) x (blockNums s) (lastClosed s)
    (lastExpired s) (openOrderNum s) (storeOrderNum s) (oparams s) (cache s) (disk s) (started s).
Definition set_blockNums (x : gmap Z Z) (s : OrderState) : OrderState :=
  MkOrderState _ (dex s) (orders s) (books s) (idsStore s) (prices s) (expireHeights s) x
    (lastClosed s) (lastExpired s) (openOrderNum s) (storeOrderNum s) (oparams s) (cache s) (disk s)
    (started s).
Definition set_lastClosed (x : list string) (s : OrderState) : OrderState :=
  MkOrderState _ (dex s) (orders s) (books s) (idsStore s) (prices s) (expireHeights s) (blockNums
    s) x (lastExpired s) (openOrderNum s) (storeOrderNum s) (oparams s) (cache s) (disk s) (started
    s).
Definition set_lastExpired (x : Z) (s : OrderState) : OrderState :=
  MkOrderState _ (dex s) (orders s) (books s) (idsStore s) (prices s) (expireHeights s) (blockNums
    s) (lastClosed s) x (openOrderNum s) (storeOrderNum s) (oparams s) (cache s) (disk s) (started
    s).
Definition set_openOrderNum (x : Z) (s : OrderState) : OrderState :=
  MkOrderState _ (dex s) (orders s) (books s) (idsStore s) (prices s) (expireHeights s) (blockNums
    s) (lastClosed s) (lastExpired s) x (storeOrderNum s) (oparams s) (cache s) (disk s) (started
    s).
Definition set_storeOrderNum (x : Z) (s : OrderState) : OrderState :=
  MkOrderState _ (dex s) (orders s) (books s) (idsStore s) (prices s) (expireHeights s) (blockNums
    s) (lastClosed s) (lastExpired s) (openOrderNum s) x (oparams s) (cache s) (disk s) (started s).
Definition set_oparams (x : OrderParams) (s : OrderState) : OrderState :=
  MkOrderState _ (dex s) (orders s) (books s) (idsStore s) (prices s) (expireHeights s) (blockNums
    s) (lastClosed s) (lastExpired s) (openOrderNum s) (storeOrderNum s) x (cache s) (disk s)
    (started s).
Definition set_cache (x : Cache) (s : OrderState) : OrderState :=
  MkOrderState _ (dex s) (orders s) (books s) (idsStore s) (prices s) (expireHeights s) (blockNums
    s) (lastClosed s) (lastExpired s) (openOrderNum s) (storeOrderNum s) (oparams s) x (disk s)
    (started s).
Definition set_disk (x : DiskCache) (s : OrderState) : OrderState :=
  MkOrderState _ (dex s) (orders s) (books s) (idsStore s) (prices s) (expireHeights s) (blockNums
    s) (lastClosed s) (lastExpired s) (openOrderNum s) (storeOrderNum s) (oparams s) (cache s) x
    (started s).
Definition set_started (x : bool) (s : OrderState) : OrderState :=
  MkOrderState _ (dex s) (orders s) (books s) (idsStore s) (prices s) (expireHeights s) (blockNums
    s) (lastClosed s) (lastExpired s) (openOrderNum s) (storeOrderNum s) (oparams s) (cache s) (disk
    s) x.

Definition tok (s : OrderState) : Token.TokenState := Dex.tok (dex s).
Definition set_tok (t : Token.TokenState) (s : OrderState) : OrderState :=
  set_dex (Dex.set_tok t (dex s)) s.
Definition bank (s : OrderState) : Bank.state := Token.bank (tok s).

(** Calls of the dex keeper, the token keeper and the supply keeper. *)
Definition on_dex {A} (m : M Dex.DexState A) : MO A := zoom dex set_dex m.
Definition on_token {A} (m : M Token.TokenState A) : MO A := zoom tok set_tok m.
Definition on_supply {A} (m : M Bank.state A) : MO A := on_token (Token.on_bank m).

Definition modify_disk (f : DiskCache → DiskCache) : MO unit := modify (λ s, set_disk (f (disk s)) s).
Definition modify_cache (f : Cache → Cache) : MO unit := modify (λ s, set_cache (f (cache s)) s).

(** A method of the disk cache that may panic. *)
Definition update_disk (f : DiskCache → outcome DiskCache) : MO unit :=
  s ← get;
  c ← lift (f (disk s));
  modify (set_disk c).

(** *** Store access (disk_cache_keeper.go, keeper.go) *)

Definition SetBlockOrderNum (blockHeight orderNum : Z) : MO unit :=
  modify (λ s, set_blockNums (<[blockHeight := orderNum]> (blockNums s)) s).
Definition DropBlockOrderNum (blockHeight : Z) : MO unit :=
  modify (λ s, set_blockNums (delete blockHeight (blockNums s)) s).
Definition SetExpireBlockHeight (blockHeight : Z) (l : list Z) : MO unit :=
  modify (λ s, set_expireHeights (<[blockHeight := l]> (expireHeights s)) s).
Definition DropExpireBlockHeight (blockHeight : Z) : MO unit :=
  modify (λ s, set_expireHeights (delete blockHeight (expireHeights s)) s).
Definition SetOrder (orderID : string) (order : Order) : MO unit :=
  modify (λ s, set_orders (<[orderID := order]> (orders s)) s).
Definition DropOrder (orderID : string) : MO unit :=
  modify (λ s, set_orders (delete orderID (orders s)) s).

Definition StoreDepthBook (product : string) (depthBook : option DepthBook) : MO unit :=
  modify (λ s, set_books (match depthBook with
                          | Some (it :: b) => <[product := it :: b]> (books s)
                          | _ => delete product (books s)
                          end) s).
Definition StoreOrderIDsMap (key : string) (orderIDs : list string) : MO unit :=
  modify (λ s, set_idsStore (match orderIDs with
                             | [] => delete key (idsStore s)
                             | _ => <[key := orderIDs]> (idsStore s)
                             end) s).

Definition SetLastPrice (product : string) (price : Dec) : MO unit :=
  modify (λ s, set_prices (<[product := price]> (prices s)) s);;
  modify_disk (setLastPrice product price).

Definition SetLastExpiredBlockHeight (h : Z) : MO unit := modify (set_lastExpired h).
Definition setOpenOrderNum (n : Z) : MO unit := modify (set_openOrderNum n).
Definition setStoreOrderNum (n : Z) : MO unit := modify (set_storeOrderNum n).

(** The delete before the write of an empty list has no effect. *)
Definition SetLastClosedOrderIDs (orderIDs : list string) : MO unit := modify (set_lastClosed orderIDs).

Definition SetOrderIDs (key : string) (orderIDs : list string) : MO unit :=
  modify_disk (setOrderIDs key orderIDs).
Definition GetProductsFromDepthBookMap (s : OrderState) : list string :=
  getProductsFromDepthBookMap (disk s).

Definition GetExpireBlockHeight (blockHeight : Z) (s : OrderState) : list Z :=
  default [] (expireHeights s !! blockHeight).
Definition GetOrder (orderID : string) (s : OrderState) : option Order := orders s !! orderID.
Definition GetBlockOrderNum (blockHeight : Z) (s : OrderState) : Z := default 0 (blockNums s !! blockHeight).
Definition GetLastExpiredBlockHeight (s : OrderState) : Z := lastExpired s.
Definition GetOpenOrderNum (s : OrderState) : Z := openOrderNum s.
Definition GetStoreOrderNum (s : OrderState) : Z := storeOrderNum s.
Definition GetLastClosedOrderIDs (s : OrderState) : list string := lastClosed s.

Definition ResetCache : MO unit :=
  s ← get;
  (if started s then mret tt
   else
     modify (set_started true);;
     mapM_ (λ kv, modify_disk (addDepthBook (fst kv) (snd kv))) (kv_sorted (books s));;
     mapM_ (λ kv, modify_disk (addOrderIDs (fst kv) (snd kv))) (kv_sorted (idsStore s)));;
  modify_cache cache_reset;;
  modify_disk disk_reset;;
  openNum ← gets GetOpenOrderNum;
  modify_disk (set_dOpenNum openNum);;
  storeNum ← gets GetStoreOrderNum;
  modify_disk (set_dStoreOrderNum storeNum).

Definition Cache2Disk : MO unit :=
  c ← gets disk;
  SetLastClosedOrderIDs (closedOrderIDs c);;
  setOpenOrderNum (dOpenNum c);;
  setStoreOrderNum (dStoreOrderNum c);;
  mapM_ (λ key, StoreDepthBook key (getDepthBook key c)) (GetUpdatedDepthbookKeys c);;
  mapM_ (λ key, StoreOrderIDsMap key (getOrderIDs key c)) (GetUpdatedOrderIDKeys c).

Definition GetLastPrice (product : string) : MO Dec :=
  price ← gets (λ s, getLastPrice product (disk s));
  if Dec.IsPositive price then mret price
  else
    stored ← gets (λ s, prices s !! product);
    match stored with
    | Some price => mret price
    | None =>
        tokenPair ← gets (λ s, Dex.GetTokenPair product (dex s));
        match tokenPair with
        | None => mret Dec.ZeroDec
        | Some tokenPair =>
            SetLastPrice product (Dex.InitPrice tokenPair);;
            mret (Dex.InitPrice tokenPair)
        end
    end.

Definition GetDepthBookCopy (product : string) (s : OrderState) : DepthBook :=
  match getDepthBook product (disk s) with None => [] | Some book => BookCopy book end.
Definition SetDepthBook (product : string) (book : DepthBook) : MO unit :=
  modify_disk (setDepthBook product (Some book)).
Definition GetDepthBookFromDB (product : string) (s : OrderState) : DepthBook :=
  default [] (books s !! product).
Definition GetProductPriceOrderIDs (key : string) (s : OrderState) : list string :=
  getOrderIDs key (disk s).
Definition GetProductPriceOrderIDsFromDB (key : string) (s : OrderState) : list string :=
  default [] (idsStore s !! key).

Definition addUpdatedOrderID (orderID : string) : MO unit :=
  if Token.enableBackend
  then modify_cache (λ c, set_updatedOrderIDs (updatedOrderIDs c ++ [orderID]) c) else mret tt.
Definition SetBlockMatchResult (result : BlockMatchResult) : MO unit :=
  if Token.enableBackend then modify_cache (set_blockMatchResult (Some result)) else mret tt.
Definition AddTxHandlerMsgResult (resultSet : gset nat) : MO unit :=
  if Token.enableBackend
  then modify_cache (λ c, set_handlerTxMsgResult (handlerTxMsgResult c ++ [resultSet]) c) else mret tt.

(** *** Coins and fees *)

Definition LockCoins (addr : AccAddress) (coins : SysCoins) (lockCoinsType : Z) : MO unit :=
  if Coins.IsZero coins then mret tt else on_token (Token.LockCoins addr coins lockCoinsType).

(** Errors are only logged. *)
Definition UnlockCoins (addr : AccAddress) (coins : SysCoins) (lockCoinsType : Z) : MO unit :=
  if Coins.IsZero coins then mret tt else swallow (on_token (Token.UnlockCoins addr coins lockCoinsType)).
Definition BalanceAccount (addr : AccAddress) (outputCoins inputCoins : SysCoins) : MO unit :=
  swallow (on_token (Token.BalanceAccount addr outputCoins inputCoins)).

Definition GetProductFeeReceiver (product : string) (s : OrderState) : outcome AccAddress :=
  match Dex.GetTokenPair product (dex s) with
  | None => Err OrderErr.ErrTokenPairNotExist
  | Some tokenPair =>
      match Dex.GetOperator (Dex.Owner tokenPair) (dex s) with
      | Some operator => Ok (Dex.HandlingFeeAddress operator)
      | None => Ok (Dex.Owner tokenPair)
      end
  end.

Definition AddFeeDetail (ctx : Context) (from : AccAddress) (coins : SysCoins) (feeType : string) : MO unit :=
  if Coins.IsZero coins then mret tt else on_token (Token.AddFeeDetail ctx from coins feeType "").

Definition SendFeesToProductOwner (ctx : Context) (coins : SysCoins) (from : AccAddress)
    (feeType product : string) : MO string :=
  if Coins.IsZero coins then mret ""
  else
    s ← get;
    to ← lift (GetProductFeeReceiver product s);
    on_token (Token.AddFeeDetail ctx from coins feeType "");;
    wrap_err (λ _, OrderErr.ErrSendCoinsFailed)
      (on_token (Token.SendCoinsFromAccountToAccount ctx from to coins));;
    mret to.

Definition AddCollectedFees (ctx : Context) (coins : SysCoins) (from : AccAddress) (feeType : string)
    (hasFeeDetail : bool) : MO unit :=
  if Coins.IsZero coins then mret tt
  else
    (if hasFeeDetail
     then on_token (Token.AddFeeDetail ctx from coins feeType Token.feeCollectorName) else mret tt);;
    on_supply (Bank.SendCoinsFromAccountToModule from Token.feeCollectorName coins).

Definition GetDealFee (order : Order) (fillAmt : Dec) (feeParams : OrderParams) : MO SysCoins :=
  symbol0 ← lift (symbol (Product order) 0);
  '(sym, quantity) ←
    (if decide (Side order = SellOrder) then
       symbol1 ← lift (symbol (Product order) 1);
       price ← GetLastPrice (Product order);
       mret (symbol1, Dec.Mul fillAmt price)
     else mret (symbol0, fillAmt));
  let minFeeDec := Dec.MustNewDecFromStr minFee in
  let feeAmt := Dec.Mul quantity (pTradeFeeRate feeParams) in
  c ← lift (or_panic (Coins.NewDecCoinFromDec sym (if Dec.GT feeAmt minFeeDec then feeAmt else minFeeDec)));
  mret [c].

(** The best ask starts at zero. *)
Definition GetBestBidAndAsk (product : string) (s : OrderState) : Dec * Dec :=
  foldl (λ '(bestBid, bestAsk) item,
    (if (Dec.IsPositive (BuyQuantity item) && Dec.GT (iPrice item) bestBid)%bool then iPrice item else bestBid,
     if (Dec.IsPositive (SellQuantity item) && Dec.LT (iPrice item) bestAsk)%bool then iPrice item else bestAsk))
    (Dec.ZeroDec, Dec.ZeroDec) (GetDepthBookFromDB product s).

Definition RemoveOrderFromDepthBook (order : Order) (feeType : string) : MO unit :=
  addUpdatedOrderID (OrderID order);;
  (if decide (feeType = FeeTypeOrderCancel) then modify_cache (λ c, set_cancelNum (cancelNum c + 1) c)
   else if decide (feeType = FeeTypeOrderExpire) then modify_cache (λ c, set_expireNum (expireNum c + 1) c)
   else mret tt);;
  update_disk (removeOrder order).

Definition UpdateOrder (order : Order) : MO unit :=
  SetOrder (OrderID order) order;;
  addUpdatedOrderID (OrderID order);;
  if (Status order =? OrderStatusFilled)%Z then
    modify_disk (closeOrder (OrderID order));;
    modify_cache (λ c, set_fullFillNum (fullFillNum c + 1) c)
  else modify_cache (λ c, set_partialFillNum (partialFillNum c + 1) c).

Definition InsertOrderIntoDepthBook (order : Order) : MO unit := update_disk (insertOrder order).

Definition FilterDelistedProducts (products : list string) (s : OrderState) : list string :=
  filter (λ product, is_Some (Dex.GetTokenPair product (dex s))) products.

(** product_lock.go *)
Definition IsProductLocked (product : string) (s : OrderState) : bool := Dex.IsTokenPairLocked product (dex s).
Definition SetProductLock (product : string) (lock : ProductLock) : MO unit :=
  on_dex (Dex.LockTokenPair product lock).
Definition UnlockProduct (product : string) : MO unit := on_dex (Dex.UnlockTokenPair product).
Definition AnyProductLocked (s : OrderState) : bool := Dex.IsAnyProductLocked (dex s).

(** *** Placing and quitting orders (order.go) *)

Definition TryPlaceOrder (order : Order) : MO SysCoins :=
  needLockCoins ← lift (NeedLockCoins order);
  LockCoins (Sender order) needLockCoins Token.LockCoinsTypeQuantity;;
  fee ← lift (GetOrderNewFee order);
  LockCoins (Sender order) fee Token.LockCoinsTypeFee;;
  mret fee.

Definition PlaceOrder (ctx : Context) (order : Order) : MO Order :=
  fee ← TryPlaceOrder order;
  let order := RecordOrderNewFee fee order in
  AddFeeDetail ctx (Sender order) fee FeeTypeOrderNew;;
  let blockHeight := BlockHeight ctx in
  orderNum ← gets (GetBlockOrderNum blockHeight);
  let order := set_OrderID (FormatOrderID blockHeight (orderNum + 1)) order in
  SetBlockOrderNum blockHeight (orderNum + 1);;
  SetOrder (OrderID order) order;;
  InsertOrderIntoDepthBook order;;
  mret order.

(** The body of quitOrder, for a fee type of its switch. *)
Definition quit (ctx : Context) (order : Order) (feeType : string) : MO SysCoins :=
  needUnlockCoins ← lift (NeedUnlockCoins order);
  UnlockCoins (Sender order) needUnlockCoins Token.LockCoinsTypeQuantity;;
  lockedFee ← lift (GetOrderNewFee order);
  fee ← lift (GetOrderCostFee order ctx);
  receiveFee ← lift (or_panic (Coins.Sub lockedFee fee));
  UnlockCoins (Sender order) lockedFee Token.LockCoinsTypeFee;;
  AddFeeDetail ctx (Sender order) receiveFee FeeTypeOrderReceive;;
  let order := RecordOrderReceiveFee receiveFee order in
  swallow (AddCollectedFees ctx fee (Sender order) feeType false);;
  let order := Unlock order in
  SetOrder (OrderID order) order;;
  RemoveOrderFromDepthBook order feeType;;
  mret fee.

Definition quitOrder (ctx : Context) (order : Order) (feeType : string) : MO SysCoins :=
  if decide (feeType = FeeTypeOrderCancel) then quit ctx (Cancel order) feeType
  else if decide (feeType = FeeTypeOrderExpire) then quit ctx (Expire order) feeType
  else mret [].

Definition ExpireOrder (ctx : Context) (order : Order) : MO unit :=
  quitOrder ctx order FeeTypeOrderExpire;; mret tt.
Definition CancelOrder (ctx : Context) (order : Order) : MO SysCoins :=
  quitOrder ctx order FeeTypeOrderCancel.

(** The orders under the prefix of a height, in the order of their keys.  Expiring an
    order writes to its own key only, so the values are those at the start. *)
Definition orders_of_height (height : Z) (s : OrderState) : list Order :=
  snd <$> filter (λ kv, String.prefix (FormatOrderIDPrefix height) (fst kv) = true) (kv_sorted (orders s)).

Definition DropExpiredOrdersByBlockHeight (ctx : Context) (expiredBlockHeight : Z) : MO unit :=
  l ← gets (orders_of_height expiredBlockHeight);
  mapM_ (λ order,
    locked ← gets (IsProductLocked (Product order));
    if ((Status order =? OrderStatusOpen)%Z && negb locked)%bool then ExpireOrder ctx order else mret tt) l.

(** ** The registered invariant (invariant.go): whether it is broken *)

Fixpoint sum_new_fees (ids : list string) (acc : SysCoins) (s : OrderState) : outcome SysCoins :=
  match ids with
  | [] => Ok acc
  | orderID :: ids =>
      order ← or_panic (GetOrder orderID s);
      fee ← GetOrderNewFee order;
      sum_new_fees ids (Coins.Add2 acc fee) s
  end.

(** The ids at one level of a product, buyers first. *)
Definition level_ids (product : string) (item : DepthBookItem) (s : OrderState) : list string :=
  GetProductPriceOrderIDs (FormatOrderIDsKey product (iPrice item) BuyOrder) s ++
  GetProductPriceOrderIDs (FormatOrderIDsKey product (iPrice item) SellOrder) s.

Definition open_ids (s : OrderState) : list string :=
  mjoin ((λ product, mjoin ((λ item, level_ids product item s) <$> GetDepthBookCopy product s))
    <$> GetProductsFromDepthBookMap s).

Definition ModuleAccountInvariant (s : OrderState) : outcome bool :=
  let lockedCoins := foldl (λ t acc, Coins.Add2 t (Token.ACoins acc)) [] (Token.GetAllLockedCoins (tok s)) in
  let lockedFees := Token.IterateLockedFees (λ _ coins t, (Coins.Add2 t coins, false)) (tok s) [] in
  orderLockedFees ← sum_new_fees (open_ids s) [] s;
  eq ← or_panic (Coins.IsEqual lockedFees orderLockedFees);
  if negb eq then Ok true
  else
    eq ← or_panic (Coins.IsEqual (Bank.GetCoins (bank s) (Bank.GetModuleAddress Token.ModuleName))
                     (Coins.Add2 lockedCoins lockedFees));
    Ok (negb eq).

(** ** Handlers (handler.go) *)

Definition checkOrderNewMsg (msg : MsgNewOrder) (s : OrderState) : outcome unit :=
  match Dex.GetTokenPair (noProduct msg) (dex s) with
  | None => Err OrderErr.ErrTokenPairNotExist
  | Some tokenPair =>
      match Dex.CheckTokenPairUnderDexDelist (noProduct msg) (dex s) with
      | (_, Some err) => Err err
      | (isDelisting, None) =>
          if (isDelisting : bool) then Err OrderErr.ErrTradingPairIsDelisting
          else
            let roundedPrice := Dec.RoundDecimal (noPrice msg) (Dex.MaxPriceDigit tokenPair) in
            let roundedQuantity := Dec.RoundDecimal (noQuantity msg) (Dex.MaxQuantityDigit tokenPair) in
            if negb (Dec.Equal roundedPrice (noPrice msg)) then Err OrderErr.ErrPriceOverAccuracy
            else if negb (Dec.Equal roundedQuantity (noQuantity msg)) then Err OrderErr.ErrQuantityOverAccuracy
            else if Dec.LT (noQuantity msg) (Dex.MinQuantity tokenPair) then Err OrderErr.ErrMsgQuantityLessThan
            else Ok tt
      end
  end.

Definition getOrderFromMsg (ctx : Context) (msg : MsgNewOrder) (ratio : string) (s : OrderState)
    : outcome Order :=
  let feeParams := oparams s in
  let feePerBlockAmount := Dec.Mul (Amount (pFeePerBlock feeParams)) (Dec.MustNewDecFromStr ratio) in
  feePerBlock ← or_panic (Coins.NewDecCoinFromDec (Denom (pFeePerBlock feeParams)) feePerBlockAmount);
  Ok (NewOrder (Dex.tmhash_HEX (TxBytes ctx)) (noSender msg) (noProduct msg) (noSide msg) (noPrice msg)
        (noQuantity msg) (Unix ctx) (pOrderExpireBlocks feeParams) feePerBlock).

(** What is left of a run on a cached store that is not written back: the memory of
    the order keeper and the fee details of the token keeper. *)
Definition discard (s s' : OrderState) : OrderState :=
  set_started (started s') (set_disk (disk s') (set_cache (cache s')
    (set_tok (Token.set_feeDetails (Token.feeDetails (tok s')) (tok s)) s))).

(** Runs on a cached store; the caller writes it back or discards it. *)
Definition handleNewOrder (ctx : Context) (sender : AccAddress) (item : OrderItem) (ratio : string)
    : MO OrderResult :=
  let msg := MkMsgNewOrder sender (oiProduct item) (oiSide item) (oiPrice item) (oiQuantity item) in
  s ← get;
  order ← lift (getOrderFromMsg ctx msg ratio s);
  r ← catch (lift (checkOrderNewMsg msg s);;
             throw_if (IsProductLocked (noProduct msg) s) OrderErr.ErrIsProductLocked;;
             PlaceOrder ctx order);
  mret (match r with
        | inl order => MkOrderResult None (OrderID order)
        | inr err => MkOrderResult (Some err) (OrderID order)
        end).

(** An order whose item fails has no effect on the store. *)
Definition place_item (ctx : Context) (sender : AccAddress) (item : OrderItem) (ratio : string)
    : MO OrderResult := λ s,
  match handleNewOrder ctx sender item ratio s with
  | (Ok res, s') => (Ok res, match rError res with None => s' | Some _ => discard s s' end)
  | r => r
  end.

Fixpoint place_items (ctx : Context) (sender : AccAddress) (ratio : string) (idx : nat)
    (items : list OrderItem) (handlerResult : gset nat) : MO (gset nat) :=
  match items with
  | [] => mret handlerResult
  | item :: items =>
      res ← place_item ctx sender item ratio;
      place_items ctx sender ratio (S idx) items
        (match rError res with None => {[idx]} ∪ handlerResult | Some _ => handlerResult end)
  end.

Definition ratio_of (n : nat) : string := if (1 <? n)%nat then "0.8" else "1".

Definition handleMsgNewOrders (ctx : Context) (msg : MsgNewOrders) : MO unit :=
  handlerResult ← place_items ctx (nosSender msg) (ratio_of (length (OrderItems msg))) 0 (OrderItems msg) ∅;
  throw_if (bool_decide (handlerResult = ∅)) OrderErr.ErrAllOrderFailedToExecute;;
  AddTxHandlerMsgResult handlerResult.

Definition validate_item (ctx : Context) (sender : AccAddress) (ratio : string) (item : OrderItem) : MO unit :=
  let msg := MkMsgNewOrder sender (oiProduct item) (oiSide item) (oiPrice item) (oiQuantity item) in
  s ← get;
  lift (checkOrderNewMsg msg s);;
  throw_if (IsProductLocked (noProduct msg) s) OrderErr.ErrIsProductLocked;;
  order ← lift (getOrderFromMsg ctx msg ratio s);
  wrap_err (λ _, CommonErr.ErrInsufficientCoins "order") (TryPlaceOrder order);;
  mret tt.

Definition ValidateMsgNewOrders (ctx : Context) (msg : MsgNewOrders) : MO unit :=
  mapM_ (validate_item ctx (nosSender msg) (ratio_of (length (OrderItems msg)))) (OrderItems msg).

Definition validateCancelOrder (msg : MsgCancelOrder) (s : OrderState) : outcome unit :=
  match GetOrder (coOrderID msg) s with
  | None => Err OrderErr.ErrOrderIsNotExistOrClosed
  | Some order =>
      if negb (Status order =? OrderStatusOpen)%Z then Err OrderErr.ErrOrderStatusIsNotOpen
      else if negb (String.eqb (Sender order) (coSender msg)) then Err OrderErr.ErrNotOrderOwner
      else if IsProductLocked (Product order) s then Err OrderErr.ErrIsProductLocked
      else Ok tt
  end.

Definition handleCancelOrder (ctx : Context) (sender : AccAddress) (orderID : string) : MO OrderResult :=
  s ← get;
  r ← catch (lift (validateCancelOrder (MkMsgCancelOrder sender orderID) s));
  match r with
  | inl _ =>
      order ← lift (or_panic (GetOrder orderID s));
      CancelOrder ctx order;;
      mret (MkOrderResult None orderID)
  | inr err => mret (MkOrderResult (Some err) orderID)
  end.

Fixpoint cancel_ids (ctx : Context) (sender : AccAddress) (idx : nat) (ids : list string)
    (handlerResult : gset nat) : MO (gset nat) :=
  match ids with
  | [] => mret handlerResult
  | orderID :: ids =>
      res ← handleCancelOrder ctx sender orderID;
      cancel_ids ctx sender (S idx) ids
        (match rError res with None => {[idx]} ∪ handlerResult | Some _ => handlerResult end)
  end.

Definition handleMsgCancelOrders (ctx : Context) (msg : MsgCancelOrders) : MO unit :=
  handlerResult ← cancel_ids ctx (cosSender msg) 0 (OrderIDs msg) ∅;
  throw_if (bool_decide (handlerResult = ∅)) OrderErr.ErrNoOrdersIsCanceled;;
  AddTxHandlerMsgResult handlerResult.

Fixpoint ValidateMsgCancelOrders (sender : AccAddress) (ids : list string) (s : OrderState) : outcome unit :=
  match ids with
  | [] => Ok tt
  | orderID :: ids =>
      _ ← validateCancelOrder (MkMsgCancelOrder sender orderID) s;
      ValidateMsgCancelOrders sender ids s
  end.

(** The handler of a transaction that is delivered. *)
Definition NewOrderHandler (ctx : Context) (msg : Msg) : MO unit :=
  match msg with
  | MNewOrders m => handleMsgNewOrders ctx m
  | MCancelOrders m => handleMsgCancelOrders ctx m
  | MOther => throw Coins.ErrUnknownRequest
  end.
End keeper.
End OrderKeeper.
