(* ===== verification/OrderBook.v ===== *)
(** * The order book as the open orders see it

    The order module keeps three views of the same thing: the orders in the store,
    the ids at every price of every side, and the depth books with a quantity per
    price.  [Inv] ties them together: the ids at a price are exactly the open orders
    there, each once, and the quantity of a level is the sum of what is left of them.
    It is a statement about the order store and the disk cache only; [inv_level]
    proves that an operation which works on one level of one product keeps it, and
    the lemmas on [insertOrder], [removeOrder] and on filling a level are instances. *)

From S2P Require Import Prelude SdkDec SdkCoins GoStd OrderTypes DepthBook Dex OrderKeeper.

#[local] Open Scope Z_scope.

Module OrderBook.
Import OrderKeeper.

Definition colon : Ascii.ascii := Ascii.ascii_of_nat 58.
Definition good_name (product : string) : Prop := lacks colon product.

(** ** The key of a level determines the level *)

Lemma lacks_cut c a b x y : lacks c a → lacks c b →
  a +:+ String c x = b +:+ String c y → a = b ∧ x = y.
Proof.
  revert b. induction a as [|u a IH]; intros [|v b]; cbn; rewrite ?append_cons, ?append_nil.
  - intros _ _ [=]. done.
  - intros _ [Hv _] [=]. by destruct Hv.
  - intros [Hu _] _ [=]. by destruct Hu.
  - intros [_ Ha] [_ Hb] [= -> E]. destruct (IH b Ha Hb E) as [-> ->]. done.
Qed.

Lemma list_of_append a b : String.list_ascii_of_string (a +:+ b) =
  String.list_ascii_of_string a ++ String.list_ascii_of_string b.
Proof. induction a as [|c a IH]; [done|]. rewrite append_cons. cbn. by rewrite IH. Qed.

Lemma append_inj_r a b t : a +:+ t = b +:+ t → a = b.
Proof.
  intros E%(f_equal String.list_ascii_of_string). rewrite !list_of_append in E.
  apply app_inv_tail in E. rewrite <-(String.string_of_list_ascii_of_string a), E.
  apply String.string_of_list_ascii_of_string.
Qed.

Lemma side_suffix a b : a +:+ BuyOrder ≠ b +:+ SellOrder.
Proof.
  intros E%(f_equal (λ s, last (String.list_ascii_of_string s))).
  rewrite !list_of_append, !last_app in E. by vm_compute in E.
Qed.

Section pure.
Context `{DO : Dec.Ops} `{DL : !Dec.Laws} `{CO : !Coins.Ops}.

Lemma key_inj pr p sd pr' p' sd' : good_name pr → good_name pr' → valid_side sd → valid_side sd' →
  FormatOrderIDsKey pr p sd = FormatOrderIDsKey pr' p' sd' → pr = pr' ∧ p = p' ∧ sd = sd'.
Proof.
  unfold FormatOrderIDsKey. intros Hp Hp' Hs Hs' E.
  apply (lacks_cut colon) in E as [-> E]; [|done..]. split; [done|].
  rewrite <-!string_append_assoc in E.
  destruct Hs as [-> | ->], Hs' as [-> | ->].
  - apply append_inj_r, append_inj_r, Dec.ToString_inj in E. done.
  - by apply side_suffix in E.
  - symmetry in E. by apply side_suffix in E.
  - apply append_inj_r, append_inj_r, Dec.ToString_inj in E. done.
Qed.

(** ** The invariant *)

Definition level (o : Order) : string * Dec * string := (Product o, Price o, Side o).

(** What paying for an order relies on, also when nothing is left of it. *)
Record money_wf (o : Order) : Prop := {
  wf_symbols : ∃ a b, Split (Product o) underscore = [a; b] ∧
    Coins.ValidDenom a = true ∧ Coins.ValidDenom b = true;
  wf_feeDenom : Coins.ValidDenom (Denom (FeePerBlock o)) = true;
  wf_fee : 0 ≤ Amount (FeePerBlock o);
  wf_expire : 0 ≤ OrderExpireBlocks o;
}.

(** What is asked of an order that is open. *)
Record order_wf (o : Order) : Prop := {
  wf_side : valid_side (Side o);
  wf_name : good_name (Product o);
  wf_remain : 0 < RemainQuantity o ≤ Quantity o;
  wf_money : money_wf o;
}.

Definition is_open (o : Order) : Prop := Status o = OrderStatusOpen.

Definition ids (pr : string) (p : Dec) (sd : string) (d : DiskCache) : list string :=
  getOrderIDs (FormatOrderIDsKey pr p sd) d.
Definition bk (pr : string) (d : DiskCache) : DepthBook := default [] (bookData d !! pr).
Definition remain (os : gmap string Order) (id : string) : Z := from_option RemainQuantity 0 (os !! id).

Definition open_at (os : gmap string Order) (lv : string * Dec * string) (id : string) : Prop :=
  ∃ o, os !! id = Some o ∧ is_open o ∧ level o = lv.

(** [l] lists the open orders of a level, each once. *)
Definition lists (os : gmap string Order) (lv : string * Dec * string) (l : list string) : Prop :=
  NoDup l ∧ ∀ id, id ∈ l ↔ open_at os lv id.

Record Inv (os : gmap string Order) (d : DiskCache) : Prop := {
  inv_id : ∀ id o, os !! id = Some o → OrderID o = id;
  inv_wf : ∀ id o, os !! id = Some o → is_open o → order_wf o;
  inv_ids : ∀ pr p sd, good_name pr → valid_side sd → lists os (pr, p, sd) (ids pr p sd d);
  inv_book : ∀ pr, book_ok (bk pr d);
  inv_dom : ∀ pr, bk pr d ≠ [] → good_name pr;
  inv_qty : ∀ pr p sd, good_name pr → valid_side sd →
    book_qty sd p (bk pr d) = zsum (remain os <$> ids pr p sd d);
  inv_closed : ∀ id o, id ∈ closedOrderIDs d → os !! id = Some o → ¬ is_open o;
}.

(** One order is replaced by another one of the same level. *)
Definition stays (lv : string * Dec * string) (os os' : gmap string Order) (id : string) : Prop :=
  os' !! id = os !! id ∨
  (∀ o, os !! id = Some o → level o = lv) ∧
  (∃ o, os' !! id = Some o ∧ level o = lv ∧ OrderID o = id ∧ (is_open o → order_wf o)).

Lemma open_at_stays lv lv' os os' id : stays lv os os' id → lv' ≠ lv →
  open_at os' lv' id ↔ open_at os lv' id.
Proof.
  unfold open_at. intros [E|[H1 (o & Eo & Hl & _)]] Hne; [by rewrite E|]. split.
  - intros (o' & Eo' & _ & Hl'). rewrite Eo in Eo'. simplify_eq; congruence.
  - intros (o' & Eo' & _ & Hl'). specialize (H1 _ Eo'). congruence.
Qed.

Lemma remain_stays lv lv' os os' id : stays lv os os' id → lv' ≠ lv → open_at os lv' id →
  remain os' id = remain os id.
Proof.
  intros [E|[H1 _]] Hne (o & Eo & _ & Hl); [unfold remain; by rewrite E|].
  specialize (H1 _ Eo). congruence.
Qed.

(** The sum of a level, when some of its orders change. *)
Lemma zsum_remain os os' l : (∀ id, id ∈ l → remain os' id = remain os id) →
  zsum (remain os' <$> l) = zsum (remain os <$> l).
Proof.
  intros H. f_equal. apply list_fmap_ext. intros i id Hi. apply H. by apply list_elem_of_lookup_2 in Hi.
Qed.

Lemma inv_level os d os' d' pr p sd b' l' :
  Inv os d → good_name pr → valid_side sd →
  (∀ pr', bk pr' d' = if decide (pr' = pr) then b' else bk pr' d) →
  (∀ k, getOrderIDs k d' = if decide (k = FormatOrderIDsKey pr p sd) then l' else getOrderIDs k d) →
  (∀ id, stays (pr, p, sd) os os' id) →
  lists os' (pr, p, sd) l' → book_ok b' →
  (∀ sd' p', valid_side sd' → book_qty sd' p' b' =
     if decide (p' = p ∧ sd' = sd) then zsum (remain os' <$> l') else book_qty sd' p' (bk pr d)) →
  (∀ id o, id ∈ closedOrderIDs d' → os' !! id = Some o → ¬ is_open o) →
  Inv os' d'.
Proof.
  intros HI Hpr Hsd Hbk Hids Hst Hl' Hb' Hq Hcl.
  assert (∀ pr' p' sd', good_name pr' → valid_side sd' → (pr', p', sd') ≠ (pr, p, sd) →
    ids pr' p' sd' d' = ids pr' p' sd' d) as Hids'.
  { intros pr' p' sd' ?? Hne. unfold ids. rewrite Hids, decide_False; [done|].
    intros (-> & -> & ->)%key_inj; done. }
  split.
  - intros id o Ho. destruct (Hst id) as [E|[_ (o' & Eo & _ & Hid & _)]].
    + rewrite E in Ho. by eapply inv_id.
    + congruence.
  - intros id o Ho. destruct (Hst id) as [E|[_ (o' & Eo & _ & _ & Hwf)]].
    + rewrite E in Ho. by eapply inv_wf.
    + rewrite Ho in Eo. simplify_eq. done.
  - intros pr' p' sd' Hpr' Hsd'. destruct (decide ((pr', p', sd') = (pr, p, sd))) as [[= -> -> ->]|Hne].
    + unfold ids. by rewrite Hids, decide_True.
    + rewrite Hids' by done. destruct (inv_ids _ _ HI pr' p' sd') as [Hnd Hin]; [done..|].
      split; [done|]. intros id. rewrite Hin. symmetry. by apply open_at_stays with (pr, p, sd).
  - intros pr'. rewrite Hbk. case_decide; [done|apply HI].
  - intros pr'. rewrite Hbk. case_decide; [by subst|apply HI].
  - intros pr' p' sd' Hpr' Hsd'. rewrite Hbk.
    destruct (decide ((pr', p', sd') = (pr, p, sd))) as [[= -> -> ->]|Hne].
    { rewrite decide_True by done. unfold ids. rewrite Hids, decide_True, Hq, decide_True; done. }
    rewrite Hids' by done. trans (book_qty sd' p' (bk pr' d)).
    { case_decide; [|done]. subst pr'. rewrite Hq by done. rewrite decide_False; [done|]. naive_solver. }
    rewrite (inv_qty _ _ HI) by done. symmetry. apply zsum_remain. intros id Hid.
    apply (inv_ids _ _ HI) in Hid; [|done..]. by eapply remain_stays.
  - done.
Qed.

(** ** Operations on one level *)

Lemma stays_insert lv os id o : (∀ o', os !! id = Some o' → level o' = lv) → level o = lv →
  OrderID o = id → (is_open o → order_wf o) → ∀ id', stays lv os (<[id := o]> os) id'.
Proof.
  intros H1 H2 H3 H4 id'. destruct (decide (id' = id)) as [->|Hne].
  - right. split; [done|]. exists o. by rewrite lookup_insert_eq.
  - left. by rewrite lookup_insert_ne.
Qed.

Lemma remain_insert_ne os id o id' : id' ≠ id → remain (<[id := o]> os) id' = remain os id'.
Proof. intros. unfold remain. by rewrite lookup_insert_ne. Qed.
Lemma remain_insert_eq os id o : remain (<[id := o]> os) id = RemainQuantity o.
Proof. unfold remain. by rewrite lookup_insert_eq. Qed.

Lemma open_at_insert_ne os id o lv id' : id' ≠ id → open_at (<[id := o]> os) lv id' ↔ open_at os lv id'.
Proof. intros. unfold open_at. by rewrite lookup_insert_ne. Qed.
Lemma open_at_insert_eq os id o lv : open_at (<[id := o]> os) lv id ↔ is_open o ∧ level o = lv.
Proof. unfold open_at. rewrite lookup_insert_eq. naive_solver. Qed.

Lemma remain_pos os d pr p sd id : Inv os d → good_name pr → valid_side sd → id ∈ ids pr p sd d →
  0 < remain os id.
Proof.
  intros HI Hp Hs (o & Ho & Hop & _)%(inv_ids _ _ HI); [|done..].
  unfold remain. rewrite Ho. cbn. apply (wf_remain o). by eapply inv_wf.
Qed.

Lemma insert_inv os d o :
  Inv os d → order_wf o → is_open o → os !! OrderID o = None → OrderID o ∉ closedOrderIDs d →
  ∃ d', insertOrder o d = Ok d' ∧ Inv (<[OrderID o := o]> os) d' ∧ closedOrderIDs d' = closedOrderIDs d.
Proof.
  intros HI Hwf Ho Hnew Hcl. pose proof (wf_side o Hwf) as Hsd. pose proof (wf_name o Hwf) as Hpr.
  destruct (InsertOrder_spec o (bk (Product o) d)) as (b' & Eb & Hb' & Hq);
    [apply HI|done|apply (wf_remain o Hwf)|].
  unfold insertOrder. fold (bk (Product o) d). rewrite Eb. eexists. split; [done|]. split; [|done].
  apply (inv_level os d _ _ (Product o) (Price o) (Side o) b' (ids (Product o) (Price o) (Side o) d ++ [OrderID o])); try done.
  - intros pr'. unfold bk. cbn. rewrite lookup_insert. by repeat case_decide.
  - intros k. unfold getOrderIDs. cbn. rewrite lookup_insert. case_decide; case_decide; subst; done.
  - by apply stays_insert; [congruence|..].
  - destruct (inv_ids _ _ HI (Product o) (Price o) (Side o)) as [Hnd Hin]; [done..|].
    set (l := ids _ _ _ d) in *.
    assert (OrderID o ∉ l) by (intros (o' & E & _)%Hin; congruence).
    split; [apply NoDup_app; split; [done|]; split; [set_solver|apply NoDup_singleton]|].
    intros id. rewrite elem_of_app, list_elem_of_singleton, Hin.
    destruct (decide (id = OrderID o)) as [->|]; [rewrite open_at_insert_eq|rewrite open_at_insert_ne by done];
      naive_solver.
  - intros sd' p' Hs'. rewrite Hq by done. unfold order_qty. case_decide as Hd; [|lia]. destruct Hd as [-> ->].
    rewrite (inv_qty _ _ HI) by done. rewrite fmap_app, zsum_app, (zsum_remain os (<[OrderID o := o]> os)).
    + cbn. rewrite remain_insert_eq. unfold zsum. cbn. lia.
    + intros id Hid. apply remain_insert_ne. intros ->.
      apply (inv_ids _ _ HI) in Hid as (o' & E & _); [congruence|done..].
  - intros id o' Hid. cbn in Hid. rewrite lookup_insert_ne by set_solver. by apply (inv_closed _ _ HI).
Qed.

Lemma cut_spec id l : id ∈ l → ∃ l1 l2, l = l1 ++ id :: l2 ∧ cut id l = Some (l1 ++ l2).
Proof.
  induction l as [|x l IH]; [by intros ?%not_elem_of_nil|]. intros Hx. cbn.
  destruct (String.eqb_spec x id) as [->|Hne]; [by exists [], l|].
  destruct IH as (l1 & l2 & -> & ->); [set_solver|]. by exists (x :: l1), l2.
Qed.

Lemma ids_split_remain os d pr p sd id l1 l2 : Inv os d → good_name pr → valid_side sd →
  ids pr p sd d = l1 ++ id :: l2 → 0 < remain os id ≤ book_qty sd p (bk pr d).
Proof.
  intros HI Hp Hs E. assert (id ∈ ids pr p sd d) as Hid by (rewrite E; set_solver).
  split; [by eapply remain_pos|]. rewrite (inv_qty _ _ HI) by done. rewrite E, fmap_app, zsum_app, fmap_cons, zsum_cons.
  assert (∀ l, l ⊆ ids pr p sd d → 0 ≤ zsum (remain os <$> l)) as Hnn.
  { intros l Hl. apply zsum_nonneg, Forall_fmap, Forall_forall. intros x Hx. cbn.
    pose proof (remain_pos os d pr p sd x HI Hp Hs (Hl x Hx)). lia. }
  pose proof (Hnn l1 ltac:(rewrite E; set_solver)). pose proof (Hnn l2 ltac:(rewrite E; set_solver)). lia.
Qed.

Lemma lists_remove os lv id l1 l2 o : lists os lv (l1 ++ id :: l2) → ¬ is_open o →
  lists (<[id := o]> os) lv (l1 ++ l2).
Proof.
  intros [Hnd Hin] Hop. rewrite <-Permutation_middle, NoDup_cons in Hnd. destruct Hnd as [Hni Hnd].
  split; [done|]. intros x. destruct (decide (x = id)) as [->|].
  - rewrite open_at_insert_eq. naive_solver.
  - rewrite open_at_insert_ne by done. rewrite <-Hin. set_solver.
Qed.

Lemma zsum_remain_cut os id o l1 l2 : NoDup (l1 ++ id :: l2) →
  zsum (remain (<[id := o]> os) <$> l1 ++ l2) = zsum (remain os <$> l1 ++ id :: l2) - remain os id.
Proof.
  intros Hnd. rewrite <-Permutation_middle, NoDup_cons in Hnd. destruct Hnd as [Hni _].
  rewrite (zsum_remain os).
  - rewrite !fmap_app, fmap_cons, !zsum_app, zsum_cons. lia.
  - intros x Hx. apply remain_insert_ne. naive_solver.
Qed.

(** An open order [o] is closed as [o'] and taken out of the book. *)
Lemma remove_order_inv os d id o o' :
  Inv os d → os !! id = Some o → is_open o → ¬ is_open o' →
  level o' = level o → OrderID o' = id → RemainQuantity o' = RemainQuantity o →
  ∃ d', removeOrder o' d = Ok d' ∧ Inv (<[id := o']> os) d' ∧
    closedOrderIDs d' = closedOrderIDs d ++ [id].
Proof.
  intros HI Ho Hop Hcl Hlv Hid Hrem. pose proof (inv_wf _ _ HI id o Ho Hop) as Hwf.
  assert (Side o' = Side o ∧ Product o' = Product o ∧ Price o' = Price o) as (Es & Epr & Ep)
    by (unfold level in Hlv; by simplify_eq).
  pose proof (wf_side o Hwf) as Hsd. pose proof (wf_name o Hwf) as Hpr.
  pose proof (inv_ids _ _ HI (Product o) (Price o) (Side o) Hpr Hsd) as Hlist.
  destruct (cut_spec id (ids (Product o) (Price o) (Side o) d)) as (l1 & l2 & El & Ecut);
    [apply Hlist; by exists o|].
  destruct (ids_split_remain os d (Product o) (Price o) (Side o) id l1 l2) as [Hr0 Hr1]; [done..|].
  unfold remain in Hr0, Hr1. rewrite Ho in Hr0, Hr1. cbn in Hr0, Hr1.
  destruct (RemoveOrder_spec o' (bk (Product o) d)) as (b' & Eb & Hb' & Hq);
    [apply HI|by rewrite Es|by rewrite Es, Ep, Hrem|].
  unfold removeOrder, getDepthBook. rewrite Epr.
  destruct (bookData d !! Product o) as [b|] eqn:Ebd.
  2:{ unfold bk in Hr1. rewrite Ebd in Hr1. cbn in Hr1. rewrite book_qty_nil in Hr1. lia. }
  unfold bk in Eb. rewrite Ebd in Eb. cbn in Eb. cbn. rewrite Eb. cbn.
  set (d1 := setDepthBook (Product o) (Some b') d).
  assert (∀ k, getOrderIDs k d1 = getOrderIDs k d) as Hids1 by (intros; unfold d1; by destruct b').
  rewrite Es, Ep, Hid, Hids1. fold (ids (Product o) (Price o) (Side o) d). rewrite Ecut.
  eexists. split; [done|]. split.
  2:{ unfold closeOrder, setOrderIDs, d1. cbn. by destruct (length _ =? 0)%nat, b'. }
  rewrite El in Hlist.
  apply (inv_level os d _ _ (Product o) (Price o) (Side o) b' (l1 ++ l2)); try done.
  - intros pr'. unfold bk, closeOrder, setOrderIDs, d1. cbn.
    destruct (length _ =? 0)%nat, b'; cbn; rewrite ?lookup_insert, ?lookup_delete; by repeat case_decide.
  - intros k. unfold closeOrder. cbn. unfold getOrderIDs at 1. cbn. unfold setOrderIDs.
    destruct (l1 ++ l2) eqn:E12; cbn -[getOrderIDs];
      rewrite ?lookup_insert, ?lookup_delete; repeat case_decide; try congruence; try done; apply Hids1.
  - apply stays_insert; [intros; simplify_eq; done|..|done]; done.
  - by apply lists_remove.
  - intros sd' p' Hs'. rewrite Hq by done. unfold order_qty. rewrite Es, Ep, Hrem.
    case_decide as Hd; [|lia]. destruct Hd as [-> ->].
    rewrite (inv_qty _ _ HI) by done. rewrite El, zsum_remain_cut by apply Hlist.
    unfold remain at 3. rewrite Ho. done.
  - intros x ox Hx. unfold closeOrder, setOrderIDs, d1 in Hx. cbn in Hx.
    assert (x ∈ closedOrderIDs d ++ [id]) as Hx' by (by destruct (length _ =? 0)%nat, b').
    destruct (decide (x = id)) as [->|]; [rewrite lookup_insert_eq; by intros [= <-]|].
    rewrite lookup_insert_ne by done. apply (inv_closed _ _ HI). set_solver.
Qed.

(** [num] of one side is taken out of the level at index [i], which is dropped when it
    gets empty: the levels before and after it stay as they are. *)
Lemma sub_level b i it num sd : book_ok b → b !! i = Some it → valid_side sd → 0 ≤ num ≤ side_qty sd it →
  ∃ b1 res b2, BookSub i num sd b = Ok b1 ∧ RemoveIfEmpty i b1 = Ok (res, b2) ∧ book_ok b2 ∧
    (∀ sd' p', valid_side sd' → book_qty sd' p' b2 =
       book_qty sd' p' b - if decide (p' = iPrice it ∧ sd' = sd) then num else 0) ∧
    take i b2 = take i b ∧ drop (if (res : bool) then i else S i) b2 = drop (S i) b ∧
    length b2 = (if res then length b - 1 else length b)%nat.
Proof.
  intros Hb Hi Hsd Hnum. pose proof (list_elem_of_split_length b i it Hi) as (l1 & l2 & -> & ->).
  pose proof Hb as [_ Hf]. rewrite Forall_app, Forall_cons in Hf. destruct Hf as (_ & (HB & HS & _) & _).
  set (y := if decide (sd = BuyOrder) then set_BuyQuantity (BuyQuantity it - num) it
            else set_SellQuantity (SellQuantity it - num) it).
  assert (BookSub (length l1) num sd (l1 ++ it :: l2) = Ok (l1 ++ y :: l2)) as E1.
  { unfold BookSub, y. rewrite Hi. cbn. dec_simp.
    destruct Hsd as [-> | ->]; repeat case_decide; try done; by rewrite insert_app_r_alt, Nat.sub_diag by done. }
  assert (iPrice y = iPrice it) as Ey by (unfold y; by case_decide).
  assert (0 ≤ BuyQuantity y ∧ 0 ≤ SellQuantity y) as [? ?].
  { unfold y, side_qty in *. case_decide; cbn in *; lia. }
  destruct (RemoveIfEmpty_spec l1 l2 it y) as ([res b2] & E2 & Hok & Hq); [done..|]. cbn in Hok, Hq.
  exists (l1 ++ y :: l2), res, b2. split; [done|]. split; [done|]. split; [done|].
  assert (b2 = if res then l1 ++ l2 else l1 ++ y :: l2) as Eb2.
  { unfold RemoveIfEmpty in E2. rewrite list_lookup_middle in E2 by done. cbn in E2.
    injection E2 as Er E2. rewrite Er in E2. rewrite <-E2. destruct res; [|done].
    rewrite take_app_length. f_equal. rewrite (cons_middle y), app_assoc, drop_app_length'; [done|].
    rewrite length_app. cbn. lia. }
  split.
  - intros sd' p' Hs'. rewrite Hq, (book_qty_update l1 l2 it y) by done. unfold y, side_qty.
    destruct Hsd as [-> | ->], Hs' as [-> | ->]; cbn; repeat case_decide; naive_solver lia.
  - rewrite Eb2. destruct res; rewrite ?take_app_length, ?length_app; cbn [length];
      (split; [done|]; split; [|rewrite ?length_app; cbn; lia]);
      rewrite ?drop_app_length; rewrite ?(cons_middle _ l1 l2), ?app_assoc, ?drop_app_length' by (rewrite length_app; cbn; lia); done.
Qed.

(** ** The cache and the store *)

(** What was not updated since the start of the block is as in the store, and no
    entry of the cache is empty. *)
Record Synced (bs : gmap string DepthBook) (ix : gmap string (list string)) (d : DiskCache) : Prop := {
  sync_books : ∀ k, k ∉ bookUpdated d → bs !! k = bookData d !! k;
  sync_ids : ∀ k, k ∉ idsUpdated d → ix !! k = idsData d !! k;
  sync_book_ne : ∀ k, bookData d !! k ≠ Some [];
  sync_ids_ne : ∀ k, idsData d !! k ≠ Some [];
}.

(** A map that is written at a key which is marked as updated. *)
Lemma sync_upd {A} (m m' : gmap string (list A)) (X : gset string) (k : string) (o : option (list A)) :
  (∀ x, x ∉ X → m !! x = m' !! x) → ∀ x, x ∉ {[k]} ∪ X → m !! x = upd k o m' !! x.
Proof. intros H x Hx. rewrite lookup_upd, decide_False by set_solver. apply H. set_solver. Qed.

Lemma ne_upd {A} (m : gmap string (list A)) k o : (∀ x, m !! x ≠ Some []) → o ≠ Some [] →
  ∀ x, upd k o m !! x ≠ Some [].
Proof. intros H Ho x. rewrite lookup_upd. by case_decide. Qed.

Lemma setOrderIDs_synced bs ix k l d : Synced bs ix d → Synced bs ix (setOrderIDs k l d).
Proof.
  intros [H1 H2 H3 H4]. destruct l as [|x l]; split; cbn; try done.
  - by apply (sync_upd _ _ _ k None).
  - by apply (ne_upd _ k None).
  - by apply (sync_upd _ _ _ k (Some (x :: l))).
  - by apply (ne_upd _ k (Some (x :: l))).
Qed.

Lemma setDepthBook_synced bs ix k b d : Synced bs ix d → Synced bs ix (setDepthBook k b d).
Proof.
  intros [H1 H2 H3 H4]. destruct b as [[|x l]|]; split; cbn; try done.
  - by apply (sync_upd _ _ _ k None).
  - by apply (ne_upd _ k None).
  - by apply (sync_upd _ _ _ k (Some (x :: l))).
  - by apply (ne_upd _ k (Some (x :: l))).
  - by apply (sync_upd _ _ _ k None).
  - by apply (ne_upd _ k None).
Qed.

Lemma closeOrder_synced bs ix id d : Synced bs ix d → Synced bs ix (closeOrder id d).
Proof. by intros [????]. Qed.

Lemma removeOrder_synced bs ix o d d' : removeOrder o d = Ok d' → Synced bs ix d → Synced bs ix d'.
Proof.
  unfold removeOrder. intros (d1 & E1 & E2)%obind_ok Hs. injection E2 as <-. apply closeOrder_synced.
  assert (Synced bs ix d1).
  { destruct (getDepthBook _ d); [|by injection E1 as <-].
    apply obind_ok in E1 as (b & _ & [= <-]). by apply setDepthBook_synced. }
  destruct (cut _ _); [by apply setOrderIDs_synced|done].
Qed.

Lemma InsertOrder_ne o b b' : InsertOrder o b = Ok b' → b' ≠ [].
Proof.
  unfold InsertOrder. case_match.
  - intros [= <-]. by destruct b.
  - intros (it & E%or_panic_ok & E2)%obind_ok. case_match; injection E2 as <-.
    + intros Hn%(f_equal length). rewrite length_insert in Hn. apply lookup_lt_Some in E. cbn in Hn. lia.
    + intros Hn%(f_equal length). rewrite length_app in Hn. cbn in Hn. lia.
Qed.

Lemma insertOrder_synced bs ix o d d' : insertOrder o d = Ok d' → Synced bs ix d → Synced bs ix d'.
Proof.
  unfold insertOrder. intros (b & E1%InsertOrder_ne & [= <-])%obind_ok [H1 H2 H3 H4]. split; cbn.
  - by apply (sync_upd _ _ _ _ (Some b)).
  - by apply (sync_upd _ _ _ _ (Some (_ ++ [OrderID o]))).
  - apply (ne_upd _ _ (Some b)); [done|congruence].
  - apply (ne_upd _ _ (Some (_ ++ [OrderID o]))); [done|]. intros [= E%app_eq_nil]. naive_solver.
Qed.

End pure.
End OrderBook.
