(* ===== verification/OrderMatch.v ===== *)
(** * The matching engine and the blocks of the order module:
      src/x/order/match/periodicauction/{fill,match,impl}.go,
      src/x/order/{beginblocker,endblocker,genesis}.go

    At the end of a block the engine expires old orders, cancels the orders of
    products that were delisted, finds the auction price of every product with new
    orders ([Match]) and fills the orders at that price.  A block has a budget of
    deals: a product whose match is not completed is locked and goes on in the next
    block.

    A loop over the levels of a book is a recursion on a bound of its iterations
    (the number of levels: every iteration of [fillBuyOrders] advances the index or
    removes a level); running out of it would yield [Panic], and [OrderSpec] shows
    that it is enough.  Indexing a slice out of range and using a nil order panic.

    [cleanupOrdersByProduct] ranges over a slice that shares the array of the slice
    in the disk cache, from which every cancellation cuts an id in place:
    [clean_ids] carries that array. *)

From S2P Require Import Prelude SdkDec SdkCoins GoStd CommonErrors Common TokenErrors Token OrderErrors OrderTypes DepthBook Match DexErrors Dex OrderKeeper.

#[local] Open Scope Z_scope.

Module OrderMatch.
Import OrderKeeper.

Section engine.
Context `{DO : Dec.Ops} `{CO : Coins.Ops} `{BO : Bank.Ops} `{TE : !Token.Env} `{DE : Dex.Env}
  `{RT : GoRt} `{OE : OrderEnv}.

Abbreviation MO := (M OrderState) (only parsing).

(** ** Fills (fill.go) *)

Definition balanceAccount (order : Order) (fillPrice fillQuantity : Dec) : MO unit :=
  symbol1 ← lift (symbol (Product order) 1);
  symbol0 ← lift (symbol (Product order) 0);
  let '(outputCoins, inputCoins) :=
    if decide (Side order = BuyOrder)
    then ([MkCoin symbol1 (Dec.Mul fillPrice fillQuantity)], [MkCoin symbol0 fillQuantity])
    else ([MkCoin symbol0 fillQuantity], [MkCoin symbol1 (Dec.Mul fillPrice fillQuantity)]) in
  BalanceAccount (Sender order) outputCoins inputCoins.

(** The fee for the blocks that a filled order was open is settled: what was locked
    is unlocked, what it costs goes to the fee collector. *)
Definition settle_fee (ctx : Context) (order : Order) : MO (Order * SysCoins) :=
  lockedFee ← lift (GetOrderNewFee order);
  fee ← lift (GetOrderCostFee order ctx);
  receiveFee ← lift (or_panic (Coins.Sub lockedFee fee));
  UnlockCoins (Sender order) lockedFee Token.LockCoinsTypeFee;;
  AddFeeDetail ctx (Sender order) receiveFee FeeTypeOrderReceive;;
  let order := RecordOrderReceiveFee receiveFee order in
  swallow (AddCollectedFees ctx fee (Sender order) FeeTypeOrderNew false);;
  mret (order, fee).

(** The record of the deal fee is given the other fee, as in the source. *)
Definition chargeFee (ctx : Context) (order : Order) (fillQuantity : Dec) (feeParams : OrderParams)
    : MO (Order * SysCoins * string) :=
  '(order, fee) ←
    (if (Status order =? OrderStatusFilled)%Z then settle_fee ctx order
     else mret (order, GetZeroFee));
  dealFee ← GetDealFee order fillQuantity feeParams;
  r ← catch (SendFeesToProductOwner ctx dealFee (Sender order) FeeTypeOrderDeal (Product order));
  mret (match r with
        | inl feeReceiver => (RecordOrderDealFee fee order, dealFee, feeReceiver)
        | inr _ => (order, dealFee, "")
        end).

Definition fillOrder (ctx : Context) (order : Order) (fillPrice fillQuantity : Dec)
    (feeParams : OrderParams) : MO Deal :=
  order ← lift (Fill fillPrice fillQuantity order);
  balanceAccount order fillPrice fillQuantity;;
  order ←
    (if ((Status order =? OrderStatusFilled)%Z && Dec.IsPositive (RemainLocked order))%bool then
       needUnlockCoins ← lift (NeedUnlockCoins order);
       UnlockCoins (Sender order) needUnlockCoins Token.LockCoinsTypeQuantity;;
       mret (Unlock order)
     else mret order);
  '(order, dealFee, feeReceiver) ← chargeFee ctx order fillQuantity feeParams;
  UpdateOrder order;;
  mret (MkDeal (OrderID order) (Side order) fillQuantity (Coins.ToString dealFee) feeReceiver).

(** The loop of fillOrderByKey; the last component is the unfilled rest of the ids. *)
Fixpoint fill_ids (ctx : Context) (orderIDs : list string) (needFillAmount fillPrice : Dec)
    (feeParams : OrderParams) (remainDeals : Z) (deals : list Deal) (filledAmount : Dec)
    (filledDealsCnt : Z) : MO (list Deal * Dec * Z * list string) :=
  if ((filledDealsCnt <? remainDeals)%Z && Dec.LT filledAmount needFillAmount)%bool then
    match orderIDs with
    | [] => panic
    | orderID :: rest =>
        o ← gets (GetOrder orderID);
        order ← lift (or_panic o);
        if Dec.LTE (Dec.Add filledAmount (RemainQuantity order)) needFillAmount then
          let filledAmount := Dec.Add filledAmount (RemainQuantity order) in
          deal ← fillOrder ctx order fillPrice (RemainQuantity order) feeParams;
          fill_ids ctx rest needFillAmount fillPrice feeParams remainDeals (deals ++ [deal])
            filledAmount (filledDealsCnt + 1)
        else
          deal ← fillOrder ctx order fillPrice (Dec.Sub needFillAmount filledAmount) feeParams;
          mret (deals ++ [deal], needFillAmount, filledDealsCnt, orderIDs)
    end
  else mret (deals, filledAmount, filledDealsCnt, orderIDs).

Definition fillOrderByKey (ctx : Context) (key : string) (needFillAmount fillPrice : Dec)
    (feeParams : OrderParams) (remainDeals : Z) : MO (list Deal * Dec * Z) :=
  orderIDsMap ← gets (λ s, GetOrderIDsMapCopy (disk s));
  match orderIDsMap !! key with
  | None => mret ([], Dec.ZeroDec, 0)
  | Some orderIDs =>
      '(deals, filledAmount, filledDealsCnt, unFilledOrderIDs) ←
        fill_ids ctx orderIDs needFillAmount fillPrice feeParams remainDeals [] Dec.ZeroDec 0;
      SetOrderIDs key unFilledOrderIDs;;
      mret (deals, filledAmount, filledDealsCnt)
  end.

(** The loop of fillBuyOrders, from the level [index] of the copied book. *)
Fixpoint fill_buy_loop (fuel : nat) (ctx : Context) (product : string) (bestPrice maxExecution : Dec)
    (feeParams : OrderParams) (index : nat) (book : DepthBook) (buyExecuted : Dec)
    (blockRemainDeals : Z) (buyDeals : list Deal) : MO (DepthBook * Dec * Z * list Deal) :=
  match book !! index with
  | None => mret (book, buyExecuted, blockRemainDeals, buyDeals)
  | Some item =>
      match fuel with
      | O => panic
      | S fuel =>
          if negb (Dec.GTE (iPrice item) bestPrice && Dec.LT buyExecuted maxExecution)%bool
          then mret (book, buyExecuted, blockRemainDeals, buyDeals)
          else
            let fillAmount := Dec.MinDec (BuyQuantity item) (Dec.Sub maxExecution buyExecuted) in
            if Dec.IsZero fillAmount
            then fill_buy_loop fuel ctx product bestPrice maxExecution feeParams (S index) book
                   buyExecuted blockRemainDeals buyDeals
            else
              let key := FormatOrderIDsKey product (iPrice item) BuyOrder in
              '(filledBuyDeals, filledBuyAmount, filledDealsCnt) ←
                fillOrderByKey ctx key fillAmount bestPrice feeParams blockRemainDeals;
              let blockRemainDeals := blockRemainDeals - filledDealsCnt in
              let buyDeals := buyDeals ++ filledBuyDeals in
              let buyExecuted := Dec.Add buyExecuted filledBuyAmount in
              book ← lift (BookSub index filledBuyAmount BuyOrder book);
              '(res, book) ← lift (RemoveIfEmpty index book);
              let index := if (res : bool) then index else S index in
              if (blockRemainDeals <=? 0)%Z
              then mret (book, buyExecuted, blockRemainDeals, buyDeals)
              else fill_buy_loop fuel ctx product bestPrice maxExecution feeParams index book
                     buyExecuted blockRemainDeals buyDeals
      end
  end.

Definition fillBuyOrders (ctx : Context) (product : string) (bestPrice maxExecution buyExecuted : Dec)
    (blockRemainDeals : Z) (feeParams : OrderParams) : MO (list Deal * Z * Dec) :=
  book ← gets (GetDepthBookCopy product);
  '(book, buyExecuted, blockRemainDeals, buyDeals) ←
    fill_buy_loop (length book) ctx product bestPrice maxExecution feeParams 0 book buyExecuted
      blockRemainDeals [];
  SetDepthBook product book;;
  mret (buyDeals, blockRemainDeals, buyExecuted).

(** The loop of fillSellOrders: [n] is the index plus one. *)
Fixpoint fill_sell_loop (n : nat) (ctx : Context) (product : string) (bestPrice maxExecution : Dec)
    (feeParams : OrderParams) (book : DepthBook) (sellExecuted : Dec)
    (blockRemainDeals : Z) (sellDeals : list Deal) : MO (DepthBook * Dec * Z * list Deal) :=
  match n with
  | O => mret (book, sellExecuted, blockRemainDeals, sellDeals)
  | S index =>
      item ← lift (or_panic (book !! index));
      if negb (Dec.LTE (iPrice item) bestPrice && Dec.LT sellExecuted maxExecution)%bool
      then mret (book, sellExecuted, blockRemainDeals, sellDeals)
      else
        let fillAmount := Dec.MinDec (SellQuantity item) (Dec.Sub maxExecution sellExecuted) in
        if Dec.IsZero fillAmount
        then fill_sell_loop index ctx product bestPrice maxExecution feeParams book sellExecuted
               blockRemainDeals sellDeals
        else
          let key := FormatOrderIDsKey product (iPrice item) SellOrder in
          '(filledSellDeals, filledSellAmount, filledDealsCnt) ←
            fillOrderByKey ctx key fillAmount bestPrice feeParams blockRemainDeals;
          let blockRemainDeals := blockRemainDeals - filledDealsCnt in
          let sellDeals := sellDeals ++ filledSellDeals in
          let sellExecuted := Dec.Add sellExecuted filledSellAmount in
          book ← lift (BookSub index filledSellAmount SellOrder book);
          '(_, book) ← lift (RemoveIfEmpty index book);
          if (blockRemainDeals <=? 0)%Z
          then mret (book, sellExecuted, blockRemainDeals, sellDeals)
          else fill_sell_loop index ctx product bestPrice maxExecution feeParams book sellExecuted
                 blockRemainDeals sellDeals
  end.

Definition fillSellOrders (ctx : Context) (product : string) (bestPrice maxExecution sellExecuted : Dec)
    (blockRemainDeals : Z) (feeParams : OrderParams) : MO (list Deal * Z * Dec) :=
  book ← gets (GetDepthBookCopy product);
  '(book, sellExecuted, blockRemainDeals, sellDeals) ←
    fill_sell_loop (length book) ctx product bestPrice maxExecution feeParams book sellExecuted
      blockRemainDeals [];
  SetDepthBook product book;;
  mret (sellDeals, blockRemainDeals, sellExecuted).

(** The two counters behind pointers are passed and returned. *)
Definition fillDepthBook (ctx : Context) (product : string) (bestPrice maxExecution : Dec)
    (buyExecutedCnt sellExecutedCnt : Dec) (blockRemainDeals : Z) (feeParams : OrderParams)
    : MO (list Deal * Z * Dec * Dec) :=
  if Dec.IsZero maxExecution then mret ([], blockRemainDeals, buyExecutedCnt, sellExecutedCnt)
  else
    '(buyDeals, blockRemainDeals, buyExecutedCnt) ←
      fillBuyOrders ctx product bestPrice maxExecution buyExecutedCnt blockRemainDeals feeParams;
    if (blockRemainDeals <=? 0)%Z
    then mret (buyDeals, blockRemainDeals, buyExecutedCnt, sellExecutedCnt)
    else
      '(sellDeals, blockRemainDeals, sellExecutedCnt) ←
        fillSellOrders ctx product bestPrice maxExecution sellExecutedCnt blockRemainDeals feeParams;
      mret (buyDeals ++ sellDeals, blockRemainDeals, buyExecutedCnt, sellExecutedCnt).

(** ** Expiry (match.go) *)

Definition markCurBlockToFutureExpireBlockList (ctx : Context) : MO unit :=
  let curBlockHeight := BlockHeight ctx in
  feeParams ← gets oparams;
  let futureHeight := curBlockHeight + pOrderExpireBlocks feeParams in
  l ← gets (GetExpireBlockHeight futureHeight);
  SetExpireBlockHeight futureHeight (l ++ [curBlockHeight]).

Definition cleanLastBlockClosedOrders : MO unit :=
  lastClosedOrderIDs ← gets GetLastClosedOrderIDs;
  mapM_ DropOrder lastClosedOrderIDs;;
  modify_disk (DecreaseStoreOrderNum (Z.of_nat (length lastClosedOrderIDs))).

Definition cacheExpiredBlockToCurrentHeight (ctx : Context) : MO unit :=
  let curBlockHeight := BlockHeight ctx in
  h ← gets GetLastExpiredBlockHeight;
  let lastExpiredBlockHeight := if (h =? 0)%Z then curBlockHeight - 1 else h in
  mapM_ (λ height,
      expiredBlocks ← gets (GetExpireBlockHeight height);
      mapM_ (DropExpiredOrdersByBlockHeight ctx) expiredBlocks)
    (seqZ (lastExpiredBlockHeight + 1) (curBlockHeight - lastExpiredBlockHeight));;
  locked ← gets AnyProductLocked;
  if (locked : bool) then mret tt
  else
    (if (1 <? curBlockHeight)%Z then
       mapM_ (λ height,
           expiredBlocks ← gets (GetExpireBlockHeight height);
           mapM_ DropBlockOrderNum expiredBlocks;;
           DropExpireBlockHeight height)
         (seqZ lastExpiredBlockHeight (curBlockHeight - lastExpiredBlockHeight))
     else mret tt);;
    SetLastExpiredBlockHeight
      (if (1 <? curBlockHeight)%Z then Z.max lastExpiredBlockHeight curBlockHeight
       else lastExpiredBlockHeight).

Definition cleanupExpiredOrders (ctx : Context) : MO unit :=
  markCurBlockToFutureExpireBlockList ctx;;
  cleanLastBlockClosedOrders;;
  cacheExpiredBlockToCurrentHeight ctx.

(** ** Orders of delisted products *)

(** The loop of cleanOrdersByOrderIDList at position [i] of [n] more: [arr] is the
    array under the ranged slice.  When that array is the one of the buyers' slice
    in the disk cache, the cut of an id moves the later buyers one place down. *)
Fixpoint clean_ids (ctx : Context) (shared : bool) (buyKey : string) (n i : nat) (arr : list string)
    : MO unit :=
  match n with
  | O => mret tt
  | S n =>
      orderID ← lift (or_panic (arr !! i));
      o ← gets (GetOrder orderID);
      order ← lift (or_panic o);
      CancelOrder ctx order;;
      ids ← gets (GetProductPriceOrderIDs buyKey);
      clean_ids ctx shared buyKey n (S i)
        (if shared then ids ++ drop (length ids) arr else arr)
  end.

Definition clean_level (ctx : Context) (product : string) (item : DepthBookItem) : MO unit :=
  let buyKey := FormatOrderIDsKey product (iPrice item) BuyOrder in
  buyIDs ← gets (GetProductPriceOrderIDs buyKey);
  let sellKey := FormatOrderIDsKey product (iPrice item) SellOrder in
  sellIDs ← gets (GetProductPriceOrderIDs sellKey);
  let orderIDList := buyIDs ++ sellIDs in
  clean_ids ctx (append_shares (length buyIDs) (length sellIDs)) buyKey
    (length orderIDList) 0 orderIDList.

Definition cleanupOrdersByProduct (ctx : Context) (product : string) : MO unit :=
  depthBook ← gets (GetDepthBookCopy product);
  mapM_ (clean_level ctx product) depthBook.

Definition cleanupOrdersWhoseTokenPairHaveBeenDelisted (ctx : Context) : MO unit :=
  products ← gets GetProductsFromDepthBookMap;
  mapM_ (λ product,
    tokenPair ← gets (λ s, Dex.GetTokenPair product (dex s));
    match tokenPair with
    | None => cleanupOrdersByProduct ctx product
    | Some _ => mret tt
    end) products.

(** ** Matching *)

Fixpoint calcMatchPriceAndExecution (ctx : Context) (products : list string)
    (resultMap : gmap string MatchResult) : MO (gmap string MatchResult) :=
  match products with
  | [] => mret resultMap
  | product :: products =>
      tokenPair ← gets (λ s, Dex.GetTokenPair product (dex s));
      match tokenPair with
      | None => calcMatchPriceAndExecution ctx products resultMap
      | Some tokenPair =>
          book ← gets (GetDepthBookCopy product);
          lastPrice ← GetLastPrice product;
          '(bestPrice, maxExecution) ←
            lift (periodicAuctionMatchPrice book (Dex.MaxPriceDigit tokenPair) lastPrice);
          if Dec.IsPositive maxExecution then
            SetLastPrice product bestPrice;;
            calcMatchPriceAndExecution ctx products
              (<[product := MkMatchResult (BlockHeight ctx) bestPrice maxExecution []]> resultMap)
          else calcMatchPriceAndExecution ctx products resultMap
      end
  end.

Definition lockProduct (product : string) (matchResult : MatchResult)
    (buyExecutedCnt sellExecutedCnt : Dec) : MO unit :=
  SetProductLock product (MkProductLock (mrBlockHeight matchResult) (mrPrice matchResult)
    (mrQuantity matchResult) buyExecutedCnt sellExecutedCnt).

Definition executeMatchedUpdatedProduct (ctx : Context) (matchResult : MatchResult)
    (updatedProductsBasePrice : gmap string MatchResult) (feeParams : OrderParams)
    (blockRemainDeals : Z) (product : string) : MO (Z * gmap string MatchResult) :=
  if (blockRemainDeals <=? 0)%Z then
    lockProduct product matchResult Dec.ZeroDec Dec.ZeroDec;;
    mret (blockRemainDeals, updatedProductsBasePrice)
  else
    '(deals, blockRemainDeals, buyExecutedCnt, sellExecutedCnt) ←
      fillDepthBook ctx product (mrPrice matchResult) (mrQuantity matchResult) Dec.ZeroDec Dec.ZeroDec
        blockRemainDeals feeParams;
    let matchResult :=
      MkMatchResult (mrBlockHeight matchResult) (mrPrice matchResult) (mrQuantity matchResult) deals in
    (if (Dec.LT buyExecutedCnt (mrQuantity matchResult) ||
         Dec.LT sellExecutedCnt (mrQuantity matchResult))%bool
     then lockProduct product matchResult buyExecutedCnt sellExecutedCnt else mret tt);;
    mret (blockRemainDeals, <[product := matchResult]> updatedProductsBasePrice).

Definition executeLockedProduct (ctx : Context) (lock : ProductLock)
    (updatedProductsBasePrice : gmap string MatchResult) (lockMap : gmap string ProductLock)
    (feeParams : OrderParams) (blockRemainDeals : Z) (product : string)
    : MO (Z * gmap string MatchResult * gmap string ProductLock) :=
  if (blockRemainDeals <=? 0)%Z then mret (blockRemainDeals, updatedProductsBasePrice, lockMap)
  else
    '(deals, blockRemainDeals, buyExecuted, sellExecuted) ←
      fillDepthBook ctx product (lPrice lock) (lQuantity lock) (lBuyExecuted lock) (lSellExecuted lock)
        blockRemainDeals feeParams;
    let updatedProductsBasePrice :=
      if (0 <? length deals)%nat
      then <[product := MkMatchResult (lBlockHeight lock) (lPrice lock) (lQuantity lock) deals]>
             updatedProductsBasePrice
      else updatedProductsBasePrice in
    let lock := MkProductLock (lBlockHeight lock) (lPrice lock) (lQuantity lock) buyExecuted sellExecuted in
    (if (Dec.GTE buyExecuted (lQuantity lock) && Dec.GTE sellExecuted (lQuantity lock))%bool
     then UnlockProduct product else SetProductLock product lock);;
    mret (blockRemainDeals, updatedProductsBasePrice, <[product := lock]> lockMap).

Fixpoint execute_loop (ctx : Context) (feeParams : OrderParams) (products : list string)
    (blockRemainDeals : Z) (updatedProductsBasePrice : gmap string MatchResult)
    (lockMap : gmap string ProductLock) : MO (gmap string MatchResult) :=
  match products with
  | [] => mret updatedProductsBasePrice
  | product :: products =>
      match updatedProductsBasePrice !! product, lockMap !! product with
      | Some matchResult, _ =>
          '(blockRemainDeals, updatedProductsBasePrice) ←
            executeMatchedUpdatedProduct ctx matchResult updatedProductsBasePrice feeParams
              blockRemainDeals product;
          execute_loop ctx feeParams products blockRemainDeals updatedProductsBasePrice lockMap
      | None, Some lock =>
          '(blockRemainDeals, updatedProductsBasePrice, lockMap) ←
            executeLockedProduct ctx lock updatedProductsBasePrice lockMap feeParams
              blockRemainDeals product;
          execute_loop ctx feeParams products blockRemainDeals updatedProductsBasePrice lockMap
      | None, None =>
          execute_loop ctx feeParams products blockRemainDeals updatedProductsBasePrice lockMap
      end
  end.

Definition executeMatch (ctx : Context) (products : list string)
    (updatedProductsBasePrice : gmap string MatchResult) (lockMap : gmap string ProductLock)
    : MO (gmap string MatchResult) :=
  feeParams ← gets oparams;
  execute_loop ctx feeParams products (pMaxDealsPerBlock feeParams) updatedProductsBasePrice lockMap.

Definition matchOrders (ctx : Context) : MO unit :=
  let blockHeight := BlockHeight ctx in
  orderNum ← gets (GetBlockOrderNum blockHeight);
  locked ← gets AnyProductLocked;
  if ((orderNum =? 0)%Z && negb locked)%bool then mret tt
  else
    products ← gets (λ s, GetNewDepthbookKeys (disk s));
    products ← gets (FilterDelistedProducts products);
    products ← gets (λ s, Dex.SortProducts products (dex s));
    updatedProductsBasePrice ← calcMatchPriceAndExecution ctx products ∅;
    lockMap ← gets (λ s, Dex.GetLockedProductsCopy (dex s));
    let products := products ++ map_range (elements (dom lockMap)) in
    products ← gets (λ s, Dex.SortProducts products (dex s));
    updatedProductsBasePrice ← executeMatch ctx products updatedProductsBasePrice lockMap;
    if decide (updatedProductsBasePrice = ∅) then mret tt
    else SetBlockMatchResult (MkBlockMatchResult blockHeight updatedProductsBasePrice (Unix ctx)).

(** PaEngine.Run *)
Definition Run (ctx : Context) : MO unit :=
  cleanupExpiredOrders ctx;;
  cleanupOrdersWhoseTokenPairHaveBeenDelisted ctx;;
  matchOrders ctx.

(** ** Blocks and genesis *)

Definition BeginBlocker : MO unit := ResetCache.
Definition EndBlocker (ctx : Context) : MO unit := Run ctx;; Cache2Disk.

Record GenesisState := MkGenesisState { gParams : OrderParams; OpenOrders : list (option Order) }.

Definition init_order (params : OrderParams) (o : option Order) : MO unit :=
  order ← lift (or_panic o);
  let height := GetBlockHeightFromOrderID (OrderID order) in
  let futureHeight := height + pOrderExpireBlocks params in
  l ← gets (GetExpireBlockHeight futureHeight);
  SetExpireBlockHeight futureHeight (l ++ [height]);;
  orderNum ← gets (GetBlockOrderNum height);
  SetBlockOrderNum height (orderNum + 1);;
  SetOrder (OrderID order) order;;
  InsertOrderIntoDepthBook order.

Definition InitGenesis (data : GenesisState) : MO unit :=
  modify (set_oparams (gParams data));;
  mapM_ (init_order (gParams data)) (OpenOrders data);;
  if (0 <? length (OpenOrders data))%nat then Cache2Disk else mret tt.

(** The ids of one level in the store, sellers first. *)
Definition level_open_ids (product : string) (s : OrderState) (item : DepthBookItem) : list string :=
  (if Dec.IsPositive (SellQuantity item)
   then GetProductPriceOrderIDsFromDB (FormatOrderIDsKey product (iPrice item) SellOrder) s else []) ++
  (if Dec.IsPositive (BuyQuantity item)
   then GetProductPriceOrderIDsFromDB (FormatOrderIDsKey product (iPrice item) BuyOrder) s else []).

Definition export_pair (p : Dex.TokenPair) : MO (list Order) :=
  let product := Dex.BaseAssetSymbol p +:+ "_" +:+ Dex.QuoteAssetSymbol p in
  price ← GetLastPrice product;
  on_dex (Dex.UpdateTokenPair product (Dex.set_InitPrice price p));;
  s ← get;
  let openIDs := mjoin (level_open_ids product s <$> GetDepthBookFromDB product s) in
  os ← lift (mapM (λ orderID, or_panic (GetOrder orderID s)) openIDs);
  mret (filter (λ order, ((Status order =? OrderStatusFilled)%Z || (Status order =? OrderStatusCancelled)%Z ||
                          (Status order =? OrderStatusExpired)%Z)%bool = false) os).

Fixpoint export_pairs (l : list Dex.TokenPair) : MO (list Order) :=
  match l with
  | [] => mret []
  | p :: l => os ← export_pair p; rest ← export_pairs l; mret (os ++ rest)
  end.

Definition ExportGenesis : MO GenesisState :=
  params ← gets oparams;
  tokenPairs ← gets (λ s, Dex.GetTokenPairs (dex s));
  openOrders ← export_pairs tokenPairs;
  mret (MkGenesisState params (Some <$> openOrders)).
End engine.
End OrderMatch.
