(* ===== verification/OrderSpec.v ===== *)
(** * The order keeper and its handlers keep the order book

    The calls into the token and the supply keeper are [calm]: they never panic and leave the order
    store, the books and the product locks alone.  On top of that the file shows what
    placing, cancelling and expiring orders does to the invariant of [OrderBook] and
    to the relation between the cache in memory and the store ([Sync]). *)

From S2P Require Import Prelude Runs SdkDec SdkCoins GoStd CoinFacts CommonErrors Common TokenErrors Token OrderErrors OrderTypes DepthBook DexErrors Dex OrderKeeper OrderBook.

#[local] Open Scope Z_scope.

Module OrderSpec.
Import OrderKeeper OrderBook.

Section keeper.
Context `{DO : Dec.Ops} `{DL : !Dec.Laws} `{CO : !Coins.Ops} `{CL : !Coins.Laws}
  `{BO : !Bank.Ops} `{BL : !Bank.Laws} `{TE : !Token.Env} `{DE : !Dex.Env}
  `{RT : GoRt} `{OE : OrderEnv}.

Abbreviation MO := (M OrderState) (only parsing).

(** ** Calm computations *)

(** The parts that no operation on the order book touches. *)
Definition rest (s : OrderState) :=
  (books s, idsStore s, expireHeights s, blockNums s, lastClosed s, lastExpired s,
   (openOrderNum s, storeOrderNum s, oparams s, started s),
   (Dex.pairs (dex s), Dex.productLocks (dex s))).

(** The disk cache without its prices. *)
Definition dcore (s : OrderState) : DiskCache := set_priceMap ∅ (disk s).

(** A price in memory is the one in the store. *)
Definition price_ok (s : OrderState) : Prop :=
  ∀ pr x, priceMap (disk s) !! pr = Some x → prices s !! pr = Some x.

Record same (s s' : OrderState) : Prop := {
  same_rest : rest s' = rest s;
  same_orders : orders s' = orders s;
  same_disk : dcore s' = dcore s;
  same_price : price_ok s → price_ok s';
}.

#[global] Instance same_preorder : PreOrder same.
Proof.
  split; [done|]. intros s1 s2 s3 [? ? ? ?] [? ? ? ?]. split; [congruence..|auto].
Qed.

Definition calm {A} (m : MO A) : Prop := ∀ s, fst (m s) ≠ Panic ∧ same s (snd (m s)).

Lemma calm_ret {A} (a : A) : calm (mret a).
Proof. done. Qed.
Lemma calm_throw {A} e : calm (throw e : MO A).
Proof. done. Qed.
Lemma calm_gets {A} (f : OrderState → A) : calm (gets f).
Proof. done. Qed.
Lemma calm_get : calm get.
Proof. done. Qed.
Lemma calm_lift {A} (o : outcome A) : o ≠ Panic → calm (lift o : MO A).
Proof. done. Qed.
Lemma calm_bind {A B} (m : MO A) (f : A → MO B) : calm m → (∀ a, calm (f a)) → calm (m ≫= f).
Proof.
  intros Hm Hf s. specialize (Hm s). unfold mbind, M_bind.
  destruct (m s) as [[a|e|] s1]; cbn in *; destruct Hm as [Hm1 Hm2]; [|done..].
  destruct (Hf a s1) as [? ?]. split; [done|]. by trans s1.
Qed.
Lemma calm_wrap {A} f (m : MO A) : calm m → calm (wrap_err f m).
Proof. intros Hm s. specialize (Hm s). unfold wrap_err. destruct (m s) as [[] ?]; naive_solver. Qed.
Lemma calm_swallow (m : MO unit) : calm m → calm (swallow m).
Proof. intros Hm s. specialize (Hm s). unfold swallow. destruct (m s) as [[] ?]; naive_solver. Qed.
Lemma calm_if {A} (b : bool) (m n : MO A) : calm m → calm n → calm (if b then m else n).
Proof. by destruct b. Qed.

(** What a calm computation may end in. *)
Lemma runs_swallow (m : MO unit) s (Q : unit → OrderState → Prop) :
  calm m → (∀ s', same s s' → Q tt s') → runs (swallow m) s Q.
Proof.
  intros Hm HQ. specialize (Hm s). unfold runs, swallow.
  destruct (m s) as [[[]|e|] s1]; cbn in Hm; destruct Hm; [..|done]; eauto.
Qed.
Lemma runs_catch {A} (m : MO A) s (Q : A + error → OrderState → Prop) :
  calm m → (∀ r s', same s s' → Q r s') → runs (catch m) s Q.
Proof.
  intros Hm HQ. specialize (Hm s). unfold runs, catch.
  destruct (m s) as [[a|e|] s1]; cbn in Hm; destruct Hm; [..|done]; eauto.
Qed.

(** Calls of the token keeper. *)
Definition tsafe {A} (m : M Token.TokenState A) : Prop := ∀ t, fst (m t) ≠ Panic.

Lemma calm_on_token {A} (m : M Token.TokenState A) : tsafe m → calm (on_token m).
Proof.
  intros Hm s. unfold on_token, zoom. specialize (Hm (tok s)). destruct (m (tok s)) as [r t].
  split; [done|]. by destruct s.
Qed.

Lemma tsafe_bind {A B} (m : M Token.TokenState A) (f : A → M Token.TokenState B) :
  tsafe m → (∀ a, tsafe (f a)) → tsafe (m ≫= f).
Proof.
  intros Hm Hf t. specialize (Hm t). unfold mbind, M_bind. destruct (m t) as [[] t1]; cbn in *; [apply Hf|done..].
Qed.
Lemma tsafe_wrap {A} f (m : M Token.TokenState A) : tsafe m → tsafe (wrap_err f m).
Proof. intros Hm t. specialize (Hm t). unfold wrap_err. by destruct (m t) as [[] ?]. Qed.
Lemma tsafe_send from to c : tsafe (Token.on_bank (Bank.SendCoins from to c)).
Proof.
  intros t. unfold Token.on_bank, zoom.
  pose proof (Bank.SendCoins_no_panic from to c (Token.bank t)) as H.
  destruct (Bank.SendCoins from to c (Token.bank t)) as [[] b]; cbn; try done. by destruct (H b).
Qed.
Lemma tsafe_update addr c add ty : tsafe (Token.updateLockedCoins addr c add ty).
Proof.
  intros t. unfold Token.updateLockedCoins. repeat case_match; cbn; try done;
    unfold mbind, M_bind, gets, lift, Token.locked_update; cbn;
    repeat (case_match; cbn; try done); simplify_eq; destruct add; repeat case_match; simplify_eq; done.
Qed.
Lemma tsafe_Lock addr c ty : tsafe (Token.LockCoins addr c ty).
Proof.
  unfold Token.LockCoins. apply tsafe_bind; [|intros; apply tsafe_update].
  apply tsafe_wrap. rewrite Bank.AccountToModule_spec. apply tsafe_send.
Qed.
Lemma tsafe_Unlock addr c ty : tsafe (Token.UnlockCoins addr c ty).
Proof.
  unfold Token.UnlockCoins. apply tsafe_bind; [apply tsafe_update|intros _].
  apply tsafe_wrap. rewrite Bank.ModuleToAccount_spec. apply tsafe_send.
Qed.
Lemma tsafe_Balance addr o i : tsafe (Token.BalanceAccount addr o i).
Proof.
  unfold Token.BalanceAccount. apply tsafe_bind; [|intros _]; (case_match; [|done]).
  - apply tsafe_wrap, tsafe_update.
  - rewrite Bank.ModuleToAccount_spec. apply tsafe_send.
Qed.
Lemma tsafe_detail ctx from fee ty to : tsafe (Token.AddFeeDetail ctx from fee ty to).
Proof. intros t. unfold Token.AddFeeDetail. by case_match. Qed.
Lemma tsafe_transfer ctx from to c : tsafe (Token.SendCoinsFromAccountToAccount ctx from to c).
Proof.
  unfold Token.SendCoinsFromAccountToAccount. case_match; [done|]. apply tsafe_bind; [done|].
  intros []; case_match; done || apply tsafe_send.
Qed.
(** *** The keeper's own calls *)

Lemma calm_modify_cache f : calm (modify_cache f).
Proof. intros s. split; [done|]. by destruct s. Qed.
Lemma calm_addUpdated id : calm (addUpdatedOrderID id).
Proof. unfold addUpdatedOrderID. apply calm_if; [apply calm_modify_cache|apply calm_ret]. Qed.
Lemma calm_Lock addr c ty : calm (LockCoins addr c ty).
Proof. unfold LockCoins. apply calm_if; [apply calm_ret|]. apply calm_on_token, tsafe_Lock. Qed.
Lemma calm_detail ctx from c ty : calm (AddFeeDetail ctx from c ty).
Proof. unfold AddFeeDetail. apply calm_if; [apply calm_ret|]. apply calm_on_token, tsafe_detail. Qed.
Lemma calm_collect ctx c from ty b : calm (AddCollectedFees ctx c from ty b).
Proof.
  unfold AddCollectedFees. apply calm_if; [apply calm_ret|]. apply calm_bind; [|intros _].
  - apply calm_if; [apply calm_on_token, tsafe_detail|apply calm_ret].
  - unfold on_supply. rewrite Bank.AccountToModule_spec. apply calm_on_token, tsafe_send.
Qed.
Lemma calm_SendFees ctx c from ty pr : calm (SendFeesToProductOwner ctx c from ty pr).
Proof.
  unfold SendFeesToProductOwner. apply calm_if; [apply calm_ret|].
  apply calm_bind; [apply calm_get|intros s].
  apply calm_bind; [apply calm_lift; unfold GetProductFeeReceiver; by repeat case_match|intros to].
  apply calm_bind; [apply calm_on_token, tsafe_detail|intros _].
  apply calm_bind; [apply calm_wrap, calm_on_token, tsafe_transfer|intros _; apply calm_ret].
Qed.

(** The errors of these two are only logged. *)
Lemma runs_Unlock addr c ty s (Q : unit → OrderState → Prop) :
  (∀ s', same s s' → Q tt s') → runs (UnlockCoins addr c ty) s Q.
Proof.
  intros HQ. unfold UnlockCoins. destruct (Coins.IsZero c); [by apply runs_ret, HQ|].
  apply runs_swallow; [|done]. apply calm_on_token, tsafe_Unlock.
Qed.
Lemma runs_Balance addr o i s (Q : unit → OrderState → Prop) :
  (∀ s', same s s' → Q tt s') → runs (BalanceAccount addr o i) s Q.
Proof. intros HQ. apply runs_swallow; [|done]. apply calm_on_token, tsafe_Balance. Qed.
Lemma runs_calm (m : MO unit) s (Q : unit → OrderState → Prop) :
  calm m → is_ok (fst (m s)) = true → (∀ s', same s s' → Q tt s') → runs m s Q.
Proof.
  intros Hm Hok HQ. destruct (Hm s) as [_ Hs]. unfold runs.
  destruct (m s) as [[[]|e|] s1]; [|done..]. eauto.
Qed.
Lemma runs_detail ctx from c ty s (Q : unit → OrderState → Prop) :
  (∀ s', same s s' → Q tt s') → runs (AddFeeDetail ctx from c ty) s Q.
Proof.
  apply runs_calm; [apply calm_detail|]. unfold AddFeeDetail, on_token, zoom, Token.AddFeeDetail.
  by destruct (Coins.IsZero c), Token.enableBackend.
Qed.
Lemma runs_addUpdated id s (Q : unit → OrderState → Prop) :
  (∀ s', same s s' → Q tt s') → runs (addUpdatedOrderID id) s Q.
Proof. apply runs_calm; [apply calm_addUpdated|]. unfold addUpdatedOrderID. by case_match. Qed.
Lemma runs_modify_cache f s (Q : unit → OrderState → Prop) :
  (∀ s', same s s' → Q tt s') → runs (modify_cache f) s Q.
Proof. apply runs_calm; [apply calm_modify_cache|done]. Qed.

(** A price is found, and stays the one in the store. *)
Lemma runs_GetLastPrice pr s (Q : Dec → OrderState → Prop) :
  (∀ x s', same s s' → Q x s') → runs (GetLastPrice pr) s Q.
Proof.
  intros HQ. unfold GetLastPrice. apply runs_bind, runs_gets.
  case_match; [by apply runs_ret, HQ|]. apply runs_bind, runs_gets.
  case_match; [by apply runs_ret, HQ|]. apply runs_bind, runs_gets.
  case_match; [|by apply runs_ret, HQ]. unfold SetLastPrice, modify_disk.
  do 2 apply runs_bind. apply runs_modify, runs_modify, runs_ret, HQ.
  split; [by destruct s..|]. intros Hp pr' x'. cbn.
  rewrite !lookup_insert. case_decide; [done|apply Hp].
Qed.

(** ** Fees *)

Lemma symbol_ok o : money_wf o → ∃ a b, symbol (Product o) 0 = Ok a ∧ symbol (Product o) 1 = Ok b ∧
  Coins.ValidDenom a = true ∧ Coins.ValidDenom b = true.
Proof. intros [(a & b & E & Ha & Hb) _ _ _]. exists a, b. unfold symbol. by rewrite E. Qed.

(** The blocks an order has to pay for. *)
Definition blocks_open (o : Order) (ctx : Context) : Z :=
  Z.min (OrderExpireBlocks o) (Z.max 0 (BlockHeight ctx - GetBlockHeightFromOrderID (OrderID o))).

Lemma Mul_blocks a n : Dec.Mul a (Dec.NewDec n) = a * n.
Proof. apply Mul_exact. dec_simp. lia. Qed.

Lemma new_fee o : money_wf o →
  GetOrderNewFee o = Ok [MkCoin (Denom (FeePerBlock o)) (Amount (FeePerBlock o) * OrderExpireBlocks o)].
Proof.
  intros Hwf. destruct Hwf. unfold GetOrderNewFee. rewrite Mul_blocks, Coins.NewDecCoinFromDec_ok; [done|done|nia].
Qed.

Lemma cost_fee o ctx : money_wf o → ∃ c, GetOrderCostFee o ctx = Ok [c] ∧
  Amount c = Amount (FeePerBlock o) * blocks_open o ctx ∧
  (Amount c = 0 ∨ Denom c = Denom (FeePerBlock o)).
Proof.
  intros Hwf. destruct Hwf. unfold GetOrderCostFee, blocks_open, GetZeroFee.
  set (n := BlockHeight ctx - _). destruct (Z.ltb_spec n 0).
  { eexists. split; [done|]. rewrite Coins.ZeroFee_spec. split; [|by left].
    rewrite Z.max_l, Z.min_r by lia. lia. }
  set (k := if (_ <? n)%Z then _ else n). assert (k = OrderExpireBlocks o `min` n) as ->.
  { unfold k. destruct (Z.ltb_spec (OrderExpireBlocks o) n); lia. }
  rewrite Mul_blocks, Coins.NewDecCoinFromDec_ok; [|done|nia].
  eexists. split; [done|]. cbn. rewrite Z.max_r by lia. auto.
Qed.

(** What an order costs is covered by what it locked. *)
Lemma fees_settle o ctx : money_wf o → ∃ locked cost receive,
  GetOrderNewFee o = Ok locked ∧ GetOrderCostFee o ctx = Ok cost ∧ Coins.Sub locked cost = Some receive ∧
  ∀ d, 0 ≤ amt d cost ≤ amt d locked ∧ amt d receive = amt d locked - amt d cost.
Proof.
  intros Hwf. destruct (cost_fee o ctx Hwf) as (c & Ec & Hc & Hd). pose proof Hwf as [].
  set (l := MkCoin (Denom (FeePerBlock o)) (Amount (FeePerBlock o) * OrderExpireBlocks o)).
  assert (∀ d, 0 ≤ amt d [c] ≤ amt d [l]) as Hle.
  { intros d. rewrite !amt_single. assert (0 ≤ blocks_open o ctx ≤ OrderExpireBlocks o) by (unfold blocks_open; lia).
    unfold coin_amt, l. cbn. rewrite Hc.
    assert (0 ≤ Amount (FeePerBlock o) * blocks_open o ctx ≤ Amount (FeePerBlock o) * OrderExpireBlocks o) by nia.
    destruct Hd as [Hz|Hd]; [rewrite Hc in Hz|rewrite Hd]; repeat case_decide; lia. }
  assert ((Coins.SafeSub [l] [c]).2 = false) as Hneg.
  { apply Coins.SafeSub_neg; [apply sorted_coins_single..|]. intros d. apply Hle. }
  exists [l], [c], (Coins.SafeSub [l] [c]).1. split; [by rewrite new_fee|]. split; [done|].
  split; [by rewrite Coins.Sub_spec, Hneg|]. intros d. split; [done|].
  apply Coins.SafeSub_amt; apply sorted_coins_single.
Qed.

(** ** Operations on the book *)

(** The cache agrees with the store on what was not updated. *)
Definition Sync (s : OrderState) : Prop := Synced (books s) (idsStore s) (disk s).
Definition BookInv (s : OrderState) : Prop := Inv (orders s) (disk s).

(** An operation on the book: it keeps what the book is not made of. *)
Record kept (s s' : OrderState) : Prop := {
  kept_rest : rest s' = rest s;
  kept_price : price_ok s → price_ok s';
  kept_sync : Sync s → Sync s';
}.

#[global] Instance kept_preorder : PreOrder kept.
Proof. split; [done|]. intros s1 s2 s3 [? ? ?] [? ? ?]. split; [congruence|auto..]. Qed.

Lemma dcore_proj {A} (f : DiskCache → A) s s' : (∀ d, f (set_priceMap ∅ d) = f d) →
  dcore s' = dcore s → f (disk s') = f (disk s).
Proof. intros H E. rewrite <-(H (disk s')), <-(H (disk s)). unfold dcore in E. by rewrite E. Qed.

Lemma Inv_view os d d' : (∀ pr, bk pr d' = bk pr d) → (∀ k, getOrderIDs k d' = getOrderIDs k d) →
  closedOrderIDs d' = closedOrderIDs d → Inv os d → Inv os d'.
Proof.
  intros E1 E2 E3 [H1 H2 H3 H4 H5 H6 H7].
  split; try done; intros; unfold ids in *; rewrite ?E1, ?E2, ?E3 in *; auto.
  by apply (H7 id).
Qed.

Lemma Inv_ext os d d' : bookData d' = bookData d → idsData d' = idsData d →
  closedOrderIDs d' = closedOrderIDs d → Inv os d → Inv os d'.
Proof. intros E1 E2 E3. apply Inv_view; [|unfold getOrderIDs|done]; intros; unfold bk; by rewrite ?E1, ?E2. Qed.

Lemma rest_stores s s' : rest s' = rest s → books s' = books s ∧ idsStore s' = idsStore s.
Proof. unfold rest. intros E. by simplify_eq. Qed.

Lemma Synced_ext bs ix d d' : bookData d' = bookData d → idsData d' = idsData d →
  bookUpdated d' = bookUpdated d → idsUpdated d' = idsUpdated d → Synced bs ix d → Synced bs ix d'.
Proof. intros E1 E2 E3 E4 [H1 H2 H3 H4]. split; by rewrite ?E1, ?E2, ?E3, ?E4. Qed.

Lemma same_kept s s' : same s s' → kept s s'.
Proof.
  intros [Hr Ho Hd Hp]. split; [done..|]. unfold Sync. destruct (rest_stores _ _ Hr) as [-> ->].
  apply Synced_ext; by apply (dcore_proj _ s s').
Qed.

Lemma same_inv s s' : same s s' → BookInv s → BookInv s'.
Proof.
  intros [Hr Ho Hd Hp]. unfold BookInv. rewrite Ho. apply Inv_ext; by apply (dcore_proj _ s s').
Qed.

Lemma same_closed s s' : same s s' → closedOrderIDs (disk s') = closedOrderIDs (disk s).
Proof. intros [_ _ Hd _]. by apply (dcore_proj _ s s'). Qed.

(** A write to the order store. *)
Lemma SetOrder_kept id o s : kept s (set_orders (<[id := o]> (orders s)) s).
Proof. by destruct s. Qed.

(** A write to the disk cache that keeps the prices and stays in step with the store. *)
Lemma set_disk_kept d s : priceMap d = priceMap (disk s) →
  (Sync s → Synced (books s) (idsStore s) d) → kept s (set_disk d s).
Proof.
  intros Hp Hs. split; [by destruct s| |done]. unfold price_ok. cbn. by rewrite Hp.
Qed.

Lemma removeOrder_prices o d d' : removeOrder o d = Ok d' → priceMap d' = priceMap d.
Proof.
  unfold removeOrder. intros (d1 & E1 & E2)%obind_ok. injection E2 as <-. cbn.
  assert (priceMap d1 = priceMap d) as <-.
  { destruct (getDepthBook _ d); [|by injection E1 as <-].
    apply obind_ok in E1 as (b & _ & [= <-]). by destruct b. }
  destruct (cut _ _) as [[]|]; done.
Qed.
Lemma insertOrder_prices o d d' : insertOrder o d = Ok d' → priceMap d' = priceMap d.
Proof. unfold insertOrder. by intros (b & _ & [= <-])%obind_ok. Qed.

(** *** Cancelling and expiring *)

(** The order [o'] is [o], closed. *)
Definition closed_as (o o' : Order) : Prop :=
  ¬ is_open o' ∧ level o' = level o ∧ OrderID o' = OrderID o ∧ Sender o' = Sender o ∧
  RemainQuantity o' = RemainQuantity o.

(** One order of the store, and its place in the book, was closed. *)
Record closes (id : string) (o : Order) (s s' : OrderState) : Prop := {
  cl_order : ∃ o', orders s' = <[id := o']> (orders s) ∧ closed_as o o';
  cl_inv : BookInv s';
  cl_kept : kept s s';
  cl_ids : closedOrderIDs (disk s') = closedOrderIDs (disk s) ++ [id];
}.

Lemma same_closes id o s s1 s' : same s s1 → closes id o s1 s' → closes id o s s'.
Proof.
  intros Hs [(o' & E & Hc) H2 H3 H4]. pose proof (same_orders _ _ Hs) as Eo. split.
  - exists o'. by rewrite <-Eo.
  - done.
  - trans s1; [by apply same_kept|done].
  - by rewrite H4, (same_closed _ _ Hs).
Qed.

Lemma runs_remove id o o' ft s : BookInv s → orders s !! id = Some o → is_open o → OrderID o = id →
  closed_as o o' → runs (SetOrder (OrderID o') o';; RemoveOrderFromDepthBook o' ft) s (λ _, closes id o s).
Proof.
  intros HI Ho Hop Hid (Hcl & Hlv & Hid' & Hse & Hrem). rewrite Hid', Hid.
  apply runs_bind, runs_modify. set (s1 := set_orders _ s). unfold RemoveOrderFromDepthBook.
  apply runs_bind, runs_addUpdated. intros s2 H2. apply runs_bind.
  assert (∀ Q : unit → OrderState → Prop, (∀ s', same s2 s' → Q tt s') →
    runs (if decide (ft = FeeTypeOrderCancel) then modify_cache (λ c, set_cancelNum (cancelNum c + 1) c)
          else if decide (ft = FeeTypeOrderExpire) then modify_cache (λ c, set_expireNum (expireNum c + 1) c)
          else mret tt) s2 Q) as Hcase.
  { intros Q HQ. repeat case_decide; [apply runs_modify_cache, HQ..|by apply runs_ret, HQ]. }
  apply Hcase. intros s3 H3. assert (same s1 s3) as H13 by (by trans s2). clear H2 H3 Hcase.
  assert (Inv (orders s) (disk s3)) as HI3.
  { apply (Inv_ext _ (disk s)); [..|done]; by apply (dcore_proj _ s1 s3); [|apply H13]. }
  destruct (remove_order_inv (orders s) (disk s3) id o o') as (d & Ed & HId & Ecl); [done..|congruence|done|].
  unfold update_disk. apply runs_bind, runs_get, runs_bind. eapply runs_lift; [exact Ed|]. apply runs_modify.
  pose proof (same_orders _ _ H13) as Eo. cbn in Eo. split.
  - exists o'. split; [done|]. by repeat split.
  - unfold BookInv. cbn. by rewrite Eo.
  - trans s1; [apply SetOrder_kept|]. trans s3; [by apply same_kept|]. apply set_disk_kept.
    + by eapply removeOrder_prices.
    + intros. by eapply removeOrder_synced.
  - cbn. by rewrite Ecl, (same_closed _ _ H13).
Qed.

Lemma closed_status o st : st ≠ OrderStatusOpen → closed_as o (set_Status st o).
Proof. intros. by repeat split. Qed.

Lemma runs_quit ctx id o st ft s : BookInv s → orders s !! id = Some o → is_open o → st ≠ OrderStatusOpen →
  runs (quit ctx (set_Status st o) ft) s (λ _, closes id o s).
Proof.
  intros HI Ho Hop Hst. pose proof (wf_money _ (inv_wf _ _ HI id o Ho Hop)) as Hwf.
  pose proof (inv_id _ _ HI id o Ho) as Hid.
  destruct (symbol_ok o Hwf) as (a & b & Ea & Eb & _). unfold quit.
  apply runs_bind. assert (∃ c, NeedUnlockCoins (set_Status st o) = Ok c) as [c Ec].
  { unfold NeedUnlockCoins. cbn. rewrite Ea, Eb. case_decide; eexists; done. }
  eapply runs_lift; [exact Ec|]. apply runs_bind, runs_Unlock. intros s1 H1.
  destruct (fees_settle o ctx Hwf) as (locked & cost & receive & E1 & E2 & E3 & _).
  apply runs_bind. eapply runs_lift; [exact E1|]. apply runs_bind. eapply runs_lift; [exact E2|].
  apply runs_bind. eapply runs_lift; [by rewrite E3|]. apply runs_bind, runs_Unlock. intros s2 H2.
  apply runs_bind, runs_detail. intros s3 H3. apply runs_bind, runs_swallow; [apply calm_collect|].
  intros s4 H4. assert (same s s4) as H by (trans s1; [done|]; trans s2; [done|]; by trans s3).
  clear H1 H2 H3 H4. cbv zeta. set (o' := Unlock _).
  assert (runs (SetOrder (OrderID o') o';; RemoveOrderFromDepthBook o' ft) s4 (λ _, closes id o s4)) as Hr.
  { apply runs_remove; [by apply (same_inv s)|by rewrite (same_orders _ _ H)|done|done|by repeat split]. }
  apply runs_assoc. apply runs_bind. eapply runs_mono; [exact Hr|]. intros u s5 H5.
  apply runs_ret. by apply (same_closes id o s s4).
Qed.

Lemma runs_Cancel ctx id o s : BookInv s → orders s !! id = Some o → is_open o →
  runs (CancelOrder ctx o) s (λ _, closes id o s).
Proof.
  intros. unfold CancelOrder, quitOrder. rewrite decide_True by done. unfold Cancel.
  by case_match; apply runs_quit.
Qed.

Lemma runs_Expire ctx id o s : BookInv s → orders s !! id = Some o → is_open o →
  runs (ExpireOrder ctx o) s (λ _, closes id o s).
Proof.
  intros. unfold ExpireOrder, quitOrder. rewrite decide_False, decide_True by done. apply runs_bind.
  eapply runs_mono; [unfold Expire; by case_match; apply runs_quit|]. intros u s' H'. by apply runs_ret.
Qed.

(** ** The invariant of the module *)

(** A listed product: its name is the name of its pair, made of two denominations. *)
Record pair_wf (pr : string) (tp : Dex.TokenPair) : Prop := {
  pw_colon : good_name pr;
  pw_name : Dex.Name tp = pr;
  pw_symbols : ∃ a b, Split pr underscore = [a; b] ∧ Coins.ValidDenom a = true ∧ Coins.ValidDenom b = true;
}.

Record params_ok (p : OrderParams) : Prop := {
  po_expire : 0 ≤ pOrderExpireBlocks p;
  po_fee : 0 ≤ Amount (pFeePerBlock p);
  po_denom : Coins.ValidDenom (Denom (pFeePerBlock p)) = true;
}.

(** A lock remembers how much of the volume each side has traded. *)
Definition lock_ok (l : ProductLock) : Prop :=
  0 ≤ lBuyExecuted l ≤ lQuantity l ∧ 0 ≤ lSellExecuted l ≤ lQuantity l.
Definition locks_ok (m : gmap string ProductLock) : Prop := ∀ pr l, m !! pr = Some l → lock_ok l.

Record OInv (s : OrderState) : Prop := {
  o_inv : BookInv s;
  o_sync : Sync s;
  o_price : price_ok s;
  o_pairs : ∀ pr tp, Dex.pairs (dex s) !! pr = Some tp → pair_wf pr tp;
  o_listed : ∀ id o, orders s !! id = Some o → is_open o → is_Some (Dex.pairs (dex s) !! Product o);
  o_params : params_ok (oparams s);
  o_last : ∀ id o, id ∈ lastClosed s → orders s !! id = Some o → ¬ is_open o;
  o_locks : locks_ok (Dex.productLocks (dex s));
  o_started : started s = true;
}.

(** An id that is in use, or was closed and is still to be dropped. *)
Definition known (s : OrderState) (id : string) : Prop :=
  is_Some (orders s !! id) ∨ id ∈ lastClosed s ∨ id ∈ closedOrderIDs (disk s).

(** The ids in use at height [h] are those of earlier heights and the numbers that
    were given out at this height, at most [k] of them. *)
Record Fresh (h k : Z) (s : OrderState) : Prop := {
  fr_known : ∀ id, known s id → ∃ h' n, id = FormatOrderID h' n ∧ 0 ≤ h' ≤ h ∧ 0 < n < 2 ^ 63 ∧
    (h' = h → n ≤ GetBlockOrderNum h s);
  fr_later : ∀ h', h < h' → GetBlockOrderNum h' s = 0;
  fr_count : 0 ≤ GetBlockOrderNum h s ≤ k;
}.

Lemma rest_fields s s' : rest s' = rest s →
  Dex.pairs (dex s') = Dex.pairs (dex s) ∧ Dex.productLocks (dex s') = Dex.productLocks (dex s) ∧
  oparams s' = oparams s ∧ lastClosed s' = lastClosed s ∧ blockNums s' = blockNums s ∧ started s' = started s.
Proof. unfold rest. intros E. by simplify_eq. Qed.

Lemma closes_OInv id o s s' : OInv s → orders s !! id = Some o → closes id o s s' → OInv s'.
Proof.
  intros [H1 H2 H3 H4 H5 H6 H7 H8 H9] Ho [(o' & Eo & Hcl & Hlv & _) HI [Hr Hp Hs] Hc].
  destruct (rest_fields _ _ Hr) as (Epairs & El & Epar & Elast & _ & Est).
  assert (∀ x ox, orders s' !! x = Some ox → is_open ox → orders s !! x = Some ox) as Hback.
  { intros x ox. rewrite Eo, lookup_insert. case_decide; [naive_solver|done]. }
  split; rewrite ?Epairs, ?Epar, ?Elast, ?El, ?Est; auto.
  - intros x ox Hx Hop. apply (H5 x); auto.
  - intros x ox Hx Hox Hop. apply (H7 x ox); auto.
Qed.

Lemma closes_Fresh id o h k s s' : orders s !! id = Some o → closes id o s s' → Fresh h k s → Fresh h k s'.
Proof.
  intros Ho [(o' & Eo & _) _ [Hr _ _] Hc] [H1 H2 H3].
  destruct (rest_fields _ _ Hr) as (_ & _ & _ & Elast & Enum & _).
  assert (∀ h, GetBlockOrderNum h s' = GetBlockOrderNum h s) as En
    by (intros; unfold GetBlockOrderNum; by rewrite Enum).
  split; [|intros; rewrite En; auto..].
  intros x Hx. rewrite En. apply H1. unfold known in *. rewrite Eo, Elast, Hc, lookup_insert, elem_of_app in Hx.
  rewrite list_elem_of_singleton in Hx. case_decide; naive_solver.
Qed.

(** *** Placing *)

Lemma Lock_shape addr c ty s : ∃ t r, LockCoins addr c ty s = (r, set_tok t s) ∧ r ≠ Panic ∧
  Token.feeDetails t = Token.feeDetails (tok s).
Proof.
  pose proof (calm_Lock addr c ty s) as [Hp _]. revert Hp. unfold LockCoins.
  destruct (Coins.IsZero c).
  - intros _. exists (tok s), (Ok tt). split; [|done]. by destruct s as [[]].
  - unfold on_token, zoom. destruct (Token.LockCoins _ _ _ _) as [r t] eqn:E. intros Hp. exists t, r.
    split; [done|]. split; [done|]. revert E. unfold Token.LockCoins, Token.updateLockedCoins.
    unfold mbind, M_bind, wrap_err, Token.on_bank, zoom, gets, lift, modify, throw.
    repeat case_match; intros; by simplify_eq.
Qed.

Lemma set_tok_twice t t' s : set_tok t' (set_tok t s) = set_tok t' s.
Proof. by destruct s as [[]]. Qed.
Lemma tok_set_tok t s : tok (set_tok t s) = t.
Proof. by destruct s as [[]]. Qed.

Lemma TryPlace_shape o s : money_wf o → ∃ t r, TryPlaceOrder o s = (r, set_tok t s) ∧ r ≠ Panic ∧
  Token.feeDetails t = Token.feeDetails (tok s).
Proof.
  intros Hwf. destruct (symbol_ok o Hwf) as (a & b & Ea & Eb & _). unfold TryPlaceOrder.
  assert (∃ c, NeedLockCoins o = Ok c) as [c Ec].
  { unfold NeedLockCoins. rewrite Ea, Eb. case_decide; eexists; done. }
  rewrite Ec, (bind_eq _ _ _ c s) by done.
  destruct (Lock_shape (Sender o) c Token.LockCoinsTypeQuantity s) as (t1 & r1 & E1 & Hr1 & Hf1).
  unfold mbind at 1, M_bind at 1. rewrite E1. destruct r1 as [[]|e|]; [|by exists t1, (Err e)|done].
  rewrite (new_fee o Hwf). set (fee := [_]). rewrite (bind_eq _ _ _ fee (set_tok t1 s)) by done.
  destruct (Lock_shape (Sender o) fee Token.LockCoinsTypeFee (set_tok t1 s)) as (t2 & r2 & E2 & Hr2 & Hf2).
  rewrite set_tok_twice in E2. rewrite tok_set_tok in Hf2. rewrite Hf1 in Hf2.
  exists t2. unfold mbind, M_bind. rewrite E2. destruct r2 as [[]|e|]; [by exists (Ok fee)|by exists (Err e)|done].
Qed.

(** An order was written under a new id and put into the book. *)
Record places (h : Z) (o : Order) (s s' : OrderState) : Prop := {
  pl_order : ∃ o', orders s' = <[FormatOrderID h (GetBlockOrderNum h s + 1) := o']> (orders s) ∧
    level o' = level o ∧ Sender o' = Sender o ∧ RemainQuantity o' = RemainQuantity o;
  pl_inv : BookInv s';
  pl_sync : Sync s → Sync s';
  pl_price : price_ok s → price_ok s';
  pl_rest : rest s' = rest (set_blockNums (<[h := GetBlockOrderNum h s + 1]> (blockNums s)) s);
  pl_closed : closedOrderIDs (disk s') = closedOrderIDs (disk s);
  pl_open : ∀ o', orders s' !! FormatOrderID h (GetBlockOrderNum h s + 1) = Some o' → is_open o';
}.

Lemma rest_set_blockNums x s s' : rest s' = rest s → rest (set_blockNums x s') = rest (set_blockNums x s).
Proof. unfold rest. cbn. intros E. injection E. congruence. Qed.

Lemma set_tok_same t s : same s (set_tok t s).
Proof. by destruct s as [[]]. Qed.

Lemma money_wf_ext o o' : money_wf o → Product o' = Product o → FeePerBlock o' = FeePerBlock o →
  OrderExpireBlocks o' = OrderExpireBlocks o → money_wf o'.
Proof. intros [] Hp Hf He. split; by rewrite ?Hp, ?Hf, ?He. Qed.

Lemma order_wf_ext o o' : order_wf o → level o' = level o → RemainQuantity o' = RemainQuantity o →
  Quantity o' = Quantity o → FeePerBlock o' = FeePerBlock o → OrderExpireBlocks o' = OrderExpireBlocks o →
  order_wf o'.
Proof.
  intros [] Hl Hr Hq Hf He. injection Hl as E1 E2 E3.
  split; rewrite ?E1, ?E3, ?Hr, ?Hq; [done..|]. by apply (money_wf_ext o).
Qed.

Lemma runs_insert o s : BookInv s → order_wf o → is_open o → ¬ known s (OrderID o) →
  runs (SetOrder (OrderID o) o;; InsertOrderIntoDepthBook o) s (λ _ s',
    orders s' = <[OrderID o := o]> (orders s) ∧ BookInv s' ∧ kept s s' ∧
    closedOrderIDs (disk s') = closedOrderIDs (disk s)).
Proof.
  intros HI Hwf Hop Hk. apply runs_bind, runs_modify. set (s1 := set_orders _ s).
  destruct (insert_inv (orders s) (disk s) o) as (d & Ed & HI' & Hcl); [done..| |unfold known in Hk; tauto|].
  { apply eq_None_not_Some. unfold known in Hk. tauto. }
  unfold InsertOrderIntoDepthBook, update_disk. apply runs_bind, runs_get, runs_bind.
  eapply runs_lift; [exact Ed|]. apply runs_modify. split; [done|]. split; [done|]. split; [|done].
  trans s1; [apply SetOrder_kept|]. apply set_disk_kept; [by eapply insertOrder_prices|].
  intros. by eapply insertOrder_synced.
Qed.

Lemma Place_cases ctx o s : BookInv s → order_wf o → is_open o →
  ¬ known s (FormatOrderID (BlockHeight ctx) (GetBlockOrderNum (BlockHeight ctx) s + 1)) →
  runs (PlaceOrder ctx o) s (λ o' s', places (BlockHeight ctx) o s s' ∧
    OrderID o' = FormatOrderID (BlockHeight ctx) (GetBlockOrderNum (BlockHeight ctx) s + 1)) ∨
  ∃ e t, PlaceOrder ctx o s = (Err e, set_tok t s) ∧ Token.feeDetails t = Token.feeDetails (tok s).
Proof.
  intros HI Hwf Hop Hk. destruct (TryPlace_shape o s (wf_money _ Hwf)) as (t & [fee|e|] & E & Hr & Hf); [| |done].
  2:{ right. exists e, t. split; [|done]. unfold PlaceOrder, mbind, M_bind. by rewrite E. }
  left. unfold PlaceOrder. apply runs_bind. exists fee, (set_tok t s). split; [done|].
  pose proof (set_tok_same t s) as H1. set (s1 := set_tok t s) in *. clearbody s1.
  apply runs_bind, runs_detail. intros s2 H2. assert (same s s2) as H by (by trans s1). clear E H1 H2.
  destruct (rest_fields _ _ (same_rest _ _ H)) as (_ & _ & _ & Elast & Enum & _).
  assert (GetBlockOrderNum (BlockHeight ctx) s2 = GetBlockOrderNum (BlockHeight ctx) s) as En
    by (unfold GetBlockOrderNum; by rewrite Enum).
  apply runs_bind, runs_gets. rewrite En. apply runs_bind, runs_modify.
  set (o' := set_OrderID _ _). set (s3 := set_blockNums _ s2).
  assert (runs (SetOrder (OrderID o') o';; InsertOrderIntoDepthBook o') s3 (λ _ s',
    orders s' = <[OrderID o' := o']> (orders s3) ∧ BookInv s' ∧ kept s3 s' ∧
    closedOrderIDs (disk s') = closedOrderIDs (disk s3))) as Hrun.
  { apply runs_insert; [exact (same_inv s s2 H HI)|by apply (order_wf_ext o)|done|]. unfold known. cbn.
    rewrite Elast, (same_closed _ _ H), (same_orders _ _ H). exact Hk. }
  apply runs_assoc, runs_bind. eapply runs_mono; [exact Hrun|]. intros [] s4 (E1 & E2 & E3 & E4).
  apply runs_ret. split; [|done]. cbn in E1, E4. split.
  - exists o'. by rewrite E1, (same_orders _ _ H).
  - done.
  - intros Hs. apply E3. destruct (same_kept _ _ H) as [_ _ Hk']. exact (Hk' Hs).
  - intros Hs. apply E3. exact (same_price _ _ H Hs).
  - rewrite (kept_rest _ _ E3). unfold s3. rewrite Enum.
    apply rest_set_blockNums, (same_rest _ _ H).
  - rewrite E4. apply (same_closed _ _ H).
  - intros x. rewrite E1, lookup_insert_eq. by intros [= <-].
Qed.

(** ** Messages *)

Lemma same_OInv s s' : same s s' → OInv s → OInv s'.
Proof.
  intros Hs [H1 H2 H3 H4 H5 H6 H7 H8 H9].
  destruct (rest_fields _ _ (same_rest _ _ Hs)) as (Epairs & El & Epar & Elast & _ & Est).
  split; rewrite ?Epairs, ?Epar, ?Elast, ?El, ?Est, ?(same_orders _ _ Hs); try done.
  - by apply (same_inv s).
  - by apply (same_kept s).
  - by apply (same_price s).
Qed.

Lemma same_Fresh h k s s' : same s s' → Fresh h k s → Fresh h k s'.
Proof.
  intros Hs [H1 H2 H3]. destruct (rest_fields _ _ (same_rest _ _ Hs)) as (_ & _ & _ & Elast & Enum & _).
  assert (∀ h, GetBlockOrderNum h s' = GetBlockOrderNum h s) as En
    by (intros; unfold GetBlockOrderNum; by rewrite Enum).
  split; [|intros; rewrite En; auto..]. intros x Hx. rewrite En. apply H1. unfold known in *.
  by rewrite Elast, (same_closed _ _ Hs), (same_orders _ _ Hs) in Hx.
Qed.

Lemma Fresh_new h k s : 0 ≤ h < 2 ^ 63 → k + 1 < 2 ^ 63 → Fresh h k s →
  ¬ known s (FormatOrderID h (GetBlockOrderNum h s + 1)).
Proof.
  intros Hh Hk [H1 _ H3] (h' & n & E & Hh' & Hn & Hle)%H1.
  apply FormatOrderID_inj in E as [E1 E2]; lia.
Qed.

Lemma places_OInv h o s s' : OInv s → is_Some (Dex.pairs (dex s) !! Product o) →
  ¬ known s (FormatOrderID h (GetBlockOrderNum h s + 1)) → places h o s s' → OInv s'.
Proof.
  intros [H1 H2 H3 H4 H5 H6 H7 H8 H9] Hpr Hk [(o' & Eo & Hlv & _) HI Hs Hp Hr Hc _].
  destruct (rest_fields _ _ Hr) as (Epairs & El & Epar & Elast & _ & Est). cbn in Epairs, El, Epar, Elast, Est.
  assert (Product o' = Product o) as Epr by (by injection Hlv).
  split; rewrite ?Epairs, ?Epar, ?Elast, ?El, ?Est, ?Eo; auto.
  - intros x ox. rewrite lookup_insert. case_decide; [intros [= <-] _; by rewrite Epr|apply H5].
  - intros x ox Hx. rewrite lookup_insert. case_decide; [|by apply H7].
    subst x. destruct Hk. unfold known. auto.
Qed.

Lemma places_Fresh h k o s s' : 0 ≤ h < 2 ^ 63 → k + 1 < 2 ^ 63 →
  places h o s s' → Fresh h k s → Fresh h (k + 1) s'.
Proof.
  intros Hh Hk [(o' & Eo & _) _ _ _ Hr Hc _] [H1 H2 H3].
  destruct (rest_fields _ _ Hr) as (_ & _ & _ & Elast & Enum & _). cbn in Elast, Enum.
  assert (∀ h', GetBlockOrderNum h' s' = GetBlockOrderNum h' s + if decide (h' = h) then 1 else 0) as En.
  { intros h'. unfold GetBlockOrderNum at 1. rewrite Enum, lookup_insert. unfold GetBlockOrderNum.
    case_decide; case_decide; subst; cbn; try done; lia. }
  split.
  - intros x Hx. rewrite En, decide_True by done. unfold known in Hx. rewrite Eo, Elast, Hc, lookup_insert in Hx.
    case_decide as Ex; [subst x; eexists h, _; split; [done|]; lia|].
    destruct (H1 x Hx) as (h' & n & ? & ? & ? & Hle). exists h', n. split; [done|]. split; [done|].
    split; [done|]. intros. specialize (Hle ltac:(done)). lia.
  - intros h' Hh'. rewrite En, decide_False by lia. rewrite H2 by done. lia.
  - rewrite En, decide_True by done. lia.
Qed.

(** What ValidateBasic checks of an item. *)
Record item_wf (item : OrderItem) : Prop := {
  iw_side : valid_side (oiSide item);
  iw_price : 0 < oiPrice item;
  iw_quantity : 0 < oiQuantity item;
}.

Lemma validate_items_wf items : validate_items items = Ok tt → Forall item_wf items.
Proof.
  induction items as [|i items IH]; [done|]. cbn.
  destruct (_ =? 0)%nat; [done|]. destruct (Split _ _) as [|a [|b [|]]]; [done|done| |done].
  destruct (String.eqb a b); [done|].
  destruct (negb _ && negb _)%bool eqn:Es; [done|]. destruct (negb (_ && _))%bool eqn:Ep; [done|].
  intros H. constructor; [|auto]. clear H IH. dec_simp. dec_bool.
  split; [|done..]. rewrite !negb_false_iff, !String.eqb_eq in Es. done.
Qed.

Definition ratio_ok (ratio : string) : Prop := 0 ≤ Dec.MustNewDecFromStr ratio.

Lemma ratio_of_ok n : ratio_ok (ratio_of n).
Proof.
  unfold ratio_ok, ratio_of. pose proof Dec.Precision_ge. pose proof unit_pos.
  case_match; [rewrite Dec.lit_0_8|rewrite Dec.lit_1; lia].
  assert (0 < 10 ^ (Dec.Precision - 1)) by (apply Z.pow_pos_nonneg; lia). lia.
Qed.

Lemma getOrder_wf ctx msg ratio s : params_ok (oparams s) → ratio_ok ratio →
  valid_side (noSide msg) → 0 < noQuantity msg →
  ∃ o, getOrderFromMsg ctx msg ratio s = Ok o ∧ is_open o ∧ Sender o = noSender msg ∧
    Product o = noProduct msg ∧ (∀ tp, pair_wf (noProduct msg) tp → order_wf o).
Proof.
  intros [] Hr Hs Hq. unfold getOrderFromMsg.
  assert (0 ≤ Dec.Mul (Amount (pFeePerBlock (oparams s))) (Dec.MustNewDecFromStr ratio)) by (by apply Mul_nonneg).
  rewrite Coins.NewDecCoinFromDec_ok by done. eexists. split; [done|].
  set (o := NewOrder _ _ _ _ _ _ _ _ _).
  assert (is_open o ∧ Sender o = noSender msg ∧ Product o = noProduct msg ∧ Side o = noSide msg ∧
    RemainQuantity o = noQuantity msg ∧ Quantity o = noQuantity msg ∧
    OrderExpireBlocks o = pOrderExpireBlocks (oparams s) ∧
    FeePerBlock o = MkCoin (Denom (pFeePerBlock (oparams s)))
      (Dec.Mul (Amount (pFeePerBlock (oparams s))) (Dec.MustNewDecFromStr ratio)))
    as (Ho & Ese & Ep & Es & Er & Eq & Ee & Ef) by (unfold o, NewOrder; by case_decide).
  split; [done|]. split; [done|]. split; [done|]. intros tp [].
  split; [..|split]; rewrite ?Es, ?Ep, ?Er, ?Eq, ?Ee, ?Ef; done || (cbn; lia).
Qed.

Lemma discard_tok t s : Token.feeDetails t = Token.feeDetails (tok s) → discard s (set_tok t s) = s.
Proof. destruct s as [[[]]]. unfold tok, discard. intros H. cbn in *. rewrite H. done. Qed.
Lemma discard_self s : discard s s = s.
Proof. by destruct s as [[[]]]. Qed.

(** The outcome of one item: it is placed, or it is rejected and nothing happened. *)
Lemma runs_place_item ctx sender item ratio k s : OInv s → Fresh (BlockHeight ctx) k s →
  0 ≤ BlockHeight ctx < 2 ^ 63 → k + 1 < 2 ^ 63 → item_wf item → ratio_ok ratio →
  runs (place_item ctx sender item ratio) s (λ res s',
    match rError res with
    | Some _ => s' = s
    | None => ∃ o, places (BlockHeight ctx) o s s' ∧ Sender o = sender ∧ Product o = oiProduct item ∧
        is_Some (Dex.pairs (dex s) !! Product o) ∧ IsProductLocked (Product o) s = false ∧
        rOrderID res = FormatOrderID (BlockHeight ctx) (GetBlockOrderNum (BlockHeight ctx) s + 1)
    end).
Proof.
  intros HI HF Hh Hk [Hs Hp Hq] Hr. set (msg := MkMsgNewOrder sender (oiProduct item) (oiSide item) (oiPrice item) (oiQuantity item)).
  destruct (getOrder_wf ctx msg ratio s) as (o & Eo & Hop & Hse & Hpr & Hwf); [apply HI|done..|].
  unfold place_item, handleNewOrder. fold msg. unfold runs.
  rewrite (bind_eq _ _ _ s s) by done. rewrite Eo, (bind_eq _ _ _ o s) by done.
  assert (∃ r s', catch (lift (checkOrderNewMsg msg s);;
      throw_if (IsProductLocked (noProduct msg) s) OrderErr.ErrIsProductLocked;;
      PlaceOrder ctx o) s = (Ok r, s') ∧
    match r with
    | inr _ => discard s s' = s
    | inl o' => places (BlockHeight ctx) o s s' ∧ is_Some (Dex.pairs (dex s) !! Product o) ∧
        IsProductLocked (Product o) s = false ∧
        OrderID o' = FormatOrderID (BlockHeight ctx) (GetBlockOrderNum (BlockHeight ctx) s + 1)
    end) as (r & s' & E & Hcase).
  { destruct (checkOrderNewMsg msg s) as [[]|e|] eqn:Ec.
    - assert (is_Some (Dex.pairs (dex s) !! noProduct msg)) as [tp Htp].
      { revert Ec. unfold checkOrderNewMsg, Dex.GetTokenPair. by destruct (Dex.pairs _ !! _). }
      specialize (Hwf tp (o_pairs _ HI _ _ Htp)).
      destruct (IsProductLocked (noProduct msg) s) eqn:El.
      { eexists (inr _), s. split; [done|apply discard_self]. }
      destruct (Place_cases ctx o s) as [(o' & s' & E & Hpl & Hid)|(e & t & E & Hf)];
        [apply HI|done..|by apply (Fresh_new _ k)| |].
      + exists (inl o'), s'. split; [unfold catch; rewrite (bind_eq _ _ _ tt s), (bind_eq _ _ _ tt s) by done; by rewrite E|].
        rewrite Hpr. eauto.
      + exists (inr e), (set_tok t s). split; [|by apply discard_tok].
        unfold catch. rewrite (bind_eq _ _ _ tt s), (bind_eq _ _ _ tt s) by done. by rewrite E.
    - eexists (inr e), s. split; [done|apply discard_self].
    - exfalso. revert Ec. unfold checkOrderNewMsg, Dex.CheckTokenPairUnderDexDelist. by repeat case_match. }
  rewrite (bind_eq _ _ _ _ _ E). destruct r as [o'|e]; cbn; eexists _, _; (split; [done|]); cbn; [|done].
  exists o. rewrite Hpr in *. naive_solver.
Qed.

Lemma runs_place_items ctx sender ratio items idx R k s : OInv s → Fresh (BlockHeight ctx) k s →
  0 ≤ BlockHeight ctx < 2 ^ 63 → k + Z.of_nat (length items) < 2 ^ 63 →
  Forall item_wf items → ratio_ok ratio →
  runs (place_items ctx sender ratio idx items R) s (λ R' s',
    OInv s' ∧ Fresh (BlockHeight ctx) (k + Z.of_nat (length items)) s' ∧ R ⊆ R' ∧ (R' = ∅ → s' = s)).
Proof.
  intros HI HF Hh Hk Hit Hr. revert idx R k s HI HF Hk.
  induction Hit as [|item items Hi Hit IH]; intros idx R k s HI HF Hk; cbn [place_items length] in *.
  { apply runs_ret. rewrite Z.add_0_r. done. }
  apply runs_bind. eapply runs_mono; [apply (runs_place_item ctx sender item ratio k); (done || lia)|].
  intros res s1 Hres. cbn beta in *. destruct (rError res) as [e|] in Hres |- *.
  - subst s1. eapply runs_mono; [apply (IH (S idx) R (k + 1) s); [done| |lia]|].
    + destruct HF as [H1 H2 H3]. split; [done..|lia].
    + cbn beta. intros R' s'. by replace (k + 1 + Z.of_nat (length items)) with (k + Z.of_nat (S (length items))) by lia.
  - destruct Hres as (o & Hpl & Hse & Hpr & Hl & Hlk & Hid).
    eapply runs_mono; [apply (IH (S idx) ({[idx]} ∪ R) (k + 1) s1); [| |lia]|].
    + eapply places_OInv; [done|exact Hl|by apply (Fresh_new _ k); (done || lia)|done].
    + eapply places_Fresh; [done|lia|done|done].
    + cbn beta. intros R' s'. replace (k + 1 + Z.of_nat (length items)) with (k + Z.of_nat (S (length items))) by lia.
      intros (? & ? & Hsub & _). split; [done|]. split; [done|]. split; [set_solver|]. set_solver.
Qed.

Lemma runs_AddTx R s (Q : unit → OrderState → Prop) :
  (∀ s', same s s' → Q tt s') → runs (AddTxHandlerMsgResult R) s Q.
Proof.
  apply runs_calm; unfold AddTxHandlerMsgResult; [|by case_match].
  apply calm_if; [apply calm_modify_cache|apply calm_ret].
Qed.

(** A message with its result: it keeps the invariants, or it fails without a trace. *)
Definition safely (h k : Z) (m : MO unit) (s : OrderState) : Prop :=
  runs m s (λ _ s', OInv s' ∧ Fresh h k s') ∨ ∃ e, m s = (Err e, s).

Lemma safely_new ctx msg k s : OInv s → Fresh (BlockHeight ctx) k s → 0 ≤ BlockHeight ctx < 2 ^ 63 →
  k + 200 < 2 ^ 63 → MsgNewOrders_ValidateBasic msg = Ok tt →
  safely (BlockHeight ctx) (k + 200) (handleMsgNewOrders ctx msg) s.
Proof.
  intros HI HF Hh Hk Hv. unfold MsgNewOrders_ValidateBasic in Hv.
  destruct (Token.Empty _); [done|]. destruct (_ =? 0)%nat; [done|].
  destruct (Nat.ltb_spec OrderItemLimit (length (OrderItems msg))) as [|Hlen]; [done|].
  unfold OrderItemLimit in Hlen. apply validate_items_wf in Hv. unfold safely, handleMsgNewOrders.
  destruct (runs_place_items ctx (nosSender msg) (ratio_of (length (OrderItems msg))) (OrderItems msg) 0 ∅ k s)
    as (R & s1 & E & HI1 & HF1 & _ & Hno); [done..|lia|done|apply ratio_of_ok|].
  destruct (decide (R = ∅)) as [->|Hne].
  - right. exists OrderErr.ErrAllOrderFailedToExecute. rewrite Hno in E by done.
    rewrite (bind_eq _ _ _ _ _ E). by rewrite bool_decide_true by done.
  - left. apply runs_bind. exists R, s1. split; [done|]. rewrite bool_decide_false by done. apply runs_bind, runs_ret.
    apply runs_AddTx. intros s2 H2. split; [by apply (same_OInv s1)|]. apply (same_Fresh _ _ s1); [done|].
    destruct HF1 as [F1 F2 F3]. split; [done..|lia].
Qed.

(** *** Cancelling by message *)

(** [s'] is [s] with orders closed that satisfy [P]. *)
Record closes_only (P : string → Order → Prop) (h k : Z) (s s' : OrderState) : Prop := {
  co_inv : OInv s';
  co_fresh : Fresh h k s';
  co_rest : rest s' = rest s;
  co_orders : ∀ id, orders s' !! id = orders s !! id ∨
    ∃ o o', orders s !! id = Some o ∧ orders s' !! id = Some o' ∧ is_open o ∧ P id o ∧ closed_as o o';
}.

Lemma closes_only_refl P h k s : OInv s → Fresh h k s → closes_only P h k s s.
Proof. split; [done..|]. auto. Qed.

Lemma closes_only_step (P : string → Order → Prop) h k s s1 s2 id o : closes_only P h k s s1 →
  orders s1 !! id = Some o → is_open o → P id o → closes id o s1 s2 → closes_only P h k s s2.
Proof.
  intros [H1 H2 H3 H4] Ho Hop HP Hc. pose proof (closes_OInv _ _ _ _ H1 Ho Hc) as HI2.
  pose proof (closes_Fresh _ _ _ _ _ _ Ho Hc H2) as HF2. destruct Hc as [(o' & Eo & Hca) _ [Hr _ _] _].
  split; [done|done|congruence|]. intros x. rewrite Eo, lookup_insert. case_decide as Hx; [subst x|apply H4].
  right. destruct (H4 id) as [E|(o1 & o2 & E1 & E2 & E3 & E4 & (E5 & _))].
  - exists o, o'. by rewrite <-E.
  - rewrite Ho in E2. by simplify_eq.
Qed.

Definition cancellable (s : OrderState) (sender : AccAddress) (l : list string) (id : string) (o : Order) : Prop :=
  id ∈ l ∧ Sender o = sender ∧ IsProductLocked (Product o) s = false.

Lemma locked_rest pr s s' : rest s' = rest s → IsProductLocked pr s' = IsProductLocked pr s.
Proof.
  intros (_ & El & _)%rest_fields. unfold IsProductLocked, Dex.IsTokenPairLocked, Dex.getProductLock.
  by rewrite El.
Qed.

Lemma runs_handleCancel ctx sender id s : OInv s → runs (handleCancelOrder ctx sender id) s (λ res s',
  match rError res with
  | Some _ => s' = s
  | None => ∃ o, orders s !! id = Some o ∧ is_open o ∧ Sender o = sender ∧
      IsProductLocked (Product o) s = false ∧ closes id o s s'
  end).
Proof.
  intros HI. unfold handleCancelOrder. apply runs_bind, runs_get.
  unfold validateCancelOrder, GetOrder. cbn [coOrderID coSender].
  destruct (orders s !! id) as [o|] eqn:Eo; [|by apply runs_bind; eexists _, _; split; [done|]; apply runs_ret].
  destruct (Z.eqb_spec (Status o) OrderStatusOpen) as [Hop|Hop];
    [|by apply runs_bind; eexists _, _; split; [done|]; apply runs_ret]. cbn [negb].
  destruct (String.eqb_spec (Sender o) sender) as [Hse|Hse];
    [|by apply runs_bind; eexists _, _; split; [done|]; apply runs_ret]. cbn [negb].
  destruct (IsProductLocked (Product o) s) eqn:El;
    [by apply runs_bind; eexists _, _; split; [done|]; apply runs_ret|].
  apply runs_bind. exists (inl tt), s. split; [done|]. cbn beta iota.
  apply runs_bind. eapply runs_lift; [done|]. apply runs_bind.
  eapply runs_mono; [apply (runs_Cancel ctx id o); [apply HI|done|done]|]. intros f s' Hc. apply runs_ret.
  cbn. eauto 10.
Qed.

Lemma runs_cancel_ids ctx sender l ids0 idx R h k s0 s : ids0 ⊆ l →
  closes_only (cancellable s0 sender l) h k s0 s →
  runs (cancel_ids ctx sender idx ids0 R) s (λ R' s',
    closes_only (cancellable s0 sender l) h k s0 s' ∧ R ⊆ R' ∧ (R' = ∅ → s' = s)).
Proof.
  revert idx R s. induction ids0 as [|id ids0 IH]; intros idx R s Hl Hc; cbn [cancel_ids].
  { by apply runs_ret. }
  apply runs_bind. eapply runs_mono; [apply runs_handleCancel, Hc|]. intros res s1 Hres. cbn beta in *.
  destruct (rError res) as [e|] in Hres |- *.
  - subst s1. apply IH; [set_solver|done].
  - destruct Hres as (o & Ho & Hop & Hse & Hlk & Hcl). eapply runs_mono.
    + apply (IH (S idx) ({[idx]} ∪ R) s1); [set_solver|]. eapply closes_only_step; [done|done|done| |done].
      split; [set_solver|]. split; [done|]. rewrite <-(locked_rest _ s0 s); [done|apply Hc].
    + cbn beta. intros R' s' (H1 & H2 & _). split; [done|]. split; [set_solver|]. set_solver.
Qed.

Lemma cancel_cases ctx msg k s : OInv s → Fresh (BlockHeight ctx) k s →
  runs (handleMsgCancelOrders ctx msg) s (λ _,
    closes_only (cancellable s (cosSender msg) (OrderIDs msg)) (BlockHeight ctx) k s) ∨
  ∃ e, handleMsgCancelOrders ctx msg s = (Err e, s).
Proof.
  intros HI HF. unfold handleMsgCancelOrders.
  destruct (runs_cancel_ids ctx (cosSender msg) (OrderIDs msg) (OrderIDs msg) 0 ∅ (BlockHeight ctx) k s s)
    as (R & s1 & E & Hc & _ & Hno); [done|by apply closes_only_refl|].
  destruct (decide (R = ∅)) as [->|Hne].
  - right. exists OrderErr.ErrNoOrdersIsCanceled. rewrite Hno in E by done.
    rewrite (bind_eq _ _ _ _ _ E). by rewrite bool_decide_true by done.
  - left. apply runs_bind. exists R, s1. split; [done|]. rewrite bool_decide_false by done.
    apply runs_bind, runs_ret, runs_AddTx. intros s2 H2. destruct Hc as [H1 H3 H4 H5]. split.
    + by apply (same_OInv s1).
    + by apply (same_Fresh _ _ s1).
    + by rewrite (same_rest _ _ H2).
    + by rewrite (same_orders _ _ H2).
Qed.

(** A message of a transaction: its writes to the store are discarded when it fails. *)
Definition deliver (ctx : Context) (msg : Msg) (s : OrderState) : OrderState :=
  match NewOrderHandler ctx msg s with
  | (Ok _, s') => s'
  | (_, s') => discard s s'
  end.

Lemma deliver_ok ctx msg k s : OInv s → Fresh (BlockHeight ctx) k s → 0 ≤ BlockHeight ctx < 2 ^ 63 →
  k + 200 < 2 ^ 63 → ValidateBasic msg = Ok tt →
  OInv (deliver ctx msg s) ∧ Fresh (BlockHeight ctx) (k + 200) (deliver ctx msg s) ∧
  fst (NewOrderHandler ctx msg s) ≠ Panic.
Proof.
  intros HI HF Hh Hk Hv.
  assert (safely (BlockHeight ctx) (k + 200) (NewOrderHandler ctx msg) s) as Hs.
  { destruct msg as [m|m|]; cbn in *.
    - by apply safely_new.
    - destruct (cancel_cases ctx m k s) as [Hc|He]; [done..| |by right]. left. eapply runs_mono; [exact Hc|].
      intros u s' [H1 [F1 F2 F3] _ _]. split; [done|]. split; [done..|lia].
    - right. by eexists. }
  unfold deliver. destruct Hs as [(u & s' & -> & H1 & H2)|(e & ->)]; [done|].
  rewrite discard_self. split; [done|]. split; [|done]. destruct HF as [F1 F2 F3]. split; [done..|lia].
Qed.

End keeper.
End OrderSpec.
