(* ===== verification/OrderEngine.v ===== *)
(** * The matching engine keeps the order book and clears the auction

    Filling a level, a side and a product; expiring orders; the end of a block.  The
    runs of [OrderMatch] are shown to return (no index out of range, no missing order,
    no loop that runs out of its bound), to keep the invariant of [OrderSpec], and to
    execute the volume of the auction on both sides when the block's budget of deals is
    not used up. *)

From S2P Require Import Prelude Runs SdkDec SdkCoins GoStd CoinFacts CommonErrors Common TokenErrors Token OrderErrors OrderTypes DepthBook Match DexErrors Dex OrderKeeper OrderBook OrderMatch OrderSpec.

#[local] Open Scope Z_scope.

Module OrderEngine.
Import OrderKeeper OrderBook OrderMatch OrderSpec.

Section engine.
Context `{DO : Dec.Ops} `{DL : !Dec.Laws} `{CO : !Coins.Ops} `{CL : !Coins.Laws}
  `{BO : !Bank.Ops} `{BL : !Bank.Laws} `{TE : !Token.Env} `{DE : !Dex.Env}
  `{RT : GoRt} `{OE : OrderEnv}.

Abbreviation MO := (M OrderState) (only parsing).

(** ** Filling one order *)

(** [o'] is [o] with [q] more of it filled. *)
Record filled (q : Dec) (o o' : Order) : Prop := {
  fi_level : level o' = level o;
  fi_id : OrderID o' = OrderID o;
  fi_sender : Sender o' = Sender o;
  fi_remain : RemainQuantity o' = RemainQuantity o - q;
  fi_quantity : Quantity o' = Quantity o;
  fi_fee : FeePerBlock o' = FeePerBlock o;
  fi_expire : OrderExpireBlocks o' = OrderExpireBlocks o;
  fi_status : Status o' = if decide (q = RemainQuantity o) then OrderStatusFilled else OrderStatusOpen;
}.

Lemma Fill_ok p q o : is_open o → 0 < q ≤ RemainQuantity o → RemainQuantity o ≤ Quantity o →
  ∃ o', Fill p q o = Ok o' ∧ filled q o o'.
Proof.
  intros Hop Hq Hrq. unfold Fill. cbn -[Dec.Quo].
  destruct (Dec.Quo_spec (Dec.Add (Dec.Mul (FilledAvgPrice o) (Dec.Sub (Quantity o) (RemainQuantity o)))
    (Dec.Mul p q)) (Dec.Sub (Quantity o) (Dec.Sub (RemainQuantity o) q))) as (avg & -> & _); [dec_simp; lia|].
  cbn. eexists. split; [done|]. dec_simp.
  assert ((RemainQuantity o - q =? 0)%Z = bool_decide (q = RemainQuantity o)) as E.
  { destruct (Z.eqb_spec (RemainQuantity o - q) 0); case_bool_decide; lia || done. }
  destruct (decide (Side o = BuyOrder)); cbn; rewrite E; case_bool_decide; split; cbn;
    rewrite ?decide_True, ?decide_False by done; done.
Qed.

Lemma runs_DealFee o q fp s (Q : SysCoins → OrderState → Prop) : money_wf o →
  (∀ c s', same s s' → Q c s') → runs (GetDealFee o q fp) s Q.
Proof.
  intros Hwf HQ. destruct (symbol_ok o Hwf) as (a & b & Ea & Eb & Ha & Hb). unfold GetDealFee.
  assert (∀ sym x s1, same s s1 → Coins.ValidDenom sym = true →
    runs (c ← lift (or_panic (Coins.NewDecCoinFromDec sym
       (if Dec.GT x (Dec.MustNewDecFromStr minFee) then x else Dec.MustNewDecFromStr minFee))); mret [c]) s1 Q) as Hfin.
  { intros sym x s1 H1 Hsym. apply runs_bind.
    assert (0 ≤ if Dec.GT x (Dec.MustNewDecFromStr minFee) then x else Dec.MustNewDecFromStr minFee) as Hx.
    { unfold minFee. rewrite Dec.lit_minFee. pose proof Dec.Precision_ge.
      assert (0 < 10 ^ (Dec.Precision - 8)) by (apply Z.pow_pos_nonneg; lia).
      destruct (Dec.GT _ _) eqn:E; [dec_simp; dec_bool; lia|lia]. }
    eapply runs_lift; [by rewrite Coins.NewDecCoinFromDec_ok|]. by apply runs_ret, HQ. }
  apply runs_bind. eapply runs_lift; [exact Ea|]. apply runs_bind. case_decide.
  - apply runs_bind. eapply runs_lift; [exact Eb|]. apply runs_bind, runs_GetLastPrice. intros x s1 H1.
    apply runs_ret. by apply Hfin.
  - apply runs_ret. by apply Hfin.
Qed.

Lemma filled_money q o o' : money_wf o → filled q o o' → money_wf o'.
Proof. intros Hm []. injection fi_level0 as E1 E2 E3. by apply (money_wf_ext o). Qed.

Lemma filled_wf q o o' : order_wf o → 0 < q < RemainQuantity o → filled q o o' → order_wf o'.
Proof.
  intros [] Hq Hf. pose proof (filled_money q o o' wf_money0 Hf). destruct Hf.
  injection fi_level0 as E1 E2 E3. split; rewrite ?E1, ?E3, ?fi_remain0, ?fi_quantity0; done || lia.
Qed.

(** [o'] differs from [o] in what the fees record only. *)
Definition recorded (o o' : Order) : Prop := ∃ x l, o' = set_ExtraInfo x (set_RemainLocked l o).

Lemma recorded_filled q o o1 o2 : filled q o o1 → recorded o1 o2 → filled q o o2.
Proof. intros [] (x & l & ->). split; done. Qed.

Lemma recorded_trans o1 o2 o3 : recorded o1 o2 → recorded o2 o3 → recorded o1 o3.
Proof. intros (x & l & ->) (x' & l' & ->). by exists x', l'. Qed.
Lemma recorded_extra o x : recorded o (set_ExtraInfo x o).
Proof. exists x, (RemainLocked o). by destruct o. Qed.

Lemma recorded_money o o' : money_wf o → recorded o o' → money_wf o'.
Proof. intros Hm (x & l & ->). by apply (money_wf_ext o). Qed.

Lemma runs_chargeFee ctx o q fp s : money_wf o →
  runs (chargeFee ctx o q fp) s (λ r s', recorded o (fst (fst r)) ∧ same s s').
Proof.
  intros Hm. unfold chargeFee. apply runs_bind.
  apply (runs_mono _ _ (λ r s', recorded o (fst r) ∧ same s s')).
  { case_match; [|apply runs_ret; split; [|done]; exists (ExtraInfo o), (RemainLocked o); by destruct o].
    destruct (fees_settle o ctx Hm) as (locked & cost & receive & E1 & E2 & E3 & _). unfold settle_fee.
    apply runs_bind. eapply runs_lift; [exact E1|]. apply runs_bind. eapply runs_lift; [exact E2|].
    apply runs_bind. eapply runs_lift; [by rewrite E3|]. apply runs_bind, runs_Unlock. intros s1 H1.
    apply runs_bind, runs_detail. intros s2 H2. apply runs_bind, runs_swallow; [apply calm_collect|].
    intros s3 H3. apply runs_ret. split; [apply recorded_extra|]. trans s1; [done|]. by trans s2. }
  intros [o1 fee] s1 [Hrec H1]. cbn [fst] in Hrec. apply runs_bind, runs_DealFee; [by apply (recorded_money o)|].
  intros c s2 H2. apply runs_bind, runs_catch; [apply calm_SendFees|]. intros r s3 H3. apply runs_ret.
  split; [|trans s1; [done|]; by trans s2]. destruct r; cbn; [|done].
  apply (recorded_trans _ o1); [done|]. unfold RecordOrderDealFee. case_decide; [apply recorded_extra|].
  case_match; [apply recorded_extra|]. exists (ExtraInfo o1), (RemainLocked o1). by destruct o1.
Qed.

(** *** One order of a level *)

Record fills (q : Dec) (id : string) (o : Order) (s s' : OrderState) : Prop := {
  fs_order : ∃ o', orders s' = <[id := o']> (orders s) ∧ filled q o o';
  fs_rest : rest s' = rest s;
  fs_price : price_ok s → price_ok s';
  fs_disk : dcore s' = if decide (q = RemainQuantity o) then closeOrder id (dcore s) else dcore s;
}.

Lemma runs_Update o s (Q : unit → OrderState → Prop) :
  (∀ s', orders s' = <[OrderID o := o]> (orders s) → rest s' = rest s → (price_ok s → price_ok s') →
     dcore s' = (if (Status o =? OrderStatusFilled)%Z then closeOrder (OrderID o) (dcore s) else dcore s) → Q tt s') →
  runs (UpdateOrder o) s Q.
Proof.
  intros HQ. unfold UpdateOrder. apply runs_bind, runs_modify. apply runs_bind, runs_addUpdated. intros s1 H1.
  case_match.
  - apply runs_bind, runs_modify, runs_modify_cache. intros s2 H2. apply HQ.
    + rewrite (same_orders _ _ H2). apply (same_orders _ _ H1).
    + rewrite (same_rest _ _ H2). apply (same_rest _ _ H1).
    + intros Hp. apply (same_price _ _ H2). apply (same_price _ _ H1). apply Hp.
    + rewrite (same_disk _ _ H2). pose proof (same_disk _ _ H1) as E. unfold dcore in *. cbn in *.
      change (set_priceMap ∅ (closeOrder (OrderID o) (disk s1))) with (closeOrder (OrderID o) (set_priceMap ∅ (disk s1))).
      by rewrite E.
  - apply runs_modify_cache. intros s2 H2. apply HQ.
    + rewrite (same_orders _ _ H2). apply (same_orders _ _ H1).
    + rewrite (same_rest _ _ H2). apply (same_rest _ _ H1).
    + intros Hp. apply (same_price _ _ H2). apply (same_price _ _ H1). apply Hp.
    + rewrite (same_disk _ _ H2). apply (same_disk _ _ H1).
Qed.

Lemma runs_balance o p q s (Q : unit → OrderState → Prop) : money_wf o →
  (∀ s', same s s' → Q tt s') → runs (balanceAccount o p q) s Q.
Proof.
  intros Hm HQ. destruct (symbol_ok o Hm) as (a & b & Ea & Eb & _). unfold balanceAccount.
  apply runs_bind. eapply runs_lift; [exact Eb|]. apply runs_bind. eapply runs_lift; [exact Ea|].
  case_decide; by apply runs_Balance.
Qed.

(** What a filled order still had locked is given back. *)
Lemma runs_unlock_rest o s : money_wf o →
  runs (if ((Status o =? OrderStatusFilled)%Z && Dec.IsPositive (RemainLocked o))%bool then
          needUnlockCoins ← lift (NeedUnlockCoins o);
          UnlockCoins (Sender o) needUnlockCoins Token.LockCoinsTypeQuantity;;
          mret (Unlock o)
        else mret o) s (λ o' s', recorded o o' ∧ same s s').
Proof.
  intros Hm. destruct (symbol_ok o Hm) as (a & b & Ea & Eb & _).
  case_match; [|apply runs_ret; split; [exists (ExtraInfo o), (RemainLocked o); by destruct o|done]].
  assert (∃ c, NeedUnlockCoins o = Ok c) as [c Ec]
    by (unfold NeedUnlockCoins; rewrite Ea, Eb; case_decide; by eexists).
  apply runs_bind. eapply runs_lift; [exact Ec|]. apply runs_bind, runs_Unlock. intros s' Hs. apply runs_ret.
  split; [exists (ExtraInfo o), Dec.ZeroDec; by destruct o|done].
Qed.

Lemma runs_fillOrder ctx id o p q fp s : order_wf o → is_open o → OrderID o = id → 0 < q ≤ RemainQuantity o →
  runs (fillOrder ctx o p q fp) s (λ deal s', fills q id o s s' ∧
    dOrderID deal = id ∧ dSide deal = Side o ∧ dQuantity deal = q).
Proof.
  intros Hwf Hop Hid Hq. destruct (Fill_ok p q o) as (o1 & E1 & Hf1); [done|done|apply Hwf|].
  pose proof (filled_money q o o1 (wf_money _ Hwf) Hf1) as Hm. unfold fillOrder. apply runs_bind.
  eapply runs_lift; [exact E1|]. apply runs_bind, runs_balance; [done|]. intros s1 H1. apply runs_bind.
  eapply runs_mono; [by apply runs_unlock_rest|]. intros o2 s2 [Hr2 H2]. cbn beta. apply runs_bind.
  eapply runs_mono; [apply runs_chargeFee; by apply (recorded_money o1)|].
  intros [[o3 fee] to] s3 [Hr3 H3]. cbn [fst] in Hr3. apply runs_bind, runs_Update.
  assert (filled q o o3) as Hf3 by (apply (recorded_filled q o o1); [done|]; by apply (recorded_trans _ o2)).
  assert (same s s3) as H by (trans s1; [done|]; by trans s2).
  intros s4 G1 G2 G3 G4. apply runs_ret. cbn. pose proof (fi_id _ _ _ Hf3) as Ei. rewrite Hid in Ei.
  rewrite Ei in *. pose proof (fi_level _ _ _ Hf3) as El. injection El as _ _ Es. split; [split|done].
  - exists o3. by rewrite G1, (same_orders _ _ H).
  - by rewrite G2, (same_rest _ _ H).
  - intros. by apply G3, (same_price _ _ H).
  - rewrite G4, (same_disk _ _ H), (fi_status _ _ _ Hf3). by case_decide.
Qed.

(** ** The orders of one level *)

Definition level_open (lv : string * Dec * string) (l : list string) (s : OrderState) : Prop :=
  ∀ id, id ∈ l → ∃ o, orders s !! id = Some o ∧ is_open o ∧ level o = lv ∧ OrderID o = id ∧ order_wf o.

Definition close_all (l : list string) (d : DiskCache) : DiskCache := foldl (λ d id, closeOrder id d) d l.

(** [x] of the orders [l] of a level was filled: the first ones completely, [tl] is left. *)
Record fill_result (lv : string * Dec * string) (l tl : list string) (x : Z) (s s' : OrderState) : Prop := {
  fr_done : ∃ pre, l = pre ++ tl ∧ dcore s' = close_all pre (dcore s) ∧
    ∀ id, id ∈ pre → ∃ o, orders s' !! id = Some o ∧ ¬ is_open o ∧ level o = lv ∧ OrderID o = id;
  fr_open : level_open lv tl s';
  fr_other : ∀ id, id ∉ l → orders s' !! id = orders s !! id;
  fr_sum : zsum (remain (orders s') <$> tl) = zsum (remain (orders s) <$> l) - x;
  fr_rest : rest s' = rest s;
  fr_price : price_ok s → price_ok s';
}.

(** The quantity of one side in a list of deals. *)
Definition volume (sd : string) (deals : list Deal) : Z :=
  zsum ((λ d, if decide (dSide d = sd) then dQuantity d else 0) <$> deals).

Lemma volume_app sd a b : volume sd (a ++ b) = volume sd a + volume sd b.
Proof. unfold volume. by rewrite fmap_app, zsum_app. Qed.
Lemma volume_one sd d : volume sd [d] = if decide (dSide d = sd) then dQuantity d else 0.
Proof. unfold volume. cbn. unfold zsum. cbn. lia. Qed.

(** [x] was added to the deals, all of it on the side [sd]. *)
Definition adds (sd : string) (x : Z) (deals deals' : list Deal) : Prop :=
  ∀ sd', volume sd' deals' = volume sd' deals + if decide (sd' = sd) then x else 0.

Lemma adds_zero sd l : adds sd 0 l l.
Proof. intros sd'. case_decide; lia. Qed.
Lemma adds_trans sd x y l1 l2 l3 : adds sd x l1 l2 → adds sd y l2 l3 → adds sd (x + y) l1 l3.
Proof. intros H1 H2 sd'. rewrite H2, H1. case_decide; lia. Qed.
Lemma adds_one sd x l d : dSide d = sd → dQuantity d = x → adds sd x l (l ++ [d]).
Proof. intros <- <- sd'. rewrite volume_app, volume_one. repeat case_decide; congruence || lia. Qed.
Lemma adds_app sd x l l' : adds sd x [] l' → adds sd x l (l ++ l').
Proof. intros H sd'. rewrite volume_app, H. change (volume sd' []) with 0. lia. Qed.

Lemma fill_result_nil lv l s : level_open lv l s → fill_result lv l l 0 s s.
Proof.
  intros Hl. split; try done; [|lia]. exists []. split; [done|]. split; [done|]. by intros ? ?%not_elem_of_nil.
Qed.

(** The head of the ids is filled completely, then the others. *)
Lemma fill_result_cons lv id l tl x o s s1 s' : id ∉ l → level o = lv →
  orders s !! id = Some o → fills (RemainQuantity o) id o s s1 → OrderID o = id →
  fill_result lv l tl x s1 s' → fill_result lv (id :: l) tl (RemainQuantity o + x) s s'.
Proof.
  intros Hid Hlv Ho [(o' & Eo & Hf) Hr Hp Hd] Hoid [(pre & -> & Hd' & Hpre) Hopen Hoth Hsum Hr' Hp'].
  rewrite decide_True in Hd by done. split.
  - exists (id :: pre). split; [done|]. split; [by rewrite Hd', Hd|]. intros x0 [->|Hx]%elem_of_cons; [|auto].
    exists o'. rewrite Hoth, Eo, lookup_insert_eq by done. destruct Hf. split; [done|].
    split; [|by rewrite fi_level0, fi_id0]. unfold is_open. rewrite fi_status0, decide_True by done. done.
  - done.
  - intros x0 [Hx1 Hx2]%not_elem_of_cons. by rewrite Hoth, Eo, lookup_insert_ne.
  - rewrite Hsum, Eo, fmap_cons, zsum_cons.
    assert (remain (orders s) id = RemainQuantity o) as -> by (unfold remain; by rewrite Ho).
    rewrite (zsum_remain (orders s) (<[id := o']> (orders s))); [lia|].
    intros y Hy. apply remain_insert_ne. by intros ->.
  - congruence.
  - auto.
Qed.

(** The head of the ids is filled in part. *)
Lemma fill_result_part lv id l x o s s' : id ∉ l → level o = lv → order_wf o → OrderID o = id →
  orders s !! id = Some o → 0 < x < RemainQuantity o → fills x id o s s' →
  level_open lv l s → fill_result lv (id :: l) (id :: l) x s s'.
Proof.
  intros Hid Hlv Hwf Hoid Ho Hx [(o' & Eo & Hf) Hr Hp Hd] Hl. rewrite decide_False in Hd by lia. split.
  - exists []. split; [done|]. split; [done|]. by intros ? ?%not_elem_of_nil.
  - intros y [->|Hy]%elem_of_cons.
    + exists o'. rewrite Eo, lookup_insert_eq. pose proof (filled_wf x o o' Hwf Hx Hf). destruct Hf.
      split; [done|]. split; [unfold is_open; rewrite fi_status0, decide_False by lia; done|].
      split; [congruence|]. split; [congruence|done].
    + destruct (Hl y Hy) as (oy & ? & ?). exists oy. rewrite Eo, lookup_insert_ne by (intros ->; done). done.
  - intros y Hy. rewrite Eo, lookup_insert_ne; [done|]. intros ->. apply Hy, list_elem_of_here.
  - rewrite !fmap_cons, !zsum_cons, Eo, remain_insert_eq.
    assert (remain (orders s) id = RemainQuantity o) as -> by (unfold remain; by rewrite Ho).
    rewrite (fi_remain _ _ _ Hf), (zsum_remain (orders s) (<[id := o']> (orders s))); [lia|].
    intros y Hy. apply remain_insert_ne. by intros ->.
  - done.
  - done.
Qed.

Lemma level_open_fills lv id l q o s s' : id ∉ l → fills q id o s s' → level_open lv l s → level_open lv l s'.
Proof.
  intros Hid [(o' & Eo & _) _ _ _] Hl x Hx. destruct (Hl x Hx) as (ox & ? & ?). exists ox.
  rewrite Eo, lookup_insert_ne by (intros ->; done). done.
Qed.

Lemma zsum_fills id l q o s s' : id ∉ l → fills q id o s s' →
  zsum (remain (orders s') <$> l) = zsum (remain (orders s) <$> l).
Proof.
  intros Hid [(o' & Eo & _) _ _ _]. apply zsum_remain. intros x Hx. rewrite Eo. apply remain_insert_ne. by intros ->.
Qed.

Lemma runs_fill_ids ctx pr pc sd l need p fp budget deals amount cnt s : NoDup l → level_open (pr, pc, sd) l s →
  0 ≤ amount ≤ need → need - amount ≤ zsum (remain (orders s) <$> l) →
  runs (fill_ids ctx l need p fp budget deals amount cnt) s (λ '(deals', amount', cnt', tl) s',
    amount ≤ amount' ≤ need ∧ (cnt' < budget → amount' = need) ∧
    adds sd (amount' - amount) deals deals' ∧ fill_result (pr, pc, sd) l tl (amount' - amount) s s').
Proof.
  set (lv := (pr, pc, sd)). intros Hnd Hl Ham Hneed. revert deals amount cnt s Hl Ham Hneed.
  induction l as [|id l IH]; intros deals amount cnt s Hl Ham Hneed; cbn [fill_ids]; dec_simp.
  { destruct (Z.ltb_spec amount need) as [Hlt|]; [cbn in Hneed; lia|]. rewrite andb_false_r.
    apply runs_ret. rewrite Z.sub_diag. split; [lia|]. split; [lia|]. split; [apply adds_zero|].
    by apply fill_result_nil. }
  apply NoDup_cons in Hnd as [Hid Hnd].
  destruct ((cnt <? budget)%Z && (amount <? need)%Z)%bool eqn:Ec.
  2:{ apply runs_ret. rewrite Z.sub_diag. split; [lia|].
      split; [|split; [apply adds_zero|by apply fill_result_nil]].
      intros. apply andb_false_iff in Ec as [?%Z.ltb_ge|?%Z.ltb_ge]; lia. }
  apply andb_true_iff in Ec as [_ Hlt%Z.ltb_lt].
  destruct (Hl id) as (o & Ho & Hop & Hlv & Hoid & Hwf); [apply list_elem_of_here|].
  assert (Side o = sd) as Hsd by (by injection Hlv).
  apply runs_bind, runs_gets, runs_bind. eapply runs_lift; [unfold GetOrder; by rewrite Ho|].
  pose proof (wf_remain o Hwf) as Hrem.
  assert (level_open lv l s) as Hl' by (intros x Hx; apply Hl; by apply list_elem_of_further).
  rewrite fmap_cons, zsum_cons in Hneed.
  assert (remain (orders s) id = RemainQuantity o) as Er by (unfold remain; by rewrite Ho). rewrite Er in Hneed.
  dec_simp. destruct (Z.leb_spec (amount + RemainQuantity o) need) as [Hle|Hgt]; apply runs_bind.
  - eapply runs_mono; [apply (runs_fillOrder ctx id o p (RemainQuantity o)); [done..|lia]|].
    intros deal s1 (Hfs & _ & Hds & Hdq). cbn beta. eapply runs_mono.
    + apply (IH Hnd (deals ++ [deal]) (amount + RemainQuantity o) (cnt + 1) s1);
        [by eapply level_open_fills|lia|rewrite (zsum_fills id l _ o s s1) by done; lia].
    + intros [[[deals' amount'] cnt'] tl] s' (H1 & H2 & H3 & H4). split; [lia|]. split; [done|].
      replace (amount' - amount) with (RemainQuantity o + (amount' - (amount + RemainQuantity o))) by lia.
      split; [|by eapply fill_result_cons]. eapply adds_trans; [|done]. apply adds_one; [by rewrite Hds|done].
  - eapply runs_mono; [apply (runs_fillOrder ctx id o p (need - amount)); [done..|lia]|].
    intros deal s1 (Hfs & _ & Hds & Hdq). apply runs_ret. split; [lia|]. split; [done|].
    split; [apply adds_one; [by rewrite Hds|done]|]. eapply fill_result_part; [done..|lia|done|done].
Qed.

Lemma close_all_fields l d : bookData (close_all l d) = bookData d ∧ idsData (close_all l d) = idsData d ∧
  bookUpdated (close_all l d) = bookUpdated d ∧ idsUpdated (close_all l d) = idsUpdated d ∧
  closedOrderIDs (close_all l d) = closedOrderIDs d ++ l.
Proof.
  revert d. induction l as [|id l IH]; intros d; [cbn; by rewrite app_nil_r|].
  change (close_all (id :: l) d) with (close_all l (closeOrder id d)).
  destruct (IH (closeOrder id d)) as (-> & -> & -> & -> & ->). cbn. by rewrite <-app_assoc.
Qed.

Lemma fill_result_disk lv l tl x s s' : fill_result lv l tl x s s' →
  bookData (disk s') = bookData (disk s) ∧ idsData (disk s') = idsData (disk s) ∧
  (Sync s → Sync s') ∧ ∃ pre, l = pre ++ tl ∧ closedOrderIDs (disk s') = closedOrderIDs (disk s) ++ pre.
Proof.
  intros [(pre & El & Ed & _) _ _ _ Hr _]. destruct (close_all_fields pre (dcore s)) as (E1 & E2 & E3 & E4 & E5).
  rewrite <-Ed in E1, E2, E3, E4, E5. split; [exact E1|]. split; [exact E2|]. split; [|by exists pre].
  unfold Sync. destruct (rest_stores _ _ Hr) as [-> ->]. by apply Synced_ext.
Qed.

(** Orders stay at their level, none is opened, and only known ones are closed. *)
Record works (s s' : OrderState) : Prop := {
  wk_kept : kept s s';
  wk_orders : ∀ id o', orders s' !! id = Some o' → ∃ o, orders s !! id = Some o ∧ level o = level o' ∧
    (is_open o' → is_open o);
  wk_closed : ∀ id, id ∈ closedOrderIDs (disk s') →
    id ∈ closedOrderIDs (disk s) ∨ is_Some (orders s !! id);
}.

#[global] Instance works_preorder : PreOrder works.
Proof.
  split; [split; [done|eauto|auto]|]. intros s1 s2 s3 [K1 O1 C1] [K2 O2 C2]. split; [by trans s2|..].
  - intros id o3 H3. destruct (O2 id o3 H3) as (o2 & H2 & E2 & P2). destruct (O1 id o2 H2) as (o1 & H1 & E1 & P1).
    exists o1. split; [done|]. split; [congruence|auto].
  - intros id [Hid|[o2 H2]]%C2; [by apply C1|]. destruct (O1 id o2 H2) as (o1 & -> & _). eauto.
Qed.

Lemma set_disk_works d s : kept s (set_disk d s) → closedOrderIDs d = closedOrderIDs (disk s) →
  works s (set_disk d s).
Proof. intros Hk E. split; [done|cbn; eauto|cbn]. rewrite E. auto. Qed.

Lemma fill_result_works lv l tl x s s' : lists (orders s) lv l → fill_result lv l tl x s s' → works s s'.
Proof.
  intros [Hnd Hin] Hfr. destruct (fill_result_disk _ _ _ _ _ _ Hfr) as (_ & _ & Hs & pre & Epre & Ecl).
  destruct Hfr as [(pre' & Ep' & _ & Hpre) Hopen Hoth _ Hr Hp]. split.
  - by split.
  - intros id o' Ho'. destruct (decide (id ∈ l)) as [Hid|Hid].
    + apply Hin in Hid as Hid'. destruct Hid' as (o & Ho & Hop & Hlv). exists o. split; [done|]. split; [|done].
      rewrite Ep', elem_of_app in Hid. destruct Hid as [Hid|Hid].
      * destruct (Hpre id Hid) as (o1 & ? & _ & ? & _). congruence.
      * destruct (Hopen id Hid) as (o1 & ? & _ & ? & _). congruence.
    + rewrite Hoth in Ho' by done. eauto.
  - intros id. rewrite Ecl, elem_of_app. intros [?|Hid]; [by left|right].
    assert (id ∈ l) as (o & Ho & _)%Hin by (rewrite Epre, elem_of_app; by left). eauto.
Qed.

(** The invariant when the book of a product is the copy that a loop works on. *)
Definition with_book (pr : string) (book : DepthBook) (d : DiskCache) : DiskCache :=
  set_bookData (<[pr := book]> (bookData d)) d.
Definition LInv (pr : string) (book : DepthBook) (s : OrderState) : Prop :=
  Inv (orders s) (with_book pr book (disk s)).

Lemma bk_with_book pr book d pr' : bk pr' (with_book pr book d) = if decide (pr' = pr) then book else bk pr' d.
Proof. unfold bk, with_book. cbn. rewrite lookup_insert. by repeat case_decide. Qed.

Lemma LInv_book pr book s : LInv pr book s → book_ok book.
Proof. intros HI. pose proof (inv_book _ _ HI pr) as H. by rewrite bk_with_book, decide_True in H. Qed.

(** The ids of a level in the cache are its open orders, and their sum its quantity. *)
Lemma LInv_level pr sd book i it s : good_name pr → valid_side sd → LInv pr book s → book !! i = Some it →
  lists (orders s) (pr, iPrice it, sd) (ids pr (iPrice it) sd (disk s)) ∧
  level_open (pr, iPrice it, sd) (ids pr (iPrice it) sd (disk s)) s ∧
  zsum (remain (orders s) <$> ids pr (iPrice it) sd (disk s)) = side_qty sd it.
Proof.
  intros Hpr Hsd HI Hi. pose proof (LInv_book _ _ _ HI) as Hb.
  destruct (list_elem_of_split_length book i it Hi) as (l1 & l2 & Ebook & _).
  pose proof (inv_qty _ _ HI pr (iPrice it) sd Hpr Hsd) as Hq. rewrite bk_with_book, decide_True in Hq by done.
  pose proof (inv_ids _ _ HI pr (iPrice it) sd Hpr Hsd) as Hl.
  change (ids pr (iPrice it) sd (with_book pr book (disk s))) with (ids pr (iPrice it) sd (disk s)) in *.
  split; [done|]. split.
  - intros id (o & Ho & Hop & Hlv)%Hl. exists o. split; [done|]. split; [done|]. split; [done|].
    split; [by apply (inv_id _ _ HI)|by apply (inv_wf _ _ HI id)].
  - rewrite <-Hq, Ebook. apply book_qty_middle. by rewrite <-Ebook.
Qed.

Lemma fill_result_lists lv l tl x s s' : lists (orders s) lv l → fill_result lv l tl x s s' →
  lists (orders s') lv tl.
Proof.
  intros [Hnd Hin] [(pre & -> & _ & Hpre) Hopen Hoth _ _ _]. apply NoDup_app in Hnd as (_ & _ & Hnd).
  split; [done|]. intros id. split.
  - intros Hid. destruct (Hopen id Hid) as (o & ? & ? & ? & _). by exists o.
  - intros (o & Ho & Hop & Hlv). destruct (decide (id ∈ pre ++ tl)) as [Hid|Hid].
    + apply elem_of_app in Hid as [Hid|]; [|done]. destruct (Hpre id Hid) as (o' & Ho' & Hn & _).
      rewrite Ho' in Ho. by simplify_eq.
    + rewrite Hoth in Ho by done. destruct Hid. apply Hin. by exists o.
Qed.

Lemma fill_result_stays lv l tl x s s' id : lists (orders s) lv l → fill_result lv l tl x s s' →
  stays lv (orders s) (orders s') id.
Proof.
  intros [_ Hin] [(pre & -> & _ & Hpre) Hopen Hoth _ _ _].
  destruct (decide (id ∈ pre ++ tl)) as [Hid|Hid]; [|left; by apply Hoth]. right.
  split; [intros o Ho; apply Hin in Hid as (o' & Ho' & _ & Hlv); congruence|].
  apply elem_of_app in Hid as [Hid|Hid].
  - destruct (Hpre id Hid) as (o & ? & ? & ? & ?). by exists o.
  - destruct (Hopen id Hid) as (o & ? & ? & ? & ? & ?). by exists o.
Qed.

(** No order that was closed, before or by the fill, is open. *)
Lemma fill_result_closed lv l tl x s s' id o : fill_result lv l tl x s s' → lists (orders s) lv l →
  (∀ id o, id ∈ closedOrderIDs (disk s) → orders s !! id = Some o → ¬ is_open o) →
  id ∈ closedOrderIDs (disk s') → orders s' !! id = Some o → ¬ is_open o.
Proof.
  intros Hfr [_ Hin] Hcl Hid Ho Hop. destruct (fill_result_disk _ _ _ _ _ _ Hfr) as (_ & _ & _ & pre & Epre & E).
  rewrite E, elem_of_app in Hid. destruct Hfr as [(pre' & Ep' & _ & Hpre) _ Hoth _ _ _].
  assert (pre' = pre) as -> by (rewrite Epre in Ep'; by apply app_inv_tail in Ep').
  destruct (decide (id ∈ pre)) as [Hp|Hp].
  { destruct (Hpre id Hp) as (o' & Ho' & Hn & _). rewrite Ho' in Ho. by simplify_eq. }
  destruct Hid as [Hid|]; [|done]. destruct (decide (id ∈ l)) as [Hl|Hl].
  - apply Hin in Hl as (o' & Ho' & Hop' & _). by apply (Hcl id o').
  - rewrite Hoth in Ho by done. by apply (Hcl id o).
Qed.

Lemma fill_level pr sd book i it tl amount s s1 b2 :
  good_name pr → valid_side sd → LInv pr book s → book !! i = Some it →
  fill_result (pr, iPrice it, sd) (ids pr (iPrice it) sd (disk s)) tl amount s s1 → book_ok b2 →
  (∀ sd' p', valid_side sd' → book_qty sd' p' b2 =
     book_qty sd' p' book - if decide (p' = iPrice it ∧ sd' = sd) then amount else 0) →
  LInv pr b2 (set_disk (setOrderIDs (FormatOrderIDsKey pr (iPrice it) sd) tl (disk s1)) s1).
Proof.
  intros Hpr Hsd HI Hi Hfr Hb2 Hq2. destruct (LInv_level pr sd book i it s) as (Hl & _ & Hsum); [done..|].
  destruct (fill_result_disk _ _ _ _ _ _ Hfr) as (D1 & D2 & _ & _).
  apply (inv_level (orders s) (with_book pr book (disk s)) _ _ pr (iPrice it) sd b2 tl); try done.
  - intros pr'. rewrite !bk_with_book. case_decide; [done|]. unfold bk. destruct tl; cbn; by rewrite D1.
  - intros k. unfold getOrderIDs.
    destruct tl; cbn; rewrite ?lookup_delete, ?lookup_insert, D2; repeat case_decide; congruence || done.
  - intros id. by apply (fill_result_stays _ _ _ _ _ _ id Hl Hfr).
  - by apply (fill_result_lists _ _ _ _ _ _ Hl Hfr).
  - intros sd' p' Hs'. rewrite Hq2 by done. rewrite bk_with_book. destruct (decide (pr = pr)) as [_|[]]; [|done].
    case_decide as Hd; [|lia]. destruct Hd as [-> ->]. pose proof (inv_qty _ _ HI pr (iPrice it) sd Hpr Hsd) as Hq.
    rewrite bk_with_book, decide_True in Hq by done. cbn. rewrite (fr_sum _ _ _ _ _ _ Hfr), Hq. done.
  - intros id o Hid. apply (fill_result_closed _ _ _ _ _ _ id o Hfr Hl); [apply (inv_closed _ _ HI)|].
    revert Hid. cbn. by destruct tl.
Qed.

Lemma runs_fillOrderByKey ctx pr sd book i it need p fp budget s :
  good_name pr → valid_side sd → LInv pr book s → book !! i = Some it → 0 < need ≤ side_qty sd it →
  runs (fillOrderByKey ctx (FormatOrderIDsKey pr (iPrice it) sd) need p fp budget) s
    (λ '(deals, amount, cnt) s', 0 ≤ amount ≤ need ∧ (cnt < budget → amount = need) ∧
       adds sd amount [] deals ∧ works s s' ∧
       ∀ b2, book_ok b2 → (∀ sd' p', valid_side sd' → book_qty sd' p' b2 =
         book_qty sd' p' book - if decide (p' = iPrice it ∧ sd' = sd) then amount else 0) → LInv pr b2 s').
Proof.
  intros Hpr Hsd HI Hi Hneed. destruct (LInv_level pr sd book i it s) as (Hli & Hl & Hsum); [done..|].
  pose proof Hli as [Hnd _]. unfold fillOrderByKey. apply runs_bind, runs_gets.
  unfold GetOrderIDsMapCopy. destruct (idsData (disk s) !! _) as [l|] eqn:El.
  2:{ unfold ids, getOrderIDs in Hsum. rewrite El in Hsum. cbn in Hsum. lia. }
  assert (ids pr (iPrice it) sd (disk s) = l) as Eids by (unfold ids, getOrderIDs; by rewrite El).
  apply runs_bind. eapply runs_mono; [apply (runs_fill_ids ctx pr (iPrice it) sd l); rewrite <-?Eids; dec_simp; (done || lia)|].
  intros [[[deals amount] cnt] tl] s1 (H1 & H2 & H3 & Hfr). dec_simp. rewrite Z.sub_0_r in *. cbn beta iota.
  apply runs_bind, runs_modify, runs_ret. split; [lia|]. split; [done|]. split; [done|].
  rewrite <-Eids in Hfr. split.
  - trans s1; [by apply (fill_result_works _ _ _ _ _ _ Hli Hfr)|]. apply set_disk_works; [|by destruct tl].
    apply set_disk_kept; [by destruct tl|]. apply setOrderIDs_synced.
  - intros b2. by apply fill_level with (1 := Hpr) (2 := Hsd) (3 := HI) (4 := Hi).
Qed.

(** ** One side of a product *)

Lemma demand_cons it b p : demand (it :: b) p = (if (p <=? iPrice it)%Z then BuyQuantity it else 0) + demand b p.
Proof. done. Qed.
Lemma supply_cons it b p : supply (it :: b) p = (if (iPrice it <=? p)%Z then SellQuantity it else 0) + supply b p.
Proof. done. Qed.
Lemma supply_app a b p : supply (a ++ b) p = supply a p + supply b p.
Proof. unfold supply. by rewrite fmap_app, zsum_app. Qed.

Lemma demand_nonneg b p : Forall item_ok b → 0 ≤ demand b p.
Proof.
  induction 1 as [|it b (?&?&?) _ IH]; [done|]. rewrite demand_cons. case_match; lia.
Qed.
Lemma supply_nonneg b p : Forall item_ok b → 0 ≤ supply b p.
Proof.
  induction 1 as [|it b (?&?&?) _ IH]; [done|]. rewrite supply_cons. case_match; lia.
Qed.

(** No buyer is left below a price that is too low, no seller above one too high. *)
Lemma demand_below it b p : desc (it :: b) → iPrice it < p → demand (it :: b) p = 0.
Proof.
  intros [Hf _]%desc_cons Hp. rewrite demand_cons. destruct (Z.leb_spec p (iPrice it)); [lia|]. cbn.
  induction Hf as [|x b Hx _ IH]; [done|]. rewrite demand_cons. destruct (Z.leb_spec p (iPrice x)); lia.
Qed.
Lemma supply_above it b p : desc (b ++ [it]) → p < iPrice it → supply (b ++ [it]) p = 0.
Proof.
  intros (Hc & _)%desc_app Hp. rewrite supply_app, supply_cons. destruct (Z.leb_spec (iPrice it) p); [lia|].
  assert (supply b p = 0) as ->; [|done].
  assert (Forall (λ x, iPrice it < iPrice x) b) as Hf.
  { apply Forall_forall. intros x Hx. apply Hc; [done|]. apply list_elem_of_here. }
  clear Hc. induction Hf as [|x b Hx _ IH]; [done|]. rewrite supply_cons.
  destruct (Z.leb_spec (iPrice x) p); lia.
Qed.

(** Filling buyers leaves the supply alone. *)
Lemma sub_buy_supply b i it num b1 res b2 p : b !! i = Some it → BookSub i num BuyOrder b = Ok b1 →
  RemoveIfEmpty i b1 = Ok (res, b2) → supply b2 p = supply b p.
Proof.
  intros Hi E1 E2. destruct (list_elem_of_split_length b i it Hi) as (l1 & l2 & -> & ->).
  unfold BookSub in E1. rewrite decide_True, Hi in E1 by done. cbn in E1. injection E1 as <-.
  rewrite insert_app_r_alt, Nat.sub_diag in E2 by done. cbn in E2. set (y := set_BuyQuantity _ it) in E2.
  unfold RemoveIfEmpty in E2. rewrite list_lookup_middle in E2 by done. cbn in E2. dec_simp.
  injection E2 as <- <-. case_match eqn:Ey.
  - rewrite take_app_length, (cons_middle y), app_assoc, drop_app_length' by (rewrite length_app; cbn; lia).
    rewrite !supply_app, supply_cons. dec_bool. cbn in *. case_match; lia.
  - rewrite !supply_app, !supply_cons. done.
Qed.

Lemma desc_drop b i : desc b → desc (drop i b).
Proof. intros H. rewrite <-(take_drop i b) in H. by apply desc_app in H as (_ & _ & ?). Qed.
Lemma desc_take b i : desc b → desc (take i b).
Proof. intros H. rewrite <-(take_drop i b) in H. by apply desc_app in H as (_ & ? & _). Qed.

Lemma runs_buy_loop fuel ctx pr best max fp index book ex budget deals s :
  good_name pr → LInv pr book s → (length book - index ≤ fuel)%nat → 0 ≤ ex ≤ max →
  runs (fill_buy_loop fuel ctx pr best max fp index book ex budget deals) s
    (λ '(book', ex', budget', deals') s', LInv pr book' s' ∧ works s s' ∧ ex ≤ ex' ≤ max ∧
       adds BuyOrder (ex' - ex) deals deals' ∧ (∀ p, supply book' p = supply book p) ∧
       (0 < budget' → ex' = Z.min max (ex + demand (drop index book) best))).
Proof.
  intros Hpr. revert index book ex budget deals s.
  induction fuel as [|fuel IH]; intros index book ex budget deals s HI Hfuel Hex; cbn [fill_buy_loop];
    destruct (book !! index) as [it|] eqn:Ei.
  1: { apply lookup_lt_Some in Ei. lia. }
  1,3: apply lookup_ge_None in Ei; apply runs_ret; rewrite drop_ge, Z.sub_diag by done; (split; [done|]); (split; [done|]);
    (split; [lia|]); (split; [apply adds_zero|]); (split; [done|]); cbn; lia.
  pose proof (LInv_book _ _ _ HI) as [Hdesc Hok]. pose proof (lookup_lt_Some _ _ _ Ei) as Hlt.
  assert (Forall item_ok (drop index book)) as Hokd by (by apply Forall_drop).
  pose proof (demand_nonneg (drop index book) best Hokd) as Hd0. dec_simp.
  rewrite (drop_S book it index Ei) in Hd0, Hokd |- *. apply Forall_cons in Hokd as [(HB & HS & _) Hokd].
  pose proof (demand_nonneg (drop (S index) book) best Hokd) as Hd1.
  destruct (negb _) eqn:Ec.
  { apply runs_ret. rewrite Z.sub_diag. split; [done|]. split; [done|]. split; [lia|]. split; [apply adds_zero|].
    split; [done|]. intros _.
    dec_bool. destruct Ec as [Hp|He]; dec_bool; [|lia]. rewrite demand_below; [lia| |done].
    rewrite <-(drop_S book it index Ei). by apply desc_drop. }
  dec_bool. rewrite demand_cons. destruct (Z.leb_spec best (iPrice it)); [|lia].
  destruct (Z.eqb_spec (BuyQuantity it `min` (max - ex)) 0) as [Hz|Hnz].
  { assert (BuyQuantity it = 0) as -> by lia. apply IH; [done|lia|done]. }
  apply runs_bind. eapply runs_mono.
  { apply (runs_fillOrderByKey ctx pr BuyOrder book index it); [done|by left|done|done|].
    change (side_qty BuyOrder it) with (BuyQuantity it). dec_simp. lia. }
  intros [[fdeals amount] cnt] s1 (F1 & F2 & F3 & Hk & Hinv). cbn beta iota.
  destruct (sub_level book index it amount BuyOrder) as (b1 & res & b2 & E1 & E2 & Hb2 & Hq & _ & Hdrop & Hlen);
    [by split|done|by left|change (side_qty BuyOrder it) with (BuyQuantity it); lia|].
  apply runs_bind. eapply runs_lift; [exact E1|]. apply runs_bind. eapply runs_lift; [exact E2|]. cbn beta iota.
  pose proof (λ p, sub_buy_supply book index it amount b1 res b2 p Ei E1 E2) as Hsup.
  specialize (Hinv b2 Hb2 Hq). dec_simp. destruct (Z.leb_spec (budget - cnt) 0).
  { apply runs_ret. split; [done|]. split; [done|]. split; [lia|].
    split; [rewrite Z.add_simpl_l; by apply adds_app|]. split; [done|lia]. }
  eapply runs_mono; [apply (IH (if res then index else S index) b2 (ex + amount)); [done|destruct res; lia|lia]|].
  intros [[[book' ex'] budget'] deals'] s' (G1 & G2 & G3 & G4 & G5 & G6). split; [done|]. split; [by trans s1|].
  split; [lia|]. split; [|split; [intros; by rewrite G5|]].
  { replace (ex' - ex) with (amount + (ex' - (ex + amount))) by lia. eapply adds_trans; [by apply adds_app|done]. }
  intros Hbud. rewrite (G6 Hbud), Hdrop. specialize (F2 ltac:(lia)). lia.
Qed.

Lemma runs_sell_loop n ctx pr best max fp book ex budget deals s :
  good_name pr → LInv pr book s → (n ≤ length book)%nat → 0 ≤ ex ≤ max →
  runs (fill_sell_loop n ctx pr best max fp book ex budget deals) s
    (λ '(book', ex', budget', deals') s', LInv pr book' s' ∧ works s s' ∧ ex ≤ ex' ≤ max ∧
       adds SellOrder (ex' - ex) deals deals' ∧
       (0 < budget' → ex' = Z.min max (ex + supply (take n book) best))).
Proof.
  intros Hpr. revert book ex budget deals s.
  induction n as [|index IH]; intros book ex budget deals s HI Hn Hex; cbn [fill_sell_loop].
  { apply runs_ret. rewrite Z.sub_diag. split; [done|]. split; [done|]. split; [lia|]. split; [apply adds_zero|].
    intros _. change (supply (take 0 book) best) with 0. lia. }
  destruct (lookup_lt_is_Some_2 book index) as [it Ei]; [lia|]. rewrite Ei.
  apply runs_bind. eapply runs_lift; [done|].
  pose proof (LInv_book _ _ _ HI) as [Hdesc Hok].
  assert (Forall item_ok (take (S index) book)) as Hokt by (by apply Forall_take).
  pose proof (supply_nonneg _ best Hokt) as Hd0. dec_simp.
  rewrite (take_S_r book index it Ei) in Hd0, Hokt |- *. apply Forall_app in Hokt as [Hokt [(HB & HS & _) _]%Forall_cons].
  pose proof (supply_nonneg _ best Hokt) as Hd1.
  destruct (negb _) eqn:Ec.
  { apply runs_ret. rewrite Z.sub_diag. split; [done|]. split; [done|]. split; [lia|]. split; [apply adds_zero|].
    intros _. dec_bool. destruct Ec as [Hp|He]; dec_bool; [|lia]. rewrite supply_above; [lia| |done].
    rewrite <-(take_S_r book index it Ei). by apply desc_take. }
  dec_bool. rewrite supply_app, supply_cons. destruct (Z.leb_spec (iPrice it) best); [|lia].
  replace (supply [] best) with 0 by done.
  destruct (Z.eqb_spec (SellQuantity it `min` (max - ex)) 0) as [Hz|Hnz].
  { assert (SellQuantity it = 0) as -> by lia. rewrite !Z.add_0_r. apply IH; [done|lia|done]. }
  apply runs_bind. eapply runs_mono.
  { apply (runs_fillOrderByKey ctx pr SellOrder book index it); [done|by right|done|done|].
    change (side_qty SellOrder it) with (SellQuantity it). dec_simp. lia. }
  intros [[fdeals amount] cnt] s1 (F1 & F2 & F3 & Hk & Hinv). cbn beta iota.
  destruct (sub_level book index it amount SellOrder) as (b1 & res & b2 & E1 & E2 & Hb2 & Hq & Htake & _ & Hlen);
    [by split|done|by right|change (side_qty SellOrder it) with (SellQuantity it); lia|].
  apply runs_bind. eapply runs_lift; [exact E1|]. apply runs_bind. eapply runs_lift; [exact E2|]. cbn beta iota.
  specialize (Hinv b2 Hb2 Hq). dec_simp. destruct (Z.leb_spec (budget - cnt) 0).
  { apply runs_ret. split; [done|]. split; [done|]. split; [lia|].
    split; [rewrite Z.add_simpl_l; by apply adds_app|lia]. }
  eapply runs_mono; [apply (IH b2 (ex + amount)); [done|destruct res; lia|lia]|].
  intros [[[book' ex'] budget'] deals'] s' (G1 & G2 & G3 & G4 & G6). split; [done|]. split; [by trans s1|].
  split; [lia|]. split.
  { replace (ex' - ex) with (amount + (ex' - (ex + amount))) by lia. eapply adds_trans; [by apply adds_app|done]. }
  intros Hbud. rewrite (G6 Hbud), Htake. specialize (F2 ltac:(lia)). lia.
Qed.

Lemma copy_bk pr s : GetDepthBookCopy pr s = bk pr (disk s).
Proof. unfold GetDepthBookCopy, getDepthBook, bk. by destruct (_ !! pr). Qed.

Lemma BookInv_LInv pr s : BookInv s → LInv pr (bk pr (disk s)) s.
Proof. apply Inv_view; [|done..]. intros pr'. rewrite bk_with_book. by case_decide; subst. Qed.

Lemma bk_setDepthBook pr book d pr' : bk pr' (setDepthBook pr (Some book) d) = if decide (pr' = pr) then book else bk pr' d.
Proof.
  unfold bk. destruct book; cbn; rewrite ?lookup_delete, ?lookup_insert; by repeat case_decide.
Qed.

Lemma disk_set_disk d s : disk (set_disk d s) = d.
Proof. done. Qed.

Lemma LInv_BookInv pr book s : LInv pr book s → BookInv (set_disk (setDepthBook pr (Some book) (disk s)) s).
Proof.
  apply Inv_view; [|by destruct book..]. intros pr'. by rewrite disk_set_disk, bk_setDepthBook, bk_with_book.
Qed.

Lemma SetDepthBook_works pr book s : works s (set_disk (setDepthBook pr (Some book) (disk s)) s).
Proof.
  apply set_disk_works; [|by destruct book]. apply set_disk_kept; [by destruct book|].
  apply setDepthBook_synced.
Qed.

Lemma runs_fillBuyOrders ctx pr best max ex budget fp s : BookInv s → 0 ≤ ex ≤ max →
  runs (fillBuyOrders ctx pr best max ex budget fp) s (λ '(deals, budget', ex') s',
    BookInv s' ∧ works s s' ∧ ex ≤ ex' ≤ max ∧ adds BuyOrder (ex' - ex) [] deals ∧
    (∀ p, supply (bk pr (disk s')) p = supply (bk pr (disk s)) p) ∧
    (0 < budget' → ex' = Z.min max (ex + demand (bk pr (disk s)) best))).
Proof.
  intros HI Hex. unfold fillBuyOrders. apply runs_bind, runs_gets. rewrite copy_bk. apply runs_bind.
  pose proof (BookInv_LInv pr s HI) as HL.
  apply (runs_mono _ _ (λ '(book', ex', budget', deals') s', LInv pr book' s' ∧ works s s' ∧ ex ≤ ex' ≤ max ∧
    adds BuyOrder (ex' - ex) [] deals' ∧ (∀ p, supply book' p = supply (bk pr (disk s)) p) ∧
    (0 < budget' → ex' = Z.min max (ex + demand (drop 0 (bk pr (disk s))) best)))).
  { destruct (bk pr (disk s)) as [|it b] eqn:Eb.
    - apply runs_ret. rewrite Z.sub_diag. split; [done|]. split; [done|]. cbn. split; [lia|].
      split; [apply adds_zero|]. split; [done|lia].
    - rewrite <-Eb in *. apply runs_buy_loop; [|done|lia|done]. apply (inv_dom _ _ HI). by rewrite Eb. }
  intros [[[book' ex'] budget'] deals'] s1 (H1 & H2 & H3 & H4 & H5 & H6).
  apply runs_bind, runs_modify, runs_ret. split; [by apply LInv_BookInv|].
  split; [trans s1; [done|apply SetDepthBook_works]|]. split; [done|]. split; [done|].
  split; [|by rewrite drop_0 in H6]. intros p. rewrite disk_set_disk, bk_setDepthBook, decide_True by done. apply H5.
Qed.

Lemma runs_fillSellOrders ctx pr best max ex budget fp s : BookInv s → 0 ≤ ex ≤ max →
  runs (fillSellOrders ctx pr best max ex budget fp) s (λ '(deals, budget', ex') s',
    BookInv s' ∧ works s s' ∧ ex ≤ ex' ≤ max ∧ adds SellOrder (ex' - ex) [] deals ∧
    (0 < budget' → ex' = Z.min max (ex + supply (bk pr (disk s)) best))).
Proof.
  intros HI Hex. unfold fillSellOrders. apply runs_bind, runs_gets. rewrite copy_bk. apply runs_bind.
  pose proof (BookInv_LInv pr s HI) as HL.
  apply (runs_mono _ _ (λ '(book', ex', budget', deals') s', LInv pr book' s' ∧ works s s' ∧ ex ≤ ex' ≤ max ∧
    adds SellOrder (ex' - ex) [] deals' ∧
    (0 < budget' → ex' = Z.min max (ex + supply (take (length (bk pr (disk s))) (bk pr (disk s))) best)))).
  { destruct (bk pr (disk s)) as [|it b] eqn:Eb.
    - apply runs_ret. rewrite Z.sub_diag. split; [done|]. split; [done|]. cbn. split; [lia|].
      split; [apply adds_zero|lia].
    - rewrite <-Eb in *. apply runs_sell_loop; [|done|lia|done]. apply (inv_dom _ _ HI). by rewrite Eb. }
  intros [[[book' ex'] budget'] deals'] s1 (H1 & H2 & H3 & H4 & H6).
  apply runs_bind, runs_modify, runs_ret. split; [by apply LInv_BookInv|].
  split; [trans s1; [done|apply SetDepthBook_works]|]. split; [done|]. split; [done|].
  by rewrite take_ge in H6 by lia.
Qed.

(** Both sides of a product: when the budget is not used up, each of them trades the
    whole execution that it can give. *)
Lemma runs_fillDepthBook ctx pr best max bex sex budget fp s : BookInv s → 0 ≤ bex ≤ max → 0 ≤ sex ≤ max →
  runs (fillDepthBook ctx pr best max bex sex budget fp) s (λ '(deals, budget', bex', sex') s',
    BookInv s' ∧ works s s' ∧ bex ≤ bex' ≤ max ∧ sex ≤ sex' ≤ max ∧
    volume BuyOrder deals = bex' - bex ∧ volume SellOrder deals = sex' - sex ∧
    (0 < budget' → bex' = Z.min max (bex + demand (bk pr (disk s)) best) ∧
                   sex' = Z.min max (sex + supply (bk pr (disk s)) best))).
Proof.
  intros HI Hb Hs. unfold fillDepthBook. dec_simp.
  pose proof (inv_book _ _ HI pr) as [_ Hok].
  pose proof (demand_nonneg _ best Hok). pose proof (supply_nonneg _ best Hok).
  destruct (Z.eqb_spec max 0) as [Hz|Hz].
  { apply runs_ret. split; [done|]. split; [done|]. split; [lia|]. split; [lia|].
    split; [cbn; lia|]. split; [cbn; lia|]. lia. }
  apply runs_bind. eapply runs_mono; [by apply runs_fillBuyOrders|].
  intros [[deals budget1] bex'] s1 (H1 & H2 & H3 & H4 & H5 & H6).
  pose proof (H4 BuyOrder) as V1. pose proof (H4 SellOrder) as V2. change (volume _ []) with 0 in V1, V2.
  rewrite decide_True in V1 by done. rewrite decide_False in V2 by done.
  destruct (Z.leb_spec budget1 0).
  { apply runs_ret. split; [done|]. split; [done|]. split; [lia|]. split; [lia|]. split; [lia|]. split; lia. }
  apply runs_bind. eapply runs_mono; [by apply runs_fillSellOrders|].
  intros [[deals2 budget2] sex'] s2 (G1 & G2 & G3 & G4 & G6). apply runs_ret.
  split; [done|]. split; [by trans s1|]. split; [lia|]. split; [lia|].
  pose proof (G4 BuyOrder) as W1. pose proof (G4 SellOrder) as W2. change (volume _ []) with 0 in W1, W2.
  rewrite decide_False in W1 by done. rewrite decide_True in W2 by done.
  split; [rewrite volume_app; lia|]. split; [rewrite volume_app; lia|]. intros Hbud. split; [by apply H6|]. by rewrite <-H5, G6.
Qed.

End engine.
End OrderEngine.
