(* ===== verification/OrderBlock.v ===== *)
(** * Blocks of the order module

    The end of a block, step by step (expiry, cleaning, matching, writing the cache to
    the store), and a whole block: it never panics and leaves a state in which the
    cache and the store agree ([Idle]), from which a node that is restarted continues
    as one that is not. *)

From S2P Require Import Prelude Runs SdkDec SdkCoins GoStd CoinFacts CommonErrors Common TokenErrors Token OrderErrors OrderTypes DepthBook Match DexErrors Dex OrderKeeper OrderBook OrderMatch OrderSpec OrderEngine.

#[local] Open Scope Z_scope.

Module OrderBlock.
Import OrderKeeper OrderBook OrderMatch OrderSpec OrderEngine.

Section block.
Context `{DO : Dec.Ops} `{DL : !Dec.Laws} `{CO : !Coins.Ops} `{CL : !Coins.Laws}
  `{BO : !Bank.Ops} `{BL : !Bank.Laws} `{TE : !Token.Env} `{DE : !Dex.Env}
  `{RT : !GoRt} `{RL : !GoRtLaws} `{OE : OrderEnv}.

Abbreviation MO := (M OrderState) (only parsing).

(** What every step of a block keeps. *)
Definition Safe (h k : Z) (s : OrderState) : Prop := OInv s ∧ Fresh h k s.

Lemma same_Safe h k s s' : same s s' → Safe h k s → Safe h k s'.
Proof. intros Hs [H1 H2]. split; [by apply (same_OInv s)|by apply (same_Fresh _ _ s)]. Qed.

Lemma works_Safe h k s s' : works s s' → BookInv s' → Safe h k s → Safe h k s'.
Proof.
  intros [[Hr Hp Hs] Ho Hc] HI [[H1 H2 H3 H4 H5 H6 H7 H8 H9] [F1 F2 F3]].
  destruct (rest_fields _ _ Hr) as (Epairs & El & Epar & Elast & Enum & Est).
  assert (∀ h, GetBlockOrderNum h s' = GetBlockOrderNum h s) as En
    by (intros; unfold GetBlockOrderNum; by rewrite Enum).
  split; split; rewrite ?Epairs, ?El, ?Epar, ?Elast, ?Est; auto; try (intros; rewrite ?En; by auto).
  - intros id o' Ho' Hop. destruct (Ho id o' Ho') as (o & Eo & Hlv & Hop'). injection Hlv as <- _ _.
    apply (H5 id); auto.
  - intros id o' Hid Ho' Hop. destruct (Ho id o' Ho') as (o & Eo & _ & Hop'). apply (H7 id o); auto.
  - intros id Hid. rewrite En. apply F1. unfold known in *. rewrite Elast in Hid.
    destruct Hid as [[o' Ho']|[Hid|[Hid|Hid]%Hc]]; auto.
    destruct (Ho id o' Ho') as (o & -> & _). left. eauto.
Qed.

(** A write to parts that the invariant does not look at. *)
Lemma Safe_ext h k s s' : orders s' = orders s → disk s' = disk s → books s' = books s →
  idsStore s' = idsStore s → prices s' = prices s → Dex.pairs (dex s') = Dex.pairs (dex s) →
  oparams s' = oparams s → lastClosed s' = lastClosed s → blockNums s' = blockNums s → started s' = started s →
  locks_ok (Dex.productLocks (dex s')) → Safe h k s → Safe h k s'.
Proof.
  intros E1 E2 E3 E4 E5 E6 E7 E8 E9 E10 Hl [[H1 H2 H3 H4 H5 H6 H7 H8 H9] [F1 F2 F3]].
  assert (∀ h, GetBlockOrderNum h s' = GetBlockOrderNum h s) as En
    by (intros; unfold GetBlockOrderNum; by rewrite E9).
  split; split; unfold BookInv, Sync, price_ok, known in *; rewrite ?E1, ?E2, ?E3, ?E4, ?E5, ?E6, ?E7, ?E8, ?E10;
    try done; intros; rewrite ?En; auto.
Qed.

(** ** Matching *)

Lemma runs_SetLastPrice pr x s : runs (SetLastPrice pr x) s (λ _ s', same s s').
Proof.
  unfold SetLastPrice, modify_disk. apply runs_bind, runs_modify, runs_modify.
  split; [by destruct s..|]. intros Hp pr' x'. cbn. rewrite !lookup_insert. case_decide; [done|apply Hp].
Qed.

Lemma same_bk pr s s' : same s s' → bk pr (disk s') = bk pr (disk s).
Proof. intros Hs. unfold bk. by rewrite (dcore_proj bookData s s' (λ _, eq_refl) (same_disk _ _ Hs)). Qed.

(** A result of the auction: price and volume on the book of the product. *)
Definition result_ok (s : OrderState) (pr : string) (mr : MatchResult) : Prop :=
  0 < mrQuantity mr ∧ exec_at (bk pr (disk s)) (mrPrice mr) = mrQuantity mr.

Lemma runs_calc ctx products rm s : BookInv s → (∀ pr mr, rm !! pr = Some mr → result_ok s pr mr) →
  runs (calcMatchPriceAndExecution ctx products rm) s (λ rm' s', same s s' ∧
    ∀ pr mr, rm' !! pr = Some mr → result_ok s pr mr).
Proof.
  revert rm s. induction products as [|pr products IH]; intros rm s HI Hrm; cbn [calcMatchPriceAndExecution].
  { by apply runs_ret. }
  apply runs_bind, runs_gets. destruct (Dex.GetTokenPair pr (dex s)) as [tp|]; [|by apply IH].
  apply runs_bind, runs_gets. rewrite copy_bk. apply runs_bind, runs_GetLastPrice. intros ref s1 H1.
  destruct (match_price_spec (bk pr (disk s)) (Dex.MaxPriceDigit tp) ref (inv_book _ _ HI pr)) as (bp & E & Ebp & Ha).
  apply runs_bind. eapply runs_lift; [exact Ebp|]. cbn beta iota. dec_simp.
  assert (∀ rm2 s2, same s s2 → (∀ pr mr, rm2 !! pr = Some mr → result_ok s pr mr) →
    runs (calcMatchPriceAndExecution ctx products rm2) s2 (λ rm' s', same s s' ∧
      ∀ pr mr, rm' !! pr = Some mr → result_ok s pr mr)) as Hgo.
  { intros rm2 s2 H2 Hrm2. assert (∀ pr mr, result_ok s2 pr mr ↔ result_ok s pr mr) as Hiff
      by (intros; unfold result_ok; by rewrite (same_bk _ s s2)).
    eapply runs_mono; [apply (IH rm2 s2); [by apply (same_inv s)|intros; by apply Hiff, Hrm2]|].
    intros rm' s' [H3 H4]. split; [by trans s2|]. intros. by apply Hiff, H4. }
  destruct (Z.ltb_spec 0 E); [|by apply Hgo].
  apply runs_bind. eapply runs_mono; [apply runs_SetLastPrice|]. intros u s2 H2. cbn beta.
  apply Hgo; [by trans s1|]. intros pr' mr'. rewrite lookup_insert. case_decide; [|apply Hrm].
  intros [= <-]. subst pr'. split; [done|]. cbn. destruct Ha; [lia|lia|done].
Qed.

Lemma runs_lock pr l h k s : lock_ok l → Safe h k s → runs (SetProductLock pr l) s (λ _, Safe h k).
Proof.
  intros Hl HS. eexists tt, _. split; [done|]. apply (Safe_ext h k s); try done.
  intros pr' l'. cbn. rewrite lookup_insert. case_decide; [by intros [= <-]|apply HS].
Qed.
Lemma runs_unlock pr h k s : Safe h k s → runs (UnlockProduct pr) s (λ _, Safe h k).
Proof.
  intros HS. eexists tt, _. split; [done|]. apply (Safe_ext h k s); try done.
  intros pr' l'. cbn. rewrite lookup_delete. case_decide; [done|apply HS].
Qed.

Definition results_ok (rm : gmap string MatchResult) : Prop := ∀ pr mr, rm !! pr = Some mr → 0 ≤ mrQuantity mr.

Lemma runs_execMatched ctx mr rm fp budget pr h k s : Safe h k s → results_ok rm → 0 ≤ mrQuantity mr →
  runs (executeMatchedUpdatedProduct ctx mr rm fp budget pr) s (λ '(_, rm') s', Safe h k s' ∧ results_ok rm').
Proof.
  intros HS Hrm Hmr. unfold executeMatchedUpdatedProduct, lockProduct. dec_simp. case_match.
  { apply runs_bind. eapply runs_mono; [apply runs_lock; [split; cbn; lia|done]|]. intros u s' H'. by apply runs_ret. }
  apply runs_bind. eapply runs_mono; [apply runs_fillDepthBook; [apply HS|lia|lia]|].
  intros [[[deals budget'] bex] sex] s1 (H1 & H2 & H3 & H4 & _). cbn beta iota zeta.
  pose proof (works_Safe _ _ _ _ H2 H1 HS) as HS1. apply runs_bind. dec_simp.
  apply (runs_mono _ _ (λ _, Safe h k)); [case_match; [apply runs_lock; [split; cbn; lia|done]|by apply runs_ret]|].
  intros u s2 H5. apply runs_ret. split; [done|]. intros pr' mr'. rewrite lookup_insert.
  case_decide; [by intros [= <-]|apply Hrm].
Qed.

Lemma runs_execLocked ctx l rm lm fp budget pr h k s : Safe h k s → results_ok rm → locks_ok lm → lock_ok l →
  runs (executeLockedProduct ctx l rm lm fp budget pr) s (λ '(_, rm', lm') s',
    Safe h k s' ∧ results_ok rm' ∧ locks_ok lm').
Proof.
  intros HS Hrm Hlm [Hl1 Hl2]. unfold executeLockedProduct. case_match; [by apply runs_ret|].
  apply runs_bind. eapply runs_mono; [apply runs_fillDepthBook; [apply HS|done|done]|].
  intros [[[deals budget'] bex] sex] s1 (H1 & H2 & H3 & H4 & _). cbn beta iota zeta.
  pose proof (works_Safe _ _ _ _ H2 H1 HS) as HS1. apply runs_bind.
  assert (lock_ok (MkProductLock (lBlockHeight l) (lPrice l) (lQuantity l) bex sex)) as Hlk by (split; cbn; lia).
  apply (runs_mono _ _ (λ _, Safe h k)); [case_match; [by apply runs_unlock|by apply runs_lock]|].
  intros u s2 H5. apply runs_ret. split; [done|]. split.
  - case_match; [|done]. intros pr' mr'. rewrite lookup_insert. case_decide; [intros [= <-]; cbn; lia|apply Hrm].
  - intros pr' l'. rewrite lookup_insert. case_decide; [by intros [= <-]|apply Hlm].
Qed.

Lemma runs_execute ctx fp products budget rm lm h k s : Safe h k s → results_ok rm → locks_ok lm →
  runs (execute_loop ctx fp products budget rm lm) s (λ _, Safe h k).
Proof.
  revert budget rm lm s. induction products as [|pr products IH]; intros budget rm lm s HS Hrm Hlm; cbn [execute_loop].
  { by apply runs_ret. }
  destruct (rm !! pr) as [mr|] eqn:Em; [|destruct (lm !! pr) as [l|] eqn:El; [|by apply IH]]; apply runs_bind.
  - eapply runs_mono; [apply runs_execMatched; [done|done|by apply (Hrm pr)]|].
    intros [budget' rm'] s' [H1 H2]. by apply IH.
  - eapply runs_mono; [apply runs_execLocked; [done|done|done|by apply (Hlm pr)]|].
    intros [[budget' rm'] lm'] s' (H1 & H2 & H3). by apply IH.
Qed.

Lemma runs_matchOrders ctx h k s : Safe h k s → runs (matchOrders ctx) s (λ _, Safe h k).
Proof.
  intros HS. unfold matchOrders. apply runs_bind, runs_gets, runs_bind, runs_gets.
  case_match; [by apply runs_ret|]. do 3 apply runs_bind, runs_gets.
  apply runs_bind. eapply runs_mono; [apply runs_calc; [apply HS|done]|]. intros rm s1 [H1 Hrm].
  pose proof (same_Safe h k _ _ H1 HS) as HS1. apply runs_bind, runs_gets, runs_bind, runs_gets, runs_bind.
  unfold executeMatch. apply runs_bind, runs_gets. eapply runs_mono; [apply (runs_execute _ _ _ _ _ _ h k)|].
  - done.
  - intros pr mr Hmr. destruct (Hrm pr mr Hmr). lia.
  - apply HS1.
  - intros rm' s2 H2. cbn beta. case_decide; [by apply runs_ret|]. unfold SetBlockMatchResult.
    case_match; [|by apply runs_ret]. apply runs_modify_cache. intros s3 Hs3. by apply (same_Safe h k s2).
Qed.
(** ** Expiry *)

Lemma Inv_delete os d id : Inv os d → (∀ o, os !! id = Some o → ¬ is_open o) → Inv (delete id os) d.
Proof.
  intros [H1 H2 H3 H4 H5 H6 H7] Hid.
  assert (∀ x o, delete id os !! x = Some o → os !! x = Some o) as Hdel
    by (intros x o; rewrite lookup_delete; by case_decide).
  assert (∀ lv x, open_at (delete id os) lv x ↔ open_at os lv x) as Hop.
  { intros lv x. unfold open_at. rewrite lookup_delete. case_decide; [subst|done].
    split; [naive_solver|]. intros (o & Ho & ? & _). by destruct (Hid o Ho). }
  split; eauto.
  - intros pr p sd Hp Hs. destruct (H3 pr p sd Hp Hs) as [Hnd Hin]. split; [done|]. intros x. by rewrite Hop.
  - intros pr p sd Hp Hs. rewrite H6 by done. symmetry. apply zsum_remain. intros x Hx.
    apply H3 in Hx as (o & Ho & Hopn & _); [|done..]. unfold remain. rewrite lookup_delete.
    case_decide; [subst; by destruct (Hid o Ho)|done].
Qed.

Lemma runs_mark ctx h k s : Safe h k s → runs (markCurBlockToFutureExpireBlockList ctx) s (λ _, Safe h k).
Proof.
  intros HS. apply runs_bind, runs_gets, runs_bind, runs_gets, runs_modify. apply (Safe_ext h k s); done || apply HS.
Qed.

Lemma Drop_Safe h k id s : Safe h k s → id ∈ lastClosed s → Safe h k (set_orders (delete id (orders s)) s).
Proof.
  intros [[H1 H2 H3 H4 H5 H6 H7 H8 H9] [F1 F2 F3]] Hid.
  assert (∀ x o, delete id (orders s) !! x = Some o → orders s !! x = Some o) as Hdel
    by (intros x o; rewrite lookup_delete; by case_decide).
  split; split; try done; cbn.
  - apply Inv_delete; [done|]. intros o. by apply H7.
  - eauto.
  - eauto.
  - intros x Hx. apply F1. unfold known in *. cbn in Hx. destruct Hx as [[o Ho%Hdel]|?]; [left; eauto|by right].
Qed.

Lemma runs_cleanLast h k s : Safe h k s → runs cleanLastBlockClosedOrders s (λ _, Safe h k).
Proof.
  intros HS. unfold cleanLastBlockClosedOrders. apply runs_bind, runs_gets. unfold GetLastClosedOrderIDs.
  apply runs_bind. set (l := lastClosed s).
  eapply runs_mono; [apply (runs_mapM_ _ _ _ (λ s', Safe h k s' ∧ lastClosed s' = l)); [done|]|].
  - intros id s1 Hid [HS1 El]. apply runs_modify. split; [|done]. apply Drop_Safe; [done|by rewrite El].
  - intros u s1 [[[H1 H2 H3 H4 H5 H6 H7 H8 H9] [F1 F2 F3]] _]. apply runs_modify.
    split; split; try done; [by apply (Inv_ext _ (disk s1))|by apply (Synced_ext _ _ (disk s1))].
Qed.

Lemma elem_of_orders_of_height h o s : o ∈ orders_of_height h s → ∃ id, orders s !! id = Some o.
Proof.
  unfold orders_of_height. intros ((id & x) & -> & [_ Hx]%list_elem_of_filter)%list_elem_of_fmap.
  exists id. by apply elem_of_kv_sorted.
Qed.

Lemma NoDup_orders_of_height h s : BookInv s → NoDup (OrderID <$> orders_of_height h s).
Proof.
  intros HI. unfold orders_of_height. rewrite <-list_fmap_compose.
  assert (NoDup (fst <$> filter (λ kv, String.prefix (FormatOrderIDPrefix h) (fst kv) = true) (kv_sorted (orders s)))) as Hnd.
  { apply NoDup_fmap_fst; [|apply NoDup_filter; rewrite kv_sorted_perm; apply NoDup_map_to_list].
    intros x y1 y2 [_ H1%elem_of_kv_sorted]%list_elem_of_filter [_ H2%elem_of_kv_sorted]%list_elem_of_filter.
    congruence. }
  replace (_ <$> _) with (fst <$> filter (λ kv, String.prefix (FormatOrderIDPrefix h) (fst kv) = true) (kv_sorted (orders s)));
    [done|]. apply list_fmap_ext. intros i [id o] Hi%list_elem_of_lookup_2. cbn.
  apply list_elem_of_filter in Hi as [_ Hi%elem_of_kv_sorted]. symmetry. by apply (inv_id _ _ HI).
Qed.

Lemma closes_Safe h k id o s s' : orders s !! id = Some o → closes id o s s' → Safe h k s → Safe h k s'.
Proof. intros Ho Hc [H1 H2]. split; [by eapply closes_OInv|by eapply closes_Fresh]. Qed.

Lemma runs_dropExpired ctx eh h k s : Safe h k s →
  runs (DropExpiredOrdersByBlockHeight ctx eh) s (λ _, Safe h k).
Proof.
  intros HS. unfold DropExpiredOrdersByBlockHeight. apply runs_bind, runs_gets.
  pose proof (NoDup_orders_of_height eh s (o_inv _ (proj1 HS))) as Hnd.
  assert (∀ o, o ∈ orders_of_height eh s → orders s !! OrderID o = Some o) as Hin.
  { intros o (id & Ho)%elem_of_orders_of_height. by rewrite (inv_id _ _ (o_inv _ (proj1 HS)) id o Ho). }
  revert Hnd Hin HS. generalize (orders_of_height eh s). intros l. revert s.
  induction l as [|o l IH]; intros s Hnd Hin HS; cbn [mapM_]; [by apply runs_ret|].
  apply NoDup_cons in Hnd as [Hid Hnd]. apply runs_bind, runs_bind, runs_gets.
  assert (orders s !! OrderID o = Some o) as Ho by (apply Hin, list_elem_of_here).
  destruct (_ && _)%bool eqn:Ec.
  2:{ apply runs_ret. apply IH; [done| |done]. intros x Hx. by apply Hin, list_elem_of_further. }
  apply andb_true_iff in Ec as [Hop%Z.eqb_eq _].
  eapply runs_mono; [apply (runs_Expire ctx (OrderID o) o); [apply HS|done|done]|]. intros u s1 Hc. cbn beta.
  apply IH; [done| |by apply (closes_Safe h k (OrderID o) o s)]. intros x Hx.
  destruct (cl_order _ _ _ _ Hc) as (o' & Eo & _). rewrite Eo, lookup_insert_ne.
  - by apply Hin, list_elem_of_further.
  - intros E. apply Hid. rewrite E. by apply list_elem_of_fmap_2.
Qed.

(** The counters of past heights are dropped: later ones are zero anyway. *)
Lemma runs_dropNum x h s : Safe h 0 s → runs (DropBlockOrderNum x) s (λ _, Safe h 0).
Proof.
  intros [[H1 H2 H3 H4 H5 H6 H7 H8 H9] [F1 F2 F3]]. apply runs_modify.
  assert (∀ h', h ≤ h' → GetBlockOrderNum h' (set_blockNums (delete x (blockNums s)) s) = GetBlockOrderNum h' s) as En.
  { intros h' Hh'. unfold GetBlockOrderNum at 1. cbn. rewrite lookup_delete. case_decide; [|done]. subst x. cbn.
    destruct (decide (h' = h)) as [->|]; [lia|]. rewrite F2; lia. }
  split; [split; done|]. split; [|intros; rewrite En by lia; auto|by rewrite En by lia].
  intros id Hid. rewrite En by lia. by apply F1.
Qed.

Lemma runs_cacheExpired ctx h s : Safe h 0 s → runs (cacheExpiredBlockToCurrentHeight ctx) s (λ _, Safe h 0).
Proof.
  intros HS. unfold cacheExpiredBlockToCurrentHeight. apply runs_bind, runs_gets, runs_bind.
  eapply runs_mono.
  { apply (runs_mapM_ _ _ _ (Safe h 0)); [done|]. intros x s1 _ HS1. apply runs_bind, runs_gets.
    apply (runs_mapM_ _ _ _ (Safe h 0)); [done|]. intros y s2 _ HS2. by apply runs_dropExpired. }
  intros u s1 HS1. cbn beta. apply runs_bind, runs_gets. destruct (AnyProductLocked s1); [by apply runs_ret|].
  apply runs_bind, (runs_mono _ _ (λ _, Safe h 0)).
  - destruct (1 <? _)%Z; [|by apply runs_ret].
    apply (runs_mapM_ _ _ _ (Safe h 0)); [done|]. intros x s2 _ HS2. apply runs_bind, runs_gets, runs_bind.
    eapply runs_mono; [apply (runs_mapM_ _ _ _ (Safe h 0)); [done|]; intros y s3 _ HS3; by apply runs_dropNum|].
    intros v s3 HS3. apply runs_modify. apply (Safe_ext h 0 s3); done || apply HS3.
  - intros v s2 HS2. apply runs_modify. apply (Safe_ext h 0 s2); done || apply HS2.
Qed.

(** ** Orders of delisted products: there are none when nothing was delisted *)

Lemma book_listed s pr b : OInv s → bookData (disk s) !! pr = Some b → is_Some (Dex.pairs (dex s) !! pr).
Proof.
  intros HI Eb. pose proof (o_inv _ HI) as HB. pose proof (sync_book_ne _ _ _ (o_sync _ HI) pr) as Hne.
  assert (bk pr (disk s) = b) as Ebk by (unfold bk; by rewrite Eb).
  destruct b as [|it b]; [done|]. pose proof (inv_book _ _ HB pr) as Hok. rewrite Ebk in Hok.
  assert (good_name pr) as Hg by (apply (inv_dom _ _ HB); by rewrite Ebk).
  destruct (item_ok_side it) as (sd & Hsd & Hpos); [by apply book_ok_cons in Hok as (_ & ? & _)|].
  pose proof (inv_qty _ _ HB pr (iPrice it) sd Hg Hsd) as Hq. rewrite Ebk, book_head_qty in Hq by done.
  destruct (ids pr (iPrice it) sd (disk s)) as [|id l] eqn:El; [cbn in Hq; lia|].
  assert (id ∈ ids pr (iPrice it) sd (disk s)) as Hid by (rewrite El; apply list_elem_of_here).
  apply (inv_ids _ _ HB) in Hid as (o & Ho & Hop & Hlv); [|done..]. injection Hlv as <- _ _.
  by apply (o_listed _ HI id o).
Qed.

Lemma runs_delisted ctx h k s : Safe h k s → runs (cleanupOrdersWhoseTokenPairHaveBeenDelisted ctx) s (λ _, Safe h k).
Proof.
  intros HS. unfold cleanupOrdersWhoseTokenPairHaveBeenDelisted. apply runs_bind, runs_gets.
  eapply runs_mono; [apply (runs_mapM_ _ _ _ (λ s', s' = s)); [done|]|by intros u s' ->].
  intros pr s1 Hpr ->. apply runs_bind, runs_gets. unfold GetProductsFromDepthBookMap, getProductsFromDepthBookMap in Hpr.
  rewrite map_range_perm, elem_of_elements, elem_of_dom in Hpr. destruct Hpr as [b Eb].
  destruct (book_listed s pr b (proj1 HS) Eb) as [tp Htp]. unfold Dex.GetTokenPair. rewrite Htp. by apply runs_ret.
Qed.

Lemma runs_Run ctx h s : Safe h 0 s → runs (Run ctx) s (λ _, Safe h 0).
Proof.
  intros HS. unfold Run, cleanupExpiredOrders. apply runs_bind, runs_bind.
  eapply runs_mono; [by apply (runs_mark ctx h 0)|]. intros u1 s1 H1. apply runs_bind.
  eapply runs_mono; [by apply (runs_cleanLast h 0)|]. intros u2 s2 H2.
  eapply runs_mono; [by apply (runs_cacheExpired ctx h)|]. intros u3 s3 H3. apply runs_bind.
  eapply runs_mono; [by apply (runs_delisted ctx h 0)|]. intros u4 s4 H4. by apply runs_matchOrders.
Qed.

(** ** Writing the cache to the store *)

(** The store is the cache. *)
Record stored (s : OrderState) : Prop := {
  st_books : books s = bookData (disk s);
  st_ids : idsStore s = idsData (disk s);
}.

(** Writing the entries of the keys [l] of the cache. *)
Lemma store_books_run l d s : (∀ k, bookData d !! k ≠ Some []) →
  runs (mapM_ (λ key, StoreDepthBook key (getDepthBook key d)) l) s (λ _ s', ∃ m, s' = set_books m s ∧
    ∀ k, m !! k = if decide (k ∈ l) then bookData d !! k else books s !! k).
Proof.
  intros Hne. revert s. induction l as [|x l IH]; intros s; cbn [mapM_].
  { apply runs_ret. exists (books s). split; [by destruct s|]. intros k. by rewrite decide_False by apply not_elem_of_nil. }
  apply runs_bind, runs_modify. set (s1 := set_books _ s). eapply runs_mono; [apply (IH s1)|].
  intros u s' (m & -> & Hm). exists m. split; [done|]. intros k. rewrite Hm.
  assert (books s1 !! k = if decide (k = x) then bookData d !! x else books s !! k) as ->.
  { unfold s1, getDepthBook. cbn. specialize (Hne x). destruct (bookData d !! x) as [[|it b]|]; [done|..];
      rewrite ?lookup_insert, ?lookup_delete; by repeat case_decide. }
  repeat case_decide; subst; try done; set_solver.
Qed.

Lemma store_ids_run l d s : (∀ k, idsData d !! k ≠ Some []) →
  runs (mapM_ (λ key, StoreOrderIDsMap key (getOrderIDs key d)) l) s (λ _ s', ∃ m, s' = set_idsStore m s ∧
    ∀ k, m !! k = if decide (k ∈ l) then idsData d !! k else idsStore s !! k).
Proof.
  intros Hne. revert s. induction l as [|x l IH]; intros s; cbn [mapM_].
  { apply runs_ret. exists (idsStore s). split; [by destruct s|]. intros k. by rewrite decide_False by apply not_elem_of_nil. }
  apply runs_bind, runs_modify. set (s1 := set_idsStore _ s). eapply runs_mono; [apply (IH s1)|].
  intros u s' (m & -> & Hm). exists m. split; [done|]. intros k. rewrite Hm.
  assert (idsStore s1 !! k = if decide (k = x) then idsData d !! x else idsStore s !! k) as ->.
  { unfold s1, getOrderIDs. cbn. specialize (Hne x). destruct (idsData d !! x) as [[|it b]|]; [done|..]; cbn;
      rewrite ?lookup_insert, ?lookup_delete; by repeat case_decide. }
  repeat case_decide; subst; try done; set_solver.
Qed.

Lemma runs_Cache2Disk h k s : Safe h k s → runs Cache2Disk s (λ _ s', Safe h k s' ∧ stored s' ∧
  disk s' = disk s ∧ lastClosed s' = closedOrderIDs (disk s) ∧ openOrderNum s' = dOpenNum (disk s) ∧
  storeOrderNum s' = dStoreOrderNum (disk s)).
Proof.
  intros [[H1 H2 H3 H4 H5 H6 H7 H8 H9] [F1 F2 F3]]. pose proof H2 as [S1 S2 S3 S4].
  unfold Cache2Disk. apply runs_bind, runs_gets. do 3 apply runs_bind, runs_modify. apply runs_bind.
  eapply runs_mono; [by apply store_books_run|]. intros u s1 (m & -> & Hm).
  eapply runs_mono; [by apply store_ids_run|]. intros v s2 (m' & -> & Hm').
  assert (m = bookData (disk s)) as ->.
  { apply map_eq. intros x. rewrite Hm. unfold GetUpdatedDepthbookKeys. case_decide as Hx; [done|].
    rewrite elem_of_set_sorted in Hx. by apply S1. }
  assert (m' = idsData (disk s)) as ->.
  { apply map_eq. intros x. rewrite Hm'. unfold GetUpdatedOrderIDKeys. case_decide as Hx; [done|].
    rewrite elem_of_set_sorted in Hx. by apply S2. }
  split; [|done]. split; split; try done.
  - apply (inv_closed _ _ H1).
  - intros id Hid. apply F1. unfold known in *. cbn in Hid. tauto.
Qed.

Lemma runs_EndBlocker ctx h s : Safe h 0 s →
  runs (EndBlocker ctx) s (λ _ s', Safe h 0 s' ∧ stored s' ∧ lastClosed s' = closedOrderIDs (disk s')).
Proof.
  intros HS. unfold EndBlocker. apply runs_bind. eapply runs_mono; [by apply (runs_Run ctx h)|].
  intros u s1 H1. eapply runs_mono; [by apply (runs_Cache2Disk h 0)|].
  intros v s2 (? & ? & E & ? & ? & ?). split; [done|]. split; [done|]. by rewrite E.
Qed.

(** ** The beginning of a block *)

(** A state after the end of the block of height [h]. *)
Definition Idle (h : Z) (s : OrderState) : Prop := Safe (h + 1) 0 s ∧ stored s.

Definition began (s : OrderState) : OrderState :=
  set_disk (set_dStoreOrderNum (storeOrderNum s) (set_dOpenNum (openOrderNum s) (disk_reset (disk s))))
    (set_cache (cache_reset (cache s)) s).

Lemma BeginBlocker_started s : started s = true → BeginBlocker s = (Ok tt, began s).
Proof.
  intros Hst. unfold BeginBlocker, ResetCache. rewrite (bind_eq _ _ _ s s) by done. rewrite Hst. by destruct s.
Qed.

Lemma began_Safe h s : Idle h s → Safe (h + 1) 0 (began s).
Proof.
  intros [[[H1 H2 H3 H4 H5 H6 H7 H8 H9] [F1 F2 F3]] [E1 E2]]. split; split; try done.
  - destruct H1 as [I1 I2 I3 I4 I5 I6 _]. split; try done. by intros id o ?%not_elem_of_nil.
  - destruct H2 as [_ _ S3 S4]. split; cbn; try done; [by rewrite E1|by rewrite E2].
  - intros id Hid. apply F1. unfold known in *. cbn in Hid. rewrite elem_of_nil in Hid. tauto.
Qed.

Lemma Safe_next h k s : Safe h k s → Safe (h + 1) 0 s.
Proof.
  intros [HI [F1 F2 F3]]. split; [done|]. split.
  - intros id Hid. destruct (F1 id Hid) as (h' & n & ? & ? & ? & ?). exists h', n. split; [done|]. lia.
  - intros h' Hh'. apply F2. lia.
  - rewrite F2; lia.
Qed.

Lemma Safe_deliver ctx msgs h k s : BlockHeight ctx = h → 0 ≤ h < 2 ^ 63 → Safe h k s →
  Forall (λ m, ValidateBasic m = Ok tt) msgs → k + 200 * Z.of_nat (length msgs) < 2 ^ 63 →
  Safe h (k + 200 * Z.of_nat (length msgs)) (foldl (λ s m, deliver ctx m s) s msgs).
Proof.
  intros <- Hh HS Hv. revert k s HS. induction Hv as [|m msgs Hm _ IH]; intros k s [HI HF] Hk; cbn [foldl length] in *.
  { by rewrite Z.mul_0_r, Z.add_0_r. }
  destruct (deliver_ok ctx m k s) as (H1 & H2 & _); [done..|lia|done|].
  replace (k + 200 * Z.of_nat (S (length msgs))) with (k + 200 + 200 * Z.of_nat (length msgs)) by lia.
  apply IH; [done|lia].
Qed.

(** ** Whole blocks *)

(** The messages of a block, each in its own transaction, between the two blockers. *)
Definition run_block (ctx : Context) (msgs : list Msg) : MO unit :=
  BeginBlocker;;
  modify (λ s, foldl (λ s m, deliver ctx m s) s msgs);;
  EndBlocker ctx.

Record block_ok (h : Z) (b : Context * list Msg) : Prop := {
  bo_height : BlockHeight (fst b) = h;
  bo_range : 0 ≤ h < 2 ^ 62;
  bo_valid : Forall (λ m, ValidateBasic m = Ok tt) (snd b);
  bo_count : 200 * Z.of_nat (length (snd b)) < 2 ^ 63;
}.

Lemma runs_block h b s : Idle h s → block_ok (h + 1) b →
  runs (run_block (fst b) (snd b)) s (λ _, Idle (h + 1)).
Proof.
  intros HI [Hh Hr Hv Hc]. unfold run_block. apply runs_bind.
  exists tt, (began s). split; [apply BeginBlocker_started; apply HI|]. apply runs_bind, runs_modify.
  assert (Safe (h + 1) (0 + 200 * Z.of_nat (length (snd b))) (foldl (λ s m, deliver (fst b) m s) (began s) (snd b))) as HS
    by (apply Safe_deliver; [done|lia|by apply began_Safe|done|lia]).
  apply Safe_next in HS. eapply runs_mono; [by apply (runs_EndBlocker (fst b) (h + 1 + 1))|].
  intros u s' (H1 & H2 & _). by split.
Qed.

Fixpoint blocks_ok (h : Z) (l : list (Context * list Msg)) : Prop :=
  match l with [] => True | b :: l => block_ok (h + 1) b ∧ blocks_ok (h + 1) l end.

Definition run_blocks (l : list (Context * list Msg)) : MO unit := mapM_ (λ b, run_block (fst b) (snd b)) l.

Lemma runs_blocks h l s : Idle h s → blocks_ok h l →
  runs (run_blocks l) s (λ _, Idle (h + Z.of_nat (length l))).
Proof.
  revert h s. induction l as [|b l IH]; intros h s HI Hl; unfold run_blocks; cbn [mapM_ length] in *.
  { apply runs_ret. by rewrite Z.add_0_r. }
  destruct Hl as [Hb Hl]. apply runs_bind. eapply runs_mono; [by apply (runs_block h)|]. intros u s1 H1.
  eapply runs_mono; [by apply (IH (h + 1))|]. intros v s2.
  by replace (h + 1 + Z.of_nat (length l)) with (h + Z.of_nat (S (length l))) by lia.
Qed.

(** ** Restarting a node *)

(** The memory of a node that starts on the store of [s]. *)
Definition restart (c : Cache) (s : OrderState) : OrderState :=
  set_started false (set_cache c (set_disk newDiskCache s)).

Lemma load_books l s : NoDup (fst <$> l) →
  runs (mapM_ (λ kv, modify_disk (addDepthBook (fst kv) (snd kv))) l) s (λ _ s',
    s' = set_disk (set_bookData (list_to_map l ∪ bookData (disk s)) (disk s)) s).
Proof.
  revert s. induction l as [|[k b] l IH]; intros s Hnd; cbn [mapM_ fmap list_fmap] in *.
  { apply runs_ret. cbn. rewrite (left_id_L ∅ (∪)). by destruct s as [????????????? [] ?]. }
  apply NoDup_cons in Hnd as [Hk Hnd]. apply runs_bind, runs_modify.
  eapply runs_mono; [by apply IH|]. intros u s' ->. cbn. rewrite <-insert_union_l, <-insert_union_r; [done|].
  by apply not_elem_of_list_to_map_1.
Qed.

Lemma load_ids l s : NoDup (fst <$> l) →
  runs (mapM_ (λ kv, modify_disk (addOrderIDs (fst kv) (snd kv))) l) s (λ _ s',
    s' = set_disk (set_idsData (list_to_map l ∪ idsData (disk s)) (disk s)) s).
Proof.
  revert s. induction l as [|[k b] l IH]; intros s Hnd; cbn [mapM_ fmap list_fmap] in *.
  { apply runs_ret. cbn. rewrite (left_id_L ∅ (∪)). by destruct s as [????????????? [] ?]. }
  apply NoDup_cons in Hnd as [Hk Hnd]. apply runs_bind, runs_modify.
  eapply runs_mono; [by apply IH|]. intros u s' ->. cbn. rewrite <-insert_union_l, <-insert_union_r; [done|].
  by apply not_elem_of_list_to_map_1.
Qed.

Lemma kv_sorted_map {A} (m : gmap string A) : NoDup (fst <$> kv_sorted m) ∧ list_to_map (kv_sorted m) = m.
Proof.
  assert (NoDup (fst <$> kv_sorted m)) as Hnd by (rewrite kv_sorted_perm; apply NoDup_fst_map_to_list).
  split; [done|]. rewrite (list_to_map_proper _ (map_to_list m)); [apply list_to_map_to_list|done|apply kv_sorted_perm].
Qed.

Lemma BeginBlocker_restart c s :
  BeginBlocker (restart c s) = (Ok tt, set_disk (MkDiskCache (books s) ∅ ∅ (idsStore s) ∅ ∅
    (storeOrderNum s) (openOrderNum s) []) (set_cache (cache_reset c) (set_started true s))).
Proof.
  unfold BeginBlocker, ResetCache. rewrite (bind_eq _ _ _ (restart c s) (restart c s)) by done.
  cbn [started restart set_started]. unfold mbind at 1, M_bind at 1.
  destruct (kv_sorted_map (books s)) as [Hnd1 Hm1]. destruct (kv_sorted_map (idsStore s)) as [Hnd2 Hm2].
  rewrite (bind_eq _ _ _ tt (set_started true (restart c s))) by done.
  destruct (load_books (kv_sorted (books s)) (set_started true (restart c s)) Hnd1) as ([] & s1 & E1 & ->).
  change (books (restart c s)) with (books s). change (idsStore (restart c s)) with (idsStore s).
  rewrite (bind_eq _ _ _ _ _ E1). set (s1 := set_disk _ _).
  destruct (load_ids (kv_sorted (idsStore s)) s1 Hnd2) as ([] & s2 & -> & ->).
  subst s1. cbn. rewrite Hm1, Hm2, !(right_id_L ∅ (∪)). by destruct s.
Qed.
End block.
End OrderBlock.
