(* ===== verification/OrderTheorems.v ===== *)
(** * What the order module promises

    The theorems about the order module as a whole, on top of [OrderSpec],
    [OrderEngine] and [OrderBlock], and concrete runs that satisfy their hypotheses. *)

From S2P Require Import Prelude Runs SdkDec SdkCoins GoStd CoinFacts CommonErrors Common TokenErrors Token OrderErrors OrderTypes DepthBook Match DexErrors Dex OrderKeeper OrderBook OrderMatch OrderSpec OrderEngine OrderBlock.

#[local] Open Scope Z_scope.

Module OrderTheorems.
Import OrderKeeper OrderBook OrderMatch OrderSpec OrderEngine OrderBlock.

Section theorems.
Context `{DO : Dec.Ops} `{DL : !Dec.Laws} `{CO : !Coins.Ops} `{CL : !Coins.Laws}
  `{BO : !Bank.Ops} `{BL : !Bank.Laws} `{TE : !Token.Env} `{DE : !Dex.Env}
  `{RT : !GoRt} `{RL : !GoRtLaws} `{OE : OrderEnv}.

(** C2  No sequence of blocks with valid messages halts the order module: every begin
    blocker, message and end blocker returns, and the state after the last block is
    again one in which the ids at every price are exactly the open orders there, the
    depth books hold what is left of them, the cache is the store, and no id can be
    given out twice. *)
Theorem order_blocks_safe h l s : Idle h s → blocks_ok h l →
  ∃ s', run_blocks l s = (Ok tt, s') ∧ Idle (h + Z.of_nat (length l)) s'.
Proof. intros HI Hl. destruct (runs_blocks h l s HI Hl) as ([] & s' & E & H'). eauto. Qed.

(** The abstract order book: what is left of the open orders at a price of a side. *)
Definition open_quantity (os : gmap string Order) (pr : string) (p : Dec) (sd : string) : Z :=
  msum (λ o, if decide (Status o = OrderStatusOpen ∧ level o = (pr, p, sd)) then RemainQuantity o else 0) os.

Lemma open_quantity_lists os lv l : lists os lv l →
  msum (λ o, if decide (Status o = OrderStatusOpen ∧ level o = lv) then RemainQuantity o else 0) os =
  zsum (remain os <$> l).
Proof.
  set (f := λ o, if decide (Status o = OrderStatusOpen ∧ level o = lv) then RemainQuantity o else 0).
  revert os. induction l as [|id l IH]; intros os [Hnd Hin].
  - rewrite (msum_ext f (λ _, 0)).
    + unfold msum. induction (map_to_list os) as [|x m IH]; [done|]. rewrite fmap_cons, zsum_cons, IH. done.
    + intros id o Ho. unfold f. case_decide as Hd; [|done]. destruct Hd.
      destruct (not_elem_of_nil id). apply Hin. by exists o.
  - apply NoDup_cons in Hnd as [Hid Hnd]. destruct (proj1 (Hin id)) as (o & Ho & Hop & Hlv); [apply list_elem_of_here|].
    assert (lists (delete id os) lv l) as Hl.
    { split; [done|]. intros x. unfold open_at. rewrite lookup_delete. case_decide as Hx.
      - subst x. split; [done|]. by intros (? & ? & _).
      - specialize (Hin x). unfold open_at in Hin. rewrite <-Hin, elem_of_cons. naive_solver. }
    pose proof (msum_delete f os id) as E. rewrite (IH _ Hl), Ho in E. cbn in E.
    rewrite fmap_cons, zsum_cons. unfold remain at 1. rewrite Ho. cbn.
    assert (f o = RemainQuantity o) as Ef by (unfold f; by rewrite decide_True). rewrite Ef in E.
    rewrite (zsum_remain os (delete id os)) in E; [lia|]. intros x Hx. unfold remain.
    by rewrite lookup_delete_ne by (intros ->; done).
Qed.

(** C11  The depth book implements the book of open orders: after any sequence of blocks,
    the quantity at every price of every listed product is the sum of what is left of
    the open orders in the store, the ids there are those orders, each once, and book
    and ids in the store are those in memory. *)
Theorem depth_book_refines h l s s' pr p sd : Idle h s → blocks_ok h l → run_blocks l s = (Ok tt, s') →
  is_Some (Dex.pairs (dex s') !! pr) → valid_side sd →
  book_qty sd p (GetDepthBookCopy pr s') = open_quantity (orders s') pr p sd ∧
  NoDup (GetProductPriceOrderIDs (FormatOrderIDsKey pr p sd) s') ∧
  (∀ id, id ∈ GetProductPriceOrderIDs (FormatOrderIDsKey pr p sd) s' ↔
     ∃ o, orders s' !! id = Some o ∧ Status o = OrderStatusOpen ∧ level o = (pr, p, sd)) ∧
  GetDepthBookFromDB pr s' = GetDepthBookCopy pr s'.
Proof.
  intros HI Hl E [tp Htp] Hsd. destruct (runs_blocks h l s HI Hl) as ([] & s1 & E1 & [[HO _] [Hb _]]).
  rewrite E in E1. injection E1 as <-. pose proof (pw_colon _ _ (o_pairs _ HO _ _ Htp)) as Hg.
  pose proof (o_inv _ HO) as HB. pose proof (inv_ids _ _ HB pr p sd Hg Hsd) as Hlist.
  rewrite copy_bk. split; [|split; [apply Hlist|split; [apply Hlist|]]].
  - rewrite (inv_qty _ _ HB) by done. symmetry. by apply open_quantity_lists.
  - unfold GetDepthBookFromDB, bk. by rewrite Hb.
Qed.

(** C12  The auction clears: when the volume [E] was found for a product and the block's
    budget of deals is not used up by filling it, the buyers of the block have bought
    exactly [E], the sellers have sold exactly [E], and the product is not locked. *)
Theorem auction_clears ctx pr prec ref bp E rm fp budget h k s :
  Safe h k s → periodicAuctionMatchPrice (GetDepthBookCopy pr s) prec ref = Ok (bp, E) → 0 < E → 0 < budget →
  ∃ budget' rm' s', executeMatchedUpdatedProduct ctx (MkMatchResult (BlockHeight ctx) bp E []) rm fp budget pr s =
    (Ok (budget', rm'), s') ∧ Safe h k s' ∧
    (0 < budget' → ∃ mr, rm' !! pr = Some mr ∧ volume BuyOrder (mrDeals mr) = E ∧
       volume SellOrder (mrDeals mr) = E ∧ IsProductLocked pr s' = IsProductLocked pr s).
Proof.
  intros HS Hp HE Hbud. rewrite copy_bk in Hp. pose proof (o_inv _ (proj1 HS)) as HB.
  destruct (match_price_spec (bk pr (disk s)) prec ref (inv_book _ _ HB pr)) as (bp' & E' & Ep & Ha).
  rewrite Hp in Ep. injection Ep as <- <-.
  assert (exec_at (bk pr (disk s)) bp = E) as Hex by (destruct Ha; [lia|lia|done]).
  unfold exec_at in Hex. unfold executeMatchedUpdatedProduct.
  destruct (Z.leb_spec budget 0); [lia|]. cbn [mrPrice mrQuantity mrBlockHeight].
  destruct (runs_fillDepthBook ctx pr bp E Dec.ZeroDec Dec.ZeroDec budget fp s)
    as ([[[deals budget'] bex] sex] & s1 & Ef & H1 & H2 & H3 & H4 & H5 & H6 & H7); [done|dec_simp; lia|dec_simp; lia|].
  rewrite (bind_eq _ _ _ _ _ Ef). cbn beta iota zeta. cbn [mrQuantity]. dec_simp.
  pose proof (works_Safe h k _ _ H2 H1 HS) as HS1. set (mr := MkMatchResult _ _ _ _).
  assert (runs (if ((bex <? E)%Z || (sex <? E)%Z)%bool then lockProduct pr mr bex sex else mret tt) s1
    (λ _ s', Safe h k s' ∧ (bex = E → sex = E → s' = s1))) as ([] & s2 & El & HS2 & Hno).
  { case_match eqn:Ec; [|by apply runs_ret]. eapply runs_mono; [apply (runs_lock pr _ h k); [split; cbn; lia|done]|].
    cbn beta. intros u s' Hs'. split; [done|]. intros. apply orb_true_iff in Ec as [?%Z.ltb_lt|?%Z.ltb_lt]; lia. }
  rewrite (bind_eq _ _ _ _ _ El). eexists _, _, s2. split; [done|]. split; [done|]. intros Hb'.
  destruct (H7 Hb') as [Hb Hs]. exists mr. rewrite lookup_insert_eq. split; [done|].
  change (mrDeals mr) with deals. split; [lia|]. split; [lia|]. rewrite Hno by lia. apply (locked_rest pr s), H2.
Qed.

(** The price of a product, as a function of the state. *)
Lemma GetLastPrice_value pr s : price_ok s → ∃ s', GetLastPrice pr s = (Ok
  (match prices s !! pr with
   | Some x => x
   | None => match Dex.pairs (dex s) !! pr with Some tp => Dex.InitPrice tp | None => Dec.ZeroDec end
   end), s').
Proof.
  intros Hp. unfold GetLastPrice, getLastPrice, gets, mbind, M_bind. specialize (Hp pr).
  destruct (priceMap (disk s) !! pr) as [x|].
  - specialize (Hp x eq_refl). destruct (Dec.IsPositive x); cbn; rewrite Hp; by eexists.
  - dec_simp. cbn. destruct (prices s !! pr); [by eexists|].
    unfold Dex.GetTokenPair. destruct (Dex.pairs (dex s) !! pr); by eexists.
Qed.

(** C28  A restart is not observable: after a block, a node that lost its memory begins
    the next block with the same books, ids, counters and stores as a node that kept
    running (only the prices in memory are not loaded), and finds the same last price
    of every product. *)
Theorem restart_transparent h s c : Idle h s →
  ∃ running restarted, BeginBlocker s = (Ok tt, running) ∧
    BeginBlocker (restart c s) = (Ok tt, restarted) ∧
    set_disk (set_priceMap ∅ (disk running)) running = set_disk (set_priceMap ∅ (disk restarted)) restarted ∧
    ∀ pr, fst (GetLastPrice pr running) = fst (GetLastPrice pr restarted).
Proof.
  intros [[HO _] [Hb Hi]]. pose proof (o_started _ HO) as Hst. pose proof (o_price _ HO) as Hp.
  eexists _, _. split; [by apply BeginBlocker_started|]. split; [apply BeginBlocker_restart|]. split.
  - unfold began. rewrite Hb, Hi. destruct s. cbn in Hst. subst. done.
  - intros pr. set (s2 := set_disk _ _). assert (price_ok s2) as Hp2 by done.
    destruct (GetLastPrice_value pr (began s) Hp) as (? & ->). destruct (GetLastPrice_value pr s2 Hp2) as (? & ->).
    done.
Qed.

(** C29  An order pays for the blocks it was open, never more than what it locked when it
    was placed: fee per block times the blocks since its own, at most its lifetime.  So
    the difference that is given back is never negative and its computation, which would
    halt the chain at the end of a block, never panics. *)
Theorem order_fees_settle o ctx : money_wf o → ∃ locked cost receive,
  GetOrderNewFee o = Ok locked ∧ GetOrderCostFee o ctx = Ok [cost] ∧ Coins.Sub locked [cost] = Some receive ∧
  Amount cost = Amount (FeePerBlock o) *
    Z.min (OrderExpireBlocks o) (Z.max 0 (BlockHeight ctx - GetBlockHeightFromOrderID (OrderID o))) ∧
  ∀ d, 0 ≤ amt d [cost] ≤ amt d locked ∧ amt d receive = amt d locked - amt d [cost].
Proof.
  intros Hm. destruct (fees_settle o ctx Hm) as (locked & cost & receive & E1 & E2 & E3 & H').
  destruct (cost_fee o ctx Hm) as (c & E4 & Hc & _). rewrite E2 in E4. injection E4 as ->.
  exists locked, c, receive. done.
Qed.

(** C30  One item of a message that places orders either fails and leaves no trace at
    all, in the store or in memory, or adds exactly one order: open, of the sender, under
    an id that was not in use, on a listed product that is not locked. *)
Theorem place_item_result ctx sender item ratio k s : OInv s → Fresh (BlockHeight ctx) k s →
  0 ≤ BlockHeight ctx < 2 ^ 63 → k + 1 < 2 ^ 63 → item_wf item → ratio_ok ratio →
  ∃ res s', place_item ctx sender item ratio s = (Ok res, s') ∧
    match rError res with
    | Some _ => s' = s
    | None => ∃ o, orders s' = <[rOrderID res := o]> (orders s) ∧ orders s !! rOrderID res = None ∧
        Sender o = sender ∧ Product o = oiProduct item ∧ Status o = OrderStatusOpen ∧
        is_Some (Dex.pairs (dex s) !! oiProduct item) ∧ IsProductLocked (oiProduct item) s = false ∧
        rOrderID res ∈ GetProductPriceOrderIDs (FormatOrderIDsKey (Product o) (Price o) (Side o)) s' ∧ OInv s'
    end.
Proof.
  intros HI HF Hh Hk Hit Hr.
  destruct (runs_place_item ctx sender item ratio k s HI HF Hh Hk Hit Hr) as (res & s' & E & Hres).
  exists res, s'. split; [done|]. destruct (rError res); [done|].
  destruct Hres as (o & Hpl & Hse & Hpr & Hl & Hlk & Hid). pose proof (Fresh_new _ k s Hh Hk HF) as Hnew.
  pose proof (places_OInv _ _ _ _ HI Hl Hnew Hpl) as HI'. destruct (pl_order _ _ _ _ Hpl) as (o' & Eo & Hlv & Hse' & _).
  rewrite <-Hid in Eo, Hnew. injection Hlv as Ep _ _. exists o'. rewrite <-Hpr.
  assert (orders s' !! rOrderID res = Some o') as Ho' by (by rewrite Eo, lookup_insert_eq).
  assert (is_open o') as Hop.
  { pose proof (pl_open _ _ _ _ Hpl) as Hopen. rewrite <-Hid in Hopen. by apply (Hopen o'). }
  pose proof (inv_wf _ _ (o_inv _ HI') _ _ Ho' Hop) as Hwf.
  split; [done|]. split; [apply eq_None_not_Some; intros ?; apply Hnew; by left|].
  split; [congruence|]. split; [done|]. split; [done|]. split; [done|]. split; [done|]. split; [|done].
  apply (inv_ids _ _ (o_inv _ HI')); [apply Hwf|apply Hwf|]. by exists o'.
Qed.

(** A message that cancels orders never panics and changes no order but open ones of
    its sender that it names and whose product is not locked; those it closes. *)
Theorem cancel_authority ctx msg k s r s' : OInv s → Fresh (BlockHeight ctx) k s →
  handleMsgCancelOrders ctx msg s = (r, s') →
  r ≠ Panic ∧ OInv s' ∧ ∀ id, orders s' !! id ≠ orders s !! id → ∃ o o',
    orders s !! id = Some o ∧ orders s' !! id = Some o' ∧ id ∈ OrderIDs msg ∧ Sender o = cosSender msg ∧
    IsProductLocked (Product o) s = false ∧ Status o = OrderStatusOpen ∧ Status o' ≠ OrderStatusOpen.
Proof.
  intros HI HF E. destruct (cancel_cases ctx msg k s HI HF) as [(u & s1 & E1 & Hc)|(e & E1)];
    rewrite E in E1; injection E1 as -> ->; [|done].
  split; [done|]. split; [apply Hc|]. intros id Hne. destruct (co_orders _ _ _ _ _ Hc id) as [|Hx]; [done|].
  destruct Hx as (o & o' & Ho & Ho' & Hop & (Hin & Hse & Hlk) & (Hcl & _)). by exists o, o'.
Qed.

(** C27  Filling a product returns for every budget: the loops over the levels of the book
    end within the number of levels, no order they look up is missing and no slice is
    indexed out of range; each side executes between what it had and the volume of the
    match, the deals are exactly that, and the book stays in order. *)
Theorem fillDepthBook_returns ctx pr best max bex sex budget fp s :
  BookInv s → 0 ≤ bex ≤ max → 0 ≤ sex ≤ max →
  ∃ deals budget' bex' sex' s',
    fillDepthBook ctx pr best max bex sex budget fp s = (Ok (deals, budget', bex', sex'), s') ∧
    BookInv s' ∧ bex ≤ bex' ≤ max ∧ sex ≤ sex' ≤ max ∧
    volume BuyOrder deals = bex' - bex ∧ volume SellOrder deals = sex' - sex.
Proof.
  intros HI Hb Hs. destruct (runs_fillDepthBook ctx pr best max bex sex budget fp s HI Hb Hs)
    as ([[[deals budget'] bex'] sex'] & s' & E & H1 & _ & H3 & H4 & H5 & H6 & _).
  exists deals, budget', bex', sex', s'. done.
Qed.
End theorems.

(** ** Witnesses: two blocks of orders on one product *)

#[local] Existing Instance Dec18.ops.
#[local] Existing Instance Dec18.dec_laws.
#[local] Existing Instance CoinsImpl.ops.
#[local] Existing Instance CoinsImpl.coins_laws.
#[local] Existing Instance BankImpl.ops.
#[local] Existing Instance BankImpl.bank_laws.
#[local] Existing Instance GoRtImpl.ops.
#[local] Existing Instance GoRtImpl.laws.

#[local] Instance ex_env : Token.Env := {|
  Token.HigherThanMercury _ := false;
  Token.EthCodeHash _ _ := None;
  Token.Keccak256_nil := "";
  Token.tmhash_hex s := s;
  Token.feeCollectorName := "fee_collector";
  Token.enableBackend := true;
|}.

#[local] Instance ex_dex_env : Dex.Env := {|
  Dex.IsValidator _ := true;
  Dex.url_scheme _ := Some "https";
  Dex.tmhash_HEX s := s;
|}.

(** Appending nothing to a slice gives the slice. *)
#[local] Instance ex_order_env : OrderEnv := {| append_shares n k := (k =? 0)%nat |}.

Definition coin (d : string) (n : Z) : SysCoin := MkCoin d (n * 10 ^ 18).

Definition ex_pair : Dex.TokenPair :=
  Dex.MkTokenPair "xxb" "okt" (10 * 10 ^ 18) 8 8 1 1 false "carol" (coin "okt" 0) 0.

Definition ex_dex : Dex.DexState :=
  Dex.MkDexState _
    (Token.MkTokenState _
       (BankImpl.MkSt {[ "alice" := [coin "okt" 1000]; "bob" := [coin "okt" 10; coin "xxb" 1000] ]}
          {[ "okt" := 1010 * 10 ^ 18; "xxb" := 1000 * 10 ^ 18 ]})
       ∅ ∅ 0 ∅ ∅ ∅
       (Token.MkParams (coin "okt" 5) (coin "okt" 1) (coin "okt" 1) (coin "okt" 1) (coin "okt" 1) 100) [])
    {[ "xxb_okt" := ex_pair ]}
    {[ ("carol", "xxb_okt") ]} 1 ∅ ∅ ∅ ∅ ∅
    (Dex.MkParams (coin "okt" 1) (coin "okt" 1) (coin "okt" 1) 10 [coin "okt" 1] 10 10 1000) ∅.

Definition ex_cache : Cache := MkCache [] None [] 0 0 0 0.

Definition ex_start : OrderState :=
  MkOrderState _ ex_dex ∅ ∅ ∅ ∅ ∅ ∅ [] 0 0 0
    (MkOrderParams 100 1000 (MkCoin "okt" 1000) (10 ^ 15) 1 1) ex_cache newDiskCache true.

Lemma empty_Inv : Inv ∅ newDiskCache.
Proof.
  split; try done.
  - intros pr p sd _ _. split; [constructor|]. intros id. split; [by intros ?%not_elem_of_nil|].
    by intros (o & Ho & _).
  - intros pr. split; constructor.
Qed.

Lemma ex_idle : Idle 0 ex_start.
Proof.
  split; [split; split|]; try done.
  - apply empty_Inv.
  - intros pr tp Hp. change (({[ "xxb_okt" := ex_pair ]} : gmap string Dex.TokenPair) !! pr = Some tp) in Hp.
    apply lookup_singleton_Some in Hp as [<- <-]. split; [by repeat split|done|]. by exists "xxb", "okt".
  - intros id. unfold known. cbn. rewrite lookup_empty, !elem_of_nil. intros [[]|[[]|[]]]; done.
Qed.

Definition at_height (h : Z) : Context := MkContext h (h * 10 ^ 9) "tx".
Definition ex_order (sender side : string) (price quantity : Z) : Msg :=
  MNewOrders (MkMsgNewOrders sender
    [MkOrderItem "xxb_okt" side (price * 10 ^ 18) (quantity * 10 ^ 18)]).

(** Crossing orders, then orders that rest in the book. *)
Definition ex_crossing : list Msg := [ex_order "alice" "BUY" 11 3; ex_order "bob" "SELL" 9 2].
Definition ex_resting : list Msg := [ex_order "alice" "BUY" 5 1; ex_order "bob" "SELL" 20 4].
Definition ex_blocks : list (Context * list Msg) :=
  [(at_height 1, ex_crossing); (at_height 2, ex_resting)].

Lemma ex_blocks_ok : blocks_ok 0 ex_blocks.
Proof.
  split; [|split; [|done]]; (split; [done|lia| |cbn; lia]);
    repeat (apply Forall_cons; split; [vm_compute; reflexivity|]); apply Forall_nil; done.
Qed.

Definition ex_after : OrderState := snd (run_blocks ex_blocks ex_start).

Lemma ex_run : run_blocks ex_blocks ex_start = (Ok tt, ex_after).
Proof. unfold ex_after. refine (run_ok (run_blocks ex_blocks) ex_start tt _). vm_compute. reflexivity. Qed.

(** The crossing orders traded 2 at the price of the match, the rest is in the book. *)
Lemma ex_traded :
  (λ o, (OrderID o, Status o, RemainQuantity o)) <$> (snd <$> kv_sorted (orders ex_after)) =
    [("ID0000000001-1", OrderStatusOpen, 10 ^ 18); ("ID0000000002-1", OrderStatusOpen, 10 ^ 18);
     ("ID0000000002-2", OrderStatusOpen, 4 * 10 ^ 18)] ∧
  GetDepthBookCopy "xxb_okt" ex_after =
    [MkItem (20 * 10 ^ 18) 0 (4 * 10 ^ 18); MkItem (11 * 10 ^ 18) (10 ^ 18) 0; MkItem (5 * 10 ^ 18) (10 ^ 18) 0].
Proof. vm_compute. split; reflexivity. Qed.

Lemma order_blocks_safe_witness :
  ∃ s', run_blocks ex_blocks ex_start = (Ok tt, s') ∧ Idle 2 s'.
Proof. apply (order_blocks_safe 0 ex_blocks ex_start ex_idle ex_blocks_ok). Defined.

Lemma ex_after_listed : is_Some (Dex.pairs (dex ex_after) !! "xxb_okt").
Proof. exists ex_pair. vm_compute. reflexivity. Qed.

Lemma depth_book_refines_witness :
  book_qty BuyOrder (11 * 10 ^ 18) (GetDepthBookCopy "xxb_okt" ex_after) =
    open_quantity (orders ex_after) "xxb_okt" (11 * 10 ^ 18) BuyOrder ∧
  NoDup (GetProductPriceOrderIDs (FormatOrderIDsKey "xxb_okt" (11 * 10 ^ 18) BuyOrder) ex_after).
Proof.
  destruct (depth_book_refines 0 ex_blocks ex_start ex_after "xxb_okt" (11 * 10 ^ 18) BuyOrder
    ex_idle ex_blocks_ok ex_run ex_after_listed (or_introl eq_refl)) as (H1 & H2 & _).
  exact (conj H1 H2).
Defined.

(** The first block just before its end. *)
Definition ex_mid : OrderState := foldl (λ s m, deliver (at_height 1) m s) (began ex_start) ex_crossing.

Lemma ex_mid_safe : Safe 1 400 ex_mid.
Proof.
  apply (Safe_deliver (at_height 1) ex_crossing 1 0); [done|lia|apply (began_Safe 0), ex_idle| |cbn; lia].
  apply ex_blocks_ok.
Qed.

Lemma ex_mid_price : periodicAuctionMatchPrice (GetDepthBookCopy "xxb_okt" ex_mid) 8 (10 * 10 ^ 18) =
  Ok (105 * 10 ^ 17, 2 * 10 ^ 18).
Proof. vm_compute. reflexivity. Qed.

Lemma auction_clears_witness : ∃ budget' rm' s',
  executeMatchedUpdatedProduct (at_height 1) (MkMatchResult 1 (105 * 10 ^ 17) (2 * 10 ^ 18) []) ∅
    (oparams ex_mid) 1000 "xxb_okt" ex_mid = (Ok (budget', rm'), s') ∧ Safe 1 400 s' ∧
  (0 < budget' → ∃ mr, rm' !! "xxb_okt" = Some mr ∧ volume BuyOrder (mrDeals mr) = 2 * 10 ^ 18 ∧
     volume SellOrder (mrDeals mr) = 2 * 10 ^ 18 ∧
     IsProductLocked "xxb_okt" s' = IsProductLocked "xxb_okt" ex_mid).
Proof.
  exact (auction_clears (at_height 1) "xxb_okt" 8 (10 * 10 ^ 18) (105 * 10 ^ 17) (2 * 10 ^ 18) ∅ (oparams ex_mid)
    1000 1 400 ex_mid ex_mid_safe ex_mid_price ltac:(lia) ltac:(lia)).
Defined.

Lemma fillDepthBook_returns_witness : ∃ deals budget' bex' sex' s',
  fillDepthBook (at_height 1) "xxb_okt" (105 * 10 ^ 17) (2 * 10 ^ 18) 0 0 1 (oparams ex_mid) ex_mid =
    (Ok (deals, budget', bex', sex'), s') ∧ BookInv s' ∧ 0 ≤ bex' ≤ 2 * 10 ^ 18 ∧ 0 ≤ sex' ≤ 2 * 10 ^ 18 ∧
  volume BuyOrder deals = bex' - 0 ∧ volume SellOrder deals = sex' - 0.
Proof.
  apply (fillDepthBook_returns (at_height 1) "xxb_okt" (105 * 10 ^ 17) (2 * 10 ^ 18) 0 0 1 (oparams ex_mid) ex_mid);
    [apply ex_mid_safe|lia|lia].
Defined.

Lemma ex_after_idle : Idle 2 ex_after.
Proof. exact (runs_eq _ _ _ _ _ ex_run (runs_blocks 0 ex_blocks ex_start ex_idle ex_blocks_ok)). Qed.

Lemma restart_transparent_witness : ∃ running restarted,
  BeginBlocker ex_after = (Ok tt, running) ∧ BeginBlocker (restart ex_cache ex_after) = (Ok tt, restarted) ∧
  set_disk (set_priceMap ∅ (disk running)) running = set_disk (set_priceMap ∅ (disk restarted)) restarted ∧
  ∀ pr, fst (GetLastPrice pr running) = fst (GetLastPrice pr restarted).
Proof. exact (restart_transparent 2 ex_after ex_cache ex_after_idle). Defined.

Definition ex_open : Order :=
  MkOrder "" "ID0000000001-1" "alice" "xxb_okt" "BUY" (11 * 10 ^ 18) (3 * 10 ^ 18) OrderStatusOpen 0
    (10 ^ 18) 0 0 100 (MkCoin "okt" 1000) ∅.

Lemma ex_open_money : money_wf ex_open.
Proof. split; cbn; [by exists "xxb", "okt"|done|lia|lia]. Qed.

Lemma order_fees_settle_witness : ∃ locked cost receive,
  GetOrderNewFee ex_open = Ok locked ∧ GetOrderCostFee ex_open (at_height 31) = Ok [cost] ∧
  Coins.Sub locked [cost] = Some receive ∧ Amount cost = 30000 ∧
  ∀ d, 0 ≤ amt d [cost] ≤ amt d locked ∧ amt d receive = amt d locked - amt d [cost].
Proof. exact (order_fees_settle ex_open (at_height 31) ex_open_money). Defined.

Definition ex_item : OrderItem := MkOrderItem "xxb_okt" "BUY" (6 * 10 ^ 18) (10 ^ 18).

Lemma place_item_result_witness :
  ∃ res s', place_item (at_height 1) "alice" ex_item "1" ex_mid = (Ok res, s') ∧
    match rError res with
    | Some _ => s' = ex_mid
    | None => ∃ o, orders s' = <[rOrderID res := o]> (orders ex_mid) ∧ orders ex_mid !! rOrderID res = None ∧
        Sender o = "alice" ∧ Product o = "xxb_okt" ∧ Status o = OrderStatusOpen ∧
        is_Some (Dex.pairs (dex ex_mid) !! "xxb_okt") ∧ IsProductLocked "xxb_okt" ex_mid = false ∧
        rOrderID res ∈ GetProductPriceOrderIDs (FormatOrderIDsKey (Product o) (Price o) (Side o)) s' ∧ OInv s'
    end.
Proof.
  apply (place_item_result (at_height 1) "alice" ex_item "1" 400 ex_mid (proj1 ex_mid_safe) (proj2 ex_mid_safe));
    [cbn; lia|lia|split; [by left|cbn; lia|cbn; lia]|unfold ratio_ok; vm_compute; done].
Defined.

Definition ex_cancel : MsgCancelOrders := MkMsgCancelOrders "alice" ["ID0000000001-1"; "ID0000000002-2"].

Lemma cancel_authority_witness :
  fst (handleMsgCancelOrders (at_height 3) ex_cancel ex_after) = Ok tt ∧
  OInv (snd (handleMsgCancelOrders (at_height 3) ex_cancel ex_after)).
Proof.
  split; [vm_compute; reflexivity|].
  apply (cancel_authority (at_height 3) ex_cancel 0 ex_after _ _ (proj1 (proj1 ex_after_idle))
    (proj2 (proj1 ex_after_idle)) (surjective_pairing _)).
Defined.

(** ** A delisted product *)

(** Three buy orders at one price, then the pair is gone, as a passed delist proposal
    leaves it. *)
Definition ex_three : OrderState :=
  snd (run_block (at_height 1) [ex_order "alice" "BUY" 5 1; ex_order "alice" "BUY" 5 1; ex_order "alice" "BUY" 5 1]
         ex_start).
Definition ex_delisted : OrderState := set_dex (Dex.set_pairs ∅ (dex ex_three)) ex_three.

(** The end of a block is to cancel the orders of delisted products, but it ranges over
    the slice that the cancellations shorten: of three buy orders at one price the first is
    cancelled, the third twice, and the second stays open with its coins locked, while the
    depth book of the product is gone and the number of open orders is zero. *)
Theorem delisting_skips_order : ∃ s', run_block (at_height 2) [] ex_delisted = (Ok tt, s') ∧
  (λ o, (OrderID o, Status o)) <$> (snd <$> kv_sorted (orders s')) =
    [("ID0000000001-1", OrderStatusCancelled); ("ID0000000001-2", OrderStatusOpen);
     ("ID0000000001-3", OrderStatusCancelled)] ∧
  lastClosed s' = ["ID0000000001-1"; "ID0000000001-3"; "ID0000000001-3"] ∧
  books s' = ∅ ∧ openOrderNum s' = 0 ∧ Token.GetLockedCoins "alice" (tok s') = [coin "okt" 5].
Proof.
  eexists. split; [refine (run_ok (run_block (at_height 2) []) ex_delisted tt _); vm_compute; reflexivity|].
  vm_compute. repeat split; reflexivity.
Qed.
End OrderTheorems.
