(* ===== verification/Farm.v ===== *)
(** * The farm module: src/x/farm/{abci,handler,handler_pool,handler_lock,genesis,proposal_handler}.go,
      src/x/farm/{keeper,types}

    Yield farming: pools in which accounts lock coins and earn a share of the
    tokens the pool yields.  [FarmState] is the swap module's state (which holds
    the token module's and the bank's) and the farm store.  The store's keys are
    byte strings; an address has a fixed length, so the keys of lock infos are
    modelled as pairs, and the eight bytes of a period are the tail of a history
    key, so those are pairs too.  Where the source iterates over a prefix of a key,
    the bytes are compared as it does.

    Block heights are int64 values that are not negative, so that their
    differences do not overflow; periods are uint64 with their wrap-around.  The
    observers notified of a claim (the backend) are the log [claims]. *)

From S2P Require Import Prelude SdkDec SdkCoins GoStd CommonErrors Common FarmErrors Token Swap.

#[local] Open Scope Z_scope.

Module Farm.

Definition ModuleName : string := "farm".
Definition MintFarmingAccount : string := "mint_farming_account".
Definition YieldFarmingAccount : string := "yield_farming_account".
Definition MaxPoolNameLength : nat := 128.
Definition PeriodByteArrayLength : nat := 8.

(** ** Data *)

Record YieldedTokenInfo := MkYieldedTokenInfo {
  RemainingAmount : SysCoin;
  StartBlockHeightToYield : Z;
  AmountYieldedPerBlock : Dec;
}.

Record FarmPool := MkFarmPool {
  Owner : AccAddress;
  Name : string;
  MinLockAmount : SysCoin;
  DepositAmount : SysCoin;
  TotalValueLocked : SysCoin;
  YieldedTokenInfos : list YieldedTokenInfo;
  TotalAccumulatedRewards : SysCoins;
}.

Record LockInfo := MkLockInfo {
  liOwner : AccAddress;
  liPoolName : string;
  liAmount : SysCoin;
  liStartBlockHeight : Z;
  ReferencePeriod : Z;
}.

Record PoolHistoricalRewards := MkHistorical {
  CumulativeRewardRatio : SysCoins;
  ReferenceCount : Z;
}.

Record PoolCurrentRewards := MkCurrent {
  crStartBlockHeight : Z;
  Period : Z;
  Rewards : SysCoins;
}.

Record Params := MkParams {
  QuoteSymbol : string;
  CreatePoolFee : SysCoin;
  CreatePoolDeposit : SysCoin;
  YieldNativeToken : bool;
}.

Record Earnings := MkEarnings {
  TargetBlockHeight : Z;
  AmountLocked : SysCoin;
  AmountYielded : SysCoins;
}.

Record ManageWhiteListProposal := MkManageWhiteListProposal {
  Title : string; Description : string; wlPoolName : string; IsAdded : bool
}.

(** The coins a field update writes. *)
Definition set_infos (x : list YieldedTokenInfo) (p : FarmPool) : FarmPool :=
  MkFarmPool (Owner p) (Name p) (MinLockAmount p) (DepositAmount p) (TotalValueLocked p) x
    (TotalAccumulatedRewards p).
Definition set_accumulated (x : SysCoins) (p : FarmPool) : FarmPool :=
  MkFarmPool (Owner p) (Name p) (MinLockAmount p) (DepositAmount p) (TotalValueLocked p)
    (YieldedTokenInfos p) x.
Definition set_locked (x : SysCoin) (p : FarmPool) : FarmPool :=
  MkFarmPool (Owner p) (Name p) (MinLockAmount p) (DepositAmount p) x
    (YieldedTokenInfos p) (TotalAccumulatedRewards p).
Definition set_Rewards (x : SysCoins) (c : PoolCurrentRewards) : PoolCurrentRewards :=
  MkCurrent (crStartBlockHeight c) (Period c) x.

(** ** Messages *)

Record MsgCreatePool := MkMsgCreatePool {
  cpOwner : AccAddress; cpPoolName : string; cpMinLockAmount : SysCoin; YieldedSymbol : string
}.
Record MsgDestroyPool := MkMsgDestroyPool { dpOwner : AccAddress; dpPoolName : string }.
Record MsgProvide := MkMsgProvide {
  prPoolName : string; prAddress : AccAddress; prAmount : SysCoin;
  prAmountYieldedPerBlock : Dec; StartHeightToYield : Z
}.
Record MsgLock := MkMsgLock { loPoolName : string; loAddress : AccAddress; loAmount : SysCoin }.
Record MsgUnlock := MkMsgUnlock { unPoolName : string; unAddress : AccAddress; unAmount : SysCoin }.
Record MsgClaim := MkMsgClaim { clPoolName : string; clAddress : AccAddress }.

Inductive Msg :=
| MCreatePool (m : MsgCreatePool)
| MDestroyPool (m : MsgDestroyPool)
| MProvide (m : MsgProvide)
| MLock (m : MsgLock)
| MUnlock (m : MsgUnlock)
| MClaim (m : MsgClaim)
| MOther.

(** GetSigners: each message has one. *)
Definition signer (m : Msg) : AccAddress :=
  match m with
  | MCreatePool m => cpOwner m
  | MDestroyPool m => dpOwner m
  | MProvide m => prAddress m
  | MLock m => loAddress m
  | MUnlock m => unAddress m
  | MClaim m => clAddress m
  | MOther => ""
  end.

Section validate.
Context `{DO : Dec.Ops} `{CO : Coins.Ops}.

(** m.PoolName == "" || len(m.PoolName) > MaxPoolNameLength *)
Definition bad_name (name : string) : bool :=
  (String.eqb name "" || (MaxPoolNameLength <? String.length name)%nat)%bool.

Definition MsgCreatePool_ValidateBasic (m : MsgCreatePool) : outcome unit :=
  if Token.Empty (cpOwner m) then Err FarmErr.ErrNilAddress
  else if bad_name (cpPoolName m) then Err FarmErr.ErrPoolNameLength
  else if (Dec.LT (Amount (cpMinLockAmount m)) Dec.ZeroDec
           || negb (Coins.CoinIsValid (cpMinLockAmount m)))%bool then Err FarmErr.ErrInvalidInputAmount
  else if String.eqb (YieldedSymbol m) "" then Err FarmErr.ErrInvalidInput
  else Ok tt.

Definition MsgDestroyPool_ValidateBasic (m : MsgDestroyPool) : outcome unit :=
  if Token.Empty (dpOwner m) then Err FarmErr.ErrNilAddress
  else if bad_name (dpPoolName m) then Err FarmErr.ErrPoolNameLength
  else Ok tt.

Definition MsgProvide_ValidateBasic (m : MsgProvide) : outcome unit :=
  if bad_name (prPoolName m) then Err FarmErr.ErrInvalidInput
  else if Token.Empty (prAddress m) then Err FarmErr.ErrNilAddress
  else if (Dec.LTE (Amount (prAmount m)) Dec.ZeroDec || negb (Coins.CoinIsValid (prAmount m)))%bool
  then Err FarmErr.ErrInvalidInputAmount
  else if Dec.LTE (prAmountYieldedPerBlock m) Dec.ZeroDec then Err FarmErr.ErrInvalidInput
  else if Dec.LT (Amount (prAmount m)) (prAmountYieldedPerBlock m) then Err FarmErr.ErrInvalidInput
  else if (StartHeightToYield m <=? 0)%Z then Err FarmErr.ErrInvalidInput
  else Ok tt.

Definition MsgLock_ValidateBasic (m : MsgLock) : outcome unit :=
  if bad_name (loPoolName m) then Err FarmErr.ErrInvalidInput
  else if Token.Empty (loAddress m) then Err FarmErr.ErrNilAddress
  else if (Dec.LTE (Amount (loAmount m)) Dec.ZeroDec || negb (Coins.CoinIsValid (loAmount m)))%bool
  then Err FarmErr.ErrInvalidInputAmount
  else Ok tt.

Definition MsgUnlock_ValidateBasic (m : MsgUnlock) : outcome unit :=
  if bad_name (unPoolName m) then Err FarmErr.ErrInvalidInput
  else if Token.Empty (unAddress m) then Err FarmErr.ErrNilAddress
  else if (Dec.LTE (Amount (unAmount m)) Dec.ZeroDec || negb (Coins.CoinIsValid (unAmount m)))%bool
  then Err FarmErr.ErrInvalidInputAmount
  else Ok tt.

Definition MsgClaim_ValidateBasic (m : MsgClaim) : outcome unit :=
  if bad_name (clPoolName m) then Err FarmErr.ErrInvalidInput
  else if Token.Empty (clAddress m) then Err FarmErr.ErrNilAddress
  else Ok tt.

Definition ValidateBasic (m : Msg) : outcome unit :=
  match m with
  | MCreatePool m => MsgCreatePool_ValidateBasic m
  | MDestroyPool m => MsgDestroyPool_ValidateBasic m
  | MProvide m => MsgProvide_ValidateBasic m
  | MLock m => MsgLock_ValidateBasic m
  | MUnlock m => MsgUnlock_ValidateBasic m
  | MClaim m => MsgClaim_ValidateBasic m
  | MOther => Ok tt
  end.

(** FarmPool.Finished *)
Definition Finished (fp : FarmPool) : bool :=
  (forallb (λ i, negb (Coins.CoinIsPositive (RemainingAmount i))) (YieldedTokenInfos fp)
   && Coins.CoinIsZero (TotalValueLocked fp))%bool.

Definition DefaultParams : outcome Params :=
  fee ← or_panic (Coins.NewDecCoinFromDec Common.NativeToken (Dec.MustNewDecFromStr "0"));
  deposit ← or_panic (Coins.NewDecCoinFromDec Common.NativeToken (Dec.MustNewDecFromStr "10"));
  Ok (MkParams "usdk" fee deposit false).

(** The validators of ParamSetPairs, in its order. *)
Definition validate_params (p : Params) : outcome unit :=
  _ ← Common.ValidateDenom (Common.IString (QuoteSymbol p));
  _ ← Common.ValidateSysCoin (Common.ISysCoin (CreatePoolFee p));
  _ ← Common.ValidateSysCoin (Common.ISysCoin (CreatePoolDeposit p));
  Common.ValidateBool (Common.IBool (YieldNativeToken p)).
End validate.

(** ** Keys (key.go) *)

Definition prefix_byte (b : nat) : string := String (Ascii.ascii_of_nat b) "".
Definition PoolHistoricalRewardsPrefix : string := prefix_byte 5.

Definition GetPoolHistoricalRewardsKey (poolName : string) (period : Z) : string :=
  PoolHistoricalRewardsPrefix +:+ (poolName +:+ le_bytes PeriodByteArrayLength period).

Definition GetPoolHistoricalRewardsPrefix (poolName : string) : string :=
  PoolHistoricalRewardsPrefix +:+ poolName.

(** The pool name and period of a history key (historical_reward.go).  The first
    slice panics on a key of less than nine bytes. *)
Definition GetPoolHistoricalRewardsPoolNamePeriod (key : string) : outcome (string * Z) :=
  let len := String.length key in
  if (len <? 1 + PeriodByteArrayLength)%nat then Panic
  else
    let name := String.substring 1 (len - PeriodByteArrayLength - 1) key in
    if (MaxPoolNameLength <? String.length name)%nat then Panic
    else if (len <=? PeriodByteArrayLength + String.length PoolHistoricalRewardsPrefix)%nat then Panic
    else
      let b := String.substring (len - PeriodByteArrayLength) PeriodByteArrayLength key in
      Ok (name, le_value b).

Definition GetAddressInFarmPoolKey (poolName : string) (addr : AccAddress) : string :=
  poolName +:+ addr.

(** ** State and store *)

Section keeper.
Context `{DO : Dec.Ops} `{CO : Coins.Ops} `{BO : Bank.Ops} `{E : !Token.Env}.

Record FarmState := MkFarmState {
  swap : Swap.SwapState;
  pools : gmap string FarmPool;
  addressInPool : gset string;
  locks : gmap (AccAddress * string) LockInfo;
  whitelist : gset string;
  hist : gmap (string * Z) PoolHistoricalRewards;
  current : gmap string PoolCurrentRewards;
  fparams : Params;
  claims : list (AccAddress * string * SysCoins);
}.

Abbreviation MF := (M FarmState) (only parsing).

Definition set_swap (x : Swap.SwapState) (s : FarmState) : FarmState :=
  MkFarmState x (pools s) (addressInPool s) (locks s) (whitelist s) (hist s) (current s) (fparams s) (claims s).
Definition set_pools (x : gmap string FarmPool) (s : FarmState) : FarmState :=
  MkFarmState (swap s) x (addressInPool s) (locks s) (whitelist s) (hist s) (current s) (fparams s) (claims s).
Definition set_addressInPool (x : gset string) (s : FarmState) : FarmState :=
  MkFarmState (swap s) (pools s) x (locks s) (whitelist s) (hist s) (current s) (fparams s) (claims s).
Definition set_locks (x : gmap (AccAddress * string) LockInfo) (s : FarmState) : FarmState :=
  MkFarmState (swap s) (pools s) (addressInPool s) x (whitelist s) (hist s) (current s) (fparams s) (claims s).
Definition set_whitelist (x : gset string) (s : FarmState) : FarmState :=
  MkFarmState (swap s) (pools s) (addressInPool s) (locks s) x (hist s) (current s) (fparams s) (claims s).
Definition set_hist (x : gmap (string * Z) PoolHistoricalRewards) (s : FarmState) : FarmState :=
  MkFarmState (swap s) (pools s) (addressInPool s) (locks s) (whitelist s) x (current s) (fparams s) (claims s).
Definition set_current (x : gmap string PoolCurrentRewards) (s : FarmState) : FarmState :=
  MkFarmState (swap s) (pools s) (addressInPool s) (locks s) (whitelist s) (hist s) x (fparams s) (claims s).
Definition set_fparams (x : Params) (s : FarmState) : FarmState :=
  MkFarmState (swap s) (pools s) (addressInPool s) (locks s) (whitelist s) (hist s) (current s) x (claims s).
Definition set_claims (x : list (AccAddress * string * SysCoins)) (s : FarmState) : FarmState :=
  MkFarmState (swap s) (pools s) (addressInPool s) (locks s) (whitelist s) (hist s) (current s) (fparams s) x.

(** A call of the supply keeper. *)
Definition on_supply {A} (m : M Bank.state A) : MF A := zoom swap set_swap (Swap.on_supply m).
Definition bank (s : FarmState) : Bank.state := Token.bank (Swap.tok (swap s)).
Definition TokenExist (symbol : string) (s : FarmState) : bool :=
  Token.TokenExist symbol (Swap.tok (swap s)).
Definition module_coins (name : string) (s : FarmState) : SysCoins :=
  Bank.GetCoins (bank s) (Bank.GetModuleAddress name).

Definition SetFarmPool (pool : FarmPool) : MF unit :=
  modify (λ s, set_pools (<[Name pool := pool]> (pools s)) s).
Definition GetFarmPool (poolName : string) (s : FarmState) : option FarmPool := pools s !! poolName.
Definition HasFarmPool (poolName : string) (s : FarmState) : bool :=
  bool_decide (is_Some (pools s !! poolName)).

(** Deletes the whitelist entry, then the pool. *)
Definition DeleteFarmPool (poolName : string) : MF unit :=
  modify (λ s, set_whitelist (whitelist s ∖ {[poolName]}) s);;
  modify (λ s, set_pools (delete poolName (pools s)) s).

Definition lock_key (k : AccAddress * string) : string := fst k +:+ snd k.
Definition hist_key (k : string * Z) : string := GetPoolHistoricalRewardsKey (fst k) (snd k).

Definition GetFarmPoolNamesForAccount (accAddr : AccAddress) (s : FarmState) : list string :=
  (λ kx, snd (fst kx)) <$> filter (λ kx, fst (fst kx) = accAddr) (keyed_sorted lock_key (locks s)).

(** The addresses are what is left of the keys that start with the pool's name. *)
Definition getAccountsLockedTo (poolName : string) (s : FarmState) : list AccAddress :=
  (λ k, String.substring (String.length poolName) (String.length k - String.length poolName) k)
    <$> filter (λ k, String.prefix poolName k = true) (set_sorted (addressInPool s)).

Definition getPoolNum (s : FarmState) : nat := size (pools s).
Definition GetFarmPools (s : FarmState) : list FarmPool := snd <$> kv_sorted (pools s).

Definition SetAddressInFarmPool (poolName : string) (addr : AccAddress) : MF unit :=
  modify (λ s, set_addressInPool ({[GetAddressInFarmPoolKey poolName addr]} ∪ addressInPool s) s).
Definition HasAddressInFarmPool (poolName : string) (addr : AccAddress) (s : FarmState) : bool :=
  bool_decide (GetAddressInFarmPoolKey poolName addr ∈ addressInPool s).
Definition DeleteAddressInFarmPool (poolName : string) (addr : AccAddress) : MF unit :=
  modify (λ s, set_addressInPool (addressInPool s ∖ {[GetAddressInFarmPoolKey poolName addr]}) s).

Definition SetLockInfo (l : LockInfo) : MF unit :=
  modify (λ s, set_locks (<[(liOwner l, liPoolName l) := l]> (locks s)) s).
Definition GetLockInfo (addr : AccAddress) (poolName : string) (s : FarmState) : option LockInfo :=
  locks s !! (addr, poolName).
Definition HasLockInfo (addr : AccAddress) (poolName : string) (s : FarmState) : bool :=
  bool_decide (is_Some (locks s !! (addr, poolName))).
Definition DeleteLockInfo (addr : AccAddress) (poolName : string) : MF unit :=
  modify (λ s, set_locks (delete (addr, poolName) (locks s)) s).
Definition all_locks (s : FarmState) : list LockInfo := snd <$> keyed_sorted lock_key (locks s).

(** Unmarshalling the nil value of a missing key panics. *)
Definition GetPoolHistoricalRewards (poolName : string) (period : Z) : MF PoolHistoricalRewards := λ s,
  (or_panic (hist s !! (poolName, period)), s).
Definition SetPoolHistoricalRewards (poolName : string) (period : Z) (r : PoolHistoricalRewards)
    : MF unit := modify (λ s, set_hist (<[(poolName, period) := r]> (hist s)) s).
Definition DeletePoolHistoricalReward (poolName : string) (period : Z) : MF unit :=
  modify (λ s, set_hist (delete (poolName, period) (hist s)) s).

(** IteratePoolHistoricalRewards with the handler of handleMsgDestroyPool: every key
    that starts with the prefix of the pool's name is deleted. *)
Definition DeletePoolHistoricalRewards (poolName : string) : MF unit :=
  modify (λ s, set_hist (filter (λ kx,
    String.prefix (GetPoolHistoricalRewardsPrefix poolName) (hist_key (fst kx)) = false) (hist s)) s).

Definition GetPoolCurrentRewards (poolName : string) : MF PoolCurrentRewards := λ s,
  (or_panic (current s !! poolName), s).
Definition SetPoolCurrentRewards (poolName : string) (r : PoolCurrentRewards) : MF unit :=
  modify (λ s, set_current (<[poolName := r]> (current s)) s).
Definition DeletePoolCurrentRewards (poolName : string) : MF unit :=
  modify (λ s, set_current (delete poolName (current s)) s).
Definition HasPoolCurrentRewards (poolName : string) (s : FarmState) : bool :=
  bool_decide (is_Some (current s !! poolName)).

Definition GetWhitelist (s : FarmState) : list string := set_sorted (whitelist s).
Definition SetWhitelist (poolName : string) : MF unit :=
  modify (λ s, set_whitelist ({[poolName]} ∪ whitelist s) s).
Definition DeleteWhiteList (poolName : string) : MF unit :=
  modify (λ s, set_whitelist (whitelist s ∖ {[poolName]}) s).
Definition isPoolNameExistedInWhiteList (poolName : string) (s : FarmState) : bool :=
  bool_decide (poolName ∈ whitelist s).

Definition OnClaim (address : AccAddress) (poolName : string) (claimedCoins : SysCoins) : MF unit :=
  modify (λ s, set_claims (claims s ++ [(address, poolName, claimedCoins)]) s).

(** ** calc.go *)

(** One iteration of the loop over the yielded tokens: [None] is [continue]. *)
Definition yield_one (periodStart endBlockHeight : Z) (i : YieldedTokenInfo)
    : outcome (option (YieldedTokenInfo * SysCoins)) :=
  let startBlockHeightToYield := StartBlockHeightToYield i in
  let startBlockHeight :=
    if (periodStart <=? startBlockHeightToYield)%Z then startBlockHeightToYield else periodStart in
  if ((startBlockHeightToYield =? 0) || (endBlockHeight <=? startBlockHeight))%Z%bool then Ok None
  else
    let blockInterval := Dec.NewDec (endBlockHeight - startBlockHeight) in
    let amount := Dec.MulTruncate blockInterval (AmountYieldedPerBlock i) in
    let remaining := RemainingAmount i in
    if Dec.LT amount (Amount remaining) then
      y ← or_panic (Coins.NewDecCoinsFromDec (Denom remaining) amount);
      Ok (Some (MkYieldedTokenInfo
                  (MkCoin (Denom remaining) (Dec.Sub (Amount remaining) amount))
                  startBlockHeightToYield (AmountYieldedPerBlock i), y))
    else
      zero ← or_panic (Coins.NewDecCoin (Denom remaining) 0);
      y ← or_panic (Coins.NewDecCoinsFromDec (Denom remaining) (Amount remaining));
      Ok (Some (MkYieldedTokenInfo zero 0 Dec.ZeroDec, y)).

(** The loop: the updated infos, pool.TotalAccumulatedRewards and
    totalYieldedTokens. *)
Fixpoint yield_loop (periodStart endBlockHeight : Z) (infos : list YieldedTokenInfo)
    (accumulated total : SysCoins) : outcome (list YieldedTokenInfo * SysCoins * SysCoins) :=
  match infos with
  | [] => Ok ([], accumulated, total)
  | i :: infos =>
      o ← yield_one periodStart endBlockHeight i;
      let '(i', accumulated, total) :=
        match o with
        | None => (i, accumulated, total)
        | Some (i', y) => (i', Coins.Add2 accumulated y, Coins.Add2 total y)
        end in
      r ← yield_loop periodStart endBlockHeight infos accumulated total;
      let '(infos', accumulated, total) := (r : list YieldedTokenInfo * SysCoins * SysCoins) in
      Ok (i' :: infos', accumulated, total)
  end.

(** The source updates the slice of infos in place: the caller's pool shares it, but
    no caller reads its infos again. *)
Definition CalculateAmountYieldedBetween (ctx : Context) (pool : FarmPool)
    : MF (FarmPool * SysCoins) :=
  currentPeriod ← GetPoolCurrentRewards (Name pool);
  r ← lift (yield_loop (crStartBlockHeight currentPeriod) (BlockHeight ctx)
              (YieldedTokenInfos pool) (TotalAccumulatedRewards pool) []);
  let '(infos, accumulated, total) := (r : list YieldedTokenInfo * SysCoins * SysCoins) in
  mret (set_accumulated accumulated (set_infos infos pool), total).

Definition decrementReferenceCount (poolName : string) (period : Z) : MF unit :=
  historical ← GetPoolHistoricalRewards poolName period;
  if (ReferenceCount historical =? 0)%Z then panic
  else
    let n := ReferenceCount historical - 1 in
    if (n =? 0)%Z then DeletePoolHistoricalReward poolName period
    else SetPoolHistoricalRewards poolName period
           (MkHistorical (CumulativeRewardRatio historical) n).

Definition incrementReferenceCount (poolName : string) (period : Z) : MF unit :=
  historical ← GetPoolHistoricalRewards poolName period;
  if (2 <? ReferenceCount historical)%Z then panic
  else SetPoolHistoricalRewards poolName period
         (MkHistorical (CumulativeRewardRatio historical) (ReferenceCount historical + 1)).

Definition IncrementPoolPeriod (ctx : Context) (poolName : string) (totalValueLocked : SysCoin)
    (yieldedTokens : SysCoins) : MF Z :=
  rewards ← GetPoolCurrentRewards poolName;
  let rewards := set_Rewards (Coins.Add2 (Rewards rewards) yieldedTokens) rewards in
  currentRatio ← (if Coins.CoinIsZero totalValueLocked then mret []
                  else lift (or_panic (Coins.QuoDecTruncate (Rewards rewards) (Amount totalValueLocked))));
  historical ← GetPoolHistoricalRewards poolName (uint64 (Period rewards - 1));
  decrementReferenceCount poolName (uint64 (Period rewards - 1));;
  SetPoolHistoricalRewards poolName (Period rewards)
    (MkHistorical (Coins.Add2 (CumulativeRewardRatio historical) currentRatio) 1);;
  SetPoolCurrentRewards poolName (MkCurrent (BlockHeight ctx) (uint64 (Period rewards + 1)) []);;
  mret (Period rewards).

Definition calculateLockRewardsBetween (poolName : string) (startingPeriod endingPeriod : Z)
    (amount : SysCoin) : MF SysCoins :=
  if (endingPeriod <? startingPeriod)%Z then panic
  else if Dec.LT (Amount amount) Dec.ZeroDec then panic
  else
    starting ← GetPoolHistoricalRewards poolName startingPeriod;
    ending ← GetPoolHistoricalRewards poolName endingPeriod;
    difference ← lift (or_panic (Coins.Sub (CumulativeRewardRatio ending)
                                   (CumulativeRewardRatio starting)));
    mret (Coins.MulDecTruncate difference (Amount amount)).

Definition calculateRewards (ctx : Context) (poolName : string) (endingPeriod : Z)
    (lockInfo : LockInfo) : MF SysCoins :=
  if (liStartBlockHeight lockInfo =? BlockHeight ctx)%Z then mret []
  else calculateLockRewardsBetween poolName (ReferencePeriod lockInfo) endingPeriod (liAmount lockInfo).

Definition WithdrawRewards (ctx : Context) (poolName : string) (totalValueLocked : SysCoin)
    (yieldedTokens : SysCoins) (addr : AccAddress) : MF SysCoins :=
  o ← gets (GetLockInfo addr poolName);
  lockInfo ← or_throw o FarmErr.ErrNoLockInfoFound;
  endingPeriod ← IncrementPoolPeriod ctx poolName totalValueLocked yieldedTokens;
  rewards ← calculateRewards ctx poolName endingPeriod lockInfo;
  (if Coins.IsZero rewards then mret tt
   else on_supply (Bank.SendCoinsFromModuleToAccount YieldFarmingAccount addr rewards));;
  decrementReferenceCount poolName (ReferencePeriod lockInfo);;
  mret rewards.

Definition UpdateLockInfo (ctx : Context) (addr : AccAddress) (poolName : string)
    (changedAmount : Dec) : MF unit :=
  c ← GetPoolCurrentRewards poolName;
  let previousPeriod := uint64 (Period c - 1) in
  o ← gets (GetLockInfo addr poolName);
  match o with
  | None => panic
  | Some l =>
      let lockInfo := MkLockInfo (liOwner l) (liPoolName l)
        (MkCoin (Denom (liAmount l)) (Dec.Add (Amount (liAmount l)) changedAmount))
        (BlockHeight ctx) previousPeriod in
      if Coins.CoinIsZero (liAmount lockInfo) then
        DeleteLockInfo (liOwner lockInfo) (liPoolName lockInfo);;
        DeleteAddressInFarmPool (liPoolName lockInfo) (liOwner lockInfo)
      else
        incrementReferenceCount poolName previousPeriod;;
        SetLockInfo lockInfo;;
        SetAddressInFarmPool (liPoolName lockInfo) (liOwner lockInfo)
  end.

Definition GetEarnings (ctx : Context) (poolName : string) (accAddr : AccAddress) : MF Earnings :=
  o ← gets (GetLockInfo accAddr poolName);
  lockInfo ← or_throw o FarmErr.ErrNoLockInfoFound;
  o ← gets (GetFarmPool poolName);
  pool ← or_throw o FarmErr.ErrNoFarmPoolFound;
  r ← CalculateAmountYieldedBetween ctx pool;
  let '(updatedPool, yieldedTokens) := (r : FarmPool * SysCoins) in
  endingPeriod ← IncrementPoolPeriod ctx poolName (TotalValueLocked updatedPool) yieldedTokens;
  rewards ← calculateRewards ctx poolName endingPeriod lockInfo;
  mret (MkEarnings (BlockHeight ctx) (liAmount lockInfo) rewards).

(** ** The value of a pool (farm_pool.go) *)

Definition calculateBaseValueInQuote (base : SysCoin) (quoteSymbol : string) (s : FarmState)
    : outcome Dec :=
  if String.eqb (Denom base) quoteSymbol then Ok (Amount base)
  else
    match Swap.pairs (swap s) !! Swap.GetSwapTokenPairName (Denom base) quoteSymbol with
    | None => Ok Dec.ZeroDec
    | Some tokenPair =>
        if (Dec.IsZero (Amount (Swap.BasePooledCoin tokenPair))
            || Dec.IsZero (Amount (Swap.QuotePooledCoin tokenPair)))%bool then Ok Dec.ZeroDec
        else if String.eqb (Denom (Swap.QuotePooledCoin tokenPair)) quoteSymbol then
          or_panic (Dec.QuoTruncate
            (Dec.MulTruncate (Amount base) (Amount (Swap.QuotePooledCoin tokenPair)))
            (Amount (Swap.BasePooledCoin tokenPair)))
        else
          or_panic (Dec.QuoTruncate
            (Dec.MulTruncate (Amount base) (Amount (Swap.BasePooledCoin tokenPair)))
            (Amount (Swap.QuotePooledCoin tokenPair)))
    end.

Definition calculateLockedLPTValue (pool : FarmPool) (quoteSymbol : string) (s : FarmState)
    : outcome Dec :=
  ts ← Swap.SplitPoolToken (Denom (MinLockAmount pool));
  let '(token0Symbol, token1Symbol) := (ts : string * string) in
  match fst (Swap.GetRedeemableAssets token0Symbol token1Symbol (Amount (TotalValueLocked pool)) (swap s)) with
  | Panic => Panic
  | Err _ => Ok Dec.ZeroDec
  | Ok (token0Amount, token1Amount) =>
      quote0TokenAmt ← calculateBaseValueInQuote token0Amount quoteSymbol s;
      quote1TokenAmt ← calculateBaseValueInQuote token1Amount quoteSymbol s;
      Ok (Dec.Add quote0TokenAmt quote1TokenAmt)
  end.

Definition GetPoolLockedValue (pool : FarmPool) (s : FarmState) : outcome Dec :=
  if Dec.LTE (Amount (TotalValueLocked pool)) Dec.ZeroDec then Ok Dec.ZeroDec
  else
    let quoteSymbol := QuoteSymbol (fparams s) in
    if Swap.IsPoolToken (Denom (MinLockAmount pool)) then calculateLockedLPTValue pool quoteSymbol s
    else calculateBaseValueInQuote (TotalValueLocked pool) quoteSymbol s.

(** ** Handlers *)

Definition handleMsgCreatePool (ctx : Context) (msg : MsgCreatePool) : MF unit :=
  found ← gets (GetFarmPool (cpPoolName msg));
  throw_if (bool_decide (is_Some found)) FarmErr.ErrPoolAlreadyExist;;
  ok ← gets (TokenExist (Denom (cpMinLockAmount msg)));
  throw_if (negb ok) FarmErr.ErrTokenNotExist;;
  ok ← gets (TokenExist (YieldedSymbol msg));
  throw_if (negb ok) FarmErr.ErrTokenNotExist;;
  params ← gets fparams;
  let feeAmount := CreatePoolFee params in
  wrap_err (λ _, CommonErr.ErrInsufficientCoins ModuleName)
    (on_supply (Bank.SendCoinsFromAccountToModule (cpOwner msg) Token.feeCollectorName
                  (Coins.ToCoins feeAmount)));;
  let depositAmount := CreatePoolDeposit params in
  wrap_err (λ _, CommonErr.ErrInsufficientCoins ModuleName)
    (on_supply (Bank.SendCoinsFromAccountToModule (cpOwner msg) ModuleName
                  (Coins.ToCoins depositAmount)));;
  yielded ← lift (or_panic (Coins.NewDecCoin (YieldedSymbol msg) 0));
  locked ← lift (or_panic (Coins.NewDecCoin (Denom (cpMinLockAmount msg)) 0));
  SetFarmPool (MkFarmPool (cpOwner msg) (cpPoolName msg) (cpMinLockAmount msg) depositAmount locked
                 [MkYieldedTokenInfo yielded 0 Dec.ZeroDec] []);;
  SetPoolHistoricalRewards (cpPoolName msg) 0 (MkHistorical [] 1);;
  SetPoolCurrentRewards (cpPoolName msg) (MkCurrent (BlockHeight ctx) 1 []).

Definition handleMsgDestroyPool (ctx : Context) (msg : MsgDestroyPool) : MF unit :=
  o ← gets (GetFarmPool (dpPoolName msg));
  pool ← or_throw o FarmErr.ErrNoFarmPoolFound;
  throw_if (negb (String.eqb (Owner pool) (dpOwner msg))) FarmErr.ErrInvalidPoolOwner;;
  r ← CalculateAmountYieldedBetween ctx pool;
  let updatedPool := fst (r : FarmPool * SysCoins) in
  throw_if (negb (Finished updatedPool)) FarmErr.ErrPoolNotFinished;;
  (if Coins.IsZero (TotalAccumulatedRewards updatedPool) then mret tt
   else wrap_err (λ _, CommonErr.ErrInsufficientCoins ModuleName)
          (on_supply (Bank.SendCoinsFromModuleToAccount YieldFarmingAccount (dpOwner msg)
                        (TotalAccumulatedRewards updatedPool))));;
  let withdrawAmount := DepositAmount pool in
  (if Coins.CoinIsPositive withdrawAmount then
     wrap_err (λ _, CommonErr.ErrInsufficientCoins ModuleName)
       (on_supply (Bank.SendCoinsFromModuleToAccount ModuleName (dpOwner msg)
                     (Coins.ToCoins withdrawAmount)))
   else mret tt);;
  DeleteFarmPool (dpPoolName msg);;
  DeletePoolHistoricalRewards (dpPoolName msg);;
  DeletePoolCurrentRewards (dpPoolName msg).

Definition handleMsgProvide (ctx : Context) (msg : MsgProvide) : MF unit :=
  throw_if (StartHeightToYield msg <=? BlockHeight ctx)%Z FarmErr.ErrInvalidStartHeight;;
  o ← gets (GetFarmPool (prPoolName msg));
  pool ← or_throw o FarmErr.ErrNoFarmPoolFound;
  throw_if (negb (String.eqb (Owner pool) (prAddress msg))) FarmErr.ErrInvalidPoolOwner;;
  match YieldedTokenInfos pool with
  | [info] =>
      throw_if (negb (String.eqb (Denom (RemainingAmount info)) (Denom (prAmount msg))))
        FarmErr.ErrInvalidDenom;;
      r ← CalculateAmountYieldedBetween ctx pool;
      let '(updatedPool, yieldedTokens) := (r : FarmPool * SysCoins) in
      info' ← lift (or_panic (YieldedTokenInfos updatedPool !! 0%nat));
      throw_if (negb (Coins.CoinIsZero (RemainingAmount info'))) FarmErr.ErrRemainingAmountNotZero;;
      IncrementPoolPeriod ctx (Name pool) (TotalValueLocked pool) yieldedTokens;;
      wrap_err (λ _, FarmErr.ErrSendCoinsFromAccountToModuleFailed)
        (on_supply (Bank.SendCoinsFromAccountToModule (prAddress msg) YieldFarmingAccount
                      (Coins.ToCoins (prAmount msg))));;
      SetFarmPool (set_infos (<[0%nat := MkYieldedTokenInfo (prAmount msg) (StartHeightToYield msg)
                                  (prAmountYieldedPerBlock msg)]> (YieldedTokenInfos updatedPool))
                     updatedPool)
  | _ => panic
  end.

(** updatedPool.TotalAccumulatedRewards less the rewards paid out; "should not
    happen" when they are more. *)
Definition deduct_rewards (updatedPool : FarmPool) (rewards : SysCoins) : MF FarmPool :=
  if Coins.IsAllLT (TotalAccumulatedRewards updatedPool) rewards then panic
  else
    rest ← lift (or_panic (Coins.Sub (TotalAccumulatedRewards updatedPool) rewards));
    mret (set_accumulated rest updatedPool).

Definition handleMsgClaim (ctx : Context) (msg : MsgClaim) : MF unit :=
  o ← gets (GetFarmPool (clPoolName msg));
  pool ← or_throw o FarmErr.ErrNoFarmPoolFound;
  r ← CalculateAmountYieldedBetween ctx pool;
  let '(updatedPool, yieldedTokens) := (r : FarmPool * SysCoins) in
  rewards ← WithdrawRewards ctx (Name pool) (TotalValueLocked pool) yieldedTokens (clAddress msg);
  UpdateLockInfo ctx (clAddress msg) (Name pool) Dec.ZeroDec;;
  updatedPool ← deduct_rewards updatedPool rewards;
  SetFarmPool updatedPool;;
  OnClaim (clAddress msg) (Name pool) rewards.

Definition handleMsgLock (ctx : Context) (msg : MsgLock) : MF unit :=
  o ← gets (GetFarmPool (loPoolName msg));
  pool ← or_throw o FarmErr.ErrNoFarmPoolFound;
  throw_if (negb (String.eqb (Denom (MinLockAmount pool)) (Denom (loAmount msg)))) FarmErr.ErrInvalidDenom;;
  hasLocked ← gets (HasLockInfo (loAddress msg) (loPoolName msg));
  throw_if (negb hasLocked && Dec.LT (Amount (loAmount msg)) (Amount (MinLockAmount pool)))%bool
    FarmErr.ErrLockAmountBelowMinimum;;
  r ← CalculateAmountYieldedBetween ctx pool;
  let '(updatedPool, yieldedTokens) := (r : FarmPool * SysCoins) in
  r ← (if (hasLocked : bool) then
         rewards ← WithdrawRewards ctx (Name pool) (TotalValueLocked pool) yieldedTokens (loAddress msg);
         updatedPool ← deduct_rewards updatedPool rewards;
         mret (updatedPool, rewards)
       else
         IncrementPoolPeriod ctx (Name pool) (TotalValueLocked pool) yieldedTokens;;
         zero ← lift (or_panic (Coins.NewDecCoinFromDec (Denom (MinLockAmount pool)) Dec.ZeroDec));
         SetLockInfo (MkLockInfo (loAddress msg) (Name pool) zero (BlockHeight ctx) 0);;
         SetAddressInFarmPool (loPoolName msg) (loAddress msg);;
         mret (updatedPool, []));
  let '(updatedPool, rewards) := (r : FarmPool * SysCoins) in
  UpdateLockInfo ctx (loAddress msg) (loPoolName msg) (Amount (loAmount msg));;
  wrap_err (λ _, FarmErr.ErrSendCoinsFromAccountToModuleFailed)
    (on_supply (Bank.SendCoinsFromAccountToModule (loAddress msg) ModuleName
                  (Coins.ToCoins (loAmount msg))));;
  locked ← lift (or_panic (Coins.CoinAdd (TotalValueLocked updatedPool) (loAmount msg)));
  SetFarmPool (set_locked locked updatedPool);;
  (if (hasLocked : bool) then OnClaim (loAddress msg) (Name pool) rewards else mret tt).

Definition handleMsgUnlock (ctx : Context) (msg : MsgUnlock) : MF unit :=
  o ← gets (GetLockInfo (unAddress msg) (unPoolName msg));
  lockInfo ← or_throw o FarmErr.ErrNoLockInfoFound;
  throw_if (negb (String.eqb (Denom (liAmount lockInfo)) (Denom (unAmount msg)))) FarmErr.ErrInvalidDenom;;
  lt ← lift (or_panic (Coins.CoinIsLT (liAmount lockInfo) (unAmount msg)));
  throw_if lt FarmErr.ErrInsufficientAmount;;
  o ← gets (GetFarmPool (unPoolName msg));
  pool ← or_throw o FarmErr.ErrNoFarmPoolFound;
  throw_if (negb (String.eqb (Denom (MinLockAmount pool)) (Denom (unAmount msg)))) FarmErr.ErrInvalidDenom;;
  let remainAmount := Dec.Sub (Amount (liAmount lockInfo)) (Amount (unAmount msg)) in
  throw_if (negb (Dec.IsZero remainAmount) && Dec.LT remainAmount (Amount (MinLockAmount pool)))%bool
    FarmErr.ErrLockAmountBelowMinimum;;
  r ← CalculateAmountYieldedBetween ctx pool;
  let '(updatedPool, yieldedTokens) := (r : FarmPool * SysCoins) in
  rewards ← WithdrawRewards ctx (Name pool) (TotalValueLocked pool) yieldedTokens (unAddress msg);
  UpdateLockInfo ctx (unAddress msg) (unPoolName msg) (Dec.Neg (Amount (unAmount msg)));;
  wrap_err (λ _, FarmErr.ErrSendCoinsFromModuleToAccountFailed)
    (on_supply (Bank.SendCoinsFromModuleToAccount ModuleName (unAddress msg)
                  (Coins.ToCoins (unAmount msg))));;
  locked ← lift (or_panic (Coins.CoinSub (TotalValueLocked updatedPool) (unAmount msg)));
  updatedPool ← deduct_rewards (set_locked locked updatedPool) rewards;
  SetFarmPool updatedPool;;
  OnClaim (unAddress msg) (Name pool) rewards.

Definition NewHandler (ctx : Context) (msg : Msg) : MF unit :=
  match msg with
  | MCreatePool m => handleMsgCreatePool ctx m
  | MDestroyPool m => handleMsgDestroyPool ctx m
  | MProvide m => handleMsgProvide ctx m
  | MLock m => handleMsgLock ctx m
  | MUnlock m => handleMsgUnlock ctx m
  | MClaim m => handleMsgClaim ctx m
  | MOther => throw FarmErr.ErrUnknownFarmMsgType
  end.

(** ** BeginBlocker (abci.go) *)

(** The pools of the whitelist with a positive value, with that value, and the sum. *)
Fixpoint allocate_info (names : list string) (s : FarmState) (values : gmap string Dec)
    (ps : list FarmPool) (total : Dec) : outcome (gmap string Dec * list FarmPool * Dec) :=
  match names with
  | [] => Ok (values, ps, total)
  | poolName :: names =>
      pool ← or_panic (GetFarmPool poolName s);
      poolValue ← GetPoolLockedValue pool s;
      if Dec.LTE poolValue Dec.ZeroDec then allocate_info names s values ps total
      else allocate_info names s (<[poolName := poolValue]> values) (ps ++ [pool])
             (Dec.Add total poolValue)
  end.

Definition calculateAllocateInfo (s : FarmState) : outcome (gmap string Dec * list FarmPool * Dec) :=
  allocate_info (GetWhitelist s) s ∅ [] Dec.ZeroDec.

(** The loop over the pools: the last one gets what is left. *)
Fixpoint allocate (values : gmap string Dec) (yieldedAmt totalValue : Dec) (ps : list FarmPool)
    (remaining : Dec) : MF Dec :=
  match ps with
  | [] => mret remaining
  | pool :: ps =>
      allocatedAmt ←
        match ps with
        | [] => mret remaining
        | _ =>
            v ← lift (or_panic (values !! Name pool));
            lift (or_panic (Dec.QuoTruncate (Dec.MulTruncate v yieldedAmt) totalValue))
        end;
      allocatedCoins ← lift (or_panic (Coins.NewDecCoinsFromDec Coins.DefaultBondDenom allocatedAmt));
      current ← GetPoolCurrentRewards (Name pool);
      SetPoolCurrentRewards (Name pool) (set_Rewards (Coins.Add2 (Rewards current) allocatedCoins) current);;
      SetFarmPool (set_accumulated (Coins.Add2 (TotalAccumulatedRewards pool) allocatedCoins) pool);;
      allocate values yieldedAmt totalValue ps (Dec.Sub remaining allocatedAmt)
  end.

Definition BeginBlocker : MF unit :=
  coins ← gets (module_coins MintFarmingAccount);
  let yieldedNativeTokenAmt := Coins.AmountOf coins Coins.DefaultBondDenom in
  if Dec.LTE yieldedNativeTokenAmt Dec.ZeroDec then mret tt
  else
    yieldedNativeToken ← lift (or_panic (Coins.NewDecCoinsFromDec Coins.DefaultBondDenom yieldedNativeTokenAmt));
    params ← gets fparams;
    if negb (YieldNativeToken params) then
      must (on_supply (Bank.BurnCoins MintFarmingAccount yieldedNativeToken))
    else
      s ← get;
      info ← lift (calculateAllocateInfo s);
      let '(values, ps, totalPoolsValue) := (info : gmap string Dec * list FarmPool * Dec) in
      if Dec.LTE totalPoolsValue Dec.ZeroDec then mret tt
      else
        remaining ← allocate values yieldedNativeTokenAmt totalPoolsValue ps yieldedNativeTokenAmt;
        if negb (Dec.IsZero remaining) then panic
        else
          must (on_supply (Bank.SendCoinsFromModuleToModule MintFarmingAccount YieldFarmingAccount
                             yieldedNativeToken)).

(** ** White list proposals (whitelist.go, proposal.go, proposal_handler.go) *)

Definition isSwapTokenPairExisted (base quote : string) (s : FarmState) : bool :=
  bool_decide (is_Some (Swap.pairs (swap s) !! Swap.GetSwapTokenPairName base quote)).

Definition satisfyWhiteListAdmittance (pool : FarmPool) (s : FarmState) : outcome unit :=
  let quoteTokenSymbol := QuoteSymbol (fparams s) in
  let denom := Denom (MinLockAmount pool) in
  if String.eqb denom quoteTokenSymbol then Ok tt
  else if negb (Swap.IsPoolToken denom) then
    if negb (isSwapTokenPairExisted denom quoteTokenSymbol s) then Err FarmErr.ErrSwapTokenPairNotExist
    else Ok tt
  else
    ts ← Swap.SplitPoolToken denom;
    let '(tokenSymbol0, tokenSymbol1) := (ts : string * string) in
    if (String.eqb tokenSymbol0 quoteTokenSymbol || String.eqb tokenSymbol1 quoteTokenSymbol)%bool then
      if negb (isSwapTokenPairExisted tokenSymbol0 tokenSymbol1 s) then Err FarmErr.ErrTokenNotExist
      else Ok tt
    else if negb (isSwapTokenPairExisted tokenSymbol0 quoteTokenSymbol s) then
      Err FarmErr.ErrSwapTokenPairNotExist
    else if negb (isSwapTokenPairExisted tokenSymbol1 quoteTokenSymbol s) then
      Err FarmErr.ErrSwapTokenPairNotExist
    else Ok tt.

Definition CheckMsgManageWhiteListProposal (proposal : ManageWhiteListProposal) (s : FarmState)
    : outcome unit :=
  if IsAdded proposal then
    match GetFarmPool (wlPoolName proposal) s with
    | None => Err FarmErr.ErrNoFarmPoolFound
    | Some pool => satisfyWhiteListAdmittance pool s
    end
  else if negb (isPoolNameExistedInWhiteList (wlPoolName proposal) s) then
    Err FarmErr.ErrPoolNameNotExistedInWhiteList
  else Ok tt.

Definition handleManageWhiteListProposal (proposal : ManageWhiteListProposal) : MF unit :=
  s ← get;
  lift (CheckMsgManageWhiteListProposal proposal s);;
  if IsAdded proposal then SetWhitelist (wlPoolName proposal)
  else DeleteWhiteList (wlPoolName proposal).

(** ** Invariants (invariants.go): whether they are broken *)

Definition moduleAccountInvariant (s : FarmState) : outcome bool :=
  let totalDepositAmount :=
    foldl (λ t pool, Coins.Add2 t (Coins.ToCoins (DepositAmount pool))) [] (GetFarmPools s) in
  totalLockedAmount ←
    foldl (λ t l, t ← t; c ← or_panic (Coins.NewDecCoins [liAmount l]); Ok (Coins.Add2 t c))
      (Ok []) (all_locks s);
  eq ← or_panic (Coins.IsEqual (module_coins ModuleName s)
                   (Coins.Add2 totalDepositAmount totalLockedAmount));
  Ok (negb eq).

Definition yieldFarmingAccountInvariant (s : FarmState) : outcome bool :=
  let expected :=
    foldl (λ t pool,
      foldl (λ t i, Coins.Add2 t [RemainingAmount i])
        (Coins.Add2 t (TotalAccumulatedRewards pool)) (YieldedTokenInfos pool))
      [] (GetFarmPools s) in
  eq ← or_panic (Coins.IsEqual expected (module_coins YieldFarmingAccount s));
  Ok (negb eq).

Definition mintFarmingAccountInvariant (s : FarmState) : bool :=
  match GetWhitelist s with
  | [] => false
  | _ => negb (Coins.IsZero (module_coins MintFarmingAccount s))
  end.

(** ** Genesis *)

Record PoolHistoricalRewardsRecord := MkHistoricalRecord {
  hrPoolName : string; hrPeriod : Z; hrRewards : PoolHistoricalRewards
}.
Record PoolCurrentRewardsRecord := MkCurrentRecord {
  rrPoolName : string; rrRewards : PoolCurrentRewards
}.
Record GenesisState := MkGenesisState {
  gPools : list FarmPool;
  gLockInfos : list LockInfo;
  gPoolHistoricalRewards : list PoolHistoricalRewardsRecord;
  gPoolCurrentRewards : list PoolCurrentRewardsRecord;
  gWhiteList : list string;
  gParams : Params;
}.

(** The reference counts are summed in a uint16. *)
Definition ValidateGenesis (data : GenesisState) : outcome unit :=
  if negb (length (gPools data) =? length (gPoolCurrentRewards data))%nat then Err Common.plain_error
  else
    let expectedReferenceCount :=
      foldl (λ n h, (n + ReferenceCount (hrRewards h)) mod 2 ^ 16) 0 (gPoolHistoricalRewards data) in
    let actualReferenceCount :=
      (length (gLockInfos data) + length (gPoolCurrentRewards data))%nat in
    if negb (Z.of_nat actualReferenceCount =? expectedReferenceCount)%Z then Err Common.plain_error
    else Ok tt.

(** Fills in a module account that holds nothing. *)
Definition init_account (name : string) (holdings : SysCoins) : MF unit := λ s,
  if Coins.IsZero (module_coins name s)
  then on_supply (λ b, (Ok tt, Bank.SetModuleCoins name holdings b)) s
  else (Ok tt, s).

Definition InitGenesis (data : GenesisState) : MF unit :=
  let moduleAccHoldings :=
    foldl (λ h pool, Coins.Add2 (Coins.Add2 h [TotalValueLocked pool]) [DepositAmount pool])
      [] (gPools data) in
  let yieldModuleAccHoldings :=
    foldl (λ h pool, Coins.Add2 h (TotalAccumulatedRewards pool)) [] (gPools data) in
  mapM_ SetFarmPool (gPools data);;
  mapM_ SetLockInfo (gLockInfos data);;
  mapM_ (λ h, SetPoolHistoricalRewards (hrPoolName h) (hrPeriod h) (hrRewards h))
    (gPoolHistoricalRewards data);;
  mapM_ (λ c, SetPoolCurrentRewards (rrPoolName c) (rrRewards c)) (gPoolCurrentRewards data);;
  mapM_ SetWhitelist (gWhiteList data);;
  modify (set_fparams (gParams data));;
  init_account ModuleName moduleAccHoldings;;
  init_account YieldFarmingAccount yieldModuleAccHoldings.

Fixpoint export_hist (l : list ((string * Z) * PoolHistoricalRewards))
    : outcome (list PoolHistoricalRewardsRecord) :=
  match l with
  | [] => Ok []
  | (k, r) :: l =>
      np ← GetPoolHistoricalRewardsPoolNamePeriod (hist_key k);
      rest ← export_hist l;
      Ok (MkHistoricalRecord (fst np) (snd np) r :: rest)
  end.

Definition ExportGenesis (s : FarmState) : outcome GenesisState :=
  h ← export_hist (keyed_sorted hist_key (hist s));
  Ok (MkGenesisState (GetFarmPools s) (all_locks s) h
        ((λ kx, MkCurrentRecord (fst kx) (snd kx)) <$> kv_sorted (current s))
        (GetWhitelist s) (fparams s)).
End keeper.
End Farm.
