(* ===== verification/FarmSpec.v ===== *)
(** * Theorems on the farm module

    The accounting of a pool is a ledger: its current period, the history of
    cumulative reward ratios with their reference counts, and the lock infos.
    [ledger_ok] is the ledger's invariant; [owed] is what the lockers of a pool
    could claim.  Each keeper operation is given an equation for its run from a
    ledger that is in order, so that one lemma serves both the invariants and the
    theorems that an operation succeeds. *)

From S2P Require Import Prelude SdkDec SdkCoins GoStd CoinFacts CommonErrors Common FarmErrors Token Swap SwapSpec Farm.

#[local] Open Scope Z_scope.

Module FarmSpec.
Import Farm.

Section ledger.
Context `{DO : Dec.Ops} `{DL : !Dec.Laws} `{CO : !Coins.Ops} `{CL : !Coins.Laws}.

Lemma quot_mul_le a b : 0 ≤ a → 0 < b → 0 ≤ a ÷ b ∧ b * (a ÷ b) ≤ a.
Proof.
  intros. rewrite Z.quot_div_nonneg by lia.
  split; [apply Z.div_pos; lia|apply Z.mul_div_le; lia].
Qed.

(** ** The ledger of one pool *)

Implicit Types (hs : gmap (string * Z) PoolHistoricalRewards) (lk : gmap (string * string) LockInfo).

(** The coins locked in the pool, and how many lock infos start at a period. *)
Definition locked (name : string) lk : Z :=
  msum (λ l, if decide (liPoolName l = name) then Amount (liAmount l) else 0) lk.
Definition refs (name : string) (p : Z) lk : Z :=
  msum (λ l, if decide (liPoolName l = name ∧ ReferencePeriod l = p) then 1 else 0) lk.

(** The reference count stored for a period, 0 when there is none, and its ratio. *)
Definition cnt hs (name : string) (p : Z) : Z := from_option ReferenceCount 0 (hs !! (name, p)).
Definition cum hs (name : string) (p : Z) (d : string) : Z :=
  from_option (λ h, amt d (CumulativeRewardRatio h)) 0 (hs !! (name, p)).

(** The current period holds one reference to the one before it. *)
Definition tip (c : PoolCurrentRewards) (p : Z) : Z := if decide (p = Period c - 1) then 1 else 0.

(** What the lockers have earned between the periods they started at and [last],
    scaled by the unit of decimals. *)
Definition owed hs lk (name : string) (last : Z) (d : string) : Z :=
  msum (λ l, if decide (liPoolName l = name)
             then Amount (liAmount l) * (cum hs name last d - cum hs name (ReferencePeriod l) d)
             else 0) lk.

Record ledger_ok (name : string) (c : PoolCurrentRewards) hs lk : Prop := {
  lg_period : 1 ≤ Period c < 2 ^ 64;
  lg_rewards : Coins.IsValid (Rewards c) = true;
  lg_lock k l : lk !! k = Some l → liPoolName l = name →
    0 < Amount (liAmount l) ∧ 0 ≤ ReferencePeriod l < Period c;
  lg_count p : cnt hs name p = refs name p lk + tip c p;
  lg_unique p : refs name p lk ≤ 1;
  lg_hist p h : hs !! (name, p) = Some h →
    0 < ReferenceCount h ∧ 0 ≤ p < Period c ∧ Coins.IsValid (CumulativeRewardRatio h) = true ∧
    ∀ d, cum hs name p d ≤ cum hs name (Period c - 1) d;
}.

Lemma refs_nonneg name p lk : 0 ≤ refs name p lk.
Proof. apply msum_nonneg. intros k l _. case_decide; lia. Qed.

Lemma refs_pos name lk k l : lk !! k = Some l → liPoolName l = name →
  1 ≤ refs name (ReferencePeriod l) lk.
Proof.
  intros Hk Hn. unfold refs. set (f := λ l0 : LockInfo, _).
  assert (f l = 1) as <- by (unfold f; by rewrite decide_True). apply (msum_le f lk k l); [|done].
  intros k' l' _. unfold f. case_decide; lia.
Qed.

(** A lock info's period is in the history. *)
Lemma ledger_lock_hist name c hs lk k l : ledger_ok name c hs lk →
  lk !! k = Some l → liPoolName l = name → ∃ h, hs !! (name, ReferencePeriod l) = Some h.
Proof.
  intros L Hk Hn. pose proof (lg_count _ _ _ _ L (ReferencePeriod l)) as Hc.
  pose proof (refs_pos name lk k l Hk Hn). unfold cnt, tip in Hc.
  destruct (hs !! (name, ReferencePeriod l)); [eauto|]. cbn in Hc. case_decide; lia.
Qed.

Lemma ledger_tip_hist name c hs lk : ledger_ok name c hs lk →
  ∃ h, hs !! (name, Period c - 1) = Some h.
Proof.
  intros L. pose proof (lg_count _ _ _ _ L (Period c - 1)) as Hc. pose proof (refs_nonneg name (Period c - 1) lk).
  unfold cnt, tip in Hc. destruct (hs !! (name, Period c - 1)); [eauto|].
  cbn in Hc. rewrite decide_True in Hc by done. lia.
Qed.

Lemma cum_some hs name p h d : hs !! (name, p) = Some h → cum hs name p d = amt d (CumulativeRewardRatio h).
Proof. unfold cum. by intros ->. Qed.

Lemma owed_nonneg name c hs lk d : ledger_ok name c hs lk → 0 ≤ owed hs lk name (Period c - 1) d.
Proof.
  intros L. apply msum_nonneg. intros k l Hk. case_decide as Hn; [|lia].
  destruct (lg_lock _ _ _ _ L k l Hk Hn) as [Ha _].
  destruct (ledger_lock_hist _ _ _ _ k l L Hk Hn) as [h Hh].
  destruct (lg_hist _ _ _ _ L _ _ Hh) as (_ & _ & _ & Hm). specialize (Hm d). nia.
Qed.

(** ** Reference counts *)

(** The history after one reference less. *)
Definition dec_ref (k : string * Z) hs : gmap (string * Z) PoolHistoricalRewards :=
  match hs !! k with
  | Some h => if (ReferenceCount h - 1 =? 0)%Z then delete k hs
              else <[k := MkHistorical (CumulativeRewardRatio h) (ReferenceCount h - 1)]> hs
  | None => hs
  end.

Lemma dec_ref_ne k k' hs : k ≠ k' → dec_ref k hs !! k' = hs !! k'.
Proof.
  intros Hne. unfold dec_ref. destruct (hs !! k); [|done].
  destruct (_ =? _)%Z; [by apply lookup_delete_ne|by apply lookup_insert_ne].
Qed.

Lemma dec_ref_cnt name p p' hs h : hs !! (name, p) = Some h →
  cnt (dec_ref (name, p) hs) name p' = cnt hs name p' - if decide (p' = p) then 1 else 0.
Proof.
  intros Hh. unfold cnt. case_decide as E; [subst|by rewrite dec_ref_ne by congruence; lia].
  unfold dec_ref. rewrite Hh. destruct (Z.eqb_spec (ReferenceCount h - 1) 0).
  - rewrite lookup_delete_eq. cbn. lia.
  - by rewrite lookup_insert_eq.
Qed.

Lemma dec_ref_some name p p' hs h' : dec_ref (name, p) hs !! (name, p') = Some h' →
  ∃ h, hs !! (name, p') = Some h ∧ CumulativeRewardRatio h' = CumulativeRewardRatio h ∧
    (0 < ReferenceCount h → 0 < ReferenceCount h').
Proof.
  intros H. destruct (decide (p' = p)) as [->|Hne]; [|rewrite dec_ref_ne in H by congruence; eauto].
  unfold dec_ref in H. destruct (hs !! (name, p)) as [h|] eqn:Hh; [|congruence].
  destruct (Z.eqb_spec (ReferenceCount h - 1) 0).
  - by rewrite lookup_delete_eq in H.
  - rewrite lookup_insert_eq in H. injection H as <-. exists h. cbn. auto with lia.
Qed.

Lemma dec_ref_cum name p p' hs d : is_Some (dec_ref (name, p) hs !! (name, p')) →
  cum (dec_ref (name, p) hs) name p' d = cum hs name p' d.
Proof.
  intros [h' H']. destruct (dec_ref_some _ _ _ _ _ H') as (h & H & E & _).
  by rewrite (cum_some _ _ _ _ d H'), (cum_some _ _ _ _ d H), E.
Qed.
(** ** The three moves of a ledger *)

Lemma refs_fresh name c hs lk p : ledger_ok name c hs lk → Period c ≤ p → refs name p lk = 0.
Proof.
  intros L Hp. unfold refs. rewrite (msum_ext _ (λ _, 0 * 0)); [rewrite msum_scale; lia|].
  intros k l Hk. cbn. case_decide as E; [|lia]. destruct E as [E1 E2].
  destruct (lg_lock _ _ _ _ L k l Hk E1). lia.
Qed.

(** A period ends: the ratio [R] is added to the history. *)
Lemma ledger_increment name c hs lk h R ht :
  ledger_ok name c hs lk → Period c + 1 < 2 ^ 64 → hs !! (name, Period c - 1) = Some h →
  Coins.IsValid R = true →
  let hs' := <[(name, Period c) := MkHistorical (Coins.Add2 (CumulativeRewardRatio h) R) 1]>
               (dec_ref (name, Period c - 1) hs) in
  ledger_ok name (MkCurrent ht (Period c + 1) []) hs' lk ∧
  ∀ d, owed hs' lk name (Period c) d = owed hs lk name (Period c - 1) d + amt d R * locked name lk.
Proof.
  intros L Hp Hh HR hs'. pose proof (lg_period _ _ _ _ L) as Hper.
  destruct (lg_hist _ _ _ _ L _ _ Hh) as (_ & _ & Hv & _).
  assert (∀ d, amt d (Coins.Add2 (CumulativeRewardRatio h) R) = cum hs name (Period c - 1) d + amt d R) as Hsum.
  { intros d. rewrite (cum_some _ _ _ _ d Hh). apply Add2_good_amt; coins. }
  assert (∀ d, cum hs' name (Period c) d = cum hs name (Period c - 1) d + amt d R) as Hlast.
  { intros d. rewrite <-Hsum. unfold hs', cum. by rewrite lookup_insert_eq. }
  assert (∀ p, p ≠ Period c → hs' !! (name, p) = dec_ref (name, Period c - 1) hs !! (name, p)) as Hne.
  { intros p Hpn. unfold hs'. rewrite lookup_insert_ne; congruence. }
  assert (hs !! (name, Period c) = None) as Hfresh.
  { destruct (hs !! (name, Period c)) eqn:E; [|done]. apply (lg_hist _ _ _ _ L) in E as (_ & ? & _). lia. }
  assert (∀ p d, p ≠ Period c → is_Some (hs' !! (name, p)) → cum hs' name p d = cum hs name p d) as Hcum.
  { intros p d Hpn Hs. rewrite Hne in Hs by done. unfold cum at 1. rewrite Hne by done.
    by apply (dec_ref_cum name (Period c - 1) p). }
  assert (∀ p, cnt hs' name p = refs name p lk + tip (MkCurrent ht (Period c + 1) []) p) as Hcnt.
  { intros p. unfold tip. cbn. destruct (decide (p = Period c)) as [->|Hpn].
    - rewrite decide_True by lia. unfold cnt, hs'. rewrite lookup_insert_eq.
      rewrite (refs_fresh name c hs lk) by (done || lia). done.
    - rewrite decide_False by lia. unfold cnt. rewrite Hne by done.
      pose proof (dec_ref_cnt name (Period c - 1) p hs h Hh) as Hd. unfold cnt in Hd. rewrite Hd.
      pose proof (lg_count _ _ _ _ L p) as Hc. unfold cnt, tip in Hc. rewrite Hc. case_decide; lia. }
  split.
  - split; cbn.
    + lia.
    + apply valid_nil.
    + intros k l Hk Hn. destruct (lg_lock _ _ _ _ L k l Hk Hn). lia.
    + apply Hcnt.
    + apply (lg_unique _ _ _ _ L).
    + intros p h' Hh'. replace (Period c + 1 - 1) with (Period c) by lia.
      destruct (decide (p = Period c)) as [->|Hpn].
      { unfold hs' in Hh'. rewrite lookup_insert_eq in Hh'. injection Hh' as <-. cbn.
        split; [lia|]. split; [lia|]. split; [apply Coins.Add2_valid; coins|done]. }
      pose proof Hh' as Hh1. rewrite Hne in Hh1 by done.
      destruct (dec_ref_some _ _ _ _ _ Hh1) as (h0 & H0 & E0 & Hpos).
      destruct (lg_hist _ _ _ _ L _ _ H0) as (Hc0 & Hp0 & Hv0 & Hm0).
      split; [auto|]. split; [lia|]. split; [by rewrite E0|]. intros d.
      rewrite Hlast, Hcum by eauto. specialize (Hm0 d). pose proof (valid_amt R d HR). lia.
  - intros d. unfold owed, locked. rewrite <-msum_scale, <-msum_add. apply msum_ext.
    intros k l Hk. cbn. case_decide as Hn; [|lia].
    destruct (lg_lock _ _ _ _ L k l Hk Hn) as [_ Hr]. pose proof (refs_pos name lk k l Hk Hn).
    rewrite Hlast, Hcum; [lia|lia|]. specialize (Hcnt (ReferencePeriod l)).
    unfold cnt, tip in Hcnt. cbn in Hcnt. destruct (hs' !! _); [eauto|]. cbn in Hcnt. case_decide; lia.
Qed.

(** A lock info leaves, and with it its reference. *)
Lemma ledger_remove name c hs lk k l :
  ledger_ok name c hs lk → lk !! k = Some l → liPoolName l = name →
  let hs' := dec_ref (name, ReferencePeriod l) hs in
  ledger_ok name c hs' (delete k lk) ∧
  ∀ d, owed hs' (delete k lk) name (Period c - 1) d = owed hs lk name (Period c - 1) d
    - Amount (liAmount l) * (cum hs name (Period c - 1) d - cum hs name (ReferencePeriod l) d).
Proof.
  intros L Hk Hn hs'. destruct (ledger_lock_hist _ _ _ _ k l L Hk Hn) as [h Hh].
  assert (∀ p, refs name p (delete k lk) = refs name p lk - if decide (p = ReferencePeriod l) then 1 else 0) as Hr.
  { intros p. unfold refs. rewrite msum_delete, Hk. cbn. repeat case_decide; naive_solver lia. }
  assert (∀ p, cnt hs' name p = refs name p (delete k lk) + tip c p) as Hcnt.
  { intros p. unfold hs'. rewrite (dec_ref_cnt _ _ p _ _ Hh), Hr.
    rewrite (lg_count _ _ _ _ L p). lia. }
  assert (∀ p, 0 < refs name p (delete k lk) + tip c p → is_Some (hs' !! (name, p))) as Hsome.
  { intros p Hp. rewrite <-Hcnt in Hp. unfold cnt in Hp. destruct (hs' !! _); [eauto|]. cbn in Hp. lia. }
  assert (is_Some (hs' !! (name, Period c - 1))) as Htip.
  { apply Hsome. pose proof (refs_nonneg name (Period c - 1) (delete k lk)).
    unfold tip. rewrite decide_True by done. lia. }
  split.
  - split.
    + apply L.
    + apply L.
    + intros k' l' [_ Hk']%lookup_delete_Some. by apply (lg_lock _ _ _ _ L k').
    + done.
    + intros p. rewrite Hr. pose proof (lg_unique _ _ _ _ L p). case_decide; lia.
    + intros p h' Hh'. destruct (dec_ref_some _ _ _ _ _ Hh') as (h0 & H0 & E0 & Hpos).
      destruct (lg_hist _ _ _ _ L _ _ H0) as (Hc0 & Hp0 & Hv0 & Hm0).
      split; [auto|]. split; [lia|]. split; [by rewrite E0|]. intros d.
      unfold hs'. rewrite !dec_ref_cum by (eauto || done). apply Hm0.
  - intros d.
    assert (owed hs' (delete k lk) name (Period c - 1) d = owed hs (delete k lk) name (Period c - 1) d) as ->.
    { apply msum_ext. intros k' l' Hk'. cbn. case_decide as Hn'; [|done].
      assert (1 ≤ refs name (ReferencePeriod l') (delete k lk)) by (by eapply refs_pos).
      unfold hs'. rewrite !dec_ref_cum; [done| |done]. apply Hsome. unfold tip. case_decide; lia. }
    unfold owed. rewrite msum_delete, Hk. cbn. by rewrite decide_True.
Qed.

(** A lock info enters at the period just ended. *)
Lemma ledger_add name c hs lk k l h :
  ledger_ok name c hs lk → lk !! k = None → liPoolName l = name → 0 < Amount (liAmount l) →
  ReferencePeriod l = Period c - 1 → refs name (Period c - 1) lk = 0 →
  hs !! (name, Period c - 1) = Some h →
  let hs' := <[(name, Period c - 1) := MkHistorical (CumulativeRewardRatio h) (ReferenceCount h + 1)]> hs in
  ledger_ok name c hs' (<[k := l]> lk) ∧
  ∀ d, owed hs' (<[k := l]> lk) name (Period c - 1) d = owed hs lk name (Period c - 1) d.
Proof.
  intros L Hk Hn Ha Hr Hz Hh hs'. pose proof (lg_period _ _ _ _ L) as Hper.
  assert (∀ p, refs name p (<[k := l]> lk) = refs name p lk + if decide (p = Period c - 1) then 1 else 0) as Href.
  { intros p. unfold refs. rewrite msum_insert, Hk. cbn. repeat case_decide; naive_solver lia. }
  assert (∀ p d, cum hs' name p d = cum hs name p d) as Hcum.
  { intros p d. unfold cum, hs'. destruct (decide (p = Period c - 1)) as [->|].
    - by rewrite lookup_insert_eq, Hh.
    - rewrite lookup_insert_ne; congruence. }
  split.
  - split.
    + apply L.
    + apply L.
    + intros k' l'. rewrite lookup_insert_Some. intros [[<- <-]|[_ Hk']] Hn'; [lia|].
      by apply (lg_lock _ _ _ _ L k').
    + intros p. rewrite Href. pose proof (lg_count _ _ _ _ L p) as Hc. unfold cnt, hs' in *.
      case_decide as E; [subst p; rewrite lookup_insert_eq; rewrite Hh in Hc; cbn in *; lia|].
      rewrite lookup_insert_ne by congruence. lia.
    + intros p. rewrite Href. pose proof (lg_unique _ _ _ _ L p). case_decide; subst; lia.
    + intros p h' Hh'. assert (∃ h0, hs !! (name, p) = Some h0 ∧
        CumulativeRewardRatio h' = CumulativeRewardRatio h0 ∧ (0 < ReferenceCount h0 → 0 < ReferenceCount h'))
        as (h0 & H0 & E0 & Hpos).
      { unfold hs' in Hh'. rewrite lookup_insert_Some in Hh'. destruct Hh' as [[[= <-] <-]|[_ Hh']]; [|eauto].
        exists h. cbn. auto with lia. }
      destruct (lg_hist _ _ _ _ L _ _ H0) as (Hc0 & Hp0 & Hv0 & Hm0).
      split; [auto|]. split; [lia|]. split; [by rewrite E0|]. intros d. rewrite !Hcum. apply Hm0.
  - intros d. unfold owed. rewrite msum_insert, Hk. cbn. rewrite decide_True by done.
    rewrite Hr, Z.sub_diag, Z.mul_0_r, Z.sub_0_r, Z.add_0_r. apply msum_ext. intros k' l' _. cbn.
    by rewrite !Hcum.
Qed.
End ledger.

Section spec.
Context `{DO : Dec.Ops} `{DL : !Dec.Laws} `{CO : !Coins.Ops} `{CL : !Coins.Laws}
  `{BO : !Bank.Ops} `{BL : !Bank.Laws} `{E : !Token.Env}.

Definition bal (s : FarmState) (a : AccAddress) (d : string) : Z := Bank.balance (bank s) a d.
Definition set_bank (b : Bank.state) (s : FarmState) : FarmState :=
  set_swap (SwapSpec.set_bank b (swap s)) s.
Definition farmAcc : AccAddress := Bank.GetModuleAddress ModuleName.
Definition yieldAcc : AccAddress := Bank.GetModuleAddress YieldFarmingAccount.
Definition mintAcc : AccAddress := Bank.GetModuleAddress MintFarmingAccount.

Lemma on_supply_eq {A} (m : M Bank.state A) s : on_supply m s =
  let '(r, b) := m (bank s) in (r, set_bank b s).
Proof.
  unfold on_supply, Swap.on_supply, Swap.on_token, Token.on_bank, zoom, bank. cbn.
  by destruct (m (Token.bank (Swap.tok (swap s)))).
Qed.

Lemma farm_supply_ok {A} (m : M Bank.state A) s a s' :
  on_supply m s = (Ok a, s') ↔ ∃ b, m (bank s) = (Ok a, b) ∧ s' = set_bank b s.
Proof.
  rewrite on_supply_eq. destruct (m (bank s)) as [r b]. split; [|intros (?&?&?)]; intros; simplify_eq; eauto.
Qed.

(** ** Runs of the keeper *)

Lemma GetHist_eq name p s h : hist s !! (name, p) = Some h → GetPoolHistoricalRewards name p s = (Ok h, s).
Proof. unfold GetPoolHistoricalRewards. by intros ->. Qed.

Lemma GetCurrent_eq name s c : current s !! name = Some c → GetPoolCurrentRewards name s = (Ok c, s).
Proof. unfold GetPoolCurrentRewards. by intros ->. Qed.

Lemma set_hist_id s : set_hist (hist s) s = s.
Proof. by destruct s. Qed.

Lemma decrement_eq name p s h : hist s !! (name, p) = Some h → 0 < ReferenceCount h →
  decrementReferenceCount name p s = (Ok tt, set_hist (dec_ref (name, p) (hist s)) s).
Proof.
  intros Hh Hc. unfold decrementReferenceCount. rewrite (bind_eq _ _ _ _ _ (GetHist_eq _ _ _ _ Hh)).
  destruct (Z.eqb_spec (ReferenceCount h) 0); [lia|]. unfold dec_ref. rewrite Hh.
  by destruct (ReferenceCount h - 1 =? 0)%Z.
Qed.

(** The ratio a period adds: what it yielded over what was locked. *)
Lemma ratio_ok name c lk hs tvl y s :
  ledger_ok name c hs lk → locked name lk = Amount tvl → Coins.good y →
  ∃ R, (if Coins.CoinIsZero tvl then mret []
        else lift (or_panic (Coins.QuoDecTruncate (Coins.Add2 (Rewards c) y) (Amount tvl))))
       s = (Ok R, s : FarmState) ∧ Coins.IsValid R = true ∧
    ∀ d, amt d R * locked name lk ≤ Dec.unit * (amt d (Rewards c) + amt d y).
Proof.
  intros L Hl Hy. rewrite Coins.CoinIsZero_spec. pose proof (lg_rewards _ _ _ _ L) as Hv.
  assert (∀ d, 0 ≤ amt d (Rewards c) + amt d y) as Hpos.
  { intros d. pose proof (valid_amt _ d Hv). pose proof (good_amt y d Hy). lia. }
  pose proof unit_pos as Hu.
  destruct (Z.eqb_spec (Amount tvl) 0) as [E0|E0].
  - exists []. split; [done|]. split; [apply valid_nil|]. intros d. rewrite amt_nil. specialize (Hpos d). nia.
  - assert (0 < Amount tvl).
    { assert (0 ≤ locked name lk); [|lia]. apply msum_nonneg. intros k l Hk. case_decide; [|lia].
      destruct (lg_lock _ _ _ _ L k l Hk) as [? _]; [done|lia]. }
    destruct (Coins.QuoDecTruncate_spec (Coins.Add2 (Rewards c) y) (Amount tvl)) as (R & -> & HR & Ha);
      [apply valid_good, Coins.Add2_valid; coins|done|].
    exists R. split; [done|]. split; [done|]. intros d. rewrite Ha, Hl, Add2_good_amt by coins.
    specialize (Hpos d).
    destruct (quot_mul_le ((amt d (Rewards c) + amt d y) * Dec.unit) (Amount tvl)); nia.
Qed.

(** IncrementPoolPeriod from a ledger in order: it succeeds, and what the lockers
    are owed grows by no more than what the period brought. *)
Lemma IncrementPoolPeriod_eq ctx name tvl y c s :
  current s !! name = Some c → ledger_ok name c (hist s) (locks s) → Period c + 1 < 2 ^ 64 →
  locked name (locks s) = Amount tvl → Coins.good y →
  ∃ hs', let c' := MkCurrent (BlockHeight ctx) (Period c + 1) [] in
    IncrementPoolPeriod ctx name tvl y s =
      (Ok (Period c), set_current (<[name := c']> (current s)) (set_hist hs' s)) ∧
    ledger_ok name c' hs' (locks s) ∧
    (∀ name' p, name' ≠ name → hs' !! (name', p) = hist s !! (name', p)) ∧
    ∀ d, owed hs' (locks s) name (Period c) d ≤
      owed (hist s) (locks s) name (Period c - 1) d + Dec.unit * (amt d (Rewards c) + amt d y).
Proof.
  intros Hc L Hp Hl Hy. pose proof (lg_period _ _ _ _ L) as Hper.
  destruct (ledger_tip_hist _ _ _ _ L) as [h Hh].
  destruct (lg_hist _ _ _ _ L _ _ Hh) as (Hcount & _).
  destruct (ratio_ok name c (locks s) (hist s) tvl y s L Hl Hy) as (R & HR & HvR & Hle).
  destruct (ledger_increment name c (hist s) (locks s) h R (BlockHeight ctx) L Hp Hh HvR) as [L' Ho].
  eexists. split; [|split; [exact L'|split]].
  - unfold IncrementPoolPeriod. rewrite (bind_eq _ _ _ _ _ (GetCurrent_eq _ _ _ Hc)). cbn [Rewards set_Rewards].
    rewrite (bind_eq _ _ _ _ _ HR). cbn [Period set_Rewards]. rewrite (uint64_small (Period c - 1)) by lia.
    rewrite (bind_eq _ _ _ _ _ (GetHist_eq _ _ _ _ Hh)).
    rewrite (bind_eq _ _ _ _ _ (decrement_eq _ _ _ _ Hh Hcount)).
    rewrite (uint64_small (Period c + 1)) by lia. done.
  - intros name' p Hne. rewrite lookup_insert_ne by congruence. apply dec_ref_ne. congruence.
  - intros d. rewrite Ho. specialize (Hle d). lia.
Qed.
(** A locker's rewards: never more than the locker is owed. *)
Lemma calculateRewards_eq ctx name c s k l :
  ledger_ok name c (hist s) (locks s) → locks s !! k = Some l → liPoolName l = name →
  ∃ r, calculateRewards ctx name (Period c - 1) l s = (Ok r, s) ∧ Coins.IsValid r = true ∧
    ∀ d, Dec.unit * amt d r ≤ Amount (liAmount l) *
      (cum (hist s) name (Period c - 1) d - cum (hist s) name (ReferencePeriod l) d).
Proof.
  intros L Hk Hn. pose proof unit_pos as Hu. destruct (lg_lock _ _ _ _ L k l Hk Hn) as [Ha Hr].
  destruct (ledger_tip_hist _ _ _ _ L) as [he He]. destruct (ledger_lock_hist _ _ _ _ k l L Hk Hn) as [hb Hb].
  destruct (lg_hist _ _ _ _ L _ _ He) as (_ & _ & Hve & _).
  destruct (lg_hist _ _ _ _ L _ _ Hb) as (_ & _ & Hvb & Hm).
  unfold calculateRewards. destruct (liStartBlockHeight l =? BlockHeight ctx)%Z.
  { exists []. split; [done|]. split; [apply valid_nil|]. intros d. rewrite amt_nil. specialize (Hm d). nia. }
  unfold calculateLockRewardsBetween. dec_simp.
  destruct (Z.ltb_spec (Period c - 1) (ReferencePeriod l)); [lia|].
  destruct (Z.ltb_spec (Amount (liAmount l)) 0); [lia|].
  rewrite (bind_eq _ _ _ _ _ (GetHist_eq _ _ _ _ Hb)), (bind_eq _ _ _ _ _ (GetHist_eq _ _ _ _ He)).
  destruct (Sub_ok (CumulativeRewardRatio he) (CumulativeRewardRatio hb)) as (D & -> & HvD & HD); [done..| |].
  { intros d. rewrite <-(cum_some _ _ _ _ d He), <-(cum_some _ _ _ _ d Hb). apply Hm. }
  eexists. split; [done|]. split; [apply Coins.MulDecTruncate_valid; [coins|lia]|].
  intros d. rewrite Coins.MulDecTruncate_amt by (coins || lia).
  rewrite (cum_some _ _ _ _ d He), (cum_some _ _ _ _ d Hb), <-HD.
  pose proof (valid_amt D d HvD).
  destruct (quot_mul_le (amt d D * Amount (liAmount l)) Dec.unit); nia.
Qed.

(** The transfer of rewards, if there are any. *)
Lemma pay_eq (m : string) (addr : AccAddress) r s : Coins.IsValid r = true →
  (∀ d, amt d r ≤ bal s (Bank.GetModuleAddress m) d) →
  ∃ b, (if Coins.IsZero r then mret tt else on_supply (Bank.SendCoinsFromModuleToAccount m addr r)) s
       = (Ok tt, set_bank b s) ∧ Bank.moved (bank s) b (Bank.GetModuleAddress m) addr r.
Proof.
  intros Hr Hle. destruct (Coins.IsZero r) eqn:Ez.
  - exists (bank s). apply Coins.IsZero_spec in Ez. split.
    + unfold mret, M_ret. f_equal. by destruct s as [[[]]].
    + split; [|done]. intros a d. rewrite (amt_zero r d Ez). repeat case_decide; lia.
  - destruct (Bank.ModuleSend_total m addr r (bank s) Hr Hle) as [b Hb]. exists b.
    rewrite on_supply_eq, Bank.ModuleToAccount_spec, Hb. split; [done|].
    by apply Bank.SendCoins_ok in Hb as [? _].
Qed.

(** WithdrawRewards from a ledger in order: it succeeds when the account that pays
    covers what the pool has accumulated, pays no more than is owed, and leaves the
    ledger of the other lock infos in order. *)
Lemma WithdrawRewards_eq ctx name tvl y c s addr l (T : string → Z) :
  current s !! name = Some c → ledger_ok name c (hist s) (locks s) → Period c + 1 < 2 ^ 64 →
  locked name (locks s) = Amount tvl → Coins.good y →
  locks s !! (addr, name) = Some l → liPoolName l = name →
  (∀ d, owed (hist s) (locks s) name (Period c - 1) d + Dec.unit * (amt d (Rewards c) + amt d y)
        ≤ Dec.unit * T d) →
  (∀ d, T d ≤ bal s yieldAcc d) →
  ∃ r hs' b, let c' := MkCurrent (BlockHeight ctx) (Period c + 1) [] in
    let lk' := delete (addr, name) (locks s) in
    WithdrawRewards ctx name tvl y addr s =
      (Ok r, set_hist hs' (set_bank b (set_current (<[name := c']> (current s)) s))) ∧
    Coins.IsValid r = true ∧ ledger_ok name c' hs' lk' ∧ refs name (Period c) lk' = 0 ∧
    (∀ name' p, name' ≠ name → hs' !! (name', p) = hist s !! (name', p)) ∧
    (∀ d, owed hs' lk' name (Period c) d + Dec.unit * amt d r ≤ Dec.unit * T d) ∧
    Bank.moved (bank s) b yieldAcc addr r.
Proof.
  intros Hc L Hp Hl Hy Hk Hn HT Hbal. pose proof unit_pos as Hu.
  destruct (IncrementPoolPeriod_eq ctx name tvl y c s Hc L Hp Hl Hy) as (hs1 & Hinc & L1 & Hoth & Ho).
  cbn zeta in Hinc, L1. set (c' := MkCurrent (BlockHeight ctx) (Period c + 1) []) in *.
  set (s1 := set_current (<[name := c']> (current s)) (set_hist hs1 s)) in *.
  assert (Period c' - 1 = Period c) as Ec by (cbn; lia).
  destruct (calculateRewards_eq ctx name c' s1 (addr, name) l L1 Hk Hn) as (r & Hcr & Hvr & Hr).
  rewrite Ec in Hcr, Hr.
  destruct (ledger_remove name c' hs1 (locks s) (addr, name) l L1 Hk Hn) as [L2 Ho2]. rewrite Ec in Ho2.
  destruct (ledger_lock_hist _ _ _ _ (addr, name) l L1 Hk Hn) as [h Hh].
  destruct (lg_hist _ _ _ _ L1 _ _ Hh) as (Hcnt & _).
  assert (∀ d, owed (dec_ref (name, ReferencePeriod l) hs1) (delete (addr, name) (locks s)) name (Period c) d
    + Dec.unit * amt d r ≤ Dec.unit * T d) as Hle.
  { intros d. specialize (Hr d). specialize (Ho d). specialize (HT d). rewrite Ho2.
    change (hist s1) with hs1 in Hr. lia. }
  destruct (pay_eq YieldFarmingAccount addr r s1 Hvr) as (b & Hpay & Hmv).
  { intros d. specialize (Hle d). pose proof (owed_nonneg _ _ _ _ d L2) as Hnn. rewrite Ec in Hnn.
    specialize (Hbal d). change (bal s1 (Bank.GetModuleAddress YieldFarmingAccount) d) with (bal s yieldAcc d). nia. }
  exists r, (dec_ref (name, ReferencePeriod l) hs1), b. cbn zeta.
  split; [|split; [done|split; [exact L2|split; [|split; [|split; [done|exact Hmv]]]]]].
  - unfold WithdrawRewards. rewrite (bind_eq _ _ s (Some l) s) by (unfold gets, GetLockInfo; by rewrite Hk).
    rewrite (bind_eq _ _ s l s) by done. rewrite (bind_eq _ _ _ _ _ Hinc), (bind_eq _ _ _ _ _ Hcr).
    rewrite (bind_eq _ _ _ _ _ Hpay). by rewrite (bind_eq _ _ _ _ _ (decrement_eq _ _ (set_bank b s1) _ Hh Hcnt)).
  - unfold refs. rewrite msum_delete, Hk. cbn. destruct (lg_lock _ _ _ _ L _ _ Hk Hn).
    rewrite decide_False by lia. pose proof (refs_fresh name c (hist s) (locks s) (Period c) L ltac:(lia)) as Hf.
    unfold refs in Hf. lia.
  - intros name' p Hne. rewrite dec_ref_ne by congruence. auto.
Qed.
(** The lock info UpdateLockInfo leaves: none when nothing is locked any more. *)
Definition new_lock (ctx : Context) (addr : AccAddress) (name denom : string) (amount last : Z) : option LockInfo :=
  if (amount =? 0)%Z then None
  else Some (MkLockInfo addr name (MkCoin denom amount) (BlockHeight ctx) last).

Lemma UpdateLockInfo_eq ctx name addr delta c s l :
  current s !! name = Some c → locks s !! (addr, name) = Some l →
  liPoolName l = name → liOwner l = addr →
  ledger_ok name c (hist s) (delete (addr, name) (locks s)) →
  refs name (Period c - 1) (delete (addr, name) (locks s)) = 0 →
  0 ≤ Amount (liAmount l) + delta →
  ∃ hs' A,
    let o := new_lock ctx addr name (Denom (liAmount l)) (Amount (liAmount l) + delta) (Period c - 1) in
    UpdateLockInfo ctx addr name delta s =
      (Ok tt, set_addressInPool A (set_locks (upd (addr, name) o (locks s)) (set_hist hs' s))) ∧
    ledger_ok name c hs' (upd (addr, name) o (locks s)) ∧
    (∀ name' p, name' ≠ name → hs' !! (name', p) = hist s !! (name', p)) ∧
    ∀ d, owed hs' (upd (addr, name) o (locks s)) name (Period c - 1) d =
         owed (hist s) (delete (addr, name) (locks s)) name (Period c - 1) d.
Proof.
  intros Hc Hk Hn Hown L Hz Ha. pose proof (lg_period _ _ _ _ L) as Hper. unfold new_lock.
  unfold UpdateLockInfo. rewrite (bind_eq _ _ _ _ _ (GetCurrent_eq _ _ _ Hc)).
  rewrite (bind_eq _ _ s (Some l) s) by (unfold gets, GetLockInfo; by rewrite Hk).
  rewrite uint64_small by lia. cbv zeta. cbn [liAmount liOwner liPoolName]. dec_simp.
  rewrite Coins.CoinIsZero_spec. cbn [Amount]. rewrite Hn, Hown.
  destruct (Z.eqb_spec (Amount (liAmount l) + delta) 0) as [E0|E0].
  - exists (hist s). eexists. split; [by destruct s|]. by rewrite upd_none.
  - destruct (ledger_tip_hist _ _ _ _ L) as [h Hh].
    pose proof (lg_count _ _ _ _ L (Period c - 1)) as Hcnt. rewrite Hz in Hcnt.
    unfold cnt, tip in Hcnt. rewrite Hh, decide_True in Hcnt by done. cbn in Hcnt.
    set (l' := MkLockInfo addr name _ _ _).
    destruct (ledger_add name c (hist s) (delete (addr, name) (locks s)) (addr, name) l' h) as [L' Ho];
      [done|apply lookup_delete_eq|done|cbn; lia|done|done|done|].
    rewrite insert_delete_eq in L', Ho. rewrite upd_some. eexists. eexists.
    split; [|split; [exact L'|split; [|exact Ho]]].
    + unfold incrementReferenceCount.
      assert (∀ (f : () → M FarmState ()), ((historical ← GetPoolHistoricalRewards name (Period c - 1);
        if (2 <? ReferenceCount historical)%Z then panic
        else SetPoolHistoricalRewards name (Period c - 1)
          (MkHistorical (CumulativeRewardRatio historical) (ReferenceCount historical + 1))) ≫= f) s =
        f tt (set_hist (<[(name, Period c - 1) := MkHistorical (CumulativeRewardRatio h) (ReferenceCount h + 1)]>
                (hist s)) s)) as Hinc.
      { intros f. apply bind_eq. rewrite (bind_eq _ _ _ _ _ (GetHist_eq _ _ _ _ Hh)).
        destruct (Z.ltb_spec 2 (ReferenceCount h)); [lia|done]. }
      rewrite Hinc. done.
    + intros name' p Hne. rewrite lookup_insert_ne by congruence. done.
Qed.

(** ** What a pool yields *)

Definition info_ok (i : YieldedTokenInfo) : Prop :=
  0 ≤ Amount (RemainingAmount i) ∧ Coins.ValidDenom (Denom (RemainingAmount i)) = true ∧
  0 ≤ AmountYieldedPerBlock i.

Lemma yield_one_eq st ht i : info_ok i →
  ∃ o, yield_one st ht i = Ok o ∧
    match o with
    | None => True
    | Some (i', y) => info_ok i' ∧ Coins.good y ∧ Denom (RemainingAmount i') = Denom (RemainingAmount i) ∧
        ∀ d, amt d y = coin_amt d (RemainingAmount i) - coin_amt d (RemainingAmount i')
    end.
Proof.
  intros (Hr & Hd & Hy). unfold yield_one. pose proof unit_pos as Hu. dec_simp.
  set (start := if (st <=? StartBlockHeightToYield i)%Z then _ else _).
  destruct (_ || _)%bool eqn:Hb; [exists None; done|].
  apply orb_false_iff in Hb as [_ Hh%Z.leb_gt].
  set (a := ((ht - start) * Dec.unit * AmountYieldedPerBlock i) ÷ Dec.unit).
  assert (0 ≤ a) as Ha by (apply Z.quot_pos; [apply Z.mul_nonneg_nonneg; nia|lia]).
  destruct (Z.ltb_spec a (Amount (RemainingAmount i))) as [Hlt|Hge].
  - destruct (Coins.NewDecCoinsFromDec_total (Denom (RemainingAmount i)) a Hd Ha) as [y Hyy].
    rewrite Hyy. eexists. split; [done|].
    destruct (Coins.NewDecCoinsFromDec_inv _ _ _ Hyy) as (_ & Hg & Hamt). unfold info_ok. cbn.
    split; [split; [lia|done]|]. split; [done|]. split; [done|].
    intros d. rewrite Hamt. unfold coin_amt. cbn. case_decide; lia.
  - destruct (Coins.NewDecCoinsFromDec_total (Denom (RemainingAmount i)) (Amount (RemainingAmount i)) Hd Hr) as [y Hyy].
    rewrite Hyy, Coins.NewDecCoin_spec. dec_simp. rewrite Coins.NewDecCoinFromDec_ok by (done || lia).
    eexists. split; [done|].
    destruct (Coins.NewDecCoinsFromDec_inv _ _ _ Hyy) as (_ & Hg & Hamt). unfold info_ok. cbn.
    split; [split; [lia|done]|]. split; [done|]. split; [done|].
    intros d. rewrite Hamt. unfold coin_amt. cbn. case_decide; lia.
Qed.

Definition remaining (pl : FarmPool) (d : string) : Z :=
  zsum ((λ i, coin_amt d (RemainingAmount i)) <$> YieldedTokenInfos pl).

Lemma yield_loop_eq st ht infos acc total :
  Forall info_ok infos → Coins.IsValid acc = true → Coins.IsValid total = true →
  ∃ infos' acc' total', yield_loop st ht infos acc total = Ok (infos', acc', total') ∧
    Forall info_ok infos' ∧ Coins.IsValid acc' = true ∧ Coins.IsValid total' = true ∧
    Forall2 (λ i i', Denom (RemainingAmount i') = Denom (RemainingAmount i)) infos infos' ∧
    ∀ d, amt d acc' - amt d acc = amt d total' - amt d total ∧
      amt d total' - amt d total = zsum ((λ i, coin_amt d (RemainingAmount i)) <$> infos)
        - zsum ((λ i, coin_amt d (RemainingAmount i)) <$> infos').
Proof.
  intros Hi. revert acc total. induction Hi as [|i infos Hi _ IH]; intros acc total Ha Ht; cbn [yield_loop].
  - eexists _, _, _. split; [done|]. repeat (split; [done || constructor|]). intros d. cbn. lia.
  - destruct (yield_one_eq st ht i Hi) as (o & -> & Ho). cbn [mbind outcome_bind].
    destruct o as [[i' y]|].
    + destruct Ho as (Hi' & Hy & Hd & Hamt).
      destruct (IH (Coins.Add2 acc y) (Coins.Add2 total y)) as (infos' & acc' & total' & -> & Hf & Hva & Hvt & H2 & Hs);
        [apply Coins.Add2_valid; coins..|].
      eexists _, _, _. split; [done|]. split; [by constructor|]. split; [done|]. split; [done|].
      split; [by constructor|]. intros d. specialize (Hs d). rewrite !Add2_good_amt in Hs by coins.
      rewrite !fmap_cons, !zsum_cons. specialize (Hamt d). lia.
    + destruct (IH acc total) as (infos' & acc' & total' & -> & Hf & Hva & Hvt & H2 & Hs); [done..|].
      eexists _, _, _. split; [done|]. split; [by constructor|]. split; [done|]. split; [done|].
      split; [by constructor|]. intros d. specialize (Hs d). rewrite !fmap_cons, !zsum_cons. lia.
Qed.

(** CalculateAmountYieldedBetween moves coins from the remaining amounts to the
    accumulated rewards, and nothing else. *)
Lemma yielded_eq ctx pl c s : current s !! Name pl = Some c →
  Forall info_ok (YieldedTokenInfos pl) → Coins.IsValid (TotalAccumulatedRewards pl) = true →
  ∃ infos acc y,
    CalculateAmountYieldedBetween ctx pl s = (Ok (set_accumulated acc (set_infos infos pl), y), s) ∧
    Forall info_ok infos ∧ Coins.IsValid acc = true ∧ Coins.IsValid y = true ∧
    Forall2 (λ i i', Denom (RemainingAmount i') = Denom (RemainingAmount i)) (YieldedTokenInfos pl) infos ∧
    ∀ d, amt d acc = amt d (TotalAccumulatedRewards pl) + amt d y ∧
      remaining (set_infos infos pl) d = remaining pl d - amt d y.
Proof.
  intros Hc Hi Ha. unfold CalculateAmountYieldedBetween. rewrite (bind_eq _ _ _ _ _ (GetCurrent_eq _ _ _ Hc)).
  destruct (yield_loop_eq (crStartBlockHeight c) (BlockHeight ctx) (YieldedTokenInfos pl)
    (TotalAccumulatedRewards pl) []) as (infos & acc & y & E1 & Hf & Hva & Hvy & H2 & Hs); [done|done|apply valid_nil|].
  exists infos, acc, y. split; [by rewrite E1|]. repeat (split; [done|]). intros d. specialize (Hs d).
  rewrite amt_nil in Hs. unfold remaining. cbn [YieldedTokenInfos set_infos]. lia.
Qed.
(** ** The invariant of the module *)

Record pool_ok (cur : gmap string PoolCurrentRewards) (hs : gmap (string * Z) PoolHistoricalRewards)
    (lk : gmap (string * string) LockInfo) (name : string) (pl : FarmPool) : Prop := {
  po_name : Name pl = name;
  po_denom : Denom (TotalValueLocked pl) = Denom (MinLockAmount pl);
  po_valid : Coins.ValidDenom (Denom (MinLockAmount pl)) = true;
  po_deposit : 0 ≤ Amount (DepositAmount pl) ∧ Coins.ValidDenom (Denom (DepositAmount pl)) = true;
  po_infos : Forall info_ok (YieldedTokenInfos pl);
  po_single : length (YieldedTokenInfos pl) = 1%nat;
  po_acc : Coins.IsValid (TotalAccumulatedRewards pl) = true;
  po_locked : locked name lk = Amount (TotalValueLocked pl);
  (* solvency: all that lockers could claim has been accumulated *)
  po_ledger : ∃ c, cur !! name = Some c ∧ ledger_ok name c hs lk ∧
    ∀ d, owed hs lk name (Period c - 1) d + Dec.unit * amt d (Rewards c)
         ≤ Dec.unit * amt d (TotalAccumulatedRewards pl);
}.

Definition pool_yield (d : string) (pl : FarmPool) : Z :=
  amt d (TotalAccumulatedRewards pl) + remaining pl d.

Record farm_inv (s : FarmState) : Prop := {
  fi_pools name pl : pools s !! name = Some pl → pool_ok (current s) (hist s) (locks s) name pl;
  fi_locks k l : locks s !! k = Some l → k = (liOwner l, liPoolName l) ∧
    ∃ pl, pools s !! liPoolName l = Some pl ∧ Denom (liAmount l) = Denom (MinLockAmount pl);
  fi_fresh name p : pools s !! name = None → hist s !! (name, p) = None;
  fi_white name : name ∈ whitelist s → is_Some (pools s !! name);
  (* the module accounts hold exactly the deposits and locks, and the rewards *)
  fi_farm d : bal s farmAcc d = msum (λ pl, coin_amt d (DepositAmount pl)) (pools s)
    + msum (λ l, coin_amt d (liAmount l)) (locks s);
  fi_yield d : bal s yieldAcc d = msum (pool_yield d) (pools s);
  fi_params : 0 ≤ Amount (CreatePoolDeposit (fparams s)) ∧
    Coins.ValidDenom (Denom (CreatePoolDeposit (fparams s))) = true;
}.

(** A lock info of another pool does not show in a pool's ledger. *)
Lemma ledger_frame name name' c hs hs' lk k o : name' ≠ name →
  (∀ p, hs' !! (name', p) = hs !! (name', p)) →
  (∀ l, lk !! k = Some l → liPoolName l = name) → (∀ l, o = Some l → liPoolName l = name) →
  locked name' (upd k o lk) = locked name' lk ∧
  (∀ last d, owed hs' (upd k o lk) name' last d = owed hs lk name' last d) ∧
  (ledger_ok name' c hs lk → ledger_ok name' c hs' (upd k o lk)).
Proof.
  intros Hne Hhs Hl Ho.
  assert (∀ f : LockInfo → Z, (∀ l, liPoolName l = name → f l = 0) → msum f (upd k o lk) = msum f lk) as Hm.
  { intros f Hf. rewrite msum_upd.
    assert (from_option f 0 (lk !! k) = 0) as -> by (destruct (lk !! k) eqn:El; cbn; auto).
    assert (from_option f 0 o = 0) as -> by (destruct o; cbn; auto). lia. }
  assert (∀ p d, cum hs' name' p d = cum hs name' p d) as Hcum by (intros; unfold cum; by rewrite Hhs).
  assert (∀ p, refs name' p (upd k o lk) = refs name' p lk) as Hrefs.
  { intros p. apply Hm. intros l Hn. rewrite decide_False; [done|]. intros [? _]. congruence. }
  split; [|split].
  - apply Hm. intros l Hn. by rewrite decide_False by congruence.
  - intros last d. unfold owed. rewrite Hm by (intros l Hn; by rewrite decide_False by congruence).
    apply msum_ext. intros k' l' _. cbn. by rewrite !Hcum.
  - intros L. split; [apply L|apply L|..].
    + intros k' l'. rewrite lookup_upd. case_decide; [intros ->%Ho; congruence|]. apply (lg_lock _ _ _ _ L).
    + intros p. rewrite Hrefs. unfold cnt. rewrite Hhs. apply (lg_count _ _ _ _ L).
    + intros p. rewrite Hrefs. apply (lg_unique _ _ _ _ L).
    + intros p h. rewrite Hhs. intros Hh. destruct (lg_hist _ _ _ _ L p h Hh) as (?&?&?&Hmo).
      repeat (split; [done|]). intros d. rewrite !Hcum. apply Hmo.
Qed.

Lemma pool_frame name name' cur c' hs hs' lk k o pl : name' ≠ name →
  (∀ p, hs' !! (name', p) = hs !! (name', p)) →
  (∀ l, lk !! k = Some l → liPoolName l = name) → (∀ l, o = Some l → liPoolName l = name) →
  pool_ok cur hs lk name' pl → pool_ok (upd name c' cur) hs' (upd k o lk) name' pl.
Proof.
  intros Hne Hhs Hl Ho P. destruct (po_ledger _ _ _ _ _ P) as (c & Hc & L & Hs).
  destruct (ledger_frame name name' c hs hs' lk k o) as (E1 & E2 & E3); [done..|].
  split; try apply P.
  - rewrite E1. apply P.
  - exists c. rewrite lookup_upd, decide_False by done. split; [done|]. split; [auto|].
    intros d. rewrite E2. apply Hs.
Qed.

(** The invariant after an operation on one pool. *)
Lemma restore s name pl pl' c' hs' k o b A cl :
  farm_inv s → pools s !! name = Some pl →
  pool_ok (upd name (Some c') (current s)) hs' (upd k o (locks s)) name pl' →
  Denom (MinLockAmount pl') = Denom (MinLockAmount pl) → DepositAmount pl' = DepositAmount pl →
  (∀ name' p, name' ≠ name → hs' !! (name', p) = hist s !! (name', p)) →
  snd k = name →
  (∀ l, o = Some l → k = (liOwner l, liPoolName l) ∧ Denom (liAmount l) = Denom (MinLockAmount pl)) →
  (∀ d, Bank.balance b farmAcc d = bal s farmAcc d
    - from_option (λ l, coin_amt d (liAmount l)) 0 (locks s !! k)
    + from_option (λ l, coin_amt d (liAmount l)) 0 o) →
  (∀ d, Bank.balance b yieldAcc d = bal s yieldAcc d - pool_yield d pl + pool_yield d pl') →
  farm_inv (MkFarmState (SwapSpec.set_bank b (swap s)) (<[name := pl']> (pools s)) A
    (upd k o (locks s)) (whitelist s) hs' (<[name := c']> (current s)) (fparams s) cl).
Proof.
  intros I Hp P Hmin Hdep Hoth Hkn Ho Hf Hy. split; cbn.
  - intros name' pl0. rewrite lookup_insert_Some. intros [[<- <-]|[Hne H0]]; [done|].
    apply (pool_frame name name' (current s) (Some c') (hist s)); [done|auto|..].
    + intros l [-> _]%(fi_locks s I). done.
    + intros l [-> _]%Ho. done.
    + by apply (fi_pools s I).
  - intros k' l. rewrite lookup_upd. case_decide as Ek.
    + intros Hl. destruct (Ho l Hl) as [Eo Hd]. subst k'. split; [done|]. exists pl'.
      rewrite Eo in Hkn. cbn in Hkn. rewrite Hkn, lookup_insert_eq. split; [done|]. congruence.
    + intros Hl. destruct (fi_locks s I k' l Hl) as [? (pl0 & Hpl0 & Hd)]. split; [done|].
      destruct (decide (liPoolName l = name)) as [En|En].
      * exists pl'. rewrite En, lookup_insert_eq. split; [done|]. congruence.
      * exists pl0. by rewrite lookup_insert_ne.
  - intros name' p. rewrite lookup_insert_None. intros [Hn Hne]. rewrite Hoth by done. by apply (fi_fresh s I).
  - intros name' Hn. destruct (decide (name' = name)) as [->|]; [rewrite lookup_insert_eq; eauto|].
    rewrite lookup_insert_ne by done. by apply (fi_white s I).
  - intros d. unfold bal, bank. cbn. rewrite Hf, (fi_farm s I d), msum_insert, msum_upd, Hp. cbn. rewrite Hdep. lia.
  - intros d. unfold bal, bank. cbn. rewrite Hy, (fi_yield s I d), msum_insert, Hp. cbn. lia.
  - apply (fi_params s I).
Qed.
(** ** Operations on one pool *)

Lemma remaining_nonneg pl d : Forall info_ok (YieldedTokenInfos pl) → 0 ≤ remaining pl d.
Proof.
  intros H. apply zsum_nonneg, Forall_fmap. eapply Forall_impl; [exact H|]. intros i (Hr & _). cbn.
  unfold coin_amt. case_decide; lia.
Qed.

Lemma pool_yield_le s name pl d : farm_inv s → pools s !! name = Some pl → pool_yield d pl ≤ bal s yieldAcc d.
Proof.
  intros I Hp. rewrite (fi_yield s I d). apply (msum_le _ _ name); [|done].
  intros n q Hq. pose proof (fi_pools s I n q Hq) as P. unfold pool_yield.
  pose proof (valid_amt _ d (po_acc _ _ _ _ _ P)). pose proof (remaining_nonneg q d (po_infos _ _ _ _ _ P)). lia.
Qed.

(** Where a pool of a good state stands when its period is about to end. *)
Record settled (ctx : Context) (s : FarmState) (name : string) (pl : FarmPool)
    (c : PoolCurrentRewards) (infos : list YieldedTokenInfo) (acc y : SysCoins) : Prop := {
  st_current : current s !! name = Some c;
  st_ledger : ledger_ok name c (hist s) (locks s);
  st_yield : CalculateAmountYieldedBetween ctx pl s = (Ok (set_accumulated acc (set_infos infos pl), y), s);
  st_infos : Forall info_ok infos;
  st_denoms : Forall2 (λ i i', Denom (RemainingAmount i') = Denom (RemainingAmount i)) (YieldedTokenInfos pl) infos;
  st_acc : Coins.IsValid acc = true;
  st_y : Coins.IsValid y = true;
  st_acc_amt d : amt d acc = amt d (TotalAccumulatedRewards pl) + amt d y;
  st_rem_amt d : remaining (set_infos infos pl) d = remaining pl d - amt d y;
  st_solvent d : owed (hist s) (locks s) name (Period c - 1) d + Dec.unit * (amt d (Rewards c) + amt d y)
    ≤ Dec.unit * amt d acc;
  st_funded d : amt d acc ≤ bal s yieldAcc d;
}.

Lemma settle ctx s name pl : farm_inv s → pools s !! name = Some pl →
  ∃ c infos acc y, settled ctx s name pl c infos acc y.
Proof.
  intros I Hp. pose proof (fi_pools s I name pl Hp) as P. destruct (po_ledger _ _ _ _ _ P) as (c & Hc & L & Hs).
  destruct (yielded_eq ctx pl c s) as (infos & acc & y & E1 & Hi & Ha & Hy & H2 & Hamt);
    [by rewrite (po_name _ _ _ _ _ P)|apply P|apply P|].
  exists c, infos, acc, y. split; [done..| | | |].
  - apply Hamt.
  - apply Hamt.
  - intros d. specialize (Hs d). destruct (Hamt d) as [-> _]. lia.
  - intros d. destruct (Hamt d) as [Ea Er]. pose proof (pool_yield_le s name pl d I Hp) as Hle.
    unfold pool_yield in Hle. pose proof (remaining_nonneg (set_infos infos pl) d Hi). lia.
Qed.

Lemma settled_length ctx s name pl c infos acc y : farm_inv s → pools s !! name = Some pl →
  settled ctx s name pl c infos acc y → length infos = 1%nat.
Proof.
  intros I Hp S. rewrite <-(Forall2_length _ _ _ (st_denoms _ _ _ _ _ _ _ _ S)).
  apply (po_single _ _ _ _ _ (fi_pools s I name pl Hp)).
Qed.

(** The state an operation on a pool ends in: [infos'] are the infos, [rest] the
    accumulated rewards, [o] the lock info at [k], [delta] what was locked. *)
Lemma settled_restore ctx s name pl c infos acc y k o infos' rest r delta hs' b A cl :
  farm_inv s → pools s !! name = Some pl → settled ctx s name pl c infos acc y →
  let c' := MkCurrent (BlockHeight ctx) (Period c + 1) [] in
  let lk' := upd k o (locks s) in
  let pl' := set_locked (MkCoin (Denom (TotalValueLocked pl)) (Amount (TotalValueLocked pl) + delta))
               (set_accumulated rest (set_infos infos' pl)) in
  ledger_ok name c' hs' lk' →
  (∀ name' p, name' ≠ name → hs' !! (name', p) = hist s !! (name', p)) →
  (∀ d, owed hs' lk' name (Period c) d + Dec.unit * amt d r ≤ Dec.unit * amt d acc) →
  Coins.IsValid rest = true → (∀ d, amt d rest = amt d acc - amt d r) →
  Forall info_ok infos' → length infos' = 1%nat → snd k = name →
  (∀ l, o = Some l → k = (liOwner l, liPoolName l) ∧ Denom (liAmount l) = Denom (MinLockAmount pl)) →
  from_option (λ l, Amount (liAmount l)) 0 o =
    from_option (λ l, Amount (liAmount l)) 0 (locks s !! k) + delta →
  (∀ d, Bank.balance b farmAcc d = bal s farmAcc d + coin_amt d (MkCoin (Denom (MinLockAmount pl)) delta)) →
  (∀ d, Bank.balance b yieldAcc d = bal s yieldAcc d - amt d r
    + (remaining (set_infos infos' pl) d - remaining (set_infos infos pl) d)) →
  farm_inv (MkFarmState (SwapSpec.set_bank b (swap s)) (<[name := pl']> (pools s)) A
    lk' (whitelist s) hs' (<[name := c']> (current s)) (fparams s) cl).
Proof.
  intros I Hp S c' lk' pl' L Hoth Ho Hrest Hra Hi Hlen Hk Hlock Hdelta Hf Hy.
  pose proof (fi_pools s I name pl Hp) as P.
  assert (∀ l, locks s !! k = Some l → liPoolName l = name ∧ Denom (liAmount l) = Denom (MinLockAmount pl)) as Hold.
  { intros l Hl. destruct (fi_locks s I k l Hl) as [-> (q & Hq & ?)]. cbn in Hk. rewrite Hk in Hq.
    rewrite Hp in Hq. injection Hq as <-. done. }
  apply restore with pl; try done.
  - split; try apply P; try done.
    + cbn. unfold lk', locked. rewrite msum_upd. fold (locked name (locks s)).
      rewrite (po_locked _ _ _ _ _ P).
      assert (∀ x : option LockInfo, (∀ l, x = Some l → liPoolName l = name) →
        from_option (λ l, if decide (liPoolName l = name) then Amount (liAmount l) else 0) 0 x =
        from_option (λ l, Amount (liAmount l)) 0 x) as Hx.
      { intros [l|] Hx; cbn; [|done]. by rewrite decide_True by auto. }
      rewrite !Hx, Hdelta; [lia|intros l [-> _]%Hlock; done|intros l [? _]%Hold; done].
    + exists c'. rewrite lookup_upd, decide_True by done. split; [done|]. split; [exact L|].
      intros d. cbn [Rewards Period c' pl' TotalAccumulatedRewards set_locked set_accumulated].
      specialize (Ho d). rewrite amt_nil, Hra. replace (Period c + 1 - 1) with (Period c) by lia. unfold lk' in *. lia.
  - intros d. rewrite Hf. clear -Hold Hlock Hdelta Hk.
    assert (∀ x : option LockInfo, (∀ l, x = Some l → Denom (liAmount l) = Denom (MinLockAmount pl)) →
      from_option (λ l, coin_amt d (liAmount l)) 0 x =
      if decide (Denom (MinLockAmount pl) = d) then from_option (λ l, Amount (liAmount l)) 0 x else 0) as Hx.
    { intros [l|] Hx; cbn; [|by case_decide]. unfold coin_amt. by rewrite Hx. }
    rewrite !Hx; [|intros l Hl; by apply Hlock|intros l Hl; by apply Hold].
    unfold coin_amt. cbn. case_decide; lia.
  - intros d. rewrite Hy, (st_rem_amt _ _ _ _ _ _ _ _ S). unfold pool_yield.
    change (TotalAccumulatedRewards pl') with rest. rewrite Hra, (st_acc_amt _ _ _ _ _ _ _ _ S).
    change (remaining pl' d) with (remaining (set_infos infos' pl) d). lia.
Qed.
(** Withdrawing the rewards of a lock info and changing its amount: both succeed. *)
Lemma relock ctx s name pl c infos acc y addr l delta :
  farm_inv s → pools s !! name = Some pl → settled ctx s name pl c infos acc y →
  locks s !! (addr, name) = Some l → Period c + 1 < 2 ^ 64 → 0 ≤ Amount (liAmount l) + delta →
  ∃ r rest hs1 hs2 b A,
    let c' := MkCurrent (BlockHeight ctx) (Period c + 1) [] in
    let o := new_lock ctx addr name (Denom (liAmount l)) (Amount (liAmount l) + delta) (Period c) in
    let s1 := set_hist hs1 (set_bank b (set_current (<[name := c']> (current s)) s)) in
    WithdrawRewards ctx name (TotalValueLocked pl) y addr s = (Ok r, s1) ∧
    UpdateLockInfo ctx addr name delta s1 =
      (Ok tt, set_addressInPool A (set_locks (upd (addr, name) o (locks s)) (set_hist hs2 s1))) ∧
    (∀ q s0, TotalAccumulatedRewards q = acc → deduct_rewards q r s0 = (Ok (set_accumulated rest q), s0)) ∧
    Coins.IsValid r = true ∧ Coins.IsValid rest = true ∧ (∀ d, amt d rest = amt d acc - amt d r) ∧
    ledger_ok name c' hs2 (upd (addr, name) o (locks s)) ∧
    (∀ name' p, name' ≠ name → hs2 !! (name', p) = hist s !! (name', p)) ∧
    (∀ d, owed hs2 (upd (addr, name) o (locks s)) name (Period c) d + Dec.unit * amt d r ≤ Dec.unit * amt d acc) ∧
    Bank.moved (bank s) b yieldAcc addr r.
Proof.
  intros I Hp S Hk Hper Ha. pose proof unit_pos as Hu. pose proof (fi_pools s I name pl Hp) as P.
  destruct (fi_locks s I _ _ Hk) as [[= Eo En] _].
  destruct (WithdrawRewards_eq ctx name (TotalValueLocked pl) y c s addr l (λ d, amt d acc))
    as (r & hs1 & b & Hw & Hvr & L1 & Hz & Hoth & Hle & Hmv);
    [apply S|apply S|done|apply P|apply valid_good, S|done|done|apply S|apply S|].
  cbn zeta in Hw, L1, Hz, Hle. set (c' := MkCurrent (BlockHeight ctx) (Period c + 1) []) in *.
  set (s1 := set_hist hs1 (set_bank b (set_current (<[name := c']> (current s)) s))) in *.
  assert (Period c' - 1 = Period c) as Ec by (cbn; lia).
  destruct (UpdateLockInfo_eq ctx name addr delta c' s1 l) as (hs2 & A & Hupd & L2 & Hoth2 & Ho2);
    [apply lookup_insert_eq|done|done|done|exact L1|by rewrite Ec|done|].
  cbn zeta in Hupd, L2, Ho2. rewrite Ec in Hupd, L2, Ho2.
  destruct (Sub_ok acc r) as (rest & Hsub & Hvrest & Hrest); [apply S|done| |].
  { intros d. specialize (Hle d). pose proof (owed_nonneg _ _ _ _ d L1) as Hn. rewrite Ec in Hn. nia. }
  exists r, rest, hs1, hs2, b, A. cbn zeta. fold c' s1.
  split; [exact Hw|]. split; [exact Hupd|]. split; [|split; [done|split; [done|split; [done|split; [exact L2|split; [|split]]]]]].
  - intros q s0 <-. unfold deduct_rewards. rewrite Coins.IsAllLT_false; [by rewrite Hsub|apply S|done|].
    intros d. specialize (Hrest d). pose proof (valid_amt rest d Hvrest). lia.
  - intros name' p Hne. rewrite Hoth2 by done. cbn. auto.
  - intros d. change (locks s1) with (locks s) in Ho2. rewrite Ho2. apply Hle.
  - exact Hmv.
Qed.

Lemma new_lock_some ctx addr name denom a last l : new_lock ctx addr name denom a last = Some l →
  (addr, name) = (liOwner l, liPoolName l) ∧ Denom (liAmount l) = denom.
Proof. unfold new_lock. destruct (a =? 0)%Z; [done|]. by intros [= <-]. Qed.

Lemma new_lock_amount ctx addr name denom a last :
  from_option (λ l, Amount (liAmount l)) 0 (new_lock ctx addr name denom a last) = a.
Proof. unfold new_lock. destruct (Z.eqb_spec a 0); cbn; lia. Qed.

Lemma set_locked_id pl rest infos :
  set_locked (MkCoin (Denom (TotalValueLocked pl)) (Amount (TotalValueLocked pl) + 0))
    (set_accumulated rest (set_infos infos pl)) = set_accumulated rest (set_infos infos pl).
Proof. rewrite Z.add_0_r. by destruct pl as [? ? ? ? [] ? ?]. Qed.

(** ** The handlers *)

(** Accounts of users: none of the module's own. *)
Definition user (a : AccAddress) : Prop := a ≠ farmAcc ∧ a ≠ yieldAcc.
Definition periods_left (s : FarmState) : Prop :=
  ∀ name c, current s !! name = Some c → Period c + 1 < 2 ^ 64.

(** The module accounts are different ones. *)
Class Accounts : Prop := {
  accounts_ne : farmAcc ≠ yieldAcc;
  collector_ne : user (Bank.GetModuleAddress Token.feeCollectorName);
  mint_ne : user mintAcc;
}.
Context `{AC : !Accounts}.

(** A claim by a locker: it succeeds, the locker receives coins, the invariant holds. *)
Lemma claim_ok ctx msg s l : farm_inv s → periods_left s → user (clAddress msg) →
  locks s !! (clAddress msg, clPoolName msg) = Some l →
  ∃ s' r, handleMsgClaim ctx msg s = (Ok tt, s') ∧ farm_inv s' ∧ Coins.IsValid r = true ∧
    ∀ d, bal s' (clAddress msg) d = bal s (clAddress msg) d + amt d r.
Proof.
  intros I Hper [Hu1 Hu2] Hk. destruct (fi_locks s I _ _ Hk) as [[= Eo En] (pl & Hp & Hd)].
  rewrite <-En in Hp. pose proof (fi_pools s I _ _ Hp) as P.
  destruct (settle ctx s _ pl I Hp) as (c & infos & acc & y & S).
  pose proof (Hper _ _ (st_current _ _ _ _ _ _ _ _ S)) as Hpc.
  destruct (lg_lock _ _ _ _ (st_ledger _ _ _ _ _ _ _ _ S) _ _ Hk) as [Ha _]; [done|].
  destruct (relock ctx s (clPoolName msg) pl c infos acc y (clAddress msg) l 0)
    as (r & rest & hs1 & hs2 & b & A & Hw & Hupd & Hded & Hvr & Hvrest & Hra & L & Hoth & Ho & Hmv); [done..|lia|].
  cbn zeta in *.
  exists (MkFarmState (SwapSpec.set_bank b (swap s))
    (<[clPoolName msg := set_locked (MkCoin (Denom (TotalValueLocked pl)) (Amount (TotalValueLocked pl) + 0))
         (set_accumulated rest (set_infos infos pl))]> (pools s)) A
    (upd (clAddress msg, clPoolName msg) (new_lock ctx (clAddress msg) (clPoolName msg) (Denom (liAmount l))
       (Amount (liAmount l) + 0) (Period c)) (locks s)) (whitelist s) hs2
    (<[clPoolName msg := MkCurrent (BlockHeight ctx) (Period c + 1) []]> (current s)) (fparams s)
    (claims s ++ [(clAddress msg, clPoolName msg, r)])), r.
  split; [|split; [|split; [done|]]].
  - unfold handleMsgClaim. rewrite (bind_eq _ _ s (Some pl) s) by (unfold gets, GetFarmPool; by rewrite Hp).
    rewrite (bind_eq _ _ s pl s) by done. rewrite (bind_eq _ _ _ _ _ (st_yield _ _ _ _ _ _ _ _ S)).
    rewrite (po_name _ _ _ _ _ P), (bind_eq _ _ _ _ _ Hw). dec_simp. rewrite (bind_eq _ _ _ _ _ Hupd).
    rewrite (bind_eq _ _ _ _ _ (Hded (set_accumulated acc (set_infos infos pl)) _ eq_refl)).
    rewrite set_locked_id. unfold SetFarmPool. cbn [Name set_accumulated set_infos].
    rewrite (po_name _ _ _ _ _ P). reflexivity.
  - apply (settled_restore ctx s (clPoolName msg) pl c infos acc y (clAddress msg, clPoolName msg)
      _ infos rest r 0); try done.
    + apply S.
    + by apply (settled_length ctx s (clPoolName msg) pl c infos acc y).
    + intros l' Hl'. rewrite <-Hd. by apply new_lock_some in Hl'.
    + rewrite new_lock_amount, Hk. done.
    + intros d. pose proof accounts_ne. destruct Hmv as [-> _].
      rewrite !decide_False by congruence. unfold bal, coin_amt. case_decide; cbn; lia.
    + intros d. destruct Hmv as [-> _]. rewrite decide_True, decide_False by congruence. unfold bal. lia.
  - intros d. destruct Hmv as [Hm _]. unfold bal, bank. cbn.
    rewrite Hm, decide_False, decide_True by congruence. unfold bank. lia.
Qed.
Lemma lift_some_eq {A B} (x : A) (f : A → M FarmState B) s : (lift (or_panic (Some x)) ≫= f) s = f x s.
Proof. done. Qed.

Lemma locked_lower s name pl k l : pool_ok (current s) (hist s) (locks s) name pl →
  locks s !! k = Some l → liPoolName l = name → Amount (liAmount l) ≤ Amount (TotalValueLocked pl).
Proof.
  intros P Hk Hn. rewrite <-(po_locked _ _ _ _ _ P). unfold locked. set (f := λ l : LockInfo, _).
  assert (f l = Amount (liAmount l)) as <- by (unfold f; by rewrite decide_True).
  apply (msum_le f _ k); [|done]. intros k' l' Hl'. unfold f. case_decide; [|lia].
  destruct (po_ledger _ _ _ _ _ P) as (c & _ & L & _). destruct (lg_lock _ _ _ _ L k' l' Hl'); [done|lia].
Qed.

Lemma send_eq m a coins s b f :
  Bank.SendCoins (Bank.GetModuleAddress m) a coins (bank s) = (Ok tt, b) →
  wrap_err f (on_supply (Bank.SendCoinsFromModuleToAccount m a coins)) s = (Ok tt, set_bank b s).
Proof. intros H. unfold wrap_err. rewrite on_supply_eq, Bank.ModuleToAccount_spec, H. done. Qed.

Lemma lock_le s k l d : farm_inv s → locks s !! k = Some l → coin_amt d (liAmount l) ≤ bal s farmAcc d.
Proof.
  intros I Hk. rewrite (fi_farm s I d).
  assert (∀ c, 0 ≤ Amount c → 0 ≤ coin_amt d c) as Hc by (intros c ?; unfold coin_amt; case_decide; lia).
  assert (coin_amt d (liAmount l) ≤ msum (λ l, coin_amt d (liAmount l)) (locks s)).
  { apply (msum_le (λ l, coin_amt d (liAmount l)) _ k); [|done]. intros k' l' Hl'. apply Hc.
    destruct (fi_locks s I k' l' Hl') as [_ (q & Hq & _)].
    destruct (po_ledger _ _ _ _ _ (fi_pools s I _ _ Hq)) as (c & _ & L & _).
    destruct (lg_lock _ _ _ _ L k' l' Hl') as [? _]; [done|lia]. }
  assert (0 ≤ msum (λ pl, coin_amt d (DepositAmount pl)) (pools s)); [|lia].
  apply msum_nonneg. intros n q Hq. apply Hc, (po_deposit _ _ _ _ _ (fi_pools s I _ _ Hq)).
Qed.

(** An unlock that passes the checks succeeds, pays the coins back, and keeps the
    invariant. *)
Lemma unlock_ok ctx msg s l pl : farm_inv s → periods_left s → user (unAddress msg) →
  locks s !! (unAddress msg, unPoolName msg) = Some l → pools s !! unPoolName msg = Some pl →
  Denom (unAmount msg) = Denom (liAmount l) → 0 < Amount (unAmount msg) ≤ Amount (liAmount l) →
  Amount (unAmount msg) = Amount (liAmount l) ∨
    Amount (MinLockAmount pl) ≤ Amount (liAmount l) - Amount (unAmount msg) →
  ∃ s' r, handleMsgUnlock ctx msg s = (Ok tt, s') ∧ farm_inv s' ∧ Coins.IsValid r = true ∧
    (∃ last, locks s' = upd (unAddress msg, unPoolName msg) (new_lock ctx (unAddress msg) (unPoolName msg)
      (Denom (liAmount l)) (Amount (liAmount l) + - Amount (unAmount msg)) last) (locks s)) ∧
    ∀ d, bal s' (unAddress msg) d = bal s (unAddress msg) d + amt d r + coin_amt d (unAmount msg).
Proof.
  intros I Hper [Hu1 Hu2] Hk Hp Hden Ham Hmin. destruct (fi_locks s I _ _ Hk) as [[= Eo En] (q & Hq & Hd)].
  rewrite <-En, Hp in Hq. injection Hq as <-. pose proof (fi_pools s I _ _ Hp) as P.
  destruct (settle ctx s _ pl I Hp) as (c & infos & acc & y & S).
  pose proof (Hper _ _ (st_current _ _ _ _ _ _ _ _ S)) as Hpc.
  destruct (relock ctx s (unPoolName msg) pl c infos acc y (unAddress msg) l (- Amount (unAmount msg)))
    as (r & rest & hs1 & hs2 & b & A & Hw & Hupd & Hded & Hvr & Hvrest & Hra & L & Hoth & Ho & Hmv); [done..|lia|].
  cbn zeta in *. pose proof accounts_ne as Hacc.
  destruct (Bank.ModuleSend_total ModuleName (unAddress msg) (Coins.ToCoins (unAmount msg)) b) as [b2 Hb2].
  { apply Coins.ToCoins_valid; [lia|]. rewrite Hden, Hd. apply P. }
  { intros d. rewrite Coins.ToCoins_amt. destruct Hmv as [-> _]. fold farmAcc.
    rewrite !decide_False by congruence. pose proof (lock_le s _ l d I Hk) as Hle. unfold bal in Hle.
    unfold coin_amt in *. rewrite Hden. case_decide; lia. }
  pose proof (Bank.SendCoins_ok _ _ _ _ _ Hb2) as [[Hmv2 _] _].
  exists (MkFarmState (SwapSpec.set_bank b2 (swap s))
    (<[unPoolName msg := set_locked (MkCoin (Denom (TotalValueLocked pl)) (Amount (TotalValueLocked pl) + - Amount (unAmount msg)))
         (set_accumulated rest (set_infos infos pl))]> (pools s)) A
    (upd (unAddress msg, unPoolName msg) (new_lock ctx (unAddress msg) (unPoolName msg) (Denom (liAmount l))
       (Amount (liAmount l) + - Amount (unAmount msg)) (Period c)) (locks s)) (whitelist s) hs2
    (<[unPoolName msg := MkCurrent (BlockHeight ctx) (Period c + 1) []]> (current s)) (fparams s)
    (claims s ++ [(unAddress msg, unPoolName msg, r)])), r.
  split; [|split; [|split; [done|split; [by exists (Period c)|]]]].
  - unfold handleMsgUnlock. rewrite (bind_eq _ _ s (Some l) s) by (unfold gets, GetLockInfo; by rewrite Hk).
    rewrite (bind_eq _ _ s l s) by done. rewrite <-Hden, String.eqb_refl. cbn [negb].
    rewrite (bind_eq _ _ s tt s) by done. rewrite Coins.CoinIsLT_ok by done.
    rewrite (bind_eq _ _ s (Amount (liAmount l) <? Amount (unAmount msg))%Z s) by done.
    destruct (Z.ltb_spec (Amount (liAmount l)) (Amount (unAmount msg))); [lia|].
    rewrite (bind_eq _ _ s tt s) by done.
    rewrite (bind_eq _ _ s (Some pl) s) by (unfold gets, GetFarmPool; by rewrite Hp).
    rewrite (bind_eq _ _ s pl s) by done. rewrite <-Hd, Hden, String.eqb_refl. cbn [negb].
    rewrite (bind_eq _ _ s tt s) by done. dec_simp.
    rewrite (bind_eq _ _ s tt s).
    2:{ destruct (Z.eqb_spec (Amount (liAmount l) - Amount (unAmount msg)) 0); [done|].
        destruct (Z.ltb_spec (Amount (liAmount l) - Amount (unAmount msg)) (Amount (MinLockAmount pl))); [lia|done]. }
    rewrite (bind_eq _ _ _ _ _ (st_yield _ _ _ _ _ _ _ _ S)).
    rewrite (po_name _ _ _ _ _ P), (bind_eq _ _ _ _ _ Hw), (bind_eq _ _ _ _ _ Hupd).
    match goal with |- context [(wrap_err _ _ ≫= _) ?s0] =>
      rewrite (bind_eq _ _ _ _ _ (send_eq _ _ _ s0 b2 _ Hb2)) end.
    pose proof (locked_lower s _ pl _ l P Hk (eq_sym En)).
    cbn [TotalValueLocked set_accumulated set_infos].
    rewrite Coins.CoinSub_ok, lift_some_eq by (rewrite ?(po_denom _ _ _ _ _ P); (congruence || lia)).
    match goal with |- context [(deduct_rewards ?q _ ≫= _) ?s0] =>
      rewrite (bind_eq _ _ _ _ _ (Hded q s0 eq_refl)) end.
    unfold SetFarmPool. cbn [Name set_accumulated set_infos set_locked].
    rewrite (po_name _ _ _ _ _ P). reflexivity.
  - apply (settled_restore ctx s (unPoolName msg) pl c infos acc y (unAddress msg, unPoolName msg)
      _ infos rest r (- Amount (unAmount msg))); try done.
    + apply S.
    + by apply (settled_length ctx s (unPoolName msg) pl c infos acc y).
    + intros l' Hl'. rewrite <-Hd. by apply new_lock_some in Hl'.
    + rewrite new_lock_amount, Hk. done.
    + intros d. destruct Hmv as [Hmv _]. rewrite Hmv2, Hmv. fold farmAcc.
      rewrite !(decide_False (P := farmAcc = yieldAcc)), !(decide_False (P := farmAcc = unAddress msg)) by congruence.
      rewrite decide_True by done. rewrite Coins.ToCoins_amt. unfold bal, coin_amt. rewrite Hden, Hd. cbn. case_decide; lia.
    + intros d. destruct Hmv as [Hmv _]. rewrite Hmv2, Hmv. fold farmAcc.
      rewrite !(decide_False (P := yieldAcc = farmAcc)), !(decide_False (P := yieldAcc = unAddress msg)) by congruence.
      rewrite decide_True by done. unfold bal. lia.
  - intros d. destruct Hmv as [Hmv _]. unfold bal, bank. cbn. rewrite Hmv2, Hmv. fold farmAcc.
    rewrite !(decide_False (P := unAddress msg = farmAcc)), !(decide_False (P := unAddress msg = yieldAcc)) by congruence.
    rewrite !decide_True by done. rewrite Coins.ToCoins_amt. unfold bank. lia.
Qed.
(** Entering a pool: the period ends and a new lock info starts. *)
Lemma newlock ctx s name pl c infos acc y addr a (q : FarmPool) :
  farm_inv s → pools s !! name = Some pl → settled ctx s name pl c infos acc y →
  locks s !! (addr, name) = None → Period c + 1 < 2 ^ 64 → 0 < a →
  ∃ hs1 hs2 A1 A2,
    let c' := MkCurrent (BlockHeight ctx) (Period c + 1) [] in
    let zero := MkCoin (Denom (MinLockAmount pl)) 0 in
    let o := new_lock ctx addr name (Denom (MinLockAmount pl)) a (Period c) in
    let s1 := set_addressInPool A1 (set_locks (<[(addr, name) := MkLockInfo addr name zero (BlockHeight ctx) 0]> (locks s))
                (set_current (<[name := c']> (current s)) (set_hist hs1 s))) in
    (IncrementPoolPeriod ctx name (TotalValueLocked pl) y;;
     z ← lift (or_panic (Coins.NewDecCoinFromDec (Denom (MinLockAmount pl)) Dec.ZeroDec));
     SetLockInfo (MkLockInfo addr name z (BlockHeight ctx) 0);;
     SetAddressInFarmPool name addr;;
     mret (q, [] : SysCoins)) s = (Ok (q, []), s1) ∧
    UpdateLockInfo ctx addr name a s1 =
      (Ok tt, set_addressInPool A2 (set_locks (upd (addr, name) o (locks s)) (set_hist hs2 s1))) ∧
    ledger_ok name c' hs2 (upd (addr, name) o (locks s)) ∧
    (∀ name' p, name' ≠ name → hs2 !! (name', p) = hist s !! (name', p)) ∧
    (∀ d, owed hs2 (upd (addr, name) o (locks s)) name (Period c) d ≤ Dec.unit * amt d acc).
Proof.
  intros I Hp S Hk Hper Ha. pose proof (fi_pools s I name pl Hp) as P.
  destruct (IncrementPoolPeriod_eq ctx name (TotalValueLocked pl) y c s) as (hs1 & Hinc & L1 & Hoth & Ho);
    [apply S|apply S|done|apply P|apply valid_good, S|].
  cbn zeta in Hinc, L1. set (c' := MkCurrent (BlockHeight ctx) (Period c + 1) []) in *.
  set (zero := MkCoin (Denom (MinLockAmount pl)) 0).
  set (l0 := MkLockInfo addr name zero (BlockHeight ctx) 0).
  set (A1 := {[GetAddressInFarmPoolKey name addr]} ∪ addressInPool s).
  set (s1 := set_addressInPool A1 (set_locks (<[(addr, name) := l0]> (locks s))
                (set_current (<[name := c']> (current s)) (set_hist hs1 s)))).
  assert (Period c' - 1 = Period c) as Ec by (cbn; lia).
  assert (delete (addr, name) (locks s1) = locks s) as Edel by by apply delete_insert_id.
  destruct (UpdateLockInfo_eq ctx name addr a c' s1 l0) as (hs2 & A2 & Hupd & L2 & Hoth2 & Ho2);
    [apply lookup_insert_eq|apply lookup_insert_eq|done|done|by rewrite Edel| |cbn; lia|].
  { rewrite Edel, Ec. apply (refs_fresh name c (hist s)); [apply S|lia]. }
  cbn zeta in Hupd, L2, Ho2. rewrite Ec, Edel in *.
  assert (∀ o, upd (addr, name) o (locks s1) = upd (addr, name) o (locks s)) as Eupd.
  { intros o. rewrite <-(upd_delete _ _ (locks s1)). by rewrite Edel. }
  rewrite !Eupd in *. cbn [liAmount l0 zero Denom Amount] in *. rewrite Z.add_0_l in *.
  exists hs1, hs2, A1, A2. cbn zeta. fold c' zero l0 s1.
  split; [|split; [exact Hupd|split; [exact L2|split]]].
  - rewrite (bind_eq _ _ _ _ _ Hinc). dec_simp.
    rewrite Coins.NewDecCoinFromDec_ok by (apply P || lia). reflexivity.
  - intros name' p Hne. rewrite Hoth2 by done. cbn. auto.
  - intros d. rewrite Ho2. etrans; [apply Ho|]. apply S.
Qed.
Lemma to_module_ok a m coins s s' f :
  wrap_err f (on_supply (Bank.SendCoinsFromAccountToModule a m coins)) s = (Ok tt, s') →
  ∃ b, s' = set_bank b s ∧ Bank.moved (bank s) b a (Bank.GetModuleAddress m) coins.
Proof.
  rewrite wrap_err_ok, farm_supply_ok, Bank.AccountToModule_spec.
  intros (b & [Hm _]%Bank.SendCoins_ok & ->). eauto.
Qed.

Lemma positive_coin c :
  (Dec.LTE (Amount c) Dec.ZeroDec || negb (Coins.CoinIsValid c))%bool = false →
  0 < Amount c ∧ Coins.ValidDenom (Denom c) = true.
Proof.
  rewrite Coins.CoinIsValid_spec. dec_simp. intros [H1%Z.leb_gt H2%negb_false_iff]%orb_false_iff.
  apply andb_true_iff in H2 as [? _]. done.
Qed.

Lemma moved_nil b a a' : Bank.moved b b a a' [].
Proof. split; [|done]. intros x d. rewrite amt_nil. repeat case_decide; lia. Qed.

(** Rewards paid out and then coins paid in. *)
Lemma deposit_bal b0 b b2 addr r coins d : user addr →
  Bank.moved b0 b yieldAcc addr r → Bank.moved b b2 addr farmAcc coins →
  Bank.balance b2 farmAcc d = Bank.balance b0 farmAcc d + amt d coins ∧
  Bank.balance b2 yieldAcc d = Bank.balance b0 yieldAcc d - amt d r.
Proof.
  intros [Hu1 Hu2] [H1 _] [H2 _]. pose proof accounts_ne as Hacc. rewrite !H2, !H1.
  rewrite !(decide_False (P := farmAcc = yieldAcc)), !(decide_False (P := farmAcc = addr)),
    !(decide_False (P := yieldAcc = farmAcc)), !(decide_False (P := yieldAcc = addr)) by congruence.
  rewrite !decide_True by done. lia.
Qed.

(** What both ways of locking end with. *)
Definition lock_tail (ctx : Context) (msg : MsgLock) (q : FarmPool) (has : bool) (r : SysCoins) : M FarmState unit :=
  UpdateLockInfo ctx (loAddress msg) (loPoolName msg) (Amount (loAmount msg));;
  wrap_err (λ _, FarmErr.ErrSendCoinsFromAccountToModuleFailed)
    (on_supply (Bank.SendCoinsFromAccountToModule (loAddress msg) ModuleName (Coins.ToCoins (loAmount msg))));;
  locked ← lift (or_panic (Coins.CoinAdd (TotalValueLocked q) (loAmount msg)));
  SetFarmPool (set_locked locked q);;
  (if has then OnClaim (loAddress msg) (loPoolName msg) r else mret tt).

Lemma lock_tail_ok ctx msg q has r s1 s2 s' :
  UpdateLockInfo ctx (loAddress msg) (loPoolName msg) (Amount (loAmount msg)) s1 = (Ok tt, s2) →
  Denom (TotalValueLocked q) = Denom (loAmount msg) →
  lock_tail ctx msg q has r s1 = (Ok tt, s') →
  ∃ b cl, Bank.moved (bank s2) b (loAddress msg) farmAcc (Coins.ToCoins (loAmount msg)) ∧
    s' = MkFarmState (SwapSpec.set_bank b (swap s2))
      (<[Name q := set_locked (MkCoin (Denom (TotalValueLocked q)) (Amount (TotalValueLocked q) + Amount (loAmount msg))) q]> (pools s2))
      (addressInPool s2) (locks s2) (whitelist s2) (hist s2) (current s2) (fparams s2) cl.
Proof.
  intros Hupd Hden H. unfold lock_tail in H. rewrite (bind_eq _ _ _ _ _ Hupd) in H.
  apply bind_ok in H as ([] & s0 & (b & -> & Hmv)%to_module_ok & H).
  rewrite Coins.CoinAdd_ok, lift_some_eq in H by done.
  apply bind_ok in H as ([] & s0 & ->%modify_ok & H). exists b.
  destruct has; [apply modify_ok in H as ->|apply mret_ok in H as [_ ->]]; eauto.
Qed.

Lemma relock_inv ctx msg s s' pl l c infos acc y : farm_inv s → user (loAddress msg) →
  pools s !! loPoolName msg = Some pl → Denom (MinLockAmount pl) = Denom (loAmount msg) →
  0 < Amount (loAmount msg) → settled ctx s (loPoolName msg) pl c infos acc y → Period c + 1 < 2 ^ 64 →
  locks s !! (loAddress msg, loPoolName msg) = Some l →
  (r ← (rewards ← WithdrawRewards ctx (loPoolName msg) (TotalValueLocked pl) y (loAddress msg);
        q ← deduct_rewards (set_accumulated acc (set_infos infos pl)) rewards;
        mret (q, rewards));
   let '(q, rewards) := (r : FarmPool * SysCoins) in lock_tail ctx msg q true rewards) s = (Ok tt, s') →
  farm_inv s'.
Proof.
  intros I Hu Hp Hden Ha S Hpc Hk H. pose proof (fi_pools s I _ _ Hp) as P.
  destruct (fi_locks s I _ _ Hk) as [[= Eo En] (q & Hq & Hd)]. rewrite <-En, Hp in Hq. injection Hq as <-.
  destruct (lg_lock _ _ _ _ (st_ledger _ _ _ _ _ _ _ _ S) _ _ Hk) as [Hla _]; [done|].
  destruct (relock ctx s (loPoolName msg) pl c infos acc y (loAddress msg) l (Amount (loAmount msg)))
    as (r & rest & hs1 & hs2 & b & A & Hw & Hupd & Hded & Hvr & Hvrest & Hra & L & Hoth & Ho & Hmv); [done..|lia|].
  cbn zeta in *. pose proof (λ s0, Hded (set_accumulated acc (set_infos infos pl)) s0 eq_refl) as Hded1.
  erewrite (bind_eq _ _ s) in H; [|rewrite (bind_eq _ _ _ _ _ Hw), (bind_eq _ _ _ _ _ (Hded1 _)); reflexivity].
  apply (lock_tail_ok _ _ _ _ _ _ _ _ Hupd) in H as (b2 & cl & Hmv2 & ->);
    [|cbn; rewrite (po_denom _ _ _ _ _ P); congruence].
  pose proof (λ d, deposit_bal _ _ _ _ _ _ d Hu Hmv Hmv2) as Hb.
  cbn [Name set_accumulated set_infos]. rewrite (po_name _ _ _ _ _ P).
  apply (settled_restore ctx s (loPoolName msg) pl c infos acc y (loAddress msg, loPoolName msg)
    _ infos rest r (Amount (loAmount msg))); try done.
  - apply S.
  - by apply (settled_length ctx s (loPoolName msg) pl c infos acc y).
  - intros l' Hl'. rewrite <-Hd. by apply new_lock_some in Hl'.
  - rewrite new_lock_amount, Hk. done.
  - intros d. destruct (Hb d) as [-> _]. rewrite Coins.ToCoins_amt, Hden. by destruct (loAmount msg).
  - intros d. destruct (Hb d) as [_ ->]. unfold bal. lia.
Qed.

Lemma newlock_inv ctx msg s s' pl c infos acc y : farm_inv s → user (loAddress msg) →
  pools s !! loPoolName msg = Some pl → Denom (MinLockAmount pl) = Denom (loAmount msg) →
  0 < Amount (loAmount msg) → settled ctx s (loPoolName msg) pl c infos acc y → Period c + 1 < 2 ^ 64 →
  locks s !! (loAddress msg, loPoolName msg) = None →
  (r ← (IncrementPoolPeriod ctx (loPoolName msg) (TotalValueLocked pl) y;;
        z ← lift (or_panic (Coins.NewDecCoinFromDec (Denom (MinLockAmount pl)) Dec.ZeroDec));
        SetLockInfo (MkLockInfo (loAddress msg) (loPoolName msg) z (BlockHeight ctx) 0);;
        SetAddressInFarmPool (loPoolName msg) (loAddress msg);;
        mret (set_accumulated acc (set_infos infos pl), [] : SysCoins));
   let '(q, rewards) := (r : FarmPool * SysCoins) in lock_tail ctx msg q false rewards) s = (Ok tt, s') →
  farm_inv s'.
Proof.
  intros I Hu Hp Hden Ha S Hpc Hk H. pose proof (fi_pools s I _ _ Hp) as P.
  destruct (newlock ctx s (loPoolName msg) pl c infos acc y (loAddress msg) (Amount (loAmount msg))
    (set_accumulated acc (set_infos infos pl))) as (hs1 & hs2 & A1 & A2 & Hnew & Hupd & L & Hoth & Ho); [done..|].
  cbn zeta in *. rewrite (bind_eq _ _ _ _ _ Hnew) in H.
  apply (lock_tail_ok _ _ _ _ _ _ _ _ Hupd) in H as (b2 & cl & Hmv2 & ->);
    [|cbn; rewrite (po_denom _ _ _ _ _ P); congruence].
  pose proof (λ d, deposit_bal _ _ _ _ _ _ d Hu (moved_nil (bank s) yieldAcc (loAddress msg)) Hmv2) as Hb.
  cbn [Name set_accumulated set_infos]. rewrite (po_name _ _ _ _ _ P).
  apply (settled_restore ctx s (loPoolName msg) pl c infos acc y (loAddress msg, loPoolName msg)
    _ infos acc [] (Amount (loAmount msg))); try done.
  - intros d. rewrite amt_nil, Z.mul_0_r, Z.add_0_r. exact (Ho d).
  - apply S.
  - intros d. rewrite amt_nil. lia.
  - apply S.
  - by apply (settled_length ctx s (loPoolName msg) pl c infos acc y).
  - intros l' Hl'. by apply new_lock_some in Hl'.
  - rewrite new_lock_amount, Hk. done.
  - intros d. destruct (Hb d) as [-> _]. rewrite Coins.ToCoins_amt, Hden. by destruct (loAmount msg).
  - intros d. destruct (Hb d) as [_ ->]. unfold bal. rewrite amt_nil. lia.
Qed.

Lemma lock_valid msg : MsgLock_ValidateBasic msg = Ok tt → 0 < Amount (loAmount msg).
Proof.
  unfold MsgLock_ValidateBasic. destruct (bad_name _); [done|]. destruct (Token.Empty _); [done|].
  destruct (_ || _)%bool eqn:Hpos; [done|]. by apply positive_coin in Hpos as [Ha _].
Qed.

Lemma lock_inv ctx msg s s' : farm_inv s → periods_left s → user (loAddress msg) →
  MsgLock_ValidateBasic msg = Ok tt → handleMsgLock ctx msg s = (Ok tt, s') → farm_inv s'.
Proof.
  intros I Hper Hu Ha%lock_valid H. unfold handleMsgLock in H.
  apply bind_ok in H as (o & s0 & [-> ->]%gets_ok & H).
  apply bind_ok in H as (pl & s0 & [Hp ->]%or_throw_ok & H).
  apply bind_ok in H as ([] & s0 & [Hden [_ ->]]%throw_if_ok & H).
  apply bind_ok in H as (has & s0 & [Hhas ->]%gets_ok & H).
  apply bind_ok in H as ([] & s0 & [_ [_ ->]]%throw_if_ok & H).
  apply negb_false_iff, String.eqb_eq in Hden. unfold GetFarmPool in Hp. pose proof (fi_pools s I _ _ Hp) as P.
  destruct (settle ctx s _ pl I Hp) as (c & infos & acc & y & S).
  pose proof (Hper _ _ (st_current _ _ _ _ _ _ _ _ S)) as Hpc.
  rewrite (bind_eq _ _ _ _ _ (st_yield _ _ _ _ _ _ _ _ S)), (po_name _ _ _ _ _ P) in H.
  unfold HasLockInfo in Hhas. destruct (locks s !! (loAddress msg, loPoolName msg)) as [l|] eqn:Hk.
  - rewrite bool_decide_eq_true_2 in Hhas by eauto. subst has.
    apply (relock_inv ctx msg s s' pl l c infos acc y); try done. 
  - rewrite bool_decide_eq_false_2 in Hhas by (by intros []). subst has.
    apply (newlock_inv ctx msg s s' pl c infos acc y); try done.
Qed.

Lemma provide_valid msg : MsgProvide_ValidateBasic msg = Ok tt →
  0 < Amount (prAmount msg) ∧ Coins.ValidDenom (Denom (prAmount msg)) = true ∧
  0 < prAmountYieldedPerBlock msg ∧ 0 < StartHeightToYield msg.
Proof.
  unfold MsgProvide_ValidateBasic. destruct (bad_name _); [done|]. destruct (Token.Empty _); [done|].
  destruct (_ || _)%bool eqn:Hpos; [done|]. apply positive_coin in Hpos as [Ha Hvd]. dec_simp.
  destruct (Z.leb_spec (prAmountYieldedPerBlock msg) 0); [done|].
  destruct (_ <? _)%Z; [done|]. destruct (Z.leb_spec (StartHeightToYield msg) 0); done.
Qed.

Lemma provide_inv ctx msg s s' : farm_inv s → periods_left s → user (prAddress msg) →
  MsgProvide_ValidateBasic msg = Ok tt → handleMsgProvide ctx msg s = (Ok tt, s') → farm_inv s'.
Proof.
  intros I Hper [Hu1 Hu2] (Ha & Hvd & Hpb & Hst)%provide_valid H. unfold handleMsgProvide in H.
  apply bind_ok in H as ([] & s0 & [_ [_ ->]]%throw_if_ok & H).
  apply bind_ok in H as (o & s0 & [-> ->]%gets_ok & H).
  apply bind_ok in H as (pl & s0 & [Hp ->]%or_throw_ok & H).
  apply bind_ok in H as ([] & s0 & [_ [_ ->]]%throw_if_ok & H).
  unfold GetFarmPool in Hp. pose proof (fi_pools s I _ _ Hp) as P.
  destruct (settle ctx s _ pl I Hp) as (c & infos & acc & y & S).
  pose proof (Hper _ _ (st_current _ _ _ _ _ _ _ _ S)) as Hpc. pose proof accounts_ne as Hacc.
  destruct (YieldedTokenInfos pl) as [|info [|]] eqn:Ei; [done| |done].
  apply bind_ok in H as ([] & s0 & [Hden [_ ->]]%throw_if_ok & H).
  rewrite (bind_eq _ _ _ _ _ (st_yield _ _ _ _ _ _ _ _ S)), (po_name _ _ _ _ _ P) in H.
  pose proof (settled_length ctx s _ pl c infos acc y I Hp S) as Hlen.
  destruct infos as [|info' [|]]; [done| |done]. cbn [YieldedTokenInfos set_accumulated set_infos] in H.
  change ([info'] !! 0%nat) with (Some info') in H. rewrite lift_some_eq in H.
  apply bind_ok in H as ([] & s0 & [Hz [_ ->]]%throw_if_ok & H).
  rewrite Coins.CoinIsZero_spec in Hz. apply negb_false_iff, Z.eqb_eq in Hz.
  destruct (IncrementPoolPeriod_eq ctx (prPoolName msg) (TotalValueLocked pl) y c s) as (hs1 & Hinc & L1 & Hoth & Ho);
    [apply S|apply S|done|apply P|apply valid_good, S|].
  cbn zeta in *. rewrite (bind_eq _ _ _ _ _ Hinc) in H.
  apply bind_ok in H as ([] & s0 & (b & -> & [Hmv _])%to_module_ok & H).
  unfold SetFarmPool in H. cbn [Name set_infos set_accumulated] in H. rewrite (po_name _ _ _ _ _ P) in H.
  injection H as <-. set (new := MkYieldedTokenInfo (prAmount msg) (StartHeightToYield msg) (prAmountYieldedPerBlock msg)).
  set (k := (prAddress msg, prPoolName msg)). pose proof (upd_self k (locks s)) as Eu.
  pose proof (settled_restore ctx s (prPoolName msg) pl c [info'] acc y k (locks s !! k) [new] acc [] 0 hs1 b
    (addressInPool s) (claims s) I Hp S) as F. cbn zeta in F. rewrite Eu, set_locked_id in F.
  apply F; clear F; try done.
  - intros d. rewrite amt_nil, Z.mul_0_r, Z.add_0_r. etrans; [apply Ho|]. apply S.
  - apply S.
  - intros d. rewrite amt_nil. lia.
  - apply Forall_singleton. split; [cbn; lia|]. split; [done|cbn; lia].
  - intros l Hl. destruct (fi_locks s I k l Hl) as [Ek (q & Hq & Hd)]. split; [done|].
    unfold k in Ek. injection Ek as _ Ek. rewrite <-Ek, Hp in Hq. by injection Hq as <-.
  - lia.
  - intros d. rewrite Hmv. change (Bank.GetModuleAddress YieldFarmingAccount) with yieldAcc.
    rewrite !decide_False by congruence. unfold bal, coin_amt. cbn. case_decide; unfold bank; cbn; lia.
  - intros d. rewrite Hmv. change (Bank.GetModuleAddress YieldFarmingAccount) with yieldAcc.
    rewrite decide_False, decide_True by congruence. rewrite Coins.ToCoins_amt, amt_nil.
    unfold remaining. cbn [YieldedTokenInfos set_infos]. rewrite !fmap_cons, !zsum_cons. cbn.
    assert (coin_amt d (RemainingAmount info') = 0) as -> by (unfold coin_amt; case_decide; lia).
    unfold bal, bank. cbn. lia.
Qed.

(** ** Creating a pool *)

Lemma ledger_new name ht hs lk :
  (∀ p, hs !! (name, p) = None) → (∀ k l, lk !! k = Some l → liPoolName l ≠ name) →
  ledger_ok name (MkCurrent ht 1 []) (<[(name, 0) := MkHistorical [] 1]> hs) lk ∧
  locked name lk = 0 ∧ ∀ d, owed (<[(name, 0) := MkHistorical [] 1]> hs) lk name 0 d = 0.
Proof.
  intros Hhs Hlk.
  assert (∀ f : LockInfo → Z, (∀ l, liPoolName l ≠ name → f l = 0) → msum f lk = 0) as Hm.
  { intros f Hf. rewrite (msum_ext _ (λ _, 0 * 0)); [rewrite msum_scale; lia|].
    intros k l Hk. cbn. rewrite Hf; eauto. }
  assert (∀ p, refs name p lk = 0) as Hr.
  { intros p. apply Hm. intros l Hl. rewrite decide_False; [done|]. by intros []. }
  split; [split; cbn|split].
  - lia.
  - apply valid_nil.
  - intros k l Hk Hn. by destruct (Hlk k l Hk).
  - intros p. rewrite Hr. unfold cnt, tip. cbn. case_decide as Ep.
    + subst. by rewrite lookup_insert_eq.
    + rewrite lookup_insert_ne by (intros [= <-]; lia). by rewrite Hhs.
  - intros p. rewrite Hr. lia.
  - intros p h. rewrite lookup_insert_Some. intros [[[= <-] <-]|[_ Hh]]; [|by rewrite Hhs in Hh].
    cbn. split; [lia|]. split; [lia|]. split; [apply valid_nil|]. intros d. done.
  - apply Hm. intros l Hl. by rewrite decide_False.
  - intros d. apply Hm. intros l Hl. by rewrite decide_False.
Qed.
Lemma zero_coin d c : Coins.NewDecCoin d 0 = Some c → c = MkCoin d 0 ∧ Coins.ValidDenom d = true.
Proof.
  rewrite Coins.NewDecCoin_spec. dec_simp. intros H. split; [|by eapply Coins.NewDecCoinFromDec_valid].
  apply Coins.NewDecCoinFromDec_inv in H as [-> _]. done.
Qed.

Lemma create_pool_inv ctx msg s s' : farm_inv s → user (cpOwner msg) →
  handleMsgCreatePool ctx msg s = (Ok tt, s') → farm_inv s'.
Proof.
  intros I [Hu1 Hu2] H. unfold handleMsgCreatePool in H.
  apply bind_ok in H as (o & s0 & [-> ->]%gets_ok & H).
  apply bind_ok in H as ([] & s0 & [Hnone%bool_decide_eq_false [_ ->]]%throw_if_ok & H).
  unfold GetFarmPool in Hnone. apply eq_None_not_Some in Hnone.
  apply bind_ok in H as (ok & s0 & [_ ->]%gets_ok & H). apply bind_ok in H as ([] & s0 & [_ [_ ->]]%throw_if_ok & H).
  apply bind_ok in H as (ok' & s0 & [_ ->]%gets_ok & H). apply bind_ok in H as ([] & s0 & [_ [_ ->]]%throw_if_ok & H).
  apply bind_ok in H as (pr & s0 & [-> ->]%gets_ok & H).
  apply bind_ok in H as ([] & s0 & (b1 & -> & [Hm1 _])%to_module_ok & H).
  apply bind_ok in H as ([] & s0 & (b2 & -> & [Hm2 _])%to_module_ok & H).
  apply bind_ok in H as (yc & s0 & [[-> Hyd]%or_panic_ok%zero_coin ->]%lift_ok & H).
  apply bind_ok in H as (lc & s0 & [[-> Hld]%or_panic_ok%zero_coin ->]%lift_ok & H).
  injection H as <-. set (name := cpPoolName msg) in *.
  assert (∀ k l, locks s !! k = Some l → liPoolName l ≠ name) as Hlk.
  { intros k l Hl En. destruct (fi_locks s I k l Hl) as [_ (q & Hq & _)]. congruence. }
  destruct (ledger_new name (BlockHeight ctx) (hist s) (locks s)) as (L & Elk & Eo);
    [intros p; by apply (fi_fresh s I)|done|].
  pose proof accounts_ne as Hacc. destruct collector_ne as [Hc1 Hc2]. destruct (fi_params s I) as [Hd1 Hd2].
  split; cbn.
  - intros name' q. rewrite lookup_insert_Some. intros [[<- <-]|[Hne Hq]].
    + split; cbn; try done.
      * apply Forall_singleton. split; [cbn; lia|]. split; [done|cbn; dec_lia].
      * apply valid_nil.
      * eexists. split; [apply lookup_insert_eq|]. split; [exact L|]. intros d. cbn. rewrite Eo, !amt_nil. lia.
    + assert (locks s !! ("", name) = None) as Hk0.
      { destruct (locks s !! ("", name)) as [l|] eqn:El; [|done].
        destruct (fi_locks s I _ _ El) as [[= _ En] _]. by destruct (Hlk _ _ El). }
      pose proof (pool_frame name name' (current s) (Some (MkCurrent (BlockHeight ctx) 1 [])) (hist s)
        (<[(name, 0) := MkHistorical [] 1]> (hist s)) (locks s) ("", name) None q) as F.
      rewrite upd_none, (delete_id _ _ Hk0) in F. apply F; [done| |congruence|done|by apply (fi_pools s I)].
      intros p. by rewrite lookup_insert_ne by congruence.
  - intros k l Hl. destruct (fi_locks s I k l Hl) as [? (q & Hq & ?)]. split; [done|]. exists q.
    by rewrite lookup_insert_ne by (intros E0; by destruct (Hlk _ _ Hl)).
  - intros name' p. rewrite lookup_insert_None. intros [Hn Hne]. rewrite lookup_insert_ne by congruence.
    by apply (fi_fresh s I).
  - intros name' Hn. destruct (decide (name' = name)) as [->|]; [rewrite lookup_insert_eq; eauto|].
    rewrite lookup_insert_ne by done. by apply (fi_white s I).
  - intros d. unfold bal, bank. cbn. rewrite Hm2. unfold bank at 1. cbn. rewrite Hm1. fold farmAcc.
    rewrite !(decide_False (P := farmAcc = cpOwner msg)), !(decide_False (P := farmAcc = Bank.GetModuleAddress Token.feeCollectorName))
      by congruence. rewrite decide_True by done. rewrite Coins.ToCoins_amt, msum_insert, Hnone. cbn.
    pose proof (fi_farm s I d) as Hf. unfold bal in Hf. rewrite Hf. lia.
  - intros d. unfold bal, bank. cbn. rewrite Hm2. unfold bank at 1. cbn. rewrite Hm1. fold farmAcc.
    rewrite !(decide_False (P := yieldAcc = cpOwner msg)), !(decide_False (P := yieldAcc = Bank.GetModuleAddress Token.feeCollectorName)),
      (decide_False (P := yieldAcc = farmAcc)) by congruence. rewrite msum_insert, Hnone.
    pose proof (fi_yield s I d) as Hf. unfold bal in Hf. rewrite Hf. unfold pool_yield, remaining. cbn.
    unfold coin_amt. cbn. rewrite amt_nil. case_decide; lia.
  - done.
Qed.
(** ** Destroying a pool *)

(** No other pool's history has a key that starts with this pool's name. *)
Definition sole_prefix (s : FarmState) (name : string) : Prop :=
  ∀ name' p, name' ≠ name → is_Some (hist s !! (name', p)) →
    String.prefix (GetPoolHistoricalRewardsPrefix name) (hist_key (name', p)) = false.

Lemma own_prefix name p : String.prefix (GetPoolHistoricalRewardsPrefix name) (hist_key (name, p)) = true.
Proof.
  apply prefix_split. exists (le_bytes PeriodByteArrayLength p).
  unfold hist_key, GetPoolHistoricalRewardsKey, GetPoolHistoricalRewardsPrefix. cbn [fst snd].
  by rewrite string_append_assoc.
Qed.

(** What is left when nothing is locked in a finished pool. *)
Lemma finished_empty s name pl : pool_ok (current s) (hist s) (locks s) name pl →
  Amount (TotalValueLocked pl) = 0 → ∀ k l, locks s !! k = Some l → liPoolName l ≠ name.
Proof.
  intros P Hz k l Hl Hn. pose proof (locked_lower s name pl k l P Hl Hn).
  destruct (po_ledger _ _ _ _ _ P) as (c & _ & L & _). destruct (lg_lock _ _ _ _ L k l Hl Hn). lia.
Qed.

Lemma pay_ok m addr r s s' f :
  (if Coins.IsZero r then mret tt
   else wrap_err f (on_supply (Bank.SendCoinsFromModuleToAccount m addr r))) s = (Ok tt, s') →
  ∃ b, s' = set_bank b s ∧ Bank.moved (bank s) b (Bank.GetModuleAddress m) addr r.
Proof.
  destruct (Coins.IsZero r) eqn:Ez.
  - intros [_ ->]%mret_ok. exists (bank s). split; [by destruct s as [[[]]]|]. apply Coins.IsZero_spec in Ez.
    split; [|done]. intros a d. rewrite (amt_zero r d Ez). repeat case_decide; lia.
  - rewrite wrap_err_ok, farm_supply_ok, Bank.ModuleToAccount_spec.
    intros (b & [Hm _]%Bank.SendCoins_ok & ->). eauto.
Qed.

Lemma refund_ok m addr coin s s' f : 0 ≤ Amount coin →
  (if Coins.CoinIsPositive coin
   then wrap_err f (on_supply (Bank.SendCoinsFromModuleToAccount m addr (Coins.ToCoins coin)))
   else mret tt) s = (Ok tt, s') →
  ∃ b, s' = set_bank b s ∧ Bank.moved (bank s) b (Bank.GetModuleAddress m) addr (Coins.ToCoins coin).
Proof.
  intros Hc. rewrite Coins.CoinIsPositive_spec. destruct (Z.ltb_spec 0 (Amount coin)).
  - rewrite wrap_err_ok, farm_supply_ok, Bank.ModuleToAccount_spec.
    intros (b & [Hm _]%Bank.SendCoins_ok & ->). eauto.
  - intros [_ ->]%mret_ok. exists (bank s). split; [by destruct s as [[[]]]|].
    split; [|done]. intros a d. rewrite Coins.ToCoins_amt. unfold coin_amt. repeat case_decide; lia.
Qed.

(** A finished pool has yielded all its coins. *)
Lemma finished_spec pl : Forall info_ok (YieldedTokenInfos pl) → Finished pl = true →
  Amount (TotalValueLocked pl) = 0 ∧ ∀ d, remaining pl d = 0.
Proof.
  intros Hi [Hf Hz]%andb_true_iff. rewrite Coins.CoinIsZero_spec in Hz. apply Z.eqb_eq in Hz. split; [done|].
  intros d. unfold remaining. induction Hi as [|i infos (Hr & _) _ IH]; [done|].
  cbn in Hf. apply andb_true_iff in Hf as [Hp Hf]. rewrite Coins.CoinIsPositive_spec in Hp.
  apply negb_true_iff, Z.ltb_ge in Hp. rewrite fmap_cons, zsum_cons, IH by done.
  unfold coin_amt. case_decide; lia.
Qed.

Lemma destroy_inv ctx msg s s' : farm_inv s → user (dpOwner msg) → sole_prefix s (dpPoolName msg) →
  handleMsgDestroyPool ctx msg s = (Ok tt, s') → farm_inv s'.
Proof.
  intros I [Hu1 Hu2] Hsole H. unfold handleMsgDestroyPool in H.
  apply bind_ok in H as (o & s0 & [-> ->]%gets_ok & H).
  apply bind_ok in H as (pl & s0 & [Hp ->]%or_throw_ok & H).
  apply bind_ok in H as ([] & s0 & [_ [_ ->]]%throw_if_ok & H).
  unfold GetFarmPool in Hp. pose proof (fi_pools s I _ _ Hp) as P.
  destruct (settle ctx s _ pl I Hp) as (c & infos & acc & y & S). pose proof accounts_ne as Hacc.
  rewrite (bind_eq _ _ _ _ _ (st_yield _ _ _ _ _ _ _ _ S)) in H. cbn [fst] in H.
  apply bind_ok in H as ([] & s0 & [Hfin%negb_false_iff [_ ->]]%throw_if_ok & H).
  apply finished_spec in Hfin as [Hz Hrem]; [|apply S].
  apply bind_ok in H as ([] & s0 & (b1 & -> & [Hm1 _])%pay_ok & H).
  apply bind_ok in H as ([] & s0 & (b2 & -> & [Hm2 _])%refund_ok & H); [|apply P].
  injection H as <-. set (name := dpPoolName msg) in *.
  pose proof (finished_empty s name pl P Hz) as Hlk.
  assert (locks s !! ("", name) = None) as Hk0.
  { destruct (locks s !! ("", name)) as [l|] eqn:El; [|done].
    destruct (fi_locks s I _ _ El) as [[= _ En] _]. by destruct (Hlk _ _ El). }
  assert (∀ p, filter (λ kx, String.prefix (GetPoolHistoricalRewardsPrefix name) (hist_key (fst kx)) = false)
    (hist s) !! (name, p) = None) as Hgone.
  { intros p. apply map_lookup_filter_None_2. right. intros h _. cbn [fst]. by rewrite own_prefix. }
  split; cbn.
  - intros name' q [Hne Hq]%lookup_delete_Some.
    pose proof (pool_frame name name' (current s) None (hist s)
      (filter (λ kx, String.prefix (GetPoolHistoricalRewardsPrefix name) (hist_key (fst kx)) = false) (hist s))
      (locks s) ("", name) None q) as F.
    rewrite !upd_none, (delete_id _ _ Hk0) in F. apply F; [done| |congruence|done|by apply (fi_pools s I)].
    intros p. destruct (hist s !! (name', p)) as [h|] eqn:Eh.
    + apply map_lookup_filter_Some_2; [done|]. cbn. apply Hsole; eauto.
    + apply map_lookup_filter_None_2. by left.
  - intros k l Hl. destruct (fi_locks s I k l Hl) as [? (q & Hq & ?)]. split; [done|]. exists q.
    by rewrite lookup_delete_ne by (intros E0; by destruct (Hlk _ _ Hl)).
  - intros name' p Hn. destruct (decide (name' = name)) as [->|Hne].
    + apply Hgone.
    + rewrite lookup_delete_ne in Hn by done. apply map_lookup_filter_None_2. left. by apply (fi_fresh s I).
  - intros name' [Hn Hne]%elem_of_difference. rewrite lookup_delete_ne by set_solver. by apply (fi_white s I).
  - intros d. unfold bal, bank. cbn. rewrite Hm2. unfold bank at 1. cbn. rewrite Hm1. fold farmAcc yieldAcc.
    rewrite !(decide_False (P := farmAcc = yieldAcc)), !(decide_False (P := farmAcc = dpOwner msg)) by congruence.
    rewrite decide_True by done. rewrite Coins.ToCoins_amt, msum_delete, Hp. cbn.
    pose proof (fi_farm s I d) as Hf. unfold bal in Hf. rewrite Hf. lia.
  - intros d. unfold bal, bank. cbn. rewrite Hm2. unfold bank at 1. cbn. rewrite Hm1. fold farmAcc yieldAcc.
    rewrite !(decide_False (P := yieldAcc = farmAcc)), !(decide_False (P := yieldAcc = dpOwner msg)) by congruence.
    rewrite decide_True by done. rewrite msum_delete, Hp.
    pose proof (fi_yield s I d) as Hf. unfold bal in Hf. rewrite Hf. cbn [from_option].
    assert (pool_yield d pl = amt d (TotalAccumulatedRewards pl) + remaining pl d) as -> by done.
    specialize (Hrem d). pose proof (st_rem_amt _ _ _ _ _ _ _ _ S d) as Er.
    change (remaining (set_accumulated acc (set_infos infos pl)) d) with (remaining (set_infos infos pl) d) in Hrem.
    cbn [set_accumulated TotalAccumulatedRewards]. rewrite (st_acc_amt _ _ _ _ _ _ _ _ S d). lia.
  - apply (fi_params s I).
Qed.
(** ** BeginBlocker *)

(** The invariant but for the account of yielded coins, which is behind while the
    native tokens are being shared out. *)
Record farm_core (s : FarmState) : Prop := {
  fc_pools name pl : pools s !! name = Some pl → pool_ok (current s) (hist s) (locks s) name pl;
  fc_locks k l : locks s !! k = Some l → k = (liOwner l, liPoolName l) ∧
    ∃ pl, pools s !! liPoolName l = Some pl ∧ Denom (liAmount l) = Denom (MinLockAmount pl);
  fc_fresh name p : pools s !! name = None → hist s !! (name, p) = None;
  fc_white name : name ∈ whitelist s → is_Some (pools s !! name);
  fc_farm d : bal s farmAcc d = msum (λ pl, coin_amt d (DepositAmount pl)) (pools s)
    + msum (λ l, coin_amt d (liAmount l)) (locks s);
  fc_params : 0 ≤ Amount (CreatePoolDeposit (fparams s)) ∧
    Coins.ValidDenom (Denom (CreatePoolDeposit (fparams s))) = true;
}.

Lemma farm_inv_split s : farm_inv s ↔ farm_core s ∧ ∀ d, bal s yieldAcc d = msum (pool_yield d) (pools s).
Proof. split; [intros []; split; [split|]; assumption|intros [[] ?]; split; assumption]. Qed.

(** One pool is given a share. *)
Definition share (coins : SysCoins) (pl : FarmPool) (c : PoolCurrentRewards) (s : FarmState) : FarmState :=
  set_pools (<[Name pl := set_accumulated (Coins.Add2 (TotalAccumulatedRewards pl) coins) pl]> (pools s))
    (set_current (<[Name pl := set_Rewards (Coins.Add2 (Rewards c) coins) c]> (current s)) s).

Lemma share_core coins pl c s : farm_core s → pools s !! Name pl = Some pl → current s !! Name pl = Some c →
  Coins.good coins →
  farm_core (share coins pl c s) ∧
  ∀ d, msum (pool_yield d) (pools (share coins pl c s)) = msum (pool_yield d) (pools s) + amt d coins.
Proof.
  intros C Hp Hc Hg. set (name := Name pl) in *. pose proof (fc_pools s C name pl Hp) as P.
  destruct (po_ledger _ _ _ _ _ P) as (c0 & Hc0 & L & Hs). rewrite Hc in Hc0. injection Hc0 as <-.
  pose proof (po_acc _ _ _ _ _ P) as Hva. pose proof (lg_rewards _ _ _ _ L) as Hvr.
  split; [split; cbn|].
  - intros name' q. rewrite lookup_insert_Some. intros [[<- <-]|[Hne Hq]].
    + split; cbn; try apply P.
      * apply Coins.Add2_valid; coins.
      * eexists. split; [apply lookup_insert_eq|]. cbn. split.
        -- split; cbn; try apply L. apply Coins.Add2_valid; coins.
        -- intros d. rewrite !Add2_good_amt by coins. specialize (Hs d). fold name. lia.
    + pose proof (pool_frame name name' (current s) (Some (set_Rewards (Coins.Add2 (Rewards c) coins) c)) (hist s)
        (hist s) (locks s) ("", name) (locks s !! ("", name)) q) as F.
      rewrite upd_self in F. apply F; [done|done|..|by apply (fc_pools s C)];
        intros l [[= _ ->] _]%(fc_locks s C); done.
  - intros k l Hl. destruct (fc_locks s C k l Hl) as [? (q & Hq & ?)]. split; [done|].
    destruct (decide (liPoolName l = name)) as [En|En].
    + rewrite En, lookup_insert_eq. eexists. split; [done|]. cbn. congruence.
    + exists q. by rewrite lookup_insert_ne.
  - intros name' p. rewrite lookup_insert_None. intros [Hn _]. by apply (fc_fresh s C).
  - intros name' Hn. destruct (decide (name' = name)) as [->|]; [rewrite lookup_insert_eq; eauto|].
    rewrite lookup_insert_ne by done. by apply (fc_white s C).
  - intros d. rewrite msum_insert. fold name. rewrite Hp. cbn. pose proof (fc_farm s C d) as Hf. unfold bal, bank in *. cbn. lia.
  - apply (fc_params s C).
  - intros d. cbn. rewrite msum_insert. fold name. rewrite Hp. cbn [from_option].
    assert (pool_yield d (set_accumulated (Coins.Add2 (TotalAccumulatedRewards pl) coins) pl)
      = pool_yield d pl + amt d coins) as ->; [|lia].
    unfold pool_yield. cbn [TotalAccumulatedRewards set_accumulated]. rewrite Add2_good_amt by coins.
    change (remaining (set_accumulated (Coins.Add2 (TotalAccumulatedRewards pl) coins) pl) d) with (remaining pl d). lia.
Qed.

(** Sharing out: the pools together receive exactly what there was to share. *)
Lemma allocate_ok values Y V ps r s r' s' : farm_core s → NoDup (Name <$> ps) →
  Forall (λ q, pools s !! Name q = Some q) ps → allocate values Y V ps r s = (Ok r', s') →
  farm_core s' ∧ swap s' = swap s ∧
  ∀ d, coin_amt d (MkCoin Coins.DefaultBondDenom r) + msum (pool_yield d) (pools s) =
       coin_amt d (MkCoin Coins.DefaultBondDenom r') + msum (pool_yield d) (pools s').
Proof.
  revert r s. induction ps as [|q ps IH]; intros r s C Hnd Hps H.
  - apply mret_ok in H as [-> ->]. done.
  - rewrite fmap_cons in Hnd. apply NoDup_cons in Hnd as [Hq Hnd]. apply Forall_cons in Hps as [Hp Hps].
    cbn [allocate] in H. apply bind_ok in H as (a & s0 & Ha & H).
    assert (s0 = s) as ->.
    { destruct ps; [by apply mret_ok in Ha as [_ ->]|]. apply bind_ok in Ha as (v & s1 & [_ ->]%lift_ok & Ha).
      by apply lift_ok in Ha as [_ ->]. }
    apply bind_ok in H as (coins & s0 & [Hcoins%or_panic_ok ->]%lift_ok & H).
    apply Coins.NewDecCoinsFromDec_inv in Hcoins as (Ha0 & Hg & Hamt).
    apply bind_ok in H as (c & s0 & Hc & H). unfold GetPoolCurrentRewards in Hc.
    destruct (current s !! Name q) as [c1|] eqn:Ec; [|done]. injection Hc as <- <-.
    apply bind_ok in H as ([] & s0 & ->%modify_ok & H). apply bind_ok in H as ([] & s0 & ->%modify_ok & H).
    destruct (share_core coins q c1 s C Hp Ec Hg) as [C1 Hy1].
    destruct (IH (Dec.Sub r a) (share coins q c1 s) C1 Hnd) as (C' & Hs' & Hy'); [|exact H|].
    + apply Forall_forall. intros q' Hq'. cbn. rewrite lookup_insert_ne.
      * by eapply Forall_forall in Hps.
      * intros E0. apply Hq. rewrite E0. by apply list_elem_of_fmap_2.
    + split; [done|]. split; [by rewrite Hs'|]. intros d. specialize (Hy' d). rewrite Hy1, Hamt in Hy'. dec_simp.
      unfold coin_amt in *. cbn in *. case_decide; lia.
Qed.

Lemma allocate_info_ok names s values ps total values' ps' total' : farm_core s →
  NoDup names → NoDup (Name <$> ps) → (∀ n, n ∈ names → n ∉ Name <$> ps) →
  Forall (λ q, pools s !! Name q = Some q) ps →
  allocate_info names s values ps total = Ok (values', ps', total') →
  NoDup (Name <$> ps') ∧ Forall (λ q, pools s !! Name q = Some q) ps'.
Proof.
  intros C. revert values ps total. induction names as [|n names IH]; intros values ps total Hn Hnd Hdis Hps H.
  - cbn in H. by simplify_eq.
  - cbn [allocate_info] in H. apply NoDup_cons in Hn as [Hn1 Hn].
    apply obind_ok in H as (q & Hq%or_panic_ok & H). apply obind_ok in H as (v & _ & H).
    pose proof (po_name _ _ _ _ _ (fc_pools s C n q Hq)) as En. destruct (Dec.LTE _ _).
    + apply (IH values ps total); try done. intros n' ?. apply Hdis. set_solver.
    + apply (IH _ _ _) in H; [done|done|..].
      * rewrite fmap_app. cbn. apply NoDup_app. split; [done|]. split; [|apply NoDup_singleton].
        intros x Hx ->%list_elem_of_singleton. apply (Hdis n); [set_solver|]. by rewrite <-En.
      * intros n' Hn'. rewrite fmap_app, elem_of_app. cbn. rewrite list_elem_of_singleton. intros [Hx|Hx].
        -- apply (Hdis n'); [set_solver|done].
        -- by rewrite Hx, En in Hn'.
      * apply Forall_app. split; [done|]. apply Forall_singleton. unfold GetFarmPool in Hq. congruence.
Qed.
(** ** The properties *)

Lemma claim_success ctx msg s s' : handleMsgClaim ctx msg s = (Ok tt, s') → farm_inv s →
  ∃ l, locks s !! (clAddress msg, clPoolName msg) = Some l.
Proof.
  intros H I. unfold handleMsgClaim in H.
  apply bind_ok in H as (o & s0 & [-> ->]%gets_ok & H).
  apply bind_ok in H as (pl & s0 & [Hp ->]%or_throw_ok & H). unfold GetFarmPool in Hp.
  destruct (settle ctx s _ pl I Hp) as (c & infos & acc & y & S).
  rewrite (bind_eq _ _ _ _ _ (st_yield _ _ _ _ _ _ _ _ S)) in H.
  apply bind_ok in H as (r & s0 & Hw & _). unfold WithdrawRewards in Hw.
  apply bind_ok in Hw as (o & s1 & [-> ->]%gets_ok & Hw).
  apply bind_ok in Hw as (l & s1 & [Hl _]%or_throw_ok & _). exists l.
  unfold GetLockInfo in Hl. by rewrite (po_name _ _ _ _ _ (fi_pools s I _ _ Hp)) in Hl.
Qed.

Lemma unlock_valid msg : MsgUnlock_ValidateBasic msg = Ok tt → 0 < Amount (unAmount msg).
Proof.
  unfold MsgUnlock_ValidateBasic. destruct (bad_name _); [done|]. destruct (Token.Empty _); [done|].
  destruct (_ || _)%bool eqn:Hpos; [done|]. by apply positive_coin in Hpos as [Ha _].
Qed.

Lemma unlock_inv ctx msg s s' : farm_inv s → periods_left s → user (unAddress msg) →
  MsgUnlock_ValidateBasic msg = Ok tt → handleMsgUnlock ctx msg s = (Ok tt, s') → farm_inv s'.
Proof.
  intros I Hper Hu Ha%unlock_valid H. pose proof H as H0. unfold handleMsgUnlock in H.
  apply bind_ok in H as (o & s0 & [-> ->]%gets_ok & H).
  apply bind_ok in H as (l & s0 & [Hl ->]%or_throw_ok & H).
  apply bind_ok in H as ([] & s0 & [Hden%negb_false_iff%String.eqb_eq [_ ->]]%throw_if_ok & H).
  apply bind_ok in H as (lt & s0 & [Hlt%or_panic_ok ->]%lift_ok & H). rewrite Coins.CoinIsLT_ok in Hlt by done.
  injection Hlt as <-. apply bind_ok in H as ([] & s0 & [Hle%Z.ltb_ge [_ ->]]%throw_if_ok & H).
  apply bind_ok in H as (o & s0 & [-> ->]%gets_ok & H).
  apply bind_ok in H as (pl & s0 & [Hp ->]%or_throw_ok & H).
  apply bind_ok in H as ([] & s0 & [_ [_ ->]]%throw_if_ok & H).
  apply bind_ok in H as ([] & s0 & [Hmin [_ ->]]%throw_if_ok & _).
  destruct (unlock_ok ctx msg s l pl) as (s1 & r & H1 & I1 & _); [done..|lia| |congruence].
  revert Hmin. dec_simp.
  destruct (Z.eqb_spec (Amount (liAmount l) - Amount (unAmount msg)) 0); [left; lia|]. cbn [negb andb].
  intros Hmin%Z.ltb_ge. by right.
Qed.

(** C1 (invariant). Every farm message that passed its stateless checks keeps the module's
    books in order, except for the destruction of a pool whose name starts the history key
    of another pool: the farm account holds exactly the deposits and the locked coins, the
    yield account exactly the accumulated and the remaining rewards, every pool's locked
    value is the sum of its lock infos, reference counts are exact, ratios grow with the
    periods, and all that the lockers of a pool could claim has been accumulated.  The
    destruction is covered when the name is no such prefix ([sole_prefix]); otherwise it
    deletes the other pool's history ([destroy_breaks_longer_names]). *)
Theorem farm_invariant ctx msg s s' :
  farm_inv s → periods_left s → user (signer msg) → ValidateBasic msg = Ok tt →
  (∀ m, msg = MDestroyPool m → sole_prefix s (dpPoolName m)) →
  NewHandler ctx msg s = (Ok tt, s') → farm_inv s'.
Proof.
  intros I Hper Hu Hv Hsole H. destruct msg as [m|m|m|m|m|m|]; cbn [NewHandler signer ValidateBasic] in *.
  - by eapply create_pool_inv.
  - eapply destroy_inv; eauto.
  - by eapply provide_inv.
  - by eapply lock_inv.
  - by eapply unlock_inv.
  - destruct (claim_success ctx m s s' H I) as [l Hl].
    destruct (claim_ok ctx m s l I Hper Hu Hl) as (s1 & r & H1 & I1 & _). congruence.
  - done.
Qed.

(** C24 (liveness). While the books are in order, a locker can claim: the handler succeeds,
    whatever the pool has yielded and whoever claimed before, and only adds to the locker's
    balances.  The books are in order ([farm_inv]) as long as no pool was destroyed whose
    name starts the history key of another pool; after that a claim from the other pool
    panics ([destroy_breaks_longer_names]).  Periods are counted in 64 bits and must not be
    exhausted ([periods_left]). *)
Theorem lockers_can_claim ctx msg s l :
  farm_inv s → periods_left s → user (clAddress msg) →
  locks s !! (clAddress msg, clPoolName msg) = Some l →
  ∃ s', handleMsgClaim ctx msg s = (Ok tt, s') ∧ ∀ d, bal s (clAddress msg) d ≤ bal s' (clAddress msg) d.
Proof.
  intros I Hper Hu Hl. destruct (claim_ok ctx msg s l I Hper Hu Hl) as (s' & r & H & _ & Hv & Hb).
  exists s'. split; [done|]. intros d. rewrite Hb. pose proof (valid_amt r d Hv). lia.
Qed.

(** Locked coins are never stuck: unlocking all that an account has
    locked in a pool succeeds and returns at least those coins. *)
Theorem lockers_can_leave ctx s addr name l :
  farm_inv s → periods_left s → user addr → locks s !! (addr, name) = Some l →
  ∃ s', handleMsgUnlock ctx (MkMsgUnlock name addr (liAmount l)) s = (Ok tt, s') ∧
    locks s' !! (addr, name) = None ∧
    ∀ d, bal s addr d + coin_amt d (liAmount l) ≤ bal s' addr d.
Proof.
  intros I Hper Hu Hl. destruct (fi_locks s I _ _ Hl) as [[= _ En] (pl & Hp & _)]. rewrite <-En in Hp.
  destruct (po_ledger _ _ _ _ _ (fi_pools s I _ _ Hp)) as (c & _ & L & _).
  destruct (lg_lock _ _ _ _ L _ _ Hl (eq_sym En)) as [Ha _].
  destruct (unlock_ok ctx (MkMsgUnlock name addr (liAmount l)) s l pl) as (s' & r & H & I' & Hv & (last & Hlk) & Hb);
    [done..|cbn; lia|by left|].
  exists s'. split; [done|]. split; [rewrite Hlk; cbn; rewrite lookup_upd, decide_True by done;
    unfold new_lock; by rewrite Z.add_opp_diag_r|].
  intros d. cbn in Hb. rewrite Hb. pose proof (valid_amt r d Hv). lia.
Qed.
Lemma BeginBlocker_cases s s' : farm_inv s → BeginBlocker s = (Ok tt, s') →
  farm_inv s' ∧
  (YieldNativeToken (fparams s) = true → ∀ d, bal s' yieldAcc d + bal s' mintAcc d = bal s yieldAcc d + bal s mintAcc d) ∧
  (s' = s ∨ bal s' mintAcc Coins.DefaultBondDenom = 0).
Proof.
  intros I H. unfold BeginBlocker in H. apply bind_ok in H as (coins & s0 & [-> ->]%gets_ok & H).
  assert (Coins.AmountOf (module_coins MintFarmingAccount s) Coins.DefaultBondDenom
    = bal s mintAcc Coins.DefaultBondDenom) as Eb by (apply Coins.AmountOf_spec, Bank.GetCoins_sorted).
  set (Y := Coins.AmountOf (module_coins MintFarmingAccount s) Coins.DefaultBondDenom) in *.
  destruct (Dec.LTE Y Dec.ZeroDec) eqn:Hpos; [apply mret_ok in H as [_ ->]; auto|].
  dec_simp. apply Z.leb_gt in Hpos.
  apply bind_ok in H as (yc & s0 & [Hyc%or_panic_ok ->]%lift_ok & H).
  apply Coins.NewDecCoinsFromDec_inv in Hyc as (_ & Hg & Hamt).
  apply bind_ok in H as (pr & s0 & [-> ->]%gets_ok & H).
  pose proof accounts_ne as Hacc. destruct mint_ne as [Hm1 Hm2].
  apply farm_inv_split in I as [C Hy]. destruct (YieldNativeToken (fparams s)); cbn [negb] in H.
  - apply bind_ok in H as (s0 & s1 & [= <- <-] & H).
    apply bind_ok in H as (info & s0 & [Hinfo ->]%lift_ok & H). destruct info as [[values ps] total].
    destruct (Dec.LTE total _); [apply mret_ok in H as [_ ->]; rewrite farm_inv_split; auto|].
    apply bind_ok in H as (rem & s1 & Hal & H).
    apply (allocate_info_ok _ s ∅ [] _) in Hinfo as [Hnd Hps];
      [|done|apply NoDup_set_sorted|constructor|set_solver|constructor].
    apply (allocate_ok _ _ _ _ _ _ _ _ C Hnd Hps) in Hal as (C1 & Hsw & Hsum).
    destruct (Dec.IsZero rem) eqn:Hz; [|done]. dec_simp. apply Z.eqb_eq in Hz. subst rem. cbn [negb] in H.
    apply must_ok, farm_supply_ok in H as (b & Hb & ->). rewrite Bank.ModuleToModule_spec in Hb.
    apply Bank.SendCoins_ok in Hb as [[Hmv _] _]. fold mintAcc yieldAcc in Hmv.
    assert (∀ a d, Bank.balance (bank s1) a d = bal s a d) as Hbs by (intros; unfold bal, bank; by rewrite Hsw).
    assert (∀ d, Bank.balance b mintAcc d = bal s mintAcc d - amt d yc) as Hbm.
    { intros d. rewrite Hmv, Hbs, decide_True, decide_False by congruence. lia. }
    assert (∀ d, Bank.balance b yieldAcc d = bal s yieldAcc d + amt d yc) as Hby.
    { intros d. rewrite Hmv, Hbs, decide_False, decide_True by congruence. lia. }
    split; [|split].
    + apply farm_inv_split. split.
      * destruct C1. split; try done. intros d. unfold bal, bank. cbn. rewrite Hmv.
        rewrite !decide_False by congruence. specialize (fc_farm0 d). unfold bal in fc_farm0. lia.
      * intros d. unfold bal, bank. cbn. rewrite Hby, Hy, Hamt. specialize (Hsum d). fold Y in Hsum.
        assert (coin_amt d (MkCoin Coins.DefaultBondDenom 0) = 0) as E0 by (unfold coin_amt; by case_decide).
        rewrite E0 in Hsum. lia.
    + intros _ d. unfold bal at 1 2, bank. cbn. rewrite Hbm, Hby. lia.
    + right. unfold bal, bank. cbn. rewrite Hbm, Hamt, coin_amt_eq, <-Eb. lia.
  - apply must_ok, farm_supply_ok in H as (b & Hb & ->). apply Bank.BurnCoins_ok in Hb as (Hmv & _ & _). fold mintAcc in Hmv.
    split; [|split; [done|]].
    + apply farm_inv_split. split.
      * destruct C. split; try done. intros d. unfold bal, bank. cbn. rewrite Hmv.
        rewrite !decide_False by congruence. specialize (fc_farm0 d). unfold bal in fc_farm0. lia.
      * intros d. unfold bal, bank. cbn. rewrite Hmv, decide_False by congruence. specialize (Hy d). unfold bal in Hy. cbn. lia.
    + right. unfold bal, bank. cbn. rewrite Hmv, decide_True, Hamt, coin_amt_eq by done.
      unfold bal in Eb. lia.
Qed.

(** The begin blocker keeps the books in order, and when the native
    token is being yielded no coin is lost or made: what leaves the mint account
    arrives in the yield account, and the mint account is emptied unless nothing is
    shared out at all. *)
Theorem BeginBlocker_conserves s s' : farm_inv s → BeginBlocker s = (Ok tt, s') →
  farm_inv s' ∧
  (YieldNativeToken (fparams s) = true →
    ∀ d, bal s' yieldAcc d + bal s' mintAcc d = bal s yieldAcc d + bal s mintAcc d) ∧
  (s' = s ∨ bal s' mintAcc Coins.DefaultBondDenom = 0).
Proof. apply BeginBlocker_cases. Qed.

(** ** Destroying a pool whose name is a prefix of another's *)

Lemma destroy_state ctx msg s s' : farm_inv s → handleMsgDestroyPool ctx msg s = (Ok tt, s') →
  pools s' = delete (dpPoolName msg) (pools s) ∧ current s' = delete (dpPoolName msg) (current s) ∧
  locks s' = locks s ∧ ∀ k h, hist s' !! k = Some h →
    String.prefix (GetPoolHistoricalRewardsPrefix (dpPoolName msg)) (hist_key k) = false.
Proof.
  intros I H. unfold handleMsgDestroyPool in H.
  apply bind_ok in H as (o & s0 & [-> ->]%gets_ok & H).
  apply bind_ok in H as (pl & s0 & [Hp ->]%or_throw_ok & H).
  apply bind_ok in H as ([] & s0 & [_ [_ ->]]%throw_if_ok & H). pose proof (fi_pools s I _ _ Hp) as P.
  destruct (settle ctx s _ pl I Hp) as (c & infos & acc & y & S).
  rewrite (bind_eq _ _ _ _ _ (st_yield _ _ _ _ _ _ _ _ S)) in H. cbn [fst] in H.
  apply bind_ok in H as ([] & s0 & [_ [_ ->]]%throw_if_ok & H).
  apply bind_ok in H as ([] & s0 & (b1 & -> & _)%pay_ok & H).
  apply bind_ok in H as ([] & s0 & (b2 & -> & _)%refund_ok & H); [|apply P].
  injection H as <-. split; [done|]. split; [done|]. split; [done|].
  intros k h [_ Hk]%map_lookup_filter_Some. exact Hk.
Qed.

Lemma prefix_app p q r : String.prefix (p +:+ q) (p +:+ (q +:+ r)) = true.
Proof. apply prefix_split. exists r. by rewrite string_append_assoc. Qed.

(** Without its history a pool cannot end a period. *)
Lemma Increment_panics ctx name tvl y s : (∀ p, hist s !! (name, p) = None) →
  fst (IncrementPoolPeriod ctx name tvl y s) = Panic.
Proof.
  intros Hh. unfold IncrementPoolPeriod, GetPoolCurrentRewards, mbind, M_bind.
  destruct (current s !! name) as [c|]; [|done]. cbn [or_panic].
  destruct (if Coins.CoinIsZero tvl then mret [] else _) as [o s1] eqn:Er.
  assert (s1 = s ∧ (o = Panic ∨ ∃ R, o = Ok R)) as [-> Ho].
  { destruct (Coins.CoinIsZero tvl); [injection Er as <- <-; eauto|].
    unfold lift in Er. injection Er as <- <-. split; [done|].
    destruct (Coins.QuoDecTruncate _ _); cbn; eauto. }
  destruct Ho as [->|[R ->]]; [done|]. unfold GetPoolHistoricalRewards. by rewrite Hh.
Qed.

(** Destroying a pool deletes the history of every pool whose name
    starts with the destroyed pool's name: afterwards claiming from, and unlocking
    all coins of, such a pool panics, so that its locked coins cannot be withdrawn. *)
Theorem destroy_breaks_longer_names ctx msg s s' suffix addr l :
  farm_inv s → suffix ≠ "" → handleMsgDestroyPool ctx msg s = (Ok tt, s') →
  locks s !! (addr, dpPoolName msg +:+ suffix) = Some l →
  ∀ ctx', fst (handleMsgClaim ctx' (MkMsgClaim (dpPoolName msg +:+ suffix) addr) s') = Panic ∧
    fst (handleMsgUnlock ctx' (MkMsgUnlock (dpPoolName msg +:+ suffix) addr (liAmount l)) s') = Panic.
Proof.
  intros I Hsuf H Hl ctx'. destruct (destroy_state ctx msg s s' I H) as (Ep & Ec & El & Eh).
  set (name' := dpPoolName msg +:+ suffix) in *.
  assert (name' ≠ dpPoolName msg) as Hne.
  { intros E0. apply (f_equal String.length) in E0. unfold name' in E0. rewrite string_length_app in E0.
    destruct suffix; [done|]. cbn in E0. lia. }
  destruct (fi_locks s I _ _ Hl) as [[= _ En] (pl & Hp & Hd)]. rewrite <-En in Hp.
  pose proof (fi_pools s I _ _ Hp) as P. destruct (po_ledger _ _ _ _ _ P) as (c & Hc & L & _).
  assert (pools s' !! name' = Some pl) as Hp' by (by rewrite Ep, lookup_delete_ne).
  assert (current s' !! Name pl = Some c) as Hc' by (rewrite Ec, (po_name _ _ _ _ _ P), lookup_delete_ne; done).
  assert (∀ p, hist s' !! (name', p) = None) as Hnone.
  { intros p. destruct (hist s' !! (name', p)) eqn:E0; [|done]. apply Eh in E0. exfalso. revert E0.
    unfold hist_key, GetPoolHistoricalRewardsKey, GetPoolHistoricalRewardsPrefix, name'. cbn [fst snd].
    rewrite string_append_assoc, prefix_app. done. }
  destruct (yielded_eq ctx' pl c s' Hc') as (infos & acc & y & Hy & _); [apply P|apply P|].
  assert (fst (WithdrawRewards ctx' name' (TotalValueLocked pl) y addr s') = Panic) as Hw.
  { unfold WithdrawRewards. rewrite (bind_eq _ _ s' (Some l) s') by (unfold gets, GetLockInfo; by rewrite El, Hl).
    rewrite (bind_eq _ _ s' l s') by done. unfold mbind, M_bind.
    pose proof (Increment_panics ctx' name' (TotalValueLocked pl) y s' Hnone) as Hi.
    destruct (IncrementPoolPeriod _ _ _ _ _) as [[] ?]; done. }
  destruct (lg_lock _ _ _ _ L _ _ Hl (eq_sym En)) as [Ha _]. split.
  - unfold handleMsgClaim. cbn [clPoolName clAddress].
    rewrite (bind_eq _ _ s' (Some pl) s') by (unfold gets, GetFarmPool; by rewrite Hp').
    rewrite (bind_eq _ _ s' pl s') by done. rewrite (bind_eq _ _ _ _ _ Hy), (po_name _ _ _ _ _ P).
    unfold mbind, M_bind. by destruct (WithdrawRewards _ _ _ _ _ _) as [[] ?].
  - unfold handleMsgUnlock. cbn [unPoolName unAddress unAmount].
    rewrite (bind_eq _ _ s' (Some l) s') by (unfold gets, GetLockInfo; by rewrite El, Hl).
    rewrite (bind_eq _ _ s' l s') by done. rewrite String.eqb_refl. rewrite (bind_eq _ _ s' tt s') by done.
    rewrite Coins.CoinIsLT_ok, Z.ltb_irrefl by done. rewrite (bind_eq _ _ s' false s') by done.
    rewrite (bind_eq _ _ s' tt s') by done.
    rewrite (bind_eq _ _ s' (Some pl) s') by (unfold gets, GetFarmPool; by rewrite Hp').
    rewrite (bind_eq _ _ s' pl s') by done. rewrite <-Hd, String.eqb_refl. rewrite (bind_eq _ _ s' tt s') by done.
    dec_simp. rewrite Z.sub_diag. rewrite (bind_eq _ _ s' tt s') by done.
    rewrite (bind_eq _ _ _ _ _ Hy), (po_name _ _ _ _ _ P).
    unfold mbind, M_bind. by destruct (WithdrawRewards _ _ _ _ _ _) as [[] ?].
Qed.
(** ** White list proposals *)

Lemma white_inv s W : farm_inv s → (∀ name, name ∈ W → is_Some (pools s !! name)) → farm_inv (set_whitelist W s).
Proof. intros [] HW. split; assumption. Qed.

(** A proposal that passes only lists pools that exist. *)
Lemma proposal_inv p s s' : farm_inv s → handleManageWhiteListProposal p s = (Ok tt, s') → farm_inv s'.
Proof.
  intros I H. unfold handleManageWhiteListProposal in H. apply bind_ok in H as (s0 & s1 & [= <- <-] & H).
  apply bind_ok in H as ([] & s0 & [Hc ->]%lift_ok & H). unfold CheckMsgManageWhiteListProposal in Hc.
  destruct (IsAdded p).
  - apply modify_ok in H as ->. unfold GetFarmPool in Hc. destruct (pools s !! wlPoolName p) eqn:Ep; [|done].
    apply white_inv; [done|]. intros name [->%elem_of_singleton|Hn]%elem_of_union; [eauto|]. by apply (fi_white s I).
  - apply modify_ok in H as ->. apply white_inv; [done|]. intros name [Hn _]%elem_of_difference. by apply (fi_white s I).
Qed.

(** ** The registered invariants *)

Lemma zsum_locks (f : LockInfo → Z) s : zsum (f <$> all_locks s) = msum f (locks s).
Proof. unfold msum, all_locks. rewrite <-list_fmap_compose. apply zsum_perm. by rewrite keyed_sorted_perm. Qed.

Lemma elem_pools s q : q ∈ GetFarmPools s → ∃ name, pools s !! name = Some q.
Proof. intros ([n q'] & -> & H%elem_of_kv_sorted)%list_elem_of_fmap. eauto. Qed.

Lemma elem_locks s l : l ∈ all_locks s → ∃ k, locks s !! k = Some l.
Proof.
  unfold all_locks. intros ([k l'] & -> & H)%list_elem_of_fmap. rewrite keyed_sorted_perm in H.
  apply elem_of_map_to_list in H. eauto.
Qed.

(** The coins of a lock info, as the invariant sums them. *)
Lemma foldl_locks l t : Coins.IsValid t = true →
  Forall (λ x, 0 ≤ Amount (liAmount x) ∧ Coins.ValidDenom (Denom (liAmount x)) = true) l →
  ∃ r, foldl (λ t l, t ← t; c ← or_panic (Coins.NewDecCoins [liAmount l]); Ok (Coins.Add2 t c)) (Ok t) l = Ok r ∧
    Coins.IsValid r = true ∧ ∀ d, amt d r = amt d t + zsum ((λ x, coin_amt d (liAmount x)) <$> l).
Proof.
  intros Ht Hl. revert t Ht. induction Hl as [|x l [Ha Hd] _ IH]; intros t Ht; cbn [foldl].
  - exists t. split; [done|]. split; [done|]. intros d. cbn. lia.
  - destruct (Coins.NewDecCoins_spec (liAmount x) Ha Hd) as (c & Hc & Hg & Hamt).
    destruct (IH (Coins.Add2 t c)) as (r & Hr & Hv & Hs); [apply Coins.Add2_valid; coins|].
    exists r. split; [cbn; rewrite Hc; exact Hr|]. split; [done|].
    intros d. rewrite Hs, fmap_cons, zsum_cons, Add2_good_amt, Hamt by coins. lia.
Qed.

(** The invariants that the module registers with the crisis module
    are never reported broken in a state that is in order. *)
Theorem registered_invariants s : farm_inv s →
  moduleAccountInvariant s = Ok false ∧ yieldFarmingAccountInvariant s = Ok false.
Proof.
  intros I. split.
  - unfold moduleAccountInvariant.
    destruct (foldl_Add2 (λ pool, Coins.ToCoins (DepositAmount pool)) (GetFarmPools s) []) as [Hv Ha];
      [apply valid_nil|apply Forall_forall; intros q (n & Hq)%elem_pools; apply Coins.ToCoins_good; eapply fi_pools; done|].
    destruct (foldl_locks (all_locks s) []) as (r & -> & Hvr & Hr); [apply valid_nil|..].
    { apply Forall_forall. intros l (k & Hl)%elem_locks. destruct (fi_locks s I k l Hl) as [_ (pl & Hp & Hd)].
      pose proof (fi_pools s I _ _ Hp) as P. destruct (po_ledger _ _ _ _ _ P) as (c & _ & L & _).
      destruct (lg_lock _ _ _ _ L k l Hl eq_refl) as [? _]. rewrite Hd. split; [lia|apply P]. }
    cbn [mbind outcome_bind]. rewrite Coins.IsEqual_true; [done|apply Bank.GetCoins_valid|apply Coins.Add2_valid; coins|].
    intros d. rewrite Add2_good_amt, Ha, Hr by coins. rewrite !amt_nil, zsum_locks.
    rewrite (list_fmap_ext _ (λ q, coin_amt d (DepositAmount q))) by (intros; apply Coins.ToCoins_amt).
    unfold GetFarmPools. rewrite zsum_values. apply (fi_farm s I d).
  - unfold yieldFarmingAccountInvariant.
    set (g := λ (t : SysCoins) (pool : FarmPool), _).
    assert (∀ l t, Forall (λ q, ∃ n, pools s !! n = Some q) l → Coins.IsValid t = true →
      Coins.IsValid (foldl g t l) = true ∧ ∀ d, amt d (foldl g t l) = amt d t + zsum (pool_yield d <$> l)) as Hg.
    { intros l t Hl. revert t. induction Hl as [|q l (n & Hq) _ IH]; intros t Ht; cbn [foldl].
      - split; [done|]. intros d. cbn. lia.
      - pose proof (fi_pools s I n q Hq) as P.
        destruct (foldl_Add2 (λ i, [RemainingAmount i]) (YieldedTokenInfos q)
          (Coins.Add2 t (TotalAccumulatedRewards q))) as [Hv Ha].
        { apply Coins.Add2_valid; [coins|]. apply valid_good, P. }
        { eapply Forall_impl; [apply P|]. intros i (Hr & Hd & _). split; [apply sorted_coins_single|].
          by repeat constructor. }
        destruct (IH (g t q) Hv) as [Hv2 Ha2]. split; [done|]. intros d. rewrite Ha2. unfold g at 1. rewrite Ha.
        rewrite fmap_cons, zsum_cons. change (pool_yield d q) with (amt d (TotalAccumulatedRewards q)
          + zsum ((λ i, coin_amt d (RemainingAmount i)) <$> YieldedTokenInfos q)).
        rewrite (list_fmap_ext (λ i, amt d [RemainingAmount i]) (λ i, coin_amt d (RemainingAmount i)))
          by (intros; apply amt_single).
        rewrite Add2_good_amt by (apply valid_good; (done || apply P)). lia. }
    destruct (Hg (GetFarmPools s) []) as [Hv Ha]; [apply Forall_forall; intros q ?%elem_pools; done|apply valid_nil|].
    rewrite Coins.IsEqual_true; [done|done|apply Bank.GetCoins_valid|].
    intros d. rewrite Ha, amt_nil. unfold GetFarmPools. rewrite zsum_values. symmetry. apply (fi_yield s I d).
Qed.

(** ** Genesis *)

Lemma refcount_sum l n : 0 ≤ n →
  foldl (λ n h, (n + ReferenceCount (hrRewards h)) mod 2 ^ 16) n l mod 2 ^ 16 =
  (n + zsum ((λ h, ReferenceCount (hrRewards h)) <$> l)) mod 2 ^ 16.
Proof.
  revert n. induction l as [|h l IH]; intros n Hn; cbn [foldl]; [cbn; f_equal; lia|].
  rewrite IH by (apply Z.mod_pos_bound; lia). rewrite fmap_cons, zsum_cons.
  rewrite Zplus_mod_idemp_l. f_equal. lia.
Qed.

(** A genesis file whose reference counts add up to its lock infos
    and pools is accepted exactly when they are fewer than 2^16: the sum is taken in
    16 bits, so that the export of a larger chain is rejected. *)
Theorem ValidateGenesis_overflow data :
  length (gPools data) = length (gPoolCurrentRewards data) →
  zsum ((λ h, ReferenceCount (hrRewards h)) <$> gPoolHistoricalRewards data) =
    Z.of_nat (length (gLockInfos data) + length (gPoolCurrentRewards data)) →
  ValidateGenesis data = Ok tt ↔ Z.of_nat (length (gLockInfos data) + length (gPoolCurrentRewards data)) < 2 ^ 16.
Proof.
  intros Hl Hs. unfold ValidateGenesis. rewrite Hl, Nat.eqb_refl. cbn [negb].
  set (total := foldl _ _ _). set (n := Z.of_nat _) in *.
  assert (total = n mod 2 ^ 16) as ->.
  { pose proof (refcount_sum (gPoolHistoricalRewards data) 0 ltac:(lia)) as H. rewrite Hs, Z.add_0_l in H.
    rewrite <-H. symmetry. apply Z.mod_small. unfold total.
    destruct (gPoolHistoricalRewards data) as [|h l] eqn:E0; [cbn; lia|]. rewrite <-(rev_involutive (h :: l)).
    destruct (rev (h :: l)) as [|h' l'] eqn:Er; [cbn; lia|]. cbn [rev]. rewrite foldl_app. cbn [foldl].
    apply Z.mod_pos_bound. lia. }
  assert (0 ≤ n) by lia. destruct (Z.eqb_spec n (n mod 2 ^ 16)) as [E0|E0]; cbn [negb].
  - split; [|done]. intros _. rewrite E0. apply Z.mod_pos_bound. lia.
  - split; [done|]. intros Hlt. by rewrite Z.mod_small in E0 by lia.
Qed.

Lemma hist_key_decode name p : name ≠ "" → (String.length name ≤ 128)%nat → 0 ≤ p < 2 ^ 64 →
  GetPoolHistoricalRewardsPoolNamePeriod (GetPoolHistoricalRewardsKey name p) = Ok (name, p).
Proof.
  intros Hn Hlen Hp. unfold GetPoolHistoricalRewardsKey, GetPoolHistoricalRewardsPoolNamePeriod.
  set (key := PoolHistoricalRewardsPrefix +:+ _).
  assert (String.length key = S (String.length name + 8)) as Ekey.
  { unfold key. rewrite !string_length_app, le_bytes_length. done. }
  assert (0 < String.length name)%nat by (destruct name; [done|cbn; lia]).
  rewrite Ekey. destruct (Nat.ltb_spec (S (String.length name + 8)) (1 + PeriodByteArrayLength));
    [unfold PeriodByteArrayLength in *; lia|].
  replace (S (String.length name + 8) - PeriodByteArrayLength - 1)%nat with (String.length name)
    by (unfold PeriodByteArrayLength; lia).
  replace (S (String.length name + 8) - PeriodByteArrayLength)%nat with (S (String.length name))
    by (unfold PeriodByteArrayLength; lia).
  assert (String.substring 1 (String.length name) key = name) as ->.
  { change (String.substring 0 (String.length name) (name +:+ le_bytes PeriodByteArrayLength p) = name).
    apply substring_app_l. }
  assert (String.substring (S (String.length name)) PeriodByteArrayLength key = le_bytes PeriodByteArrayLength p) as ->.
  { change (String.substring (String.length name) PeriodByteArrayLength
      (name +:+ le_bytes PeriodByteArrayLength p) = le_bytes PeriodByteArrayLength p).
    rewrite substring_app_r. rewrite <-(le_bytes_length PeriodByteArrayLength p) at 1. apply substring_all. }
  destruct (Nat.ltb_spec MaxPoolNameLength (String.length name)); [unfold MaxPoolNameLength in *; lia|].
  destruct (Nat.leb_spec (S (String.length name + 8)) (PeriodByteArrayLength + String.length PoolHistoricalRewardsPrefix));
    [unfold PeriodByteArrayLength in *; cbn in *; lia|].
  by rewrite le_value_bytes by (unfold PeriodByteArrayLength; lia).
Qed.

(** The pool name and the period are read back from the key under
    which a pool's historical rewards are stored, for every name that a pool can have
    and every period. *)
Theorem hist_key_roundtrip name p : name ≠ "" → (String.length name ≤ 128)%nat → 0 ≤ p < 2 ^ 64 →
  GetPoolHistoricalRewardsPoolNamePeriod (GetPoolHistoricalRewardsKey name p) = Ok (name, p).
Proof. apply hist_key_decode. Qed.
(** Entering every entry of a map gives the map. *)
Lemma foldl_insert `{Countable K} {V A} (k : A → K) (v : A → V) (l : list A) (m : gmap K V) :
  NoDup (k <$> l) →
  foldl (λ m x, <[k x := v x]> m) m l = list_to_map ((λ x, (k x, v x)) <$> l) ∪ m.
Proof.
  revert m. induction l as [|x l IH]; intros m Hnd; cbn [foldl].
  - by rewrite fmap_nil, list_to_map_nil, (left_id_L ∅ (∪)).
  - rewrite fmap_cons in Hnd. apply NoDup_cons in Hnd as [Hx Hnd]. rewrite IH by done.
    rewrite fmap_cons, list_to_map_cons, <-insert_union_l. rewrite insert_union_r; [done|].
    apply not_elem_of_list_to_map_1. rewrite <-list_fmap_compose. exact Hx.
Qed.

Lemma foldl_insert_all `{Countable K} {V A} (k : A → K) (v : A → V) (l : list A) (m : gmap K V) :
  (λ x, (k x, v x)) <$> l ≡ₚ map_to_list m → foldl (λ m x, <[k x := v x]> m) ∅ l = m.
Proof.
  intros Hl. assert (NoDup ((λ x, (k x, v x)) <$> l).*1) as Hnd.
  { rewrite Hl. apply NoDup_fst_map_to_list. }
  assert (k <$> l = ((λ x, (k x, v x)) <$> l).*1) as Ek by (rewrite <-list_fmap_compose; done).
  rewrite foldl_insert by (by rewrite Ek). rewrite (right_id_L ∅ (∪)).
  rewrite (list_to_map_proper _ _ Hnd Hl). apply list_to_map_to_list.
Qed.

Lemma mapM_modify {S A} (g : A → S → S) l (s : S) :
  mapM_ (λ x, modify (g x)) l s = (Ok tt, foldl (λ s x, g x s) s l).
Proof. revert s. induction l as [|x l IH]; intros s; cbn; [done|]. apply IH. Qed.

Lemma SetFarmPool_all l s : mapM_ SetFarmPool l s =
  (Ok tt, set_pools (foldl (λ m x, <[Name x := x]> m) (pools s) l) s).
Proof.
  unfold SetFarmPool. rewrite mapM_modify. f_equal. revert s. induction l as [|x l IH]; intros s; cbn [foldl]; [by destruct s|].
  by rewrite IH.
Qed.

Lemma SetLockInfo_all l s : mapM_ SetLockInfo l s =
  (Ok tt, set_locks (foldl (λ m x, <[(liOwner x, liPoolName x) := x]> m) (locks s) l) s).
Proof.
  unfold SetLockInfo. rewrite mapM_modify. f_equal. revert s. induction l as [|x l IH]; intros s; cbn [foldl]; [by destruct s|].
  by rewrite IH.
Qed.

Lemma SetHist_all l s : mapM_ (λ h, SetPoolHistoricalRewards (hrPoolName h) (hrPeriod h) (hrRewards h)) l s =
  (Ok tt, set_hist (foldl (λ m h, <[(hrPoolName h, hrPeriod h) := hrRewards h]> m) (hist s) l) s).
Proof.
  unfold SetPoolHistoricalRewards. rewrite mapM_modify. f_equal. revert s.
  induction l as [|x l IH]; intros s; cbn [foldl]; [by destruct s|]. by rewrite IH.
Qed.

Lemma SetCurrent_all l s : mapM_ (λ c, SetPoolCurrentRewards (rrPoolName c) (rrRewards c)) l s =
  (Ok tt, set_current (foldl (λ m c, <[rrPoolName c := rrRewards c]> m) (current s) l) s).
Proof.
  unfold SetPoolCurrentRewards. rewrite mapM_modify. f_equal. revert s.
  induction l as [|x l IH]; intros s; cbn [foldl]; [by destruct s|]. by rewrite IH.
Qed.

Lemma SetWhitelist_all l s : mapM_ SetWhitelist l s =
  (Ok tt, set_whitelist (foldl (λ X n, {[n]} ∪ X) (whitelist s) l) s).
Proof.
  unfold SetWhitelist. rewrite mapM_modify. f_equal. revert s.
  induction l as [|x l IH]; intros s; cbn [foldl]; [by destruct s|]. by rewrite IH.
Qed.

Lemma foldl_whitelist (l : list string) (X : gset string) : foldl (λ X n, {[n]} ∪ X) X l = list_to_set l ∪ X.
Proof. revert X. induction l as [|n l IH]; intros X; cbn; [set_solver|]. rewrite IH. set_solver. Qed.

Lemma export_hist_ok l : Forall (λ kx : (string * Z) * PoolHistoricalRewards,
    fst (fst kx) ≠ "" ∧ (String.length (fst (fst kx)) ≤ 128)%nat ∧ 0 ≤ snd (fst kx) < 2 ^ 64) l →
  export_hist l = Ok ((λ kx, MkHistoricalRecord (fst (fst kx)) (snd (fst kx)) (snd kx)) <$> l).
Proof.
  induction 1 as [|[[n p] h] l (Hn & Hlen & Hp) _ IH]; [done|]. cbn [export_hist]. unfold hist_key. cbn [fst snd] in *.
  rewrite hist_key_decode by done. cbn [mbind outcome_bind]. by rewrite IH.
Qed.

Lemma init_account_store name h s : ∃ b, init_account name h s = (Ok tt, set_bank b s).
Proof.
  unfold init_account. destruct (Coins.IsZero _).
  - eexists. by rewrite on_supply_eq.
  - exists (bank s). by destruct s as [[[]]].
Qed.

(** Exporting the genesis of a state that is in order succeeds, and
    importing it into an empty store restores the pools, the lock infos, the
    historical and current rewards, the whitelist and the parameters. *)
Theorem genesis_roundtrip s s0 :
  farm_inv s → (∀ name, is_Some (pools s !! name) → name ≠ "" ∧ (String.length name ≤ 128)%nat) →
  pools s0 = ∅ → locks s0 = ∅ → hist s0 = ∅ → current s0 = ∅ → whitelist s0 = ∅ →
  ∃ data s', ExportGenesis s = Ok data ∧ InitGenesis data s0 = (Ok tt, s') ∧
    pools s' = pools s ∧ locks s' = locks s ∧ hist s' = hist s ∧ current s' = current s ∧
    whitelist s' = whitelist s ∧ fparams s' = fparams s.
Proof.
  intros I Hnames E1 E2 E3 E4 E5. unfold ExportGenesis.
  rewrite export_hist_ok.
  2:{ apply Forall_forall. intros [[n p] h] Hin. rewrite keyed_sorted_perm in Hin.
      apply elem_of_map_to_list in Hin. cbn. destruct (pools s !! n) as [pl|] eqn:Hp.
      - destruct (Hnames n) as [? ?]; [eauto|]. destruct (po_ledger _ _ _ _ _ (fi_pools s I n pl Hp)) as (c & _ & L & _).
        destruct (lg_hist _ _ _ _ L p h Hin) as (_ & ? & _). pose proof (lg_period _ _ _ _ L). repeat split; (done || lia).
      - by rewrite (fi_fresh s I n p Hp) in Hin. }
  cbn [mbind outcome_bind]. match goal with |- ∃ data _, Ok ?D = _ ∧ _ => exists D end. unfold InitGenesis.
  cbn [gPools gLockInfos gPoolHistoricalRewards gPoolCurrentRewards gWhiteList gParams].
  rewrite (bind_eq _ _ _ _ _ (SetFarmPool_all _ _)), (bind_eq _ _ _ _ _ (SetLockInfo_all _ _)),
    (bind_eq _ _ _ _ _ (SetHist_all _ _)), (bind_eq _ _ _ _ _ (SetCurrent_all _ _)),
    (bind_eq _ _ _ _ _ (SetWhitelist_all _ _)). cbn [pools locks hist current whitelist set_pools set_locks set_hist set_current].
  rewrite E1, E2, E3, E4, E5.
  rewrite (foldl_insert_all Name id _ (pools s)), (foldl_insert_all (λ x, (liOwner x, liPoolName x)) id _ (locks s)),
    (foldl_insert_all (λ h, (hrPoolName h, hrPeriod h)) hrRewards _ (hist s)),
    (foldl_insert_all rrPoolName rrRewards _ (current s)), foldl_whitelist.
  - set (s1 := set_whitelist _ _). rewrite (bind_eq _ _ s1 tt (set_fparams (fparams s) s1)) by done.
    edestruct (init_account_store ModuleName) as [b1 Hb1]. rewrite (bind_eq _ _ _ _ _ Hb1).
    edestruct (init_account_store YieldFarmingAccount) as [b2 Hb2]. eexists. split; [done|]. split; [apply Hb2|].
    cbn. repeat (split; [done|]). split; [|done]. apply set_eq. intros n.
    rewrite elem_of_union, elem_of_list_to_set. unfold GetWhitelist. rewrite elem_of_set_sorted. set_solver.
  - rewrite <-list_fmap_compose. rewrite (list_fmap_ext _ id), list_fmap_id by (by intros ? []). by rewrite kv_sorted_perm.
  - rewrite <-list_fmap_compose. rewrite (list_fmap_ext _ id), list_fmap_id by (by intros ? [[]]).
    by rewrite keyed_sorted_perm.
  - unfold all_locks. rewrite <-list_fmap_compose. rewrite keyed_sorted_perm.
    rewrite (list_fmap_ext _ id), list_fmap_id; [done|]. intros i [k l] Hin. cbn.
    apply list_elem_of_lookup_2, elem_of_map_to_list in Hin. by destruct (fi_locks s I k l Hin) as [-> _].
  - unfold GetFarmPools. rewrite <-list_fmap_compose. rewrite kv_sorted_perm.
    rewrite (list_fmap_ext _ id), list_fmap_id; [done|]. intros i [n q] Hin. cbn.
    apply list_elem_of_lookup_2, elem_of_map_to_list in Hin. by rewrite (po_name _ _ _ _ _ (fi_pools s I n q Hin)).
Qed.
End spec.

(** ** Witnesses: a chain of messages from an empty farm *)

#[local] Existing Instance Dec18.ops.
#[local] Existing Instance Dec18.dec_laws.
#[local] Existing Instance CoinsImpl.ops.
#[local] Existing Instance CoinsImpl.coins_laws.
#[local] Existing Instance BankImpl.ops.
#[local] Existing Instance BankImpl.bank_laws.

#[local] Instance ex_env : Token.Env := {|
  Token.HigherThanMercury _ := false;
  Token.EthCodeHash _ _ := None;
  Token.Keccak256_nil := "";
  Token.tmhash_hex s := s;
  Token.feeCollectorName := "fee_collector";
  Token.enableBackend := false;
|}.

#[local] Instance ex_accounts : Accounts.
Proof. split; [done|by split|by split]. Qed.

Definition ex_token (symbol : string) : Token.Token :=
  Token.MkToken symbol symbol symbol symbol 0 1 "alice" true.

Definition ex_swap : Swap.SwapState := Swap.MkSwapState
  (Token.MkTokenState _
    (BankImpl.MkSt
      {[ "alice" := [MkCoin "okt" 5000; MkCoin "xxb" 5000; MkCoin "yyb" 5000];
         "bob" := [MkCoin "okt" 5000; MkCoin "xxb" 5000; MkCoin "yyb" 5000];
         "module/mint_farming_account" := [MkCoin "okt" 77] ]}
      {[ "okt" := 10077; "xxb" := 10000; "yyb" := 10000 ]})
    {[ "okt" := ex_token "okt"; "xxb" := ex_token "xxb"; "yyb" := ex_token "yyb" ]} ∅ 3 ∅ ∅ ∅
    (Token.MkParams (MkCoin "okt" 5) (MkCoin "okt" 1) (MkCoin "okt" 1) (MkCoin "okt" 1) (MkCoin "okt" 1) 100) [])
  ∅ (Swap.MkParams (3 * 10 ^ 15)).

Definition ex_start : FarmState :=
  MkFarmState ex_swap ∅ ∅ ∅ ∅ ∅ ∅ (MkParams "xxb" (MkCoin "okt" 3) (MkCoin "okt" 10) true) [].

Definition run {A} (m : M FarmState A) (s : FarmState) : FarmState := snd (m s).
Definition at_height (h : Z) : Context := MkContext h (h * 1000) "".

Lemma ex_farm_run {A} (m : M FarmState A) s a : fst (m s) = Ok a → m s = (Ok a, run m s).
Proof. apply run_ok. Qed.

Definition ex_create (name : string) : MsgCreatePool := MkMsgCreatePool "bob" name (MkCoin "xxb" 10) "yyb".
Definition ex_provide : MsgProvide := MkMsgProvide "ab" "bob" (MkCoin "yyb" 1000) 50 11.
Definition ex_lock (addr : string) (a : Z) : MsgLock := MkMsgLock "ab" addr (MkCoin "xxb" a).

Definition ex1 : FarmState := run (handleMsgCreatePool (at_height 9) (ex_create "a")) ex_start.
Definition ex2 : FarmState := run (handleMsgCreatePool (at_height 9) (ex_create "ab")) ex1.
Definition ex3 : FarmState := run (handleMsgProvide (at_height 10) ex_provide) ex2.
Definition ex4 : FarmState := run (handleMsgLock (at_height 12) (ex_lock "alice" 30)) ex3.
Definition ex_state : FarmState := run (handleMsgLock (at_height 15) (ex_lock "bob" 40)) ex4.

Lemma ex_start_inv : farm_inv ex_start.
Proof.
  split; intros *; cbn; rewrite ?lookup_empty; done.
Qed.

Lemma periods_dec s : bool_decide (map_Forall (λ _ c, Period c + 1 < 2 ^ 64) (current s)) = true → periods_left s.
Proof. intros H%bool_decide_eq_true n c Hc. by apply (H n c). Qed.

Lemma ex_user_alice : user "alice".
Proof. by split. Qed.
Lemma ex_user_bob : user "bob".
Proof. by split. Qed.

Lemma ex1_inv : farm_inv ex1.
Proof.
  apply (create_pool_inv (at_height 9) (ex_create "a") ex_start); [apply ex_start_inv|apply ex_user_bob|].
  refine (ex_farm_run _ _ tt _). vm_compute. reflexivity.
Qed.

Lemma ex2_inv : farm_inv ex2.
Proof.
  apply (create_pool_inv (at_height 9) (ex_create "ab") ex1); [apply ex1_inv|apply ex_user_bob|].
  refine (ex_farm_run _ _ tt _). vm_compute. reflexivity.
Qed.

Lemma ex3_inv : farm_inv ex3.
Proof.
  apply (provide_inv (at_height 10) ex_provide ex2);
    [apply ex2_inv|apply periods_dec; vm_compute; reflexivity|apply ex_user_bob|vm_compute; reflexivity|].
  refine (ex_farm_run _ _ tt _). vm_compute. reflexivity.
Qed.

Lemma ex4_inv : farm_inv ex4.
Proof.
  apply (lock_inv (at_height 12) (ex_lock "alice" 30) ex3);
    [apply ex3_inv|apply periods_dec; vm_compute; reflexivity|apply ex_user_alice|vm_compute; reflexivity|].
  refine (ex_farm_run _ _ tt _). vm_compute. reflexivity.
Qed.

Lemma ex_farm_inv : farm_inv ex_state.
Proof.
  apply (lock_inv (at_height 15) (ex_lock "bob" 40) ex4);
    [apply ex4_inv|apply periods_dec; vm_compute; reflexivity|apply ex_user_bob|vm_compute; reflexivity|].
  refine (ex_farm_run _ _ tt _). vm_compute. reflexivity.
Qed.

Lemma ex_periods : periods_left ex_state.
Proof. apply periods_dec. vm_compute. reflexivity. Qed.

Definition ex_alice : LockInfo := MkLockInfo "alice" "ab" (MkCoin "xxb" 30) 12 2.
Definition ex_claim : MsgClaim := MkMsgClaim "ab" "alice".

Lemma farm_invariant_witness : farm_inv (run (NewHandler (at_height 20) (MClaim ex_claim)) ex_state).
Proof.
  apply (farm_invariant (at_height 20) (MClaim ex_claim) ex_state);
    [apply ex_farm_inv|apply ex_periods|apply ex_user_alice|vm_compute; reflexivity|done|].
  refine (ex_farm_run _ _ tt _). vm_compute. reflexivity.
Defined.

Lemma lockers_can_claim_witness :
  ∃ s', handleMsgClaim (at_height 20) ex_claim ex_state = (Ok tt, s') ∧
    ∀ d, bal ex_state (clAddress ex_claim) d ≤ bal s' (clAddress ex_claim) d.
Proof.
  apply (lockers_can_claim (at_height 20) ex_claim ex_state ex_alice);
    [apply ex_farm_inv|apply ex_periods|apply ex_user_alice|vm_compute; reflexivity].
Defined.

Lemma lockers_can_leave_witness :
  ∃ s', handleMsgUnlock (at_height 20) (MkMsgUnlock "ab" "alice" (liAmount ex_alice)) ex_state = (Ok tt, s') ∧
    locks s' !! ("alice", "ab") = None ∧
    ∀ d, bal ex_state "alice" d + coin_amt d (liAmount ex_alice) ≤ bal s' "alice" d.
Proof.
  apply (lockers_can_leave (at_height 20) ex_state "alice" "ab" ex_alice);
    [apply ex_farm_inv|apply ex_periods|apply ex_user_alice|vm_compute; reflexivity].
Defined.

Definition ex_listed : FarmState := set_whitelist {["ab"]} ex_state.

Lemma ex_listed_inv : farm_inv ex_listed.
Proof.
  apply white_inv; [apply ex_farm_inv|]. intros name Hn. apply elem_of_singleton in Hn as ->.
  apply (bool_decide_eq_true _). vm_compute. reflexivity.
Qed.

Lemma BeginBlocker_conserves_witness :
  let s' := run BeginBlocker ex_listed in
  farm_inv s' ∧
  (YieldNativeToken (fparams ex_listed) = true →
    ∀ d, bal s' yieldAcc d + bal s' mintAcc d = bal ex_listed yieldAcc d + bal ex_listed mintAcc d) ∧
  (s' = ex_listed ∨ bal s' mintAcc Coins.DefaultBondDenom = 0).
Proof.
  apply (BeginBlocker_conserves ex_listed (run BeginBlocker ex_listed)); [apply ex_listed_inv|].
  refine (ex_farm_run _ _ tt _). vm_compute. reflexivity.
Defined.

Definition ex_destroy : MsgDestroyPool := MkMsgDestroyPool "bob" "a".

Lemma destroy_breaks_longer_names_witness :
  let s' := run (handleMsgDestroyPool (at_height 20) ex_destroy) ex_state in
  fst (handleMsgClaim (at_height 21) (MkMsgClaim (dpPoolName ex_destroy +:+ "b") "alice") s') = Panic ∧
    fst (handleMsgUnlock (at_height 21) (MkMsgUnlock (dpPoolName ex_destroy +:+ "b") "alice" (liAmount ex_alice)) s') = Panic.
Proof.
  apply (destroy_breaks_longer_names (at_height 20) ex_destroy ex_state
    (run (handleMsgDestroyPool (at_height 20) ex_destroy) ex_state) "b" "alice" ex_alice);
    [apply ex_farm_inv|done| |vm_compute; reflexivity].
  refine (ex_farm_run _ _ tt _). vm_compute. reflexivity.
Defined.

Lemma registered_invariants_witness :
  moduleAccountInvariant ex_state = Ok false ∧ yieldFarmingAccountInvariant ex_state = Ok false.
Proof. apply (registered_invariants ex_state), ex_farm_inv. Defined.

Lemma ValidateGenesis_overflow_witness :
  let h := MkHistoricalRecord "a" 0 (MkHistorical [] 1) in
  let data := MkGenesisState [] [ex_alice] [h] [] [] (fparams ex_start) in
  ValidateGenesis data = Ok tt ↔ Z.of_nat (length [ex_alice] + 0) < 2 ^ 16.
Proof.
  apply (ValidateGenesis_overflow (MkGenesisState [] [ex_alice]
    [MkHistoricalRecord "a" 0 (MkHistorical [] 1)] [] [] (fparams ex_start))); done.
Defined.

Lemma hist_key_roundtrip_witness :
  GetPoolHistoricalRewardsPoolNamePeriod (GetPoolHistoricalRewardsKey "pool" 258) = Ok ("pool", 258).
Proof. apply hist_key_roundtrip; [done|cbn; lia|lia]. Defined.

Lemma genesis_roundtrip_witness :
  ∃ data s', ExportGenesis ex_state = Ok data ∧ InitGenesis data ex_start = (Ok tt, s') ∧
    pools s' = pools ex_state ∧ locks s' = locks ex_state ∧ hist s' = hist ex_state ∧
    current s' = current ex_state ∧ whitelist s' = whitelist ex_state ∧ fparams s' = fparams ex_state.
Proof.
  apply (genesis_roundtrip ex_state ex_start); [apply ex_farm_inv| |done..].
  intros name Hn. assert (map_Forall (λ n _, n ≠ "" ∧ (String.length n ≤ 128)%nat) (pools ex_state)) as H.
  { apply (bool_decide_eq_true _). vm_compute. reflexivity. }
  destruct Hn as [pl Hn]. by apply (H name pl).
Defined.
End FarmSpec.
