(* ===== verification/Gov.v ===== *)
(** * The gov module: src/x/gov/{handler,endblocker,genesis,invariants}.go,
      src/x/gov/{keeper,types}

    Proposals, the deposits that carry them into the voting period, votes, the tally
    and the three queues (proposals that collect deposits, that are voted on, and that
    passed and wait for their block).  [GovState] is the state [W] of the rest of the
    application and the stores of the module; the keys of a store are pairs where the
    source concatenates fields of fixed length.  Times are in nanoseconds.  The byte
    types of statuses and options are integers.

    The module is written against the interfaces it has in the source.  The contents
    of proposals of other modules are a type [C] of the class [Contents].  The class
    [App] collects the other keepers: the bank, the two calls of the staking keeper
    (the interface StakingKeeper of keeper/expected_keepers.go), the router of the
    proposals that passed, and the table of the proposal handlers of other modules.
    A validator's operator address is the bytes of its account; the source keys its
    map by their bech32 form, which determines them. *)

From S2P Require Import Prelude SdkDec SdkCoins GoStd CommonErrors Common GovErrors Token.

#[local] Open Scope Z_scope.

Module Gov.

Definition ModuleName : string := "gov".
Definition RouterKey : string := ModuleName.
Definition DefaultParamspace : string := ModuleName.

(** ** Statuses and options (types/proposal.go, types/vote.go) *)

Definition StatusNil : Z := 0.
Definition StatusDepositPeriod : Z := 1.
Definition StatusVotingPeriod : Z := 2.
Definition StatusPassed : Z := 3.
Definition StatusRejected : Z := 4.
Definition StatusFailed : Z := 5.

Definition ValidProposalStatus (status : Z) : bool :=
  ((status =? StatusDepositPeriod) || (status =? StatusVotingPeriod) || (status =? StatusPassed)
   || (status =? StatusRejected) || (status =? StatusFailed))%Z.

Definition ProposalStatusFromString (str : string) : outcome Z :=
  if String.eqb str "DepositPeriod" then Ok StatusDepositPeriod
  else if String.eqb str "VotingPeriod" then Ok StatusVotingPeriod
  else if String.eqb str "Passed" then Ok StatusPassed
  else if String.eqb str "Rejected" then Ok StatusRejected
  else if String.eqb str "Failed" then Ok StatusFailed
  else if String.eqb str "" then Ok StatusNil
  else Err Common.plain_error.

Definition ProposalStatus_String (status : Z) : string :=
  if (status =? StatusDepositPeriod)%Z then "DepositPeriod"
  else if (status =? StatusVotingPeriod)%Z then "VotingPeriod"
  else if (status =? StatusPassed)%Z then "Passed"
  else if (status =? StatusRejected)%Z then "Rejected"
  else if (status =? StatusFailed)%Z then "Failed"
  else "".

Definition OptionEmpty : Z := 0.
Definition OptionYes : Z := 1.
Definition OptionAbstain : Z := 2.
Definition OptionNo : Z := 3.
Definition OptionNoWithVeto : Z := 4.

Definition ValidVoteOption (option : Z) : bool :=
  ((option =? OptionYes) || (option =? OptionAbstain) || (option =? OptionNo)
   || (option =? OptionNoWithVeto))%Z.

Definition VoteOptionFromString (str : string) : outcome Z :=
  if String.eqb str "Yes" then Ok OptionYes
  else if String.eqb str "Abstain" then Ok OptionAbstain
  else if String.eqb str "No" then Ok OptionNo
  else if String.eqb str "NoWithVeto" then Ok OptionNoWithVeto
  else Err Common.plain_error.

Definition VoteOption_String (vo : Z) : string :=
  if (vo =? OptionYes)%Z then "Yes"
  else if (vo =? OptionAbstain)%Z then "Abstain"
  else if (vo =? OptionNo)%Z then "No"
  else if (vo =? OptionNoWithVeto)%Z then "NoWithVeto"
  else "".

(** The zero value of time.Time, the first of January of the year 1. *)
Definition zero_time : Z := - 62135596800 * 10 ^ 9.

(** ** Contents of proposals *)

Class Contents (C : Type) := {
  cRoute : C → string;
  cType : C → string;
  cValidateBasic : C → outcome unit;
  (* the types that other modules register with RegisterProposalType *)
  registered_type : string → bool;
}.

Inductive Content {C : Type} :=
| TextProposal (title description : string)
| SoftwareUpgradeProposal (title description : string)
| ModuleProposal (c : C).
Arguments Content : clear implicits.

Definition ProposalTypeText : string := "Text".
Definition ProposalTypeSoftwareUpgrade : string := "SoftwareUpgrade".
Definition MaxDescriptionLength : nat := 5000.
Definition MaxTitleLength : nat := 140.

(** ValidateAbstract, of a title and a description. *)
Definition ValidateAbstract (title description : string) : outcome unit :=
  if (String.length (TrimSpace title) =? 0)%nat then Err GovErr.ErrInvalidProposalContent
  else if (MaxTitleLength <? String.length title)%nat then Err GovErr.ErrInvalidProposalContent
  else if (String.length description =? 0)%nat then Err GovErr.ErrInvalidProposalContent
  else if (MaxDescriptionLength <? String.length description)%nat then Err GovErr.ErrInvalidProposalContent
  else Ok tt.

(** ** Data *)

Record TallyResult := MkTallyResult {
  TotalPower : Dec; TotalVotedPower : Dec; Yes : Dec; Abstain : Dec; No : Dec; NoWithVeto : Dec
}.

Record Deposit := MkDeposit { dProposalID : Z; Depositor : AccAddress; dAmount : SysCoins }.
Record Vote := MkVote { vProposalID : Z; Voter : AccAddress; Option : Z }.

Record DepositParams := MkDepositParams { MinDeposit : SysCoins; MaxDepositPeriod : Z }.
Record TallyParams := MkTallyParams { Quorum : Dec; Threshold : Dec; Veto : Dec; YesInVotePeriod : Dec }.
Record VotingParams := MkVotingParams { VotingPeriod : Z }.

Record Proposal {C : Type} := MkProposal {
  pContent : Content C;
  ProposalID : Z;
  Status : Z;
  FinalTallyResult : TallyResult;
  SubmitTime : Z;
  DepositEndTime : Z;
  TotalDeposit : SysCoins;
  VotingStartTime : Z;
  VotingEndTime : Z;
}.
Arguments Proposal : clear implicits.

Record MsgSubmitProposal {C : Type} := MkMsgSubmitProposal {
  spContent : option (Content C); InitialDeposit : SysCoins; Proposer : AccAddress
}.
Arguments MsgSubmitProposal : clear implicits.
Record MsgDeposit := MkMsgDeposit { mdProposalID : Z; mdDepositor : AccAddress; mdAmount : SysCoins }.
Record MsgVote := MkMsgVote { mvProposalID : Z; mvVoter : AccAddress; mvOption : Z }.
Inductive Msg {C : Type} :=
| MDeposit (m : MsgDeposit) | MSubmitProposal (m : MsgSubmitProposal C) | MVote (m : MsgVote) | MOther.
Arguments Msg : clear implicits.

(** What the module asks of a validator and of a delegator (x/staking/exported). *)
Record ValidatorI := MkValidatorI {
  GetOperator : AccAddress; GetBondedTokens : Z; GetDelegatorShares : Dec
}.
Record DelegatorI := MkDelegatorI {
  GetShareAddedValidatorAddresses : list AccAddress; GetLastAddedShares : Dec
}.

Section proposal_setters.
Context {C : Type}.
Implicit Types p : Proposal C.

Definition set_Status (x : Z) p : Proposal C :=
  MkProposal _ (pContent p) (ProposalID p) x (FinalTallyResult p) (SubmitTime p) (DepositEndTime p)
    (TotalDeposit p) (VotingStartTime p) (VotingEndTime p).
Definition set_FinalTallyResult (x : TallyResult) p : Proposal C :=
  MkProposal _ (pContent p) (ProposalID p) (Status p) x (SubmitTime p) (DepositEndTime p)
    (TotalDeposit p) (VotingStartTime p) (VotingEndTime p).
Definition set_DepositEndTime (x : Z) p : Proposal C :=
  MkProposal _ (pContent p) (ProposalID p) (Status p) (FinalTallyResult p) (SubmitTime p) x
    (TotalDeposit p) (VotingStartTime p) (VotingEndTime p).
Definition set_TotalDeposit (x : SysCoins) p : Proposal C :=
  MkProposal _ (pContent p) (ProposalID p) (Status p) (FinalTallyResult p) (SubmitTime p) (DepositEndTime p)
    x (VotingStartTime p) (VotingEndTime p).
Definition set_VotingStartTime (x : Z) p : Proposal C :=
  MkProposal _ (pContent p) (ProposalID p) (Status p) (FinalTallyResult p) (SubmitTime p) (DepositEndTime p)
    (TotalDeposit p) x (VotingEndTime p).
Definition set_VotingEndTime (x : Z) p : Proposal C :=
  MkProposal _ (pContent p) (ProposalID p) (Status p) (FinalTallyResult p) (SubmitTime p) (DepositEndTime p)
    (TotalDeposit p) (VotingStartTime p) x.
End proposal_setters.

(** ** State *)

Record GovState {W C : Type} := MkGovState {
  world : W;
  proposals : gmap Z (Proposal C);
  nextID : option Z;
  deposits : gmap (Z * AccAddress) Deposit;
  votes : gmap (Z * AccAddress) Vote;
  activeQueue : gset (Z * Z);
  inactiveQueue : gset (Z * Z);
  waitingQueue : gset (Z * Z);
  depositParams : DepositParams;
  votingParams : VotingParams;
  tallyParams : TallyParams;
}.
Arguments GovState : clear implicits.

Section state_setters.
Context {W C : Type}.
Implicit Types s : GovState W C.

Definition set_world (x : W) s : GovState W C :=
  MkGovState _ _ x (proposals s) (nextID s) (deposits s) (votes s) (activeQueue s)
    (inactiveQueue s) (waitingQueue s) (depositParams s) (votingParams s) (tallyParams s).
Definition set_proposals (x : gmap Z (Proposal C)) s : GovState W C :=
  MkGovState _ _ (world s) x (nextID s) (deposits s) (votes s) (activeQueue s)
    (inactiveQueue s) (waitingQueue s) (depositParams s) (votingParams s) (tallyParams s).
Definition set_nextID (x : option Z) s : GovState W C :=
  MkGovState _ _ (world s) (proposals s) x (deposits s) (votes s) (activeQueue s)
    (inactiveQueue s) (waitingQueue s) (depositParams s) (votingParams s) (tallyParams s).
Definition set_deposits (x : gmap (Z * AccAddress) Deposit) s : GovState W C :=
  MkGovState _ _ (world s) (proposals s) (nextID s) x (votes s) (activeQueue s)
    (inactiveQueue s) (waitingQueue s) (depositParams s) (votingParams s) (tallyParams s).
Definition set_votes (x : gmap (Z * AccAddress) Vote) s : GovState W C :=
  MkGovState _ _ (world s) (proposals s) (nextID s) (deposits s) x (activeQueue s)
    (inactiveQueue s) (waitingQueue s) (depositParams s) (votingParams s) (tallyParams s).
Definition set_activeQueue (x : gset (Z * Z)) s : GovState W C :=
  MkGovState _ _ (world s) (proposals s) (nextID s) (deposits s) (votes s) x
    (inactiveQueue s) (waitingQueue s) (depositParams s) (votingParams s) (tallyParams s).
Definition set_inactiveQueue (x : gset (Z * Z)) s : GovState W C :=
  MkGovState _ _ (world s) (proposals s) (nextID s) (deposits s) (votes s) (activeQueue s)
    x (waitingQueue s) (depositParams s) (votingParams s) (tallyParams s).
Definition set_waitingQueue (x : gset (Z * Z)) s : GovState W C :=
  MkGovState _ _ (world s) (proposals s) (nextID s) (deposits s) (votes s) (activeQueue s)
    (inactiveQueue s) x (depositParams s) (votingParams s) (tallyParams s).
Definition set_depositParams (x : DepositParams) s : GovState W C :=
  MkGovState _ _ (world s) (proposals s) (nextID s) (deposits s) (votes s) (activeQueue s)
    (inactiveQueue s) (waitingQueue s) x (votingParams s) (tallyParams s).
Definition set_votingParams (x : VotingParams) s : GovState W C :=
  MkGovState _ _ (world s) (proposals s) (nextID s) (deposits s) (votes s) (activeQueue s)
    (inactiveQueue s) (waitingQueue s) (depositParams s) x (tallyParams s).
Definition set_tallyParams (x : TallyParams) s : GovState W C :=
  MkGovState _ _ (world s) (proposals s) (nextID s) (deposits s) (votes s) (activeQueue s)
    (inactiveQueue s) (waitingQueue s) (depositParams s) (votingParams s) x.
End state_setters.

(** The interface ProposalHandler of keeper/proposal_handler_router.go. *)
Record ProposalHandler {W C : Type} := MkProposalHandler {
  hGetMinDeposit : Content C → GovState W C → SysCoins;
  hGetMaxDepositPeriod : Content C → GovState W C → Z;
  hGetVotingPeriod : Content C → GovState W C → Z;
  hCheckMsgSubmitProposal : Context → MsgSubmitProposal C → GovState W C → outcome unit;
  hAfterSubmitProposalHandler : Context → Proposal C → M (GovState W C) unit;
  hVoteHandler : Context → Proposal C → Vote → M (GovState W C) unit;
  hAfterDepositPeriodPassed : Context → Proposal C → M (GovState W C) unit;
  hRejectedHandler : Context → Content C → M (GovState W C) unit;
}.
Arguments ProposalHandler : clear implicits.

Class App (W C : Type) `{BO : Bank.Ops} := {
  bank : W → Bank.state;
  set_bank : Bank.state → W → W;
  (* IterateBondedValidatorsByPower, in its order *)
  BondedValidators : W → list ValidatorI;
  Delegator : W → AccAddress → option DelegatorI;
  (* the router of passed proposals, and the handlers registered by other modules *)
  GetRoute : string → option (Context → Proposal C → M (GovState W C) unit);
  module_handlers : string → option (ProposalHandler W C);
  feeCollectorName : string;
}.

(** ** Stateless checks (types/msgs.go) *)

Section validate.
Context `{DO : Dec.Ops} `{CO : Coins.Ops} {C : Type} `{CT : Contents C}.

Definition ProposalRoute (c : Content C) : string :=
  match c with ModuleProposal c => cRoute c | _ => RouterKey end.

Definition ProposalType (c : Content C) : string :=
  match c with
  | TextProposal _ _ => ProposalTypeText
  | SoftwareUpgradeProposal _ _ => ProposalTypeSoftwareUpgrade
  | ModuleProposal c => cType c
  end.

Definition Content_ValidateBasic (c : Content C) : outcome unit :=
  match c with
  | TextProposal title description | SoftwareUpgradeProposal title description =>
      ValidateAbstract title description
  | ModuleProposal c => cValidateBasic c
  end.

Definition IsValidProposalType (ty : string) : bool :=
  (String.eqb ty ProposalTypeText || String.eqb ty ProposalTypeSoftwareUpgrade || registered_type ty)%bool.

(** One coin of the bond denomination. *)
Definition only_bond_denom (decCoins : SysCoins) : bool :=
  match decCoins with
  | [c] => (String.eqb (Denom c) Coins.DefaultBondDenom && Coins.IsValid decCoins)%bool
  | _ => false
  end.

Definition MsgSubmitProposal_ValidateBasic (msg : MsgSubmitProposal C) : outcome unit :=
  match spContent msg with
  | None => Err GovErr.ErrInvalidProposalContent
  | Some content =>
      if String.eqb (ProposalType content) ProposalTypeSoftwareUpgrade then Err GovErr.ErrInvalidProposalType
      else if Token.Empty (Proposer msg) then Err GovErr.ErrInvalidAddress
      else if negb (Coins.IsValid (InitialDeposit msg)) then Err GovErr.ErrInvalidCoins
      else if Coins.IsAnyNegative (InitialDeposit msg) then Err GovErr.ErrInvalidCoins
      else if negb (only_bond_denom (InitialDeposit msg)) then Err Coins.ErrInvalidCoins
      else if negb (IsValidProposalType (ProposalType content)) then Err GovErr.ErrInvalidProposalType
      else Content_ValidateBasic content
  end.

Definition MsgDeposit_ValidateBasic (msg : MsgDeposit) : outcome unit :=
  if Token.Empty (mdDepositor msg) then Err GovErr.ErrInvalidAddress
  else if negb (Coins.IsValid (mdAmount msg)) then Err GovErr.ErrInvalidCoins
  else if Coins.IsAnyNegative (mdAmount msg) then Err GovErr.ErrInvalidCoins
  else Ok tt.

Definition MsgVote_ValidateBasic (msg : MsgVote) : outcome unit :=
  if Token.Empty (mvVoter msg) then Err GovErr.ErrInvalidAddress
  else if negb (ValidVoteOption (mvOption msg)) then Err GovErr.ErrInvalidVote
  else Ok tt.

Definition ValidateBasic (msg : Msg C) : outcome unit :=
  match msg with
  | MDeposit m => MsgDeposit_ValidateBasic m
  | MSubmitProposal m => MsgSubmitProposal_ValidateBasic m
  | MVote m => MsgVote_ValidateBasic m
  | MOther => Ok tt
  end.

(** ** Parameters (types/params.go) *)

Definition validateDepositParams (v : DepositParams) : outcome unit :=
  if negb (Coins.IsValid (MinDeposit v)) then Err Common.plain_error
  else if (MaxDepositPeriod v <=? 0)%Z then Err Common.plain_error
  else Ok tt.

Definition validateTallyParams (v : TallyParams) : outcome unit :=
  if Dec.IsNegative (Quorum v) then Err Common.plain_error
  else if Dec.GT (Quorum v) Dec.OneDec then Err Common.plain_error
  else if negb (Dec.IsPositive (Threshold v)) then Err Common.plain_error
  else if Dec.GT (Threshold v) Dec.OneDec then Err Common.plain_error
  else if negb (Dec.IsPositive (Veto v)) then Err Common.plain_error
  else if Dec.GT (Veto v) Dec.OneDec then Err Common.plain_error
  else Ok tt.

Definition validateVotingParams (v : VotingParams) : outcome unit :=
  if (VotingPeriod v <=? 0)%Z then Err Common.plain_error else Ok tt.

(** ** Tally results *)

Definition EmptyTallyResult (totalVoting : Dec) : TallyResult :=
  MkTallyResult totalVoting Dec.ZeroDec Dec.ZeroDec Dec.ZeroDec Dec.ZeroDec Dec.ZeroDec.

(** A Dec that is missing in a map is nil; it is not used before TotalPower and
    TotalVotedPower are set. *)
Definition NewTallyResultFromMap (results : gmap Z Dec) : TallyResult :=
  MkTallyResult 0 0 (default 0 (results !! OptionYes)) (default 0 (results !! OptionAbstain))
    (default 0 (results !! OptionNo)) (default 0 (results !! OptionNoWithVeto)).

Definition set_powers (total voted : Dec) (t : TallyResult) : TallyResult :=
  MkTallyResult total voted (Yes t) (Abstain t) (No t) (NoWithVeto t).

Definition NewProposal (totalVoting : Dec) (content : Content C) (id submitTime depositEndTime : Z)
    : Proposal C :=
  MkProposal _ content id StatusDepositPeriod (EmptyTallyResult totalVoting) submitTime depositEndTime
    [] zero_time zero_time.
End validate.

(** ** The keeper *)

Section keeper.
Context `{DO : Dec.Ops} `{CO : Coins.Ops} `{BO : Bank.Ops} `{RT : GoRt}
  {W C : Type} `{CT : !Contents C} `{AP : !App W C}.

Abbreviation State := (GovState W C) (only parsing).
Abbreviation MG := (M (GovState W C)) (only parsing).

(** A call of the supply keeper. *)
Definition on_supply {A} (m : M Bank.state A) : MG A :=
  zoom (λ s, bank (world s)) (λ b s, set_world (set_bank b (world s)) s) m.

(** A handler that runs on a cached store: written back when it succeeds. *)
Definition cached (m : MG unit) : MG (option error) := λ s,
  match m s with
  | (Ok _, s') => (Ok None, s')
  | (Err e, _) => (Ok (Some e), s)
  | (Panic, s') => (Panic, s')
  end.

(** *** Queues (keeper/keeper.go) *)

Definition InsertWaitingProposalQueue (blockHeight proposalID : Z) : MG unit :=
  modify (λ s, set_waitingQueue ({[(blockHeight, proposalID)]} ∪ waitingQueue s) s).
Definition RemoveFromWaitingProposalQueue (blockHeight proposalID : Z) : MG unit :=
  modify (λ s, set_waitingQueue (waitingQueue s ∖ {[(blockHeight, proposalID)]}) s).
Definition InsertActiveProposalQueue (proposalID endTime : Z) : MG unit :=
  modify (λ s, set_activeQueue ({[(endTime, proposalID)]} ∪ activeQueue s) s).
Definition RemoveFromActiveProposalQueue (proposalID endTime : Z) : MG unit :=
  modify (λ s, set_activeQueue (activeQueue s ∖ {[(endTime, proposalID)]}) s).
Definition InsertInactiveProposalQueue (proposalID endTime : Z) : MG unit :=
  modify (λ s, set_inactiveQueue ({[(endTime, proposalID)]} ∪ inactiveQueue s) s).
Definition RemoveFromInactiveProposalQueue (proposalID endTime : Z) : MG unit :=
  modify (λ s, set_inactiveQueue (inactiveQueue s ∖ {[(endTime, proposalID)]}) s).

(** The order of the keys of a queue: a time or a height, then the id in little
    endian. *)
Definition queue_le (x y : Z * Z) : Prop :=
  fst x < fst y ∨ (fst x = fst y ∧ String.le (le_bytes 8 (snd x)) (le_bytes 8 (snd y))).

#[export] Instance queue_le_dec x y : Decision (queue_le x y).
Proof. unfold queue_le. apply _. Defined.

(** The entries of a queue up to a time or a height. *)
Definition due (limit : Z) (queue : gset (Z * Z)) : list (Z * Z) :=
  merge_sort queue_le (filter (λ k, fst k ≤ limit) (elements queue)).

Definition ActiveProposalQueueIterator (endTime : Z) (s : State) : list (Z * Z) := due endTime (activeQueue s).
Definition InactiveProposalQueueIterator (endTime : Z) (s : State) : list (Z * Z) := due endTime (inactiveQueue s).
Definition WaitingProposalQueueIterator (blockHeight : Z) (s : State) : list (Z * Z) :=
  due blockHeight (waitingQueue s).

Definition GetProposal (proposalID : Z) (s : State) : option (Proposal C) := proposals s !! proposalID.
Definition SetProposal (proposal : Proposal C) : MG unit :=
  modify (λ s, set_proposals (<[ProposalID proposal := proposal]> (proposals s)) s).

(** The proposal of every entry, looked up when its turn comes. *)
Definition iterate_queue (keys : list (Z * Z)) (cb : Proposal C → MG unit) : MG unit :=
  mapM_ (λ key, o ← gets (GetProposal (snd key)); proposal ← lift (or_panic o); cb proposal) keys.

Definition IterateActiveProposalsQueue (endTime : Z) (cb : Proposal C → MG unit) : MG unit :=
  keys ← gets (ActiveProposalQueueIterator endTime); iterate_queue keys cb.
Definition IterateInactiveProposalsQueue (endTime : Z) (cb : Proposal C → MG unit) : MG unit :=
  keys ← gets (InactiveProposalQueueIterator endTime); iterate_queue keys cb.
Definition IterateWaitingProposalsQueue (height : Z) (cb : Proposal C → MG unit) : MG unit :=
  keys ← gets (WaitingProposalQueueIterator height); iterate_queue keys cb.

(** *** Deposits and votes as stores *)

(** The bytes of a deposit's or a vote's key behind its prefix. *)
Definition id_key (k : Z * AccAddress) : string := le_bytes 8 (fst k) +:+ snd k.

Definition SetDeposit (deposit : Deposit) : MG unit :=
  modify (λ s, set_deposits (<[(dProposalID deposit, Depositor deposit) := deposit]> (deposits s)) s).
Definition deleteDeposit (proposalID : Z) (depositorAddr : AccAddress) : MG unit :=
  modify (λ s, set_deposits (delete (proposalID, depositorAddr) (deposits s)) s).
Definition GetDeposit (proposalID : Z) (depositorAddr : AccAddress) (s : State) : option Deposit :=
  deposits s !! (proposalID, depositorAddr).
Definition GetAllDeposits (s : State) : list Deposit := snd <$> keyed_sorted id_key (deposits s).
Definition GetDeposits (proposalID : Z) (s : State) : list Deposit :=
  snd <$> keyed_sorted id_key (filter (λ kx : Z * AccAddress * Deposit, fst (fst kx) = proposalID) (deposits s)).

Definition SetVote (proposalID : Z) (vote : Vote) : MG unit :=
  modify (λ s, set_votes (<[(proposalID, Voter vote) := vote]> (votes s)) s).
Definition deleteVote (proposalID : Z) (voterAddr : AccAddress) : MG unit :=
  modify (λ s, set_votes (delete (proposalID, voterAddr) (votes s)) s).
Definition GetVote (proposalID : Z) (voterAddr : AccAddress) (s : State) : option Vote :=
  votes s !! (proposalID, voterAddr).
Definition GetAllVotes (s : State) : list Vote := snd <$> keyed_sorted id_key (votes s).
Definition GetVotes (proposalID : Z) (s : State) : list Vote :=
  snd <$> keyed_sorted id_key (filter (λ kx : Z * AccAddress * Vote, fst (fst kx) = proposalID) (votes s)).

Definition DeleteVotes (proposalID : Z) : MG unit :=
  votes ← gets (GetVotes proposalID);
  mapM_ (λ vote, deleteVote (vProposalID vote) (Voter vote)) votes.

(** *** The keeper as the handler of its own proposals *)

Definition totalPower (s : State) : Dec :=
  foldl (λ totalVoting validator, Dec.Add totalVoting (GetDelegatorShares validator)) Dec.ZeroDec
    (BondedValidators (world s)).

Definition GetMinDeposit (content : Content C) (s : State) : SysCoins := MinDeposit (depositParams s).
Definition GetMaxDepositPeriod (content : Content C) (s : State) : Z := MaxDepositPeriod (depositParams s).
Definition GetVotingPeriod (content : Content C) (s : State) : Z := VotingPeriod (votingParams s).

Definition CheckMsgSubmitProposal (ctx : Context) (msg : MsgSubmitProposal C) (s : State) : outcome unit :=
  let initDeposit := Coins.MulDec (MinDeposit (depositParams s)) (Dec.NewDecWithPrec 1 1) in
  if negb (is_ok (Common.HasSufficientCoins (Proposer msg) (InitialDeposit msg) initDeposit))
  then Err GovErr.ErrInitialDepositNotEnough
  else if negb (is_ok (Common.HasSufficientCoins (Proposer msg)
                         (Bank.GetCoins (bank (world s)) (Proposer msg)) (InitialDeposit msg)))
  then Err (CommonErr.ErrInsufficientCoins GovErr.DefaultCodespace)
  else Ok tt.

Definition keeper_handler : ProposalHandler W C :=
  MkProposalHandler _ _ GetMinDeposit GetMaxDepositPeriod GetVotingPeriod CheckMsgSubmitProposal
    (λ _ _, mret tt) (λ _ _ _, mret tt) (λ _ _, mret tt) (λ _ _, mret tt).

(** The keeper registers itself under its own route. *)
Definition handler_route (route : string) : option (ProposalHandler W C) :=
  if String.eqb route RouterKey then Some keeper_handler else module_handlers route.

(** ProposalHandler of types/proposal.go, the handler of text proposals. *)
Definition text_handler (ctx : Context) (p : Proposal C) : MG unit :=
  if (String.eqb (ProposalType (pContent p)) ProposalTypeText
      || String.eqb (ProposalType (pContent p)) ProposalTypeSoftwareUpgrade)%bool
  then mret tt else throw Coins.ErrUnknownRequest.

(** *** Proposals (keeper/proposal.go) *)

Definition GetProposalID (s : State) : outcome Z :=
  match nextID s with None => Err GovErr.ErrInvalidGenesis | Some proposalID => Ok proposalID end.
Definition SetProposalID (proposalID : Z) : MG unit := modify (set_nextID (Some proposalID)).

Definition SubmitProposal (ctx : Context) (content : Content C) : MG (Proposal C) :=
  match GetRoute (ProposalRoute content) with
  | None => throw GovErr.ErrNoProposalHandlerExists
  | Some _ =>
      s ← get;
      proposalID ← lift (GetProposalID s);
      let submitTime := BlockTime ctx in
      let depositPeriod := match handler_route (ProposalRoute content) with
                           | None => MaxDepositPeriod (depositParams s)
                           | Some h => hGetMaxDepositPeriod h content s
                           end in
      let proposal := NewProposal (totalPower s) content proposalID submitTime (submitTime + depositPeriod) in
      SetProposal proposal;;
      InsertInactiveProposalQueue proposalID (DepositEndTime proposal);;
      SetProposalID (uint64 (proposalID + 1));;
      match handler_route (ProposalRoute content) with
      | None => mret tt
      | Some h => hAfterSubmitProposalHandler h ctx proposal
      end;;
      mret proposal
  end.

Definition DeleteProposal (proposalID : Z) : MG unit :=
  o ← gets (GetProposal proposalID);
  proposal ← lift (or_panic o);
  RemoveFromInactiveProposalQueue proposalID (DepositEndTime proposal);;
  RemoveFromActiveProposalQueue proposalID (VotingEndTime proposal);;
  modify (λ s, set_proposals (delete proposalID (proposals s)) s).

(** The loop of GetProposalsFiltered, from [proposalID] on; a nil address does not
    filter. *)
Definition keep_proposal (voterAddr depositorAddr : AccAddress) (status proposalID : Z) (s : State)
    : option (Proposal C) :=
  if (negb (Token.Empty voterAddr) && negb (bool_decide (is_Some (GetVote proposalID voterAddr s))))%bool then None
  else if (negb (Token.Empty depositorAddr)
           && negb (bool_decide (is_Some (GetDeposit proposalID depositorAddr s))))%bool then None
  else match GetProposal proposalID s with
  | None => None
  | Some proposal =>
      if (ValidProposalStatus status && negb (Status proposal =? status)%Z)%bool then None else Some proposal
  end.

(** The subtraction wraps around when more proposals are asked for than there are,
    and the loop then does nothing. *)
Definition GetProposalsFiltered (voterAddr depositorAddr : AccAddress) (status numLatest : Z) (s : State)
    : list (Proposal C) :=
  match GetProposalID s with
  | Ok maxProposalID =>
      let numLatest := if (numLatest =? 0)%Z then maxProposalID else numLatest in
      let start := uint64 (maxProposalID - numLatest) in
      omap (λ proposalID, keep_proposal voterAddr depositorAddr status proposalID s)
        (seqZ start (maxProposalID - start))
  | _ => []
  end.

Definition activateVotingPeriod (ctx : Context) (proposal : Proposal C) : MG (Proposal C) :=
  s ← get;
  let proposal := set_VotingStartTime (BlockTime ctx) proposal in
  let votingPeriod := match handler_route (ProposalRoute (pContent proposal)) with
                      | None => GetVotingPeriod (pContent proposal) s
                      | Some h => hGetVotingPeriod h (pContent proposal) s
                      end in
  let proposal := set_VotingEndTime (VotingStartTime proposal + votingPeriod) proposal in
  let proposal := set_Status StatusVotingPeriod proposal in
  RemoveFromInactiveProposalQueue (ProposalID proposal) (DepositEndTime proposal);;
  InsertActiveProposalQueue (ProposalID proposal) (VotingEndTime proposal);;
  mret proposal.

(** *** Deposits (keeper/deposit.go) *)

Definition tryEnterVotingPeriod (ctx : Context) (proposal : Proposal C) (depositAmount : SysCoins) : MG unit :=
  let proposal := set_TotalDeposit (Coins.Add (TotalDeposit proposal) depositAmount) proposal in
  s ← get;
  let minDeposit := match handler_route (ProposalRoute (pContent proposal)) with
                    | None => MinDeposit (depositParams s)
                    | Some h => hGetMinDeposit h (pContent proposal) s
                    end in
  if ((Status proposal =? StatusDepositPeriod)%Z && Coins.IsAllGTE (TotalDeposit proposal) minDeposit)%bool then
    proposal ← activateVotingPeriod ctx proposal;
    let proposal := set_DepositEndTime (BlockTime ctx) proposal in
    SetProposal proposal;;
    match handler_route (ProposalRoute (pContent proposal)) with
    | None => mret tt
    | Some h => hAfterDepositPeriodPassed h ctx proposal
    end
  else SetProposal proposal.

Definition updateDeposit (proposalID : Z) (depositorAddr : AccAddress) (depositAmount : SysCoins) : MG unit :=
  found ← gets (GetDeposit proposalID depositorAddr);
  SetDeposit (match found with
              | Some deposit => MkDeposit (dProposalID deposit) (Depositor deposit)
                                  (Coins.Add (dAmount deposit) depositAmount)
              | None => MkDeposit proposalID depositorAddr depositAmount
              end).

Definition AddDeposit (ctx : Context) (proposalID : Z) (depositorAddr : AccAddress) (depositAmount : SysCoins)
    : MG unit :=
  o ← gets (GetProposal proposalID);
  proposal ← or_throw o GovErr.ErrUnknownProposal;
  throw_if (negb (Status proposal =? StatusDepositPeriod)%Z) GovErr.ErrInvalidateProposalStatus;;
  on_supply (Bank.SendCoinsFromAccountToModule depositorAddr ModuleName depositAmount);;
  tryEnterVotingPeriod ctx proposal depositAmount;;
  updateDeposit proposalID depositorAddr depositAmount.

(** Pays a deposit back to its depositor. *)
Definition refund_one (proposalID : Z) (deposit : Deposit) : MG unit :=
  must (on_supply (Bank.SendCoinsFromModuleToAccount ModuleName (Depositor deposit) (dAmount deposit)));;
  deleteDeposit proposalID (Depositor deposit).
Definition RefundDeposits (proposalID : Z) : MG unit :=
  deposits ← gets (GetDeposits proposalID); mapM_ (refund_one proposalID) deposits.

(** Pays a deposit to the fee collector. *)
Definition distribute_one (proposalID : Z) (deposit : Deposit) : MG unit :=
  must (on_supply (Bank.SendCoinsFromModuleToModule ModuleName feeCollectorName (dAmount deposit)));;
  deleteDeposit proposalID (Depositor deposit).
Definition DistributeDeposits (proposalID : Z) : MG unit :=
  deposits ← gets (GetDeposits proposalID); mapM_ (distribute_one proposalID) deposits.

(** Burns a deposit. *)
Definition burn_one (proposalID : Z) (deposit : Deposit) : MG unit :=
  must (on_supply (Bank.BurnCoins ModuleName (dAmount deposit)));;
  deleteDeposit proposalID (Depositor deposit).
Definition DeleteDeposits (proposalID : Z) : MG unit :=
  deposits ← gets (GetDeposits proposalID); mapM_ (burn_one proposalID) deposits.

(** *** Votes (keeper/vote.go) *)

Definition AddVote (ctx : Context) (proposalID : Z) (voterAddr : AccAddress) (option : Z) : MG unit :=
  o ← gets (GetProposal proposalID);
  proposal ← or_throw o GovErr.ErrUnknownProposal;
  throw_if (negb (Status proposal =? StatusVotingPeriod)%Z) GovErr.ErrInvalidateProposalStatus;;
  throw_if (negb (ValidVoteOption option)) GovErr.ErrInvalidVote;;
  let vote := MkVote proposalID voterAddr option in
  match handler_route (ProposalRoute (pContent proposal)) with
  | None => mret tt
  | Some h => hVoteHandler h ctx proposal vote
  end;;
  SetVote proposalID vote.

(** *** The tally (keeper/tally.go) *)

Record validatorGovInfo := MkValidatorGovInfo {
  giAddress : AccAddress; BondedTokens : Z; DelegatorShares : Dec; DelegatorDeductions : Dec; giVote : Z
}.

Definition set_giVote (x : Z) (v : validatorGovInfo) : validatorGovInfo :=
  MkValidatorGovInfo (giAddress v) (BondedTokens v) (DelegatorShares v) (DelegatorDeductions v) x.
Definition set_DelegatorDeductions (x : Dec) (v : validatorGovInfo) : validatorGovInfo :=
  MkValidatorGovInfo (giAddress v) (BondedTokens v) (DelegatorShares v) x (giVote v).

(** The validators, the power that has voted, and the power of each option. *)
Record tally_state := MkTally {
  currValidators : gmap AccAddress validatorGovInfo; votedPower : Dec; results : gmap Z Dec
}.

(** results[option] = results[option].Add(x): adding to a missing (nil) Dec panics. *)
Definition add_result (option : Z) (x : Dec) (results : gmap Z Dec) : outcome (gmap Z Dec) :=
  r ← or_panic (results !! option); Ok (<[option := Dec.Add r x]> results).

(** The shares that a delegator added to validators: taken off the validators' own. *)
Fixpoint tally_shares (vals : list AccAddress) (shares : Dec) (option : Z) (t : tally_state) : outcome tally_state :=
  match vals with
  | [] => Ok t
  | val :: vals =>
      match currValidators t !! val with
      | None => tally_shares vals shares option t
      | Some valInfo =>
          let valInfo := set_DelegatorDeductions (Dec.Add (DelegatorDeductions valInfo) shares) valInfo in
          results ← add_result option shares (results t);
          tally_shares vals shares option
            (MkTally (<[val := valInfo]> (currValidators t)) (Dec.Add (votedPower t) shares) results)
      end
  end.

Fixpoint tally_votes (votes : list Vote) (s : State) (t : tally_state) : outcome tally_state :=
  match votes with
  | [] => Ok t
  | vote :: votes =>
      match currValidators t !! Voter vote with
      | Some val =>
          tally_votes votes s
            (MkTally (<[Voter vote := set_giVote (Option vote) val]> (currValidators t)) (votedPower t) (results t))
      | None =>
          match Delegator (world s) (Voter vote) with
          | None => tally_votes votes s t
          | Some delegation =>
              t ← tally_shares (GetShareAddedValidatorAddresses delegation) (GetLastAddedShares delegation)
                    (Option vote) t;
              tally_votes votes s t
          end
      end
  end.

(** The sum that the source computes for the power of a delegator who is [voteP] is
    dropped: voterPower stays as it is. *)
Definition tallyDelegatorVotes (proposalID : Z) (voteP : option Vote) (t : tally_state) (s : State)
    : outcome tally_state :=
  tally_votes (GetVotes proposalID s ++ match voteP with Some v => [v] | None => [] end) s t.

(** The range over the validators: voterPower, totalPower, totalVotedPower, results. *)
Fixpoint tally_validators (keys : list AccAddress) (currValidators : gmap AccAddress validatorGovInfo)
    (voteP : option Vote) (voterPower totalPower totalVotedPower : Dec) (results : gmap Z Dec)
    : outcome (Dec * Dec * Dec * gmap Z Dec) :=
  match keys with
  | [] => Ok (voterPower, totalPower, totalVotedPower, results)
  | key :: keys =>
      match currValidators !! key with
      | None => tally_validators keys currValidators voteP voterPower totalPower totalVotedPower results
      | Some val =>
          let totalPower := Dec.Add totalPower (DelegatorShares val) in
          if (giVote val =? OptionEmpty)%Z
          then tally_validators keys currValidators voteP voterPower totalPower totalVotedPower results
          else
            let valValidVotedPower := Dec.Sub (DelegatorShares val) (DelegatorDeductions val) in
            let voterPower := match voteP with
                              | Some v => if String.eqb (Voter v) key
                                          then Dec.Add voterPower valValidVotedPower else voterPower
                              | None => voterPower
                              end in
            results ← add_result (giVote val) valValidVotedPower results;
            tally_validators keys currValidators voteP voterPower totalPower
              (Dec.Add totalVotedPower valValidVotedPower) results
      end
  end.

Definition tallyValidatorVotes (currValidators : gmap AccAddress validatorGovInfo) (voteP : option Vote)
    (voterPower totalPower totalVotedPower : Dec) (results : gmap Z Dec)
    : outcome (Dec * Dec * Dec * gmap Z Dec) :=
  tally_validators (map_range (elements (dom currValidators))) currValidators voteP voterPower totalPower
    totalVotedPower results.

Definition no_results : gmap Z Dec :=
  {[ OptionYes := Dec.ZeroDec; OptionAbstain := Dec.ZeroDec; OptionNo := Dec.ZeroDec;
     OptionNoWithVeto := Dec.ZeroDec ]}.

(** The bonded validators by operator, none of which has voted. *)
Definition curr_validators (l : list ValidatorI) : gmap AccAddress validatorGovInfo :=
  foldl (λ m v, <[GetOperator v := MkValidatorGovInfo (GetOperator v) (GetBondedTokens v)
                    (GetDelegatorShares v) Dec.ZeroDec OptionEmpty]> m) ∅ l.

Definition preTally (proposal : Proposal C) (voteP : option Vote) (s : State)
    : outcome (gmap Z Dec * Dec * Dec) :=
  t ← tallyDelegatorVotes (ProposalID proposal) voteP
        (MkTally (curr_validators (BondedValidators (world s))) Dec.ZeroDec no_results) s;
  '(voterPower, totalPower, totalVotedPower, results) ←
    tallyValidatorVotes (currValidators t) voteP Dec.ZeroDec Dec.ZeroDec (votedPower t) (results t);
  voterPowerRate ← (if Dec.GT totalPower Dec.ZeroDec then or_panic (Dec.Quo voterPower totalPower)
                    else Ok Dec.ZeroDec);
  Ok (results, totalVotedPower, voterPowerRate).

Definition tallyStatusInVotePeriod (tallyParams : TallyParams) (tallyResults : TallyResult) : outcome (Z * bool) :=
  let totalPower := TotalPower tallyResults in
  if Dec.IsZero totalPower then Ok (StatusRejected, false)
  else if Dec.Equal (Dec.Sub totalPower (Abstain tallyResults)) Dec.ZeroDec then Ok (StatusRejected, false)
  else
    veto ← or_panic (Dec.Quo (NoWithVeto tallyResults) totalPower);
    if Dec.GT veto (Veto tallyParams) then Ok (StatusRejected, true)
    else
      no ← or_panic (Dec.Quo (Dec.Add (NoWithVeto tallyResults) (No tallyResults))
                       (Dec.Sub totalPower (Abstain tallyResults)));
      if Dec.GTE no (Threshold tallyParams) then Ok (StatusRejected, false)
      else
        yes ← or_panic (Dec.Quo (Yes tallyResults) totalPower);
        if Dec.GT yes (YesInVotePeriod tallyParams) then Ok (StatusPassed, false)
        else Ok (StatusVotingPeriod, false).

Definition tallyStatusExpireVotePeriod (tallyParams : TallyParams) (tallyResults : TallyResult) : outcome (Z * bool) :=
  let totalVoted := TotalVotedPower tallyResults in
  let totalPower := TotalPower tallyResults in
  if Dec.IsZero totalPower then Ok (StatusRejected, false)
  else
    percentVoting ← or_panic (Dec.Quo totalVoted totalPower);
    if Dec.LT percentVoting (Quorum tallyParams) then Ok (StatusRejected, true)
    else if Dec.Equal (Dec.Sub totalVoted (Abstain tallyResults)) Dec.ZeroDec then Ok (StatusRejected, false)
    else
      veto ← or_panic (Dec.Quo (NoWithVeto tallyResults) totalVoted);
      if Dec.GT veto (Veto tallyParams) then Ok (StatusRejected, true)
      else
        yes ← or_panic (Dec.Quo (Yes tallyResults) (Dec.Sub totalVoted (Abstain tallyResults)));
        if Dec.GT yes (Threshold tallyParams) then Ok (StatusPassed, false)
        else Ok (StatusRejected, false).

Definition Tally (proposal : Proposal C) (isExpireVoteEndTime : bool) (s : State)
    : outcome (Z * bool * TallyResult) :=
  '(results, totalVotedPower, _) ← preTally proposal None s;
  let tallyResults := set_powers (totalPower s) totalVotedPower (NewTallyResultFromMap results) in
  '(status, distribute) ←
    (if isExpireVoteEndTime then tallyStatusExpireVotePeriod (tallyParams s) tallyResults
     else tallyStatusInVotePeriod (tallyParams s) tallyResults);
  Ok (status, distribute, tallyResults).

(** ** Handlers (handler.go) *)

Definition hasOnlyDefaultBondDenom (decCoins : SysCoins) : outcome unit :=
  if negb (only_bond_denom decCoins) then Err GovErr.ErrInvalidCoins else Ok tt.

(** Settles the deposits, executes or rejects the proposal, and returns it with its
    status. *)
Definition handleProposalAfterTally (ctx : Context) (proposal : Proposal C) (distribute : bool) (status : Z)
    : MG (Proposal C) :=
  (if distribute then DistributeDeposits (ProposalID proposal) else RefundDeposits (ProposalID proposal));;
  if (status =? StatusPassed)%Z then
    handler ← lift (or_panic (GetRoute (ProposalRoute (pContent proposal))));
    err ← cached (handler ctx proposal);
    match err with
    | None => mret (set_Status StatusPassed proposal)
    | Some _ => mret (set_Status StatusFailed proposal)
    end
  else if (status =? StatusRejected)%Z then
    match handler_route (ProposalRoute (pContent proposal)) with
    | None => mret tt
    | Some h => hRejectedHandler h ctx (pContent proposal)
    end;;
    mret (set_Status StatusRejected proposal)
  else mret proposal.

Definition handleMsgSubmitProposal (ctx : Context) (msg : MsgSubmitProposal C) : MG unit :=
  lift (hasOnlyDefaultBondDenom (InitialDeposit msg));;
  content ← lift (or_panic (spContent msg));
  s ← get;
  lift (match handler_route (ProposalRoute content) with
        | None => CheckMsgSubmitProposal ctx msg s
        | Some h => hCheckMsgSubmitProposal h ctx msg s
        end);;
  proposal ← SubmitProposal ctx content;
  AddDeposit ctx (ProposalID proposal) (Proposer msg) (InitialDeposit msg).

Definition handleMsgDeposit (ctx : Context) (msg : MsgDeposit) : MG unit :=
  lift (hasOnlyDefaultBondDenom (mdAmount msg));;
  s ← get;
  throw_if (negb (is_ok (Common.HasSufficientCoins (mdDepositor msg)
                           (Bank.GetCoins (bank (world s)) (mdDepositor msg)) (mdAmount msg))))
    (CommonErr.ErrInsufficientCoins DefaultParamspace);;
  AddDeposit ctx (mdProposalID msg) (mdDepositor msg) (mdAmount msg).

Definition handleMsgVote (ctx : Context) (msg : MsgVote) : MG unit :=
  o ← gets (GetProposal (mvProposalID msg));
  proposal ← or_throw o GovErr.ErrUnknownProposal;
  AddVote ctx (mvProposalID msg) (mvVoter msg) (mvOption msg);;
  s ← get;
  '(status, distribute, tallyResults) ← lift (Tally proposal false s);
  let proposal := set_FinalTallyResult tallyResults proposal in
  if negb (status =? StatusVotingPeriod)%Z then
    proposal ← handleProposalAfterTally ctx proposal distribute status;
    RemoveFromActiveProposalQueue (ProposalID proposal) (VotingEndTime proposal);;
    let proposal := set_VotingEndTime (BlockTime ctx) proposal in
    DeleteVotes (ProposalID proposal);;
    SetProposal proposal
  else SetProposal proposal.

Definition NewHandler (ctx : Context) (msg : Msg C) : MG unit :=
  match msg with
  | MDeposit m => handleMsgDeposit ctx m
  | MSubmitProposal m => handleMsgSubmitProposal ctx m
  | MVote m => handleMsgVote ctx m
  | MOther => throw Coins.ErrUnknownRequest
  end.

(** ** The end blocker (endblocker.go) *)

Definition wait_one (ctx : Context) (proposal : Proposal C) : MG unit :=
  handler ← lift (or_panic (GetRoute (ProposalRoute (pContent proposal))));
  cached (handler ctx proposal);;
  mret tt.
Definition handleWaitingProposals (ctx : Context) : MG unit :=
  IterateWaitingProposalsQueue (uint64 (BlockHeight ctx)) (wait_one ctx).

Definition drop_one (proposal : Proposal C) : MG unit :=
  DeleteProposal (ProposalID proposal);;
  DistributeDeposits (ProposalID proposal).
Definition handleInActiveProposals (ctx : Context) : MG unit :=
  IterateInactiveProposalsQueue (BlockTime ctx) drop_one.

Definition tally_one (ctx : Context) (proposal : Proposal C) : MG unit :=
  s ← get;
  '(status, distribute, tallyResults) ← lift (Tally proposal true s);
  proposal ← handleProposalAfterTally ctx proposal distribute status;
  let proposal := set_FinalTallyResult tallyResults proposal in
  SetProposal proposal;;
  RemoveFromActiveProposalQueue (ProposalID proposal) (VotingEndTime proposal);;
  DeleteVotes (ProposalID proposal).
Definition handleActiveProposals (ctx : Context) : MG unit :=
  IterateActiveProposalsQueue (BlockTime ctx) (tally_one ctx).

Definition EndBlocker (ctx : Context) : MG unit :=
  handleWaitingProposals ctx;;
  handleInActiveProposals ctx;;
  handleActiveProposals ctx.

(** ** The registered invariant: whether it is broken (invariants.go) *)

Definition ModuleAccountInvariant (s : State) : outcome bool :=
  let expectedDeposits := foldl (λ t d, Coins.Add t (dAmount d)) [] (GetAllDeposits s) in
  eq ← or_panic (Coins.IsEqual (Bank.GetCoins (bank (world s)) (Bank.GetModuleAddress ModuleName)) expectedDeposits);
  Ok (negb eq).
End keeper.

(** ** Genesis (genesis.go) *)

Record GenesisState {C : Type} := MkGenesisState {
  StartingProposalID : Z;
  gDeposits : list Deposit;
  gVotes : list Vote;
  gProposals : list (Proposal C);
  WaitingProposals : gmap string Z;
  gDepositParams : DepositParams;
  gVotingParams : VotingParams;
  gTallyParams : TallyParams;
}.
Arguments GenesisState : clear implicits.

Section genesis.
Context `{DO : Dec.Ops} `{CO : Coins.Ops} `{BO : Bank.Ops} `{RT : GoRt}
  {W C : Type} `{CT : !Contents C} `{AP : !App W C}.

Abbreviation MG := (M (GovState W C)) (only parsing).

(** The module account always exists in the supply keeper. *)
Definition init_proposal (proposal : Proposal C) : MG unit :=
  (if (Status proposal =? StatusDepositPeriod)%Z
   then InsertInactiveProposalQueue (ProposalID proposal) (DepositEndTime proposal)
   else if (Status proposal =? StatusVotingPeriod)%Z
   then InsertActiveProposalQueue (ProposalID proposal) (VotingEndTime proposal)
   else mret tt);;
  SetProposal proposal.

Definition init_waiting (kv : string * Z) : MG unit :=
  proposalID ← lift (or_panic (ParseUint (fst kv)));
  InsertWaitingProposalQueue (snd kv) proposalID.

Definition InitGenesis (data : GenesisState C) : MG unit :=
  SetProposalID (StartingProposalID data);;
  modify (set_depositParams (gDepositParams data));;
  modify (set_votingParams (gVotingParams data));;
  modify (set_tallyParams (gTallyParams data));;
  moduleCoins ← gets (λ s, Bank.GetCoins (bank (world s)) (Bank.GetModuleAddress ModuleName));
  mapM_ SetDeposit (gDeposits data);;
  let totalDeposits := foldl (λ t d, Coins.Add t (dAmount d)) [] (gDeposits data) in
  mapM_ (λ vote, SetVote (vProposalID vote) vote) (gVotes data);;
  mapM_ init_proposal (gProposals data);;
  mapM_ init_waiting (map_to_list (WaitingProposals data));;
  if Coins.IsZero moduleCoins
  then modify (λ s, set_world (set_bank (Bank.SetModuleCoins ModuleName totalDeposits (bank (world s))) (world s)) s)
  else mret tt.

Definition ValidateGenesis (data : GenesisState C) : outcome unit :=
  let outside x := (Dec.IsNegative x || Dec.GT x Dec.OneDec)%bool in
  if outside (Threshold (gTallyParams data)) then Err Common.plain_error
  else if outside (Veto (gTallyParams data)) then Err Common.plain_error
  else if outside (Quorum (gTallyParams data)) then Err Common.plain_error
  else if outside (YesInVotePeriod (gTallyParams data)) then Err Common.plain_error
  else if negb (Coins.IsValid (MinDeposit (gDepositParams data))) then Err Common.plain_error
  else Ok tt.

(** Every waiting proposal is looked up, and the later height of an id wins. *)
Fixpoint export_waiting (keys : list (Z * Z)) (m : gmap string Z) (s : GovState W C) : outcome (gmap string Z) :=
  match keys with
  | [] => Ok m
  | (height, proposalID) :: keys =>
      _ ← or_panic (GetProposal proposalID s);
      export_waiting keys (<[fmt_d proposalID := height]> m) s
  end.

Definition ExportGenesis (s : GovState W C) : outcome (GenesisState C) :=
  startingProposalID ← or_panic (nextID s);
  let proposals := GetProposalsFiltered "" "" StatusNil 0 s in
  waitingProposals ← export_waiting (merge_sort queue_le (elements (waitingQueue s))) ∅ s;
  Ok (MkGenesisState _ startingProposalID (proposals ≫= λ p, GetDeposits (ProposalID p) s)
        (proposals ≫= λ p, GetVotes (ProposalID p) s) proposals waitingProposals
        (depositParams s) (votingParams s) (tallyParams s)).
End genesis.
End Gov.
