(* ===== verification/GovTally.v ===== *)
(** * The tally of the gov module

    What the staking keeper promises to the gov module ([StakingLaws]), and what the
    tally then computes: every vote is counted once, a delegator's for the validators
    it added shares to and a validator's for what its delegators did not vote
    themselves.  On top of that, a proposal that is decided before the end of its
    voting period is decided the same way at the end, as long as the votes that come
    later do not take shares away from validators that have voted. *)

From S2P Require Import Prelude Runs SdkDec SdkCoins GoStd CoinFacts CommonErrors Common GovErrors Token Gov.

#[local] Open Scope Z_scope.

Module GovTally.
Import Gov.

(** ** The interface of the staking keeper *)

Section staking.
Context `{BO : Bank.Ops} {W C : Type} `{AP : !App W C}.

Definition operators (w : W) : list AccAddress := GetOperator <$> BondedValidators w.

(** The shares that an account added to a validator. *)
Definition share_of (w : W) (a v : AccAddress) : Z :=
  match Delegator w a with
  | Some d => if decide (v ∈ GetShareAddedValidatorAddresses d) then GetLastAddedShares d else 0
  | None => 0
  end.

(** In a state of the application that is in order, the bonded validators are
    distinct, no shares are negative, a delegator added shares to a validator once,
    and the shares of a validator include those of all its delegators
    (DelegatorAddSharesInvariant of x/staking). *)
Class StakingLaws (Inv : W → Prop) : Prop := {
  validators_distinct w : Inv w → NoDup (operators w);
  shares_nonneg w v : Inv w → v ∈ BondedValidators w → 0 ≤ GetDelegatorShares v;
  delegator_ok w a d : Inv w → Delegator w a = Some d →
    0 ≤ GetLastAddedShares d ∧ NoDup (GetShareAddedValidatorAddresses d);
  shares_include w v l : Inv w → v ∈ BondedValidators w → NoDup l →
    zsum ((λ a, share_of w a (GetOperator v)) <$> l) ≤ GetDelegatorShares v;
}.
End staking.

(** ** What the tally counts *)

Section spec.
Context `{DO : Dec.Ops} `{DL : !Dec.Laws} `{BO : Bank.Ops} {W C : Type} `{AP : !App W C}.
Implicit Types (w : W) (l : list Vote).

(** The votes of accounts that do not operate a bonded validator. *)
Definition delegator_votes w l : list Vote := filter (λ x, Voter x ∉ operators w) l.

(** The power of such a vote: the shares, once for each bonded validator. *)
Definition delegated w (a : AccAddress) : Z :=
  match Delegator w a with
  | Some d => zsum ((λ v, if decide (v ∈ operators w) then GetLastAddedShares d else 0)
                      <$> GetShareAddedValidatorAddresses d)
  | None => 0
  end.

(** What the delegators of a validator voted themselves. *)
Definition deducted w l (v : AccAddress) : Z :=
  zsum ((λ x, share_of w (Voter x) v) <$> delegator_votes w l).

Definition vote_of l (a : AccAddress) : Z :=
  foldl (λ r x, if decide (Voter x = a) then Option x else r) OptionEmpty l.

Definition by_delegators w l (o : Z) : Z :=
  zsum ((λ x, if decide (Option x = o) then delegated w (Voter x) else 0) <$> delegator_votes w l).

Definition by_validators w l (o : Z) : Z :=
  zsum ((λ v, if decide (vote_of l (GetOperator v) = o)
              then GetDelegatorShares v - deducted w l (GetOperator v) else 0) <$> BondedValidators w).

(** The power of an option. *)
Definition counted w l (o : Z) : Z := by_delegators w l o + by_validators w l o.

Definition total_power w : Z := zsum (GetDelegatorShares <$> BondedValidators w).

Definition valid_option (o : Z) : Prop :=
  o = OptionYes ∨ o = OptionAbstain ∨ o = OptionNo ∨ o = OptionNoWithVeto.

Lemma ValidVoteOption_spec o : ValidVoteOption o = true ↔ valid_option o.
Proof. unfold ValidVoteOption, valid_option. rewrite !orb_true_iff, !Z.eqb_eq. tauto. Qed.

Lemma delegator_votes_snoc w l x :
  delegator_votes w (l ++ [x]) = delegator_votes w l ++ if decide (Voter x ∉ operators w) then [x] else [].
Proof. unfold delegator_votes. rewrite filter_app, filter_cons, filter_nil. by case_decide. Qed.

Lemma vote_of_snoc l x a : vote_of (l ++ [x]) a = if decide (Voter x = a) then Option x else vote_of l a.
Proof. unfold vote_of. by rewrite foldl_app. Qed.

Lemma vote_of_valid l a : Forall (λ x, valid_option (Option x)) l →
  vote_of l a = OptionEmpty ∨ valid_option (vote_of l a).
Proof.
  induction l as [|x l IH] using rev_ind; [by left|]. intros [Hl Hx]%Forall_app. apply Forall_cons in Hx as [Hx _].
  rewrite vote_of_snoc. case_decide; [by right|by apply IH].
Qed.

(** ** The loops *)

(** The power that the shares [x] give for the validators [vals]. *)
Definition power_for (t : gmap AccAddress validatorGovInfo) (vals : list AccAddress) (x : Z) : Z :=
  zsum ((λ v, if decide (is_Some (t !! v)) then x else 0) <$> vals).

Definition deductions (t : gmap AccAddress validatorGovInfo) : Z := msum DelegatorDeductions t.

Lemma power_for_insert t vals x v info : is_Some (t !! v) →
  power_for (<[v := info]> t) vals x = power_for t vals x.
Proof.
  intros Hv. unfold power_for. f_equal. apply list_fmap_ext. intros i a _. rewrite lookup_insert.
  destruct (decide (v = a)) as [->|]; [by rewrite !decide_True by eauto|done].
Qed.

Lemma tally_shares_ok vals x o t : NoDup vals → is_Some (results t !! o) →
  ∃ t', tally_shares vals x o t = Ok t' ∧
    (∀ a, currValidators t' !! a =
      (λ i, if decide (a ∈ vals) then set_DelegatorDeductions (DelegatorDeductions i + x) i else i)
        <$> currValidators t !! a) ∧
    (∀ o', results t' !! o' = (λ r, if decide (o' = o) then r + power_for (currValidators t) vals x else r)
        <$> results t !! o') ∧
    votedPower t' = votedPower t + power_for (currValidators t) vals x ∧
    deductions (currValidators t') = deductions (currValidators t) + power_for (currValidators t) vals x.
Proof.
  revert t. induction vals as [|v vals IH]; intros t Hnd Ho; cbn [tally_shares].
  - exists t. split; [done|]. unfold power_for. cbn. split; [|split; [|lia]].
    + intros a. by destruct (_ !! a).
    + intros o'. destruct (_ !! o'); cbn; [|done]. case_decide; f_equal; lia.
  - apply NoDup_cons in Hnd as [Hv Hnd].
    assert (∀ m, power_for m (v :: vals) x = (if decide (is_Some (m !! v)) then x else 0) + power_for m vals x) as Hp
      by done. rewrite Hp.
    destruct (currValidators t !! v) as [info|] eqn:Ev.
    + rewrite decide_True by eauto. destruct Ho as [r Hr]. unfold add_result. rewrite Hr. cbn [or_panic mbind outcome_bind].
      dec_simp. set (i' := set_DelegatorDeductions _ _).
      destruct (IH (MkTally (<[v := i']> (currValidators t)) (votedPower t + x) (<[o := r + x]> (results t))))
        as (t' & E & H1 & H2 & H3 & H4); [done|cbn; rewrite lookup_insert_eq; eauto|].
      exists t'. split; [done|]. cbn [currValidators results votedPower] in *.
      rewrite power_for_insert in H2, H3, H4 by eauto. split; [|split; [|split]].
      * intros a. rewrite H1, lookup_insert. destruct (decide (v = a)) as [<-|].
        -- rewrite Ev. cbn. rewrite decide_False by done. by rewrite decide_True by set_solver.
        -- destruct (_ !! a); cbn; [|done]. f_equal. apply decide_ext. set_solver.
      * intros o'. rewrite H2, lookup_insert. destruct (decide (o = o')) as [<-|];
          [|destruct (_ !! o'); cbn; [by rewrite !decide_False by congruence|done]]. rewrite Hr. cbn.
        rewrite !decide_True by done. f_equal. lia.
      * lia.
      * rewrite H4. unfold deductions. rewrite msum_insert, Ev. cbn. lia.
    + rewrite decide_False by (intros [? ?]; congruence). destruct (IH t Hnd Ho) as (t' & E & H1 & H2 & H3 & H4).
      exists t'. split; [done|]. split; [|done]. intros a. rewrite H1. destruct (decide (a = v)) as [->|Ha].
      * by rewrite Ev.
      * destruct (_ !! a); cbn; [|done]. f_equal. apply decide_ext. set_solver.
Qed.

(** The state of the tally after the votes [l]. *)
Record counting w l (t : tally_state) : Prop := {
  ct_val a i : currValidators t !! a = Some i → ∃ v, v ∈ BondedValidators w ∧ GetOperator v = a ∧
    DelegatorShares i = GetDelegatorShares v ∧ DelegatorDeductions i = deducted w l a ∧ giVote i = vote_of l a;
  ct_dom a : is_Some (currValidators t !! a) ↔ a ∈ operators w;
  ct_res o : valid_option o → results t !! o = Some (by_delegators w l o);
  ct_voted : votedPower t = zsum ((λ x, delegated w (Voter x)) <$> delegator_votes w l);
  ct_ded : deductions (currValidators t) = votedPower t;
}.

Lemma curr_validators_spec (l : list ValidatorI) a :
  (∀ i, curr_validators l !! a = Some i → ∃ v, v ∈ l ∧ GetOperator v = a ∧
    i = MkValidatorGovInfo a (GetBondedTokens v) (GetDelegatorShares v) Dec.ZeroDec OptionEmpty) ∧
  (is_Some (curr_validators l !! a) ↔ a ∈ GetOperator <$> l).
Proof.
  induction l as [|v l [IH1 IH2]] using rev_ind.
  - split; [done|]. unfold curr_validators. cbn. rewrite lookup_empty. split; [by intros []|by intros ?%not_elem_of_nil].
  - unfold curr_validators in *. rewrite foldl_app. cbn [foldl]. rewrite fmap_app, elem_of_app.
    change (GetOperator <$> [v]) with [GetOperator v]. rewrite list_elem_of_singleton.
    rewrite lookup_insert. destruct (decide (GetOperator v = a)) as [<-|Hne]; split.
    + intros i [= <-]. exists v. split; [set_solver|done].
    + split; [by right|by eauto].
    + intros i Hi. destruct (IH1 i Hi) as (v' & ? & ?). exists v'. split; [set_solver|done].
    + rewrite IH2. split; [by left|]. by intros [|Heq].
Qed.

Lemma counting_start w :
  counting w [] (MkTally (curr_validators (BondedValidators w)) Dec.ZeroDec no_results).
Proof.
  split; cbn [currValidators results votedPower].
  - intros a i Hi. destruct (curr_validators_spec (BondedValidators w) a) as [H _].
    destruct (H i Hi) as (v & Hv & Ho & ->). exists v. cbn. dec_simp. done.
  - intros a. apply curr_validators_spec.
  - intros o [-> | [-> | [-> | ->]]]; unfold no_results, by_delegators; dec_simp; done.
  - dec_simp. done.
  - dec_simp. unfold deductions. rewrite (msum_ext _ (λ _, 0)).
    + unfold msum. induction (map_to_list _) as [|x m IH]; [done|]. rewrite fmap_cons, zsum_cons, IH. done.
    + intros a i Hi. destruct (curr_validators_spec (BondedValidators w) a) as [H _].
      destruct (H i Hi) as (v & _ & _ & ->). cbn. by dec_simp.
Qed.

(** A vote of a validator is recorded. *)
Lemma counting_validator w l x t i : counting w l t → currValidators t !! Voter x = Some i →
  counting w (l ++ [x])
    (MkTally (<[Voter x := set_giVote (Option x) i]> (currValidators t)) (votedPower t) (results t)).
Proof.
  intros [H1 H2 H3 H4 H5] Hi. assert (Voter x ∈ operators w) as Hop by (apply H2; eauto).
  assert (delegator_votes w (l ++ [x]) = delegator_votes w l) as Hd.
  { rewrite delegator_votes_snoc, decide_False by (by intros ?). by rewrite app_nil_r. }
  split; cbn [currValidators results votedPower]; unfold deducted, by_delegators; rewrite ?Hd.
  - intros a j. rewrite lookup_insert, vote_of_snoc. destruct (decide (Voter x = a)) as [<-|].
    + intros [= <-]. destruct (H1 _ _ Hi) as (v & ? & ? & ? & ? & ?). by exists v.
    + apply H1.
  - intros a. rewrite lookup_insert. destruct (decide (Voter x = a)) as [<-|]; [|apply H2]. split; [done|eauto].
  - apply H3.
  - apply H4.
  - unfold deductions in *. rewrite msum_insert, Hi. cbn. lia.
Qed.

Lemma zsum_snoc_if {A} (f : A → Z) (k : list A) (x : A) (P : Prop) `{Decision P} :
  zsum (f <$> k ++ if decide P then [x] else []) = zsum (f <$> k) + if decide P then f x else 0.
Proof. rewrite fmap_app, zsum_app. case_decide; cbn; lia. Qed.

(** A vote of a delegator is counted with the shares it added. *)
Lemma counting_delegator w l x t : counting w l t → currValidators t !! Voter x = None →
  valid_option (Option x) →
  (∀ d, Delegator w (Voter x) = Some d → NoDup (GetShareAddedValidatorAddresses d)) →
  ∃ t', (match Delegator w (Voter x) with
         | None => Ok t
         | Some d => tally_shares (GetShareAddedValidatorAddresses d) (GetLastAddedShares d) (Option x) t
         end) = Ok t' ∧ counting w (l ++ [x]) t'.
Proof.
  intros [H1 H2 H3 H4 H5] Hn Ho Hd.
  assert (Voter x ∉ operators w) as Hop by (rewrite <-H2, Hn; by intros []).
  assert (∀ a, deducted w (l ++ [x]) a = deducted w l a + share_of w (Voter x) a) as Ed.
  { intros a. unfold deducted. by rewrite delegator_votes_snoc, zsum_snoc_if, decide_True. }
  assert (∀ o, by_delegators w (l ++ [x]) o =
    by_delegators w l o + if decide (Option x = o) then delegated w (Voter x) else 0) as Eb.
  { intros o. unfold by_delegators. by rewrite delegator_votes_snoc, zsum_snoc_if, decide_True. }
  assert (zsum ((λ x, delegated w (Voter x)) <$> delegator_votes w (l ++ [x])) =
    votedPower t + delegated w (Voter x)) as Ev by (by rewrite delegator_votes_snoc, zsum_snoc_if, decide_True, H4).
  assert (∀ a, is_Some (currValidators t !! a) → vote_of (l ++ [x]) a = vote_of l a) as Evo.
  { intros a Ha%H2. rewrite vote_of_snoc. by rewrite decide_False by (by intros <-). }
  destruct (Delegator w (Voter x)) as [d|] eqn:E.
  - destruct (tally_shares_ok (GetShareAddedValidatorAddresses d) (GetLastAddedShares d) (Option x) t)
      as (t' & Et & G1 & G2 & G3 & G4); [by apply Hd|rewrite H3 by done; eauto|].
    assert (power_for (currValidators t) (GetShareAddedValidatorAddresses d) (GetLastAddedShares d) =
      delegated w (Voter x)) as Ep.
    { unfold power_for, delegated. rewrite E. f_equal. apply list_fmap_ext. intros i a _.
      by apply decide_ext, H2. }
    rewrite Ep in *. exists t'. split; [done|]. split.
    + intros a j. rewrite G1. destruct (currValidators t !! a) as [i|] eqn:Ea; [|done]. intros [= <-].
      destruct (H1 _ _ Ea) as (v & Hv & Hvo & Hs & Hde & Hg). exists v. split; [done|]. split; [done|].
      rewrite Ed, Evo by eauto. unfold share_of. rewrite E. destruct (decide (a ∈ _)); cbn; rewrite ?Hde; split_and!; [done|lia|done|done|lia|done].
    + intros a. rewrite G1, fmap_is_Some. apply H2.
    + intros o Hvo. rewrite G2, H3, Eb by done. cbn. f_equal.
      destruct (decide (o = Option x)) as [->|]; [by rewrite decide_True|rewrite decide_False by congruence; lia].
    + by rewrite G3, Ev.
    + by rewrite G4, H5, G3.
  - assert (delegated w (Voter x) = 0) as E0 by (unfold delegated; by rewrite E).
    exists t. split; [done|]. split.
    + intros a i Ha. destruct (H1 _ _ Ha) as (v & ? & ? & ? & Hde & ?). exists v. rewrite Ed, Evo by eauto.
      unfold share_of. rewrite E, Hde. split_and!; [done..|lia|done].
    + apply H2.
    + intros o Hvo. rewrite Eb, E0, H3 by done. f_equal. case_decide; lia.
    + lia.
    + done.
Qed.

Lemma tally_votes_ok (s : GovState W C) l l' t : counting (world s) l t →
  Forall (λ x, valid_option (Option x)) l' →
  (∀ a d, Delegator (world s) a = Some d → NoDup (GetShareAddedValidatorAddresses d)) →
  ∃ t', tally_votes l' s t = Ok t' ∧ counting (world s) (l ++ l') t'.
Proof.
  intros Ht Hl Hd. revert l t Ht. induction Hl as [|x l' Hx _ IH]; intros l t Ht; cbn [tally_votes].
  - exists t. by rewrite app_nil_r.
  - rewrite (cons_middle x l l'), app_assoc. destruct (currValidators t !! Voter x) as [i|] eqn:E.
    + by apply IH, counting_validator.
    + destruct (counting_delegator _ _ x t Ht E Hx) as (t' & Et & Ht'); [by eauto|].
      destruct (Delegator (world s) (Voter x)) as [d|]; [|injection Et as <-; by apply IH].
      rewrite Et. cbn [mbind outcome_bind]. by apply IH.
Qed.

(** What a validator votes with itself. *)
Definition own_power (i : validatorGovInfo) : Z := DelegatorShares i - DelegatorDeductions i.
Definition own_for (o : Z) (i : validatorGovInfo) : Z := if decide (giVote i = o) then own_power i else 0.
Definition own_voted (i : validatorGovInfo) : Z := if decide (giVote i = OptionEmpty) then 0 else own_power i.

Lemma tally_validators_ok keys (m : gmap AccAddress validatorGovInfo) vp tp tv res :
  (∀ k i, m !! k = Some i → giVote i = OptionEmpty ∨ valid_option (giVote i)) →
  (∀ o, valid_option o → is_Some (res !! o)) →
  ∃ res', tally_validators keys m None vp tp tv res =
    Ok (vp, tp + zsum ((λ k, from_option DelegatorShares 0 (m !! k)) <$> keys),
        tv + zsum ((λ k, from_option own_voted 0 (m !! k)) <$> keys), res') ∧
    ∀ o, valid_option o → res' !! o =
      (λ r, r + zsum ((λ k, from_option (own_for o) 0 (m !! k)) <$> keys)) <$> res !! o.
Proof.
  intros Hv. revert tp tv res. induction keys as [|k keys IH]; intros tp tv res Hres; cbn [tally_validators].
  - exists res. split; [by rewrite !Z.add_0_r|]. intros o Ho. destruct (Hres o Ho) as [r ->]. cbn. by rewrite Z.add_0_r.
  - destruct (m !! k) as [i|] eqn:Ek.
    2:{ destruct (IH tp tv res Hres) as (res' & -> & H'). exists res'. split; [by rewrite !fmap_cons, !zsum_cons, Ek|].
        intros o Ho. rewrite H' by done. destruct (res !! o); [|done]. cbn [fmap option_fmap option_map].
        by rewrite fmap_cons, zsum_cons, Ek. }
    dec_simp. destruct (Z.eqb_spec (giVote i) OptionEmpty) as [E|E].
    + destruct (IH (tp + DelegatorShares i) tv res Hres) as (res' & -> & H'). exists res'. split.
      * rewrite !fmap_cons, !zsum_cons, Ek. cbn [from_option]. unfold own_voted at 2. rewrite decide_True by done.
        do 3 f_equal; try lia; f_equal; lia.
      * intros o Ho. rewrite H' by done. destruct (res !! o); [|done]. cbn [fmap option_fmap option_map].
        rewrite fmap_cons, zsum_cons, Ek. cbn [from_option]. f_equal. unfold own_for at 2.
        rewrite decide_False; [lia|]. intros Eo. rewrite <-Eo, E in Ho. by destruct Ho as [ | [ | [ | ]]].
    + destruct (Hv k i Ek) as [|Hg]; [done|]. destruct (Hres _ Hg) as [r Hr]. unfold add_result. rewrite Hr.
      cbn [or_panic mbind outcome_bind]. dec_simp. fold (own_power i).
      destruct (IH (tp + DelegatorShares i) (tv + own_power i) (<[giVote i := r + own_power i]> res)) as (res' & -> & H').
      { intros o Ho. rewrite lookup_insert. case_decide; [by eauto|by apply Hres]. }
      exists res'. split.
      * rewrite !fmap_cons, !zsum_cons, Ek. cbn [from_option]. unfold own_voted at 2. rewrite decide_False by done.
        do 3 f_equal; try lia; f_equal; lia.
      * intros o Ho. rewrite H', lookup_insert by done. destruct (decide (giVote i = o)) as [<-|Hne].
        -- rewrite Hr. cbn [fmap option_fmap option_map]. rewrite fmap_cons, zsum_cons, Ek. cbn [from_option].
           unfold own_for at 2. rewrite decide_True by done. f_equal. lia.
        -- destruct (res !! o); [|done]. cbn [fmap option_fmap option_map]. rewrite fmap_cons, zsum_cons, Ek.
           cbn [from_option]. unfold own_for at 2. rewrite decide_False by done. f_equal.
Qed.
End spec.

(** ** The result *)

(** The options add up to the power that has voted, which is part of the whole. *)
Record tally_wf (r : TallyResult) : Prop := {
  tw_yes : 0 ≤ Yes r;
  tw_abstain : 0 ≤ Abstain r;
  tw_no : 0 ≤ No r;
  tw_veto : 0 ≤ NoWithVeto r;
  tw_sum : TotalVotedPower r = Yes r + Abstain r + No r + NoWithVeto r;
  tw_total : TotalVotedPower r ≤ TotalPower r;
}.

Lemma distinct_inj {A B} (f : A → B) (l : list A) x y : NoDup (f <$> l) → x ∈ l → y ∈ l → f x = f y → x = y.
Proof.
  intros Hnd [i Hi]%list_elem_of_lookup [j Hj]%list_elem_of_lookup E.
  assert (i = j) as ->; [|congruence].
  eapply NoDup_lookup; [exact Hnd|by rewrite list_lookup_fmap, Hi|by rewrite list_lookup_fmap, Hj, E].
Qed.

Section sound.
Context `{DO : Dec.Ops} `{DL : !Dec.Laws} `{CO : !Coins.Ops} `{BO : !Bank.Ops} `{RT : GoRt} `{RL : !GoRtLaws}
  {W C : Type} `{AP : !App W C} (Inv : W → Prop) `{SL : !StakingLaws Inv}.
Implicit Types (w : W) (l : list Vote) (s : GovState W C).

Lemma keys_perm w l t : Inv w → counting w l t → elements (dom (currValidators t)) ≡ₚ operators w.
Proof.
  intros Hw Ht. apply NoDup_Permutation; [apply NoDup_elements|by eapply validators_distinct|].
  intros a. rewrite elem_of_elements, elem_of_dom. apply Ht.
Qed.

(** Sums over the validators of the tally are sums over the bonded validators. *)
Lemma zsum_keys w l t keys (g : validatorGovInfo → Z) (h : ValidatorI → Z) : Inv w → counting w l t →
  keys ≡ₚ operators w →
  (∀ v i, v ∈ BondedValidators w → DelegatorShares i = GetDelegatorShares v →
    DelegatorDeductions i = deducted w l (GetOperator v) → giVote i = vote_of l (GetOperator v) → g i = h v) →
  zsum ((λ k, from_option g 0 (currValidators t !! k)) <$> keys) = zsum (h <$> BondedValidators w).
Proof.
  intros Hw Ht Hk Hg. rewrite (zsum_perm _ _ (fmap_Permutation _ _ _ Hk)). unfold operators.
  rewrite <-list_fmap_compose. f_equal. apply list_fmap_ext. intros j v Hv%list_elem_of_lookup_2. cbn.
  destruct (proj2 (ct_dom _ _ _ Ht (GetOperator v))) as [i Hi]; [by apply list_elem_of_fmap_2|].
  rewrite Hi. cbn. destruct (ct_val _ _ _ Ht _ _ Hi) as (v' & Hv' & Ho & Hs & Hd & Hvo).
  assert (v' = v) as -> by (eapply (distinct_inj GetOperator); [by eapply (validators_distinct w)|done..]).
  by apply Hg.
Qed.

Definition own_votes w l : Z :=
  zsum ((λ v, if decide (vote_of l (GetOperator v) = OptionEmpty) then 0
              else GetDelegatorShares v - deducted w l (GetOperator v)) <$> BondedValidators w).
Definition delegated_votes w l : Z := zsum ((λ x, delegated w (Voter x)) <$> delegator_votes w l).

Lemma deducted_sum w l t : Inv w → counting w l t →
  zsum ((λ v, deducted w l (GetOperator v)) <$> BondedValidators w) = delegated_votes w l.
Proof.
  intros Hw Ht. unfold delegated_votes. rewrite <-(ct_voted _ _ _ Ht), <-(ct_ded _ _ _ Ht). unfold deductions.
  rewrite (msum_keys _ _ _ (reflexivity _)). symmetry. eapply zsum_keys; [done|done|by eapply keys_perm|done].
Qed.

Lemma preTally_ok (p : Proposal C) s : Inv (world s) →
  Forall (λ x, valid_option (Option x)) (GetVotes (ProposalID p) s) →
  ∃ res rate t, preTally p None s = Ok (res, delegated_votes (world s) (GetVotes (ProposalID p) s)
      + own_votes (world s) (GetVotes (ProposalID p) s), rate) ∧
    (∀ o, valid_option o → res !! o = Some (counted (world s) (GetVotes (ProposalID p) s) o)) ∧
    counting (world s) (GetVotes (ProposalID p) s) t.
Proof.
  intros Hw Hl. set (l := GetVotes (ProposalID p) s) in *. unfold preTally, tallyDelegatorVotes. fold l.
  rewrite app_nil_r. destruct (tally_votes_ok s [] l _ (counting_start (world s)) Hl) as (t & -> & Ht).
  { intros a d Hd. by eapply (delegator_ok (world s)). }
  cbn [mbind outcome_bind app] in *. unfold tallyValidatorVotes.
  destruct (tally_validators_ok (map_range (elements (dom (currValidators t)))) (currValidators t)
    Dec.ZeroDec Dec.ZeroDec (votedPower t) (results t)) as (res & -> & Hres).
  { intros k i Hi. destruct (ct_val _ _ _ Ht _ _ Hi) as (v & _ & _ & _ & _ & ->). by apply vote_of_valid. }
  { intros o Ho. rewrite (ct_res _ _ _ Ht) by done. eauto. }
  assert (map_range (elements (dom (currValidators t))) ≡ₚ operators (world s)) as Hk
    by (rewrite map_range_perm; by eapply keys_perm).
  set (total := Dec.ZeroDec + _). cbn [mbind outcome_bind].
  assert (∃ rate, (if Dec.GT total Dec.ZeroDec then or_panic (Dec.Quo Dec.ZeroDec total) else Ok Dec.ZeroDec) = Ok rate)
    as (rate & ->).
  { dec_simp. destruct (Z.ltb_spec 0 total); [|by eauto]. destruct (Dec.Quo_spec 0 total) as (q & -> & _); [lia|by eauto]. }
  cbn [mbind outcome_bind]. exists res, rate, t. split; [|split; [|done]].
  - do 3 f_equal. rewrite (ct_voted _ _ _ Ht). unfold delegated_votes, own_votes. f_equal.
    eapply zsum_keys; [done|done|done|]. intros v i _ Hs Hd Hv. unfold own_voted, own_power. by rewrite Hs, Hd, Hv.
  - intros o Ho. rewrite Hres, (ct_res _ _ _ Ht) by done. cbn. f_equal. unfold counted, by_validators. f_equal.
    eapply zsum_keys; [done|done|done|]. intros v i _ Hs Hd Hv. unfold own_for, own_power. by rewrite Hs, Hd, Hv.
Qed.

(** Summing a choice over the four options. *)
Lemma four_options (y z : Z) : y = OptionEmpty ∨ valid_option y →
  (if decide (y = OptionYes) then z else 0) + (if decide (y = OptionAbstain) then z else 0)
  + (if decide (y = OptionNo) then z else 0) + (if decide (y = OptionNoWithVeto) then z else 0)
  = if decide (y = OptionEmpty) then 0 else z.
Proof.
  unfold valid_option, OptionEmpty, OptionYes, OptionAbstain, OptionNo, OptionNoWithVeto. intros H.
  repeat case_decide; lia.
Qed.

Lemma zsum_four {A} (f g h k r : A → Z) (l : list A) : (∀ x, x ∈ l → f x + g x + h x + k x = r x) →
  zsum (f <$> l) + zsum (g <$> l) + zsum (h <$> l) + zsum (k <$> l) = zsum (r <$> l).
Proof.
  induction l as [|x l IH]; intros H; [done|]. rewrite !fmap_cons, !zsum_cons.
  pose proof (H x ltac:(set_solver)). specialize (IH ltac:(set_solver)). lia.
Qed.

Lemma counted_sum w l : Forall (λ x, valid_option (Option x)) l →
  counted w l OptionYes + counted w l OptionAbstain + counted w l OptionNo + counted w l OptionNoWithVeto =
  delegated_votes w l + own_votes w l.
Proof.
  intros Hl. unfold counted.
  assert (by_delegators w l OptionYes + by_delegators w l OptionAbstain + by_delegators w l OptionNo
    + by_delegators w l OptionNoWithVeto = delegated_votes w l) as E1.
  { apply zsum_four. intros x Hx. rewrite four_options.
    - rewrite decide_False; [done|]. intros E. apply list_elem_of_filter in Hx as [_ Hx].
      pose proof (proj1 (Forall_forall _ _) Hl x Hx) as Hv. cbn in Hv. rewrite E in Hv.
      by destruct Hv as [ | [ | [ | ]]].
    - right. apply list_elem_of_filter in Hx as [_ Hx]. by apply (proj1 (Forall_forall _ _) Hl x Hx). }
  assert (by_validators w l OptionYes + by_validators w l OptionAbstain + by_validators w l OptionNo
    + by_validators w l OptionNoWithVeto = own_votes w l) as E2.
  { apply zsum_four. intros v _. by apply four_options, vote_of_valid. }
  lia.
Qed.

Lemma share_nonneg w a v : Inv w → 0 ≤ share_of w a v.
Proof.
  intros Hw. unfold share_of. destruct (Delegator w a) as [d|] eqn:E; [|done].
  destruct (delegator_ok w a d Hw E). case_decide; lia.
Qed.

Lemma deducted_bounds w l v : Inv w → NoDup (Voter <$> l) → v ∈ BondedValidators w →
  0 ≤ deducted w l (GetOperator v) ≤ GetDelegatorShares v.
Proof.
  intros Hw Hnd Hv. unfold deducted. split.
  - apply zsum_nonneg, Forall_fmap, Forall_forall. intros x _. by apply share_nonneg.
  - change (λ x, share_of w (Voter x) (GetOperator v)) with ((λ a, share_of w a (GetOperator v)) ∘ Voter).
    rewrite list_fmap_compose. apply (shares_include w v); [done|done|].
    eapply sublist_NoDup; [exact Hnd|]. apply fmap_sublist, sublist_filter.
Qed.

Lemma delegated_nonneg w a : Inv w → 0 ≤ delegated w a.
Proof.
  intros Hw. unfold delegated. destruct (Delegator w a) as [d|] eqn:E; [|done].
  destruct (delegator_ok w a d Hw E). apply zsum_nonneg, Forall_fmap, Forall_forall. intros v _. cbn. case_decide; lia.
Qed.

Lemma counted_nonneg w l o : Inv w → NoDup (Voter <$> l) → 0 ≤ counted w l o.
Proof.
  intros Hw Hnd. unfold counted, by_delegators, by_validators.
  pose proof (λ a, delegated_nonneg w a Hw) as Hd.
  apply Z.add_nonneg_nonneg; apply zsum_nonneg, Forall_fmap, Forall_forall.
  - intros x _. cbn. case_decide; [apply Hd|lia].
  - intros v Hv. cbn. pose proof (deducted_bounds w l v Hw Hnd Hv). case_decide; lia.
Qed.

(** Delegators who vote take their shares off their validators, so no share is counted twice. *)
Lemma voted_le w l t : Inv w → NoDup (Voter <$> l) → counting w l t →
  delegated_votes w l + own_votes w l ≤ total_power w.
Proof.
  intros Hw Hnd Ht. rewrite <-(deducted_sum w l t) by done. unfold own_votes, total_power.
  assert (∀ k, (∀ v, v ∈ k → v ∈ BondedValidators w) →
    zsum ((λ v, deducted w l (GetOperator v)) <$> k) + zsum ((λ v, if decide (vote_of l (GetOperator v) = OptionEmpty)
      then 0 else GetDelegatorShares v - deducted w l (GetOperator v)) <$> k) ≤ zsum (GetDelegatorShares <$> k)) as H.
  { induction k as [|v k IH]; intros Hk; [done|]. rewrite !fmap_cons, !zsum_cons.
    pose proof (deducted_bounds w l v Hw Hnd ltac:(set_solver)). specialize (IH ltac:(set_solver)).
    destruct (decide (vote_of l (GetOperator v) = OptionEmpty)); lia. }
  by apply H.
Qed.

Lemma totalPower_sum s : totalPower s = total_power (world s).
Proof.
  unfold totalPower, total_power. assert (∀ k z, foldl (λ t v, Dec.Add t (GetDelegatorShares v)) z k =
    z + zsum (GetDelegatorShares <$> k)) as H.
  { induction k as [|v k IH]; intros z; cbn [foldl]; [cbn; lia|]. rewrite IH, fmap_cons, zsum_cons. dec_simp. lia. }
  rewrite H. by dec_simp.
Qed.

Lemma status_in_ok tp r : tally_wf r → ∃ st b, tallyStatusInVotePeriod tp r = Ok (st, b) ∧
  (st = StatusPassed ∨ st = StatusRejected ∨ st = StatusVotingPeriod).
Proof.
  intros Hr. unfold tallyStatusInVotePeriod. dec_simp. destruct (Z.eqb_spec (TotalPower r) 0); [by eauto 10|].
  destruct (Z.eqb_spec (TotalPower r - Abstain r) 0); [by eauto 10|].
  destruct (Dec.Quo_spec (NoWithVeto r) (TotalPower r)) as (q1 & -> & _); [done|]. cbn [or_panic mbind outcome_bind].
  case_match; [by eauto 10|]. destruct (Dec.Quo_spec (NoWithVeto r + No r) (TotalPower r - Abstain r)) as (q2 & -> & _); [done|].
  cbn [or_panic mbind outcome_bind]. case_match; [by eauto 10|].
  destruct (Dec.Quo_spec (Yes r) (TotalPower r)) as (q3 & -> & _); [done|]. cbn [or_panic mbind outcome_bind].
  case_match; by eauto 10.
Qed.

Lemma status_expire_ok tp r : tally_wf r → ∃ st b, tallyStatusExpireVotePeriod tp r = Ok (st, b) ∧
  (st = StatusPassed ∨ st = StatusRejected).
Proof.
  intros [? ? ? ? ? ?]. unfold tallyStatusExpireVotePeriod. dec_simp. destruct (Z.eqb_spec (TotalPower r) 0); [by eauto 10|].
  destruct (Dec.Quo_spec (TotalVotedPower r) (TotalPower r)) as (q1 & -> & _); [done|]. cbn [or_panic mbind outcome_bind].
  case_match; [by eauto 10|]. destruct (Z.eqb_spec (TotalVotedPower r - Abstain r) 0); [by eauto 10|].
  destruct (Dec.Quo_spec (NoWithVeto r) (TotalVotedPower r)) as (q2 & -> & _); [lia|].
  cbn [or_panic mbind outcome_bind]. case_match; [by eauto 10|].
  destruct (Dec.Quo_spec (Yes r) (TotalVotedPower r - Abstain r)) as (q3 & -> & _); [done|]. cbn [or_panic mbind outcome_bind].
  case_match; by eauto 10.
Qed.

(** The tally returns, and its result is what the votes count. *)
Lemma Tally_ok (p : Proposal C) e s (l := GetVotes (ProposalID p) s) : Inv (world s) →
  Forall (λ x, valid_option (Option x)) l → NoDup (Voter <$> l) →
  ∃ st b r, Tally p e s = Ok (st, b, r) ∧ tally_wf r ∧ TotalPower r = total_power (world s) ∧
    Yes r = counted (world s) l OptionYes ∧ Abstain r = counted (world s) l OptionAbstain ∧
    No r = counted (world s) l OptionNo ∧ NoWithVeto r = counted (world s) l OptionNoWithVeto ∧
    (st = StatusPassed ∨ st = StatusRejected ∨ (e = false ∧ st = StatusVotingPeriod)).
Proof.
  intros Hw Hl Hnd. unfold Tally. destruct (preTally_ok p s Hw Hl) as (res & rate & t & -> & Hres & Ht).
  fold l in Hres, Ht |- *. cbn [mbind outcome_bind]. rewrite totalPower_sum.
  set (r := set_powers _ _ _).
  assert (Yes r = counted (world s) l OptionYes) as H1 by (cbn; by rewrite Hres by (by left)).
  assert (Abstain r = counted (world s) l OptionAbstain) as H2 by (cbn; by rewrite Hres by (by right; left)).
  assert (No r = counted (world s) l OptionNo) as H3 by (cbn; by rewrite Hres by (by right; right; left)).
  assert (NoWithVeto r = counted (world s) l OptionNoWithVeto) as H4 by (cbn; by rewrite Hres by (by right; right; right)).
  assert (tally_wf r) as Hr.
  { pose proof (counted_sum (world s) l Hl). pose proof (voted_le (world s) l t Hw Hnd Ht).
    split; rewrite ?H1, ?H2, ?H3, ?H4; try (by apply counted_nonneg); cbn; lia. }
  destruct e.
  - destruct (status_expire_ok (tallyParams s) r Hr) as (st & b & -> & Hst). exists st, b, r. naive_solver.
  - destruct (status_in_ok (tallyParams s) r Hr) as (st & b & -> & Hst). exists st, b, r. naive_solver.
Qed.
End sound.

(** ** Early decisions *)

(** Every option has at least the power that it had. *)
Record grows (r r' : TallyResult) : Prop := {
  gr_total : TotalPower r' = TotalPower r;
  gr_yes : Yes r ≤ Yes r';
  gr_abstain : Abstain r ≤ Abstain r';
  gr_no : No r ≤ No r';
  gr_veto : NoWithVeto r ≤ NoWithVeto r';
}.

(** The parameters fit together, as the default ones do. *)
Record params_fit `{DO : Dec.Ops} (tp : TallyParams) : Prop := {
  pf_quorum : 0 ≤ Quorum tp ≤ YesInVotePeriod tp;
  pf_threshold : Threshold tp ≤ YesInVotePeriod tp ∧ Dec.unit ≤ 2 * Threshold tp;
  pf_veto : 0 ≤ Veto tp ∧ Dec.unit ≤ Veto tp + YesInVotePeriod tp;
}.

(** Go on after a quotient that was computed. *)
Ltac quo_step := cbn [or_panic mbind outcome_bind]; dec_simp.

Section early.
Context `{DO : Dec.Ops} `{DL : !Dec.Laws}.

Lemma quo_some a b : b ≠ 0 → ∃ q, Dec.Quo a b = Some q.
Proof. intros Hb. destruct (Dec.Quo_spec a b Hb) as (q & E & _). eauto. Qed.

Lemma quo_0 b q : b ≠ 0 → Dec.Quo 0 b = Some q → q = 0.
Proof. intros Hb E. destruct (Dec.Quo_spec 0 b Hb) as (q' & E' & H). rewrite E in E'. injection E' as <-. nia. Qed.

(** The three ways a proposal is decided early, one by one. *)
Variables (tp : TallyParams) (r r' : TallyResult).
Hypotheses (Hp : params_fit tp) (Hr : tally_wf r) (Hr' : tally_wf r') (Hg : grows r r').
Hypothesis Htotal : TotalPower r ≠ 0.

Lemma early_veto q : Dec.Quo (NoWithVeto r) (TotalPower r) = Some q → Veto tp < q →
  tallyStatusExpireVotePeriod tp r' = Ok (StatusRejected, true).
Proof.
  intros Eq Hq. destruct Hr, Hr', Hg, Hp. unfold tallyStatusExpireVotePeriod. dec_simp. rewrite gr_total0.
  destruct (Z.eqb_spec (TotalPower r) 0); [done|].
  destruct (quo_some (TotalVotedPower r') (TotalPower r)) as (q1 & ->); [done|]. quo_step.
  case_match; [done|]. destruct (Z.eqb_spec (TotalVotedPower r' - Abstain r') 0) as [E0|].
  - assert (NoWithVeto r = 0) as E by lia. rewrite E in Eq. apply quo_0 in Eq; lia.
  - destruct (quo_some (NoWithVeto r') (TotalVotedPower r')) as (q2 & E2); [lia|]. rewrite E2.
    quo_step.
    assert (q ≤ q2) by (eapply Quo_mono; [..|exact Eq|exact E2]; nia).
    destruct (Z.ltb_spec (Veto tp) q2); [done|lia].
Qed.

Lemma early_no q : TotalPower r - Abstain r ≠ 0 →
  Dec.Quo (NoWithVeto r + No r) (TotalPower r - Abstain r) = Some q → Threshold tp ≤ q →
  ∃ b, tallyStatusExpireVotePeriod tp r' = Ok (StatusRejected, b).
Proof.
  intros Ha Eq Hq. destruct Hr, Hr', Hg, Hp. unfold tallyStatusExpireVotePeriod. dec_simp. rewrite gr_total0.
  destruct (Z.eqb_spec (TotalPower r) 0); [done|].
  destruct (quo_some (TotalVotedPower r') (TotalPower r)) as (q1 & ->); [done|]. quo_step.
  case_match; [by eauto|]. destruct (Z.eqb_spec (TotalVotedPower r' - Abstain r') 0) as [E0|]; [by eauto|].
  destruct (quo_some (NoWithVeto r') (TotalVotedPower r')) as (q2 & E2); [lia|]. rewrite E2.
  quo_step. case_match; [by eauto|].
  set (D := TotalVotedPower r' - Abstain r') in *.
  destruct (quo_some (Yes r') D) as (q3 & E3); [done|]. rewrite E3. quo_step.
  destruct (quo_some (D - Yes r') D) as (q4 & E4); [done|].
  assert (q ≤ q4) by (eapply Quo_mono; [..|exact Eq|exact E4]; unfold D; nia).
  assert (q3 + q4 ≤ Dec.unit) by (eapply Quo_compl; [..|exact E3|exact E4]; unfold D; lia).
  destruct (Z.ltb_spec (Threshold tp) q3); [lia|by eauto].
Qed.

Lemma early_yes q : Dec.Quo (Yes r) (TotalPower r) = Some q → YesInVotePeriod tp < q →
  tallyStatusExpireVotePeriod tp r' = Ok (StatusPassed, false).
Proof.
  intros Eq Hq. destruct Hr, Hr', Hg, Hp. unfold tallyStatusExpireVotePeriod. dec_simp. rewrite gr_total0.
  set (T := TotalPower r) in *. set (V := TotalVotedPower r') in *. set (Y := Yes r') in *.
  destruct (Z.eqb_spec T 0); [done|].
  destruct (quo_some V T) as (q1 & E1); [done|]. rewrite E1. quo_step.
  assert (q ≤ q1) by (eapply Quo_mono; [..|exact Eq|exact E1]; nia).
  destruct (Z.ltb_spec q1 (Quorum tp)); [lia|].
  destruct (Z.eqb_spec (V - Abstain r') 0) as [E0|].
  { assert (Yes r = 0) as E by lia. rewrite E in Eq. apply quo_0 in Eq; lia. }
  destruct (quo_some (NoWithVeto r') V) as (q2 & E2); [lia|]. rewrite E2. quo_step.
  destruct (quo_some Y T) as (q3 & E3); [done|]. destruct (quo_some (T - Y) T) as (q4 & E4); [done|].
  assert (q ≤ q3) by (eapply Quo_mono; [..|exact Eq|exact E3]; nia).
  assert (q3 + q4 ≤ Dec.unit) by (eapply Quo_compl; [..|exact E3|exact E4]; lia).
  assert (q2 ≤ q4).
  { eapply Quo_mono; [..|exact E2|exact E4]; [lia|lia|lia|lia|].
    assert (0 ≤ Y * (T - Y - NoWithVeto r')) by nia. nia. }
  destruct (Z.ltb_spec (Veto tp) q2); [lia|].
  destruct (quo_some Y (V - Abstain r')) as (q5 & E5); [done|]. rewrite E5. quo_step.
  assert (q3 ≤ q5) by (eapply Quo_mono; [..|exact E3|exact E5]; nia).
  destruct (Z.ltb_spec (Threshold tp) q5); [done|lia].
Qed.
End early.

(** *** Votes that come later

    A delegator's vote takes its shares off what its validators voted for, so later
    votes add to every option only if they are votes of other validators' delegators
    or of validators. *)

Record late_votes `{BO : Bank.Ops} {W C} `{AP : !App W C} (w : W) (l l' : list Vote) : Prop := {
  lv_kept : l ⊆ l';
  lv_apart x y : x ∈ l' → x ∉ l → Voter x ∉ operators w → y ∈ l → Voter y ∈ operators w →
    share_of w (Voter x) (Voter y) = 0;
}.

Section late.
Context `{DO : Dec.Ops} `{DL : !Dec.Laws} `{CO : !Coins.Ops} `{BO : !Bank.Ops}
  {W C : Type} `{AP : !App W C} (Inv : W → Prop) `{SL : !StakingLaws Inv}.
Implicit Types (w : W) (l n : list Vote).

#[local] Instance zsum_proper : Proper ((≡ₚ) ==> (=)) zsum.
Proof. intros k k' H. by apply zsum_perm. Qed.

Lemma zsum_zero {A} (f : A → Z) (k : list A) : (∀ x, x ∈ k → f x = 0) → zsum (f <$> k) = 0.
Proof.
  induction k as [|x k IH]; intros H; [done|]. rewrite fmap_cons, zsum_cons, IH, (H x) by set_solver. done.
Qed.

Lemma zsum_le {A} (f g : A → Z) (k : list A) : (∀ x, x ∈ k → f x ≤ g x) → zsum (f <$> k) ≤ zsum (g <$> k).
Proof.
  induction k as [|x k IH]; intros H; [done|]. rewrite !fmap_cons, !zsum_cons.
  specialize (H x ltac:(set_solver)) as Hx. specialize (IH ltac:(set_solver)). lia.
Qed.

Lemma vote_of_elem l x : NoDup (Voter <$> l) → x ∈ l → vote_of l (Voter x) = Option x.
Proof.
  induction l as [|y l IH] using rev_ind; [by intros _ ?%elem_of_nil|].
  rewrite fmap_app, NoDup_app, vote_of_snoc. intros (Hnd & Hy & _) Hx%elem_of_app.
  case_decide as E.
  - destruct Hx as [Hx| ->%list_elem_of_singleton]; [|done]. destruct (Hy (Voter x)); [by apply list_elem_of_fmap_2|].
    rewrite <-E. by left.
  - destruct Hx as [Hx| ->%list_elem_of_singleton]; [by apply IH|done].
Qed.

Lemma vote_of_voter l a : vote_of l a ≠ OptionEmpty → ∃ x, x ∈ l ∧ Voter x = a.
Proof.
  induction l as [|y l IH] using rev_ind; [done|]. rewrite vote_of_snoc. case_decide as E.
  - exists y. split; [set_solver|done].
  - intros (x & Hx & <-)%IH. exists x. split; [set_solver|done].
Qed.

(** What came later, as a list. *)
Lemma late_split w l l' : NoDup (Voter <$> l) → NoDup (Voter <$> l') → late_votes w l l' →
  ∃ n, l' ≡ₚ l ++ n ∧ ∀ x, x ∈ n → x ∈ l' ∧ x ∉ l.
Proof.
  intros H1%NoDup_fmap_1 H2%NoDup_fmap_1 [Hk _]. destruct (submseteq_Permutation l l') as (n & Hn).
  { apply NoDup_submseteq; [done|]. intros x Hx. by apply Hk. }
  exists n. split; [done|]. intros x Hx. rewrite Hn in H2 |- *. apply NoDup_app in H2 as (_ & H2 & _).
  split; [set_solver|]. intros Hl. by apply (H2 x).
Qed.

Lemma deducted_perm w l l' v : l ≡ₚ l' → deducted w l v = deducted w l' v.
Proof. intros H. unfold deducted, delegator_votes. by rewrite H. Qed.

Lemma deducted_app w l n v : deducted w (l ++ n) v = deducted w l v + deducted w n v.
Proof. unfold deducted, delegator_votes. by rewrite filter_app, fmap_app, zsum_app. Qed.

(** Nothing more is taken off a validator that has voted. *)
Lemma deducted_late w l l' y : NoDup (Voter <$> l) → NoDup (Voter <$> l') → late_votes w l l' →
  y ∈ l → Voter y ∈ operators w → deducted w l' (Voter y) = deducted w l (Voter y).
Proof.
  intros H1 H2 HL Hy Ho. destruct (late_split w l l' H1 H2 HL) as (n & Hn & Hx).
  rewrite (deducted_perm w _ _ _ Hn), deducted_app. cut (deducted w n (Voter y) = 0); [lia|].
  apply zsum_zero. intros x [Hop Hin]%list_elem_of_filter. destruct (Hx x Hin). by eapply lv_apart.
Qed.

Lemma by_delegators_late w l l' o : Inv w → NoDup (Voter <$> l) → NoDup (Voter <$> l') → late_votes w l l' →
  by_delegators w l o ≤ by_delegators w l' o.
Proof.
  intros Hw H1 H2 HL. destruct (late_split w l l' H1 H2 HL) as (n & Hn & _).
  unfold by_delegators, delegator_votes. rewrite Hn, filter_app, fmap_app, zsum_app.
  match goal with |- _ ≤ _ + ?z => cut (0 ≤ z); [lia|] end.
  apply zsum_nonneg, Forall_fmap, Forall_forall. intros x _. cbn. pose proof (delegated_nonneg Inv w (Voter x) Hw). case_decide; lia.
Qed.

Lemma by_validators_late w l l' o : Inv w → NoDup (Voter <$> l) → NoDup (Voter <$> l') → late_votes w l l' →
  o ≠ OptionEmpty → by_validators w l o ≤ by_validators w l' o.
Proof.
  intros Hw H1 H2 HL Ho. unfold by_validators. apply zsum_le. intros v Hv. cbn.
  pose proof (deducted_bounds Inv w l' v Hw H2 Hv). destruct (decide (vote_of l (GetOperator v) = o)) as [E|]; [|case_decide; lia].
  destruct (vote_of_voter l (GetOperator v)) as (x & Hx & Ex); [congruence|]. rewrite <-Ex in E |- *.
  rewrite (vote_of_elem l x) in E by done. rewrite (vote_of_elem l' x) by (done || by apply HL).
  rewrite decide_True by done. rewrite (deducted_late w l l' x); [lia|done..|].
  rewrite Ex. by apply list_elem_of_fmap_2.
Qed.

Lemma counted_late w l l' o : Inv w → NoDup (Voter <$> l) → NoDup (Voter <$> l') → late_votes w l l' →
  o ≠ OptionEmpty → counted w l o ≤ counted w l' o.
Proof. intros. unfold counted. apply Z.add_le_mono; [by apply by_delegators_late|by apply by_validators_late]. Qed.
End late.
End GovTally.
