(* ===== verification/GovSpec.v ===== *)
(** * The gov module over messages and blocks

    What the handlers of other modules promise to the gov module ([AppLaws]), the
    invariant of its stores, and that messages and the end blocker keep it: deposits
    are held by the module account and paid out once, the queues list the proposals
    by their status, and the end of a block settles every proposal that is due. *)

From S2P Require Import Prelude Runs SdkDec SdkCoins GoStd CoinFacts CommonErrors Common GovErrors Token Gov GovTally.

#[local] Open Scope Z_scope.

Module GovSpec.
Import Gov GovTally.

(** ** The interface of the other modules *)

Section interface.
Context `{DO : Dec.Ops} `{CO : Coins.Ops} `{BO : Bank.Ops} {W C : Type} `{CT : !Contents C} `{AP : !App W C}.
Implicit Types s : GovState W C.

Definition govAcc : AccAddress := Bank.GetModuleAddress ModuleName.
Definition bal s (a : AccAddress) (d : string) : Z := Bank.balance (bank (world s)) a d.

(** Every store of the module but the two queues that handlers may write to. *)
Record stores_kept s s' : Prop := {
  sk_proposals : proposals s' = proposals s;
  sk_next : nextID s' = nextID s;
  sk_deposits : deposits s' = deposits s;
  sk_votes : votes s' = votes s;
  sk_inactive : inactiveQueue s' = inactiveQueue s;
  sk_balance d : bal s' govAcc d = bal s govAcc d;
}.

(** The callbacks of a module leave the stores and the queues alone. *)
Definition quiet s s' : Prop :=
  stores_kept s s' ∧ activeQueue s' = activeQueue s ∧ waitingQueue s' = waitingQueue s.

(** The execution of a proposal [p] may take it out of the active queue, and put it in
    the waiting queue or take it out. *)
Record executed (p : Proposal C) s s' : Prop := {
  ex_stores : stores_kept s s';
  ex_active k : k ∈ activeQueue s' → k ∈ activeQueue s;
  ex_active_other k : k ∈ activeQueue s → snd k ≠ ProposalID p → k ∈ activeQueue s';
  ex_waiting k : k ∈ waitingQueue s' → k ∈ waitingQueue s ∨ snd k = ProposalID p;
}.

(** [Inv] is the invariant of the rest of the application, [free a] says that it does
    not depend on the balance of the account [a], and [content_ok c] is what a module
    checks of a proposal before it is submitted, so that its execution does not
    panic. *)
Class AppLaws (Inv : W → Prop) (free : AccAddress → Prop) (content_ok : Content C → Prop) : Prop := {
  bank_set b w : bank (set_bank b w) = b;
  set_bank_bank w : set_bank (bank w) w = w;
  set_bank_set b b' w : set_bank b (set_bank b' w) = set_bank b w;
  gov_free : free govAcc;
  collector_free : free (Bank.GetModuleAddress feeCollectorName);
  collector_ne_gov : Bank.GetModuleAddress feeCollectorName ≠ govAcc;
  bank_moved w b from to c : Inv w → free from → free to → Bank.moved (bank w) b from to c →
    Inv (set_bank b w);
  (* a proposal that passed *)
  route_ok r h ctx p s : GetRoute r = Some h → ProposalRoute (pContent p) = r → content_ok (pContent p) →
    Inv (world s) → safe (h ctx p) s (λ _ s', Inv (world s') ∧ executed p s s');
  (* the callbacks *)
  check_ok h ctx msg s c : spContent msg = Some c → module_handlers (ProposalRoute c) = Some h →
    hCheckMsgSubmitProposal h ctx msg s = Ok tt → content_ok c;
  no_check_ok c : ProposalRoute c = RouterKey ∨ module_handlers (ProposalRoute c) = None → content_ok c;
  submitted_ok r h ctx p s : module_handlers r = Some h → Inv (world s) →
    runs (hAfterSubmitProposalHandler h ctx p) s (λ _ s', Inv (world s') ∧ quiet s s');
  vote_ok r h ctx p v s : module_handlers r = Some h → Inv (world s) →
    safe (hVoteHandler h ctx p v) s (λ _ s', Inv (world s') ∧ quiet s s');
  deposited_ok r h ctx p s : module_handlers r = Some h → Inv (world s) →
    runs (hAfterDepositPeriodPassed h ctx p) s (λ _ s', Inv (world s') ∧ quiet s s');
  rejected_ok r h ctx c s : module_handlers r = Some h → Inv (world s) →
    runs (hRejectedHandler h ctx c) s (λ _ s', Inv (world s') ∧ quiet s s');
}.
End interface.

Section spec.
Context `{DO : Dec.Ops} `{DL : !Dec.Laws} `{CO : !Coins.Ops} `{CL : !Coins.Laws}
  `{BO : !Bank.Ops} `{BL : !Bank.Laws} `{RT : GoRt} `{RL : !GoRtLaws}
  {W C : Type} `{CT : !Contents C} `{AP : !App W C} (Inv : W → Prop) (free : AccAddress → Prop)
  (content_ok : Content C → Prop) `{SL : !StakingLaws Inv} `{AL : !AppLaws Inv free content_ok}.
Implicit Types s : GovState W C.

Abbreviation State := (GovState W C) (only parsing).

(** ** The invariant *)

Definition live (p : Proposal C) : Prop := Status p = StatusDepositPeriod ∨ Status p = StatusVotingPeriod.
Definition closed (p : Proposal C) : Prop :=
  Status p = StatusPassed ∨ Status p = StatusRejected ∨ Status p = StatusFailed.

Definition deposit_amt (d : string) (x : Deposit) : Z := amt d (dAmount x).

(** The entries of a store that belong to a proposal, and the others. *)
Definition of_id {A} (i : Z) (m : gmap (Z * AccAddress) A) : gmap (Z * AccAddress) A :=
  filter (λ kx, fst (fst kx) = i) m.
Definition but_id {A} (i : Z) (m : gmap (Z * AccAddress) A) : gmap (Z * AccAddress) A :=
  filter (λ kx, fst (fst kx) ≠ i) m.

Record proposal_ok s (i : Z) (p : Proposal C) : Prop := {
  pr_id : ProposalID p = i;
  pr_status : live p ∨ closed p;
  pr_route : is_Some (GetRoute (ProposalRoute (pContent p)));
  pr_content : content_ok (pContent p);
  pr_total_valid : Coins.IsValid (TotalDeposit p) = true;
  pr_total d : live p → amt d (TotalDeposit p) = msum (deposit_amt d) (of_id i (deposits s));
}.

Record deposit_ok (k : Z * AccAddress) (x : Deposit) : Prop := {
  de_key : (dProposalID x, Depositor x) = k;
  de_valid : Coins.IsValid (dAmount x) = true;
  de_free : free (Depositor x);
  de_gov : Depositor x ≠ govAcc;
}.

Record vote_wf s (k : Z * AccAddress) (v : Vote) : Prop := {
  vo_key : (vProposalID v, Voter v) = k;
  vo_option : valid_option (Option v);
  vo_voting : ∃ p, proposals s !! fst k = Some p ∧ Status p = StatusVotingPeriod;
}.

Record gov_inv s : Prop := {
  gi_world : Inv (world s);
  gi_next : ∃ n, nextID s = Some n ∧ 0 ≤ n < 2 ^ 64 ∧ ∀ i, is_Some (proposals s !! i) → 0 ≤ i < n;
  gi_proposals : map_Forall (proposal_ok s) (proposals s);
  gi_deposits : map_Forall deposit_ok (deposits s);
  gi_live k : is_Some (deposits s !! k) → ∃ p, proposals s !! fst k = Some p ∧ live p;
  gi_votes : map_Forall (vote_wf s) (votes s);
  gi_inactive t i : (t, i) ∈ inactiveQueue s ↔
    ∃ p, proposals s !! i = Some p ∧ Status p = StatusDepositPeriod ∧ DepositEndTime p = t;
  gi_active t i : (t, i) ∈ activeQueue s ↔
    ∃ p, proposals s !! i = Some p ∧ Status p = StatusVotingPeriod ∧ VotingEndTime p = t;
  gi_waiting t i : (t, i) ∈ waitingQueue s → ∃ p, proposals s !! i = Some p ∧ Status p = StatusPassed;
  gi_balance d : bal s govAcc d = msum (deposit_amt d) (deposits s);
}.

(** ** Calls of the bank *)

Lemma gov_supply_ok {A} (m : M Bank.state A) s a b :
  m (bank (world s)) = (Ok a, b) → on_supply m s = (Ok a, set_world (set_bank b (world s)) s).
Proof. intros E. unfold on_supply, zoom. by rewrite E. Qed.

Lemma gov_moved_bal s b from to c a d : Bank.moved (bank (world s)) b from to c →
  bal (set_world (set_bank b (world s)) s) a d =
    bal s a d - (if decide (a = from) then amt d c else 0) + (if decide (a = to) then amt d c else 0).
Proof. intros [H _]. unfold bal. cbn. rewrite bank_set. apply H. Qed.

(** The module account pays what it has. *)
Lemma gov_pays s to c : Inv (world s) → free to → Coins.IsValid c = true → (∀ d, amt d c ≤ bal s govAcc d) →
  runs (must (on_supply (Bank.SendCoins govAcc to c))) s (λ _ s', ∃ b,
    s' = set_world (set_bank b (world s)) s ∧ Inv (world s') ∧ Bank.moved (bank (world s)) b govAcc to c).
Proof.
  intros Hw Ht Hc Hb. destruct (Bank.ModuleSend_total ModuleName to c (bank (world s)) Hc Hb) as [b E].
  pose proof (gov_supply_ok _ _ _ _ E) as Es. exists tt, (set_world (set_bank b (world s)) s).
  split; [unfold must; change govAcc with (Bank.GetModuleAddress ModuleName); by rewrite Es|].
  apply Bank.SendCoins_ok in E as [Hm _]. exists b. split; [done|]. split; [|done].
  cbn. eapply bank_moved; [done|apply gov_free|exact Ht|exact Hm].
Qed.

(** ** Paying deposits out *)

Definition pay_one (i : Z) (to : Deposit → AccAddress) (x : Deposit) : M (GovState W C) unit :=
  must (on_supply (Bank.SendCoins govAcc (to x) (dAmount x)));; deleteDeposit i (Depositor x).

(** The deposits [m] can be paid: they are valid, and the module account has them. *)
Record payable (m : gmap (Z * AccAddress) Deposit) s : Prop := {
  pa_valid : map_Forall (λ _ x, Coins.IsValid (dAmount x) = true) m;
  pa_balance d : bal s govAcc d = msum (deposit_amt d) m;
}.

(** What [a] receives of the deposits [l]. *)
Definition received (to : Deposit → AccAddress) (l : list Deposit) (a : AccAddress) (d : string) : Z :=
  zsum ((λ x, if decide (to x = a) then deposit_amt d x else 0) <$> l).

(** The deposits [l] were paid to [to], and nothing else happened. *)
Definition paid (to : Deposit → AccAddress) (l : list Deposit) (m : gmap (Z * AccAddress) Deposit) s s' : Prop :=
  ∃ b, s' = set_world (set_bank b (world s)) (set_deposits m s) ∧ Inv (world s') ∧ payable m s' ∧
    ∀ a d, a ≠ govAcc → bal s' a d = bal s a d + received to l a d.

Lemma payable_le m s k x d : payable m s → m !! k = Some x → deposit_amt d x ≤ bal s govAcc d.
Proof.
  intros [Hv Hb] Hk. rewrite Hb. apply (msum_le (deposit_amt d) m k x); [|done].
  intros k' y Hy. apply valid_amt. by apply (Hv k' y).
Qed.

Lemma pay_one_ok i to x s : Inv (world s) → payable (deposits s) s → deposits s !! (i, Depositor x) = Some x →
  free (to x) → to x ≠ govAcc →
  runs (pay_one i to x) s (λ _, paid to [x] (delete (i, Depositor x) (deposits s)) s).
Proof.
  intros Hw Hp Hx Hf Hne. apply runs_bind. eapply runs_mono.
  { apply (gov_pays s (to x) (dAmount x)); [done|done| |].
    - by apply (pa_valid _ _ Hp (i, Depositor x)).
    - intros d. by eapply (payable_le (deposits s)). }
  intros [] s1 (b & -> & Hw1 & Hm). apply runs_modify. exists b. split; [done|]. split; [exact Hw1|].
  assert (∀ a d, bal (set_world (set_bank b (world s)) s) a d = bal s a d
    - (if decide (a = govAcc) then deposit_amt d x else 0) + (if decide (a = to x) then deposit_amt d x else 0)) as Hb
    by (intros a d; by apply gov_moved_bal). split; [split|].
  - apply map_Forall_delete, Hp.
  - intros d. transitivity (bal (set_world (set_bank b (world s)) s) govAcc d); [done|].
    rewrite Hb, msum_delete, Hx, decide_True, decide_False, (pa_balance _ _ Hp) by congruence. cbn. lia.
  - intros a d Ha. transitivity (bal (set_world (set_bank b (world s)) s) a d); [done|].
    rewrite Hb, decide_False by done. unfold received. rewrite list_fmap_singleton. cbn [zsum foldr].
    destruct (decide (a = to x)) as [->|]; [rewrite decide_True by done|rewrite decide_False by congruence]; lia.
Qed.

(** ** The entries of a proposal *)

Section entries.
Context {A : Type} (owner : A → AccAddress).
Implicit Types m : gmap (Z * AccAddress) A.

Definition delete_all (i : Z) (l : list A) m : gmap (Z * AccAddress) A := foldl (λ m x, delete (i, owner x) m) m l.

(** The values of the entries of a proposal, in the order of their keys. *)
Definition values_of (i : Z) m : list A := snd <$> keyed_sorted id_key (of_id i m).

Lemma lookup_of_id i m k : of_id i m !! k = if decide (fst k = i) then m !! k else None.
Proof.
  unfold of_id. rewrite map_lookup_filter. destruct (m !! k) as [x|]; cbn; [|by case_decide].
  case_decide as E; [by rewrite option_guard_True|by rewrite option_guard_False].
Qed.
Lemma lookup_but_id i m k : but_id i m !! k = if decide (fst k = i) then None else m !! k.
Proof.
  unfold but_id. rewrite map_lookup_filter. destruct (m !! k) as [x|]; cbn; [|by case_decide].
  case_decide as E; [by rewrite option_guard_False by (by intros ?)|by rewrite option_guard_True].
Qed.

Lemma values_of_spec i m : map_Forall (λ k x, owner x = snd k) m →
  NoDup (owner <$> values_of i m) ∧ ∀ x, x ∈ values_of i m ↔ m !! (i, owner x) = Some x.
Proof.
  intros Hm. assert (∀ k x, (k, x) ∈ keyed_sorted id_key (of_id i m) ↔ fst k = i ∧ m !! k = Some x) as Hin.
  { intros k x. rewrite keyed_sorted_perm, elem_of_map_to_list, lookup_of_id. case_decide; naive_solver. }
  split.
  - unfold values_of. rewrite <-list_fmap_compose. apply NoDup_fmap_2_strong.
    + intros [k x] [k' x'] [Hk Hx]%Hin [Hk' Hx']%Hin. cbn. intros E. destruct k as [i1 a], k' as [i2 a'].
      pose proof (Hm _ _ Hx) as E1. pose proof (Hm _ _ Hx') as E2. cbn in *. congruence.
    + rewrite keyed_sorted_perm. apply NoDup_map_to_list.
  - intros x. unfold values_of. rewrite list_elem_of_fmap. split.
    + intros ([[j a] y] & -> & [Hk Hy]%Hin). cbn in *. pose proof (Hm _ _ Hy) as E. cbn in E. congruence.
    + intros Hx. exists ((i, owner x), x). by rewrite Hin.
Qed.

Lemma lookup_delete_all i l m k :
  delete_all i l m !! k = if decide (fst k = i ∧ snd k ∈ owner <$> l) then None else m !! k.
Proof.
  revert m. induction l as [|x l IH]; intros m; cbn [delete_all foldl].
  - rewrite decide_False; [done|]. intros [_ H]. by apply not_elem_of_nil in H.
  - fold (delete_all i l (delete (i, owner x) m)). rewrite IH, lookup_delete, fmap_cons. clear IH.
    destruct k as [j a]. cbn [fst snd]. destruct (decide ((i, owner x) = (j, a))) as [[= <- <-]|Hne].
    + case_decide as H1; case_decide as H2; try done; destruct H2; (split; [done|apply elem_of_cons; by left]).
    + apply decide_ext. rewrite elem_of_cons. split; [by intros []; auto|]. intros [E [->|]]; [by destruct Hne; rewrite E|done].
Qed.

Lemma delete_values i m : map_Forall (λ k x, owner x = snd k) m → delete_all i (values_of i m) m = but_id i m.
Proof.
  intros Hm. destruct (values_of_spec i m Hm) as [_ Hv]. apply map_eq. intros [j a].
  rewrite lookup_delete_all, lookup_but_id. cbn. destruct (decide (j = i)) as [->|Hne].
  - case_decide as Hd; [done|]. destruct (m !! (i, a)) as [x|] eqn:E; [|done]. exfalso. apply Hd. split; [done|].
    apply list_elem_of_fmap. exists x. pose proof (Hm _ _ E) as Eo. cbn in Eo. split; [done|]. apply Hv. by rewrite Eo.
  - rewrite decide_False; [done|]. by intros [].
Qed.

Lemma msum_split (f : A → Z) i m : msum f m = msum f (of_id i m) + msum f (but_id i m).
Proof.
  unfold of_id, but_id. induction m as [|k x m Hk IH] using map_ind; [by rewrite !map_filter_empty, !msum_empty|].
  rewrite !map_filter_insert. cbn [fst snd].
  destruct (decide (fst k = i)) as [E|E].
  - rewrite (decide_False (P := ¬ _)) by (by intros ?). rewrite msum_insert, Hk.
    rewrite msum_insert, (delete_id m) by done. rewrite map_lookup_filter, Hk. cbn. lia.
  - rewrite decide_True by done. rewrite msum_insert, Hk.
    rewrite msum_insert, (delete_id m) by done. rewrite map_lookup_filter, Hk. cbn. lia.
Qed.
End entries.

(** ** Loops over deposits *)

Lemma pay_all_ok i to l s : Inv (world s) → payable (deposits s) s → NoDup (Depositor <$> l) →
  Forall (λ x, deposits s !! (i, Depositor x) = Some x ∧ free (to x) ∧ to x ≠ govAcc) l →
  runs (mapM_ (pay_one i to) l) s (λ _, paid to l (delete_all Depositor i l (deposits s)) s).
Proof.
  revert s. induction l as [|x l IH]; intros s Hw Hp Hnd Hl; cbn [mapM_].
  - apply runs_ret. exists (bank (world s)). split; [|split; [done|split; [done|]]].
    + destruct s. cbn. unfold set_world, set_deposits. cbn. f_equal. by rewrite set_bank_bank.
    + intros a d _. unfold received. cbn. lia.
  - apply NoDup_cons in Hnd as [Hnx Hnd]. apply Forall_cons in Hl as [(Hx & Hf & Hne) Hl].
    apply runs_bind. eapply runs_mono; [by apply pay_one_ok|]. intros [] s1 (b & E1 & Hw1 & Hp1 & Hb1).
    assert (deposits s1 = delete (i, Depositor x) (deposits s)) as Ed by (by rewrite E1).
    eapply runs_mono; [apply IH; [done|by rewrite Ed|done|]|].
    + eapply Forall_impl; [apply Forall_and; split; [exact Hl|apply Forall_forall; intros y Hy; exact Hy]|].
      cbn. intros y [(Hy & ? & ?) Hin]. split; [|done]. rewrite Ed, lookup_delete_ne; [done|].
      intros [= E]. apply Hnx. rewrite E. by apply list_elem_of_fmap_2.
    + intros [] s2 (b2 & E2 & Hw2 & Hp2 & Hb2). rewrite Ed in *. exists b2. split; [|split; [done|split; [done|]]].
      * rewrite E2, E1. unfold set_world, set_deposits. cbn. by rewrite set_bank_set.
      * intros a d Ha. rewrite Hb2, Hb1 by done. unfold received. rewrite !fmap_cons, !zsum_cons. cbn. lia.
Qed.

Definition collector : AccAddress := Bank.GetModuleAddress feeCollectorName.

(** The deposits of the proposal [i] were paid to [to]: they are no longer there, and
    nothing else happened. *)
Definition settled (to : Deposit → AccAddress) (i : Z) s s' : Prop :=
  paid to (GetDeposits i s) (but_id i (deposits s)) s s'.

Lemma deposit_owner (m : gmap (Z * AccAddress) Deposit) : map_Forall deposit_ok m → map_Forall (λ k x, Depositor x = snd k) m.
Proof. intros H k x Hx. by rewrite <-(de_key _ _ (H k x Hx)). Qed.

Lemma settle_ok i to s : Inv (world s) → map_Forall deposit_ok (deposits s) →
  (∀ d, bal s govAcc d = msum (deposit_amt d) (deposits s)) →
  (∀ x, free (Depositor x) → Depositor x ≠ govAcc → free (to x) ∧ to x ≠ govAcc) →
  runs (deposits ← gets (GetDeposits i); mapM_ (pay_one i to) deposits) s (λ _, settled to i s).
Proof.
  intros Hw Hd Hb Hto. apply runs_bind, runs_gets.
  destruct (values_of_spec Depositor i (deposits s) (deposit_owner _ Hd)) as [Hnd Hin].
  unfold settled. rewrite <-(delete_values Depositor i) by (by apply deposit_owner).
  apply pay_all_ok; [done| |done|].
  - split; [|done]. intros k x Hx. by apply (de_valid _ _ (Hd k x Hx)).
  - apply Forall_forall. intros x Hx%Hin. split; [done|]. pose proof (Hd _ _ Hx) as [_ _ ? ?]. by apply Hto.
Qed.

Lemma RefundDeposits_ok i s : Inv (world s) → map_Forall deposit_ok (deposits s) →
  (∀ d, bal s govAcc d = msum (deposit_amt d) (deposits s)) →
  runs (RefundDeposits i) s (λ _, settled Depositor i s).
Proof.
  intros Hw Hd Hb. destruct (settle_ok i Depositor s) as (a & s' & E & H); [done..|by auto|].
  exists a, s'. split; [|done]. rewrite <-E. apply (mapM_ext (refund_one i)). intros x s1.
  unfold refund_one, pay_one. by rewrite Bank.ModuleToAccount_spec.
Qed.

Lemma DistributeDeposits_ok i s : Inv (world s) → map_Forall deposit_ok (deposits s) →
  (∀ d, bal s govAcc d = msum (deposit_amt d) (deposits s)) →
  runs (DistributeDeposits i) s (λ _, settled (λ _, collector) i s).
Proof.
  intros Hw Hd Hb. destruct (settle_ok i (λ _, collector) s) as (a & s' & E & H); [done..| |].
  { intros _ _ _. split; [apply collector_free|apply collector_ne_gov]. }
  exists a, s'. split; [|done]. rewrite <-E. apply (mapM_ext (distribute_one i)). intros x s1.
  unfold distribute_one, pay_one. by rewrite Bank.ModuleToModule_spec.
Qed.

(** ** Handlers of other modules *)

Lemma stores_refl s : stores_kept s s.
Proof. by split. Qed.
Lemma quiet_refl s : quiet s s.
Proof. split; [apply stores_refl|done]. Qed.
Lemma executed_refl p s : executed p s s.
Proof. split; [apply stores_refl|by auto..]. Qed.

Lemma handler_cases r h : handler_route r = Some h → h = keeper_handler ∨ module_handlers r = Some h.
Proof. unfold handler_route. destruct (String.eqb r RouterKey); [intros [= <-]; by left|by right]. Qed.

(** A callback of the handler of a route, if there is one. *)
Lemma callback_ok r (f : ProposalHandler W C → M State unit) s : Inv (world s) → f keeper_handler = mret tt →
  (∀ h, module_handlers r = Some h → runs (f h) s (λ _ s', Inv (world s') ∧ quiet s s')) →
  runs (match handler_route r with None => mret tt | Some h => f h end) s (λ _ s', Inv (world s') ∧ quiet s s').
Proof.
  intros Hw Hk Hm. destruct (handler_route r) as [h|] eqn:E; [|by apply runs_ret].
  apply handler_cases in E as [-> | E]; [|by apply Hm]. rewrite Hk. by apply runs_ret.
Qed.

Lemma execute_ok ctx p h s : GetRoute (ProposalRoute (pContent p)) = Some h → content_ok (pContent p) → Inv (world s) →
  runs (cached (h ctx p)) s (λ err s',
    match err with None => Inv (world s') ∧ executed p s s' | Some _ => s' = s end).
Proof.
  intros Hh Hco Hw. pose proof (route_ok _ h ctx p s Hh eq_refl Hco Hw) as H. unfold safe in H. unfold runs, cached.
  destruct (h ctx p s) as [[u|e|] s']; [by exists None, s'|by exists (Some e), s|done].
Qed.

(** ** Closing a proposal *)

(** The deposits of [i] are settled and its handler has run; its new status is [st]. *)
Record closing (i st : Z) s s' : Prop := {
  cl_world : Inv (world s');
  cl_proposals : proposals s' = proposals s;
  cl_next : nextID s' = nextID s;
  cl_votes : votes s' = votes s;
  cl_inactive : inactiveQueue s' = inactiveQueue s;
  cl_deposits : deposits s' = but_id i (deposits s);
  cl_balance d : bal s' govAcc d = msum (deposit_amt d) (deposits s');
  cl_active k : k ∈ activeQueue s' → k ∈ activeQueue s;
  cl_active_other k : k ∈ activeQueue s → snd k ≠ i → k ∈ activeQueue s';
  cl_waiting k : k ∈ waitingQueue s' → k ∈ waitingQueue s ∨ snd k = i ∧ st = StatusPassed;
}.

Lemma settled_closing to i st s s' : settled to i s s' → closing i st s s'.
Proof. intros (b & -> & Hw & Hp & _). split; try done; auto. apply Hp. Qed.

Lemma executed_closing p st s s1 s' : closing (ProposalID p) st s s1 → Inv (world s') → executed p s1 s' →
  (∀ k, k ∈ waitingQueue s' → k ∈ waitingQueue s1 ∨ st = StatusPassed ∧ snd k = ProposalID p) →
  closing (ProposalID p) st s s'.
Proof.
  intros [] Hw [[] Ha Ho _] Hq. split; try congruence.
  - auto.
  - auto.
  - intros k Hk. destruct (Hq k Hk) as [?|[? ?]]; [auto|by right].
Qed.

Lemma quiet_executed p s s' : quiet s s' → executed p s s'.
Proof. intros (Hs & Ha & Hwq). split; [done|..]; intros k; rewrite ?Ha, ?Hwq; auto. Qed.

Lemma after_tally_ok ctx (p : Proposal C) b st s : Inv (world s) → map_Forall deposit_ok (deposits s) →
  (∀ d, bal s govAcc d = msum (deposit_amt d) (deposits s)) → is_Some (GetRoute (ProposalRoute (pContent p))) →
  content_ok (pContent p) → st = StatusPassed ∨ st = StatusRejected →
  runs (handleProposalAfterTally ctx p b st) s (λ p' s',
    p' = set_Status (Status p') p ∧ closed p' ∧ closing (ProposalID p) (Status p') s s').
Proof.
  intros Hw Hd Hb [h Hh] Hco Hst. unfold handleProposalAfterTally. apply runs_bind.
  apply (runs_mono _ _ (λ _ s', ∃ to, settled to (ProposalID p) s s')).
  { destruct b; [pose proof (DistributeDeposits_ok (ProposalID p) s Hw Hd Hb) as H|
      pose proof (RefundDeposits_ok (ProposalID p) s Hw Hd Hb) as H]; (eapply runs_mono; [exact H|intros [] s1 H1; by eexists]). }
  intros [] s1 (to & H1). pose proof (λ st, settled_closing _ _ st _ _ H1) as Hc.
  assert (Inv (world s1)) as Hw1 by (by destruct (Hc 0)).
  destruct Hst as [-> | ->]; cbn [StatusPassed StatusRejected Z.eqb Pos.eqb].
  - rewrite Hh. apply runs_bind. eapply runs_lift; [done|]. apply runs_bind.
    eapply runs_mono; [by apply execute_ok|]. intros [e|] s2.
    + intros ->. apply runs_ret. split; [done|]. split; [by do 2 right|]. apply Hc.
    + intros [Hw2 Hx]. apply runs_ret. split; [done|]. split; [by left|].
      eapply executed_closing; [apply Hc|done|done|]. intros k Hk. destruct (ex_waiting _ _ _ Hx k Hk); auto.
  - apply runs_bind. eapply runs_mono; [apply (callback_ok _ (λ h, hRejectedHandler h ctx (pContent p))); [done|done|]|].
    + intros h' Hh'. by eapply rejected_ok.
    + intros [] s2 [Hw2 Hq]. apply runs_ret. split; [done|]. split; [by right; left|].
      eapply executed_closing; [apply Hc|done|by apply quiet_executed|]. intros k. rewrite (proj2 (proj2 Hq)). auto.
Qed.

Ltac statuses :=
  unfold live, closed, StatusDepositPeriod, StatusVotingPeriod, StatusPassed, StatusRejected, StatusFailed in *; lia.

Lemma of_but_id {A} (i j : Z) (m : gmap (Z * AccAddress) A) : j ≠ i → of_id j (but_id i m) = of_id j m.
Proof.
  intros Hne. apply map_eq. intros k. rewrite !lookup_of_id, lookup_but_id. case_decide; [|done].
  rewrite decide_False; [done|congruence].
Qed.

Lemma vote_owner s : map_Forall (vote_wf s) (votes s) → map_Forall (λ k x, Voter x = snd k) (votes s).
Proof. intros H k x Hx. by rewrite <-(vo_key _ _ _ (H k x Hx)). Qed.

Lemma DeleteVotes_ok i s : map_Forall (λ k x, (vProposalID x, Voter x) = k) (votes s) →
  runs (DeleteVotes i) s (λ _ s', s' = set_votes (but_id i (votes s)) s).
Proof.
  intros Hv. unfold DeleteVotes. apply runs_bind, runs_gets.
  assert (map_Forall (λ k x, Voter x = snd k) (votes s)) as Ho by (intros k x Hx; by rewrite <-(Hv k x Hx)).
  destruct (values_of_spec Voter i (votes s) Ho) as [_ Hin].
  rewrite <-(delete_values Voter i) by done.
  assert (∀ x, x ∈ GetVotes i s → vProposalID x = i) as Hid
    by (intros x Hx%Hin; pose proof (Hv _ _ Hx) as E; by injection E). revert Hid.
  change (GetVotes i s) with (values_of i (votes s)). generalize (values_of i (votes s)) as l. clear Hin Hv Ho.
  intros l. revert s. induction l as [|x l IH]; intros s Hid; cbn [mapM_].
  - apply runs_ret. by destruct s.
  - apply runs_bind, runs_modify. rewrite (Hid x) by set_solver. eapply runs_mono; [apply IH; set_solver|].
    intros [] s' ->. done.
Qed.

(** The state in which the proposal is closed as [p']; it was in the active queue at [t]. *)
Definition close (p' : Proposal C) (t : Z) s : State :=
  set_votes (but_id (ProposalID p') (votes s))
    (set_activeQueue (activeQueue s ∖ {[(t, ProposalID p')]})
      (set_proposals (<[ProposalID p' := p']> (proposals s)) s)).

Lemma close_inv s s1 p p' : gov_inv s → proposals s !! ProposalID p' = Some p → Status p = StatusVotingPeriod →
  closing (ProposalID p') (Status p') s s1 → pContent p' = pContent p → closed p' → TotalDeposit p' = TotalDeposit p →
  gov_inv (close p' (VotingEndTime p) s1).
Proof.
  intros HI Hp Hst Hc Hcon Hcl Htot. destruct Hc. unfold close. set (i := ProposalID p') in *. split; cbn.
  - done.
  - rewrite cl_next0, cl_proposals0. destruct (gi_next _ HI) as (n & ? & ? & Hn). exists n. split; [done|]. split; [done|].
    intros j. rewrite lookup_insert_is_Some'. intros [<-|?]; apply Hn; eauto.
  - rewrite cl_proposals0. intros j q. rewrite lookup_insert. destruct (decide (i = j)) as [<-|Hne].
    + intros [= <-]. destruct (gi_proposals _ HI _ _ Hp). split; [done|by right|by rewrite Hcon|by rewrite Hcon|by rewrite Htot|].
      intros d Hl. statuses.
    + intros Hq. destruct (gi_proposals _ HI _ _ Hq). split; [done..|]. intros d Hl. cbn.
      rewrite cl_deposits0, of_but_id by done. auto.
  - rewrite cl_deposits0. intros [j a] x. rewrite lookup_but_id. cbn. case_decide; [done|]. apply (gi_deposits _ HI).
  - rewrite cl_deposits0, cl_proposals0. intros [j a]. rewrite lookup_but_id. cbn. case_decide; [by intros []|].
    intros Hx. rewrite lookup_insert_ne by done. by apply (gi_live _ HI (j, a)).
  - rewrite cl_votes0. intros [j a] v. rewrite lookup_but_id. cbn. case_decide; [done|].
    intros Hv. destruct (gi_votes _ HI _ _ Hv) as [? ? (q & Hq & ?)]. split; [done|done|]. cbn in *.
    rewrite cl_proposals0, lookup_insert_ne by done. eauto.
  - intros t j. rewrite cl_inactive0, (gi_inactive _ HI), cl_proposals0, lookup_insert.
    destruct (decide (i = j)) as [<-|Hne]; [|done]. rewrite Hp. split; intros (q & [= <-] & ? & _); statuses.
  - intros t j. rewrite elem_of_difference, elem_of_singleton, cl_proposals0, lookup_insert.
    destruct (decide (i = j)) as [<-|Hne].
    + split; [|intros (q & [= <-] & ? & _); statuses]. intros [Ha%cl_active0 Hne].
      apply (gi_active _ HI) in Ha as (q & Hq & _ & <-). rewrite Hp in Hq. injection Hq as <-. by destruct Hne.
    + rewrite <-(gi_active _ HI). split; [by intros [? _]; auto|]. intros Ha.
      split; [by apply cl_active_other0|congruence].
  - intros t j Hj. rewrite cl_proposals0, lookup_insert. destruct (cl_waiting0 _ Hj) as [Hw|[<- ?]].
    + destruct (gi_waiting _ HI _ _ Hw) as (q & Hq & ?). destruct (decide (i = j)) as [<-|]; [|by eauto].
      rewrite Hp in Hq. injection Hq as <-. statuses.
    + rewrite decide_True by done. eauto.
  - apply cl_balance0.
Qed.

(** ** Votes *)

Lemma votes_ok i s : gov_inv s →
  Forall (λ x, valid_option (Option x)) (GetVotes i s) ∧ NoDup (Voter <$> GetVotes i s).
Proof.
  intros HI. destruct (values_of_spec Voter i (votes s)) as [Hnd Hin]; [apply vote_owner, HI|].
  split; [|done]. apply Forall_forall. intros x Hx%Hin. apply (vo_option _ _ _ (gi_votes _ HI _ _ Hx)).
Qed.

Lemma tally_ok (p : Proposal C) e s : gov_inv s → ∃ st b r, Tally p e s = Ok (st, b, r) ∧
  (st = StatusPassed ∨ st = StatusRejected ∨ (e = false ∧ st = StatusVotingPeriod)).
Proof.
  intros HI. destruct (votes_ok (ProposalID p) s HI) as [H1 H2].
  destruct (Tally_ok Inv p e s (gi_world _ HI) H1 H2) as (st & b & r & ? & _ & _ & _ & _ & _ & _ & ?).
  by exists st, b, r.
Qed.

(** The proposal [i] was closed, and no other proposal changed. *)
Definition closes (i : Z) s s' : Prop :=
  ∃ p', closed p' ∧ proposals s' = <[i := p']> (proposals s).

Lemma vote_keys s : gov_inv s → map_Forall (λ k x, (vProposalID x, Voter x) = k) (votes s).
Proof. intros HI k x Hx. apply (vo_key _ _ _ (gi_votes _ HI k x Hx)). Qed.

Lemma tally_one_ok ctx i p s : gov_inv s → proposals s !! i = Some p → Status p = StatusVotingPeriod →
  runs (tally_one ctx p) s (λ _ s', gov_inv s' ∧ closes i s s').
Proof.
  intros HI Hp Hst. destruct (gi_proposals _ HI _ _ Hp) as [<- _ Hr Hco _ _]. unfold tally_one.
  apply runs_bind, runs_get. destruct (tally_ok p true s HI) as (st & b & r & Ht & Hs).
  apply runs_bind. eapply runs_lift; [exact Ht|]. apply runs_bind.
  eapply runs_mono; [apply after_tally_ok; [apply HI|apply HI|apply HI|done|done|]|].
  { destruct Hs as [?|[?|[? _]]]; [by left|by right|done]. }
  intros p1 s1 (Ep & Hcl & Hc). cbv zeta. set (p' := set_FinalTallyResult r p1).
  assert (ProposalID p' = ProposalID p ∧ VotingEndTime p' = VotingEndTime p ∧ pContent p' = pContent p ∧
    TotalDeposit p' = TotalDeposit p ∧ Status p' = Status p1) as (Ei & Ee & Eco & Eto & Es) by (by subst p'; rewrite Ep).
  apply runs_bind, runs_modify. apply runs_bind, runs_modify. rewrite Ei, Ee.
  eapply runs_mono; [apply DeleteVotes_ok; cbn; rewrite (cl_votes _ _ _ _ Hc); by apply vote_keys|].
  intros [] s' ->. assert (gov_inv (close p' (VotingEndTime p) s1)) as HI'.
  { apply (close_inv s); try done; [by rewrite Ei|by rewrite Ei, Es]. }
  unfold close in HI'. rewrite Ei in HI'. split; [exact HI'|]. exists p'. split; [done|]. cbn.
  by rewrite (cl_proposals _ _ _ _ Hc).
Qed.

Lemma quiet_inv s s' : gov_inv s → Inv (world s') → quiet s s' → gov_inv s'.
Proof.
  intros HI Hw ([E1 E2 E3 E4 E5 E6] & E7 & E8). destruct HI. split; rewrite ?E1, ?E2, ?E3, ?E4, ?E5, ?E7, ?E8; try done.
  - intros i p Hp. destruct (gi_proposals0 i p Hp). split; [done..|]. by rewrite E3.
  - intros k v Hv. destruct (gi_votes0 k v Hv). split; [done..|]. by rewrite E1.
  - intros d. by rewrite E6.
Qed.

(** A proposal is written back with another tally. *)
Lemma retally_inv i p r s : gov_inv s → proposals s !! i = Some p →
  gov_inv (set_proposals (<[i := set_FinalTallyResult r p]> (proposals s)) s).
Proof.
  intros HI Hp. assert (∀ j (P : Proposal C → Prop), (∀ q r, P q ↔ P (set_FinalTallyResult r q)) →
    (∃ q, <[i := set_FinalTallyResult r p]> (proposals s) !! j = Some q ∧ P q) ↔
    (∃ q, proposals s !! j = Some q ∧ P q)) as Hsame.
  { intros j P HP. rewrite lookup_insert. destruct (decide (i = j)) as [<-|]; [|done]. rewrite Hp.
    split; intros (q & [= <-] & Hq); eexists; (split; [done|]); by apply (HP p r). }
  assert (∀ j, is_Some (<[i := set_FinalTallyResult r p]> (proposals s) !! j) → is_Some (proposals s !! j)) as Hdom.
  { intros j. rewrite lookup_insert. destruct (decide (i = j)) as [<-|]; [by eauto|done]. }
  split; cbn; try (by apply HI).
  - destruct (gi_next _ HI) as (n & ? & ? & Hn). exists n. split; [done|]. split; [done|]. intros j Hj. auto.
  - intros j q. rewrite lookup_insert. destruct (decide (i = j)) as [<-|]; [intros [= <-]|intros Hq; by destruct (gi_proposals _ HI _ _ Hq)].
    by destruct (gi_proposals _ HI _ _ Hp).
  - intros k Hk. apply Hsame; [done|]. by apply (gi_live _ HI).
  - intros k v Hv. destruct (gi_votes _ HI k v Hv). split; [done..|]. cbn. by apply Hsame.
  - intros t j. rewrite (gi_inactive _ HI). symmetry. by apply Hsame.
  - intros t j. rewrite (gi_active _ HI). symmetry. by apply Hsame.
  - intros t j Hj. apply Hsame; [done|]. by apply (gi_waiting _ HI t).
Qed.

Lemma set_vote_inv i p v s : gov_inv s → proposals s !! i = Some p → Status p = StatusVotingPeriod →
  vProposalID v = i → valid_option (Option v) → gov_inv (set_votes (<[(i, Voter v) := v]> (votes s)) s).
Proof.
  intros HI Hp Hst Hid Ho. split; cbn; try (by apply HI).
  - intros j q Hq. by destruct (gi_proposals _ HI _ _ Hq).
  - apply map_Forall_insert_2.
    + split; [by rewrite <-Hid|done|]. cbn. eauto.
    + intros k x Hx. by destruct (gi_votes _ HI k x Hx).
Qed.

Lemma AddVote_ok ctx i a o s : gov_inv s →
  safe (AddVote ctx i a o) s (λ _ s', gov_inv s' ∧ proposals s' = proposals s ∧
    ∃ p, proposals s !! i = Some p ∧ Status p = StatusVotingPeriod ∧ votes s' !! (i, a) = Some (MkVote i a o)).
Proof.
  intros HI. unfold AddVote. apply safe_bind, safe_gets, safe_bind, safe_or_throw. intros p Hp.
  apply safe_bind, safe_throw_if. intros Hst%negb_false_iff%Z.eqb_eq. apply safe_bind, safe_throw_if.
  intros Ho%negb_false_iff%ValidVoteOption_spec. apply safe_bind. set (v := MkVote i a o).
  apply (safe_mono _ _ (λ _ s', Inv (world s') ∧ quiet s s')).
  { destruct (handler_route _) as [h|] eqn:E; [|apply safe_ret; split; [apply HI|apply quiet_refl]].
    apply handler_cases in E as [-> | E]; [apply safe_ret; split; [apply HI|apply quiet_refl]|].
    eapply vote_ok; [done|apply HI]. }
  intros [] s1 [Hw Hq]. unfold GetProposal in Hp. assert (proposals s1 = proposals s) as Ep by (by destruct Hq as [[]]).
  apply safe_runs, runs_modify. split; [|split].
  - eapply set_vote_inv; [by eapply quiet_inv|by rewrite Ep|done|done|done].
  - done.
  - exists p. split; [done|]. split; [done|]. cbn. by rewrite lookup_insert_eq.
Qed.

Lemma handleMsgVote_ok ctx msg s : gov_inv s → safe (handleMsgVote ctx msg) s (λ _, gov_inv).
Proof.
  intros HI. unfold handleMsgVote. apply safe_bind, safe_gets, safe_bind, safe_or_throw. intros p Hp.
  apply safe_bind. eapply safe_mono; [by apply AddVote_ok|]. intros [] s1 (HI1 & Ep & p1 & Hp1 & Hst & _).
  unfold GetProposal in Hp. rewrite Hp in Hp1. injection Hp1 as <-. rewrite <-Ep in Hp.
  destruct (gi_proposals _ HI1 _ _ Hp) as [Hid _ Hr Hco _ _].
  apply safe_runs, runs_bind, runs_get. destruct (tally_ok p false s1 HI1) as (st & b & r & Ht & Hs).
  apply runs_bind. eapply runs_lift; [exact Ht|]. cbv beta iota zeta. set (p1 := set_FinalTallyResult r p).
  assert (ProposalID p1 = mvProposalID msg) as Hid1 by done.
  destruct (Z.eqb_spec st StatusVotingPeriod) as [->|Hne]; cbn [negb].
  { apply runs_modify. fold p1. rewrite Hid1. by apply retally_inv. }
  apply runs_bind. eapply runs_mono; [apply after_tally_ok; [apply HI1|apply HI1|apply HI1|done|done|]|].
  { destruct Hs as [?|[?|[_ ?]]]; [by left|by right|done]. }
  intros p2 s2 (E2 & Hcl & Hc). set (p3 := set_VotingEndTime (BlockTime ctx) p2).
  assert (ProposalID p2 = mvProposalID msg ∧ VotingEndTime p2 = VotingEndTime p ∧ pContent p3 = pContent p ∧
    TotalDeposit p3 = TotalDeposit p ∧ Status p3 = Status p2 ∧ ProposalID p3 = mvProposalID msg)
    as (Ei & Ee & Eco & Eto & Es & Ei3) by (by subst p3 p1; rewrite E2).
  apply runs_bind, runs_modify, runs_bind. rewrite Ei3, Ei, Ee. rewrite Hid1 in Hc.
  eapply runs_mono; [apply DeleteVotes_ok; cbn; rewrite (cl_votes _ _ _ _ Hc); by apply vote_keys|].
  intros [] s' ->. apply runs_modify. assert (gov_inv (close p3 (VotingEndTime p) s2)) as HI'.
  { apply (close_inv s1); try done; [by rewrite Ei3|by rewrite Ei3]. }
  unfold close in HI'. rewrite Ei3 in *. exact HI'.
Qed.

(** ** Deposits *)

Definition entered (enter : bool) (i : Z) (p p' : Proposal C) s : State :=
  if enter then
    set_activeQueue ({[(VotingEndTime p', i)]} ∪ activeQueue s)
      (set_inactiveQueue (inactiveQueue s ∖ {[(DepositEndTime p, i)]}) s)
  else s.

(** The state after the deposit [x] of the proposal [p], which becomes [p']. *)
Definition deposited (w : W) (enter : bool) (p p' : Proposal C) (x : Deposit) s : State :=
  let i := dProposalID x in
  set_deposits (<[(i, Depositor x) := x]> (deposits s))
    (set_proposals (<[i := p']> (proposals s)) (set_world w (entered enter i p p' s))).

Lemma msum_of_insert {A} (f : A → Z) (i j : Z) (a : AccAddress) (x : A) (m : gmap (Z * AccAddress) A) :
  msum f (of_id j (<[(i, a) := x]> m)) =
    msum f (of_id j m) + if decide (i = j) then f x - from_option f 0 (m !! (i, a)) else 0.
Proof.
  assert (of_id j (<[(i, a) := x]> m) = if decide (i = j) then <[(i, a) := x]> (of_id j m) else of_id j m) as ->.
  { apply map_eq. intros [j' b]. rewrite lookup_of_id, lookup_insert. cbn. destruct (decide (i = j)) as [<-|Hne].
    - rewrite lookup_insert, lookup_of_id. cbn. destruct (decide ((i, a) = (j', b))) as [[= <- <-]|]; [|done].
      by rewrite decide_True.
    - rewrite lookup_of_id. cbn. destruct (decide (j' = j)) as [->|]; [|done]. rewrite decide_False; [done|congruence]. }
  destruct (decide (i = j)) as [<-|]; [|lia]. rewrite msum_insert, lookup_of_id, decide_True by done. lia.
Qed.

(** [x] is the deposit of [a] on [i] with [c] added. *)
Record adds (i : Z) (a : AccAddress) (c : SysCoins) s (x : Deposit) : Prop := {
  ad_id : dProposalID x = i;
  ad_who : Depositor x = a;
  ad_valid : Coins.IsValid (dAmount x) = true;
  ad_amt d : deposit_amt d x = from_option (deposit_amt d) 0 (deposits s !! (i, a)) + amt d c;
}.

Lemma deposited_inv (w : W) (enter : bool) (p p' : Proposal C) (x : Deposit) (i : Z) (a : AccAddress) (c : SysCoins) s : gov_inv s → proposals s !! i = Some p →
  Status p = StatusDepositPeriod → adds i a c s x → free a → a ≠ govAcc →
  Inv w → (∀ d, Bank.balance (bank w) govAcc d = bal s govAcc d + amt d c) →
  ProposalID p' = i → pContent p' = pContent p → Coins.IsValid (TotalDeposit p') = true →
  (∀ d, amt d (TotalDeposit p') = amt d (TotalDeposit p) + amt d c) →
  (if enter then Status p' = StatusVotingPeriod
   else Status p' = StatusDepositPeriod ∧ DepositEndTime p' = DepositEndTime p) →
  gov_inv (deposited w enter p p' x s).
Proof.
  intros HI Hp Hst [Hid Hwho Hval Hamt] Hf Hg Hw Hb Hi Hcon Htv Hta He. unfold deposited. rewrite Hid, Hwho.
  assert (live p') as Hl by (destruct enter; statuses).
  assert (∀ j (P : Proposal C → Prop), (P p → P p') → (∃ q, proposals s !! j = Some q ∧ P q) →
    ∃ q, <[i := p']> (proposals s) !! j = Some q ∧ P q) as Hsame.
  { intros j P HP (q & Hq & ?). rewrite lookup_insert. destruct (decide (i = j)) as [<-|]; [|by eauto].
    exists p'. split; [done|]. apply HP. congruence. }
  split; cbn.
  - done.
  - destruct (gi_next _ HI) as (n & ? & ? & Hn). exists n. destruct enter; cbn; (split; [done|]); (split; [done|]);
      intros j; rewrite lookup_insert_is_Some'; intros [<-|?]; apply Hn; eauto.
  - intros j q. rewrite lookup_insert. destruct (decide (i = j)) as [<-|Hne].
    + intros [= <-]. destruct (gi_proposals _ HI _ _ Hp). split; [done|by left|by rewrite Hcon|by rewrite Hcon|done|].
      intros d _. cbn. rewrite msum_of_insert, decide_True, Hamt, Hta, pr_total0 by (done || by left). lia.
    + intros Hq. destruct (gi_proposals _ HI _ _ Hq). split; [done..|]. intros d Hq'. cbn.
      rewrite msum_of_insert, decide_False, pr_total0 by done. lia.
  - apply map_Forall_insert_2; [|apply HI]. split; [by rewrite Hid, Hwho|done|by rewrite Hwho|by rewrite Hwho].
  - intros k. rewrite lookup_insert_is_Some'. intros [<-|Hk]; cbn; [exists p'; by rewrite lookup_insert_eq|].
    apply Hsame; [done|]. by apply (gi_live _ HI).
  - assert (map_Forall (vote_wf s) (votes (entered enter i p p' s))) as Hv by (destruct enter; apply HI).
    intros k v Hk. destruct (Hv k v Hk) as [? ? Hq]. split; [done..|]. cbn. apply Hsame; [|done]. statuses.
  - intros t j. assert ((t, j) ∈ inactiveQueue (entered enter i p p' s) ↔
      (t, j) ∈ inactiveQueue s ∧ ¬ (enter = true ∧ j = i)) as ->.
    { destruct enter; cbn; [|naive_solver]. rewrite elem_of_difference, elem_of_singleton. split.
      - intros [Ht Hne]. split; [done|]. intros [_ ->]. apply (gi_inactive _ HI) in Ht as (q & Hq & _ & <-). naive_solver.
      - intros [Ht Hne]. split; [done|]. intros [= -> ->]. naive_solver. }
    rewrite (gi_inactive _ HI), lookup_insert. destruct (decide (i = j)) as [<-|Hne]; [|naive_solver].
    rewrite Hp. destruct enter.
    + split; [naive_solver|]. intros (q & [= <-] & ? & _). statuses.
    + destruct He as [He1 He2]. split.
      * intros [(q & [= <-] & _ & <-) _]. by exists p'.
      * intros (q & [= <-] & _ & <-). split; [by exists p|]. by intros [].
  - intros t j. assert ((t, j) ∈ activeQueue (entered enter i p p' s) ↔
      (t, j) ∈ activeQueue s ∨ (enter = true ∧ j = i ∧ t = VotingEndTime p')) as ->.
    { destruct enter; cbn; [|naive_solver]. rewrite elem_of_union, elem_of_singleton. naive_solver. }
    rewrite (gi_active _ HI), lookup_insert. destruct (decide (i = j)) as [<-|Hne]; [|naive_solver].
    rewrite Hp. destruct enter.
    + split; [intros [(q & [= <-] & ? & _)|(_ & _ & ->)]; [statuses|by eauto]|]. naive_solver.
    + split; [intros [(q & [= <-] & ? & _)|(? & _)]; [statuses|done]|]. intros (q & [= <-] & ? & _). statuses.
  - intros t j Hj. apply Hsame; [statuses|]. apply (gi_waiting _ HI t). by destruct enter.
  - intros d. unfold bal at 1. cbn. rewrite Hb, msum_insert, Hamt, (gi_balance _ HI). lia.
Qed.

Lemma coins_add a b : Coins.IsValid a = true → Coins.IsValid b = true →
  Coins.IsValid (Coins.Add a b) = true ∧ ∀ d, amt d (Coins.Add a b) = amt d a + amt d b.
Proof.
  intros Ha Hb. rewrite Coins.Add_spec. split; [apply Coins.Add2_valid; coins|].
  intros d. apply Add2_good_amt; coins.
Qed.

Lemma updateDeposit_ok i a c s : map_Forall deposit_ok (deposits s) → Coins.IsValid c = true →
  runs (updateDeposit i a c) s (λ _ s', ∃ x, adds i a c s x ∧ s' = set_deposits (<[(i, a) := x]> (deposits s)) s).
Proof.
  intros Hd Hc. unfold updateDeposit. apply runs_bind, runs_gets. unfold GetDeposit.
  apply runs_modify. destruct (deposits s !! (i, a)) as [y|] eqn:E.
  - destruct (Hd _ _ E) as [[= Hi Ha] Hv _ _]. destruct (coins_add (dAmount y) c Hv Hc) as [Hv' Ha'].
    exists (MkDeposit (dProposalID y) (Depositor y) (Coins.Add (dAmount y) c)). split; [|cbn; by rewrite Hi, Ha].
    split; [done|done|done|]. intros d. rewrite E. apply Ha'.
  - eexists. split; [|done]. split; [done|done|done|]. intros d. rewrite E. done.
Qed.

Lemma send_in_ok a c s : Inv (world s) → free a → a ≠ govAcc →
  safe (on_supply (Bank.SendCoinsFromAccountToModule a ModuleName c)) s (λ _ s', ∃ w, s' = set_world w s ∧ Inv w ∧
    (∀ d, Bank.balance (bank w) govAcc d = bal s govAcc d + amt d c) ∧
    (∀ d, Bank.balance (bank w) a d = bal s a d - amt d c)).
Proof.
  intros Hw Hf Hne. rewrite Bank.AccountToModule_spec. unfold safe, on_supply, zoom.
  destruct (Bank.SendCoins a (Bank.GetModuleAddress ModuleName) c (bank (world s))) as [[[]|e|] b] eqn:E; [|done|].
  - apply Bank.SendCoins_ok in E as [Hm _]. exists (set_bank b (world s)). split; [done|].
    split; [by eapply (bank_moved _ _ a govAcc); [..|apply gov_free|exact Hm]|].
    destruct Hm as [Hm _]. fold govAcc in Hm. split; intros d; rewrite bank_set, Hm; fold (bal s a d) (bal s govAcc d).
    + rewrite decide_False, decide_True by congruence. lia.
    + rewrite decide_True, decide_False by congruence. lia.
  - by apply Bank.SendCoins_no_panic in E.
Qed.

(** The callback of the module runs on the stores before the deposit is recorded. *)
Lemma set_deposits_quiet m s s' : quiet s s' → quiet (set_deposits m s) (set_deposits m s').
Proof. intros ([] & ? & ?). by repeat split. Qed.

Lemma AddDeposit_ok ctx i a c s : gov_inv s → free a → a ≠ govAcc → Coins.IsValid c = true →
  safe (AddDeposit ctx i a c) s (λ _ s', gov_inv s' ∧ ∃ x, adds i a c s x ∧ deposits s' = <[(i, a) := x]> (deposits s)).
Proof.
  intros HI Hf Hne Hc. unfold AddDeposit. apply safe_bind, safe_gets, safe_bind, safe_or_throw. intros p Hp.
  unfold GetProposal in Hp. apply safe_bind, safe_throw_if. intros Hst%negb_false_iff%Z.eqb_eq.
  destruct (gi_proposals _ HI _ _ Hp) as [Hid _ _ _ Htv _]. destruct (coins_add _ c Htv Hc) as [Hv' Ha'].
  apply safe_bind. eapply safe_mono; [apply send_in_ok; [apply HI|done|done]|].
  intros [] s1 (w & -> & Hw & Hb & _). apply safe_bind. unfold tryEnterVotingPeriod. cbv zeta.
  set (p1 := set_TotalDeposit _ p). apply safe_runs, runs_bind, runs_get. case_match.
  - unfold activateVotingPeriod. apply runs_bind, runs_bind, runs_get. cbv zeta.
    set (p2 := set_Status StatusVotingPeriod _). apply runs_bind, runs_modify, runs_bind, runs_modify, runs_ret.
    set (p3 := set_DepositEndTime (BlockTime ctx) p2). apply runs_bind, runs_modify.
    assert (ProposalID p3 = i) as E3 by done. fold p2 in p3. rewrite E3. change (ProposalID p2) with (ProposalID p).
    change (DepositEndTime p2) with (DepositEndTime p). rewrite Hid.
    eapply runs_mono; [apply (callback_ok _ (λ h, hAfterDepositPeriodPassed h ctx p3)); [done|done|]|].
    { intros h Hh. by eapply deposited_ok. }
    intros [] s3 [Hw3 Hq]. set (s2 := set_proposals _ _) in Hq. assert (deposits s3 = deposits s) as Ed
      by (by destruct Hq as [[]]). apply safe_runs. eapply runs_mono; [apply updateDeposit_ok; [rewrite Ed; apply HI|done]|].
    intros [] s' (x & Hx & ->). rewrite Ed. assert (adds i a c s x) as Hx'
      by (destruct Hx as [? ? ? Hxa]; rewrite Ed in Hxa; by split). split; [|by eexists].
    eapply quiet_inv; [|exact Hw3|by apply set_deposits_quiet]. pose proof Hx' as [Ei Ea _ _].
    pose proof (deposited_inv w true p p3 x i a c s) as H'. unfold deposited in H'. rewrite Ei, Ea in H'. by apply H'.
  - apply runs_modify. apply safe_runs. eapply runs_mono; [apply updateDeposit_ok; [apply HI|done]|].
    intros [] s' (x & Hx & ->). assert (adds i a c s x) as Hx' by (destruct Hx; by split). split; [|by exists x].
    pose proof Hx' as [Ei Ea _ _]. pose proof (deposited_inv w false p p1 x i a c s) as H'. unfold deposited in H'.
    rewrite Ei, Ea in H'. change (ProposalID p1) with (ProposalID p). rewrite Hid. by apply H'.
Qed.

(** ** Messages *)

Lemma bond_denom_valid c : only_bond_denom c = true → Coins.IsValid c = true.
Proof. unfold only_bond_denom. destruct c as [|x [|]]; [done| |done]. by intros [_ ?]%andb_true_iff. Qed.

Lemma has_bond_denom c : hasOnlyDefaultBondDenom c ≠ Panic ∧ (hasOnlyDefaultBondDenom c = Ok tt → Coins.IsValid c = true).
Proof.
  unfold hasOnlyDefaultBondDenom. destruct (only_bond_denom c) eqn:E; cbn; [|done].
  split; [done|]. intros _. by apply bond_denom_valid.
Qed.

(** A new proposal. *)
Lemma submitted_inv (p : Proposal C) n s : gov_inv s → nextID s = Some n → n + 1 < 2 ^ 64 →
  ProposalID p = n → Status p = StatusDepositPeriod → TotalDeposit p = [] →
  is_Some (GetRoute (ProposalRoute (pContent p))) → content_ok (pContent p) →
  gov_inv (set_nextID (Some (uint64 (n + 1))) (set_inactiveQueue ({[(DepositEndTime p, n)]} ∪ inactiveQueue s)
    (set_proposals (<[n := p]> (proposals s)) s))).
Proof.
  intros HI Hn Hmax Hid Hst Htot Hr Hco. destruct (gi_next _ HI) as (n' & En & Hn0 & Hlt).
  rewrite Hn in En. injection En as <-. rewrite uint64_small by lia.
  assert (proposals s !! n = None) as Hnew.
  { destruct (proposals s !! n) eqn:E; [|done]. specialize (Hlt n ltac:(eauto)). lia. }
  assert (∀ j (P : Proposal C → Prop), (∃ q, proposals s !! j = Some q ∧ P q) →
    ∃ q, <[n := p]> (proposals s) !! j = Some q ∧ P q) as Hsame.
  { intros j P (q & Hq & ?). exists q. split; [|done]. rewrite lookup_insert_ne; [done|]. congruence. }
  split; cbn; try (by apply HI).
  - exists (n + 1). split; [done|]. split; [lia|]. intros j. rewrite lookup_insert_is_Some'.
    intros [<-|Hj%Hlt]; lia.
  - intros j q. rewrite lookup_insert. destruct (decide (n = j)) as [<-|].
    + intros [= <-]. split; [done|by left; left|done|done|rewrite Htot; apply valid_nil|].
      intros d _. cbn. rewrite Htot, amt_nil. assert (of_id n (deposits s) = ∅) as ->; [|by rewrite msum_empty].
      apply map_empty. intros k. rewrite lookup_of_id. case_decide as E; [|done].
      destruct (deposits s !! k) eqn:Ek; [|done]. destruct (gi_live _ HI k) as (q & Hq & _); [by eauto|].
      rewrite E in Hq. congruence.
    + intros Hq. by destruct (gi_proposals _ HI _ _ Hq).
  - intros k Hk. by apply Hsame, (gi_live _ HI).
  - intros k v Hv. destruct (gi_votes _ HI k v Hv). split; [done..|]. by apply Hsame.
  - intros t j. rewrite elem_of_union, elem_of_singleton, (gi_inactive _ HI), lookup_insert.
    destruct (decide (n = j)) as [<-|]; [rewrite Hnew|]; naive_solver.
  - intros t j. rewrite (gi_active _ HI), lookup_insert. destruct (decide (n = j)) as [<-|]; [|done].
    rewrite Hnew. split; [naive_solver|]. intros (q & [= <-] & ? & _). statuses.
  - intros t j Hj. by apply Hsame, (gi_waiting _ HI t).
Qed.

Definition ids_left s : Prop := ∀ n, nextID s = Some n → n + 1 < 2 ^ 64.

Lemma SubmitProposal_ok ctx content s : gov_inv s → ids_left s → content_ok content →
  safe (SubmitProposal ctx content) s (λ p s', gov_inv s' ∧ nextID s = Some (ProposalID p) ∧
    proposals s' = <[ProposalID p := p]> (proposals s) ∧ deposits s' = deposits s ∧ pContent p = content).
Proof.
  intros HI Hn Hco. unfold SubmitProposal. destruct (GetRoute (ProposalRoute content)) as [h|] eqn:Er; [|done].
  destruct (gi_next _ HI) as (n & En & _). apply safe_runs, runs_bind, runs_get, runs_bind.
  eapply (runs_lift _ n); [unfold GetProposalID; by rewrite En|]. cbv zeta. set (p := NewProposal _ _ _ _ _).
  apply runs_bind, runs_modify, runs_bind, runs_modify, runs_bind, runs_modify. apply runs_bind.
  change (ProposalID p) with n.
  assert (gov_inv (set_nextID (Some (uint64 (n + 1))) (set_inactiveQueue ({[(DepositEndTime p, n)]} ∪ inactiveQueue s)
    (set_proposals (<[n := p]> (proposals s)) s)))) as HI'.
  { apply submitted_inv; try done; first [by apply Hn|cbn; by rewrite Er]. }
  eapply runs_mono; [apply (callback_ok _ (λ h, hAfterSubmitProposalHandler h ctx p)); [apply HI'|done|]|].
  { intros h' Hh'. eapply submitted_ok; [done|apply HI']. }
  intros [] s' [Hw Hq]. apply runs_ret. split; [by eapply quiet_inv|]. split; [done|].
  destruct Hq as [[E1 _ E3 _ _ _] _]. by rewrite E1, E3.
Qed.

Lemma handleMsgDeposit_ok ctx msg s : gov_inv s → free (mdDepositor msg) → mdDepositor msg ≠ govAcc →
  safe (handleMsgDeposit ctx msg) s (λ _, gov_inv).
Proof.
  intros HI Hf Hne. unfold handleMsgDeposit. destruct (has_bond_denom (mdAmount msg)) as [Hp Hv].
  apply safe_bind, safe_lift; [done|]. intros [] E%Hv. apply safe_bind, safe_gets. apply safe_bind, safe_throw_if.
  intros _. eapply safe_mono; [by apply AddDeposit_ok|]. by intros [] s' [? _].
Qed.

(** The check of the module that a proposal belongs to.  It runs the proposal, which may
    panic: the transaction is then undone. *)
Definition checked (ctx : Context) (msg : MsgSubmitProposal C) s : outcome unit :=
  match ProposalRoute <$> spContent msg with
  | None => Panic
  | Some r =>
      match handler_route r with
      | None => CheckMsgSubmitProposal ctx msg s
      | Some h => hCheckMsgSubmitProposal h ctx msg s
      end
  end.

Lemma handleMsgSubmitProposal_ok ctx msg s : gov_inv s → ids_left s → checked ctx msg s ≠ Panic →
  free (Proposer msg) → Proposer msg ≠ govAcc → safe (handleMsgSubmitProposal ctx msg) s (λ _, gov_inv).
Proof.
  intros HI Hn Hch Hf Hne. unfold handleMsgSubmitProposal, checked in *.
  destruct (spContent msg) as [content|] eqn:Ec; [|done]. cbn [fmap option_fmap option_map] in Hch.
  destruct (has_bond_denom (InitialDeposit msg)) as [Hp Hv].
  apply safe_bind, safe_lift; [done|]. intros [] E%Hv. apply safe_bind, safe_lift; [done|].
  cbn [or_panic]. intros ? [= <-]. apply safe_bind, safe_gets, safe_bind, safe_lift; [done|].
  intros [] Hok. assert (content_ok content) as Hco.
  { destruct (handler_route (ProposalRoute content)) as [h|] eqn:Eh.
    - unfold handler_route in Eh. destruct (String.eqb_spec (ProposalRoute content) RouterKey) as [Er|];
        [by apply no_check_ok; left|]. by eapply check_ok.
    - apply no_check_ok. right. unfold handler_route in Eh. by destruct (String.eqb _ _). }
  apply safe_bind. eapply safe_mono; [by apply SubmitProposal_ok|]. intros p s1 (HI1 & _).
  eapply safe_mono; [by apply AddDeposit_ok|]. by intros [] s' [? _].
Qed.

(** ** The end blocker *)

Lemma elem_of_due limit q k : k ∈ due limit q ↔ k ∈ q ∧ fst k ≤ limit.
Proof. unfold due. rewrite merge_sort_Permutation, list_elem_of_filter, elem_of_elements. tauto. Qed.

Lemma NoDup_due limit q : NoDup (due limit q).
Proof. unfold due. rewrite merge_sort_Permutation. apply NoDup_filter, NoDup_elements. Qed.

Lemma executed_inv p s s' : gov_inv s → proposals s !! ProposalID p = Some p → Status p = StatusPassed →
  Inv (world s') → executed p s s' → gov_inv s'.
Proof.
  intros HI Hp Hst Hw [[E1 E2 E3 E4 E5 E6] Ha Ho Hwt].
  split; rewrite ?E1, ?E2, ?E3, ?E4, ?E5; try (by apply HI); try done.
  - intros i q Hq. destruct (gi_proposals _ HI i q Hq). split; [done..|]. by rewrite E3.
  - intros k v Hv. destruct (gi_votes _ HI k v Hv). split; [done..|]. by rewrite E1.
  - intros t i. rewrite <-(gi_active _ HI). split; [apply Ha|]. intros Hin. apply Ho; [done|]. cbn. intros ->.
    apply (gi_active _ HI) in Hin as (q & Hq & ? & _). rewrite Hp in Hq. injection Hq as <-. statuses.
  - intros t i [Hk|E]%Hwt; [by apply (gi_waiting _ HI t)|]. cbn in E. subst i. eauto.
  - intros d. rewrite E6. apply HI.
Qed.

Lemma waiting_ok ctx s : gov_inv s →
  runs (handleWaitingProposals ctx) s (λ _ s', gov_inv s' ∧ proposals s' = proposals s).
Proof.
  intros HI. unfold handleWaitingProposals, IterateWaitingProposalsQueue. apply runs_bind, runs_gets.
  apply (runs_mapM_ _ _ _ (λ s', gov_inv s' ∧ proposals s' = proposals s)); [done|].
  intros [t i] s1 [Hk _]%elem_of_due [HI1 E1]. destruct (gi_waiting _ HI _ _ Hk) as (p & Hp & Hst). rewrite <-E1 in Hp.
  destruct (gi_proposals _ HI1 _ _ Hp) as [Hid _ [h Hh] Hco _ _].
  apply runs_bind, runs_gets. cbn [snd]. unfold GetProposal. rewrite Hp. apply runs_bind. eapply runs_lift; [done|].
  unfold wait_one. rewrite Hh. apply runs_bind. eapply runs_lift; [done|]. apply runs_bind.
  eapply runs_mono; [apply execute_ok; [done|done|apply HI1]|]. intros [e|] s2; [by intros ->; apply runs_ret|].
  intros [Hw Hx]. apply runs_ret. split; [|by rewrite (sk_proposals _ _ (ex_stores _ _ _ Hx))].
  eapply executed_inv; [exact HI1|by rewrite Hid|done|done|done].
Qed.

(** A proposal that did not collect its deposit in time. *)
Lemma drop_one_ok i p s : gov_inv s → proposals s !! i = Some p → Status p = StatusDepositPeriod →
  runs (drop_one p) s (λ _ s', gov_inv s' ∧ proposals s' = delete i (proposals s)).
Proof.
  intros HI Hp Hst. destruct (gi_proposals _ HI _ _ Hp) as [<- _ _ _ _ _]. unfold drop_one.
  apply runs_bind. unfold DeleteProposal. apply runs_bind, runs_gets. unfold GetProposal. rewrite Hp.
  apply runs_bind. eapply runs_lift; [done|]. apply runs_bind, runs_modify, runs_bind, runs_modify, runs_modify.
  set (s1 := set_proposals _ _). eapply runs_mono; [apply DistributeDeposits_ok; [apply HI|apply HI|apply HI]|].
  intros [] s' (b & -> & Hw & [_ Hb] & _). split; [|done]. subst s1. set (i := ProposalID p) in *.
  assert (∀ j (P : Proposal C → Prop), ¬ P p → (∃ q, proposals s !! j = Some q ∧ P q) ↔
    ∃ q, delete i (proposals s) !! j = Some q ∧ P q) as Hsame.
  { intros j P HP. rewrite lookup_delete. destruct (decide (i = j)) as [<-|]; [|done]. rewrite Hp.
    split; [|naive_solver]. intros (q & [= <-] & ?). done. }
  split; cbn; try done.
  - destruct (gi_next _ HI) as (n & ? & ? & Hn). exists n. split; [done|]. split; [done|].
    intros j. rewrite lookup_delete_is_Some. intros [_ ?]. auto.
  - intros j q [Hne Hq]%lookup_delete_Some. destruct (gi_proposals _ HI _ _ Hq). split; [done..|].
    intros d Hl. cbn. rewrite of_but_id by done. auto.
  - intros [j a] x. rewrite lookup_but_id. cbn. case_decide; [done|]. apply (gi_deposits _ HI).
  - intros [j a]. rewrite lookup_but_id. cbn. case_decide; [by intros []|]. intros Hx.
    rewrite lookup_delete_ne by done. by apply (gi_live _ HI (j, a)).
  - intros k v Hv. destruct (gi_votes _ HI k v Hv) as [? ? Hq]. split; [done..|]. cbn. apply Hsame; [|done]. statuses.
  - intros t j. rewrite elem_of_difference, elem_of_singleton, (gi_inactive _ HI), lookup_delete.
    destruct (decide (i = j)) as [<-|Hne]; [rewrite Hp|]; naive_solver.
  - intros t j. rewrite elem_of_difference, elem_of_singleton, (gi_active _ HI), lookup_delete.
    destruct (decide (i = j)) as [<-|Hne]; [|naive_solver]. rewrite Hp. split; [|naive_solver].
    intros [(q & [= <-] & ? & _) _]. statuses.
  - intros t j Hj. apply Hsame; [statuses|]. by apply (gi_waiting _ HI t).
Qed.

(** A loop over entries of a queue, with a body that brings the proposal of an entry
    from the status [st] to [fin]. *)
Lemma queue_loop (body : Proposal C → M State unit) (st : Z) (fin : option (Proposal C) → Prop) keys s :
  (∀ i p s, gov_inv s → proposals s !! i = Some p → Status p = st → runs (body p) s (λ _ s',
    gov_inv s' ∧ fin (proposals s' !! i) ∧ ∀ j, j ≠ i → proposals s' !! j = proposals s !! j)) →
  gov_inv s → NoDup keys.*2 → (∀ k, k ∈ keys → ∃ p, proposals s !! snd k = Some p ∧ Status p = st) →
  runs (iterate_queue keys body) s (λ _ s', gov_inv s' ∧
    ∀ i, (i ∈ keys.*2 → fin (proposals s' !! i)) ∧ (i ∉ keys.*2 → proposals s' !! i = proposals s !! i)).
Proof.
  intros Hbody. revert s. unfold iterate_queue.
  induction keys as [|[t i] keys IH]; intros s HI Hnd Hk; cbn [mapM_].
  { apply runs_ret. split; [done|]. intros i. split; [by intros ?%not_elem_of_nil|done]. }
  rewrite fmap_cons in *. apply NoDup_cons in Hnd as [Hni Hnd]. cbn [snd] in *.
  destruct (Hk (t, i)) as (p & Hp & Hst); [by left|]. cbn in Hp.
  apply runs_bind, runs_bind, runs_gets. unfold GetProposal at 1. rewrite Hp. apply runs_bind. eapply runs_lift; [done|].
  eapply runs_mono; [by apply (Hbody i)|]. intros [] s1 (HI1 & Hf & Ho).
  eapply runs_mono; [apply IH; [done|done|]|].
  - intros k Hin. destruct (Hk k) as (q & Hq & ?); [by right|]. exists q. split; [|done]. rewrite Ho; [done|].
    intros E. apply Hni. rewrite <-E. by apply list_elem_of_fmap_2.
  - intros [] s2 [HI2 H2]. split; [done|]. intros j. destruct (H2 j) as [Hin Hout]. rewrite elem_of_cons. split.
    + intros [->|?]; [|auto]. by rewrite (proj2 (H2 i) Hni).
    + intros Hj. rewrite Hout by tauto. apply Ho. tauto.
Qed.

Lemma due_queue (limit : Z) (q : gset (Z * Z)) s (st : Z) (ends : Proposal C → Z) :
  (∀ t i, (t, i) ∈ q ↔ ∃ p, proposals s !! i = Some p ∧ Status p = st ∧ ends p = t) →
  NoDup (due limit q).*2 ∧
  (∀ k, k ∈ due limit q → ∃ p, proposals s !! snd k = Some p ∧ Status p = st) ∧
  (∀ i, i ∈ (due limit q).*2 ↔ ∃ p, proposals s !! i = Some p ∧ Status p = st ∧ ends p ≤ limit).
Proof.
  intros Hq. split; [|split].
  - apply NoDup_fmap_2_strong; [|apply NoDup_due].
    intros [t i] [t' i'] [(p & Hp & _ & <-)%Hq _]%elem_of_due [(p' & Hp' & _ & <-)%Hq _]%elem_of_due. cbn. congruence.
  - intros [t i] [(p & Hp & Hs & _)%Hq _]%elem_of_due. by exists p.
  - intros i. rewrite list_elem_of_fmap. split.
    + intros ([t j] & -> & [(p & Hp & ? & <-)%Hq Hle]%elem_of_due). by exists p.
    + intros (p & Hp & ? & ?). exists (ends p, i). split; [done|]. apply elem_of_due. split; [|done]. apply Hq. by exists p.
Qed.

(** What the end of a block at the time [now] makes of a proposal. *)
Definition block_ends (now : Z) (o o' : option (Proposal C)) : Prop :=
  match o with
  | None => o' = None
  | Some p =>
      if decide (Status p = StatusDepositPeriod ∧ DepositEndTime p ≤ now) then o' = None
      else if decide (Status p = StatusVotingPeriod ∧ VotingEndTime p ≤ now)
      then ∃ p', o' = Some p' ∧ closed p'
      else o' = Some p
  end.

Lemma end_block_ok ctx s : gov_inv s → runs (EndBlocker ctx) s (λ _ s',
  gov_inv s' ∧ ∀ i, block_ends (BlockTime ctx) (proposals s !! i) (proposals s' !! i)).
Proof.
  intros HI. set (now := BlockTime ctx). unfold EndBlocker. apply runs_bind.
  eapply runs_mono; [by apply waiting_ok|]. intros [] s1 [HI1 E1]. apply runs_bind.
  unfold handleInActiveProposals, IterateInactiveProposalsQueue. apply runs_bind, runs_gets. unfold InactiveProposalQueueIterator. fold now.
  destruct (due_queue now (inactiveQueue s1) s1 StatusDepositPeriod DepositEndTime (gi_inactive _ HI1)) as (Hn1 & Hk1 & Hd1).
  eapply runs_mono; [apply (queue_loop _ StatusDepositPeriod (λ o, o = None)); [|done|exact Hn1|exact Hk1]|].
  { intros i p s2 HI2 Hp Hst. eapply runs_mono; [by apply (drop_one_ok i)|]. intros [] s3 [HI3 ->].
    split; [done|]. split; [by rewrite lookup_delete_eq|]. intros j Hj. by rewrite lookup_delete_ne. }
  intros [] s2 [HI2 H2]. unfold handleActiveProposals, IterateActiveProposalsQueue. apply runs_bind, runs_gets. unfold ActiveProposalQueueIterator. fold now.
  destruct (due_queue now (activeQueue s2) s2 StatusVotingPeriod VotingEndTime (gi_active _ HI2)) as (Hn2 & Hk2 & Hd2).
  eapply runs_mono; [apply (queue_loop _ StatusVotingPeriod (λ o, ∃ p', o = Some p' ∧ closed p')); [|done|exact Hn2|exact Hk2]|].
  { intros i p s3 HI3 Hp Hst. eapply runs_mono; [by apply (tally_one_ok ctx i)|]. intros [] s4 (HI4 & p' & Hcl & ->).
    split; [done|]. split; [exists p'; by rewrite lookup_insert_eq|]. intros j Hj. by rewrite lookup_insert_ne. }
  intros [] s3 [HI3 H3]. split; [done|]. intros i. destruct (H2 i) as [H2in H2out], (H3 i) as [H3in H3out].
  rewrite Hd1, E1 in H2in, H2out. rewrite Hd2 in H3in, H3out. unfold block_ends.
  destruct (proposals s !! i) as [p|] eqn:Ep.
  - case_decide as Hdep.
    + rewrite (H2in ltac:(naive_solver)) in H3out. apply H3out. naive_solver.
    + rewrite H2out in H3in, H3out by naive_solver.
      case_decide as Hvot; [apply H3in; naive_solver|apply H3out; naive_solver].
  - rewrite H2out in H3out by naive_solver. apply H3out. naive_solver.
Qed.

(** ** Runs of the module *)

Definition signer (msg : Msg C) : option AccAddress :=
  match msg with
  | MDeposit m => Some (mdDepositor m)
  | MSubmitProposal m => Some (Proposer m)
  | MVote m => Some (mvVoter m)
  | MOther => None
  end.

(** A message that passed its stateless checks, signed by a user's account: it has a
    key, so it is not the account of a module. *)
Definition admissible (msg : Msg C) s : Prop :=
  ValidateBasic msg = Ok tt ∧ (∀ a, signer msg = Some a → free a ∧ a ≠ govAcc) ∧ ids_left s.

Lemma message_ok ctx msg s : gov_inv s → admissible msg s →
  (∀ m, msg = MSubmitProposal m → checked ctx m s ≠ Panic) → safe (NewHandler ctx msg) s (λ _, gov_inv).
Proof.
  intros HI (Hv & Hs & Hn) Hch. destruct msg as [m|m|m|]; cbn [NewHandler signer] in *; [| | |done].
  - destruct (Hs _ eq_refl). by apply handleMsgDeposit_ok.
  - destruct (Hs _ eq_refl). apply handleMsgSubmitProposal_ok; auto.
  - by apply handleMsgVote_ok.
Qed.

Lemma submit_checked ctx m s s' : NewHandler ctx (MSubmitProposal m) s = (Ok tt, s') → checked ctx m s ≠ Panic.
Proof.
  cbn. unfold handleMsgSubmitProposal, checked. intros H. apply bind_ok in H as (? & ? & [_ ->]%lift_ok & H).
  apply bind_ok in H as (c & ? & [Hc ->]%lift_ok & H). apply or_panic_ok in Hc. rewrite Hc.
  apply bind_ok in H as (? & ? & [= <- <-] & H). apply bind_ok in H as (? & ? & [E _]%lift_ok & _). cbn. by rewrite E.
Qed.

(** Messages, ends of blocks, and anything else that happens in the application. *)
Inductive gov_step : State → State → Prop :=
| step_message ctx msg s s' : admissible msg s → NewHandler ctx msg s = (Ok tt, s') → gov_step s s'
| step_end_block ctx s s' : EndBlocker ctx s = (Ok tt, s') → gov_step s s'
| step_elsewhere w s : Inv w → (∀ d, Bank.balance (bank w) govAcc d = bal s govAcc d) →
    gov_step s (set_world w s).

Lemma gov_step_inv s s' : gov_step s s' → gov_inv s → gov_inv s'.
Proof.
  intros [ctx msg s0 s0' Hm E|ctx s0 s0' E|w s0 Hw Hb] HI.
  - refine (safe_ok _ _ _ _ _ (message_ok ctx msg s0 HI Hm _) E). intros m ->. by eapply submit_checked.
  - pose proof (runs_eq _ _ _ _ _ E (end_block_ok ctx s0 HI)) as H. apply H.
  - eapply quiet_inv; [exact HI|done|]. split; [|done]. split; try done.
Qed.

Lemma gov_steps_inv s s' : rtc gov_step s s' → gov_inv s → gov_inv s'.
Proof. induction 1; [done|]. eauto using gov_step_inv. Qed.

(** ** Deposits by account *)

(** A depositor has one deposit on a proposal. *)
Lemma received_own (i : Z) (a : AccAddress) d s : map_Forall deposit_ok (deposits s) →
  received Depositor (GetDeposits i s) a d = from_option (deposit_amt d) 0 (deposits s !! (i, a)).
Proof.
  intros Hd. destruct (values_of_spec Depositor i (deposits s) (deposit_owner _ Hd)) as [Hnd Hin].
  change (values_of i (deposits s)) with (GetDeposits i s) in *. unfold received.
  destruct (deposits s !! (i, a)) as [x|] eqn:E; cbn [from_option].
  - destruct (Hd _ _ E) as [[= _ Ha] _ _ _]. rewrite <-Ha. apply zsum_pick; [done|]. apply Hin. by rewrite Ha.
  - apply zsum_none. intros x Hx%Hin <-. congruence.
Qed.

(** All deposits of a proposal together. *)
Lemma received_all (i : Z) (a : AccAddress) d s :
  received (λ _, a) (GetDeposits i s) a d = msum (deposit_amt d) (of_id i (deposits s)).
Proof.
  unfold received, GetDeposits, msum. rewrite <-list_fmap_compose.
  rewrite (zsum_perm _ _ (fmap_Permutation _ _ _ (keyed_sorted_perm id_key _))). f_equal.
  apply list_fmap_ext. intros j [k x] _. cbn. by rewrite decide_True.
Qed.

Lemma received_nothing to l (a : AccAddress) d : (∀ x, x ∈ l → to x ≠ a) → received to l a d = 0.
Proof. intros H. by apply (zsum_none (λ x, to x = a)). Qed.

End spec.
End GovSpec.
