(* ===== verification/Params.v ===== *)
(** * The params module: src/x/params/{proposal_handler,keeper}.go, src/x/params/types

    Proposals that change a parameter of some module, at once or at a height.  The
    module wraps the params module of the SDK, whose subspaces are the class [Env]:
    which ones there are, and the update of a parameter, which fails when the value is
    not valid and panics when the key was never registered.  The state [S] on which
    they work is that of the application, with the stores of the gov module. *)

From S2P Require Import Prelude SdkDec SdkCoins GoStd CommonErrors Common GovErrors Token Gov.

#[local] Open Scope Z_scope.

Module Params.

(** Constants of the SDK's module. *)
Definition ModuleName : string := "params".
Definition RouterKey : string := ModuleName.
Definition ProposalTypeChange : string := "ParameterChange".

Definition DefaultCodespace : string := "params".
Definition ErrInvalidParamsNum : error := MkError ModuleName 4005.

Record ParamChange := MkParamChange { Subspace : string; Key : string; Value : string }.

Record ParameterChangeProposal := MkParameterChangeProposal {
  Title : string; Description : string; Changes : list ParamChange; Height : Z
}.

Record Params := MkParams {
  MaxDepositPeriod : Z; MinDeposit : SysCoins; VotingPeriod : Z; MaxBlockHeight : Z
}.

Class Env (S : Type) := {
  GetSubspace : string → bool;
  Update : string → string → string → S → outcome S;
  ValidateChanges : list ParamChange → outcome unit;
  GetParams : S → Params;
  SetParams : Params → S → S;
  (* the interfaces StakingKeeper and BankKeeper of expected_keepers.go *)
  IsValidator : S → AccAddress → bool;
  GetCoins : S → AccAddress → SysCoins;
  HigherThanMercury : Z → bool;
  ErrUnknownSubspace : error;
  ErrSettingParameter : error;
}.

(** The embedding of the module's proposals in the contents of all proposals. *)
Class HasChange (C : Type) := { as_change : C → option ParameterChangeProposal }.

Section params.
Context `{DO : Dec.Ops} `{CO : Coins.Ops} {W C : Type} `{E : !Env (Gov.GovState W C)} `{HC : !HasChange C}.

Abbreviation State := (Gov.GovState W C) (only parsing).
Abbreviation MG := (M (Gov.GovState W C)) (only parsing).

Definition DefaultParams : option Params :=
  c ← Coins.NewDecCoin Coins.DefaultBondDenom 100;
  Some (MkParams (24 * 3600 * 10 ^ 9) [c] (72 * 3600 * 10 ^ 9) 100000).

Definition ParameterChangeProposal_ValidateBasic (pcp : ParameterChangeProposal) : outcome unit :=
  if (String.length (TrimSpace (Title pcp)) =? 0)%nat then Err GovErr.ErrInvalidProposalContent
  else if (Gov.MaxTitleLength <? String.length (Title pcp))%nat then Err GovErr.ErrInvalidProposalContent
  else if (String.length (Description pcp) =? 0)%nat then Err GovErr.ErrInvalidProposalContent
  else if (Gov.MaxDescriptionLength <? String.length (Description pcp))%nat then Err GovErr.ErrInvalidProposalContent
  else if negb (length (Changes pcp) =? 1)%nat then Err ErrInvalidParamsNum
  else ValidateChanges (Changes pcp).

(** The type switch on the content of a proposal. *)
Definition change_of (c : Gov.Content C) : option ParameterChangeProposal :=
  match c with Gov.ModuleProposal c => as_change c | _ => None end.

(** ss.Update, whose error is wrapped. *)
Definition update_param (c : ParamChange) : MG unit := λ s,
  match Update (Subspace c) (Key c) (Value c) s with
  | Ok s' => (Ok tt, s')
  | Err _ => (Err ErrSettingParameter, s)
  | Panic => (Panic, s)
  end.

Definition change_one (c : ParamChange) : MG unit :=
  throw_if (negb (GetSubspace (Subspace c))) ErrUnknownSubspace;; update_param c.

Definition changeParams (paramProposal : ParameterChangeProposal) : MG unit :=
  mapM_ change_one (Changes paramProposal).

Fixpoint check_denom (changes : list ParamChange) : outcome unit :=
  match changes with
  | [] => Ok tt
  | c :: changes =>
      if (String.eqb (Subspace c) "evm" && String.eqb (Key c) "EVMDenom")%bool then Err ErrSettingParameter
      else if (String.eqb (Subspace c) "staking" && String.eqb (Key c) "BondDenom")%bool then Err ErrSettingParameter
      else check_denom changes
  end.
Definition checkDenom (paramProposal : ParameterChangeProposal) : outcome unit := check_denom (Changes paramProposal).

(** A call that is made when the function is left, in whatever way. *)
Definition deferred (d : State → State) (m : MG unit) : MG unit := λ s, let '(r, s') := m s in (r, d s').

Definition handleParameterChangeProposal (ctx : Context) (proposal : Gov.Proposal C)
    (paramProposal : ParameterChangeProposal) : MG unit :=
  let curHeight := uint64 (BlockHeight ctx) in
  if (curHeight <? Height paramProposal)%Z
  then Gov.InsertWaitingProposalQueue (Height paramProposal) (Gov.ProposalID proposal)
  else deferred (λ s, snd (Gov.RemoveFromWaitingProposalQueue (Height paramProposal) (Gov.ProposalID proposal) s))
         (changeParams paramProposal).

Definition NewParamChangeProposalHandler (ctx : Context) (proposal : Gov.Proposal C) : MG unit :=
  match change_of (Gov.pContent proposal) with
  | Some c => handleParameterChangeProposal ctx proposal c
  | None => throw (CommonErr.ErrUnknownProposalType DefaultCodespace)
  end.

(** *** The interface ProposalHandler *)

Definition GetMinDeposit (content : Gov.Content C) (s : State) : SysCoins :=
  match change_of content with Some _ => MinDeposit (GetParams s) | None => [] end.
Definition GetMaxDepositPeriod (content : Gov.Content C) (s : State) : Z :=
  match change_of content with Some _ => MaxDepositPeriod (GetParams s) | None => 0 end.
Definition GetVotingPeriod (content : Gov.Content C) (s : State) : Z :=
  match change_of content with Some _ => VotingPeriod (GetParams s) | None => 0 end.

Definition MaxInt64 : Z := 2 ^ 63 - 1.

(** The assertion of the type panics on other contents; the changes are tried on a
    store that is thrown away. *)
Definition CheckMsgSubmitProposal (ctx : Context) (msg : Gov.MsgSubmitProposal C) (s : State) : outcome unit :=
  paramsChangeProposal ← or_panic (c ← Gov.spContent msg; change_of c);
  _ ← (if HigherThanMercury (BlockHeight ctx) then checkDenom paramsChangeProposal else Ok tt);
  if negb (IsValidator s (Gov.Proposer msg)) then Err GovErr.ErrInvalidProposer
  else
    let initDeposit := Coins.MulDec (MinDeposit (GetParams s)) (Dec.NewDecWithPrec 1 1) in
    if negb (is_ok (Common.HasSufficientCoins (Gov.Proposer msg) (Gov.InitialDeposit msg) initDeposit))
    then Err Coins.ErrInvalidCoins
    else if negb (is_ok (Common.HasSufficientCoins (Gov.Proposer msg)
                           (GetCoins s (Gov.Proposer msg)) (Gov.InitialDeposit msg)))
    then Err Coins.ErrInvalidCoins
    else
      let curHeight := uint64 (BlockHeight ctx) in
      let height := Height paramsChangeProposal in
      let maxHeight := if (MaxBlockHeight (GetParams s) =? 0)%Z then uint64 (MaxInt64 - height)
                       else MaxBlockHeight (GetParams s) in
      if ((height <? curHeight) || (uint64 (curHeight + maxHeight) <? height))%Z%bool then Err GovErr.ErrInvalidHeight
      else fst (changeParams paramsChangeProposal s).

Definition proposal_handler : Gov.ProposalHandler W C :=
  Gov.MkProposalHandler _ _ GetMinDeposit GetMaxDepositPeriod GetVotingPeriod CheckMsgSubmitProposal
    (λ _ _, mret tt) (λ _ _ _, mret tt) (λ _ _, mret tt) (λ _ _, mret tt).
End params.
End Params.
