(* ===== verification/GovApp.v ===== *)
(** * The gov module with the modules whose proposals it runs

    The composition of app.go for the proposals of the gov, params and dex modules:
    the content of a proposal is a text, a delisting or a change of a parameter, and
    the rest of the application is the state of the dex module (with the tokens and
    the bank below it), the parameters of the params module, and what the staking
    keeper shows.  The interface [GovSpec.AppLaws] is discharged by the theorems on the
    dex module and by the laws of the SDK's parameter store ([Subspaces]).

    The two modules see the active queue of the gov module through their own
    interfaces: the state of the dex module has it as [Dex.govQueue]. *)

From S2P Require Import Prelude Runs SdkDec SdkCoins GoStd CoinFacts CommonErrors Common DexErrors GovErrors Token OrderTypes Dex DexSpec Gov GovTally GovSpec Params.

#[local] Open Scope Z_scope.

Module GovApp.
Import Gov.

Inductive ModuleContent := Delist (p : Dex.DelistProposal) | Change (p : Params.ParameterChangeProposal).

Record World `{BO : Bank.Ops} := MkWorld {
  dex : Dex.DexState;
  params : Params.Params;
  validators : list ValidatorI;
  delegators : gmap AccAddress DelegatorI;
}.
Arguments World : clear implicits.
Arguments World {BO}.

Section app.
Context `{DO : Dec.Ops} `{CO : Coins.Ops} `{BO : Bank.Ops} `{TE : !Token.Env} `{E : !Dex.Env} `{RT : !GoRt}.

Abbreviation State := (GovState World ModuleContent) (only parsing).
Abbreviation MG := (M (GovState World ModuleContent)) (only parsing).

Definition set_dex (d : Dex.DexState) (w : World) : World := MkWorld _ d (params w) (validators w) (delegators w).
Definition set_params (x : Params.Params) (w : World) : World := MkWorld _ (dex w) x (validators w) (delegators w).

(** The parameter store of the SDK. *)
Class Subspaces := {
  has_subspace : string → bool;
  update : string → string → string → State → outcome State;
  validate_changes : list Params.ParamChange → outcome unit;
  err_unknown_subspace : error;
  err_setting_parameter : error;
}.
Context `{SU : !Subspaces}.

#[export] Instance params_env : Params.Env State := {|
  Params.GetSubspace := has_subspace;
  Params.Update := update;
  Params.ValidateChanges := validate_changes;
  Params.GetParams s := params (world s);
  Params.SetParams x s := set_world (set_params x (world s)) s;
  Params.IsValidator _ a := Dex.IsValidator a;
  Params.GetCoins s a := Bank.GetCoins (Dex.bank (dex (world s))) a;
  Params.HigherThanMercury := Token.HigherThanMercury;
  Params.ErrUnknownSubspace := err_unknown_subspace;
  Params.ErrSettingParameter := err_setting_parameter;
|}.

#[export] Instance has_change : Params.HasChange ModuleContent := {|
  Params.as_change c := match c with Change p => Some p | Delist _ => None end;
|}.

#[export] Instance contents : Contents ModuleContent := {|
  cRoute c := match c with Delist _ => Dex.ModuleName | Change _ => Params.RouterKey end;
  cType c := match c with Delist _ => "Delist" | Change _ => Params.ProposalTypeChange end;
  cValidateBasic c :=
    match c with
    | Delist p => Dex.DelistProposal_ValidateBasic p
    | Change p => Params.ParameterChangeProposal_ValidateBasic p
    end;
  registered_type t := (String.eqb t "Delist" || String.eqb t Params.ProposalTypeChange)%bool;
|}.

(** ** The proposals of the dex module *)

Definition dex_content (c : Content ModuleContent) : Dex.Content :=
  match c with ModuleProposal (Delist p) => Dex.CDelist p | _ => Dex.COther end.
Definition dex_proposal (p : Proposal ModuleContent) : Dex.Proposal :=
  Dex.MkProposal (ProposalID p) (VotingEndTime p) (dex_content (pContent p)).

Definition dex_view (s : State) : Dex.DexState := Dex.set_govQueue (activeQueue s) (dex (world s)).
Definition dex_update (d : Dex.DexState) (s : State) : State :=
  set_activeQueue (Dex.govQueue d) (set_world (set_dex d (world s)) s).

Definition on_dex (m : M Dex.DexState unit) : MG unit := zoom dex_view dex_update m.

Definition dex_route (ctx : Context) (p : Proposal ModuleContent) : MG unit :=
  on_dex (Dex.NewProposalHandler ctx (dex_proposal p)).

Definition dex_handler : ProposalHandler World ModuleContent :=
  MkProposalHandler _ _
    (λ c s, Dex.GetMinDeposit (dex_content c) (dex_view s))
    (λ c s, Dex.GetMaxDepositPeriod (dex_content c) (dex_view s))
    (λ c s, Dex.GetVotingPeriod (dex_content c) (dex_view s))
    (λ _ msg s, match spContent msg with
                | None => Err Coins.ErrUnknownRequest
                | Some c => Dex.CheckMsgSubmitProposal (dex_content c) (Proposer msg) (InitialDeposit msg) (dex_view s)
                end)
    (λ _ _, mret tt)
    (λ _ p _ s, (Dex.VoteHandler (dex_proposal p) (dex_view s), s))
    (λ _ p, on_dex (Dex.AfterDepositPeriodPassed (dex_proposal p)))
    (λ _ c, on_dex (Dex.RejectedHandler (dex_content c))).

(** ** The application

    The routers of app.go, without the routes of the distribution and farm modules. *)

#[export] Instance app : App World ModuleContent := {|
  bank w := Dex.bank (dex w);
  set_bank b w := set_dex (Dex.set_bank b (dex w)) w;
  BondedValidators := validators;
  Delegator w a := delegators w !! a;
  GetRoute r :=
    if String.eqb r RouterKey then Some text_handler
    else if String.eqb r Params.RouterKey then Some Params.NewParamChangeProposalHandler
    else if String.eqb r Dex.ModuleName then Some dex_route
    else None;
  module_handlers r :=
    if String.eqb r Params.RouterKey then Some Params.proposal_handler
    else if String.eqb r Dex.ModuleName then Some dex_handler
    else None;
  feeCollectorName := Token.feeCollectorName;
|}.
End app.

(** ** The laws *)

Section spec.
Context `{DO : Dec.Ops} `{DL : !Dec.Laws} `{CO : !Coins.Ops} `{CL : !Coins.Laws}
  `{BO : !Bank.Ops} `{BL : !Bank.Laws} `{TE : !Token.Env} `{E : !Dex.Env} `{RT : !GoRt} `{RL : !GoRtLaws}
  `{SU : !Subspaces}.

Abbreviation State := (GovState World ModuleContent) (only parsing).

(** [s'] is [s] with other parameters. *)
Definition other_params (s s' : State) : Prop :=
  ∃ dp vp tp x y, s' = set_depositParams dp (set_votingParams vp (set_tallyParams tp
    (set_world (set_params x (set_dex (Dex.set_params y (dex (world s))) (world s))) s))).

(** An update writes a parameter; whether the key is registered does not depend on the
    state or the value. *)
Class SubspaceLaws : Prop := {
  update_ok ss key v s s' : update ss key v s = Ok s' → other_params s s';
  update_registered ss key v v' s s' : update ss key v s ≠ Panic → update ss key v' s' ≠ Panic;
}.

(** The accounts of the modules are different. *)
Class AppAccounts : Prop := {
  dex_accounts :: DexSpec.Accounts;
  gov_ne_dex : GovSpec.govAcc ≠ DexSpec.dexAcc;
  collector_ne : Bank.GetModuleAddress Token.feeCollectorName ≠ GovSpec.govAcc;
}.

(** What the staking keeper shows, in a world that is in order. *)
Record staking_ok (w : World) : Prop := {
  so_distinct : NoDup (GetOperator <$> validators w);
  so_shares v : v ∈ validators w → 0 ≤ GetDelegatorShares v;
  so_delegator a d : delegators w !! a = Some d →
    0 ≤ GetLastAddedShares d ∧ NoDup (GetShareAddedValidatorAddresses d);
  so_include v l : v ∈ validators w → NoDup l →
    zsum ((λ a, GovTally.share_of w a (GetOperator v)) <$> l) ≤ GetDelegatorShares v;
}.

Definition world_inv (w : World) : Prop := DexSpec.dex_inv (dex w) ∧ staking_ok w.
Definition free (a : AccAddress) : Prop := a ≠ DexSpec.dexAcc.

(** The changes of a proposal do not panic. *)
Definition content_ok (c : Content ModuleContent) : Prop :=
  match Params.change_of c with
  | Some p => ∀ c (s : State), c ∈ Params.Changes p → fst (Params.change_one c s) ≠ Panic
  | None => True
  end.

#[export] Instance staking_laws : GovTally.StakingLaws world_inv.
Proof.
  split.
  - intros w [_ H]. apply H.
  - intros w v [_ H]. apply H.
  - intros w a d [_ H]. apply H.
  - intros w v l [_ H]. apply H.
Qed.

Lemma staking_same w w' : validators w' = validators w → delegators w' = delegators w → staking_ok w → staking_ok w'.
Proof.
  intros E1 E2 [H1 H2 H3 H4]. split.
  - by rewrite E1.
  - intros v. rewrite E1. apply H2.
  - intros a d. rewrite E2. apply H3.
  - intros v l. rewrite E1. intros Hv Hl. etrans; [|by apply (H4 v l)]. apply Z.eq_le_incl. f_equal.
    apply list_fmap_ext. intros i a _. unfold GovTally.share_of. cbn. by rewrite E2.
Qed.

Lemma world_dex (w : World) d : world_inv w → DexSpec.dex_inv d → world_inv (set_dex d w).
Proof. intros [_ Hs] Hd. split; [done|]. by apply (staking_same w). Qed.

Lemma view_inv s : world_inv (world s) → DexSpec.dex_inv (dex_view s).
Proof. intros [H _]. by apply (DexSpec.inv_same (dex (world s))). Qed.

(** *** Delisting *)

Lemma withdraw_safe ctx p s : DexSpec.dex_inv s → Dex.pairs s !! Dex.Name p = Some p →
  safe (Dex.Withdraw ctx (Dex.Name p) (Dex.Owner p) (Dex.Deposits p)) s (λ _ _, True).
Proof.
  intros HI Hp. destruct (DexSpec.di_pairs _ HI _ _ Hp) as (_ & _ & Hd & _). unfold Dex.Withdraw.
  apply safe_bind, safe_gets. unfold Dex.GetTokenPair. rewrite Hp. apply safe_bind, safe_ret.
  apply safe_bind, safe_throw_if. intros _. apply safe_bind, safe_throw_if. intros _.
  rewrite Coins.CoinIsLT_ok by done. apply safe_bind, safe_lift; [done|]. intros lt _.
  apply safe_bind, safe_throw_if. intros _. apply safe_bind, safe_gets. apply safe_bind, safe_gets. apply safe_bind.
  assert (∀ w t s0, safe (Dex.SetWithdrawInfo w;; Dex.SetWithdrawCompleteTimeAddress t (Dex.Owner p);; deposits ← lift (or_panic (Coins.CoinSub (Dex.Deposits p) (Dex.Deposits p)));
    Dex.UpdateTokenPair (Dex.Name p) (Dex.set_Deposits deposits p)) s0 (λ _ _, True)) as Htail.
  { intros w t s0. rewrite Coins.CoinSub_ok by done. done. }
  unfold Dex.GetWithdrawInfo. destruct (Dex.withdraws s !! Dex.Owner p) as [w|] eqn:Ew; [|apply safe_ret, Htail].
  destruct (DexSpec.di_waits _ HI _ _ Ew) as (_ & _ & Hwd & _).
  apply safe_bind, safe_runs, runs_modify. rewrite Coins.CoinAdd_ok by congruence. apply safe_bind, safe_lift; [done|].
  intros c _. apply safe_ret, Htail.
Qed.

(** A delisting does not panic; it moves no coins, and takes its proposal out of the
    queue. *)
Lemma delist_safe ctx prop p s : DexSpec.dex_inv s →
  safe (Dex.handleDelistProposal ctx prop p) s (λ _ s', DexSpec.dex_inv s' ∧ Dex.bank s' = Dex.bank s ∧
    Dex.govQueue s' = Dex.govQueue s ∖ {[(Dex.VotingEndTime prop, Dex.ProposalID prop)]}).
Proof.
  intros HI. unfold Dex.handleDelistProposal. cbv zeta. apply safe_bind, safe_gets, safe_bind, safe_or_throw.
  intros tp Hp. unfold Dex.GetTokenPair in Hp. set (name := _ +:+ _) in *.
  apply safe_bind, safe_gets, safe_bind, safe_throw_if. intros Hl.
  destruct (DexSpec.di_pairs _ HI _ _ Hp) as (Hname & _). rewrite <-Hname in Hp.
  apply safe_bind. apply (safe_mono _ _ (λ _ s1, (if Coins.CoinIsPositive (Dex.Deposits tp) then
    wrap_err (λ _, DexErr.ErrWithdrawFailed) (Dex.Withdraw ctx (Dex.Name tp) (Dex.Owner tp) (Dex.Deposits tp))
    else mret tt) s = (Ok tt, s1))).
  { destruct (Coins.CoinIsPositive (Dex.Deposits tp)); [|done].
    pose proof (withdraw_safe ctx tp s HI Hp) as H. unfold safe, wrap_err in *.
    by destruct (Dex.Withdraw _ _ _ _ s) as [[[]| |] s1]. }
  intros [] s1 H1. destruct (DexSpec.withdraw_all_inv _ _ _ _ _ _ _ HI H1) as (HI1 & _ & _ & _ & Hcases).
  apply safe_runs. apply runs_bind, runs_bind, runs_modify, runs_modify, runs_modify.
  assert (Dex.bank s1 = Dex.bank s ∧ Dex.govQueue s1 = Dex.govQueue s ∧
    ∀ d, from_option (DexSpec.pair_amt d) 0 (Dex.pairs s1 !! name) = 0) as (Eb & Eq & Hz).
  { destruct Hcases as [[-> Hle]|(q & Hq & _ & ->)].
    - split; [done|]. split; [done|]. intros d. rewrite <-Hname, Hp. cbn.
      destruct (DexSpec.di_pairs _ HI _ _ Hp) as (_ & _ & _ & Hpa). unfold DexSpec.pair_amt, coin_amt. case_decide; lia.
    - split; [done|]. split; [done|]. intros d. rewrite Hp in Hq. injection Hq as <-.
      unfold DexSpec.withdrawn, DexSpec.deposited. cbn. rewrite <-Hname, lookup_insert_eq. cbn.
      unfold DexSpec.pair_amt, coin_amt. cbn. case_decide; lia. }
  split; [|by rewrite <-Eb, <-Eq]. 
  by apply (DexSpec.inv_same (Dex.set_pairs (delete name (Dex.pairs s1)) s1)), DexSpec.inv_delete.
Qed.

(** Marking a pair does not fail, and moves no coins. *)
Lemma mark_ok c b s : DexSpec.dex_inv s → runs (Dex.mark_delisting c b) s (λ _ s',
  DexSpec.dex_inv s' ∧ Dex.bank s' = Dex.bank s ∧ Dex.govQueue s' = Dex.govQueue s).
Proof.
  intros HI. assert (∃ s', Dex.mark_delisting c b s = (Ok tt, s') ∧ Dex.bank s' = Dex.bank s ∧
    Dex.govQueue s' = Dex.govQueue s) as (s' & Es & ? & ?).
  { destruct c as [p|]; [|by exists s]. unfold Dex.mark_delisting, mbind, M_bind, gets.
    destruct (Dex.GetTokenPair _ s); by eexists. }
  exists tt, s'. split; [done|]. split; [by eapply DexSpec.mark_inv|done].
Qed.

(** *** The two modules on the state of the gov module *)

Lemma on_dex_runs (m : M Dex.DexState unit) s Q :
  runs m (dex_view s) (λ _ d, Q (dex_update d s)) → runs (on_dex m) s (λ _, Q).
Proof. intros (a & d & Em & H). exists a, (dex_update d s). split; [|done]. unfold on_dex, zoom. by rewrite Em. Qed.

Lemma on_dex_safe (m : M Dex.DexState unit) s Q :
  safe m (dex_view s) (λ _ d, Q (dex_update d s)) → safe (on_dex m) s (λ _, Q).
Proof. unfold safe, on_dex, zoom. by destruct (m (dex_view s)) as [[] d]. Qed.

(** The module changed its own state only. *)
Lemma dex_stores d s : Dex.bank d = Dex.bank (dex_view s) → GovSpec.stores_kept s (dex_update d s).
Proof. intros Hb. split; [done..|]. intros x. unfold GovSpec.bal. cbn. by rewrite Hb. Qed.

Lemma mark_quiet c b s : world_inv (world s) →
  runs (on_dex (Dex.mark_delisting c b)) s (λ _ s', world_inv (world s') ∧ GovSpec.quiet s s').
Proof.
  intros Hw. apply (on_dex_runs _ _ (λ s', world_inv (world s') ∧ GovSpec.quiet s s')).
  eapply runs_mono; [by apply mark_ok, view_inv|].
  intros [] d (Hd & Hb & Hq). split; [by apply world_dex|]. split; [by apply dex_stores|done].
Qed.

Lemma delist_executed ctx (p : Proposal ModuleContent) s : world_inv (world s) →
  safe (dex_route ctx p) s (λ _ s', world_inv (world s') ∧ GovSpec.executed p s s').
Proof.
  intros Hw. apply (on_dex_safe _ _ (λ s', world_inv (world s') ∧ GovSpec.executed p s s')).
  unfold Dex.NewProposalHandler. cbn [Dex.pContent dex_proposal].
  destruct (dex_content (pContent p)) as [q|]; [|done].
  eapply safe_mono; [by apply delist_safe, view_inv|]. intros [] d (Hd & Hb & Hq).
  split; [by apply world_dex|]. cbn in Hq. split; [by apply dex_stores|..]; cbn; rewrite ?Hq.
  - intros k. by intros [? _]%elem_of_difference.
  - intros k Hk Hne. apply elem_of_difference. split; [done|]. intros ->%elem_of_singleton. done.
  - intros k. by left.
Qed.

Context `{SUL : !SubspaceLaws}.

Lemma other_params_ok s s' : world_inv (world s) → other_params s s' → world_inv (world s') ∧ GovSpec.quiet s s'.
Proof.
  intros [Hd Hs] (dp & vp & tp & x & y & ->). split; [split|].
  - by apply (DexSpec.inv_same (dex (world s))).
  - by apply (staking_same (world s)).
  - split; [by split|done].
Qed.

Lemma quiet_trans (s1 s2 s3 : State) : GovSpec.quiet s1 s2 → GovSpec.quiet s2 s3 → GovSpec.quiet s1 s3.
Proof.
  intros ([] & ? & ?) ([] & ? & ?). split; [split; congruence|split; congruence].
Qed.

Lemma change_one_ok c s : world_inv (world s) → fst (Params.change_one c s) ≠ Panic →
  safe (Params.change_one c) s (λ _ s', world_inv (world s') ∧ GovSpec.quiet s s').
Proof.
  intros Hw Hp. unfold Params.change_one in *. apply safe_bind, safe_throw_if. intros Hss. rewrite Hss in Hp.
  change (fst (Params.update_param c s) ≠ Panic) in Hp. unfold safe, Params.update_param in *. cbn in *.
  destruct (update _ _ _ s) as [s'|e|] eqn:Eu; [|done|done]. by eapply other_params_ok, update_ok.
Qed.

(** Whether a change panics does not depend on the state. *)
Lemma change_one_static c s s' : fst (Params.change_one c s) ≠ Panic → fst (Params.change_one c s') ≠ Panic.
Proof.
  unfold Params.change_one. destruct (negb _); [done|].
  change (fst (Params.update_param c s) ≠ Panic → fst (Params.update_param c s') ≠ Panic).
  unfold Params.update_param. cbn. intros H. pose proof (update_registered (Params.Subspace c) (Params.Key c)
    (Params.Value c) (Params.Value c) s s') as Hr. destruct (update _ _ _ s) eqn:E1, (update _ _ _ s') eqn:E2; try done;
    exfalso; by apply Hr.
Qed.

Lemma changes_ok l s : world_inv (world s) → (∀ c s, c ∈ l → fst (Params.change_one c s) ≠ Panic) →
  safe (mapM_ Params.change_one l) s (λ _ s', world_inv (world s') ∧ GovSpec.quiet s s').
Proof.
  revert s. induction l as [|c l IH]; intros s Hw Hl; cbn [mapM_].
  - apply safe_ret. split; [done|]. split; [by split|done].
  - apply safe_bind. eapply safe_mono; [apply change_one_ok; [done|apply Hl; set_solver]|].
    intros [] s1 [Hw1 Hq1]. eapply safe_mono; [apply IH; [done|]; intros c' s' ?; apply Hl; set_solver|].
    intros [] s2 [Hw2 Hq2]. split; [done|]. by eapply quiet_trans.
Qed.

Lemma changes_checked l s s' : mapM_ Params.change_one l s = (Ok tt, s') →
  ∀ c s0, c ∈ l → fst (Params.change_one c s0) ≠ Panic.
Proof.
  revert s. induction l as [|x l IH]; intros s H c s0 Hc; [by apply not_elem_of_nil in Hc|]. cbn [mapM_] in H.
  apply bind_ok in H as (u & s1 & E1 & H). apply elem_of_cons in Hc as [->|Hc]; [|by eapply IH].
  apply (change_one_static x s). by rewrite E1.
Qed.

Lemma quiet_self (s : State) : GovSpec.quiet s s.
Proof. split; [by split|done]. Qed.

Lemma change_executed ctx (p : Proposal ModuleContent) s : world_inv (world s) → content_ok (pContent p) →
  safe (Params.NewParamChangeProposalHandler ctx p) s (λ _ s', world_inv (world s') ∧ GovSpec.executed p s s').
Proof.
  intros Hw Hco. unfold Params.NewParamChangeProposalHandler, content_ok in *.
  destruct (Params.change_of (pContent p)) as [c|]; [|done]. unfold Params.handleParameterChangeProposal. cbv zeta.
  case_match.
  - apply safe_runs, runs_modify. split; [done|]. split; [by split|by auto|by auto|].
    intros k. cbn. rewrite elem_of_union, elem_of_singleton. intros [->|]; [by right|by left].
  - unfold Params.deferred, Params.changeParams. pose proof (changes_ok (Params.Changes c) s Hw Hco) as H'.
    unfold safe in *. destruct (mapM_ _ _ s) as [[[]| |] s1]; [|done|done].
    destruct H' as (Hw1 & [E1 E2 E3 E4 E5 E6] & E7 & E8). split; [done|]. cbn. split; [by split|..]; cbn; rewrite ?E7, ?E8.
    + by auto.
    + by auto.
    + intros k. by intros [? _]%elem_of_difference; left.
Qed.

Lemma handlers_cases r h : module_handlers r = Some h →
  (r = Params.RouterKey ∧ h = Params.proposal_handler) ∨ (r = Dex.ModuleName ∧ h = dex_handler).
Proof.
  cbn. destruct (String.eqb_spec r Params.RouterKey) as [->|]; [intros [= <-]; by left|].
  destruct (String.eqb_spec r Dex.ModuleName) as [->|]; [intros [= <-]; by right|done].
Qed.

Lemma change_checked ctx msg c s : spContent msg = Some c →
  Params.CheckMsgSubmitProposal ctx msg s = Ok tt → content_ok c.
Proof.
  intros Hc. unfold Params.CheckMsgSubmitProposal, content_ok. rewrite Hc. cbn [mbind option_bind].
  destruct (Params.change_of c) as [p|]; [|done]. cbn [or_panic mbind outcome_bind]. intros H.
  apply obind_ok in H as (u & _ & H). do 4 (case_match; [done|]).
  destruct (Params.changeParams p s) as [[[]| |] s1] eqn:Ep; [|done|done]. by eapply changes_checked.
Qed.

Lemma plain_content c : ProposalRoute c = RouterKey ∨ module_handlers (ProposalRoute c) = None → content_ok c.
Proof. destruct c as [| |[]]; try done. by intros []. Qed.

Context `{AA : !AppAccounts}.

Lemma world_moved w b from to c : world_inv w → free from → free to → Bank.moved (bank w) b from to c →
  world_inv (set_bank b w).
Proof. intros Hw Hf Ht Hm. apply world_dex; [done|]. eapply DexSpec.inv_moved; [apply Hw|exact Hf|exact Ht|exact Hm]. Qed.

#[export] Instance app_laws : GovSpec.AppLaws world_inv free content_ok.
Proof.
  split.
  - done.
  - intros w. destruct w as [[[] ? ? ? ? ? ? ? ? ?] ? ? ?]. done.
  - done.
  - apply gov_ne_dex.
  - apply DexSpec.collector_ne.
  - apply collector_ne.
  - apply world_moved.
  - intros r h ctx p s Hr Hp Hco Hw. cbn in Hr. destruct (String.eqb_spec r RouterKey) as [Er|].
    { injection Hr as <-. unfold text_handler. case_match; [|done]. apply safe_ret. split; [done|].
      split; [by split|by auto|by auto|by auto]. }
    destruct (String.eqb_spec r Params.RouterKey); [injection Hr as <-; by apply change_executed|].
    destruct (String.eqb_spec r Dex.ModuleName); [injection Hr as <-; by apply delist_executed|done].
  - intros h ctx msg s c Hc [[_ ->]|[Er ->]]%handlers_cases H; [exact (change_checked ctx msg c s Hc H)|].
    destruct c as [| |[p|p]]; [done|done|done|by cbn in Er].
  - apply plain_content.
  - intros r h ctx p s [[_ ->]|[_ ->]]%handlers_cases Hw; by apply runs_ret; split; [|apply quiet_self].
  - intros r h ctx p v s [[_ ->]|[_ ->]]%handlers_cases Hw; [by apply safe_ret; split; [|apply quiet_self]|].
    unfold safe. cbn. destruct (Dex.VoteHandler _ _) as [| |] eqn:Ev; [by split; [|apply quiet_self]|done|].
    unfold Dex.VoteHandler in Ev. by repeat case_match.
  - intros r h ctx p s [[_ ->]|[_ ->]]%handlers_cases Hw; [by apply runs_ret; split; [|apply quiet_self]|].
    by apply mark_quiet.
  - intros r h ctx c s [[_ ->]|[_ ->]]%handlers_cases Hw; [by apply runs_ret; split; [|apply quiet_self]|].
    by apply mark_quiet.
Qed.

End spec.
End GovApp.
