(* ===== verification/GovGenesis.v ===== *)
(** * The genesis of the gov module

    A state in order that is exported and imported again is the same state: proposals,
    deposits, votes, the three queues and the parameters. *)

From S2P Require Import Prelude Runs SdkDec SdkCoins GoStd CoinFacts CommonErrors Common GovErrors Token Gov GovTally GovSpec.

#[local] Open Scope Z_scope.

Module GovGenesis.
Import Gov GovTally GovSpec.

(** ** Stores and queues that are written entry by entry *)

Section stores.
Context `{Countable K} {A : Type} (key : A → K).

Definition insert_each (l : list A) (m : gmap K A) : gmap K A := foldl (λ m x, <[key x := x]> m) m l.

Lemma lookup_insert_each l (M m : gmap K A) k : (∀ x, x ∈ l → M !! key x = Some x) →
  insert_each l m !! k = if decide (k ∈ key <$> l) then M !! k else m !! k.
Proof.
  revert m. induction l as [|x l IH]; intros m Hl; cbn [insert_each foldl]; [by rewrite decide_False by set_solver|].
  fold (insert_each l (<[key x := x]> m)). rewrite IH by set_solver. rewrite lookup_insert, fmap_cons.
  pose proof (Hl x ltac:(set_solver)) as Hx. clear IH. destruct (decide (key x = k)) as [<-|Hne].
  - rewrite (decide_True (P := key x ∈ key x :: _)) by set_solver. by case_decide.
  - apply decide_ext. set_solver.
Qed.

(** The values of a map, in any order, give the map. *)
Lemma insert_values l (M : gmap K A) : map_Forall (λ k x, key x = k) M →
  (∀ x, x ∈ l ↔ M !! key x = Some x) → insert_each l ∅ = M.
Proof.
  intros Hk Hl. apply map_eq. intros k. rewrite (lookup_insert_each l M) by (intros; by apply Hl).
  case_decide as Hin; [done|]. rewrite lookup_empty. symmetry. destruct (M !! k) as [x|] eqn:E; [|done].
  destruct Hin. pose proof (Hk _ _ E) as <-. apply list_elem_of_fmap_2, Hl. done.
Qed.
End stores.

Definition collect {A} (f : A → option (Z * Z)) (l : list A) (q : gset (Z * Z)) : gset (Z * Z) :=
  foldl (λ q x, match f x with Some k => {[k]} ∪ q | None => q end) q l.

Lemma collect_cons {A} (f : A → option (Z * Z)) x l q :
  collect f (x :: l) q = collect f l (match f x with Some k => {[k]} ∪ q | None => q end).
Proof. done. Qed.

Lemma elem_of_collect {A} (f : A → option (Z * Z)) l q k : k ∈ collect f l q ↔ k ∈ q ∨ ∃ x, x ∈ l ∧ f x = Some k.
Proof.
  revert q. induction l as [|x l IH]; intros q; cbn [collect foldl].
  - split; [by left|]. intros [?|(x & ?%not_elem_of_nil & _)]; done.
  - fold (collect f l (match f x with Some k => {[k]} ∪ q | None => q end)). rewrite IH.
    destruct (f x) as [k'|] eqn:E; rewrite ?elem_of_union, ?elem_of_singleton; setoid_rewrite elem_of_cons; naive_solver.
Qed.

Section spec.
Context `{DO : Dec.Ops} `{DL : !Dec.Laws} `{CO : !Coins.Ops} `{CL : !Coins.Laws}
  `{BO : !Bank.Ops} `{BL : !Bank.Laws} `{RT : GoRt} `{RL : !GoRtLaws}
  {W C : Type} `{CT : !Contents C} `{AP : !App W C} (Inv : W → Prop) (free : AccAddress → Prop)
  (content_ok : Content C → Prop) `{SL : !StakingLaws Inv} `{AL : !AppLaws Inv free content_ok}.
Implicit Types s : GovState W C.

Abbreviation inv := (gov_inv Inv free content_ok) (only parsing).

(** ** The loops of InitGenesis *)

Lemma set_deposits_each l s : mapM_ SetDeposit l s =
  (Ok tt, set_deposits (insert_each (λ x, (dProposalID x, Depositor x)) l (deposits s)) s).
Proof. revert s. induction l as [|x l IH]; intros s; [by destruct s|]. cbn [mapM_]. erewrite bind_eq by done. by rewrite IH. Qed.

Lemma set_votes_each l s : mapM_ (λ vote, SetVote (vProposalID vote) vote) l s =
  (Ok tt, set_votes (insert_each (λ x, (vProposalID x, Voter x)) l (votes s)) s).
Proof. revert s. induction l as [|x l IH]; intros s; [by destruct s|]. cbn [mapM_]. erewrite bind_eq by done. by rewrite IH. Qed.

Definition inactive_key (p : Proposal C) : option (Z * Z) :=
  if (Status p =? StatusDepositPeriod)%Z then Some (DepositEndTime p, ProposalID p) else None.
Definition active_key (p : Proposal C) : option (Z * Z) :=
  if (Status p =? StatusDepositPeriod)%Z then None
  else if (Status p =? StatusVotingPeriod)%Z then Some (VotingEndTime p, ProposalID p) else None.

Lemma init_proposal_eq p s : init_proposal p s =
  (Ok tt, set_activeQueue (collect active_key [p] (activeQueue s))
    (set_inactiveQueue (collect inactive_key [p] (inactiveQueue s))
      (set_proposals (<[ProposalID p := p]> (proposals s)) s))).
Proof.
  unfold init_proposal, collect, active_key, inactive_key. cbn [foldl].
  destruct s, (Status p =? StatusDepositPeriod); [done|]. by destruct (Status p =? StatusVotingPeriod).
Qed.

Lemma init_proposals_each l s : mapM_ init_proposal l s =
  (Ok tt, set_activeQueue (collect active_key l (activeQueue s))
    (set_inactiveQueue (collect inactive_key l (inactiveQueue s))
      (set_proposals (insert_each ProposalID l (proposals s)) s))).
Proof.
  revert s. induction l as [|p l IH]; intros s; [by destruct s|]. cbn [mapM_].
  erewrite bind_eq by apply init_proposal_eq. by rewrite IH.
Qed.

Definition waiting_key (kv : string * Z) : option (Z * Z) := (λ i, (snd kv, i)) <$> ParseUint (fst kv).

Lemma init_waiting_each l s : Forall (λ kv, is_Some (ParseUint (fst kv))) l →
  mapM_ init_waiting l s = (Ok tt, set_waitingQueue (collect waiting_key l (waitingQueue s)) s).
Proof.
  intros Hl. revert s. induction Hl as [|kv l [i Hi] _ IH]; intros s; [by destruct s|]. cbn [mapM_].
  assert (init_waiting kv s = (Ok tt, set_waitingQueue (collect waiting_key [kv] (waitingQueue s)) s)) as E.
  { unfold init_waiting, collect, waiting_key. cbn [foldl]. by rewrite Hi. }
  erewrite bind_eq by exact E. by rewrite IH.
Qed.

(** ** The export *)

Lemma exported_proposals s n : inv s → nextID s = Some n →
  ∀ p, p ∈ GetProposalsFiltered "" "" StatusNil 0 s ↔ proposals s !! ProposalID p = Some p.
Proof.
  intros HI Hn p. destruct (gi_next _ _ _ _ HI) as (n' & En & Hn0 & Hlt). rewrite Hn in En. injection En as <-.
  unfold GetProposalsFiltered, GetProposalID. rewrite Hn. cbn [Z.eqb]. rewrite Z.sub_diag. change (uint64 0) with 0.
  rewrite list_elem_of_omap. split.
  - intros (i & _ & Hk). cbn in Hk. unfold GetProposal in Hk. destruct (proposals s !! i) as [q|] eqn:E; [|done].
    injection Hk as <-. by rewrite (pr_id _ _ _ _ (gi_proposals _ _ _ _ HI _ _ E)).
  - intros Hp. exists (ProposalID p). split; [|cbn; unfold GetProposal; by rewrite Hp].
    apply elem_of_seqZ. specialize (Hlt (ProposalID p) ltac:(eauto)). lia.
Qed.

(** Every waiting proposal waits for one height. *)
Definition one_height s : Prop := ∀ t t' i, (t, i) ∈ waitingQueue s → (t', i) ∈ waitingQueue s → t = t'.

Lemma export_waiting_ok keys m s : (∀ k, k ∈ keys → is_Some (proposals s !! snd k)) →
  export_waiting keys m s = Ok (foldl (λ m k, <[fmt_d (snd k) := fst k]> m) m keys).
Proof.
  revert m. induction keys as [|[h i] keys IH]; intros m Hk; cbn [export_waiting foldl]; [done|].
  destruct (Hk (h, i)) as [p Hp]; [by left|]. cbn in Hp. unfold GetProposal. rewrite Hp. cbn [or_panic mbind outcome_bind].
  apply IH. intros k ?. apply Hk. by right.
Qed.

Definition waiting_map (l : list (Z * Z)) : gmap string Z := foldl (λ m k, <[fmt_d (snd k) := fst k]> m) ∅ l.

Lemma lookup_waiting_map l str h :
  (∀ k k', k ∈ l → k' ∈ l → fmt_d (snd k) = fmt_d (snd k') → fst k = fst k') →
  waiting_map l !! str = Some h ↔ ∃ i, str = fmt_d i ∧ (h, i) ∈ l.
Proof.
  induction l as [|[t j] l IH] using rev_ind; intros Hl.
  { split; [done|]. intros (i & _ & Hi). by apply not_elem_of_nil in Hi. }
  unfold waiting_map. rewrite foldl_app. cbn [foldl fst snd]. fold (waiting_map l). rewrite lookup_insert.
  assert (∀ k k', k ∈ l → k' ∈ l → fmt_d (snd k) = fmt_d (snd k') → fst k = fst k') as Hl'
    by (intros k k' ? ?; apply Hl; apply elem_of_app; by left).
  specialize (IH Hl'). destruct (decide (fmt_d j = str)) as [<-|Hne].
  - split; [intros [= <-]; exists j; split; [done|]; apply elem_of_app; right; by apply list_elem_of_singleton|].
    intros (i & Ei & Hi). f_equal. symmetry. apply (Hl (h, i) (t, j)); [done| |done].
    apply elem_of_app. right. by apply list_elem_of_singleton.
  - rewrite IH. split; intros (i & Ei & Hi); exists i; (split; [done|]).
    + apply elem_of_app. by left.
    + apply elem_of_app in Hi as [|[= -> ->]%list_elem_of_singleton]; [done|]. by destruct Hne.
Qed.

Lemma waiting_ids s t i : inv s → (t, i) ∈ waitingQueue s → 0 ≤ i < 2 ^ 64.
Proof.
  intros HI Hk. destruct (gi_waiting _ _ _ _ HI _ _ Hk) as (p & Hp & _).
  destruct (gi_next _ _ _ _ HI) as (n & _ & ? & Hlt). specialize (Hlt i ltac:(eauto)). lia.
Qed.

Lemma waiting_roundtrip s (l := merge_sort queue_le (elements (waitingQueue s))) : inv s → one_height s →
  Forall (λ kv, is_Some (ParseUint (fst kv))) (map_to_list (waiting_map l)) ∧
  collect waiting_key (map_to_list (waiting_map l)) ∅ = waitingQueue s.
Proof.
  intros HI H1. assert (∀ k, k ∈ l ↔ k ∈ waitingQueue s) as Hin
    by (intros k; unfold l; by rewrite merge_sort_Permutation, elem_of_elements).
  assert (∀ str h, (str, h) ∈ map_to_list (waiting_map l) ↔ ∃ i, str = fmt_d i ∧ (h, i) ∈ waitingQueue s) as Hm.
  { intros str h. rewrite elem_of_map_to_list, lookup_waiting_map; [by setoid_rewrite Hin|].
    intros [t i] [t' i'] Hk%Hin Hk'%Hin E. cbn in *.
    assert (Some i = Some i') as [= <-].
    { rewrite <-(ParseUint_fmt_d i), <-(ParseUint_fmt_d i') by (by eapply waiting_ids). by rewrite E. }
    by eapply H1. }
  split.
  - apply Forall_forall. intros [str h] (i & -> & Hi)%Hm. cbn. rewrite ParseUint_fmt_d by (by eapply waiting_ids). eauto.
  - apply set_eq. intros [t i]. rewrite elem_of_collect. split.
    + intros [?%elem_of_empty|([str h] & (j & -> & Hj)%Hm & E)]; [done|]. unfold waiting_key in E. cbn in E.
      rewrite ParseUint_fmt_d in E by (by eapply waiting_ids). cbn in E. by injection E as -> ->.
    + intros Hi. right. exists (fmt_d i, t). split; [apply Hm; by exists i|]. unfold waiting_key. cbn.
      by rewrite ParseUint_fmt_d by (by eapply waiting_ids).
Qed.

Lemma proposals_roundtrip s n (l := GetProposalsFiltered "" "" StatusNil 0 s) : inv s → nextID s = Some n →
  insert_each ProposalID l ∅ = proposals s ∧
  collect active_key l ∅ = activeQueue s ∧ collect inactive_key l ∅ = inactiveQueue s ∧
  insert_each (λ x, (dProposalID x, Depositor x)) (l ≫= λ p, GetDeposits (ProposalID p) s) ∅ = deposits s ∧
  insert_each (λ x, (vProposalID x, Voter x)) (l ≫= λ p, GetVotes (ProposalID p) s) ∅ = votes s.
Proof.
  intros HI Hn. pose proof (exported_proposals s n HI Hn) as Hl. fold l in Hl.
  assert (∀ i p, proposals s !! i = Some p → ProposalID p = i) as Hid
    by (intros i p Hp; apply (pr_id _ _ _ _ (gi_proposals _ _ _ _ HI _ _ Hp))).
  split; [|split; [|split; [|split]]].
  - apply insert_values; [exact Hid|exact Hl].
  - apply set_eq. intros [t i]. rewrite elem_of_collect, (gi_active _ _ _ _ HI). unfold active_key. split.
    + intros [?%elem_of_empty|(p & Hp%Hl & E)]; [done|]. destruct (Z.eqb_spec (Status p) StatusDepositPeriod); [done|].
      destruct (Z.eqb_spec (Status p) StatusVotingPeriod); [|done]. injection E as <- <-. eauto.
    + intros (p & Hp & Hs & <-). right. exists p. pose proof (Hid _ _ Hp) as <-. split; [by apply Hl|]. by rewrite Hs.
  - apply set_eq. intros [t i]. rewrite elem_of_collect, (gi_inactive _ _ _ _ HI). unfold inactive_key. split.
    + intros [?%elem_of_empty|(p & Hp%Hl & E)]; [done|]. destruct (Z.eqb_spec (Status p) StatusDepositPeriod); [|done].
      injection E as <- <-. eauto.
    + intros (p & Hp & Hs & <-). right. exists p. pose proof (Hid _ _ Hp) as <-. split; [by apply Hl|]. by rewrite Hs.
  - apply insert_values.
    + intros k x Hx. apply (de_key _ _ _ (gi_deposits _ _ _ _ HI _ _ Hx)).
    + intros x. pose proof (λ i, proj2 (values_of_spec Depositor i (deposits s) (deposit_owner free _ (gi_deposits _ _ _ _ HI))))
        as Hv. rewrite list_elem_of_bind. split.
      * intros (p & Hx & Hp%Hl). apply (Hv (ProposalID p)) in Hx as Hx'.
        pose proof (de_key _ _ _ (gi_deposits _ _ _ _ HI _ _ Hx')) as [= E]. by rewrite E.
      * intros Hx. destruct (gi_live _ _ _ _ HI _ (mk_is_Some _ _ Hx)) as (p & Hp & _). cbn in Hp.
        exists p. pose proof (Hid _ _ Hp) as E. split; [|apply Hl; by rewrite E]. apply (Hv (ProposalID p)). by rewrite E.
  - apply insert_values.
    + intros k x Hx. apply (vo_key _ _ _ (gi_votes _ _ _ _ HI _ _ Hx)).
    + intros x. pose proof (λ i, proj2 (values_of_spec Voter i (votes s) (vote_owner _ (gi_votes _ _ _ _ HI)))) as Hv.
      rewrite list_elem_of_bind. split.
      * intros (p & Hx & Hp%Hl). apply (Hv (ProposalID p)) in Hx as Hx'.
        pose proof (vo_key _ _ _ (gi_votes _ _ _ _ HI _ _ Hx')) as [= E]. by rewrite E.
      * intros Hx. destruct (vo_voting _ _ _ (gi_votes _ _ _ _ HI _ _ Hx)) as (p & Hp & _). cbn in Hp.
        exists p. pose proof (Hid _ _ Hp) as E. split; [|apply Hl; by rewrite E]. apply (Hv (ProposalID p)). by rewrite E.
Qed.

Lemma zero_coins c : Coins.IsValid c = true → (∀ d, amt d c = 0) → c = [].
Proof.
  intros [_ Hp]%Coins.IsValid_spec Hz. destruct c as [|x c]; [done|]. specialize (Hz (Denom x)).
  apply Forall_cons in Hp as [[Hx _] Hp]. rewrite amt_cons in Hz. unfold coin_amt in Hz. rewrite decide_True in Hz by done.
  assert (0 ≤ amt (Denom x) c); [|lia]. apply amt_nonneg. eapply Forall_impl; [exact Hp|]. cbn. intros y [? _]. lia.
Qed.

Lemma foldl_Add (l : list Deposit) (t : SysCoins) : foldl (λ t d, Coins.Add t (dAmount d)) t l =
  foldl (λ t d, Coins.Add2 t (dAmount d)) t l.
Proof. revert t. induction l as [|x l IH]; intros t; cbn [foldl]; [done|]. by rewrite Coins.Add_spec, IH. Qed.

(** Without coins in the module account there are no deposits. *)
Lemma no_deposits s l : inv s → Coins.IsZero (Bank.GetCoins (bank (world s)) govAcc) = true →
  (∀ x, x ∈ l → ∃ k, deposits s !! k = Some x) →
  Bank.GetCoins (bank (world s)) govAcc = [] ∧ foldl (λ t d, Coins.Add t (dAmount d)) [] l = [].
Proof.
  intros HI Hz Hl. apply Coins.IsZero_spec in Hz.
  assert (∀ d, bal s govAcc d = 0) as Hb by (intros d; by apply amt_zero).
  split; [apply zero_coins; [apply Bank.GetCoins_valid|exact Hb]|]. rewrite foldl_Add.
  assert (∀ x, x ∈ l → Coins.IsValid (dAmount x) = true ∧ ∀ d, amt d (dAmount x) = 0) as Hx.
  { intros x (k & Hk)%Hl. pose proof (de_valid _ _ _ (gi_deposits _ _ _ _ HI _ _ Hk)) as Hv. split; [done|]. intros d.
    assert (map_Forall (λ _ y, 0 ≤ deposit_amt d y) (deposits s)) as Hpos
      by (intros k' y Hy; apply valid_amt, (de_valid _ _ _ (gi_deposits _ _ _ _ HI _ _ Hy))).
    pose proof (msum_le _ _ _ _ Hpos Hk). pose proof (Hpos _ _ Hk). rewrite <-(gi_balance _ _ _ _ HI), Hb in *.
    unfold deposit_amt in *. lia. }
  destruct (foldl_Add2 dAmount l []) as [Hv Ha]; [apply valid_nil| |].
  { apply Forall_forall. intros x Hin. by apply valid_good, Hx. }
  apply zero_coins; [done|]. intros d. rewrite Ha, amt_nil.
  clear Ha Hv Hl. induction l as [|x l IH]; [done|]. rewrite fmap_cons, zsum_cons, (proj2 (Hx x ltac:(by left))).
  apply IH. intros y ?. apply Hx. by right.
Qed.

(** A module whose stores are empty. *)
Definition fresh s : Prop :=
  proposals s = ∅ ∧ deposits s = ∅ ∧ votes s = ∅ ∧ activeQueue s = ∅ ∧ inactiveQueue s = ∅ ∧ waitingQueue s = ∅.

Lemma state_eq s s' : world s' = world s → proposals s' = proposals s → nextID s' = nextID s →
  deposits s' = deposits s → votes s' = votes s → activeQueue s' = activeQueue s → inactiveQueue s' = inactiveQueue s →
  waitingQueue s' = waitingQueue s → depositParams s' = depositParams s → votingParams s' = votingParams s →
  tallyParams s' = tallyParams s → s' = s.
Proof. destruct s, s'. cbn. by intros -> -> -> -> -> -> -> -> -> -> ->. Qed.

Lemma genesis_ok s s0 : inv s → one_height s → fresh s0 → world s0 = world s → ∃ g s',
  ExportGenesis s = Ok g ∧ InitGenesis g s0 = (Ok tt, s') ∧ s' = set_world (world s') s ∧
  ∀ a, Bank.GetCoins (bank (world s')) a = Bank.GetCoins (bank (world s)) a.
Proof.
  intros HI H1 (F1 & F2 & F3 & F4 & F5 & F6) Hw. destruct (gi_next _ _ _ _ HI) as (n & Hn & _ & _).
  destruct (proposals_roundtrip s n HI Hn) as (E1 & E2 & E3 & E4 & E5).
  destruct (waiting_roundtrip s HI H1) as [Hpar E6].
  unfold ExportGenesis. rewrite Hn. cbn [or_panic mbind outcome_bind]. rewrite export_waiting_ok.
  2:{ intros [t i] Hk. rewrite merge_sort_Permutation, elem_of_elements in Hk.
      destruct (gi_waiting _ _ _ _ HI _ _ Hk) as (p & Hp & _). cbn. eauto. }
  cbn [mbind outcome_bind]. fold (waiting_map (merge_sort queue_le (elements (waitingQueue s)))).
  match goal with |- ∃ g s', Ok ?x = Ok g ∧ _ => exists x end. unfold InitGenesis. cbn [StartingProposalID gDeposits gVotes gProposals WaitingProposals gDepositParams
    gVotingParams gTallyParams]. set (dl := _ ≫= λ p, GetDeposits (ProposalID p) s) in *.
  do 5 (erewrite bind_eq by reflexivity). erewrite bind_eq by apply set_deposits_each.
  erewrite bind_eq by apply set_votes_each. erewrite bind_eq by apply init_proposals_each.
  erewrite bind_eq by (by apply init_waiting_each).
  set (s1 := set_waitingQueue _ _). assert (s1 = s) as ->.
  { apply state_eq; unfold s1; cbn; rewrite ?F1, ?F2, ?F3, ?F4, ?F5, ?F6; done. }
  cbn [world set_tallyParams set_votingParams set_depositParams set_nextID]. rewrite Hw.
  destruct (Coins.IsZero _) eqn:Ez.
  - destruct (no_deposits s dl HI Ez) as [Hg ->].
    { intros x (p & Hx & _)%list_elem_of_bind. pose proof (proj2 (values_of_spec Depositor (ProposalID p) (deposits s)
        (deposit_owner free _ (gi_deposits _ _ _ _ HI)))) as Hv. apply Hv in Hx. eauto. }
    eexists. split; [done|]. split; [done|]. split; [done|]. intros a. cbn. rewrite bank_set.
    rewrite Bank.SetModuleCoins_spec by apply valid_nil. case_decide as Ea; [|done]. subst a. by rewrite <-Hg.
  - exists s. split; [done|]. split; [done|]. split; [by destruct s|done].
Qed.

End spec.
End GovGenesis.
