(* ===== verification/GovTheorems.v ===== *)
(** * Theorems on the gov module

    The theorems hold for every application that keeps its promises
    ([GovTally.StakingLaws], [GovSpec.AppLaws]); the composition of [GovApp] does, and
    the witnesses run it. *)

From S2P Require Import Prelude Runs SdkDec SdkCoins GoStd CoinFacts CommonErrors Common GovErrors Token Dex DexSpec Gov GovTally GovSpec GovGenesis Params GovApp.

#[local] Open Scope Z_scope.

Module GovTheorems.
Import Gov GovTally GovSpec GovGenesis.

Section decision.
Context `{DO : Dec.Ops} `{DL : !Dec.Laws}.

End decision.

Section spec.
Context `{DO : Dec.Ops} `{DL : !Dec.Laws} `{CO : !Coins.Ops} `{CL : !Coins.Laws}
  `{BO : !Bank.Ops} `{BL : !Bank.Laws} `{RT : GoRt} `{RL : !GoRtLaws}
  {W C : Type} `{CT : !Contents C} `{AP : !App W C} (Inv : W → Prop) (free : AccAddress → Prop)
  (content_ok : Content C → Prop) `{SL : !StakingLaws Inv} `{AL : !AppLaws Inv free content_ok}.
Implicit Types s : GovState W C.

Abbreviation inv := (gov_inv Inv free content_ok) (only parsing).

(** C13  The module account holds exactly the deposits of the proposals that collect
    deposits or are voted on, every such proposal knows the sum of its own, the two
    queues list exactly the proposals in these states at the times at which they end,
    and votes are valid and only there while a proposal is voted on: over any sequence
    of messages, ends of blocks and steps of the rest of the application. *)
Theorem gov_invariant s s' : rtc (gov_step Inv free) s s' → inv s → inv s'.
Proof. intros H HI. exact (gov_steps_inv Inv free content_ok s s' H HI). Qed.

(** C14  The end of a block always returns, whatever the proposals do: a proposal whose
    deposits did not arrive in time is deleted, one whose voting period is over is
    decided, and all others stay as they are. *)
Theorem end_block_settles ctx s : inv s → ∃ s', EndBlocker ctx s = (Ok tt, s') ∧ inv s' ∧
  ∀ i, block_ends (BlockTime ctx) (proposals s !! i) (proposals s' !! i).
Proof. intros HI. destruct (end_block_ok Inv free content_ok ctx s HI) as ([] & s' & E & H). by exists s'. Qed.

(** A message that passed its stateless checks does not panic: only the check of the
    module that a proposal belongs to may, which runs the proposal. *)
Theorem gov_message_no_panic ctx msg s : inv s → admissible free msg s →
  (∀ m, msg = MSubmitProposal m → checked ctx m s ≠ Panic) → fst (NewHandler ctx msg s) ≠ Panic.
Proof.
  intros HI Hm Hc. eapply safe_no_panic. by apply (message_ok Inv free content_ok).
Qed.

(** C16  When a proposal is settled its deposits are paid out once and in full: refunded,
    every depositor receives what it deposited; otherwise the fee collector receives
    their sum.  The module account pays the deposit total of the proposal, and the
    deposits of other proposals stay. *)
Theorem deposits_paid s i p : inv s → proposals s !! i = Some p → live p →
  (∃ s', RefundDeposits i s = (Ok tt, s') ∧ deposits s' = but_id i (deposits s) ∧
    (∀ d, bal s' govAcc d = bal s govAcc d - amt d (TotalDeposit p)) ∧
    ∀ a d, a ≠ govAcc → bal s' a d = bal s a d + from_option (deposit_amt d) 0 (deposits s !! (i, a))) ∧
  (∃ s', DistributeDeposits i s = (Ok tt, s') ∧ deposits s' = but_id i (deposits s) ∧
    (∀ d, bal s' govAcc d = bal s govAcc d - amt d (TotalDeposit p)) ∧
    ∀ a d, a ≠ govAcc → bal s' a d = bal s a d + if decide (a = collector) then amt d (TotalDeposit p) else 0).
Proof.
  intros HI Hp Hl. pose proof (pr_total _ _ _ _ (gi_proposals _ _ _ _ HI _ _ Hp)) as Ht.
  destruct (gi_proposals _ _ _ _ HI _ _ Hp) as [_ _ _ _ _ Htot].
  assert (∀ d, bal s govAcc d - amt d (TotalDeposit p) = msum (deposit_amt d) (but_id i (deposits s))) as Hb.
  { intros d. rewrite (gi_balance _ _ _ _ HI), Htot, (msum_split _ i) by done. lia. }
  split.
  - destruct (RefundDeposits_ok Inv free content_ok i s) as ([] & s' & E & b & -> & _ & [_ Hbal] & Ha); [apply HI..|].
    eexists. split; [exact E|]. split; [done|]. split; [intros d; by rewrite Hb, Hbal|].
    intros a d Hne. by rewrite Ha, (received_own free) by (done || apply HI).
  - destruct (DistributeDeposits_ok Inv free content_ok i s) as ([] & s' & E & b & -> & _ & [_ Hbal] & Ha); [apply HI..|].
    eexists. split; [exact E|]. split; [done|]. split; [intros d; by rewrite Hb, Hbal|].
    intros a d Hne. rewrite Ha by done. case_decide as Hc; [by subst a; rewrite received_all, Htot|].
    by rewrite received_nothing by (intros; congruence).
Qed.

(** C15  The tally counts every vote once and no power twice: a delegator's vote with the
    shares it added to bonded validators, a validator's vote with its shares less those
    of its delegators who voted; what was counted is at most the bonded shares. *)
Theorem tally_counts_votes s i p e : inv s → proposals s !! i = Some p → ∃ st b r,
  Tally p e s = Ok (st, b, r) ∧ TotalPower r = total_power (world s) ∧
  (let l := GetVotes i s in
   Yes r = counted (world s) l OptionYes ∧ Abstain r = counted (world s) l OptionAbstain ∧
   No r = counted (world s) l OptionNo ∧ NoWithVeto r = counted (world s) l OptionNoWithVeto) ∧
  TotalVotedPower r = Yes r + Abstain r + No r + NoWithVeto r ∧
  0 ≤ TotalVotedPower r ≤ TotalPower r.
Proof.
  intros HI Hp. destruct (votes_ok Inv free content_ok i s HI) as [H1 H2].
  destruct (gi_proposals _ _ _ _ HI _ _ Hp) as [<- _ _ _ _ _].
  destruct (Tally_ok Inv p e s (gi_world _ _ _ _ HI) H1 H2) as (st & b & r & Et & Hwf & H3 & H4 & H5 & H6 & H7 & _).
  exists st, b, r. split; [done|]. split; [done|]. split; [done|]. destruct Hwf. lia.
Qed.



(** C18  Exporting a state in order and importing it into empty stores restores it:
    proposals, deposits, votes, the queues, the parameters and all balances.  A
    proposal may wait for one height only, since the export keeps one per proposal. *)
Theorem gov_genesis_roundtrip s s0 : inv s → one_height s → fresh s0 → world s0 = world s → ∃ g s',
  ExportGenesis s = Ok g ∧ InitGenesis g s0 = (Ok tt, s') ∧ s' = set_world (world s') s ∧
  ∀ a, Bank.GetCoins (bank (world s')) a = Bank.GetCoins (bank (world s)) a.
Proof. apply (genesis_ok Inv free content_ok). Qed.

(** The registered invariant holds. *)
Lemma gov_module_account s : inv s → ModuleAccountInvariant s = Ok false.
Proof.
  intros HI. unfold ModuleAccountInvariant.
  rewrite foldl_Add.
  destruct (foldl_Add2 dAmount (GetAllDeposits s) []) as [Hv Ha]; [apply valid_nil| |].
  { apply Forall_forall. intros x ([k y] & -> & Hx)%list_elem_of_fmap. apply valid_good.
    rewrite keyed_sorted_perm, elem_of_map_to_list in Hx. apply (gi_deposits _ _ _ _ HI _ _ Hx). }
  rewrite Coins.IsEqual_true; [done|apply Bank.GetCoins_valid|done|].
  intros d. change (bal s govAcc d = amt d (foldl (λ t x, Coins.Add2 t (dAmount x)) [] (GetAllDeposits s))).
  rewrite (gi_balance _ _ _ _ HI), Ha, amt_nil. unfold GetAllDeposits, msum. rewrite <-list_fmap_compose.
  rewrite (zsum_perm _ _ (fmap_Permutation _ _ _ (keyed_sorted_perm id_key _))). cbn. done.
Qed.
End spec.


(** ** Witnesses *)

Import GovApp.

#[local] Existing Instance Dec18.ops.
#[local] Existing Instance Dec18.dec_laws.
#[local] Existing Instance CoinsImpl.ops.
#[local] Existing Instance CoinsImpl.coins_laws.
#[local] Existing Instance BankImpl.ops.
#[local] Existing Instance BankImpl.bank_laws.
#[local] Existing Instance GoRtImpl.ops.
#[local] Existing Instance GoRtImpl.laws.

#[local] Instance ex_token_env : Token.Env := {|
  Token.HigherThanMercury _ := true;
  Token.EthCodeHash _ _ := None;
  Token.Keccak256_nil := "";
  Token.tmhash_hex s := s;
  Token.feeCollectorName := "fee_collector";
  Token.enableBackend := false;
|}.

#[local] Instance ex_dex_env : Dex.Env := {|
  Dex.IsValidator a := String.eqb a "val";
  Dex.url_scheme _ := Some "https";
  Dex.tmhash_HEX s := s;
|}.

(** One subspace with one parameter. *)
#[local] Instance ex_subspaces : Subspaces := {|
  has_subspace ss := String.eqb ss "params";
  update _ key v s :=
    if String.eqb key "MaxBlockHeight" then
      match ParseUint v with
      | Some n =>
          if (n =? 0)%Z then Err Common.plain_error
          else Ok (set_world (set_params (Params.MkParams (Params.MaxDepositPeriod (params (world s)))
                 (Params.MinDeposit (params (world s))) (Params.VotingPeriod (params (world s))) n) (world s)) s)
      | None => Err Common.plain_error
      end
    else Panic;
  validate_changes _ := Ok tt;
  err_unknown_subspace := MkError "params" 1;
  err_setting_parameter := MkError "params" 2;
|}.

#[local] Instance ex_subspace_laws : SubspaceLaws.
Proof.
  split.
  - intros ss key v s s'. cbn. destruct (String.eqb key _); [|done]. destruct (ParseUint v) as [n|]; [|done].
    destruct (n =? 0); [done|]. intros [= <-].
    destruct s as [[[]]]. do 5 eexists. cbn. unfold set_depositParams, set_votingParams, set_tallyParams, set_world, set_params, set_dex, Dex.set_params. cbn. reflexivity.
  - intros ss key v v' s s'. cbn. destruct (String.eqb key _); [|done]. intros _. by repeat case_match.
Qed.

#[local] Instance ex_accounts : AppAccounts.
Proof. split; [split|..]; done. Qed.

Definition okt (n : Z) : SysCoins := [MkCoin "okt" n].

Definition ex_dex : Dex.DexState :=
  Dex.MkDexState _
    (Token.MkTokenState _ (BankImpl.MkSt {[ "alice" := okt 1000; "bob" := okt 1000; "val" := okt 1000 ]} {[ "okt" := 3000 ]})
       ∅ ∅ 0 ∅ ∅ ∅
       (Token.MkParams (MkCoin "okt" 5) (MkCoin "okt" 1) (MkCoin "okt" 1) (MkCoin "okt" 1) (MkCoin "okt" 1) 100) [])
    ∅ ∅ 0 ∅ ∅ ∅ ∅ ∅
    (Dex.MkParams (MkCoin "okt" 100) (MkCoin "okt" 10) (MkCoin "okt" 1) 10 (okt 10) 10 10 1000) ∅.

Definition ex_world_of (vals : list ValidatorI) (dels : gmap AccAddress DelegatorI) : World :=
  MkWorld _ ex_dex (Params.MkParams 50 (okt 100) 50 1000) vals dels.

(** One validator, and a delegator who added shares to it. *)
Definition ex_world : World :=
  ex_world_of [MkValidatorI "val" 100 100] {[ "bob" := MkDelegatorI ["val"] 40 ]}.

Definition ex_tally_params : TallyParams :=
  MkTallyParams (334 * 10 ^ 15) (5 * 10 ^ 17) (334 * 10 ^ 15) (667 * 10 ^ 15).

Definition ex_start_of (w : World) : GovState World ModuleContent :=
  MkGovState _ _ w ∅ (Some 1) ∅ ∅ ∅ ∅ ∅ (MkDepositParams (okt 100) 50) (MkVotingParams 50) ex_tally_params.
Definition ex_start := ex_start_of ex_world.

Abbreviation ex_inv := (gov_inv world_inv free content_ok) (only parsing).

Lemma ex_staking : staking_ok ex_world.
Proof.
  split.
  - cbn. apply NoDup_singleton.
  - intros v ->%list_elem_of_singleton. cbn. lia.
  - intros a d. cbn. intros [<- <-]%lookup_singleton_Some. cbn. split; [lia|apply NoDup_singleton].
  - intros v l ->%list_elem_of_singleton Hl. cbn [GetOperator GetDelegatorShares].
    assert (∀ a, share_of ex_world a "val" = if decide (a = "bob") then 40 else 0) as Hs.
    { intros a. unfold share_of. cbn. case_decide as Ea; [by subst a|]. by rewrite lookup_singleton_ne. }
    rewrite (list_fmap_ext _ (λ a, if decide (a = "bob") then 40 else 0)) by (intros; apply Hs).
    destruct (decide ("bob" ∈ l)) as [Hb|Hb].
    + change (zsum ((λ a, if decide (id a = id "bob") then (λ _, 40) a else 0) <$> l) ≤ 100).
      rewrite zsum_pick; [lia|by rewrite list_fmap_id|done].
    + rewrite (zsum_none (λ a, a = "bob") (λ _, 40)); [lia|]. by intros x Hx ->.
Qed.

Lemma gov_start_of vals dels : staking_ok (ex_world_of vals dels) → ex_inv (ex_start_of (ex_world_of vals dels)).
Proof.
  intros HS. split; cbn.
  - split; [|done]. split; [by apply map_Forall_empty|by apply map_Forall_empty|..].
    + intros t a. cbn. split; [set_solver|]. intros (w & Hw & _). by rewrite lookup_empty in Hw.
    + intros d. unfold DexSpec.held. cbn. by rewrite !msum_empty.
  - exists 1. split; [done|]. split; [lia|]. intros i. rewrite lookup_empty. by intros [].
  - apply map_Forall_empty.
  - apply map_Forall_empty.
  - intros k. rewrite lookup_empty. by intros [].
  - apply map_Forall_empty.
  - intros t i. split; [set_solver|]. intros (p & Hp & _). by rewrite lookup_empty in Hp.
  - intros t i. split; [set_solver|]. intros (p & Hp & _). by rewrite lookup_empty in Hp.
  - intros t i. set_solver.
  - intros d. rewrite msum_empty. done.
Qed.

Lemma gov_start_inv : ex_inv ex_start.
Proof. apply gov_start_of, ex_staking. Qed.

Definition at_time (h t : Z) : Context := MkContext h t "tx".
Definition ex_text : Content ModuleContent := TextProposal "title" "description".
Definition ex_submit : Msg ModuleContent := MSubmitProposal (MkMsgSubmitProposal _ (Some ex_text) (okt 60) "alice").
Definition ex_deposit : Msg ModuleContent := MDeposit (MkMsgDeposit 1 "bob" (okt 40)).
Definition ex_vote : Msg ModuleContent := MVote (MkMsgVote 1 "bob" OptionYes).

Abbreviation ExState := (GovState World ModuleContent) (only parsing).

Definition run {A} (m : M ExState A) (s : ExState) : GovState World ModuleContent := snd (m s).
Definition ex_submitted := run (NewHandler (at_time 5 10) ex_submit) ex_start.
Definition ex_voting := run (NewHandler (at_time 6 20) ex_deposit) ex_submitted.
Definition ex_voted := run (NewHandler (at_time 7 30) ex_vote) ex_voting.

Lemma ex_gov_step ctx msg (s : ExState) : admissible free msg s → fst (NewHandler ctx msg s) = Ok tt →
  gov_step world_inv free s (run (NewHandler ctx msg) s).
Proof. intros Hm E. eapply step_message; [done|]. by apply run_ok. Qed.

Lemma ex_admissible msg (s : ExState) n : ValidateBasic msg = Ok tt → nextID s = Some n → n + 1 < 2 ^ 64 →
  (∀ a, signer msg = Some a → free a ∧ a ≠ govAcc) → admissible free msg s.
Proof. intros Hv Hn Hlt Hs. split; [done|]. split; [done|]. intros m Hm. congruence. Qed.

Ltac ex_user := intros ? [= <-]; split; intros H; vm_compute in H; discriminate H.

Lemma ex_gov_steps : rtc (gov_step world_inv free) ex_start ex_voted.
Proof.
  eapply rtc_l; [apply (ex_gov_step (at_time 5 10) ex_submit)|].
  { eapply ex_admissible; [done|done|lia|ex_user]. }
  { vm_compute. done. }
  eapply rtc_l; [apply (ex_gov_step (at_time 6 20) ex_deposit)|].
  { eapply ex_admissible; [done|vm_compute; done|lia|ex_user]. }
  { vm_compute. done. }
  eapply rtc_l; [apply (ex_gov_step (at_time 7 30) ex_vote)|apply rtc_refl].
  { eapply ex_admissible; [done|vm_compute; done|lia|ex_user]. }
  { vm_compute. done. }
Qed.

Lemma ex_voted_inv : ex_inv ex_voted.
Proof. eapply (gov_steps_inv world_inv free content_ok); [apply ex_gov_steps|apply gov_start_inv]. Qed.

Lemma gov_invariant_witness : ex_inv ex_voted.
Proof. eapply (gov_invariant world_inv free content_ok ex_start ex_voted); [apply ex_gov_steps|apply gov_start_inv]. Defined.

(** The vote of the delegator, against the validator who does not vote. *)
Definition ex_proposal : Proposal ModuleContent :=
  MkProposal _ ex_text 1 StatusVotingPeriod (MkTallyResult 100 40 40 0 0 0) 10 20 (okt 100) 20 70.

Lemma ex_voted_proposal : proposals ex_voted !! 1 = Some ex_proposal.
Proof. vm_compute. reflexivity. Qed.

Lemma end_block_settles_witness : ∃ s', EndBlocker (at_time 8 80) ex_voted = (Ok tt, s') ∧ ex_inv s' ∧
  ∀ i, block_ends 80 (proposals ex_voted !! i) (proposals s' !! i).
Proof. exact (end_block_settles world_inv free content_ok (at_time 8 80) ex_voted ex_voted_inv). Defined.

Lemma ex_vote_admissible : admissible free ex_vote ex_voted.
Proof. eapply ex_admissible; [done|vm_compute; done|lia|ex_user]. Qed.

Lemma gov_message_no_panic_witness : fst (NewHandler (at_time 7 40) ex_vote ex_voted) ≠ Panic.
Proof.
  apply (gov_message_no_panic world_inv free content_ok (at_time 7 40) ex_vote ex_voted);
    [apply ex_voted_inv|apply ex_vote_admissible|by intros m [=]].
Defined.

Lemma deposits_paid_witness : ∃ s', RefundDeposits 1 ex_voted = (Ok tt, s') ∧
  bal s' "alice" "okt" = bal ex_voted "alice" "okt" + 60.
Proof.
  destruct (deposits_paid world_inv free content_ok ex_voted 1 ex_proposal ex_voted_inv ex_voted_proposal
    (or_intror eq_refl)) as [(s' & E & _ & _ & Ha) _].
  exists s'. split; [exact E|]. rewrite (Ha "alice" "okt") by (vm_compute; discriminate). vm_compute. reflexivity.
Defined.

Lemma tally_counts_votes_witness : ∃ st b r, Tally ex_proposal true ex_voted = Ok (st, b, r) ∧ Yes r = 40 ∧ TotalPower r = 100.
Proof.
  destruct (tally_counts_votes world_inv free content_ok ex_voted 1 ex_proposal true ex_voted_inv ex_voted_proposal)
    as (st & b & r & E & Ht & (Hy & _) & _).
  exists st, b, r. split; [exact E|]. rewrite Hy, Ht. split; vm_compute; reflexivity.
Defined.

Definition ex_empty : ExState :=
  MkGovState _ _ (world ex_voted) ∅ None ∅ ∅ ∅ ∅ ∅ (MkDepositParams [] 0) (MkVotingParams 0) ex_tally_params.

Lemma gov_genesis_roundtrip_witness : ∃ g s', ExportGenesis ex_voted = Ok g ∧ InitGenesis g ex_empty = (Ok tt, s') ∧
  s' = set_world (world s') ex_voted ∧
  ∀ a, Bank.GetCoins (bank (world s')) a = Bank.GetCoins (bank (world ex_voted)) a.
Proof.
  apply (gov_genesis_roundtrip world_inv free content_ok ex_voted ex_empty);
    [apply ex_voted_inv| |by repeat split|reflexivity].
  intros t t' i H. exfalso. revert H. assert (waitingQueue ex_voted = ∅) as -> by (vm_compute; reflexivity).
  by apply not_elem_of_empty.
Defined.

(** *** Early decisions

    Two validators with 100 and 40 shares; sixty of the first are bob's, ten of the second
    are carol's. *)

Definition ex_two : World :=
  ex_world_of [MkValidatorI "val" 100 100; MkValidatorI "ann" 40 40]
    {[ "bob" := MkDelegatorI ["val"] 60; "carol" := MkDelegatorI ["ann"] 10 ]}.



(** The proposal of above is voted on; the votes are stored one after the other. *)
Definition ex_two_voting := run (NewHandler (at_time 6 20) ex_deposit)
  (run (NewHandler (at_time 5 10) ex_submit) (ex_start_of ex_two)).
Definition ex_ballot (a : AccAddress) (o : Z) (s : ExState) := run (SetVote 1 (MkVote 1 a o)) s.
Definition ex_open : Proposal ModuleContent :=
  MkProposal _ ex_text 1 StatusVotingPeriod (MkTallyResult 0 0 0 0 0 0) 10 20 (okt 100) 20 70.
Definition ex_early := ex_ballot "val" OptionYes ex_two_voting.






(** The tally passes the proposal with the first vote, of more than two thirds of the
    shares; if the voting had gone on, the vote of a delegator of that validator would
    have rejected it. *)
Lemma early_pass_overturned :
  Tally ex_open false ex_early = Ok (StatusPassed, false, MkTallyResult 140 100 100 0 0 0) ∧
  Tally ex_open true (ex_ballot "bob" OptionNo ex_early) = Ok (StatusRejected, false, MkTallyResult 140 100 40 0 60 0).
Proof. split; vm_compute; reflexivity. Qed.
End GovTheorems.
