(* ===== verification/EvmErrors.v ===== *)
(** * Errors of the evm module: src/x/evm/types/errors.go

    An error is its codespace and code; the message is dropped.  An error that the
    source makes with errors.New or fmt.Errorf has no code of its own: the SDK reports
    it under the codespace undefined with code 1. *)

From S2P Require Import Prelude.

#[local] Open Scope Z_scope.

Module EvmErr.
Definition ModuleName : string := "evm".

Definition ErrInvalidState : error := MkError ModuleName 2.
Definition ErrChainConfigNotFound : error := MkError ModuleName 3.
Definition ErrInvalidChainConfig : error := MkError ModuleName 4.
Definition ErrCreateDisabled : error := MkError ModuleName 5.
Definition ErrCallDisabled : error := MkError ModuleName 6.
Definition CodeSpaceEvmCallFailed : Z := 7.
Definition ErrKeyNotFound : error := MkError ModuleName 8.
Definition ErrStrConvertFailed : error := MkError ModuleName 9.

(** errors.New, fmt.Errorf *)
Definition ErrPlain : error := MkError "undefined" 1.
End EvmErr.
