(* ===== verification/Account.v ===== *)
(** * Accounts: src/app/types/account.go, and the account keeper as an interface

    [EthAccount] is the account type of the chain: the fields of the SDK's base account
    and the hash of a contract's code.  A nil code hash is [None].  sdk.AccAddress and
    ethcmn.Address are both the 20 bytes of an address, and conversions between them are
    the identity.

    The account keeper and the supply and bank keepers that the evm module calls are code
    of the Cosmos SDK: they are the class [Auth.Ops], with what the SDK documents about
    them in [Auth.Laws].  [AuthImpl] implements the interface. *)

From S2P Require Import Prelude SdkDec SdkCoins GoStd CoinFacts.

#[local] Open Scope Z_scope.

Record EthAccount := MkEthAccount {
  aAddress : AccAddress;
  aCoins : SysCoins;
  aPubKey : option string;
  aAccountNumber : Z;
  aSequence : Z;
  aCodeHash : option string;
}.

#[export] Instance EthAccount_eq_dec : EqDecision EthAccount.
Proof. solve_decision. Defined.

Definition set_aCoins (x : SysCoins) (a : EthAccount) : EthAccount :=
  MkEthAccount (aAddress a) x (aPubKey a) (aAccountNumber a) (aSequence a) (aCodeHash a).
Definition set_aSequence (x : Z) (a : EthAccount) : EthAccount :=
  MkEthAccount (aAddress a) (aCoins a) (aPubKey a) (aAccountNumber a) x (aCodeHash a).
Definition set_aCodeHash (x : option string) (a : EthAccount) : EthAccount :=
  MkEthAccount (aAddress a) (aCoins a) (aPubKey a) (aAccountNumber a) (aSequence a) x.

(** An exported.Account: the chain's own type, or one of the SDK's (a module account). *)
Inductive Account :=
| EthAcc (a : EthAccount)
| OtherAcc (address : AccAddress) (coins : SysCoins).

#[export] Instance Account_eq_dec : EqDecision Account.
Proof. solve_decision. Defined.

Definition acc_address (a : Account) : AccAddress :=
  match a with EthAcc a => aAddress a | OtherAcc b _ => b end.
Definition acc_coins (a : Account) : SysCoins :=
  match a with EthAcc a => aCoins a | OtherAcc _ c => c end.

Section account.
Context `{DO : Dec.Ops} `{CO : !Coins.Ops}.

(** EthAccount.Balance *)
Definition acc_Balance (acc : EthAccount) (denom : string) : Dec := Coins.AmountOf (aCoins acc) denom.

(** EthAccount.SetBalance: coins.Sub panics when the amount is negative. *)
Definition acc_SetBalance (denom : string) (amt : Dec) (acc : EthAccount) : outcome EthAccount :=
  let coins := aCoins acc in
  let diff := Dec.Sub amt (Coins.AmountOf coins denom) in
  if Dec.IsPositive diff then
    c ← or_panic (Coins.NewDecCoinFromDec denom diff);
    Ok (set_aCoins (Coins.Add coins [c]) acc)
  else if Dec.IsNegative diff then
    c ← or_panic (Coins.NewDecCoinFromDec denom (Dec.Neg diff));
    cs ← or_panic (Coins.NewDecCoins [c]);
    coins ← or_panic (Coins.Sub coins cs);
    Ok (set_aCoins coins acc)
  else Ok acc.

Context `{DL : !Dec.Laws} `{CL : !Coins.Laws}.

(** Setting a balance that is not negative sets exactly that balance. *)
Lemma acc_SetBalance_ok denom amount acc :
  Coins.ValidDenom denom = true → 0 ≤ amount → Coins.IsValid (aCoins acc) = true →
  ∃ c, acc_SetBalance denom amount acc = Ok (set_aCoins c acc) ∧ Coins.IsValid c = true ∧
    ∀ d, amt d c = if decide (d = denom) then amount else amt d (aCoins acc).
Proof.
  intros Hd Ha Hv. unfold acc_SetBalance. rewrite Coins.AmountOf_spec by by apply valid_sorted. dec_simp.
  set (b := amt denom (aCoins acc)). assert (0 ≤ b) by by apply valid_amt.
  destruct (Z.ltb_spec 0 (amount - b)) as [Hp|Hp].
  - rewrite Coins.NewDecCoinFromDec_ok by (done || lia). cbn. rewrite Coins.Add_spec.
    assert (Coins.good [MkCoin denom (amount - b)]) as Hg
      by (split; [auto with typeclass_instances|]; repeat constructor; cbn; [lia|done]).
    eexists. split; [done|]. split; [apply Coins.Add2_valid; coins|]. intros d.
    rewrite Add2_good_amt, amt_single by coins. destruct (decide (d = denom)) as [->|].
    + rewrite coin_amt_eq. unfold b. lia.
    + rewrite coin_amt_ne by done. lia.
  - destruct (Z.ltb_spec (amount - b) 0) as [Hn|Hn].
    + rewrite Coins.NewDecCoinFromDec_ok by (done || lia). cbn.
      destruct (Coins.NewDecCoins_spec (MkCoin denom (- (amount - b)))) as (l & -> & Hg & Hl); [cbn; lia|done|].
      cbn. rewrite Coins.Sub_spec.
      assert ((Coins.SafeSub (aCoins acc) l).2 = false) as E.
      { apply Coins.SafeSub_neg; [by apply valid_sorted|by apply good_sorted|]. intros d. rewrite Hl.
        destruct (decide (d = denom)) as [->|]; [rewrite coin_amt_eq; unfold b; lia|].
        rewrite coin_amt_ne by done. by apply valid_amt. }
      rewrite E. cbn. eexists. split; [done|]. split; [apply Coins.SafeSub_valid; coins|]. intros d.
      rewrite Coins.SafeSub_amt, Hl by first [by apply valid_sorted|by apply good_sorted]. destruct (decide (d = denom)) as [->|].
      * rewrite coin_amt_eq. unfold b. lia.
      * rewrite coin_amt_ne by done. lia.
    + exists (aCoins acc). split; [by destruct acc|]. split; [done|]. intros d.
      destruct (decide (d = denom)) as [->|]; [|done]. unfold b in *. lia.
Qed.

(** Setting a negative balance panics. *)
Lemma acc_SetBalance_negative denom amount acc :
  Coins.ValidDenom denom = true → amount < 0 → Coins.IsValid (aCoins acc) = true →
  acc_SetBalance denom amount acc = Panic.
Proof.
  intros Hd Ha Hv. unfold acc_SetBalance. rewrite Coins.AmountOf_spec by by apply valid_sorted. dec_simp.
  set (b := amt denom (aCoins acc)). assert (0 ≤ b) by by apply valid_amt.
  rewrite (proj2 (Z.ltb_ge _ _)) by lia. rewrite (proj2 (Z.ltb_lt _ _)) by lia.
  rewrite Coins.NewDecCoinFromDec_ok by (done || lia). cbn.
  destruct (Coins.NewDecCoins_spec (MkCoin denom (- (amount - b)))) as (l & -> & Hg & Hl); [cbn; lia|done|].
  cbn. rewrite Coins.Sub_spec. destruct (Coins.SafeSub (aCoins acc) l).2 eqn:E; [done|]. exfalso.
  pose proof (proj1 (Coins.SafeSub_neg _ _ (valid_sorted _ Hv) (good_sorted _ Hg)) E denom) as Hle. clear E.
  rewrite Hl, coin_amt_eq in Hle. fold b in Hle. lia.
Qed.
End account.

(** ** The keepers of the SDK that the evm module calls *)

Module Auth.

Class Ops := {
  state : Type;
  GetAccount : state → AccAddress → option Account;
  SetAccount : Account → state → state;
  RemoveAccount : Account → state → state;
  (* takes the next account number; the account is not stored *)
  NewAccountWithAddress : AccAddress → state → Account * state;
  IterateAccounts : state → list Account;
  BlacklistedAddr : AccAddress → bool;
  GetModuleAddress : string → AccAddress;
  SendCoinsFromModuleToAccount : string → AccAddress → SysCoins → M state unit;
}.

(** The coins of an account: none when there is no account. *)
Definition coins_of `{Ops} (s : state) (a : AccAddress) : SysCoins :=
  match GetAccount s a with Some acc => acc_coins acc | None => [] end.

Class Laws `{DO : Dec.Ops, CO : !Coins.Ops, O : Ops} (emptyCodeHash : string) : Prop := {
  GetAccount_address s a acc : GetAccount s a = Some acc → acc_address acc = a;
  GetAccount_coins s a acc : GetAccount s a = Some acc → Coins.IsValid (acc_coins acc) = true;
  GetAccount_SetAccount s acc a : Coins.IsValid (acc_coins acc) = true →
    GetAccount (SetAccount acc s) a = if decide (a = acc_address acc) then Some acc else GetAccount s a;
  GetAccount_RemoveAccount s acc a :
    GetAccount (RemoveAccount acc s) a = if decide (a = acc_address acc) then None else GetAccount s a;
  (* an account of the prototype that the application gives to the keeper (ProtoAccount) *)
  NewAccount_spec a s acc s' : NewAccountWithAddress a s = (acc, s') →
    (∃ n, acc = EthAcc (MkEthAccount a [] None n 0 (Some emptyCodeHash))) ∧
    ∀ b, GetAccount s' b = GetAccount s b;
  IterateAccounts_spec s acc : acc ∈ IterateAccounts s ↔ GetAccount s (acc_address acc) = Some acc;
  IterateAccounts_nodup s : NoDup (acc_address <$> IterateAccounts s);
  (* a transfer changes the coins of the two accounts and makes the recipient's when there is none *)
  Send_ok m a c s s' : SendCoinsFromModuleToAccount m a c s = (Ok tt, s') →
    (∀ b d, amt d (coins_of s' b) = amt d (coins_of s b)
       - (if decide (b = GetModuleAddress m) then amt d c else 0) + (if decide (b = a) then amt d c else 0)) ∧
    (∀ b acc, GetAccount s b = Some (EthAcc acc) → ∃ c, GetAccount s' b = Some (EthAcc (set_aCoins c acc)));
}.
End Auth.

(** ** An implementation *)

Module AuthImpl.
#[local] Existing Instance Dec18.ops.
#[local] Existing Instance Dec18.dec_laws.
#[local] Existing Instance CoinsImpl.ops.
#[local] Existing Instance CoinsImpl.coins_laws.

Record st := MkSt { accts : gmap string Account; next : Z }.

(** What is stored is filed under its own address and has valid coins. *)
Definition fit (a : string) (acc : Account) : bool :=
  bool_decide (acc_address acc = a) && Coins.IsValid (acc_coins acc).
Definition get_account (s : st) (a : string) : option Account :=
  match accts s !! a with Some acc => if fit a acc then Some acc else None | None => None end.
Definition all_accounts (s : st) : list Account :=
  omap (λ kx : string * Account, if fit (fst kx) (snd kx) then Some (snd kx) else None) (kv_sorted (accts s)).
Definition set_coins_of (a : string) (c : SysCoins) (s : st) : st :=
  MkSt (<[a := match get_account s a with
               | Some (EthAcc acc) => EthAcc (set_aCoins c acc)
               | _ => OtherAcc a c
               end]> (accts s)) (next s).
Definition coins_at (s : st) (a : string) : SysCoins :=
  match get_account s a with Some acc => acc_coins acc | None => [] end.
Definition send (from to : string) (c : SysCoins) : M st unit := λ s,
  if Coins.IsValid c then
    match Coins.Sub (coins_at s from) c with
    | None => (Err (MkError "bank" 5), s)
    | Some l => let s := set_coins_of from l s in (Ok tt, set_coins_of to (Coins.Add2 (coins_at s to) c) s)
    end
  else (Err (MkError "bank" 5), s).

Section impl.
Context (emptyCodeHash : string).

#[local] Instance ops : Auth.Ops := {|
  Auth.state := st;
  Auth.GetAccount := get_account;
  Auth.SetAccount acc s := MkSt (<[acc_address acc := acc]> (accts s)) (next s);
  Auth.RemoveAccount acc s := MkSt (delete (acc_address acc) (accts s)) (next s);
  Auth.NewAccountWithAddress a s :=
    (EthAcc (MkEthAccount a [] None (next s) 0 (Some emptyCodeHash)), MkSt (accts s) (next s + 1));
  Auth.IterateAccounts := all_accounts;
  Auth.BlacklistedAddr _ := false;
  Auth.GetModuleAddress m := "module/" +:+ m;
  Auth.SendCoinsFromModuleToAccount m a c := send ("module/" +:+ m) a c;
|}.

Lemma get_account_fit s a acc : get_account s a = Some acc → fit a acc = true ∧ accts s !! a = Some acc.
Proof. unfold get_account. intros H. repeat case_match; by simplify_eq. Qed.

Lemma fit_intro a acc : acc_address acc = a → Coins.IsValid (acc_coins acc) = true → fit a acc = true.
Proof. intros Ha Hc. unfold fit. by rewrite bool_decide_true, Hc. Qed.

Lemma coins_at_valid s a : Coins.IsValid (coins_at s a) = true.
Proof.
  unfold coins_at. destruct (get_account s a) as [acc|] eqn:E; [|apply valid_nil].
  apply get_account_fit in E as [[_ H]%andb_prop _]. done.
Qed.

Lemma get_set_coins s a c b : Coins.IsValid c = true →
  get_account (set_coins_of a c s) b =
  if decide (b = a) then Some (match get_account s a with
                               | Some (EthAcc acc) => EthAcc (set_aCoins c acc)
                               | _ => OtherAcc a c
                               end) else get_account s b.
Proof.
  intros Hc. unfold set_coins_of, get_account at 1. cbn. destruct (decide (b = a)) as [->|Hb].
  - rewrite lookup_insert_eq. destruct (get_account s a) as [[acc|]|] eqn:E; rewrite fit_intro; try done.
    by apply get_account_fit in E as [[E%bool_decide_eq_true _]%andb_prop _].
  - by rewrite lookup_insert_ne by done.
Qed.

Lemma coins_set_coins s a c b : Coins.IsValid c = true →
  coins_at (set_coins_of a c s) b = if decide (b = a) then c else coins_at s b.
Proof.
  intros Hc. unfold coins_at at 1. rewrite get_set_coins by done. destruct (decide (b = a)); [|done].
  by destruct (get_account s a) as [[]|].
Qed.

Lemma send_spec from to c s s' : send from to c s = (Ok tt, s') →
  (∀ b d, amt d (coins_at s' b) = amt d (coins_at s b)
     - (if decide (b = from) then amt d c else 0) + (if decide (b = to) then amt d c else 0)) ∧
  (∀ b acc, get_account s b = Some (EthAcc acc) → ∃ c, get_account s' b = Some (EthAcc (set_aCoins c acc))).
Proof.
  unfold send. destruct (Coins.IsValid c) eqn:Hc; [|done]. rewrite Coins.Sub_spec.
  pose proof (coins_at_valid s from) as Hf. destruct (Coins.SafeSub (coins_at s from) c).2 eqn:Hneg; [done|].
  intros E%(f_equal snd). cbn [snd] in E. subst s'. set (l := (Coins.SafeSub (coins_at s from) c).1).
  assert (Coins.IsValid l = true) as Hl by (apply Coins.SafeSub_valid; coins).
  set (s1 := set_coins_of from l s). pose proof (coins_at_valid s1 to) as Ht.
  assert (Coins.IsValid (Coins.Add2 (coins_at s1 to) c) = true) as Hl' by (apply Coins.Add2_valid; coins).
  split.
  - intros b d. rewrite coins_set_coins by done.
    assert (amt d (coins_at s1 b) = amt d (coins_at s b) - (if decide (b = from) then amt d c else 0)) as E.
    { unfold s1. rewrite coins_set_coins by done. destruct (decide (b = from)) as [->|]; [|lia].
      unfold l. by rewrite Coins.SafeSub_amt by by apply valid_sorted. }
    destruct (decide (b = to)) as [->|]; [|lia]. rewrite Add2_good_amt by coins. lia.
  - intros b acc E. rewrite get_set_coins by done.
    assert (∃ c, get_account s1 b = Some (EthAcc (set_aCoins c acc))) as [c1 E1].
    { unfold s1. rewrite get_set_coins by done. destruct (decide (b = from)) as [->|].
      - rewrite E. eauto.
      - exists (aCoins acc). rewrite E. by destruct acc. }
    destruct (decide (b = to)) as [->|]; [|eauto]. rewrite E1. eauto.
Qed.

Lemma elem_of_all_accounts s acc : acc ∈ all_accounts s ↔ get_account s (acc_address acc) = Some acc.
Proof.
  unfold all_accounts. rewrite list_elem_of_omap. split.
  - intros ([k x] & Hin%elem_of_kv_sorted & E). cbn in E. destruct (fit k x) eqn:F; [|done]. simplify_eq.
    pose proof F as [E%bool_decide_eq_true _]%andb_prop. subst k. unfold get_account. by rewrite Hin, F.
  - intros [Hf Hl]%get_account_fit. exists (acc_address acc, acc). split; [by apply elem_of_kv_sorted|].
    cbn. by rewrite Hf.
Qed.

Lemma all_accounts_nodup s : NoDup (acc_address <$> all_accounts s).
Proof.
  unfold all_accounts.
  assert (NoDup (fst <$> kv_sorted (accts s))) as Hnd by (rewrite kv_sorted_perm; apply NoDup_fst_map_to_list).
  induction (kv_sorted (accts s)) as [|[k x] l IH]; [constructor|]. rewrite fmap_cons, NoDup_cons in Hnd.
  destruct Hnd as [Hk Hnd]. cbn. destruct (fit k x) eqn:F; [|by apply IH]. cbn. constructor; [|by apply IH].
  pose proof F as [E%bool_decide_eq_true _]%andb_prop. rewrite E. intros Hin. apply Hk.
  apply list_elem_of_fmap in Hin as (y & -> & Hin). apply list_elem_of_omap in Hin as ([k' x'] & Hin & E').
  cbn in E'. destruct (fit k' x') eqn:F'; [|done]. simplify_eq.
  pose proof F' as [->%bool_decide_eq_true _]%andb_prop. apply list_elem_of_fmap. by exists (k', y).
Qed.

Lemma auth_laws : Auth.Laws emptyCodeHash.
Proof.
  split; cbn.
  - by intros s a acc [[E%bool_decide_eq_true _]%andb_prop _]%get_account_fit.
  - by intros s a acc [[_ E]%andb_prop _]%get_account_fit.
  - intros s acc a Hv. unfold get_account at 1. cbn. destruct (decide (a = acc_address acc)) as [->|Ha].
    + by rewrite lookup_insert_eq, fit_intro.
    + by rewrite lookup_insert_ne by done.
  - intros s acc a. unfold get_account at 1. cbn. destruct (decide (a = acc_address acc)) as [->|Ha].
    + by rewrite lookup_delete_eq.
    + by rewrite lookup_delete_ne by done.
  - intros a s acc s' [= <- <-]. split; [by eexists|done].
  - apply elem_of_all_accounts.
  - apply all_accounts_nodup.
  - intros m a c s s'. apply send_spec.
Qed.
End impl.
End AuthImpl.
