(* ===== verification/Evm.v ===== *)
(** * The state database of the evm module: src/x/evm/types/{statedb,journal,state_object,
      access_list,storage}.go

    [CommitStateDB] implements the interface through which the virtual machine of
    go-ethereum reads and writes accounts.  Objects of accounts are loaded from the
    account keeper on first use and live in a slice with an index by address; a change
    is recorded in the journal, so that it can be undone; Finalise and Commit write the
    objects back.  The context of the source, through which the stores are reached, is
    the field [ctx].

    A state object is used through a pointer into the slice: methods of a state object
    that change it take its address here and work on the entry of that address.  An
    object that createObject has replaced is only reachable from the journal, where no
    method is called on it, so the journal keeps its value.  A nil slice of bytes is
    [None].  An access out of the range of a slice panics.

    Keccak and the 32 byte hashes of go-ethereum are the class [Eth]. *)

From S2P Require Import Prelude SdkDec SdkCoins GoStd Account EvmErrors.

#[local] Open Scope Z_scope.

(** ** go-ethereum *)

Class Eth := {
  Hash : Type;
  #[global] Hash_eq_dec :: EqDecision Hash;
  #[global] Hash_countable :: Countable Hash;
  (* Hash.Bytes, BytesToHash, Hash{} *)
  HashBytes : Hash → string;
  BytesToHash : string → Hash;
  zeroHash : Hash;
  Keccak256Hash : string → Hash;
}.

(** A hash is 32 bytes, from which BytesToHash makes it again. *)
Class EthLaws `{E : Eth} : Prop := {
  BytesToHash_Bytes h : BytesToHash (HashBytes h) = h;
  HashBytes_nonempty h : HashBytes h ≠ "";
}.

Module Evm.

Abbreviation Address := string (only parsing).
Abbreviation bytes := string (only parsing).

(** *** Parameters (params.go) *)

Record Params := MkParams {
  EvmDenom : string; EnableCreate : bool; EnableCall : bool; ExtraEIPs : list Z
}.

Section statedb.
Context `{DO : Dec.Ops} `{CO : !Coins.Ops} `{E : Eth} `{AO : Auth.Ops}.

(** ethcrypto.Keccak256(nil) *)
Definition emptyCodeHash : bytes := HashBytes (Keccak256Hash "").

(** ** Data *)

(** A storage slot (storage.go). *)
Record State := NewState { Key : Hash; Value : Hash }.
Abbreviation Storage := (list State) (only parsing).

Record stateObject := MkObject {
  code : option bytes;
  originStorage : list State;
  dirtyStorage : list State;
  so_dbErr : option error;
  account : EthAccount;
  keyToOriginStorageIndex : gmap Hash nat;
  keyToDirtyStorageIndex : gmap Hash nat;
  address : Address;
  dirtyCode : bool;
  suicided : bool;
  deleted : bool;
}.

Definition set_code (x : option bytes) (s : stateObject) : stateObject :=
  MkObject x (originStorage s) (dirtyStorage s) (so_dbErr s) (account s) (keyToOriginStorageIndex s)
    (keyToDirtyStorageIndex s) (address s) (dirtyCode s) (suicided s) (deleted s).
Definition set_originStorage (x : list State) (s : stateObject) : stateObject :=
  MkObject (code s) x (dirtyStorage s) (so_dbErr s) (account s) (keyToOriginStorageIndex s)
    (keyToDirtyStorageIndex s) (address s) (dirtyCode s) (suicided s) (deleted s).
Definition set_dirtyStorage (x : list State) (s : stateObject) : stateObject :=
  MkObject (code s) (originStorage s) x (so_dbErr s) (account s) (keyToOriginStorageIndex s)
    (keyToDirtyStorageIndex s) (address s) (dirtyCode s) (suicided s) (deleted s).
Definition set_so_dbErr (x : option error) (s : stateObject) : stateObject :=
  MkObject (code s) (originStorage s) (dirtyStorage s) x (account s) (keyToOriginStorageIndex s)
    (keyToDirtyStorageIndex s) (address s) (dirtyCode s) (suicided s) (deleted s).
Definition set_account (x : EthAccount) (s : stateObject) : stateObject :=
  MkObject (code s) (originStorage s) (dirtyStorage s) (so_dbErr s) x (keyToOriginStorageIndex s)
    (keyToDirtyStorageIndex s) (address s) (dirtyCode s) (suicided s) (deleted s).
Definition set_keyToOriginStorageIndex (x : gmap Hash nat) (s : stateObject) : stateObject :=
  MkObject (code s) (originStorage s) (dirtyStorage s) (so_dbErr s) (account s) x (keyToDirtyStorageIndex s)
    (address s) (dirtyCode s) (suicided s) (deleted s).
Definition set_keyToDirtyStorageIndex (x : gmap Hash nat) (s : stateObject) : stateObject :=
  MkObject (code s) (originStorage s) (dirtyStorage s) (so_dbErr s) (account s) (keyToOriginStorageIndex s) x
    (address s) (dirtyCode s) (suicided s) (deleted s).
Definition set_address (x : Address) (s : stateObject) : stateObject :=
  MkObject (code s) (originStorage s) (dirtyStorage s) (so_dbErr s) (account s) (keyToOriginStorageIndex s)
    (keyToDirtyStorageIndex s) x (dirtyCode s) (suicided s) (deleted s).
Definition set_dirtyCode (x : bool) (s : stateObject) : stateObject :=
  MkObject (code s) (originStorage s) (dirtyStorage s) (so_dbErr s) (account s) (keyToOriginStorageIndex s)
    (keyToDirtyStorageIndex s) (address s) x (suicided s) (deleted s).
Definition set_suicided (x : bool) (s : stateObject) : stateObject :=
  MkObject (code s) (originStorage s) (dirtyStorage s) (so_dbErr s) (account s) (keyToOriginStorageIndex s)
    (keyToDirtyStorageIndex s) (address s) (dirtyCode s) x (deleted s).
Definition set_deleted (x : bool) (s : stateObject) : stateObject :=
  MkObject (code s) (originStorage s) (dirtyStorage s) (so_dbErr s) (account s) (keyToOriginStorageIndex s)
    (keyToDirtyStorageIndex s) (address s) (dirtyCode s) (suicided s) x.

(** The entries of the journal. *)
Inductive journalEntry :=
| createObjectChange (account : Address)
| resetObjectChange (prev : stateObject)
| suicideChange (account : Address) (prev : bool) (prevBalance : Dec)
| balanceChange (account : Address) (prev : Dec)
| nonceChange (account : Address) (prev : Z)
| storageChange (account : Address) (key prevValue : Hash)
| codeChange (account : Address) (prevCode : option bytes) (prevHash : bytes)
| refundChange (prev : Z)
| addLogChange (txhash : Hash)
| addPreimageChange (hash : Hash)
| touchChange (account : Address)
| accessListAddAccountChange (address : Address)
| accessListAddSlotChange (address : Address) (slot : Hash).

(** dirtied: the address that the change has modified, or nil. *)
Definition dirtied (entry : journalEntry) : option Address :=
  match entry with
  | createObjectChange a => Some a
  | resetObjectChange _ => None
  | suicideChange a _ _ => Some a
  | balanceChange a _ => Some a
  | nonceChange a _ => Some a
  | storageChange a _ _ => Some a
  | codeChange a _ _ => Some a
  | refundChange _ => None
  | addLogChange _ => None
  | addPreimageChange _ => None
  | touchChange a => Some a
  | accessListAddAccountChange _ => None
  | accessListAddSlotChange _ _ => None
  end.

Record dirty := MkDirty { dAddress : Address; changes : Z }.

Record journal := MkJournal {
  entries : list journalEntry;
  dirties : list dirty;
  addressToJournalIndex : gmap Address nat;
}.

Definition set_entries (x : list journalEntry) (s : journal) : journal :=
  MkJournal x (dirties s) (addressToJournalIndex s).
Definition set_dirties (x : list dirty) (s : journal) : journal :=
  MkJournal (entries s) x (addressToJournalIndex s).
Definition set_addressToJournalIndex (x : gmap Address nat) (s : journal) : journal :=
  MkJournal (entries s) (dirties s) x.

(** The access list of a transaction (access_list.go): an address without slots has
    index -1. *)
Record accessList := MkAccessList { addresses : gmap Address Z; slots : list (gset Hash) }.

(** A log of the virtual machine (ethtypes.Log). *)
Record Log := MkLog {
  lAddress : Address; Topics : list Hash; Data : bytes; BlockNumber : Z;
  TxHash : Hash; TxIndex : Z; BlockHash : Hash; Index : Z; Removed : bool
}.

Record preimageEntry := MkPreimage { pHash : Hash; preimage : bytes }.
Record revision := MkRevision { rId : Z; journalIndex : nat }.
Record stateEntry := MkEntry { seAddress : Address; seObject : stateObject }.

(** The stores of the context that the state database reaches: the account keeper, the prefixes
    of the module's own store, and the parameters.  The key of a slot of an address has the
    bytes of a hash, which determine it. *)
Record Store := MkStore {
  accounts : Auth.state;
  codes : gmap bytes bytes;
  storage : gmap (Address * Hash) bytes;
  heightHashes : gmap Z bytes;
  paramSpace : Params;
}.

Definition set_accounts (x : Auth.state) (s : Store) : Store :=
  MkStore x (codes s) (storage s) (heightHashes s) (paramSpace s).
Definition set_codes (x : gmap bytes bytes) (s : Store) : Store :=
  MkStore (accounts s) x (storage s) (heightHashes s) (paramSpace s).
Definition set_storage (x : gmap (Address * Hash) bytes) (s : Store) : Store :=
  MkStore (accounts s) (codes s) x (heightHashes s) (paramSpace s).
Definition set_heightHashes (x : gmap Z bytes) (s : Store) : Store :=
  MkStore (accounts s) (codes s) (storage s) x (paramSpace s).
Definition set_paramSpace (x : Params) (s : Store) : Store :=
  MkStore (accounts s) (codes s) (storage s) (heightHashes s) x.

Record CommitStateDB := MkCSDB {
  ctx : Store;
  stateObjects : list stateEntry;
  addressToObjectIndex : gmap Address nat;
  stateObjectsDirty : gset Address;
  refund : Z;
  thash : Hash;
  bhash : Hash;
  txIndex : Z;
  logSize : Z;
  logs : list Log;
  preimages : list preimageEntry;
  hashToPreimageIndex : gmap Hash nat;
  dbErr : option error;
  csJournal : journal;
  validRevisions : list revision;
  nextRevisionID : Z;
  csAccessList : accessList;
  params : option Params;
}.

Definition set_ctx (x : Store) (s : CommitStateDB) : CommitStateDB :=
  MkCSDB x (stateObjects s) (addressToObjectIndex s) (stateObjectsDirty s) (refund s) (thash s) (bhash s)
    (txIndex s) (logSize s) (logs s) (preimages s) (hashToPreimageIndex s) (dbErr s) (csJournal s)
    (validRevisions s) (nextRevisionID s) (csAccessList s) (params s).
Definition set_stateObjects (x : list stateEntry) (s : CommitStateDB) : CommitStateDB :=
  MkCSDB (ctx s) x (addressToObjectIndex s) (stateObjectsDirty s) (refund s) (thash s) (bhash s) (txIndex s)
    (logSize s) (logs s) (preimages s) (hashToPreimageIndex s) (dbErr s) (csJournal s) (validRevisions s)
    (nextRevisionID s) (csAccessList s) (params s).
Definition set_addressToObjectIndex (x : gmap Address nat) (s : CommitStateDB) : CommitStateDB :=
  MkCSDB (ctx s) (stateObjects s) x (stateObjectsDirty s) (refund s) (thash s) (bhash s) (txIndex s)
    (logSize s) (logs s) (preimages s) (hashToPreimageIndex s) (dbErr s) (csJournal s) (validRevisions s)
    (nextRevisionID s) (csAccessList s) (params s).
Definition set_stateObjectsDirty (x : gset Address) (s : CommitStateDB) : CommitStateDB :=
  MkCSDB (ctx s) (stateObjects s) (addressToObjectIndex s) x (refund s) (thash s) (bhash s) (txIndex s)
    (logSize s) (logs s) (preimages s) (hashToPreimageIndex s) (dbErr s) (csJournal s) (validRevisions s)
    (nextRevisionID s) (csAccessList s) (params s).
Definition set_refund (x : Z) (s : CommitStateDB) : CommitStateDB :=
  MkCSDB (ctx s) (stateObjects s) (addressToObjectIndex s) (stateObjectsDirty s) x (thash s) (bhash s)
    (txIndex s) (logSize s) (logs s) (preimages s) (hashToPreimageIndex s) (dbErr s) (csJournal s)
    (validRevisions s) (nextRevisionID s) (csAccessList s) (params s).
Definition set_thash (x : Hash) (s : CommitStateDB) : CommitStateDB :=
  MkCSDB (ctx s) (stateObjects s) (addressToObjectIndex s) (stateObjectsDirty s) (refund s) x (bhash s)
    (txIndex s) (logSize s) (logs s) (preimages s) (hashToPreimageIndex s) (dbErr s) (csJournal s)
    (validRevisions s) (nextRevisionID s) (csAccessList s) (params s).
Definition set_bhash (x : Hash) (s : CommitStateDB) : CommitStateDB :=
  MkCSDB (ctx s) (stateObjects s) (addressToObjectIndex s) (stateObjectsDirty s) (refund s) (thash s) x
    (txIndex s) (logSize s) (logs s) (preimages s) (hashToPreimageIndex s) (dbErr s) (csJournal s)
    (validRevisions s) (nextRevisionID s) (csAccessList s) (params s).
Definition set_txIndex (x : Z) (s : CommitStateDB) : CommitStateDB :=
  MkCSDB (ctx s) (stateObjects s) (addressToObjectIndex s) (stateObjectsDirty s) (refund s) (thash s)
    (bhash s) x (logSize s) (logs s) (preimages s) (hashToPreimageIndex s) (dbErr s) (csJournal s)
    (validRevisions s) (nextRevisionID s) (csAccessList s) (params s).
Definition set_logSize (x : Z) (s : CommitStateDB) : CommitStateDB :=
  MkCSDB (ctx s) (stateObjects s) (addressToObjectIndex s) (stateObjectsDirty s) (refund s) (thash s)
    (bhash s) (txIndex s) x (logs s) (preimages s) (hashToPreimageIndex s) (dbErr s) (csJournal s)
    (validRevisions s) (nextRevisionID s) (csAccessList s) (params s).
Definition set_logs (x : list Log) (s : CommitStateDB) : CommitStateDB :=
  MkCSDB (ctx s) (stateObjects s) (addressToObjectIndex s) (stateObjectsDirty s) (refund s) (thash s)
    (bhash s) (txIndex s) (logSize s) x (preimages s) (hashToPreimageIndex s) (dbErr s) (csJournal s)
    (validRevisions s) (nextRevisionID s) (csAccessList s) (params s).
Definition set_preimages (x : list preimageEntry) (s : CommitStateDB) : CommitStateDB :=
  MkCSDB (ctx s) (stateObjects s) (addressToObjectIndex s) (stateObjectsDirty s) (refund s) (thash s)
    (bhash s) (txIndex s) (logSize s) (logs s) x (hashToPreimageIndex s) (dbErr s) (csJournal s)
    (validRevisions s) (nextRevisionID s) (csAccessList s) (params s).
Definition set_hashToPreimageIndex (x : gmap Hash nat) (s : CommitStateDB) : CommitStateDB :=
  MkCSDB (ctx s) (stateObjects s) (addressToObjectIndex s) (stateObjectsDirty s) (refund s) (thash s)
    (bhash s) (txIndex s) (logSize s) (logs s) (preimages s) x (dbErr s) (csJournal s) (validRevisions s)
    (nextRevisionID s) (csAccessList s) (params s).
Definition set_dbErr (x : option error) (s : CommitStateDB) : CommitStateDB :=
  MkCSDB (ctx s) (stateObjects s) (addressToObjectIndex s) (stateObjectsDirty s) (refund s) (thash s)
    (bhash s) (txIndex s) (logSize s) (logs s) (preimages s) (hashToPreimageIndex s) x (csJournal s)
    (validRevisions s) (nextRevisionID s) (csAccessList s) (params s).
Definition set_csJournal (x : journal) (s : CommitStateDB) : CommitStateDB :=
  MkCSDB (ctx s) (stateObjects s) (addressToObjectIndex s) (stateObjectsDirty s) (refund s) (thash s)
    (bhash s) (txIndex s) (logSize s) (logs s) (preimages s) (hashToPreimageIndex s) (dbErr s) x
    (validRevisions s) (nextRevisionID s) (csAccessList s) (params s).
Definition set_validRevisions (x : list revision) (s : CommitStateDB) : CommitStateDB :=
  MkCSDB (ctx s) (stateObjects s) (addressToObjectIndex s) (stateObjectsDirty s) (refund s) (thash s)
    (bhash s) (txIndex s) (logSize s) (logs s) (preimages s) (hashToPreimageIndex s) (dbErr s) (csJournal s)
    x (nextRevisionID s) (csAccessList s) (params s).
Definition set_nextRevisionID (x : Z) (s : CommitStateDB) : CommitStateDB :=
  MkCSDB (ctx s) (stateObjects s) (addressToObjectIndex s) (stateObjectsDirty s) (refund s) (thash s)
    (bhash s) (txIndex s) (logSize s) (logs s) (preimages s) (hashToPreimageIndex s) (dbErr s) (csJournal s)
    (validRevisions s) x (csAccessList s) (params s).
Definition set_csAccessList (x : accessList) (s : CommitStateDB) : CommitStateDB :=
  MkCSDB (ctx s) (stateObjects s) (addressToObjectIndex s) (stateObjectsDirty s) (refund s) (thash s)
    (bhash s) (txIndex s) (logSize s) (logs s) (preimages s) (hashToPreimageIndex s) (dbErr s) (csJournal s)
    (validRevisions s) (nextRevisionID s) x (params s).
Definition set_params (x : option Params) (s : CommitStateDB) : CommitStateDB :=
  MkCSDB (ctx s) (stateObjects s) (addressToObjectIndex s) (stateObjectsDirty s) (refund s) (thash s)
    (bhash s) (txIndex s) (logSize s) (logs s) (preimages s) (hashToPreimageIndex s) (dbErr s) (csJournal s)
    (validRevisions s) (nextRevisionID s) (csAccessList s) x.

Abbreviation ME := (M CommitStateDB).

(** ** The journal (journal.go) *)

Definition newJournal : journal := MkJournal [] [] ∅.

(** j.dirties[idx].changes += n *)
Definition add_changes (n : Z) (idx : nat) (j : journal) : outcome journal :=
  d ← or_panic (dirties j !! idx);
  Ok (set_dirties (<[idx := MkDirty (dAddress d) (changes d + n)]> (dirties j)) j).

Definition addDirty (addr : Address) (j : journal) : outcome journal :=
  match addressToJournalIndex j !! addr with
  | None =>
      let j := set_dirties (dirties j ++ [MkDirty addr 0]) j in
      let idx := pred (length (dirties j)) in
      let j := set_addressToJournalIndex (<[addr := idx]> (addressToJournalIndex j)) j in
      add_changes 1 idx j
  | Some idx => add_changes 1 idx j
  end.

(** journal.append *)
Definition append (entry : journalEntry) (j : journal) : outcome journal :=
  let j := set_entries (entries j ++ [entry]) j in
  match dirtied entry with
  | Some addr => addDirty addr j
  | None => Ok j
  end.

Definition jlength (j : journal) : nat := length (entries j).

Definition getDirty (addr : Address) (j : journal) : outcome Z :=
  match addressToJournalIndex j !! addr with
  | None => Ok 0
  | Some idx => d ← or_panic (dirties j !! idx); Ok (changes d)
  end.

Definition substractDirty (addr : Address) (j : journal) : outcome journal :=
  match addressToJournalIndex j !! addr with
  | None => Ok j
  | Some idx =>
      d ← or_panic (dirties j !! idx);
      if (changes d =? 0)%Z then Ok j else add_changes (-1) idx j
  end.

(** The index of the entries behind the deleted one stays as it was. *)
Definition deleteDirty (addr : Address) (j : journal) : outcome journal :=
  match addressToJournalIndex j !! addr with
  | None => Ok j
  | Some idx =>
      if (idx <? length (dirties j))%nat then
        Ok (set_addressToJournalIndex (delete addr (addressToJournalIndex j))
              (set_dirties (take idx (dirties j) ++ drop (S idx) (dirties j)) j))
      else Panic
  end.

(** ** The access list (access_list.go) *)

Definition newAccessList : accessList := MkAccessList ∅ [].

Definition ContainsAddress (address : Address) (al : accessList) : bool :=
  bool_decide (is_Some (addresses al !! address)).

Definition Contains (address : Address) (slot : Hash) (al : accessList) : bool * bool :=
  match addresses al !! address with
  | None => (false, false)
  | Some idx =>
      if (idx =? -1)%Z then (true, false)
      else if (idx >=? Z.of_nat (length (slots al)))%Z then (true, false)
      else (true, match slots al !! Z.to_nat idx with Some m => bool_decide (slot ∈ m) | None => false end)
  end.

Definition AddAddress (address : Address) (al : accessList) : bool * accessList :=
  match addresses al !! address with
  | Some _ => (false, al)
  | None => (true, MkAccessList (<[address := -1]> (addresses al)) (slots al))
  end.

Definition AddSlot (address : Address) (slot : Hash) (al : accessList) : bool * bool * accessList :=
  let addrPresent := bool_decide (is_Some (addresses al !! address)) in
  let idx := default 0 (addresses al !! address) in
  if negb addrPresent || (idx =? -1)%Z then
    (negb addrPresent, true,
     MkAccessList (<[address := Z.of_nat (length (slots al))]> (addresses al)) (slots al ++ [{[slot]}]))
  else if (idx >=? Z.of_nat (length (slots al)))%Z then (false, false, al)
  else
    match slots al !! Z.to_nat idx with
    | None => (false, false, al)
    | Some slotmap =>
        if bool_decide (slot ∈ slotmap) then (false, false, al)
        else (false, true, MkAccessList (addresses al) (<[Z.to_nat idx := {[slot]} ∪ slotmap]> (slots al)))
    end.

Definition DeleteSlot (address : Address) (slot : Hash) (al : accessList) : outcome accessList :=
  idx ← or_panic (addresses al !! address);
  if (idx <? 0)%Z then Panic else
  slotmap ← or_panic (slots al !! Z.to_nat idx : option (gset Hash));
  let slotmap : gset Hash := slotmap ∖ {[slot]} in
  if bool_decide (slotmap = ∅)
  then Ok (MkAccessList (<[address := -1]> (addresses al)) (take (Z.to_nat idx) (slots al)))
  else Ok (MkAccessList (addresses al) (<[Z.to_nat idx := slotmap]> (slots al))).

Definition DeleteAddress (address : Address) (al : accessList) : accessList :=
  MkAccessList (delete address (addresses al)) (slots al).

(** ** State objects (state_object.go) *)

Definition newStateObject (accProto : Account) : outcome stateObject :=
  match accProto with
  | OtherAcc _ _ => Panic
  | EthAcc acc =>
      let acc := match aCodeHash acc with
                 | None => set_aCodeHash (Some emptyCodeHash) acc
                 | Some _ => acc
                 end in
      Ok (MkObject None [] [] None acc ∅ ∅ (aAddress acc) false false false)
  end.

Definition obj_setNonce (nonce : Z) (so : stateObject) : stateObject :=
  set_account (set_aSequence nonce (account so)) so.

Definition obj_setBalance (denom : string) (amount : Dec) (so : stateObject) : outcome stateObject :=
  acc ← acc_SetBalance denom amount (account so); Ok (set_account acc so).

Definition obj_setCode (codeHash : Hash) (c : option bytes) (so : stateObject) : stateObject :=
  set_dirtyCode true (set_account (set_aCodeHash (Some (HashBytes codeHash)) (account so)) (set_code c so)).

Definition obj_setState (key value : Hash) (so : stateObject) : outcome stateObject :=
  match keyToDirtyStorageIndex so !! key with
  | Some idx =>
      st ← or_panic (dirtyStorage so !! idx);
      Ok (set_dirtyStorage (<[idx := NewState (Key st) value]> (dirtyStorage so)) so)
  | None =>
      let so := set_dirtyStorage (dirtyStorage so ++ [NewState key value]) so in
      Ok (set_keyToDirtyStorageIndex
            (<[key := pred (length (dirtyStorage so))]> (keyToDirtyStorageIndex so)) so)
  end.

Definition obj_setError (err : error) (so : stateObject) : stateObject :=
  match so_dbErr so with None => set_so_dbErr (Some err) so | Some _ => so end.

Definition markSuicided (so : stateObject) : stateObject := set_suicided true so.

Definition obj_CodeHash (so : stateObject) : bytes :=
  match aCodeHash (account so) with
  | None => emptyCodeHash
  | Some h => if (String.length h =? 0)%nat then emptyCodeHash else h
  end.

Definition obj_Nonce (so : stateObject) : Z := aSequence (account so).

(** The balance is the big integer of the decimal, its mantissa. *)
Definition obj_Balance (denom : string) (so : stateObject) : Z := acc_Balance (account so) denom.

Definition nonempty (c : option bytes) : bool :=
  match c with Some b => (0 <? String.length b)%nat | None => false end.

(** Code: the cached code, or the one of the store; a missing one is remembered as an error. *)
Definition obj_Code (st : Store) (so : stateObject) : option bytes * stateObject :=
  if nonempty (code so) then (code so, so)
  else if String.eqb (obj_CodeHash so) emptyCodeHash then (None, so)
  else
    let c := codes st !! obj_CodeHash so in
    (c, if nonempty c then so else obj_setError EvmErr.ErrPlain so).

Definition GetStorageByAddressKey (addr : Address) (key : Hash) : Hash :=
  Keccak256Hash (addr +:+ HashBytes key).

(** GetCommittedState: the cached original value, or the one of the store, which is cached. *)
Definition obj_GetCommittedState (st : Store) (key : Hash) (so : stateObject) : outcome (Hash * stateObject) :=
  let prefixKey := GetStorageByAddressKey (address so) key in
  match keyToOriginStorageIndex so !! prefixKey with
  | Some idx => s ← or_panic (originStorage so !! idx); Ok (Value s, so)
  | None =>
      let rawValue := default "" (storage st !! (address so, prefixKey)) in
      let value := if (0 <? String.length rawValue)%nat then BytesToHash rawValue else zeroHash in
      let so := set_originStorage (originStorage so ++ [NewState prefixKey value]) so in
      Ok (value, set_keyToOriginStorageIndex
                   (<[prefixKey := pred (length (originStorage so))]> (keyToOriginStorageIndex so)) so)
  end.

Definition obj_GetState (st : Store) (key : Hash) (so : stateObject) : outcome (Hash * stateObject) :=
  let prefixKey := GetStorageByAddressKey (address so) key in
  match keyToDirtyStorageIndex so !! prefixKey with
  | Some idx => s ← or_panic (dirtyStorage so !! idx); Ok (Value s, so)
  | None => obj_GetCommittedState st key so
  end.

(** empty *)
Definition obj_empty (denom : string) (so : stateObject) : bool :=
  (aSequence (account so) =? 0)%Z && Dec.IsZero (acc_Balance (account so) denom) &&
  String.eqb (default "" (aCodeHash (account so))) emptyCodeHash.

(** commitState: one iteration of the loop over the dirty slots. *)
Definition commit_slot (s : State) (st : Store) (so : stateObject) : outcome (Store * stateObject) :=
  let st := if bool_decide (Value s = zeroHash)
            then set_storage (delete (address so, Key s) (storage st)) st else st in
  let so := set_keyToDirtyStorageIndex (delete (Key s) (keyToDirtyStorageIndex so)) so in
  match keyToOriginStorageIndex so !! Key s with
  | None => Ok (st, so)
  | Some idx =>
      if bool_decide (Value s = zeroHash) then
        Ok (st, set_keyToOriginStorageIndex (delete (Key s) (keyToOriginStorageIndex so)) so)
      else
        o ← or_panic (originStorage so !! idx);
        if bool_decide (Value s = Value o) then Ok (st, so)
        else
          Ok (set_storage (<[(address so, Key s) := HashBytes (Value s)]> (storage st)) st,
              set_originStorage (<[idx := NewState (Key o) (Value s)]> (originStorage so)) so)
  end.

Fixpoint commit_slots (l : list State) (st : Store) (so : stateObject) : outcome (Store * stateObject) :=
  match l with
  | [] => Ok (st, so)
  | s :: l => '(st, so) ← commit_slot s st so; commit_slots l st so
  end.

Definition obj_commitState (st : Store) (so : stateObject) : outcome (Store * stateObject) :=
  '(st, so) ← commit_slots (dirtyStorage so) st so;
  Ok (st, set_dirtyStorage [] so).

Definition obj_commitCode (st : Store) (so : stateObject) : Store :=
  set_codes (<[obj_CodeHash so := default "" (code so)]> (codes st)) st.

(** ** The state database (statedb.go) *)

Definition CreateEmptyCommitStateDB (st : Store) : CommitStateDB :=
  MkCSDB st [] ∅ ∅ 0 zeroHash zeroHash 0 0 [] [] ∅ None newJournal [] 0 newAccessList None.

(** so.stateDB.journal.append(entry) *)
Definition journal_append (entry : journalEntry) : ME unit :=
  s ← get;
  j ← lift (append entry (csJournal s));
  modify (set_csJournal j).

Definition SetParams (p : Params) : ME unit :=
  modify (λ s, set_ctx (set_paramSpace p (ctx s)) (set_params (Some p) s)).

Definition GetParams : ME Params :=
  s ← get;
  match params s with
  | Some p => mret p
  | None => let p := paramSpace (ctx s) in modify (set_params (Some p));; mret p
  end.

Definition setError (err : error) : ME unit :=
  modify (λ s, match dbErr s with None => set_dbErr (Some err) s | Some _ => s end).

(** csdb.stateObjects[idx].stateObject *)
Definition object_at (idx : nat) : ME stateObject :=
  s ← get;
  e ← lift (or_panic (stateObjects s !! idx));
  mret (seObject e).
Definition put_object (idx : nat) (so : stateObject) : ME unit :=
  modify (λ s, set_stateObjects (alter (λ e, MkEntry (seAddress e) so) idx (stateObjects s)) s).

(** The object behind a pointer, which is the live object of an address, and a change of it. *)
Definition deref (addr : Address) : ME stateObject :=
  s ← get;
  idx ← lift (or_panic (addressToObjectIndex s !! addr));
  object_at idx.
Definition assign (addr : Address) (so : stateObject) : ME unit :=
  s ← get;
  idx ← lift (or_panic (addressToObjectIndex s !! addr));
  put_object idx so.

Definition setStateObject (so : stateObject) : ME unit :=
  s ← get;
  match addressToObjectIndex s !! address so with
  | Some idx =>
      object_at idx;;
      put_object idx so
  | None =>
      let l := stateObjects s ++ [MkEntry (address so) so] in
      modify (set_stateObjects l);;
      modify (set_addressToObjectIndex (<[address so := pred (length l)]> (addressToObjectIndex s)))
  end.

Definition getStateObject (addr : Address) : ME (option stateObject) :=
  s ← get;
  match addressToObjectIndex s !! addr with
  | Some idx =>
      so ← object_at idx;
      mret (if deleted so then None else Some so)
  | None =>
      match Auth.GetAccount (accounts (ctx s)) addr with
      | None => setError EvmErr.ErrPlain;; mret None
      | Some acc =>
          so ← lift (newStateObject acc);
          setStateObject so;;
          mret (Some so)
      end
  end.

(** The new object and the one that it replaces. *)
Definition createObject (addr : Address) : ME (stateObject * option stateObject) :=
  prevObj ← getStateObject addr;
  s ← get;
  let '(acc, st) := Auth.NewAccountWithAddress addr (accounts (ctx s)) in
  modify (set_ctx (set_accounts st (ctx s)));;
  newObj ← lift (newStateObject acc);
  let newObj := obj_setNonce 0 newObj in
  journal_append (match prevObj with
                  | None => createObjectChange addr
                  | Some prev => resetObjectChange prev
                  end);;
  setStateObject newObj;;
  mret (newObj, prevObj).

(** The pointer that is returned is the live object of the address. *)
Definition GetOrNewStateObject (addr : Address) : ME unit :=
  so ← getStateObject addr;
  match so with
  | None => createObject addr;; mret tt
  | Some so => if deleted so then createObject addr;; mret tt else mret tt
  end.

(** *** Methods of the object of an address *)

Definition so_setBalance (addr : Address) (denom : string) (amount : Dec) : ME unit :=
  so ← deref addr;
  so ← lift (obj_setBalance denom amount so);
  assign addr so.

Definition so_SetBalance (addr : Address) (amount : Z) : ME unit :=
  p ← GetParams;
  so ← deref addr;
  journal_append (balanceChange (address so) (Coins.AmountOf (aCoins (account so)) (EvmDenom p)));;
  so_setBalance addr (EvmDenom p) amount.

(** The touch of the third precompiled contract is recorded twice, so that it survives a
    revert. *)
Definition ripemd : Address := Nat.iter 19 (String Ascii.zero) (String (Ascii.ascii_of_nat 3) "").

Definition so_touch (addr : Address) : ME unit :=
  so ← deref addr;
  journal_append (touchChange (address so));;
  if String.eqb (address so) ripemd then
    s ← get;
    j ← lift (addDirty (address so) (csJournal s));
    modify (set_csJournal j)
  else mret tt.

Definition so_empty (addr : Address) : ME bool :=
  p ← GetParams;
  so ← deref addr;
  mret (obj_empty (EvmDenom p) so).

Definition so_AddBalance (addr : Address) (amount : Z) : ME unit :=
  if Dec.IsZero amount then
    e ← so_empty addr;
    if e : bool then so_touch addr else mret tt
  else
    p ← GetParams;
    so ← deref addr;
    so_SetBalance addr (Dec.Add (Coins.AmountOf (aCoins (account so)) (EvmDenom p)) amount).

Definition so_SubBalance (addr : Address) (amount : Z) : ME unit :=
  if Dec.IsZero amount then mret tt
  else
    p ← GetParams;
    so ← deref addr;
    so_SetBalance addr (Dec.Sub (Coins.AmountOf (aCoins (account so)) (EvmDenom p)) amount).

Definition so_SetNonce (addr : Address) (nonce : Z) : ME unit :=
  so ← deref addr;
  journal_append (nonceChange (address so) (aSequence (account so)));;
  assign addr (obj_setNonce nonce so).

Definition so_GetState (addr : Address) (key : Hash) : ME Hash :=
  so ← deref addr;
  s ← get;
  '(v, so) ← lift (obj_GetState (ctx s) key so);
  assign addr so;;
  mret v.

Definition so_GetCommittedState (addr : Address) (key : Hash) : ME Hash :=
  so ← deref addr;
  s ← get;
  '(v, so) ← lift (obj_GetCommittedState (ctx s) key so);
  assign addr so;;
  mret v.

Definition so_SetState (addr : Address) (key value : Hash) : ME unit :=
  prev ← so_GetState addr key;
  if bool_decide (prev = value) then mret tt
  else
    so ← deref addr;
    let prefixKey := GetStorageByAddressKey (address so) key in
    journal_append (storageChange (address so) prefixKey prev);;
    so ← lift (obj_setState prefixKey value so);
    assign addr so.

Definition so_Code (addr : Address) : ME (option bytes) :=
  so ← deref addr;
  s ← get;
  let '(c, so) := obj_Code (ctx s) so in
  assign addr so;;
  mret c.

Definition so_SetCode (addr : Address) (codeHash : Hash) (c : option bytes) : ME unit :=
  prevCode ← so_Code addr;
  so ← deref addr;
  journal_append (codeChange (address so) prevCode (obj_CodeHash so));;
  assign addr (obj_setCode codeHash c so).

(** *** Setters *)

Definition SetBalance (addr : Address) (amount : Z) : ME unit :=
  GetOrNewStateObject addr;; so_SetBalance addr amount.
Definition AddBalance (addr : Address) (amount : Z) : ME unit :=
  GetOrNewStateObject addr;; so_AddBalance addr amount.
Definition SubBalance (addr : Address) (amount : Z) : ME unit :=
  GetOrNewStateObject addr;; so_SubBalance addr amount.
Definition SetNonce (addr : Address) (nonce : Z) : ME unit :=
  GetOrNewStateObject addr;; so_SetNonce addr nonce.
Definition SetState (addr : Address) (key value : Hash) : ME unit :=
  GetOrNewStateObject addr;; so_SetState addr key value.
Definition SetCode (addr : Address) (c : option bytes) : ME unit :=
  GetOrNewStateObject addr;; so_SetCode addr (Keccak256Hash (default "" c)) c.

Definition SetLogs (l : list Log) : ME unit := modify (set_logs l).
Definition DeleteLogs : ME unit := modify (set_logs []).

Definition AddLog (log : Log) : ME unit :=
  s ← get;
  journal_append (addLogChange (thash s));;
  let log := MkLog (lAddress log) (Topics log) (Data log) (BlockNumber log) (thash s) (uint64 (txIndex s))
               (bhash s) (logSize s) (Removed log) in
  modify (λ s, set_logs (logs s ++ [log]) (set_logSize (uint64 (logSize s + 1)) s)).

Definition AddPreimage (hash : Hash) (pre : bytes) : ME unit :=
  s ← get;
  match hashToPreimageIndex s !! hash with
  | Some _ => mret tt
  | None =>
      journal_append (addPreimageChange hash);;
      let l := preimages s ++ [MkPreimage hash pre] in
      modify (set_preimages l);;
      modify (set_hashToPreimageIndex (<[hash := pred (length l)]> (hashToPreimageIndex s)))
  end.

Definition AddRefund (gas : Z) : ME unit :=
  s ← get;
  journal_append (refundChange (refund s));;
  modify (set_refund (uint64 (refund s + gas))).

Definition SubRefund (gas : Z) : ME unit :=
  s ← get;
  journal_append (refundChange (refund s));;
  if (refund s <? gas)%Z then panic else modify (set_refund (refund s - gas)).

Definition AddAddressToAccessList (addr : Address) : ME unit :=
  s ← get;
  let '(changed, al) := AddAddress addr (csAccessList s) in
  modify (set_csAccessList al);;
  if changed : bool then journal_append (accessListAddAccountChange addr) else mret tt.

Definition AddSlotToAccessList (addr : Address) (slot : Hash) : ME unit :=
  s ← get;
  let '(addrMod, slotMod, al) := AddSlot addr slot (csAccessList s) in
  modify (set_csAccessList al);;
  (if addrMod : bool then journal_append (accessListAddAccountChange addr) else mret tt);;
  (if slotMod : bool then journal_append (accessListAddSlotChange addr slot) else mret tt).

Definition AddressInAccessList (addr : Address) : ME bool := gets (λ s, ContainsAddress addr (csAccessList s)).
Definition SlotInAccessList (addr : Address) (slot : Hash) : ME (bool * bool) :=
  gets (λ s, Contains addr slot (csAccessList s)).

Definition SetHeightHash (height : Z) (hash : Hash) : ME unit :=
  modify (λ s, set_ctx (set_heightHashes (<[height := HashBytes hash]> (heightHashes (ctx s))) (ctx s)) s).

(** *** Getters *)

Definition GetHeightHash (height : Z) : ME Hash :=
  gets (λ s, match heightHashes (ctx s) !! height with
             | Some bz => if (String.length bz =? 0)%nat then zeroHash else BytesToHash bz
             | None => zeroHash
             end).

Definition GetBalance (addr : Address) : ME Z :=
  so ← getStateObject addr;
  match so with
  | Some so => p ← GetParams; mret (obj_Balance (EvmDenom p) so)
  | None => mret 0
  end.

Definition GetNonce (addr : Address) : ME Z :=
  so ← getStateObject addr;
  mret (match so with Some so => obj_Nonce so | None => 0 end).

Definition GetCode (addr : Address) : ME (option bytes) :=
  so ← getStateObject addr;
  match so with Some _ => so_Code addr | None => mret None end.

Definition GetCodeSize (addr : Address) : ME Z :=
  so ← getStateObject addr;
  match so with
  | None => mret 0
  | Some so =>
      match code so with
      | Some c => mret (Z.of_nat (String.length c))
      | None => c ← so_Code addr; mret (Z.of_nat (String.length (default "" c)))
      end
  end.

Definition GetCodeHash (addr : Address) : ME Hash :=
  so ← getStateObject addr;
  mret (match so with Some so => BytesToHash (obj_CodeHash so) | None => zeroHash end).

Definition GetState (addr : Address) (hash : Hash) : ME Hash :=
  so ← getStateObject addr;
  match so with Some _ => so_GetState addr hash | None => mret zeroHash end.

Definition GetCommittedState (addr : Address) (hash : Hash) : ME Hash :=
  so ← getStateObject addr;
  match so with Some _ => so_GetCommittedState addr hash | None => mret zeroHash end.

Definition GetLogs : ME (list Log) := gets logs.
Definition GetRefund : ME Z := gets refund.
Definition Preimages : ME (gmap Hash bytes) :=
  gets (λ s, foldl (λ m pe, <[pHash pe := preimage pe]> m) ∅ (preimages s)).

Definition HasSuicided (addr : Address) : ME bool :=
  so ← getStateObject addr;
  mret (match so with Some so => suicided so | None => false end).

Definition Empty (addr : Address) : ME bool :=
  so ← getStateObject addr;
  match so with Some _ => so_empty addr | None => mret true end.

Definition Exist (addr : Address) : ME bool :=
  so ← getStateObject addr;
  mret (match so with Some _ => true | None => false end).

Definition Suicide (addr : Address) : ME bool :=
  o ← getStateObject addr;
  match o with
  | None => mret false
  | Some so =>
      p ← GetParams;
      journal_append (suicideChange addr (suicided so) (obj_Balance (EvmDenom p) so));;
      so ← deref addr;
      assign addr (markSuicided so);;
      so_SetBalance addr 0;;
      mret true
  end.

Definition CreateAccount (addr : Address) : ME unit :=
  '(_, prevobj) ← createObject addr;
  match prevobj with
  | None => mret tt
  | Some prevobj =>
      p ← GetParams;
      so_setBalance addr (EvmDenom p) (obj_Balance (EvmDenom p) prevobj)
  end.

(** *** Undoing the journal (journal.go) *)

(** The object of an address that must be there: a nil pointer panics. *)
Definition must_object (addr : Address) : ME stateObject :=
  o ← getStateObject addr; lift (or_panic o).

(** The loop that moves the entries behind idx one position to the left, in the slice and
    in the index. *)
Definition shift_left {A K} `{Countable K} (key : A → K) (idx : nat) (l : list A) (m : gmap K nat)
    : list A * gmap K nat :=
  (take (pred (length l)) (take idx l ++ drop (S idx) l),
   foldl (λ m (ix : nat * A), <[key (snd ix) := pred (fst ix)]> m) m
     (drop (S idx) (zip (seq 0 (length l)) l))).

Definition revert_createObject (addr : Address) : ME unit :=
  modify (λ s, set_stateObjectsDirty (stateObjectsDirty s ∖ {[addr]}) s);;
  s ← get;
  match addressToObjectIndex s !! addr with
  | None => mret tt
  | Some idx =>
      let m := delete addr (addressToObjectIndex s) in
      if (length (stateObjects s) =? 1)%nat then
        modify (λ s, set_stateObjects [] (set_addressToObjectIndex m s))
      else if (length (stateObjects s) =? 0)%nat then panic
      else
        let '(l, m) := shift_left seAddress idx (stateObjects s) m in
        modify (λ s, set_stateObjects l (set_addressToObjectIndex m s))
  end.

Definition revert_addPreimage (hash : Hash) : ME unit :=
  s ← get;
  match hashToPreimageIndex s !! hash with
  | None => mret tt
  | Some idx =>
      let m := delete hash (hashToPreimageIndex s) in
      if (length (preimages s) =? 1)%nat then
        modify (λ s, set_preimages [] (set_hashToPreimageIndex m s))
      else if (length (preimages s) =? 0)%nat then panic
      else
        let '(l, m) := shift_left pHash idx (preimages s) m in
        modify (λ s, set_preimages l (set_hashToPreimageIndex m s))
  end.

Definition revert_addLog : ME unit :=
  l ← GetLogs;
  (if (length l <=? 1)%nat then DeleteLogs else SetLogs (take (pred (length l)) l));;
  modify (λ s, set_logSize (uint64 (logSize s - 1)) s).

(** journalEntry.revert *)
Definition revert (entry : journalEntry) : ME unit :=
  match entry with
  | createObjectChange a => revert_createObject a
  | resetObjectChange prev => setStateObject prev
  | suicideChange a prev prevBalance =>
      o ← getStateObject a;
      match o with
      | None => mret tt
      | Some so =>
          assign a (set_suicided prev so);;
          p ← GetParams;
          so_setBalance a (EvmDenom p) prevBalance
      end
  | balanceChange a prev =>
      p ← GetParams;
      must_object a;;
      so_setBalance a (EvmDenom p) prev
  | nonceChange a prev =>
      so ← must_object a;
      assign a (obj_setNonce prev so)
  | storageChange a key prevValue =>
      so ← must_object a;
      so ← lift (obj_setState key prevValue so);
      assign a so
  | codeChange a prevCode prevHash =>
      so ← must_object a;
      assign a (obj_setCode (BytesToHash prevHash) prevCode so)
  | refundChange prev => modify (set_refund prev)
  | addLogChange _ => revert_addLog
  | addPreimageChange hash => revert_addPreimage hash
  | touchChange _ => mret tt
  | accessListAddAccountChange a => modify (λ s, set_csAccessList (DeleteAddress a (csAccessList s)) s)
  | accessListAddSlotChange a slot =>
      s ← get;
      al ← lift (DeleteSlot a slot (csAccessList s));
      modify (set_csAccessList al)
  end.

(** Drops the dirty tracking that the entry induced. *)
Definition undirty (entry : journalEntry) (j : journal) : outcome journal :=
  match dirtied entry with
  | None => Ok j
  | Some addr =>
      j ← substractDirty addr j;
      n ← getDirty addr j;
      if (n =? 0)%Z then deleteDirty addr j else Ok j
  end.

Fixpoint revert_entries (l : list journalEntry) : ME unit :=
  match l with
  | [] => mret tt
  | entry :: l =>
      revert entry;;
      s ← get;
      j ← lift (undirty entry (csJournal s));
      modify (set_csJournal j);;
      revert_entries l
  end.

(** journal.revert: from the last entry down to the one at the snapshot. *)
Definition journal_revert (snapshot : nat) : ME unit :=
  s ← get;
  revert_entries (reverse (drop snapshot (entries (csJournal s))));;
  modify (λ s, set_csJournal (set_entries (take snapshot (entries (csJournal s))) (csJournal s)) s).

(** *** Snapshots *)

Definition Snapshot : ME Z :=
  s ← get;
  let id := nextRevisionID s in
  modify (set_nextRevisionID (id + 1));;
  modify (set_validRevisions (validRevisions s ++ [MkRevision id (jlength (csJournal s))]));;
  mret id.

Definition RevertToSnapshot (revID : Z) : ME unit :=
  s ← get;
  let revs := validRevisions s in
  let idx := Search (length revs) (λ i, match revs !! i with Some r => (rId r >=? revID)%Z | None => false end) in
  match revs !! idx with
  | None => panic
  | Some r =>
      if negb (rId r =? revID)%Z then panic
      else
        journal_revert (journalIndex r);;
        modify (λ s, set_validRevisions (take idx (validRevisions s)) s)
  end.

(** *** Writing back *)

Definition clearJournalAndRefund : ME unit :=
  modify (λ s, set_refund 0 (set_validRevisions [] (set_csJournal newJournal s))).

(** The account's coins are set to themselves: the balance of the object is the one of its
    account.  A balance of zero drops a coin of amount zero. *)
Definition updateStateObject (idx : nat) : ME unit :=
  p ← GetParams;
  so ← object_at idx;
  let newBalance := MkCoin (EvmDenom p) (obj_Balance (EvmDenom p) so) in
  throw_if (negb (Coins.CoinIsValid newBalance)) EvmErr.ErrPlain;;
  throw_if (Auth.BlacklistedAddr (aAddress (account so))) EvmErr.ErrPlain;;
  let coins := aCoins (account so) in
  let balance := Coins.AmountOf coins (Denom newBalance) in
  let coins := if Dec.IsZero balance || negb (Dec.Equal balance (Amount newBalance))
               then Coins.Add coins [newBalance] else coins in
  let so := set_account (set_aCoins coins (account so)) so in
  put_object idx so;;
  modify (λ s, set_ctx (set_accounts (Auth.SetAccount (EthAcc (account so)) (accounts (ctx s))) (ctx s)) s).

Definition deleteStateObject (idx : nat) : ME unit :=
  so ← object_at idx;
  put_object idx (set_deleted true so);;
  modify (λ s, set_ctx (set_accounts (Auth.RemoveAccount (EthAcc (account so)) (accounts (ctx s))) (ctx s)) s).

Definition obj_is_empty (so : stateObject) : ME bool := p ← GetParams; mret (obj_empty (EvmDenom p) so).

(** Commit: one object of the slice. *)
Definition commit_object (deleteEmptyObjects : bool) (idx : nat) : ME unit :=
  s ← get;
  e ← lift (or_panic (stateObjects s !! idx));
  let so := seObject e in
  let isDirty := bool_decide (seAddress e ∈ stateObjectsDirty s) in
  dead ← (if suicided so then mret true
          else if isDirty && deleteEmptyObjects then obj_is_empty so else mret false);
  (if dead : bool then deleteStateObject idx
   else if isDirty then
     (if match code so with Some _ => dirtyCode so | None => false end then
        modify (λ s, set_ctx (obj_commitCode (ctx s) so) s);;
        put_object idx (set_dirtyCode false so)
      else mret tt);;
     updateStateObject idx
   else mret tt);;
  modify (λ s, set_stateObjectsDirty (stateObjectsDirty s ∖ {[seAddress e]}) s).

(** defer csdb.clearJournalAndRefund() *)
Definition deferred {A} (last : CommitStateDB → CommitStateDB) (m : ME A) : ME A := λ s,
  let '(r, s) := m s in (r, last s).

Definition Commit (deleteEmptyObjects : bool) : ME unit :=
  deferred (λ s, snd (clearJournalAndRefund s))
    (s ← get;
     modify (set_stateObjectsDirty (stateObjectsDirty s ∪ list_to_set (dAddress <$> dirties (csJournal s))));;
     mapM_ (commit_object deleteEmptyObjects) (seq 0 (length (stateObjects s)))).

(** Finalise: one dirty address. *)
Definition finalise_one (deleteEmptyObjects : bool) (d : dirty) : ME unit :=
  s ← get;
  match addressToObjectIndex s !! dAddress d with
  | None => mret tt
  | Some idx =>
      so ← object_at idx;
      dead ← (if suicided so then mret true
              else if deleteEmptyObjects then obj_is_empty so else mret false);
      (if dead : bool then deleteStateObject idx
       else
         s ← get;
         '(st, so) ← lift (obj_commitState (ctx s) so);
         modify (set_ctx st);;
         put_object idx so;;
         updateStateObject idx);;
      modify (λ s, set_stateObjectsDirty ({[dAddress d]} ∪ stateObjectsDirty s) s)
  end.

Definition Finalise (deleteEmptyObjects : bool) : ME unit :=
  s ← get;
  mapM_ (finalise_one deleteEmptyObjects) (dirties (csJournal s));;
  clearJournalAndRefund;;
  DeleteLogs.

Definition IntermediateRoot (deleteEmptyObjects : bool) : ME Hash :=
  Finalise deleteEmptyObjects;; mret zeroHash.

(** *** Auxiliary *)

(** UpdateAccounts: one object.  The source compares the pointers of two big integers, which
    always differ, so the account is replaced whenever its balance is valid. *)
Definition update_account (idx : nat) : ME unit :=
  s ← get;
  e ← lift (or_panic (stateObjects s !! idx));
  match Auth.GetAccount (accounts (ctx s)) (seAddress e) with
  | Some (EthAcc acc) =>
      p ← GetParams;
      let balance := MkCoin (EvmDenom p) (Coins.AmountOf (aCoins acc) (EvmDenom p)) in
      if Coins.CoinIsValid balance || negb (obj_Nonce (seObject e) =? aSequence acc)%Z
      then put_object idx (set_account acc (seObject e)) else mret tt
  | _ => mret tt
  end.
Definition UpdateAccounts : ME unit :=
  s ← get;
  mapM_ update_account (seq 0 (length (stateObjects s))).

Definition ClearStateObjects : ME unit :=
  modify (λ s, set_stateObjectsDirty ∅ (set_addressToObjectIndex ∅ (set_stateObjects [] s))).

Definition Reset : ME unit :=
  ClearStateObjects;;
  modify (λ s, set_txIndex 0 (set_bhash zeroHash (set_thash zeroHash s)));;
  modify (set_logSize 0);;
  modify (λ s, set_hashToPreimageIndex ∅ (set_preimages [] s));;
  modify (λ s, set_params None (set_csAccessList newAccessList s));;
  clearJournalAndRefund.

Definition Prepare (th bh : Hash) (txi : Z) : ME unit :=
  modify (λ s, set_txIndex txi (set_bhash bh (set_thash th s))).
Definition SetLogSize (n : Z) : ME unit := modify (set_logSize n).
Definition GetLogSize : ME Z := gets logSize.

(** ForEachStorage: the callback changes an accumulator and says whether to stop.  The
    iterator gives the slots of the address in the order of their keys. *)
Definition stored_slots (addr : Address) (st : Store) : list (Hash * bytes) :=
  omap (λ kv : (Address * Hash) * bytes, if bool_decide (fst (fst kv) = addr) then Some (snd (fst kv), snd kv) else None)
    (keyed_sorted (λ k : Address * Hash, fst k +:+ HashBytes (snd k)) (storage st)).

Fixpoint each_slot {A} (l : list (Hash * bytes)) (so : stateObject) (cb : Hash → Hash → A → A * bool) (a : A)
    : outcome A :=
  match l with
  | [] => Ok a
  | (key, raw) :: l =>
      value ← (match keyToDirtyStorageIndex so !! key with
               | Some idx => st ← or_panic (dirtyStorage so !! idx); Ok (Value st)
               | None => Ok (BytesToHash raw)
               end);
      let '(a, stop) := cb key value a in
      if stop : bool then Ok a else each_slot l so cb a
  end.

Definition ForEachStorage {A} (addr : Address) (cb : Hash → Hash → A → A * bool) (a : A) : ME A :=
  o ← getStateObject addr;
  match o with
  | None => mret a
  | Some so => s ← get; lift (each_slot (stored_slots addr (ctx s)) so cb a)
  end.

End statedb.
End Evm.
