(* ===== verification/EvmSpec.v ===== *)
(** * The state database: what it shows, and its invariant

    The view [vacc] of a state database is what its getters show of an account, whether
    the account is still in the store or has been loaded and changed.  Two databases are
    the [same] when they show the same; [wf] is the invariant of the slices, indices and
    caches.  Loading and caching do not change the view, and every change of an object is
    a change of its view. *)

From S2P Require Import Prelude SdkDec SdkCoins CoinFacts GoStd Account EvmErrors Evm.

#[local] Open Scope Z_scope.

Module EvmSpec.
Import Evm.

(** The entry of a key in a slice with an index. *)
Definition indexed {A} `{Countable K} (key : A → K) (l : list A) (m : gmap K nat) : Prop :=
  ∀ k i, m !! k = Some i ↔ ∃ x, l !! i = Some x ∧ key x = k.

Section indexed.
Context {A : Type} `{Countable K} (key : A → K).

Lemma indexed_nil : indexed key [] ∅.
Proof. intros k i. rewrite lookup_empty. split; [done|]. by intros (x & ? & _). Qed.

Lemma indexed_lookup l m k i : indexed key l m → m !! k = Some i → ∃ x, l !! i = Some x ∧ key x = k.
Proof. intros Hm. apply Hm. Qed.

Lemma indexed_inj l m i j x y : indexed key l m → l !! i = Some x → l !! j = Some y → key x = key y → i = j.
Proof.
  intros Hm Hi Hj E.
  assert (m !! key x = Some i) by (apply Hm; eauto). assert (m !! key x = Some j) by (apply Hm; eauto).
  congruence.
Qed.

Lemma indexed_snoc l m x : indexed key l m → m !! key x = None →
  indexed key (l ++ [x]) (<[key x := pred (length (l ++ [x]))]> m).
Proof.
  intros Hm Hx k i. rewrite length_app. cbn. replace (pred (length l + 1)) with (length l) by lia.
  rewrite lookup_insert_Some. split.
  - intros [[<- <-]|[Hne Hk]]; [exists x; by rewrite list_lookup_middle|]. apply Hm in Hk as (y & Hy & <-).
    exists y. by rewrite lookup_app_l by by eapply lookup_lt_Some.
  - intros (y & [[Hl Hy]|[-> <-]]%lookup_snoc_Some & <-); [|by left].
    right. assert (m !! key y = Some i) by (apply Hm; eauto). split; [|done]. congruence.
Qed.

Lemma indexed_alter l m i x y : indexed key l m → l !! i = Some x → key y = key x →
  indexed key (<[i := y]> l) m.
Proof.
  intros Hm Hi Hk k j. rewrite (Hm k j). destruct (decide (j = i)) as [->|Hne].
  - rewrite list_lookup_insert_eq by by eapply lookup_lt_Some. split.
    + intros (z & Hz & <-). simplify_eq. eauto.
    + intros (z & Hz & <-). simplify_eq. eauto.
  - by rewrite list_lookup_insert_ne.
Qed.
End indexed.

(** Removing an entry and moving the ones behind it. *)
Section shift.
Context {A : Type} `{Countable K} (key : A → K).

Lemma foldl_insert_out (l : list (nat * A)) (m : gmap K nat) k : (∀ j x, (j, x) ∈ l → key x ≠ k) →
  foldl (λ m (ix : nat * A), <[key (snd ix) := pred (fst ix)]> m) m l !! k = m !! k.
Proof.
  revert m. induction l as [|[j x] l IH]; intros m Hl; [done|]. cbn. rewrite IH by set_solver.
  apply lookup_insert_ne. eapply (Hl j x). set_solver.
Qed.

Lemma foldl_insert_in (l : list (nat * A)) (m : gmap K nat) j x : (j, x) ∈ l →
  (∀ j' x', (j', x') ∈ l → key x' = key x → j' = j) →
  foldl (λ m (ix : nat * A), <[key (snd ix) := pred (fst ix)]> m) m l !! key x = Some (pred j).
Proof.
  revert m x. induction l as [|[j' x'] l IH]; intros m x Hin Hu; [by apply not_elem_of_nil in Hin|]. cbn.
  destruct (decide (Exists (λ p : nat * A, key (snd p) = key x) l)) as [He|Hne].
  - apply Exists_exists in He as ([j2 x2] & Hin2 & Hk). cbn in Hk.
    assert (j2 = j) as -> by (apply (Hu j2 x2); [set_solver|done]). rewrite <-Hk. apply IH; [done|].
    intros j3 x3 Hin3 Hk3. apply (Hu j3 x3); [set_solver|congruence].
  - rewrite foldl_insert_out.
    + apply elem_of_cons in Hin as [[= <- <-]|Hin]; [by rewrite lookup_insert_eq|].
      exfalso. apply Hne, Exists_exists. by exists (j, x).
    + intros j2 x2 Hin2 Hk. apply Hne, Exists_exists. by exists (j2, x2).
Qed.

Lemma elem_of_behind (l : list A) i j x : (j, x) ∈ drop (S i) (zip (seq 0 (length l)) l) ↔ (i < j)%nat ∧ l !! j = Some x.
Proof.
  rewrite list_elem_of_lookup. split.
  - intros [n Hn]. rewrite lookup_drop in Hn. apply lookup_zip_Some in Hn as [Hs Hl].
    apply lookup_seq in Hs as [-> _]. split; [lia|done].
  - intros [Hi Hl]. exists (j - S i)%nat. rewrite lookup_drop. replace (S i + (j - S i))%nat with j by lia.
    apply lookup_zip_Some. split; [|done]. apply lookup_seq. split; [done|]. by eapply lookup_lt_Some.
Qed.

Lemma shift_left_ok (l : list A) (m : gmap K nat) k i : indexed key l m → m !! k = Some i →
  let '(l', m') := shift_left key i l (delete k m) in
  indexed key l' m' ∧ m' !! k = None ∧
  ∀ k', k' ≠ k → (m' !! k' ≫= λ j, l' !! j) = (m !! k' ≫= λ j, l !! j).
Proof.
  intros Hm Hk. pose proof Hk as (x & Hx & Hkx)%Hm. pose proof (lookup_lt_Some _ _ _ Hx) as Hlt. unfold shift_left.
  rewrite take_ge by (rewrite length_app, length_take, length_drop; lia). rewrite <-delete_take_drop.
  set (m' := foldl _ _ _).
  assert (m' !! k = None) as Hk'.
  { unfold m'. rewrite foldl_insert_out; [apply lookup_delete_eq|]. intros j y [Hj Hy]%elem_of_behind Hky.
    assert (j = i) by (eapply indexed_inj; [exact Hm|exact Hy|exact Hx|congruence]). lia. }
  assert (∀ k' j, k' ≠ k → m !! k' = Some j → m' !! k' = Some (if decide (j < i)%nat then j else pred j)) as Hget.
  { intros k' j Hne Hj. pose proof Hj as (y & Hy & <-)%Hm. unfold m'. destruct (decide (j < i)%nat) as [Hji|Hji].
    - rewrite foldl_insert_out; [by rewrite lookup_delete_ne|]. intros j' y' [Hj' Hy']%elem_of_behind Hky.
      assert (j' = j) by (eapply indexed_inj; [exact Hm|exact Hy'|exact Hy|done]). lia.
    - apply foldl_insert_in.
      + apply elem_of_behind. split; [|done]. destruct (decide (j = i)) as [->|]; [congruence|lia].
      + intros j' y' [_ Hy']%elem_of_behind Hky. eapply indexed_inj; [exact Hm|exact Hy'|exact Hy|done]. }
  assert (∀ k', k' ≠ k → m !! k' = None → m' !! k' = None) as Hnone.
  { intros k' Hne Hn. unfold m'. rewrite foldl_insert_out; [by rewrite lookup_delete_ne|].
    intros j y [_ Hy]%elem_of_behind <-. assert (m !! key y = Some j) by (apply Hm; eauto). congruence. }
  split; [|split; [done|]].
  - intros k' j. split.
    + intros Hj. destruct (decide (k' = k)) as [->|Hne]; [congruence|].
      destruct (m !! k') as [j0|] eqn:E0; [|by rewrite (Hnone k' Hne E0) in Hj].
      pose proof E0 as (y & Hy & <-)%Hm. rewrite (Hget _ _ Hne E0) in Hj. injection Hj as <-. exists y. split; [|done].
      destruct (decide (j0 < i)%nat); [by rewrite list_lookup_delete_lt|].
      destruct (decide (j0 = i)) as [->|]; [congruence|]. rewrite list_lookup_delete_ge by lia.
      by replace (S (pred j0)) with j0 by lia.
    + intros (y & Hy & <-). destruct (decide (j < i)%nat) as [Hji|Hji].
      * rewrite list_lookup_delete_lt in Hy by lia. assert (m !! key y = Some j) as E0 by (apply Hm; eauto).
        rewrite (Hget (key y) j); [by rewrite decide_True| |done]. intros Ek.
        assert (j = i) by (eapply indexed_inj; [exact Hm|exact Hy|exact Hx|congruence]). lia.
      * rewrite list_lookup_delete_ge in Hy by lia. assert (m !! key y = Some (S j)) as E0 by (apply Hm; eauto).
        rewrite (Hget (key y) (S j)); [rewrite decide_False by lia; done| |done]. intros Ek.
        assert (S j = i) by (eapply indexed_inj; [exact Hm|exact Hy|exact Hx|congruence]). lia.
  - intros k' Hne. destruct (m !! k') as [j|] eqn:Ej; [|by rewrite (Hnone k' Hne Ej)]. cbn.
    rewrite (Hget k' j Hne Ej). cbn. pose proof Ej as (y & Hy & <-)%Hm. destruct (decide (j < i)%nat).
    + by rewrite list_lookup_delete_lt.
    + destruct (decide (j = i)) as [->|]; [congruence|]. rewrite list_lookup_delete_ge by lia.
      by replace (S (pred j)) with j by lia.
Qed.
End shift.

Section spec.
Context `{DO : Dec.Ops} `{DL : !Dec.Laws} `{CO : !Coins.Ops} `{CL : !Coins.Laws}.
Context `{E : Eth} `{EL : !EthLaws} `{AO : Auth.Ops} `{AL : !Auth.Laws emptyCodeHash}.

(** ** Objects *)

(** The value of a slot in the store. *)
Definition stored (st : Store) (a : Address) (k : Hash) : Hash :=
  let raw := default "" (storage st !! (a, k)) in
  if (0 <? String.length raw)%nat then BytesToHash raw else zeroHash.

(** What the getters show of an object. *)
Record oview := MkView {
  v_acc : EthAccount; v_code : option bytes; v_suicided : bool; v_state : Hash → Hash
}.

Definition obj_state (st : Store) (so : stateObject) (k : Hash) : Hash :=
  match keyToDirtyStorageIndex so !! k with
  | Some i => match dirtyStorage so !! i with Some s => Value s | None => zeroHash end
  | None => stored st (address so) k
  end.

Definition ov (st : Store) (so : stateObject) : oview :=
  MkView (account so) (fst (obj_Code st so)) (suicided so) (obj_state st so).

#[export] Instance oview_equiv : Equiv oview := λ v w,
  v_acc v = v_acc w ∧ v_code v = v_code w ∧ v_suicided v = v_suicided w ∧ ∀ k, v_state v k = v_state w k.

#[export] Instance oview_equivalence : Equivalence (≡@{oview}).
Proof.
  split.
  - by intros v.
  - by intros v w (? & ? & ? & ?).
  - intros u v w (? & ? & ? & Huv) (? & ? & ? & Hvw). repeat split; [congruence..|]. intros k. by rewrite Huv.
Qed.

(** The hash of an account is the one of its code. *)
Definition coded (acc : EthAccount) (c : option bytes) : Prop :=
  aCodeHash acc = Some (HashBytes (Keccak256Hash (default "" c))).

(** The code of an account of the keeper is in the store. *)
Definition code_kept (st : Store) (acc : EthAccount) : Prop :=
  aCodeHash acc = None ∨ aCodeHash acc = Some emptyCodeHash ∨
  ∃ c, aCodeHash acc = Some (HashBytes (Keccak256Hash c)) ∧ codes st !! HashBytes (Keccak256Hash c) = Some c.

Record obj_ok (st : Store) (so : stateObject) : Prop := {
  ok_coins : Coins.IsValid (aCoins (account so)) = true;
  ok_coded : coded (account so) (fst (obj_Code st so));
  ok_address : aAddress (account so) = address so;
  ok_dirty : indexed Key (dirtyStorage so) (keyToDirtyStorageIndex so);
  ok_origin : ∀ k i, keyToOriginStorageIndex so !! k = Some i →
    originStorage so !! i = Some (NewState k (stored st (address so) k));
  ok_cached : ∀ k, is_Some (keyToDirtyStorageIndex so !! k) → is_Some (keyToOriginStorageIndex so !! k);
  ok_code : ∀ c, code so = Some c → String.length (default "" (fst (obj_Code st so))) = String.length c;
  ok_dirtyCode : is_Some (code so) → dirtyCode so = true;
}.

Lemma ok_hash st so : obj_ok st so → ∃ h, aCodeHash (account so) = Some (HashBytes h).
Proof. intros []. by eexists. Qed.

(** The stores that objects are read from. *)
Definition same_store (st st' : Store) : Prop := codes st = codes st' ∧ storage st = storage st'.

Lemma stored_same st st' a k : same_store st st' → stored st a k = stored st' a k.
Proof. intros [_ E']. unfold stored. by rewrite E'. Qed.
Lemma obj_Code_same st st' so : same_store st st' → obj_Code st so = obj_Code st' so.
Proof. intros [E' _]. unfold obj_Code. by rewrite E'. Qed.
Lemma ov_same st st' so : same_store st st' → ov st so ≡ ov st' so.
Proof.
  intros HS. split; [done|]. cbn. rewrite (obj_Code_same st st') by done. repeat split.
  intros k. unfold obj_state. by rewrite (stored_same st st').
Qed.
Lemma obj_ok_same st st' so : same_store st st' → obj_ok st so → obj_ok st' so.
Proof.
  intros HS []. split; try done.
  - by rewrite <-(obj_Code_same st st').
  - intros k i. rewrite <-(stored_same st st') by done. auto.
  - intros c. rewrite <-(obj_Code_same st st') by done. auto.
Qed.

(** The code that is shown depends on the account and the cached code. *)
Lemma obj_Code_cong st so so' : code so' = code so → aCodeHash (account so') = aCodeHash (account so) →
  fst (obj_Code st so') = fst (obj_Code st so).
Proof. intros Hc Hh. unfold obj_Code, obj_CodeHash. rewrite Hc, Hh. by repeat case_match. Qed.

Lemma ok_code_cong st so so' c : obj_ok st so → code so' = code so →
  aCodeHash (account so') = aCodeHash (account so) → code so' = Some c →
  String.length (default "" (fst (obj_Code st so'))) = String.length c.
Proof. intros Hok Hc Hh Es. rewrite (obj_Code_cong st so so') by done. apply (ok_code _ _ Hok). congruence. Qed.

Lemma ok_coded_cong st so so' : obj_ok st so → code so' = code so → account so' = account so →
  coded (account so) (fst (obj_Code st so')).
Proof. intros Hok Hc Ha. rewrite (obj_Code_cong st so so') by congruence. apply (ok_coded _ _ Hok). Qed.

(** A hash that is not empty is the hash that is used. *)
Lemma CodeHash_ok so h : aCodeHash (account so) = Some (HashBytes h) → obj_CodeHash so = HashBytes h.
Proof.
  intros Eh. unfold obj_CodeHash. rewrite Eh. destruct (String.length (HashBytes h)) eqn:El; [|done].
  exfalso. apply (HashBytes_nonempty h). by destruct (HashBytes h).
Qed.

(** A fresh object of an account of the keeper. *)
Lemma newStateObject_ok st acc so :
  newStateObject (EthAcc acc) = Ok so → Coins.IsValid (aCoins acc) = true →
  code_kept st acc →
  obj_ok st so ∧ address so = aAddress acc ∧ deleted so = false ∧ suicided so = false.
Proof.
  unfold newStateObject. intros [= <-] Hc Hh. split; [|by destruct (aCodeHash acc)].
  split; cbn.
  - by destruct (aCodeHash acc).
  - unfold coded, obj_Code, obj_CodeHash. cbn. destruct Hh as [Ea|[Ea|(c & Ea & Hcs)]]; rewrite !Ea; cbn; rewrite ?Ea.
    + destruct (String.length emptyCodeHash =? 0)%nat; by rewrite String.eqb_refl.
    + destruct (String.length emptyCodeHash =? 0)%nat; by rewrite String.eqb_refl.
    + destruct (String.length _ =? 0)%nat eqn:El.
      { exfalso. apply Nat.eqb_eq in El. apply (HashBytes_nonempty (Keccak256Hash c)). by destruct (HashBytes _). }
      destruct (String.eqb_spec (HashBytes (Keccak256Hash c)) emptyCodeHash) as [->|]; [done|]. by rewrite Hcs.
  - done.
  - apply indexed_nil.
  - intros k i. by rewrite lookup_empty.
  - intros k. rewrite lookup_empty. by intros [].
  - done.
  - by intros [].
Qed.

(** Changes of an object are changes of its view. *)
Definition with_acc (f : EthAccount → EthAccount) (v : oview) : oview :=
  MkView (f (v_acc v)) (v_code v) (v_suicided v) (v_state v).

Lemma ov_set_account st f so : aCodeHash (f (account so)) = aCodeHash (account so) →
  ov st (set_account (f (account so)) so) ≡ with_acc f (ov st so).
Proof.
  intros Hh. split; [done|]. split; [by apply obj_Code_cong|done].
Qed.

Lemma ok_set_account st f so : obj_ok st so → aCodeHash (f (account so)) = aCodeHash (account so) →
  aAddress (f (account so)) = aAddress (account so) → Coins.IsValid (aCoins (f (account so))) = true →
  obj_ok st (set_account (f (account so)) so).
Proof.
  intros Hok Hh Ha Hc. pose proof Hok as []. split; cbn; try done.
  - unfold coded in *. rewrite (obj_Code_cong st so) by done. congruence.
  - congruence.
  - intros c Ec. by apply (ok_code_cong st so _ c Hok).
Qed.

(** The code that is shown once code and hash are set. *)
Definition code_shown (st : Store) (h : Hash) (c : option bytes) : option bytes :=
  if nonempty c then c else if String.eqb (HashBytes h) emptyCodeHash then None else codes st !! HashBytes h.

Lemma fst_obj_Code st so h : aCodeHash (account so) = Some (HashBytes h) →
  fst (obj_Code st so) = code_shown st h (code so).
Proof.
  intros Eh. unfold obj_Code, code_shown. rewrite (CodeHash_ok so h) by done. by repeat case_match.
Qed.

Lemma ov_setCode st h c so :
  ov st (obj_setCode h c so) ≡
  MkView (set_aCodeHash (Some (HashBytes h)) (account so)) (code_shown st h c) (suicided so) (obj_state st so).
Proof. split; [done|]. cbn. by rewrite (fst_obj_Code _ _ h). Qed.

Lemma ok_setCode st h c so : obj_ok st so →
  (∀ b, c = Some b → String.length (default "" (code_shown st h c)) = String.length b) →
  HashBytes h = HashBytes (Keccak256Hash (default "" (code_shown st h c))) →
  obj_ok st (obj_setCode h c so).
Proof.
  intros [] Hc Hh. split; cbn; try done; [unfold coded; cbn; by rewrite (fst_obj_Code _ _ h), Hh at 1|]. intros b Hb. rewrite (fst_obj_Code _ _ h) by done. cbn. auto.
Qed.

(** The code that is shown is shown again once it is set. *)
Lemma code_shown_idem st h c : code_shown st h (code_shown st h c) = code_shown st h c.
Proof.
  unfold code_shown at 2 3. destruct (nonempty c) eqn:En; [unfold code_shown; by rewrite En|].
  destruct (String.eqb _ _) eqn:Ee; unfold code_shown; rewrite Ee; [done|].
  by destruct (nonempty (codes st !! HashBytes h)).
Qed.

(** Slots. *)
Definition with_slot (k v : Hash) (w : oview) : oview :=
  MkView (v_acc w) (v_code w) (v_suicided w) (λ k', if decide (k' = k) then v else v_state w k').

Lemma setState_ok st k v so : obj_ok st so → is_Some (keyToOriginStorageIndex so !! k) →
  ∃ so', obj_setState k v so = Ok so' ∧ obj_ok st so' ∧ ov st so' ≡ with_slot k v (ov st so) ∧
    address so' = address so ∧ deleted so' = deleted so ∧ keyToOriginStorageIndex so' = keyToOriginStorageIndex so.
Proof.
  intros Hok Ho. pose proof Hok as []. unfold obj_setState. destruct (keyToDirtyStorageIndex so !! k) as [i|] eqn:Ei.
  - pose proof Ei as (x & Hx & Hk)%ok_dirty0. rewrite Hx. cbn. eexists. split; [done|]. split; [|split; [|done]].
    + split; cbn; try done; [by apply (ok_coded_cong st so)|by eapply indexed_alter|]. intros c Ec. by apply (ok_code_cong st so _ c Hok).
    + split; [done|]. split; [by apply obj_Code_cong|]. split; [done|]. cbn. intros k'. unfold obj_state. cbn. destruct (decide (k' = k)) as [->|Hne].
      * rewrite Ei, list_lookup_insert_eq by by eapply lookup_lt_Some. done.
      * destruct (keyToDirtyStorageIndex so !! k') as [j|] eqn:Ej; [|done].
        rewrite list_lookup_insert_ne; [done|]. intros ->. apply ok_dirty0 in Ej as (y & Hy & Hk'). congruence.
  - eexists. split; [done|]. split; [|split; [|done]].
    + split; cbn; try done.
      * by apply (ok_coded_cong st so).
      * apply (indexed_snoc Key (dirtyStorage so) (keyToDirtyStorageIndex so) (NewState k v)); done.
      * intros k'. rewrite lookup_insert_is_Some. intros [<-|[_ ?]]; auto.
      * intros c Ec. by apply (ok_code_cong st so _ c Hok).
    + split; [done|]. split; [by apply obj_Code_cong|]. split; [done|]. cbn. intros k'. unfold obj_state. cbn. destruct (decide (k' = k)) as [->|Hne].
      * rewrite lookup_insert_eq, length_app. cbn. replace (pred (length (dirtyStorage so) + 1)) with (length (dirtyStorage so)) by lia.
        by rewrite list_lookup_middle.
      * rewrite lookup_insert_ne by done. destruct (keyToDirtyStorageIndex so !! k') as [j|] eqn:Ej; [|done].
        apply ok_dirty0 in Ej as (y & Hy & Hk'). by rewrite lookup_app_l by by eapply lookup_lt_Some.
Qed.

(** Reading a slot gives what is shown, and caches what the store has. *)
Definition cache_le (so so' : stateObject) : Prop :=
  ∀ k, is_Some (keyToOriginStorageIndex so !! k) → is_Some (keyToOriginStorageIndex so' !! k).

Lemma cache_eq so so' : keyToOriginStorageIndex so' = keyToOriginStorageIndex so → cache_le so so'.
Proof. intros Eq k. by rewrite Eq. Qed.

Lemma GetCommittedState_ok st key so : obj_ok st so →
  let k := GetStorageByAddressKey (address so) key in
  ∃ so', obj_GetCommittedState st key so = Ok (stored st (address so) k, so') ∧ obj_ok st so' ∧
    ov st so' ≡ ov st so ∧ address so' = address so ∧ deleted so' = deleted so ∧
    is_Some (keyToOriginStorageIndex so' !! k) ∧ cache_le so so'.
Proof.
  intros Hok k. pose proof Hok as []. unfold obj_GetCommittedState. fold k.
  destruct (keyToOriginStorageIndex so !! k) as [i|] eqn:Ei.
  - rewrite (ok_origin0 _ _ Ei). cbn. exists so. split_and!; try done; first [by eexists|by intros ?].
  - eexists. split; [done|]. split; [|split; [split; [done|]; split; [by apply obj_Code_cong|done]|split_and!; cbn; try done]].
    2: by rewrite lookup_insert_eq.
    2: intros k'; cbn; rewrite lookup_insert_is_Some'; auto.
    split; cbn; try done; [by apply (ok_coded_cong st so)|..].
    3: intros c Ec; by apply (ok_code_cong st so _ c Hok).
    + intros k' i. rewrite lookup_insert_Some, length_app. cbn.
      replace (pred (length (originStorage so) + 1)) with (length (originStorage so)) by lia.
      intros [[<- <-]|[_ Hk]]; [by rewrite list_lookup_middle|].
      pose proof (ok_origin0 _ _ Hk) as Hl. by rewrite lookup_app_l by by eapply lookup_lt_Some.
    + intros k' Hk. rewrite lookup_insert_is_Some'. auto.
Qed.

Lemma GetState_ok st key so : obj_ok st so →
  let k := GetStorageByAddressKey (address so) key in
  ∃ so', obj_GetState st key so = Ok (obj_state st so k, so') ∧ obj_ok st so' ∧
    ov st so' ≡ ov st so ∧ address so' = address so ∧ deleted so' = deleted so ∧
    is_Some (keyToOriginStorageIndex so' !! k) ∧ cache_le so so'.
Proof.
  intros Hok k. unfold obj_GetState. fold k. destruct (keyToDirtyStorageIndex so !! k) as [i|] eqn:Ei.
  - pose proof (ok_cached _ _ Hok k ltac:(by eexists)) as Hc.
    pose proof (ok_dirty _ _ Hok k i) as [Hd _]. destruct (Hd Ei) as (x & Hx & _). rewrite Hx. cbn.
    exists so. unfold obj_state at 1. rewrite Ei, Hx. split_and!; try done. by intros ?.
  - destruct (GetCommittedState_ok st key so Hok) as (so' & -> & ? & ? & ? & ? & ? & ?).
    exists so'. unfold obj_state at 1. rewrite Ei. by split_and!.
Qed.

(** ** The table of objects *)

(** The object of an address, if it has been loaded. *)
Definition obj_of (s : CommitStateDB) (a : Address) : option stateObject :=
  match addressToObjectIndex s !! a with
  | Some i => seObject <$> stateObjects s !! i
  | None => None
  end.

(** Only the table differs. *)
Definition only_objects (s s' : CommitStateDB) : Prop :=
  ∃ l m, s' = set_addressToObjectIndex m (set_stateObjects l s).

Definition table_ok (s : CommitStateDB) : Prop := indexed seAddress (stateObjects s) (addressToObjectIndex s).

(** [s'] is [s] with [so] as the object of [a]. *)
Definition puts (a : Address) (so : stateObject) (s s' : CommitStateDB) : Prop :=
  only_objects s s' ∧ table_ok s' ∧ ∀ b, obj_of s' b = if decide (b = a) then Some so else obj_of s b.

Lemma obj_of_entry s a so : table_ok s → obj_of s a = Some so →
  ∃ i e, addressToObjectIndex s !! a = Some i ∧ stateObjects s !! i = Some e ∧ seAddress e = a ∧ seObject e = so.
Proof.
  intros Ht. unfold obj_of. destruct (addressToObjectIndex s !! a) as [i|] eqn:Ei; [|done].
  pose proof Ei as (e & He & <-)%Ht. rewrite He. cbn. intros [= <-]. by exists i, e.
Qed.

Lemma obj_of_at s i e : table_ok s → stateObjects s !! i = Some e → obj_of s (seAddress e) = Some (seObject e).
Proof.
  intros Ht Hi. assert (addressToObjectIndex s !! seAddress e = Some i) as Ei by (apply Ht; eauto).
  unfold obj_of. by rewrite Ei, Hi.
Qed.

Lemma obj_of_none s a : table_ok s → obj_of s a = None → addressToObjectIndex s !! a = None.
Proof.
  intros Ht. unfold obj_of. destruct (addressToObjectIndex s !! a) as [i|] eqn:Ei; [|done].
  pose proof Ei as (e & He & _)%Ht. by rewrite He.
Qed.

Lemma object_at_ok s i e : stateObjects s !! i = Some e → object_at i s = (Ok (seObject e), s).
Proof. intros Hi. unfold object_at, get, lift, mbind, M_bind. cbn. by rewrite Hi. Qed.

Lemma alter_entry (l : list stateEntry) i e f : l !! i = Some e → alter f i l = <[i := f e]> l.
Proof. intros Hi. apply list_eq_same_length with (n := length l); rewrite ?length_alter, ?length_insert; [done..|].
  intros j x y Hj. destruct (decide (j = i)) as [->|Hne].
  - rewrite list_lookup_alter_eq, Hi, list_lookup_insert_eq by by eapply lookup_lt_Some. cbn. congruence.
  - rewrite list_lookup_alter_ne, list_lookup_insert_ne by done. congruence.
Qed.

Lemma put_object_puts s i e so : table_ok s → stateObjects s !! i = Some e →
  ∃ s', put_object i so s = (Ok tt, s') ∧ puts (seAddress e) so s s'.
Proof.
  intros Ht Hi. eexists. split; [done|]. rewrite (alter_entry _ _ e) by done.
  assert (addressToObjectIndex s !! seAddress e = Some i) as Ei by (apply Ht; eauto).
  split; [exists (<[i := MkEntry (seAddress e) so]> (stateObjects s)), (addressToObjectIndex s); by destruct s|].
  split; [by eapply indexed_alter|].
  intros b. unfold obj_of. cbn. destruct (decide (b = seAddress e)) as [->|Hb].
  - rewrite Ei. by rewrite list_lookup_insert_eq by by eapply lookup_lt_Some.
  - destruct (addressToObjectIndex s !! b) as [j|] eqn:Ej; [|done].
    rewrite list_lookup_insert_ne; [done|]. intros ->. apply Ht in Ej as (e' & He' & ?). congruence.
Qed.

Lemma deref_ok s a so : table_ok s → obj_of s a = Some so → deref a s = (Ok so, s).
Proof.
  intros Ht Ho. destruct (obj_of_entry s a so Ht Ho) as (i & e & Ei & He & _ & <-).
  unfold deref, get, lift, mbind, M_bind. cbn. rewrite Ei. cbn. by apply object_at_ok.
Qed.

Lemma assign_ok s a so so' : table_ok s → obj_of s a = Some so →
  ∃ s', assign a so' s = (Ok tt, s') ∧ puts a so' s s'.
Proof.
  intros Ht Ho. destruct (obj_of_entry s a so Ht Ho) as (i & e & Ei & He & <- & _).
  unfold assign, get, lift, mbind, M_bind. cbn. rewrite Ei. cbn. by apply put_object_puts.
Qed.

Lemma setStateObject_ok s so : table_ok s → ∃ s', setStateObject so s = (Ok tt, s') ∧ puts (address so) so s s'.
Proof.
  intros Ht. unfold setStateObject, get, mbind, M_bind. cbn.
  destruct (addressToObjectIndex s !! address so) as [i|] eqn:Ei.
  - pose proof Ei as (e & He & Ea)%Ht. rewrite (object_at_ok _ _ e) by done. rewrite <-Ea.
    by apply put_object_puts.
  - eexists. split; [done|]. split; [by do 2 eexists|]. cbn.
    split; [by apply (indexed_snoc seAddress (stateObjects s) (addressToObjectIndex s) (MkEntry (address so) so))|].
    intros b. unfold obj_of. cbn. destruct (decide (b = address so)) as [->|Hb].
    + rewrite lookup_insert_eq, length_app. cbn. replace (pred (length (stateObjects s) + 1)) with (length (stateObjects s)) by lia.
      by rewrite list_lookup_middle.
    + rewrite lookup_insert_ne by done. destruct (addressToObjectIndex s !! b) as [j|] eqn:Ej; [|done].
      pose proof Ej as (e & He & _)%Ht. by rewrite lookup_app_l by by eapply lookup_lt_Some.
Qed.

(** ** The view of the database *)

(** What is shown of an account of the keeper: an account of another type panics. *)
Definition kept_view (st : Store) (a : Address) : outcome (option oview) :=
  match Auth.GetAccount (accounts st) a with
  | None => Ok None
  | Some acc => so ← newStateObject acc; Ok (Some (ov st so))
  end.

Definition vacc (s : CommitStateDB) (a : Address) : outcome (option oview) :=
  match obj_of s a with
  | Some so => Ok (if deleted so then None else Some (ov (ctx s) so))
  | None => kept_view (ctx s) a
  end.

#[export] Instance acct_equiv : Equiv (outcome (option oview)) := λ o p,
  match o, p with
  | Ok (Some v), Ok (Some w) => v ≡ w
  | Ok None, Ok None => True
  | Panic, Panic => True
  | _, _ => False
  end.

Lemma acct_equiv_refl o : (∀ e, o ≠ Err e) → o ≡@{outcome (option oview)} o.
Proof. intros Ho. destruct o as [[]|e|]; [done|done|by destruct (Ho e)|done]. Qed.
#[export] Instance acct_equiv_sym : Symmetric (≡@{outcome (option oview)}).
Proof. intros [[]|e|] [[]|e'|]; try done. unfold equiv, acct_equiv. by symmetry. Qed.
#[export] Instance acct_equiv_trans : Transitive (≡@{outcome (option oview)}).
Proof. intros [[]|e|] [[]|e'|] [[]|e''|]; try done. unfold equiv, acct_equiv. by etrans. Qed.

Lemma vacc_no_err s a e : vacc s a ≠ Err e.
Proof.
  unfold vacc, kept_view. destruct (obj_of s a); [done|]. destruct (Auth.GetAccount _ _) as [[]|]; done.
Qed.

(** Everything but accounts, caches and the bookkeeping of the journal. *)
Definition rest (s : CommitStateDB) :=
  (refund s, logs s, logSize s, preimages s, hashToPreimageIndex s, csAccessList s,
   (codes (ctx s), storage (ctx s), heightHashes (ctx s), paramSpace (ctx s)), (thash s, bhash s, txIndex s)).

(** Two databases that show the same, over stores that hold the same. *)
Record same (s t : CommitStateDB) : Prop := {
  same_acc a : vacc s a ≡ vacc t a;
  same_rest : rest s = rest t;
  same_keeper a : Auth.GetAccount (accounts (ctx s)) a = Auth.GetAccount (accounts (ctx t)) a;
}.

#[export] Instance same_equivalence : Equivalence same.
Proof.
  split.
  - intros s. split; [|done..]. intros a. apply acct_equiv_refl. intros e. apply vacc_no_err.
  - intros s t []. split; [|done..]. intros a. by symmetry.
  - intros s t u [] []. split; [|congruence|congruence]. intros a. by etrans.
Qed.

Lemma same_intro s s' : (∀ a, obj_of s' a = obj_of s a) → ctx s' = ctx s → rest s' = rest s → same s s'.
Proof.
  intros Ho Hc Hr. split; [|done|by rewrite Hc]. intros a.
  assert (vacc s' a = vacc s a) as -> by (unfold vacc; by rewrite Ho, Hc).
  apply acct_equiv_refl. intros e. apply vacc_no_err.
Qed.

Lemma same_stores s t : same s t → same_store (ctx s) (ctx t).
Proof. intros []. unfold rest in *. by simplify_eq. Qed.

(** The journal and the snapshots stay as they are. *)
Definition frame (s t : CommitStateDB) : Prop :=
  csJournal t = csJournal s ∧ validRevisions t = validRevisions s ∧ nextRevisionID t = nextRevisionID s.

#[export] Instance frame_preorder : PreOrder frame.
Proof. split; [done|]. intros s t u (? & ? & ?) (? & ? & ?). split_and!; congruence. Qed.

Definition al_ok (al : accessList) : Prop := ∀ a i, addresses al !! a = Some i →
  i = -1 ∨ 0 ≤ i ∧ ∃ m, slots al !! Z.to_nat i = Some m ∧ m ≠ ∅.

(** The invariant of a database that has not been written back yet. *)
Record wf (s : CommitStateDB) : Prop := {
  wf_table : table_ok s;
  wf_objects : ∀ a so, obj_of s a = Some so → address so = a ∧ obj_ok (ctx s) so;
  wf_deleted : ∀ a so, obj_of s a = Some so → deleted so = false;
  wf_dirty : stateObjectsDirty s = ∅;
  wf_keeper : ∀ a acc, Auth.GetAccount (accounts (ctx s)) a = Some (EthAcc acc) →
    code_kept (ctx s) acc;
  wf_params : params s = None ∨ params s = Some (paramSpace (ctx s));
  wf_denom : Coins.ValidDenom (EvmDenom (paramSpace (ctx s))) = true;
  wf_logSize : 0 ≤ logSize s < 2 ^ 64;
  wf_access : al_ok (csAccessList s);
}.

Definition denom_of (s : CommitStateDB) : string := EvmDenom (paramSpace (ctx s)).

(** ** Changing the object of an address *)

Lemma puts_rest a so s s' : puts a so s s' → rest s' = rest s ∧ ctx s' = ctx s ∧ frame s s' ∧ params s' = params s.
Proof. intros [(l & m & ->) _]. by destruct s. Qed.

Lemma puts_wf a so s s' : wf s → puts a so s s' → obj_ok (ctx s) so → address so = a →
  deleted so = false → wf s'.
Proof.
  intros [] Hp Hok Ha Hd. pose proof Hp as [(l & m & ->) [Ht Ho]]. split; try done; cbn.
  - intros b so'. rewrite Ho. destruct (decide (b = a)) as [->|]; [|by apply wf_objects0]. by intros [= <-].
  - intros b so'. rewrite Ho. destruct (decide (b = a)) as [->|]; [|by apply wf_deleted0]. by intros [= <-].
Qed.

Lemma puts_vacc a so s s' b : puts a so s s' →
  vacc s' b = if decide (b = a) then Ok (if deleted so then None else Some (ov (ctx s) so)) else vacc s b.
Proof.
  intros Hp. pose proof (puts_rest _ _ _ _ Hp) as (_ & Hc & _). destruct Hp as (_ & _ & Ho).
  unfold vacc. rewrite Ho, Hc. by destruct (decide (b = a)).
Qed.

(** Replacing an object by one with the same view. *)
Lemma puts_same a so s s' : puts a so s s' → Ok (if deleted so then None else Some (ov (ctx s) so)) ≡ vacc s a →
  same s s'.
Proof.
  intros Hp Hv. pose proof (puts_rest _ _ _ _ Hp) as (Hr & Hc & _). split; [|done|by rewrite Hc].
  intros b. rewrite (puts_vacc _ _ _ _ _ Hp). destruct (decide (b = a)) as [->|]; [by symmetry|].
  apply acct_equiv_refl. intros e. apply vacc_no_err.
Qed.

(** Databases that differ at one address. *)
Lemma puts_puts_same a so so' s s' t t' : same s t → puts a so s s' → puts a so' t t' →
  Ok (if deleted so then None else Some (ov (ctx s) so)) ≡ Ok (if deleted so' then None else Some (ov (ctx t) so')) →
  same s' t'.
Proof.
  intros [Hv Hr Hk] Hp Hp' Heq. pose proof (puts_rest _ _ _ _ Hp) as (Er & Ec & _).
  pose proof (puts_rest _ _ _ _ Hp') as (Er' & Ec' & _). split; [|congruence|by rewrite Ec, Ec'].
  intros b. rewrite (puts_vacc _ _ _ _ _ Hp), (puts_vacc _ _ _ _ _ Hp'). by destruct (decide (b = a)).
Qed.

(** The object of an address that is shown. *)
Definition live (s : CommitStateDB) (a : Address) (so : stateObject) : Prop :=
  obj_of s a = Some so ∧ deleted so = false.

Lemma live_vacc s a so : live s a so → vacc s a = Ok (Some (ov (ctx s) so)).
Proof. intros [Ho Hd]. unfold vacc. by rewrite Ho, Hd. Qed.

Lemma live_puts a so s s' : puts a so s s' → deleted so = false → live s' a so.
Proof. intros (_ & _ & Ho) Hd. split; [|done]. rewrite Ho. by rewrite decide_True. Qed.

Lemma puts_trans a so so' s s' s'' : puts a so s s' → puts a so' s' s'' → puts a so' s s''.
Proof.
  intros ((l & m & ->) & _ & Ho) ((l' & m' & ->) & Ht & Ho'). split; [by exists l', m'; destruct s|].
  split; [done|]. intros b. rewrite Ho', Ho. by destruct (decide (b = a)).
Qed.

(** The slots whose original value is cached. *)
Definition cached (s : CommitStateDB) (a : Address) (k : Hash) : Prop :=
  ∃ so, live s a so ∧ is_Some (keyToOriginStorageIndex so !! k).
Definition caches (s t : CommitStateDB) : Prop := ∀ a k, cached s a k → cached t a k.

#[export] Instance caches_preorder : PreOrder caches.
Proof. split; [by intros s a k|]. intros s t u H1 H2 a k Hc. by apply H2, H1. Qed.

Lemma caches_obj s s' : (∀ a, obj_of s' a = obj_of s a) → caches s s'.
Proof. intros Ho a k (so & [Hl Hd] & Hk). exists so. split; [|done]. split; [by rewrite Ho|done]. Qed.

Lemma puts_caches a so s s' : puts a so s s' → deleted so = false → (∀ so0, live s a so0 → cache_le so0 so) → caches s s'.
Proof.
  intros Hp Hd Hle b k (so0 & Hl & Hk). destruct (decide (b = a)) as [->|Hne].
  - exists so. split; [by eapply live_puts|]. by eapply Hle.
  - exists so0. split; [|done]. destruct Hp as (_ & _ & Ho), Hl as [? ?]. split; [|done]. by rewrite Ho, decide_False.
Qed.

(** ** Reading *)

Lemma GetParams_ok s : wf s → ∃ s', GetParams s = (Ok (paramSpace (ctx s)), s') ∧ wf s' ∧ same s s' ∧ frame s s' ∧
  (∀ a, obj_of s' a = obj_of s a) ∧ ctx s' = ctx s.
Proof.
  intros Hwf. unfold GetParams, get, mbind, M_bind. cbn. destruct (wf_params _ Hwf) as [Hp|Hp]; rewrite Hp.
  - eexists. split; [done|]. split; [|split; [by apply same_intro|done]]. destruct Hwf. split; try done. by right.
  - exists s. by split_and!.
Qed.

Lemma kept_fresh s a acc : wf s → Auth.GetAccount (accounts (ctx s)) a = Some acc →
  match acc with
  | OtherAcc _ _ => newStateObject acc = Panic
  | EthAcc _ => ∃ so, newStateObject acc = Ok so ∧ obj_ok (ctx s) so ∧ address so = a ∧ deleted so = false
  end.
Proof.
  intros Hwf Hg. destruct acc as [acc|]; [|done]. eexists. split; [done|].
  destruct (newStateObject_ok (ctx s) acc _ eq_refl) as (? & ? & ? & ?).
  - by apply (Auth.GetAccount_coins _ _ _ Hg).
  - by eapply wf_keeper.
  - split_and!; [done| |done]. etrans; [done|]. by apply (Auth.GetAccount_address _ _ _ Hg).
Qed.

Lemma getStateObject_ok s a : wf s →
  match vacc s a with
  | Ok None => ∃ s', getStateObject a s = (Ok None, s') ∧ wf s' ∧ same s s' ∧ frame s s' ∧
      obj_of s' a = obj_of s a ∧ ctx s' = ctx s ∧ caches s s'
  | Ok (Some v) => ∃ so s', getStateObject a s = (Ok (Some so), s') ∧ wf s' ∧ same s s' ∧ frame s s' ∧
      live s' a so ∧ ov (ctx s') so ≡ v ∧ ctx s' = ctx s ∧ caches s s'
  | _ => fst (getStateObject a s) = Panic
  end.
Proof.
  intros Hwf. pose proof (wf_table _ Hwf) as Ht. unfold vacc. destruct (obj_of s a) as [so|] eqn:Eo.
  - destruct (obj_of_entry s a so Ht Eo) as (i & e & Ei & He & <- & <-).
    assert (getStateObject (seAddress e) s = (Ok (if deleted (seObject e) then None else Some (seObject e)), s)) as G.
    { unfold getStateObject, get, mbind, M_bind. cbn. rewrite Ei. by rewrite (object_at_ok _ _ e). }
    destruct (deleted (seObject e)) eqn:Ed; [exists s; by split_and!|].
    exists (seObject e), s. by split_and!.
  - unfold getStateObject, get, mbind, M_bind, kept_view. cbn. rewrite (obj_of_none _ _ Ht Eo).
    destruct (Auth.GetAccount (accounts (ctx s)) a) as [acc|] eqn:Eg; cbn.
    + pose proof (kept_fresh s a acc Hwf Eg) as Hk. destruct acc as [acc|]; [|by rewrite Hk].
      destruct Hk as (so & Eso & Hok & <- & Hd). rewrite Eso. cbn.
      destruct (setStateObject_ok s so Ht) as (s' & -> & Hp). exists so, s'.
      pose proof (puts_rest _ _ _ _ Hp) as (_ & Hc & Hf & _).
      assert (vacc s (address so) = Ok (Some (ov (ctx s) so))) as Hv.
      { unfold vacc, kept_view. by rewrite Eo, Eg, Eso. }
      split; [done|]. split; [by eapply puts_wf|].
      split; [eapply puts_same; [done|]; rewrite Hd, Hv; done|].
      split; [done|]. split; [by eapply live_puts|]. rewrite Hc. split; [done|]. split; [done|].
      eapply puts_caches; [done..|]. intros so0 [Ho _]. congruence.
    + eexists. split; [done|]. destruct (dbErr s); [by split_and!|].
      split; [|split; [by apply same_intro|split_and!; try done; by apply caches_obj]]. destruct Hwf. by split.
Qed.

End spec.
End EvmSpec.
