(* ===== verification/EvmRevert.v ===== *)
(** * The state database: undoing the journal

    Every operation of the state database extends the journal by entries that lead back:
    reverting them, last first, from any database that shows what the operation left,
    gives a database that shows what was there before.  The dirty addresses of the
    journal are those of its entries.  [op_ok] states this of an operation and is closed
    under sequencing, so that the operations are proved from their parts. *)

From S2P Require Import Prelude SdkDec SdkCoins CoinFacts GoStd Account EvmErrors Evm EvmSpec.

#[local] Open Scope Z_scope.

Module EvmRevert.
Import Evm EvmSpec.

(** ** The dirty addresses of the journal *)

(** The addresses in the order of their first occurrence, and how often one occurs. *)
Definition add_first (l : list string) (a : string) : list string := if decide (a ∈ l) then l else l ++ [a].
Definition firsts (l : list string) : list string := foldl add_first [] l.
Definition times (a : string) (l : list string) : Z := Z.of_nat (length (filter (λ b : string, b = a) l)).

Lemma firsts_snoc l a : firsts (l ++ [a]) = add_first (firsts l) a.
Proof. unfold firsts. by rewrite foldl_app. Qed.

Lemma elem_of_firsts l a : a ∈ firsts l ↔ a ∈ l.
Proof.
  induction l as [|b l IH] using rev_ind; [done|]. rewrite firsts_snoc, elem_of_app, list_elem_of_singleton, <-IH.
  unfold add_first. destruct (decide (b ∈ firsts l)); set_solver.
Qed.

Lemma NoDup_firsts l : NoDup (firsts l).
Proof.
  induction l as [|b l IH] using rev_ind; [constructor|]. rewrite firsts_snoc. unfold add_first.
  destruct (decide (b ∈ firsts l)); [done|]. apply NoDup_app. split; [done|]. split; [set_solver|]. apply NoDup_singleton.
Qed.

Lemma times_snoc l a b : times b (l ++ [a]) = times b l + if decide (a = b) then 1 else 0.
Proof.
  unfold times. rewrite filter_app, length_app. destruct (decide (a = b)) as [->|Hne].
  - rewrite filter_cons_True, filter_nil by done. cbn. lia.
  - rewrite filter_cons_False, filter_nil by done. cbn. lia.
Qed.

Lemma times_pos l a : a ∈ l → 0 < times a l.
Proof.
  intros Ha. unfold times. destruct (filter (λ b : string, b = a) l) eqn:Ef; [|cbn; lia].
  assert (a ∈ filter (λ b : string, b = a) l) as H by by apply list_elem_of_filter.
  rewrite Ef in H. by apply not_elem_of_nil in H.
Qed.
Lemma times_zero l a : a ∉ l → times a l = 0.
Proof.
  intros Ha. unfold times. destruct (filter (λ b : string, b = a) l) as [|b k] eqn:Ef; [done|].
  assert (b ∈ filter (λ b : string, b = a) l) as H by (rewrite Ef; set_solver).
  apply list_elem_of_filter in H as [-> H]. done.
Qed.

Section spec.
Context `{DO : Dec.Ops} `{DL : !Dec.Laws} `{CO : !Coins.Ops} `{CL : !Coins.Laws}.
Context `{E : Eth} `{EL : !EthLaws} `{AO : Auth.Ops} `{AL : !Auth.Laws emptyCodeHash}.

(** The journal has a dirty entry for every address of [l], with its number of changes. *)
Definition tracked (l : list string) (j : journal) : Prop :=
  dirties j = (λ a, MkDirty a (times a l)) <$> firsts l ∧ indexed dAddress (dirties j) (addressToJournalIndex j).

Lemma tracked_lookup l j i d : tracked l j → dirties j !! i = Some d →
  firsts l !! i = Some (dAddress d) ∧ changes d = times (dAddress d) l.
Proof.
  intros [Hd _]. rewrite Hd, list_lookup_fmap_Some. by intros (a & -> & Hi).
Qed.

Lemma tracked_index l j a : tracked l j →
  match addressToJournalIndex j !! a with
  | Some i => a ∈ l ∧ dirties j !! i = Some (MkDirty a (times a l))
  | None => a ∉ l
  end.
Proof.
  intros Ht. pose proof Ht as [Hd Hi]. destruct (addressToJournalIndex j !! a) as [i|] eqn:Ei.
  - pose proof Ei as (d & Hl & <-)%Hi. pose proof (tracked_lookup _ _ _ _ Ht Hl) as [Hf Hc].
    split; [apply elem_of_firsts; by eapply list_elem_of_lookup_2|]. rewrite Hl. destruct d. cbn in *. by rewrite Hc.
  - intros Ha. apply elem_of_firsts, list_elem_of_lookup in Ha as [i Ha].
    assert (addressToJournalIndex j !! a = Some i) as Ei'; [|congruence].
    apply Hi. exists (MkDirty a (times a l)). split; [|done]. rewrite Hd, list_lookup_fmap, Ha. done.
Qed.

(** Changing the count of one address. *)
Lemma tracked_change l l' j i a n : tracked l j → dirties j !! i = Some (MkDirty a (times a l)) →
  firsts l' = firsts l → times a l' = times a l + n → (∀ b, b ≠ a → times b l' = times b l) →
  ∃ j', add_changes n i j = Ok j' ∧ tracked l' j' ∧ entries j' = entries j.
Proof.
  intros Ht Hi Hf Ha Hb. pose proof Ht as [Hd Hx]. unfold add_changes. rewrite Hi. cbn.
  eexists. split; [done|]. split; [|done]. split; cbn; [|by eapply indexed_alter].
  apply list_eq. intros k. rewrite list_lookup_fmap, Hf. destruct (decide (k = i)) as [->|Hk].
  - rewrite list_lookup_insert_eq by by eapply lookup_lt_Some.
    pose proof (tracked_lookup _ _ _ _ Ht Hi) as [-> _]. cbn. by rewrite Ha.
  - rewrite list_lookup_insert_ne by done. rewrite Hd, list_lookup_fmap.
    destruct (firsts l !! k) as [b|] eqn:Ek; [|done]. cbn. rewrite Hb; [done|]. intros ->.
    apply Hk. pose proof (tracked_lookup _ _ _ _ Ht Hi) as [Hi' _].
    by eapply NoDup_lookup; [apply NoDup_firsts|..].
Qed.

Lemma addDirty_ok l j a : tracked l j →
  ∃ j', addDirty a j = Ok j' ∧ tracked (l ++ [a]) j' ∧ entries j' = entries j.
Proof.
  intros Ht. pose proof (tracked_index l j a Ht) as Hx. unfold addDirty.
  destruct (addressToJournalIndex j !! a) as [i|] eqn:Ei.
  - destruct Hx as [Ha Hi]. eapply tracked_change; try done.
    + rewrite firsts_snoc. unfold add_first. rewrite decide_True; [done|]. by apply elem_of_firsts.
    + rewrite times_snoc. by rewrite decide_True.
    + intros b Hb. rewrite times_snoc, decide_False by done. lia.
  - destruct Ht as [Hd Hi]. unfold add_changes. cbn.
    rewrite length_app. cbn. replace (pred (length (dirties j) + 1)) with (length (dirties j)) by lia.
    rewrite list_lookup_middle by done. cbn. eexists. split; [done|]. split; [|done]. split; cbn.
    + rewrite insert_app_r_alt, Nat.sub_diag by lia. cbn. rewrite firsts_snoc. unfold add_first.
      rewrite decide_False by by rewrite elem_of_firsts. rewrite fmap_app. cbn. f_equal.
      * rewrite Hd. apply list_fmap_ext. intros k b Hb. rewrite times_snoc, decide_False; [f_equal; lia|].
        intros ->. apply Hx. apply elem_of_firsts. by eapply list_elem_of_lookup_2.
      * rewrite times_snoc, decide_True, times_zero by done. done.
    + rewrite insert_app_r_alt, Nat.sub_diag by lia. cbn.
      pose proof (indexed_snoc dAddress (dirties j) (addressToJournalIndex j) (MkDirty a 1) Hi Ei) as Hs.
      rewrite length_app in Hs. cbn in Hs. by replace (pred (length (dirties j) + 1)) with (length (dirties j)) in Hs by lia.
Qed.

Lemma append_ok j e : tracked (omap dirtied (entries j)) j →
  ∃ j', append e j = Ok j' ∧ entries j' = entries j ++ [e] ∧ tracked (omap dirtied (entries j')) j'.
Proof.
  intros Ht. unfold append. destruct (dirtied e) as [a|] eqn:Ee.
  - destruct (addDirty_ok (omap dirtied (entries j)) (set_entries (entries j ++ [e]) j) a) as (j' & -> & Ht' & He).
    { by destruct Ht. }
    exists j'. split; [done|]. split; [done|]. rewrite He. cbn. rewrite omap_app. cbn. by rewrite Ee.
  - eexists. split; [done|]. split; [done|]. cbn. rewrite omap_app. cbn. rewrite Ee, app_nil_r. by destruct Ht.
Qed.

(** Dropping the dirty tracking of the last entry. *)
Lemma undirty_ok e l j : tracked (l ++ omap dirtied [e]) j →
  ∃ j', undirty e j = Ok j' ∧ tracked l j' ∧ entries j' = entries j.
Proof.
  cbn. unfold undirty. destruct (dirtied e) as [a|]; [|rewrite app_nil_r; by eauto]. intros Ht.
  pose proof (tracked_index _ _ a Ht) as Hx. unfold substractDirty at 1.
  destruct (addressToJournalIndex j !! a) as [i|] eqn:Ei; [|set_solver]. destruct Hx as [Ha Hi]. rewrite Hi. cbn.
  pose proof (times_pos _ _ Ha) as Hpos. rewrite (proj2 (Z.eqb_neq _ _)) by lia.
  destruct (decide (a ∈ l)) as [Hin|Hin].
  - destruct (tracked_change (l ++ [a]) l j i a (-1) Ht Hi) as (j' & -> & Ht' & He).
    + rewrite firsts_snoc. unfold add_first. by rewrite decide_True by by apply elem_of_firsts.
    + rewrite times_snoc, decide_True by done. lia.
    + intros b Hb. rewrite times_snoc, decide_False by done. lia.
    + cbn. pose proof (tracked_index _ _ a Ht') as Hx'. unfold getDirty.
      destruct (addressToJournalIndex j' !! a) as [i'|] eqn:Ei'; [|done]. destruct Hx' as [_ Hi']. rewrite Hi'. cbn.
      pose proof (times_pos _ _ Hin). rewrite (proj2 (Z.eqb_neq _ _)) by lia. by exists j'.
  - pose proof Ht as [Hd Hxi]. unfold add_changes. rewrite Hi. cbn. unfold getDirty, deleteDirty. cbn -[Nat.ltb]. rewrite Ei.
    rewrite list_lookup_insert_eq by by eapply lookup_lt_Some. cbn -[Nat.ltb].
    rewrite times_snoc, decide_True, times_zero by done. cbn -[Nat.ltb].
    assert (firsts (l ++ [a]) = firsts l ++ [a]) as Ef.
    { rewrite firsts_snoc. unfold add_first. by rewrite decide_False by by rewrite elem_of_firsts. }
    assert (i = length (firsts l)) as ->.
    { pose proof (tracked_lookup _ _ _ _ Ht Hi) as [Hf _]. eapply NoDup_lookup; [apply NoDup_firsts|exact Hf|].
      cbn. by rewrite Ef, list_lookup_middle. }
    rewrite length_insert. pose proof (lookup_lt_Some _ _ _ Hi) as Hlt. rewrite (proj2 (Nat.ltb_lt _ _)) by done.
    eexists. split; [done|]. split; [|done]. split; cbn.
    + rewrite take_insert_ge, drop_insert_lt by lia. rewrite Hd, Ef, fmap_app. cbn.
      rewrite take_app_length' by by rewrite length_fmap.
      rewrite drop_ge by (rewrite length_app, length_fmap; cbn; lia). rewrite app_nil_r.
      apply list_fmap_ext. intros k b Hb. rewrite times_snoc, decide_False; [f_equal; lia|].
      intros ->. apply Hin. apply elem_of_firsts. by eapply list_elem_of_lookup_2.
    + rewrite take_insert_ge, drop_insert_lt by lia.
      assert (length (dirties j) = S (length (firsts l))) as Hlen by (rewrite Hd, length_fmap, Ef, length_app; cbn; lia).
      rewrite (drop_ge (dirties j)) by lia. rewrite app_nil_r. intros b k. rewrite lookup_delete_Some, (Hxi b k). split.
      * intros [Hne (d & Hdk & Hdb)]. exists d. split; [|done]. rewrite lookup_take_lt; [done|].
        pose proof (lookup_lt_Some _ _ _ Hdk). destruct (decide (k = length (firsts l))) as [->|]; [|lia].
        exfalso. apply Hne. rewrite Hi in Hdk. by simplify_eq.
      * intros (d & Hdk & Hdb). apply lookup_take_Some in Hdk as [Hdk Hk]. split; [|by exists d].
        intros <-. assert (addressToJournalIndex j !! a = Some k) by (apply Hxi; by exists d). simplify_eq. lia.
Qed.

Abbreviation ME := (M CommitStateDB).

(** ** Undoing entries *)

(** The address whose account an entry is about. *)
Definition touched (e : journalEntry) : option Address :=
  match e with resetObjectChange prev => Some (address prev) | _ => dirtied e end.

(** The stores hold the same. *)
Definition kept (s s' : CommitStateDB) : Prop :=
  same_store (ctx s) (ctx s') ∧ denom_of s = denom_of s' ∧
  ∀ a, Auth.GetAccount (accounts (ctx s)) a = Auth.GetAccount (accounts (ctx s')) a.

#[export] Instance kept_equivalence : Equivalence kept.
Proof.
  split; [by unfold Reflexive, kept, same_store|intros s t ([] & ? & ?); by unfold kept, same_store|].
  intros s t u ([] & ? & Hg) ([] & ? & Hg').
  split; [split; congruence|]. split; [congruence|]. intros a. by rewrite Hg.
Qed.

Lemma same_holds s t : same s t → kept s t.
Proof.
  intros Hs. split; [by apply same_stores|]. destruct Hs as [_ Hr Hk]. split; [|done].
  unfold rest, denom_of in *. congruence.
Qed.

(** Reverting [e] leads from what [s'] shows to what [s] shows, and to the slots that it has
    cached.  The two differ in the account that the entry is about. *)
Definition undo1 (e : journalEntry) (s' s : CommitStateDB) : Prop :=
  kept s s' ∧ (∀ a, touched e ≠ Some a → vacc s a ≡ vacc s' a) ∧
  ∀ t', wf t' → same s' t' → caches s' t' →
    ∃ t, revert e t' = (Ok tt, t) ∧ wf t ∧ same s t ∧ caches s t ∧ frame t' t.

Inductive undoes : list journalEntry → CommitStateDB → CommitStateDB → Prop :=
| undoes_nil s' s : same s s' → caches s s' → undoes [] s' s
| undoes_snoc es e s' s1 s : undo1 e s' s1 → undoes es s1 s → undoes (es ++ [e]) s' s.

Lemma undo1_proper e s' s t' t : same s' t' → caches s' t' → same t s → caches t s → undo1 e s' s → undo1 e t' t.
Proof.
  intros H1 K1 H2 K2 (Hkp & Hloc & Hu). split_and!.
  { transitivity s; [by apply same_holds|]. transitivity s'; [done|by apply same_holds]. }
  { intros a Ha. etrans; [apply (same_acc _ _ H2)|]. etrans; [by apply Hloc|]. apply (same_acc _ _ H1). }
  intros u' Hwf Hu' Ku'. destruct (Hu u' Hwf) as (u & ? & ? & ? & ? & ?); [by transitivity t'|by transitivity t'|].
  exists u. split_and!; try done; [by transitivity s|by transitivity s].
Qed.

Lemma undoes_proper es s' s t' : same s' t' → caches s' t' → undoes es s' s → undoes es t' s.
Proof.
  intros H1 K1 Hu. destruct Hu as [s' s Hs Hk|es e s' s1 s He Hu].
  - constructor; by transitivity s'.
  - econstructor; [|exact Hu]. eapply undo1_proper; [exact H1|exact K1|reflexivity|reflexivity|exact He].
Qed.

Lemma undoes_app es es' s0 s1 s2 : undoes es s1 s0 → undoes es' s2 s1 → undoes (es ++ es') s2 s0.
Proof.
  intros Hu Hu'. revert es s0 Hu. induction Hu' as [s2 s1 Hs Hk|es' e s2 s1' s1 He Hu' IH]; intros es s0 Hu.
  - rewrite app_nil_r. eapply undoes_proper; [exact Hs|exact Hk|exact Hu].
  - rewrite app_assoc. econstructor; [done|]. by apply IH.
Qed.

Lemma undoes_one e s' s : undo1 e s' s → undoes [e] s' s.
Proof. intros He. apply (undoes_snoc [] e s' s); [done|]. by constructor. Qed.

(** What the entries do not touch is as it was. *)
Lemma undoes_clean es s' s : undoes es s' s → kept s s' ∧ ∀ a, a ∉ omap touched es → vacc s a ≡ vacc s' a.
Proof.
  induction 1 as [s' s Hs _|es e s' s1 s (Hk & Hv & _) _ [IHk IHv]].
  - split; [by apply same_holds|]. intros a _. apply (same_acc _ _ Hs).
  - split; [by transitivity s1|]. intros a Ha. rewrite omap_app, elem_of_app in Ha.
    etrans; [apply IHv; tauto|]. apply Hv. intros He. apply Ha. right. cbn. rewrite He. set_solver.
Qed.

(** ** The invariant and what an operation does to the journal *)

Definition jok (s : CommitStateDB) : Prop := tracked (omap dirtied (entries (csJournal s))) (csJournal s).

Record inv (s : CommitStateDB) : Prop := { inv_wf : wf s; inv_jok : jok s }.

Definition journaled (s s' : CommitStateDB) : Prop :=
  ∃ es, entries (csJournal s') = entries (csJournal s) ++ es ∧ undoes es s' s ∧
    validRevisions s' = validRevisions s ∧ nextRevisionID s' = nextRevisionID s.

Lemma journaled_trans s s1 s2 : journaled s s1 → journaled s1 s2 → journaled s s2.
Proof.
  intros (es & He & Hu & Hr & Hn) (es' & He' & Hu' & Hr' & Hn'). exists (es ++ es').
  split_and!; try congruence; [|by eapply undoes_app]. by rewrite He', He, app_assoc.
Qed.

Lemma journaled_frame s s' : same s s' → caches s s' → frame s s' → journaled s s'.
Proof. intros Hs Hk (Hj & Hr & Hn). exists []. rewrite Hj, app_nil_r. split_and!; try done. by constructor. Qed.

Lemma frame_inv s s' : inv s → wf s' → frame s s' → inv s'.
Proof. intros [_ Hj] Hwf (Ej & _). split; [done|]. unfold jok. by rewrite Ej. Qed.

(** An operation that returns keeps the invariant and journals what it changed. *)
Definition op_ok {A} (m : ME A) : Prop := ∀ s a s', inv s → m s = (Ok a, s') → inv s' ∧ journaled s s'.

Lemma op_bind {A B} (m : ME A) (f : A → ME B) : op_ok m → (∀ a, op_ok (f a)) → op_ok (m ≫= f).
Proof.
  intros Hm Hf s b s' Hi (a & s1 & E1 & E2)%bind_ok. destruct (Hm s a s1 Hi E1) as [Hi1 Hj1].
  destruct (Hf a s1 b s' Hi1 E2) as [Hi2 Hj2]. split; [done|]. by eapply journaled_trans.
Qed.
Lemma op_same {A} (m : ME A) : (∀ s a s', inv s → m s = (Ok a, s') → wf s' ∧ same s s' ∧ caches s s' ∧ frame s s') → op_ok m.
Proof.
  intros Hm s a s' Hi Hr. destruct (Hm s a s' Hi Hr) as (? & ? & ? & ?).
  split; [by eapply frame_inv|by apply journaled_frame].
Qed.
Lemma op_ret {A} (a : A) : op_ok (mret a).
Proof. apply op_same. intros s b s' [] [= _ <-]. by split_and!. Qed.
Lemma op_gets {A} (f : CommitStateDB → A) : op_ok (gets f).
Proof. apply op_same. intros s b s' [] [= _ <-]. by split_and!. Qed.
Lemma op_panic {A} : op_ok (panic : ME A).
Proof. by intros s a s' _ [=]. Qed.

(** Appending to the journal. *)
Lemma append_run s e : inv s → ∃ s', journal_append e s = (Ok tt, s') ∧ inv s' ∧ same s s' ∧
  (∀ a, obj_of s' a = obj_of s a) ∧ ctx s' = ctx s ∧ rest s' = rest s ∧
  entries (csJournal s') = entries (csJournal s) ++ [e] ∧
  validRevisions s' = validRevisions s ∧ nextRevisionID s' = nextRevisionID s ∧ params s' = params s.
Proof.
  intros [Hwf Hj]. destruct (append_ok _ e Hj) as (j & Ej & He & Ht).
  exists (set_csJournal j s). split; [unfold journal_append, get, lift, mbind, M_bind; cbn; by rewrite Ej|].
  split; [split; [by destruct Hwf|done]|]. split; [by apply same_intro|]. by split_and!.
Qed.

(** The step of an operation that records one entry: [s] before, [s1] with the entry, [s2]
    with the change. *)
Lemma journaled_one s s1 s2 e : inv s1 → wf s2 → frame s1 s2 →
  entries (csJournal s1) = entries (csJournal s) ++ [e] →
  validRevisions s1 = validRevisions s → nextRevisionID s1 = nextRevisionID s →
  undo1 e s2 s → inv s2 ∧ journaled s s2.
Proof.
  intros Hi Hwf Hf He Hr Hn Hu. split; [by eapply frame_inv|]. destruct Hf as (Ej & Er & En).
  exists [e]. rewrite Ej, Er, En. split_and!; try done. by apply undoes_one.
Qed.

(** ** Changes of one object *)

(** [t'] shows what [t] shows, but [w] at [a]. *)
Definition upd (a : Address) (w : oview) (t t' : CommitStateDB) : Prop :=
  rest t' = rest t ∧ (∀ b, Auth.GetAccount (accounts (ctx t')) b = Auth.GetAccount (accounts (ctx t)) b) ∧
  ∀ b, vacc t' b ≡ if decide (b = a) then Ok (Some w) else vacc t b.

Lemma vacc_refl s a : vacc s a ≡ vacc s a.
Proof. apply acct_equiv_refl. intros e. apply vacc_no_err. Qed.

Lemma puts_upd a so s s' : puts a so s s' → deleted so = false → upd a (ov (ctx s) so) s s'.
Proof.
  intros Hp Hd. pose proof (puts_rest _ _ _ _ Hp) as (Hr & Hc & _). split; [done|]. split; [by rewrite Hc|].
  intros b. rewrite (puts_vacc _ _ _ _ _ Hp), Hd. destruct (decide (b = a)); [done|apply vacc_refl].
Qed.

Lemma upd_proper a w w' t t' u : w ≡ w' → same t u → upd a w t t' → upd a w' u t'.
Proof.
  intros Hw [Hv Hr Hk] (Hr' & Hk' & Hv'). split; [congruence|]. split; [congruence|].
  intros b. etrans; [apply Hv'|]. by destruct (decide (b = a)).
Qed.

Lemma upd_back a v w s s' t t' : upd a v s s' → vacc s a ≡ Ok (Some w) → same s' t → upd a w t t' → same s t'.
Proof.
  intros (Hr & Hk & Hv) Hw [Hv1 Hr1 Hk1] (Hr2 & Hk2 & Hv2). split; [|congruence|congruence].
  intros b. symmetry. etrans; [apply Hv2|]. specialize (Hv b). destruct (decide (b = a)) as [->|]; [by symmetry|].
  etrans; [symmetry; apply Hv1|]. done.
Qed.

(** The premise of undoing a change of one object. *)
Lemma upd_local e a v s s' : upd a v s s' → touched e = Some a →
  kept s s' ∧ ∀ b, touched e ≠ Some b → vacc s b ≡ vacc s' b.
Proof.
  intros (Hr & Hk & Hv) He. split.
  - unfold rest in Hr. split; [split; congruence|]. split; [unfold denom_of; congruence|done].
  - intros b Hb. specialize (Hv b). rewrite decide_False in Hv by congruence. by symmetry.
Qed.

Lemma undo_object e a v w s s' : upd a v s s' → touched e = Some a → caches s s' → vacc s a ≡ Ok (Some w) →
  (∀ t, wf t → vacc t a ≡ Ok (Some v) → caches s' t → same_store (ctx s) (ctx t) → denom_of t = denom_of s →
    ∃ t', revert e t = (Ok tt, t') ∧ wf t' ∧ frame t t' ∧ upd a w t t' ∧ caches t t') →
  undo1 e s' s.
Proof.
  intros Hu He Hk Hw Hrev. destruct (upd_local e a v s s' Hu He) as [Hkp Hloc]. split_and!; [done..|].
  intros t Hwf Hs Hks. destruct (Hrev t Hwf) as (t' & Er & Hwf' & Hf & Hu' & Hk').
  - etrans; [symmetry; apply (same_acc _ _ Hs)|]. destruct Hu as (_ & _ & Hv). specialize (Hv a).
    by rewrite decide_True in Hv.
  - done.
  - destruct Hu as (Hr & _). apply same_stores in Hs as [E1 E2]. unfold rest in Hr. simplify_eq. split; congruence.
  - destruct Hu as (Hr & _). pose proof (same_rest _ _ Hs) as Hr'. unfold rest, denom_of in *. simplify_eq. congruence.
  - exists t'. split_and!; try done; [by eapply upd_back|]. transitivity s'; [done|]. by transitivity t.
Qed.

(** The object of an address that is shown, fetched and replaced. *)
Lemma must_object_ok t a v : wf t → vacc t a ≡ Ok (Some v) →
  ∃ so t1, must_object a t = (Ok so, t1) ∧ wf t1 ∧ same t t1 ∧ frame t t1 ∧ live t1 a so ∧ ov (ctx t1) so ≡ v ∧
    ctx t1 = ctx t ∧ caches t t1.
Proof.
  intros Hwf Hv. pose proof (getStateObject_ok t a Hwf) as Hg.
  destruct (vacc t a) as [[v'|]| |]; [|done..].
  destruct Hg as (so & t1 & E1 & Hwf1 & Hs1 & Hf1 & Hl & Ho & Hc & Hk). exists so, t1.
  split; [unfold must_object; by rewrite (bind_eq _ _ _ _ _ E1)|]. split_and!; try done. by transitivity v'.
Qed.

Lemma assign_live t a so so' : wf t → live t a so → obj_ok (ctx t) so' → address so' = a → deleted so' = false →
  cache_le so so' →
  ∃ t', assign a so' t = (Ok tt, t') ∧ wf t' ∧ frame t t' ∧ upd a (ov (ctx t) so') t t' ∧ live t' a so' ∧
    ctx t' = ctx t ∧ rest t' = rest t ∧ caches t t'.
Proof.
  intros Hwf [Ho Hd] Hok Ha Hd' Hle. destruct (assign_ok t a so so' (wf_table _ Hwf) Ho) as (t' & Et & Hp).
  pose proof (puts_rest _ _ _ _ Hp) as (Hr & Hc & Hf & _).
  exists t'. split_and!; try done; [by eapply puts_wf|by apply puts_upd|by eapply live_puts|].
  eapply puts_caches; [done..|]. intros so0 [Ho0 _]. by rewrite Ho in Ho0; simplify_eq.
Qed.

Lemma live_ok s a so : wf s → live s a so → obj_ok (ctx s) so ∧ address so = a ∧ deleted so = false.
Proof. intros Hwf [Ho Hd]. pose proof (wf_objects _ Hwf a so Ho) as [? ?]. done. Qed.

Lemma live_transfer s s' a so : (∀ b, obj_of s' b = obj_of s b) → live s a so → live s' a so.
Proof. intros Ho [? ?]. split; [by rewrite Ho|done]. Qed.

(** Fetching an object, changing it by [g] and storing it: the entries for nonces, slots and
    codes are undone this way. *)
Definition modify_obj (a : Address) (g : stateObject → outcome stateObject) : ME unit :=
  so ← must_object a;
  so ← lift (g so);
  assign a so.

Lemma modify_obj_ok t a v w g : wf t → vacc t a ≡ Ok (Some v) →
  (∀ so, obj_ok (ctx t) so → (∀ k, cached t a k → is_Some (keyToOriginStorageIndex so !! k)) → ov (ctx t) so ≡ v →
    ∃ so', g so = Ok so' ∧ obj_ok (ctx t) so' ∧ address so' = address so ∧ deleted so' = deleted so ∧ ov (ctx t) so' ≡ w ∧
      cache_le so so') →
  ∃ t', modify_obj a g t = (Ok tt, t') ∧ wf t' ∧ frame t t' ∧ upd a w t t' ∧ caches t t'.
Proof.
  intros Hwf Hv Hg. destruct (must_object_ok t a v Hwf Hv) as (so & t1 & E1 & Hwf1 & Hs1 & Hf1 & Hl & Ho & Hc & Hk1).
  destruct (live_ok _ _ _ Hwf1 Hl) as (Hok & Ha & Hd). rewrite Hc in *.
  destruct (Hg so Hok) as (so' & Eg & Hok' & Ha' & Hd' & Ho' & Hle); [|done|].
  { intros k (so1 & [Ho1 _] & Hk)%Hk1. destruct Hl as [Hl _]. by rewrite Hl in Ho1; simplify_eq. }
  destruct (assign_live t1 a so so' Hwf1 Hl) as (t' & Et & Hwf' & Hf' & Hu & _ & _ & _ & Hk'); [by rewrite Hc|congruence..|done|].
  exists t'. split; [|split_and!; [done|by transitivity t1| |by transitivity t1]].
  - unfold modify_obj. rewrite (bind_eq _ _ _ _ _ E1). unfold mbind at 1, M_bind at 1, lift. by rewrite Eg.
  - eapply upd_proper; [|by symmetry|exact Hu]. by rewrite Hc.
Qed.

(** ** Operations on an object that is shown *)

Lemma run_eq {A} (m : ME A) s a s' b s2 : m s = (Ok a, s') → m s = (Ok b, s2) → b = a ∧ s2 = s'.
Proof. intros -> [= -> ->]. done. Qed.

(** An operation on the live object of [a]. *)
Definition op_live {A} (a : Address) (m : ME A) : Prop := ∀ s b s', inv s → (∃ so, live s a so) → m s = (Ok b, s') →
  inv s' ∧ journaled s s' ∧ ∃ so, live s' a so.

Lemma op_live_bind {A B} a (m : ME A) (f : A → ME B) : op_live a m → (∀ x, op_live a (f x)) → op_live a (m ≫= f).
Proof.
  intros Hm Hf s b s' Hi Hl (x & s1 & E1 & E2)%bind_ok. destruct (Hm s x s1 Hi Hl E1) as (Hi1 & Hj1 & Hl1).
  destruct (Hf x s1 b s' Hi1 Hl1 E2) as (Hi2 & Hj2 & Hl2). split_and!; try done. by eapply journaled_trans.
Qed.

(** What shows the same shows the same object. *)
Lemma vacc_live s a v : wf s → vacc s a ≡ Ok (Some v) → obj_of s a ≠ None → ∃ so, live s a so.
Proof.
  intros Hwf Hv Ho. unfold vacc in Hv. destruct (obj_of s a) as [so|] eqn:Eo; [|done].
  destruct (deleted so) eqn:Ed; [done|]. by exists so.
Qed.

Lemma op_live_ret {A} a (x : A) : op_live a (mret x).
Proof.
  intros s b s' Hi Hl Hr. destruct (op_ret x s b s' Hi Hr). split_and!; try done.
  by apply mret_ok in Hr as [_ ->].
Qed.

Lemma op_live_GetParams a : op_live a GetParams.
Proof.
  intros s b s' Hi [so Hl] Hr. destruct (GetParams_ok s (inv_wf _ Hi)) as (s1 & E1 & Hwf & Hs & Hf & Ho & _).
  destruct (run_eq _ _ _ _ _ _ E1 Hr) as [-> ->]. split; [by eapply frame_inv|].
  split; [apply journaled_frame; try done; by apply caches_obj|]. exists so. by eapply live_transfer.
Qed.

Lemma op_GetParams : op_ok GetParams.
Proof.
  apply op_same. intros s b s' Hi Hr. destruct (GetParams_ok s (inv_wf _ Hi)) as (s1 & E1 & Hwf & Hs & Hf & Ho & _).
  destruct (run_eq _ _ _ _ _ _ E1 Hr) as [-> ->]. split_and!; try done. by apply caches_obj.
Qed.

Lemma op_getStateObject a : op_ok (getStateObject a).
Proof.
  apply op_same. intros s b s' Hi Hr. pose proof (getStateObject_ok s a (inv_wf _ Hi)) as Hg. rewrite Hr in Hg.
  destruct (vacc s a) as [[v|]|e|]; [| |done..].
  - destruct Hg as (so & s1 & [= -> <-] & ? & ? & ? & _ & _ & _ & ?). done.
  - destruct Hg as (s1 & [= -> <-] & ? & ? & ? & _ & _ & ?). done.
Qed.

(** Replacing the live object by one with the same view. *)
Lemma refresh s a so so' : wf s → live s a so → obj_ok (ctx s) so' → address so' = a → deleted so' = false →
  ov (ctx s) so' ≡ ov (ctx s) so → cache_le so so' →
  ∃ s', assign a so' s = (Ok tt, s') ∧ wf s' ∧ frame s s' ∧ same s s' ∧ live s' a so' ∧ ctx s' = ctx s ∧ caches s s'.
Proof.
  intros Hwf Hl Hok Ha Hd Hv Hle. destruct (assign_live s a so so' Hwf Hl Hok Ha Hd Hle) as (s' & Es & Hwf' & Hf & Hu & Hl' & Hc & Hr & Hk).
  exists s'. split_and!; try done. destruct Hu as (_ & _ & Hu). split; [|done|by rewrite Hc]. intros b. symmetry.
  etrans; [apply Hu|]. destruct (decide (b = a)) as [->|]; [|apply vacc_refl]. by rewrite (live_vacc _ _ _ Hl).
Qed.

(** Reading code and slots of the live object. *)
Lemma so_Code_run s a so : wf s → live s a so → ∃ so' s', so_Code a s = (Ok (fst (obj_Code (ctx s) so)), s') ∧
  wf s' ∧ frame s s' ∧ same s s' ∧ live s' a so' ∧ ctx s' = ctx s ∧ account so' = account so ∧
  ov (ctx s) so' ≡ ov (ctx s) so ∧ caches s s'.
Proof.
  intros Hwf Hl. destruct (live_ok _ _ _ Hwf Hl) as (Hok & Ha & Hd).
  assert (∀ so', (obj_Code (ctx s) so).2 = so' → code so' = code so ∧ account so' = account so ∧ address so' = address so ∧
    deleted so' = deleted so ∧ suicided so' = suicided so ∧ dirtyStorage so' = dirtyStorage so ∧ dirtyCode so' = dirtyCode so ∧
    keyToDirtyStorageIndex so' = keyToDirtyStorageIndex so ∧ originStorage so' = originStorage so ∧
    keyToOriginStorageIndex so' = keyToOriginStorageIndex so) as Hsnd.
  { intros so' <-. unfold obj_Code, obj_setError. by repeat case_match. }
  destruct (obj_Code (ctx s) so) as [c so'] eqn:Ec. destruct (Hsnd so' eq_refl) as (E1 & E2 & E3 & E4 & E5 & E6 & E10 & E7 & E8 & E9).
  assert (ov (ctx s) so' ≡ ov (ctx s) so) as Hv.
  { split; [done|]. split; [by apply obj_Code_cong; rewrite ?E1, ?E2|]. split; [done|].
    intros k. cbn. unfold obj_state. by rewrite E3, E6, E7. }
  assert (obj_ok (ctx s) so') as Hok'.
  { pose proof (obj_Code_cong (ctx s) so so' E1 ltac:(by rewrite E2)) as Hcong.
    destruct Hok. split; rewrite ?Hcong, ?E2, ?E3, ?E6, ?E7, ?E8, ?E9, ?E10, ?E1; done. }
  destruct (refresh s a so so' Hwf Hl Hok') as (s' & Es & Hwf' & Hf & Hs & Hl' & Hc & Hk); [congruence..|done|by intros k; rewrite E9|].
  exists so', s'. split_and!; try done.
  unfold so_Code. rewrite (bind_eq _ _ _ _ _ (deref_ok s a so (wf_table _ Hwf) (proj1 Hl))).
  unfold get. unfold mbind at 1, M_bind at 1. rewrite Ec. by rewrite (bind_eq _ _ _ _ _ Es).
Qed.

Lemma so_GetState_run s a so key : wf s → live s a so → let k := GetStorageByAddressKey a key in
  ∃ so' s', so_GetState a key s = (Ok (obj_state (ctx s) so k), s') ∧
  wf s' ∧ frame s s' ∧ same s s' ∧ live s' a so' ∧ ctx s' = ctx s ∧
  ov (ctx s) so' ≡ ov (ctx s) so ∧ is_Some (keyToOriginStorageIndex so' !! k) ∧ caches s s'.
Proof.
  intros Hwf Hl k. destruct (live_ok _ _ _ Hwf Hl) as (Hok & Ha & Hd).
  destruct (GetState_ok (ctx s) key so Hok) as (so' & Eg & Hok' & Hv & Ha' & Hd' & Hox & Hle). rewrite Ha in Eg, Hox. fold k in Eg, Hox.
  destruct (refresh s a so so' Hwf Hl Hok') as (s' & Es & Hwf' & Hf & Hs & Hl' & Hc & Hk); [congruence..|done|done|].
  exists so', s'. split_and!; try done.
  unfold so_GetState. rewrite (bind_eq _ _ _ _ _ (deref_ok s a so (wf_table _ Hwf) (proj1 Hl))).
  unfold get, lift. unfold mbind at 1, M_bind at 1. unfold mbind at 1, M_bind at 1. rewrite Eg.
  by rewrite (bind_eq _ _ _ _ _ Es).
Qed.

Lemma so_GetCommittedState_run s a so key : wf s → live s a so →
  ∃ so' s', so_GetCommittedState a key s = (Ok (stored (ctx s) a (GetStorageByAddressKey a key)), s') ∧
  wf s' ∧ frame s s' ∧ same s s' ∧ live s' a so' ∧ caches s s'.
Proof.
  intros Hwf Hl. destruct (live_ok _ _ _ Hwf Hl) as (Hok & Ha & Hd).
  destruct (GetCommittedState_ok (ctx s) key so Hok) as (so' & Eg & Hok' & Hv & Ha' & Hd' & _ & Hle). rewrite Ha in Eg.
  destruct (refresh s a so so' Hwf Hl Hok') as (s' & Es & Hwf' & Hf & Hs & Hl' & Hc & Hk); [congruence..|done|done|].
  exists so', s'. split_and!; try done.
  unfold so_GetCommittedState. rewrite (bind_eq _ _ _ _ _ (deref_ok s a so (wf_table _ Hwf) (proj1 Hl))).
  unfold get, lift. unfold mbind at 1, M_bind at 1. unfold mbind at 1, M_bind at 1. rewrite Eg.
  by rewrite (bind_eq _ _ _ _ _ Es).
Qed.

Lemma op_live_intro {A} a (m : ME A) : (∀ s so, wf s → live s a so → ∃ x so' s', m s = (Ok x, s') ∧ wf s' ∧ frame s s' ∧
  same s s' ∧ live s' a so' ∧ caches s s') → op_live a m.
Proof.
  intros Hm s b s' Hi [so Hl] Hr. destruct (Hm s so (inv_wf _ Hi) Hl) as (x & so' & s1 & E1 & Hwf & Hf & Hs & Hl' & Hk).
  destruct (run_eq _ _ _ _ _ _ E1 Hr) as [-> ->]. split; [by eapply frame_inv|].
  split; [by apply journaled_frame|]. by exists so'.
Qed.

Lemma op_live_GetState a key : op_live a (so_GetState a key).
Proof.
  apply op_live_intro. intros s so Hwf Hl.
  destruct (so_GetState_run s a so key Hwf Hl) as (so' & s' & ? & ? & ? & ? & ? & _ & _ & _ & ?). eauto 10.
Qed.
Lemma op_live_GetCommittedState a key : op_live a (so_GetCommittedState a key).
Proof.
  apply op_live_intro. intros s so Hwf Hl.
  destruct (so_GetCommittedState_run s a so key Hwf Hl) as (so' & s' & ? & ? & ? & ? & ? & ?). eauto 10.
Qed.
Lemma op_live_Code a : op_live a (so_Code a).
Proof.
  apply op_live_intro. intros s so Hwf Hl.
  destruct (so_Code_run s a so Hwf Hl) as (so' & s' & ? & ? & ? & ? & ? & _ & _ & _ & ?). eauto 10.
Qed.
Lemma op_live_deref a : op_live a (deref a).
Proof.
  apply op_live_intro. intros s so Hwf Hl. exists so, so, s.
  split; [by apply deref_ok; [apply wf_table|apply Hl]|]. by split_and!.
Qed.
Lemma op_live_empty a : op_live a (so_empty a).
Proof.
  unfold so_empty. apply op_live_bind; [apply op_live_GetParams|]. intros p.
  apply op_live_bind; [apply op_live_deref|]. intros so. apply op_live_ret.
Qed.

(** Recording an entry and changing the live object. *)
Lemma op_live_change a e s so so' : inv s → live s a so → obj_ok (ctx s) so' → address so' = a → deleted so' = false →
  cache_le so so' → touched e = Some a →
  (∀ t, wf t → vacc t a ≡ Ok (Some (ov (ctx s) so')) →
    (∀ k, is_Some (keyToOriginStorageIndex so' !! k) → cached t a k) →
    same_store (ctx s) (ctx t) → denom_of t = denom_of s →
    ∃ t', revert e t = (Ok tt, t') ∧ wf t' ∧ frame t t' ∧ upd a (ov (ctx s) so) t t' ∧ caches t t') →
  ∃ s1 s2, journal_append e s = (Ok tt, s1) ∧ assign a so' s1 = (Ok tt, s2) ∧ inv s2 ∧ journaled s s2 ∧ live s2 a so' ∧
    live s1 a so ∧ wf s1 ∧ ctx s1 = ctx s ∧ ctx s2 = ctx s ∧ params s1 = params s.
Proof.
  intros Hi Hl Hok Ha Hd Hle Hte Hrev. destruct (append_run s e Hi) as (s1 & E1 & Hi1 & Hs1 & Ho1 & Hc1 & Hr1 & He1 & Hv1 & Hn1 & Hp1).
  pose proof (live_transfer s s1 a so Ho1 Hl) as Hl1.
  destruct (assign_live s1 a so so' (inv_wf _ Hi1) Hl1) as (s2 & E2 & Hwf2 & Hf2 & Hu2 & Hl2 & Hc2 & Hr2 & Hk2); [by rewrite Hc1|done..|].
  rewrite Hc1 in *. exists s1, s2.
  destruct (journaled_one s s1 s2 e Hi1 Hwf2 Hf2 He1 Hv1 Hn1) as [Hi2 Hj].
  { eapply (undo_object e a); [|done|transitivity s1; [by apply caches_obj|done]|by rewrite (live_vacc _ _ _ Hl)|].
    - eapply upd_proper; [done|symmetry; exact Hs1|exact Hu2].
    - intros t Hwt Hvt Hkt. apply Hrev; [done|done|]. intros k Hk. apply Hkt. by exists so'. }
  split_and!; try done. by destruct Hi1.
Qed.

(** ** The changes *)

Lemma equiv_acc v w : v ≡ w → v_acc v = v_acc w.
Proof. by intros []. Qed.

(** Two accounts that differ in the number of their next transaction. *)
Lemma op_live_SetNonce a n : op_live a (so_SetNonce a n).
Proof.
  intros s b s' Hi [so Hl] Hr. pose proof (inv_wf _ Hi) as Hwf. destruct (live_ok _ _ _ Hwf Hl) as (Hok & Ha & Hd).
  assert (∀ m x st, obj_ok st x → obj_ok st (obj_setNonce m x)) as Hset.
  { intros m x st Hx. apply (ok_set_account st (set_aSequence m)); try done. apply (ok_coins _ _ Hx). }
  destruct (op_live_change a (nonceChange a (aSequence (account so))) s so (obj_setNonce n so) Hi Hl) as
    (s1 & s2 & E1 & E2 & Hi2 & Hj & Hl2 & _); [by apply Hset|done|done|by apply cache_eq|done| |].
  - intros t Hwft Hv _ HS _. apply (modify_obj_ok t a (ov (ctx s) (obj_setNonce n so)) _
      (λ x, Ok (obj_setNonce (aSequence (account so)) x)) Hwft Hv).
    intros x Hx _ Hvx. eexists. split; [done|]. split; [by apply Hset|]. split; [done|]. split; [done|].
    split; [|by apply cache_eq].
    etrans; [by apply (ov_set_account (ctx t) (set_aSequence (aSequence (account so))))|].
    destruct Hvx as (E1 & E2 & E3 & E4). cbn in E1, E2, E3, E4. split; [cbn; rewrite E1; by destruct (account so)|].
    split; [cbn; rewrite E2; by apply obj_Code_cong|]. split; [done|]. intros k. cbn. by rewrite E4.
  - unfold so_SetNonce in Hr. rewrite (bind_eq _ _ _ _ _ (deref_ok s a so (wf_table _ Hwf) (proj1 Hl))), Ha in Hr.
    rewrite (bind_eq _ _ _ _ _ E1), E2 in Hr. injection Hr as <- <-. split_and!; try done. by eexists.
Qed.

(** Valid coins with the same amounts are equal. *)
Lemma coins_eq c c' : Coins.IsValid c = true → Coins.IsValid c' = true → (∀ d, amt d c = amt d c') → c = c'.
Proof.
  intros [? Hp]%Coins.IsValid_spec [? Hp']%Coins.IsValid_spec. apply CoinsImpl.amt_ext; try done;
    (eapply Forall_impl; [done|]; by intros x []).
Qed.

(** Setting the balance of an object, and setting it back. *)
Lemma setBalance_ok st denom amount so : Coins.ValidDenom denom = true → 0 ≤ amount → obj_ok st so →
  ∃ c, obj_setBalance denom amount so = Ok (set_account (set_aCoins c (account so)) so) ∧
    obj_ok st (set_account (set_aCoins c (account so)) so) ∧ Coins.IsValid c = true ∧
    ∀ d, amt d c = if decide (d = denom) then amount else amt d (aCoins (account so)).
Proof.
  intros Hd Ha Hok. destruct (acc_SetBalance_ok denom amount (account so) Hd Ha (ok_coins _ _ Hok)) as (c & Es & Hv & Hamt).
  exists c. unfold obj_setBalance. rewrite Es. split_and!; try done.
  by apply (ok_set_account st (set_aCoins c)).
Qed.

Lemma so_setBalance_run s a so denom amount : wf s → live s a so → Coins.ValidDenom denom = true → 0 ≤ amount →
  ∃ c s', so_setBalance a denom amount s = (Ok tt, s') ∧ wf s' ∧ frame s s' ∧
    live s' a (set_account (set_aCoins c (account so)) so) ∧ ctx s' = ctx s ∧ Coins.IsValid c = true ∧
    (∀ d, amt d c = if decide (d = denom) then amount else amt d (aCoins (account so))) ∧
    upd a (ov (ctx s) (set_account (set_aCoins c (account so)) so)) s s' ∧ caches s s'.
Proof.
  intros Hwf Hl Hd Hamt. destruct (live_ok _ _ _ Hwf Hl) as (Hok & Ha & Hdel).
  destruct (setBalance_ok (ctx s) denom amount so Hd Hamt Hok) as (c & Es & Hok' & Hv & Hc).
  destruct (assign_live s a so _ Hwf Hl Hok' Ha Hdel) as (s' & E2 & Hwf' & Hf & Hu & Hl' & Hctx & _ & Hk); [by apply cache_eq|].
  exists c, s'. split_and!; try done. unfold so_setBalance.
  rewrite (bind_eq _ _ _ _ _ (deref_ok s a so (wf_table _ Hwf) (proj1 Hl))).
  unfold mbind at 1, M_bind at 1, lift. by rewrite Es.
Qed.

(** Setting a negative balance panics. *)
Lemma so_setBalance_negative s a so denom amount x s' : wf s → live s a so → Coins.ValidDenom denom = true →
  so_setBalance a denom amount s = (Ok x, s') → 0 ≤ amount.
Proof.
  intros Hwf Hl Hd Hr. destruct (live_ok _ _ _ Hwf Hl) as (Hok & _). destruct (decide (0 ≤ amount)) as [|Hn]; [done|].
  exfalso. unfold so_setBalance in Hr. rewrite (bind_eq _ _ _ _ _ (deref_ok s a so (wf_table _ Hwf) (proj1 Hl))) in Hr.
  unfold obj_setBalance in Hr. rewrite acc_SetBalance_negative in Hr by (try apply (ok_coins _ _ Hok); done || lia).
  done.
Qed.

(** An object whose balance is set back shows what it showed. *)
Lemma ov_balance_back st st' so c x c' :
  Coins.IsValid (aCoins (account so)) = true → Coins.IsValid c' = true → same_store st st' →
  ov st' x ≡ ov st (set_account (set_aCoins c (account so)) so) →
  (∀ d, amt d c' = amt d (aCoins (account so))) →
  ov st' (set_account (set_aCoins c' (account x)) x) ≡ ov st so.
Proof.
  intros Hv Hv' HS (E1 & E2 & E3 & E4) Hamt. cbn in E1, E2, E3, E4.
  assert (c' = aCoins (account so)) as -> by by apply coins_eq.
  split; [cbn; rewrite E1; by destruct (account so)|]. split; [|split; [done|]].
  - cbn. transitivity (fst (obj_Code st' x)); [by apply obj_Code_cong|]. rewrite E2. by apply obj_Code_cong.
  - intros k. cbn in E4 |- *. change (obj_state st' x k = obj_state st so k). by rewrite E4.
Qed.

(** Undoing a change of the balance: [so] before, [c] the coins after. *)
Lemma revert_balance st a so c t : obj_ok st so → wf t → same_store st (ctx t) →
  vacc t a ≡ Ok (Some (ov st (set_account (set_aCoins c (account so)) so))) →
  (∀ d, d ≠ denom_of t → amt d c = amt d (aCoins (account so))) →
  ∃ t', revert (balanceChange a (amt (denom_of t) (aCoins (account so)))) t = (Ok tt, t') ∧ wf t' ∧ frame t t' ∧
    upd a (ov st so) t t' ∧ caches t t'.
Proof.
  intros Hok Hwf HS Hv Hc. pose proof (ok_coins _ _ Hok) as Hval. unfold revert.
  destruct (GetParams_ok t Hwf) as (t0 & Et0 & Hw0 & Hs0 & Hf0 & Ho0 & Hc0). rewrite (bind_eq _ _ _ _ _ Et0).
  destruct (must_object_ok t0 a (ov st (set_account (set_aCoins c (account so)) so)) Hw0) as
    (x & t1 & Ex & Hw1 & Hs1 & Hf1 & Hl1 & Ho1 & Hc1 & Hk1); [etrans; [symmetry; apply (same_acc _ _ Hs0)|done]|].
  rewrite (bind_eq _ _ _ _ _ Ex). rewrite Hc1, Hc0 in Ho1.
  destruct (so_setBalance_run t1 a x (denom_of t) (amt (denom_of t) (aCoins (account so))) Hw1 Hl1 (wf_denom _ Hwf)) as
    (c' & t' & Et' & Hw' & Hf' & _ & _ & Hval' & Hamt & Hu' & Hk'); [by apply valid_amt|].
  exists t'. split; [done|]. split; [done|]. split; [by transitivity t0; [|transitivity t1]|].
  split; [|transitivity t0; [by apply caches_obj|]; by transitivity t1].
  eapply upd_proper; [|symmetry; transitivity t0; [exact Hs0|exact Hs1]|exact Hu'].
  rewrite Hc1, Hc0. apply (ov_balance_back st _ so c); try done.
  intros d. rewrite Hamt. destruct (decide (d = denom_of t)) as [->|Hne]; [done|].
  apply equiv_acc in Ho1. cbn in Ho1. rewrite Ho1. cbn. auto.
Qed.

Lemma op_live_SetBalance a amount : op_live a (so_SetBalance a amount).
Proof.
  intros s b s' Hi Hls Hr. unfold so_SetBalance in Hr. apply bind_ok in Hr as (p & s0 & Ep & Hr).
  destruct (GetParams_ok s (inv_wf _ Hi)) as (s0' & Ep' & Hwf0 & Hs0 & Hf0 & Ho0 & Hc0).
  destruct (run_eq _ _ _ _ _ _ Ep' Ep) as [-> ->]. clear Ep Ep'.
  assert (inv s0') as Hi0 by by eapply frame_inv.
  destruct Hls as [so Hl%(live_transfer s s0' a so Ho0)]. rewrite <-Hc0 in Hr.
  destruct (live_ok _ _ _ Hwf0 Hl) as (Hok & Ha & Hd).
  rewrite (bind_eq _ _ _ _ _ (deref_ok s0' a so (wf_table _ Hwf0) (proj1 Hl))), Ha in Hr.
  change (EvmDenom (paramSpace (ctx s0'))) with (denom_of s0') in *.
  pose proof (wf_denom _ Hwf0 : Coins.ValidDenom (denom_of s0') = true) as Hden.
  rewrite Coins.AmountOf_spec in Hr by (apply valid_sorted, (ok_coins _ _ Hok)).
  set (e := balanceChange a (amt (denom_of s0') (aCoins (account so)))) in *.
  assert (0 ≤ amount) as Hpos.
  { destruct (append_run s0' e Hi0) as (s1 & E1 & Hi1 & _ & Ho1 & _). rewrite (bind_eq _ _ _ _ _ E1) in Hr.
    eapply so_setBalance_negative; [apply Hi1|by eapply live_transfer|exact Hden|exact Hr]. }
  destruct (setBalance_ok (ctx s0') (denom_of s0') amount so Hden Hpos Hok) as (c & Es & Hok' & Hv & Hc).
  destruct (op_live_change a e s0' so _ Hi0 Hl Hok' Ha Hd) as (s1 & s2 & E1 & E2 & Hi2 & Hj & Hl2 & Hl1 & Hwf1 & _).
  - by apply cache_eq.
  - done.
  - intros t Hwft Hvt _ HS Hdt. unfold e. rewrite <-Hdt. apply (revert_balance _ a so c t); try done.
    intros d Hne. rewrite Hdt in Hne. rewrite Hc. by rewrite decide_False.
  - rewrite (bind_eq _ _ _ _ _ E1) in Hr. unfold so_setBalance in Hr.
    rewrite (bind_eq _ _ _ _ _ (deref_ok s1 a so (wf_table _ Hwf1) (proj1 Hl1))) in Hr.
    unfold mbind in Hr at 1. unfold M_bind in Hr at 1. unfold lift in Hr. rewrite Es, E2 in Hr. injection Hr as <- <-.
    split; [done|]. split; [|by eexists]. eapply journaled_trans; [apply journaled_frame; try done; by apply caches_obj|done].
Qed.

Lemma op_live_AddSub a amount (f : Dec → Dec → Dec) :
  op_live a (p ← GetParams; so ← deref a;
             so_SetBalance a (f (Coins.AmountOf (aCoins (account so)) (EvmDenom p)) amount)).
Proof.
  apply op_live_bind; [apply op_live_GetParams|]. intros p. apply op_live_bind; [apply op_live_deref|]. intros so.
  apply op_live_SetBalance.
Qed.

Lemma op_live_SubBalance a amount : op_live a (so_SubBalance a amount).
Proof. unfold so_SubBalance. destruct (Dec.IsZero amount); [apply op_live_ret|apply op_live_AddSub]. Qed.

(** A touch is undone by doing nothing. *)
Lemma op_live_touch a : a ≠ ripemd → op_live a (so_touch a).
Proof.
  intros Hne s b s' Hi [so Hl] Hr. pose proof (inv_wf _ Hi) as Hwf. destruct (live_ok _ _ _ Hwf Hl) as (Hok & Ha & Hd).
  unfold so_touch in Hr. rewrite (bind_eq _ _ _ _ _ (deref_ok s a so (wf_table _ Hwf) (proj1 Hl))), Ha in Hr.
  destruct (append_run s (touchChange a) Hi) as (s1 & E1 & Hi1 & Hs1 & Ho1 & _ & _ & He1 & Hv1 & Hn1 & _).
  rewrite (bind_eq _ _ _ _ _ E1) in Hr. rewrite (proj2 (String.eqb_neq _ _)) in Hr by done. injection Hr as <- <-.
  split; [done|]. split; [|exists so; by eapply live_transfer].
  exists [touchChange a]. split_and!; try done. apply undoes_one. split; [by apply same_holds|]. split; [intros c _; apply (same_acc _ _ Hs1)|].
  intros t Hwt Hst Hkt. exists t. split_and!; try done; [by transitivity s1|].
  transitivity s1; [by apply caches_obj|done].
Qed.

Lemma op_live_AddBalance a amount : a ≠ ripemd ∨ amount ≠ 0 → op_live a (so_AddBalance a amount).
Proof.
  intros Hne. unfold so_AddBalance. dec_simp. destruct (Z.eqb_spec amount 0) as [->|].
  - apply op_live_bind; [apply op_live_empty|]. intros []; [|apply op_live_ret]. apply op_live_touch. by destruct Hne.
  - apply op_live_AddSub.
Qed.

(** Slots. *)
Lemma op_live_SetState a key value : op_live a (so_SetState a key value).
Proof.
  intros s b s' Hi [so0 Hl0] Hr. unfold so_SetState in Hr.
  destruct (so_GetState_run s a so0 key (inv_wf _ Hi) Hl0) as (so & s0 & E0 & Hwf & Hf & Hs & Hl & Hc & Hv0 & Hox & Hk0).
  assert (inv s0) as Hi0 by by eapply frame_inv. rewrite (bind_eq _ _ _ _ _ E0) in Hr.
  set (k := GetStorageByAddressKey a key) in *. destruct (live_ok _ _ _ Hwf Hl) as (Hok & Ha & Hd).
  destruct Hv0 as (_ & _ & _ & Hv0). cbn in Hv0. rewrite <-Hv0, <-Hc in Hr.
  destruct (bool_decide _).
  { injection Hr as <- <-. split; [done|]. split; [by apply journaled_frame|by exists so]. }
  rewrite (bind_eq _ _ _ _ _ (deref_ok s0 a so (wf_table _ Hwf) (proj1 Hl))), Ha in Hr. fold k in Hr.
  destruct (setState_ok (ctx s0) k value so Hok Hox) as (so' & Eset & Hok' & Hv' & Ha' & Hd' & Eo').
  destruct (op_live_change a (storageChange a k (obj_state (ctx s0) so k)) s0 so so' Hi0 Hl Hok') as
    (s1 & s2 & E1 & E2 & Hi2 & Hj & Hl2 & _); [congruence..|by apply cache_eq|done| |].
  - intros t Hwt Hvt Hkt HS _. apply (modify_obj_ok t a (ov (ctx s0) so') _ (obj_setState k (obj_state (ctx s0) so k)) Hwt Hvt).
    intros x Hx Hkx Hvx. assert (is_Some (keyToOriginStorageIndex x !! k)) as Hox'.
    { apply Hkx, Hkt. by rewrite Eo'. }
    destruct (setState_ok (ctx t) k (obj_state (ctx s0) so k) x Hx Hox') as (x' & Ex & Hx' & Hvx' & ? & ? & ?).
    exists x'. split; [done|]. split; [done|]. split; [done|]. split; [done|]. split; [|by apply cache_eq]. etrans; [exact Hvx'|].
    assert (ov (ctx t) x ≡ with_slot k value (ov (ctx s0) so)) as (W1 & W2 & W3 & W4) by by etrans.
    split; [done|]. split; [done|]. split; [done|]. intros k'. cbn. destruct (decide (k' = k)) as [->|Hne]; [done|].
    cbn in W4. rewrite W4. by rewrite decide_False.
  - rewrite (bind_eq _ _ _ _ _ E1) in Hr. unfold mbind in Hr. unfold M_bind, lift in Hr. rewrite Eset, E2 in Hr.
    injection Hr as <- <-. split; [done|]. split; [|by eexists]. eapply journaled_trans; [by apply journaled_frame|done].
Qed.

(** Code. *)
Lemma op_live_SetCode a c : op_live a (so_SetCode a (Keccak256Hash (default "" c)) c).
Proof.
  intros s b s' Hi [so0 Hl0] Hr. unfold so_SetCode in Hr.
  destruct (so_Code_run s a so0 (inv_wf _ Hi) Hl0) as (so & s0 & E0 & Hwf & Hf & Hs & Hl & Hc & Eacc & Hv0 & Hk0).
  assert (inv s0) as Hi0 by by eapply frame_inv. rewrite (bind_eq _ _ _ _ _ E0) in Hr.
  destruct (live_ok _ _ _ Hwf Hl) as (Hok & Ha & Hd). destruct Hv0 as (_ & Hv0 & _). cbn in Hv0. rewrite <-Hv0, <-Hc in Hr.
  rewrite (bind_eq _ _ _ _ _ (deref_ok s0 a so (wf_table _ Hwf) (proj1 Hl))), Ha in Hr.
  destruct (ok_hash _ _ Hok) as [h Hh]. rewrite (CodeHash_ok so h Hh) in Hr.
  pose proof (fst_obj_Code (ctx s0) so h Hh) as Ec. set (h' := Keccak256Hash (default "" c)) in *.
  assert (∀ d, c = Some d → String.length (default "" (code_shown (ctx s0) h' c)) = String.length d) as Hlen.
  { intros [|x d] ->; [|done]. unfold code_shown, h', emptyCodeHash. cbn. by rewrite String.eqb_refl. }
  assert (HashBytes h' = HashBytes (Keccak256Hash (default "" (code_shown (ctx s0) h' c)))) as Hhash.
  { unfold code_shown, h', emptyCodeHash. destruct c as [[|x d]|]; cbn; try done; by rewrite String.eqb_refl. }
  pose proof (ok_coded _ _ Hok) as Hcod. unfold coded in Hcod. rewrite Hh in Hcod. injection Hcod as Hcod.
  destruct (op_live_change a (codeChange a (fst (obj_Code (ctx s0) so)) (HashBytes h)) s0 so (obj_setCode h' c so) Hi0 Hl) as
    (s1 & s2 & E1 & E2 & Hi2 & Hj & Hl2 & _); [by apply ok_setCode|done|done|by apply cache_eq|done| |].
  - intros t Hwt Hvt _ HS _. apply (modify_obj_ok t a (ov (ctx s0) (obj_setCode h' c so)) _
      (λ x, Ok (obj_setCode (BytesToHash (HashBytes h)) (fst (obj_Code (ctx s0) so)) x)) Hwt Hvt).
    intros x Hx _ Hvx. rewrite BytesToHash_Bytes. eexists. split; [done|].
    assert (∀ d, code_shown (ctx t) h d = code_shown (ctx s0) h d) as Hcs by (intros; unfold code_shown; by rewrite (proj1 HS)).
    split; [|split; [done|split; [done|split; [|by apply cache_eq]]]].
    + apply ok_setCode; [done| |by rewrite Hcs, Ec, code_shown_idem, <-Ec].
      intros d Hd'. rewrite Hcs, Ec, code_shown_idem, <-Ec, Hd'. done.
    + etrans; [apply ov_setCode|]. rewrite (ov_setCode (ctx s0) h' c so) in Hvx. destruct Hvx as (W1 & W2 & W3 & W4).
      cbn in W1, W3, W4. split; [cbn; rewrite W1; destruct (account so); cbn in *; by rewrite Hh|].
      split; [cbn; by rewrite Hcs, Ec, code_shown_idem|]. done.
  - rewrite (bind_eq _ _ _ _ _ E1), E2 in Hr. injection Hr as <- <-. split; [done|]. split; [|by eexists].
    eapply journaled_trans; [by apply journaled_frame|done].
Qed.

(** ** Creating objects *)

(** Taking an account number does not change what is shown. *)
Lemma renumbered s a acc st : wf s → Auth.NewAccountWithAddress a (accounts (ctx s)) = (acc, st) →
  let s' := set_ctx (set_accounts st (ctx s)) s in
  wf s' ∧ same s s' ∧ frame s s' ∧ (∀ b, obj_of s' b = obj_of s b) ∧ same_store (ctx s) (ctx s').
Proof.
  intros Hwf En s'. destruct (Auth.NewAccount_spec _ _ _ _ En) as [_ Hg].
  assert (same_store (ctx s) (ctx s')) as HS by done. split; [|split; [|done]].
  - destruct Hwf. split; try done.
    + intros b so Ho. destruct (wf_objects0 b so Ho). split; [done|]. by eapply obj_ok_same.
    + intros b x. cbn. rewrite Hg. apply wf_keeper0.
  - split; [|done|by intros b; cbn; rewrite Hg]. intros b. unfold vacc.
    change (obj_of s' b) with (obj_of s b). destruct (obj_of s b) as [so|].
    + destruct (deleted so); [done|]. by apply ov_same.
    + unfold kept_view. cbn. rewrite Hg. by destruct (Auth.GetAccount _ b) as [[x|]|].
Qed.

(** The new object: nothing but its address and a number. *)
Lemma fresh_object s a acc st : wf s → Auth.NewAccountWithAddress a (accounts (ctx s)) = (acc, st) →
  ∃ so, newStateObject acc = Ok so ∧ ∀ st', obj_ok st' (obj_setNonce 0 so) ∧ address so = a ∧ deleted so = false ∧
    suicided so = false ∧ aCoins (account so) = [].
Proof.
  intros Hwf En. destruct (Auth.NewAccount_spec _ _ _ _ En) as [[n ->] _]. eexists. split; [done|]. intros st'.
  split_and!; try done.
  destruct (newStateObject_ok st' (MkEthAccount a [] None n 0 (Some emptyCodeHash)) _ eq_refl) as (Hok & _);
    [apply valid_nil|right; by left|].
  apply (ok_set_account st' (set_aSequence 0)); [done..|apply valid_nil].
Qed.

(** Whether an account is shown decides which entry is recorded. *)
Lemma createObject_run s a r s' : inv s → createObject a s = (Ok r, s') →
  ∃ so s1, puts a so s1 s' ∧ inv s1 ∧ same s s1 ∧ obj_ok (ctx s1) so ∧ address so = a ∧ deleted so = false ∧
    suicided so = false ∧ caches s s1 ∧
    validRevisions s1 = validRevisions s ∧ nextRevisionID s1 = nextRevisionID s ∧
    match snd r with
    | None => vacc s a = Ok None ∧ Auth.GetAccount (accounts (ctx s)) a = None ∧
        entries (csJournal s1) = entries (csJournal s) ++ [createObjectChange a]
    | Some prev => vacc s a ≡ Ok (Some (ov (ctx s) prev)) ∧ obj_ok (ctx s) prev ∧ address prev = a ∧ deleted prev = false ∧
        (∀ k, cached s a k → is_Some (keyToOriginStorageIndex prev !! k)) ∧
        entries (csJournal s1) = entries (csJournal s) ++ [resetObjectChange prev]
    end.
Proof.
  intros Hi Hr. unfold createObject in Hr. apply bind_ok in Hr as (prev & s0 & E0 & Hr).
  destruct (op_getStateObject a s prev s0 Hi E0) as [Hi0 _]. pose proof (getStateObject_ok s a (inv_wf _ Hi)) as Hg. rewrite E0 in Hg.
  assert (wf s0 ∧ same s s0 ∧ frame s s0 ∧ ctx s0 = ctx s ∧ caches s s0) as (Hwf0 & Hs0 & Hf0 & Hc0 & Hk0).
  { destruct (vacc s a) as [[v|]|e|]; [|..|done|done].
    - destruct Hg as (? & ? & Heq & ? & ? & ? & _ & _ & ? & ?). by simplify_eq.
    - destruct Hg as (? & Heq & ? & ? & ? & _ & ? & ?). by simplify_eq. }
  unfold get in Hr. unfold mbind in Hr at 1. unfold M_bind in Hr at 1.
  destruct (Auth.NewAccountWithAddress a (accounts (ctx s0))) as [acc st] eqn:En.
  destruct (renumbered s0 a acc st Hwf0 En) as (Hwf1 & Hs1 & Hf1 & Ho1 & HS1).
  set (s1 := set_ctx (set_accounts st (ctx s0)) s0) in *. rewrite (bind_eq _ _ s0 tt s1) in Hr by done.
  destruct (fresh_object s0 a acc st Hwf0 En) as (so & Eso & Hso). unfold lift in Hr. rewrite Eso in Hr.
  rewrite (bind_eq _ _ s1 so s1) in Hr by done.
  set (e := match prev with None => createObjectChange a | Some prev => resetObjectChange prev end) in *.
  destruct (append_run s1 e) as (s2 & E2 & Hi2 & Hs2 & Ho2 & Hc2 & _ & He2 & Hv2 & Hn2 & _); [by eapply frame_inv|].
  rewrite (bind_eq _ _ _ _ _ E2) in Hr. destruct (Hso (ctx s2)) as (Hok & Ha & Hd & Hsu & _).
  destruct (setStateObject_ok s2 (obj_setNonce 0 so) (wf_table _ (inv_wf _ Hi2))) as (s3 & E3 & Hp).
  rewrite (bind_eq _ _ _ _ _ E3) in Hr. apply mret_ok in Hr as [-> ->]. change (address (obj_setNonce 0 so)) with (address so) in Hp.
  rewrite Ha in Hp. exists (obj_setNonce 0 so), s2. destruct Hf0 as (Ej & Er & Eid), Hf1 as (Ej1 & Er1 & Eid1).
  split_and!; try done; [transitivity s0; [done|]; by transitivity s1| |congruence..|].
  { transitivity s0; [done|]. transitivity s1; by apply caches_obj. }
  cbn.
  destruct prev as [prev|]; cbn in e; unfold e in He2; rewrite He2, Ej1, Ej.
  - destruct (vacc s a) as [[v|]|? |]; [|by destruct Hg as (? & ? & _)|done..].
    destruct Hg as (x & t & Heq & Hwt & _ & _ & Hlt & Hov & _). simplify_eq. destruct (live_ok _ _ _ Hwt Hlt) as (? & ? & ?).
    rewrite <-Hc0. split_and!; try done. intros k (x' & [Hx' _] & Hk)%Hk0. destruct Hlt as [Hlt _].
    by rewrite Hlt in Hx'; simplify_eq.
  - destruct (vacc s a) as [[v|]|? |] eqn:Ev; [by destruct Hg as (? & ? & ? & _)| |done..]. split_and!; try done.
    unfold vacc in Ev. destruct (obj_of s a) as [x|] eqn:Eo.
    + by rewrite (wf_deleted _ (inv_wf _ Hi) a x Eo) in Ev.
    + unfold kept_view in Ev. destruct (Auth.GetAccount _ a) as [[]|]; done.
Qed.

(** Removing the object of an address from the table. *)
Lemma revert_createObject_run t a : wf t → Auth.GetAccount (accounts (ctx t)) a = None →
  ∃ t', revert_createObject a t = (Ok tt, t') ∧ wf t' ∧ frame t t' ∧ rest t' = rest t ∧ ctx t' = ctx t ∧
    ∀ b, obj_of t' b = if decide (b = a) then None else obj_of t b.
Proof.
  intros Hwf Hg. pose proof (wf_table _ Hwf) as Ht.
  set (u := set_stateObjectsDirty (stateObjectsDirty t ∖ {[a]}) t).
  assert (∀ l m t', t' = set_stateObjects l (set_addressToObjectIndex m u) → table_ok t' →
    (∀ b, obj_of t' b = if decide (b = a) then None else obj_of t b) →
    wf t' ∧ frame t t' ∧ rest t' = rest t ∧ ctx t' = ctx t ∧
    ∀ b, obj_of t' b = if decide (b = a) then None else obj_of t b) as Hdone.
  { intros l m t' -> Ht' Ho. split; [|done]. destruct Hwf. split; try done; [..|cbn; rewrite wf_dirty0; set_solver]; intros b so; rewrite Ho;
      (destruct (decide (b = a)); [done|]); [apply wf_objects0|apply wf_deleted0]. }
  unfold revert_createObject. rewrite (bind_eq _ _ t tt u) by done. rewrite (bind_eq _ _ u u u) by done.
  change (addressToObjectIndex u) with (addressToObjectIndex t). change (stateObjects u) with (stateObjects t).
  destruct (addressToObjectIndex t !! a) as [i|] eqn:Ei.
  - destruct (Nat.eqb_spec (length (stateObjects t)) 1) as [E1|E1]; [|destruct (Nat.eqb_spec (length (stateObjects t)) 0) as [E0|E0]].
    + eexists. split; [done|]. eapply Hdone; [done|..].
      * intros b j. cbn. rewrite lookup_delete_Some, lookup_nil. split; [|by intros (? & ? & _)].
        intros [Hne (e & He & <-)%Ht]. pose proof Ei as (e' & He' & Ea)%Ht. exfalso.
        pose proof (lookup_lt_Some _ _ _ He). pose proof (lookup_lt_Some _ _ _ He').
        assert (i = 0%nat) as -> by lia. assert (j = 0%nat) as -> by lia. congruence.
      * intros b. unfold obj_of. cbn. destruct (decide (b = a)) as [->|Hne]; [by rewrite lookup_delete_eq|].
        rewrite lookup_delete_ne by done. destruct (addressToObjectIndex t !! b) as [j|] eqn:Ej; [|done]. exfalso.
        pose proof Ei as (e' & He' & Ea)%Ht. pose proof Ej as (e & He & Eb)%Ht.
        pose proof (lookup_lt_Some _ _ _ He). pose proof (lookup_lt_Some _ _ _ He').
        assert (i = 0%nat) as -> by lia. assert (j = 0%nat) as -> by lia. congruence.
    + exfalso. pose proof Ei as (e & He%lookup_lt_Some & _)%Ht. lia.
    + pose proof (shift_left_ok seAddress _ _ a i Ht Ei) as Hs.
      destruct (shift_left seAddress i (stateObjects t) (delete a (addressToObjectIndex t))) as [l m] eqn:El.
      destruct Hs as (Hl & Hm & Hsame). eexists. split; [done|]. eapply Hdone; [done|done|].
      intros b. unfold obj_of. cbn. destruct (decide (b = a)) as [->|Hne]; [by rewrite Hm|].
      specialize (Hsame b Hne). destruct (m !! b) as [j|]; destruct (addressToObjectIndex t !! b) as [j'|] eqn:Ej'; cbn in Hsame.
      * by rewrite Hsame.
      * by rewrite Hsame.
      * pose proof Ej' as (e & He & _)%Ht. by rewrite He in Hsame.
      * done.
  - exists u. split; [done|]. apply (Hdone (stateObjects t) (addressToObjectIndex t)); [by destruct t|done|].
    intros b. change (obj_of u b) with (obj_of t b). destruct (decide (b = a)) as [->|]; [|done].
    unfold obj_of. by rewrite Ei.
Qed.

(** An object that was created for an address without account. *)
Lemma undo_create a v s s' : upd a v s s' → caches s s' → vacc s a = Ok None →
  Auth.GetAccount (accounts (ctx s)) a = None → undo1 (createObjectChange a) s' s.
Proof.
  intros Hupd Hks Hv Hg. destruct (upd_local (createObjectChange a) a v s s' Hupd eq_refl) as [Hkp Hloc]. split_and!; [done..|].
  destruct Hupd as (Hr & Hk & Hu). intros t Hwt Hst Hkt.
  assert (∀ b, Auth.GetAccount (accounts (ctx t)) b = Auth.GetAccount (accounts (ctx s)) b) as Hkt0.
  { intros b. by rewrite <-(same_keeper _ _ Hst), Hk. }
  destruct (revert_createObject_run t a Hwt) as (t' & Et & Hwt' & Hf & Hrt & Hct & Ho); [by rewrite Hkt0|].
  exists t'. split_and!; try done.
  2: { intros b k Hb. pose proof (Hkt _ _ (Hks _ _ Hb)) as (so & [Ho' Hd'] & Hk'). exists so. split; [|done]. split; [|done].
    rewrite Ho, decide_False; [done|]. intros ->. destruct Hb as (so0 & Hl0 & _). by rewrite (live_vacc _ _ _ Hl0) in Hv. }
  split; [| |by intros b; rewrite Hct, Hkt0].
  - intros b. unfold vacc at 2. rewrite Ho, Hct. specialize (Hu b). destruct (decide (b = a)) as [->|Hne].
    + unfold kept_view. by rewrite Hkt0, Hg, Hv.
    + change (vacc s b ≡ vacc t b). etrans; [symmetry; exact Hu|]. apply (same_acc _ _ Hst).
  - by rewrite Hrt, <-(same_rest _ _ Hst), Hr.
Qed.

(** An object that replaced another. *)
Lemma undo_reset a v s s' prev : upd a v s s' → (∀ b k, b ≠ a → cached s b k → cached s' b k) →
  (∀ k, cached s a k → is_Some (keyToOriginStorageIndex prev !! k)) →
  vacc s a ≡ Ok (Some (ov (ctx s) prev)) → obj_ok (ctx s) prev → address prev = a → deleted prev = false →
  undo1 (resetObjectChange prev) s' s.
Proof.
  intros Hupd Hks Hkp Hv Hok Ha Hd. destruct (upd_local (resetObjectChange prev) a v s s' Hupd) as [Hkept Hloc]; [by cbn; rewrite Ha|].
  split_and!; [done..|]. destruct Hupd as (Hr & Hk & Hu). intros t Hwt Hst Hkt.
  assert (same_store (ctx s) (ctx t)) as HS.
  { apply same_stores in Hst as [? ?]. unfold rest in Hr. simplify_eq. split; congruence. }
  cbn. destruct (setStateObject_ok t prev (wf_table _ Hwt)) as (t' & Et & Hpt). rewrite Ha in Hpt.
  pose proof (puts_rest _ _ _ _ Hpt) as (Hrt & Hct & Hft & _). exists t'. split_and!; try done.
  - eapply puts_wf; try done. by eapply obj_ok_same.
  - split.
    + intros b. rewrite (puts_vacc _ _ _ _ _ Hpt). specialize (Hu b). destruct (decide (b = a)) as [->|Hne].
      * rewrite Hd. etrans; [exact Hv|]. by apply ov_same.
      * etrans; [symmetry; exact Hu|]. apply (same_acc _ _ Hst).
    + by rewrite Hrt, <-(same_rest _ _ Hst), Hr.
    + intros b. by rewrite Hct, <-(same_keeper _ _ Hst), Hk.
  - intros b k Hb. destruct (decide (b = a)) as [->|Hne]; [exists prev; split; [by eapply live_puts|auto]|].
    pose proof (Hkt _ _ (Hks _ _ Hne Hb)) as (so & [Ho' Hd'] & Hk'). exists so. split; [|done]. split; [|done].
    destruct Hpt as (_ & _ & Ho). by rewrite Ho, decide_False.
Qed.

(** Creating an object, and possibly changing the new one. *)
Lemma create_step s a r s' v s2 : inv s → createObject a s = (Ok r, s') →
  wf s2 → frame s' s2 → upd a v s' s2 → caches s' s2 → inv s2 ∧ journaled s s2.
Proof.
  intros Hi Hr Hwf2 Hf2 Hu2 Hk2.
  destruct (createObject_run s a r s' Hi Hr) as (so & s1 & Hp & Hi1 & Hs1 & Hok & Ha & Hd & _ & Hk1 & Hv & Hn & Hprev).
  assert (∀ b k, b ≠ a → cached s b k → cached s2 b k) as Hks.
  { intros b k Hne (x & [Hx Hdx] & Hkx)%Hk1. apply Hk2. exists x. split; [|done]. split; [|done].
    destruct Hp as (_ & _ & Ho). by rewrite Ho, decide_False. }
  pose proof (puts_rest _ _ _ _ Hp) as (_ & _ & Hf & _). assert (frame s1 s2) as Hf3 by by transitivity s'.
  assert (upd a v s s2) as Hu.
  { destruct Hu2 as (R1 & R2 & R3), (puts_upd _ _ _ _ Hp Hd) as (S1 & S2 & S3), Hs1 as [V1 V2 V3].
    split; [congruence|]. split; [intros b; rewrite R2, S2; by rewrite <-V3|]. intros b. etrans; [apply R3|].
    destruct (decide (b = a)) as [->|Hne]; [done|]. etrans; [apply S3|]. rewrite decide_False by done. symmetry. apply V1. }
  destruct (snd r) as [prev|].
  - destruct Hprev as (Hvp & Hokp & Hap & Hdp & Hkp & He).
    eapply journaled_one; [exact Hi1|done|done|exact He|done|done|]. by eapply undo_reset.
  - destruct Hprev as (Hvp & Hg & He). assert (caches s s2) as Hkall.
    { intros b k Hb. destruct (decide (b = a)) as [->|]; [|by apply Hks]. destruct Hb as (x & Hl & _).
      by rewrite (live_vacc _ _ _ Hl) in Hvp. }
    eapply journaled_one; [exact Hi1|done|done|exact He|done|done|]. by eapply undo_create.
Qed.

(** GetOrNewStateObject leaves a live object. *)
Lemma GetOrNew_ok s a u s' : inv s → GetOrNewStateObject a s = (Ok u, s') →
  inv s' ∧ journaled s s' ∧ ∃ so, live s' a so.
Proof.
  intros Hi Hr. unfold GetOrNewStateObject in Hr. apply bind_ok in Hr as (o & s0 & E0 & Hr).
  destruct (op_getStateObject a s o s0 Hi E0) as [Hi0 Hj0].
  assert (∀ r s1, createObject a s0 = (Ok r, s1) → inv s1 ∧ journaled s s1 ∧ ∃ so, live s1 a so) as Hcreate.
  { intros r s1 Hc. destruct (createObject_run s0 a r s1 Hi0 Hc) as (so & s2 & Hp & Hi2 & _ & Hok & Ha & Hd & _).
    pose proof (live_puts _ _ _ _ Hp Hd) as Hl.
    assert (wf s1) as Hwf1 by (eapply puts_wf; [apply Hi2|done..]).
    destruct (create_step s0 a r s1 (ov (ctx s1) so) s1 Hi0 Hc Hwf1) as [Hi1 Hj1]; [done| |done|].
    { split; [done|]. split; [done|]. intros b. destruct (decide (b = a)) as [->|]; [|apply vacc_refl]. by rewrite (live_vacc _ _ _ Hl). }
    split; [done|]. split; [by eapply journaled_trans|]. exists so. by eapply live_puts. }
  pose proof (getStateObject_ok s a (inv_wf _ Hi)) as Hg. rewrite E0 in Hg. destruct o as [so|].
  - destruct (vacc s a) as [[v|]|? |]; [|by destruct Hg as (? & ? & _)|done..].
    destruct Hg as (x & t & Heq & _ & _ & _ & Hl & _). simplify_eq.
    destruct (deleted x) eqn:Ed; [destruct Hl; congruence|]. injection Hr as <- <-. eauto.
  - apply bind_ok in Hr as (r & s1 & Ec & Hr). injection Hr as <- <-. by eapply Hcreate.
Qed.

Lemma op_or_new {A} a (m : ME A) : op_live a m → op_ok (GetOrNewStateObject a;; m).
Proof.
  intros Hm s b s' Hi (u & s1 & E1 & E2)%bind_ok. destruct (GetOrNew_ok s a u s1 Hi E1) as (Hi1 & Hj1 & Hl).
  destruct (Hm s1 b s' Hi1 Hl E2) as (Hi2 & Hj2 & _). split; [done|]. by eapply journaled_trans.
Qed.

(** An operation on an account that is shown. *)
Lemma op_if_live {A} a (f : stateObject → ME A) (m : ME A) : (∀ so, op_live a (f so)) → op_ok m →
  op_ok (o ← getStateObject a; match o with Some so => f so | None => m end).
Proof.
  intros Hf Hm s b s' Hi (o & s1 & E1 & E2)%bind_ok. destruct (op_getStateObject a s o s1 Hi E1) as [Hi1 Hj1].
  pose proof (getStateObject_ok s a (inv_wf _ Hi)) as Hg. rewrite E1 in Hg. destruct o as [so|].
  - destruct (vacc s a) as [[v|]|? |]; [|by destruct Hg as (? & ? & _)|done..].
    destruct Hg as (x & t & Heq & _ & _ & _ & Hl & _). simplify_eq.
    destruct (Hf x t b s' Hi1 ltac:(by eexists) E2) as (? & ? & _). split; [done|]. by eapply journaled_trans.
  - destruct (Hm s1 b s' Hi1 E2). split; [done|]. by eapply journaled_trans.
Qed.

(** Undoing the mark of an object: the entry also sets the balance, to what it is. *)
Lemma ok_set_suicided st x y : obj_ok st x → obj_ok st (set_suicided y x).
Proof. intros Hx. pose proof Hx as []. split; try done; [by apply (ok_coded_cong st x)|]. intros c Ec. by apply (ok_code_cong st x _ c Hx). Qed.

Lemma upd_trans a v w s s1 s2 s3 : upd a v s s1 → same s1 s2 → upd a w s2 s3 → upd a w s s3.
Proof.
  intros (R1 & R2 & R3) [V1 V2 V3] (S1 & S2 & S3). split; [congruence|]. split; [intros b; by rewrite S2, <-V3|].
  intros b. etrans; [apply S3|]. specialize (R3 b). destruct (decide (b = a)) as [->|Hne]; [done|].
  etrans; [symmetry; apply V1|done].
Qed.

Lemma revert_suicide st a so t : obj_ok st so → wf t → same_store st (ctx t) →
  vacc t a ≡ Ok (Some (ov st (markSuicided so))) →
  ∃ t', revert (suicideChange a (suicided so) (amt (denom_of t) (aCoins (account so)))) t = (Ok tt, t') ∧ wf t' ∧ frame t t' ∧
    upd a (ov st so) t t' ∧ caches t t'.
Proof.
  intros Hok Hwt HS Hvt. pose proof (ok_coins _ _ Hok) as Hval. unfold revert.
  destruct (must_object_ok t a _ Hwt Hvt) as (x & t1 & Ex & Hw1 & Hs1 & Hf1 & Hl1 & Ho1 & Hc1 & Hk1).
  apply bind_ok in Ex as (o & t1' & Eo & Hlift). destruct o as [x'|]; [|done]. injection Hlift as -> ->.
  rewrite (bind_eq _ _ _ _ _ Eo). destruct (live_ok _ _ _ Hw1 Hl1) as (Hokx & Hax & Hdx).
  destruct (assign_live t1 a x (set_suicided (suicided so) x) Hw1 Hl1) as (t2 & E2' & Hw2 & Hf2 & Hu2 & Hl2' & Hc2 & _ & Hk2);
    [by apply ok_set_suicided|done|done|by apply cache_eq|].
  rewrite (bind_eq _ _ _ _ _ E2').
  destruct (GetParams_ok t2 Hw2) as (t3 & Et3 & Hw3 & Hs3 & Hf3 & Ho3 & Hc3). rewrite (bind_eq _ _ _ _ _ Et3).
  rewrite Hc2, Hc1. change (EvmDenom (paramSpace (ctx t))) with (denom_of t).
  destruct (so_setBalance_run t3 a _ (denom_of t) (amt (denom_of t) (aCoins (account so))) Hw3 (live_transfer _ _ _ _ Ho3 Hl2')) as
    (c' & t' & Et' & Hw' & Hf' & _ & Hc' & Hval' & Hamt & Hu' & Hk'); [apply (wf_denom _ Hwt)|by apply valid_amt|].
  exists t'. split; [done|]. split; [done|]. split; [transitivity t1; [done|]; transitivity t2; [done|]; by transitivity t3|].
  split; [|transitivity t1; [done|]; transitivity t2; [done|]; transitivity t3; [by apply caches_obj|done]].
  eapply upd_proper; [|symmetry; exact Hs1|eapply upd_trans; [exact Hu2|exact Hs3|exact Hu']].
  rewrite Hc3, Hc2, Hc1. rewrite Hc1 in Ho1. destruct Ho1 as (T1 & T2 & T3 & T4). cbn in T1, T2, T3, T4.
  apply (ov_balance_back st (ctx t) so (aCoins (account so)) (set_suicided (suicided so) x)); try done.
  - split; [cbn; rewrite T1; by destruct (account so)|]. split; [|split; [done|exact T4]]. cbn.
    transitivity (fst (obj_Code (ctx t) x)); [by apply obj_Code_cong|]. rewrite T2. by apply obj_Code_cong.
  - intros d. rewrite Hamt. cbn. rewrite T1. by destruct (decide (d = denom_of t)) as [->|].
Qed.

Lemma op_live_mark a : op_live a
  (p ← GetParams; so ← deref a;
   journal_append (suicideChange a (suicided so) (obj_Balance (EvmDenom p) so));;
   so ← deref a; assign a (markSuicided so)).
Proof.
  intros s b s' Hi Hls Hr. apply bind_ok in Hr as (p & s0 & Ep & Hr).
  destruct (GetParams_ok s (inv_wf _ Hi)) as (s0' & Ep' & Hwf0 & Hs0 & Hf0 & Ho0 & Hc0).
  destruct (run_eq _ _ _ _ _ _ Ep' Ep) as [-> ->]. assert (inv s0') as Hi0 by by eapply frame_inv.
  destruct Hls as [so Hl%(live_transfer s s0' a so Ho0)]. destruct (live_ok _ _ _ Hwf0 Hl) as (Hok & Ha & Hd).
  rewrite (bind_eq _ _ _ _ _ (deref_ok s0' a so (wf_table _ Hwf0) (proj1 Hl))), <-Hc0 in Hr.
  change (EvmDenom (paramSpace (ctx s0'))) with (denom_of s0') in Hr. unfold obj_Balance, acc_Balance in Hr.
  rewrite Coins.AmountOf_spec in Hr by (apply valid_sorted, (ok_coins _ _ Hok)).
  set (e := suicideChange a (suicided so) (amt (denom_of s0') (aCoins (account so)))) in *.
  destruct (op_live_change a e s0' so (markSuicided so) Hi0 Hl) as (s1 & s2 & E1 & E2 & Hi2 & Hj & Hl2 & Hl1 & Hwf1 & _);
    [by apply ok_set_suicided|done|done|by apply cache_eq|done| |].
  - intros t Hwt Hvt _ HS Hdt. unfold e. rewrite <-Hdt. by apply revert_suicide.
  - rewrite (bind_eq _ _ _ _ _ E1) in Hr. rewrite (bind_eq _ _ _ _ _ (deref_ok s1 a so (wf_table _ Hwf1) (proj1 Hl1))), E2 in Hr.
    injection Hr as <- <-. split; [done|]. split; [|by eexists]. eapply journaled_trans; [apply journaled_frame; try done; by apply caches_obj|done].
Qed.

Lemma op_Suicide a : op_ok (Suicide a).
Proof.
  intros s b s' Hi Hr. unfold Suicide in Hr. apply bind_ok in Hr as (o & s1 & E1 & Hr).
  destruct (op_getStateObject a s o s1 Hi E1) as [Hi1 Hj1]. pose proof (getStateObject_ok s a (inv_wf _ Hi)) as Hg. rewrite E1 in Hg.
  destruct o as [so|]; [|injection Hr as <- <-; done].
  destruct (vacc s a) as [[v|]|? |]; [|by destruct Hg as (? & ? & _)|done..].
  destruct Hg as (x & t & Heq & Hwt & _ & _ & Hl & _). simplify_eq.
  assert (((p ← GetParams; so ← deref a;
            journal_append (suicideChange a (suicided so) (obj_Balance (EvmDenom p) so));;
            so ← deref a; assign a (markSuicided so)) ≫= λ _, so_SetBalance a 0;; mret true) t = (Ok b, s')) as Hrun.
  { destruct (GetParams_ok t Hwt) as (t0 & Et0 & Hw0 & _ & _ & Ho0 & _). rewrite (bind_eq _ _ _ _ _ Et0) in Hr.
    unfold mbind at 1, M_bind at 1. rewrite (bind_eq _ _ _ _ _ Et0).
    rewrite (bind_eq _ _ _ _ _ (deref_ok t0 a x (wf_table _ Hw0) (proj1 (live_transfer _ _ _ _ Ho0 Hl)))).
    revert Hr. clear. unfold mbind, M_bind. destruct (journal_append _ t0) as [[] t1]; [|done..].
    destruct (deref a t1) as [[y| |] t2]; [|done..]. by destruct (assign a (markSuicided y) t2) as [[] t3]. }
  destruct (op_live_bind a _ (λ _, so_SetBalance a 0;; mret true) (op_live_mark a)
    (λ _, op_live_bind a _ _ (op_live_SetBalance a 0) (λ _, op_live_ret a true)) t b s' Hi1 ltac:(by eexists) Hrun) as (? & ? & _).
  split; [done|]. by eapply journaled_trans.
Qed.

Lemma op_CreateAccount a : op_ok (CreateAccount a).
Proof.
  intros s b s' Hi Hr. unfold CreateAccount in Hr. apply bind_ok in Hr as ([new prev] & s1 & E1 & Hr).
  destruct (createObject_run s a _ s1 Hi E1) as (so & s0 & Hp & Hi0 & Hs0 & Hok & Ha & Hd & _ & _ & _ & _ & Hprev).
  pose proof (live_puts _ _ _ _ Hp Hd) as Hl. pose proof (puts_rest _ _ _ _ Hp) as (Hrest & Hctx & _).
  assert (wf s1) as Hwf1 by (eapply puts_wf; [apply Hi0|done..]). cbn in Hprev. destruct prev as [prev|].
  - destruct (GetParams_ok s1 Hwf1) as (t0 & Et0 & Hw0 & Hst & Hf0 & Ho0 & Hc0). rewrite (bind_eq _ _ _ _ _ Et0) in Hr.
    destruct Hprev as (_ & Hokp & _). unfold obj_Balance, acc_Balance in Hr.
    rewrite Coins.AmountOf_spec in Hr by (apply valid_sorted, (ok_coins _ _ Hokp)).
    destruct (so_setBalance_run t0 a so (EvmDenom (paramSpace (ctx s1))) (amt (EvmDenom (paramSpace (ctx s1))) (aCoins (account prev))) Hw0
      (live_transfer _ _ _ _ Ho0 Hl)) as (c & s2 & Es & Hw2 & Hf2 & _ & _ & _ & _ & Hu & Hk2);
      [apply (wf_denom _ Hwf1)|apply valid_amt, (ok_coins _ _ Hokp)|].
    destruct (run_eq _ _ _ _ _ _ Es Hr) as [-> ->]. eapply create_step; [exact Hi|exact E1|exact Hw2|by transitivity t0| |transitivity t0; [by apply caches_obj|done]].
    eapply upd_proper; [reflexivity|symmetry; exact Hst|exact Hu].
  - injection Hr as <- <-. apply (create_step s a _ s1 (ov (ctx s1) so) s1 Hi E1 Hwf1); [done| |done].
    split; [done|]. split; [done|]. intros c. destruct (decide (c = a)) as [->|]; [|apply vacc_refl]. by rewrite (live_vacc _ _ _ Hl).
Qed.

(** ** Changes of the rest of the state *)

(** The objects, the stores and the parameters stay as they are. *)
Definition quiet (s s' : CommitStateDB) : Prop :=
  stateObjects s' = stateObjects s ∧ addressToObjectIndex s' = addressToObjectIndex s ∧ ctx s' = ctx s ∧ params s' = params s ∧
  stateObjectsDirty s' = stateObjectsDirty s.

Lemma quiet_obj s s' a : quiet s s' → obj_of s' a = obj_of s a.
Proof. intros (E1 & E2 & _). unfold obj_of. by rewrite E1, E2. Qed.

Lemma quiet_vacc s s' a : quiet s s' → vacc s' a = vacc s a.
Proof. intros Hq. unfold vacc. rewrite (quiet_obj _ _ _ Hq). by destruct Hq as (_ & _ & -> & _). Qed.

Lemma quiet_wf s s' : wf s → quiet s s' → 0 ≤ logSize s' < 2 ^ 64 → al_ok (csAccessList s') → wf s'.
Proof.
  intros [] Hq Hl Ha. pose proof Hq as (E1 & E2 & E3 & E4 & E5). split; rewrite ?E3, ?E4, ?E5; try done.
  - unfold table_ok. by rewrite E1, E2.
  - intros a so. rewrite (quiet_obj _ _ _ Hq). apply wf_objects0.
  - intros a so. rewrite (quiet_obj _ _ _ Hq). apply wf_deleted0.
Qed.

(** An operation that records [e] and changes the rest, and what undoes it. *)
Lemma op_rest (e : journalEntry) s s1 s2 : inv s → journal_append e s = (Ok tt, s1) →
  quiet s1 s2 → frame s1 s2 → 0 ≤ logSize s2 < 2 ^ 64 → al_ok (csAccessList s2) →
  (∀ t, wf t → rest t = rest s2 → ∃ t', revert e t = (Ok tt, t') ∧ quiet t t' ∧ frame t t' ∧ rest t' = rest s) →
  inv s2 ∧ journaled s s2.
Proof.
  intros Hi E1 Hq Hf Hl Ha Hrev. destruct (append_run s e Hi) as (s1' & E1' & Hi1 & Hs1 & Ho1 & Hc1 & Hr1 & He1 & Hv1 & Hn1 & Hp1).
  destruct (run_eq _ _ _ _ _ _ E1' E1) as [_ ->]. pose proof (inv_wf _ Hi) as Hwf.
  assert (wf s2) as Hwf2 by (eapply quiet_wf; [apply Hi1|done..]).
  eapply journaled_one; [exact Hi1|exact Hwf2|exact Hf|exact He1|done|done|]. pose proof Hq as (_ & _ & Hc2 & _).
  split; [|split].
  { unfold kept, denom_of. by rewrite Hc2, Hc1. }
  { intros a _. rewrite (quiet_vacc _ _ _ Hq). apply (same_acc _ _ Hs1). }
  intros t Hwt Hst Hkt. destruct (Hrev t Hwt) as (t' & Et & Hqt & Hft & Hrt); [symmetry; apply (same_rest _ _ Hst)|].
  pose proof Hqt as (_ & _ & Hct & _).
  exists t'. split_and!; try done.
  - eapply quiet_wf; [exact Hwt|exact Hqt|..]; unfold rest in Hrt; simplify_eq.
    + replace (logSize t') with (logSize s) by congruence. apply (wf_logSize _ Hwf).
    + replace (csAccessList t') with (csAccessList s) by congruence. apply (wf_access _ Hwf).
  - split; [|done|].
    + intros a. rewrite (quiet_vacc _ _ _ Hqt). etrans; [|apply (same_acc _ _ Hst)].
      rewrite (quiet_vacc _ _ _ Hq). apply (same_acc _ _ Hs1).
    + intros a. by rewrite Hct, <-(same_keeper _ _ Hst), Hc2, Hc1.
  - transitivity s1'; [by apply caches_obj|]. transitivity s2; [apply caches_obj; intros a; by apply quiet_obj|].
    transitivity t; [done|]. apply caches_obj. intros a. by apply quiet_obj.
Qed.

Lemma wf_rest_ok s : wf s → 0 ≤ logSize s < 2 ^ 64 ∧ al_ok (csAccessList s).
Proof. by intros []. Qed.

Ltac rest_eq := unfold rest in *; cbn in *; simplify_eq; congruence.

Lemma op_AddRefund g : op_ok (AddRefund g).
Proof.
  intros s b s' Hi Hr. unfold AddRefund in Hr. rewrite (bind_eq _ _ s s s) in Hr by done.
  destruct (append_run s (refundChange (refund s)) Hi) as (s1 & E1 & Hi1 & _ & _ & _ & Hr1 & _).
  rewrite (bind_eq _ _ _ _ _ E1) in Hr. injection Hr as <- <-. destruct (wf_rest_ok _ (inv_wf _ Hi1)).
  eapply op_rest; [exact Hi|exact E1|done..|]. intros t Hwt Ht. eexists. split; [done|]. split; [done|]. split; [done|]. rest_eq.
Qed.

Lemma op_SubRefund g : op_ok (SubRefund g).
Proof.
  intros s b s' Hi Hr. unfold SubRefund in Hr. rewrite (bind_eq _ _ s s s) in Hr by done.
  destruct (append_run s (refundChange (refund s)) Hi) as (s1 & E1 & Hi1 & _ & _ & _ & Hr1 & _).
  rewrite (bind_eq _ _ _ _ _ E1) in Hr. destruct (refund s <? g); [done|]. injection Hr as <- <-. destruct (wf_rest_ok _ (inv_wf _ Hi1)).
  eapply op_rest; [exact Hi|exact E1|done..|]. intros t Hwt Ht. eexists. split; [done|]. split; [done|]. split; [done|]. rest_eq.
Qed.

Lemma uint64_back n : 0 ≤ n < 2 ^ 64 → uint64 (uint64 (n + 1) - 1) = n.
Proof.
  intros Hn. unfold uint64. rewrite Zminus_mod_idemp_l. replace (n + 1 - 1) with n by lia. by apply Z.mod_small.
Qed.

Lemma op_AddLog l : op_ok (AddLog l).
Proof.
  intros s b s' Hi Hr. unfold AddLog in Hr. rewrite (bind_eq _ _ s s s) in Hr by done.
  destruct (append_run s (addLogChange (thash s)) Hi) as (s1 & E1 & Hi1 & _ & _ & _ & Hr1 & _).
  rewrite (bind_eq _ _ _ _ _ E1) in Hr. injection Hr as <- <-. destruct (wf_rest_ok _ (inv_wf _ Hi1)) as [Hl Ha].
  eapply op_rest; [exact Hi|exact E1|done|done|cbn; apply Z.mod_pos_bound; lia|done|].
  intros t Hwt Ht. assert (logs t = logs s ++ [MkLog (lAddress l) (Topics l) (Data l) (BlockNumber l) (thash s) (uint64 (txIndex s))
    (bhash s) (logSize s) (Removed l)] ∧ logSize t = uint64 (logSize s + 1)) as [El En] by (split; rest_eq).
  set (log := MkLog _ _ _ _ _ _ _ _ _) in *.
  exists (set_logSize (uint64 (logSize t - 1)) (set_logs (logs s) t)). split; [|split; [done|split; [done|]]].
  - unfold revert, revert_addLog, GetLogs. rewrite (bind_eq _ _ t (logs t) t) by done. rewrite El.
    destruct (Nat.leb_spec (length (logs s ++ [log])) 1) as [Hle|Hgt].
    + rewrite length_app in Hle. cbn in Hle. destruct (logs s); [|cbn in Hle; lia]. done.
    + rewrite length_app, Nat.add_comm. cbn. by rewrite take_app_length.
  - rewrite En. assert (logSize s1 = logSize s) as Es by rest_eq. rewrite uint64_back by (by rewrite <-Es).
    clear El En. rest_eq.
Qed.

Lemma op_AddPreimage h p : op_ok (AddPreimage h p).
Proof.
  intros s b s' Hi Hr. unfold AddPreimage in Hr. rewrite (bind_eq _ _ s s s) in Hr by done.
  destruct (hashToPreimageIndex s !! h) as [i|] eqn:Eh; [by apply (op_ret tt s b s' Hi)|].
  destruct (append_run s (addPreimageChange h) Hi) as (s1 & E1 & Hi1 & _ & _ & _ & Hr1 & _).
  rewrite (bind_eq _ _ _ _ _ E1) in Hr. injection Hr as <- <-. destruct (wf_rest_ok _ (inv_wf _ Hi1)) as [Hl Ha].
  eapply op_rest; [exact Hi|exact E1|done..|]. intros t Hwt Ht.
  set (l := preimages s ++ [MkPreimage h p]) in *.
  assert (preimages t = l ∧ hashToPreimageIndex t = <[h := pred (length l)]> (hashToPreimageIndex s)) as [El Em] by (split; rest_eq).
  assert (length l = S (length (preimages s))) as Hlen by (unfold l; rewrite length_app; cbn; lia).
  exists (set_preimages (preimages s) (set_hashToPreimageIndex (hashToPreimageIndex s) t)).
  split; [|split; [done|split; [done|clear El Em; rest_eq]]].
  unfold revert, revert_addPreimage. rewrite (bind_eq _ _ t t t) by done. rewrite Em, lookup_insert_eq, El.
  rewrite delete_insert_id by done. destruct (Nat.eqb_spec (length l) 1) as [Eq|Ne].
  - rewrite Hlen in Eq. unfold l in Eq. destruct (preimages s); [done|cbn in *; lia].
  - rewrite (proj2 (Nat.eqb_neq _ _)) by lia. unfold shift_left.
    rewrite (drop_ge (zip _ _)) by (rewrite length_zip, length_seq; lia). rewrite (drop_ge l) by lia. cbn.
    rewrite app_nil_r, take_take, Nat.min_id, Hlen. cbn. unfold l. by rewrite take_app_length.
Qed.

(** ** The access list *)

Definition with_address (a : Address) (al : accessList) : accessList :=
  MkAccessList (<[a := -1]> (addresses al)) (slots al).

Lemma with_address_ok a al : al_ok al → al_ok (with_address a al).
Proof. intros Hal b i Hb. cbn in Hb. apply lookup_insert_Some in Hb as [[<- <-]|[_ Hb]]; [by left|]. exact (Hal b i Hb). Qed.

Lemma with_address_undo a al : addresses al !! a = None → DeleteAddress a (with_address a al) = al.
Proof. intros Ha. destruct al as [m l]. unfold DeleteAddress, with_address. cbn in *. by rewrite delete_insert_id. Qed.

(** A first slot of an address makes a new set at the end. *)
Definition with_slots (a : Address) (slot : Hash) (al : accessList) : accessList :=
  MkAccessList (<[a := Z.of_nat (length (slots al))]> (addresses al)) (slots al ++ [{[slot]}]).

Lemma with_slots_ok a slot al : al_ok al → al_ok (with_slots a slot al).
Proof.
  intros Hal b i Hb. cbn in Hb |- *. apply lookup_insert_Some in Hb as [[<- <-]|[_ Hb]].
  - right. split; [lia|]. exists {[slot]}. rewrite Nat2Z.id, list_lookup_middle by done. split; [done|set_solver].
  - destruct (Hal b i Hb) as [?|(Hi & m & Hm & Hne)]; [by left|]. right. split; [done|]. exists m. split; [|done].
    by rewrite lookup_app_l by by eapply lookup_lt_Some.
Qed.

Lemma with_slots_undo a slot al : DeleteSlot a slot (with_slots a slot al) = Ok (with_address a al).
Proof.
  unfold DeleteSlot, with_slots. cbn. rewrite lookup_insert_eq. cbn. rewrite (proj2 (Z.ltb_ge _ _)) by lia.
  rewrite Nat2Z.id, list_lookup_middle by done. cbn. rewrite bool_decide_true by set_solver.
  by rewrite insert_insert_eq, take_app_length.
Qed.

(** The cases of AddSlot. *)
Lemma AddSlot_cases a slot al r al' : al_ok al → AddSlot a slot al = (r, al') →
  (r = (true, true) ∧ addresses al !! a = None ∧ al' = with_slots a slot al) ∨
  (r = (false, true) ∧ al_ok al' ∧ DeleteSlot a slot al' = Ok al) ∨ (r = (false, false) ∧ al' = al).
Proof.
  intros Hal. unfold AddSlot. destruct (addresses al !! a) as [i|] eqn:Ea.
  - rewrite bool_decide_true by eauto. cbn. destruct (Z.eqb_spec i (-1)) as [->|Hi].
    + intros [= <- <-]. right. left. split; [done|]. split; [by apply with_slots_ok|].
      change (DeleteSlot a slot (with_slots a slot al) = Ok al). rewrite with_slots_undo. f_equal. destruct al as [m l].
      unfold with_address. cbn in *. by rewrite insert_id.
    + destruct (Hal a i Ea) as [?|(Hpos & m & Hm & Hne)]; [done|]. pose proof (lookup_lt_Some _ _ _ Hm) as Hlt.
      rewrite Z.geb_leb, (proj2 (Z.leb_gt _ _)) by lia. rewrite Hm. destruct (bool_decide_reflect (slot ∈ m)) as [|Hs].
      { intros [= <- <-]. auto. }
      intros [= <- <-]. right. left. split; [done|]. split.
      * intros b j Hb. cbn in Hb |- *. destruct (Hal b j Hb) as [?|(Hj & m' & Hm' & Hne')]; [by left|]. right. split; [done|].
        destruct (decide (Z.to_nat j = Z.to_nat i)) as [->|Hji].
        -- exists ({[slot]} ∪ m). rewrite list_lookup_insert_eq by done. split; [done|set_solver].
        -- exists m'. by rewrite list_lookup_insert_ne.
      * unfold DeleteSlot. cbn. rewrite Ea. cbn. rewrite (proj2 (Z.ltb_ge _ _)) by lia.
        rewrite list_lookup_insert_eq by done. cbn.
        replace (({[slot]} ∪ m) ∖ {[slot]}) with m by set_solver. rewrite bool_decide_false by done.
        rewrite list_insert_insert_eq, list_insert_id by done. by destruct al.
  - rewrite bool_decide_false by by intros []. cbn. intros [= <- <-]. by left.
Qed.

Lemma append_access e al s : journal_append e (set_csAccessList al s) =
  let '(r, s1) := journal_append e s in (r, set_csAccessList al s1).
Proof. unfold journal_append, get, lift, mbind, M_bind. cbn. by destruct (append e (csJournal s)). Qed.

(** Recording an entry of the access list: [undo] leads back. *)
Lemma op_access e s al : inv s → al_ok al →
  (∀ t, csAccessList t = al → revert e t = (Ok tt, set_csAccessList (csAccessList s) t)) →
  ∃ s1, journal_append e s = (Ok tt, s1) ∧ inv (set_csAccessList al s1) ∧ journaled s (set_csAccessList al s1).
Proof.
  intros Hi Hal Hrev. destruct (append_run s e Hi) as (s1 & E1 & Hi1 & _ & _ & _ & Hr1 & _).
  exists s1. split; [done|]. destruct (wf_rest_ok _ (inv_wf _ Hi1)) as [Hl _].
  eapply op_rest; [exact Hi|exact E1|done|done|done|done|]. intros t Hwt Ht. eexists. split; [apply Hrev; rest_eq|].
  split; [done|]. split; [done|]. rest_eq.
Qed.

Lemma op_AddAddress a : op_ok (AddAddressToAccessList a).
Proof.
  intros s b s' Hi Hr. unfold AddAddressToAccessList in Hr. rewrite (bind_eq _ _ s s s) in Hr by done.
  unfold AddAddress in Hr. destruct (addresses (csAccessList s) !! a) as [i|] eqn:Ea; cbn in Hr.
  - rewrite (bind_eq _ _ s tt s) in Hr by by destruct s. by apply (op_ret tt s b s' Hi).
  - change (MkAccessList (<[a:=-1]> (addresses (csAccessList s))) (slots (csAccessList s))) with (with_address a (csAccessList s)) in Hr.
    rewrite (bind_eq _ _ s tt (set_csAccessList (with_address a (csAccessList s)) s)) in Hr by done.
    destruct (op_access (accessListAddAccountChange a) s (with_address a (csAccessList s)) Hi) as (s1 & E1 & Hi1 & Hj1).
    + apply with_address_ok. apply (wf_access _ (inv_wf _ Hi)).
    + intros t Et. unfold revert, modify. by rewrite Et, with_address_undo.
    + rewrite append_access, E1 in Hr. by injection Hr as <- <-.
Qed.

Lemma op_AddSlot a slot : op_ok (AddSlotToAccessList a slot).
Proof.
  intros s b s' Hi Hr. unfold AddSlotToAccessList in Hr. rewrite (bind_eq _ _ s s s) in Hr by done.
  pose proof (wf_access _ (inv_wf _ Hi)) as Hal. destruct (AddSlot a slot (csAccessList s)) as [r al] eqn:Es.
  assert (∀ al t, csAccessList t = al → ∀ al', DeleteSlot a slot al = Ok al' →
    revert (accessListAddSlotChange a slot) t = (Ok tt, set_csAccessList al' t)) as Hdel.
  { intros al0 t Et al' Ed. unfold revert, get, lift, mbind, M_bind. cbn. by rewrite Et, Ed. }
  destruct (AddSlot_cases a slot _ _ _ Hal Es) as [(-> & Ha & ->)|[(-> & Hal' & Hd)|(-> & ->)]]; cbn in Hr.
  - rewrite (bind_eq _ _ s tt (set_csAccessList (with_slots a slot (csAccessList s)) s)) in Hr by done.
    destruct (op_access (accessListAddAccountChange a) s (with_address a (csAccessList s)) Hi) as (s1 & E1 & Hi1 & Hj1).
    { by apply with_address_ok. }
    { intros t Et. unfold revert, modify. by rewrite Et, with_address_undo. }
    destruct (op_access (accessListAddSlotChange a slot) _ (with_slots a slot (csAccessList s)) Hi1) as (s2 & E2 & Hi2 & Hj2).
    { by apply with_slots_ok. }
    { intros t Et. eapply Hdel; [exact Et|]. apply with_slots_undo. }
    rewrite append_access in E2. destruct (journal_append (accessListAddSlotChange a slot) s1) as [r2 s2'] eqn:E3.
    injection E2 as -> <-. unfold mbind in Hr. unfold M_bind in Hr. rewrite append_access, E1 in Hr.
    rewrite append_access, E3 in Hr. injection Hr as <- <-. split; [exact Hi2|]. eapply journaled_trans; [exact Hj1|exact Hj2].
  - rewrite (bind_eq _ _ s tt (set_csAccessList al s)) in Hr by done.
    destruct (op_access (accessListAddSlotChange a slot) s al Hi Hal') as (s1 & E1 & Hi1 & Hj1).
    { intros t Et. by eapply Hdel. }
    rewrite (bind_eq _ _ _ tt (set_csAccessList al s)) in Hr by done. rewrite append_access, E1 in Hr. by injection Hr as <- <-.
  - rewrite (bind_eq _ _ s tt s) in Hr by by destruct s. by apply (op_ret tt s b s' Hi).
Qed.

(** ** The interface of the virtual machine *)

(** What the virtual machine asks. *)
Inductive query :=
| QBalance (a : Address) | QNonce (a : Address) | QCode (a : Address) | QCodeSize (a : Address) | QCodeHash (a : Address)
| QState (a : Address) (k : Hash) | QCommittedState (a : Address) (k : Hash) | QSuicided (a : Address)
| QEmpty (a : Address) | QExist (a : Address) | QRefund | QLogs | QPreimages
| QAddressInAccessList (a : Address) | QSlotInAccessList (a : Address) (k : Hash).

Inductive answer :=
| ANum (n : Z) | ABytes (b : option bytes) | AHash (h : Hash) | ABool (b : bool) | ABools (b c : bool)
| ALogs (l : list Log) | APreimages (m : gmap Hash bytes).

Definition answered {A} (f : A → answer) (m : ME A) : ME answer := x ← m; mret (f x).

Definition ask (q : query) : ME answer :=
  match q with
  | QBalance a => answered ANum (GetBalance a)
  | QNonce a => answered ANum (GetNonce a)
  | QCode a => answered ABytes (GetCode a)
  | QCodeSize a => answered ANum (GetCodeSize a)
  | QCodeHash a => answered AHash (GetCodeHash a)
  | QState a k => answered AHash (GetState a k)
  | QCommittedState a k => answered AHash (GetCommittedState a k)
  | QSuicided a => answered ABool (HasSuicided a)
  | QEmpty a => answered ABool (Empty a)
  | QExist a => answered ABool (Exist a)
  | QRefund => answered ANum GetRefund
  | QLogs => answered ALogs GetLogs
  | QPreimages => answered APreimages Preimages
  | QAddressInAccessList a => answered ABool (AddressInAccessList a)
  | QSlotInAccessList a k => answered (λ bc, ABools (fst bc) (snd bc)) (SlotInAccessList a k)
  end.

(** What the virtual machine does. *)
Inductive op :=
| OSetBalance (a : Address) (x : Z) | OAddBalance (a : Address) (x : Z) | OSubBalance (a : Address) (x : Z)
| OSetNonce (a : Address) (n : Z) | OSetState (a : Address) (k v : Hash) | OSetCode (a : Address) (c : option bytes)
| OAddLog (l : Log) | OAddPreimage (h : Hash) (p : bytes) | OAddRefund (g : Z) | OSubRefund (g : Z)
| OAddAddressToAccessList (a : Address) | OAddSlotToAccessList (a : Address) (k : Hash)
| OSuicide (a : Address) | OCreateAccount (a : Address) | OAsk (q : query)
| OSnapshot | ORevertToSnapshot (id : Z).

Definition run_op (o : op) : ME unit :=
  match o with
  | OSetBalance a x => SetBalance a x
  | OAddBalance a x => AddBalance a x
  | OSubBalance a x => SubBalance a x
  | OSetNonce a n => SetNonce a n
  | OSetState a k v => SetState a k v
  | OSetCode a c => SetCode a c
  | OAddLog l => AddLog l
  | OAddPreimage h p => AddPreimage h p
  | OAddRefund g => AddRefund g
  | OSubRefund g => SubRefund g
  | OAddAddressToAccessList a => AddAddressToAccessList a
  | OAddSlotToAccessList a k => AddSlotToAccessList a k
  | OSuicide a => Suicide a;; mret tt
  | OCreateAccount a => CreateAccount a
  | OAsk q => ask q;; mret tt
  | OSnapshot => Snapshot;; mret tt
  | ORevertToSnapshot id => RevertToSnapshot id
  end.

(** Every operation but a touch of the contract whose touches are recorded twice. *)
Definition regular (o : op) : Prop := match o with OAddBalance a x => a ≠ ripemd ∨ x ≠ 0 | _ => True end.

Lemma op_answered {A} (f : A → answer) (m : ME A) : op_ok m → op_ok (answered f m).
Proof. intros Hm. apply op_bind; [done|]. intros x. apply op_ret. Qed.

Lemma op_shown {A} a (f : option stateObject → A) : op_ok (o ← getStateObject a; mret (f o)).
Proof. apply op_bind; [apply op_getStateObject|]. intros o. apply op_ret. Qed.

Lemma op_ask q : op_ok (ask q).
Proof.
  destruct q; apply op_answered; try apply op_gets; try apply op_shown.
  - unfold GetBalance. apply op_bind; [apply op_getStateObject|]. intros [so|]; [|apply op_ret].
    apply op_bind; [apply op_GetParams|]. intros p. apply op_ret.
  - apply op_if_live; [|apply op_ret]. intros so. apply op_live_Code.
  - unfold GetCodeSize. change (op_ok (o ← getStateObject a;
      match o with Some so => match code so with Some c => mret (Z.of_nat (String.length c))
        | None => c ← so_Code a; mret (Z.of_nat (String.length (default "" c))) end | None => mret 0 end)).
    apply (op_if_live a); [|apply op_ret]. intros so. destruct (code so); [apply op_live_ret|].
    apply op_live_bind; [apply op_live_Code|]. intros c. apply op_live_ret.
  - apply op_if_live; [|apply op_ret]. intros so. apply op_live_GetState.
  - apply op_if_live; [|apply op_ret]. intros so. apply op_live_GetCommittedState.
  - apply op_if_live; [|apply op_ret]. intros so. apply op_live_empty.
Qed.

(** Every operation but snapshots and reverts. *)
Lemma op_regular o : regular o → (match o with OSnapshot | ORevertToSnapshot _ => False | _ => True end) → op_ok (run_op o).
Proof.
  intros Hreg Ho. destruct o; cbn in *; try done.
  - apply op_or_new, op_live_SetBalance.
  - apply op_or_new. by apply op_live_AddBalance.
  - apply op_or_new, op_live_SubBalance.
  - apply op_or_new, op_live_SetNonce.
  - apply op_or_new, op_live_SetState.
  - apply op_or_new, op_live_SetCode.
  - apply op_AddLog.
  - apply op_AddPreimage.
  - apply op_AddRefund.
  - apply op_SubRefund.
  - apply op_AddAddress.
  - apply op_AddSlot.
  - apply op_bind; [apply op_Suicide|]. intros b. apply op_ret.
  - apply op_CreateAccount.
  - apply op_bind; [apply op_ask|]. intros b. apply op_ret.
Qed.

End spec.
End EvmRevert.
