(* ===== verification/EvmSnapshot.v ===== *)
(** * The state database: snapshots

    Databases that show the same answer the same.  A snapshot is the number of entries of
    the journal; [linked] relates the snapshots that are valid to copies of the database
    at the time they were taken, to which the journal leads back. *)

From S2P Require Import Prelude SdkDec SdkCoins CoinFacts GoStd Account EvmErrors Evm EvmSpec EvmRevert.

#[local] Open Scope Z_scope.

Module EvmSnapshot.
Import Evm EvmSpec EvmRevert.

Section spec.
Context `{DO : Dec.Ops} `{DL : !Dec.Laws} `{CO : !Coins.Ops} `{CL : !Coins.Laws}.
Context `{E : Eth} `{EL : !EthLaws} `{AO : Auth.Ops} `{AL : !Auth.Laws emptyCodeHash}.

Abbreviation ME := (M CommitStateDB).

(** ** Answers *)

(** What the getters of an account return, from its view. *)
Definition shown (q : query) (s : CommitStateDB) (o : option oview) : answer :=
  match q, o with
  | QBalance a, Some v => ANum (amt (denom_of s) (aCoins (v_acc v)))
  | QBalance a, None => ANum 0
  | QNonce a, Some v => ANum (aSequence (v_acc v))
  | QNonce a, None => ANum 0
  | QCode a, Some v => ABytes (v_code v)
  | QCode a, None => ABytes None
  | QCodeSize a, Some v => ANum (Z.of_nat (String.length (default "" (v_code v))))
  | QCodeSize a, None => ANum 0
  | QCodeHash a, Some v => AHash (BytesToHash (default "" (aCodeHash (v_acc v))))
  | QCodeHash a, None => AHash zeroHash
  | QState a k, Some v => AHash (v_state v (GetStorageByAddressKey a k))
  | QState a k, None => AHash zeroHash
  | QCommittedState a k, Some v => AHash (stored (ctx s) a (GetStorageByAddressKey a k))
  | QCommittedState a k, None => AHash zeroHash
  | QSuicided a, Some v => ABool (v_suicided v)
  | QSuicided a, None => ABool false
  | QEmpty a, Some v => ABool ((aSequence (v_acc v) =? 0) && (amt (denom_of s) (aCoins (v_acc v)) =? 0) &&
                               String.eqb (default "" (aCodeHash (v_acc v))) emptyCodeHash)
  | QEmpty a, None => ABool true
  | QExist a, Some v => ABool true
  | QExist a, None => ABool false
  | _, _ => ABool false
  end.

Definition asked (q : query) : option Address :=
  match q with
  | QBalance a | QNonce a | QCode a | QCodeSize a | QCodeHash a | QState a _ | QCommittedState a _ | QSuicided a
  | QEmpty a | QExist a => Some a
  | _ => None
  end.

Lemma shown_equiv q s v w : v ≡ w → shown q s (Some v) = shown q s (Some w).
Proof. intros (E1 & E2 & E3 & E4). destruct q; cbn; rewrite ?E1, ?E2, ?E3, ?E4; done. Qed.

(** The getters of an account. *)
Lemma ask_account q a s : wf s → asked q = Some a →
  match vacc s a with
  | Ok o => fst (ask q s) = Ok (shown q s o)
  | _ => fst (ask q s) = Panic
  end.
Proof.
  intros Hwf Hq. pose proof (getStateObject_ok s a Hwf) as Hg.
  assert (∀ {A} (f : A → answer) (m : option stateObject → ME A),
    fst (getStateObject a s) = Panic → fst (answered f (o ← getStateObject a; m o) s) = Panic) as Hpanic.
  { intros A f m Hp. unfold answered, mbind, M_bind. destruct (getStateObject a s) as [[] ?]; done. }
  destruct (vacc s a) as [[v|]| |]; [| |by destruct q; simplify_eq/=; apply Hpanic..].
  - destruct Hg as (so & s1 & E1 & Hwf1 & Hs1 & Hf1 & Hl & Ho & Hc & _). rewrite <-(shown_equiv q s _ _ Ho).
    destruct (live_ok _ _ _ Hwf1 Hl) as (Hok & Ha & Hd). pose proof (valid_sorted _ (ok_coins _ _ Hok)) as Hsort.
    destruct (ok_hash _ _ Hok) as [h Hh].
    destruct (GetParams_ok s1 Hwf1) as (s2 & E2 & Hwf2 & _ & _ & Ho2 & Hc2).
    pose proof (deref_ok s2 a so (wf_table _ Hwf2) (proj1 (live_transfer _ _ _ _ Ho2 Hl))) as E3.
    destruct (so_Code_run s1 a so Hwf1 Hl) as (so4 & s4 & E4 & _).
    rewrite Hc in E2, E4 |- *.
    destruct q as [a0|a0|a0|a0|a0|a0 k|a0 k|a0|a0|a0| | | |a0|a0 k]; simplify_eq/=;
      unfold ask, answered, GetBalance, GetNonce, GetCode, GetCodeSize, GetCodeHash, GetState, GetCommittedState,
        HasSuicided, Empty, Exist.
    all: unfold mbind at 1, M_bind at 1; rewrite (bind_eq _ _ _ _ _ E1).
    + rewrite (bind_eq _ _ _ _ _ E2). cbn. unfold obj_Balance, acc_Balance. by rewrite Coins.AmountOf_spec.
    + done.
    + by rewrite E4.
    + destruct (code so) as [c|] eqn:Ec; [cbn; by rewrite <-Hc, (ok_code _ _ Hok c Ec)|]. by rewrite (bind_eq _ _ _ _ _ E4).
    + cbn. by rewrite (CodeHash_ok so h Hh), Hh.
    + destruct (so_GetState_run s1 (address so) so k Hwf1 Hl) as (? & ? & E5 & _). rewrite Hc in E5. by rewrite E5.
    + destruct (so_GetCommittedState_run s1 (address so) so k Hwf1 Hl) as (? & ? & E5 & _). rewrite Hc in E5. by rewrite E5.
    + done.
    + unfold so_empty. rewrite (bind_eq _ _ _ _ _ E2), (bind_eq _ _ _ _ _ E3). cbn. unfold obj_empty, acc_Balance.
      rewrite Coins.AmountOf_spec by done. by dec_simp.
    + done.
  - destruct Hg as (s1 & E1 & _). destruct q; simplify_eq/=;
      unfold ask, answered, GetBalance, GetNonce, GetCode, GetCodeSize, GetCodeHash, GetState, GetCommittedState,
        HasSuicided, Empty, Exist; unfold mbind at 1, M_bind at 1; by rewrite (bind_eq _ _ _ _ _ E1).
Qed.

Lemma ask_same q s t : wf s → wf t → same s t → fst (ask q s) = fst (ask q t).
Proof.
  intros Hs Ht Hst. pose proof (same_rest _ _ Hst) as Hr. destruct (asked q) as [a|] eqn:Eq.
  - pose proof (ask_account q a s Hs Eq) as H1. pose proof (ask_account q a t Ht Eq) as H2.
    pose proof (same_acc _ _ Hst a) as Hv. destruct (vacc s a) as [[v|]| |], (vacc t a) as [[w|]| |]; try done; rewrite H1, H2; try done.
    rewrite (shown_equiv q s v w Hv). f_equal.
    assert (paramSpace (ctx s) = paramSpace (ctx t) ∧ storage (ctx s) = storage (ctx t)) as [Ep Est]
        by (unfold rest in Hr; split; congruence).
    unfold shown, denom_of, stored. destruct q; rewrite ?Ep, ?Est; done.
  - unfold rest in Hr. destruct q; simplify_eq/=; congruence.
Qed.

(** ** Reverting a part of the journal *)

Lemma set_journal_same s j : wf s →
  wf (set_csJournal j s) ∧ same s (set_csJournal j s) ∧ caches s (set_csJournal j s).
Proof. intros []. split; [by split|]. split; [by apply same_intro|by apply caches_obj]. Qed.

Lemma revert_entries_ok es s' s : undoes es s' s → ∀ t l, wf t → same s' t → caches s' t →
  tracked (l ++ omap dirtied es) (csJournal t) →
  ∃ t', revert_entries (reverse es) t = (Ok tt, t') ∧ wf t' ∧ same s t' ∧ caches s t' ∧ tracked l (csJournal t') ∧
    entries (csJournal t') = entries (csJournal t) ∧ validRevisions t' = validRevisions t ∧
    nextRevisionID t' = nextRevisionID t.
Proof.
  induction 1 as [s' s Hs Hk|es e s' s1 s He Hu IH]; intros t l Hwt Hst Hkt Htr.
  - exists t. cbn in Htr. rewrite app_nil_r in Htr. split_and!; try done; by transitivity s'.
  - rewrite reverse_app. cbn. destruct He as (_ & _ & He). destruct (He t Hwt Hst Hkt) as (t1 & E1 & Hw1 & Hs1 & Hk1 & Ej & Er & En).
    rewrite (bind_eq _ _ _ _ _ E1). rewrite (bind_eq _ _ t1 t1 t1) by done.
    rewrite omap_app, app_assoc in Htr. destruct (undirty_ok e _ _ Htr) as (j & Eu & Htj & Hej).
    rewrite Ej. unfold lift. rewrite Eu. rewrite (bind_eq _ _ t1 j t1) by done.
    set (t2 := set_csJournal j t1). rewrite (bind_eq _ _ t1 tt t2) by done.
    destruct (set_journal_same t1 j Hw1) as (Hw2 & Hs2 & Hk2).
    destruct (IH t2 l Hw2) as (t' & Et & Hw' & Hs' & Hk' & Htr' & He' & Hr' & Hn'); [by transitivity t1|by transitivity t1|done|].
    exists t'. split_and!; try done; [|by rewrite Hr'|by rewrite Hn']. by rewrite He'.
Qed.

(** The addresses of the entries determine the dirty addresses of the journal. *)
Lemma tracked_unique l j j' : tracked l j → tracked l j' → entries j = entries j' → j = j'.
Proof.
  intros [Hd Hi] [Hd' Hi'] He. destruct j as [e d m], j' as [e' d' m']. cbn in *. subst e' d d'. f_equal.
  apply map_eq. intros a. apply option_eq. intros i. by rewrite (Hi a i), (Hi' a i).
Qed.

Lemma journal_revert_ok s t n : inv s → (n ≤ length (entries (csJournal s)))%nat →
  undoes (drop n (entries (csJournal s))) s t →
  ∃ s', journal_revert n s = (Ok tt, s') ∧ inv s' ∧ same t s' ∧ caches t s' ∧
    entries (csJournal s') = take n (entries (csJournal s)) ∧ validRevisions s' = validRevisions s ∧
    nextRevisionID s' = nextRevisionID s.
Proof.
  intros [Hwf Hj] Hn Hu. unfold jok in Hj. rewrite <-(take_drop n (entries (csJournal s))), omap_app in Hj.
  destruct (revert_entries_ok _ _ _ Hu s _ Hwf ltac:(reflexivity) ltac:(reflexivity) Hj) as (s1 & E1 & Hw1 & Hs1 & Hk1 & Htr & He & Hr & Hid).
  unfold journal_revert. rewrite (bind_eq _ _ s s s) by done. rewrite (bind_eq _ _ _ _ _ E1).
  eexists. split; [done|]. rewrite He. set (j := set_entries (take n (entries (csJournal s))) (csJournal s1)).
  destruct (set_journal_same s1 j Hw1) as (Hw2 & Hs2 & Hk2).
  split; [split; [done|by destruct Htr]|]. split; [by transitivity s1|]. split; [by transitivity s1|]. by rewrite <-Hr, <-Hid.
Qed.

(** ** Valid snapshots and the databases they stand for *)

Section base.
Context (base : CommitStateDB).

(** The snapshots, last first, each with the database at the time it was taken; the journal
    leads back to the database of its first entry, [base]. *)
Fixpoint linked (stk : list (revision * CommitStateDB)) (es : list journalEntry) (s : CommitStateDB) : Prop :=
  match stk with
  | [] => undoes es s base
  | (r, t) :: stk =>
      (journalIndex r ≤ length es)%nat ∧ undoes (drop (journalIndex r) es) s t ∧
      take (journalIndex r) es = entries (csJournal t) ∧ linked stk (take (journalIndex r) es) t
  end.

Lemma linked_extend stk es es' s s' : linked stk es s → undoes es' s' s → linked stk (es ++ es') s'.
Proof.
  destruct stk as [|[r t] stk]; cbn; [intros; by eapply undoes_app|]. intros (Hle & Hu & Hl) Hu'. split; [rewrite length_app; lia|].
  rewrite drop_app_le, take_app_le by done. split; [by eapply undoes_app|done].
Qed.

(** Following the journal past several snapshots. *)
Lemma linked_at pre r t stk es s : linked (pre ++ (r, t) :: stk) es s →
  (journalIndex r ≤ length es)%nat ∧ undoes (drop (journalIndex r) es) s t ∧
  take (journalIndex r) es = entries (csJournal t) ∧ linked stk (take (journalIndex r) es) t.
Proof.
  revert es s. induction pre as [|[r0 t0] pre IH]; intros es s; [done|]. cbn. intros (Hle & Hu & _ & Hl).
  destruct (IH _ _ Hl) as (Hle' & Hu' & Hl'). rewrite length_take in Hle'. split; [lia|].
  rewrite take_take, Nat.min_l in Hl' by lia. split; [|done].
  replace (drop (journalIndex r) es) with (drop (journalIndex r) (take (journalIndex r0) es) ++ drop (journalIndex r0) es).
  - by eapply undoes_app.
  - rewrite <-(take_drop (journalIndex r0) es) at 3. rewrite drop_app_le; [done|]. rewrite length_take. lia.
Qed.

Lemma linked_same stk es s s' : same s s' → caches s s' → linked stk es s → linked stk es s'.
Proof.
  destruct stk as [|[r t] stk]; cbn; intros Hs Hk; [by apply undoes_proper|]. intros (? & Hu & ?). split; [done|]. split; [|done].
  eapply undoes_proper; [exact Hs|exact Hk|done].
Qed.

Lemma linked_base stk es s : linked stk es s → undoes es s base.
Proof.
  revert es s. induction stk as [|[r t] stk IH]; intros es s; [done|]. cbn. intros (Hle & Hu & _ & Hl).
  rewrite <-(take_drop (journalIndex r) es). eapply undoes_app; [by apply IH|done].
Qed.

(** The invariant of a database whose snapshots stand for [stk]. *)
Record snap_inv (s : CommitStateDB) (stk : list (revision * CommitStateDB)) : Prop := {
  snap_inv_inv : inv s;
  snap_revisions : validRevisions s = reverse (fst <$> stk);
  snap_linked : linked stk (entries (csJournal s)) s;
  snap_sorted : StronglySorted (λ r r' : revision, rId r < rId r') (validRevisions s);
  snap_fresh : Forall (λ r, rId r < nextRevisionID s) (validRevisions s);
}.

Lemma snap_op {A} (m : ME A) s a s' stk : op_ok m → snap_inv s stk → m s = (Ok a, s') → snap_inv s' stk.
Proof.
  intros Hm [Hi Hr Hl Hso Hf] E1. destruct (Hm s a s' Hi E1) as [Hi' (es & He & Hu & Er & En)].
  split; rewrite ?Er, ?En; try done. rewrite He. by eapply linked_extend.
Qed.

Lemma sorted_snoc {A} (R : A → A → Prop) l x : StronglySorted R l → Forall (λ y, R y x) l → StronglySorted R (l ++ [x]).
Proof.
  induction 1 as [|y l Hl IH Hy]; intros Hx; cbn; [repeat constructor|]. apply Forall_cons in Hx as [Hyx Hx].
  constructor; [by apply IH|]. apply Forall_app. split; [done|]. by repeat constructor.
Qed.

Lemma snap_Snapshot s stk : snap_inv s stk → ∃ s', Snapshot s = (Ok (nextRevisionID s), s') ∧
  snap_inv s' ((MkRevision (nextRevisionID s) (jlength (csJournal s)), s) :: stk) ∧ same s s' ∧ csJournal s' = csJournal s ∧
  nextRevisionID s' = nextRevisionID s + 1.
Proof.
  intros [[Hwf Hj] Hr Hl Hso Hf]. set (r := MkRevision (nextRevisionID s) (jlength (csJournal s))).
  set (s' := set_validRevisions (validRevisions s ++ [r]) (set_nextRevisionID (nextRevisionID s + 1) s)).
  exists s'. split; [done|].
  assert (same s s') as Hs by by apply same_intro. split; [|by split_and!]. split.
  - split; [|done]. destruct Hwf. by split.
  - change (validRevisions s ++ [r] = reverse (r :: (fst <$> stk))). by rewrite reverse_cons, Hr.
  - split; [done|]. change (entries (csJournal s')) with (entries (csJournal s)). cbn. unfold jlength.
    rewrite drop_all, firstn_all. split; [|done]. apply (undoes_nil s' s Hs). by apply caches_obj.
  - change (validRevisions s') with (validRevisions s ++ [r]). by apply sorted_snoc.
  - change (validRevisions s') with (validRevisions s ++ [r]). change (nextRevisionID s') with (nextRevisionID s + 1).
    apply Forall_app. split; [|repeat constructor; cbn; lia]. eapply Forall_impl; [exact Hf|]. cbn. lia.
Qed.

(** The binary search finds the snapshot. *)
Lemma Search_revision (revs : list revision) k r : StronglySorted (λ r r' : revision, rId r < rId r') revs → revs !! k = Some r →
  Search (length revs) (λ i, match revs !! i with Some r' => (rId r' >=? rId r)%Z | None => false end) = k.
Proof.
  intros Hso Hk. set (f := λ i, match revs !! i with Some r' => (rId r' >=? rId r)%Z | None => false end).
  assert (∀ i j ri rj, (i < j)%nat → revs !! i = Some ri → revs !! j = Some rj → rId ri < rId rj) as Hlt.
  { intros i j ri rj Hij Hi Hj. rewrite <-(take_drop (S i) revs) in Hso.
    apply (StronglySorted_app_1_elem_of (λ r r' : revision, rId r < rId r') _ _ ri rj Hso).
    - apply list_elem_of_lookup. exists i. rewrite lookup_take_lt by lia. done.
    - apply list_elem_of_lookup. exists (j - S i)%nat. rewrite lookup_drop. by replace (S i + (j - S i))%nat with j by lia. }
  pose proof (lookup_lt_Some _ _ _ Hk) as Hkl.
  destruct (Search_spec (length revs) f) as (Hle & Hlo & Hhi).
  { intros a b Hab Hb Hfa. unfold f in *. destruct (lookup_lt_is_Some_2 revs b Hb) as [rb Hrb]. rewrite Hrb.
    destruct (revs !! a) as [ra|] eqn:Era; [|done]. destruct (decide (a = b)) as [->|Hne]; [by simplify_eq|].
    pose proof (Hlt a b ra rb ltac:(lia) Era Hrb). lia. }
  assert (f k = true) as Hfk by (unfold f; rewrite Hk; lia).
  destruct (lt_eq_lt_dec (Search (length revs) f) k) as [[Hs|]|Hs]; [|done|].
  - pose proof (Hhi (Search (length revs) f) ltac:(lia)) as Ht. unfold f at 1 in Ht.
    destruct (revs !! Search (length revs) f) as [rs|] eqn:Ers; [|done]. pose proof (Hlt _ _ _ _ Hs Ers Hk). lia.
  - rewrite (Hlo k Hs) in Hfk. done.
Qed.

Lemma snap_Revert s pre r t post : snap_inv s (pre ++ (r, t) :: post) →
  ∃ s', RevertToSnapshot (rId r) s = (Ok tt, s') ∧ snap_inv s' post ∧ same t s' ∧
    entries (csJournal s') = entries (csJournal t) ∧ nextRevisionID s' = nextRevisionID s.
Proof.
  intros [Hi Hr Hl Hso Hf]. destruct (linked_at pre r t post _ _ Hl) as (Hle & Hu & Het & Hl').
  assert (validRevisions s = reverse (fst <$> post) ++ r :: reverse (fst <$> pre)) as Hrev.
  { by rewrite Hr, fmap_app, reverse_app, fmap_cons, reverse_cons, <-app_assoc. }
  set (k := length (reverse (fst <$> post))).
  assert (validRevisions s !! k = Some r) as Hk by (rewrite Hrev; by apply list_lookup_middle).
  destruct (journal_revert_ok s t (journalIndex r) Hi Hle Hu) as (s1 & E1 & Hi1 & Hs1 & Hk1 & He1 & Hr1 & Hn1).
  assert (take k (validRevisions s1) = reverse (fst <$> post)) as Htake by (rewrite Hr1, Hrev; by apply take_app_length).
  set (s2 := set_validRevisions (take k (validRevisions s1)) s1). exists s2.
  split.
  { unfold RevertToSnapshot. rewrite (bind_eq _ _ s s s) by done. cbn zeta. rewrite (Search_revision _ k r Hso Hk), Hk, Z.eqb_refl.
    cbn [negb]. by rewrite (bind_eq _ _ _ _ _ E1). }
  assert (same s1 s2) as Hs2 by by apply same_intro. split; [|split; [by transitivity s1|split; [by rewrite <-Het|done]]].
  assert (validRevisions s2 = reverse (fst <$> post)) as Hv2 by done.
  split; try done.
  - destruct Hi1 as [Hw1 Hj1]. split; [|done]. destruct Hw1. by split.
  - change (entries (csJournal s2)) with (entries (csJournal s1)). rewrite He1. eapply linked_same; [| |exact Hl'].
    + by transitivity s1.
    + transitivity s1; [done|by apply caches_obj].
  - rewrite Hv2. rewrite Hrev in Hso. by apply StronglySorted_app_1_l in Hso.
  - rewrite Hv2. change (nextRevisionID s2) with (nextRevisionID s1). rewrite Hn1.
    rewrite Hrev in Hf. by apply Forall_app in Hf as [Hf _].
Qed.

(** Only a valid snapshot can be reverted to. *)
Lemma Revert_valid s id u s' : RevertToSnapshot id s = (Ok u, s') → id ∈ rId <$> validRevisions s.
Proof.
  unfold RevertToSnapshot. rewrite (bind_eq _ _ s s s) by done. cbn zeta.
  destruct (validRevisions s !! _) as [r|] eqn:Er; [|done]. destruct (Z.eqb_spec (rId r) id) as [<-|]; [|done].
  intros _. apply list_elem_of_fmap. exists r. split; [done|]. by eapply list_elem_of_lookup_2.
Qed.

Lemma snap_elem s stk id : snap_inv s stk → id ∈ rId <$> validRevisions s →
  ∃ pre r t post, stk = pre ++ (r, t) :: post ∧ rId r = id.
Proof.
  intros Hs (r & -> & Hin)%list_elem_of_fmap. rewrite (snap_revisions _ _ Hs), elem_of_reverse in Hin.
  apply list_elem_of_fmap in Hin as ([r' t] & -> & Hin). apply list_elem_of_split in Hin as (pre & post & ->). by exists pre, r', t, post.
Qed.

(** How an operation changes the stack of snapshots. *)
Lemma snap_run_op o s u s' stk : regular o → snap_inv s stk → run_op o s = (Ok u, s') →
  ∃ stk', snap_inv s' stk' ∧ nextRevisionID s ≤ nextRevisionID s' ∧
    (stk' = stk ∨ (∃ r, stk' = (r, s) :: stk ∧ rId r = nextRevisionID s ∧ nextRevisionID s' = nextRevisionID s + 1) ∨
     ∃ pre x, stk = pre ++ x :: stk').
Proof.
  intros Hreg Hs Hr. destruct o as [| | | | | | | | | | | | | | | |id];
    try (pose proof (op_regular _ Hreg I) as Hok;
         destruct (Hok s u s' (snap_inv_inv _ _ Hs) Hr) as [_ (? & _ & _ & _ & En)];
         exists stk; split; [by eapply snap_op|]; split; [lia|by left]).
  - destruct (snap_Snapshot s stk Hs) as (s1 & E1 & Hs1 & _ & _ & Hn). cbn in Hr. rewrite (bind_eq _ _ _ _ _ E1) in Hr.
    injection Hr as <- <-. eexists. split; [exact Hs1|]. split; [lia|]. right. left. eexists. by split_and!.
  - cbn in Hr. destruct (snap_elem s stk id Hs (Revert_valid _ _ _ _ Hr)) as (pre & r & t & post & -> & <-).
    destruct (snap_Revert s pre r t post Hs) as (s1 & E1 & Hs1 & _ & _ & Hn). rewrite E1 in Hr. injection Hr as <- <-.
    exists post. split; [done|]. split; [lia|]. right. right. by eexists _, _.
Qed.

(** Snapshot [id] stands for [s0], if it is still valid. *)
Definition stands (id : Z) (s0 : CommitStateDB) (stk0 stk : list (revision * CommitStateDB)) : Prop :=
  ∀ pre r t post, stk = pre ++ (r, t) :: post → rId r = id → t = s0 ∧ post = stk0.

Lemma snap_run_ops ops s u s' stk id s0 stk0 : Forall regular ops → snap_inv s stk → id < nextRevisionID s →
  stands id s0 stk0 stk → mapM_ run_op ops s = (Ok u, s') → ∃ stk', snap_inv s' stk' ∧ stands id s0 stk0 stk'.
Proof.
  intros Hreg. revert s stk. induction Hreg as [|o ops Ho _ IH]; intros s stk Hs Hid Hst Hr; cbn in Hr.
  { injection Hr as <- <-. by exists stk. }
  apply bind_ok in Hr as (u1 & s1 & E1 & Hr). destruct (snap_run_op o s u1 s1 stk Ho Hs E1) as (stk1 & Hs1 & Hn & Hcase).
  apply (IH s1 stk1 Hs1); [lia| |done]. destruct Hcase as [->|[(r0 & -> & Er0 & _)|(pre0 & x & ->)]]; [done|..].
  - intros [|p pre] r t post Heq Hrid; cbn in Heq; [injection Heq as <- <- <-; lia|]. injection Heq as <- Heq.
    by eapply Hst.
  - intros pre r t post -> Hrid. apply (Hst (pre0 ++ x :: pre) r t post); [|done]. by rewrite <-app_assoc.
Qed.

End base.

(** ** A new database *)

(** The stores are those that the module and the account keeper write. *)
Definition store_ok (st : Store) : Prop :=
  (∀ a acc, Auth.GetAccount (accounts st) a = Some (EthAcc acc) → code_kept st acc) ∧
  Coins.ValidDenom (EvmDenom (paramSpace st)) = true.

Lemma empty_snap_inv st : store_ok st → snap_inv (CreateEmptyCommitStateDB st) (CreateEmptyCommitStateDB st) [].
Proof.
  intros [Hk Hd]. split; try done; [|by constructor..|by constructor]. split.
  - split; try done; [apply indexed_nil|by left].
  - split; [done|]. apply indexed_nil.
Qed.

End spec.
End EvmSnapshot.
