(* ===== verification/EvmCommit.v ===== *)
(** * The state database: writing back

    Finalise writes the slots and the account of every dirty object, or removes the
    account; Commit writes the code.  What a new database over the stores shows
    afterwards is what was shown before, but for the accounts that were removed. *)

From S2P Require Import Prelude SdkDec SdkCoins CoinFacts GoStd Account EvmErrors Evm EvmSpec EvmRevert EvmSnapshot.

#[local] Open Scope Z_scope.

Module EvmCommit.
Import Evm EvmSpec EvmRevert EvmSnapshot.

Section spec.
Context `{DO : Dec.Ops} `{DL : !Dec.Laws} `{CO : !Coins.Ops} `{CL : !Coins.Laws}.
Context `{E : Eth} `{EL : !EthLaws} `{AO : Auth.Ops} `{AL : !Auth.Laws emptyCodeHash}.

Abbreviation ME := (M CommitStateDB).

(** ** Slots *)

Lemma HashBytes_inj h h' : HashBytes h = HashBytes h' → h = h'.
Proof. intros Eh. by rewrite <-(BytesToHash_Bytes h), Eh, BytesToHash_Bytes. Qed.

Lemma stored_insert st a k v b k' :
  stored (set_storage (<[(a, k) := HashBytes v]> (storage st)) st) b k' =
  if decide (b = a ∧ k' = k) then v else stored st b k'.
Proof.
  unfold stored. cbn -[Nat.ltb]. destruct (decide (b = a ∧ k' = k)) as [[-> ->]|Hne].
  - rewrite lookup_insert_eq. cbn -[Nat.ltb]. destruct (Nat.ltb_spec 0 (String.length (HashBytes v))) as [|Hl]; [apply BytesToHash_Bytes|].
    exfalso. apply (HashBytes_nonempty v). destruct (HashBytes v); [done|cbn in Hl; lia].
  - rewrite lookup_insert_ne; [done|]. intros [= -> ->]. by apply Hne.
Qed.

Lemma stored_delete st a k b k' :
  stored (set_storage (delete (a, k) (storage st)) st) b k' =
  if decide (b = a ∧ k' = k) then zeroHash else stored st b k'.
Proof.
  unfold stored. cbn -[Nat.ltb]. destruct (decide (b = a ∧ k' = k)) as [[-> ->]|Hne].
  - by rewrite lookup_delete_eq.
  - rewrite lookup_delete_ne; [done|]. intros [= -> ->]. by apply Hne.
Qed.

(** Two objects that differ in their slots and caches. *)
Definition alike (so so' : stateObject) : Prop :=
  account so' = account so ∧ code so' = code so ∧ dirtyCode so' = dirtyCode so ∧ suicided so' = suicided so ∧
  deleted so' = deleted so ∧ address so' = address so.

#[export] Instance alike_preorder : PreOrder alike.
Proof. split; [by intros so|]. intros x y z (? & ? & ? & ? & ? & ?) (? & ? & ? & ? & ? & ?). unfold alike. split_and!; congruence. Qed.

(** Two stores that differ in the slots of [a]. *)
Definition but_slots (a : Address) (st st' : Store) : Prop :=
  accounts st' = accounts st ∧ codes st' = codes st ∧ paramSpace st' = paramSpace st ∧
  ∀ b k, b ≠ a → stored st' b k = stored st b k.

#[export] Instance but_slots_preorder a : PreOrder (but_slots a).
Proof.
  split; [by intros st|]. intros x y z (? & ? & ? & Hst1) (? & ? & ? & Hst2). unfold but_slots. split_and!; try congruence.
  intros b k Hb. by rewrite Hst2, Hst1.
Qed.

(** The slot is cached with its value in the store. *)
Definition slot_cached (st : Store) (so : stateObject) (k : Hash) : Prop :=
  ∃ i, keyToOriginStorageIndex so !! k = Some i ∧ originStorage so !! i = Some (NewState k (stored st (address so) k)).

Lemma commit_slot_ok s st so : slot_cached st so (Key s) →
  ∃ st' so', commit_slot s st so = Ok (st', so') ∧ but_slots (address so) st st' ∧ alike so so' ∧
    (∀ k, stored st' (address so) k = if decide (k = Key s) then Value s else stored st (address so) k) ∧
    ∀ k, k ≠ Key s → slot_cached st so k → slot_cached st' so' k.
Proof.
  intros (i & Hi & Ho). unfold commit_slot. cbn. rewrite Hi. destruct (decide (Value s = zeroHash)) as [Hz|Hz].
  - rewrite !bool_decide_true by done. eexists _, _. split; [done|]. split; [|split; [done|split]].
    + split_and!; try done. intros b k Hb. rewrite stored_delete, decide_False; [done|tauto].
    + intros k. rewrite stored_delete, Hz. by destruct (decide (k = Key s)) as [->|]; [rewrite decide_True|rewrite decide_False by tauto].
    + intros k Hk (j & Hj & Hoj). exists j. cbn. rewrite lookup_delete_ne by done. split; [done|].
      by rewrite stored_delete, decide_False by tauto.
  - rewrite !bool_decide_false by done. rewrite Ho. cbn. destruct (decide (Value s = stored st (address so) (Key s))) as [Hv|Hv].
    + rewrite bool_decide_true by done. eexists _, _. split; [done|]. split; [done|]. split; [done|]. split.
      * intros k. by destruct (decide (k = Key s)) as [->|].
      * by intros k _ (j & Hj & Hoj); exists j.
    + rewrite bool_decide_false by done. eexists _, _. split; [done|]. split; [|split; [done|split]].
      * split_and!; try done. intros b k Hb. rewrite stored_insert, decide_False; [done|tauto].
      * intros k. rewrite stored_insert. by destruct (decide (k = Key s)) as [->|]; [rewrite decide_True|rewrite decide_False by tauto].
      * intros k Hk (j & Hj & Hoj). exists j. cbn. split; [done|]. rewrite stored_insert, decide_False by tauto.
        rewrite list_lookup_insert_ne; [done|]. intros ->. congruence.
Qed.

(** The value that a list of slots gives to a key. *)
Definition slot_value (l : list State) (k : Hash) (d : Hash) : Hash :=
  match list_find (λ s, Key s = k) l with Some (_, s) => Value s | None => d end.

Lemma slot_value_cons s l k d : slot_value (s :: l) k d = if decide (Key s = k) then Value s else slot_value l k d.
Proof.
  unfold slot_value. cbn. destruct (decide (Key s = k)); [done|]. by destruct (list_find _ l) as [[]|].
Qed.

Lemma slot_value_out l k d : k ∉ Key <$> l → slot_value l k d = d.
Proof.
  induction l as [|s l IH]; intros Hk; [done|]. rewrite slot_value_cons. cbn in Hk. apply not_elem_of_cons in Hk as [? ?].
  by rewrite decide_False, IH.
Qed.

Lemma commit_slots_ok l st so : NoDup (Key <$> l) → (∀ s, s ∈ l → slot_cached st so (Key s)) →
  ∃ st' so', commit_slots l st so = Ok (st', so') ∧ but_slots (address so) st st' ∧ alike so so' ∧
    ∀ k, stored st' (address so) k = slot_value l k (stored st (address so) k).
Proof.
  revert st so. induction l as [|s l IH]; intros st so Hnd Hc; [by exists st, so|].
  cbn in Hnd. apply NoDup_cons in Hnd as [Hs Hnd].
  destruct (commit_slot_ok s st so) as (st1 & so1 & E1 & Hb1 & Ha1 & Hst1 & Hc1); [apply Hc; set_solver|].
  destruct (IH st1 so1 Hnd) as (st2 & so2 & E2 & Hb2 & Ha2 & Hst2).
  { intros x Hx. apply Hc1; [|apply Hc; set_solver]. intros Heq. apply Hs. rewrite <-Heq. by apply list_elem_of_fmap_2. }
  assert (address so1 = address so) as Ea by apply Ha1. rewrite Ea in Hb2, Hst2.
  exists st2, so2. cbn. rewrite E1. cbn. split; [done|]. split; [by transitivity st1|]. split; [by transitivity so1|].
  intros k. rewrite Hst2, slot_value_cons, Hst1. destruct (decide (Key s = k)) as [<-|Hne].
  - rewrite decide_True by done. by rewrite slot_value_out.
  - by rewrite decide_False.
Qed.

Lemma indexed_NoDup (l : list State) (m : gmap Hash nat) : indexed Key l m → NoDup (Key <$> l).
Proof.
  intros Hi. apply NoDup_alt. intros i j k Ei Ej. rewrite list_lookup_fmap in Ei, Ej.
  destruct (l !! i) as [x|] eqn:Ex; [|done]. destruct (l !! j) as [y|] eqn:Ey; [|done]. cbn in Ei, Ej.
  eapply indexed_inj; [exact Hi|exact Ex|exact Ey|congruence].
Qed.

Lemma obj_state_value st so k : indexed Key (dirtyStorage so) (keyToDirtyStorageIndex so) →
  obj_state st so k = slot_value (dirtyStorage so) k (stored st (address so) k).
Proof.
  intros Hi. unfold obj_state. destruct (keyToDirtyStorageIndex so !! k) as [i|] eqn:Ei.
  - pose proof Ei as (x & Hx & Hk)%Hi. rewrite Hx. unfold slot_value.
    destruct (list_find (λ s, Key s = k) (dirtyStorage so)) as [[j y]|] eqn:Ef.
    + apply list_find_Some in Ef as (Hy & Hky & _).
      assert (i = j) as -> by (eapply indexed_inj; [exact Hi|exact Hx|exact Hy|congruence]). congruence.
    + rewrite list_find_None, Forall_forall in Ef. exfalso. apply (Ef x); [by eapply list_elem_of_lookup_2|done].
  - rewrite slot_value_out; [done|]. intros (s & -> & Hs)%list_elem_of_fmap. apply list_elem_of_lookup in Hs as [i Hs].
    assert (keyToDirtyStorageIndex so !! Key s = Some i) by (apply Hi; eauto). congruence.
Qed.

(** commitState writes what the object shows. *)
Lemma commitState_ok st so : obj_ok st so →
  ∃ st' so', obj_commitState st so = Ok (st', so') ∧ but_slots (address so) st st' ∧ alike so so' ∧
    ∀ k, stored st' (address so) k = obj_state st so k.
Proof.
  intros Hok. pose proof (ok_dirty _ _ Hok) as Hi.
  destruct (commit_slots_ok (dirtyStorage so) st so) as (st' & so' & E1 & Hb & Ha & Hst).
  - by eapply indexed_NoDup.
  - intros s (i & Hs)%list_elem_of_lookup. destruct (ok_cached _ _ Hok (Key s)) as [j Hj]; [exists i; apply Hi; eauto|].
    exists j. split; [done|]. by apply (ok_origin _ _ Hok).
  - exists st', (set_dirtyStorage [] so'). unfold obj_commitState. rewrite E1. cbn. split; [done|]. split; [done|].
    split; [done|]. intros k. by rewrite Hst, (obj_state_value st so k Hi).
Qed.
(** ** Steps at one object *)

Record fits (t : CommitStateDB) : Prop := {
  fits_table : table_ok t;
  fits_params : params t = None ∨ params t = Some (paramSpace (ctx t));
  fits_denom : Coins.ValidDenom (denom_of t) = true;
}.

(** The object of [a] is [so], at position [i]. *)
Definition at_ (t : CommitStateDB) (i : nat) (a : Address) (so : stateObject) : Prop :=
  stateObjects t !! i = Some (MkEntry a so).

Lemma at_obj t i a so : fits t → at_ t i a so → obj_of t a = Some so.
Proof. intros [Ht _ _] Hi. apply (obj_of_at t i _ Ht Hi). Qed.

Lemma obj_at t a so : fits t → obj_of t a = Some so → ∃ i, addressToObjectIndex t !! a = Some i ∧ at_ t i a so.
Proof. intros [Ht _ _] Ho. destruct (obj_of_entry t a so Ht Ho) as (i & [a' so'] & Ei & He & <- & <-). by exists i. Qed.

(** A step that changes the object, the account and the slots of [a]. *)
Record elsewhere (a : Address) (t t' : CommitStateDB) : Prop := {
  e_fits : fits t → fits t';
  e_index : addressToObjectIndex t' = addressToObjectIndex t;
  e_addresses : seAddress <$> stateObjects t' = seAddress <$> stateObjects t;
  e_denom : denom_of t' = denom_of t;
  e_obj b : b ≠ a → obj_of t' b = obj_of t b;
  e_acc b : b ≠ a → Auth.GetAccount (accounts (ctx t')) b = Auth.GetAccount (accounts (ctx t)) b;
  e_slot b k : b ≠ a → stored (ctx t') b k = stored (ctx t) b k;
}.

#[export] Instance elsewhere_preorder a : PreOrder (elsewhere a).
Proof.
  split; [by intros t; split|]. intros x y z [F1 I1 A1 D1 O1 C1 S1] [F2 I2 A2 D2 O2 C2 S2].
  split; [auto|congruence..| | |]; [intros b Hb; by rewrite O2, O1|intros b Hb; by rewrite C2, C1|intros b k Hb; by rewrite S2, S1].
Qed.

(** The codes and the dirty objects stay. *)
Definition calm (t t' : CommitStateDB) : Prop :=
  codes (ctx t') = codes (ctx t) ∧ stateObjectsDirty t' = stateObjectsDirty t.

#[export] Instance calm_preorder : PreOrder calm.
Proof. split; [done|]. intros x y z [? ?] [? ?]. split; congruence. Qed.

(** Slots of [a] that are as they were. *)
Definition slots_kept (a : Address) (t t' : CommitStateDB) : Prop := ∀ k, stored (ctx t') a k = stored (ctx t) a k.

#[export] Instance slots_kept_preorder a : PreOrder (slots_kept a).
Proof. split; [by intros t k|]. intros x y z H1 H2 k. by rewrite H2, H1. Qed.

Lemma params_fits t : fits t → ∃ t', GetParams t = (Ok (paramSpace (ctx t)), t') ∧ fits t' ∧
  ∃ p, t' = set_params p t.
Proof.
  intros Hf. pose proof Hf as [Ht Hp Hd]. unfold GetParams, get, mbind, M_bind. cbn. destruct Hp as [Hp|Hp]; rewrite Hp.
  - eexists. split; [done|]. split; [|by eexists]. split; [done|by right|done].
  - exists t. split_and!; [done..|]. exists (params t). by destruct t.
Qed.

Lemma params_elsewhere a p t : fits (set_params p t) → elsewhere a t (set_params p t).
Proof. intros Hf. by split. Qed.

Lemma put_at t i a so so' : fits t → at_ t i a so →
  ∃ t', put_object i so' t = (Ok tt, t') ∧ elsewhere a t t' ∧ calm t t' ∧ at_ t' i a so' ∧ ctx t' = ctx t.
Proof.
  intros [Ht Hp Hd] Hi. destruct (put_object_puts t i _ so' Ht Hi) as (t' & Et & Hpt). cbn in Hpt.
  exists t'. split; [done|]. pose proof (puts_rest _ _ _ _ Hpt) as (_ & Hc & _ & Hpar). destruct Hpt as (_ & Ht' & Ho).
  unfold put_object, modify in Et. rewrite (alter_entry _ _ _ _ Hi) in Et. cbn in Et. injection Et as <-.
  split; [|split; [done|split; [|done]]].
  - split; try done.
    + cbn. by rewrite list_fmap_insert, list_insert_id by by rewrite list_lookup_fmap, Hi.
    + intros b Hb. by rewrite Ho, decide_False.
  - unfold at_. cbn. by rewrite list_lookup_insert_eq by by eapply lookup_lt_Some.
Qed.

(** Replacing the account of [a] in the keeper. *)
Lemma set_accounts_elsewhere a st t :
  (∀ b, b ≠ a → Auth.GetAccount st b = Auth.GetAccount (accounts (ctx t)) b) →
  let t' := set_ctx (set_accounts st (ctx t)) t in elsewhere a t t' ∧ calm t t' ∧ slots_kept a t t'.
Proof. intros Hb t'. split; [|split; [done|by intros k]]. split; try done. by intros []. Qed.

Lemma empty_fits so t : fits t →
  ∃ t', obj_is_empty so t = (Ok (obj_empty (denom_of t) so), t') ∧ fits t' ∧ ∃ p, t' = set_params p t.
Proof.
  intros Hf. destruct (params_fits t Hf) as (t' & Et & Hf' & Hp). exists t'. split; [|done].
  unfold obj_is_empty. by rewrite (bind_eq _ _ _ _ _ Et).
Qed.

(** Writing the balance that the account has does not change its coins. *)
Lemma written_coins c d : Coins.IsValid c = true → Coins.ValidDenom d = true →
  (if Dec.IsZero (amt d c) || negb (Dec.Equal (amt d c) (amt d c)) then Coins.Add c [MkCoin d (amt d c)] else c) = c.
Proof.
  intros Hv Hd. dec_simp. rewrite Z.eqb_refl, orb_false_r. destruct (Z.eqb_spec (amt d c) 0) as [Hz|]; [|done].
  rewrite Coins.Add_spec, Hz.
  assert (Coins.good [MkCoin d 0]) as Hg by (split; [auto with typeclass_instances|]; repeat constructor; cbn; [lia|done]).
  apply coins_eq; [apply Coins.Add2_valid; coins|done|]. intros d'. rewrite Add2_good_amt, amt_single by coins.
  destruct (decide (d' = d)) as [->|]; [rewrite coin_amt_eq|rewrite coin_amt_ne by done]; cbn; lia.
Qed.

(** The account of the object is written as it is. *)
Lemma update_ok t i a so : fits t → at_ t i a so → Coins.IsValid (aCoins (account so)) = true →
  aAddress (account so) = a → Auth.BlacklistedAddr a = false →
  ∃ t', updateStateObject i t = (Ok tt, t') ∧ elsewhere a t t' ∧ calm t t' ∧ slots_kept a t t' ∧ at_ t' i a so ∧
    Auth.GetAccount (accounts (ctx t')) a = Some (EthAcc (account so)).
Proof.
  intros Hf Hi Hv Ha Hbl. unfold updateStateObject. destruct (params_fits t Hf) as (t0 & E0 & Hf0 & p & ->).
  rewrite (bind_eq _ _ _ _ _ E0). change (at_ (set_params p t) i a so) in Hi.
  rewrite (bind_eq _ _ _ _ _ (object_at_ok (set_params p t) i _ Hi)). cbn zeta. cbn [seObject Denom Amount].
  pose proof (valid_sorted _ Hv) as Hs. unfold obj_Balance, acc_Balance. rewrite Coins.AmountOf_spec by done.
  set (d := EvmDenom (paramSpace (ctx t))). pose proof (fits_denom _ Hf : Coins.ValidDenom d = true) as Hd.
  pose proof (valid_amt _ d Hv) as Hpos.
  rewrite Coins.CoinIsValid_spec. cbn [Denom Amount]. rewrite Hd, (proj2 (Z.leb_le _ _) Hpos). cbn [negb andb].
  rewrite (bind_eq _ _ (set_params p t) tt (set_params p t)) by done.
  rewrite Ha, Hbl. rewrite (bind_eq _ _ (set_params p t) tt (set_params p t)) by done.
  rewrite written_coins by done.
  replace (set_account (set_aCoins (aCoins (account so)) (account so)) so) with so by (destruct so as [? ? ? ? [] ? ? ? ? ? ?]; done).
  destruct (put_at _ i a so so Hf0 Hi) as (t1 & E1 & He1 & Hc1 & Hi1 & Ec1). rewrite (bind_eq _ _ _ _ _ E1).
  destruct (set_accounts_elsewhere a (Auth.SetAccount (EthAcc (account so)) (accounts (ctx t1))) t1) as (He2 & Hc2 & Hk2).
  { intros b Hb. rewrite Auth.GetAccount_SetAccount by done. cbn. by rewrite Ha, decide_False. }
  eexists. split; [done|]. split; [transitivity (set_params p t); [by apply params_elsewhere|]; by transitivity t1|].
  split; [by transitivity t1|]. split; [|split; [done|]].
  - intros k. rewrite Hk2, Ec1. done.
  - cbn. rewrite Auth.GetAccount_SetAccount by done. cbn. by rewrite Ha, decide_True.
Qed.

(** The account of the object is removed. *)
Lemma delete_ok t i a so : fits t → at_ t i a so → aAddress (account so) = a →
  ∃ t', deleteStateObject i t = (Ok tt, t') ∧ elsewhere a t t' ∧ calm t t' ∧ slots_kept a t t' ∧
    at_ t' i a (set_deleted true so) ∧ Auth.GetAccount (accounts (ctx t')) a = None.
Proof.
  intros Hf Hi Ha. unfold deleteStateObject. rewrite (bind_eq _ _ _ _ _ (object_at_ok t i _ Hi)). cbn [seObject].
  destruct (put_at _ i a so (set_deleted true so) Hf Hi) as (t1 & E1 & He1 & Hc1 & Hi1 & Ec1). rewrite (bind_eq _ _ _ _ _ E1).
  destruct (set_accounts_elsewhere a (Auth.RemoveAccount (EthAcc (account so)) (accounts (ctx t1))) t1) as (He2 & Hc2 & Hk2).
  { intros b Hb. rewrite Auth.GetAccount_RemoveAccount. cbn. by rewrite Ha, decide_False. }
  eexists. split; [done|]. split; [by transitivity t1|]. split; [by transitivity t1|]. split; [|split; [done|]].
  - intros k. by rewrite Hk2, Ec1.
  - cbn. rewrite Auth.GetAccount_RemoveAccount. cbn. by rewrite Ha, decide_True.
Qed.

(** ** Finalise *)

(** An object that is removed, if it is dirty. *)
Definition dead (s : CommitStateDB) (so : stateObject) : bool := suicided so || obj_empty (denom_of s) so.

Definition at_addr (t : CommitStateDB) (a : Address) := Auth.GetAccount (accounts (ctx t)) a.

(** What Finalise makes of the object [so] that [a] has in [s]. *)
Definition finalised (s t : CommitStateDB) (a : Address) (so : stateObject) : Prop :=
  if dead s so
  then obj_of t a = Some (set_deleted true so) ∧ at_addr t a = None ∧ slots_kept a s t
  else ∃ so', obj_of t a = Some so' ∧ alike so so' ∧ at_addr t a = Some (EthAcc (account so)) ∧
         ∀ k, stored (ctx t) a k = obj_state (ctx s) so k.

(** What is as it was. *)
Definition untouched (s t : CommitStateDB) (a : Address) : Prop :=
  obj_of t a = obj_of s a ∧ at_addr t a = at_addr s a ∧ slots_kept a s t.

Lemma elsewhere_untouched a t t' b : elsewhere a t t' → b ≠ a → untouched t t' b.
Proof. intros He Hb. split_and!; [by apply (e_obj _ _ _ He)|by apply (e_acc _ _ _ He)|]. intros k. by apply (e_slot _ _ _ He). Qed.

Lemma dirty_elsewhere a d t : elsewhere a t (set_stateObjectsDirty d t).
Proof. split; try done. by intros []. Qed.

(** The verdict on an object. *)
Lemma verdict_ok so t : fits t →
  ∃ t', (if suicided so then mret true else obj_is_empty so) t = (Ok (dead t so), t') ∧ fits t' ∧ ∃ p, t' = set_params p t.
Proof.
  intros Hf. unfold dead. destruct (suicided so); [|by apply empty_fits].
  exists t. split_and!; [done..|]. exists (params t). by destruct t.
Qed.

Lemma finalise_one_ok t a n so : fits t → obj_of t a = Some so → address so = a → obj_ok (ctx t) so →
  (dead t so = false → Auth.BlacklistedAddr a = false) →
  ∃ t', finalise_one true (MkDirty a n) t = (Ok tt, t') ∧ elsewhere a t t' ∧ codes (ctx t') = codes (ctx t) ∧
    stateObjectsDirty t' = {[a]} ∪ stateObjectsDirty t ∧ finalised t t' a so.
Proof.
  intros Hf Ho Ha Hok Hbl. destruct (obj_at t a so Hf Ho) as (i & Ei & Hi).
  assert (aAddress (account so) = a) as Hacc by (rewrite <-Ha; apply (ok_address _ _ Hok)).
  unfold finalise_one. rewrite (bind_eq _ _ t t t) by done. cbn [dAddress]. rewrite Ei.
  rewrite (bind_eq _ _ _ _ _ (object_at_ok t i _ Hi)). cbn [seObject].
  destruct (verdict_ok so t Hf) as (t0 & E0 & Hf0 & p & ->). rewrite (bind_eq _ _ _ _ _ E0).
  change (at_ (set_params p t) i a so) in Hi. unfold finalised. destruct (dead t so); [clear Hbl|specialize (Hbl eq_refl)].
  - destruct (delete_ok _ i a so Hf0 Hi Hacc) as (t1 & E1 & He1 & [Hc1 Hd1] & Hk1 & Hi1 & Hg1).
    rewrite (bind_eq _ _ _ _ _ E1). eexists. split; [done|].
    assert (elsewhere a t t1) as He by (transitivity (set_params p t); [by apply params_elsewhere|done]).
    pose proof (e_fits _ _ _ He Hf) as Hf1.
    split; [transitivity t1; [done|apply dirty_elsewhere]|]. split; [done|]. split; [cbn; by rewrite Hd1|].
    split; [exact (at_obj _ _ _ _ Hf1 Hi1)|]. split; [done|]. exact Hk1.
  - unfold mbind at 1, M_bind at 1. rewrite (bind_eq _ _ (set_params p t) (set_params p t) (set_params p t)) by done.
    destruct (commitState_ok (ctx t) so Hok) as (st & so1 & Ec & (B1 & B2 & B3 & B4) & Hal & Hst).
    unfold lift. cbn [ctx]. change (ctx (set_params p t)) with (ctx t). rewrite Ec. rewrite (bind_eq _ _ _ (st, so1) (set_params p t)) by done.
    set (t1 := set_ctx st (set_params p t)). rewrite (bind_eq _ _ _ tt t1) by done.
    assert (elsewhere a t t1) as He1.
    { split; try done.
      - intros _. destruct Hf0 as [? Hp ?]. split; [done|cbn; by rewrite B3|unfold denom_of; cbn; by rewrite B3].
      - unfold denom_of. cbn. by rewrite B3.
      - intros b Hb. cbn. by rewrite B1.
      - intros b k Hb. cbn. apply B4. by rewrite Ha. }
    pose proof (e_fits _ _ _ He1 Hf) as Hf1. change (at_ t1 i a so) in Hi.
    destruct (put_at _ i a so so1 Hf1 Hi) as (t2 & E2 & He2 & [Hc2 Hd2] & Hi2 & Ec2). rewrite (bind_eq _ _ _ _ _ E2).
    pose proof Hal as (A1 & A2 & A3 & A4 & A5 & A6).
    destruct (update_ok t2 i a so1 (e_fits _ _ _ He2 Hf1) Hi2) as (t3 & E3 & He3 & [Hc3 Hd3] & Hk3 & Hi3 & Hg3);
      [rewrite A1; apply (ok_coins _ _ Hok)|by rewrite A1|done|]. rewrite E3.
    assert (elsewhere a t t3) as He by (transitivity t1; [done|]; by transitivity t2).
    eexists. split; [done|]. split; [transitivity t3; [done|apply dirty_elsewhere]|]. split; [cbn; by rewrite Hc3, Hc2|].
    split; [cbn; by rewrite Hd3, Hd2|]. exists so1. split; [exact (at_obj _ _ _ _ (e_fits _ _ _ He Hf) Hi3)|]. split; [done|].
    split; [unfold at_addr; cbn; by rewrite Hg3, A1|]. intros k. cbn. rewrite Hk3, Ec2. cbn. rewrite <-Ha at 1. apply Hst.
Qed.

Lemma obj_ok_local st st' so : codes st' = codes st → (∀ k, stored st' (address so) k = stored st (address so) k) →
  obj_ok st so → obj_ok st' so.
Proof.
  intros Hc Hst Hok. assert (obj_Code st' so = obj_Code st so) as Ec by (unfold obj_Code; by rewrite Hc).
  destruct Hok. split; rewrite ?Ec; try done. intros k i. rewrite Hst. apply ok_origin0.
Qed.

Lemma obj_state_local st st' so k : (∀ k, stored st' (address so) k = stored st (address so) k) →
  obj_state st' so k = obj_state st so k.
Proof. intros Hst. unfold obj_state. by rewrite Hst. Qed.

Lemma finalised_later s t t' a so : untouched t t' a → finalised s t a so → finalised s t' a so.
Proof.
  intros (Ho & Hg & Hk). unfold finalised. rewrite Ho, Hg. destruct (dead s so).
  - intros (? & ? & ?). split_and!; try done. by transitivity t.
  - intros (so' & ? & ? & ? & Hst). exists so'. split_and!; try done. intros k. by rewrite Hk.
Qed.

Lemma finalised_earlier s t t' a so : untouched s t a → denom_of t = denom_of s → address so = a →
  finalised t t' a so → finalised s t' a so.
Proof.
  intros (Ho & Hg & Hk) Hd Ha. unfold finalised, dead. rewrite Hd. destruct (_ || _).
  - intros (? & ? & ?). split_and!; try done. by transitivity t.
  - intros (so' & ? & ? & ? & Hst). exists so'. split_and!; try done. intros k. rewrite Hst.
    apply obj_state_local. by rewrite Ha.
Qed.

Lemma untouched_trans s t t' a : untouched s t a → untouched t t' a → untouched s t' a.
Proof. intros (? & ? & ?) (? & ? & ?). split_and!; [congruence..|by transitivity t]. Qed.

(** The loop of Finalise, once the addresses [D] are done. *)
Record progress (s : CommitStateDB) (D : list Address) (t : CommitStateDB) : Prop := {
  p_fits : fits t;
  p_denom : denom_of t = denom_of s;
  p_codes : codes (ctx t) = codes (ctx s);
  p_dirty a : a ∈ stateObjectsDirty t ↔ a ∈ D ∧ is_Some (obj_of s a);
  p_none a : obj_of s a = None → untouched s t a;
  p_out a : a ∉ D → untouched s t a;
  p_in a so : a ∈ D → obj_of s a = Some so → finalised s t a so;
}.

Lemma progress_start s : wf s → progress s [] s.
Proof.
  intros []. split; [by split|done|done|..].
  - intros a. rewrite wf_dirty0. set_solver.
  - by intros a _; split_and!.
  - by intros a _; split_and!.
  - intros a so Ha. by apply not_elem_of_nil in Ha.
Qed.

(** A dirty address can be written: it is not blacklisted, or its object goes away. *)
Definition writable (s : CommitStateDB) (a : Address) : Prop :=
  ∀ so, obj_of s a = Some so → dead s so = false → Auth.BlacklistedAddr a = false.

Lemma progress_step s D t a n : wf s → progress s D t → a ∉ D → writable s a →
  ∃ t', finalise_one true (MkDirty a n) t = (Ok tt, t') ∧ progress s (a :: D) t'.
Proof.
  intros Hwf [Hf Hden Hc Hd Hnone Hout Hin] HaD Hbl. pose proof (Hout a HaD) as Hua. pose proof Hua as (Ho & Hg & Hk).
  destruct (obj_of s a) as [so|] eqn:Eo.
  - destruct (wf_objects _ Hwf a so Eo) as [Ha Hok].
    destruct (finalise_one_ok t a n so Hf Ho Ha) as (t' & Et & He & Hc' & Hd' & Hfin).
    { eapply obj_ok_local; [exact Hc|by rewrite Ha|done]. }
    { intros Hdead. apply (Hbl so Eo). unfold dead in *. by rewrite <-Hden. }
    exists t'. split; [done|]. split; [by apply (e_fits _ _ _ He)|by rewrite (e_denom _ _ _ He)|congruence|..].
    + intros b. rewrite Hd', elem_of_union, elem_of_singleton, Hd, elem_of_cons. split; [|tauto].
      intros [->|[? ?]]; [rewrite Eo|]; eauto.
    + intros b Hb. eapply untouched_trans; [by apply Hnone|]. eapply elsewhere_untouched; [done|congruence].
    + intros b [Hba HbD]%not_elem_of_cons. eapply untouched_trans; [by apply Hout|]. by eapply elsewhere_untouched.
    + intros b so' Hb Hso. destruct (decide (b = a)) as [->|Hne].
      * rewrite Eo in Hso. injection Hso as <-. by eapply finalised_earlier.
      * apply elem_of_cons in Hb as [?|Hb]; [done|]. eapply finalised_later; [by eapply elsewhere_untouched|]. by apply Hin.
  - exists t. split.
    { unfold finalise_one. rewrite (bind_eq _ _ t t t) by done. cbn [dAddress].
      by rewrite (obj_of_none t a (fits_table _ Hf) Ho). }
    split; try done.
    + intros b. rewrite Hd, elem_of_cons. split; [tauto|]. intros [[->|?] Hs]; [|done]. rewrite Eo in Hs. by destruct Hs.
    + intros b [_ HbD]%not_elem_of_cons. by apply Hout.
    + intros b so Hb Hso. apply elem_of_cons in Hb as [->|Hb]; [congruence|]. by apply Hin.
Qed.

Lemma finalise_loop s ds D t : wf s → progress s D t → NoDup (dAddress <$> ds) → (∀ a, a ∈ dAddress <$> ds → a ∉ D) →
  (∀ a, a ∈ dAddress <$> ds → writable s a) →
  ∃ t' D', mapM_ (finalise_one true) ds t = (Ok tt, t') ∧ progress s D' t' ∧ ∀ a, a ∈ D' ↔ a ∈ dAddress <$> ds ∨ a ∈ D.
Proof.
  intros Hwf. revert D t. induction ds as [|[a n] ds IH]; intros D t Hp Hnd HD Hbl.
  { exists t, D. split_and!; try done. set_solver. }
  cbn in Hnd, HD, Hbl. apply NoDup_cons in Hnd as [Ha Hnd].
  destruct (progress_step s D t a n Hwf Hp) as (t1 & E1 & Hp1); [apply HD; set_solver|apply Hbl; set_solver|].
  destruct (IH (a :: D) t1 Hp1 Hnd) as (t' & D' & E' & Hp' & HD'); [set_solver..|].
  exists t', D'. cbn. rewrite (bind_eq _ _ _ _ _ E1). split_and!; try done. set_solver.
Qed.

(** The addresses that the journal has as dirty. *)
Definition dirty_addresses (s : CommitStateDB) : list Address := dAddress <$> dirties (csJournal s).

Lemma dirty_firsts s : inv s → dirty_addresses s = firsts (omap dirtied (entries (csJournal s))).
Proof.
  intros [_ [Hd _]]. unfold dirty_addresses. rewrite Hd, <-list_fmap_compose. apply list_fmap_id.
Qed.

Lemma Finalise_ok s : inv s → (∀ a, a ∈ dirty_addresses s → writable s a) →
  ∃ t D, Finalise true s = (Ok tt, t) ∧ progress s D t ∧ (∀ a, a ∈ D ↔ a ∈ dirty_addresses s) ∧
    dirties (csJournal t) = [].
Proof.
  intros Hi Hbl. pose proof (dirty_firsts s Hi) as Hfs.
  destruct (finalise_loop s (dirties (csJournal s)) [] s (inv_wf _ Hi)) as (t & D & Et & [] & HD);
    [by apply progress_start, Hi|fold (dirty_addresses s); rewrite Hfs; apply NoDup_firsts|set_solver|exact Hbl|].
  unfold Finalise. rewrite (bind_eq _ _ s s s) by done. rewrite (bind_eq _ _ _ _ _ Et).
  eexists _, D. split; [done|]. split; [|split; [set_solver|done]]. split; try done. by destruct p_fits0.
Qed.

(** Conversely, where Finalise succeeds the dirty addresses can be written. *)
Lemma update_writable t i a so u t' : at_ t i a so → updateStateObject i t = (Ok u, t') →
  Auth.BlacklistedAddr (aAddress (account so)) = false.
Proof.
  unfold updateStateObject. intros Hi H. apply bind_ok in H as (p & t1 & E1 & H).
  assert (stateObjects t1 = stateObjects t) as Es.
  { unfold GetParams in E1. apply bind_ok in E1 as (x & t0 & [= <- <-] & E1). destruct (params t); by minv. }
  apply bind_ok in H as (so' & t2 & E2 & H). rewrite (object_at_ok t1 i (MkEntry a so)) in E2 by by rewrite Es.
  cbn in E2. injection E2 as <- <-. cbn zeta in H.
  apply bind_ok in H as (? & t3 & E3 & H). apply throw_if_ok in E3 as (_ & _ & ->).
  apply bind_ok in H as (? & t4 & E4 & _). by apply throw_if_ok in E4 as (? & _ & _).
Qed.

Lemma finalise_one_writable t a n so u t' : fits t → obj_of t a = Some so → address so = a → obj_ok (ctx t) so →
  finalise_one true (MkDirty a n) t = (Ok u, t') → dead t so = false → Auth.BlacklistedAddr a = false.
Proof.
  intros Hf Ho Ha Hok Hr Hdead. destruct (obj_at t a so Hf Ho) as (i & Ei & Hi).
  assert (aAddress (account so) = a) as Hacc by (rewrite <-Ha; apply (ok_address _ _ Hok)).
  unfold finalise_one in Hr. rewrite (bind_eq _ _ t t t) in Hr by done. cbn [dAddress] in Hr. rewrite Ei in Hr.
  rewrite (bind_eq _ _ _ _ _ (object_at_ok t i _ Hi)) in Hr. cbn [seObject] in Hr.
  destruct (verdict_ok so t Hf) as (t0 & E0 & Hf0 & p & ->). rewrite (bind_eq _ _ _ _ _ E0), Hdead in Hr.
  change (at_ (set_params p t) i a so) in Hi. apply bind_ok in Hr as (? & t1 & E1 & _).
  rewrite (bind_eq _ _ (set_params p t) (set_params p t) (set_params p t)) in E1 by done.
  destruct (commitState_ok (ctx t) so Hok) as (st & so1 & Ec & (B1 & B2 & B3 & B4) & Hal & Hst).
  unfold lift in E1. cbn [ctx] in E1. change (ctx (set_params p t)) with (ctx t) in E1. rewrite Ec in E1.
  rewrite (bind_eq _ _ _ (st, so1) (set_params p t)) in E1 by done.
  set (v := set_ctx st (set_params p t)) in E1. rewrite (bind_eq _ _ _ tt v) in E1 by done.
  assert (fits v) as Hfv.
  { destruct Hf0 as [? Hp ?]. split; [done|cbn; by rewrite B3|unfold denom_of; cbn; by rewrite B3]. }
  change (at_ v i a so) in Hi.
  destruct (put_at _ i a so so1 Hfv Hi) as (t2 & E2 & _ & _ & Hi2 & _). rewrite (bind_eq _ _ _ _ _ E2) in E1.
  rewrite <-Hacc. destruct Hal as (A1 & _). rewrite <-A1. by eapply update_writable.
Qed.

Lemma finalise_loop_writable s ds D t u t' : wf s → progress s D t → NoDup (dAddress <$> ds) →
  (∀ a, a ∈ dAddress <$> ds → a ∉ D) → mapM_ (finalise_one true) ds t = (Ok u, t') →
  ∀ a, a ∈ dAddress <$> ds → writable s a.
Proof.
  intros Hwf. revert D t. induction ds as [|[a n] ds IH]; intros D t Hp Hnd HD Hr b Hb; [by apply not_elem_of_nil in Hb|].
  cbn in Hnd, HD, Hb, Hr. apply NoDup_cons in Hnd as [Ha Hnd]. apply bind_ok in Hr as (u1 & t1 & E1 & Hr).
  assert (a ∉ D) as HaD by (apply HD; set_solver).
  assert (writable s a) as Hw.
  { intros so Eo Hdead. destruct (p_out _ _ _ Hp a HaD) as (Ho & _ & Hk). destruct (wf_objects _ Hwf a so Eo) as [Hsa Hok].
    apply (finalise_one_writable t a n so u1 t1 (p_fits _ _ _ Hp)); [congruence|done| |done|].
    - eapply obj_ok_local; [apply (p_codes _ _ _ Hp)|by rewrite Hsa|done].
    - unfold dead in *. by rewrite (p_denom _ _ _ Hp). }
  apply elem_of_cons in Hb as [->|Hb]; [done|].
  destruct (progress_step s D t a n Hwf Hp HaD Hw) as (t2 & E2 & Hp2). rewrite E1 in E2. injection E2 as _ <-.
  eapply (IH (a :: D) t1 Hp2 Hnd); [|done..]. intros c Hc [->|Hc']%elem_of_cons; [done|]. apply (HD c); set_solver.
Qed.

Lemma Finalise_writable s u t : inv s → Finalise true s = (Ok u, t) → ∀ a, a ∈ dirty_addresses s → writable s a.
Proof.
  intros Hi Hr. unfold Finalise in Hr. rewrite (bind_eq _ _ s s s) in Hr by done. apply bind_ok in Hr as (u1 & t1 & E1 & _).
  apply (finalise_loop_writable s (dirties (csJournal s)) [] s u1 t1 (inv_wf _ Hi)); [by apply progress_start, Hi| |set_solver|done].
  fold (dirty_addresses s). rewrite (dirty_firsts s Hi). apply NoDup_firsts.
Qed.

(** ** Commit *)

Definition marked (t : CommitStateDB) (a : Address) : Prop := a ∈ stateObjectsDirty t.

Lemma drop_mark a b t : elsewhere b t (set_stateObjectsDirty (stateObjectsDirty t ∖ {[a]}) t).
Proof. apply dirty_elsewhere. Qed.

(** The marks of the others stay. *)
Definition marks_kept (a : Address) (t t' : CommitStateDB) : Prop := ∀ b, b ≠ a → marked t' b ↔ marked t b.

Lemma commit_dead t i a so : fits t → at_ t i a so → aAddress (account so) = a →
  suicided so = true ∨ marked t a ∧ dead t so = true →
  ∃ t', commit_object true i t = (Ok tt, t') ∧ elsewhere a t t' ∧ marks_kept a t t' ∧ slots_kept a t t' ∧
    codes (ctx t') = codes (ctx t) ∧ at_addr t' a = None.
Proof.
  intros Hf Hi Ha Hdead. unfold commit_object. rewrite (bind_eq _ _ t t t) by done.
  rewrite (bind_eq _ _ t (MkEntry a so) t) by (unfold lift; by rewrite Hi). cbn [seObject seAddress]. cbn zeta.
  assert (∃ t0, (if suicided so then mret true
          else if bool_decide (a ∈ stateObjectsDirty t) && true then obj_is_empty so else mret false) t = (Ok true, t0) ∧
          fits t0 ∧ ∃ p, t0 = set_params p t) as (t0 & E0 & Hf0 & p & ->).
  { unfold dead in Hdead. destruct (suicided so); cbn in Hdead.
    - exists t. split_and!; [done..|]. exists (params t). by destruct t.
    - destruct Hdead as [?|[Hm He]]; [done|]. rewrite bool_decide_true by done.
      destruct (empty_fits so t Hf) as (t0 & E0 & ?). rewrite He in E0. by exists t0. }
  rewrite (bind_eq _ _ _ _ _ E0). change (at_ (set_params p t) i a so) in Hi.
  destruct (delete_ok _ i a so Hf0 Hi Ha) as (t1 & E1 & He1 & [Hc1 Hd1] & Hk1 & Hi1 & Hg1).
  rewrite (bind_eq _ _ _ _ _ E1). eexists. split; [done|].
  split; [transitivity (set_params p t); [by apply params_elsewhere|]; transitivity t1; [done|apply drop_mark]|].
  split; [|done]. intros b Hb. unfold marked. cbn. rewrite Hd1. cbn. set_solver.
Qed.

(** The codes once the object is written. *)
Definition with_code (so : stateObject) (m : gmap string string) : gmap string string :=
  match code so with
  | Some c => if dirtyCode so then <[obj_CodeHash so := c]> m else m
  | None => m
  end.

Lemma commit_live t i a so : fits t → at_ t i a so → Coins.IsValid (aCoins (account so)) = true →
  aAddress (account so) = a → Auth.BlacklistedAddr a = false → marked t a → dead t so = false →
  ∃ t', commit_object true i t = (Ok tt, t') ∧ elsewhere a t t' ∧ marks_kept a t t' ∧ slots_kept a t t' ∧
    codes (ctx t') = with_code so (codes (ctx t)) ∧ at_addr t' a = Some (EthAcc (account so)).
Proof.
  intros Hf Hi Hv Ha Hbl Hm Hdead. unfold commit_object. rewrite (bind_eq _ _ t t t) by done.
  rewrite (bind_eq _ _ t (MkEntry a so) t) by (unfold lift; by rewrite Hi). cbn [seObject seAddress]. cbn zeta.
  rewrite bool_decide_true by done. change (true && true) with true. cbn iota.
  destruct (verdict_ok so t Hf) as (t0 & E0 & Hf0 & p & ->). rewrite (bind_eq _ _ _ _ _ E0), Hdead.
  change (at_ (set_params p t) i a so) in Hi.
  assert (∃ t1 so1, (if match code so with Some _ => dirtyCode so | None => false end
      then modify (λ s, set_ctx (obj_commitCode (ctx s) so) s);; put_object i (set_dirtyCode false so)
      else mret tt) (set_params p t) = (Ok tt, t1) ∧ elsewhere a (set_params p t) t1 ∧ slots_kept a (set_params p t) t1 ∧
      codes (ctx t1) = with_code so (codes (ctx t)) ∧ stateObjectsDirty t1 = stateObjectsDirty t ∧
      at_ t1 i a so1 ∧ account so1 = account so) as (t1 & so1 & E1 & He1 & Hk1 & Hc1 & Hd1 & Hi1 & Hacc).
  { unfold with_code. destruct (code so) as [c|] eqn:Ec; [destruct (dirtyCode so)|]; [|by exists (set_params p t), so..].
    set (u := set_ctx (obj_commitCode (ctx (set_params p t)) so) (set_params p t)).
    assert (elsewhere a (set_params p t) u) as Heu by (split; try done; by intros []).
    destruct (put_at u i a so (set_dirtyCode false so) (e_fits _ _ _ Heu Hf0) Hi) as (t1 & E1 & He1 & [Hc1 Hd1] & Hi1 & Ec1).
    exists t1, (set_dirtyCode false so). rewrite (bind_eq _ _ _ tt u) by done. split_and!; try done.
    - by transitivity u.
    - intros k. rewrite Ec1. done.
    - rewrite Hc1. cbn. by rewrite Ec. }
  unfold mbind at 1, M_bind at 1. rewrite (bind_eq _ _ _ _ _ E1).
  destruct (update_ok t1 i a so1 (e_fits _ _ _ He1 Hf0) Hi1) as (t2 & E2 & He2 & [Hc2 Hd2] & Hk2 & Hi2 & Hg2);
    [by rewrite Hacc..|done|]. rewrite E2. eexists. split; [done|].
  split; [transitivity (set_params p t); [by apply params_elsewhere|]; transitivity t1; [done|]; transitivity t2; [done|apply drop_mark]|].
  split; [|split; [|split]].
  - intros b Hb. unfold marked. cbn. rewrite Hd2, Hd1. set_solver.
  - intros k. cbn. rewrite Hk2, Hk1. done.
  - cbn. by rewrite Hc2, Hc1.
  - unfold at_addr. cbn. by rewrite Hg2, Hacc.
Qed.

Lemma commit_clean t i a so : at_ t i a so → suicided so = false → ¬ marked t a →
  ∃ t', commit_object true i t = (Ok tt, t') ∧ elsewhere a t t' ∧ marks_kept a t t' ∧ slots_kept a t t' ∧
    codes (ctx t') = codes (ctx t) ∧ at_addr t' a = at_addr t a.
Proof.
  intros Hi Hs Hm. unfold commit_object. rewrite (bind_eq _ _ t t t) by done.
  rewrite (bind_eq _ _ t (MkEntry a so) t) by (unfold lift; by rewrite Hi). cbn [seObject seAddress]. cbn zeta.
  rewrite Hs, bool_decide_false by done. cbn. eexists. split; [done|]. split; [apply drop_mark|].
  split; [|done]. intros b Hb. unfold marked. cbn. set_solver.
Qed.

(** Codes that have been written: [W] are the writes, [P] the hashes that have been written. *)
Record wrote (W : string → string → Prop) (P : string → Prop) (m m' : gmap string string) : Prop := {
  wr_from h c : m' !! h = Some c → m !! h = Some c ∨ W h c;
  wr_keeps h : is_Some (m !! h) → is_Some (m' !! h);
  wr_done h : P h → ∃ c, m' !! h = Some c ∧ W h c;
}.

Lemma wrote_nothing W m : wrote W (λ _, False) m m.
Proof. split; [tauto|done|done]. Qed.

Lemma wrote_weaken W (P Q : string → Prop) m m' : (∀ h, Q h → P h) → wrote W P m m' → wrote W Q m m'.
Proof. intros HQ []. split; auto. Qed.

Lemma wrote_insert W (P : string → Prop) m m' h c : W h c → wrote W P m m' → wrote W (λ x, P x ∨ x = h) m (<[h := c]> m').
Proof.
  intros Hw [Hf Hk Hd]. split.
  - intros h' c' [[<- <-]|[_ ?]]%lookup_insert_Some; auto.
  - intros h' Hh'. rewrite lookup_insert_is_Some'. auto.
  - intros h' Hh'. destruct (decide (h' = h)) as [->|Hne]; [exists c; by rewrite lookup_insert_eq|].
    rewrite lookup_insert_ne by done. apply Hd. tauto.
Qed.

Section commit.
Context (s s1 : CommitStateDB) (D : list Address).
Hypothesis Hwf : wf s.
Hypothesis Hp : progress s D s1.
Hypothesis Hbl : ∀ a, a ∈ D → writable s a.
Hypothesis Hclean : ∀ a so, a ∉ D → obj_of s a = Some so → suicided so = false.

(** The codes that are written: those of the dirty objects that stay. *)
Definition writes (h c : string) : Prop :=
  ∃ a so, a ∈ D ∧ obj_of s a = Some so ∧ dead s so = false ∧ code so = Some c ∧ obj_CodeHash so = h.

(** The objects before position [n] have been committed. *)
Record committed (n : nat) (t : CommitStateDB) : Prop := {
  c_fits : fits t;
  c_denom : denom_of t = denom_of s;
  c_obj i a so : (n ≤ i)%nat → at_ s1 i a so → at_ t i a so;
  c_marks i a so : (n ≤ i)%nat → at_ s1 i a so → marked t a ↔ marked s1 a;
  c_acc a : at_addr t a = at_addr s1 a;
  c_slots a : slots_kept a s1 t;
  c_codes : wrote writes (λ h, ∃ i a so1 so c, (i < n)%nat ∧ at_ s1 i a so1 ∧ a ∈ D ∧ obj_of s a = Some so ∧ dead s so = false ∧
              code so = Some c ∧ obj_CodeHash so = h) (codes (ctx s)) (codes (ctx t));
}.

(** Positions of different objects. *)
Lemma at_ne t i j a b so so' : fits t → at_ t i a so → at_ t j b so' → i ≠ j → b ≠ a.
Proof.
  intros [Ht _ _] Hi Hj Hij ->. apply Hij. eapply (indexed_inj seAddress); [exact Ht|exact Hi|exact Hj|done].
Qed.

Lemma elsewhere_at t t' i j a b so so' : fits t → elsewhere a t t' → at_ t i a so → at_ t j b so' → i ≠ j → at_ t' j b so'.
Proof.
  intros Hf He Hi Hj Hij. pose proof (at_ne t i j a b so so' Hf Hi Hj Hij) as Hb.
  pose proof (at_obj _ _ _ _ Hf Hj) as Ho. rewrite <-(e_obj _ _ _ He b Hb) in Ho.
  destruct (obj_at t' b so' (e_fits _ _ _ He Hf) Ho) as (j' & Ej' & Hj'). rewrite (e_index _ _ _ He) in Ej'.
  destruct Hf as [Ht _ _]. assert (addressToObjectIndex t !! b = Some j) as Ej by (apply Ht; by exists (MkEntry b so')).
  by rewrite Ej in Ej'; simplify_eq.
Qed.

(** A step that leaves the account and the slots of its address. *)
Lemma committed_step n t t' a so1 : committed n t → at_ s1 n a so1 → elsewhere a t t' → marks_kept a t t' → slots_kept a t t' →
  at_addr t' a = at_addr s1 a →
  wrote writes (λ h, (∃ i a so1 so c, (i < n)%nat ∧ at_ s1 i a so1 ∧ a ∈ D ∧ obj_of s a = Some so ∧ dead s so = false ∧
     code so = Some c ∧ obj_CodeHash so = h) ∨
     ∃ so c, a ∈ D ∧ obj_of s a = Some so ∧ dead s so = false ∧ code so = Some c ∧ obj_CodeHash so = h) (codes (ctx s)) (codes (ctx t')) →
  committed (S n) t'.
Proof.
  intros [Hf Hden Hobj Hmarks Hacc Hsl _] Hn He Hm Hk Hg Hw. pose proof (p_fits _ _ _ Hp) as Hf1.
  pose proof (Hobj n a so1 ltac:(lia) Hn) as Htn. split.
  - by apply (e_fits _ _ _ He).
  - by rewrite (e_denom _ _ _ He).
  - intros i b so Hi Hb. eapply elsewhere_at; [exact Hf|exact He|exact Htn|apply Hobj; [lia|done]|lia].
  - intros i b so Hi Hb. etrans; [apply Hm|apply (Hmarks i b so); [lia|done]]. eapply at_ne; [exact Hf1|exact Hn|exact Hb|lia].
  - intros b. destruct (decide (b = a)) as [->|Hb]; [done|]. rewrite <-Hacc. by apply (e_acc _ _ _ He).
  - intros b k. rewrite <-(Hsl b k). destruct (decide (b = a)) as [->|Hb]; [apply Hk|]. by apply (e_slot _ _ _ He).
  - eapply wrote_weaken; [|exact Hw]. intros h (i & b & x & so & c & Hi & Hx & Hb & Hso & Hd & Hc & Hh).
    destruct (decide (i = n)) as [->|Hne].
    + right. unfold at_ in Hx, Hn. rewrite Hn in Hx. injection Hx as <- <-. by exists so, c.
    + left. exists i, b, x, so, c. split_and!; try done. lia.
Qed.

Lemma commit_step n t a so1 : committed n t → at_ s1 n a so1 → ∃ t', commit_object true n t = (Ok tt, t') ∧ committed (S n) t'.
Proof.
  intros Hc Hn. pose proof Hc as [Hf Hden Hobj Hmarks Hacc Hsl Hcd]. pose proof (p_fits _ _ _ Hp) as Hf1.
  pose proof (Hobj n a so1 ltac:(lia) Hn) as Htn. pose proof (Hmarks n a so1 ltac:(lia) Hn) as Hmk.
  pose proof (p_dirty _ _ _ Hp a) as Hmd. pose proof (at_obj _ _ _ _ Hf1 Hn) as Ho1.
  destruct (obj_of s a) as [so|] eqn:Eo; [|destruct (p_none _ _ _ Hp a Eo) as (? & _); congruence].
  destruct (wf_objects _ Hwf a so Eo) as [Hsa Hok].
  assert (aAddress (account so) = a) as Haa by (rewrite <-Hsa; apply (ok_address _ _ Hok)).
  destruct (decide (a ∈ D)) as [HaD|HaD].
  - assert (marked t a) as Hm by (apply Hmk, Hmd; eauto). pose proof (p_in _ _ _ Hp a so HaD Eo) as Hfin. unfold finalised in Hfin.
    destruct (dead s so) eqn:Ed.
    + destruct Hfin as (Ho & Hg & _). rewrite Ho in Ho1. injection Ho1 as <-.
      destruct (commit_dead t n a _ Hf Htn Haa) as (t' & Et & He & Hmk' & Hk & Hcd' & Hg').
      { right. split; [done|]. unfold dead in *. by rewrite Hden. }
      exists t'. split; [done|]. eapply committed_step; try done; [congruence|]. rewrite Hcd'.
      eapply wrote_weaken; [|exact Hcd]. intros h [?|(x & c & _ & Hx & Hdx & _)]; [done|]. congruence.
    + destruct Hfin as (so' & Ho & (A1 & A2 & A3 & A4 & A5 & A6) & Hg & _). rewrite Ho in Ho1. injection Ho1 as <-.
      destruct (commit_live t n a so' Hf Htn) as (t' & Et & He & Hmk' & Hk & Hcd' & Hg');
        [rewrite A1; apply (ok_coins _ _ Hok)|by rewrite A1|by apply (Hbl a HaD so)|done| |].
      { unfold dead, obj_empty in *. by rewrite Hden, A1, A4. }
      exists t'. split; [done|]. eapply committed_step; try done; [congruence|]. rewrite Hcd'. unfold with_code.
      rewrite A2, A3. assert (obj_CodeHash so' = obj_CodeHash so) as -> by (unfold obj_CodeHash; by rewrite A1).
      destruct (code so) as [c|] eqn:Ec.
      * rewrite (ok_dirtyCode _ _ Hok) by by rewrite Ec. eapply wrote_weaken; [|apply wrote_insert; [|exact Hcd]].
        -- intros h [?|(x & c' & _ & Hx & _ & _ & <-)]; [by left|]. right. congruence.
        -- by exists a, so.
      * eapply wrote_weaken; [|exact Hcd]. intros h [?|(x & c & _ & Hx & _ & Hc' & _)]; [done|]. congruence.
  - destruct (p_out _ _ _ Hp a HaD) as (Ho & Hg & _). rewrite Ho, Eo in Ho1. injection Ho1 as <-.
    destruct (commit_clean t n a so Htn (Hclean a so HaD Eo)) as (t' & Et & He & Hmk' & Hk & Hcd' & Hg').
    { rewrite Hmk. unfold marked. rewrite Hmd. tauto. }
    exists t'. split; [done|]. eapply committed_step; try done; [congruence|]. rewrite Hcd'.
    eapply wrote_weaken; [|exact Hcd]. intros h [?|(x & c & ? & _)]; done.
Qed.

Lemma commit_loop m n t : committed n t → (n + m = length (stateObjects s1))%nat →
  ∃ t', mapM_ (commit_object true) (seq n m) t = (Ok tt, t') ∧ committed (n + m) t'.
Proof.
  revert n t. induction m as [|m IH]; intros n t Hc Hlen; [exists t; split; [done|by rewrite Nat.add_0_r]|].
  destruct (lookup_lt_is_Some_2 (stateObjects s1) n) as [[a so1] Hn]; [lia|].
  destruct (commit_step n t a so1 Hc Hn) as (t1 & E1 & Hc1). destruct (IH (S n) t1 Hc1) as (t' & E' & Hc'); [lia|].
  exists t'. cbn. rewrite (bind_eq _ _ _ _ _ E1). by rewrite Nat.add_succ_r.
Qed.

Lemma finalised_there a so : a ∈ D → obj_of s a = Some so → ∃ so1, obj_of s1 a = Some so1.
Proof.
  intros HaD Hso. pose proof (p_in _ _ _ Hp a so HaD Hso) as Hfin. unfold finalised in Hfin. destruct (dead s so).
  - destruct Hfin as (? & _). eauto.
  - destruct Hfin as (? & ? & _). eauto.
Qed.

Lemma Commit_ok : dirties (csJournal s1) = [] →
  ∃ t, Commit true s1 = (Ok tt, t) ∧ denom_of t = denom_of s ∧ (∀ a, at_addr t a = at_addr s1 a) ∧
    (∀ a, slots_kept a s1 t) ∧
    wrote writes (λ h, ∃ a so c, a ∈ D ∧ obj_of s a = Some so ∧ dead s so = false ∧ code so = Some c ∧ obj_CodeHash so = h)
      (codes (ctx s)) (codes (ctx t)).
Proof.
  intros Hj. set (u := set_stateObjectsDirty (stateObjectsDirty s1 ∪ list_to_set (dAddress <$> dirties (csJournal s1))) s1).
  pose proof (p_fits _ _ _ Hp) as Hf1.
  assert (committed 0 u) as H0.
  { split; try done.
    - by destruct Hf1.
    - by apply (p_denom _ _ _ Hp).
    - intros i a so _ _. unfold marked, u. cbn. rewrite Hj. set_solver.
    - cbn. rewrite (p_codes _ _ _ Hp). eapply wrote_weaken; [|apply wrote_nothing]. intros h (i & ? & ? & ? & ? & ? & _). lia. }
  destruct (commit_loop (length (stateObjects s1)) 0 u H0) as (t & Et & [Hf Hden _ _ Hacc Hsl Hcd]); [done|].
  exists (snd (clearJournalAndRefund t)). split.
  { unfold Commit, deferred. rewrite (bind_eq _ _ s1 s1 s1) by done. rewrite (bind_eq _ _ s1 tt u) by done. by rewrite Et. }
  split_and!; [done..|]. eapply wrote_weaken; [|exact Hcd]. intros h (a & so & c & HaD & Hso & Hd & Hc & Hh).
  destruct (finalised_there a so HaD Hso) as [so1 Hso1].
  destruct (obj_at s1 a so1 Hf1 Hso1) as (i & _ & Hi). exists i, a, so1, so, c. split_and!; try done.
  by eapply lookup_lt_Some.
Qed.

End commit.

(** ** What a new database shows *)

(** The codes that are shown. *)
Definition codes_in (s : CommitStateDB) (c : string) : Prop :=
  c = "" ∨ ∃ a v, vacc s a ≡ Ok (Some v) ∧ v_code v = Some c.

(** Their hashes are different. *)
Definition no_collision (s : CommitStateDB) : Prop :=
  ∀ c d, codes_in s c → codes_in s d → Keccak256Hash c = Keccak256Hash d → c = d.

(** Whether writing back removes the account. *)
Definition removed (s : CommitStateDB) (a : Address) : bool :=
  match obj_of s a with
  | Some so => bool_decide (a ∈ dirty_addresses s) && dead s so
  | None => false
  end.

Lemma vacc_coded s a v : wf s → vacc s a ≡ Ok (Some v) → coded (v_acc v) (v_code v).
Proof.
  intros Hwf Hv. pose proof (getStateObject_ok s a Hwf) as Hg. destruct (vacc s a) as [[w|]| |]; [|done..].
  destruct Hg as (so & s' & _ & Hwf' & _ & _ & Hl & Ho & _). destruct (live_ok _ _ _ Hwf' Hl) as (Hok & _).
  assert (ov (ctx s') so ≡ v) as (E1 & E2 & _) by (by transitivity w). rewrite <-E1, <-E2. apply (ok_coded _ _ Hok).
Qed.

Lemma coded_kept st so : code so = None → coded (account so) (fst (obj_Code st so)) → code_kept st (account so).
Proof.
  intros Hn Hc. pose proof (fst_obj_Code st so _ Hc) as Ey. unfold coded in Hc. destruct (fst (obj_Code st so)) as [c|]; cbn in Hc, Ey.
  2: { right. by left. }
  right. right. exists c. split; [done|]. rewrite Hn in Ey. unfold code_shown in Ey. cbn in Ey.
  by destruct (String.eqb _ _).
Qed.

(** The codes after writing back. *)
Lemma writes_ok s D h c : wf s → writes s D h c → h = HashBytes (Keccak256Hash c) ∧ codes_in s c.
Proof.
  intros Hwf (a & so & _ & Ho & _ & Hc & <-). destruct (wf_objects _ Hwf a so Ho) as [Ha Hok].
  destruct (ok_hash _ _ Hok) as [h Hh]. rewrite (CodeHash_ok so h Hh). pose proof (ok_coded _ _ Hok) as Hcd. unfold coded in Hcd.
  rewrite Hh in Hcd. injection Hcd as ->. destruct c as [|x c].
  - split; [|by left]. pose proof (ok_code _ _ Hok "" Hc) as Hl. cbn in Hl. do 2 f_equal.
    by destruct (default "" (fst (obj_Code (ctx s) so))).
  - assert (fst (obj_Code (ctx s) so) = Some (String x c)) as Es by (unfold obj_Code; by rewrite Hc).
    rewrite Es. split; [done|]. right. exists a, (ov (ctx s) so). split; [|done].
    by rewrite (live_vacc s a so (conj Ho (wf_deleted _ Hwf a so Ho))).
Qed.

Lemma code_after s t D P v h : wf s → no_collision s → wrote (writes s D) P (codes (ctx s)) (codes (ctx t)) →
  (∀ c, v_code v = Some c → codes_in s c) → aCodeHash (v_acc v) = Some (HashBytes h) → coded (v_acc v) (v_code v) →
  v_code v = code_shown (ctx s) h None ∨ (P (HashBytes h) ∧ nonempty (v_code v) = true) →
  code_shown (ctx t) h None = v_code v.
Proof.
  intros Hwf Hnc Hw Hin Hh Hcd Hor. unfold coded in Hcd. rewrite Hh in Hcd. injection Hcd as Eh%HashBytes_inj.
  assert (∀ c, writes s D (HashBytes h) c → v_code v = Some (default "" (v_code v)) → v_code v = Some c) as Hwrites.
  { intros c Hc Hv. destruct (writes_ok s D _ c Hwf Hc) as [Ec%HashBytes_inj Hic]. rewrite Hv. f_equal.
    apply Hnc; [by apply Hin|done|congruence]. }
  unfold code_shown in *. cbn in *. destruct (String.eqb_spec (HashBytes h) emptyCodeHash) as [He|He].
  - destruct Hor as [->|[_ Hn]]; [done|]. destruct (v_code v) as [c|] eqn:Ec; [|done]. cbn in Eh. unfold emptyCodeHash in He.
    apply HashBytes_inj in He. assert (c = "") as ->; [|done]. apply Hnc; [by apply Hin|by left|congruence].
  - assert (v_code v = Some (default "" (v_code v))) as Hs.
    { destruct (v_code v) eqn:Ec; [done|]. exfalso. apply He. cbn in Eh. by rewrite Eh. }
    destruct Hor as [Hv|[HP _]].
    + destruct (wr_keeps _ _ _ _ Hw (HashBytes h)) as [c Hc]; [rewrite <-Hv, Hs; by eexists|].
      rewrite Hc. destruct (wr_from _ _ _ _ Hw _ _ Hc) as [Hold|Hnew]; [congruence|]. symmetry. by apply Hwrites.
    + destruct (wr_done _ _ _ _ Hw _ HP) as (c & Hc & Hnew). rewrite Hc. symmetry. by apply Hwrites.
Qed.

(** The object that is loaded for an account with a code hash. *)
Lemma fresh_view st acc h : aCodeHash acc = Some (HashBytes h) →
  ∃ so, newStateObject (EthAcc acc) = Ok so ∧ account so = acc ∧ code so = None ∧
    ov st so ≡ MkView acc (code_shown st h None) false (stored st (aAddress acc)).
Proof.
  intros Hh. unfold newStateObject. rewrite Hh. eexists. split; [done|]. split; [done|]. split; [done|].
  split; [done|]. split; [by apply (fst_obj_Code st (MkObject None [] [] None acc ∅ ∅ (aAddress acc) false false false))|]. split; [done|]. intros k. change (obj_state st (MkObject None [] [] None acc ∅ ∅ (aAddress acc) false false false) k = stored st (aAddress acc) k).
  unfold obj_state. cbn [keyToDirtyStorageIndex]. by rewrite lookup_empty.
Qed.

Lemma view_shown s a v : vacc s a ≡ Ok (Some v) → ∀ c, v_code v = Some c → codes_in s c.
Proof. intros Hv c Hc. right. by exists a, v. Qed.

(** An object that stays is shown again. *)
Lemma written_view s t D P a so : wf s → no_collision s → wrote (writes s D) P (codes (ctx s)) (codes (ctx t)) →
  obj_of s a = Some so → suicided so = false → (∀ c, code so = Some c → P (obj_CodeHash so)) →
  at_addr t a = Some (EthAcc (account so)) → (∀ k, stored (ctx t) a k = obj_state (ctx s) so k) →
  kept_view (ctx t) a ≡ vacc s a.
Proof.
  intros Hwf Hnc Hw Ho Hsu HP Hg Hst. destruct (wf_objects _ Hwf a so Ho) as [Ha Hok].
  destruct (ok_hash _ _ Hok) as [h Hh]. destruct (fresh_view (ctx t) (account so) h Hh) as (x & Ex & _ & _ & Hx).
  pose proof (live_vacc s a so (conj Ho (wf_deleted _ Hwf a so Ho))) as Hv.
  unfold kept_view. unfold at_addr in Hg. rewrite Hg, Hv. cbn -[newStateObject]. rewrite Ex. cbn.
  change (ov (ctx t) x ≡ ov (ctx s) so). etrans; [exact Hx|].
  split; [done|]. split; [|split; [done|]].
  - apply (code_after s t D P (ov (ctx s) so) h); try done; [|apply (ok_coded _ _ Hok)|].
    + apply (view_shown s a). by rewrite Hv.
    + cbn. rewrite (fst_obj_Code (ctx s) so h Hh). destruct (nonempty (code so)) eqn:En.
      * right. unfold code_shown. rewrite En. split; [|done]. destruct (code so) as [c|] eqn:Ec; [|done].
        rewrite <-(CodeHash_ok so h Hh). by apply (HP c).
      * left. unfold code_shown. by rewrite En.
  - intros k. cbn. rewrite (ok_address _ _ Hok), Ha. apply Hst.
Qed.

(** An account that is not written is shown again. *)
Lemma kept_view_again s t D P a : wf s → no_collision s → wrote (writes s D) P (codes (ctx s)) (codes (ctx t)) →
  vacc s a ≡ kept_view (ctx s) a → at_addr t a = at_addr s a → slots_kept a s t →
  kept_view (ctx t) a ≡ vacc s a.
Proof.
  intros Hwf Hnc Hw Hv Hg Hk. transitivity (kept_view (ctx s) a); [|by symmetry].
  unfold kept_view, at_addr in *. rewrite Hg. destruct (Auth.GetAccount (accounts (ctx s)) a) as [acc|] eqn:Eg; [|done].
  pose proof (kept_fresh s a acc Hwf Eg) as Hf. destruct acc as [acc|]; [|done]. destruct Hf as (so & Eso & Hok & Ha & Hd).
  rewrite Eso in Hv |- *. cbn in Hv |- *. change (ov (ctx t) so ≡ ov (ctx s) so). change (vacc s a ≡ Ok (Some (ov (ctx s) so))) in Hv.
  assert (code so = None ∧ suicided so = false ∧ keyToDirtyStorageIndex so = ∅) as (Hc & Hsu & Hdi)
    by (unfold newStateObject in Eso; by simplify_eq).
  destruct (ok_hash _ _ Hok) as [h Hh]. split; [done|]. split; [|split; [done|]].
  - cbn. rewrite (fst_obj_Code (ctx t) so h Hh), Hc.
    apply (code_after s t D P (ov (ctx s) so) h); try done; [by apply (view_shown s a)|apply (ok_coded _ _ Hok)|].
    left. cbn. by rewrite (fst_obj_Code (ctx s) so h Hh), Hc.
  - intros k. cbn. unfold obj_state. rewrite Hdi, lookup_empty, Ha. apply Hk.
Qed.

(** The stores are again those that the module writes. *)
Lemma store_ok_again s t : wf s → denom_of t = denom_of s →
  (∀ a, kept_view (ctx t) a ≡ if removed s a then Ok None else vacc s a) → store_ok (ctx t).
Proof.
  intros Hwf Hd Hv. split; [|change (Coins.ValidDenom (denom_of t) = true); rewrite Hd; apply (wf_denom _ Hwf)].
  intros a acc Hg. specialize (Hv a). unfold kept_view in Hv. rewrite Hg in Hv.
  destruct (aCodeHash acc) as [b|] eqn:Eb; [|by left].
  assert (∃ so, newStateObject (EthAcc acc) = Ok so ∧ account so = acc ∧ code so = None) as (so & Eso & Ea & Ec)
    by (unfold newStateObject; rewrite Eb; by eexists).
  rewrite Eso in Hv. cbn in Hv. rewrite <-Ea. apply (coded_kept _ so Ec).
  apply (vacc_coded s a (ov (ctx t) so) Hwf). destruct (removed s a); [done|]. by symmetry.
Qed.

(** Writing back never fails, and a new database shows what was shown.  An account that the
    database cannot show, because it is of another type, stays as it is. *)
Lemma write_back s : inv s → no_collision s → (∀ a, a ∈ dirty_addresses s → writable s a) →
  (∀ a, a ∉ dirty_addresses s → vacc s a ≡ kept_view (ctx s) a) →
  ∃ t, (Finalise true;; Commit true) s = (Ok tt, t) ∧ store_ok (ctx t) ∧ denom_of t = denom_of s ∧
    (∀ a, kept_view (ctx t) a ≡ if removed s a then Ok None else vacc s a) ∧
    ∀ a, obj_of s a = None → at_addr t a = at_addr s a.
Proof.
  intros Hi Hnc Hbl Hclean. pose proof (inv_wf _ Hi) as Hwf.
  destruct (Finalise_ok s Hi Hbl) as (s1 & D & E1 & Hp & HD & Hj).
  assert (∀ a so, a ∉ D → obj_of s a = Some so → suicided so = false) as Hsu.
  { intros a so Ha Ho. rewrite HD in Ha. specialize (Hclean a Ha). unfold kept_view in Hclean.
    rewrite (live_vacc s a so (conj Ho (wf_deleted _ Hwf a so Ho))) in Hclean.
    destruct (Auth.GetAccount _ a) as [[]|]; try done. by destruct Hclean as (_ & _ & ? & _). }
  destruct (Commit_ok s s1 D Hwf Hp) as (t & E2 & Hden & Hacc & Hsl & Hw); [intros a Ha; by apply Hbl, HD|done|done|].
  assert (∀ a, kept_view (ctx t) a ≡ if removed s a then Ok None else vacc s a) as Hview.
  { intros a. unfold removed. destruct (obj_of s a) as [so|] eqn:Eo.
    - destruct (decide (a ∈ dirty_addresses s)) as [Ha|Ha].
      + rewrite bool_decide_true by done. cbn. pose proof (p_in _ _ _ Hp a so (proj2 (HD a) Ha) Eo) as Hfin. unfold finalised in Hfin.
        destruct (dead s so) eqn:Ed.
        * destruct Hfin as (_ & Hg & _). rewrite <-Hacc in Hg. unfold kept_view, at_addr in *. by rewrite Hg.
        * destruct Hfin as (so' & _ & _ & Hg & Hst). eapply written_view; try done.
          -- unfold dead in Ed. by apply orb_false_iff in Ed as [-> _].
          -- intros c Hc. exists a, so, c. split_and!; try done. by apply HD.
          -- by rewrite Hacc.
          -- intros k. by rewrite Hsl.
      + rewrite bool_decide_false by done. cbn. destruct (p_out _ _ _ Hp a) as (_ & Hg & Hk); [by rewrite HD|].
        eapply kept_view_again; try done; [by apply Hclean|congruence|]. by transitivity s1.
    - destruct (p_none _ _ _ Hp a Eo) as (_ & Hg & Hk).
      eapply kept_view_again; try done; [|by rewrite Hacc|by transitivity s1].
      unfold vacc. rewrite Eo. apply acct_equiv_refl. intros e He. pose proof (vacc_no_err s a e) as Hn. unfold vacc in Hn. by rewrite Eo in Hn. }
  exists t. split; [by rewrite (bind_eq _ _ _ _ _ E1)|]. split; [by eapply store_ok_again|].
  split_and!; [done..|]. intros a Ha. destruct (p_none _ _ _ Hp a Ha) as (_ & Hg & _). by rewrite Hacc.
Qed.

End spec.
End EvmCommit.
