(* ===== verification/EvmTheorems.v ===== *)
(** * The state database: theorems

    Reverting to a snapshot restores what the database answers, and writing back makes
    a new database answer what the old one did.  The witnesses run on an implementation
    of the interfaces whose hashes are the strings that are hashed. *)

From S2P Require Import Prelude SdkDec SdkCoins CoinFacts GoStd Account EvmErrors Evm EvmSpec EvmRevert EvmSnapshot EvmCommit.

#[local] Open Scope Z_scope.

(** ** An implementation *)

Module EvmImpl.
Import Evm.

(** Hashing is the identity and a hash has one byte more. *)
Definition drop_first (s : string) : string := match s with String _ s => s | EmptyString => EmptyString end.

#[local] Instance eth : Eth := {|
  Hash := string;
  HashBytes h := "#" +:+ h;
  BytesToHash := drop_first;
  zeroHash := "";
  Keccak256Hash := id;
|}.

Definition hash (s : string) : Hash := s.

Lemma eth_laws : EthLaws.
Proof. by split. Qed.

#[local] Existing Instance Dec18.ops.
#[local] Existing Instance CoinsImpl.ops.

#[local] Instance auth : Auth.Ops := AuthImpl.ops emptyCodeHash.

(** A store with one account. *)
Definition params0 : Params := MkParams "okt" true true [].
Definition alice : EthAccount := MkEthAccount "alice" [MkCoin "okt" 100] None 0 3 None.
Definition store0 : Store :=
  MkStore (AuthImpl.MkSt {["alice" := EthAcc alice]} 1) ∅ ∅ ∅ params0.

End EvmImpl.

Module EvmTheorems.
Import Evm EvmSpec EvmRevert EvmSnapshot EvmCommit.

Section theorems.
Context `{DO : Dec.Ops} `{DL : !Dec.Laws} `{CO : !Coins.Ops} `{CL : !Coins.Laws}.
Context `{E : Eth} `{EL : !EthLaws} `{AO : Auth.Ops} `{AL : !Auth.Laws emptyCodeHash}.

Lemma reached_inv st ops s : store_ok st → Forall regular ops →
  mapM_ run_op ops (CreateEmptyCommitStateDB st) = (Ok tt, s) → ∃ stk, snap_inv (CreateEmptyCommitStateDB st) s stk.
Proof.
  intros Hst Hreg Hr. destruct (snap_run_ops (CreateEmptyCommitStateDB st) ops _ tt s [] (-1) s [] Hreg
    (empty_snap_inv st Hst)) as (stk & Hs & _); [done| |done|by exists stk].
  intros pre r t post Heq. by destruct pre.
Qed.

(** A snapshot is new: no valid one has its number. *)
Lemma stands_new base s r stk : snap_inv base s stk → rId r = nextRevisionID s → stands (rId r) s stk ((r, s) :: stk).
Proof.
  intros Hs Hr [|p pre] r' t post Heq Hid; cbn in Heq; [by simplify_eq|]. injection Heq as _ ->. exfalso.
  pose proof (snap_fresh _ _ _ Hs) as Hf. rewrite (snap_revisions _ _ _ Hs), Forall_forall in Hf.
  specialize (Hf r'). rewrite elem_of_reverse in Hf. specialize (Hf ltac:(apply list_elem_of_fmap; exists (r', t); set_solver)). lia.
Qed.

(** C19  Snapshots are transactions, unless the RIPEMD contract is touched: whatever else the
    virtual machine does after a snapshot (balances, nonces, code, slots, logs, refunds,
    preimages, the access list, accounts created and destroyed, nested snapshots and
    reverts), reverting to the snapshot while it is valid succeeds, and every getter answers
    what it answered when the snapshot was taken; the journal, its dirty addresses and the
    valid snapshots are those of then.  Excluded, before and after the snapshot, is adding
    a balance of zero to the address of the RIPEMD contract ([regular]), which leaves a
    dirty address behind when it is reverted and makes a later touch panic
    ([ripemd_touch_panics]). *)
Theorem snapshot_revert st ops0 s id s1 ops s2 :
  store_ok st → Forall regular ops0 → mapM_ run_op ops0 (CreateEmptyCommitStateDB st) = (Ok tt, s) →
  Snapshot s = (Ok id, s1) → Forall regular ops → mapM_ run_op ops s1 = (Ok tt, s2) →
  id ∈ rId <$> validRevisions s2 →
  ∃ s3, RevertToSnapshot id s2 = (Ok tt, s3) ∧ (∀ q, fst (ask q s3) = fst (ask q s)) ∧
    csJournal s3 = csJournal s ∧ validRevisions s3 = validRevisions s.
Proof.
  intros Hst Hreg0 Hr0 Hsnap Hreg Hr Hid. destruct (reached_inv st ops0 s Hst Hreg0 Hr0) as [stk Hs].
  destruct (snap_Snapshot _ s stk Hs) as (s1' & Es & Hs1 & _ & _ & Hn1). rewrite Es in Hsnap. injection Hsnap as <- <-.
  set (r := MkRevision (nextRevisionID s) (jlength (csJournal s))) in *.
  destruct (snap_run_ops _ ops s1' tt s2 ((r, s) :: stk) (nextRevisionID s) s stk Hreg Hs1) as (stk2 & Hs2 & Hst2);
    [lia|by apply (stands_new _ s r stk Hs)|done|].
  destruct (snap_elem _ s2 stk2 _ Hs2 Hid) as (pre & r' & t & post & -> & Hr').
  destruct (Hst2 pre r' t post eq_refl Hr') as [-> ->].
  destruct (snap_Revert _ s2 pre r' s stk Hs2) as (s3 & E3 & Hs3 & Hsame & He & _). rewrite Hr' in E3.
  exists s3. split; [done|]. pose proof (snap_inv_inv _ _ _ Hs) as [Hwf Hj]. pose proof (snap_inv_inv _ _ _ Hs3) as [Hwf3 Hj3].
  split; [|split].
  - intros q. apply ask_same; [done..|]. by symmetry.
  - eapply tracked_unique; [exact Hj3| |done]. unfold jok in Hj. by rewrite He.
  - by rewrite (snap_revisions _ _ _ Hs), (snap_revisions _ _ _ Hs3).
Qed.

(** The committed value of a slot after writing back is its value before. *)
Definition later (q : query) : query := match q with QCommittedState a k => QState a k | q => q end.

Lemma kept_state st a v k : kept_view st a ≡ Ok (Some v) → store_ok st → v_state v k = stored st a k.
Proof.
  intros Hv Hst. unfold kept_view in Hv. destruct (Auth.GetAccount (accounts st) a) as [acc|] eqn:Eg; [|done].
  destruct acc as [acc|]; [|done]. destruct (newStateObject (EthAcc acc)) as [so| |] eqn:Eso; [|done..]. cbn in Hv.
  destruct Hv as (_ & _ & _ & Hk). rewrite <-Hk. cbn. unfold obj_state, newStateObject in *. injection Eso as <-. cbn [keyToDirtyStorageIndex address].
  rewrite lookup_empty. pose proof (Auth.GetAccount_address _ _ _ Eg) as Ha. cbn in Ha. by destruct (aCodeHash acc); cbn; rewrite Ha.
Qed.

Lemma shown_later q s t v w : denom_of t = denom_of s → v ≡ w → (∀ k, v_state v k = stored (ctx t) (default "" (asked q)) k) →
  shown q t (Some v) = shown (later q) s (Some w).
Proof.
  intros Hd Hvw Hk. rewrite <-(shown_equiv (later q) s v w Hvw). destruct q; cbn in *; rewrite ?Hd, ?Hk; done.
Qed.

(** C20  Under four conditions writing back persists what the virtual machine has done.  The
    conditions: nothing touched the RIPEMD contract ([regular]), no dirty address is
    blacklisted, the codes in use have different hashes ([no_collision]), and every account
    that was created over another is dirty.  Then Finalise and Commit succeed, and a new
    database over the stores that they leave answers for every account what the old one
    did, the committed slots being the slots of before; an account that was dirty and
    destroyed itself, or that is dirty and empty, is no longer there.  The stores are
    again such that the next transaction can start from them. *)
Theorem commit_persists st ops s :
  store_ok st → Forall regular ops → mapM_ run_op ops (CreateEmptyCommitStateDB st) = (Ok tt, s) →
  no_collision s → (∀ a, a ∈ dirty_addresses s → Auth.BlacklistedAddr a = false) →
  (∀ prev, resetObjectChange prev ∈ entries (csJournal s) → address prev ∈ dirty_addresses s) →
  ∃ s', (Finalise true;; Commit true) s = (Ok tt, s') ∧ store_ok (ctx s') ∧
    ∀ q a, asked q = Some a →
      fst (ask q (CreateEmptyCommitStateDB (ctx s'))) = if removed s a then Ok (shown q s None) else fst (ask (later q) s).
Proof.
  intros Hst Hreg Hr Hnc Hbl Hres. destruct (reached_inv st ops s Hst Hreg Hr) as [stk Hs].
  pose proof (snap_inv_inv _ _ _ Hs) as Hi. pose proof (inv_wf _ Hi) as Hwf.
  destruct (undoes_clean _ _ _ (linked_base _ _ _ _ (snap_linked _ _ _ Hs))) as [([Hc1 Hc2] & _ & Hg) Hv].
  destruct (write_back s Hi Hnc (λ a Ha so _ _, Hbl a Ha)) as (s' & Es & Hst' & Hden & Hview & _).
  { intros a Ha. symmetry. transitivity (vacc (CreateEmptyCommitStateDB st) a); [|apply Hv].
    - change (vacc (CreateEmptyCommitStateDB st) a) with (kept_view st a). unfold kept_view. rewrite <-Hg. cbn.
      destruct (Auth.GetAccount (accounts st) a) as [[acc|]|]; [|done..].
      apply ov_same. split; by symmetry.
    - rewrite (dirty_firsts s Hi), elem_of_firsts in Ha. intros (e & He & Et)%list_elem_of_omap. apply Ha.
      destruct e; cbn in Et; try discriminate Et; try (apply list_elem_of_omap; by eexists). injection Et as <-.
      rewrite <-elem_of_firsts, <-(dirty_firsts s Hi). by apply Hres. }
  exists s'. split; [done|]. split; [done|]. intros q a Hq. set (t := CreateEmptyCommitStateDB (ctx s')).
  pose proof (snap_inv_inv _ _ _ (empty_snap_inv (ctx s') Hst')) as [Hwt _]. fold t in Hwt.
  pose proof (ask_account q a t Hwt Hq) as Ht. change (vacc t a) with (kept_view (ctx s') a) in Ht.
  assert (asked (later q) = Some a) as Hq' by by destruct q. pose proof (ask_account (later q) a s Hwf Hq') as Hs'.
  specialize (Hview a). destruct (removed s a).
  - by destruct (kept_view (ctx s') a) as [[v|]| |].
  - destruct (kept_view (ctx s') a) as [[v|]| |] eqn:Ek, (vacc s a) as [[w|]| |]; try done; rewrite Ht, Hs'; f_equal; [|by destruct q].
    apply shown_later; [done|done|]. intros k. rewrite Hq. cbn. apply kept_state; [by rewrite Ek|done].
Qed.

End theorems.
(** ** Witnesses *)

#[local] Existing Instance Dec18.ops.
#[local] Existing Instance Dec18.dec_laws.
#[local] Existing Instance CoinsImpl.ops.
#[local] Existing Instance CoinsImpl.coins_laws.
#[local] Existing Instance EvmImpl.eth.
#[local] Existing Instance EvmImpl.eth_laws.
#[local] Existing Instance EvmImpl.auth.
#[local] Instance auth_laws0 : Auth.Laws emptyCodeHash := AuthImpl.auth_laws emptyCodeHash.

Definition fresh0 : CommitStateDB := CreateEmptyCommitStateDB EvmImpl.store0.

Lemma store0_ok : store_ok EvmImpl.store0.
Proof.
  split; [|done]. intros a acc Hg. left. cbn in Hg. unfold AuthImpl.get_account in Hg.
  destruct (AuthImpl.accts _ !! a) as [x|] eqn:Ex; [|done]. cbn in Ex. apply lookup_singleton_Some in Ex as [<- <-].
  destruct (AuthImpl.fit _ _); by simplify_eq.
Qed.

Definition before0 : CommitStateDB := snd (mapM_ run_op [OSetBalance "alice" 7; OSetState "alice" (EvmImpl.hash "k") (EvmImpl.hash "v")] fresh0).
Definition snap0 : CommitStateDB := snd (Snapshot before0).
Definition after0 : CommitStateDB :=
  snd (mapM_ run_op [OSetNonce "alice" 4; OSetState "alice" (EvmImpl.hash "k") (EvmImpl.hash "w"); OCreateAccount "bob"; OSnapshot;
                     OSetBalance "bob" 5; ORevertToSnapshot 1; OSetCode "bob" (Some "code"); OSuicide "alice"] snap0).

Lemma snapshot_revert_witness :
  fst (ask (QBalance "alice") after0) = Ok (ANum 0) ∧ fst (ask (QExist "bob") after0) = Ok (ABool true) ∧
  ∃ s3, RevertToSnapshot 0 after0 = (Ok tt, s3) ∧ (∀ q, fst (ask q s3) = fst (ask q before0)) ∧
    csJournal s3 = csJournal before0 ∧ validRevisions s3 = validRevisions before0.
Proof.
  split; [vm_compute; reflexivity|]. split; [vm_compute; reflexivity|].
  apply (snapshot_revert EvmImpl.store0 [OSetBalance "alice" 7; OSetState "alice" (EvmImpl.hash "k") (EvmImpl.hash "v")] before0 0 snap0
    [OSetNonce "alice" 4; OSetState "alice" (EvmImpl.hash "k") (EvmImpl.hash "w"); OCreateAccount "bob"; OSnapshot;
     OSetBalance "bob" 5; ORevertToSnapshot 1; OSetCode "bob" (Some "code"); OSuicide "alice"] after0).
  - exact store0_ok.
  - repeat constructor.
  - unfold before0. apply run_ok. vm_compute. reflexivity.
  - unfold snap0. apply run_ok. vm_compute. reflexivity.
  - repeat constructor.
  - unfold after0. apply run_ok. vm_compute. reflexivity.
  - vm_compute. left.
Defined.

Definition ops1 : list op :=
  [OCreateAccount "bob"; OSetNonce "bob" 1; OSetCode "bob" (Some "code"); OSetState "bob" (EvmImpl.hash "k") (EvmImpl.hash "v");
   OSubBalance "alice" 40; OAddBalance "bob" 40; OSuicide "alice"].
Definition done1 : CommitStateDB := snd (mapM_ run_op ops1 fresh0).

Lemma ran1 : mapM_ run_op ops1 fresh0 = (Ok tt, done1).
Proof. unfold done1. apply run_ok. vm_compute. reflexivity. Qed.

Lemma no_resets1 prev : resetObjectChange prev ∈ entries (csJournal done1) → address prev ∈ dirty_addresses done1.
Proof.
  intros Hin. exfalso.
  assert (forallb (λ e, match e with resetObjectChange _ => false | _ => true end) (entries (csJournal done1)) = true) as Hall
    by (vm_compute; reflexivity).
  rewrite forallb_forall in Hall. specialize (Hall _ (proj1 (list_elem_of_In _ _) Hin)). discriminate Hall.
Qed.

(** What is asked, and the answer. *)
Definition expected1 : list (query * string * answer) :=
  [(QBalance "bob", "bob", ANum 40); (QCode "bob", "bob", ABytes (Some "code"));
   (QCommittedState "bob" (EvmImpl.hash "k"), "bob", AHash (EvmImpl.hash "v")); (QExist "alice", "alice", ABool false)].

Lemma expected1_ok : Forall (λ '(q, a, r), asked q = Some a ∧
  (if removed done1 a then Ok (shown q done1 None) else fst (ask (later q) done1)) = Ok r) expected1.
Proof. repeat (apply Forall_cons; split; [split; vm_compute; reflexivity|]). apply Forall_nil. exact I. Qed.

Lemma commit_persists_witness :
  ∃ s', (Finalise true;; Commit true) done1 = (Ok tt, s') ∧ store_ok (ctx s') ∧
    Forall (λ '(q, a, r), fst (ask q (CreateEmptyCommitStateDB (ctx s'))) = Ok r) expected1.
Proof.
  destruct (commit_persists EvmImpl.store0 ops1 done1) as (s' & Es & Hst & Hq).
  - exact store0_ok.
  - repeat constructor. discriminate.
  - exact ran1.
  - intros c d _ _ Hcd. exact Hcd.
  - intros a _. reflexivity.
  - exact no_resets1.
  - exists s'. split; [exact Es|]. split; [exact Hst|]. eapply Forall_impl; [exact expected1_ok|].
    intros [[q a] r] [Ha Hr]. rewrite (Hq q a Ha). exact Hr.
Defined.

(** ** What the database does not promise *)

(** The index of the dirty addresses goes stale.  A touch of the precompiled contract
    whose touches survive a revert is counted twice, so reverting leaves it in the slice
    of dirty addresses; removing the address before it moves it, but its index stays, and
    the next touch is out of the range of the slice. *)
Theorem ripemd_touch_panics :
  fst (mapM_ run_op [OSnapshot; OSetNonce "alice" 4; OAddBalance ripemd 0; ORevertToSnapshot 0; OAddBalance ripemd 0] fresh0) = Panic.
Proof. vm_compute. reflexivity. Qed.

(** A store where alice has another token too, and where bob has a token, and no coin of the
    virtual machine. *)
Definition store1 : Store :=
  MkStore (AuthImpl.MkSt {["alice" := EthAcc (MkEthAccount "alice" [MkCoin "abc" 5; MkCoin "okt" 100] None 0 3 None);
                           "bob" := EthAcc (MkEthAccount "bob" [MkCoin "abc" 5] None 1 0 None)]} 2) ∅ ∅ ∅ EvmImpl.params0.

Definition coins_at (a : string) (s : CommitStateDB) : SysCoins := Auth.coins_of (accounts (ctx s)) a.
Definition commits (ops : list op) (st : Store) : CommitStateDB :=
  snd ((mapM_ run_op ops;; Finalise true;; Commit true) (CreateEmptyCommitStateDB st)).

(** Tokens are lost.  Creating a contract at the address of an account carries over
    the balance of the virtual machine's coin, and drops the other coins of the account; a
    transfer of nothing to an account that has never sent a transaction and holds only
    other coins removes the account with its coins. *)
Theorem tokens_lost :
  coins_at "alice" (CreateEmptyCommitStateDB store1) = [MkCoin "abc" 5; MkCoin "okt" 100] ∧
  coins_at "alice" (commits [OCreateAccount "alice"; OSetNonce "alice" 1] store1) = [MkCoin "okt" 100] ∧
  coins_at "bob" (CreateEmptyCommitStateDB store1) = [MkCoin "abc" 5] ∧
  coins_at "bob" (commits [OAddBalance "bob" 0] store1) = [].
Proof. vm_compute. repeat split. Qed.

End EvmTheorems.
