(* ===== verification/EvmMsg.v ===== *)
(** * Transactions of the evm module: src/x/evm/types/{msg,tx_data,utils,params,chain_config,
      genesis,logs}.go, src/app/types/chain_id.go

    The two messages that run the virtual machine, the signature of an Ethereum
    transaction and the sender that is recovered from it, the chain id that is parsed from
    the name of the chain, and what is valid in parameters, chain configuration and
    genesis.

    [Crypto] is what the module uses of go-ethereum's encodings and of secp256k1. *)

From S2P Require Import Prelude SdkDec SdkCoins GoStd Account EvmErrors Evm.

#[local] Open Scope Z_scope.

(** ** math/big and encoding/binary *)

(** big.Int.BitLen, of the absolute value. *)
Definition BitLen (z : Z) : Z := if (z =? 0)%Z then 0 else Z.log2 (Z.abs z) + 1.
(** big.Int.Uint64: the low 64 bits of the absolute value. *)
Definition big_Uint64 (z : Z) : Z := Z.abs z mod 2 ^ 64.
(** big.Int.Bytes and SetBytes: big-endian, without leading zeros. *)
Definition big_Bytes (z : Z) : string := string_rev (le_bytes (Z.to_nat ((BitLen z + 7) / 8)) (Z.abs z)).
Definition SetBytes (s : string) : Z := le_value (string_rev s).

(** ** Chain ids (src/app/types/chain_id.go) *)

Module ChainID.

Definition ErrInvalidValue : error := MkError "okexchain" 2.
Definition ErrInvalidChainID : error := MkError "okexchain" 3.

Definition is_lower (a : Ascii.ascii) : bool :=
  let n := Ascii.nat_of_ascii a in ((97 <=? n) && (n <=? 122))%nat.

(** The longest run of letters and the rest. *)
Fixpoint letters (s : string) : string * string :=
  match s with
  | String a s' => if is_lower a then let '(x, y) := letters s' in (String a x, y) else ("", s)
  | EmptyString => ("", s)
  end.

(** An epoch: a digit that is not 0, then digits; its value. *)
Definition epoch (s : string) : option Z :=
  match s with
  | String a _ => match char_digit a with
                  | Some d => if (d =? 0)%Z then None else all_digits s 0
                  | None => None
                  end
  | EmptyString => None
  end.

(** ethermintChainID: the name and the epoch. *)
Definition ethermintChainID (s : string) : option (string * Z) :=
  let '(name, rest) := letters s in
  match rest with
  | String a e => if Ascii.eqb a (Ascii.ascii_of_nat 45) then n ← epoch e; Some (name, n) else None
  | EmptyString => None
  end.

Definition IsValidChainID (chainID : string) : bool :=
  if (48 <? String.length chainID)%nat then false
  else bool_decide (is_Some (ethermintChainID chainID)).

Definition ParseChainID (chainID : string) : outcome Z :=
  let chainID := TrimSpace chainID in
  if (48 <? String.length chainID)%nat then Err ErrInvalidChainID
  else match ethermintChainID chainID with
  | None => Err ErrInvalidChainID
  | Some (name, n) => if (String.length name =? 0)%nat then Err ErrInvalidChainID else Ok n
  end.
End ChainID.

(** ** go-ethereum *)

(** What is hashed of a transaction. *)
Inductive rlpItem :=
| RUint (n : Z) | RBig (n : Z) | RAddress (a : option string) | RBytes (b : string).

Class Crypto := {
  rlpEncode : list rlpItem → string;
  PrivateKey : Type;
  (* the uncompressed public key of a private key, with the leading 4 *)
  PublicKey : PrivateKey → string;
  (* crypto.Sign: 65 bytes R, S, V *)
  SignHash : string → PrivateKey → option string;
  (* crypto.ValidateSignatureValues with the homestead rules *)
  ValidateSignatureValues : Z → Z → Z → bool;
  Ecrecover : string → string → option string;
  (* common.FromHex and vm.ValidEip *)
  FromHex : string → string;
  ValidEip : Z → bool;
  (* Address.String and HexToAddress *)
  AddressString : string → string;
  HexToAddress : string → string;
}.

(** What go-ethereum documents: a signature has 65 bytes, the last of which is 0 or 1; it is
    valid and the public key is recovered from it. *)
Class CryptoLaws `{E : Eth} `{C : !Crypto} : Prop := {
  (* the hashes that are signed have 32 bytes *)
  SignHash_total h k : is_Some (SignHash (HashBytes h) k);
  SignHash_spec h k sig : SignHash (HashBytes h) k = Some sig →
    ∃ r s v, sig = r +:+ s +:+ String (Ascii.ascii_of_nat v) "" ∧ String.length r = 32%nat ∧ String.length s = 32%nat ∧
      (v = 0 ∨ v = 1)%nat ∧ ValidateSignatureValues (Z.of_nat v) (SetBytes r) (SetBytes s) = true ∧
      Ecrecover (HashBytes h) sig = Some (PublicKey k);
  PublicKey_spec k : ∃ t, PublicKey k = String (Ascii.ascii_of_nat 4) t;
  ValidateSignatureValues_range v r s : ValidateSignatureValues v r s = true → 0 < r < 2 ^ 256 ∧ 0 < s < 2 ^ 256;
  HexToAddress_String a : HexToAddress (AddressString a) = a;
}.

Module EvmMsg.
Import Evm ChainID.

Section msg.
Context `{DO : Dec.Ops} `{CO : !Coins.Ops} `{E : Eth} `{C : !Crypto}.

(** ** Signatures (utils.go) *)

Definition rlpHash (l : list rlpItem) : Hash := Keccak256Hash (rlpEncode l).

(** copy(sig[32-len(r):32], r), and the same for s: both were validated before, so neither has
    more than 32 bytes ([ValidateSignatureValues_range]). *)
Definition pad32 (b : bytes) : outcome bytes :=
  if (32 <? String.length b)%nat then Panic
  else Ok (String.string_of_list_ascii (replicate (32 - String.length b) Ascii.zero) +:+ b).

Definition recoverEthSig (R S Vb : Z) (sigHash : Hash) : outcome Address :=
  if (BitLen Vb >? 8)%Z then Err EvmErr.ErrPlain
  else
    let V := (big_Uint64 Vb - 27) mod 256 in
    if negb (ValidateSignatureValues V R S) then Err EvmErr.ErrPlain
    else
      r ← pad32 (big_Bytes R);
      s ← pad32 (big_Bytes S);
      let sig := r +:+ s +:+ String (Ascii.ascii_of_nat (Z.to_nat V)) "" in
      match Ecrecover (HashBytes sigHash) sig with
      | None => Err EvmErr.ErrPlain
      | Some EmptyString => Err EvmErr.ErrPlain
      | Some (String a pub) =>
          if negb (Ascii.nat_of_ascii a =? 4)%nat then Err EvmErr.ErrPlain
          else Ok (String.substring 12 20 (HashBytes (Keccak256Hash pub)))
      end.

(** ** Messages (msg.go, tx_data.go) *)

Record TxData := MkTxData {
  AccountNonce : Z; Price : Z; GasLimit : Z; Recipient : option Address; TdAmount : Z; Payload : bytes;
  V : Z; R : Z; S : Z
}.

Definition set_sig (v r s : Z) (d : TxData) : TxData :=
  MkTxData (AccountNonce d) (Price d) (GasLimit d) (Recipient d) (TdAmount d) (Payload d) v r s.

(** The signers of go-ethereum that are used, and their Equal. *)
Inductive Signer := EIP155Signer (chainID : Z) | HomesteadSigner.
Definition Signer_Equal (a b : Signer) : bool :=
  match a, b with
  | EIP155Signer c, EIP155Signer c' => (c =? c')%Z
  | HomesteadSigner, HomesteadSigner => true
  | _, _ => false
  end.

Record sigCache := MkSigCache { signer : Signer; from : Address }.

(** The cache of the sender is part of the message; the cache of the size is only read by
    the encoding. *)
Record MsgEthereumTx := MkMsgEthereumTx { tx_Data : TxData; tx_from : option sigCache }.

Record MsgEthermint := MkMsgEthermint {
  em_AccountNonce : Z; em_Price : Z; em_GasLimit : Z; em_Recipient : option AccAddress; em_Amount : Z;
  em_Payload : bytes; em_From : AccAddress
}.

Definition MsgEthermint_ValidateBasic (msg : MsgEthermint) : outcome unit :=
  if (em_Price msg =? 0)%Z then Err ErrInvalidValue
  else if (Z.sgn (em_Price msg) =? -1)%Z then Err ErrInvalidValue
  else if (Z.sgn (em_Amount msg) =? -1)%Z then Err ErrInvalidValue
  else Ok tt.

Definition MsgEthermint_GetSigners (msg : MsgEthermint) : list AccAddress := [em_From msg].
Definition MsgEthermint_To (msg : MsgEthermint) : option Address := em_Recipient msg.

Definition newMsgEthereumTx (nonce : Z) (to : option Address) (amount : option Z) (gasLimit : Z)
    (gasPrice : option Z) (payload : bytes) : MsgEthereumTx :=
  MkMsgEthereumTx (MkTxData nonce (default 0 gasPrice) gasLimit to (default 0 amount) payload 0 0 0) None.

Definition MsgEthereumTx_ValidateBasic (msg : MsgEthereumTx) : outcome unit :=
  if (Price (tx_Data msg) =? 0)%Z then Err ErrInvalidValue
  else if (Z.sgn (Price (tx_Data msg)) =? -1)%Z then Err ErrInvalidValue
  else if (Z.sgn (TdAmount (tx_Data msg)) =? -1)%Z then Err ErrInvalidValue
  else Ok tt.

Definition To (msg : MsgEthereumTx) : option Address := Recipient (tx_Data msg).
Definition GetGas (msg : MsgEthereumTx) : Z := GasLimit (tx_Data msg).
Definition Fee (msg : MsgEthereumTx) : Z := Price (tx_Data msg) * GasLimit (tx_Data msg).
Definition Cost (msg : MsgEthereumTx) : Z := Fee msg + TdAmount (tx_Data msg).

(** From: the cached sender. *)
Definition From (msg : MsgEthereumTx) : option AccAddress :=
  match tx_from msg with
  | None => None
  | Some sc => if (String.length (from sc) =? 0)%nat then None else Some (from sc)
  end.

Definition GetSigners (msg : MsgEthereumTx) : outcome (list AccAddress) :=
  match From msg with None => Panic | Some sender => Ok [sender] end.

Definition tx_fields (d : TxData) : list rlpItem :=
  [RUint (AccountNonce d); RBig (Price d); RUint (GasLimit d); RAddress (Recipient d); RBig (TdAmount d);
   RBytes (Payload d)].
Definition RLPSignBytes (chainID : Z) (msg : MsgEthereumTx) : Hash :=
  rlpHash (tx_fields (tx_Data msg) ++ [RBig chainID; RUint 0; RUint 0]).
Definition HomesteadSignHash (msg : MsgEthereumTx) : Hash := rlpHash (tx_fields (tx_Data msg)).

Definition isProtectedV (V : Z) : bool :=
  if (BitLen V <=? 8)%Z then
    let v := big_Uint64 V in negb (v =? 27)%Z && negb (v =? 28)%Z
  else true.

(** The byte at an index of a slice. *)
Definition byte_at (i : nat) (s : bytes) : Z :=
  match String.get i s with Some a => Z.of_nat (Ascii.nat_of_ascii a) | None => 0 end.

(** Sign; sums of bytes wrap around. *)
Definition Sign (chainID : Z) (priv : PrivateKey) (msg : MsgEthereumTx) : outcome MsgEthereumTx :=
  let txHash := RLPSignBytes chainID msg in
  match SignHash (HashBytes txHash) priv with
  | None => Err EvmErr.ErrPlain
  | Some sig =>
      if negb (String.length sig =? 65)%nat then Err EvmErr.ErrPlain
      else
        let r := SetBytes (String.substring 0 32 sig) in
        let s := SetBytes (String.substring 32 32 sig) in
        let v := if (Z.sgn chainID =? 0)%Z then (byte_at 64 sig + 27) mod 256
                 else (byte_at 64 sig + 35) mod 256 + chainID * 2 in
        Ok (MkMsgEthereumTx (set_sig v r s (tx_Data msg)) (tx_from msg))
  end.

(** VerifySig: the sender, and the message with its cache. *)
Definition VerifySig (chainID : Z) (msg : MsgEthereumTx) : outcome (Address * MsgEthereumTx) :=
  let sg := if isProtectedV (V (tx_Data msg)) then EIP155Signer chainID else HomesteadSigner in
  let fresh :=
    '(v, sigHash) ← (if isProtectedV (V (tx_Data msg)) then
                       if (Z.sgn chainID =? 0)%Z then Err EvmErr.ErrPlain
                       else Ok (V (tx_Data msg) - chainID * 2 - 8, RLPSignBytes chainID msg)
                     else Ok (V (tx_Data msg), HomesteadSignHash msg));
    sender ← recoverEthSig (R (tx_Data msg)) (S (tx_Data msg)) v sigHash;
    Ok (sender, MkMsgEthereumTx (tx_Data msg) (Some (MkSigCache sg sender))) in
  match tx_from msg with
  | Some sc => if Signer_Equal (signer sc) sg then Ok (from sc, msg) else fresh
  | None => fresh
  end.

(** deriveChainID: the subtraction of two uint64 wraps around. *)
Definition deriveChainID (v : Z) : Z :=
  if (BitLen v <=? 64)%Z then
    let v := big_Uint64 v in
    if (v =? 27)%Z || (v =? 28)%Z then 0 else uint64 (v - 35) / 2
  else (v - 35) / 2.
Definition ChainID (msg : MsgEthereumTx) : Z := deriveChainID (V (tx_Data msg)).

(** The address of a public key. *)
Definition PubkeyToAddress (pub : bytes) : Address :=
  String.substring 12 20 (HashBytes (Keccak256Hash (String.substring 1 (String.length pub - 1) pub))).

(** ** Parameters (params.go) *)

Definition validateEIPs (eips : list Z) : outcome unit :=
  if forallb ValidEip eips then Ok tt else Err EvmErr.ErrPlain.
Definition Params_Validate (p : Params) : outcome unit :=
  if Coins.ValidDenom (EvmDenom p) then validateEIPs (ExtraEIPs p) else Err EvmErr.ErrPlain.
(** ethermint.NativeToken is sdk.DefaultBondDenom. *)
Definition DefaultParams : Params := MkParams Coins.DefaultBondDenom false false [].

(** ** The chain configuration (chain_config.go)

    An sdk.Int that was never set holds a nil pointer. *)

Record ChainConfig := MkChainConfig {
  HomesteadBlock : option Z; DAOForkBlock : option Z; DAOForkSupport : bool; EIP150Block : option Z;
  EIP150Hash : string; EIP155Block : option Z; EIP158Block : option Z; ByzantiumBlock : option Z;
  ConstantinopleBlock : option Z; PetersburgBlock : option Z; IstanbulBlock : option Z;
  MuirGlacierBlock : option Z; YoloV2Block : option Z; EWASMBlock : option Z
}.

(** params.ChainConfig of go-ethereum: a block that is nil is never reached. *)
Record EthereumChainConfig := MkEthereumChainConfig {
  ec_ChainID : Z; ec_HomesteadBlock : option Z; ec_DAOForkBlock : option Z; ec_DAOForkSupport : bool;
  ec_EIP150Block : option Z; ec_EIP150Hash : Hash; ec_EIP155Block : option Z; ec_EIP158Block : option Z;
  ec_ByzantiumBlock : option Z; ec_ConstantinopleBlock : option Z; ec_PetersburgBlock : option Z;
  ec_IstanbulBlock : option Z; ec_MuirGlacierBlock : option Z; ec_YoloV2Block : option Z; ec_EWASMBlock : option Z
}.

Definition getBlockValue (block : option Z) : outcome (option Z) :=
  match block with
  | None => Panic
  | Some b => Ok (if (b <? 0)%Z then None else Some b)
  end.

Definition EthereumConfig (chainID : Z) (cc : ChainConfig) : outcome EthereumChainConfig :=
  homestead ← getBlockValue (HomesteadBlock cc);
  dao ← getBlockValue (DAOForkBlock cc);
  eip150 ← getBlockValue (EIP150Block cc);
  eip155 ← getBlockValue (EIP155Block cc);
  eip158 ← getBlockValue (EIP158Block cc);
  byzantium ← getBlockValue (ByzantiumBlock cc);
  constantinople ← getBlockValue (ConstantinopleBlock cc);
  petersburg ← getBlockValue (PetersburgBlock cc);
  istanbul ← getBlockValue (IstanbulBlock cc);
  muir ← getBlockValue (MuirGlacierBlock cc);
  yolo ← getBlockValue (YoloV2Block cc);
  ewasm ← getBlockValue (EWASMBlock cc);
  Ok (MkEthereumChainConfig chainID homestead dao (DAOForkSupport cc) eip150
        (BytesToHash (FromHex (EIP150Hash cc))) eip155 eip158 byzantium constantinople petersburg istanbul
        muir yolo ewasm).

Definition IsIstanbul (cc : ChainConfig) : outcome bool :=
  b ← getBlockValue (IstanbulBlock cc); Ok (bool_decide (is_Some b)).
Definition IsHomestead (cc : ChainConfig) : outcome bool :=
  b ← getBlockValue (HomesteadBlock cc); Ok (bool_decide (is_Some b)).

Definition zeroHashString : string := "0x0000000000000000000000000000000000000000000000000000000000000000".
Definition DefaultChainConfig : ChainConfig :=
  MkChainConfig (Some 0) (Some 0) true (Some 0) zeroHashString (Some 0) (Some 0) (Some 0) (Some 0) (Some 0)
    (Some 0) (Some 0) (Some (-1)) (Some (-1)).

Definition validateHash (hex : string) : outcome unit :=
  if negb (String.length hex =? 0)%nat && (String.length (TrimSpace hex) =? 0)%nat
  then Err EvmErr.ErrInvalidChainConfig
  else
    let lenHex := String.length (FromHex hex) in
    if (0 <? lenHex)%nat && negb (lenHex =? 32)%nat then Err EvmErr.ErrInvalidChainConfig else Ok tt.

Definition validateBlock (block : option Z) : outcome unit :=
  match block with None => Err EvmErr.ErrInvalidChainConfig | Some _ => Ok tt end.

Definition ChainConfig_Validate (cc : ChainConfig) : outcome unit :=
  _ ← validateBlock (HomesteadBlock cc);
  _ ← validateBlock (DAOForkBlock cc);
  _ ← validateBlock (EIP150Block cc);
  _ ← validateHash (EIP150Hash cc);
  _ ← validateBlock (EIP155Block cc);
  _ ← validateBlock (EIP158Block cc);
  _ ← validateBlock (ByzantiumBlock cc);
  _ ← validateBlock (ConstantinopleBlock cc);
  _ ← validateBlock (PetersburgBlock cc);
  _ ← validateBlock (IstanbulBlock cc);
  _ ← validateBlock (MuirGlacierBlock cc);
  _ ← validateBlock (YoloV2Block cc);
  validateBlock (EWASMBlock cc).

(** ** Genesis (genesis.go, logs.go, storage.go) *)

Record TransactionLogs := MkTransactionLogs { tlHash : Hash; tlLogs : list Log }.
Record GenesisAccount := MkGenesisAccount { gAddress : string; gCode : option bytes; gStorage : list State }.
Record GenesisState := MkGenesisState {
  gAccounts : list GenesisAccount; gTxsLogs : list TransactionLogs; gChainConfig : ChainConfig; gParams : Params
}.

(** Checks the elements of a list in order; a key may not come twice. *)
Fixpoint validate_keys {A K} `{EqDecision K} (key : A → K) (dup : error) (check : A → outcome unit)
    (seen : list K) (l : list A) : outcome unit :=
  match l with
  | [] => Ok tt
  | x :: l =>
      if bool_decide (key x ∈ seen) then Err dup
      else _ ← check x; validate_keys key dup check (key x :: seen) l
  end.

Definition State_Validate (s : State) : outcome unit :=
  if bool_decide (Key s = zeroHash) then Err EvmErr.ErrInvalidState else Ok tt.
Definition Storage_Validate (s : list State) : outcome unit :=
  validate_keys Key EvmErr.ErrInvalidState State_Validate [] s.

Definition zeroAddress : Address := String.string_of_list_ascii (replicate 20 Ascii.zero).

Definition GenesisAccount_Validate (ga : GenesisAccount) : outcome unit :=
  if String.eqb (gAddress ga) (AddressString zeroAddress) then Err EvmErr.ErrPlain
  else if (String.length (default "" (gCode ga)) =? 0)%nat then Err EvmErr.ErrPlain
  else Storage_Validate (gStorage ga).

Definition ValidateLog (l : Log) : outcome unit :=
  if String.eqb (lAddress l) zeroAddress then Err EvmErr.ErrPlain
  else if bool_decide (BlockHash l = zeroHash) then Err EvmErr.ErrPlain
  else if (BlockNumber l =? 0)%Z then Err EvmErr.ErrPlain
  else if bool_decide (TxHash l = zeroHash) then Err EvmErr.ErrPlain
  else Ok tt.

Fixpoint validate_logs (h : Hash) (l : list Log) : outcome unit :=
  match l with
  | [] => Ok tt
  | x :: l =>
      _ ← ValidateLog x;
      if bool_decide (TxHash x = h) then validate_logs h l else Err EvmErr.ErrPlain
  end.
Definition TransactionLogs_Validate (tx : TransactionLogs) : outcome unit :=
  if bool_decide (tlHash tx = zeroHash) then Err EvmErr.ErrPlain else validate_logs (tlHash tx) (tlLogs tx).

Definition DefaultGenesisState : GenesisState := MkGenesisState [] [] DefaultChainConfig DefaultParams.

Definition GenesisState_Validate (gs : GenesisState) : outcome unit :=
  _ ← validate_keys gAddress EvmErr.ErrPlain GenesisAccount_Validate [] (gAccounts gs);
  _ ← validate_keys tlHash EvmErr.ErrPlain TransactionLogs_Validate [] (gTxsLogs gs);
  _ ← ChainConfig_Validate (gChainConfig gs);
  Params_Validate (gParams gs).

End msg.
End EvmMsg.
