(* ===== verification/EvmTx.v ===== *)
(** * Running transactions: src/x/evm/{handler,genesis}.go, src/x/evm/keeper and
      src/x/evm/types/state_transition.go

    A message makes a state database over the stores, lets the virtual machine run on it,
    writes it back and returns what was paid for gas that was not used.  [TxState] is the
    state of a message: the database (whose field [ctx] holds the stores), the fields of the
    keeper and the gas meter of the context.  Between messages the state is [EvmState].

    The virtual machine ([VM]) and the gas meter ([Gas.Ops]) are code of go-ethereum and of
    the Cosmos SDK. *)

From S2P Require Import Prelude SdkDec SdkCoins GoStd Account EvmErrors Evm EvmMsg.

#[local] Open Scope Z_scope.

(** ** The gas meter of a context *)

Module Gas.
Class Ops := {
  meter : Type;
  NewGasMeter : Z → meter;
  NewInfiniteGasMeter : meter;
  GasConsumed : meter → Z;
  (* no limit: None *)
  Limit : meter → option Z;
  (* panics when the limit is passed, or the sum has more than 64 bits *)
  ConsumeGas : Z → M meter unit;
}.

Class Laws `{O : Ops} : Prop := {
  NewGasMeter_spec l : GasConsumed (NewGasMeter l) = 0 ∧ Limit (NewGasMeter l) = Some l;
  NewInfinite_spec : GasConsumed NewInfiniteGasMeter = 0 ∧ Limit NewInfiniteGasMeter = None;
  GasConsumed_range m : 0 ≤ GasConsumed m < 2 ^ 64;
  ConsumeGas_ok n m m' : 0 ≤ n → ConsumeGas n m = (Ok tt, m') →
    GasConsumed m' = GasConsumed m + n ∧ Limit m' = Limit m ∧
    ∀ l, Limit m = Some l → GasConsumed m' ≤ l;
  ConsumeGas_runs n m : 0 ≤ n → GasConsumed m + n < 2 ^ 64 →
    (∀ l, Limit m = Some l → GasConsumed m + n ≤ l) → ∃ m', ConsumeGas n m = (Ok tt, m');
}.
End Gas.

(** What a transaction sees of its block and of the node. *)
Record EvmContext := MkEvmContext {
  block : Context;
  ctxChainID : string;
  ProposerAddress : string;
  IsCheckTx : bool;
  IsReCheckTx : bool;
  MinGasPrices : SysCoins;
}.

Module EvmTx.
Import Evm EvmMsg ChainID.

(** ** The virtual machine *)

Section machine.
Context `{DO : Dec.Ops} `{CO : !Coins.Ops} `{E : Eth} `{AO : Auth.Ops} `{C : !Crypto}.

(** What the machine is told (vm.BlockContext, vm.TxContext, vm.Config). *)
Record VmEnv := MkVmEnv {
  env_GetHash : Z → Hash; env_Coinbase : Address; env_BlockNumber : Z; env_Time : Z; env_Difficulty : Z;
  env_GasLimit : Z; env_Origin : Address; env_GasPrice : Z; env_Config : EthereumChainConfig;
  env_ExtraEips : list Z
}.

(** vm.ErrExecutionReverted, or another error of the machine. *)
Inductive vmError := ErrExecutionReverted | ErrOtherVm.

Record VmResult := MkVmResult { vmRet : option bytes; leftOverGas : Z; vmErr : option vmError }.

Class VM := {
  (* caller, code, gas, value *)
  VmCreate : VmEnv → Address → bytes → Z → Z → M CommitStateDB (VmResult * Address);
  (* caller, address, input, gas, value *)
  VmCall : VmEnv → Address → Address → bytes → Z → Z → M CommitStateDB VmResult;
  (* core.IntrinsicGas: data, creation, homestead, EIP 2028; None when the sum has more than 64 bits *)
  IntrinsicGas : bytes → bool → bool → bool → option Z;
  (* ethtypes.LogsBloom: 256 bytes, as a number *)
  LogsBloom : list Log → Z;
  (* Tx.Hash of tendermint *)
  TmHash : bytes → bytes;
  HigherThanMercury : Z → bool;
  (* the gas that the store charges for reading the parameters and the chain configuration *)
  paramsGas : Params → Z;
  configGas : option ChainConfig → Z;
}.
End machine.

(** auth.FeeCollectorName *)
Definition FeeCollectorName : string := "fee_collector".

Section tx.
Context `{DO : Dec.Ops} `{CO : !Coins.Ops} `{E : Eth} `{AO : Auth.Ops} `{C : !Crypto} `{GO : Gas.Ops} `{Vm : !VM}.

(** ** State *)

(** The fields of the keeper that are not in [Store]: the prefixes of its store for block hashes,
    blooms and the chain configuration, and what it keeps in memory during a block.  A bloom
    filter is the number of its 256 bytes; a height is stored as a uint64. *)
Record Keeper := MkKeeper {
  blockHashes : gmap bytes Z; blooms : gmap Z Z; chainConfig : option ChainConfig;
  TxCount : Z; kBloom : Z; Bhash : Hash; LogSize : Z
}.

Definition set_blockHashes (x : gmap bytes Z) (k : Keeper) : Keeper :=
  MkKeeper x (blooms k) (chainConfig k) (TxCount k) (kBloom k) (Bhash k) (LogSize k).
Definition set_blooms (x : gmap Z Z) (k : Keeper) : Keeper :=
  MkKeeper (blockHashes k) x (chainConfig k) (TxCount k) (kBloom k) (Bhash k) (LogSize k).
Definition set_chainConfig (x : option ChainConfig) (k : Keeper) : Keeper :=
  MkKeeper (blockHashes k) (blooms k) x (TxCount k) (kBloom k) (Bhash k) (LogSize k).
Definition set_TxCount (x : Z) (k : Keeper) : Keeper :=
  MkKeeper (blockHashes k) (blooms k) (chainConfig k) x (kBloom k) (Bhash k) (LogSize k).
Definition set_kBloom (x : Z) (k : Keeper) : Keeper :=
  MkKeeper (blockHashes k) (blooms k) (chainConfig k) (TxCount k) x (Bhash k) (LogSize k).
Definition set_Bhash (x : Hash) (k : Keeper) : Keeper :=
  MkKeeper (blockHashes k) (blooms k) (chainConfig k) (TxCount k) (kBloom k) x (LogSize k).
Definition set_LogSize (x : Z) (k : Keeper) : Keeper :=
  MkKeeper (blockHashes k) (blooms k) (chainConfig k) (TxCount k) (kBloom k) (Bhash k) x.

Record EvmState := MkEvmState { evStore : Store; evKeeper : Keeper; evMeter : Gas.meter }.
Definition set_evStore (x : Store) (s : EvmState) : EvmState := MkEvmState x (evKeeper s) (evMeter s).
Definition set_evKeeper (x : Keeper) (s : EvmState) : EvmState := MkEvmState (evStore s) x (evMeter s).
Definition set_evMeter (x : Gas.meter) (s : EvmState) : EvmState := MkEvmState (evStore s) (evKeeper s) x.

Record TxState := MkTxState { tCsdb : CommitStateDB; tKeeper : Keeper; tMeter : Gas.meter }.
Definition set_tCsdb (x : CommitStateDB) (s : TxState) : TxState := MkTxState x (tKeeper s) (tMeter s).
Definition set_tKeeper (x : Keeper) (s : TxState) : TxState := MkTxState (tCsdb s) x (tMeter s).
Definition set_tMeter (x : Gas.meter) (s : TxState) : TxState := MkTxState (tCsdb s) (tKeeper s) x.

Abbreviation MT := (M TxState).

(** On the database, and on the meter of the context. *)
Definition db {A} (m : M CommitStateDB A) : MT A := zoom tCsdb set_tCsdb m.
Definition Consume (n : Z) : MT unit := zoom tMeter set_tMeter (Gas.ConsumeGas n).
Definition Consumed : MT Z := gets (λ s, Gas.GasConsumed (tMeter s)).

(** ** A state transition (state_transition.go) *)

Record StateTransition := MkStateTransition {
  st_AccountNonce : Z; st_Price : Z; st_GasLimit : Z; st_Recipient : option Address; st_Amount : Z;
  st_Payload : bytes; st_ChainID : Z; st_TxHash : option Hash; st_Sender : Address; Simulate : bool;
  CoinDenom : string; GasReturn : Z
}.

Definition set_GasReturn (x : Z) (st : StateTransition) : StateTransition :=
  MkStateTransition (st_AccountNonce st) (st_Price st) (st_GasLimit st) (st_Recipient st) (st_Amount st)
    (st_Payload st) (st_ChainID st) (st_TxHash st) (st_Sender st) (Simulate st) (CoinDenom st) x.

Record GasInfo := MkGasInfo { gi_GasLimit : Z; gi_GasConsumed : Z; gi_GasRefunded : Z }.

Record ResultData := MkResultData {
  rd_ContractAddress : option Address; rd_Bloom : Z; rd_Logs : list Log; rd_Ret : option bytes; rd_TxHash : Hash
}.

(** The result holds the encoding of the data; the log and the events are dropped. *)
Record ExecutionResult := MkExecutionResult {
  ex_Logs : list Log; ex_Bloom : Z; ex_Result : ResultData; ex_GasInfo : GasInfo
}.

(** GetHashFn; the height is a uint64. *)
Definition GetHashFn (c : EvmContext) (csdb : CommitStateDB) (height : Z) : Hash :=
  if (BlockHeight (block c) =? int64 height)%Z then bhash csdb
  else if (BlockHeight (block c) >? int64 height)%Z then
    match fst (GetHeightHash height csdb) with Ok h => h | _ => zeroHash end
  else zeroHash.

Definition newEVM (c : EvmContext) (st : StateTransition) (csdb : CommitStateDB) (gasLimit gasPrice : Z)
    (config : ChainConfig) (extraEIPs : list Z) : outcome VmEnv :=
  ec ← EthereumConfig (st_ChainID st) config;
  Ok (MkVmEnv (GetHashFn c csdb) (ProposerAddress c) (BlockHeight (block c)) (Unix (block c)) 0 gasLimit
        (st_Sender st) gasPrice ec extraEIPs).

(** newRevertError: the message changes, and the error stays one without a code. *)
Definition newRevertError (data : option bytes) (e : vmError) : error := EvmErr.ErrPlain.

(** defer func() { ConsumeGas(gasConsumed) }() *)
Definition consuming {A} (n : Z) (m : MT A) : MT A := λ s,
  let '(r, s) := m s in
  match Consume n s with
  | (Ok _, s) => (r, s)
  | (Err e, s) => (Err e, s)
  | (Panic, s) => (Panic, s)
  end.

(** The part after the run of the machine. *)
Definition after_run (st : StateTransition) (params : Params) (currentNonce gasLimit : Z)
    (r : VmResult) (contractAddress : option Address) : MT ExecutionResult :=
  let gasConsumed := uint64 (gasLimit - leftOverGas r) in
  csdb ← gets tCsdb;
  (* the receiver is a copy: what is assigned to its field is lost on return *)
  let gasReturn := gasConsumed / 2 in
  let gasReturn := if (gasReturn >? refund csdb)%Z then refund csdb else gasReturn in
  let st := set_GasReturn gasReturn st in
  consuming gasConsumed
    (match vmErr r with
     | Some e => throw (newRevertError (vmRet r) e)
     | None =>
         db (SetNonce (st_Sender st) currentNonce);;
         '(logs, bloomInt) ←
           (if bool_decide (is_Some (st_TxHash st)) && negb (Simulate st) then
              logs ← db GetLogs; mret (logs, LogsBloom logs)
            else mret ([], 0));
         (if negb (Simulate st) then db (Finalise true);; db (Commit true) else mret tt);;
         txHash ← lift (or_panic (st_TxHash st));
         mret (MkExecutionResult logs bloomInt
                 (MkResultData contractAddress bloomInt logs (vmRet r) txHash)
                 (MkGasInfo gasLimit gasConsumed (leftOverGas r)))
     end).

(** The switch on the kind of transaction. *)
Definition run_machine (st : StateTransition) (params : Params) (evm : VmEnv) (gasLimit : Z)
    : MT (VmResult * option Address) :=
  match st_Recipient st with
  | None =>
      throw_if (negb (EnableCreate params)) EvmErr.ErrCreateDisabled;;
      '(r, contractAddress) ← db (VmCreate evm (st_Sender st) (st_Payload st) gasLimit (st_Amount st));
      mret (r, Some contractAddress)
  | Some recipient =>
      throw_if (negb (EnableCall params)) EvmErr.ErrCallDisabled;;
      nonce ← db (GetNonce (st_Sender st));
      db (SetNonce (st_Sender st) (uint64 (nonce + 1)));;
      r ← db (VmCall evm (st_Sender st) recipient (st_Payload st) gasLimit (st_Amount st));
      mret (r, None)
  end.

Definition TransitionDb (c : EvmContext) (config : ChainConfig) (st : StateTransition) : MT ExecutionResult :=
  let contractCreation := bool_decide (st_Recipient st = None) in
  homestead ← lift (IsHomestead config);
  istanbul ← lift (IsIstanbul config);
  cost ← or_throw (IntrinsicGas (st_Payload st) contractCreation homestead istanbul) EvmErr.ErrPlain;
  consumedGas ← Consumed;
  gasLimit ←
    (if Simulate st then
       (if (consumedGas <? cost)%Z then Consume (cost - consumedGas) else mret tt);;
       mret (uint64 (st_GasLimit st - cost))
     else mret (uint64 (st_GasLimit st - consumedGas)));
  params ← db GetParams;
  csdb ← gets tCsdb;
  evm ← lift (newEVM c st csdb gasLimit (st_Price st) config (ExtraEIPs params));
  currentNonce ← db (GetNonce (st_Sender st));
  db (SetNonce (st_Sender st) (st_AccountNonce st));;
  '(r, contractAddress) ← run_machine st params evm gasLimit;
  after_run st params currentNonce gasLimit r contractAddress.

(** RefundGas.  The meter is not charged for the transfer. *)
Definition RefundGas (st : StateTransition) : MT unit :=
  consumed ← Consumed;
  let gasRemaining := uint64 (st_GasLimit st - consumed + GasReturn st) in
  let feeReturn := st_Price st * gasRemaining in
  if (feeReturn =? 0)%Z then mret tt
  else
    coin ← lift (or_panic (Coins.NewDecCoinFromDec (CoinDenom st) feeReturn));
    coins ← lift (or_panic (Coins.NewDecCoins [coin]));
    db (zoom ctx set_ctx (zoom accounts set_accounts
      (Auth.SendCoinsFromModuleToAccount FeeCollectorName (st_Sender st) coins))).

(** defer func() { if !st.Simulate { RefundGas } }() *)
Definition refunding {A} (st : StateTransition) (m : MT A) : MT A := λ s,
  let '(r, s) := m s in
  if Simulate st then (r, s)
  else match RefundGas st s with
  | (Ok _, s) => (r, s)
  | (_, s) => (Panic, s)
  end.

(** ** The handlers (handler.go) *)

(** k.GetParams(ctx).EvmDenom *)
Definition kGetEvmDenom : MT string :=
  p ← gets (λ s, paramSpace (ctx (tCsdb s)));
  Consume (paramsGas p);; mret (EvmDenom p).

Definition kGetChainConfig : MT (option ChainConfig) :=
  config ← gets (λ s, chainConfig (tKeeper s));
  Consume (configGas config);; mret config.

(** What both handlers do once they have made the transition, and its deferred refund. *)
Definition execute (c : EvmContext) (st : StateTransition) : MT ResultData :=
  (if negb (Simulate st) then
     txHash ← lift (or_panic (st_TxHash st));
     k ← gets tKeeper;
     db (Prepare txHash (Bhash k) (TxCount k));;
     db (SetLogSize (LogSize k));;
     modify (λ s, set_tKeeper (set_TxCount (int64 (TxCount k + 1)) k) s)
   else mret tt);;
  config ← kGetChainConfig;
  config ← or_throw config EvmErr.ErrChainConfigNotFound;
  executionResult ← TransitionDb c config st;
  (if negb (Simulate st) then
     logSize ← db GetLogSize;
     modify (λ s, set_tKeeper
       (set_LogSize logSize (set_kBloom (Z.lor (kBloom (tKeeper s)) (ex_Bloom executionResult)) (tKeeper s))) s)
   else mret tt);;
  mret (ex_Result executionResult).
Definition run_transition (c : EvmContext) (st : StateTransition) : MT ResultData := refunding st (execute c st).

Definition ethHash (c : EvmContext) : Hash := BytesToHash (TmHash (TxBytes (block c))).

(** A message starts with an empty database over the stores. *)
Definition new_db : MT unit := modify (λ s, set_tCsdb (CreateEmptyCommitStateDB (ctx (tCsdb s))) s).

Definition handleMsgEthereumTx (c : EvmContext) (msg : MsgEthereumTx) : MT ResultData :=
  chainIDEpoch ← lift (ParseChainID (ctxChainID c));
  '(sender, msg) ← lift (VerifySig chainIDEpoch msg);
  new_db;;
  denom ← kGetEvmDenom;
  let d := tx_Data msg in
  run_transition c
    (MkStateTransition (AccountNonce d) (Price d) (GasLimit d) (Recipient d) (TdAmount d) (Payload d)
       chainIDEpoch (Some (ethHash c)) sender (IsCheckTx c) denom 0).

Definition handleMsgEthermint (c : EvmContext) (msg : MsgEthermint) : MT ResultData :=
  chainIDEpoch ← lift (ParseChainID (ctxChainID c));
  new_db;;
  denom ← kGetEvmDenom;
  run_transition c
    (MkStateTransition (em_AccountNonce msg) (em_Price msg) (em_GasLimit msg) (em_Recipient msg) (em_Amount msg)
       (em_Payload msg) chainIDEpoch (Some (ethHash c)) (em_From msg) (IsCheckTx c) denom 0).

Inductive EvmMessage := EthereumTx (m : MsgEthereumTx) | Ethermint (m : MsgEthermint).

(** From the state between messages to the one of a message and back. *)
Definition in_tx {A} (m : MT A) : M EvmState A := λ s,
  let '(r, t) := m (MkTxState (CreateEmptyCommitStateDB (evStore s)) (evKeeper s) (evMeter s)) in
  (r, MkEvmState (ctx (tCsdb t)) (tKeeper t) (tMeter t)).

Definition NewHandler (c : EvmContext) (msg : EvmMessage) : M EvmState ResultData :=
  wrap_err (λ e, if HigherThanMercury (BlockHeight (block c))
                 then MkError EvmErr.ModuleName EvmErr.CodeSpaceEvmCallFailed else e)
    (in_tx (match msg with
            | EthereumTx m => handleMsgEthereumTx c m
            | Ethermint m => handleMsgEthermint c m
            end)).

(** ** The keeper (keeper/keeper.go, statedb.go, keeper_direct.go, params.go) *)

Definition on_keeper {A} (m : M Keeper A) : M EvmState A := zoom evKeeper set_evKeeper m.

(** A database made for one call, which leaves its changes of the stores. *)
Definition on_db {A} (m : M CommitStateDB A) : M EvmState A := λ s,
  let '(r, d) := m (CreateEmptyCommitStateDB (evStore s)) in (r, set_evStore (ctx d) s).

Definition GetBlockHash (hash : bytes) : M EvmState (Z * bool) :=
  gets (λ s, match blockHashes (evKeeper s) !! hash with
             | None => (0, false)
             | Some h => (int64 h, true)
             end).
Definition SetBlockHash (hash : bytes) (height : Z) : M EvmState unit :=
  on_keeper (modify (λ k, set_blockHashes (<[hash := uint64 height]> (blockHashes k)) k)).

Definition kGetHeightHash (height : Z) : M EvmState Hash := on_db (GetHeightHash height).
Definition kSetHeightHash (height : Z) (hash : Hash) : M EvmState unit := on_db (SetHeightHash height hash).

Definition GetBlockBloom (height : Z) : M EvmState Z :=
  gets (λ s, default 0 (blooms (evKeeper s) !! uint64 height)).
Definition SetBlockBloom (height bloom : Z) : M EvmState unit :=
  on_keeper (modify (λ k, set_blooms (<[uint64 height := bloom]> (blooms k)) k)).

Definition collect_state (key value : Hash) (l : list State) : list State * bool := (l ++ [NewState key value], false).
Definition GetAccountStorage (address : Address) : M EvmState (list State) :=
  on_db (ForEachStorage address collect_state []).

Definition GetChainConfig : M EvmState (option ChainConfig) := gets (λ s, chainConfig (evKeeper s)).
Definition SetChainConfig (config : ChainConfig) : M EvmState unit :=
  on_keeper (modify (set_chainConfig (Some config))).

Definition GetParams_ : M EvmState Params := gets (λ s, paramSpace (evStore s)).
Definition SetParams_ (p : Params) : M EvmState unit :=
  modify (λ s, set_evStore (set_paramSpace p (evStore s)) s).

Definition kSetBalance (addr : Address) (amount : Z) : M EvmState unit :=
  on_db (SetBalance addr amount;; swallow (Finalise false)).
Definition kSetNonce (addr : Address) (nonce : Z) : M EvmState unit :=
  on_db (SetNonce addr nonce;; swallow (Finalise false)).

(** keeper_direct.go; the key of a slot is the stored one. *)
Definition SetCodeDirectly (hash code : bytes) : M EvmState unit :=
  modify (λ s, set_evStore (set_codes (<[hash := code]> (codes (evStore s))) (evStore s)) s).
Definition SetStateDirectly (addr : Address) (key value : Hash) : M EvmState unit :=
  modify (λ s, set_evStore (set_storage (<[(addr, key) := HashBytes value]> (storage (evStore s))) (evStore s)) s).

(** ** Blocks (keeper/abci.go) *)

Record RequestBeginBlock := MkRequestBeginBlock {
  reqHash : bytes; reqLastBlockHash : option bytes; reqHeight : Z
}.

Definition BeginBlock (req : RequestBeginBlock) : M EvmState unit :=
  match reqLastBlockHash req with
  | None => mret tt
  | Some lastHash =>
      if (reqHeight req <? 1)%Z then mret tt
      else
        let height := reqHeight req - 1 in
        kSetHeightHash (uint64 height) (BytesToHash lastHash);;
        SetBlockHash lastHash height;;
        on_keeper (modify (λ k,
          set_Bhash (BytesToHash (reqHash req)) (set_LogSize 0 (set_TxCount 0 (set_kBloom 0 k)))))
  end.

(** EndBlock: BytesToBloom panics on more than 256 bytes.  The indexer works in the background
    on a database of the node. *)
Definition EndBlock (height : Z) : M EvmState unit :=
  k ← gets evKeeper;
  if (BitLen (kBloom k) >? 2048)%Z then panic else SetBlockBloom height (kBloom k).

(** ** Invariants (keeper/invariants.go): true when broken *)

Fixpoint any_account (f : EthAccount → M CommitStateDB bool) (l : list Account) : M CommitStateDB bool :=
  match l with
  | [] => mret false
  | EthAcc a :: l => b ← f a; c ← any_account f l; mret (b || c)
  | OtherAcc _ _ :: l => any_account f l
  end.

Definition BalanceInvariant : M EvmState bool :=
  on_db (s ← get;
         any_account (λ a,
           let denom := EvmDenom (paramSpace (ctx s)) in
           evmBalance ← GetBalance (aAddress a);
           mret (negb (evmBalance =? Coins.AmountOf (aCoins a) denom)%Z)) (Auth.IterateAccounts (accounts (ctx s)))).

Definition NonceInvariant : M EvmState bool :=
  on_db (s ← get;
         any_account (λ a,
           evmNonce ← GetNonce (aAddress a);
           mret (negb (evmNonce =? aSequence a)%Z)) (Auth.IterateAccounts (accounts (ctx s)))).

(** ** Genesis (genesis.go), in the default mode of import and export *)

Definition init_account (denom : string) (ga : GenesisAccount) : M CommitStateDB unit :=
  let address := HexToAddress (gAddress ga) in
  s ← get;
  match Auth.GetAccount (accounts (ctx s)) address with
  | Some (EthAcc acc) =>
      SetNonce address (aSequence acc);;
      SetBalance address (Coins.AmountOf (aCoins acc) denom);;
      (match gCode ga with Some code => SetCode address (Some code) | None => mret tt end);;
      mapM_ (λ st, modify (λ s, set_ctx
        (set_storage (<[(address, Key st) := HashBytes (Value st)]> (storage (ctx s))) (ctx s)) s)) (gStorage ga)
  | _ => panic
  end.

Definition InitGenesis (data : GenesisState) : M EvmState unit :=
  SetParams_ (gParams data);;
  on_db (mapM_ (init_account (EvmDenom (gParams data))) (gAccounts data);;
         must (Commit false);;
         must (Finalise false));;
  SetChainConfig (gChainConfig data).

(** ExportGenesis: one account; its slots are read through a database of their own. *)
Definition export_account (a : EthAccount) : M CommitStateDB GenesisAccount :=
  code ← GetCode (aAddress a);
  s ← get;
  storage ← lift (match fst (ForEachStorage (aAddress a) collect_state [] (CreateEmptyCommitStateDB (ctx s))) with
                  | Ok l => Ok l
                  | _ => Panic
                  end);
  mret (MkGenesisAccount (AddressString (aAddress a)) code storage).

Fixpoint export_accounts (l : list Account) : M CommitStateDB (list GenesisAccount) :=
  match l with
  | [] => mret []
  | EthAcc a :: l => g ← export_account a; gs ← export_accounts l; mret (g :: gs)
  | OtherAcc _ _ :: l => export_accounts l
  end.

(** A chain configuration that is not set is empty. *)
Definition emptyChainConfig : ChainConfig :=
  MkChainConfig None None false None "" None None None None None None None None None.

Definition ExportGenesis : M EvmState GenesisState :=
  gas ← on_db (s ← get; export_accounts (Auth.IterateAccounts (accounts (ctx s))));
  config ← GetChainConfig;
  p ← GetParams_;
  mret (MkGenesisState gas [] (default emptyChainConfig config) p).

End tx.
End EvmTx.
