(* ===== verification/EvmAnte.v ===== *)
(** * Before a transaction runs: src/app/ante/{ante,eth,validateMsg}.go

    The chain of decorators that an Ethereum transaction passes before its message is
    handled: the fee is enough for the node, the signature gives a sender, the sender has
    the funds, the nonce is the next one, the fee for all of the gas is taken, and the nonce
    is counted.  A decorator is given the rest of the chain.  The gas meter of the context is
    the field [evMeter] of the state; until the fee is taken it has no limit, so the recovery
    from running out of gas in EthSetupContextDecorator has nothing to recover from.

    [AnteEnv] is what the chain uses of the SDK. *)

From S2P Require Import Prelude SdkDec SdkCoins GoStd Account EvmErrors Evm EvmMsg EvmTx.

#[local] Open Scope Z_scope.

Module EvmAnte.
Import Evm EvmMsg ChainID EvmTx.

Class AnteEnv `{DO : Dec.Ops} `{CO : !Coins.Ops} `{AO : Auth.Ops} `{GO : Gas.Ops} := {
  (* auth.DeductFees: from an account to the fee collector *)
  DeductFees : AccAddress → SysCoins → M Auth.state unit;
  (* auth.SetGasMeter: simulate, height, limit *)
  SetGasMeter : bool → Z → Z → Gas.meter;
  MulInt64 : Dec → Z → Dec;
  ErrInsufficientFee : error;
  ErrUnauthorized : error;
  ErrUnknownAddress : error;
  ErrInvalidSequence : error;
  ErrOutOfGas : error;
}.

Class AnteLaws `{AE : AnteEnv} : Prop := {
  (* the fee moves from the account to the fee collector, and nothing else changes *)
  DeductFees_ok a c s s' : DeductFees a c s = (Ok tt, s') →
    (∀ b d, amt d (Auth.coins_of s' b) = amt d (Auth.coins_of s b)
       - (if decide (b = a) then amt d c else 0)
       + (if decide (b = Auth.GetModuleAddress FeeCollectorName) then amt d c else 0)) ∧
    (∀ b acc, Auth.GetAccount s b = Some (EthAcc acc) → ∃ c, Auth.GetAccount s' b = Some (EthAcc (set_aCoins c acc))) ∧
    (∀ b acc, Auth.GetAccount s' b = Some (EthAcc acc) → ∃ c, Auth.GetAccount s b = Some (EthAcc (set_aCoins c acc)));
  SetGasMeter_spec simulate height l :
    SetGasMeter simulate height l = if simulate || (height =? 0)%Z then Gas.NewInfiniteGasMeter else Gas.NewGasMeter l;
  MulInt64_spec d n : MulInt64 d n = d * n;
}.

Section ante.
Context `{DO : Dec.Ops} `{CO : !Coins.Ops} `{E : Eth} `{AO : Auth.Ops} `{C : !Crypto} `{GO : Gas.Ops} `{Vm : !VM} `{AE : !AnteEnv}.

(** A part of the chain: the context, the transaction with its cache of the sender, and
    whether the transaction is simulated. *)
Definition AnteHandler : Type := EvmContext → MsgEthereumTx → bool → M EvmState unit.
Definition AnteDecorator : Type := EvmContext → MsgEthereumTx → bool → AnteHandler → M EvmState unit.

Definition on_accounts {A} (m : M Auth.state A) : M EvmState A :=
  zoom evStore set_evStore (zoom accounts set_accounts m).

Definition GetAccount (a : AccAddress) : M EvmState (option Account) :=
  gets (λ s, Auth.GetAccount (accounts (evStore s)) a).
Definition SetAccount (acc : Account) : M EvmState unit := on_accounts (modify (Auth.SetAccount acc)).
Definition NewAccountWithAddress (a : AccAddress) : M EvmState Account :=
  on_accounts (λ s, let '(acc, s) := Auth.NewAccountWithAddress a s in (Ok acc, s)).

Definition evmDenom : M EvmState string := gets (λ s, EvmDenom (paramSpace (evStore s))).

(** The number and the sequence of an account that signs.  A module account has no key, and no
    signature is recovered to its address. *)
Definition signing (acc : Account) : outcome EthAccount :=
  match acc with EthAcc a => Ok a | OtherAcc _ _ => Panic end.

(** EthSetupContextDecorator *)
Definition EthSetupContextDecorator : AnteDecorator := λ c tx simulate next, next c tx simulate.

(** EthMempoolFeeDecorator *)
Definition EthMempoolFeeDecorator : AnteDecorator := λ c tx simulate next,
  if negb (IsCheckTx c) then next c tx simulate
  else
    denom ← evmDenom;
    fee ← lift (or_panic (Coins.NewDecCoinFromDec denom (Fee tx)));
    let minFees := MulInt64 (Coins.AmountOf (MinGasPrices c) denom) (int64 (GasLimit (tx_Data tx))) in
    let hasEnoughFees := Dec.GTE (Amount fee) minFees in
    throw_if (negb (Coins.IsZero (MinGasPrices c)) && negb hasEnoughFees) ErrInsufficientFee;;
    next c tx simulate.

(** ValidateBasicDecorator of the SDK: not again for a transaction that was checked. *)
Definition ValidateBasicDecorator : AnteDecorator := λ c tx simulate next,
  (if IsReCheckTx c then mret tt else lift (MsgEthereumTx_ValidateBasic tx));;
  next c tx simulate.

(** EthSigVerificationDecorator: the rest of the chain gets the message with its sender. *)
Definition EthSigVerificationDecorator : AnteDecorator := λ c tx simulate next,
  chainIDEpoch ← lift (ParseChainID (ctxChainID c));
  '(_, tx) ← wrap_err (λ _, ErrUnauthorized) (lift (VerifySig chainIDEpoch tx));
  next c tx simulate.

(** AccountVerificationDecorator *)
Definition AccountVerificationDecorator : AnteDecorator := λ c tx simulate next,
  if negb (IsCheckTx c) then next c tx simulate
  else
    address ← lift (or_panic (From tx));
    acc ← GetAccount address;
    acc ← (match acc with
           | Some acc => mret acc
           | None => acc ← NewAccountWithAddress address; SetAccount acc;; mret acc
           end);
    number ← (if (BlockHeight (block c) =? 0)%Z then a ← lift (signing acc); mret (aAccountNumber a) else mret 0);
    throw_if (negb (number =? 0)%Z) ErrInvalidSequence;;
    denom ← evmDenom;
    throw_if (Coins.AmountOf (acc_coins acc) denom <? Cost tx)%Z Coins.ErrInsufficientFunds;;
    next c tx simulate.

(** NonceVerificationDecorator *)
Definition NonceVerificationDecorator : AnteDecorator := λ c tx simulate next,
  address ← lift (or_panic (From tx));
  acc ← GetAccount address;
  acc ← or_throw acc ErrUnknownAddress;
  a ← lift (signing acc);
  throw_if (negb (AccountNonce (tx_Data tx) =? aSequence a)%Z) ErrInvalidSequence;;
  next c tx simulate.

(** EthGasConsumeDecorator: charges for the limit of gas, and sets the meter to it. *)
Definition EthGasConsumeDecorator : AnteDecorator := λ c tx simulate next,
  address ← lift (or_panic (From tx));
  acc ← GetAccount address;
  acc ← or_throw acc ErrUnknownAddress;
  let gasLimit := GetGas tx in
  gas ← or_throw (IntrinsicGas (Payload (tx_Data tx)) (bool_decide (To tx = None)) true false) EvmErr.ErrPlain;
  throw_if (IsCheckTx c && (gasLimit <? gas)%Z) ErrOutOfGas;;
  (if (gasLimit =? 0)%Z then mret tt
   else
     let cost := Price (tx_Data tx) * gasLimit in
     denom ← evmDenom;
     coin ← lift (or_panic (Coins.NewDecCoinFromDec denom cost));
     feeAmt ← lift (or_panic (Coins.NewDecCoins [coin]));
     on_accounts (DeductFees (acc_address acc) feeAmt));;
  modify (set_evMeter (SetGasMeter simulate (BlockHeight (block c)) gasLimit));;
  next c tx simulate.

(** IncrementSenderSequenceDecorator *)
Definition increment_sequence (addr : AccAddress) : M EvmState unit :=
  acc ← GetAccount addr;
  acc ← lift (or_panic acc);
  a ← lift (signing acc);
  SetAccount (EthAcc (set_aSequence (uint64 (aSequence a + 1)) a)).
Definition IncrementSenderSequenceDecorator : AnteDecorator := λ c tx simulate next,
  signers ← lift (GetSigners tx);
  mapM_ increment_sequence signers;;
  next c tx simulate.

(** NewAnteHandler for an Ethereum transaction *)
Definition ChainAnteDecorators (l : list AnteDecorator) : AnteHandler :=
  foldr (λ d next c tx simulate, d c tx simulate next) (λ _ _ _, mret tt) l.

Definition EthAnteHandler : AnteHandler := ChainAnteDecorators
  [EthSetupContextDecorator; EthMempoolFeeDecorator; ValidateBasicDecorator; EthSigVerificationDecorator;
   AccountVerificationDecorator; NonceVerificationDecorator; EthGasConsumeDecorator;
   IncrementSenderSequenceDecorator].

(** ** What the chain has of its own for other transactions *)

(** setupAccount, AccountSetupDecorator: an account for the sender of every message that runs the
    virtual machine. *)
Definition setupAccount (addr : AccAddress) : M EvmState unit :=
  acc ← GetAccount addr;
  match acc with
  | Some _ => mret tt
  | None => acc ← NewAccountWithAddress addr; SetAccount acc
  end.

(** A message of a standard transaction, as far as the chain looks at it. *)
Inductive StdMsg := StdEthermint (m : MsgEthermint) | StdOther.

Definition AccountSetupDecorator (msgs : list StdMsg) (next : M EvmState unit) : M EvmState unit :=
  throw_if (bool_decide (msgs = [])) Coins.ErrUnknownRequest;;
  mapM_ (λ m, match m with StdEthermint m => setupAccount (em_From m) | StdOther => mret tt end) msgs;;
  next.

(** ValidateMsgHandlerDecorator: only when a transaction is checked. *)
Definition ValidateMsgHandlerDecorator (validate : option (list StdMsg → M EvmState unit)) (c : EvmContext)
    (msgs : list StdMsg) (simulate : bool) (next : M EvmState unit) : M EvmState unit :=
  (match validate with
   | Some validate => if IsCheckTx c && negb simulate then validate msgs else mret tt
   | None => mret tt
   end);;
  next.

(** sigGasConsumer: the second case of the switch is the interface of all public keys. *)
Inductive PubKey := EthSecp256k1 | OtherPubKey.
Definition secp256k1VerifyCost : Z := 21000.
Definition sigGasConsumer (pubkey : option PubKey) : M Gas.meter unit :=
  match pubkey with
  | Some EthSecp256k1 => Gas.ConsumeGas secp256k1VerifyCost
  | Some OtherPubKey => Gas.ConsumeGas secp256k1VerifyCost
  | None => throw (MkError "sdk" 8)
  end.

End ante.
End EvmAnte.
