(* ===== verification/EvmSign.v ===== *)
(** * The signature of a transaction

    What Sign writes into a message, VerifySig accepts, and it recovers the address of the key
    that signed.  The parts of the signature pass through big integers and back to 32 bytes
    each, so leading zeros are lost and restored. *)

From S2P Require Import Prelude SdkDec SdkCoins CoinFacts GoStd Account EvmErrors Evm EvmMsg.

#[local] Open Scope Z_scope.

(** ** Strings of bytes *)

Definition zeros (k : nat) : string := String.string_of_list_ascii (replicate k Ascii.zero).

Lemma le_bytes_0 k : le_bytes k 0 = zeros k.
Proof. induction k as [|k IH]; [done|]. cbn [le_bytes]. change (0 mod 256) with 0. change (0 / 256) with 0. by rewrite IH. Qed.

Lemma le_bytes_pad n k v : 0 ≤ v < 256 ^ Z.of_nat n → le_bytes (n + k) v = le_bytes n v +:+ zeros k.
Proof.
  revert v. induction n as [|n IH]; intros v Hv.
  - assert (v = 0) as -> by (cbn in Hv; lia). apply le_bytes_0.
  - cbn [Nat.add le_bytes]. rewrite IH; [done|]. rewrite Nat2Z.inj_succ, Z.pow_succ_r in Hv by lia.
    split; [apply Z.div_pos; lia|]. apply Z.div_lt_upper_bound; lia.
Qed.

Lemma le_value_range s : 0 ≤ le_value s < 256 ^ Z.of_nat (String.length s).
Proof.
  induction s as [|a s IH]; cbn [le_value String.length]; [lia|]. rewrite Nat2Z.inj_succ, Z.pow_succ_r by lia.
  pose proof (Ascii.nat_ascii_bounded a). lia.
Qed.

Lemma le_bytes_value s : le_bytes (String.length s) (le_value s) = s.
Proof.
  induction s as [|a s IH]; [done|]. cbn [String.length le_bytes le_value]. pose proof (Ascii.nat_ascii_bounded a) as Ha.
  assert ((Z.of_nat (Ascii.nat_of_ascii a) + 256 * le_value s) mod 256 = Z.of_nat (Ascii.nat_of_ascii a)) as ->.
  { rewrite Z.mul_comm, Z.mod_add, Z.mod_small; lia. }
  rewrite Nat2Z.id, Ascii.ascii_nat_embedding.
  assert ((Z.of_nat (Ascii.nat_of_ascii a) + 256 * le_value s) / 256 = le_value s) as ->; [|by rewrite IH].
  rewrite Z.mul_comm, Z.div_add, Z.div_small; lia.
Qed.

Lemma string_rev_list s : String.list_ascii_of_string (string_rev s) = rev (String.list_ascii_of_string s).
Proof. unfold string_rev. apply String.list_ascii_of_string_of_list_ascii. Qed.
Lemma string_list_inj (s t : string) : String.list_ascii_of_string s = String.list_ascii_of_string t → s = t.
Proof. intros H. rewrite <-(String.string_of_list_ascii_of_string s), H. apply String.string_of_list_ascii_of_string. Qed.
Lemma string_list_app (s t : string) : String.list_ascii_of_string (s +:+ t) = String.list_ascii_of_string s ++ String.list_ascii_of_string t.
Proof. induction s as [|a s IH]; [done|]. rewrite append_cons. cbn [String.list_ascii_of_string]. by rewrite IH. Qed.
Lemma string_rev_rev s : string_rev (string_rev s) = s.
Proof. apply string_list_inj. by rewrite !string_rev_list, rev_involutive. Qed.
Lemma string_rev_app s t : string_rev (s +:+ t) = string_rev t +:+ string_rev s.
Proof. apply string_list_inj. by rewrite string_rev_list, !string_list_app, !string_rev_list, rev_app_distr. Qed.
Lemma string_list_length s : length (String.list_ascii_of_string s) = String.length s.
Proof. induction s as [|a s IH]; [done|]. cbn. by rewrite IH. Qed.
Lemma string_rev_length s : String.length (string_rev s) = String.length s.
Proof. by rewrite <-!string_list_length, string_rev_list, length_rev. Qed.
Lemma string_rev_zeros k : string_rev (zeros k) = zeros k.
Proof.
  apply string_list_inj. rewrite string_rev_list. unfold zeros. rewrite String.list_ascii_of_string_of_list_ascii.
  induction k as [|k IH]; [done|]. cbn [replicate rev]. rewrite IH. clear. induction k as [|k IH]; [done|]. cbn. by rewrite IH.
Qed.
Lemma zeros_length k : String.length (zeros k) = k.
Proof. rewrite <-string_list_length. unfold zeros. by rewrite String.list_ascii_of_string_of_list_ascii, length_replicate. Qed.

(** The bytes of a number, written back in front of zeros. *)
Lemma BitLen_bytes v k : 0 ≤ v < 256 ^ Z.of_nat k →
  let n := Z.to_nat ((BitLen v + 7) / 8) in (n ≤ k)%nat ∧ v < 256 ^ Z.of_nat n.
Proof.
  intros Hv. unfold BitLen. destruct (Z.eqb_spec v 0) as [->|Hne]; [split; [apply Nat.le_0_l|done]|]. rewrite Z.abs_eq by lia.
  pose proof (Z.log2_nonneg v) as Hl. pose proof (Z.log2_spec v ltac:(lia)) as [Hlo Hhi].
  assert (256 = 2 ^ 8) as E8 by done. rewrite E8, <-Z.pow_mul_r in Hv by lia.
  assert (Z.log2 v < 8 * Z.of_nat k) as Hk by (apply Z.log2_lt_pow2; lia).
  set (q := (Z.log2 v + 1 + 7) / 8). assert (q ≤ Z.of_nat k ∧ Z.log2 v + 1 ≤ 8 * q ∧ 0 ≤ q) as (H1 & H2 & H3).
  { unfold q. pose proof (Z.div_mod (Z.log2 v + 1 + 7) 8). pose proof (Z.mod_pos_bound (Z.log2 v + 1 + 7) 8). lia. }
  split; [lia|]. rewrite Z2Nat.id by done. rewrite E8, <-Z.pow_mul_r by lia.
  eapply Z.lt_le_trans; [exact Hhi|]. apply Z.pow_le_mono_r; lia.
Qed.
Lemma pad32_SetBytes b : String.length b = 32%nat → EvmMsg.pad32 (big_Bytes (SetBytes b)) = Ok b.
Proof.
  intros Hb. unfold EvmMsg.pad32, big_Bytes, SetBytes. set (v := le_value (string_rev b)).
  pose proof (le_value_range (string_rev b)) as Hv. rewrite string_rev_length, Hb in Hv. fold v in Hv.
  rewrite Z.abs_eq by lia. destruct (BitLen_bytes v 32 Hv) as [Hn Hvn]. set (n := Z.to_nat _) in *.
  rewrite string_rev_length, le_bytes_length. destruct (Nat.ltb_spec 32 n); [lia|]. f_equal. fold (zeros (32 - n)).
  rewrite <-(string_rev_zeros (32 - n)), <-string_rev_app, <-le_bytes_pad by lia.
  replace (n + (32 - n))%nat with (String.length (string_rev b)) by (rewrite string_rev_length; lia).
  unfold v. by rewrite le_bytes_value, string_rev_rev.
Qed.

Lemma get_app (s t : string) i : String.get (String.length s + i) (s +:+ t) = String.get i t.
Proof. induction s as [|a s IH]; [done|]. rewrite append_cons. cbn. apply IH. Qed.

Module EvmSign.
Import Evm EvmMsg.
Section sign.
Context `{DO : Dec.Ops} `{CO : !Coins.Ops} `{E : Eth} `{C : !Crypto} `{CYL : !CryptoLaws}.

(** The parts of a signature. *)
Lemma sig_parts (r s : string) v : String.length r = 32%nat → String.length s = 32%nat → (v < 256)%nat →
  let sig := r +:+ s +:+ String (Ascii.ascii_of_nat v) "" in
  String.length sig = 65%nat ∧ String.substring 0 32 sig = r ∧ String.substring 32 32 sig = s ∧ byte_at 64 sig = Z.of_nat v.
Proof.
  intros Hr Hs Hv. cbn. split_and!.
  - rewrite !string_length_app, Hr, Hs. done.
  - rewrite <-Hr. apply substring_app_l.
  - rewrite <-Hr at 1. rewrite substring_app_r, <-Hs. apply substring_app_l.
  - unfold byte_at. rewrite <-string_append_assoc.
    replace 64%nat with (String.length (r +:+ s) + 0)%nat by (rewrite string_length_app; lia). rewrite get_app. cbn.
    by rewrite Ascii.nat_ascii_embedding.
Qed.

(** A protected signature is not taken for an unprotected one. *)
Lemma protected_v n chainID : 0 < chainID → (n = 0 ∨ n = 1) → isProtectedV ((n + 35) mod 256 + chainID * 2) = true.
Proof.
  intros Hc Hn. unfold isProtectedV. rewrite Z.mod_small by lia. case_match; [|done].
  unfold big_Uint64. rewrite Z.abs_eq by lia.
  assert (n + 35 + chainID * 2 < 256) as Hlt.
  { unfold BitLen in *. destruct (Z.eqb_spec (n + 35 + chainID * 2) 0); [lia|]. rewrite Z.abs_eq in * by lia.
    apply Z.leb_le in H. apply (Z.log2_lt_pow2 _ 8); lia. }
  rewrite Z.mod_small by lia. apply andb_true_iff. split; apply negb_true_iff, Z.eqb_neq; lia.
Qed.

(** A message that was signed for a chain verifies on it, and its sender is the address of the
    public key of the signer; what is signed is unchanged. *)
Theorem sign_verifies chainID k msg : 0 < chainID → tx_from msg = None →
  ∃ msg', Sign chainID k msg = Ok msg' ∧ tx_fields (tx_Data msg') = tx_fields (tx_Data msg) ∧ tx_from msg' = None ∧
    VerifySig chainID msg' = Ok (PubkeyToAddress (PublicKey k),
      MkMsgEthereumTx (tx_Data msg') (Some (MkSigCache (EIP155Signer chainID) (PubkeyToAddress (PublicKey k))))).
Proof.
  intros Hc Hf. destruct (SignHash_total (RLPSignBytes chainID msg) k) as [sig Hsig].
  destruct (SignHash_spec _ _ _ Hsig) as (r & s & v & -> & Hr & Hs & Hv & Hval & Hrec).
  destruct (sig_parts r s v Hr Hs) as (S1 & S2 & S3 & S4); [lia|].
  destruct (PublicKey_spec k) as [pub Hpub].
  unfold Sign. rewrite Hsig, S1. cbn [Nat.eqb negb]. rewrite S2, S3, S4.
  destruct (Z.eqb_spec (Z.sgn chainID) 0) as [H0|_]; [apply Z.sgn_null_iff in H0; lia|].
  eexists. split; [reflexivity|]. split; [done|]. split; [done|]. unfold VerifySig. cbn [tx_from tx_Data set_sig V R S]. rewrite Hf.
  rewrite protected_v by (done || lia). destruct (Z.eqb_spec (Z.sgn chainID) 0) as [H0|_]; [apply Z.sgn_null_iff in H0; lia|].
  cbn [mbind outcome_bind]. replace ((Z.of_nat v + 35) mod 256 + chainID * 2 - chainID * 2 - 8) with (Z.of_nat v + 27)
    by (rewrite Z.mod_small by lia; lia).
  unfold recoverEthSig.
  assert (BitLen (Z.of_nat v + 27) >? 8 = false) as -> by (destruct Hv as [->| ->]; done).
  assert ((big_Uint64 (Z.of_nat v + 27) - 27) mod 256 = Z.of_nat v) as -> by (destruct Hv as [->| ->]; done).
  rewrite Hval, pad32_SetBytes, pad32_SetBytes by done. cbn [negb mbind outcome_bind]. rewrite Nat2Z.id.
  change (RLPSignBytes chainID _) with (RLPSignBytes chainID msg). rewrite Hrec, Hpub. cbn.
  unfold PubkeyToAddress. cbn. by rewrite Nat.sub_0_r, substring_all.
Qed.
End sign.
End EvmSign.
