(* ===== verification/EvmTxSpec.v ===== *)
(** * What a transaction costs

    The chain of decorators takes the price of all of the gas from the sender and counts its
    nonce, so that a transaction passes at most once; the handler returns the price of the gas
    that was not used.  Together the sender of a transaction that is executed pays for the
    gas that it used. *)

From S2P Require Import Prelude SdkDec SdkCoins CoinFacts GoStd Account EvmErrors Evm EvmMsg EvmTx EvmAnte.

#[local] Open Scope Z_scope.

Module EvmTxSpec.
Import Evm EvmMsg ChainID EvmTx EvmAnte.

(** ** The chain of decorators *)

Section ante.
Context `{DO : Dec.Ops} `{DL : !Dec.Laws} `{CO : !Coins.Ops} `{CL : !Coins.Laws} `{E : Eth} `{AO : Auth.Ops} `{AL : !Auth.Laws emptyCodeHash}
  `{C : !Crypto} `{GO : Gas.Ops} `{GL : !Gas.Laws} `{Vm : !VM} `{AE : !AnteEnv} `{AEL : !AnteLaws}.
Implicit Types (c : EvmContext) (tx : MsgEthereumTx) (s : EvmState).

Definition account_of (a : AccAddress) s : option Account := Auth.GetAccount (accounts (evStore s)) a.
Definition coins_at (a : AccAddress) s (d : string) : Z := amt d (Auth.coins_of (accounts (evStore s)) a).
Definition feeCollector : AccAddress := Auth.GetModuleAddress FeeCollectorName.
(** The price of all of the gas, in the coin of the virtual machine. *)
Definition fee_in (d : string) tx s : Z := if decide (d = EvmDenom (paramSpace (evStore s))) then Fee tx else 0.

(** The sender has paid for all of the gas and its nonce is counted; nothing else happened. *)
Record charged c tx (simulate : bool) (sender : Address) (a : EthAccount) s s' : Prop := {
  ch_sender : ∃ l, account_of sender s' = Some (EthAcc (set_aSequence (uint64 (aSequence a + 1)) (set_aCoins l a)));
  ch_others b acc : b ≠ sender → account_of b s = Some (EthAcc acc) → ∃ l, account_of b s' = Some (EthAcc (set_aCoins l acc));
  ch_coins b d : coins_at b s' d = coins_at b s d - (if decide (b = sender) then fee_in d tx s else 0)
    + (if decide (b = feeCollector) then fee_in d tx s else 0);
  ch_store : ∃ x, evStore s' = set_accounts x (evStore s);
  ch_keeper : evKeeper s' = evKeeper s;
  ch_meter : evMeter s' = SetGasMeter simulate (BlockHeight (block c)) (GetGas tx);
}.

(** The sender of a verified message is in its cache. *)
Lemma VerifySig_from id tx sender tx' : VerifySig id tx = Ok (sender, tx') →
  tx_Data tx' = tx_Data tx ∧ ∃ sc, tx_from tx' = Some sc ∧ from sc = sender.
Proof.
  unfold VerifySig. set (fresh := mbind _ _).
  assert (fresh = Ok (sender, tx') → tx_Data tx' = tx_Data tx ∧ ∃ sc, tx_from tx' = Some sc ∧ from sc = sender) as Hf.
  { intros ([v h] & _ & H)%obind_ok. apply obind_ok in H as (x & _ & [= <- <-]). split; [done|]. by eexists. }
  destruct (tx_from tx) as [sc|] eqn:Et; [|done]. destruct (Signer_Equal _ _); [|done]. intros [= <- <-]. split; [done|]. by exists sc.
Qed.

Lemma From_ok tx sender : (∃ sc, tx_from tx = Some sc ∧ from sc = sender) → ∀ x, From tx = Some x → x = sender.
Proof. intros (sc & Hf & <-) x. unfold From. rewrite Hf. case_match; [done|]. by intros [= <-]. Qed.

Lemma on_accounts_ok {A} (m : M Auth.state A) s x s' : on_accounts m s = (Ok x, s') →
  ∃ t, m (accounts (evStore s)) = (Ok x, t) ∧ s' = set_evStore (set_accounts t (evStore s)) s.
Proof. unfold on_accounts. intros (st & (t & Ht & ->)%zoom_ok & ->)%zoom_ok. by exists t. Qed.

(** The fee for all of the gas. *)
Lemma take_fee_ok tx sender s s' :
  ((if (GetGas tx =? 0)%Z then mret tt
    else
      denom ← evmDenom;
      coin ← lift (or_panic (Coins.NewDecCoinFromDec denom (Price (tx_Data tx) * GetGas tx)));
      feeAmt ← lift (or_panic (Coins.NewDecCoins [coin]));
      on_accounts (DeductFees sender feeAmt)) : M EvmState unit) s = (Ok tt, s') →
  (∃ x, s' = set_evStore (set_accounts x (evStore s)) s) ∧
  (∀ b acc, account_of b s = Some (EthAcc acc) → ∃ l, account_of b s' = Some (EthAcc (set_aCoins l acc))) ∧
  (∀ b acc, account_of b s' = Some (EthAcc acc) → ∃ l, account_of b s = Some (EthAcc (set_aCoins l acc))) ∧
  ∀ b d, coins_at b s' d = coins_at b s d - (if decide (b = sender) then fee_in d tx s else 0)
    + (if decide (b = feeCollector) then fee_in d tx s else 0).
Proof.
  unfold fee_in, Fee. fold (GetGas tx). destruct (Z.eqb_spec (GetGas tx) 0) as [Hz|Hz].
  - intros [_ ->]%mret_ok. split; [exists (accounts (evStore s)); by destruct s as [[] ? ?]|].
    split; [intros b [] H; by eexists|]. split; [intros b [] H; by eexists|].
    intros b d. rewrite Hz, Z.mul_0_r. repeat case_decide; lia.
  - intros H. apply bind_ok in H as (denom & s0 & [-> ->]%gets_ok & H).
    apply bind_ok in H as (coin & s0 & [Hc%or_panic_ok ->]%lift_ok & H).
    pose proof (Coins.NewDecCoinFromDec_valid _ _ _ Hc) as Hd. apply Coins.NewDecCoinFromDec_inv in Hc as [-> Hp].
    apply bind_ok in H as (l & s0 & [Hl%or_panic_ok ->]%lift_ok & H).
    destruct (Coins.NewDecCoins_spec (MkCoin (EvmDenom (paramSpace (evStore s))) (Price (tx_Data tx) * GetGas tx)) Hp Hd) as (l' & El & _ & Hamt).
    rewrite Hl in El. injection El as <-. apply on_accounts_ok in H as (t & Ht & ->).
    destruct (DeductFees_ok _ _ _ _ Ht) as (H1 & H2 & H3). split; [by exists t|]. split; [exact H2|]. split; [exact H3|].
    intros b d. unfold coins_at. cbn. rewrite H1, Hamt. unfold coin_amt, feeCollector. cbn. repeat case_decide; simplify_eq; try lia; done.
Qed.

Lemma increment_ok sender s s' : increment_sequence sender s = (Ok tt, s') → ∃ a, account_of sender s = Some (EthAcc a) ∧
  (∃ x, s' = set_evStore (set_accounts x (evStore s)) s) ∧
  ∀ b, account_of b s' = if decide (b = sender) then Some (EthAcc (set_aSequence (uint64 (aSequence a + 1)) a)) else account_of b s.
Proof.
  unfold increment_sequence. intros H. apply bind_ok in H as (o & s0 & [-> ->]%gets_ok & H).
  apply bind_ok in H as (acc & s0 & [Ho%or_panic_ok ->]%lift_ok & H). apply bind_ok in H as (a & s0 & [Ha ->]%lift_ok & H).
  destruct acc as [a'|]; [injection Ha as ->|done]. exists a. split; [done|].
  apply on_accounts_ok in H as (t & Ht & ->). injection Ht as <-. split; [by eexists|]. intros b. unfold account_of. cbn.
  rewrite Auth.GetAccount_SetAccount by (cbn; apply (Auth.GetAccount_coins _ _ _ Ho)). cbn.
  pose proof (Auth.GetAccount_address _ _ _ Ho) as Ea. cbn in Ea. by rewrite Ea.
Qed.

(** A transaction passes the chain of decorators of a block only with a valid signature and
    the nonce of its sender, and then it is charged. *)
Theorem ante_charges c tx simulate s s' : IsCheckTx c = false → EthAnteHandler c tx simulate s = (Ok tt, s') →
  ∃ id sender tx' a, ParseChainID (ctxChainID c) = Ok id ∧ VerifySig id tx = Ok (sender, tx') ∧
    account_of sender s = Some (EthAcc a) ∧ AccountNonce (tx_Data tx) = aSequence a ∧ charged c tx simulate sender a s s'.
Proof.
  intros Hck H. unfold EthAnteHandler, ChainAnteDecorators in H. cbn [foldr] in H.
  unfold EthSetupContextDecorator, EthMempoolFeeDecorator in H. rewrite Hck in H. cbn [negb] in H.
  unfold ValidateBasicDecorator in H. apply bind_ok in H as (u1 & s0 & Hbasic & H).
  assert (s0 = s) as -> by (destruct (IsReCheckTx c); [by apply mret_ok in Hbasic as [_ ->]|by apply lift_ok in Hbasic as [_ ->]]).
  unfold EthSigVerificationDecorator in H. apply bind_ok in H as (id & s0 & [Hid ->]%lift_ok & H).
  apply bind_ok in H as ([sender tx'] & s0 & [Hv ->]%wrap_err_ok%lift_ok & H). destruct (VerifySig_from _ _ _ _ Hv) as [Ed Hf].
  unfold AccountVerificationDecorator in H. rewrite Hck in H. cbn [negb] in H.
  unfold NonceVerificationDecorator in H. apply bind_ok in H as (x & s0 & [Hx%or_panic_ok ->]%lift_ok & H).
  pose proof (From_ok _ _ Hf x Hx) as ->. apply bind_ok in H as (o & s0 & [-> ->]%gets_ok & H).
  apply bind_ok in H as (acc & s0 & [Hacc ->]%or_throw_ok & H). apply bind_ok in H as (a & s0 & [Ha ->]%lift_ok & H).
  destruct acc as [a'|]; [injection Ha as ->|done].
  apply bind_ok in H as (u2 & s0 & [Hn%negb_false_iff%Z.eqb_eq [_ ->]]%throw_if_ok & H). rewrite Ed in Hn.
  exists id, sender, tx', a. do 3 (split; [done|]). split; [done|].
  unfold EthGasConsumeDecorator in H. apply bind_ok in H as (y & s0 & [Hy%or_panic_ok ->]%lift_ok & H).
  pose proof (From_ok _ _ Hf y Hy) as ->. apply bind_ok in H as (o & s0 & [-> ->]%gets_ok & H).
  apply bind_ok in H as (acc & s0 & [Hacc' ->]%or_throw_ok & H). rewrite Hacc in Hacc'. injection Hacc' as <-.
  apply bind_ok in H as (gas & s0 & [_ ->]%or_throw_ok & H). apply bind_ok in H as (u3 & s0 & [_ [_ ->]]%throw_if_ok & H).
  pose proof (Auth.GetAccount_address _ _ _ Hacc) as Ea. rewrite Ea in H.
  apply bind_ok in H as ([] & s1 & Hfee & H). apply bind_ok in H as (u4 & s2 & ->%modify_ok & H).
  apply take_fee_ok in Hfee as ((x1 & E1) & F1 & F2 & F3).
  unfold IncrementSenderSequenceDecorator in H. apply bind_ok in H as (l & s2 & [Hs ->]%lift_ok & H).
  unfold GetSigners in Hs. rewrite Hx in Hs. injection Hs as <-. cbn [mapM_] in H.
  apply bind_ok in H as ([] & s2 & H & [_ ->]%mret_ok). apply bind_ok in H as ([] & s3 & Hinc & [_ ->]%mret_ok).
  apply increment_ok in Hinc as (a1 & Ha1 & (x2 & E2) & Hacc2). change (account_of sender s1 = Some (EthAcc a1)) in Ha1.
  destruct (F2 _ _ Ha1) as [l El]. assert (account_of sender s = Some (EthAcc a)) as Hacc0 by done. rewrite Hacc0 in El. injection El as El.
  assert (aSequence a1 = aSequence a) as Eseq by (rewrite El; by destruct a1).
  assert (∀ d, fee_in d tx' s = fee_in d tx s) as Efee by (intros d; unfold fee_in, Fee; by rewrite Ed).
  split.
  - exists (aCoins a1). rewrite Hacc2, decide_True, Eseq by done. do 2 f_equal. rewrite El. by destruct a1.
  - intros b acc Hb Hbacc. destruct (F1 b acc Hbacc) as [l' Hl']. exists l'. by rewrite Hacc2, decide_False.
  - intros b d. rewrite <-!Efee, <-(F3 b d). unfold coins_at, Auth.coins_of.
    change (amt d match account_of b s3 with Some acc => acc_coins acc | None => [] end
      = amt d match account_of b s1 with Some acc => acc_coins acc | None => [] end).
    rewrite Hacc2. case_decide as Hb; [|done]. rewrite Hb, Ha1. done.
  - exists x2. rewrite E2, E1. by destruct s as [[] ? ?].
  - by rewrite E2, E1.
  - rewrite E2. cbn. unfold GetGas. by rewrite Ed.
Qed.

(** It does not pass again. *)
Lemma ante_once c tx simulate s s' c' simulate' : IsCheckTx c = false → IsCheckTx c' = false → ctxChainID c' = ctxChainID c →
  EthAnteHandler c tx simulate s = (Ok tt, s') → fst (EthAnteHandler c' tx simulate' s') ≠ Ok tt.
Proof.
  intros Hck Hck' Hid H H'. destruct (EthAnteHandler c' tx simulate' s') as [r s2] eqn:E2. cbn in H'. subst r.
  destruct (ante_charges c tx simulate s s' Hck H) as (id & sender & tx' & a & Eid & Ev & Ha & Hn & [[l Hl] _ _ _ _ _]).
  destruct (ante_charges c' tx simulate' s' s2 Hck' E2) as (id' & sender' & tx'' & a' & Eid' & Ev' & Ha' & Hn' & _).
  rewrite Hid, Eid in Eid'. injection Eid' as <-. rewrite Ev in Ev'. injection Ev' as <- <-.
  rewrite Hl in Ha'. injection Ha' as <-. cbn in Hn'. rewrite Hn in Hn'. unfold uint64 in Hn'.
  pose proof (Z.mod_pos_bound (aSequence a + 1) (2 ^ 64) ltac:(lia)). pose proof (Z.div_mod (aSequence a + 1) (2 ^ 64) ltac:(lia)). lia.
Qed.
End ante.

(** ** The gas and the keeper during a message *)

Section gas.
Context `{DO : Dec.Ops} `{DL : !Dec.Laws} `{CO : !Coins.Ops} `{CL : !Coins.Laws} `{E : Eth} `{AO : Auth.Ops} `{AL : !Auth.Laws emptyCodeHash}
  `{C : !Crypto} `{GO : Gas.Ops} `{GL : !Gas.Laws} `{Vm : !VM} `{AE : !AnteEnv} `{AEL : !AnteLaws}.

(** Reading is not free of charge, but never gives gas back; a bloom filter has 2048 bits. *)
Class VMLaws : Prop := {
  paramsGas_nonneg p : 0 ≤ paramsGas p;
  configGas_nonneg o : 0 ≤ configGas o;
  LogsBloom_range l : 0 ≤ LogsBloom l < 2 ^ 2048;
}.
Context `{VL : !VMLaws}.
Implicit Types (c : EvmContext) (tx : MsgEthereumTx) (t : TxState) (s : EvmState).

(** The meter keeps its limit and does not pass it. *)
Definition metered (m m' : Gas.meter) : Prop :=
  Gas.Limit m' = Gas.Limit m ∧ ∀ l, Gas.Limit m = Some l → Gas.GasConsumed m ≤ l → Gas.GasConsumed m' ≤ l.

Lemma metered_refl m : metered m m.
Proof. by split. Qed.
Lemma metered_trans m1 m2 m3 : metered m1 m2 → metered m2 m3 → metered m1 m3.
Proof. intros [A1 A2] [B1 B2]. split; [congruence|]. intros l Hl Hc. apply B2; [congruence|]. by apply A2. Qed.

Lemma Consume_ok n t u t' : 0 ≤ n → Consume n t = (Ok u, t') →
  tCsdb t' = tCsdb t ∧ tKeeper t' = tKeeper t ∧ metered (tMeter t) (tMeter t').
Proof.
  intros Hn (m & Hm & ->)%zoom_ok. destruct u. destruct (Gas.ConsumeGas_ok n _ _ Hn Hm) as (_ & H2 & H3).
  split_and!; [done|done|]. split; [exact H2|]. intros l Hl _. by apply H3.
Qed.

Lemma consuming_metered {A} n (m : M TxState A) t a t' : 0 ≤ n → consuming n m t = (Ok a, t') →
  ∃ t1, m t = (Ok a, t1) ∧ tCsdb t' = tCsdb t1 ∧ tKeeper t' = tKeeper t1 ∧ metered (tMeter t1) (tMeter t').
Proof.
  intros Hn. unfold consuming. destruct (m t) as [r t1] eqn:Em. destruct (Consume n t1) as [[[]|e|] t2] eqn:Ec; [|done..].
  intros [= -> <-]. exists t1. split; [done|]. by eapply Consume_ok.
Qed.

(** What a computation does besides the database. *)
Definition beside t t' : Prop := tKeeper t' = tKeeper t ∧ metered (tMeter t) (tMeter t').

Lemma beside_trans t1 t2 t3 : beside t1 t2 → beside t2 t3 → beside t1 t3.
Proof. intros [A1 A2] [B1 B2]. split; [congruence|by eapply metered_trans]. Qed.
Lemma beside_refl t : beside t t.
Proof. split; [done|apply metered_refl]. Qed.
Lemma db_beside {A} (m : M CommitStateDB A) t a t' : db m t = (Ok a, t') → beside t t'.
Proof. intros (s' & _ & ->)%zoom_ok. split; [done|apply metered_refl]. Qed.
Lemma Consume_beside n t u t' : 0 ≤ n → Consume n t = (Ok u, t') → beside t t'.
Proof. intros Hn H. by destruct (Consume_ok n t u t' Hn H) as (_ & H2 & H3). Qed.

Lemma run_machine_beside st p env gas t r t' : run_machine st p env gas t = (Ok r, t') → beside t t'.
Proof.
  unfold run_machine. destruct (st_Recipient st) as [to|]; intros H.
  - apply bind_ok in H as (u & t0 & [_ [_ ->]]%throw_if_ok & H). apply bind_ok in H as (n & t1 & H1%db_beside & H).
    apply bind_ok in H as (u2 & t2 & H2%db_beside & H). apply bind_ok in H as (r3 & t3 & H3%db_beside & [_ ->]%mret_ok).
    by repeat (eapply beside_trans; [eassumption|]).
  - apply bind_ok in H as (u & t0 & [_ [_ ->]]%throw_if_ok & H). apply bind_ok in H as ([r1 a] & t1 & H1%db_beside & [_ ->]%mret_ok). done.
Qed.

(** What a result says of the logs of the transaction. *)
Definition logged (r : ResultData) : Prop := rd_Bloom r = LogsBloom (rd_Logs r).

Lemma after_run_beside st p n gas r ca t e t' : Simulate st = false → is_Some (st_TxHash st) →
  after_run st p n gas r ca t = (Ok e, t') → beside t t' ∧ logged (ex_Result e) ∧ ex_Bloom e = rd_Bloom (ex_Result e).
Proof.
  intros Hsim [h Hh] H. unfold after_run in H. apply bind_ok in H as (d & t0 & [-> ->]%gets_ok & H).
  apply consuming_metered in H as (t1 & H & Hd & Hk & Hm); [|apply Z.mod_pos_bound; lia].
  destruct (vmErr r); [by apply throw_ok in H|]. apply bind_ok in H as (u & t2 & H2%db_beside & H).
  cbn [st_TxHash Simulate set_GasReturn] in H. rewrite Hsim, Hh in H. cbn in H.
  apply bind_ok in H as ([logs bl] & t3 & H3 & H). apply bind_ok in H3 as (lg & t4 & H4%db_beside & [E3 ->]%mret_ok).
  injection E3 as -> ->. apply bind_ok in H as (u5 & t5 & H5 & H).
  apply bind_ok in H5 as (u6 & t6 & H6%db_beside & H7%db_beside).
  apply bind_ok in H as (h' & t7 & [_ ->]%lift_ok & [-> ->]%mret_ok). split; [|done].
  repeat (eapply beside_trans; [eassumption|]). by split.
Qed.

Lemma TransitionDb_beside c config st t e t' : Simulate st = false → is_Some (st_TxHash st) →
  TransitionDb c config st t = (Ok e, t') → beside t t' ∧ logged (ex_Result e) ∧ ex_Bloom e = rd_Bloom (ex_Result e).
Proof.
  intros Hsim Hh H. unfold TransitionDb in H. rewrite Hsim in H.
  apply bind_ok in H as (b1 & t0 & [_ ->]%lift_ok & H). apply bind_ok in H as (b2 & t0 & [_ ->]%lift_ok & H).
  apply bind_ok in H as (cost & t0 & [_ ->]%or_throw_ok & H). apply bind_ok in H as (cons & t0 & [_ ->]%gets_ok & H).
  apply bind_ok in H as (gl & t0 & [-> ->]%mret_ok & H). apply bind_ok in H as (p & t1 & H1%db_beside & H).
  apply bind_ok in H as (d & t0 & [-> ->]%gets_ok & H). apply bind_ok in H as (env & t0 & [_ ->]%lift_ok & H).
  apply bind_ok in H as (n & t2 & H2%db_beside & H). apply bind_ok in H as (u & t3 & H3%db_beside & H).
  apply bind_ok in H as ([r ca] & t4 & H4%run_machine_beside & H).
  apply after_run_beside in H as (H5 & H6 & H7); [|done..]. split; [|done].
  by repeat (eapply beside_trans; [eassumption|]).
Qed.

(** A transaction that was executed: its gas, and what the keeper has of its logs. *)
Record executed t (r : ResultData) t' : Prop := {
  xe_meter : metered (tMeter t) (tMeter t');
  xe_logged : logged r;
  xe_bloom : kBloom (tKeeper t') = Z.lor (kBloom (tKeeper t)) (rd_Bloom r);
  xe_count : TxCount (tKeeper t') = int64 (TxCount (tKeeper t) + 1);
}.

Lemma execute_effect c st t r t' : Simulate st = false → is_Some (st_TxHash st) → execute c st t = (Ok r, t') → executed t r t'.
Proof.
  intros Hsim Hh H. unfold execute in H. rewrite Hsim in H. cbn [negb] in H.
  apply bind_ok in H as (u & t1 & H1 & H). apply bind_ok in H1 as (h & t0 & [_ ->]%lift_ok & H1).
  apply bind_ok in H1 as (k & t0 & [-> ->]%gets_ok & H1). apply bind_ok in H1 as (u2 & t2 & H2%db_beside & H1).
  apply bind_ok in H1 as (u3 & t3 & H3%db_beside & ->%modify_ok). destruct (beside_trans _ _ _ H2 H3) as [B1 B2].
  apply bind_ok in H as (o & t4 & H4 & H). apply bind_ok in H4 as (o' & t0 & [-> ->]%gets_ok & H4).
  apply bind_ok in H4 as (u4 & t5 & H5%Consume_beside & [-> ->]%mret_ok); [|apply configGas_nonneg].
  apply bind_ok in H as (config & t0 & [_ ->]%or_throw_ok & H). apply bind_ok in H as (e & t6 & H6 & H).
  apply TransitionDb_beside in H6 as ([D1 D2] & D3 & D4); [|done..]. destruct H5 as [C1 C2].
  apply bind_ok in H as (u7 & t7 & H7 & [-> ->]%mret_ok). apply bind_ok in H7 as (sz & t8 & [F1 F2]%db_beside & ->%modify_ok).
  split; [|done|..]; cbn.
  - eapply metered_trans; [exact B2|]. eapply metered_trans; [exact C2|]. eapply metered_trans; [exact D2|exact F2].
  - rewrite F1, D1, C1, D4. done.
  - rewrite F1, D1, C1. done.
Qed.

(** ** The refund *)

Definition coins_in (x : Auth.state) (b : AccAddress) (d : string) : Z := amt d (Auth.coins_of x b).
Definition accounts_of t : Auth.state := accounts (ctx (tCsdb t)).
(** An amount of the coin of the virtual machine. *)
Definition in_denom (d denom : string) (n : Z) : Z := if decide (d = denom) then n else 0.

Lemma RefundGas_ok st t u t' : RefundGas st t = (Ok u, t') →
  let back := st_Price st * uint64 (st_GasLimit st - Gas.GasConsumed (tMeter t) + GasReturn st) in
  beside t t' ∧ tMeter t' = tMeter t ∧
  ∀ b d, coins_in (accounts_of t') b d = coins_in (accounts_of t) b d
    - (if decide (b = feeCollector) then in_denom d (CoinDenom st) back else 0)
    + (if decide (b = st_Sender st) then in_denom d (CoinDenom st) back else 0).
Proof.
  intros H back. unfold RefundGas in H. apply bind_ok in H as (n & t0 & [-> ->]%gets_ok & H). fold back in H.
  destruct (Z.eqb_spec back 0) as [Hz|Hz].
  - apply mret_ok in H as [_ ->]. split; [apply beside_refl|]. split; [done|]. intros b d. rewrite Hz. unfold in_denom.
    repeat case_decide; lia.
  - apply bind_ok in H as (coin & t0 & [Hc%or_panic_ok ->]%lift_ok & H).
    pose proof (Coins.NewDecCoinFromDec_valid _ _ _ Hc) as Hd. apply Coins.NewDecCoinFromDec_inv in Hc as [-> Hp].
    apply bind_ok in H as (l & t0 & [Hl%or_panic_ok ->]%lift_ok & H).
    destruct (Coins.NewDecCoins_spec (MkCoin (CoinDenom st) back) Hp Hd) as (l' & El & _ & Hamt).
    rewrite Hl in El. injection El as <-. split; [by eapply db_beside|].
    apply zoom_ok in H as (s' & (x & (y & Hy & ->)%zoom_ok & ->)%zoom_ok & ->). split; [done|]. destruct u.
    destruct (Auth.Send_ok _ _ _ _ _ Hy) as [H1 _]. intros b d. unfold coins_in, accounts_of. cbn. rewrite H1, Hamt.
    unfold in_denom, coin_amt, feeCollector. cbn. repeat case_decide; simplify_eq; try lia; done.
Qed.

(** ** A transaction of a block *)

Definition transition_of c (id : Z) (sender : Address) (denom : string) tx : StateTransition :=
  let d := tx_Data tx in
  MkStateTransition (AccountNonce d) (Price d) (GasLimit d) (Recipient d) (TdAmount d) (Payload d)
    id (Some (ethHash c)) sender (IsCheckTx c) denom 0.

(** The message is executed on a new database over the stores, and leaves the accounts [x]. *)
Definition ran c (id : Z) (sender : Address) tx s (r : ResultData) (t : TxState) : Prop :=
  ∃ t0, tCsdb t0 = CreateEmptyCommitStateDB (evStore s) ∧ tKeeper t0 = evKeeper s ∧ metered (evMeter s) (tMeter t0) ∧
    execute c (transition_of c id sender (EvmDenom (paramSpace (evStore s))) tx) t0 = (Ok r, t).

Lemma ethereum_tx_ok c tx s r s' : IsCheckTx c = false → NewHandler c (EthereumTx tx) s = (Ok r, s') →
  ∃ id sender tx' t, ParseChainID (ctxChainID c) = Ok id ∧ VerifySig id tx = Ok (sender, tx') ∧ ran c id sender tx s r t ∧
    evMeter s' = tMeter t ∧ evKeeper s' = tKeeper t ∧
    let back := Price (tx_Data tx) * uint64 (GasLimit (tx_Data tx) - Gas.GasConsumed (tMeter t)) in
    ∀ b d, coins_at b s' d = coins_in (accounts_of t) b d
      - (if decide (b = feeCollector) then in_denom d (EvmDenom (paramSpace (evStore s))) back else 0)
      + (if decide (b = sender) then in_denom d (EvmDenom (paramSpace (evStore s))) back else 0).
Proof.
  intros Hck H. unfold NewHandler in H. apply wrap_err_ok in H. unfold in_tx in H. set (ts := MkTxState _ _ _) in H.
  destruct (handleMsgEthereumTx c tx ts) as [r0 t4] eqn:Eh. injection H as -> <-. rename Eh into H. unfold handleMsgEthereumTx in H.
  apply bind_ok in H as (id & t0 & [Hid ->]%lift_ok & H). apply bind_ok in H as ([sender tx'] & t0 & [Hv ->]%lift_ok & H).
  destruct (VerifySig_from _ _ _ _ Hv) as [Ed _]. apply bind_ok in H as (u & t1 & ->%modify_ok & H).
  apply bind_ok in H as (denom & t2 & H2 & H). apply bind_ok in H2 as (p & t0 & [-> ->]%gets_ok & H2).
  apply bind_ok in H2 as (u2 & t3 & H3 & [-> ->]%mret_ok). apply Consume_ok in H3 as (C1 & C2 & C3); [|apply paramsGas_nonneg].
  change (tCsdb t3 = CreateEmptyCommitStateDB (evStore s)) in C1. change (tKeeper t3 = evKeeper s) in C2.
  change (metered (evMeter s) (tMeter t3)) in C3. rewrite Ed in H.
  change (run_transition c (transition_of c id sender (EvmDenom (paramSpace (evStore s))) tx) t3 = (Ok r, t4)) in H.
  unfold run_transition, refunding in H. destruct (execute c _ t3) as [r' t5] eqn:Ex.
  change (Simulate (transition_of c id sender (EvmDenom (paramSpace (evStore s))) tx)) with (IsCheckTx c) in H. rewrite Hck in H.
  destruct (RefundGas _ t5) as [[u5|e|] t6] eqn:Er; [|done..]. injection H as -> <-.
  apply RefundGas_ok in Er as ([R1 _] & R2 & R3). exists id, sender, tx', t5. split; [done|]. split; [done|].
  split; [by exists t3|]. split; [exact R2|]. split; [exact R1|]. intros back b d. cbn in R3. rewrite Z.add_0_r in R3. apply R3.
Qed.

(** A transaction of a block that is executed costs its sender the price of the gas that it
    used, which is at most its limit: what the chain of decorators took for the rest of the
    gas is returned.  Apart from that, balances change as the machine says. *)
Theorem transaction_pays c tx s s1 r s2 : IsCheckTx c = false → BlockHeight (block c) ≠ 0 → 0 ≤ GasLimit (tx_Data tx) < 2 ^ 64 →
  EthAnteHandler c tx false s = (Ok tt, s1) → NewHandler c (EthereumTx tx) s1 = (Ok r, s2) →
  ∃ id sender tx' t, ParseChainID (ctxChainID c) = Ok id ∧ VerifySig id tx = Ok (sender, tx') ∧ ran c id sender tx s1 r t ∧
    let used := Gas.GasConsumed (evMeter s2) in
    let paid d := in_denom d (EvmDenom (paramSpace (evStore s))) (Price (tx_Data tx) * used) in
    0 ≤ used ≤ GasLimit (tx_Data tx) ∧
    ∀ b d, coins_at b s2 d = coins_at b s d + (coins_in (accounts_of t) b d - coins_at b s1 d)
      - (if decide (b = sender) then paid d else 0) + (if decide (b = feeCollector) then paid d else 0).
Proof.
  intros Hck Hh Hg Ha Hx. destruct (ante_charges c tx false s s1 Hck Ha) as (id & sender & tx' & a & Hid & Hv & _ & _ & [_ _ A3 [x A4] _ A6]).
  destruct (ethereum_tx_ok c tx s1 r s2 Hck Hx) as (id' & sender' & tx'' & t & Hid' & Hv' & Hr & Hm & _ & Hc).
  rewrite Hid in Hid'. injection Hid' as <-. rewrite Hv in Hv'. injection Hv' as <- <-.
  exists id, sender, tx', t. split; [done|]. split; [done|]. split; [done|]. intros used paid.
  assert (0 ≤ used ≤ GasLimit (tx_Data tx)) as Hu.
  { unfold used. pose proof (Gas.GasConsumed_range (evMeter s2)). split; [lia|]. rewrite Hm.
    destruct Hr as (t0 & _ & _ & M1 & Hex). apply execute_effect in Hex as [M2 _ _ _]; [|done|by eexists].
    destruct (metered_trans _ _ _ M1 M2) as [_ Hb]. rewrite A6, SetGasMeter_spec in Hb. destruct (Z.eqb_spec (BlockHeight (block c)) 0); [done|].
    destruct (Gas.NewGasMeter_spec (GetGas tx)) as [G1 G2]. apply (Hb _ G2). cbn [orb]. rewrite G1. apply Hg. }
  split; [done|]. intros b d. rewrite Hc, A3, A4. cbn [paramSpace set_accounts]. rewrite <-Hm. fold used. unfold paid, fee_in, Fee, in_denom, uint64.
  rewrite Z.mod_small by lia. repeat case_decide; nia.
Qed.
End gas.
End EvmTxSpec.
