(* ===== verification/EvmBlock.v ===== *)
(** * What the keeper remembers of a block

    The bloom filter, the count of transactions and the number of logs are fields of the
    keeper and not of a store: the discarding of a failed transaction does not take them back.
    A transaction that is only checked leaves them alone, since nodes would disagree
    otherwise, and the filter that is stored at the end of a block has the bits of every
    transaction that succeeded in it, whatever the others did. *)

From S2P Require Import Prelude SdkDec SdkCoins CoinFacts GoStd Account EvmErrors Evm EvmMsg EvmTx EvmAnte EvmTxSpec.

#[local] Open Scope Z_scope.

Module EvmBlock.
Import Evm EvmMsg ChainID EvmTx EvmTxSpec.

Section block.
Context `{DO : Dec.Ops} `{DL : !Dec.Laws} `{CO : !Coins.Ops} `{CL : !Coins.Laws} `{E : Eth} `{AO : Auth.Ops} `{AL : !Auth.Laws emptyCodeHash}
  `{C : !Crypto} `{GO : Gas.Ops} `{GL : !Gas.Laws} `{Vm : !VM} `{VL : !VMLaws}.
Implicit Types (c : EvmContext) (t : TxState) (s : EvmState).

(** ** Computations that leave a part of the keeper alone, whatever their outcome *)

Definition aside {K A} (f : Keeper → K) (m : M TxState A) : Prop := ∀ t, f (tKeeper (snd (m t))) = f (tKeeper t).

Section aside.
Context {K : Type} (f : Keeper → K).

Lemma aside_bind {A B} (m : M TxState A) (g : A → M TxState B) : aside f m → (∀ x, aside f (g x)) → aside f (m ≫= g).
Proof.
  intros Hm Hg t. unfold mbind, M_bind. specialize (Hm t). destruct (m t) as [[x|e|] t'] eqn:Em; [|done..].
  by rewrite Hg.
Qed.
Lemma aside_id {A} (m : M TxState A) : (∀ t, tKeeper (snd (m t)) = tKeeper t) → aside f m.
Proof. intros H t. by rewrite H. Qed.
Lemma aside_db {A} (m : M CommitStateDB A) : aside f (db m).
Proof. apply aside_id. intros t. unfold db, zoom. by destruct (m (tCsdb t)) as [[]]. Qed.
Lemma aside_Consume n : aside f (Consume n).
Proof. apply aside_id. intros t. unfold Consume, zoom. by destruct (Gas.ConsumeGas n (tMeter t)) as [[]]. Qed.
Lemma aside_consuming {A} n (m : M TxState A) : aside f m → aside f (consuming n m).
Proof.
  intros Hm t. unfold consuming. specialize (Hm t). destruct (m t) as [r t1]. cbn in Hm.
  pose proof (aside_Consume n t1) as Hc. destruct (Consume n t1) as [[]]; cbn in *; congruence.
Qed.
Lemma aside_throw_if b e : aside f (throw_if b e).
Proof. apply aside_id. intros t. by destruct b. Qed.
Lemma aside_or_throw {A} (o : option A) e : aside f (or_throw o e).
Proof. apply aside_id. intros t. by destruct o. Qed.
Lemma aside_lift {A} (o : outcome A) : aside f (lift o).
Proof. by apply aside_id. Qed.
Lemma aside_new_db : aside f new_db.
Proof. by apply aside_id. Qed.
End aside.

Create HintDb aside discriminated.
#[local] Hint Resolve aside_db aside_Consume aside_throw_if aside_or_throw aside_lift aside_new_db : aside.
Ltac aside_solve := repeat first
  [ solve [auto 2 with aside]
  | apply aside_bind; [|intros ?]
  | apply aside_consuming
  | apply aside_id; done
  | match goal with |- aside _ (match ?x with _ => _ end) => destruct x end ].

Lemma aside_TransitionDb {K} (f : Keeper → K) c config st : aside f (TransitionDb c config st).
Proof. unfold TransitionDb, run_machine, after_run. aside_solve. Qed.
Lemma aside_RefundGas {K} (f : Keeper → K) st : aside f (RefundGas st).
Proof. unfold RefundGas. aside_solve. Qed.
Lemma aside_kGetEvmDenom {K} (f : Keeper → K) : aside f kGetEvmDenom.
Proof. unfold kGetEvmDenom. aside_solve. Qed.
Lemma aside_kGetChainConfig {K} (f : Keeper → K) : aside f kGetChainConfig.
Proof. unfold kGetChainConfig. aside_solve. Qed.
#[local] Hint Resolve aside_TransitionDb aside_kGetEvmDenom aside_kGetChainConfig : aside.

(** ** Transactions that are only checked *)

Lemma aside_execute c st : Simulate st = true → aside id (execute c st).
Proof. intros Hs. unfold execute. rewrite Hs. cbn [negb]. aside_solve. Qed.

Lemma aside_run_transition c st : Simulate st = true → aside id (run_transition c st).
Proof.
  intros Hs t. unfold run_transition, refunding. rewrite Hs.
  pose proof (aside_execute c st Hs t) as H. by destruct (execute c st t).
Qed.

(** Checking or simulating a transaction leaves the keeper as it is, whatever its outcome. *)
Theorem check_leaves_keeper c msg s : IsCheckTx c = true → evKeeper (snd (NewHandler c msg s)) = evKeeper s.
Proof.
  intros Hc. unfold NewHandler, wrap_err, in_tx. set (m := match msg with EthereumTx _ => _ | Ethermint _ => _ end).
  assert (aside id m) as Hm.
  { unfold m. destruct msg; unfold handleMsgEthereumTx, handleMsgEthermint; aside_solve; by apply aside_run_transition. }
  specialize (Hm (MkTxState (CreateEmptyCommitStateDB (evStore s)) (evKeeper s) (evMeter s))).
  by destruct (m _) as [[] t].
Qed.

(** ** The filter of a block *)

Definition bloom_of t : Z := kBloom (tKeeper t).
(** Some bits are added to the filter: those of the result when there is one. *)
Definition blooms_by (b : Z) (r : outcome ResultData) (b' : Z) : Prop :=
  ∃ x, 0 ≤ x < 2 ^ 2048 ∧ b' = Z.lor b x ∧ ∀ d, r = Ok d → rd_Bloom d = x ∧ logged d.

Lemma blooms_same b r : (∀ d, r ≠ Ok d) → blooms_by b r b.
Proof. intros Hr. exists 0. split; [done|]. split; [by rewrite Z.lor_0_r|]. intros d Hd. by destruct (Hr d). Qed.

(** The outcome of a message and the filter after it. *)
Definition blooming (m : M TxState ResultData) t : Prop := blooms_by (bloom_of t) (fst (m t)) (bloom_of (snd (m t))).

(** A computation that leaves the filter alone before the rest of a message. *)
Lemma blooming_bind {A} (m : M TxState A) (g : A → M TxState ResultData) t : aside kBloom m →
  (∀ x t', m t = (Ok x, t') → blooming (g x) t') → blooming (m ≫= g) t.
Proof.
  intros Hm Hg. unfold blooming, mbind, M_bind. specialize (Hm t). destruct (m t) as [[x|e|] t'] eqn:Em; cbn in *.
  - unfold bloom_of at 1. rewrite <-Hm. by apply Hg.
  - unfold bloom_of. rewrite Hm. by apply blooms_same.
  - unfold bloom_of. rewrite Hm. by apply blooms_same.
Qed.

(** The count of a transaction. *)
Lemma aside_count h : aside kBloom
  (k ← gets tKeeper; db (Prepare h (Bhash k) (TxCount k));; db (SetLogSize (LogSize k));;
   modify (λ t, set_tKeeper (set_TxCount (int64 (TxCount k + 1)) k) t)).
Proof.
  intros t. unfold gets, modify, mbind, M_bind. cbn.
  pose proof (aside_db kBloom (Prepare h (Bhash (tKeeper t)) (TxCount (tKeeper t))) t) as H1.
  destruct (db (Prepare _ _ _) t) as [[] t1]; [|done..]. cbn in H1.
  pose proof (aside_db kBloom (SetLogSize (LogSize (tKeeper t))) t1) as H2.
  destruct (db (SetLogSize _) t1) as [[] t2]; cbn in *; congruence.
Qed.

Lemma execute_blooming c st t : Simulate st = false → is_Some (st_TxHash st) → blooming (execute c st) t.
Proof.
  intros Hs Hh. unfold execute. rewrite Hs. cbn [negb].
  apply blooming_bind; [apply aside_bind; [aside_solve|intros h; by apply aside_count]|]. intros u t1 _.
  apply blooming_bind; [aside_solve|]. intros o t2 _. apply blooming_bind; [aside_solve|]. intros config t3 _.
  apply blooming_bind; [aside_solve|]. intros e t4 He. destruct (TransitionDb_beside _ _ _ _ _ _ Hs Hh He) as (_ & Hl & Hb).
  unfold blooming, mbind, M_bind. pose proof (aside_db kBloom GetLogSize t4) as Hd.
  destruct (db GetLogSize t4) as [[n|x|] t5] eqn:Eg; cbn in *.
  - exists (ex_Bloom e). rewrite Hb, Hl. split; [apply LogsBloom_range|]. unfold bloom_of. cbn. rewrite Hd. split; [by rewrite ?Hb, ?Hl|].
    intros d [= <-]. by rewrite Hl.
  - unfold bloom_of. rewrite Hd. by apply blooms_same.
  - unfold bloom_of. rewrite Hd. by apply blooms_same.
Qed.

(** The refund comes after the filter is written: when it fails, the bits stay. *)
Lemma run_transition_blooming c st t : Simulate st = false → is_Some (st_TxHash st) → blooming (run_transition c st) t.
Proof.
  intros Hs Hh. unfold blooming, run_transition, refunding. rewrite Hs.
  pose proof (execute_blooming c st t Hs Hh) as (x & Hx & Hb & Hr). destruct (execute c st t) as [r t1]. cbn in Hb, Hr.
  pose proof (aside_RefundGas kBloom st t1) as Hk. unfold bloom_of in *.
  destruct (RefundGas st t1) as [[]]; cbn in *; exists x; rewrite Hk, Hb; done.
Qed.

Lemma handler_blooms c msg s : IsCheckTx c = false →
  blooms_by (kBloom (evKeeper s)) (fst (NewHandler c msg s)) (kBloom (evKeeper (snd (NewHandler c msg s)))).
Proof.
  intros Hc. unfold NewHandler, wrap_err, in_tx. set (m := match msg with EthereumTx _ => _ | Ethermint _ => _ end).
  set (t := MkTxState _ _ _). assert (blooming m t) as (x & Hx & Hb & Hr).
  { unfold m. destruct msg; unfold handleMsgEthereumTx, handleMsgEthermint; repeat first
      [ apply run_transition_blooming; [done|by eexists]
      | apply blooming_bind; [solve [aside_solve]|intros ?? _]
      | match goal with |- blooming (match ?p with _ => _ end) _ => destruct p end ]. }
  destruct (m t) as [[d|e|] t']; cbn in *; by exists x.
Qed.

(** The messages of a block, with what they return.  Between them anything may happen to the
    stores: decorators, other modules, the discarding of what a failed message wrote. *)
Inductive block_txs : EvmState → list (outcome ResultData) → EvmState → Prop :=
| bt_nil s s' : kBloom (evKeeper s') = kBloom (evKeeper s) → block_txs s [] s'
| bt_msg c msg s s1 l s' : IsCheckTx c = false → kBloom (evKeeper s1) = kBloom (evKeeper s) →
    block_txs (snd (NewHandler c msg s1)) l s' → block_txs s (fst (NewHandler c msg s1) :: l) s'.

(** A filter has all bits of another. *)
Definition covers (b x : Z) : Prop := Z.lor b x = b.

Lemma covers_lor b x y : covers b y → covers (Z.lor b x) y.
Proof. unfold covers. intros H. by rewrite <-Z.lor_assoc, (Z.lor_comm x), Z.lor_assoc, H. Qed.
Lemma lor_range n a b : 0 ≤ n → 0 ≤ a < 2 ^ n → 0 ≤ b < 2 ^ n → 0 ≤ Z.lor a b < 2 ^ n.
Proof.
  intros Hn Ha Hb. split; [apply Z.lor_nonneg; lia|]. destruct (Z.eq_dec (Z.lor a b) 0) as [->|Hz]; [lia|].
  assert (0 ≤ Z.lor a b) by (apply Z.lor_nonneg; lia). apply Z.log2_lt_pow2; [lia|]. rewrite Z.log2_lor by lia.
  destruct (Z.eq_dec a 0) as [->|], (Z.eq_dec b 0) as [->|]; [done|..]; apply Z.max_lub_lt;
    first [apply Z.log2_lt_pow2; lia|change (Z.log2 0) with 0; destruct (Z.eq_dec n 0) as [->|]; lia].
Qed.

Lemma block_txs_covers s l s' : block_txs s l s' → 0 ≤ kBloom (evKeeper s) < 2 ^ 2048 →
  0 ≤ kBloom (evKeeper s') < 2 ^ 2048 ∧ (∀ y, covers (kBloom (evKeeper s)) y → covers (kBloom (evKeeper s')) y) ∧
  ∀ d, Ok d ∈ l → logged d ∧ covers (kBloom (evKeeper s')) (rd_Bloom d).
Proof.
  induction 1 as [s s' Hk|c msg s s1 l s' Hc Hk _ IH]; intros Hb.
  - rewrite Hk. split; [done|]. split; [done|]. by intros d ?%elem_of_nil.
  - destruct (handler_blooms c msg s1 Hc) as (x & Hx & Hb' & Hr). rewrite Hk in Hb'.
    destruct IH as (I1 & I2 & I3); [rewrite Hb'; by apply lor_range|]. split; [done|]. split.
    + intros y Hy. apply I2. rewrite Hb'. by apply covers_lor.
    + intros d [Hd|Hd]%elem_of_cons; [|by apply I3]. destruct (Hr d (eq_sym Hd)) as [Ex Hl]. split; [done|]. apply I2. rewrite Hb', Ex.
      unfold covers. by rewrite <-Z.lor_assoc, Z.lor_diag.
Qed.

Lemma BeginBlock_bloom req u s s' : is_Some (reqLastBlockHash req) → 1 ≤ reqHeight req → BeginBlock req s = (Ok u, s') →
  kBloom (evKeeper s') = 0.
Proof.
  intros [h Hh] Hz. unfold BeginBlock. rewrite Hh. destruct (Z.ltb_spec (reqHeight req) 1); [lia|]. intros H0.
  apply bind_ok in H0 as (u1 & s1 & _ & H0). apply bind_ok in H0 as (u2 & s2 & _ & H0).
  by apply zoom_ok in H0 as (k & ->%modify_ok & ->).
Qed.

(** The end of a block returns, and the filter that it stores has no false negatives: every
    transaction of the block that succeeded has the filter of its logs in it, whatever the
    others did. *)
Theorem block_bloom_covers req u s s0 l s1 height : is_Some (reqLastBlockHash req) → 1 ≤ reqHeight req →
  BeginBlock req s = (Ok u, s0) → block_txs s0 l s1 →
  ∃ s2 b, EndBlock height s1 = (Ok tt, s2) ∧ GetBlockBloom height s2 = (Ok b, s2) ∧
    ∀ d, Ok d ∈ l → covers b (LogsBloom (rd_Logs d)).
Proof.
  intros Hh Hz Hb Hl. pose proof (BeginBlock_bloom _ _ _ _ Hh Hz Hb) as H0.
  destruct (block_txs_covers _ _ _ Hl) as (Hr & _ & Hd); [rewrite H0; lia|].
  unfold EndBlock, mbind, M_bind, gets. cbn. rewrite Z.gtb_ltb. destruct (Z.ltb_spec 2048 (BitLen (kBloom (evKeeper s1)))) as [Hx|_].
  { exfalso. unfold BitLen in Hx. destruct (Z.eqb_spec (kBloom (evKeeper s1)) 0) as [E0|E0]; [lia|]. rewrite Z.abs_eq in Hx by lia.
    pose proof (proj1 (Z.log2_lt_pow2 (kBloom (evKeeper s1)) 2048 ltac:(lia)) ltac:(lia)). lia. }
  eexists _, _. split; [reflexivity|]. split; [reflexivity|]. intros d Hin. unfold GetBlockBloom. cbn.
  rewrite lookup_insert_eq. cbn. destruct (Hd d Hin) as [Hlg Hc]. by rewrite <-Hlg.
Qed.
End block.
End EvmBlock.
