(* ===== verification/EvmTxImpl.v ===== *)
(** * A transaction from its signature to its receipt

    Concrete instances of what transactions use of go-ethereum and of the SDK, for which the
    laws of [EvmMsg], [EvmTx] and [EvmAnte] hold, and a transfer that is signed, passes the
    chain of decorators, is executed and is paid for. *)

From S2P Require Import Prelude SdkDec SdkCoins CoinFacts GoStd Account EvmErrors Evm EvmTheorems EvmMsg EvmTx EvmAnte EvmSign EvmTxSpec EvmBlock.

#[local] Open Scope Z_scope.

Module EvmTxImpl.
Import Evm EvmMsg ChainID EvmTx EvmAnte EvmSign EvmTxSpec.

#[local] Existing Instance Dec18.ops.
#[local] Existing Instance Dec18.dec_laws.
#[local] Existing Instance CoinsImpl.ops.
#[local] Existing Instance CoinsImpl.coins_laws.
#[local] Existing Instance EvmImpl.eth.
#[local] Existing Instance EvmImpl.auth.
#[local] Instance auth_laws1 : Auth.Laws emptyCodeHash := AuthImpl.auth_laws emptyCodeHash.

(** ** Keys

    A key is one of two, its signature says which, and its public key ends in the name of
    the account. *)

Definition public (k : bool) : string := String (Ascii.ascii_of_nat 4) ("-----------" +:+ if k then "alice" else "bob").
Definition part (n : nat) : string := zeros 31 +:+ String (Ascii.ascii_of_nat n) "".
Definition signature (k : bool) : string := part (if k then 1 else 2) +:+ part 1 +:+ String (Ascii.ascii_of_nat 0) "".

#[local] Instance crypto : Crypto := {|
  rlpEncode _ := "";
  PrivateKey := bool;
  PublicKey := public;
  SignHash _ k := Some (signature k);
  ValidateSignatureValues _ r s := (0 <? r) && (r <? 2 ^ 256) && ((0 <? s) && (s <? 2 ^ 256));
  Ecrecover _ sig := if String.eqb sig (signature true) then Some (public true)
                     else if String.eqb sig (signature false) then Some (public false) else None;
  FromHex := id;
  ValidEip _ := true;
  AddressString := id;
  HexToAddress := id;
|}.

#[local] Instance crypto_laws : CryptoLaws.
Proof.
  split; [by eexists| |by eexists| |done].
  - intros h k sig [= <-]. exists (part (if k then 1 else 2)), (part 1), 0%nat.
    split; [done|]. split; [by destruct k|]. split; [done|]. split; [by left|]. by destruct k; vm_compute.
  - cbn. intros _ r s H. repeat match goal with H : _ && _ = true |- _ => apply andb_prop in H as [? ?] end. lia.
Qed.

(** ** Gas *)

Record counter := MkCounter { used : Z; bound : option Z }.
Definition counted (m : counter) : Z := used m mod 2 ^ 64.
Definition within (n : Z) (o : option Z) : bool := match o with Some l => n <=? l | None => true end.

#[local] Instance gas : Gas.Ops := {|
  Gas.meter := counter;
  Gas.NewGasMeter l := MkCounter 0 (Some l);
  Gas.NewInfiniteGasMeter := MkCounter 0 None;
  Gas.GasConsumed := counted;
  Gas.Limit := bound;
  Gas.ConsumeGas n := λ m,
    if (counted m + n <? 2 ^ 64) && within (counted m + n) (bound m) then (Ok tt, MkCounter (counted m + n) (bound m))
    else (Panic, m);
|}.

#[local] Instance gas_laws : Gas.Laws.
Proof.
  assert (∀ m, 0 ≤ counted m < 2 ^ 64) as Hr by (intros m; apply Z.mod_pos_bound; lia).
  split; [done|done|exact Hr| |].
  - cbn. intros n m m' Hn. destruct (Z.ltb_spec (counted m + n) (2 ^ 64)) as [Hlt|]; [|done]. cbn [andb].
    destruct (within _ _) eqn:Ew; [|done]. intros [= <-]. specialize (Hr m).
    assert (counted (MkCounter (counted m + n) (bound m)) = counted m + n) as -> by (apply Z.mod_small; cbn; lia).
    split; [done|]. split; [done|]. intros l Hl. rewrite Hl in Ew. by apply Z.leb_le.
  - cbn. intros n m Hn Hs Hl. rewrite (proj2 (Z.ltb_lt _ _)) by done. cbn [andb].
    assert (within (counted m + n) (bound m) = true) as ->; [|by eexists].
    destruct (bound m) as [l|] eqn:El; [|done]. cbn. apply Z.leb_le. by apply Hl.
Qed.

(** ** The virtual machine: a call transfers its value and takes half of the gas *)

#[local] Instance machine : VM := {|
  VmCreate _ _ _ gas _ := mret (MkVmResult None gas None, "contract");
  VmCall _ caller addr _ gas value :=
    SubBalance caller value;; AddBalance addr value;; mret (MkVmResult None (gas - gas / 2) None);
  IntrinsicGas _ _ _ _ := Some 21000;
  LogsBloom l := match l with [] => 0 | _ => 1 end;
  TmHash := id;
  HigherThanMercury _ := true;
  paramsGas _ := 100;
  configGas _ := 200;
|}.

#[local] Instance machine_laws : VMLaws.
Proof. split; [done|done|]. intros []; cbn; lia. Qed.

(** ** Fees *)

#[local] Instance ante_env : AnteEnv := {|
  DeductFees a c := AuthImpl.send a (Auth.GetModuleAddress FeeCollectorName) c;
  SetGasMeter simulate height l := if simulate || (height =? 0)%Z then Gas.NewInfiniteGasMeter else Gas.NewGasMeter l;
  MulInt64 d n := d * n;
  ErrInsufficientFee := MkError "sdk" 13;
  ErrUnauthorized := MkError "sdk" 4;
  ErrUnknownAddress := MkError "sdk" 9;
  ErrInvalidSequence := MkError "sdk" 3;
  ErrOutOfGas := MkError "sdk" 11;
|}.

(** Setting coins makes no account that can sign. *)
Lemma set_coins_back a c s b acc : Coins.IsValid c = true →
  AuthImpl.get_account (AuthImpl.set_coins_of a c s) b = Some (EthAcc acc) →
  ∃ c', AuthImpl.get_account s b = Some (EthAcc (set_aCoins c' acc)).
Proof.
  intros Hc. rewrite AuthImpl.get_set_coins by done. destruct (decide (b = a)) as [->|].
  - destruct (AuthImpl.get_account s a) as [[x|]|]; [|done..]. intros [= <-]. exists (aCoins x). by destruct x.
  - intros ->. exists (aCoins acc). by destruct acc.
Qed.

Lemma send_back a b c s s' d acc : AuthImpl.send a b c s = (Ok tt, s') → AuthImpl.get_account s' d = Some (EthAcc acc) →
  ∃ c', AuthImpl.get_account s d = Some (EthAcc (set_aCoins c' acc)).
Proof.
  unfold AuthImpl.send. destruct (Coins.IsValid c) eqn:Hc; [|done]. rewrite Coins.Sub_spec.
  pose proof (AuthImpl.coins_at_valid s a) as Hf. destruct (Coins.SafeSub (AuthImpl.coins_at s a) c).2 eqn:Hneg; [done|].
  intros E%(f_equal snd). cbn [snd] in E. subst s'. set (l := (Coins.SafeSub (AuthImpl.coins_at s a) c).1).
  assert (Coins.IsValid l = true) as Hl by (apply Coins.SafeSub_valid; coins).
  set (s1 := AuthImpl.set_coins_of a l s). pose proof (AuthImpl.coins_at_valid s1 b) as Ht.
  intros (c1 & H1)%set_coins_back; [|apply Coins.Add2_valid; coins]. apply set_coins_back in H1 as (c2 & H2); [|done].
  exists c2. by destruct acc.
Qed.

#[local] Instance ante_laws : AnteLaws.
Proof.
  split; [|done|done]. intros a c s s' H. destruct (AuthImpl.send_spec _ _ _ _ _ H) as [H1 H2].
  split; [exact H1|]. split; [exact H2|]. intros b acc. by apply send_back with (1 := H).
Qed.

(** ** Alice sends 30 to Bob *)

Definition ctx0 : EvmContext := MkEvmContext (MkContext 5 0 "tx") "okexchain-65" "proposer" false false [].
Definition signed : MsgEthereumTx :=
  match Sign 65 true (newMsgEthereumTx 3 (Some "bob") (Some 30) 50000 (Some 2) "") with
  | Ok m => m
  | _ => newMsgEthereumTx 0 None None 0 None ""
  end.
Definition alice1 : EthAccount := MkEthAccount "alice" [MkCoin "okt" 1000000] None 0 3 None.
Definition state0 : EvmState := MkEvmState
  (MkStore (AuthImpl.MkSt {["alice" := EthAcc alice1]} 1) ∅ ∅ ∅ EvmImpl.params0)
  (MkKeeper ∅ ∅ (Some DefaultChainConfig) 0 0 zeroHash 0) Gas.NewInfiniteGasMeter.
Definition state1 : EvmState := snd (EthAnteHandler ctx0 signed false state0).
Definition run1 : outcome ResultData * EvmState := NewHandler ctx0 (EthereumTx signed) state1.

(** All of the gas is paid for at first: 2 for each of 50000.  The transfer uses 300 and half of the rest. *)
Example transfer_paid :
  fst (EthAnteHandler ctx0 signed false state0) = Ok tt ∧
  (coins_at "alice" state1 "okt", coins_at feeCollector state1 "okt") = (900000, 100000) ∧
  match run1 with
  | (Ok _, s2) => Gas.GasConsumed (evMeter s2) = 25150 ∧
      (coins_at "alice" s2 "okt", coins_at "bob" s2 "okt", coins_at feeCollector s2 "okt") = (949670, 30, 50300)
  | _ => False
  end.
Proof. vm_compute. repeat split. Qed.

(** ** Bob asks for gas that he did not buy

    The gas of a MsgEthermint is bought with the fee of its standard transaction, but what is
    returned is the price and the limit that the message names.  The fee collector has the
    fees of others; the transaction of the message has a limit of 100000 gas. *)

Definition bob1 : EthAccount := MkEthAccount "bob" [] None 1 0 None.
Definition state2 : EvmState := MkEvmState
  (MkStore (AuthImpl.MkSt {["bob" := EthAcc bob1; Auth.GetModuleAddress FeeCollectorName :=
      OtherAcc (Auth.GetModuleAddress FeeCollectorName) [MkCoin "okt" 100000]]} 2) ∅ ∅ ∅ EvmImpl.params0)
  (MkKeeper ∅ ∅ (Some DefaultChainConfig) 0 0 zeroHash 0) (Gas.NewGasMeter 100000).
Definition ask : MsgEthermint := MkMsgEthermint 0 2 50000 (Some "alice") 0 "" "bob".

Example ethermint_unbought_refund :
  MsgEthermint_ValidateBasic ask = Ok tt ∧ coins_at "bob" state2 "okt" = 0 ∧
  match NewHandler ctx0 (Ethermint ask) state2 with
  | (Ok _, s2) => (coins_at "bob" s2 "okt", coins_at feeCollector s2 "okt") = (49700, 50300)
  | _ => False
  end.
Proof. vm_compute. repeat split. Qed.
End EvmTxImpl.
