(* ===== verification/StakingErrors.v ===== *)
(** * Errors of the staking module: src/x/staking/types/errors.go

    An error is its codespace and code; the constructors' arguments only fill in
    the message, which the model drops. *)

From S2P Require Import Prelude.

#[local] Open Scope Z_scope.

Module StakingErr.
Definition DefaultCodespace : string := "staking".

Definition ErrNoValidatorFound : error := MkError DefaultCodespace 67000.
Definition ErrInvalidDelegation : error := MkError DefaultCodespace 67001.
Definition ErrNilValidatorAddr : error := MkError DefaultCodespace 67002.
Definition ErrBadValidatorAddr : error := MkError DefaultCodespace 67003.
Definition ErrMoreMinSelfDelegation : error := MkError DefaultCodespace 67004.
Definition ErrProxyNotFound : error := MkError DefaultCodespace 67005.
Definition ErrEmptyValidators : error := MkError DefaultCodespace 67006.
Definition ErrProxyAlreadyExist : error := MkError DefaultCodespace 67007.
Definition ErrDescriptionIsEmpty : error := MkError DefaultCodespace 67010.
Definition ErrGetConsPubKeyBech32 : error := MkError DefaultCodespace 67011.
Definition ErrUnknownStakingQueryType : error := MkError DefaultCodespace 67012.
Definition ErrValidatorOwnerExists : error := MkError DefaultCodespace 67013.
Definition ErrValidatorPubKeyExists : error := MkError DefaultCodespace 67014.
Definition ErrValidatorPubKeyTypeNotSupported : error := MkError DefaultCodespace 67015.
Definition ErrBondedPoolOrNotBondedIsNotExist : error := MkError DefaultCodespace 67016.
Definition ErrDescriptionLength : error := MkError DefaultCodespace 67017.
Definition ErrCommissionNegative : error := MkError DefaultCodespace 67018.
Definition ErrCommissionHuge : error := MkError DefaultCodespace 67019.
Definition ErrCommissionGTMaxRate : error := MkError DefaultCodespace 67020.
Definition ErrCommissionUpdateTime : error := MkError DefaultCodespace 67021.
Definition ErrCommissionChangeRateNegative : error := MkError DefaultCodespace 67022.
Definition ErrCommissionChangeRateGTMaxRate : error := MkError DefaultCodespace 67023.
Definition ErrCommissionGTMaxChangeRate : error := MkError DefaultCodespace 67024.
Definition ErrMinSelfDelegationInvalid : error := MkError DefaultCodespace 67025.
Definition ErrNilDelegatorAddr : error := MkError DefaultCodespace 67026.
Definition ErrDelegatorEqualToProxyAddr : error := MkError DefaultCodespace 67027.
Definition ErrBadDenom : error := MkError DefaultCodespace 67028.
Definition ErrBadDelegationAmount : error := MkError DefaultCodespace 67029.
Definition ErrNoUnbondingDelegation : error := MkError DefaultCodespace 67030.
Definition ErrAddSharesToDismission : error := MkError DefaultCodespace 67031.
Definition ErrAddSharesDuringProxy : error := MkError DefaultCodespace 67032.
Definition ErrDoubleProxy : error := MkError DefaultCodespace 67033.
Definition ErrExceedValidatorAddrs : error := MkError DefaultCodespace 67034.
Definition ErrNoDelegationToAddShares : error := MkError DefaultCodespace 67035.
Definition ErrNotInDelegating : error := MkError DefaultCodespace 67036.
Definition ErrInsufficientDelegation : error := MkError DefaultCodespace 67037.
Definition ErrInsufficientQuantity : error := MkError DefaultCodespace 67038.
Definition ErrNoMinSelfDelegation : error := MkError DefaultCodespace 67039.
Definition ErrBadUnDelegationAmount : error := MkError DefaultCodespace 67040.
Definition ErrInvalidProxyUpdating : error := MkError DefaultCodespace 67041.
Definition ErrInvalidProxyWithdrawTotal : error := MkError DefaultCodespace 67042.
Definition ErrAlreadyAddedShares : error := MkError DefaultCodespace 67043.
Definition ErrNoDelegatorExisted : error := MkError DefaultCodespace 67044.
Definition ErrTargetValsDuplicate : error := MkError DefaultCodespace 67045.
Definition ErrAlreadyBound : error := MkError DefaultCodespace 67046.

  (** Every error the file can build, in the order of the file. *)
Definition all : list error := [
    ErrNoValidatorFound;
    ErrInvalidDelegation;
    ErrNilValidatorAddr;
    ErrBadValidatorAddr;
    ErrMoreMinSelfDelegation;
    ErrProxyNotFound;
    ErrEmptyValidators;
    ErrProxyAlreadyExist;
    ErrDescriptionIsEmpty;
    ErrGetConsPubKeyBech32;
    ErrUnknownStakingQueryType;
    ErrValidatorOwnerExists;
    ErrValidatorPubKeyExists;
    ErrValidatorPubKeyTypeNotSupported;
    ErrBondedPoolOrNotBondedIsNotExist;
    ErrDescriptionLength;
    ErrCommissionNegative;
    ErrCommissionHuge;
    ErrCommissionGTMaxRate;
    ErrCommissionUpdateTime;
    ErrCommissionChangeRateNegative;
    ErrCommissionChangeRateGTMaxRate;
    ErrCommissionGTMaxChangeRate;
    ErrMinSelfDelegationInvalid;
    ErrNilDelegatorAddr;
    ErrDelegatorEqualToProxyAddr;
    ErrBadDenom;
    ErrBadDelegationAmount;
    ErrNoUnbondingDelegation;
    ErrAddSharesToDismission;
    ErrAddSharesDuringProxy;
    ErrDoubleProxy;
    ErrExceedValidatorAddrs;
    ErrNoDelegationToAddShares;
    ErrNotInDelegating;
    ErrInsufficientDelegation;
    ErrInsufficientQuantity;
    ErrNoMinSelfDelegation;
    ErrBadUnDelegationAmount;
    ErrInvalidProxyUpdating;
    ErrInvalidProxyWithdrawTotal;
    ErrAlreadyAddedShares;
    ErrNoDelegatorExisted;
    ErrTargetValsDuplicate;
    ErrAlreadyBound
  ].
End StakingErr.
