(* ===== verification/Staking.v ===== *)
(** * The staking module: src/x/staking

    Validators and delegators, the shares that delegators add to validators, proxies,
    undelegations and the validator set that is given to Tendermint.  [StakingState] is
    the state [W] of the rest of the application and the stores of the module; the keys
    of a store are pairs where the source concatenates fields of fixed length.  Times
    are in nanoseconds.

    The module is written against the interfaces it has in the source.  [SupplyOps] are
    the two calls of the supply keeper that only this module makes.  [Env] collects what
    lies outside the repository: the address, the type and the bytes of a public key, the
    bech32 form, the reduction of the power, and the floating point power of two of
    keeper/weight.go.  [App] is the rest of the application: the bank, and the hooks
    (StakingHooks of types/expected_keepers.go) that the distribution and the slashing
    module register.  An operator's, a consensus and an account address are their bytes. *)

From S2P Require Import Prelude SdkDec SdkCoins GoStd Common StakingErrors Token.

#[local] Open Scope Z_scope.

Module Staking.

Abbreviation ValAddress := string (only parsing).
Abbreviation ConsAddress := string (only parsing).
Abbreviation PubKey := string (only parsing).

Definition ModuleName : string := "staking".
Definition NotBondedPoolName : string := "not_bonded_tokens_pool".
Definition BondedPoolName : string := "bonded_tokens_pool".

(** ** Data (types/validator.go, delegator.go, delegation.go, commission.go, params.go) *)

Definition MaxMonikerLength : nat := 70.
Definition MaxIdentityLength : nat := 3000.
Definition MaxWebsiteLength : nat := 140.
Definition MaxDetailsLength : nat := 280.
Definition DoNotModifyDesc : string := "[do-not-modify]".

Record Description := MkDescription {
  Moniker : string; Identity : string; Website : string; Details : string
}.

#[export] Instance Description_eq_dec : EqDecision Description.
Proof. solve_decision. Defined.

(** The statuses of the SDK; a stored status is one of them. *)
Inductive BondStatus := Unbonded | Unbonding | Bonded.

#[export] Instance BondStatus_eq_dec : EqDecision BondStatus.
Proof. solve_decision. Defined.

Record Commission := MkCommission { Rate : Dec; MaxRate : Dec; MaxChangeRate : Dec; UpdateTime : Z }.

Record Validator := MkValidator {
  OperatorAddress : ValAddress;
  ConsPubKey : PubKey;
  Jailed : bool;
  Status : BondStatus;
  vTokens : Z;
  DelegatorShares : Dec;
  vDescription : Description;
  UnbondingHeight : Z;
  UnbondingCompletionTime : Z;
  vCommission : Commission;
  vMinSelfDelegation : Dec;
}.

(** A nil proxy address is the empty one. *)
Record Delegator := MkDelegator {
  DelegatorAddress : AccAddress;
  ValidatorAddresses : list ValAddress;
  Shares : Dec;
  Tokens : Dec;
  IsProxy : bool;
  TotalDelegatedTokens : Dec;
  ProxyAddress : AccAddress;
}.

Record UndelegationInfo := MkUndelegationInfo {
  uDelegatorAddress : AccAddress; Quantity : Dec; CompletionTime : Z
}.

Record Params := MkParams {
  UnbondingTime : Z;
  MaxValidators : Z;
  Epoch : Z;
  MaxValsToAddShares : Z;
  BondDenom : string;
  MinDelegation : Dec;
  MinSelfDelegation : Dec;
}.

(** abci.ValidatorUpdate *)
Record ValidatorUpdate := MkValidatorUpdate { uPubKey : PubKey; uPower : Z }.

Section setters.
Implicit Type s : Validator.
Definition set_Jailed (x : bool) s : Validator :=
  MkValidator (OperatorAddress s) (ConsPubKey s) x (Status s) (vTokens s) (DelegatorShares s)
    (vDescription s) (UnbondingHeight s) (UnbondingCompletionTime s) (vCommission s) (vMinSelfDelegation s).
Definition set_Status (x : BondStatus) s : Validator :=
  MkValidator (OperatorAddress s) (ConsPubKey s) (Jailed s) x (vTokens s) (DelegatorShares s)
    (vDescription s) (UnbondingHeight s) (UnbondingCompletionTime s) (vCommission s) (vMinSelfDelegation s).
Definition set_DelegatorShares (x : Dec) s : Validator :=
  MkValidator (OperatorAddress s) (ConsPubKey s) (Jailed s) (Status s) (vTokens s) x (vDescription s)
    (UnbondingHeight s) (UnbondingCompletionTime s) (vCommission s) (vMinSelfDelegation s).
Definition set_vDescription (x : Description) s : Validator :=
  MkValidator (OperatorAddress s) (ConsPubKey s) (Jailed s) (Status s) (vTokens s) (DelegatorShares s) x
    (UnbondingHeight s) (UnbondingCompletionTime s) (vCommission s) (vMinSelfDelegation s).
Definition set_vCommission (x : Commission) s : Validator :=
  MkValidator (OperatorAddress s) (ConsPubKey s) (Jailed s) (Status s) (vTokens s) (DelegatorShares s)
    (vDescription s) (UnbondingHeight s) (UnbondingCompletionTime s) x (vMinSelfDelegation s).
Definition set_vMinSelfDelegation (x : Dec) s : Validator :=
  MkValidator (OperatorAddress s) (ConsPubKey s) (Jailed s) (Status s) (vTokens s) (DelegatorShares s)
    (vDescription s) (UnbondingHeight s) (UnbondingCompletionTime s) (vCommission s) x.

(** The fields that beginUnbondingValidator writes. *)
Definition set_Unbonding (time height : Z) s : Validator :=
  MkValidator (OperatorAddress s) (ConsPubKey s) (Jailed s) (Status s) (vTokens s) (DelegatorShares s)
    (vDescription s) height time (vCommission s) (vMinSelfDelegation s).
End setters.

Section delegator_setters.
Implicit Type s : Delegator.
Definition set_ValidatorAddresses (x : list ValAddress) s : Delegator :=
  MkDelegator (DelegatorAddress s) x (Shares s) (Tokens s) (IsProxy s) (TotalDelegatedTokens s)
    (ProxyAddress s).
Definition set_Shares (x : Dec) s : Delegator :=
  MkDelegator (DelegatorAddress s) (ValidatorAddresses s) x (Tokens s) (IsProxy s) (TotalDelegatedTokens s)
    (ProxyAddress s).
Definition set_Tokens (x : Dec) s : Delegator :=
  MkDelegator (DelegatorAddress s) (ValidatorAddresses s) (Shares s) x (IsProxy s) (TotalDelegatedTokens s)
    (ProxyAddress s).
Definition set_IsProxy (x : bool) s : Delegator :=
  MkDelegator (DelegatorAddress s) (ValidatorAddresses s) (Shares s) (Tokens s) x (TotalDelegatedTokens s)
    (ProxyAddress s).
Definition set_TotalDelegatedTokens (x : Dec) s : Delegator :=
  MkDelegator (DelegatorAddress s) (ValidatorAddresses s) (Shares s) (Tokens s) (IsProxy s) x
    (ProxyAddress s).
Definition set_ProxyAddress (x : AccAddress) s : Delegator :=
  MkDelegator (DelegatorAddress s) (ValidatorAddresses s) (Shares s) (Tokens s) (IsProxy s)
    (TotalDelegatedTokens s) x.
End delegator_setters.

(** ** Messages (types/msg.go, types/msg_shares.go) *)

Record MsgCreateValidator := MkMsgCreateValidator {
  cvDescription : Description; cvMinSelfDelegation : SysCoin; cvDelegatorAddress : AccAddress;
  cvValidatorAddress : ValAddress; cvPubKey : PubKey
}.
Record MsgEditValidator := MkMsgEditValidator { evDescription : Description; evValidatorAddress : ValAddress }.
Record MsgDestroyValidator := MkMsgDestroyValidator { dvDelAddr : AccAddress }.
Record MsgUnbindProxy := MkMsgUnbindProxy { ubDelAddr : AccAddress }.
Record MsgRegProxy := MkMsgRegProxy { rpProxyAddress : AccAddress; Reg : bool }.
Record MsgBindProxy := MkMsgBindProxy { bpDelAddr : AccAddress; bpProxyAddress : AccAddress }.
Record MsgAddShares := MkMsgAddShares { asDelAddr : AccAddress; ValAddrs : list ValAddress }.
Record MsgDeposit := MkMsgDeposit { dpDelegatorAddress : AccAddress; dpAmount : SysCoin }.
Record MsgWithdraw := MkMsgWithdraw { wdDelegatorAddress : AccAddress; wdAmount : SysCoin }.

Inductive Msg :=
| MCreateValidator (m : MsgCreateValidator)
| MEditValidator (m : MsgEditValidator)
| MDeposit (m : MsgDeposit)
| MWithdraw (m : MsgWithdraw)
| MAddShares (m : MsgAddShares)
| MBindProxy (m : MsgBindProxy)
| MUnbindProxy (m : MsgUnbindProxy)
| MRegProxy (m : MsgRegProxy)
| MDestroyValidator (m : MsgDestroyValidator)
| MOther.

(** ** State *)

Record StakingState {W : Type} := MkStakingState {
  world : W;
  delegators : gmap AccAddress Delegator;
  validators : gmap ValAddress Validator;
  byConsAddr : gmap ConsAddress ValAddress;
  powerIndex : gmap (Z * ValAddress) ValAddress;
  lastPowers : gmap ValAddress Z;
  lastTotalPower : option Z;
  validatorQueue : gmap Z (list ValAddress);
  allShares : gmap (ValAddress * AccAddress) Dec;
  undelegations : gmap AccAddress UndelegationInfo;
  timeQueue : gset (Z * AccAddress);
  proxies : gset (AccAddress * AccAddress);
  abandoned : list ValAddress;
  epoch : option Z;
  endOfLastEpoch : option Z;
  params : Params;
}.
Arguments StakingState : clear implicits.

Section state_setters.
Context {W : Type}.
Implicit Type s : StakingState W.

Definition set_world (x : W) s : StakingState W :=
  MkStakingState _ x (delegators s) (validators s) (byConsAddr s) (powerIndex s) (lastPowers s)
    (lastTotalPower s) (validatorQueue s) (allShares s) (undelegations s) (timeQueue s) (proxies s)
    (abandoned s) (epoch s) (endOfLastEpoch s) (params s).
Definition set_delegators (x : gmap AccAddress Delegator) s : StakingState W :=
  MkStakingState _ (world s) x (validators s) (byConsAddr s) (powerIndex s) (lastPowers s)
    (lastTotalPower s) (validatorQueue s) (allShares s) (undelegations s) (timeQueue s) (proxies s)
    (abandoned s) (epoch s) (endOfLastEpoch s) (params s).
Definition set_validators (x : gmap ValAddress Validator) s : StakingState W :=
  MkStakingState _ (world s) (delegators s) x (byConsAddr s) (powerIndex s) (lastPowers s)
    (lastTotalPower s) (validatorQueue s) (allShares s) (undelegations s) (timeQueue s) (proxies s)
    (abandoned s) (epoch s) (endOfLastEpoch s) (params s).
Definition set_byConsAddr (x : gmap ConsAddress ValAddress) s : StakingState W :=
  MkStakingState _ (world s) (delegators s) (validators s) x (powerIndex s) (lastPowers s)
    (lastTotalPower s) (validatorQueue s) (allShares s) (undelegations s) (timeQueue s) (proxies s)
    (abandoned s) (epoch s) (endOfLastEpoch s) (params s).
Definition set_powerIndex (x : gmap (Z * ValAddress) ValAddress) s : StakingState W :=
  MkStakingState _ (world s) (delegators s) (validators s) (byConsAddr s) x (lastPowers s)
    (lastTotalPower s) (validatorQueue s) (allShares s) (undelegations s) (timeQueue s) (proxies s)
    (abandoned s) (epoch s) (endOfLastEpoch s) (params s).
Definition set_lastPowers (x : gmap ValAddress Z) s : StakingState W :=
  MkStakingState _ (world s) (delegators s) (validators s) (byConsAddr s) (powerIndex s) x
    (lastTotalPower s) (validatorQueue s) (allShares s) (undelegations s) (timeQueue s) (proxies s)
    (abandoned s) (epoch s) (endOfLastEpoch s) (params s).
Definition set_lastTotalPower (x : option Z) s : StakingState W :=
  MkStakingState _ (world s) (delegators s) (validators s) (byConsAddr s) (powerIndex s) (lastPowers s) x
    (validatorQueue s) (allShares s) (undelegations s) (timeQueue s) (proxies s) (abandoned s) (epoch s)
    (endOfLastEpoch s) (params s).
Definition set_validatorQueue (x : gmap Z (list ValAddress)) s : StakingState W :=
  MkStakingState _ (world s) (delegators s) (validators s) (byConsAddr s) (powerIndex s) (lastPowers s)
    (lastTotalPower s) x (allShares s) (undelegations s) (timeQueue s) (proxies s) (abandoned s) (epoch s)
    (endOfLastEpoch s) (params s).
Definition set_allShares (x : gmap (ValAddress * AccAddress) Dec) s : StakingState W :=
  MkStakingState _ (world s) (delegators s) (validators s) (byConsAddr s) (powerIndex s) (lastPowers s)
    (lastTotalPower s) (validatorQueue s) x (undelegations s) (timeQueue s) (proxies s) (abandoned s)
    (epoch s) (endOfLastEpoch s) (params s).
Definition set_undelegations (x : gmap AccAddress UndelegationInfo) s : StakingState W :=
  MkStakingState _ (world s) (delegators s) (validators s) (byConsAddr s) (powerIndex s) (lastPowers s)
    (lastTotalPower s) (validatorQueue s) (allShares s) x (timeQueue s) (proxies s) (abandoned s) (epoch s)
    (endOfLastEpoch s) (params s).
Definition set_timeQueue (x : gset (Z * AccAddress)) s : StakingState W :=
  MkStakingState _ (world s) (delegators s) (validators s) (byConsAddr s) (powerIndex s) (lastPowers s)
    (lastTotalPower s) (validatorQueue s) (allShares s) (undelegations s) x (proxies s) (abandoned s)
    (epoch s) (endOfLastEpoch s) (params s).
Definition set_proxies (x : gset (AccAddress * AccAddress)) s : StakingState W :=
  MkStakingState _ (world s) (delegators s) (validators s) (byConsAddr s) (powerIndex s) (lastPowers s)
    (lastTotalPower s) (validatorQueue s) (allShares s) (undelegations s) (timeQueue s) x (abandoned s)
    (epoch s) (endOfLastEpoch s) (params s).
Definition set_abandoned (x : list ValAddress) s : StakingState W :=
  MkStakingState _ (world s) (delegators s) (validators s) (byConsAddr s) (powerIndex s) (lastPowers s)
    (lastTotalPower s) (validatorQueue s) (allShares s) (undelegations s) (timeQueue s) (proxies s) x
    (epoch s) (endOfLastEpoch s) (params s).
Definition set_epoch (x : option Z) s : StakingState W :=
  MkStakingState _ (world s) (delegators s) (validators s) (byConsAddr s) (powerIndex s) (lastPowers s)
    (lastTotalPower s) (validatorQueue s) (allShares s) (undelegations s) (timeQueue s) (proxies s)
    (abandoned s) x (endOfLastEpoch s) (params s).
Definition set_endOfLastEpoch (x : option Z) s : StakingState W :=
  MkStakingState _ (world s) (delegators s) (validators s) (byConsAddr s) (powerIndex s) (lastPowers s)
    (lastTotalPower s) (validatorQueue s) (allShares s) (undelegations s) (timeQueue s) (proxies s)
    (abandoned s) (epoch s) x (params s).
Definition set_params (x : Params) s : StakingState W :=
  MkStakingState _ (world s) (delegators s) (validators s) (byConsAddr s) (powerIndex s) (lastPowers s)
    (lastTotalPower s) (validatorQueue s) (allShares s) (undelegations s) (timeQueue s) (proxies s)
    (abandoned s) (epoch s) (endOfLastEpoch s) x.
End state_setters.

(** ** Interfaces *)

Class SupplyOps `{BO : Bank.Ops} := {
  HasAccount : Bank.state → AccAddress → bool;
  DelegateCoinsFromAccountToModule : AccAddress → string → SysCoins → M Bank.state unit;
  UndelegateCoinsFromModuleToAccount : string → AccAddress → SysCoins → M Bank.state unit;
}.

Class Env := {
  pk_Address : PubKey → ConsAddress;
  pk_Type : PubKey → string;
  (* ctx.ConsensusParams().Validator.PubKeyTypes, when there are consensus parameters *)
  PubKeyTypes : option (list string);
  (* the bytes of a key, and bech32 with the prefix of the keys of consensus nodes *)
  pk_Bytes : PubKey → string;
  PubKeyFromBytes : string → option PubKey;
  bech32_ConvertAndEncode : string → option string;
  GetFromBech32 : string → option string;
  PowerReduction : Z;
  ValidatorUpdateDelay : Z;
  QuoInt : Dec → Z → Dec;
  (* the method Int64 of the big.Int inside of a Dec *)
  DecInt64 : Dec → Z;
  (* the decimal of 2^(weeks/52), printed with all its digits and parsed *)
  pow_weight : Z → outcome Dec;
}.

Class App (W : Type) `{BO : Bank.Ops} := {
  bank : W → Bank.state;
  set_bank : Bank.state → W → W;
  hookValidatorCreated : Context → ValAddress → M (StakingState W) unit;
  hookValidatorRemoved : Context → ConsAddress → ValAddress → M (StakingState W) unit;
  hookValidatorBonded : Context → ConsAddress → ValAddress → M (StakingState W) unit;
  hookValidatorBeginUnbonding : Context → ConsAddress → ValAddress → M (StakingState W) unit;
  hookValidatorDestroyed : Context → ConsAddress → ValAddress → M (StakingState W) unit;
}.

(** ** Descriptions, commissions, validators and delegators *)

Section types.
Context `{DO : Dec.Ops} `{CO : Coins.Ops} `{EV : Env}.

Definition EnsureLength (d : Description) : outcome Description :=
  if (MaxMonikerLength <? String.length (Moniker d))%nat then Err StakingErr.ErrDescriptionLength
  else if (MaxIdentityLength <? String.length (Identity d))%nat then Err StakingErr.ErrDescriptionLength
  else if (MaxWebsiteLength <? String.length (Website d))%nat then Err StakingErr.ErrDescriptionLength
  else if (MaxDetailsLength <? String.length (Details d))%nat then Err StakingErr.ErrDescriptionLength
  else Ok d.

Definition UpdateDescription (d d2 : Description) : outcome Description :=
  let pick old new := if String.eqb new DoNotModifyDesc then old else new in
  EnsureLength (MkDescription (pick (Moniker d) (Moniker d2)) (pick (Identity d) (Identity d2))
    (pick (Website d) (Website d2)) (pick (Details d) (Details d2))).

Definition NewCommission (rate maxRate maxChangeRate : Dec) : Commission :=
  MkCommission rate maxRate maxChangeRate 0.

Definition Commission_Validate (c : Commission) : outcome unit :=
  if Dec.LT (MaxRate c) Dec.ZeroDec then Err StakingErr.ErrCommissionNegative
  else if Dec.GT (MaxRate c) Dec.OneDec then Err StakingErr.ErrCommissionHuge
  else if Dec.LT (Rate c) Dec.ZeroDec then Err StakingErr.ErrCommissionNegative
  else if Dec.GT (Rate c) (MaxRate c) then Err StakingErr.ErrCommissionGTMaxRate
  else if Dec.LT (MaxChangeRate c) Dec.ZeroDec then Err StakingErr.ErrCommissionChangeRateNegative
  else if Dec.GT (MaxChangeRate c) (MaxRate c) then Err StakingErr.ErrCommissionChangeRateGTMaxRate
  else Ok tt.

Definition NewValidator (operator : ValAddress) (pubKey : PubKey) (description : Description)
    (minSelfDelegation : Dec) : Validator :=
  MkValidator operator pubKey false Unbonded 0 Dec.ZeroDec description 0 0
    (NewCommission Dec.ZeroDec Dec.ZeroDec Dec.ZeroDec) minSelfDelegation.

Definition SetInitialCommission (commission : Commission) (v : Validator) : outcome Validator :=
  _ ← Commission_Validate commission; Ok (set_vCommission commission v).

(** types/keys.go *)
Definition Bech32ifyConsPub (pub : PubKey) : option string := bech32_ConvertAndEncode (pk_Bytes pub).
Definition GetConsPubKeyBech32 (pubkey : string) : option PubKey :=
  bz ← GetFromBech32 pubkey; PubKeyFromBytes bz.

Definition ConsAddress_of (v : Validator) : ConsAddress := pk_Address (ConsPubKey v).
Definition IsBonded (v : Validator) : bool := bool_decide (Status v = Bonded).
Definition IsUnbonded (v : Validator) : bool := bool_decide (Status v = Unbonded).
Definition IsUnbonding (v : Validator) : bool := bool_decide (Status v = Unbonding).

(** types/validator_standardized.go *)
Definition sharesToConsensusPower (shares : Dec) : Z := DecInt64 (QuoInt shares PowerReduction).
Definition PotentialConsensusPowerByShares (v : Validator) : Z := sharesToConsensusPower (DelegatorShares v).
Definition ConsensusPowerByShares (v : Validator) : Z :=
  if IsBonded v then PotentialConsensusPowerByShares v else 0.
Definition ConsensusPower (v : Validator) : Z :=
  if IsBonded v then PotentialConsensusPowerByShares v else 0.
Definition ABCIValidatorUpdateByShares (v : Validator) : ValidatorUpdate :=
  MkValidatorUpdate (ConsPubKey v) (ConsensusPowerByShares v).
Definition ABCIValidatorUpdate (v : Validator) : ValidatorUpdate :=
  MkValidatorUpdate (ConsPubKey v) (ConsensusPower v).
Definition ABCIValidatorUpdateZero (v : Validator) : ValidatorUpdate :=
  MkValidatorUpdate (ConsPubKey v) 0.

(** types/keys.go: the power as eight bytes, the highest first, then the address with its
    bytes inverted.  The model keeps the unsigned power and the address; the iterators of
    the index order them as the bytes do. *)
Definition GetValidatorsByPowerIndexKey (v : Validator) : Z * ValAddress :=
  (uint64 (sharesToConsensusPower (DelegatorShares v)), OperatorAddress v).

Definition NewDelegator (delAddr : AccAddress) : Delegator :=
  MkDelegator delAddr [] Dec.ZeroDec Dec.ZeroDec false Dec.ZeroDec "".
Definition UnbindProxy (d : Delegator) : Delegator := set_ProxyAddress "" d.
Definition RegProxy (reg : bool) (d : Delegator) : Delegator :=
  let d := set_IsProxy reg d in if reg then UnbindProxy d else d.
Definition BindProxy (proxyAddr : AccAddress) (d : Delegator) : Delegator :=
  set_IsProxy false (set_ProxyAddress proxyAddr d).
Definition HasProxy (d : Delegator) : bool := negb (String.eqb (ProxyAddress d) "").

(** ** Stateless checks *)

Definition empty_description : Description := MkDescription "" "" "" "".

Definition MsgCreateValidator_ValidateBasic (msg : MsgCreateValidator) : outcome unit :=
  if Token.Empty (cvDelegatorAddress msg) then Err StakingErr.ErrNilDelegatorAddr
  else if Token.Empty (cvValidatorAddress msg) then Err StakingErr.ErrNilValidatorAddr
  else if negb (String.eqb (cvValidatorAddress msg) (cvDelegatorAddress msg)) then Err StakingErr.ErrBadValidatorAddr
  else if (Dec.LTE (Amount (cvMinSelfDelegation msg)) Dec.ZeroDec
           || negb (Coins.CoinIsValid (cvMinSelfDelegation msg)))%bool then Err StakingErr.ErrMinSelfDelegationInvalid
  else if decide (cvDescription msg = empty_description) then Err StakingErr.ErrDescriptionIsEmpty
  else Ok tt.

Definition MsgEditValidator_ValidateBasic (msg : MsgEditValidator) : outcome unit :=
  if Token.Empty (evValidatorAddress msg) then Err StakingErr.ErrNilValidatorAddr
  else if decide (evDescription msg = empty_description) then Err StakingErr.ErrNilValidatorAddr
  else Ok tt.

Definition MsgDestroyValidator_ValidateBasic (msg : MsgDestroyValidator) : outcome unit :=
  if Token.Empty (dvDelAddr msg) then Err StakingErr.ErrNilDelegatorAddr else Ok tt.

Definition MsgUnbindProxy_ValidateBasic (msg : MsgUnbindProxy) : outcome unit :=
  if Token.Empty (ubDelAddr msg) then Err StakingErr.ErrNilDelegatorAddr else Ok tt.

Definition MsgRegProxy_ValidateBasic (msg : MsgRegProxy) : outcome unit :=
  if Token.Empty (rpProxyAddress msg) then Err StakingErr.ErrNilDelegatorAddr else Ok tt.

Definition MsgBindProxy_ValidateBasic (msg : MsgBindProxy) : outcome unit :=
  if (Token.Empty (bpDelAddr msg) || Token.Empty (bpProxyAddress msg))%bool then Err StakingErr.ErrNilDelegatorAddr
  else if String.eqb (bpDelAddr msg) (bpProxyAddress msg) then Err StakingErr.ErrDelegatorEqualToProxyAddr
  else Ok tt.

Fixpoint duplicate_from (filter : gset string) (valAddrs : list ValAddress) : bool :=
  match valAddrs with
  | [] => false
  | a :: l => if decide (a ∈ filter) then true else duplicate_from ({[a]} ∪ filter) l
  end.
Definition isValsDuplicate (valAddrs : list ValAddress) : bool := duplicate_from ∅ valAddrs.

Definition MsgAddShares_ValidateBasic (msg : MsgAddShares) : outcome unit :=
  if Token.Empty (asDelAddr msg) then Err StakingErr.ErrNilDelegatorAddr
  else if (length (ValAddrs msg) =? 0)%nat then Err StakingErr.ErrBadValidatorAddr
  else if isValsDuplicate (ValAddrs msg) then Err StakingErr.ErrTargetValsDuplicate
  else Ok tt.

Definition MsgDeposit_ValidateBasic (msg : MsgDeposit) : outcome unit :=
  if Token.Empty (dpDelegatorAddress msg) then Err StakingErr.ErrNilDelegatorAddr
  else if (Dec.LTE (Amount (dpAmount msg)) Dec.ZeroDec || negb (Coins.CoinIsValid (dpAmount msg)))%bool
  then Err StakingErr.ErrBadDelegationAmount
  else Ok tt.

Definition MsgWithdraw_ValidateBasic (msg : MsgWithdraw) : outcome unit :=
  if Token.Empty (wdDelegatorAddress msg) then Err StakingErr.ErrNilDelegatorAddr
  else if negb (Coins.CoinIsValid (wdAmount msg)) then Err StakingErr.ErrBadUnDelegationAmount
  else Ok tt.

Definition ValidateBasic (msg : Msg) : outcome unit :=
  match msg with
  | MCreateValidator m => MsgCreateValidator_ValidateBasic m
  | MEditValidator m => MsgEditValidator_ValidateBasic m
  | MDeposit m => MsgDeposit_ValidateBasic m
  | MWithdraw m => MsgWithdraw_ValidateBasic m
  | MAddShares m => MsgAddShares_ValidateBasic m
  | MBindProxy m => MsgBindProxy_ValidateBasic m
  | MUnbindProxy m => MsgUnbindProxy_ValidateBasic m
  | MRegProxy m => MsgRegProxy_ValidateBasic m
  | MDestroyValidator m => MsgDestroyValidator_ValidateBasic m
  | MOther => Ok tt
  end.

Definition GetSigners (msg : Msg) : list AccAddress :=
  match msg with
  | MCreateValidator m => [cvDelegatorAddress m]
  | MEditValidator m => [evValidatorAddress m]
  | MDeposit m => [dpDelegatorAddress m]
  | MWithdraw m => [wdDelegatorAddress m]
  | MAddShares m => [asDelAddr m]
  | MBindProxy m => [bpDelAddr m]
  | MUnbindProxy m => [ubDelAddr m]
  | MRegProxy m => [rpProxyAddress m]
  | MDestroyValidator m => [dvDelAddr m]
  | MOther => []
  end.

(** ** Parameters *)

Definition DefaultEpoch : Z := 252.

Definition DefaultParams : Params :=
  MkParams (60 * 60 * 24 * 7 * 2 * 10 ^ 9) 21 DefaultEpoch 30 Coins.DefaultBondDenom
    (Dec.NewDecWithPrec 1 4) (Dec.NewDec 10000).

(** The validators of ParamSetPairs. *)
Definition ParamSetPairs_valid (p : Params) : outcome unit :=
  _ ← Common.ValidateDurationPositive (Common.IDuration (UnbondingTime p));
  _ ← Common.ValidateUint16Positive (Common.IUint16 (MaxValidators p));
  _ ← Common.ValidateDenom (Common.IString (BondDenom p));
  _ ← Common.ValidateUint16Positive (Common.IUint16 (Epoch p));
  _ ← Common.ValidateUint16Positive (Common.IUint16 (MaxValsToAddShares p));
  _ ← Common.ValidateDecPositive (Common.IDec (MinDelegation p));
  Common.ValidateDecPositive (Common.IDec (MinSelfDelegation p)).

Definition Params_Validate (p : Params) : outcome unit :=
  if String.eqb (BondDenom p) "" then Err Common.plain_error
  else if (MaxValidators p =? 0)%Z then Err Common.plain_error
  else if (Epoch p =? 0)%Z then Err Common.plain_error
  else if (MaxValsToAddShares p =? 0)%Z then Err Common.plain_error
  else Ok tt.

(** ** Shares of tokens (keeper/weight.go) *)

Definition blockTimestampEpoch : Z := 946684800.
Definition secondsPerWeek : Z := 60 * 60 * 24 * 7.

(** The weeks since the epoch, by the division of Go, which truncates. *)
Definition nowWeek (nowTime : Z) : Z := Z.quot (nowTime - blockTimestampEpoch) secondsPerWeek.

Definition calculateWeight (nowTime : Z) (tokens : Dec) : outcome Dec :=
  weightByDec ← pow_weight (nowWeek nowTime); Ok (Dec.Mul tokens weightByDec).
End types.

(** ** The keeper *)

Section keeper.
Context `{DO : Dec.Ops} `{CO : Coins.Ops} `{BO : Bank.Ops} `{SO : !SupplyOps} `{EV : Env}
  {W : Type} `{AP : !App W}.

Abbreviation State := (StakingState W) (only parsing).
Abbreviation MS := (M (StakingState W)) (only parsing).

(** A call of the supply keeper. *)
Definition on_supply {A} (m : M Bank.state A) : MS A :=
  zoom (λ s, bank (world s)) (λ b s, set_world (set_bank b (world s)) s) m.

Definition GetBondedPool (s : State) : SysCoins :=
  Bank.GetCoins (bank (world s)) (Bank.GetModuleAddress BondedPoolName).
Definition GetNotBondedPool (s : State) : SysCoins :=
  Bank.GetCoins (bank (world s)) (Bank.GetModuleAddress NotBondedPoolName).

Definition bondedTokensToNotBonded (tokens : SysCoin) : MS unit :=
  must (on_supply (Bank.SendCoinsFromModuleToModule BondedPoolName NotBondedPoolName (Coins.ToCoins tokens))).

Definition TotalBondedTokens (s : State) : Dec := Coins.AmountOf (GetBondedPool s) (BondDenom (params s)).
Definition StakingTokenSupply (s : State) : Dec :=
  Bank.GetSupplyByDenom (bank (world s)) (BondDenom (params s)).
Definition BondedRatio (s : State) : outcome Dec :=
  if Dec.IsPositive (StakingTokenSupply s)
  then or_panic (Dec.Quo (Coins.AmountOf (GetBondedPool s) (BondDenom (params s))) (StakingTokenSupply s))
  else Ok Dec.ZeroDec.

(** *** Validators as stores (keeper/validator.go)

    The cache of decoded validators is keyed by the bytes it decodes, so that a lookup
    is one of the store. *)

Definition GetValidator (addr : ValAddress) (s : State) : option Validator := validators s !! addr.
Definition mustGetValidator (addr : ValAddress) : MS Validator :=
  o ← gets (GetValidator addr); lift (or_panic o).
Definition GetValidatorByConsAddr (consAddr : ConsAddress) (s : State) : option Validator :=
  match byConsAddr s !! consAddr with
  | None => None
  | Some opAddr => GetValidator opAddr s
  end.
Definition mustGetValidatorByConsAddr (consAddr : ConsAddress) : MS Validator :=
  o ← gets (GetValidatorByConsAddr consAddr); lift (or_panic o).

Definition SetValidator (validator : Validator) : MS unit :=
  modify (λ s, set_validators (<[OperatorAddress validator := validator]> (validators s)) s).
Definition SetValidatorByConsAddr (validator : Validator) : MS unit :=
  modify (λ s, set_byConsAddr (<[ConsAddress_of validator := OperatorAddress validator]> (byConsAddr s)) s).
Definition SetNewValidatorByPowerIndex (validator : Validator) : MS unit :=
  modify (λ s, set_powerIndex
    (<[GetValidatorsByPowerIndexKey validator := OperatorAddress validator]> (powerIndex s)) s).
Definition SetValidatorByPowerIndex (validator : Validator) : MS unit :=
  if Jailed validator then mret tt
  else modify (λ s, set_powerIndex
    (<[GetValidatorsByPowerIndexKey validator := OperatorAddress validator]> (powerIndex s)) s).
Definition DeleteValidatorByPowerIndex (validator : Validator) : MS unit :=
  modify (λ s, set_powerIndex (delete (GetValidatorsByPowerIndexKey validator) (powerIndex s)) s).

Definition RemoveValidator (ctx : Context) (address : ValAddress) : MS unit :=
  o ← gets (GetValidator address);
  match o with
  | None => mret tt
  | Some validator =>
      if negb (IsUnbonded validator) then panic
      else if (0 <? vTokens validator)%Z then panic
      else
        modify (λ s, set_validators (delete address (validators s)) s);;
        modify (λ s, set_byConsAddr (delete (ConsAddress_of validator) (byConsAddr s)) s);;
        DeleteValidatorByPowerIndex validator;;
        hookValidatorRemoved ctx (ConsAddress_of validator) (OperatorAddress validator)
  end.

Definition GetAllValidators (s : State) : list Validator := snd <$> kv_sorted (validators s).

(** Reverse order of the bytes of the keys: the highest power first and, for the
    addresses are inverted, the lowest address first. *)
Definition rank_le (x y : (Z * ValAddress) * ValAddress) : Prop :=
  fst (fst y) < fst (fst x) ∨ (fst (fst x) = fst (fst y) ∧ String.le (snd (fst x)) (snd (fst y))).

#[export] Instance rank_le_dec : RelDecision rank_le.
Proof. intros x y. unfold rank_le. apply _. Defined.

(** The values that KVStoreReversePrefixIterator(ValidatorsByPowerIndexKey) visits. *)
Definition ranked (index : gmap (Z * ValAddress) ValAddress) : list ValAddress :=
  snd <$> merge_sort rank_le (map_to_list index).
Definition ValidatorsPowerStoreIterator (s : State) : list ValAddress := ranked (powerIndex s).

Definition GetLastTotalPower (s : State) : Z := default 0 (lastTotalPower s).
Definition SetLastTotalPower (power : Z) : MS unit := modify (set_lastTotalPower (Some power)).
Definition GetLastValidatorPower (operator : ValAddress) (s : State) : Z := default 0 (lastPowers s !! operator).
Definition SetLastValidatorPower (operator : ValAddress) (power : Z) : MS unit :=
  modify (λ s, set_lastPowers (<[operator := power]> (lastPowers s)) s).
Definition DeleteLastValidatorPower (operator : ValAddress) : MS unit :=
  modify (λ s, set_lastPowers (delete operator (lastPowers s)) s).

(** *** The queue of unbonding validators *)

Definition GetValidatorQueueTimeSlice (timestamp : Z) (s : State) : list ValAddress :=
  default [] (validatorQueue s !! timestamp).
Definition SetValidatorQueueTimeSlice (timestamp : Z) (keys : list ValAddress) : MS unit :=
  modify (λ s, set_validatorQueue (<[timestamp := keys]> (validatorQueue s)) s).
Definition DeleteValidatorQueueTimeSlice (timestamp : Z) : MS unit :=
  modify (λ s, set_validatorQueue (delete timestamp (validatorQueue s)) s).

Definition InsertValidatorQueue (val : Validator) : MS unit :=
  timeSlice ← gets (GetValidatorQueueTimeSlice (UnbondingCompletionTime val));
  SetValidatorQueueTimeSlice (UnbondingCompletionTime val) (timeSlice ++ [OperatorAddress val]).

Definition DeleteValidatorQueue (val : Validator) : MS unit :=
  timeSlice ← gets (GetValidatorQueueTimeSlice (UnbondingCompletionTime val));
  let newTimeSlice := filter (λ addr, addr ≠ OperatorAddress val) timeSlice in
  if (length newTimeSlice =? 0)%nat then DeleteValidatorQueueTimeSlice (UnbondingCompletionTime val)
  else SetValidatorQueueTimeSlice (UnbondingCompletionTime val) newTimeSlice.

Definition time_le {A} (x y : Z * A) : Prop := fst x ≤ fst y.

#[export] Instance time_le_dec {A} : RelDecision (@time_le A).
Proof. intros x y. unfold time_le. apply _. Defined.

Definition ValidatorQueueIterator (endTime : Z) (s : State) : list (Z * list ValAddress) :=
  merge_sort time_le (filter (λ kx : Z * list ValAddress, fst kx ≤ endTime) (map_to_list (validatorQueue s))).

(** *** Transitions of a validator (keeper/val_state_change.go) *)

Definition bondValidator (ctx : Context) (validator : Validator) : MS Validator :=
  DeleteValidatorByPowerIndex validator;;
  let validator := set_Status Bonded validator in
  SetValidator validator;;
  SetValidatorByPowerIndex validator;;
  DeleteValidatorQueue validator;;
  hookValidatorBonded ctx (ConsAddress_of validator) (OperatorAddress validator);;
  mret validator.

Definition beginUnbondingValidator (ctx : Context) (validator : Validator) : MS Validator :=
  params ← gets params;
  DeleteValidatorByPowerIndex validator;;
  if negb (IsBonded validator) then panic
  else
    let validator := set_Unbonding (BlockTime ctx + UnbondingTime params) (BlockHeight ctx)
                       (set_Status Unbonding validator) in
    SetValidator validator;;
    SetValidatorByPowerIndex validator;;
    InsertValidatorQueue validator;;
    hookValidatorBeginUnbonding ctx (ConsAddress_of validator) (OperatorAddress validator);;
    mret validator.

Definition completeUnbondingValidator (validator : Validator) : MS Validator :=
  let validator := set_Status Unbonded validator in
  SetValidator validator;; mret validator.

Definition bondedToUnbonding (ctx : Context) (validator : Validator) : MS Validator :=
  if negb (IsBonded validator) then panic else beginUnbondingValidator ctx validator.
Definition unbondingToBonded (ctx : Context) (validator : Validator) : MS Validator :=
  if negb (IsUnbonding validator) then panic else bondValidator ctx validator.
Definition unbondedToBonded (ctx : Context) (validator : Validator) : MS Validator :=
  if negb (IsUnbonded validator) then panic else bondValidator ctx validator.
Definition unbondingToUnbonded (validator : Validator) : MS Validator :=
  if negb (IsUnbonding validator) then panic else completeUnbondingValidator validator.

Definition jailValidator (validator : Validator) : MS unit :=
  if Jailed validator then panic
  else
    let validator := set_Jailed true validator in
    SetValidator validator;; DeleteValidatorByPowerIndex validator.
Definition unjailValidator (validator : Validator) : MS unit :=
  if negb (Jailed validator) then panic
  else
    let validator := set_Jailed false validator in
    SetValidator validator;; SetValidatorByPowerIndex validator.

(** keeper/slash.go *)
Definition Jail (consAddr : ConsAddress) : MS unit :=
  validator ← mustGetValidatorByConsAddr consAddr; jailValidator validator.
Definition Unjail (consAddr : ConsAddress) : MS unit :=
  validator ← mustGetValidatorByConsAddr consAddr; unjailValidator validator.

(** *** Abandoned validators (keeper/val_state.go)

    The stored list is never empty; no entry is the empty list. *)

Definition getAbandonedValidatorAddrs (s : State) : list ValAddress := abandoned s.
Definition AppendAbandonedValidatorAddrs (consAddr : ConsAddress) : MS unit :=
  validator ← mustGetValidatorByConsAddr consAddr;
  abandonedValAddr ← gets getAbandonedValidatorAddrs;
  modify (set_abandoned (abandonedValAddr ++ [OperatorAddress validator])).
Definition DeleteAbandonedValidatorAddrs : MS unit := modify (set_abandoned []).
Definition IsKickedOut (s : State) : bool := negb (length (abandoned s) =? 0)%nat.

(** Looks for candidates in place of the abandoned validators: at most [abandonedNum]. *)
Fixpoint promote (ctx : Context) (lastBondedVals : gmap ValAddress Z) (keys : list ValAddress)
    (abandonedNum : nat) (updates : list ValidatorUpdate) (totalPower : Z)
    : MS (list ValidatorUpdate * Z) :=
  match keys, abandonedNum with
  | valAddr :: keys', S n =>
      if decide (is_Some (lastBondedVals !! valAddr))
      then promote ctx lastBondedVals keys' abandonedNum updates totalPower
      else
        validator ← mustGetValidator valAddr;
        if (PotentialConsensusPowerByShares validator =? 0)%Z
        then promote ctx lastBondedVals keys' abandonedNum updates totalPower
        else
          validator ← match Status validator with
                      | Unbonded => unbondedToBonded ctx validator
                      | Unbonding => unbondingToBonded ctx validator
                      | Bonded => panic
                      end;
          let newPower := ConsensusPowerByShares validator in
          SetLastValidatorPower valAddr newPower;;
          promote ctx lastBondedVals keys' n (updates ++ [ABCIValidatorUpdateByShares validator])
            (totalPower + newPower)
  | _, _ => mret (updates, totalPower)
  end.

(** Discharges the abandoned validators. *)
Fixpoint discharge (ctx : Context) (lastBondedVals : gmap ValAddress Z) (abandonedValAddrs : list ValAddress)
    (updates : list ValidatorUpdate) (totalPower : Z) : MS (list ValidatorUpdate * Z) :=
  match abandonedValAddrs with
  | [] => mret (updates, totalPower)
  | valAddr :: l =>
      validator ← mustGetValidator valAddr;
      match Status validator with
      | Unbonded | Unbonding => discharge ctx lastBondedVals l updates totalPower
      | Bonded =>
          bondedToUnbonding ctx validator;;
          DeleteLastValidatorPower (OperatorAddress validator);;
          oldPower ← lift (or_panic (lastBondedVals !! valAddr));
          discharge ctx lastBondedVals l (updates ++ [ABCIValidatorUpdateZero validator]) (totalPower - oldPower)
      end
  end.

Definition KickOutAndReturnValidatorSetUpdates (ctx : Context) : MS (list ValidatorUpdate) :=
  lastBondedVals ← gets lastPowers;
  abandonedValAddrs ← gets getAbandonedValidatorAddrs;
  totalPower ← gets GetLastTotalPower;
  keys ← gets ValidatorsPowerStoreIterator;
  r ← promote ctx lastBondedVals keys (length abandonedValAddrs) [] totalPower;
  let '(updates, totalPower) := r in
  r ← discharge ctx lastBondedVals abandonedValAddrs updates totalPower;
  let '(updates, totalPower) := r in
  SetLastTotalPower totalPower;;
  mret updates.

(** *** The validator set at the end of an epoch (keeper/val_state_change.go) *)

(** Elects at most [maxValidators] of the ranked validators, to the first whose power is
    zero; [last] keeps the validators of the last set that are not elected. *)
Fixpoint elect (ctx : Context) (keys : list ValAddress) (left : nat) (last : gmap ValAddress Z)
    (updates : list ValidatorUpdate) (totalPower : Z)
    : MS (gmap ValAddress Z * list ValidatorUpdate * Z) :=
  match keys, left with
  | valAddr :: keys', S left' =>
      validator ← mustGetValidator valAddr;
      if Jailed validator then panic
      else if (PotentialConsensusPowerByShares validator =? 0)%Z then mret (last, updates, totalPower)
      else
        validator ← match Status validator with
                    | Unbonded => unbondedToBonded ctx validator
                    | Unbonding => unbondingToBonded ctx validator
                    | Bonded => mret validator
                    end;
        let newPower := ConsensusPowerByShares validator in
        updates ←
          (if decide (last !! valAddr = Some newPower) then mret updates
           else SetLastValidatorPower valAddr newPower;;
                mret (updates ++ [ABCIValidatorUpdateByShares validator]));
        elect ctx keys' left' (delete valAddr last) updates (totalPower + newPower)
  | _, _ => mret (last, updates, totalPower)
  end.

(** The keys of [last] in the order of their bytes. *)
Definition sortNoLongerBonded (last : gmap ValAddress Z) : list ValAddress := set_sorted (dom last).

Fixpoint retire (ctx : Context) (noLongerBonded : list ValAddress) (updates : list ValidatorUpdate)
    : MS (list ValidatorUpdate) :=
  match noLongerBonded with
  | [] => mret updates
  | valAddr :: l =>
      validator ← mustGetValidator valAddr;
      validator ← bondedToUnbonding ctx validator;
      DeleteLastValidatorPower (OperatorAddress validator);;
      retire ctx l (updates ++ [ABCIValidatorUpdateZero validator])
  end.

Definition ApplyAndReturnValidatorSetUpdates (ctx : Context) : MS (list ValidatorUpdate) :=
  maxValidators ← gets (λ s, MaxValidators (params s));
  last ← gets lastPowers;
  keys ← gets ValidatorsPowerStoreIterator;
  r ← elect ctx keys (Z.to_nat maxValidators) last [] 0;
  let '(last, updates, totalPower) := r in
  updates ← retire ctx (sortNoLongerBonded last) updates;
  (if (0 <? length updates)%nat then SetLastTotalPower totalPower else mret tt);;
  mret updates.

(** *** Unbonding validators whose time has come *)

Definition unbond_one (ctx : Context) (valAddr : ValAddress) : MS unit :=
  val ← mustGetValidator valAddr;
  if negb (IsUnbonding val) then panic
  else
    val ← unbondingToUnbonded val;
    if (Dec.IsZero (DelegatorShares val) && Dec.IsZero (vMinSelfDelegation val))%bool
    then RemoveValidator ctx (OperatorAddress val) else mret tt.

Definition UnbondAllMatureValidatorQueue (ctx : Context) : MS unit :=
  slices ← gets (ValidatorQueueIterator (BlockTime ctx));
  mapM_ (λ slice : Z * list ValAddress,
    mapM_ (unbond_one ctx) (snd slice);; DeleteValidatorQueueTimeSlice (fst slice)) slices.
End keeper.

(** ** Delegators, shares and proxies *)

Section delegation.
Context `{DO : Dec.Ops} `{CO : Coins.Ops} `{BO : Bank.Ops} `{SO : !SupplyOps} `{EV : Env}
  {W : Type} `{AP : !App W}.

Abbreviation State := (StakingState W) (only parsing).
Abbreviation MS := (M (StakingState W)) (only parsing).

Definition GetDelegator (delAddr : AccAddress) (s : State) : option Delegator := delegators s !! delAddr.
Definition SetDelegator (delegator : Delegator) : MS unit :=
  modify (λ s, set_delegators (<[DelegatorAddress delegator := delegator]> (delegators s)) s).
Definition DeleteDelegator (delAddr : AccAddress) : MS unit :=
  modify (λ s, set_delegators (delete delAddr (delegators s)) s).

Definition GetShares (delAddr : AccAddress) (valAddr : ValAddress) (s : State) : option Dec :=
  allShares s !! (valAddr, delAddr).
Definition SetShares (delAddr : AccAddress) (valAddr : ValAddress) (shares : Dec) : MS unit :=
  modify (λ s, set_allShares (<[(valAddr, delAddr) := shares]> (allShares s)) s).
Definition DeleteShares (valAddr : ValAddress) (delAddr : AccAddress) : MS unit :=
  modify (λ s, set_allShares (delete (valAddr, delAddr) (allShares s)) s).

(** The bytes of a key of two addresses behind its prefix. *)
Definition pair_key (k : string * string) : string := fst k +:+ snd k.

Definition GetValidatorAllShares (valAddr : ValAddress) (s : State) : list (AccAddress * Dec) :=
  (λ kx : ValAddress * AccAddress * Dec, (snd (fst kx), snd kx)) <$>
    keyed_sorted pair_key (filter (λ kx : ValAddress * AccAddress * Dec, fst (fst kx) = valAddr) (allShares s)).

Definition GetUndelegating (delAddr : AccAddress) (s : State) : option UndelegationInfo :=
  undelegations s !! delAddr.
Definition SetUndelegating (u : UndelegationInfo) : MS unit :=
  modify (λ s, set_undelegations (<[uDelegatorAddress u := u]> (undelegations s)) s).
Definition DeleteUndelegating (delAddr : AccAddress) : MS unit :=
  modify (λ s, set_undelegations (delete delAddr (undelegations s)) s).
Definition SetAddrByTimeKeyWithNilValue (timestamp : Z) (delAddr : AccAddress) : MS unit :=
  modify (λ s, set_timeQueue ({[(timestamp, delAddr)]} ∪ timeQueue s) s).
Definition DeleteAddrByTimeKey (timestamp : Z) (delAddr : AccAddress) : MS unit :=
  modify (λ s, set_timeQueue (timeQueue s ∖ {[(timestamp, delAddr)]}) s).

(** The keys of the queue up to a time, in the order of their bytes. *)
Definition due_le (x y : Z * AccAddress) : Prop :=
  fst x < fst y ∨ (fst x = fst y ∧ String.le (snd x) (snd y)).

#[export] Instance due_le_dec : RelDecision due_le.
Proof. intros x y. unfold due_le. apply _. Defined.

Definition getAddrByTimeKeyIterator (endTime : Z) (s : State) : list (Z * AccAddress) :=
  merge_sort due_le (filter (λ k : Z * AccAddress, fst k ≤ endTime) (elements (timeQueue s))).

(** *** Proxies (keeper/proxy.go) *)

Definition SetProxyBinding (proxyAddress delegatorAddress : AccAddress) (isRemove : bool) : MS unit :=
  modify (λ s, set_proxies (if isRemove then proxies s ∖ {[(proxyAddress, delegatorAddress)]}
                            else {[(proxyAddress, delegatorAddress)]} ∪ proxies s) s).

(** The delegators that are bound to a proxy, in the order of the store. *)
Definition GetDelegatorsByProxy (proxyAddr : AccAddress) (s : State) : list AccAddress :=
  set_sorted (set_map snd (filter (λ k : AccAddress * AccAddress, fst k = proxyAddr) (proxies s))).

Definition ClearProxy (proxyAddr : AccAddress) : MS unit :=
  delAddrs ← gets (GetDelegatorsByProxy proxyAddr);
  mapM_ (λ delAddr,
    o ← gets (GetDelegator delAddr);
    match o with
    | Some delegator => SetDelegator (UnbindProxy delegator)
    | None => mret tt
    end;;
    SetProxyBinding proxyAddr delAddr true) delAddrs.

Definition GetLastValsAddedSharesExisted (delAddr : AccAddress) (s : State) : list Validator * Dec :=
  match GetDelegator delAddr s with
  | None => ([], Dec.ZeroDec)
  | Some delegator => (omap (λ a, GetValidator a s) (ValidatorAddresses delegator), Shares delegator)
  end.

Definition GetValidatorsToAddShares (valAddrs : list ValAddress) (s : State) : outcome (list Validator) :=
  match mapM (λ a, GetValidator a s) valAddrs with
  | Some vals => Ok vals
  | None => Err StakingErr.ErrNoValidatorFound
  end.

Definition update_shares_one (delAddr : AccAddress) (lastShares shares : Dec) (val : Validator) : MS unit :=
  if Dec.IsZero (vMinSelfDelegation val) then throw StakingErr.ErrAddSharesToDismission
  else
    DeleteValidatorByPowerIndex val;;
    SetShares delAddr (OperatorAddress val) shares;;
    let val := set_DelegatorShares (Dec.Add (Dec.Sub (DelegatorShares val) lastShares) shares) val in
    SetValidator val;;
    SetValidatorByPowerIndex val.

Definition UpdateShares (ctx : Context) (delAddr : AccAddress) (tokens : Dec) : MS unit :=
  last ← gets (GetLastValsAddedSharesExisted delAddr);
  let '(vals, lastShares) := last in
  if (length vals =? 0)%nat then mret tt
  else
    shares ← lift (calculateWeight (Unix ctx) tokens);
    o ← gets (GetDelegator delAddr);
    delegator ← or_throw o StakingErr.ErrNoDelegatorExisted;
    mapM_ (update_shares_one delAddr lastShares shares) vals;;
    SetDelegator (set_Shares shares delegator).

Definition addShares (delAddr : AccAddress) (shares : Dec) (val : Validator) : MS unit :=
  SetShares delAddr (OperatorAddress val) shares;;
  DeleteValidatorByPowerIndex val;;
  let val := set_DelegatorShares (Dec.Add (DelegatorShares val) shares) val in
  SetValidator val;;
  SetValidatorByPowerIndex val.

Definition AddSharesToValidators (ctx : Context) (delAddr : AccAddress) (vals : list Validator) (tokens : Dec)
    : MS Dec :=
  shares ← lift (calculateWeight (Unix ctx) tokens);
  mapM_ (addShares delAddr shares) vals;;
  mret shares.

Definition withdrawShares (ctx : Context) (delAddr : AccAddress) (shares : Dec) (val : Validator) : MS unit :=
  DeleteShares (OperatorAddress val) delAddr;;
  DeleteValidatorByPowerIndex val;;
  let val := set_DelegatorShares (Dec.Sub (DelegatorShares val) shares) val in
  if (IsUnbonded val && Dec.IsZero (vMinSelfDelegation val) && Dec.IsZero (DelegatorShares val))%bool
  then RemoveValidator ctx (OperatorAddress val)
  else SetValidator val;; SetValidatorByPowerIndex val.

Definition WithdrawLastShares (ctx : Context) (delAddr : AccAddress) (lastVals : list Validator) (lastShares : Dec)
    : MS unit :=
  mapM_ (withdrawShares ctx delAddr lastShares) lastVals.

(** *** Deposits and withdrawals (keeper/delegation.go) *)

Definition UpdateProxy (ctx : Context) (delegator : Delegator) (tokens : Dec) : MS unit :=
  if negb (HasProxy delegator) then mret tt
  else
    o ← gets (GetDelegator (ProxyAddress delegator));
    match o with
    | Some proxy =>
        let proxy := set_TotalDelegatedTokens (Dec.Add (TotalDelegatedTokens proxy) tokens) proxy in
        throw_if (Dec.LT (TotalDelegatedTokens proxy) Dec.ZeroDec) StakingErr.ErrInvalidProxyUpdating;;
        let finalTokens := Dec.Add (TotalDelegatedTokens proxy) (Tokens proxy) in
        SetDelegator proxy;;
        UpdateShares ctx (DelegatorAddress proxy) finalTokens
    | None => throw Coins.ErrInvalidAddress
    end.

(** The tokens that a delegator's shares stand for. *)
Definition final_tokens (delegator : Delegator) : Dec :=
  if IsProxy delegator then Dec.Add (Tokens delegator) (TotalDelegatedTokens delegator) else Tokens delegator.

Definition Delegate (ctx : Context) (delAddr : AccAddress) (token : SysCoin) : MS unit :=
  params ← gets params;
  let delQuantity := Amount token in
  throw_if (Dec.LT delQuantity (MinDelegation params)) StakingErr.ErrInsufficientQuantity;;
  on_supply (DelegateCoinsFromAccountToModule delAddr BondedPoolName [token]);;
  o ← gets (GetDelegator delAddr);
  let delegator := default (NewDelegator delAddr) o in
  let delegator := set_Tokens (Dec.Add (Tokens delegator) delQuantity) delegator in
  SetDelegator delegator;;
  if HasProxy delegator then UpdateProxy ctx delegator delQuantity
  else UpdateShares ctx (DelegatorAddress delegator) (final_tokens delegator).

Definition Withdraw (ctx : Context) (delAddr : AccAddress) (token : SysCoin) : MS Z :=
  o ← gets (GetDelegator delAddr);
  delegator ← or_throw o StakingErr.ErrNoDelegationToAddShares;
  params ← gets params;
  let quantity := Amount token in
  throw_if (Dec.LT quantity (MinDelegation params)) StakingErr.ErrInsufficientQuantity;;
  throw_if (Dec.LT (Tokens delegator) quantity) StakingErr.ErrInsufficientDelegation;;
  let leftTokens := Dec.Sub (Tokens delegator) quantity in
  throw_if (IsProxy delegator && Dec.IsZero leftTokens) StakingErr.ErrInvalidProxyWithdrawTotal;;
  bondedTokensToNotBonded token;;
  (if HasProxy delegator then UpdateProxy ctx delegator (Dec.Mul quantity (Dec.NewDec (-1))) else mret tt);;
  (if Dec.IsZero leftTokens then
     last ← gets (GetLastValsAddedSharesExisted delAddr);
     WithdrawLastShares ctx delAddr (fst last) (snd last);;
     (if HasProxy delegator then SetProxyBinding (ProxyAddress delegator) delAddr true else mret tt);;
     DeleteDelegator delAddr
   else
     let delegator := set_Tokens leftTokens delegator in
     SetDelegator delegator;;
     if negb (HasProxy delegator) then UpdateShares ctx (DelegatorAddress delegator) (final_tokens delegator)
     else mret tt);;
  let completionTime := BlockTime ctx + UnbondingTime params in
  o ← gets (GetUndelegating delAddr);
  (match o with
   | None => SetUndelegating (MkUndelegationInfo delAddr quantity completionTime)
   | Some u =>
       DeleteAddrByTimeKey (CompletionTime u) delAddr;;
       SetUndelegating (MkUndelegationInfo (uDelegatorAddress u) (Dec.Add (Quantity u) quantity) completionTime)
   end);;
  SetAddrByTimeKeyWithNilValue completionTime delAddr;;
  mret completionTime.

Definition CompleteUndelegation (delAddr : AccAddress) : MS Dec :=
  o ← gets (GetUndelegating delAddr);
  ud ← or_throw o StakingErr.ErrNotInDelegating;
  denom ← gets (λ s, BondDenom (params s));
  coin ← lift (or_panic (Coins.NewDecCoinFromDec denom (Quantity ud)));
  on_supply (UndelegateCoinsFromModuleToAccount NotBondedPoolName (uDelegatorAddress ud) [coin]);;
  DeleteUndelegating delAddr;;
  mret (Quantity ud).

(** *** The minimum self delegation (keeper/min_self_delegation.go) *)

Definition getSharesFromDefaultMinSelfDelegation : Dec := Dec.OneDec.

Definition WithdrawMinSelfDelegation (ctx : Context) (delAddr : AccAddress) (validator : Validator) : MS Z :=
  throw_if (Dec.IsZero (vMinSelfDelegation validator)) StakingErr.ErrNoMinSelfDelegation;;
  let remainShares := Dec.Sub (DelegatorShares validator) getSharesFromDefaultMinSelfDelegation in
  throw_if (Dec.LT remainShares Dec.ZeroDec) StakingErr.ErrMoreMinSelfDelegation;;
  coin ← lift (or_panic (Coins.NewDecCoinFromDec Coins.DefaultBondDenom (vMinSelfDelegation validator)));
  bondedTokensToNotBonded coin;;
  params ← gets params;
  let completionTime := BlockTime ctx + UnbondingTime params in
  SetUndelegating (MkUndelegationInfo delAddr (vMinSelfDelegation validator) completionTime);;
  SetAddrByTimeKeyWithNilValue completionTime delAddr;;
  let validator := set_Jailed true (set_vMinSelfDelegation Dec.ZeroDec validator) in
  hookValidatorDestroyed ctx (ConsAddress_of validator) (OperatorAddress validator);;
  (match Status validator with
   | Bonded => AppendAbandonedValidatorAddrs (ConsAddress_of validator)
   | _ => mret tt
   end);;
  if (IsUnbonded validator && Dec.IsZero remainShares && Dec.IsZero (vMinSelfDelegation validator))%bool
  then RemoveValidator ctx (OperatorAddress validator);; mret completionTime
  else
    DeleteValidatorByPowerIndex validator;;
    SetValidator (set_DelegatorShares remainShares validator);;
    mret completionTime.

Definition addSharesAsDefaultMinSelfDelegation (validator : Validator) : MS Validator :=
  DeleteValidatorByPowerIndex validator;;
  let validator := set_DelegatorShares
    (Dec.Add (DelegatorShares validator) getSharesFromDefaultMinSelfDelegation) validator in
  SetValidator validator;;
  SetValidatorByPowerIndex validator;;
  mret validator.

Definition AddSharesAsMinSelfDelegation (delAddr : AccAddress) (validator : Validator) (defaultMSDToken : SysCoin)
    : MS Validator :=
  on_supply (DelegateCoinsFromAccountToModule delAddr BondedPoolName [defaultMSDToken]);;
  addSharesAsDefaultMinSelfDelegation validator.

(** ** Handlers (handler.go, handler_shares.go) *)

Definition handleMsgCreateValidator (ctx : Context) (msg : MsgCreateValidator) : MS unit :=
  o ← gets (GetValidator (cvValidatorAddress msg));
  throw_if (bool_decide (is_Some o)) StakingErr.ErrValidatorOwnerExists;;
  o ← gets (GetValidatorByConsAddr (pk_Address (cvPubKey msg)));
  throw_if (bool_decide (is_Some o)) StakingErr.ErrValidatorPubKeyExists;;
  params ← gets params;
  throw_if (negb (String.eqb (Denom (cvMinSelfDelegation msg)) (BondDenom params))) StakingErr.ErrBadDenom;;
  lift (EnsureLength (cvDescription msg));;
  (match PubKeyTypes with
   | Some types => throw_if (negb (bool_decide (pk_Type (cvPubKey msg) ∈ types)))
                     StakingErr.ErrValidatorPubKeyTypeNotSupported
   | None => mret tt
   end);;
  let validator := NewValidator (cvValidatorAddress msg) (cvPubKey msg) (cvDescription msg)
                     (MinSelfDelegation params) in
  validator ← lift (SetInitialCommission (NewCommission (Dec.NewDec 1) (Dec.NewDec 1) (Dec.NewDec 0)) validator);
  SetValidator validator;;
  SetValidatorByConsAddr validator;;
  SetNewValidatorByPowerIndex validator;;
  coin ← lift (or_panic (Coins.NewDecCoinFromDec (BondDenom params) (vMinSelfDelegation validator)));
  validator ← AddSharesAsMinSelfDelegation (cvDelegatorAddress msg) validator coin;
  hookValidatorCreated ctx (OperatorAddress validator).

Definition handleMsgEditValidator (msg : MsgEditValidator) : MS unit :=
  o ← gets (GetValidator (evValidatorAddress msg));
  validator ← or_throw o StakingErr.ErrNoValidatorFound;
  description ← lift (UpdateDescription (vDescription validator) (evDescription msg));
  SetValidator (set_vDescription description validator).

Definition unbindProxy (ctx : Context) (delAddr : AccAddress) : MS unit :=
  o ← gets (GetDelegator delAddr);
  delegator ← or_throw o StakingErr.ErrNoDelegationToAddShares;
  o ← gets (GetDelegator (ProxyAddress delegator));
  proxyDelegator ← or_throw o StakingErr.ErrProxyNotFound;
  wrap_err (λ _, StakingErr.ErrInvalidDelegation)
    (UpdateProxy ctx delegator (Dec.Mul (Tokens delegator) (Dec.NewDec (-1))));;
  SetDelegator (UnbindProxy delegator);;
  SetProxyBinding (DelegatorAddress proxyDelegator) (DelegatorAddress delegator) true.

Definition handleMsgBindProxy (ctx : Context) (msg : MsgBindProxy) : MS unit :=
  o ← gets (GetDelegator (bpDelAddr msg));
  delegator ← or_throw o StakingErr.ErrNoDelegationToAddShares;
  throw_if (Dec.IsZero (Tokens delegator)) StakingErr.ErrNoDelegationToAddShares;;
  throw_if (negb (Dec.Equal (Shares delegator) Dec.ZeroDec)) StakingErr.ErrAlreadyAddedShares;;
  o ← gets (GetDelegator (bpProxyAddress msg));
  proxyDelegator ← or_throw o StakingErr.ErrProxyNotFound;
  throw_if (Dec.IsZero (Tokens proxyDelegator)) StakingErr.ErrProxyNotFound;;
  throw_if (negb (IsProxy proxyDelegator)) StakingErr.ErrProxyNotFound;;
  throw_if (IsProxy delegator) StakingErr.ErrDoubleProxy;;
  if (HasProxy delegator && String.eqb (ProxyAddress delegator) (DelegatorAddress proxyDelegator))%bool then
    wrap_err (λ _, StakingErr.ErrInvalidDelegation)
      (UpdateShares ctx (DelegatorAddress proxyDelegator)
         (Dec.Add (TotalDelegatedTokens proxyDelegator) (Tokens proxyDelegator)))
  else
    (if HasProxy delegator then unbindProxy ctx (DelegatorAddress delegator) else mret tt);;
    let delegator := BindProxy (bpProxyAddress msg) delegator in
    let proxyDelegator := set_TotalDelegatedTokens
      (Dec.Add (TotalDelegatedTokens proxyDelegator) (Tokens delegator)) proxyDelegator in
    SetDelegator delegator;;
    SetDelegator proxyDelegator;;
    SetProxyBinding (DelegatorAddress proxyDelegator) (DelegatorAddress delegator) false;;
    wrap_err (λ _, StakingErr.ErrInvalidDelegation)
      (UpdateShares ctx (DelegatorAddress proxyDelegator)
         (Dec.Add (TotalDelegatedTokens proxyDelegator) (Tokens proxyDelegator))).

Definition handleMsgUnbindProxy (ctx : Context) (msg : MsgUnbindProxy) : MS unit := unbindProxy ctx (ubDelAddr msg).

Definition regProxy (ctx : Context) (proxyAddr : AccAddress) : MS unit :=
  o ← gets (GetDelegator proxyAddr);
  proxy ← or_throw o StakingErr.ErrNoDelegationToAddShares;
  throw_if (IsProxy proxy) StakingErr.ErrProxyAlreadyExist;;
  throw_if (HasProxy proxy) StakingErr.ErrAlreadyBound;;
  let proxy := RegProxy true proxy in
  SetDelegator proxy;;
  wrap_err (λ _, StakingErr.ErrInvalidDelegation) (UpdateShares ctx (DelegatorAddress proxy) (Tokens proxy)).

Definition unregProxy (ctx : Context) (proxyAddr : AccAddress) : MS unit :=
  o ← gets (GetDelegator proxyAddr);
  proxy ← or_throw o StakingErr.ErrProxyNotFound;
  throw_if (negb (IsProxy proxy)) StakingErr.ErrProxyNotFound;;
  let proxy := set_TotalDelegatedTokens Dec.ZeroDec (RegProxy false proxy) in
  ClearProxy (DelegatorAddress proxy);;
  SetDelegator proxy;;
  wrap_err (λ _, StakingErr.ErrInvalidDelegation) (UpdateShares ctx (DelegatorAddress proxy) (Tokens proxy)).

Definition handleRegProxy (ctx : Context) (msg : MsgRegProxy) : MS unit :=
  if Reg msg then regProxy ctx (rpProxyAddress msg) else unregProxy ctx (rpProxyAddress msg).

Definition isDismissed (vals : list Validator) : bool :=
  existsb (λ v, Dec.IsZero (vMinSelfDelegation v)) vals.
Definition validateSharesAdding (vals : list Validator) : outcome unit :=
  if (length vals =? 0)%nat then Err StakingErr.ErrEmptyValidators
  else if isDismissed vals then Err StakingErr.ErrAddSharesToDismission
  else Ok tt.
Definition getValsAddrs (vals : list Validator) : list ValAddress := OperatorAddress <$> vals.

Definition handleMsgAddShares (ctx : Context) (msg : MsgAddShares) : MS unit :=
  maxVals ← gets (λ s, MaxValsToAddShares (params s));
  throw_if (length (ValAddrs msg) =? 0)%nat StakingErr.ErrEmptyValidators;;
  throw_if (maxVals <? Z.of_nat (length (ValAddrs msg)))%Z StakingErr.ErrExceedValidatorAddrs;;
  o ← gets (GetDelegator (asDelAddr msg));
  delegator ← or_throw o StakingErr.ErrNoDelegationToAddShares;
  throw_if (Dec.IsZero (Tokens delegator)) StakingErr.ErrNoDelegationToAddShares;;
  throw_if (HasProxy delegator) StakingErr.ErrAddSharesDuringProxy;;
  last ← gets (GetLastValsAddedSharesExisted (asDelAddr msg));
  WithdrawLastShares ctx (asDelAddr msg) (fst last) (snd last);;
  s ← get;
  vals ← lift (GetValidatorsToAddShares (ValAddrs msg) s);
  lift (validateSharesAdding vals);;
  let totalTokens := Dec.Add (Tokens delegator) (TotalDelegatedTokens delegator) in
  shares ← AddSharesToValidators ctx (asDelAddr msg) vals totalTokens;
  SetDelegator (set_Shares shares (set_ValidatorAddresses (getValsAddrs vals) delegator)).

Definition handleMsgDeposit (ctx : Context) (msg : MsgDeposit) : MS unit :=
  denom ← gets (λ s, BondDenom (params s));
  throw_if (negb (String.eqb (Denom (dpAmount msg)) denom)) StakingErr.ErrBadDenom;;
  Delegate ctx (dpDelegatorAddress msg) (dpAmount msg).

Definition handleMsgWithdraw (ctx : Context) (msg : MsgWithdraw) : MS Z :=
  denom ← gets (λ s, BondDenom (params s));
  throw_if (negb (String.eqb (Denom (wdAmount msg)) denom)) StakingErr.ErrBadDenom;;
  Withdraw ctx (wdDelegatorAddress msg) (wdAmount msg).

Definition handleMsgDestroyValidator (ctx : Context) (msg : MsgDestroyValidator) : MS Z :=
  o ← gets (GetValidator (dvDelAddr msg));
  validator ← or_throw o StakingErr.ErrNoValidatorFound;
  WithdrawMinSelfDelegation ctx (dvDelAddr msg) validator.

Definition NewHandler (ctx : Context) (msg : Msg) : MS unit :=
  match msg with
  | MCreateValidator m => handleMsgCreateValidator ctx m
  | MEditValidator m => handleMsgEditValidator m
  | MDeposit m => handleMsgDeposit ctx m
  | MWithdraw m => handleMsgWithdraw ctx m;; mret tt
  | MAddShares m => handleMsgAddShares ctx m
  | MBindProxy m => handleMsgBindProxy ctx m
  | MUnbindProxy m => handleMsgUnbindProxy ctx m
  | MRegProxy m => handleRegProxy ctx m
  | MDestroyValidator m => handleMsgDestroyValidator ctx m;; mret tt
  | MOther => throw Coins.ErrUnknownRequest
  end.

(** ** The end of a block *)

Definition GetEpoch (s : State) : Z := default DefaultEpoch (epoch s).
Definition SetEpoch (x : Z) : MS unit := modify (set_epoch (Some x)).
Definition GetTheEndOfLastEpoch (s : State) : Z := default 0 (endOfLastEpoch s).
Definition SetTheEndOfLastEpoch (ctx : Context) : MS unit := modify (set_endOfLastEpoch (Some (BlockHeight ctx))).

(** A division by an epoch of zero blocks panics. *)
Definition IsEndOfEpoch (ctx : Context) (s : State) : outcome bool :=
  if (GetEpoch s =? 0)%Z then Panic
  else Ok (Z.rem (BlockHeight ctx - GetTheEndOfLastEpoch s) (GetEpoch s) =? 0)%Z.

(** One key of the queue of undelegations; an error is logged. *)
Definition complete_one (key : Z * AccAddress) : MS unit :=
  DeleteAddrByTimeKey (fst key) (snd key);;
  catch (CompleteUndelegation (snd key));;
  mret tt.

Definition IterateKeysBeforeCurrentTime (currentTime : Z) : MS unit :=
  keys ← gets (getAddrByTimeKeyIterator currentTime); mapM_ complete_one keys.

Definition validator_updates (ctx : Context) : MS (list ValidatorUpdate) :=
  s ← get;
  ends ← lift (IsEndOfEpoch ctx s);
  if ends : bool then
    (if (GetEpoch s =? Epoch (params s))%Z then mret tt else SetEpoch (Epoch (params s)));;
    SetTheEndOfLastEpoch ctx;;
    updates ← ApplyAndReturnValidatorSetUpdates ctx;
    DeleteAbandonedValidatorAddrs;;
    mret updates
  else if IsKickedOut s then
    updates ← KickOutAndReturnValidatorSetUpdates ctx;
    DeleteAbandonedValidatorAddrs;;
    mret updates
  else mret [].

Definition EndBlocker (ctx : Context) : MS (list ValidatorUpdate) :=
  updates ← validator_updates ctx;
  UnbondAllMatureValidatorQueue ctx;;
  IterateKeysBeforeCurrentTime (BlockTime ctx);;
  mret updates.

(** ** What other modules read (keeper/alias_functions.go, keeper/keeper.go) *)

(** The validators that IterateBondedValidatorsByPower gives its callback: the bonded
    ones, by power, at most as many as the parameter allows. *)
Fixpoint bonded_from (keys : list ValAddress) (left : nat) (s : State) : outcome (list Validator) :=
  match keys, left with
  | valAddr :: keys', S left' =>
      validator ← or_panic (GetValidator valAddr s);
      if IsBonded validator
      then l ← bonded_from keys' left' s; Ok (validator :: l)
      else bonded_from keys' left s
  | _, _ => Ok []
  end.
Definition IterateBondedValidatorsByPower (s : State) : outcome (list Validator) :=
  bonded_from (ValidatorsPowerStoreIterator s) (Z.to_nat (MaxValidators (params s))) s.

(** The validators of the last set, by address; one that is missing panics. *)
Definition IterateLastValidators (s : State) : outcome (list Validator) :=
  or_panic (mapM (λ k, GetValidator k s) (set_sorted (dom (lastPowers s)))).

Definition IsValidator (addr : AccAddress) (s : State) : outcome bool :=
  l ← IterateBondedValidatorsByPower s; Ok (bool_decide (addr ∈ getValsAddrs l)).
End delegation.

(** ** The registered invariants (keeper/invariants.go)

    A check answers whether the invariant is broken. *)

Section invariants.
Context `{DO : Dec.Ops} `{CO : Coins.Ops} `{BO : Bank.Ops} `{SO : !SupplyOps} `{EV : Env}
  {W : Type} `{AP : !App W}.

Abbreviation State := (StakingState W) (only parsing).
Abbreviation MS := (M (StakingState W)) (only parsing).

Definition all_delegators (s : State) : list Delegator := snd <$> kv_sorted (delegators s).
Definition all_undelegations (s : State) : list UndelegationInfo := snd <$> kv_sorted (undelegations s).

Definition ModuleAccountInvariantsCustom (s : State) : bool :=
  let bonded := foldl (λ t v, Dec.Add t (vMinSelfDelegation v)) Dec.ZeroDec (GetAllValidators s) in
  let bonded := foldl (λ t d, Dec.Add t (Tokens d)) bonded (all_delegators s) in
  let notBonded := foldl (λ t u, Dec.Add t (Quantity u)) Dec.ZeroDec (all_undelegations s) in
  (negb (Dec.Equal (Coins.AmountOf (GetBondedPool s) (BondDenom (params s))) bonded)
   || negb (Dec.Equal (Coins.AmountOf (GetNotBondedPool s) (BondDenom (params s))) notBonded))%bool.

Definition shares_broken (s : State) (validator : Validator) : bool :=
  let start := if (Dec.Equal (vMinSelfDelegation validator) Dec.ZeroDec && Jailed validator)%bool
               then Dec.ZeroDec else getSharesFromDefaultMinSelfDelegation in
  let totalShares := foldl (λ t x, Dec.Add t (snd x)) start (GetValidatorAllShares (OperatorAddress validator) s) in
  negb (Dec.Equal (DelegatorShares validator) totalShares).
Definition DelegatorAddSharesInvariant (s : State) : bool := existsb (shares_broken s) (GetAllValidators s).

Definition PositiveDelegatorInvariant (s : State) : bool :=
  existsb (λ d, Dec.IsNegative (Tokens d) || Dec.IsZero (Tokens d))%bool (all_delegators s).

(** The entries of the power index with their keys, and whether one is broken; an entry
    without a validator panics. *)
Fixpoint power_broken (l : list ((Z * ValAddress) * ValAddress)) (s : State) : outcome bool :=
  match l with
  | [] => Ok false
  | (key, addr) :: l =>
      validator ← or_panic (GetValidator addr s);
      rest ← power_broken l s;
      Ok (negb (bool_decide (key = GetValidatorsByPowerIndexKey validator))
          || Dec.IsNegative (DelegatorShares validator) || rest)%bool
  end.
Definition NonNegativePowerInvariantCustom (s : State) : outcome bool :=
  power_broken (merge_sort rank_le (map_to_list (powerIndex s))) s.

(** ** Genesis (genesis.go, types/genesis.go) *)

Record ValidatorExported := MkValidatorExported {
  xOperatorAddress : ValAddress; xConsPubKey : string; xJailed : bool; xStatus : BondStatus;
  xDelegatorShares : Dec; xDescription : Description; xUnbondingHeight : Z; xUnbondingCompletionTime : Z;
  xMinSelfDelegation : Dec
}.

Record GenesisState := MkGenesisState {
  gParams : Params;
  gLastTotalPower : Z;
  gLastValidatorPowers : list (ValAddress * Z);
  gValidators : list ValidatorExported;
  gDelegators : list Delegator;
  gUnbondingDelegations : list UndelegationInfo;
  (* delegator, validator and shares *)
  gAllShares : list (AccAddress * ValAddress * Dec);
  (* delegator and proxy *)
  gProxyDelegatorKeys : list (AccAddress * AccAddress);
  gExported : bool;
}.

Definition Validator_Export (v : Validator) : outcome ValidatorExported :=
  consPkStr ← or_panic (Bech32ifyConsPub (ConsPubKey v));
  Ok (MkValidatorExported (OperatorAddress v) consPkStr (Jailed v) (Status v) (DelegatorShares v)
        (vDescription v) (UnbondingHeight v) (UnbondingCompletionTime v) (vMinSelfDelegation v)).

Definition ValidatorExported_Import (ve : ValidatorExported) : outcome Validator :=
  consPk ← or_panic (GetConsPubKeyBech32 (xConsPubKey ve));
  Ok (MkValidator (xOperatorAddress ve) consPk (xJailed ve) (xStatus ve) 0 (xDelegatorShares ve)
        (xDescription ve) (xUnbondingHeight ve) (xUnbondingCompletionTime ve)
        (NewCommission (Dec.NewDec 1) (Dec.NewDec 1) (Dec.NewDec 0)) (xMinSelfDelegation ve)).

Definition initValidator (ctx : Context) (exported : bool) (bondedTokens : Dec) (ve : ValidatorExported) : MS Dec :=
  validator ← lift (ValidatorExported_Import ve);
  SetValidator validator;;
  SetValidatorByConsAddr validator;;
  SetValidatorByPowerIndex validator;;
  (if exported then mret tt else hookValidatorCreated ctx (OperatorAddress validator));;
  (if IsUnbonding validator then InsertValidatorQueue validator else mret tt);;
  mret (Dec.Add bondedTokens (vMinSelfDelegation validator)).

Definition initDelegator (bondedTokens : Dec) (delegator : Delegator) : MS Dec :=
  SetDelegator delegator;; mret (Dec.Add bondedTokens (Tokens delegator)).

Definition initUnbondingDelegation (notBondedTokens : Dec) (ubd : UndelegationInfo) : MS Dec :=
  SetUndelegating ubd;;
  SetAddrByTimeKeyWithNilValue (CompletionTime ubd) (uDelegatorAddress ubd);;
  mret (Dec.Add notBondedTokens (Quantity ubd)).

(** A loop that adds up. *)
Fixpoint foldM {A} (f : Dec → A → MS Dec) (t : Dec) (l : list A) : MS Dec :=
  match l with
  | [] => mret t
  | x :: l => t ← f t x; foldM f t l
  end.

Definition checkTokenSum (tokenSum : SysCoin) (poolCoins : SysCoins) : MS unit :=
  if Coins.IsZero poolCoins then mret tt
  else if negb (length poolCoins =? 1)%nat then panic
  else
    eq ← lift (or_panic (Coins.IsEqual (Coins.ToCoins tokenSum) poolCoins));
    if eq : bool then mret tt else panic.

Definition checkPools (bondedDecCoin notBondedDecCoin : SysCoin) (isExported : bool) : MS unit :=
  s ← get;
  if isExported then
    checkTokenSum bondedDecCoin (GetBondedPool s);;
    checkTokenSum notBondedDecCoin (GetNotBondedPool s)
  else mret tt.

(** The powers of the last set, and the updates that announce it. *)
Fixpoint init_powers (l : list (ValAddress * Z)) (res : list ValidatorUpdate) : MS (list ValidatorUpdate) :=
  match l with
  | [] => mret res
  | (addr, power) :: l =>
      SetLastValidatorPower addr power;;
      validator ← mustGetValidator addr;
      init_powers l (res ++ [MkValidatorUpdate (uPubKey (ABCIValidatorUpdate validator)) power])
  end.

Definition InitGenesis (ctx : Context) (data : GenesisState) : MS (list ValidatorUpdate) :=
  let ctx := MkContext (1 - ValidatorUpdateDelay) (BlockTime ctx) (TxBytes ctx) in
  modify (set_params (gParams data));;
  SetLastTotalPower (gLastTotalPower data);;
  bondedTokens ← foldM (initValidator ctx (gExported data)) Dec.ZeroDec (gValidators data);
  bondedTokens ← foldM initDelegator bondedTokens (gDelegators data);
  notBondedTokens ← foldM initUnbondingDelegation Dec.ZeroDec (gUnbondingDelegations data);
  mapM_ (λ x : AccAddress * ValAddress * Dec, SetShares (fst (fst x)) (snd (fst x)) (snd x)) (gAllShares data);;
  mapM_ (λ x : AccAddress * AccAddress, SetProxyBinding (snd x) (fst x) false) (gProxyDelegatorKeys data);;
  bonded ← lift (or_panic (Coins.NewDecCoinFromDec (BondDenom (gParams data)) bondedTokens));
  notBonded ← lift (or_panic (Coins.NewDecCoinFromDec (BondDenom (gParams data)) notBondedTokens));
  checkPools bonded notBonded (gExported data);;
  if gExported data then init_powers (gLastValidatorPowers data) []
  else ApplyAndReturnValidatorSetUpdates ctx.

Fixpoint export_validators (l : list Validator) : outcome (list ValidatorExported) :=
  match l with
  | [] => Ok []
  | v :: l => x ← Validator_Export v; r ← export_validators l; Ok (x :: r)
  end.

Definition ExportGenesis (s : State) : outcome GenesisState :=
  validators ← export_validators (GetAllValidators s);
  Ok (MkGenesisState (params s) (GetLastTotalPower s) (kv_sorted (lastPowers s)) validators
        (all_delegators s) (all_undelegations s)
        ((λ kx : ValAddress * AccAddress * Dec, (snd (fst kx), fst (fst kx), snd kx))
           <$> keyed_sorted pair_key (allShares s))
        ((λ k : AccAddress * AccAddress, (snd k, fst k))
           <$> (snd <$> merge_sort key_le ((λ k, (pair_key k, k)) <$> elements (proxies s))))
        true).

(** ValidateGenesis; [addrMap] holds the keys that have appeared. *)
Fixpoint validateGenesisStateValidators (addrMap : gset string) (l : list ValidatorExported) : outcome unit :=
  match l with
  | [] => Ok tt
  | ve :: l =>
      if decide (xConsPubKey ve ∈ addrMap) then Err Common.plain_error
      else if (xJailed ve && bool_decide (xStatus ve = Bonded))%bool then Err Common.plain_error
      else if Dec.IsZero (xDelegatorShares ve) then Err Common.plain_error
      else validateGenesisStateValidators ({[xConsPubKey ve]} ∪ addrMap) l
  end.
Definition ValidateGenesis (data : GenesisState) : outcome unit :=
  _ ← validateGenesisStateValidators ∅ (gValidators data); Params_Validate (gParams data).
End invariants.

End Staking.
