(* ===== verification/StakingSpec.v ===== *)
(** * The staking module in order: what its stores keep

    The laws of the interfaces ([SupplyLaws], [EnvLaws], [AppLaws]), the invariant of the
    module in four parts, and the lemmas on the operations that rewrite validators and
    shares.

    - [val_inv]: the indices of the validators (by power, by consensus address), the last
      validator set, the queue of unbonding validators and the list of abandoned ones
      agree with the records of the validators.
    - [share_inv]: the shares of a validator are those of its delegators and the one of
      its minimum self delegation.
    - [proxy_inv]: a proxy's total is the tokens of the delegators bound to it.
    - [money_inv]: the bonded pool holds the tokens of all delegators and the minimum self
      delegations; the other pool at least what is being undelegated. *)

From S2P Require Import Prelude Runs SdkDec SdkCoins GoStd CoinFacts Common StakingErrors Token Staking.

#[local] Open Scope Z_scope.

Module StakingSpec.
Import Staking.

(** ** Laws of the interfaces *)

Section laws.
Context `{DO : Dec.Ops} `{CO : Coins.Ops} `{BO : Bank.Ops}.

(** Delegation takes coins from an account that exists; accounts do not disappear. *)
Class SupplyLaws `{SO : !SupplyOps} : Prop := {
  delegate_ok a m c b b' : DelegateCoinsFromAccountToModule a m c b = (Ok tt, b') →
    Bank.moved b b' a (Bank.GetModuleAddress m) c ∧ (∀ d, 0 ≤ amt d c ≤ Bank.balance b a d) ∧ HasAccount b a = true;
  delegate_no_panic a m c b b' : DelegateCoinsFromAccountToModule a m c b ≠ (Panic, b');
  undelegate_ok m a c b b' : UndelegateCoinsFromModuleToAccount m a c b = (Ok tt, b') →
    Bank.moved b b' (Bank.GetModuleAddress m) a c ∧ (∀ d, 0 ≤ amt d c ≤ Bank.balance b (Bank.GetModuleAddress m) d);
  undelegate_err m a c b e b' : UndelegateCoinsFromModuleToAccount m a c b = (Err e, b') → b' = b;
  undelegate_no_panic m a c b b' : UndelegateCoinsFromModuleToAccount m a c b ≠ (Panic, b');
  undelegate_total m a c b : Coins.IsValid c = true → HasAccount b a = true →
    (∀ d, amt d c ≤ Bank.balance b (Bank.GetModuleAddress m) d) →
    ∃ b', UndelegateCoinsFromModuleToAccount m a c b = (Ok tt, b');
  send_account f t c b b' a : Bank.SendCoins f t c b = (Ok tt, b') → HasAccount b a = true → HasAccount b' a = true;
  delegate_account f m c b b' a : DelegateCoinsFromAccountToModule f m c b = (Ok tt, b') →
    HasAccount b a = true → HasAccount b' a = true;
  undelegate_account m t c b b' a : UndelegateCoinsFromModuleToAccount m t c b = (Ok tt, b') →
    HasAccount b a = true → HasAccount b' a = true;
}.

(** Two to the years since 2000: exact at whole years, and monotone. *)
Class EnvLaws `{EV : Env} : Prop := {
  weight_defined n : 0 ≤ n ≤ 5200 → ∃ w, pow_weight n = Ok w;
  weight_year k : 0 ≤ k ≤ 100 → pow_weight (52 * k) = Ok (2 ^ k * Dec.unit);
  weight_mono n m w w' : 0 ≤ n ≤ m → pow_weight n = Ok w → pow_weight m = Ok w' → w ≤ w';
  weight_no_panic n : pow_weight n ≠ Panic;
}.
End laws.

Section accounts.
Context `{BO : Bank.Ops}.
Definition bondedAcc : AccAddress := Bank.GetModuleAddress BondedPoolName.
Definition notBondedAcc : AccAddress := Bank.GetModuleAddress NotBondedPoolName.
End accounts.

Section app.
Context `{DO : Dec.Ops} `{CO : Coins.Ops} `{BO : Bank.Ops} `{SO : !SupplyOps} `{EV : Env} {W : Type} `{AP : !App W}.
Implicit Types (w : W) (s : StakingState W).

(** What a hook may do to the rest of the application: the pools stay as they are, no
    account disappears, and no account of a user pays. *)
Record calm (WInv : W → Prop) (protected : AccAddress → Prop) w w' : Prop := {
  calm_inv : WInv w';
  calm_pools a d : a = bondedAcc ∨ a = notBondedAcc → Bank.balance (bank w') a d = Bank.balance (bank w) a d;
  calm_pays a d : ¬ protected a → Bank.balance (bank w) a d ≤ Bank.balance (bank w') a d;
  calm_accounts a : HasAccount (bank w) a = true → HasAccount (bank w') a = true;
}.

(** [WInv] is what the rest of the application keeps, [protected] the accounts it depends
    on: other modules' accounts. *)
Class AppLaws (WInv : W → Prop) (protected : AccAddress → Prop) : Prop := {
  pools_differ : bondedAcc ≠ notBondedAcc;
  pools_own : ¬ protected bondedAcc ∧ ¬ protected notBondedAcc;
  bank_set_bank b w : bank (set_bank b w) = b;
  WInv_bank b w : WInv w → (∀ a d, protected a → Bank.balance b a d = Bank.balance (bank w) a d) → WInv (set_bank b w);
  created_hook ctx v V s : WInv (world s) → validators s !! v = Some V →
    runs (hookValidatorCreated ctx v) s (λ _ s', ∃ w', s' = set_world w' s ∧ calm WInv protected (world s) w');
  removed_hook ctx v V s : WInv (world s) → validators s !! v = None → OperatorAddress V = v →
    runs (hookValidatorRemoved ctx (ConsAddress_of V) v) s
      (λ _ s', ∃ w', s' = set_world w' s ∧ calm WInv protected (world s) w');
  bonded_hook ctx v V s : WInv (world s) → validators s !! v = Some V →
    runs (hookValidatorBonded ctx (ConsAddress_of V) v) s
      (λ _ s', ∃ w', s' = set_world w' s ∧ calm WInv protected (world s) w');
  unbonding_hook ctx v V s : WInv (world s) → validators s !! v = Some V →
    runs (hookValidatorBeginUnbonding ctx (ConsAddress_of V) v) s
      (λ _ s', ∃ w', s' = set_world w' s ∧ calm WInv protected (world s) w');
  destroyed_hook ctx v V s : WInv (world s) → validators s !! v = Some V →
    runs (hookValidatorDestroyed ctx (ConsAddress_of V) v) s
      (λ _ s', ∃ w', s' = set_world w' s ∧ calm WInv protected (world s) w');
}.
End app.

(** ** The invariant *)

Section inv.
Context `{DO : Dec.Ops} `{CO : Coins.Ops} `{BO : Bank.Ops} `{SO : !SupplyOps} `{EV : Env} {W : Type} `{AP : !App W}
  (WInv : W → Prop) (protected : AccAddress → Prop).
Implicit Types (w : W) (s : StakingState W).

(** An account that may stake. *)
Definition user (a : AccAddress) : Prop := ¬ protected a ∧ a ≠ bondedAcc ∧ a ≠ notBondedAcc ∧ a ≠ "".

Record val_inv s : Prop := {
  vi_world : WInv (world s);
  vi_op v V : validators s !! v = Some V → OperatorAddress V = v ∧ vTokens V = 0;
  vi_power k v : powerIndex s !! k = Some v ↔
    ∃ V, validators s !! v = Some V ∧ Jailed V = false ∧ k = GetValidatorsByPowerIndexKey V;
  vi_cons c v : byConsAddr s !! c = Some v ↔ ∃ V, validators s !! v = Some V ∧ c = ConsAddress_of V;
  vi_last v : is_Some (lastPowers s !! v) ↔ ∃ V, validators s !! v = Some V ∧ Status V = Bonded;
  vi_total : GetLastTotalPower s = msum id (lastPowers s);
  vi_queue t v : v ∈ GetValidatorQueueTimeSlice t s ↔
    ∃ V, validators s !! v = Some V ∧ Status V = Unbonding ∧ UnbondingCompletionTime V = t;
  vi_nodup t : NoDup (GetValidatorQueueTimeSlice t s);
  vi_abandoned v : v ∈ abandoned s → ∃ V, validators s !! v = Some V ∧ Status V ≠ Unbonded;
}.

(** The shares of delegators on a validator, and the share of its minimum self
    delegation. *)
Definition voted s (v : ValAddress) : Z :=
  msum (λ d, if decide (v ∈ ValidatorAddresses d) then Shares d else 0) (delegators s).
Definition own_share (V : Validator) : Z := if decide (vMinSelfDelegation V = 0) then 0 else Dec.unit.

Record share_inv s : Prop := {
  sh_val v V : validators s !! v = Some V →
    DelegatorShares V = own_share V + voted s v ∧ 0 ≤ vMinSelfDelegation V
    ∧ (vMinSelfDelegation V = 0 → Jailed V = true);
  sh_del a d : delegators s !! a = Some d →
    DelegatorAddress d = a ∧ 0 < Tokens d ∧ NoDup (ValidatorAddresses d)
    ∧ (∀ v, v ∈ ValidatorAddresses d → is_Some (validators s !! v)) ∧ 0 ≤ Shares d
    ∧ (ValidatorAddresses d ≠ [] → 0 < Shares d) ∧ (ValidatorAddresses d = [] → Shares d = 0);
  sh_shares v a x : allShares s !! (v, a) = Some x ↔
    ∃ d, delegators s !! a = Some d ∧ v ∈ ValidatorAddresses d ∧ x = Shares d;
}.

(** The tokens of the delegators bound to a proxy. *)
Definition bound_tokens s (p : AccAddress) : Z :=
  msum (λ d, if decide (ProxyAddress d = p) then Tokens d else 0) (delegators s).

Record proxy_inv s : Prop := {
  px_bound a d : delegators s !! a = Some d → ProxyAddress d ≠ "" →
    IsProxy d = false ∧ ValidatorAddresses d = [] ∧
    ∃ p, delegators s !! ProxyAddress d = Some p ∧ IsProxy p = true;
  px_total a d : delegators s !! a = Some d → TotalDelegatedTokens d = bound_tokens s a;
  px_key p a : (p, a) ∈ proxies s ↔ p ≠ "" ∧ ∃ d, delegators s !! a = Some d ∧ ProxyAddress d = p;
}.

Definition bal s (a : AccAddress) : Z := Bank.balance (bank (world s)) a (BondDenom (params s)).

(** What the not bonded pool holds beyond the undelegations. *)
Definition surplus s : Z := bal s notBondedAcc - msum Quantity (undelegations s).

Record money_inv s : Prop := {
  mo_denom : BondDenom (params s) = Coins.DefaultBondDenom;
  mo_params : 0 < MinDelegation (params s) ∧ 0 < MinSelfDelegation (params s);
  mo_bonded : bal s bondedAcc = msum vMinSelfDelegation (validators s) + msum Tokens (delegators s);
  mo_surplus : 0 ≤ surplus s;
  mo_und a u : undelegations s !! a = Some u →
    uDelegatorAddress u = a ∧ 0 < Quantity u ∧ (CompletionTime u, a) ∈ timeQueue s;
  mo_users a : is_Some (delegators s !! a) ∨ is_Some (validators s !! a) ∨ is_Some (undelegations s !! a) →
    user a ∧ HasAccount (bank (world s)) a = true;
}.

(** A validator that is to leave the set stays in jail for the rest of the block. *)
Definition jailed_inv s : Prop := ∀ v V, v ∈ abandoned s → validators s !! v = Some V → Jailed V = true.

Record staking_inv s : Prop := {
  inv_val : val_inv s;
  inv_share : share_inv s;
  inv_proxy : proxy_inv s;
  inv_money : money_inv s;
  inv_epoch : 0 < Epoch (params s) ∧ 0 < GetEpoch s;
  inv_jailed : jailed_inv s;
}.
End inv.


(** ** Maps *)

Section maps.
Context `{Countable K} {A : Type} (f : A → Z).

Lemma upd_upd k o o' (m : gmap K A) : upd k o (upd k o' m) = upd k o m.
Proof. apply map_eq. intros i. rewrite !lookup_upd. by case_decide. Qed.

(** Sums over maps that agree where it counts. *)
Lemma msum_over (m : gmap K A) (X : gset K) : dom m ⊆ X →
  msum f m = zsum ((λ k, from_option f 0 (m !! k)) <$> elements X).
Proof.
  intros HX. rewrite (msum_keys f m (elements (dom m))) by done.
  assert (elements X ≡ₚ elements (dom m) ++ elements (X ∖ dom m)) as HP.
  { rewrite <-elements_disj_union by set_solver. by rewrite <-union_difference_L. }
  rewrite (zsum_perm _ _ (fmap_Permutation _ _ _ HP)), fmap_app, zsum_app.
  assert (zsum ((λ k, from_option f 0 (m !! k)) <$> elements (X ∖ dom m)) = 0) as ->; [|lia].
  assert (∀ k, k ∈ elements (X ∖ dom m) → m !! k = None) as Hn.
  { intros k. rewrite elem_of_elements, elem_of_difference, not_elem_of_dom. tauto. }
  clear HP. induction (elements (X ∖ dom m)) as [|k l IH]; [done|]. rewrite fmap_cons, zsum_cons, IH, Hn; [done|left|].
  intros k' Hk'. apply Hn. by right.
Qed.

Lemma msum_pointwise (m m' : gmap K A) :
  (∀ k, from_option f 0 (m' !! k) = from_option f 0 (m !! k)) → msum f m' = msum f m.
Proof.
  intros Hk. rewrite (msum_over m (dom m ∪ dom m')), (msum_over m' (dom m ∪ dom m')) by set_solver.
  f_equal. apply list_fmap_ext. intros i k _. apply Hk.
Qed.
End maps.

(** ** The index by power *)

Section index.
Context `{DO : Dec.Ops} `{EV : Env}.
Implicit Types (V U : Validator) (vals : gmap ValAddress Validator) (idx : gmap (Z * ValAddress) ValAddress).

Abbreviation key := GetValidatorsByPowerIndexKey (only parsing).

Definition indexed vals idx : Prop := ∀ k v, idx !! k = Some v ↔
  ∃ V, vals !! v = Some V ∧ Jailed V = false ∧ k = key V.
Definition named vals : Prop := ∀ v V, vals !! v = Some V → OperatorAddress V = v.

(** The index after the record of a validator changed. *)
Definition reindex (old new : option Validator) idx : gmap (Z * ValAddress) ValAddress :=
  let idx := match old with Some V => delete (key V) idx | None => idx end in
  match new with
  | Some V => if Jailed V then idx else <[key V := OperatorAddress V]> idx
  | None => idx
  end.

Lemma reindex_ok vals idx v o : indexed vals idx → named vals → from_option OperatorAddress v o = v →
  indexed (upd v o vals) (reindex (vals !! v) o idx).
Proof.
  intros HI HN Ho k u. rewrite lookup_upd.
  assert (∀ k u, match vals !! v with Some V => delete (key V) idx | None => idx end !! k = Some u ↔
    u ≠ v ∧ idx !! k = Some u) as Hd.
  { clear k u. intros k u. destruct (vals !! v) as [V0|] eqn:E0.
    - rewrite lookup_delete_Some. split; intros [H1 H2]; (split; [|done]).
      + intros ->. apply HI in H2 as (U & HU & _ & ->). congruence.
      + intros <-. apply HI in H2 as (U & HU & _ & EK). apply (f_equal snd) in EK. cbn in EK.
        rewrite (HN _ _ HU), (HN _ _ E0) in EK. done.
    - split; [|by intros [_ ?]]. intros Hk. split; [|done]. intros ->. apply HI in Hk as (U & HU & _). congruence. }
  assert (u ≠ v ∧ idx !! k = Some u ↔
    ∃ U, (if decide (v = u) then None else vals !! u) = Some U ∧ Jailed U = false ∧ k = key U) as Hrest.
  { destruct (decide (v = u)) as [->|Hne]; [naive_solver|]. rewrite (HI k u). naive_solver. }
  destruct o as [V|]; cbn [reindex]; [|by rewrite Hd, Hrest]. cbn in Ho.
  destruct (Jailed V) eqn:EJ.
  - rewrite Hd, Hrest. case_decide as E; [|done]. split; [by intros (U & [=] & _)|].
    intros (U & [= <-] & HJ & _). congruence.
  - rewrite lookup_insert, Ho. destruct (decide (key V = k)) as [<-|Hk], (decide (v = u)) as [<-|Hu].
    + split; [intros _; by exists V|done].
    + split; [by intros [= ?]|]. intros (U & HU & _ & EK). apply (f_equal snd) in EK. cbn in EK.
      rewrite (HN _ _ HU) in EK. congruence.
    + rewrite Hd. split; [by intros [? _]|]. intros (U & [= <-] & _ & ?). congruence.
    + rewrite Hd, Hrest. done.
Qed.

Lemma named_upd vals v o : named vals → from_option OperatorAddress v o = v → named (upd v o vals).
Proof. intros HN Ho u U. rewrite lookup_upd. case_decide; [|apply HN]. intros ->. by subst. Qed.
End index.

End StakingSpec.
