(* ===== verification/StakingShares.v ===== *)
(** * Rewriting validators and shares

    A validator's record changes together with its place in the index by power
    ([rewrite_val]).  The loops of the keeper that add, update and withdraw a delegator's
    shares rewrite some validators and the delegator's entries of the store of shares
    ([touched]); with the delegator's own record they keep [share_inv]
    ([share_restore]). *)

From S2P Require Import Prelude Runs SdkDec SdkCoins GoStd CoinFacts Common StakingErrors Token Staking StakingSpec.

#[local] Open Scope Z_scope.

Module StakingShares.
Import Staking StakingSpec.

Section shares.
Context `{DO : Dec.Ops} `{DL : !Dec.Laws} `{CO : Coins.Ops} `{CL : !Coins.Laws} `{BO : Bank.Ops} `{BL : !Bank.Laws}
  `{SO : !SupplyOps} `{SL : !SupplyLaws} `{EV : Env} `{EL : !EnvLaws} {W : Type} `{AP : !App W}
  (WInv : W → Prop) (protected : AccAddress → Prop) `{AL : !AppLaws WInv protected}.
Implicit Types (w : W) (s : StakingState W) (V : Validator) (v : ValAddress) (a : AccAddress).

Abbreviation MS := (M (StakingState W)) (only parsing).
Abbreviation vinv := (val_inv WInv) (only parsing).
Abbreviation quiet := (calm WInv protected) (only parsing).

(** ** Calm changes of the world *)

Lemma calm_refl w : WInv w → quiet w w.
Proof. intros H. by split. Qed.

Lemma calm_trans w1 w2 w3 : quiet w1 w2 → quiet w2 w3 → quiet w1 w3.
Proof.
  intros [H1 H2 H3 H4] [K1 K2 K3 K4]. split; [done| | |auto].
  - intros a d Ha. by rewrite K2, H2.
  - intros a d Ha. transitivity (Bank.balance (bank w2) a d); auto.
Qed.

(** ** Records of validators *)

(** What a change of shares, of a description or of the jail leaves alone. *)
Record same_core (V0 V : Validator) : Prop := {
  sc_op : OperatorAddress V = OperatorAddress V0;
  sc_key : ConsPubKey V = ConsPubKey V0;
  sc_status : Status V = Status V0;
  sc_time : UnbondingCompletionTime V = UnbondingCompletionTime V0;
  sc_tokens : vTokens V = vTokens V0;
}.

Definition rewrite_val v (o : option Validator) s : StakingState W :=
  set_powerIndex (reindex (validators s !! v) o (powerIndex s)) (set_validators (upd v o (validators s)) s).

Lemma vi_named s : vinv s → named (validators s).
Proof. intros H v V HV. by apply (vi_op WInv s H). Qed.

Lemma vi_index s : vinv s → indexed (validators s) (powerIndex s).
Proof. intros H k v. apply (vi_power WInv s H). Qed.

(** A record that is replaced by one with the same core: statements on the core of a
    validator do not change. *)
Lemma core_upd (vals : gmap ValAddress Validator) v V0 V (P : Validator → Prop) u :
  vals !! v = Some V0 → (P V ↔ P V0) →
  (∃ U, upd v (Some V) vals !! u = Some U ∧ P U) ↔ (∃ U, vals !! u = Some U ∧ P U).
Proof.
  intros HV HP. rewrite lookup_upd. case_decide; subst; [|done]. rewrite HV.
  split; intros (U & [= <-] & HU); [exists V0|exists V]; (split; [done|by apply HP]).
Qed.

Lemma rewrite_val_inv v V0 V s : vinv s → validators s !! v = Some V0 → same_core V0 V →
  vinv (rewrite_val v (Some V) s).
Proof.
  intros HI HV [E1 E2 E3 E4 E5]. pose proof (vi_named s HI _ _ HV) as Hn.
  assert (ConsAddress_of V = ConsAddress_of V0) as E6 by (unfold ConsAddress_of; by rewrite E2).
  split; cbn.
  - apply HI.
  - intros u U. rewrite lookup_upd. case_decide; [|apply HI]. intros [= <-]. subst u.
    rewrite E1, E5. by apply (vi_op WInv s HI v V0).
  - refine (reindex_ok _ _ v (Some V) (vi_index _ HI) (vi_named _ HI) _). cbn. congruence.
  - intros c u. rewrite (vi_cons WInv s HI). symmetry. apply (core_upd _ _ V0); [done|]. by rewrite E6.
  - intros u. rewrite (vi_last WInv s HI). symmetry. apply (core_upd _ _ V0); [done|]. by rewrite E3.
  - apply HI.
  - intros t u. etransitivity; [apply (vi_queue WInv s HI)|]. symmetry. apply (core_upd _ _ V0); [done|]. by rewrite E3, E4.
  - apply (vi_nodup WInv s HI).
  - intros u Hu. apply (core_upd _ _ V0); [done|by rewrite E3|]. by apply (vi_abandoned WInv s HI).
Qed.

(** States that differ elsewhere. *)
Definition same_vals s s' : Prop :=
  validators s' = validators s ∧ byConsAddr s' = byConsAddr s ∧ powerIndex s' = powerIndex s
  ∧ lastPowers s' = lastPowers s ∧ lastTotalPower s' = lastTotalPower s
  ∧ validatorQueue s' = validatorQueue s ∧ abandoned s' = abandoned s.

Lemma vinv_same s s' : same_vals s s' → WInv (world s') → vinv s → vinv s'.
Proof.
  intros (E1 & E2 & E3 & E4 & E5 & E6 & E7) HW [? H2 H3 H4 H5 H6 H7 H8 H9].
  split; unfold GetLastTotalPower, GetValidatorQueueTimeSlice in *; rewrite ?E1, ?E2, ?E3, ?E4, ?E5, ?E6, ?E7; done.
Qed.

(** The three writes of the source. *)
Lemma put_eq V0 V s : validators s !! OperatorAddress V = Some V0 →
  (DeleteValidatorByPowerIndex V0;; SetValidator V;; SetValidatorByPowerIndex V) s
  = (Ok tt, rewrite_val (OperatorAddress V) (Some V) s).
Proof.
  intros HV. unfold rewrite_val. rewrite HV. unfold SetValidatorByPowerIndex, reindex. by destruct (Jailed V).
Qed.

(** Removing a validator that is unbonded. *)
Lemma remove_val_inv v V0 s : vinv s → validators s !! v = Some V0 → Status V0 = Unbonded →
  vinv (set_byConsAddr (delete (ConsAddress_of V0) (byConsAddr s)) (rewrite_val v None s)).
Proof.
  intros HI HV HS. pose proof (vi_named s HI _ _ HV) as Hn.
  assert (∀ (P : Validator → Prop) u, ¬ P V0 → ((∃ U, upd v None (validators s) !! u = Some U ∧ P U) ↔
    (∃ U, validators s !! u = Some U ∧ P U))) as Hupd.
  { intros P u HP. rewrite lookup_upd. case_decide; subst; [|done]. rewrite HV. naive_solver. }
  split; cbn.
  - apply HI.
  - intros u U. rewrite lookup_upd. case_decide; [done|]. apply HI.
  - by refine (reindex_ok _ _ v None (vi_index _ HI) (vi_named _ HI) _).
  - intros c u. rewrite lookup_delete_Some, (vi_cons WInv s HI), lookup_upd. split.
    + intros (Hc & U & HU & ->). exists U. rewrite decide_False; [done|]. intros ->. congruence.
    + intros (U & HU & ->). case_decide as Hu; [done|]. split; [|by exists U]. intros EC.
      assert (byConsAddr s !! ConsAddress_of V0 = Some v) as H1 by (apply (vi_cons WInv s HI); eauto).
      assert (byConsAddr s !! ConsAddress_of U = Some u) as H2 by (apply (vi_cons WInv s HI); eauto). congruence.
  - intros u. rewrite (vi_last WInv s HI). symmetry. apply Hupd. by rewrite HS.
  - apply HI.
  - intros t u. etransitivity; [apply (vi_queue WInv s HI)|]. symmetry. apply Hupd. by rewrite HS; intros [].
  - apply (vi_nodup WInv s HI).
  - intros u Hu. apply Hupd; [by rewrite HS; intros []|]. by apply (vi_abandoned WInv s HI).
Qed.

(** RemoveValidator on a stored, unbonded validator, while the queue lags behind [Q]. *)
Lemma remove_runs_queue ctx v V0 s Q : vinv (set_validatorQueue Q s) → validators s !! v = Some V0 → Status V0 = Unbonded →
  runs (RemoveValidator ctx v) s (λ _ s', ∃ w',
    s' = set_world w' (set_byConsAddr (delete (ConsAddress_of V0) (byConsAddr s)) (rewrite_val v None s))
    ∧ quiet (world s) w' ∧ vinv (set_validatorQueue Q s')).
Proof.
  intros HI HV HS. destruct (vi_op WInv _ HI v V0 HV) as [Hop Htok]. unfold RemoveValidator.
  apply runs_bind, runs_gets. unfold GetValidator. rewrite HV. unfold IsUnbonded. rewrite bool_decide_true by done.
  rewrite Htok. change (0 <? 0) with false. cbn [negb]. cbv iota.
  apply runs_bind, runs_modify, runs_bind, runs_modify, runs_bind, runs_modify. rewrite Hop.
  set (s1 := set_powerIndex _ _).
  assert (s1 = set_byConsAddr (delete (ConsAddress_of V0) (byConsAddr s)) (rewrite_val v None s)) as E1.
  { unfold s1, rewrite_val. by rewrite HV. }
  rewrite E1. pose proof (remove_val_inv v V0 _ HI HV HS) as HI1.
  eapply runs_mono; [apply (removed_hook ctx v V0); [apply HI|cbn; by rewrite lookup_upd, decide_True|done]|].
  intros _ s' (w' & -> & Hw). exists w'. split; [done|]. split; [done|].
  eapply vinv_same; [|apply Hw|exact HI1]. done.
Qed.

Lemma remove_runs ctx v V0 s : vinv s → validators s !! v = Some V0 → Status V0 = Unbonded →
  runs (RemoveValidator ctx v) s (λ _ s', ∃ w',
    s' = set_world w' (set_byConsAddr (delete (ConsAddress_of V0) (byConsAddr s)) (rewrite_val v None s))
    ∧ quiet (world s) w' ∧ vinv s').
Proof.
  intros HI HV HS. eapply runs_mono; [apply (remove_runs_queue ctx v V0 s (validatorQueue s)); [by destruct s|done|done]|].
  intros _ s' (w' & -> & Hq & HI'). exists w'. split; [done|]. split; [done|]. exact HI'.
Qed.

(** ** Loops over validators *)

(** The validators of [ops] are rewritten by [f], and the entries of delegator [a] for
    them by [o]; nothing else of the module changes. *)
Record touched a (f : Validator → option Validator) (o : option Dec) (ops : list ValAddress) s s' : Prop := {
  to_calm : quiet (world s) (world s');
  to_rest : s' = set_world (world s') (set_validators (validators s') (set_byConsAddr (byConsAddr s')
              (set_powerIndex (powerIndex s') (set_allShares (allShares s') s))));
  to_vals v : validators s' !! v = if decide (v ∈ ops) then validators s !! v ≫= f else validators s !! v;
  to_shares v b : allShares s' !! (v, b) = if decide (b = a ∧ v ∈ ops) then o else allShares s !! (v, b);
}.

Lemma touched_nil a f o s : WInv (world s) → touched a f o [] s s.
Proof.
  intros HW. split; [by apply calm_refl|by destruct s|..].
  - intros v. by rewrite decide_False by apply not_elem_of_nil.
  - intros v b. rewrite decide_False; [done|]. intros [_ ?%not_elem_of_nil]. done.
Qed.

Lemma touched_cons a f o v l s s1 s' : v ∉ l → touched a f o [v] s s1 → touched a f o l s1 s' →
  touched a f o (v :: l) s s'.
Proof.
  intros Hv [H1 H2 H3 H4] [K1 K2 K3 K4]. split.
  - by eapply calm_trans.
  - rewrite K2 at 1. rewrite H2. done.
  - intros u. rewrite K3, H3. destruct (decide (u = v)) as [->|Hu].
    + rewrite decide_False by done. rewrite !decide_True by set_solver. done.
    + rewrite (decide_False (P := u ∈ [v])) by set_solver. repeat case_decide; set_solver.
  - intros u b. rewrite K4, H4. repeat case_decide; set_solver.
Qed.

Lemma touch_loop (body : Validator → MS unit) a f o vals s :
  vinv s → NoDup (OperatorAddress <$> vals) → (∀ V, V ∈ vals → validators s !! OperatorAddress V = Some V) →
  (∀ V s, V ∈ vals → vinv s → validators s !! OperatorAddress V = Some V →
     safe (body V) s (λ _ s', touched a f o [OperatorAddress V] s s' ∧ vinv s')) →
  safe (mapM_ body vals) s (λ _ s', touched a f o (OperatorAddress <$> vals) s s' ∧ vinv s').
Proof.
  revert s. induction vals as [|V vals IH]; intros s HI HN HV Hb; cbn [mapM_ fmap list_fmap].
  - apply safe_ret. split; [apply touched_nil, HI|done].
  - cbn in HN. apply NoDup_cons in HN as [HN1 HN2]. apply safe_bind.
    eapply safe_mono; [apply Hb; [left|done|apply HV; left]|]. intros _ s1 [HT HI1].
    eapply safe_mono; [apply IH; [done|done| |]|].
    + intros U HU. rewrite (to_vals _ _ _ _ _ _ HT), decide_False; [apply HV; by right|].
      intros HE%list_elem_of_singleton. apply HN1. rewrite <-HE. by apply list_elem_of_fmap_2.
    + intros U s2 HU. apply Hb. by right.
    + intros _ s' [HT' HI']. split; [|done]. by eapply touched_cons.
Qed.

(** One validator whose shares change. *)
Lemma touched_rewrite a o s v V V' f :
  vinv s → validators s !! v = Some V → f V = Some V' →
  touched a f o [v] s (set_allShares (upd (v, a) o (allShares s)) (rewrite_val v (Some V') s)).
Proof.
  intros HI HV Hf. split; cbn.
  - apply calm_refl, HI.
  - by destruct s.
  - intros u. rewrite lookup_upd. repeat case_decide; subst; try set_solver. by rewrite HV; cbn.
  - intros u b. rewrite lookup_upd. repeat case_decide; try done; naive_solver set_solver.
Qed.

Lemma rewrite_touched a o s v V V' f : vinv s → validators s !! v = Some V → f V = Some V' → same_core V V' →
  let s' := set_allShares (upd (v, a) o (allShares s)) (rewrite_val v (Some V') s) in
  touched a f o [v] s s' ∧ vinv s'.
Proof.
  intros HI HV Hf Hc. split; [by eapply touched_rewrite|].
  apply (vinv_same (rewrite_val v (Some V') s)); [done|apply HI|]. by eapply rewrite_val_inv.
Qed.

Definition reshare (x : Z) V : Validator := set_DelegatorShares x V.

Lemma reshare_core x V : same_core V (reshare x V).
Proof. by split. Qed.

(** *** The three bodies *)

Lemma update_one_safe a last x V s : vinv s → validators s !! OperatorAddress V = Some V →
  safe (update_shares_one a last x V) s (λ _ s',
    touched a (λ V, Some (reshare (DelegatorShares V - last + x) V)) (Some x) [OperatorAddress V] s s' ∧ vinv s').
Proof.
  intros HI HV. unfold update_shares_one. case_match; [apply safe_throw|].
  rewrite Dec.Add_spec, Dec.Sub_spec. apply safe_bind. unfold safe at 1. cbn. apply safe_bind. unfold safe at 1. cbn.
  match goal with |- safe ?m ?s0 _ => assert (m s0 =
    (Ok tt, set_allShares (upd (OperatorAddress V, a) (Some x) (allShares s))
      (rewrite_val (OperatorAddress V) (Some (reshare (DelegatorShares V - last + x) V)) s))) as E end.
  { unfold rewrite_val. rewrite HV. unfold SetValidatorByPowerIndex, reindex. cbn [Jailed reshare set_DelegatorShares].
    by destruct (Jailed V). }
  unfold safe. rewrite E. eapply rewrite_touched; [done|done|done|apply reshare_core].
Qed.

Lemma add_one_safe a x V s : vinv s → validators s !! OperatorAddress V = Some V →
  safe (addShares a x V) s (λ _ s',
    touched a (λ V, Some (reshare (DelegatorShares V + x) V)) (Some x) [OperatorAddress V] s s' ∧ vinv s').
Proof.
  intros HI HV. unfold addShares. rewrite Dec.Add_spec.
  match goal with |- safe ?m ?s0 _ => assert (m s0 =
    (Ok tt, set_allShares (upd (OperatorAddress V, a) (Some x) (allShares s))
      (rewrite_val (OperatorAddress V) (Some (reshare (DelegatorShares V + x) V)) s))) as E end.
  { unfold rewrite_val. rewrite HV. unfold SetValidatorByPowerIndex, reindex. cbn [Jailed reshare set_DelegatorShares].
    by destruct (Jailed V). }
  unfold safe. rewrite E. eapply rewrite_touched; [done|done|done|apply reshare_core].
Qed.

(** Whether a validator without the given shares is removed. *)
Definition drained (x : Z) V : bool :=
  (bool_decide (Status V = Unbonded) && (vMinSelfDelegation V =? 0) && (DelegatorShares V - x =? 0))%Z.
Definition withdrawn (x : Z) V : option Validator :=
  if drained x V then None else Some (reshare (DelegatorShares V - x) V).

Lemma withdraw_one_safe ctx a x V s : vinv s → validators s !! OperatorAddress V = Some V →
  safe (withdrawShares ctx a x V) s (λ _ s', touched a (withdrawn x) None [OperatorAddress V] s s' ∧ vinv s').
Proof.
  intros HI HV. unfold withdrawShares. rewrite Dec.Sub_spec. apply safe_bind. unfold safe at 1. cbn -[IsUnbonded].
  apply safe_bind. unfold safe at 1. cbn -[IsUnbonded]. rewrite !Dec.IsZero_spec.
  unfold IsUnbonded. cbn [Status set_DelegatorShares].
  change (bool_decide _ && _ && _)%bool with (drained x V). destruct (drained x V) eqn:ED.
  - set (s1 := set_powerIndex _ _).
    assert (bool_decide (Status V = Unbonded) = true) as HS%bool_decide_eq_true.
    { unfold drained in ED. by destruct (bool_decide _). }
    (* the index has lost the entry already: the removal writes the same *)
    pose (s0 := set_allShares (upd (OperatorAddress V, a) None (allShares s)) s).
    assert (vinv s0) as HI0 by (by apply (vinv_same s); [|apply HI|]).
    assert (RemoveValidator ctx (OperatorAddress V) s1 = RemoveValidator ctx (OperatorAddress V) s0) as E.
    { unfold RemoveValidator, mbind, M_bind, gets, GetValidator. change (validators s1) with (validators s).
      change (validators s0) with (validators s). rewrite HV. unfold IsUnbonded. rewrite bool_decide_true by done.
      destruct (vi_op WInv s HI _ _ HV) as [_ ->]. unfold DeleteValidatorByPowerIndex, modify. cbn. f_equal.
      unfold s1, s0. cbn. by rewrite delete_delete_eq. }
    unfold safe. rewrite E.
    pose proof (remove_runs ctx (OperatorAddress V) V s0 HI0 HV HS) as (u & s' & -> & w' & -> & Hw & HI').
    split; [|done]. split; cbn.
    + done.
    + by destruct s.
    + intros u'. rewrite lookup_upd. repeat case_decide; subst; try set_solver. rewrite HV. cbn. unfold withdrawn. by rewrite ED.
    + intros u' b. rewrite lookup_upd. repeat case_decide; try done; naive_solver set_solver.
  - match goal with |- safe ?m ?s0 _ => assert (m s0 =
      (Ok tt, set_allShares (upd (OperatorAddress V, a) None (allShares s))
        (rewrite_val (OperatorAddress V) (Some (reshare (DelegatorShares V - x) V)) s))) as E end.
    { unfold rewrite_val. rewrite HV. unfold SetValidatorByPowerIndex, reindex. cbn [Jailed reshare set_DelegatorShares].
      by destruct (Jailed V). }
    unfold safe. rewrite E. eapply rewrite_touched; [done|done|unfold withdrawn; by rewrite ED|apply reshare_core].
Qed.

(** ** The shares of delegators *)

(** What a delegator adds to a validator. *)
Definition weight_on v (o : option Delegator) : Z :=
  from_option (λ d, if decide (v ∈ ValidatorAddresses d) then Shares d else 0) 0 o.

(** A record of a delegator that may be stored next to the given validators. *)
Record good_delegator (vals : gmap ValAddress Validator) a (d : Delegator) : Prop := {
  gd_addr : DelegatorAddress d = a;
  gd_tokens : 0 < Tokens d;
  gd_nodup : NoDup (ValidatorAddresses d);
  gd_exist v : v ∈ ValidatorAddresses d → is_Some (vals !! v);
  gd_pos : ValidatorAddresses d ≠ [] → 0 < Shares d;
  gd_zero : ValidatorAddresses d = [] → Shares d = 0;
}.

Lemma good_of s a d : share_inv s → delegators s !! a = Some d → good_delegator (validators s) a d.
Proof. intros HI Hd. destruct (sh_del s HI a d Hd) as (?&?&?&?&?&?&?). by split. Qed.

Lemma good_nonneg vals a d : good_delegator vals a d → 0 ≤ Shares d.
Proof.
  intros H. destruct (ValidatorAddresses d) eqn:E; [by rewrite (gd_zero _ _ _ H E)|].
  apply Z.lt_le_incl, (gd_pos _ _ _ H). by rewrite E.
Qed.

Lemma voted_two s v a b d : share_inv s → a ≠ b → delegators s !! b = Some d → v ∈ ValidatorAddresses d →
  weight_on v (delegators s !! a) < voted s v.
Proof.
  intros HI Hab Hd Hv. unfold voted, weight_on.
  set (g := λ d : Delegator, if decide (v ∈ ValidatorAddresses d) then Shares d else 0).
  pose proof (msum_delete g (delegators s) a) as E.
  assert (g d ≤ msum g (delete a (delegators s))).
  { apply (msum_le g _ b); [|by rewrite lookup_delete_ne]. apply map_Forall_delete. intros c e He. unfold g.
    case_decide; [|done]. by apply (good_nonneg _ _ _ (good_of s c e HI He)). }
  assert (0 < g d); [|lia]. unfold g. rewrite decide_True by done. apply (gd_pos _ _ _ (good_of s b d HI Hd)).
  intros E0. by rewrite E0 in Hv; apply not_elem_of_nil in Hv.
Qed.

Lemma voted_upd s v a (o : option Delegator) (m : gmap AccAddress Delegator) : m = delegators s →
  msum (λ d, if decide (v ∈ ValidatorAddresses d) then Shares d else 0) (upd a o m)
  = voted s v - weight_on v (delegators s !! a) + weight_on v o.
Proof. intros ->. apply msum_upd. Qed.

(** Whom a delegator added shares to, and how many. *)
Definition adds (o : option Delegator) v (x : Z) : Prop :=
  ∃ d, o = Some d ∧ v ∈ ValidatorAddresses d ∧ x = Shares d.

Lemma adds_weight o v x : adds o v x → weight_on v o = x.
Proof. intros (d & -> & Hv & ->). unfold weight_on. cbn. by rewrite decide_True. Qed.

Lemma adds_none o v : (∀ x, ¬ adds o v x) → weight_on v o = 0.
Proof.
  intros H. unfold weight_on. destruct o as [d|]; [|done]. cbn. case_decide as Hv; [|done].
  destruct (H (Shares d)). by exists d.
Qed.

Lemma weight_ext v o o' : (∀ x, adds o v x ↔ adds o' v x) → weight_on v o = weight_on v o'.
Proof.
  intros H. destruct o as [d|].
  - destruct (decide (v ∈ ValidatorAddresses d)) as [Hv|Hv].
    + assert (adds (Some d) v (Shares d)) as Ha by (by exists d).
      by rewrite (adds_weight _ _ _ Ha), (adds_weight o' _ _ (proj1 (H _) Ha)).
    + assert (∀ x, ¬ adds (Some d) v x) as Ha by (by intros x (e & [= <-] & ? & _)).
      rewrite !adds_none; [done| |done]. intros x. by rewrite <-H.
  - assert (∀ x, ¬ adds None v x) as Ha by (by intros x (e & [=] & _)).
    rewrite !adds_none; [done| |done]. intros x. by rewrite <-H.
Qed.

Lemma share_restore a f o ops s s' (d' : option Delegator) :
  share_inv s → touched a f o ops s s' →
  (∀ d, d' = Some d → good_delegator (validators s') a d) →
  (∀ v V, v ∈ ops → validators s !! v = Some V → match f V with
     | Some V' => vMinSelfDelegation V' = vMinSelfDelegation V ∧ Jailed V' = Jailed V ∧
         DelegatorShares V' = DelegatorShares V - weight_on v (delegators s !! a) + weight_on v d'
     | None => own_share V = 0 ∧ DelegatorShares V = weight_on v (delegators s !! a)
     end) →
  (∀ v x, v ∈ ops → (o = Some x ↔ adds d' v x)) →
  (∀ v x, v ∉ ops → (adds (delegators s !! a) v x ↔ adds d' v x)) →
  share_inv (set_delegators (upd a d' (delegators s')) s').
Proof.
  intros HI HT Hd' Hf Ho Hn. assert (delegators s' = delegators s) as ED by (rewrite (to_rest _ _ _ _ _ _ HT); done).
  split; cbn.
  - intros v V' HV'. unfold voted. cbn. rewrite (voted_upd s) by done. rewrite (to_vals _ _ _ _ _ _ HT) in HV'.
    case_decide as Hv.
    + destruct (validators s !! v) as [V|] eqn:HV; [|done]. cbn in HV'. specialize (Hf v V Hv HV). rewrite HV' in Hf.
      destruct Hf as (E1 & E2 & E3), (sh_val s HI v V HV) as (K1 & K2 & K3).
      unfold own_share in *. rewrite E1, E2, E3, K1. split; [lia|done].
    + rewrite (weight_ext v d' (delegators s !! a)) by (intros x; symmetry; by apply Hn).
      destruct (sh_val s HI v V' HV') as (K1 & K2 & K3). rewrite K1. split; [lia|done].
  - intros b d Hd. rewrite lookup_upd, ED in Hd. case_decide as Hb.
    + subst b. pose proof (Hd' d Hd) as G. split_and!; try apply G. by eapply good_nonneg.
    + destruct (sh_del s HI b d Hd) as (H1&H2&H3&H4&H5&H6&H7). split_and!; try done.
      intros v Hv. destruct (H4 v Hv) as [V HV]. rewrite (to_vals _ _ _ _ _ _ HT). case_decide as Hop; [|by exists V].
      rewrite HV. cbn. specialize (Hf v V Hop HV). destruct (f V) as [V'|]; [by exists V'|]. destruct Hf as [F1 F2].
      destruct (sh_val s HI v V HV) as (K1 & _ & _). pose proof (voted_two s v a b d HI Hb Hd Hv). lia.
  - intros v b x. rewrite (to_shares _ _ _ _ _ _ HT), lookup_upd, ED. case_decide as Hb.
    + destruct Hb as [-> Hv]. rewrite decide_True by done. by apply Ho.
    + rewrite (sh_shares s HI). destruct (decide (a = b)) as [<-|Hab]; [|done]. apply Hn. tauto.
Qed.

(** ** UpdateShares *)

(** Two states of the module that differ in shares, in validators that were removed, and
    calmly in the rest of the application. *)
Record skel s s' : Prop := {
  sk_calm : quiet (world s) (world s');
  sk_rest : s' = set_world (world s') (set_validators (validators s') (set_byConsAddr (byConsAddr s')
              (set_powerIndex (powerIndex s') (set_allShares (allShares s') (set_delegators (delegators s') s)))));
  sk_del a : set_Shares 0 <$> delegators s' !! a = set_Shares 0 <$> delegators s !! a;
  sk_vals v : match validators s' !! v with
    | Some V' => ∃ V x, validators s !! v = Some V ∧ V' = reshare x V
    | None => ∀ V, validators s !! v = Some V → vMinSelfDelegation V = 0
    end;
}.

Lemma reshare_self V : reshare (DelegatorShares V) V = V.
Proof. by destruct V. Qed.

Lemma skel_refl s : WInv (world s) → skel s s.
Proof.
  intros HW. split; [by apply calm_refl|by destruct s|done|]. intros v.
  destruct (validators s !! v) as [V|]; [|done]. exists V, (DelegatorShares V). by rewrite reshare_self.
Qed.

Lemma skel_trans s1 s2 s3 : skel s1 s2 → skel s2 s3 → skel s1 s3.
Proof.
  intros [H1 H2 H3 H4] [K1 K2 K3 K4]. split.
  - by eapply calm_trans.
  - rewrite K2 at 1. rewrite H2. done.
  - intros a. by rewrite K3.
  - intros v. specialize (H4 v). specialize (K4 v). destruct (validators s3 !! v) as [V3|].
    + destruct K4 as (V2 & x & E2 & ->). rewrite E2 in H4. destruct H4 as (V1 & y & E1 & ->). by exists V1, x.
    + destruct (validators s2 !! v) as [V2|]; [|done]. destruct H4 as (V1 & x & E1 & ->).
      intros V. rewrite E1. intros [= <-]. by apply (K4 (reshare x V1)).
Qed.

Lemma last_vals s a d : share_inv s → named (validators s) → delegators s !! a = Some d →
  let vals := omap (λ v, validators s !! v) (ValidatorAddresses d) in
  OperatorAddress <$> vals = ValidatorAddresses d ∧ ∀ V, V ∈ vals → validators s !! OperatorAddress V = Some V.
Proof.
  intros HI HN Hd. cbn. pose proof (gd_exist _ _ _ (good_of s a d HI Hd)) as Hex.
  induction (ValidatorAddresses d) as [|v l IH]; [cbn; split; [done|]; intros V []%not_elem_of_nil|].
  destruct (Hex v) as [V HV]; [left|]. cbn. rewrite HV. cbn. destruct IH as [E1 E2]; [intros u Hu; apply Hex; by right|].
  rewrite (HN v V HV), E1. split; [done|]. intros U [->|HU]%elem_of_cons; [by rewrite (HN v V HV)|by apply E2].
Qed.

Lemma weight_bound ctx x : blockTimestampEpoch ≤ Unix ctx → 0 < x →
  calculateWeight (Unix ctx) x ≠ Panic ∧ ∀ y, calculateWeight (Unix ctx) x = Ok y → x ≤ y.
Proof.
  intros Ht Hx. unfold calculateWeight.
  assert (0 ≤ nowWeek (Unix ctx)) as Hn by (unfold nowWeek, secondsPerWeek; apply Z.quot_pos; lia).
  destruct (pow_weight (nowWeek (Unix ctx))) as [w|e|] eqn:Ew; cbn; [|done|by apply weight_no_panic in Ew].
  split; [done|]. intros y [= <-]. pose proof (weight_year 0 ltac:(lia)) as H0. cbn [Z.mul] in H0.
  pose proof (weight_mono _ _ _ _ (conj (Z.le_refl 0) Hn) H0 Ew) as Hw.
  pose proof (Dec.Mul_spec x w). pose proof unit_pos. nia.
Qed.

Lemma update_shares_safe ctx a x d s : blockTimestampEpoch ≤ Unix ctx → vinv s → share_inv s →
  delegators s !! a = Some d → 0 < x →
  safe (UpdateShares ctx a x) s (λ _ s', vinv s' ∧ share_inv s' ∧ skel s s'
    ∧ ∀ b, b ≠ a → delegators s' !! b = delegators s !! b).
Proof.
  intros Ht HI HS Hd Hx. unfold UpdateShares. apply safe_bind, safe_gets.
  unfold GetLastValsAddedSharesExisted, GetDelegator, GetValidator. rewrite Hd.
  pose proof (last_vals s a d HS (vi_named s HI) Hd) as [Eops Hin]. cbn in Eops, Hin.
  set (vals := omap _ _) in *. pose proof (good_of s a d HS Hd) as G.
  destruct (length vals =? 0)%nat eqn:El.
  { apply safe_ret. split; [done|]. split; [done|]. split; [|done]. apply skel_refl, HI. }
  destruct (weight_bound ctx x Ht Hx) as [Hw1 Hw2].
  apply safe_bind, safe_lift; [done|]. intros y Hy. apply Hw2 in Hy. apply safe_bind, safe_gets. rewrite Hd.
  apply safe_bind, safe_or_throw. intros d0 [= <-]. apply safe_bind.
  eapply safe_mono; [apply touch_loop; [done|rewrite Eops; apply G|done|]|].
  { intros V s1 _. apply update_one_safe. }
  intros _ s' [HT HI']. rewrite Eops in HT. unfold safe. cbn.
  assert (delegators s' = delegators s) as ED by (rewrite (to_rest _ _ _ _ _ _ HT); done).
  rewrite (gd_addr _ _ _ G). change (<[a:=?z]> ?m) with (upd a (Some z) m).
  assert (ValidatorAddresses d ≠ []) as Hne.
  { intros E0. apply Nat.eqb_neq in El. apply El. by rewrite <-(length_fmap OperatorAddress), Eops, E0. }
  split; [by apply (vinv_same s'); [|apply HI'|]|]. split; [|split; [|intros b Hb; cbn; by rewrite lookup_upd, ED, decide_False]].
  - eapply share_restore; [done|exact HT|..].
    + intros e [= <-]. split; cbn; [apply G|apply G|apply G| |lia|done].
      intros v Hv. rewrite (to_vals _ _ _ _ _ _ HT), decide_True by done.
      destruct (gd_exist _ _ _ G v Hv) as [V ->]. by eexists.
    + intros v V Hv HV. cbn. rewrite Hd. unfold weight_on. cbn. rewrite !decide_True by done. split; [done|]. split; [done|lia].
    + intros v z Hv. unfold adds. split; [intros [= <-]; eexists; split; [done|done]|]. intros (e & [= <-] & _ & ->). done.
    + intros v z Hv. rewrite Hd. unfold adds. split; intros (e & [= <-] & He & _); cbn in He; done.
  - split; cbn.
    + apply HT.
    + exact (f_equal (set_delegators _) (to_rest _ _ _ _ _ _ HT)).
    + intros b. rewrite lookup_upd, ED. case_decide; [|done]. subst b. by rewrite Hd.
    + intros v. rewrite (to_vals _ _ _ _ _ _ HT). case_decide.
      * destruct (validators s !! v) as [V|]; cbn; [|done]. by eexists V, _.
      * destruct (validators s !! v) as [V|]; [|done]. exists V, (DelegatorShares V). by rewrite reshare_self.
Qed.

(** ** Withdrawing and adding shares *)

Lemma touched_skel a f o ops s s' : touched a f o ops s s' →
  (∀ V, match f V with Some V' => ∃ x, V' = reshare x V | None => vMinSelfDelegation V = 0 end) → skel s s'.
Proof.
  intros HT Hf. assert (delegators s' = delegators s) as ED by (rewrite (to_rest _ _ _ _ _ _ HT); done). split.
  - apply HT.
  - rewrite ED. etransitivity; [apply (to_rest _ _ _ _ _ _ HT)|]. by destruct s.
  - intros b. by rewrite ED.
  - intros v. rewrite (to_vals _ _ _ _ _ _ HT). case_decide.
    + destruct (validators s !! v) as [V|]; cbn; [|done]. specialize (Hf V).
      destruct (f V) as [V'|]; [|by intros ? [= <-]]. destruct Hf as [x ->]. by exists V, x.
    + destruct (validators s !! v) as [V|]; [|done]. exists V, (DelegatorShares V). by rewrite reshare_self.
Qed.

Lemma withdrawn_reshare x V :
  match withdrawn x V with Some V' => ∃ x, V' = reshare x V | None => vMinSelfDelegation V = 0 end.
Proof.
  unfold withdrawn. destruct (drained x V) eqn:E; [|by eexists]. unfold drained in E.
  apply andb_true_iff in E as [E _]. apply andb_true_iff in E as [_ E]. by apply Z.eqb_eq in E.
Qed.

(** Without its shares, a delegator's record can go or stay. *)
Lemma withdraw_last_safe ctx a d s : vinv s → share_inv s → delegators s !! a = Some d →
  safe (last ← gets (GetLastValsAddedSharesExisted a); WithdrawLastShares ctx a (fst last) (snd last)) s (λ _ s',
    vinv s' ∧ skel s s' ∧ delegators s' = delegators s ∧
    ∀ o, (∀ e, o = Some e → DelegatorAddress e = a ∧ 0 < Tokens e ∧ ValidatorAddresses e = [] ∧ Shares e = 0) →
      share_inv (set_delegators (upd a o (delegators s)) s')).
Proof.
  intros HI HS Hd. apply safe_bind, safe_gets. unfold GetLastValsAddedSharesExisted, GetDelegator, GetValidator.
  rewrite Hd. pose proof (last_vals s a d HS (vi_named s HI) Hd) as [Eops Hin]. cbn in Eops, Hin. cbn [fst snd].
  set (vals := omap _ _) in *. pose proof (good_of s a d HS Hd) as G. unfold WithdrawLastShares.
  eapply safe_mono; [apply touch_loop; [done|rewrite Eops; apply G|done|]|].
  { intros V s1 _. apply withdraw_one_safe. }
  intros _ s' [HT HI']. rewrite Eops in HT.
  assert (delegators s' = delegators s) as ED by (rewrite (to_rest _ _ _ _ _ _ HT); done).
  split; [done|]. split; [eapply touched_skel; [done|apply withdrawn_reshare]|]. split; [done|].
  intros o Ho. rewrite <-ED. eapply share_restore; [done|exact HT|..].
  - intros e He. destruct (Ho e He) as (E1 & E2 & E3 & E4). split; rewrite ?E3; [done|done|constructor| |done|done].
    intros v []%not_elem_of_nil.
  - intros v V Hv HV. rewrite Hd.
    assert (weight_on v o = 0) as ->.
    { apply adds_none. intros x (e & He & Hve & _). destruct (Ho e He) as (_ & _ & E3 & _). rewrite E3 in Hve.
      by apply not_elem_of_nil in Hve. }
    assert (weight_on v (Some d) = Shares d) as -> by (apply adds_weight; by exists d).
    unfold withdrawn. destruct (drained (Shares d) V) eqn:E; [|cbn; split; [done|split; [done|lia]]].
    unfold drained in E. apply andb_true_iff in E as [E E1]. apply andb_true_iff in E as [_ E2].
    apply Z.eqb_eq in E1, E2. unfold own_share. rewrite decide_True by done. split; [done|lia].
  - intros v x Hv. split; [done|]. intros (e & He & Hve & _). destruct (Ho e He) as (_ & _ & E3 & _).
    rewrite E3 in Hve. by apply not_elem_of_nil in Hve.
  - intros v x Hv. rewrite Hd. split; intros (e & He & Hve & _); [by simplify_eq|].
    destruct (Ho e He) as (_ & _ & E3 & _). rewrite E3 in Hve. by apply not_elem_of_nil in Hve.
Qed.

(** Adding shares for a delegator without any. *)
Lemma add_shares_safe ctx a e vals x s : blockTimestampEpoch ≤ Unix ctx → vinv s →
  share_inv (set_delegators (upd a (Some e) (delegators s)) s) →
  ValidatorAddresses e = [] → NoDup (OperatorAddress <$> vals) → vals ≠ [] →
  (∀ V, V ∈ vals → validators s !! OperatorAddress V = Some V) → 0 < x →
  safe (AddSharesToValidators ctx a vals x) s (λ y s', 0 < y ∧ vinv s' ∧ skel s s' ∧ delegators s' = delegators s ∧
    ∀ e', DelegatorAddress e' = a → 0 < Tokens e' → ValidatorAddresses e' = getValsAddrs vals → Shares e' = y →
      share_inv (set_delegators (upd a (Some e') (delegators s)) s')).
Proof.
  intros Ht HI HS He Hnd Hne Hin Hx. unfold AddSharesToValidators.
  destruct (weight_bound ctx x Ht Hx) as [Hw1 Hw2].
  apply safe_bind, safe_lift; [done|]. intros y Hy. apply Hw2 in Hy. apply safe_bind.
  eapply safe_mono; [apply touch_loop; [done|done|done|]|].
  { intros V s1 _. apply add_one_safe. }
  intros _ s' [HT HI']. apply safe_ret. split; [lia|]. split; [done|].
  split; [eapply touched_skel; [done|by intros V; eexists]|].
  assert (delegators s' = delegators s) as ED by (rewrite (to_rest _ _ _ _ _ _ HT); done). split; [done|].
  intros e' E1 E2 E3 E4.
  (* the loop, seen from the state in which the delegator has no shares *)
  set (s0 := set_delegators (upd a (Some e) (delegators s)) s) in *.
  assert (touched a (λ V, Some (reshare (DelegatorShares V + y) V)) (Some y) (OperatorAddress <$> vals) s0
    (set_delegators (upd a (Some e) (delegators s)) s')) as HT'.
  { destruct HT as [T1 T2 T3 T4]. split; [done| |done|done]. exact (f_equal (set_delegators _) T2). }
  assert (delegators s0 !! a = Some e) as Hse by (cbn; by rewrite lookup_upd, decide_True).
  assert (share_inv (set_delegators (upd a (Some e') (upd a (Some e) (delegators s)))
    (set_delegators (upd a (Some e) (delegators s)) s'))) as HR.
  { eapply (share_restore a _ _ _ s0 _ (Some e') HS HT').
    - intros d [= <-]. split; rewrite ?E3; [done|done|done| |lia|].
      + intros v Hv. cbn. rewrite (to_vals _ _ _ _ _ _ HT), decide_True by done.
        apply list_elem_of_fmap in Hv as (V & -> & HV). rewrite (Hin V HV). by eexists.
      + intros Hnil. unfold getValsAddrs in Hnil. by destruct vals.
    - intros v V Hv HV. rewrite Hse. assert (weight_on v (Some e) = 0) as ->.
      { apply adds_none. intros z (d & [= <-] & Hve & _). rewrite He in Hve. by apply not_elem_of_nil in Hve. }
      assert (weight_on v (Some e') = y) as ->; [|cbn; split; [done|split; [done|lia]]].
      apply adds_weight. exists e'. rewrite E3. done.
    - intros v z Hv. split; [intros [= <-]; exists e'; rewrite E3; done|]. intros (d & [= <-] & _ & ->). by rewrite E4.
    - intros v z Hv. rewrite Hse. split; intros (d & [= <-] & Hve & _); [rewrite He in Hve; by apply not_elem_of_nil in Hve|].
      rewrite E3 in Hve. done. }
  rewrite upd_upd in HR. exact HR.
Qed.

(** A delegator's record that keeps its shares. *)
Lemma set_delegator_share a d' s : vinv s → share_inv s → good_delegator (validators s) a d' →
  (∀ v x, adds (delegators s !! a) v x ↔ adds (Some d') v x) →
  share_inv (set_delegators (upd a (Some d') (delegators s)) s).
Proof.
  intros HI HS G Ha. apply (share_restore a (λ _, None) None [] s); [done|apply touched_nil, HI| | | |].
  - by intros d [= <-].
  - intros v V []%not_elem_of_nil.
  - intros v x []%not_elem_of_nil.
  - done.
Qed.
End shares.

End StakingShares.
