(* ===== verification/StakingMoney.v ===== *)
(** * Proxies and pools

    [proxy_inv] and [money_inv] do not depend on shares ([proxy_skel], [money_skel]).
    [proxy_one] and [proxy_two] keep the totals of proxies when the record of one
    delegator changes, or that of a delegator and of its proxy. *)

From S2P Require Import Prelude Runs SdkDec SdkCoins GoStd CoinFacts Common StakingErrors Token Staking StakingSpec.
From S2P Require Import StakingShares.

#[local] Open Scope Z_scope.

Module StakingMoney.
Import Staking StakingSpec StakingShares.

Section money.
Context `{DO : Dec.Ops} `{DL : !Dec.Laws} `{CO : Coins.Ops} `{CL : !Coins.Laws} `{BO : Bank.Ops} `{BL : !Bank.Laws}
  `{SO : !SupplyOps} `{SL : !SupplyLaws} `{EV : Env} `{EL : !EnvLaws} {W : Type} `{AP : !App W}
  (WInv : W → Prop) (protected : AccAddress → Prop) `{AL : !AppLaws WInv protected}.
Implicit Types (w : W) (s : StakingState W) (V : Validator) (v : ValAddress) (a p : AccAddress).

Abbreviation MS := (M (StakingState W)) (only parsing).
Abbreviation vinv := (val_inv WInv) (only parsing).
Abbreviation quiet := (calm WInv protected) (only parsing).
Abbreviation sk := (skel WInv protected) (only parsing).
Abbreviation minv := (money_inv protected) (only parsing).

(** ** States that differ in shares *)

Lemma same_but_shares (d d' : Delegator) : set_Shares 0 d' = set_Shares 0 d → d' = set_Shares (Shares d') d.
Proof. destruct d, d'. unfold set_Shares. cbn. intros E. injection E. intros. by subst. Qed.

Lemma skel_del s s' a d' : sk s s' → delegators s' !! a = Some d' →
  ∃ d x, delegators s !! a = Some d ∧ d' = set_Shares x d.
Proof.
  intros H Hd. pose proof (sk_del _ _ _ _ H a) as E. rewrite Hd in E.
  destruct (delegators s !! a) as [d|]; [|done]. exists d, (Shares d'). split; [done|].
  apply (inj Some) in E. by apply same_but_shares.
Qed.

Lemma skel_del_inv s s' a d : sk s s' → delegators s !! a = Some d →
  ∃ x, delegators s' !! a = Some (set_Shares x d).
Proof.
  intros H Hd. pose proof (sk_del _ _ _ _ H a) as E. rewrite Hd in E.
  destruct (delegators s' !! a) as [d'|]; [|done]. exists (Shares d'). f_equal.
  apply (inj Some) in E. by apply same_but_shares.
Qed.

Lemma skel_val s s' v V : sk s s' → validators s' !! v = Some V →
  ∃ V0 x, validators s !! v = Some V0 ∧ V = reshare x V0.
Proof. intros H HV. pose proof (sk_vals _ _ _ _ H v) as E. by rewrite HV in E. Qed.

Lemma skel_tokens s s' : sk s s' → msum Tokens (delegators s') = msum Tokens (delegators s).
Proof.
  intros H. apply msum_pointwise. intros a. destruct (delegators s' !! a) as [d'|] eqn:E'.
  - destruct (skel_del _ _ _ _ H E') as (d & x & -> & ->). done.
  - destruct (delegators s !! a) as [d|] eqn:E; [|done]. destruct (skel_del_inv _ _ _ _ H E). congruence.
Qed.

Lemma skel_bound s s' p : sk s s' → bound_tokens s' p = bound_tokens s p.
Proof.
  intros H. apply msum_pointwise. intros a. destruct (delegators s' !! a) as [d'|] eqn:E'.
  - destruct (skel_del _ _ _ _ H E') as (d & x & -> & ->). done.
  - destruct (delegators s !! a) as [d|] eqn:E; [|done]. destruct (skel_del_inv _ _ _ _ H E). congruence.
Qed.

Lemma skel_msd s s' : sk s s' → msum vMinSelfDelegation (validators s') = msum vMinSelfDelegation (validators s).
Proof.
  intros H. apply msum_pointwise. intros v. pose proof (sk_vals _ _ _ _ H v) as E.
  destruct (validators s' !! v) as [V|].
  - destruct E as (V0 & x & -> & ->). done.
  - destruct (validators s !! v) as [V|]; [|done]. cbn. by rewrite (E V).
Qed.

(** The fields that do not take part. *)
Lemma skel_fields s s' : sk s s' → params s' = params s ∧ undelegations s' = undelegations s ∧
  timeQueue s' = timeQueue s ∧ proxies s' = proxies s ∧ epoch s' = epoch s.
Proof. intros H. rewrite (sk_rest _ _ _ _ H). done. Qed.

Lemma skel_bal s s' a : sk s s' → a = bondedAcc ∨ a = notBondedAcc → bal s' a = bal s a.
Proof.
  intros H Ha. unfold bal. destruct (skel_fields _ _ H) as (-> & _). by apply (calm_pools _ _ _ _ (sk_calm _ _ _ _ H)).
Qed.

Lemma money_skel s s' : sk s s' → minv s → minv s'.
Proof.
  intros H [M1 M2 M3 M4 M5 M6]. destruct (skel_fields _ _ H) as (E1 & E2 & E3 & E4 & _). split; rewrite ?E1; try done.
  - rewrite (skel_bal _ _ _ H), (skel_tokens _ _ H), (skel_msd _ _ H); [done|by left].
  - unfold surplus. rewrite (skel_bal _ _ _ H), E2; [done|by right].
  - intros a u. rewrite E2, E3. apply M5.
  - intros a Ha. destruct (M6 a) as [H1 H2].
    + rewrite E2 in Ha. destruct Ha as [[d Hd]|[[V HV]|Ha]]; [..|by right; right].
      * left. destruct (skel_del _ _ _ _ H Hd) as (d0 & x & ? & _). by eexists.
      * right; left. destruct (skel_val _ _ _ _ H HV) as (V0 & x & ? & _). by eexists.
    + split; [done|]. by apply (calm_accounts _ _ _ _ (sk_calm _ _ _ _ H)).
Qed.

Lemma proxy_skel s s' : sk s s' → proxy_inv s → proxy_inv s'.
Proof.
  intros H [P1 P2 P3]. destruct (skel_fields _ _ H) as (_ & _ & _ & E4 & _). split.
  - intros a d' Hd' Hp. destruct (skel_del _ _ _ _ H Hd') as (d & x & Hd & ->). cbn in *.
    destruct (P1 a d Hd Hp) as (H1 & H2 & p & H3 & H4). split; [done|]. split; [done|].
    destruct (skel_del_inv _ _ _ _ H H3) as [y Hy]. by exists (set_Shares y p).
  - intros a d' Hd'. destruct (skel_del _ _ _ _ H Hd') as (d & x & Hd & ->). rewrite (skel_bound _ _ _ H). exact (P2 a d Hd).
  - intros p a. rewrite E4, P3. split; intros [Hp (d & Hd & Ed)]; (split; [done|]).
    + destruct (skel_del_inv _ _ _ _ H Hd) as [y Hy]. by exists (set_Shares y d).
    + destruct (skel_del _ _ _ _ H Hd) as (d0 & x & Hd0 & ->). by exists d0.
Qed.

(** ** Proxies *)

(** What a delegator counts for a proxy. *)
Definition bound_to p (o : option Delegator) : Z :=
  from_option (λ d, if decide (ProxyAddress d = p) then Tokens d else 0) 0 o.

Lemma bound_upd s s' p a o : delegators s' = upd a o (delegators s) →
  bound_tokens s' p = bound_tokens s p - bound_to p (delegators s !! a) + bound_to p o.
Proof. intros E. unfold bound_tokens. rewrite E. apply msum_upd. Qed.

Lemma bound_none s p : (∀ b d, delegators s !! b = Some d → ProxyAddress d ≠ p) → bound_tokens s p = 0.
Proof.
  intros H. unfold bound_tokens. rewrite (msum_ext _ (λ d : Delegator, 0 * Tokens d)), msum_scale; [lia|].
  intros b d Hd. rewrite decide_False; [done|]. by apply (H b).
Qed.

(** Nobody is bound to a delegator that is no proxy. *)
Lemma not_proxy s a d : proxy_inv s → delegators s !! a = Some d → IsProxy d = false → a ≠ "" → ∀ b e,
  delegators s !! b = Some e → ProxyAddress e ≠ a.
Proof. intros HP Hd Hi Ha b e He <-. destruct (px_bound s HP b e He Ha) as (_ & _ & p & Hp & ?). congruence. Qed.

Lemma proxy_free s p P : proxy_inv s → delegators s !! p = Some P → IsProxy P = true → ProxyAddress P = "".
Proof.
  intros HP Hd Hi. destruct (decide (ProxyAddress P = "")) as [|Hp]; [done|].
  destruct (px_bound s HP p P Hd Hp) as (? & _). congruence.
Qed.

Definition no_empty s : Prop := delegators s !! "" = None.

Lemma proxy_one a o s s' : proxy_inv s → no_empty s → a ≠ "" →
  (∀ d, delegators s !! a = Some d → ProxyAddress d = "" ∧ (IsProxy d = true → ∃ e, o = Some e ∧ IsProxy e = true)) →
  (∀ e, o = Some e → ProxyAddress e = "" ∧ TotalDelegatedTokens e = bound_tokens s a) →
  delegators s' = upd a o (delegators s) → proxies s' = proxies s → proxy_inv s'.
Proof.
  intros HP HN Ha Hold Hnew ED EP.
  assert (∀ p, p ≠ "" → bound_tokens s' p = bound_tokens s p) as Hb.
  { intros p Hp. rewrite (bound_upd s s' p a o ED).
    assert (bound_to p (delegators s !! a) = 0) as ->.
    { unfold bound_to. destruct (delegators s !! a) as [d|] eqn:E; [|done]. cbn. destruct (Hold d) as [Hd _]; [done|].
      rewrite Hd, decide_False; done. }
    assert (bound_to p o = 0) as ->; [|lia]. unfold bound_to. destruct o as [e|]; [|done]. cbn.
    destruct (Hnew e) as [He _]; [done|]. rewrite He, decide_False; done. }
  split.
  - intros b d. rewrite ED, lookup_upd. case_decide as E; [intros Hd Hp; by destruct (Hnew d Hd)|].
    intros Hd Hp. destruct (px_bound s HP b d Hd Hp) as (H1 & H2 & q & H3 & H4). split; [done|]. split; [done|].
    rewrite lookup_upd. case_decide as E'; [|by exists q]. subst a. destruct (Hold q H3) as [_ Hq].
    destruct (Hq H4) as (e & -> & He). by exists e.
  - intros b d. rewrite ED, lookup_upd. case_decide as E; intros Hd.
    + subst b. rewrite Hb by done. by apply Hnew.
    + rewrite Hb; [by apply HP|]. intros ->. by rewrite HN in Hd.
  - intros p b. rewrite EP, (px_key s HP), ED, lookup_upd. case_decide as E; [|done]. subst b.
    split; intros [Hp (d & Hd & Ed)]; [destruct (Hold d Hd)|destruct (Hnew d Hd)]; congruence.
Qed.

Lemma proxy_two a o p P delta s s' : proxy_inv s → no_empty s → a ≠ p → a ≠ "" → p ≠ "" →
  delegators s !! p = Some P → IsProxy P = true →
  (∀ d, delegators s !! a = Some d → IsProxy d = false ∧ (ProxyAddress d = "" ∨ ProxyAddress d = p)) →
  is_Some (delegators s !! a) →
  (∀ e, o = Some e → TotalDelegatedTokens e = 0 ∧
     (ProxyAddress e ≠ "" → ProxyAddress e = p ∧ IsProxy e = false ∧ ValidatorAddresses e = [])) →
  delta = bound_to p o - bound_to p (delegators s !! a) →
  delegators s' = upd p (Some (set_TotalDelegatedTokens (TotalDelegatedTokens P + delta) P)) (upd a o (delegators s)) →
  (∀ q b, (q, b) ∈ proxies s' ↔
     if decide (b = a) then q ≠ "" ∧ ∃ e, o = Some e ∧ ProxyAddress e = q else (q, b) ∈ proxies s) →
  proxy_inv s'.
Proof.
  intros HP HN Hap Ha Hp HPd HPi Hold [d0 Hd0] Hnew Hdelta ED EP.
  pose proof (proxy_free s p P HP HPd HPi) as HPf. destruct (Hold d0 Hd0) as [Hi0 Hpa0].
  pose proof (not_proxy s a d0 HP Hd0 Hi0 Ha) as Hna. pose proof (bound_none s a Hna) as Hba.
  set (P' := set_TotalDelegatedTokens _ P) in *.
  assert (∀ q, q ≠ "" → bound_tokens s' q = bound_tokens s q + if decide (q = p) then delta else 0) as Hb.
  { intros q Hq. unfold bound_tokens. rewrite ED, !msum_upd, lookup_upd, decide_False by done. rewrite HPd, Hd0. cbn.
    rewrite HPf, (decide_False (P := "" = q)) by congruence. destruct (decide (q = p)) as [Eq|Eq].
    - subst q. rewrite Hdelta, Hd0. unfold bound_to. cbn. lia.
    - assert ((if decide (ProxyAddress d0 = q) then Tokens d0 else 0) = 0) as ->.
      { rewrite decide_False; [done|]. intros E. destruct Hpa0; congruence. }
      assert (from_option (λ d, if decide (ProxyAddress d = q) then Tokens d else 0) 0 o = 0) as ->; [|lia].
      destruct o as [e|]; [|done]. cbn. destruct (Hnew e) as [_ He]; [done|]. rewrite decide_False; [done|].
      intros E. destruct He as (E' & _); congruence. }
  assert (∀ b, b ≠ p → b ≠ a → delegators s' !! b = delegators s !! b) as Hoth.
  { intros b ??. by rewrite ED, !lookup_upd, !decide_False by done. }
  assert (delegators s' !! p = Some P') as HP' by (by rewrite ED, lookup_upd, decide_True).
  assert (delegators s' !! a = o) as Ha' by (by rewrite ED, lookup_upd, decide_False, lookup_upd, decide_True by done).
  split.
  - intros b d Hd Hpb. destruct (decide (b = p)) as [->|Hbp].
    { rewrite HP' in Hd. injection Hd as <-. by destruct Hpb. }
    destruct (decide (b = a)) as [->|Hba'].
    { rewrite Ha' in Hd. destruct (Hnew d Hd) as [_ He]. destruct (He Hpb) as (E1 & E2 & E3). rewrite E1.
      split; [done|]. split; [done|]. by exists P'. }
    rewrite Hoth in Hd by done. destruct (px_bound s HP b d Hd Hpb) as (H1 & H2 & q & H3 & H4).
    split; [done|]. split; [done|]. destruct (decide (ProxyAddress d = p)) as [->|]; [by exists P'|].
    rewrite Hoth; [by exists q|done|]. by apply (Hna b).
  - intros b d Hd. destruct (decide (b = p)) as [->|Hbp].
    { rewrite HP' in Hd. injection Hd as <-. rewrite Hb, decide_True by done. cbn. by rewrite (px_total s HP p P HPd). }
    destruct (decide (b = a)) as [->|Hba'].
    { rewrite Ha' in Hd. destruct (Hnew d Hd) as [-> _]. rewrite Hb, decide_False by done. lia. }
    rewrite Hoth in Hd by done. rewrite Hb, decide_False; [|done|].
    + rewrite (px_total s HP b d Hd). lia.
    + intros ->. by rewrite HN in Hd.
  - intros q b. rewrite EP. case_decide as Eb; [subst b; by rewrite Ha'|]. rewrite (px_key s HP).
    destruct (decide (b = p)) as [->|]; [|by rewrite Hoth].
    rewrite HP', HPd. split; intros [Hq (d & [= <-] & Ed)]; cbn in Ed; congruence.
Qed.
End money.

End StakingMoney.
