(* ===== verification/StakingMsgs.v ===== *)
(** * Messages keep the module in order: deposits and withdrawals

    A handler's final state differs from an explicit one in shares only ([skel]): the
    proofs give the explicit state, for which the pools and the proxies are sums over
    maps, and leave the shares to the lemmas on loops. *)

From S2P Require Import Prelude Runs SdkDec SdkCoins GoStd CoinFacts Common StakingErrors Token Staking StakingSpec.
From S2P Require Import StakingShares StakingMoney.

#[local] Open Scope Z_scope.

Module StakingMsgs.
Import Staking StakingSpec StakingShares StakingMoney.

Section msgs.
Context `{DO : Dec.Ops} `{DL : !Dec.Laws} `{CO : Coins.Ops} `{CL : !Coins.Laws} `{BO : Bank.Ops} `{BL : !Bank.Laws}
  `{SO : !SupplyOps} `{SL : !SupplyLaws} `{EV : Env} `{EL : !EnvLaws} {W : Type} `{AP : !App W}
  (WInv : W → Prop) (protected : AccAddress → Prop) `{AL : !AppLaws WInv protected}.
Implicit Types (w : W) (s : StakingState W) (V : Validator) (v : ValAddress) (a p : AccAddress).

Abbreviation MS := (M (StakingState W)) (only parsing).
Abbreviation vinv := (val_inv WInv) (only parsing).
Abbreviation quiet := (calm WInv protected) (only parsing).
Abbreviation sk := (skel WInv protected) (only parsing).
Abbreviation minv := (money_inv protected) (only parsing).
Abbreviation sinv := (staking_inv WInv protected) (only parsing).

(** ** Payments *)

(** [x] of the bond denomination moved between accounts that no other module depends on. *)
Record transferred (d : string) (from to : AccAddress) (x : Z) w w' : Prop := {
  tr_inv : WInv w';
  tr_bal a : Bank.balance (bank w') a d = Bank.balance (bank w) a d
    - (if decide (a = from) then x else 0) + (if decide (a = to) then x else 0);
  tr_accounts a : HasAccount (bank w) a = true → HasAccount (bank w') a = true;
}.

Definition own (a : AccAddress) : Prop := ¬ protected a.

Lemma own_pools : own bondedAcc ∧ own notBondedAcc.
Proof. apply pools_own. Qed.

Lemma moved_transferred d from to c x b w : WInv w → own from → own to → Bank.moved (bank w) b from to c →
  amt d c = x → (∀ a, HasAccount (bank w) a = true → HasAccount b a = true) →
  transferred d from to x w (set_bank b w).
Proof.
  intros HW Hf Ht [Hm _] Hx Ha. split.
  - apply WInv_bank; [done|]. intros a e Hp. rewrite Hm, !decide_False; [lia|..]; intros ->; done.
  - intros a. rewrite bank_set_bank, Hm, Hx. done.
  - intros a. rewrite bank_set_bank. apply Ha.
Qed.

Lemma delegate_coins_safe a m c s : WInv (world s) → own a → own (Bank.GetModuleAddress m) →
  safe (on_supply (DelegateCoinsFromAccountToModule a m [c])) s (λ _ s', ∃ w', s' = set_world w' s
    ∧ transferred (Denom c) a (Bank.GetModuleAddress m) (Amount c) (world s) w' ∧ HasAccount (bank w') a = true).
Proof.
  intros HW Ha Hm. unfold on_supply, zoom, safe.
  destruct (DelegateCoinsFromAccountToModule a m [c] (bank (world s))) as [[[]|e|] b] eqn:E; [|done|by apply delegate_no_panic in E].
  destruct (delegate_ok _ _ _ _ _ E) as (Hmv & _ & Hacc). exists (set_bank b (world s)). split; [done|].
  split.
  - eapply moved_transferred; [done|done|done|done| |].
    + rewrite amt_single. destruct c. apply coin_amt_eq.
    + intros x. by apply (delegate_account _ _ _ _ _ _ E).
  - rewrite bank_set_bank. by apply (delegate_account _ _ _ _ _ _ E).
Qed.

Lemma to_not_bonded_runs c s : WInv (world s) → 0 < Amount c → Coins.ValidDenom (Denom c) = true →
  Amount c ≤ Bank.balance (bank (world s)) bondedAcc (Denom c) →
  runs (bondedTokensToNotBonded c) s (λ _ s', ∃ w', s' = set_world w' s
    ∧ transferred (Denom c) bondedAcc notBondedAcc (Amount c) (world s) w').
Proof.
  intros HW Hc Hd Hb. unfold bondedTokensToNotBonded, must, on_supply, zoom. rewrite Bank.ModuleToModule_spec.
  destruct (Bank.ModuleSend_total BondedPoolName notBondedAcc (Coins.ToCoins c) (bank (world s))) as [b Eb].
  { by apply Coins.ToCoins_valid. }
  { intros d. rewrite Coins.ToCoins_amt. unfold coin_amt. case_decide; [by subst|apply Bank.balance_nonneg]. }
  unfold runs. unfold notBondedAcc in Eb. rewrite Eb. eexists _, _. split; [done|]. eexists. split; [done|].
  destruct (Bank.SendCoins_ok _ _ _ _ _ Eb) as [Hmv _].
  eapply moved_transferred; [done|apply own_pools|apply own_pools|done| |].
  - rewrite Coins.ToCoins_amt. destruct c. apply coin_amt_eq.
  - intros a. by apply (send_account _ _ _ _ _ _ Eb).
Qed.

(** ** States known but for shares *)

Lemma skel_set g s' a o o' : sk g s' → set_Shares 0 <$> o' = set_Shares 0 <$> o →
  sk (set_delegators (upd a o (delegators g)) g) (set_delegators (upd a o' (delegators s')) s').
Proof.
  intros [H1 H2 H3 H4] Ho. split; cbn.
  - done.
  - exact (f_equal (set_delegators _) H2).
  - intros b. rewrite !lookup_upd. case_decide; [done|apply H3].
  - done.
Qed.

Lemma skel_proxies g s' P : sk g s' → sk (set_proxies P g) (set_proxies P s').
Proof. intros [H1 H2 H3 H4]. split; [done|exact (f_equal (set_proxies _) H2)|done|done]. Qed.

Lemma skel_und g s' U T : sk g s' →
  sk (set_timeQueue T (set_undelegations U g)) (set_timeQueue T (set_undelegations U s')).
Proof. intros [H1 H2 H3 H4]. split; [done|exact (f_equal (λ s, set_timeQueue T (set_undelegations U s)) H2)|done|done]. Qed.

(** A world that a payment changed, where the rest is in order. *)
Lemma skel_epoch g s' : sk g s' → params s' = params g ∧ GetEpoch s' = GetEpoch g.
Proof. intros H. destruct (skel_fields _ _ _ _ H) as (E1 & _ & _ & _ & E5). unfold GetEpoch. by rewrite E5. Qed.

Lemma jailed_skel g s' : sk g s' → jailed_inv g → jailed_inv s'.
Proof.
  intros H HJ v V Hv HV. destruct (skel_val _ _ _ _ _ _ H HV) as (V0 & x & HV0 & ->). apply (HJ v V0); [|done].
  by rewrite (sk_rest _ _ _ _ H) in Hv.
Qed.

Lemma by_skel g s' : sk g s' → proxy_inv g → minv g → 0 < Epoch (params g) ∧ 0 < GetEpoch g → jailed_inv g →
  vinv s' → share_inv s' → sinv s' ∧ surplus s' = surplus g.
Proof.
  intros H HP HM He HJ HV HS. destruct (skel_epoch _ _ H) as [E1 E2]. split.
  - split; [done|done|by eapply proxy_skel|by eapply money_skel|by rewrite E1, E2|by eapply jailed_skel].
  - unfold surplus. destruct (skel_fields _ _ _ _ H) as (_ & -> & _). rewrite (skel_bal _ _ _ _ _ H); [done|by right].
Qed.

Lemma minv_no_empty s : minv s → no_empty s.
Proof.
  intros HM. unfold no_empty. destruct (delegators s !! "") as [d|] eqn:E; [|done].
  destruct (mo_users _ s HM "") as [(_ & _ & _ & ?) _]; [by left; eexists|done].
Qed.

Lemma mul_minus_one x : Dec.Mul x (Dec.NewDec (-1)) = - x.
Proof.
  pose proof (Dec.Mul_spec x (Dec.NewDec (-1))) as H. rewrite Dec.NewDec_spec in *. pose proof unit_pos.
  set (y := Dec.Mul x (-1 * Dec.unit)) in *. assert (y * Dec.unit - x * (-1 * Dec.unit) = (y + x) * Dec.unit) as E by lia.
  rewrite E, Z.abs_mul, (Z.abs_eq Dec.unit) in H by lia. nia.
Qed.

(** ** Updating the shares of a delegator and of a proxy *)

(** UpdateProxy: the proxy's total moves, and its shares follow. *)
Lemma update_proxy_safe ctx d p P x s : blockTimestampEpoch ≤ Unix ctx → vinv s → share_inv s →
  ProxyAddress d = p → p ≠ "" → delegators s !! p = Some P → 0 < Tokens P →
  safe (UpdateProxy ctx d x) s (λ _ s',
    let g := set_delegators (upd p (Some (set_TotalDelegatedTokens (TotalDelegatedTokens P + x) P)) (delegators s)) s in
    vinv s' ∧ share_inv s' ∧ sk g s' ∧ ∀ b, b ≠ p → delegators s' !! b = delegators s !! b).
Proof.
  intros Ht HI HS Hp Hne HP HPt. unfold UpdateProxy, HasProxy. rewrite Hp.
  rewrite (proj2 (String.eqb_neq p "")) by done. cbn [negb]. cbv iota.
  apply safe_bind, safe_gets. unfold GetDelegator. rewrite HP, !Dec.Add_spec. cbn [TotalDelegatedTokens set_TotalDelegatedTokens Tokens DelegatorAddress].
  set (P' := set_TotalDelegatedTokens (TotalDelegatedTokens P + x) P).
  apply safe_bind, safe_throw_if. rewrite Dec.LT_spec, Dec.ZeroDec_spec. intros Hlt%Z.ltb_ge.
  apply safe_bind. unfold safe at 1. cbn -[P']. pose proof (good_of s p P HS HP) as G.
  set (g := set_delegators _ s).
  assert (g = set_delegators (upd p (Some P') (delegators s)) s) as Eg.
  { unfold g. cbn. by rewrite (gd_addr _ _ _ G). }
  rewrite (gd_addr _ _ _ G). cbv zeta. rewrite <-Eg.
  assert (vinv g) as HIg by (rewrite Eg; by apply (vinv_same _ s); [|apply HI|]).
  assert (share_inv g) as HSg.
  { rewrite Eg. apply (set_delegator_share WInv protected); [done|done|by split; apply G|]. intros v z. rewrite HP. unfold adds.
    split; intros (e & [= <-] & ? & ?); eexists; (split; [done|]); done. }
  eapply safe_mono; [eapply (update_shares_safe _ _ _ _ _ P'); [done|done|done|rewrite Eg; cbn; by rewrite lookup_upd, decide_True|lia]|].
  intros _ s' (H1 & H2 & H3 & H4). split; [done|]. split; [done|]. split; [done|].
  intros b Hb. rewrite H4, Eg by done. cbn. by rewrite lookup_upd, decide_False.
Qed.

(** ** Deposits *)

Lemma user_own a : user protected a → own a ∧ a ≠ bondedAcc ∧ a ≠ notBondedAcc ∧ a ≠ "".
Proof. intros (?&?&?&?). done. Qed.

(** What the bonded pool stands for. *)
Definition held s : Z := msum vMinSelfDelegation (validators s) + msum Tokens (delegators s).

Lemma money_in s g a q w' : minv s → user protected a → HasAccount (bank w') a = true →
  transferred (BondDenom (params s)) a bondedAcc q (world s) w' →
  world g = w' → params g = params s → undelegations g = undelegations s →
  timeQueue g = timeQueue s → held g = held s + q →
  (∀ b, is_Some (delegators g !! b) ∨ is_Some (validators g !! b) →
     is_Some (delegators s !! b) ∨ is_Some (validators s !! b) ∨ b = a) →
  minv g ∧ surplus g = surplus s.
Proof.
  intros [M1 M2 M3 M4 M5 M6] Hu Hacc [_ Tb Ta] <- E2 E4 E5 E6 E7. unfold held in E6. destruct (user_own a Hu) as (_ & Hab & Han & _).
  pose proof (pools_differ (WInv:=WInv) (protected:=protected)) as Hpd.
  assert (bal g notBondedAcc = bal s notBondedAcc) as En.
  { unfold bal. rewrite E2, Tb, !decide_False by congruence. lia. }
  assert (surplus g = surplus s) as Es by (unfold surplus; rewrite En, E4; done).
  split; [|done]. split; rewrite ?E2, ?E4, ?E5; try done.
  - unfold bal in *. rewrite E2, Tb, (decide_False (P := bondedAcc = a)), decide_True by congruence. lia.
  - by rewrite Es.
  - intros b Hb. destruct (decide (b = a)) as [->|Hne]; [done|].
    assert (is_Some (delegators s !! b) ∨ is_Some (validators s !! b) ∨ is_Some (undelegations s !! b)) as Hb'.
    { destruct Hb as [Hb|[Hb|Hb]]; [..|by right; right]; (destruct (E7 b) as [?|[?|?]]; [by auto|by left|by right; left|done]). }
    destruct (M6 b Hb') as [H1 H2]. split; [done|]. by apply Ta.
Qed.

Lemma tokens_upd (m : gmap AccAddress Delegator) a o :
  msum Tokens (upd a o m) = msum Tokens m - from_option Tokens 0 (m !! a) + from_option Tokens 0 o.
Proof. apply msum_upd. Qed.

Lemma upd_keys {A} (m : gmap string A) a o b : is_Some (upd a o m !! b) → is_Some (m !! b) ∨ b = a.
Proof. rewrite lookup_upd. case_decide; [by right|by left]. Qed.

Lemma new_good vals a x : 0 < x → good_delegator vals a (set_Tokens x (NewDelegator a)).
Proof.
  intros Hx. split; cbn; rewrite ?Dec.ZeroDec_spec; try done; try constructor. intros v []%not_elem_of_nil.
Qed.

(** The record of a delegator whose tokens become [x]. *)
Definition with_tokens s a x : Delegator := set_Tokens x (default (NewDelegator a) (delegators s !! a)).

Lemma with_tokens_share s a x : vinv s → share_inv s → 0 < x →
  good_delegator (validators s) a (with_tokens s a x) ∧
  share_inv (set_delegators (upd a (Some (with_tokens s a x)) (delegators s)) s).
Proof.
  intros HI HS Hx. unfold with_tokens.
  assert (good_delegator (validators s) a (set_Tokens x (default (NewDelegator a) (delegators s !! a)))) as G.
  { destruct (delegators s !! a) as [d|] eqn:Hd; cbn; [|by apply new_good].
    pose proof (good_of s a d HS Hd) as G. split; [apply G|done|apply G..]. }
  split; [done|]. apply (set_delegator_share WInv protected); [done|done|done|].
  intros v z. unfold adds. destruct (delegators s !! a) as [d|]; cbn.
  - split; intros (e & [= <-] & ? & ?); eexists; (split; [done|]); done.
  - split; [by intros (e & [=] & _)|]. intros (e & [= <-] & []%not_elem_of_nil & _).
Qed.

Lemma delegate_inv ctx a c s : blockTimestampEpoch ≤ Unix ctx → sinv s → user protected a →
  Denom c = BondDenom (params s) →
  safe (Delegate ctx a c) s (λ _ s', sinv s' ∧ surplus s' = surplus s).
Proof.
  intros Ht [HV HS HP HM HE HAb] Hu Hden. destruct (user_own a Hu) as (Hown & Hab & Han & Hane). unfold Delegate.
  destruct (mo_params _ s HM) as [Hmin _].
  apply safe_bind, safe_gets, safe_bind, safe_throw_if. rewrite Dec.LT_spec. intros Hq%Z.ltb_ge.
  set (q := Amount c) in *. apply safe_bind.
  eapply safe_mono; [apply delegate_coins_safe; [apply HV|done|apply own_pools]|]. intros _ s1 (w' & -> & Htr & Hacc).
  apply safe_bind, safe_gets. cbn beta. unfold GetDelegator. cbn [delegators set_world]. rewrite !Dec.Add_spec.
  set (x := Tokens (default (NewDelegator a) (delegators s !! a)) + q).
  change (set_Tokens x (default (NewDelegator a) (delegators s !! a))) with (with_tokens s a x).
  assert (from_option Tokens 0 (delegators s !! a) + q = x) as Ex.
  { unfold x. destruct (delegators s !! a); cbn; [done|]. by rewrite Dec.ZeroDec_spec. }
  assert (0 < x) as Hx.
  { rewrite <-Ex. destruct (delegators s !! a) as [d|] eqn:Hd; cbn; [pose proof (gd_tokens _ _ _ (good_of s a d HS Hd)); lia|lia]. }
  set (s1 := set_world w' s). assert (vinv s1) as HI1 by (by apply (vinv_same _ s); [|apply Htr|]).
  assert (share_inv s1) as HS1 by (destruct HS; by split).
  destruct (with_tokens_share s1 a x HI1 HS1 Hx) as [G HS2]. change (with_tokens s1 a x) with (with_tokens s a x) in *.
  set (d2 := with_tokens s a x) in *. apply safe_bind. unfold safe at 1. cbn -[HasProxy UpdateProxy UpdateShares d2].
  rewrite (gd_addr _ _ _ G). change (<[a:=d2]> (delegators s)) with (upd a (Some d2) (delegators s)).
  set (s2 := set_delegators (upd a (Some d2) (delegators s)) s1).
  assert (vinv s2) as HI2 by (by apply (vinv_same _ s1); [|apply Htr|]). change (share_inv s2) in HS2.
  assert (proxy_inv s1) as HP1 by (destruct HP; by split). pose proof (minv_no_empty s HM) as HN.
  assert (0 ≤ TotalDelegatedTokens d2) as Htot.
  { unfold d2, with_tokens. destruct (delegators s !! a) as [d|] eqn:Hd; cbn; [|by rewrite Dec.ZeroDec_spec].
    rewrite (px_total s HP a d Hd). unfold bound_tokens. apply msum_nonneg. intros b e He. case_decide; [|done].
    pose proof (gd_tokens _ _ _ (good_of s b e HS He)). lia. }
  destruct (HasProxy d2) eqn:Hpx.
  - (* the proxy follows *)
    unfold HasProxy in Hpx. apply negb_true_iff, String.eqb_neq in Hpx.
    destruct (delegators s !! a) as [d|] eqn:Hd; [|by unfold d2, with_tokens in Hpx; rewrite Hd in Hpx].
    assert (ProxyAddress d2 = ProxyAddress d ∧ IsProxy d2 = IsProxy d ∧ ValidatorAddresses d2 = ValidatorAddresses d
      ∧ TotalDelegatedTokens d2 = TotalDelegatedTokens d ∧ Tokens d2 = x) as (K1 & K2 & K3 & K4 & K5)
      by (unfold d2, with_tokens; rewrite Hd; done).
    clearbody d2.
    rewrite K1 in Hpx. destruct (px_bound s HP a d Hd Hpx) as (Hi & Hv & P & HPp & HPi).
    assert (a ≠ ProxyAddress d) as Hap by (intros E; rewrite <-E in HPp; congruence).
    eapply safe_mono; [eapply (update_proxy_safe ctx d2 (ProxyAddress d) P q s2); try done|].
    { cbn. by rewrite lookup_upd, decide_False. }
    { apply (gd_tokens _ _ _ (good_of s _ _ HS HPp)). }
    intros _ s' (H1 & H2 & H3 & _). cbn beta in H3.
    set (g := set_delegators _ s2) in H3.
    assert (proxy_inv g) as HPg.
    { eapply (proxy_two a (Some d2) (ProxyAddress d) P q s1); try done.
      - intros e He. change (delegators s !! a = Some e) in He. rewrite Hd in He. injection He as <-. split; [done|by right].
      - intros e [= <-]. rewrite K1, K2, K3, K4. split; [|done].
        rewrite (px_total s HP a d Hd). apply bound_none. by eapply not_proxy.
      - unfold bound_to. cbn. rewrite Hd. cbn. rewrite K1, !decide_True by done. rewrite K5, <-Ex. cbn. lia.
      - intros r b. change (proxies g) with (proxies s). case_decide as Eb; [|done]. subst b.
        rewrite (px_key s HP), Hd. split; intros [Hr (e & [= <-] & He)]; (split; [done|]); eexists; (split; [done|congruence]). }
    destruct (money_in s g a q w' HM Hu Hacc) as [HMg Hsg]; try done.
    { by rewrite <-Hden. }
    { unfold held. cbn. rewrite !tokens_upd, lookup_upd, decide_False by done. rewrite HPp, Hd. cbn in Ex. cbn. lia. }
    { cbn. intros b [[Hb| ->]%upd_keys|Hb]; [apply upd_keys in Hb as [?|?]; auto|left; by eexists|auto]. }
    destruct (by_skel g s' H3 HPg HMg HE HAb H1 H2) as [? ->]. done.
  - unfold HasProxy in Hpx. apply negb_false_iff, String.eqb_eq in Hpx.
    eapply safe_mono; [eapply (update_shares_safe _ _ _ _ _ d2); try done|].
    { cbn. by rewrite lookup_upd, decide_True. }
    { unfold final_tokens. rewrite ?Dec.Add_spec. assert (Tokens d2 = x) as -> by done. destruct (IsProxy d2); lia. }
    intros _ s' (H1 & H2 & H3 & _).
    assert (proxy_inv s2) as HPg.
    { eapply (proxy_one a (Some d2) s1); try done.
      - intros d Hd. cbn in Hd. unfold d2, with_tokens in *. rewrite Hd in *. cbn in *. split; [done|]. intros Hi. by eexists.
      - intros e [= <-]. split; [done|]. unfold d2, with_tokens. destruct (delegators s !! a) as [d|] eqn:Hd; cbn.
        + apply (px_total s HP a d Hd).
        + rewrite Dec.ZeroDec_spec. symmetry. apply bound_none. intros b e He Epa.
          destruct (px_bound s HP b e He) as (_ & _ & P & HPp & _); [congruence|]. congruence. }
    destruct (money_in s s2 a q w' HM Hu Hacc) as [HMg Hsg]; try done.
    { by rewrite <-Hden. }
    { unfold held. cbn. rewrite tokens_upd. assert (from_option Tokens 0 (Some d2) = x) as -> by done. lia. }
    { cbn. intros b [[?|?]%upd_keys|?]; auto. }
    destruct (by_skel s2 s' H3 HPg HMg HE HAb H1 H2) as [? ->]. done.
Qed.

(** ** Withdrawals *)

(** [q] of what the bonded pool stands for is gone; nothing else about money changed. *)
Record moved_out s w' (q : Z) (g : StakingState W) : Prop := {
  mv_world : world g = w';
  mv_params : params g = params s;
  mv_epoch : epoch g = epoch s;
  mv_und : undelegations g = undelegations s;
  mv_time : timeQueue g = timeQueue s;
  mv_held : held g = held s - q;
  mv_del b : is_Some (delegators g !! b) → is_Some (delegators s !! b);
  mv_val b : is_Some (validators g !! b) → is_Some (validators s !! b);
  mv_jailed : jailed_inv g;
}.

(** The undelegation is noted: what it adds leaves the surplus, what it replaces stays in
    it. *)
Lemma money_out s g w' a q u T : minv s → user protected a → HasAccount (bank (world s)) a = true → 0 < Quantity u →
  transferred (BondDenom (params s)) bondedAcc notBondedAcc q (world s) w' → moved_out s w' q g →
  uDelegatorAddress u = a → (CompletionTime u, a) ∈ T →
  (∀ b x, b ≠ a → undelegations s !! b = Some x → (CompletionTime x, b) ∈ T) →
  0 ≤ q + from_option Quantity 0 (undelegations s !! a) - Quantity u →
  let g' := set_timeQueue T (set_undelegations (<[a := u]> (undelegations s)) g) in
  minv g' ∧ surplus g' = surplus s + (q + from_option Quantity 0 (undelegations s !! a) - Quantity u).
Proof.
  intros [M1 M2 M3 M4 M5 M6] Hu Hacc Hq [_ Tb Ta] [E1 E2 E3 E4 E5 E6 E7 E8 E9] Hua HuT HT Hle g'.
  pose proof (pools_differ (WInv:=WInv) (protected:=protected)) as Hpd.
  assert (bal g' bondedAcc = bal s bondedAcc - q) as Eb.
  { unfold bal. cbn. rewrite E1, E2, Tb, decide_True, decide_False by congruence. lia. }
  assert (bal g' notBondedAcc = bal s notBondedAcc + q) as En.
  { unfold bal. cbn. rewrite E1, E2, Tb, decide_False, decide_True by congruence. lia. }
  assert (surplus g' = surplus s + (q + from_option Quantity 0 (undelegations s !! a) - Quantity u)) as Es.
  { unfold surplus. rewrite En. cbn. rewrite msum_insert. lia. }
  split; [|done]. split.
  - cbn. by rewrite E2.
  - cbn. by rewrite E2.
  - rewrite Eb. unfold held in *. cbn. lia.
  - rewrite Es. lia.
  - intros b x. cbn. rewrite lookup_insert. case_decide as Hb; [intros [= <-]; subst b; done|].
    intros Hx. destruct (M5 b x Hx) as (H1 & H2 & _). split; [done|]. split; [done|]. by apply HT.
  - intros b Hb. cbn in *. rewrite E1. destruct (decide (a = b)) as [<-|Hne]; [split; [done|by apply Ta]|].
    destruct (M6 b) as [H1 H2]; [|split; [done|by apply Ta]].
    destruct Hb as [Hb|[Hb|Hb]]; [left; by apply E7|right; left; by apply E8|]. rewrite lookup_insert_ne in Hb by done. by right; right.
Qed.

(** The middle of Withdraw: shares, the proxy's total, and the delegator's record. *)
Definition take_out ctx a (d : Delegator) (left q : Dec) : MS unit :=
  (if HasProxy d then UpdateProxy ctx d (Dec.Mul q (Dec.NewDec (-1))) else mret tt);;
  (if Dec.IsZero left then
     last ← gets (GetLastValsAddedSharesExisted a);
     WithdrawLastShares ctx a (fst last) (snd last);;
     (if HasProxy d then SetProxyBinding (ProxyAddress d) a true else mret tt);;
     DeleteDelegator a
   else
     let d' := set_Tokens left d in
     SetDelegator d';;
     if negb (HasProxy d') then UpdateShares ctx (DelegatorAddress d') (final_tokens d') else mret tt).

(** What is left of the delegator. *)
Definition remainder (d : Delegator) (left : Z) : option Delegator :=
  if decide (left = 0) then None else Some (set_Tokens left d).

(** The bindings after the withdrawal. *)
Definition unbound_if (b : bool) (P : gset (AccAddress * AccAddress)) p a : gset (AccAddress * AccAddress) :=
  if b then P ∖ {[(p, a)]} else P.

Lemma tokens_remainder d left : 0 ≤ left → from_option Tokens 0 (remainder d left) = left.
Proof. intros H. unfold remainder. case_decide; cbn; lia. Qed.

(** A delegator whose record shrinks: shares in order, whatever happened to others. *)
Lemma shrink_share s a d left : vinv s → share_inv s → delegators s !! a = Some d → 0 < left →
  share_inv (set_delegators (upd a (Some (set_Tokens left d)) (delegators s)) s).
Proof.
  intros HI HS Hd Hl. pose proof (good_of s a d HS Hd) as G.
  apply (set_delegator_share WInv protected); [done|done|split; [apply G|done|apply G..]|].
  intros v z. rewrite Hd. unfold adds. split; intros (e & [= <-] & ? & ?); eexists; (split; [done|]); done.
Qed.

Lemma take_out_free ctx a d left q s w' : blockTimestampEpoch ≤ Unix ctx → sinv s →
  transferred (BondDenom (params s)) bondedAcc notBondedAcc q (world s) w' →
  delegators s !! a = Some d → HasProxy d = false → left = Tokens d - q → 0 ≤ left →
  (IsProxy d = true → left ≠ 0) →
  safe (take_out ctx a d left q) (set_world w' s) (λ _ s',
    ∃ g, sk g s' ∧ vinv s' ∧ share_inv s' ∧ proxy_inv g ∧ moved_out s w' q g).
Proof.
  intros Ht [HV HS HP HM HE HAb] Htr Hd Hpx Hleft Hl Hproxy. unfold take_out. rewrite Hpx.
  apply safe_bind, safe_ret. rewrite Dec.IsZero_spec.
  set (s1 := set_world w' s). assert (vinv s1) as HI1 by (by apply (vinv_same _ s); [|apply Htr|]).
  assert (share_inv s1) as HS1 by (destruct HS; by split). assert (proxy_inv s1) as HP1 by (destruct HP; by split).
  assert (ProxyAddress d = "") as Hpa by (unfold HasProxy in Hpx; by apply negb_false_iff, String.eqb_eq in Hpx).
  pose proof (minv_no_empty s HM) as HN. pose proof (good_of s a d HS Hd) as G.
  assert (a ≠ "") as Ha by (intros ->; by rewrite HN in Hd).
  (* the state but for shares *)
  set (g := set_delegators (upd a (remainder d left) (delegators s)) s1).
  assert (proxy_inv g) as HPg.
  { apply (proxy_one a (remainder d left) s1); try done.
    - intros e He. change (delegators s !! a = Some e) in He. rewrite Hd in He. injection He as <-. split; [done|].
      intros Hi. unfold remainder. rewrite decide_False by auto. by eexists.
    - intros e. unfold remainder. case_decide; [done|]. intros [= <-]. split; [done|]. apply (px_total s HP a d Hd). }
  assert (moved_out s w' q g) as Hmv.
  { split; try done.
    - unfold held. cbn. rewrite tokens_upd, Hd, tokens_remainder by done. cbn. lia.
    - intros b [Hb| ->]%upd_keys; [done|by eexists]. }
  destruct (left =? 0)%Z eqn:El.
  - apply Z.eqb_eq in El. apply safe_assoc, safe_bind.
    eapply safe_mono; [apply (withdraw_last_safe WInv protected ctx a d); done|].
    intros _ s2 (H1 & H2 & H3 & H4). apply safe_bind, safe_ret. unfold safe. cbn. change (delete ?k ?m) with (upd k None m).
    exists g. assert (remainder d left = None) as Er by (unfold remainder; by rewrite decide_True).
    split; [|split; [|split; [|done]]].
    + unfold g. rewrite Er. by apply (skel_set s1 s2 a None None).
    + by apply (vinv_same _ s2); [|apply H1|].
    + rewrite H3. by apply H4.
  - apply Z.eqb_neq in El. assert (HasProxy (set_Tokens left d) = false) as -> by done. cbn [negb]. cbv iota zeta.
    apply safe_bind. unfold safe at 1. cbn -[UpdateShares final_tokens]. rewrite (gd_addr _ _ _ G).
    change (<[a := ?x]> ?m) with (upd a (Some x) m).
    assert (remainder d left = Some (set_Tokens left d)) as Er by (unfold remainder; by rewrite decide_False).
    unfold g in *. rewrite Er in *. fold s1.
    eapply safe_mono; [eapply (update_shares_safe _ _ _ _ _ (set_Tokens left d)); [done| | | |]|].
    + by apply (vinv_same _ s1); [|apply HI1|].
    + apply (shrink_share s1); [done|done|done|lia].
    + cbn. by rewrite lookup_upd, decide_True.
    + unfold final_tokens. rewrite ?Dec.Add_spec. cbn. rewrite (px_total s HP a d Hd).
      assert (0 ≤ bound_tokens s a); [|destruct (IsProxy d); lia]. apply msum_nonneg. intros b e He. case_decide; [|done].
      pose proof (gd_tokens _ _ _ (good_of s b e HS He)). lia.
    + intros _ s' (H1 & H2 & H3 & _). eexists. split; [exact H3|done].
Qed.

Lemma take_out_bound ctx a d left q s w' : blockTimestampEpoch ≤ Unix ctx → sinv s →
  transferred (BondDenom (params s)) bondedAcc notBondedAcc q (world s) w' →
  delegators s !! a = Some d → HasProxy d = true → left = Tokens d - q → 0 ≤ left →
  safe (take_out ctx a d left q) (set_world w' s) (λ _ s',
    ∃ g, sk g s' ∧ vinv s' ∧ share_inv s' ∧ proxy_inv g ∧ moved_out s w' q g).
Proof.
  intros Ht [HV HS HP HM HE HAb] Htr Hd Hpx Hleft Hl. unfold take_out. rewrite Hpx, mul_minus_one, Dec.IsZero_spec.
  set (s1 := set_world w' s). assert (vinv s1) as HI1 by (by apply (vinv_same _ s); [|apply Htr|]).
  assert (share_inv s1) as HS1 by (destruct HS; by split). assert (proxy_inv s1) as HP1 by (destruct HP; by split).
  assert (ProxyAddress d ≠ "") as Hpa by (unfold HasProxy in Hpx; by apply negb_true_iff, String.eqb_neq in Hpx).
  pose proof (minv_no_empty s HM) as HN. assert (a ≠ "") as Ha by (intros ->; by rewrite HN in Hd).
  destruct (px_bound s HP a d Hd Hpa) as (Hi & Hv & P & HPp & HPi).
  assert (a ≠ ProxyAddress d) as Hap by (intros E; rewrite <-E in HPp; congruence).
  (* the state but for shares *)
  set (P' := set_TotalDelegatedTokens (TotalDelegatedTokens P + - q) P).
  set (g1 := set_delegators (upd (ProxyAddress d) (Some P') (delegators s)) s1).
  set (g := set_proxies (unbound_if (bool_decide (left = 0)) (proxies s) (ProxyAddress d) a)
              (set_delegators (upd a (remainder d left) (delegators g1)) g1)).
  assert (delegators g = upd (ProxyAddress d) (Some P') (upd a (remainder d left) (delegators s))) as Eg.
  { cbn. apply map_eq. intros b. rewrite !lookup_upd. repeat case_decide; congruence. }
  assert (proxy_inv g) as HPg.
  { apply (proxy_two a (remainder d left) (ProxyAddress d) P (- q) s1); try done.
    - intros e He. change (delegators s !! a = Some e) in He. rewrite Hd in He. injection He as <-. split; [done|by right].
    - intros e. unfold remainder. case_decide; [done|]. intros [= <-]. cbn. split; [|done].
      rewrite (px_total s HP a d Hd). apply bound_none. by eapply not_proxy.
    - change (delegators s1 !! a) with (delegators s !! a). rewrite Hd. unfold bound_to, remainder.
      case_decide; cbn; rewrite ?decide_True by done; lia.
    - intros r b. cbn. unfold unbound_if, remainder. destruct (decide (left = 0)) as [El|El].
      + rewrite bool_decide_true, elem_of_difference, elem_of_singleton by done. case_decide as Eb.
        * subst b. rewrite (px_key s HP), Hd. naive_solver.
        * naive_solver.
      + rewrite bool_decide_false by done. case_decide as Eb; [|done]. subst b. rewrite (px_key s HP), Hd.
        split; intros [Hr (e & [= <-] & He)]; (split; [done|]); eexists; (split; [done|done]). }
  assert (moved_out s w' q g) as Hmv.
  { split; try done.
    - unfold held. rewrite Eg. change (validators g) with (validators s). rewrite !tokens_upd, lookup_upd, decide_False, HPp, Hd, tokens_remainder by done.
      cbn. lia.
    - rewrite Eg. intros b [Hb| ->]%upd_keys; [|by eexists]. apply upd_keys in Hb as [Hb| ->]; [done|by eexists]. }
  apply safe_bind.
  eapply safe_mono; [apply (update_proxy_safe ctx d (ProxyAddress d) P (- q) s1); try done; apply (gd_tokens _ _ _ (good_of s _ _ HS HPp))|].
  intros _ s2 (H1 & H2 & H3 & H4). cbv zeta in H3. change (sk g1 s2) in H3.
  assert (delegators s2 !! a = Some d) as Hd2 by (rewrite H4 by done; exact Hd).
  assert (proxies s2 = proxies s) as Ep2 by (destruct (skel_fields _ _ _ _ H3) as (_ & _ & _ & -> & _); done).
  destruct (left =? 0)%Z eqn:El.
  - apply Z.eqb_eq in El. apply safe_assoc, safe_bind.
    eapply safe_mono; [apply (withdraw_last_safe WInv protected ctx a d); done|].
    intros _ s3 (K1 & K2 & K3 & K4). apply safe_bind. unfold safe at 1. cbn. unfold safe. cbn.
    change (delete ?k ?m) with (upd k None m). exists g.
    assert (remainder d left = None) as Er by (unfold remainder; by rewrite decide_True).
    assert (sk g1 s3) as H5 by (by eapply skel_trans).
    assert (proxies s3 = proxies s) as Ep3 by (destruct (skel_fields _ _ _ _ H5) as (_ & _ & _ & -> & _); done).
    split; [|split; [|split; [|done]]].
    + unfold g. rewrite Er, bool_decide_true, Ep3 by done. exact (skel_proxies _ _ _ (skel_set g1 s3 a None None H5 eq_refl)).
    + by apply (vinv_same _ s3); [|apply K1|].
    + rewrite K3. specialize (K4 None). destruct K4 as [A1 A2 A3]; [done|]. by split.
  - apply Z.eqb_neq in El. assert (HasProxy (set_Tokens left d) = true) as -> by done. cbn [negb]. cbv iota zeta.
    assert (remainder d left = Some (set_Tokens left d)) as Er by (unfold remainder; by rewrite decide_False).
    apply safe_bind. unfold safe. cbn. rewrite (gd_addr _ _ _ (good_of s2 a d H2 Hd2)).
    change (<[a := ?x]> ?m) with (upd a (Some x) m). exists g. split; [|split; [|split; [|done]]].
    + pose proof (skel_set g1 s2 a (Some (set_Tokens left d)) (Some (set_Tokens left d)) H3 eq_refl) as H5.
      unfold g. rewrite Er, bool_decide_false by done.
      assert (∀ x : StakingState W, proxies x = proxies s → set_proxies (proxies s) x = x) as Hid.
      { intros x <-. by destruct x. }
      rewrite Hid by done. exact H5.
    + by apply (vinv_same _ s2); [|apply H1|].
    + apply (shrink_share s2); [done|done|done|lia].
Qed.

Lemma withdraw_stake_inv ctx a c s : blockTimestampEpoch ≤ Unix ctx → sinv s → Denom c = BondDenom (params s) →
  safe (Withdraw ctx a c) s (λ _ s', sinv s' ∧ surplus s' = surplus s).
Proof.
  intros Ht Hinv Hden. pose proof Hinv as [HV HS HP HM HE HAb]. unfold Withdraw. destruct (mo_params _ s HM) as [Hmin _].
  apply safe_bind, safe_gets, safe_bind, safe_or_throw. intros d Hd. unfold GetDelegator in Hd.
  apply safe_bind, safe_gets, safe_bind, safe_throw_if. rewrite !Dec.LT_spec. intros Hq%Z.ltb_ge.
  apply safe_bind, safe_throw_if. intros Hle%Z.ltb_ge. rewrite Dec.Sub_spec, Dec.IsZero_spec.
  apply safe_bind, safe_throw_if. intros Hprox. set (q := Amount c) in *. set (left := Tokens d - q) in *.
  assert (∀ b e, delegators s !! b = Some e → 0 ≤ Tokens e) as Hpos.
  { intros b e He. apply Z.lt_le_incl, (gd_tokens _ _ _ (good_of s b e HS He)). }
  assert (q ≤ bal s bondedAcc) as Hb.
  { rewrite (mo_bonded _ s HM). assert (Tokens d ≤ msum Tokens (delegators s)) by (by apply (msum_le Tokens _ a)).
    assert (0 ≤ msum vMinSelfDelegation (validators s)); [|lia]. apply msum_nonneg. intros v V HVV. by apply (sh_val s HS v V). }
  apply safe_bind, safe_runs. eapply runs_mono; [apply to_not_bonded_runs; [apply HV|lia| |by rewrite Hden]|].
  { rewrite Hden, (mo_denom _ s HM). apply Coins.DefaultBondDenom_valid. }
  intros _ s1 (w' & -> & Htr). rewrite Hden in Htr. fold q in Htr.
  destruct (mo_users _ s HM a) as [Hu Hacc]; [left; by eexists|].
  match goal with |- safe (?m1 ≫= λ _, ?m2 ≫= ?k) _ _ => change (safe (m1 ≫= λ _, m2 ≫= k) (set_world w' s)
    (λ _ s', sinv s' ∧ surplus s' = surplus s)) end.
  apply safe_assoc, safe_bind.
  assert (safe (take_out ctx a d left q) (set_world w' s) (λ _ s',
    ∃ g, sk g s' ∧ vinv s' ∧ share_inv s' ∧ proxy_inv g ∧ moved_out s w' q g)) as Htake.
  { destruct (HasProxy d) eqn:Hpx; [apply take_out_bound|apply take_out_free]; try done; try lia.
    intros Hi Hl. rewrite Hi, Hl in Hprox. done. }
  unfold take_out in Htake. rewrite Dec.IsZero_spec in Htake.
  eapply safe_mono; [exact Htake|]. clear Htake. intros _ s2 (g & H1 & H2 & H3 & H4 & Hmv). cbn beta.
  destruct (skel_fields _ _ _ _ H1) as (_ & Eu & Et & _ & _). rewrite (mv_und _ _ _ _ Hmv) in Eu. rewrite (mv_time _ _ _ _ Hmv) in Et.
  apply safe_bind, safe_gets. unfold GetUndelegating. rewrite Eu.
  set (time := BlockTime ctx + UnbondingTime (params s)).
  set (x := q + from_option Quantity 0 (undelegations s !! a)).
  set (T0 := match undelegations s !! a with Some u => timeQueue s ∖ {[(CompletionTime u, a)]} | None => timeQueue s end).
  set (u := MkUndelegationInfo a x time). set (T := {[(time, a)]} ∪ T0).
  assert (0 < x) as Hx.
  { unfold x. destruct (undelegations s !! a) as [u0|] eqn:E; cbn; [|lia]. destruct (mo_und _ s HM a u0 E) as (_ & ? & _). lia. }
  pose proof (money_out s g w' a q u T HM Hu Hacc Hx Htr Hmv eq_refl) as Hout. cbv zeta in Hout.
  destruct Hout as [HMg Hsg].
  { unfold T. set_solver. }
  { intros b y Hab Hy. destruct (mo_und _ s HM b y Hy) as (_ & _ & Hin). unfold T, T0.
    destruct (undelegations s !! a); set_solver. }
  { cbn. fold x. lia. }
  replace (surplus s + _) with (surplus s) in Hsg by (cbn; fold x; lia).
  match goal with |- safe ?m s2 _ => assert (m s2 = (Ok time, set_timeQueue T (set_undelegations (<[a := u]> (undelegations s)) s2))) as E end.
  { unfold T, T0, u, x. destruct (undelegations s !! a) as [u0|] eqn:E0; rewrite ?Dec.Add_spec;
      unfold SetUndelegating, SetAddrByTimeKeyWithNilValue, DeleteAddrByTimeKey, modify, mbind, M_bind; cbn; rewrite Eu, Et.
    - destruct (mo_und _ s HM a u0 E0) as (-> & _ & _). by rewrite (Z.add_comm (Quantity u0)).
    - by rewrite Z.add_0_r. }
  unfold safe. rewrite E. rewrite <-Hsg. eapply by_skel; [by apply skel_und| |done|..].
  - destruct H4. by split.
  - cbn. unfold GetEpoch. cbn. by rewrite (mv_params _ _ _ _ Hmv), (mv_epoch _ _ _ _ Hmv).
  - apply (mv_jailed _ _ _ _ Hmv).
  - by apply (vinv_same _ s2); [|apply H2|].
  - destruct H3. by split.
Qed.
End msgs.

End StakingMsgs.
