(* ===== verification/StakingHandlers.v ===== *)
(** * Messages keep the module in order: shares, proxies and validators *)

From S2P Require Import Prelude Runs SdkDec SdkCoins GoStd CoinFacts Common StakingErrors Token Staking StakingSpec.
From S2P Require Import StakingShares StakingMoney StakingMsgs.

#[local] Open Scope Z_scope.

Module StakingHandlers.
Import Staking StakingSpec StakingShares StakingMoney StakingMsgs.

Section handlers.
Context `{DO : Dec.Ops} `{DL : !Dec.Laws} `{CO : Coins.Ops} `{CL : !Coins.Laws} `{BO : Bank.Ops} `{BL : !Bank.Laws}
  `{SO : !SupplyOps} `{SL : !SupplyLaws} `{EV : Env} `{EL : !EnvLaws} {W : Type} `{AP : !App W}
  (WInv : W → Prop) (protected : AccAddress → Prop) `{AL : !AppLaws WInv protected}.
Implicit Types (w : W) (s : StakingState W) (V : Validator) (v : ValAddress) (a p : AccAddress).

Abbreviation MS := (M (StakingState W)) (only parsing).
Abbreviation vinv := (val_inv WInv) (only parsing).
Abbreviation quiet := (calm WInv protected) (only parsing).
Abbreviation sk := (skel WInv protected) (only parsing).
Abbreviation minv := (money_inv protected) (only parsing).
Abbreviation sinv := (staking_inv WInv protected) (only parsing).
Abbreviation kept := (λ s s', sinv s' ∧ surplus s' = surplus s) (only parsing).

(** ** Delegators whose shares stay *)

(** The fields of a delegator that matter for shares. *)
Definition share_fields (d : Delegator) : AccAddress * list ValAddress * Z * Z :=
  (DelegatorAddress d, ValidatorAddresses d, Shares d, Tokens d).

Lemma share_delegators s s' : share_inv s → validators s' = validators s → allShares s' = allShares s →
  (∀ b, share_fields <$> delegators s' !! b = share_fields <$> delegators s !! b) → share_inv s'.
Proof.
  intros [H1 H2 H3] EV0 ES ED.
  assert (∀ b d', delegators s' !! b = Some d' → ∃ d, delegators s !! b = Some d ∧ share_fields d' = share_fields d) as Hto.
  { intros b d' Hd'. specialize (ED b). rewrite Hd' in ED. destruct (delegators s !! b) as [d|]; [|done].
    exists d. split; [done|]. by apply (inj Some) in ED. }
  assert (∀ b d, delegators s !! b = Some d → ∃ d', delegators s' !! b = Some d' ∧ share_fields d' = share_fields d) as Hfrom.
  { intros b d Hd. specialize (ED b). rewrite Hd in ED. destruct (delegators s' !! b) as [d'|]; [|done].
    exists d'. split; [done|]. by apply (inj Some) in ED. }
  split.
  - intros v V. rewrite EV0. intros HV. destruct (H1 v V HV) as (-> & ? & ?). split; [|done]. f_equal.
    symmetry. apply msum_pointwise. intros b. destruct (delegators s' !! b) as [d'|] eqn:E'.
    + destruct (Hto b d' E') as (d & -> & [= _ E2 E3 _]). cbn. by rewrite E2, E3.
    + destruct (delegators s !! b) as [d|] eqn:E; [|done]. destruct (Hfrom b d E) as (? & ? & _). congruence.
  - intros b d' Hd'. destruct (Hto b d' Hd') as (d & Hd & [= -> -> -> ->]). rewrite EV0. by apply H2.
  - intros v b x. rewrite ES, H3. split.
    + intros (d & Hd & Hv & ->). destruct (Hfrom b d Hd) as (d' & Hd' & [= _ E2 E3 _]). exists d'. by rewrite E2, E3.
    + intros (d' & Hd' & Hv & ->). destruct (Hto b d' Hd') as (d & Hd & [= _ E2 E3 _]). exists d. by rewrite <-E2, <-E3.
Qed.

(** Delegators whose tokens stay. *)
Lemma money_same s g : minv s → world g = world s → params g = params s → validators g = validators s →
  undelegations g = undelegations s → timeQueue g = timeQueue s →
  (∀ b, Tokens <$> delegators g !! b = Tokens <$> delegators s !! b) → minv g ∧ surplus g = surplus s.
Proof.
  intros [M1 M2 M3 M4 M5 M6] E1 E2 E3 E4 E5 ED.
  assert (∀ a, bal g a = bal s a) as Eb by (intros a; unfold bal; by rewrite E1, E2).
  assert (surplus g = surplus s) as Es by (unfold surplus; by rewrite Eb, E4).
  split; [|done]. split; rewrite ?E1, ?E2, ?E3, ?E4, ?E5, ?Eb, ?Es; try done.
  - rewrite M3. f_equal. symmetry. apply msum_pointwise. intros b. specialize (ED b).
    destruct (delegators g !! b), (delegators s !! b); cbn in *; (done || by injection ED).
  - intros b Hb. apply M6. destruct Hb as [[d Hd]|Hb]; [|by right]. left. specialize (ED b). rewrite Hd in ED.
    destruct (delegators s !! b); [by eexists|done].
Qed.

(** ** Editing and jailing *)

(** The index does not change when neither the power nor the jail does. *)
Lemma reindex_same s v V0 V : vinv s → validators s !! v = Some V0 → OperatorAddress V = v →
  DelegatorShares V = DelegatorShares V0 → Jailed V = Jailed V0 →
  reindex (Some V0) (Some V) (powerIndex s) = powerIndex s.
Proof.
  intros HI HV E1 E2 E3. destruct (vi_op WInv s HI v V0 HV) as [Ho _].
  assert (GetValidatorsByPowerIndexKey V = GetValidatorsByPowerIndexKey V0) as Ek
    by (unfold GetValidatorsByPowerIndexKey; by rewrite E1, E2, Ho).
  unfold reindex. rewrite E3, Ek, E1. destruct (Jailed V0) eqn:EJ.
  - apply delete_id. destruct (powerIndex s !! _) as [u|] eqn:E; [|done].
    apply (vi_power WInv s HI) in E as (U & HU & HJ & EK). apply (f_equal snd) in EK. cbn in EK.
    destruct (vi_op WInv s HI u U HU) as [HoU _]. congruence.
  - rewrite insert_delete_eq. apply insert_id. apply (vi_power WInv s HI). by exists V0.
Qed.

Lemma msd_upd (m : gmap ValAddress Validator) v V0 V : m !! v = Some V0 →
  msum vMinSelfDelegation (upd v (Some V) m)
  = msum vMinSelfDelegation m - vMinSelfDelegation V0 + vMinSelfDelegation V.
Proof. intros E. rewrite msum_upd, E. done. Qed.

(** A validator whose record keeps its core, its shares and its self delegation. *)
Lemma rewrite_kept s v V0 V : sinv s → validators s !! v = Some V0 → same_core V0 V →
  DelegatorShares V = DelegatorShares V0 → vMinSelfDelegation V = vMinSelfDelegation V0 →
  (vMinSelfDelegation V = 0 → Jailed V = true) → (v ∈ abandoned s → Jailed V = true) → kept s (rewrite_val v (Some V) s).
Proof.
  intros [HV HS HP HM HE HAb] Hv Hc E1 E2 HJ HJ'. split; [split; [by eapply rewrite_val_inv| | | |done|]|done].
  - destruct HS as [H1 H2 H3]. split; [|intros b d Hd|done].
    + intros u U. cbn. rewrite lookup_upd. case_decide as E; [|apply H1]. intros [= <-]. subst u.
      destruct (H1 v V0 Hv) as (K1 & K2 & K3). unfold own_share in *. rewrite E1, E2. rewrite E2 in HJ. done.
    + destruct (H2 b d Hd) as (?&?&?&K&?&?&?). split_and!; try done. intros u Hu. cbn. rewrite lookup_upd.
      case_decide; [by eexists|by apply K].
  - destruct HP. by split.
  - destruct HM as [M1 M2 M3 M4 M5 M6]. split; try done.
    + cbn. rewrite (msd_upd _ _ V0), E2 by done. change (bal (rewrite_val v (Some V) s) bondedAcc) with (bal s bondedAcc). lia.
    + intros b Hb. apply M6. destruct Hb as [Hb|[Hb|Hb]]; [by left| |by right; right]. right; left. cbn in Hb.
      rewrite lookup_upd in Hb. case_decide as E; [|done]. subst b. by eexists.
  - intros u U. cbn. rewrite lookup_upd. case_decide as E; [|apply HAb]. intros Hu [= <-]. subst u. by apply HJ'.
Qed.

Lemma edit_inv msg s : sinv s → safe (handleMsgEditValidator msg) s (λ _ s', kept s s').
Proof.
  intros HI. unfold handleMsgEditValidator. apply safe_bind, safe_gets, safe_bind, safe_or_throw. intros V0 Hv.
  unfold GetValidator in Hv. destruct (vi_op WInv s (inv_val _ _ _ HI) _ _ Hv) as [Ho _].
  apply safe_bind, safe_lift; [unfold UpdateDescription, EnsureLength; by repeat case_match|]. intros desc _.
  set (V := set_vDescription desc V0).
  assert (SetValidator V s = (Ok tt, rewrite_val (evValidatorAddress msg) (Some V) s)) as E.
  { unfold rewrite_val. rewrite Hv, (reindex_same s (evValidatorAddress msg)); try done; [|apply HI].
    unfold SetValidator, modify. cbn. rewrite Ho. by destruct s. }
  unfold safe. rewrite E. apply (rewrite_kept s _ V0); try done; [apply (sh_val s (inv_share _ _ _ HI) _ _ Hv)|].
  intros Hab. by apply (inv_jailed _ _ _ HI _ V0 Hab).
Qed.

(** Jail, on a validator that is in the store and not in jail. *)
Lemma jail_runs c v V s : sinv s → validators s !! v = Some V → c = ConsAddress_of V → Jailed V = false →
  runs (Jail c) s (λ _ s', s' = rewrite_val v (Some (set_Jailed true V)) s ∧ kept s s').
Proof.
  intros HI HV -> HJ. pose proof HI as [HV0 _ _ _ _ _]. destruct (vi_op WInv s HV0 v V HV) as [Ho _].
  assert (byConsAddr s !! ConsAddress_of V = Some v) as Hc by (apply (vi_cons WInv s HV0); by exists V).
  unfold Jail, mustGetValidatorByConsAddr. apply runs_bind, runs_bind, runs_gets.
  unfold GetValidatorByConsAddr, GetValidator. rewrite Hc, HV. eapply runs_lift; [done|].
  unfold jailValidator. rewrite HJ.
  assert ((SetValidator (set_Jailed true V);; DeleteValidatorByPowerIndex (set_Jailed true V)) s
    = (Ok tt, rewrite_val v (Some (set_Jailed true V)) s)) as E.
  { unfold rewrite_val, SetValidator, DeleteValidatorByPowerIndex, modify, mbind, M_bind. rewrite HV. cbn. by rewrite Ho. }
  eexists _, _. split; [exact E|]. split; [done|]. apply (rewrite_kept s _ V); try done.
Qed.

Lemma unjail_runs c v V s : sinv s → validators s !! v = Some V → c = ConsAddress_of V → Jailed V = true →
  vMinSelfDelegation V ≠ 0 → v ∉ abandoned s →
  runs (Unjail c) s (λ _ s', s' = rewrite_val v (Some (set_Jailed false V)) s ∧ kept s s').
Proof.
  intros HI HV -> HJ Hm Hab. pose proof HI as [HV0 _ _ _ _ _]. destruct (vi_op WInv s HV0 v V HV) as [Ho _].
  assert (byConsAddr s !! ConsAddress_of V = Some v) as Hc by (apply (vi_cons WInv s HV0); by exists V).
  unfold Unjail, mustGetValidatorByConsAddr. apply runs_bind, runs_bind, runs_gets.
  unfold GetValidatorByConsAddr, GetValidator. rewrite Hc, HV. eapply runs_lift; [done|].
  unfold unjailValidator. rewrite HJ. cbn [negb]. cbv iota.
  assert (powerIndex s !! GetValidatorsByPowerIndexKey V = None) as Hn.
  { destruct (powerIndex s !! _) as [u|] eqn:E; [|done]. apply (vi_power WInv s HV0) in E as (U & HU & HJU & EK).
    apply (f_equal snd) in EK. cbn in EK. destruct (vi_op WInv s HV0 u U HU). congruence. }
  assert ((SetValidator (set_Jailed false V);; SetValidatorByPowerIndex (set_Jailed false V)) s
    = (Ok tt, rewrite_val v (Some (set_Jailed false V)) s)) as E.
  { unfold rewrite_val. rewrite HV. unfold reindex. rewrite delete_id by done.
    unfold SetValidator, SetValidatorByPowerIndex, modify, mbind, M_bind. cbn. by rewrite Ho. }
  eexists _, _. split; [exact E|]. split; [done|]. by apply (rewrite_kept s _ V).
Qed.

(** AppendAbandonedValidatorAddrs, on a validator that has not left the set for long. *)
Lemma append_runs c v V s : sinv s → validators s !! v = Some V → c = ConsAddress_of V → Status V ≠ Unbonded → Jailed V = true →
  runs (AppendAbandonedValidatorAddrs c) s (λ _ s', s' = set_abandoned (abandoned s ++ [v]) s ∧ kept s s').
Proof.
  intros [HV0 HS HP HM HE HAb] HV -> Hst HJ. destruct (vi_op WInv s HV0 v V HV) as [Ho _].
  assert (byConsAddr s !! ConsAddress_of V = Some v) as Hc by (apply (vi_cons WInv s HV0); by exists V).
  unfold AppendAbandonedValidatorAddrs, mustGetValidatorByConsAddr. apply runs_bind, runs_bind, runs_gets.
  unfold GetValidatorByConsAddr, GetValidator. rewrite Hc, HV. eapply runs_lift; [done|].
  apply runs_bind, runs_gets. apply runs_modify. unfold getAbandonedValidatorAddrs. rewrite Ho. split; [done|].
  split; [|done]. split; [|destruct HS; by split|destruct HP; by split|destruct HM; by split|done|].
  2:{ intros u U [Hu| ->%list_elem_of_singleton]%elem_of_app HU; [by apply (HAb u)|]. cbn in HU. congruence. }
  destruct HV0 as [? ? ? ? ? ? ? ? H9]. split; try done. cbn. intros u Hu.
  apply elem_of_app in Hu as [Hu| ->%list_elem_of_singleton]; [by apply H9|]. by exists V.
Qed.

(** ** Proxies *)

(** Tokens of delegators of which some are rewritten. *)
Lemma tokens_same (m : gmap AccAddress Delegator) a d d' b : m !! a = Some d → Tokens d' = Tokens d →
  Tokens <$> upd a (Some d') m !! b = Tokens <$> m !! b.
Proof. intros Hd E. rewrite lookup_upd. case_decide as Eb; [|done]. subst b. rewrite Hd. cbn. by rewrite E. Qed.

Lemma fields_same (m : gmap AccAddress Delegator) a d d' b : m !! a = Some d → share_fields d' = share_fields d →
  share_fields <$> upd a (Some d') m !! b = share_fields <$> m !! b.
Proof. intros Hd E. rewrite lookup_upd. case_decide as Eb; [|done]. subst b. rewrite Hd. cbn. by rewrite E. Qed.

(** A delegator's record rewritten without its shares. *)
Lemma share_rewrite s s' a d d' : share_inv s → delegators s !! a = Some d → share_fields d' = share_fields d →
  validators s' = validators s → allShares s' = allShares s → delegators s' = upd a (Some d') (delegators s) → share_inv s'.
Proof.
  intros HS Hd E E1 E2 E3. apply (share_delegators s); [done|done|done|]. intros b. rewrite E3. by apply (fields_same _ _ d).
Qed.

Lemma unbind_inv ctx a s : blockTimestampEpoch ≤ Unix ctx → sinv s →
  safe (unbindProxy ctx a) s (λ _ s', kept s s' ∧ params s' = params s ∧ ∃ d, delegators s !! a = Some d ∧
    delegators s' !! a = Some (UnbindProxy d) ∧ ∀ b, b ≠ a → b ≠ ProxyAddress d → delegators s' !! b = delegators s !! b).
Proof.
  intros Ht [HV HS HP HM HE HAb]. unfold unbindProxy, GetDelegator.
  apply safe_bind, safe_gets, safe_bind, safe_or_throw. intros d Hd.
  apply safe_bind, safe_gets, safe_bind, safe_or_throw. intros P HPp. rewrite mul_minus_one.
  pose proof (minv_no_empty _ s HM) as HN. pose proof (good_of s a d HS Hd) as G.
  assert (ProxyAddress d ≠ "" ∧ a ≠ "") as [Hpa Ha] by (split; intros E; rewrite E in *; congruence).
  set (p := ProxyAddress d) in *. destruct (px_bound s HP a d Hd Hpa) as (Hi & Hv & P0 & HP0 & HPi). fold p in HP0.
  assert (P0 = P) as -> by congruence. assert (a ≠ p) as Hap by (intros E; rewrite E in Hd; congruence).
  pose proof (good_of s p P HS HPp) as GP.
  apply safe_bind, safe_wrap. eapply safe_mono; [by apply (update_proxy_safe WInv protected ctx d p P); try done; apply GP|].
  intros _ s1 (H1 & H2 & H3 & H4). cbv zeta in H3.
  set (g1 := set_delegators _ s) in H3.
  assert (delegators s1 !! a = Some d) as Hd1 by (rewrite H4; done).
  assert (proxies s1 = proxies s) as Ep by (by destruct (skel_fields _ _ _ _ H3) as (_ & _ & _ & -> & _)).
  unfold safe, SetDelegator, SetProxyBinding, modify, mbind, M_bind. cbn. rewrite (gd_addr _ _ _ G), (gd_addr _ _ _ GP), Ep.
  change (<[a := ?x]> ?m) with (upd a (Some x) m).
  set (g2 := set_proxies (proxies s ∖ {[(p, a)]}) (set_delegators (upd a (Some (UnbindProxy d)) (delegators g1)) g1)).
  set (s2 := set_delegators (upd a (Some (UnbindProxy d)) (delegators s1)) s1).
  assert (sk g2 (set_proxies (proxies s ∖ {[(p, a)]}) s2)) as H5 by (apply skel_proxies; by apply skel_set).
  assert (proxy_inv g2) as HPg.
  { apply (proxy_two a (Some (UnbindProxy d)) p P (- Tokens d) s); try done.
    - intros e. rewrite Hd. intros [= <-]. split; [done|by right].
    - intros e [= <-]. cbn. split; [|done]. rewrite (px_total s HP a d Hd). apply bound_none. by eapply not_proxy.
    - rewrite Hd. unfold bound_to. cbn. rewrite decide_False, decide_True by done. lia.
    - cbn. apply map_eq. intros b. rewrite !lookup_upd. repeat case_decide; congruence.
    - intros q b. cbn. rewrite elem_of_difference, elem_of_singleton. case_decide as Eb.
      + subst b. rewrite (px_key s HP), Hd. naive_solver.
      + naive_solver. }
  destruct (money_same s g2) as [HMg Hsg]; try done.
  { intros b. cbn. rewrite (tokens_same _ a d); [by apply (tokens_same _ p P)| |done]. by rewrite lookup_upd, decide_False. }
  split; [rewrite <-Hsg; eapply by_skel; [exact H5|done|done|done|done|by apply (vinv_same _ s1); [|apply H1|]|by eapply (share_rewrite s1 _ a d (UnbindProxy d))]|].
  split; [by destruct (skel_fields _ _ _ _ H3) as (-> & _)|]. exists d. split; [done|]. cbn. rewrite lookup_upd, decide_True by done.
  split; [done|]. intros b Hba Hbp. rewrite lookup_upd, decide_False by done. by apply H4.
Qed.

(** A delegator sets up as a proxy. *)
Lemma reg_inv ctx a s : blockTimestampEpoch ≤ Unix ctx → sinv s → safe (regProxy ctx a) s (λ _ s', kept s s').
Proof.
  intros Ht [HV HS HP HM HE HAb]. unfold regProxy, GetDelegator.
  apply safe_bind, safe_gets, safe_bind, safe_or_throw. intros d Hd.
  apply safe_bind, safe_throw_if. intros Hi. apply safe_bind, safe_throw_if. intros Hpx.
  unfold HasProxy in Hpx. apply negb_false_iff, String.eqb_eq in Hpx.
  pose proof (minv_no_empty _ s HM) as HN. pose proof (good_of s a d HS Hd) as G. assert (a ≠ "") as Ha by congruence.
  apply safe_bind. unfold safe at 1. cbn -[UpdateShares]. rewrite (gd_addr _ _ _ G).
  change (<[a := ?x]> ?m) with (upd a (Some x) m).
  set (d' := UnbindProxy (set_IsProxy true d)). set (s1 := set_delegators (upd a (Some d') (delegators s)) s).
  assert (proxy_inv s1) as HP1.
  { apply (proxy_one a (Some d') s); try done.
    - intros e. rewrite Hd. intros [= <-]. split; [done|congruence].
    - intros e [= <-]. split; [done|]. exact (px_total s HP a d Hd). }
  destruct (money_same s s1) as [HM1 Hs1]; try done.
  { intros b. cbn. by apply (tokens_same _ a d). }
  apply safe_wrap. eapply safe_mono; [eapply (update_shares_safe WInv protected _ _ _ d'); [done| | | |]|].
  - by apply (vinv_same _ s); [|apply HV|].
  - by eapply (share_rewrite s _ a d d').
  - cbn. by rewrite lookup_upd, decide_True.
  - apply G.
  - intros _ s' (K1 & K2 & K3 & _). rewrite <-Hs1. by eapply by_skel.
Qed.

(** ClearProxy lets the delegators of a proxy go. *)
Definition clear_one (p b : AccAddress) : MS unit :=
  o ← gets (GetDelegator b);
  match o with Some delegator => SetDelegator (UnbindProxy delegator) | None => mret tt end;;
  SetProxyBinding p b true.

Lemma clear_loop p l s : (∀ b d, delegators s !! b = Some d → DelegatorAddress d = b) →
  ∃ D Q, mapM_ (clear_one p) l s = (Ok tt, set_proxies Q (set_delegators D s))
    ∧ (∀ b, D !! b = if decide (b ∈ l) then UnbindProxy <$> delegators s !! b else delegators s !! b)
    ∧ (∀ q b, (q, b) ∈ Q ↔ (q, b) ∈ proxies s ∧ ¬ (q = p ∧ b ∈ l)).
Proof.
  revert s. induction l as [|a l IH]; intros s HA.
  - exists (delegators s), (proxies s). split; [by destruct s|]. split.
    + intros b. rewrite decide_False; [done|]. by intros ?%elem_of_nil.
    + intros q b. split; [|naive_solver]. intros H. split; [done|]. by intros [_ []%not_elem_of_nil].
  - set (s1 := set_proxies (proxies s ∖ {[(p, a)]}) (set_delegators (upd a (UnbindProxy <$> delegators s !! a) (delegators s)) s)).
    assert (clear_one p a s = (Ok tt, s1)) as E1.
    { unfold clear_one, GetDelegator, gets, SetDelegator, SetProxyBinding, modify, mbind, M_bind, s1.
      destruct (delegators s !! a) as [d|] eqn:Hd; cbn.
      - by rewrite (HA a d Hd).
      - change (upd a None (delegators s)) with (delete a (delegators s)). rewrite delete_id by done. by destruct s. }
    destruct (IH s1) as (D & Q & E & HD & HQ).
    { intros b d. cbn. rewrite lookup_upd. case_decide as Eb; [|apply HA]. subst b.
      destruct (delegators s !! a) as [d0|] eqn:Hd; [|done]. intros [= <-]. by apply (HA a d0). }
    exists D, Q. split; [|split].
    + cbn [mapM_]. unfold mbind, M_bind at 1. rewrite E1. exact E.
    + intros b. rewrite HD. cbn. rewrite lookup_upd. destruct (decide (a = b)) as [<-|Hne].
      * rewrite (decide_True (P := a ∈ a :: l)) by left. case_decide; [|done]. by destruct (delegators s !! a).
      * destruct (decide (b ∈ l)) as [Hb|Hb]; [rewrite decide_True; [done|by right]|].
        rewrite decide_False; [done|]. by intros [?|?]%elem_of_cons.
    + intros q b. rewrite HQ. cbn. rewrite elem_of_difference, elem_of_singleton, elem_of_cons. naive_solver.
Qed.

(** Proxies after one of them has left. *)
Lemma proxy_gone p P s s' : proxy_inv s → no_empty s → delegators s !! p = Some P → IsProxy P = true →
  let gone d := decide (ProxyAddress d = p) in
  (∀ b, delegators s' !! b = if decide (b = p) then Some (set_TotalDelegatedTokens 0 (set_IsProxy false P))
     else (λ d, if gone d then UnbindProxy d else d) <$> delegators s !! b) →
  (∀ q b, (q, b) ∈ proxies s' ↔ (q, b) ∈ proxies s ∧ q ≠ p) → proxy_inv s'.
Proof.
  intros HP HN HPp HPi gone HD HQ. pose proof (proxy_free s p P HP HPp HPi) as HPf.
  assert (p ≠ "") as Hp by congruence.
  set (P' := set_TotalDelegatedTokens 0 (set_IsProxy false P)) in *.
  assert (∀ b d', b ≠ p → delegators s' !! b = Some d' → ∃ d, delegators s !! b = Some d ∧
    d' = if gone d then UnbindProxy d else d) as Hback.
  { intros b d' Hb. rewrite HD, decide_False by done. destruct (delegators s !! b) as [d|]; [|done]. intros [= <-]. by exists d. }
  split.
  - intros b d' Hd' Hpa. destruct (decide (b = p)) as [->|Hb].
    { rewrite HD, decide_True in Hd' by done. injection Hd' as <-. done. }
    destruct (Hback b d' Hb Hd') as (d & Hd & ->). unfold gone in *. case_decide as Ed; [done|].
    destruct (px_bound s HP b d Hd Hpa) as (H1 & H2 & q & H3 & H4). split; [done|]. split; [done|].
    exists q. rewrite HD, decide_False, H3 by done. cbn. rewrite decide_False; [done|].
    rewrite (proxy_free s _ q HP H3 H4). congruence.
  - intros b d' Hd'. destruct (decide (b = p)) as [->|Hb].
    { rewrite HD, decide_True in Hd' by done. injection Hd' as <-. cbn. symmetry. apply bound_none.
      intros c e He Hc. destruct (decide (c = p)) as [->|Hcp].
      - rewrite HD, decide_True in He by done. injection He as <-. cbn in Hc. congruence.
      - destruct (Hback c e Hcp He) as (d & Hd & ->). unfold gone in Hc. case_decide; cbn in Hc; congruence. }
    destruct (Hback b d' Hb Hd') as (d & Hd & E). assert (b ≠ "") as Hbe by congruence.
    transitivity (TotalDelegatedTokens d); [rewrite E; unfold gone; by case_decide|]. rewrite (px_total s HP b d Hd).
    symmetry. apply msum_pointwise. intros k. rewrite HD. case_decide as Ek.
    + subst k. rewrite HPp. cbn. by rewrite HPf.
    + destruct (delegators s !! k) as [e|]; [|done]. cbn. unfold gone. destruct (decide (ProxyAddress e = p)) as [Ee|]; [|done].
      cbn. rewrite (decide_False (P := "" = b)), decide_False; [done|congruence|done].
  - intros q b. rewrite HQ, (px_key s HP), HD. case_decide as Eb.
    + subst b. rewrite HPp. split; [intros [[Hq (d & [= <-] & Ed)] _]; congruence|intros [Hq (d & [= <-] & Ed)]; cbn in Ed; congruence].
    + destruct (delegators s !! b) as [d|]; [|naive_solver]. cbn. unfold gone. case_decide as Ed.
      * split; [intros [[Hq (? & [= <-] & ?)] ?]; congruence|intros [Hq (? & [= <-] & E)]; cbn in E; congruence].
      * split; [intros [[Hq (? & [= <-] & ?)] ?]; split; [done|by exists d]|].
        intros [Hq (? & [= <-] & ?)]. split; [split; [done|by exists d]|congruence].
Qed.

Lemma unreg_inv ctx p s : blockTimestampEpoch ≤ Unix ctx → sinv s → safe (unregProxy ctx p) s (λ _ s', kept s s').
Proof.
  intros Ht [HV HS HP HM HE HAb]. unfold unregProxy, GetDelegator.
  apply safe_bind, safe_gets, safe_bind, safe_or_throw. intros P HPp.
  apply safe_bind, safe_throw_if. intros HPi%negb_false_iff.
  pose proof (minv_no_empty _ s HM) as HN. pose proof (good_of s p P HS HPp) as G. assert (p ≠ "") as Hp by congruence.
  pose proof (proxy_free s p P HP HPp HPi) as HPf. rewrite Dec.ZeroDec_spec.
  change (RegProxy false P) with (set_IsProxy false P).
  set (P' := set_TotalDelegatedTokens 0 (set_IsProxy false P)).
  change (DelegatorAddress P') with (DelegatorAddress P). change (Tokens P') with (Tokens P). rewrite (gd_addr _ _ _ G).
  set (l := GetDelegatorsByProxy p s).
  assert (∀ b, b ∈ l ↔ (p, b) ∈ proxies s) as Hl.
  { intros b. unfold l, GetDelegatorsByProxy. rewrite elem_of_set_sorted, elem_of_map. split.
    - intros ([q c] & Ec & Hc). apply elem_of_filter in Hc as [Eq Hin]. cbn in *. by subst.
    - intros Hin. exists (p, b). split; [done|]. by apply elem_of_filter. }
  destruct (clear_loop p l s) as (D & Q & E & HD & HQ).
  { intros b d Hd. apply (gd_addr _ _ _ (good_of s b d HS Hd)). }
  apply safe_bind. change (safe (ClearProxy p) s ?R) with (safe (mapM_ (clear_one p) l) s R). unfold safe at 1. rewrite E.
  apply safe_bind. unfold safe at 1. cbn -[UpdateShares P']. change (DelegatorAddress P') with (DelegatorAddress P).
  rewrite (gd_addr _ _ _ G). change (<[p := ?x]> ?m) with (upd p (Some x) m).
  set (s1 := set_delegators (upd p (Some P') D) (set_proxies Q (set_delegators D s))).
  assert (∀ b, delegators s1 !! b = if decide (b = p) then Some P'
    else (λ d, if decide (ProxyAddress d = p) then UnbindProxy d else d) <$> delegators s !! b) as HD1.
  { intros b. cbn. rewrite lookup_upd. destruct (decide (p = b)) as [<-|Hb]; [by rewrite decide_True|].
    rewrite (decide_False (P := b = p)), HD by congruence. destruct (decide (b ∈ l)) as [Hb'|Hb']; rewrite Hl, (px_key s HP) in Hb'.
    - destruct Hb' as (_ & d & -> & Ed). cbn. by rewrite decide_True.
    - destruct (delegators s !! b) as [d|]; [|done]. cbn. rewrite decide_False; [done|]. naive_solver. }
  assert (proxy_inv s1) as HP1.
  { apply (proxy_gone p P s); try done. intros q b. cbn. rewrite HQ, Hl. naive_solver. }
  assert (∀ b, share_fields <$> delegators s1 !! b = share_fields <$> delegators s !! b) as HF.
  { intros b. rewrite HD1. case_decide as Eb; [subst b; by rewrite HPp|]. destruct (delegators s !! b) as [d|]; [|done]. cbn. by case_decide. }
  destruct (money_same s s1) as [HM1 Hs1]; try done.
  { intros b. pose proof (f_equal (fmap snd) (HF b)) as Hb. by rewrite <-!option_fmap_compose in Hb. }
  apply safe_wrap. eapply safe_mono; [eapply (update_shares_safe WInv protected _ _ _ P'); [done| | | |]|].
  - by apply (vinv_same _ s); [|apply HV|].
  - by apply (share_delegators s).
  - by rewrite HD1, decide_True.
  - apply G.
  - intros _ s' (K1 & K2 & K3 & _). rewrite <-Hs1. by eapply by_skel.
Qed.

(** A delegator without a proxy and without shares binds to one; the record that is
    written is of a delegator [d0] that differs from the stored one in its proxy. *)
Lemma bind_free_inv ctx a p d P s : blockTimestampEpoch ≤ Unix ctx → sinv s → delegators s !! a = Some d →
  delegators s !! p = Some P → ProxyAddress d = "" → Shares d = 0 → IsProxy d = false → IsProxy P = true →
  safe (SetDelegator (BindProxy p d);; SetDelegator (set_TotalDelegatedTokens (TotalDelegatedTokens P + Tokens d) P);;
    SetProxyBinding p a false;;
    wrap_err (λ _, StakingErr.ErrInvalidDelegation) (UpdateShares ctx p (TotalDelegatedTokens P + Tokens d + Tokens P))) s
    (λ _ s', kept s s').
Proof.
  intros Ht [HV HS HP HM HE HAb] Hd HPp Hpa Hsh Hi HPi. pose proof (minv_no_empty _ s HM) as HN.
  pose proof (good_of s a d HS Hd) as G. pose proof (good_of s p P HS HPp) as GP.
  assert (a ≠ "" ∧ p ≠ "" ∧ a ≠ p) as (Ha & Hp & Hap) by (split_and!; congruence).
  assert (ValidatorAddresses d = []) as Hv.
  { destruct (ValidatorAddresses d) as [|v l] eqn:Ev; [done|]. pose proof (gd_pos _ _ _ G) as H. rewrite Ev in H. specialize (H ltac:(done)). lia. }
  apply safe_bind. unfold safe at 1. cbn -[UpdateShares]. apply safe_bind. unfold safe at 1. cbn -[UpdateShares].
  apply safe_bind. unfold safe at 1. cbn -[UpdateShares]. rewrite (gd_addr _ _ _ G), (gd_addr _ _ _ GP).
  change (<[?k := ?x]> ?m) with (upd k (Some x) m).
  set (d' := BindProxy p d). set (P' := set_TotalDelegatedTokens (TotalDelegatedTokens P + Tokens d) P).
  match goal with |- safe _ ?x _ => set (s1 := x) end.
  assert (delegators s1 = upd p (Some P') (upd a (Some d') (delegators s))) as ED by done.
  assert (∀ b, share_fields <$> delegators s1 !! b = share_fields <$> delegators s !! b) as HF.
  { intros b. rewrite ED, (fields_same _ p P P'); [by apply (fields_same _ a d)| |done]. by rewrite lookup_upd, decide_False by congruence. }
  assert (proxy_inv s1) as HP1.
  { apply (proxy_two a (Some d') p P (Tokens d) s); try done.
    - intros e. rewrite Hd. intros [= <-]. split; [done|by left].
    - intros e [= <-]. cbn. split; [|done]. rewrite (px_total s HP a d Hd). apply bound_none. by eapply not_proxy.
    - rewrite Hd. unfold bound_to. cbn. rewrite Hpa, decide_True, decide_False by congruence. lia.
    - intros q b. cbn. rewrite elem_of_union, elem_of_singleton. case_decide as Eb; [|naive_solver].
      subst b. rewrite (px_key s HP), Hd. split.
      + intros [[= <-]|[Hq (e & [= <-] & He)]]; [|congruence]. split; [done|]. by exists d'.
      + intros [Hq (e & [= <-] & He)]. left. by rewrite <-He. }
  destruct (money_same s s1) as [HM1 Hs1]; try done.
  { intros b. pose proof (f_equal (fmap snd) (HF b)) as Hb. by rewrite <-!option_fmap_compose in Hb. }
  apply safe_wrap. eapply safe_mono; [eapply (update_shares_safe WInv protected _ _ _ P'); [done| | | |]|].
  - by apply (vinv_same _ s); [|apply HV|].
  - by apply (share_delegators s).
  - rewrite ED. by rewrite lookup_upd, decide_True.
  - rewrite (px_total s HP p P HPp). assert (0 ≤ bound_tokens s p).
    { apply msum_nonneg. intros b e He. case_decide; [|done]. pose proof (gd_tokens _ _ _ (good_of s b e HS He)). lia. }
    pose proof (gd_tokens _ _ _ G). pose proof (gd_tokens _ _ _ GP). lia.
  - intros _ s' (K1 & K2 & K3 & _). rewrite <-Hs1. by eapply by_skel.
Qed.

Lemma bind_inv ctx msg s : blockTimestampEpoch ≤ Unix ctx → sinv s →
  safe (handleMsgBindProxy ctx msg) s (λ _ s', kept s s').
Proof.
  intros Ht HI. pose proof HI as [HV HS HP HM HE HAb]. unfold handleMsgBindProxy, GetDelegator.
  set (a := bpDelAddr msg). set (p := bpProxyAddress msg).
  apply safe_bind, safe_gets, safe_bind, safe_or_throw. intros d Hd.
  apply safe_bind, safe_throw_if. intros _. apply safe_bind, safe_throw_if. rewrite Dec.Equal_spec, Dec.ZeroDec_spec.
  intros Hsh%negb_false_iff%Z.eqb_eq.
  apply safe_bind, safe_gets, safe_bind, safe_or_throw. intros P HPp. apply safe_bind, safe_throw_if. intros _.
  apply safe_bind, safe_throw_if. intros HPi%negb_false_iff. apply safe_bind, safe_throw_if. intros Hi.
  pose proof (good_of s a d HS Hd) as G. pose proof (good_of s p P HS HPp) as GP.
  rewrite (gd_addr _ _ _ GP), (gd_addr _ _ _ G), !Dec.Add_spec. destruct (HasProxy d && (ProxyAddress d =? p)%string)%bool eqn:Esame.
  - apply safe_wrap. eapply safe_mono; [eapply (update_shares_safe WInv protected _ _ _ P); try done|].
    + rewrite (px_total s HP p P HPp). assert (0 ≤ bound_tokens s p); [|pose proof (gd_tokens _ _ _ GP); lia].
      apply msum_nonneg. intros b e He. case_decide; [|done]. pose proof (gd_tokens _ _ _ (good_of s b e HS He)). lia.
    + intros _ s' (K1 & K2 & K3 & _). by eapply by_skel.
  - cbn [DelegatorAddress set_TotalDelegatedTokens BindProxy set_IsProxy set_ProxyAddress TotalDelegatedTokens Tokens].
    rewrite (gd_addr _ _ _ GP), (gd_addr _ _ _ G). destruct (HasProxy d) eqn:Hpx.
    + apply safe_bind. eapply safe_mono; [by apply unbind_inv|]. intros _ s1 ([HI1 Hs1] & Ep & d1 & Hd1 & Ha1 & Hoth).
      assert (d1 = d) as -> by congruence. unfold HasProxy in Hpx. apply negb_true_iff, String.eqb_neq in Hpx.
      cbn in Esame. apply String.eqb_neq in Esame.
      eapply safe_mono; [apply (bind_free_inv ctx a p (UnbindProxy d) P s1); try done|].
      * rewrite Hoth; [done| |congruence]. intros E. congruence.
      * intros _ s2 [H1 H2]. split; [done|]. by rewrite H2.
    + apply safe_bind, safe_ret. unfold HasProxy in Hpx. apply negb_false_iff, String.eqb_eq in Hpx. by apply bind_free_inv.
Qed.

(** ** Shares *)

Lemma duplicate_none l X : duplicate_from X l = false → NoDup l ∧ ∀ v, v ∈ l → v ∉ X.
Proof.
  revert X. induction l as [|v l IH]; cbn; intros X H.
  - split; [constructor|]. by intros v []%not_elem_of_nil.
  - case_decide as Hv; [done|]. destruct (IH _ H) as [H1 H2]. split.
    + constructor; [|done]. intros Hin. specialize (H2 v Hin). set_solver.
    + intros u [->|Hu]%elem_of_cons; [done|]. specialize (H2 u Hu). set_solver.
Qed.

Lemma mapM_validators s l vals : vinv s → mapM (λ v, validators s !! v) l = Some vals →
  OperatorAddress <$> vals = l ∧ ∀ V, V ∈ vals → validators s !! OperatorAddress V = Some V.
Proof.
  intros HI. rewrite mapM_Some. induction 1 as [|v V l vals HV _ [IH1 IH2]]; cbn.
  - split; [done|]. by intros V []%not_elem_of_nil.
  - destruct (vi_op WInv s HI v V HV) as [Ho _]. split; [by rewrite Ho, IH1|].
    intros U [->|HU]%elem_of_cons; [by rewrite Ho|by apply IH2].
Qed.

Lemma add_shares_inv ctx msg s : blockTimestampEpoch ≤ Unix ctx → isValsDuplicate (ValAddrs msg) = false → sinv s →
  safe (handleMsgAddShares ctx msg) s (λ _ s', kept s s').
Proof.
  intros Ht Hdup [HV HS HP HM HE HAb]. unfold handleMsgAddShares, GetDelegator. set (a := asDelAddr msg).
  destruct (duplicate_none _ _ Hdup) as [Hnd _].
  apply safe_bind, safe_gets, safe_bind, safe_throw_if. intros Hlen.
  apply safe_bind, safe_throw_if. intros _. apply safe_bind, safe_gets, safe_bind, safe_or_throw. intros d Hd.
  apply safe_bind, safe_throw_if. intros _. apply safe_bind, safe_throw_if. intros Hpx.
  unfold HasProxy in Hpx. apply negb_false_iff, String.eqb_eq in Hpx.
  pose proof (good_of s a d HS Hd) as G. pose proof (minv_no_empty _ s HM) as HN. assert (a ≠ "") as Ha by congruence.
  apply safe_assoc, safe_bind. eapply safe_mono; [by apply (withdraw_last_safe WInv protected ctx a d)|].
  intros _ s1 (H1 & H2 & H3 & H4). apply safe_bind. unfold safe at 1, get.
  apply safe_bind, safe_lift; [unfold GetValidatorsToAddShares; by case_match|]. intros vals Hvals.
  unfold GetValidatorsToAddShares in Hvals. destruct (mapM _ _) as [vals'|] eqn:Em; [|done]. injection Hvals as ->.
  destruct (mapM_validators s1 _ _ H1 Em) as [Hop Hin].
  apply safe_bind, safe_lift; [unfold validateSharesAdding; by repeat case_match|]. intros _ _.
  assert (vals ≠ []) as Hne by (intros ->; cbn in Hop; by rewrite <-Hop in Hlen).
  assert (0 ≤ bound_tokens s a) as Hb.
  { apply msum_nonneg. intros b f Hf. case_decide; [|done]. pose proof (gd_tokens _ _ _ (good_of s b f HS Hf)). lia. }
  rewrite Dec.Add_spec. set (x := Tokens d + TotalDelegatedTokens d).
  assert (0 < x) as Hx by (unfold x; rewrite (px_total s HP a d Hd); pose proof (gd_tokens _ _ _ G); lia).
  set (e := set_Shares 0 (set_ValidatorAddresses [] d)).
  apply safe_bind. eapply safe_mono; [eapply (add_shares_safe WInv protected ctx a e vals x s1); try done|].
  - rewrite H3. apply H4. intros f [= <-]. split; [apply G|]. split; [apply G|done].
  - by rewrite Hop.
  - intros y s2 (Hy & K1 & K2 & K3 & K4). unfold safe. cbn. rewrite (gd_addr _ _ _ G). change (<[?k := ?z]> ?m) with (upd k (Some z) m).
    set (e' := set_Shares y (set_ValidatorAddresses (getValsAddrs vals) d)).
    set (e0 := set_ValidatorAddresses (getValsAddrs vals) d).
    set (g := set_delegators (upd a (Some e0) (delegators s)) s).
    destruct (money_same s g) as [HMg Hsg]; try done.
    { intros b. cbn. by apply (tokens_same _ a d). }
    rewrite <-Hsg. eapply by_skel.
    + eapply (skel_set _ _ s s2 a (Some e0) (Some e')); [|done]. by eapply skel_trans.
    + apply (proxy_one a (Some e0) s); try done.
      * intros f. rewrite Hd. intros [= <-]. split; [done|]. intros Hi. by exists e0.
      * intros f [= <-]. split; [done|]. exact (px_total s HP a d Hd).
    + done.
    + done.
    + done.
    + by apply (vinv_same _ s2); [|apply K1|].
    + specialize (K4 e'). rewrite K3. destruct K4 as [A1 A2 A3]; [apply G|apply G|done|done|]. by split.
Qed.

(** ** Validators that come and go *)

(** A hook's part. *)
Lemma hook_inv s w' : sinv s → quiet (world s) w' → kept s (set_world w' s).
Proof.
  intros [HV HS HP HM HE HAb] Hq. eapply (by_skel WInv protected s); try done.
  - split; [done|done|done|]. intros v. cbn. destruct (validators s !! v) as [V|]; [|done]. exists V, (DelegatorShares V). by destruct V.
  - by apply (vinv_same _ s); [|apply Hq|].
  - destruct HS. by split.
Qed.

(** The state after the record and the consensus key of a validator are new. *)
Definition new_val v V s : StakingState W :=
  set_byConsAddr (<[ConsAddress_of V := v]> (byConsAddr s)) (rewrite_val v (Some V) s).

Lemma new_val_inv v V s : vinv s → validators s !! v = None → byConsAddr s !! ConsAddress_of V = None →
  OperatorAddress V = v → Status V = Unbonded → vTokens V = 0 → vinv (new_val v V s).
Proof.
  intros HI Hv Hc Ho Hst Htok.
  assert (∀ (P : Validator → Prop) u, ¬ P V →
    (∃ U, validators (new_val v V s) !! u = Some U ∧ P U) ↔ ∃ U, validators s !! u = Some U ∧ P U) as Hsame.
  { intros P u HP. cbn. rewrite lookup_upd. case_decide as E; [|done]. subst u.
    split; intros (U & HU & ?); [|congruence]. by injection HU as <-. }
  destruct HI as [I1 I2 I3 I4 I5 I6 I7 I8 I9]. split.
  - done.
  - intros u U. cbn. rewrite lookup_upd. case_decide as E; [|apply I2]. intros [= <-]. by subst.
  - apply reindex_ok; [exact I3| |done]. intros u U HU. by apply I2.
  - intros c u. cbn. rewrite lookup_insert, lookup_upd. destruct (decide (ConsAddress_of V = c)) as [<-|Hcc].
    + split; [intros [= <-]; exists V; by rewrite decide_True|]. intros (U & HU & EU). case_decide as E; [by subst u|].
      rewrite (proj2 (I4 (ConsAddress_of V) u)) in Hc; [done|by exists U].
    + rewrite I4. case_decide as E; [|done]. subst u. split; intros (U & HU & EU); [congruence|]. injection HU as <-. done.
  - intros u. change (lastPowers (new_val v V s)) with (lastPowers s). rewrite I5, (Hsame (λ U, Status U = Bonded)); [done|congruence].
  - done.
  - intros t u. change (GetValidatorQueueTimeSlice t (new_val v V s)) with (GetValidatorQueueTimeSlice t s).
    rewrite I7, (Hsame (λ U, Status U = Unbonding ∧ UnbondingCompletionTime U = t)); [done|]. intros [? _]; congruence.
  - done.
  - intros u. change (abandoned (new_val v V s)) with (abandoned s). intros Hu.
    apply (Hsame (λ U, Status U ≠ Unbonded)); [by intros []|]. by apply I9.
Qed.

Lemma voted_none s v : share_inv s → validators s !! v = None → voted s v = 0.
Proof.
  intros HS Hv. unfold voted. rewrite (msum_ext _ (λ d : Delegator, 0 * Tokens d)), msum_scale; [lia|].
  intros a d Hd. rewrite decide_False; [done|]. intros Hin. pose proof (gd_exist _ _ _ (good_of s a d HS Hd) v Hin) as Hs.
  rewrite Hv in Hs. by destruct Hs.
Qed.

Lemma new_val_share v V s : share_inv s → validators s !! v = None → DelegatorShares V = own_share V →
  0 < vMinSelfDelegation V → share_inv (new_val v V s).
Proof.
  intros HS Hv E Hm. pose proof HS as [S1 S2 S3]. split; [| |done].
  - intros u U. cbn. rewrite lookup_upd. case_decide as Eu; [|by apply S1]. intros [= <-]. subst u.
    change (voted (new_val v V s) v) with (voted s v). rewrite voted_none by done. split; [lia|]. split; lia.
  - intros a d Hd. destruct (S2 a d Hd) as (?&?&?&K&?&?&?). split_and!; try done. intros u Hu. cbn. rewrite lookup_upd.
    case_decide; [by eexists|by apply K].
Qed.

Lemma create_validator_inv ctx msg s : sinv s → cvValidatorAddress msg = cvDelegatorAddress msg →
  user protected (cvDelegatorAddress msg) → safe (handleMsgCreateValidator ctx msg) s (λ _ s', kept s s').
Proof.
  intros HI Ev Hu. pose proof HI as [HV HS HP HM HE HAb]. unfold handleMsgCreateValidator. rewrite Ev.
  set (a := cvDelegatorAddress msg) in *. destruct (user_own protected a Hu) as (Hown & _). destruct (mo_params _ s HM) as [_ Hmin].
  apply safe_bind, safe_gets, safe_bind, safe_throw_if. intros Hv%bool_decide_eq_false%eq_None_not_Some. unfold GetValidator in Hv.
  apply safe_bind, safe_gets, safe_bind, safe_throw_if. intros Hc%bool_decide_eq_false%eq_None_not_Some.
  unfold GetValidatorByConsAddr, GetValidator in Hc.
  assert (byConsAddr s !! pk_Address (cvPubKey msg) = None) as Hc'.
  { destruct (byConsAddr s !! pk_Address (cvPubKey msg)) as [u|] eqn:E; [|done]. apply (vi_cons WInv s HV) in E as (U & HU & _). congruence. }
  apply safe_bind, safe_gets, safe_bind, safe_throw_if. intros _.
  apply safe_bind, safe_lift; [unfold EnsureLength; by repeat case_match|]. intros _ _.
  apply safe_bind. eapply (safe_mono _ _ (λ _ s', s' = s)).
  { destruct PubKeyTypes; [by apply safe_throw_if|by apply safe_ret]. }
  intros _ _ ->. set (m := MinSelfDelegation (params s)) in *.
  set (V := NewValidator a (cvPubKey msg) (cvDescription msg) m).
  apply safe_bind, safe_lift; [unfold SetInitialCommission, Commission_Validate; cbn; by repeat case_match|]. intros V0 EV0.
  assert (∃ c, V0 = set_vCommission c V) as [c ->].
  { unfold SetInitialCommission in EV0. destruct (Commission_Validate _); cbn in EV0; [|done|done]. injection EV0 as <-. by eexists. }
  set (V0 := set_vCommission c V) in *. set (V1 := set_DelegatorShares (Dec.Add (DelegatorShares V0) getSharesFromDefaultMinSelfDelegation) V0).
  change (OperatorAddress V1) with a. change (vMinSelfDelegation V0) with m.
  apply safe_bind. unfold safe at 1. cbn -[V0]. apply safe_bind. unfold safe at 1. cbn -[V0]. apply safe_bind. unfold safe at 1. cbn -[V0].
  change (OperatorAddress V0) with a.
  match goal with |- safe _ ?x _ => set (s1 := x) end.
  apply safe_bind, safe_lift; [rewrite Coins.NewDecCoinFromDec_ok; [done|by rewrite (mo_denom _ s HM); apply Coins.DefaultBondDenom_valid|lia]|].
  intros coin Ecoin. rewrite Coins.NewDecCoinFromDec_ok in Ecoin by (try lia; by rewrite (mo_denom _ s HM); apply Coins.DefaultBondDenom_valid).
  injection Ecoin as <-.
  unfold AddSharesAsMinSelfDelegation. apply safe_bind, safe_bind.
  eapply safe_mono; [apply (delegate_coins_safe WInv protected); [apply HV|done|apply (own_pools WInv protected)]|].
  intros _ s2 (w' & -> & Htr & Hacc). cbn [Denom Amount] in Htr.
  assert (GetValidatorsByPowerIndexKey V0 ∉ dom (powerIndex s)) as Hk.
  { rewrite not_elem_of_dom. destruct (powerIndex s !! _) as [u|] eqn:E; [|done]. apply (vi_power WInv s HV) in E as (U & HU & _ & EK).
    apply (f_equal snd) in EK. change (a = OperatorAddress U) in EK. destruct (vi_op WInv s HV u U HU). congruence. }
  apply not_elem_of_dom in Hk.
  assert (addSharesAsDefaultMinSelfDelegation V0 (set_world w' s1) = (Ok V1, new_val a V1 (set_world w' s))) as E.
  { unfold addSharesAsDefaultMinSelfDelegation, DeleteValidatorByPowerIndex, SetValidator, SetValidatorByPowerIndex, modify, mbind, M_bind.
    change (Jailed (set_DelegatorShares _ V0)) with false. cbv iota. change (OperatorAddress (set_DelegatorShares _ V0)) with a.
    unfold s1, new_val, rewrite_val, reindex. change (validators (set_world w' s) !! a) with (validators s !! a). rewrite Hv.
    change (Jailed V1) with false. cbv iota. change (OperatorAddress V1) with a. fold V1.
    unfold mret, M_ret. f_equal.
    cbv [set_world set_validators set_powerIndex set_byConsAddr world delegators validators byConsAddr powerIndex lastPowers lastTotalPower
      validatorQueue allShares undelegations timeQueue proxies abandoned epoch endOfLastEpoch params upd].
    f_equal; [change (<[a := V1]> (<[a := V0]> (validators s)) = <[a := V1]> (validators s)); apply insert_insert_eq|]. f_equal. by apply delete_insert_id. }
  set (s2 := new_val a V1 (set_world w' s)) in *.
  assert (sinv s2 ∧ surplus s2 = surplus s) as [HI2 Hs2].
  { assert (DelegatorShares V1 = Dec.unit) as Esh.
    { unfold V1, V0, V, getSharesFromDefaultMinSelfDelegation. cbn. rewrite Dec.Add_spec, Dec.ZeroDec_spec, Dec.OneDec_spec. lia. }
    assert (vMinSelfDelegation V1 = m ∧ Status V1 = Unbonded ∧ vTokens V1 = 0 ∧ OperatorAddress V1 = a
      ∧ ConsAddress_of V1 = pk_Address (cvPubKey msg)) as (F1 & F2 & F3 & F4 & F5) by done.
    clearbody V1 V0. destruct (money_in WInv protected s s2 a m w') as [HM2 Hs2]; try done.
    - unfold held. cbn. rewrite msum_upd, Hv. cbn. lia.
    - cbn. intros b [?|[?|?]%upd_keys]; auto.
    - split; [|done]. split.
      + apply new_val_inv; try done; [by apply (vinv_same _ s); [|apply Htr|]|by rewrite F5].
      + apply new_val_share; [destruct HS; by split|done| |by rewrite F1].
        unfold own_share. rewrite Esh, decide_False by lia. done.
      + destruct HP; by split.
      + done.
      + done.
      + intros u U Hua. cbn. rewrite lookup_upd. case_decide as Eu; [|by apply HAb]. subst u.
        destruct (vi_abandoned WInv s HV a Hua) as (U0 & HU0 & _). congruence. }
  unfold safe at 1. rewrite E. cbn beta.
  apply safe_runs. eapply runs_mono; [apply (created_hook (WInv:=WInv) (protected:=protected) ctx a V1 s2)|].
  - apply HI2.
  - cbn. by rewrite lookup_upd, decide_True.
  - intros _ s' (w2 & -> & Hq). rewrite <-Hs2. by apply hook_inv.
Qed.

(** The record of a validator whose operator has taken the minimum self delegation back. *)
Definition dismissed V : Validator :=
  set_DelegatorShares (DelegatorShares V - Dec.unit) (set_Jailed true (set_vMinSelfDelegation 0 V)).

Lemma dismissed_share s v V : share_inv s → validators s !! v = Some V → vMinSelfDelegation V ≠ 0 →
  share_inv (rewrite_val v (Some (dismissed V)) s).
Proof.
  intros [S1 S2 S3] Hv Hm. split; [| |done].
  - intros u U. cbn. rewrite lookup_upd. case_decide as Eu; [|by apply S1]. intros [= <-]. subst u.
    destruct (S1 v V Hv) as (E & _). change (voted (rewrite_val v (Some (dismissed V)) s) v) with (voted s v).
    unfold own_share in *. cbn. rewrite decide_False in E by done. rewrite decide_True by done. lia.
  - intros a d Hd. destruct (S2 a d Hd) as (?&?&?&K&?&?&?). split_and!; try done. intros u Hu. cbn. rewrite lookup_upd.
    case_decide; [by eexists|by apply K].
Qed.

(** Nobody adds shares to a validator without votes. *)
Lemma no_votes s v : share_inv s → voted s v = 0 → ∀ a d, delegators s !! a = Some d → v ∉ ValidatorAddresses d.
Proof.
  intros HS Hv a d Hd Hin. pose proof (good_of s a d HS Hd) as G.
  assert (0 < Shares d) by (apply G; intros E; rewrite E in Hin; by apply elem_of_nil in Hin).
  assert (Shares d ≤ voted s v); [|lia].
  pose proof (msum_le (λ d : Delegator, if decide (v ∈ ValidatorAddresses d) then Shares d else 0) (delegators s) a d) as H1.
  cbn beta in H1. rewrite decide_True in H1 by done. apply H1; [|done].
  intros b e He. case_decide; [|done]. exact (good_nonneg _ _ _ (good_of s b e HS He)).
Qed.

Lemma removed_share s s' v V : share_inv s → validators s !! v = Some V → voted s v = 0 →
  validators s' = upd v None (validators s) → delegators s' = delegators s → allShares s' = allShares s → share_inv s'.
Proof.
  intros HS Hv Hz EV1 ED ES. pose proof HS as [S1 S2 S3]. split.
  - intros u U. rewrite EV1, lookup_upd. case_decide; [done|]. intros HU. destruct (S1 u U HU) as (E & ?). split; [|done].
    unfold voted. rewrite ED. exact E.
  - intros a d. rewrite ED. intros Hd. destruct (S2 a d Hd) as (?&?&?&K&?&?&?). split_and!; try done. intros u Hu. rewrite EV1, lookup_upd.
    case_decide as E; [subst u; by destruct (no_votes s v HS Hz a d Hd)|by apply K].
  - intros u a x. rewrite ES, ED. apply S3.
Qed.

(** The operator's own part is one share of what a validator has. *)
Lemma own_part s v V : share_inv s → validators s !! v = Some V → vMinSelfDelegation V ≠ 0 →
  DelegatorShares V - Dec.unit = voted s v.
Proof. intros HS Hv Hm. destruct (sh_val s HS v V Hv) as (E & _). unfold own_share in E. rewrite decide_False in E by done. lia. Qed.

Lemma abandoned_inv s v V : vinv s → validators s !! v = Some V → Status V ≠ Unbonded →
  vinv (set_abandoned (abandoned s ++ [v]) s).
Proof.
  intros [? ? ? ? ? ? ? ? H9] HV Hst. split; try done. cbn. intros u Hu.
  apply elem_of_app in Hu as [Hu| ->%list_elem_of_singleton]; [by apply H9|]. by exists V.
Qed.

(** The end of WithdrawMinSelfDelegation: the validator's record. *)
Definition dismiss ctx V : MS unit :=
  (match Status V with Bonded => AppendAbandonedValidatorAddrs (ConsAddress_of V) | _ => mret tt end);;
  if (IsUnbonded V && Dec.IsZero (DelegatorShares V - Dec.unit))%bool then RemoveValidator ctx (OperatorAddress V)
  else DeleteValidatorByPowerIndex V;; SetValidator (dismissed V).

Lemma dismiss_runs ctx v V s : vinv s → share_inv s → validators s !! v = Some V → vMinSelfDelegation V ≠ 0 →
  runs (dismiss ctx V) s (λ _ s', vinv s' ∧ share_inv s' ∧
    ∃ A, (∀ u, u ∈ A → u ∈ abandoned s ∨ u = v) ∧ sk (set_abandoned A (set_validators (upd v (Some (dismissed V)) (validators s)) s)) s').
Proof.
  intros HI HS HV Hm. destruct (vi_op WInv s HI v V HV) as [Ho _]. unfold dismiss.
  assert (∃ A, (∀ u, u ∈ A → u ∈ abandoned s ∨ u = v) ∧ runs (match Status V with Bonded => AppendAbandonedValidatorAddrs (ConsAddress_of V) | _ => mret tt end) s
    (λ _ s', s' = set_abandoned A s ∧ vinv s')) as (A & HAs & HA).
  { destruct (Status V) eqn:Est; [exists (abandoned s); (split; [by left|])..|exists (abandoned s ++ [v]); split;
      [by intros u [?| ->%list_elem_of_singleton]%elem_of_app; [left|right]|]].
    - apply runs_ret. split; [by destruct s|done].
    - apply runs_ret. split; [by destruct s|done].
    - assert (byConsAddr s !! ConsAddress_of V = Some v) as Hc by (apply (vi_cons WInv s HI); by exists V).
      unfold AppendAbandonedValidatorAddrs, mustGetValidatorByConsAddr. apply runs_bind, runs_bind, runs_gets.
      unfold GetValidatorByConsAddr, GetValidator. rewrite Hc, HV. eapply runs_lift; [done|].
      apply runs_bind, runs_gets, runs_modify. unfold getAbandonedValidatorAddrs. rewrite Ho. split; [done|].
      apply (abandoned_inv s v V); [done|done|congruence]. }
  apply runs_bind. eapply runs_mono; [exact HA|]. intros _ s1 [-> HI1]. set (s1 := set_abandoned A s) in *.
  assert (share_inv s1) as HS1 by (destruct HS; by split).
  rewrite Dec.IsZero_spec, (own_part s v V) by done. change (voted s v) with (voted s1 v).
  destruct (IsUnbonded V && (voted s1 v =? 0)%Z)%bool eqn:Erm.
  - apply andb_true_iff in Erm as [Hst%bool_decide_eq_true Hz%Z.eqb_eq]. rewrite Ho.
    eapply runs_mono; [by apply (remove_runs WInv protected ctx v V s1)|]. intros _ s' (w' & -> & Hq & HI').
    split; [done|]. split; [by apply (removed_share s1 _ v V)|]. exists A. split; [done|]. split.
    + exact Hq.
    + done.
    + done.
    + intros u. cbn. rewrite !lookup_upd. case_decide as E; [by intros ? [= <-]|].
      destruct (validators s !! u) as [U|]; [|done]. exists U, (DelegatorShares U). by destruct U.
  - assert ((DeleteValidatorByPowerIndex V;; SetValidator (dismissed V)) s1 = (Ok tt, rewrite_val v (Some (dismissed V)) s1)) as E.
    { unfold DeleteValidatorByPowerIndex, SetValidator, modify, mbind, M_bind, rewrite_val, reindex. change (validators s1 !! v) with (validators s !! v).
      rewrite HV. cbn. by rewrite Ho. }
    eexists _, _. split; [exact E|]. split; [by eapply rewrite_val_inv|]. split; [by apply (dismissed_share s1)|]. exists A. split; [done|]. split.
    + apply calm_refl. apply HI.
    + done.
    + done.
    + intros u. cbn. destruct (upd v (Some (dismissed V)) (validators s) !! u) as [U|] eqn:EU; [|done].
      exists U, (DelegatorShares U). by destruct U.
Qed.

(** A tail that also answers [t]. *)
Lemma runs_answer {B} (m k : MS unit) (k' : MS B) (t : B) s Q : runs (m;; k) s Q → (∀ s, k' s = (k;; mret t) s) →
  runs (m;; k') s (λ r s', r = t ∧ Q tt s').
Proof.
  intros ([] & s' & E & HQ) Hk. exists t, s'. split; [|done]. revert E. unfold mbind, M_bind.
  destruct (m s) as [[[]|e|] s1]; [|done|done]. intros E. rewrite Hk. unfold mbind, M_bind. by rewrite E.
Qed.

(** DestroyValidator: what the undelegation that is noted replaces stays in the pool. *)
Lemma destroy_validator_inv ctx a s : sinv s →
  safe (handleMsgDestroyValidator ctx (MkMsgDestroyValidator a)) s (λ _ s',
    sinv s' ∧ surplus s' = surplus s + from_option Quantity 0 (undelegations s !! a)).
Proof.
  intros [HV HS HP HM HE HAb]. unfold handleMsgDestroyValidator, GetValidator. cbn [dvDelAddr].
  apply safe_bind, safe_gets, safe_bind, safe_or_throw. intros V HVa.
  destruct (vi_op WInv s HV a V HVa) as [Ho _]. destruct (sh_val s HS a V HVa) as (_ & Hm0 & _).
  unfold WithdrawMinSelfDelegation. rewrite !Dec.IsZero_spec.
  apply safe_bind, safe_throw_if. intros Hm%Z.eqb_neq. set (q := vMinSelfDelegation V) in *.
  apply safe_bind, safe_throw_if. intros _.
  apply safe_bind, safe_lift; [rewrite Coins.NewDecCoinFromDec_ok; [done|apply Coins.DefaultBondDenom_valid|lia]|].
  intros coin Ecoin. rewrite Coins.NewDecCoinFromDec_ok in Ecoin by (try lia; apply Coins.DefaultBondDenom_valid). injection Ecoin as <-.
  assert (q ≤ bal s bondedAcc) as Hb.
  { rewrite (mo_bonded _ s HM). assert (q ≤ msum vMinSelfDelegation (validators s)).
    { apply (msum_le vMinSelfDelegation _ a); [|done]. intros u U HU. by apply (sh_val s HS u U). }
    assert (0 ≤ msum Tokens (delegators s)); [|lia]. apply msum_nonneg. intros b e He.
    apply Z.lt_le_incl, (gd_tokens _ _ _ (good_of s b e HS He)). }
  apply safe_bind, safe_runs.
  eapply runs_mono; [apply (to_not_bonded_runs WInv protected); [apply HV|cbn; lia|apply Coins.DefaultBondDenom_valid|cbn; by rewrite <-(mo_denom _ s HM)]|].
  intros _ s1 (w' & -> & Htr). cbn [Denom Amount] in Htr. rewrite <-(mo_denom _ s HM) in Htr.
  destruct (mo_users _ s HM a) as [Hu Hacc]; [right; left; by eexists|].
  apply safe_bind, safe_gets. apply safe_bind. unfold safe at 1. cbn -[q]. apply safe_bind. unfold safe at 1. cbn -[q].
  set (time := BlockTime ctx + UnbondingTime (params s)). set (u := MkUndelegationInfo a q time).
  set (s2 := set_timeQueue ({[(time, a)]} ∪ timeQueue s) (set_undelegations (<[a := u]> (undelegations s)) (set_world w' s))).
  match goal with |- safe _ ?x _ => change x with s2 end. rewrite Ho.
  assert (vinv s2) as HI2 by (by apply (vinv_same _ s); [|apply Htr|]). assert (share_inv s2) as HS2 by (destruct HS; by split).
  apply safe_bind, safe_runs. eapply runs_mono; [apply (destroyed_hook (WInv:=WInv) (protected:=protected) ctx a V s2); [apply HI2|done]|].
  intros _ s3 (w2 & -> & Hq). apply safe_runs.
  assert (vinv (set_world w2 s2)) as HI3 by (by apply (vinv_same _ s2); [|apply Hq|]).
  assert (share_inv (set_world w2 s2)) as HS3 by (destruct HS2; by split).
  eapply runs_mono; [apply (runs_answer _ _ _ time _ _ (dismiss_runs ctx a V (set_world w2 s2) HI3 HS3 HVa Hm))|].
  { intros x. change (IsUnbonded (set_Jailed true (set_vMinSelfDelegation Dec.ZeroDec V))) with (IsUnbonded V).
    change (vMinSelfDelegation (set_Jailed true (set_vMinSelfDelegation Dec.ZeroDec V))) with Dec.ZeroDec.
    rewrite !Dec.IsZero_spec, Dec.Sub_spec, Dec.ZeroDec_spec, Ho. unfold getSharesFromDefaultMinSelfDelegation. rewrite Dec.OneDec_spec, andb_true_r.
    by destruct (IsUnbonded V && (DelegatorShares V - Dec.unit =? 0)%Z)%bool. }
  intros _ s' (_ & H1 & H2 & A & HA & H3).
  set (g := set_abandoned A (set_validators (upd a (Some (dismissed V)) (validators s)) (set_world w' s))).
  assert (jailed_inv g) as HJg.
  { intros v U Hin. cbn. rewrite lookup_upd. case_decide as Ea; [by intros [= <-]|].
    destruct (HA v Hin) as [?| ->]; [by apply HAb|done]. }
  assert (moved_out s w' q g) as Hmv.
  { split; try done.
    - unfold held. cbn. rewrite (msd_upd _ _ V) by done. cbn. fold q. lia.
    - cbn. intros b [?| ->]%upd_keys; [done|by eexists]. }
  destruct (money_out WInv protected s g w' a q u ({[(time, a)]} ∪ timeQueue s) HM Hu Hacc) as [HMg Hsg]; try done; try (cbn; lia).
  - set_solver.
  - intros b x _ Hx. destruct (mo_und _ s HM b x Hx) as (_ & _ & ?). set_solver.
  - cbn. destruct (undelegations s !! a) as [x|] eqn:Ex; cbn; [destruct (mo_und _ s HM a x Ex) as (_ & ? & _); lia|lia].
  - set (g' := set_timeQueue _ (set_undelegations _ g)) in *.
    assert (sk g' s') as H4.
    { eapply (skel_trans WInv protected _ (set_world w2 g')).
      - split; [exact Hq|done|done|]. intros v. cbn. destruct (upd a (Some (dismissed V)) (validators s) !! v) as [U|] eqn:EU; [|done].
        exists U, (DelegatorShares U). by destruct U.
      - exact H3. }
    assert (proxy_inv g') as HPg by (destruct HP; by split).
    destruct (by_skel WInv protected g' s' H4 HPg HMg HE HJg H1 H2) as [K1 K2]. split; [done|]. rewrite K2, Hsg. cbn. lia.
Qed.
End handlers.

End StakingHandlers.
