(* ===== verification/StakingBlock.v ===== *)
(** * The end of a block: the validator set

    Electing and discharging validators at the end of an epoch, discharging the abandoned
    ones in between, and letting validators go whose unbonding time has come.  [vstep]
    relates the states before and after: delegators, shares, proxies and undelegations
    stay, and so do the shares and the self delegation of every validator.  While a loop
    runs, the recorded total power lags behind: its invariant is [ready]. *)

From S2P Require Import Prelude Runs SdkDec SdkCoins GoStd CoinFacts Common StakingErrors Token Staking StakingSpec.
From S2P Require Import StakingShares StakingMoney StakingMsgs StakingHandlers.

#[local] Open Scope Z_scope.

Module StakingBlock.
Import Staking StakingSpec StakingShares StakingMoney StakingMsgs StakingHandlers.

Section block.
Context `{DO : Dec.Ops} `{DL : !Dec.Laws} `{CO : Coins.Ops} `{CL : !Coins.Laws} `{BO : Bank.Ops} `{BL : !Bank.Laws}
  `{SO : !SupplyOps} `{SL : !SupplyLaws} `{EV : Env} `{EL : !EnvLaws} {W : Type} `{AP : !App W}
  (WInv : W → Prop) (protected : AccAddress → Prop) `{AL : !AppLaws WInv protected}.
Implicit Types (w : W) (s : StakingState W) (V : Validator) (v : ValAddress) (a p : AccAddress).

Abbreviation MS := (M (StakingState W)) (only parsing).
Abbreviation vinv := (val_inv WInv) (only parsing).
Abbreviation quiet := (calm WInv protected) (only parsing).
Abbreviation minv := (money_inv protected) (only parsing).
Abbreviation sinv := (staking_inv WInv protected) (only parsing).
Abbreviation kept := (λ s s', sinv s' ∧ surplus s' = surplus s) (only parsing).

(** ** Steps of the validators *)

Definition stake_fields V : Dec * Dec * bool * PubKey :=
  (DelegatorShares V, vMinSelfDelegation V, Jailed V, ConsPubKey V).

Definition kept_fields s := (delegators s, allShares s, undelegations s, timeQueue s, proxies s, params s).

Record vstep s s' : Prop := {
  vs_calm : quiet (world s) (world s');
  vs_kept : kept_fields s' = kept_fields s;
  vs_vals v : match validators s' !! v with
    | Some V' => ∃ V, validators s !! v = Some V ∧ stake_fields V' = stake_fields V
    | None => ∀ V, validators s !! v = Some V → vMinSelfDelegation V = 0 ∧ DelegatorShares V = 0
    end;
}.

Lemma vstep_refl s : WInv (world s) → vstep s s.
Proof. intros HW. split; [by apply calm_refl|done|]. intros v. destruct (validators s !! v) as [V|]; [by exists V|done]. Qed.

Lemma vstep_trans s1 s2 s3 : vstep s1 s2 → vstep s2 s3 → vstep s1 s3.
Proof.
  intros [A1 B1 C1] [A2 B2 C2]. split; [by eapply calm_trans|congruence|]. intros v. specialize (C1 v). specialize (C2 v).
  destruct (validators s3 !! v) as [V3|].
  - destruct C2 as (V2 & E2 & H2). rewrite E2 in C1. destruct C1 as (V1 & E1 & H1). exists V1. split; [done|congruence].
  - intros V1 E1. destruct (validators s2 !! v) as [V2|]; [|by apply C1].
    destruct C1 as (V1' & E1' & H1). assert (V1' = V1) as -> by congruence. destruct (C2 V2 eq_refl) as [K1 K2].
    unfold stake_fields in H1. injection H1 as F1 F2 _ _. by rewrite <-F1, <-F2.
Qed.

Lemma kept_fields_eq s s' : kept_fields s' = kept_fields s → delegators s' = delegators s ∧ allShares s' = allShares s
  ∧ undelegations s' = undelegations s ∧ timeQueue s' = timeQueue s ∧ proxies s' = proxies s ∧ params s' = params s.
Proof. intros E. unfold kept_fields in E. injection E. done. Qed.

(** A validator's record rewritten without its stake. *)
Lemma vstep_put v V0 V s : WInv (world s) → validators s !! v = Some V0 → stake_fields V = stake_fields V0 →
  vstep s (set_validators (upd v (Some V) (validators s)) s).
Proof.
  intros HW HV E. split; [by apply calm_refl|done|]. intros u. cbn. rewrite lookup_upd. case_decide as Eu.
  - subst u. by exists V0.
  - destruct (validators s !! u) as [U|]; [by exists U|done].
Qed.

(** States with the same validators, up to a hook. *)
Lemma vstep_same s s1 s' : vstep s s1 → validators s' = validators s1 → kept_fields s' = kept_fields s1 →
  quiet (world s1) (world s') → vstep s s'.
Proof.
  intros [A B C] E1 E2 Hq. split; [by eapply calm_trans|congruence|]. intros v. rewrite E1. apply C.
Qed.

Lemma vstep_share s s' : share_inv s → vstep s s' → share_inv s'.
Proof.
  intros HS [_ B C]. destruct (kept_fields_eq _ _ B) as (E1 & E2 & _). pose proof HS as [S1 S2 S3].
  assert (∀ v, voted s' v = voted s v) as Ev by (intros v; unfold voted; by rewrite E1).
  split.
  - intros v V HV. specialize (C v). rewrite HV in C. destruct C as (V0 & HV0 & E). injection E as F1 F2 F3 _.
    destruct (S1 v V0 HV0) as (K1 & K2 & K3). rewrite Ev. unfold own_share in *. rewrite F1, F2, F3. done.
  - intros a d. rewrite E1. intros Hd. destruct (S2 a d Hd) as (?&?&?&K&?&?&?). split_and!; try done. intros v Hv.
    specialize (C v). destruct (validators s' !! v) as [V'|]; [by eexists|]. destruct (K v Hv) as [V HV].
    destruct (C V HV) as [F1 F2]. destruct (S1 v V HV) as (K1 & _). unfold own_share in K1. rewrite decide_True in K1 by done.
    by destruct (no_votes s v HS ltac:(lia) a d Hd).
  - intros v a x. rewrite E1, E2. apply S3.
Qed.

Lemma vstep_msd s s' : vstep s s' → msum vMinSelfDelegation (validators s') = msum vMinSelfDelegation (validators s).
Proof.
  intros [_ _ C]. apply msum_pointwise. intros v. specialize (C v). destruct (validators s' !! v) as [V'|].
  - destruct C as (V & -> & E). by injection E as _ E _ _.
  - destruct (validators s !! v) as [V|]; [|done]. cbn. by destruct (C V eq_refl) as [-> _].
Qed.

Lemma vstep_inv s s' : sinv s → vstep s s' → vinv s' → 0 < GetEpoch s' → jailed_inv s' → kept s s'.
Proof.
  intros [HV HS HP HM HE HAb] Hst HV' HE' HJ. pose proof Hst as [A B C]. destruct (kept_fields_eq _ _ B) as (E1 & E2 & E3 & E4 & E5 & E6).
  assert (∀ a, a = bondedAcc ∨ a = notBondedAcc → bal s' a = bal s a) as Eb.
  { intros a Ha. unfold bal. rewrite E6. by apply (calm_pools _ _ _ _ A). }
  assert (surplus s' = surplus s) as Es by (unfold surplus; rewrite Eb, E3; [done|by right]).
  split; [|done]. split; [done|by eapply vstep_share| | |by rewrite E6; split; [apply HE|]|done].
  - destruct HP as [P1 P2 P3]. split; unfold bound_tokens in *; rewrite ?E1, ?E5; done.
  - destruct HM as [M1 M2 M3 M4 M5 M6]. split; rewrite ?E1, ?E3, ?E4, ?E6, ?Es; try done.
    + rewrite Eb by (by left). by rewrite (vstep_msd _ _ Hst).
    + intros a Ha. destruct (M6 a) as [H1 H2].
      * destruct Ha as [Ha|[[V' HV0]|Ha]]; [by left| |by right; right]. right; left. specialize (C a). rewrite HV0 in C.
        destruct C as (V & -> & _). by eexists.
      * split; [done|]. by apply (calm_accounts _ _ _ _ A).
Qed.

(** ** Statuses *)

(** The recorded total is brought up to date. *)
Definition fixed s : StakingState W := set_lastTotalPower (Some (msum id (lastPowers s))) s.
Definition ready s : Prop := vinv (fixed s).

Lemma ready_of s : vinv s → ready s.
Proof. intros [? ? ? ? ? ? ? ? ?]. by split. Qed.

Lemma of_ready s : ready s → GetLastTotalPower s = msum id (lastPowers s) → vinv s.
Proof. intros [? ? ? ? ? ? ? ? ?] E. by split. Qed.

Lemma ready_world s w' : ready s → WInv w' → ready (set_world w' s).
Proof. intros H HW. by apply (vinv_same _ (fixed s)). Qed.

(** A validator changes its status; the last set and the queue follow. *)
Lemma restatus v V0 V (Q : gmap Z (list ValAddress)) (L : gmap ValAddress Z) s : ready s → validators s !! v = Some V0 →
  OperatorAddress V = v → ConsPubKey V = ConsPubKey V0 → vTokens V = 0 →
  (is_Some (L !! v) ↔ Status V = Bonded) → (∀ u, u ≠ v → L !! u = lastPowers s !! u) →
  (∀ t u, u ∈ default [] (Q !! t) ↔ if decide (u = v) then Status V = Unbonding ∧ UnbondingCompletionTime V = t
     else u ∈ GetValidatorQueueTimeSlice t s) →
  (∀ t, NoDup (default [] (Q !! t))) → (v ∈ abandoned s → Status V ≠ Unbonded) →
  ready (set_lastPowers L (set_validatorQueue Q (rewrite_val v (Some V) s))).
Proof.
  intros HR HV E1 E2 E3 HL HL' HQ HN HA. pose proof HR as [I1 I2 I3 I4 I5 I6 I7 I8 I9]. cbn in I5, I6.
  assert (ConsAddress_of V = ConsAddress_of V0) as E6 by (unfold ConsAddress_of; by rewrite E2).
  assert (∀ (P : Validator → Prop) u, u ≠ v → (∃ U, upd v (Some V) (validators s) !! u = Some U ∧ P U) ↔
    ∃ U, validators s !! u = Some U ∧ P U) as Hne by (intros P u Hu; by rewrite lookup_upd, decide_False).
  assert (∀ (P : Validator → Prop), (∃ U, upd v (Some V) (validators s) !! v = Some U ∧ P U) ↔ P V) as Heq.
  { intros P. rewrite lookup_upd, decide_True by done. split; [by intros (U & [= <-] & ?)|by exists V]. }
  split; cbn.
  - done.
  - intros u U. rewrite lookup_upd. case_decide; [intros [= <-]; by subst|apply I2].
  - refine (reindex_ok _ _ v (Some V) I3 _ _); [|done]. intros u U HU. by apply I2.
  - intros c u. rewrite I4. symmetry. apply (core_upd _ _ V0); [done|]. by rewrite E6.
  - intros u. destruct (decide (u = v)) as [->|Hu]; [by rewrite HL, (Heq (λ U, Status U = Bonded))|].
    rewrite HL' by done. rewrite I5. symmetry. by apply Hne.
  - done.
  - intros t u. unfold GetValidatorQueueTimeSlice. cbn. rewrite HQ. case_decide as Eu.
    + subst u. by rewrite (Heq (λ U, Status U = Unbonding ∧ UnbondingCompletionTime U = t)).
    + etransitivity; [apply I7|]. symmetry. by apply (Hne (λ U, Status U = Unbonding ∧ UnbondingCompletionTime U = t)).
  - intros t. apply HN.
  - intros u Hu. destruct (decide (u = v)) as [->|Hne']; [apply (Heq (λ U, Status U ≠ Unbonded)); by apply HA|].
    apply (Hne (λ U, Status U ≠ Unbonded)); [done|]. by apply I9.
Qed.

(** The queue without a validator that is in no other slice. *)
Lemma unqueue_spec V0 V s s1 : ready s → validators s !! OperatorAddress V = Some V0 →
  UnbondingCompletionTime V = UnbondingCompletionTime V0 → validatorQueue s1 = validatorQueue s →
  ∃ Q, DeleteValidatorQueue V s1 = (Ok tt, set_validatorQueue Q s1) ∧
    (∀ t u, u ∈ default [] (Q !! t) ↔ u ≠ OperatorAddress V ∧ u ∈ GetValidatorQueueTimeSlice t s) ∧
    (∀ t, NoDup (default [] (Q !! t))).
Proof.
  intros HR HV ET EQ. set (v := OperatorAddress V) in *. set (T := UnbondingCompletionTime V) in *.
  assert (∀ t, v ∈ GetValidatorQueueTimeSlice t s → t = T) as Honly.
  { intros t Ht. apply (vi_queue WInv _ HR t v) in Ht as (U & HU & _ & <-). cbn in HU. congruence. }
  set (l := filter (λ u, u ≠ v) (GetValidatorQueueTimeSlice T s)).
  assert (∀ (o : option (list ValAddress)), default [] o = l →
    let Q := partial_alter (λ _, o) T (validatorQueue s) in
    (∀ t u, u ∈ default [] (Q !! t) ↔ u ≠ v ∧ u ∈ GetValidatorQueueTimeSlice t s) ∧ (∀ t, NoDup (default [] (Q !! t)))) as HQ.
  { intros o Ho Q. split.
    - intros t u. unfold Q. destruct (decide (T = t)) as [<-|Ht].
      + rewrite lookup_partial_alter_eq, Ho. unfold l. by rewrite list_elem_of_filter.
      + rewrite lookup_partial_alter_ne by done. split; [|by intros []]. intros Hu. split; [|done]. intros ->. by apply Ht, eq_sym, Honly.
    - intros t. unfold Q. destruct (decide (T = t)) as [<-|Ht].
      + rewrite lookup_partial_alter_eq, Ho. apply NoDup_filter. apply (vi_nodup WInv _ HR).
      + rewrite lookup_partial_alter_ne by done. apply (vi_nodup WInv _ HR). }
  unfold DeleteValidatorQueue, gets, mbind, M_bind. fold T v. change (GetValidatorQueueTimeSlice T s1) with (default [] (validatorQueue s1 !! T)).
  rewrite EQ. change (default [] (validatorQueue s !! T)) with (GetValidatorQueueTimeSlice T s). fold l. cbn beta.
  destruct (length l =? 0)%nat eqn:El.
  - apply Nat.eqb_eq, length_zero_iff_nil in El. exists (delete T (validatorQueue s)). split; [|by apply (HQ None)].
    unfold DeleteValidatorQueueTimeSlice, modify. by rewrite EQ.
  - exists (<[T := l]> (validatorQueue s)). split; [|by apply (HQ (Some l))]. unfold SetValidatorQueueTimeSlice, modify. by rewrite EQ.
Qed.

(** The three writes of the source, followed by something. *)
Lemma runs_put {A} V0 V (k : MS A) s Q : validators s !! OperatorAddress V = Some V0 →
  runs k (rewrite_val (OperatorAddress V) (Some V) s) Q →
  runs (DeleteValidatorByPowerIndex V0;; SetValidator V;; SetValidatorByPowerIndex V;; k) s Q.
Proof.
  intros HV. unfold rewrite_val. rewrite HV. unfold SetValidatorByPowerIndex, reindex. by destruct (Jailed V).
Qed.

(** What a transition leaves: [V'] on record, a new queue, and whatever a hook did. *)
Definition moved_to v V' s s' : Prop :=
  ∃ Q w', s' = set_world w' (set_validatorQueue Q (rewrite_val v (Some V') s)) ∧ quiet (world s) w'.

Lemma moved_vstep v V V' s s' : validators s !! v = Some V → WInv (world s) → stake_fields V' = stake_fields V →
  moved_to v V' s s' → vstep s s'.
Proof.
  intros HV HW E (Q & w' & -> & Hq). eapply (vstep_same s); [by apply (vstep_put v V V')|done|done|exact Hq].
Qed.

(** bondValidator; afterwards the power of the validator is recorded. *)
Lemma bond_runs ctx v V s : ready s → validators s !! v = Some V → Status V ≠ Bonded →
  runs (bondValidator ctx V) s (λ V' s', V' = set_Status Bonded V ∧ moved_to v V' s s' ∧
    ∀ x, ready (set_lastPowers (<[v := x]> (lastPowers s)) s')).
Proof.
  intros HR HV Hst. destruct (vi_op WInv _ HR v V HV) as [Ho Ht]. unfold bondValidator.
  set (V' := set_Status Bonded V). apply runs_put; [change (OperatorAddress V') with (OperatorAddress V); by rewrite Ho|].
  change (OperatorAddress V') with (OperatorAddress V). rewrite Ho. set (s1 := rewrite_val v (Some V') s).
  destruct (unqueue_spec V V' s s1 HR) as (Q & EQ & HQ & HN); [by change (OperatorAddress V') with (OperatorAddress V); rewrite Ho|done|done|].
  change (OperatorAddress V') with (OperatorAddress V) in HQ. rewrite Ho in HQ.
  apply runs_bind. eexists _, _. split; [exact EQ|]. apply runs_bind.
  set (s2 := set_validatorQueue Q s1).
  assert (∀ x, ready (set_lastPowers (<[v := x]> (lastPowers s)) s2)) as Hr.
  { intros x. apply (restatus v V); try done.
    - by rewrite lookup_insert_eq.
    - intros u Hu. by rewrite lookup_insert_ne.
    - intros t u. rewrite HQ. case_decide; [|naive_solver]. split; [naive_solver|]. by intros [? _]. }
  eapply runs_mono; [apply (bonded_hook (WInv:=WInv) (protected:=protected) ctx v V' s2); [apply HR|cbn; by rewrite lookup_upd, decide_True]|].
  intros _ s' (w' & -> & Hq). apply runs_ret. split; [done|]. split; [by exists Q, w'|]. intros x. by apply (ready_world _ w' (Hr x)), Hq.
Qed.

(** beginUnbondingValidator; afterwards the power of the validator is deleted. *)
Lemma begin_unbonding_runs ctx v V s : ready s → validators s !! v = Some V → Status V = Bonded →
  runs (bondedToUnbonding ctx V) s (λ V' s',
    V' = set_Unbonding (BlockTime ctx + UnbondingTime (params s)) (BlockHeight ctx) (set_Status Unbonding V) ∧
    moved_to v V' s s' ∧ ready (set_lastPowers (delete v (lastPowers s)) s')).
Proof.
  intros HR HV Hst. destruct (vi_op WInv _ HR v V HV) as [Ho Ht]. unfold bondedToUnbonding, beginUnbondingValidator, IsBonded.
  rewrite Hst, bool_decide_true by done. cbn [negb]. cbv iota. apply runs_bind, runs_gets.
  set (T := BlockTime ctx + UnbondingTime (params s)). set (V' := set_Unbonding T (BlockHeight ctx) (set_Status Unbonding V)).
  apply runs_put; [change (OperatorAddress V') with (OperatorAddress V); by rewrite Ho|].
  change (OperatorAddress V') with (OperatorAddress V). rewrite Ho. set (s1 := rewrite_val v (Some V') s).
  set (Q := <[T := GetValidatorQueueTimeSlice T s ++ [v]]> (validatorQueue s)).
  apply runs_bind. unfold InsertValidatorQueue. apply runs_bind, runs_gets.
  change (UnbondingCompletionTime V') with T. change (OperatorAddress V') with (OperatorAddress V). rewrite Ho.
  apply runs_modify. set (s2 := set_validatorQueue _ s1). change s2 with (set_validatorQueue Q s1).
  assert (∀ t, v ∉ GetValidatorQueueTimeSlice t s) as Hout.
  { intros t Hin. apply (vi_queue WInv _ HR t v) in Hin as (U & HU & HS & _). cbn in HU. congruence. }
  assert (∀ t, default [] (Q !! t) = if decide (t = T) then GetValidatorQueueTimeSlice T s ++ [v] else GetValidatorQueueTimeSlice t s) as EQ.
  { intros t. unfold Q. rewrite lookup_insert. destruct (decide (T = t)) as [<-|]; [by rewrite decide_True|by rewrite decide_False by congruence]. }
  assert (ready (set_lastPowers (delete v (lastPowers s)) (set_validatorQueue Q s1))) as Hr.
  { apply (restatus v V); try done.
    - rewrite lookup_delete_eq. split; [by intros []|done].
    - intros u Hu. by rewrite lookup_delete_ne.
    - intros t u. rewrite EQ. destruct (decide (t = T)) as [->|HtT].
      + rewrite elem_of_app, list_elem_of_singleton. case_decide as Eu; [naive_solver|]. naive_solver.
      + case_decide as Eu; [|done]. subst u. split; [by intros ?%Hout|]. by intros [_ <-].
    - intros t. rewrite EQ. case_decide; [|apply (vi_nodup WInv _ HR)]. apply NoDup_app. split; [apply (vi_nodup WInv _ HR)|].
      split; [|apply NoDup_singleton]. intros u Hu ->%list_elem_of_singleton. by apply Hout in Hu. }
  apply runs_bind. eapply runs_mono; [apply (unbonding_hook (WInv:=WInv) (protected:=protected) ctx v V' (set_validatorQueue Q s1)); [apply HR|cbn; by rewrite lookup_upd, decide_True]|].
  intros _ s' (w' & -> & Hq). apply runs_ret. split; [done|]. split; [by exists Q, w'|]. by apply (ready_world _ w' Hr), Hq.
Qed.

(** ** What Tendermint knows *)

(** Tendermint keeps a power for each key; an update with power zero removes the key. *)
Definition tell_power (x : Z) : option Z := if decide (x = 0) then None else Some x.
Definition tell (m : gmap PubKey Z) (u : ValidatorUpdate) : gmap PubKey Z := upd (uPubKey u) (tell_power (uPower u)) m.
Definition tells (m : gmap PubKey Z) (l : list ValidatorUpdate) : gmap PubKey Z := foldl tell m l.

(** It knows the last set. *)
Definition known (m : gmap PubKey Z) s : Prop := ∀ k x, m !! k = Some x ↔
  ∃ v V, validators s !! v = Some V ∧ ConsPubKey V = k ∧ lastPowers s !! v = Some x.

Lemma cons_key_inj s u v U V : ready s → validators s !! u = Some U → validators s !! v = Some V → ConsPubKey U = ConsPubKey V → u = v.
Proof.
  intros HR HU HV E. assert (ConsAddress_of U = ConsAddress_of V) as EC by (unfold ConsAddress_of; by rewrite E).
  assert (byConsAddr s !! ConsAddress_of U = Some u) as H1 by (apply (vi_cons WInv _ HR); by exists U).
  assert (byConsAddr s !! ConsAddress_of V = Some v) as H2 by (apply (vi_cons WInv _ HR); by exists V). congruence.
Qed.

Lemma known_upd m s s' v V V' o : ready s → known m s → validators s !! v = Some V → ConsPubKey V' = ConsPubKey V →
  validators s' = upd v (Some V') (validators s) → lastPowers s' = upd v o (lastPowers s) →
  known (upd (ConsPubKey V) o m) s'.
Proof.
  intros HR HK HV EK E1 E2 k x. rewrite lookup_upd. destruct (decide (ConsPubKey V = k)) as [<-|Hk].
  - split.
    + intros ->. exists v, V'. rewrite E1, E2, !lookup_upd, !decide_True; done.
    + intros (u & U & HU & EU & Hx). rewrite E1, lookup_upd in HU. rewrite E2, lookup_upd in Hx. case_decide as Eu; [done|].
      destruct Eu. symmetry. by eapply cons_key_inj.
  - rewrite (HK k x). split; intros (u & U & HU & EU & Hx).
    + assert (v ≠ u) as Hvu by (intros ->; congruence). exists u, U. by rewrite E1, E2, !lookup_upd, !decide_False.
    + rewrite E1, lookup_upd in HU. rewrite E2, lookup_upd in Hx. case_decide as Eu; [congruence|]. by exists u, U.
Qed.

Definition block_fields s := (lastTotalPower s, abandoned s, epoch s, endOfLastEpoch s).

(** A part of a loop, with the updates that it adds. *)
Record progress (new : list ValidatorUpdate) s s' : Prop := {
  pr_ready : ready s';
  pr_step : vstep s s';
  pr_fields : block_fields s' = block_fields s;
  pr_known m : known m s → known (tells m new) s';
}.

Lemma progress_refl s : ready s → progress [] s s.
Proof. intros HR. split; [done|by apply vstep_refl, HR|done|done]. Qed.

Lemma progress_trans n1 n2 s1 s2 s3 : progress n1 s1 s2 → progress n2 s2 s3 → progress (n1 ++ n2) s1 s3.
Proof.
  intros [A1 B1 C1 D1] [A2 B2 C2 D2]. split; [done|by eapply vstep_trans|congruence|].
  intros m Hm. unfold tells. rewrite foldl_app. by apply D2, D1.
Qed.

(** One validator's status or power changes. *)
Lemma change_progress v V V' x s s1 : ready s → validators s !! v = Some V → ConsPubKey V' = ConsPubKey V →
  vstep s s1 → validators s1 = upd v (Some V') (validators s) → lastPowers s1 = lastPowers s →
  block_fields s1 = block_fields s →
  ready (set_lastPowers (upd v (tell_power x) (lastPowers s)) s1) →
  progress [MkValidatorUpdate (ConsPubKey V) x] s (set_lastPowers (upd v (tell_power x) (lastPowers s1)) s1).
Proof.
  intros HR HV EK HS E1 E2 E3 HR'. rewrite E2. split; [done| |done|].
  - eapply (vstep_same s s1); [done|done|done|]. apply calm_refl. apply HR'.
  - intros m Hm. by apply (known_upd m s _ v V V').
Qed.

Lemma moved_progress v V V' x s s1 : ready s → validators s !! v = Some V → stake_fields V' = stake_fields V →
  moved_to v V' s s1 → ready (set_lastPowers (upd v (tell_power x) (lastPowers s)) s1) →
  progress [MkValidatorUpdate (ConsPubKey V) x] s (set_lastPowers (upd v (tell_power x) (lastPowers s1)) s1).
Proof.
  intros HR HV E HM HR'. apply (change_progress v V V'); try done; [by injection E|by eapply moved_vstep; [| |done|]; [|apply HR|]|..].
  all: by destruct HM as (Q & w' & -> & _).
Qed.

(** ** Electing *)

Fixpoint elected (keys : list ValAddress) (n : nat) s : list ValAddress :=
  match keys, n with
  | v :: keys', S n' =>
      match validators s !! v with
      | Some V => if (PotentialConsensusPowerByShares V =? 0)%Z then [] else v :: elected keys' n' s
      | None => []
      end
  | _, _ => []
  end.

Definition power_of s v : Z := from_option PotentialConsensusPowerByShares 0 (validators s !! v).

Lemma elected_ext keys n s s' : (∀ v, v ∈ keys → (PotentialConsensusPowerByShares <$> validators s' !! v)
    = (PotentialConsensusPowerByShares <$> validators s !! v)) → elected keys n s' = elected keys n s.
Proof.
  revert n. induction keys as [|v keys IH]; intros [|n] H; [done..|]. cbn. pose proof (H v ltac:(left)) as E.
  destruct (validators s' !! v) as [V'|], (validators s !! v) as [V|]; [|done|done|done]. injection E as ->.
  case_match; [done|]. f_equal. apply IH. intros u Hu. apply H. by right.
Qed.

Lemma elected_in keys n s v : v ∈ elected keys n s → v ∈ keys.
Proof.
  revert n. induction keys as [|u keys IH]; intros [|n]; cbn; [by intros ?%elem_of_nil..|].
  destruct (validators s !! u); [|by intros ?%elem_of_nil]. case_match; [by intros ?%elem_of_nil|].
  intros [->|Hv]%elem_of_cons; [by left|right; by eapply IH].
Qed.

Lemma stake_power V V' : stake_fields V' = stake_fields V → PotentialConsensusPowerByShares V' = PotentialConsensusPowerByShares V.
Proof. intros E. injection E as E1 _ _ _. unfold PotentialConsensusPowerByShares. by rewrite E1. Qed.

(** Powers, keys and jails do not change in a step that removes nobody. *)
Lemma vstep_power s s' v V : vstep s s' → validators s !! v = Some V → is_Some (validators s' !! v) →
  ∃ V', validators s' !! v = Some V' ∧ stake_fields V' = stake_fields V.
Proof.
  intros [_ _ C] HV [V' HV']. specialize (C v). rewrite HV' in C. destruct C as (V0 & HV0 & E). exists V'. split; [done|congruence].
Qed.

(** One turn of the loop of ApplyAndReturnValidatorSetUpdates: the updates and the power. *)
Definition elect_one ctx v V (last : gmap ValAddress Z) (ups : list ValidatorUpdate) : MS (list ValidatorUpdate * Z) :=
  validator ← match Status V with
              | Unbonded => unbondedToBonded ctx V
              | Unbonding => unbondingToBonded ctx V
              | Bonded => mret V
              end;
  let newPower := ConsensusPowerByShares validator in
  updates ← (if decide (last !! v = Some newPower) then mret ups
             else SetLastValidatorPower v newPower;; mret (ups ++ [ABCIValidatorUpdateByShares validator]));
  mret (updates, newPower).

(** A validator that was not in the set joins it. *)
Record joins v V s s1 s2 : Prop := {
  jn_progress : progress [MkValidatorUpdate (ConsPubKey V) (PotentialConsensusPowerByShares V)] s s2;
  jn_last : lastPowers s1 = lastPowers s;
  jn_others u : u ≠ v → validators s1 !! u = validators s !! u;
  jn_own : is_Some (validators s1 !! v);
}.

Lemma join_runs ctx v V (m : MS Validator) s : ready s → validators s !! v = Some V → Status V ≠ Bonded →
  PotentialConsensusPowerByShares V ≠ 0 →
  runs (match Status V with Unbonded => unbondedToBonded ctx V | Unbonding => unbondingToBonded ctx V | Bonded => m end) s
    (λ V' s1, V' = set_Status Bonded V ∧
      joins v V s s1 (set_lastPowers (<[v := PotentialConsensusPowerByShares V]> (lastPowers s1)) s1)).
Proof.
  intros HR HV Hst Hp. set (x := PotentialConsensusPowerByShares V) in *.
  eapply (runs_mono _ _ (λ V' s', V' = set_Status Bonded V ∧ moved_to v V' s s' ∧
      ∀ x, ready (set_lastPowers (<[v := x]> (lastPowers s)) s'))).
  { unfold unbondedToBonded, unbondingToBonded, IsUnbonded, IsUnbonding. destruct (Status V) eqn:E; [..|done];
      (eapply runs_mono; [by apply bond_runs; rewrite ?E|done]). }
  intros V' s1 (-> & HM & HR'). split; [done|]. pose proof HM as (Q & w' & E1 & _).
  assert (tell_power x = Some x) as Ex by (unfold tell_power; by rewrite decide_False). split.
  - fold x. change (<[v := x]> (lastPowers s1)) with (upd v (Some x) (lastPowers s1)). rewrite <-Ex.
    eapply (moved_progress v V (set_Status Bonded V)); try done. rewrite Ex. apply HR'.
  - by rewrite E1.
  - intros u Hu. rewrite E1. cbn. by rewrite lookup_upd, decide_False.
  - rewrite E1. cbn. rewrite lookup_upd, decide_True by done. by eexists.
Qed.

Lemma elect_one_runs ctx v V last ups s : ready s → validators s !! v = Some V → last !! v = lastPowers s !! v →
  PotentialConsensusPowerByShares V ≠ 0 →
  runs (elect_one ctx v V last ups) s
    (λ r s', ∃ new, r = (ups ++ new, PotentialConsensusPowerByShares V) ∧ progress new s s' ∧
      (∀ u, is_Some (validators s !! u) → is_Some (validators s' !! u)) ∧
      lastPowers s' = <[v := PotentialConsensusPowerByShares V]> (lastPowers s) ∧ (new = [] → lastPowers s' = lastPowers s)).
Proof.
  intros HR HV Hl Hp. unfold elect_one. set (x := PotentialConsensusPowerByShares V) in *.
  assert (tell_power x = Some x) as Ex by (unfold tell_power; by rewrite decide_False).
  destruct (decide (Status V = Bonded)) as [Hst|Hst].
  - rewrite Hst. apply runs_bind, runs_ret. unfold ConsensusPowerByShares, IsBonded. rewrite Hst, bool_decide_true by done. fold x.
    apply runs_bind. case_decide as El; [apply runs_ret, runs_ret; exists []|].
    + rewrite Hl in El. rewrite app_nil_r. split; [done|]. split; [by apply progress_refl|]. split; [done|].
      rewrite insert_id by done. done.
    + apply runs_bind, runs_modify, runs_ret, runs_ret. exists [MkValidatorUpdate (ConsPubKey V) x].
      assert (validators s = upd v (Some V) (validators s)) as EV0 by (apply map_eq; intros u; rewrite lookup_upd; case_decide; by subst).
      assert (ready (set_lastPowers (<[v := x]> (lastPowers s)) s)) as HR'.
      { destruct HR as [I1 I2 I3 I4 I5 I6 I7 I8 I9]. split; try done. intros u. cbn. rewrite lookup_insert. case_decide as Eu; [|apply I5].
        subst u. split; [by exists V|by eexists]. }
      split; [unfold ABCIValidatorUpdateByShares, ConsensusPowerByShares, IsBonded; by rewrite Hst, bool_decide_true|]. split.
      * change (<[v := x]> (lastPowers s)) with (upd v (Some x) (lastPowers s)). rewrite <-Ex.
        apply (change_progress v V V); try done; [by apply vstep_refl, HR|]. by rewrite Ex.
      * split; [done|]. split; [done|]. intros [=].
  - apply runs_bind. eapply runs_mono; [by apply (join_runs ctx v V)|]. intros V' s1 (-> & [H1 H2 H3 H4]).
    assert (ConsensusPowerByShares (set_Status Bonded V) = x) as -> by done. cbv zeta.
    assert (lastPowers s !! v = None) as Hn.
    { apply eq_None_not_Some. intros (U & HU & HS)%(vi_last WInv _ HR). cbn in HU. congruence. }
    rewrite decide_False by (by rewrite Hl, Hn). apply runs_bind, runs_bind, runs_modify, runs_ret, runs_ret.
    exists [MkValidatorUpdate (ConsPubKey V) x]. split; [done|]. split; [exact H1|]. split; [|split; [by rewrite <-H2|intros [=]]].
    intros u Hu. cbn. destruct (decide (u = v)) as [->|Huv]; [done|]. by rewrite H3.
Qed.

Lemma elect_cons ctx v keys n V last ups tot s : validators s !! v = Some V → Jailed V = false →
  PotentialConsensusPowerByShares V ≠ 0 →
  elect ctx (v :: keys) (S n) last ups tot s
  = (elect_one ctx v V last ups ≫= λ r, elect ctx keys n (delete v last) (fst r) (tot + snd r)) s.
Proof.
  intros HV HJ Hp. cbn [elect]. unfold mustGetValidator, GetValidator, gets, lift, or_panic, elect_one, mret, M_ret, mbind, M_bind.
  rewrite HV, HJ. cbn. rewrite (proj2 (Z.eqb_neq _ _) Hp).
  destruct (Status V); [destruct (unbondedToBonded ctx V s) as [[V'|e|] s1]; [|done|done]
    |destruct (unbondingToBonded ctx V s) as [[V'|e|] s1]; [|done|done]|]; by destruct (decide _).
Qed.

(** Sums over the elected. *)
Definition powers_of s (l : list ValAddress) : Z := zsum (power_of s <$> l).

Definition same_power s s' : Prop := ∀ v, is_Some (validators s !! v) →
  is_Some (validators s' !! v) ∧ power_of s' v = power_of s v.

Lemma same_power_of s s' : vstep s s' → (∀ u, is_Some (validators s !! u) → is_Some (validators s' !! u)) → same_power s s'.
Proof.
  intros HS H v [V HV]. pose proof (H v ltac:(by eexists)) as Hs. split; [done|]. destruct (vstep_power s s' v V HS HV Hs) as (V' & HV' & E).
  unfold power_of. rewrite HV, HV'. cbn. by apply stake_power.
Qed.

Lemma electable s s' keys : vstep s s' → (∀ u, is_Some (validators s !! u) → is_Some (validators s' !! u)) →
  (∀ v, v ∈ keys → ∃ V, validators s !! v = Some V ∧ Jailed V = false) →
  (∀ v, v ∈ keys → ∃ V, validators s' !! v = Some V ∧ Jailed V = false) ∧ ∀ n, elected keys n s' = elected keys n s.
Proof.
  intros HS H Hk. assert (∀ v, v ∈ keys → ∃ V V', validators s !! v = Some V ∧ validators s' !! v = Some V' ∧
    Jailed V = false ∧ stake_fields V' = stake_fields V) as HB.
  { intros v Hv. destruct (Hk v Hv) as (V & HV & HJ). destruct (vstep_power s s' v V HS HV) as (V' & HV' & E); [apply H; by eexists|].
    by exists V, V'. }
  split.
  - intros v Hv. destruct (HB v Hv) as (V & V' & _ & HV' & HJ & E). exists V'. split; [done|]. injection E. congruence.
  - intros n. apply elected_ext. intros v Hv. destruct (HB v Hv) as (V & V' & -> & -> & _ & E). cbn. by rewrite (stake_power V V').
Qed.

Record elects (l : list ValAddress) (new : list ValidatorUpdate) s s' : Prop := {
  el_progress : progress new s s';
  el_stay u : is_Some (validators s !! u) → is_Some (validators s' !! u);
  el_last v : lastPowers s' !! v = if decide (v ∈ l) then Some (power_of s v) else lastPowers s !! v;
  el_none : new = [] → lastPowers s' = lastPowers s;
}.

Lemma elect_done (last : gmap ValAddress Z) ups tot s : ready s →
  runs (mret (last, ups, tot)) s (λ r s', ∃ last' new, r = (last', ups ++ new, tot + powers_of s []) ∧
    elects [] new s s' ∧ ∀ v, last' !! v = if decide (v ∈ []) then None else last !! v).
Proof.
  intros HR. apply runs_ret. exists last, []. unfold powers_of. cbn. rewrite Z.add_0_r, app_nil_r. split; [done|].
  split; [split; [by apply progress_refl|done| |done]|]; intros u; by rewrite decide_False by apply not_elem_of_nil.
Qed.

Lemma elect_runs ctx keys n last ups tot s : ready s → NoDup keys →
  (∀ v, v ∈ keys → ∃ V, validators s !! v = Some V ∧ Jailed V = false) →
  (∀ v, v ∈ keys → last !! v = lastPowers s !! v) →
  let l := elected keys n s in
  runs (elect ctx keys n last ups tot) s (λ r s', ∃ last' new, r = (last', ups ++ new, tot + powers_of s l) ∧
    elects l new s s' ∧ ∀ v, last' !! v = if decide (v ∈ l) then None else last !! v).
Proof.
  revert n last ups tot s. induction keys as [|v keys IH]; intros n last ups tot s HR HN HK HL l.
  { by apply elect_done. }
  destruct n as [|n].
  { by apply elect_done. }
  destruct (HK v ltac:(left)) as (V & HV & HJ). apply NoDup_cons in HN as [Hv HN].
  destruct (decide (PotentialConsensusPowerByShares V = 0)) as [Hp|Hp].
  { unfold l. cbn [elected elect]. rewrite HV, Hp. cbn. unfold mustGetValidator, GetValidator.
    apply runs_bind, runs_bind, runs_gets. rewrite HV. eapply runs_lift; [done|]. rewrite HJ, Hp. cbn.
    by apply elect_done. }
  assert (l = v :: elected keys n s) as El by (unfold l; cbn; rewrite HV; by rewrite (proj2 (Z.eqb_neq _ _) Hp)).
  unfold runs. rewrite (elect_cons _ _ _ _ V) by done.
  change (runs (elect_one ctx v V last ups ≫= λ r, elect ctx keys n (delete v last) (fst r) (tot + snd r)) s (λ r s', ∃ last' new,
    r = (last', ups ++ new, tot + powers_of s l) ∧ elects l new s s' ∧ ∀ u, last' !! u = if decide (u ∈ l) then None else last !! u)).
  apply runs_bind. eapply runs_mono; [apply elect_one_runs; try done; apply HL; left|].
  intros _ s1 (n1 & -> & H1 & H2 & H3 & H4). cbn [fst snd].
  destruct (electable s s1 keys (pr_step _ _ _ H1) H2) as [HK1 HE1]; [intros u Hu; apply HK; by right|].
  pose proof (same_power_of s s1 (pr_step _ _ _ H1) H2) as HP1.
  eapply runs_mono; [apply (IH n (delete v last) (ups ++ n1) _ s1 (pr_ready _ _ _ H1) HN HK1)|].
  { intros u Hu. assert (u ≠ v) by (by intros ->). rewrite lookup_delete_ne, H3, lookup_insert_ne by done. apply HL. by right. }
  cbv zeta. rewrite HE1. intros _ s2 (last' & n2 & -> & [K1 K2 K3 K4] & K5).
  assert (power_of s v = PotentialConsensusPowerByShares V) as Epv by (unfold power_of; by rewrite HV).
  assert (∀ u, u ∈ elected keys n s → is_Some (validators s !! u)) as Hel.
  { intros u Hu%elected_in. destruct (HK u) as (U & HU & _); [by right|]. by eexists. }
  exists last', (n1 ++ n2). rewrite El, app_assoc. split; [|split; [split|]].
  - f_equal. unfold powers_of. cbn. rewrite Epv. change (foldr Z.add 0 ?x) with (zsum x).
    rewrite (list_fmap_ext _ (power_of s) (elected keys n s)); [lia|]. intros i u Hi. apply HP1, Hel. by eapply list_elem_of_lookup_2.
  - by eapply progress_trans.
  - auto.
  - intros u. rewrite K3, H3. destruct (decide (u ∈ elected keys n s)) as [Hu|Hu].
    + rewrite decide_True by (by right). f_equal. by apply HP1, Hel.
    + rewrite lookup_insert. destruct (decide (v = u)) as [<-|Hvu]; [rewrite decide_True by left; by rewrite Epv|].
      rewrite decide_False; [done|]. by intros [?|?]%elem_of_cons.
  - intros [E1 E2]%app_eq_nil. by rewrite K4, H4.
  - intros u. rewrite K5. destruct (decide (u ∈ elected keys n s)) as [Hu|Hu]; [by rewrite decide_True by (by right)|].
    rewrite lookup_delete. destruct (decide (v = u)) as [<-|Hvu]; [by rewrite decide_True by left|].
    rewrite decide_False; [done|]. by intros [?|?]%elem_of_cons.
Qed.

(** ** Leaving the set *)

Record leaves v V s s' : Prop := {
  lv_progress : progress [MkValidatorUpdate (ConsPubKey V) 0] s s';
  lv_last : lastPowers s' = delete v (lastPowers s);
  lv_others u : u ≠ v → validators s' !! u = validators s !! u;
  lv_own : ∃ V', validators s' !! v = Some V' ∧ Status V' = Unbonding;
}.

Lemma leave_runs ctx v V s : ready s → validators s !! v = Some V → Status V = Bonded →
  runs (bondedToUnbonding ctx V) s (λ V' s1, OperatorAddress V' = v ∧ ConsPubKey V' = ConsPubKey V ∧
    leaves v V s (set_lastPowers (delete v (lastPowers s1)) s1)).
Proof.
  intros HR HV Hst. destruct (vi_op WInv _ HR v V HV) as [Ho _].
  eapply runs_mono; [by apply begin_unbonding_runs|]. intros V' s1 (-> & HM & HR'). split; [done|]. split; [done|].
  pose proof HM as (Q & w' & E1 & Hq). split.
  - apply (moved_progress v V (set_Unbonding (BlockTime ctx + UnbondingTime (params s)) (BlockHeight ctx) (set_Status Unbonding V)) 0); try done.
  - by rewrite E1.
  - intros u Hu. rewrite E1. cbn. by rewrite lookup_upd, decide_False.
  - rewrite E1. cbn. rewrite lookup_upd, decide_True by done. by eexists.
Qed.

Lemma retire_runs ctx l ups s : ready s → NoDup l → (∀ v, v ∈ l → is_Some (lastPowers s !! v)) →
  runs (retire ctx l ups) s (λ r s', ∃ new, r = ups ++ new ∧ progress new s s' ∧ (new = [] → l = []) ∧
    ∀ v, lastPowers s' !! v = if decide (v ∈ l) then None else lastPowers s !! v).
Proof.
  revert ups s. induction l as [|v l IH]; intros ups s HR HN HL; cbn [retire].
  - apply runs_ret. exists []. rewrite app_nil_r. split; [done|]. split; [by apply progress_refl|]. split; [done|].
    intros v. by rewrite decide_False by apply not_elem_of_nil.
  - apply NoDup_cons in HN as [Hv HN]. destruct (proj1 (vi_last WInv _ HR v) (HL v ltac:(left))) as (V & HV & Hst). cbn in HV.
    unfold mustGetValidator, GetValidator. apply runs_bind, runs_bind, runs_gets. rewrite HV. eapply runs_lift; [done|].
    apply runs_bind. eapply runs_mono; [by apply leave_runs|]. intros V' s1 (Ho & Hk & [H1 H2 _ _]). rewrite Ho.
    apply runs_bind, runs_modify. unfold ABCIValidatorUpdateZero. rewrite Hk.
    eapply runs_mono; [apply (IH _ _ (pr_ready _ _ _ H1) HN)|].
    { intros u Hu. rewrite H2, lookup_delete_ne; [apply HL; by right|]. by intros ->. }
    intros r s' (new & -> & K1 & K2 & K3). exists (MkValidatorUpdate (ConsPubKey V) 0 :: new).
    split; [by rewrite <-app_assoc|]. split; [by apply (progress_trans [_] new _ _ _ H1)|]. split; [done|].
    intros u. rewrite K3, H2. destruct (decide (u ∈ l)) as [Hu|Hu]; [by rewrite decide_True by (by right)|].
    rewrite lookup_delete. destruct (decide (v = u)) as [<-|Hvu]; [by rewrite decide_True by left|].
    rewrite decide_False; [done|]. by intros [?|?]%elem_of_cons.
Qed.

(** The candidates, in the order of the index. *)
Lemma ranked_spec s : ready s → NoDup (ValidatorsPowerStoreIterator s) ∧
  ∀ v, v ∈ ValidatorsPowerStoreIterator s ↔ ∃ V, validators s !! v = Some V ∧ Jailed V = false.
Proof.
  intros HR. unfold ValidatorsPowerStoreIterator, ranked. pose proof (vi_power WInv _ HR) as HI. cbn in HI.
  pose proof (merge_sort_Permutation rank_le (map_to_list (powerIndex s))) as Hsort. split.
  - apply NoDup_fmap_2_strong; [|rewrite Hsort; apply NoDup_map_to_list]. intros [k u] [k' u'] Hk Hk'. cbn. intros <-. rewrite Hsort in Hk, Hk'.
    apply elem_of_map_to_list, HI in Hk as (V & HV & _ & ->). apply elem_of_map_to_list, HI in Hk' as (V' & HV' & _ & ->). congruence.
  - intros v. rewrite list_elem_of_fmap. split.
    + intros ([k u] & -> & Hk). rewrite Hsort in Hk. apply elem_of_map_to_list, HI in Hk as (V & HV & HJ & _). by exists V.
    + intros (V & HV & HJ). exists (GetValidatorsByPowerIndexKey V, v). split; [done|]. rewrite Hsort. apply elem_of_map_to_list, HI. by exists V.
Qed.

Definition elected_set s : list ValAddress := elected (ValidatorsPowerStoreIterator s) (Z.to_nat (MaxValidators (params s))) s.

Lemma elected_NoDup keys n s : NoDup keys → NoDup (elected keys n s).
Proof.
  revert n. induction keys as [|v keys IH]; intros [|n] HN; cbn; try constructor. apply NoDup_cons in HN as [Hv HN].
  destruct (validators s !! v); [|constructor]. case_match; [constructor|]. apply NoDup_cons. split; [by intros ?%elected_in|by apply IH].
Qed.

(** The sum of a map that is known by its keys. *)
Lemma msum_known (m : gmap ValAddress Z) (f : ValAddress → Z) l : NoDup l →
  (∀ v, m !! v = if decide (v ∈ l) then Some (f v) else None) → msum id m = zsum (f <$> l).
Proof.
  intros HN Hm. rewrite (msum_over id m (list_to_set l)).
  - rewrite (zsum_perm _ _ (fmap_Permutation _ _ _ (elements_list_to_set l HN))). f_equal. apply list_fmap_ext.
    intros i v Hi%list_elem_of_lookup_2. rewrite Hm, decide_True by done. done.
  - intros v Hv. rewrite elem_of_list_to_set. apply elem_of_dom in Hv as [x Hx]. rewrite Hm in Hx. by case_decide.
Qed.

(** The fields that no election touches. *)
Definition frame s := (abandoned s, epoch s, endOfLastEpoch s).

Lemma apply_runs ctx s : vinv s → runs (ApplyAndReturnValidatorSetUpdates ctx) s (λ ups s',
  vinv s' ∧ vstep s s' ∧ frame s' = frame s ∧ (∀ m, known m s → known (tells m ups) s') ∧
  ∀ v, lastPowers s' !! v = if decide (v ∈ elected_set s) then Some (power_of s v) else None).
Proof.
  intros HI. pose proof (ready_of s HI) as HR. destruct (ranked_spec s HR) as [HN HK]. unfold ApplyAndReturnValidatorSetUpdates.
  apply runs_bind, runs_gets, runs_bind, runs_gets, runs_bind, runs_gets, runs_bind.
  eapply runs_mono; [apply elect_runs; [done|done|intros v; apply HK|done]|]. cbv zeta. fold (elected_set s).
  set (l := elected_set s). intros _ s1 (last' & n1 & -> & [H1 H2 H3 H4] & H5). cbn.
  assert (∀ v, v ∈ sortNoLongerBonded last' ↔ v ∉ l ∧ is_Some (lastPowers s !! v)) as Hno.
  { intros v. unfold sortNoLongerBonded. rewrite elem_of_set_sorted, elem_of_dom, H5. case_decide as Hv; [|naive_solver].
    split; [by intros []|]. by intros []. }
  apply runs_bind. eapply runs_mono; [apply retire_runs; [apply H1|apply NoDup_set_sorted|]|].
  { intros v [Hv Hs]%Hno. by rewrite H3, decide_False. }
  intros _ s2 (n2 & -> & K1 & K2 & K3). pose proof (progress_trans _ _ _ _ _ H1 K1) as [P1 P2 P3 P4].
  assert (∀ v, lastPowers s2 !! v = if decide (v ∈ l) then Some (power_of s v) else None) as Hfin.
  { intros v. rewrite K3, H3. destruct (decide (v ∈ l)) as [Hv|Hv]; [by rewrite decide_False by (by intros [? _]%Hno)|].
    case_decide as Hv'; [done|]. rewrite Hno in Hv'. apply eq_None_not_Some. naive_solver. }
  injection P3 as F1 F2 F3 F4.
  assert (msum id (lastPowers s2) = 0 + powers_of s l) as Esum.
  { rewrite (msum_known _ (power_of s) l); [done|by apply elected_NoDup|done]. }
  cbn beta. apply runs_bind. destruct (n1 ++ n2) as [|u n] eqn:En; cbn [length].
  - apply runs_ret, runs_ret. apply app_eq_nil in En as [-> ->]. assert (lastPowers s2 = lastPowers s) as EL0.
    { apply map_eq. intros v. rewrite K3, H4 by done. rewrite (K2 eq_refl). by rewrite decide_False by apply not_elem_of_nil. }
    assert (vinv s2) as HI2.
    { apply of_ready; [done|]. rewrite EL0. unfold GetLastTotalPower. rewrite F1. apply (vi_total WInv s HI). }
    split; [done|]. split; [done|]. split; [unfold frame; congruence|]. split; [|done]. intros m Hm. exact (P4 m Hm).
  - apply runs_modify, runs_ret. set (s3 := set_lastTotalPower _ s2).
    assert (vinv s3) as HI3 by (apply of_ready; [exact P1|cbn; by rewrite Esum]).
    split; [done|]. split; [by apply (vstep_same s s2); [|done|done|apply calm_refl, HI3]|]. split; [unfold frame; cbn; congruence|].
    split; [|done]. intros m Hm. exact (P4 m Hm).
Qed.

(** ** Discharging in between *)

Fixpoint promoted (lastBonded : gmap ValAddress Z) (keys : list ValAddress) (n : nat) s : list ValAddress :=
  match keys, n with
  | v :: keys', S n' =>
      if decide (is_Some (lastBonded !! v)) then promoted lastBonded keys' n s
      else if (power_of s v =? 0)%Z then promoted lastBonded keys' n s
      else v :: promoted lastBonded keys' n' s
  | _, _ => []
  end.

Lemma promoted_in lastBonded keys n s v : v ∈ promoted lastBonded keys n s → v ∈ keys.
Proof.
  revert n. induction keys as [|u keys IH]; intros [|n]; cbn; [by intros ?%elem_of_nil..|].
  case_decide; [intros Hv; right; by eapply IH|]. case_match; [intros Hv; right; by eapply IH|].
  intros [->|Hv]%elem_of_cons; [by left|right; by eapply IH].
Qed.

Lemma promoted_ext lastBonded keys n s s' : (∀ v, v ∈ keys → power_of s' v = power_of s v) →
  promoted lastBonded keys n s' = promoted lastBonded keys n s.
Proof.
  revert n. induction keys as [|v keys IH]; intros [|n] H; [done..|]. cbn. rewrite (H v ltac:(left)).
  rewrite !IH by (intros u Hu; apply H; by right). done.
Qed.

Lemma promote_done (keys : list ValAddress) ups s : ready s →
  runs (mret (ups, msum id (lastPowers s))) s (λ r s', ∃ new, r = (ups ++ new, msum id (lastPowers s')) ∧ progress new s s' ∧
    (∀ u, u ∉ keys → validators s' !! u = validators s !! u) ∧
    ∀ v, lastPowers s' !! v = if decide (v ∈ @nil ValAddress) then Some (power_of s v) else lastPowers s !! v).
Proof.
  intros HR. apply runs_ret. exists []. rewrite app_nil_r. split; [done|]. split; [by apply progress_refl|]. split; [done|].
  intros u. by rewrite decide_False by apply not_elem_of_nil.
Qed.

(** The loop that promotes candidates keeps [total] the sum of the powers. *)
Lemma promote_runs ctx lastBonded keys n ups tot s : ready s → NoDup keys →
  (∀ v, v ∈ keys → ∃ V, validators s !! v = Some V ∧ Jailed V = false) →
  (∀ v, v ∈ keys → lastBonded !! v = lastPowers s !! v) → tot = msum id (lastPowers s) →
  let l := promoted lastBonded keys n s in
  runs (promote ctx lastBonded keys n ups tot) s (λ r s', ∃ new, r = (ups ++ new, msum id (lastPowers s')) ∧ progress new s s' ∧
    (∀ u, u ∉ keys → validators s' !! u = validators s !! u) ∧
    ∀ v, lastPowers s' !! v = if decide (v ∈ l) then Some (power_of s v) else lastPowers s !! v).
Proof.
  revert n ups tot s. induction keys as [|v keys IH]; intros n ups tot s HR HN HK HL -> l.
  { by apply promote_done. }
  destruct n as [|n]; [by apply promote_done|].
  destruct (HK v ltac:(left)) as (V & HV & HJ). apply NoDup_cons in HN as [Hv HN].
  assert (power_of s v = PotentialConsensusPowerByShares V) as Epv by (unfold power_of; by rewrite HV).
  assert (∀ n, runs (promote ctx lastBonded keys n ups (msum id (lastPowers s))) s (λ r s', ∃ new, r = (ups ++ new, msum id (lastPowers s')) ∧ progress new s s' ∧
    (∀ u, u ∉ v :: keys → validators s' !! u = validators s !! u) ∧
    ∀ u, lastPowers s' !! u = if decide (u ∈ promoted lastBonded keys n s) then Some (power_of s u) else lastPowers s !! u)) as Hskip.
  { intros k. eapply runs_mono; [apply IH; try done; intros u Hu; [apply HK|apply HL]; by right|].
    intros r s' (new & -> & H1 & H2 & H3). exists new. split; [done|]. split; [done|]. split; [|done].
    intros u Hu. apply H2. intros ?. apply Hu. by right. }
  unfold l. cbn [promote promoted]. destruct (decide (is_Some (lastBonded !! v))) as [Hs|Hs]; [apply Hskip|].
  unfold mustGetValidator, GetValidator. apply runs_bind, runs_bind, runs_gets. rewrite HV. eapply runs_lift; [done|].
  rewrite Epv. destruct (PotentialConsensusPowerByShares V =? 0)%Z eqn:Ep; [apply Hskip|]. apply Z.eqb_neq in Ep.
  set (x := PotentialConsensusPowerByShares V) in *.
  assert (lastPowers s !! v = None) as Hn.
  { rewrite <-HL by left. by apply eq_None_not_Some. }
  assert (Status V ≠ Bonded) as Hst.
  { intros E. assert (is_Some (lastPowers s !! v)) as [? ?]; [|congruence]. apply (vi_last WInv _ HR v). by exists V. }
  apply runs_bind. eapply runs_mono; [by apply (join_runs ctx v V)|]. intros V' s1 (-> & [H1 EL0 EV0 _]).
  change (ConsensusPowerByShares (set_Status Bonded V)) with x. cbv zeta. apply runs_bind, runs_modify.
  change (ABCIValidatorUpdateByShares (set_Status Bonded V)) with (MkValidatorUpdate (ConsPubKey V) x).
  fold x in H1. set (s2 := set_lastPowers (<[v := x]> (lastPowers s1)) s1) in *.
  assert (lastPowers s2 = <[v := x]> (lastPowers s)) as EL2 by (unfold s2; cbn; by rewrite EL0).
  assert (∀ u, u ∈ keys → u ≠ v) as Hkv by (by intros u Hu ->).
  eapply runs_mono; [apply (IH n (ups ++ _) _ s2 (pr_ready _ _ _ H1) HN)|].
  - intros u Hu. cbn. rewrite EV0 by auto. apply HK. by right.
  - intros u Hu. rewrite EL2, lookup_insert_ne by (apply not_eq_sym; auto). apply HL. by right.
  - rewrite EL2, msum_insert, Hn. cbn. lia.
  - cbv zeta. assert (∀ u, u ≠ v → power_of s2 u = power_of s u) as Hpw by (intros u Hu; unfold power_of; cbn; by rewrite EV0).
    rewrite (promoted_ext _ _ _ s s2) by (intros u Hu; auto).
    intros r s' (new & -> & K1 & K2 & K3). exists (MkValidatorUpdate (ConsPubKey V) x :: new).
    split; [by rewrite <-app_assoc|]. split; [by apply (progress_trans [_] new _ _ _ H1)|]. split.
    + intros u Hu. rewrite K2 by (intros ?; apply Hu; by right). apply EV0. intros ->. apply Hu. by left.
    + intros u. rewrite K3, EL2. destruct (decide (u ∈ promoted lastBonded keys n s)) as [Hu|Hu].
      * rewrite decide_True by (by right). f_equal. apply Hpw. by apply Hkv, (promoted_in _ _ _ _ _ Hu).
      * rewrite lookup_insert. destruct (decide (v = u)) as [<-|Hvu]; [rewrite decide_True by left; by rewrite Epv|].
        rewrite decide_False; [done|]. by intros [?|?]%elem_of_cons.
Qed.

Lemma discharge_runs ctx (lastBonded : gmap ValAddress Z) l ups tot s : ready s → (∀ v, v ∈ l → is_Some (validators s !! v)) →
  (∀ v, v ∈ l → is_Some (lastPowers s !! v) → lastBonded !! v = lastPowers s !! v) → tot = msum id (lastPowers s) →
  runs (discharge ctx lastBonded l ups tot) s (λ r s', ∃ new, r = (ups ++ new, msum id (lastPowers s')) ∧ progress new s s' ∧
    ∀ v, lastPowers s' !! v = if decide (v ∈ l) then None else lastPowers s !! v).
Proof.
  revert ups tot s. induction l as [|v l IH]; intros ups tot s HR HK HL ->; cbn [discharge].
  { apply runs_ret. exists []. rewrite app_nil_r. split; [done|]. split; [by apply progress_refl|].
    intros u. by rewrite decide_False by apply not_elem_of_nil. }
  destruct (HK v ltac:(left)) as [V HV]. unfold mustGetValidator, GetValidator. apply runs_bind, runs_bind, runs_gets. rewrite HV.
  eapply runs_lift; [done|]. destruct (decide (Status V = Bonded)) as [Hst|Hst].
  - rewrite Hst. apply runs_bind. eapply runs_mono; [by apply leave_runs|]. intros V' s1 (_ & _ & [H1 H2 H3 H4]).
    destruct (vi_op WInv _ HR v V HV) as [-> _]. apply runs_bind, runs_modify. set (s2 := set_lastPowers _ s1) in *.
    assert (is_Some (lastPowers s !! v)) as Hv by (apply (vi_last WInv _ HR v); by exists V).
    apply runs_bind. rewrite HL by (done || left). destruct Hv as [x Hx]. rewrite Hx. eapply runs_lift; [done|].
    unfold ABCIValidatorUpdateZero. eapply runs_mono; [apply (IH _ _ s2 (pr_ready _ _ _ H1))|].
    + intros u Hu. destruct (decide (u = v)) as [->|Huv]; [destruct H4 as (U & HU & _); by eexists|]. rewrite H3 by done. apply HK. by right.
    + intros u Hu. rewrite H2, lookup_delete. case_decide; [by intros []|]. intros Hs. apply HL; [by right|done].
    + rewrite H2, msum_delete, Hx. cbn. lia.
    + intros r s' (new & -> & K1 & K2). exists (MkValidatorUpdate (ConsPubKey V) 0 :: new).
      split; [by rewrite <-app_assoc|]. split; [by apply (progress_trans [_] new _ _ _ H1)|].
      intros u. rewrite K2, H2. destruct (decide (u ∈ l)) as [Hu|Hu]; [by rewrite decide_True by (by right)|].
      rewrite lookup_delete. destruct (decide (v = u)) as [<-|Hvu]; [by rewrite decide_True by left|].
      rewrite decide_False; [done|]. by intros [?|?]%elem_of_cons.
  - assert (lastPowers s !! v = None) as Hn.
    { apply eq_None_not_Some. intros (U & HU & HS)%(vi_last WInv _ HR). cbn in HU. congruence. }
    assert (runs (discharge ctx lastBonded l ups (msum id (lastPowers s))) s (λ r s', ∃ new, r = (ups ++ new, msum id (lastPowers s')) ∧
      progress new s s' ∧ ∀ u, lastPowers s' !! u = if decide (u ∈ v :: l) then None else lastPowers s !! u)).
    { eapply runs_mono; [apply IH; try done; intros u Hu; [apply HK|apply HL]; by right|].
      intros r s' (new & -> & K1 & K2). exists new. split; [done|]. split; [done|]. intros u. rewrite K2.
      destruct (decide (u ∈ l)) as [Hu|Hu]; [by rewrite decide_True by (by right)|].
      destruct (decide (u = v)) as [->|Huv]; [by rewrite decide_True by left|]. rewrite decide_False; [done|]. by intros [?|?]%elem_of_cons. }
    destruct (Status V); done.
Qed.

Definition promoted_set s : list ValAddress :=
  promoted (lastPowers s) (ValidatorsPowerStoreIterator s) (length (abandoned s)) s.

Lemma kickout_runs ctx s : vinv s → jailed_inv s → runs (KickOutAndReturnValidatorSetUpdates ctx) s (λ ups s',
  vinv s' ∧ vstep s s' ∧ frame s' = frame s ∧ (∀ m, known m s → known (tells m ups) s') ∧
  ∀ v, lastPowers s' !! v = if decide (v ∈ abandoned s) then None
    else if decide (v ∈ promoted_set s) then Some (power_of s v) else lastPowers s !! v).
Proof.
  intros HI HJ. pose proof (ready_of s HI) as HR. destruct (ranked_spec s HR) as [HN HK]. unfold KickOutAndReturnValidatorSetUpdates.
  apply runs_bind, runs_gets, runs_bind, runs_gets, runs_bind, runs_gets, runs_bind, runs_gets, runs_bind.
  eapply runs_mono; [apply promote_runs; [done|done|intros v; apply HK|done|apply (vi_total WInv s HI)]|].
  cbv zeta. fold (promoted_set s). set (l := promoted_set s). intros _ s1 (n1 & -> & H1 & H2 & H3). cbv beta iota.
  unfold getAbandonedValidatorAddrs. set (A := abandoned s).
  assert (∀ v, v ∈ A → v ∉ ValidatorsPowerStoreIterator s ∧ is_Some (validators s !! v)) as HA.
  { intros v Hv. destruct (vi_abandoned WInv s HI v Hv) as (V & HV & _). split; [|by eexists].
    intros (V' & HV' & HJ')%HK. pose proof (HJ v V' Hv HV'). congruence. }
  assert (∀ v, v ∈ A → v ∉ l) as HAl by (intros v Hv Hl%promoted_in; by apply (HA v Hv)).
  apply runs_bind. eapply runs_mono; [apply discharge_runs; [apply H1|..|done]|].
  { intros v Hv. destruct (HA v Hv) as [Hk Hs]. by rewrite H2. }
  { intros v Hv _. by rewrite H3, decide_False by auto. }
  intros _ s2 (n2 & -> & K1 & K2). pose proof (progress_trans _ _ _ _ _ H1 K1) as [P1 P2 P3 P4]. injection P3 as F1 F2 F3 F4.
  apply runs_bind, runs_modify, runs_ret. set (s3 := set_lastTotalPower _ s2).
  assert (vinv s3) as HI3 by (by apply of_ready).
  split; [done|]. split; [by apply (vstep_same s s2); [|done|done|apply calm_refl, HI3]|]. split; [unfold frame; cbn; congruence|].
  split; [intros m Hm; exact (P4 m Hm)|]. intros v. cbn. rewrite K2, H3. repeat case_decide; done.
Qed.
End block.

End StakingBlock.
