(* ===== verification/StakingEnd.v ===== *)
(** * The end of a block: what has come due

    Validators whose unbonding time is over, undelegations that are due, and the end of
    a block as a whole. *)

From S2P Require Import Prelude Runs SdkDec SdkCoins GoStd CoinFacts Common StakingErrors Token Staking StakingSpec.
From S2P Require Import StakingShares StakingMoney StakingMsgs StakingHandlers StakingBlock.

#[local] Open Scope Z_scope.

Module StakingEnd.
Import Staking StakingSpec StakingShares StakingMoney StakingMsgs StakingHandlers StakingBlock.

Section ends.
Context `{DO : Dec.Ops} `{DL : !Dec.Laws} `{CO : Coins.Ops} `{CL : !Coins.Laws} `{BO : Bank.Ops} `{BL : !Bank.Laws}
  `{SO : !SupplyOps} `{SL : !SupplyLaws} `{EV : Env} `{EL : !EnvLaws} {W : Type} `{AP : !App W}
  (WInv : W → Prop) (protected : AccAddress → Prop) `{AL : !AppLaws WInv protected}.
Implicit Types (w : W) (s : StakingState W) (V : Validator) (v : ValAddress) (a p : AccAddress).

Abbreviation MS := (M (StakingState W)) (only parsing).
Abbreviation vinv := (val_inv WInv) (only parsing).
Abbreviation quiet := (calm WInv protected) (only parsing).
Abbreviation minv := (money_inv protected) (only parsing).
Abbreviation sinv := (staking_inv WInv protected) (only parsing).
Abbreviation vst := (vstep WInv protected) (only parsing).
Abbreviation kept := (λ s s', sinv s' ∧ surplus s' = surplus s) (only parsing).

(** ** Mature validators *)

(** A slice of the queue of which [l] is left to do. *)
Definition view (t : Z) (l : list ValAddress) s : StakingState W :=
  set_validatorQueue (<[t := l]> (validatorQueue s)) s.

Lemma vinv_queue (Q1 Q2 : gmap Z (list ValAddress)) s : (∀ t, default [] (Q1 !! t) = default [] (Q2 !! t)) →
  vinv (set_validatorQueue Q1 s) → vinv (set_validatorQueue Q2 s).
Proof.
  intros E [I1 I2 I3 I4 I5 I6 I7 I8 I9]. split; try done; unfold GetValidatorQueueTimeSlice in *; cbn in *; intros t; rewrite <-E; done.
Qed.

(** What a part of the loop leaves alone. *)
Record matured s s' : Prop := {
  ma_step : vst s s';
  ma_frame : frame s' = frame s;
  ma_last : lastPowers s' = lastPowers s;
}.

Lemma matured_refl s : WInv (world s) → matured s s.
Proof. intros HW. split; [by apply vstep_refl|done|done]. Qed.

Lemma matured_trans s1 s2 s3 : matured s1 s2 → matured s2 s3 → matured s1 s3.
Proof. intros [A1 B1 C1] [A2 B2 C2]. split; [by eapply vstep_trans|congruence|congruence]. Qed.

Lemma unbond_one_runs ctx t v l s : vinv (view t (v :: l) s) → abandoned s = [] →
  runs (unbond_one ctx v) s (λ _ s', vinv (view t l s') ∧ matured s s' ∧ validatorQueue s' = validatorQueue s).
Proof.
  intros HI HA. set (s0 := view t (v :: l) s) in *.
  assert (GetValidatorQueueTimeSlice t s0 = v :: l) as Esl by (unfold GetValidatorQueueTimeSlice; cbn; by rewrite lookup_insert_eq).
  assert (v ∈ GetValidatorQueueTimeSlice t s0) as Hv by (rewrite Esl; left).
  apply (vi_queue WInv s0 HI t v) in Hv as (V & HV & Hst & Ht). cbn in HV.
  destruct (vi_op WInv s0 HI v V HV) as [Ho Htok]. pose proof (vi_nodup WInv s0 HI t) as HN. rewrite Esl in HN.
  apply NoDup_cons in HN as [Hvl HN].
  unfold unbond_one, mustGetValidator, GetValidator. apply runs_bind, runs_bind, runs_gets. rewrite HV. eapply runs_lift; [done|].
  unfold unbondingToUnbonded, IsUnbonding. rewrite Hst, bool_decide_true by done. cbn [negb]. cbv iota.
  set (V' := set_Status Unbonded V). apply runs_bind, runs_bind, runs_modify, runs_ret. cbn beta. fold V'. change (OperatorAddress V') with (OperatorAddress V). rewrite Ho.
  set (s1 := set_validators (<[v := V']> (validators s)) s).
  assert (ready WInv (set_lastPowers (lastPowers s) (set_validatorQueue (<[t := l]> (validatorQueue s)) (rewrite_val v (Some V') s0)))) as HR.
  { apply (restatus WInv v V); try done.
    - by apply ready_of.
    - split; [intros (U & HU & HS)%(vi_last WInv s0 HI); cbn in HU; congruence|done].
    - intros t' u. destruct (decide (t = t')) as [<-|Htt].
      + rewrite lookup_insert_eq, Esl. case_decide as Eu; [subst u; split; [done|by intros []]|]. cbn. rewrite elem_of_cons. naive_solver.
      + rewrite lookup_insert_ne by done. unfold GetValidatorQueueTimeSlice. cbn. rewrite lookup_insert_ne by done.
        case_decide as Eu; [|done]. subst u. split; [|by intros []]. intros Hin.
        assert (v ∈ GetValidatorQueueTimeSlice t' s0) as Hin' by (unfold GetValidatorQueueTimeSlice; cbn; by rewrite lookup_insert_ne).
        destruct Htt. apply (vi_queue WInv s0 HI) in Hin' as (U & HU & _ & <-). cbn in HU. congruence.
    - intros t'. destruct (decide (t = t')) as [<-|Htt]; [by rewrite lookup_insert_eq|]. rewrite lookup_insert_ne by done.
      pose proof (vi_nodup WInv s0 HI t') as HN'. unfold GetValidatorQueueTimeSlice in HN'. cbn in HN'. by rewrite lookup_insert_ne in HN'.
    - cbn. rewrite HA. by intros ?%elem_of_nil. }
  assert (vinv (view t l s1)) as HI1.
  { apply of_ready; [|apply (vi_total WInv s0 HI)]. unfold rewrite_val in HR. change (validators s0 !! v) with (validators s !! v) in HR. rewrite HV in HR.
    change (powerIndex s0) with (powerIndex s) in HR. rewrite (reindex_same WInv s0 v V V' HI HV Ho eq_refl eq_refl : reindex (Some V) (Some V') (powerIndex s) = powerIndex s) in HR.
    exact HR. }
  assert (matured s s1) as Hm1.
  { split; [by apply (vstep_put WInv protected v V V' s (vi_world WInv s0 HI))|done|done]. }
  rewrite !Dec.IsZero_spec. change (DelegatorShares V') with (DelegatorShares V). change (vMinSelfDelegation V') with (vMinSelfDelegation V).
  destruct ((DelegatorShares V =? 0) && (vMinSelfDelegation V =? 0))%Z eqn:Ez; [|by apply runs_ret].
  apply andb_true_iff in Ez as [Ez1%Z.eqb_eq Ez2%Z.eqb_eq].
  eapply runs_mono; [apply (remove_runs_queue WInv protected ctx v V' s1 _ HI1); [cbn; by rewrite lookup_insert_eq|done]|].
  intros _ s' (w' & -> & Hq & HI'). split; [exact HI'|]. split; [|done]. eapply matured_trans; [exact Hm1|]. split; [|done|done]. split; [exact Hq|done|].
  intros u. cbn. rewrite lookup_upd. case_decide as Eu.
  - subst u. rewrite lookup_insert_eq. by intros ? [= <-].
  - destruct (<[v:=V']> (validators s) !! u) as [U|]; [by exists U|done].
Qed.

Lemma slice_runs ctx t l s : vinv (view t l s) → abandoned s = [] →
  runs (mapM_ (unbond_one ctx) l) s (λ _ s', vinv (view t [] s') ∧ matured s s' ∧ validatorQueue s' = validatorQueue s).
Proof.
  revert s. induction l as [|v l IH]; intros s HI HA; cbn [mapM_].
  - apply runs_ret. split; [done|]. split; [|done]. apply matured_refl, (vi_world WInv _ HI).
  - apply runs_bind. eapply runs_mono; [by apply (unbond_one_runs ctx t v l)|]. intros _ s1 (H1 & H2 & H3).
    pose proof (ma_frame _ _ H2) as Hf. injection Hf as Hf _ _.
    eapply runs_mono; [apply IH; [done|congruence]|]. intros _ s2 (K1 & K2 & K3). split; [done|].
    split; [by eapply matured_trans|congruence].
Qed.

Lemma slices_runs ctx (l : list (Z * list ValAddress)) s : vinv s → abandoned s = [] → NoDup (fst <$> l) →
  (∀ t x, (t, x) ∈ l → validatorQueue s !! t = Some x) →
  runs (mapM_ (λ slice : Z * list ValAddress, mapM_ (unbond_one ctx) (snd slice);; DeleteValidatorQueueTimeSlice (fst slice)) l) s
    (λ _ s', vinv s' ∧ matured s s' ∧ ∀ t, validatorQueue s' !! t = if decide (t ∈ fst <$> l) then None else validatorQueue s !! t).
Proof.
  revert s. induction l as [|[t x] l IH]; intros s HI HA HN HQ; cbn [mapM_].
  - apply runs_ret. split; [done|]. split; [apply matured_refl, (vi_world WInv _ HI)|]. intros t. by rewrite decide_False by apply not_elem_of_nil.
  - cbn in HN. apply NoDup_cons in HN as [Ht HN]. pose proof (HQ t x ltac:(left)) as Hx.
    apply runs_bind, runs_bind. cbn [fst snd]. eapply runs_mono; [apply (slice_runs ctx t x); [|done]|].
    { apply (vinv_queue (validatorQueue s)); [|by destruct s]. intros u. rewrite lookup_insert. case_decide; [subst; by rewrite Hx|done]. }
    intros _ s1 (H1 & H2 & H3). apply runs_modify. set (s2 := set_validatorQueue _ s1).
    assert (vinv s2) as HI2.
    { apply (vinv_queue (<[t := []]> (validatorQueue s1))); [|exact H1]. intros u. rewrite lookup_insert, lookup_delete. by case_decide. }
    pose proof (ma_frame _ _ H2) as Hf. injection Hf as Hf _ _.
    assert (matured s s2) as Hm.
    { eapply matured_trans; [exact H2|]. split; [|done|done]. eapply vstep_same; [apply vstep_refl, HI2|done|done|apply calm_refl, HI2]. }
    eapply runs_mono; [apply IH; [done|cbn; congruence|done|]|].
    + intros u y Hy. cbn. rewrite H3, lookup_delete_ne; [apply HQ; by right|]. intros ->. apply Ht. apply list_elem_of_fmap. by exists (u, y).
    + intros _ s3 (K1 & K2 & K3). split; [done|]. split; [by eapply matured_trans|]. intros u. rewrite K3. cbn. rewrite H3, lookup_delete.
      destruct (decide (u ∈ fst <$> l)) as [Hu|Hu]; [by rewrite decide_True by (by right)|].
      destruct (decide (t = u)) as [<-|Htu]; [by rewrite decide_True by left|]. rewrite decide_False; [done|]. by intros [?|?]%elem_of_cons.
Qed.

Lemma unbond_all_runs ctx s : vinv s → abandoned s = [] → runs (UnbondAllMatureValidatorQueue ctx) s (λ _ s',
  vinv s' ∧ matured s s' ∧ ∀ v V, validators s' !! v = Some V → Status V = Unbonding → BlockTime ctx < UnbondingCompletionTime V).
Proof.
  intros HI HA. unfold UnbondAllMatureValidatorQueue. apply runs_bind, runs_gets.
  set (l := ValidatorQueueIterator (BlockTime ctx) s).
  assert (l ≡ₚ filter (λ kx : Z * list ValAddress, fst kx ≤ BlockTime ctx) (map_to_list (validatorQueue s))) as Hl by apply merge_sort_Permutation.
  assert (∀ t x, (t, x) ∈ l ↔ t ≤ BlockTime ctx ∧ validatorQueue s !! t = Some x) as Hin.
  { intros t x. by rewrite Hl, list_elem_of_filter, elem_of_map_to_list. }
  eapply runs_mono; [apply slices_runs; [done|done| |intros t x ?%Hin; tauto]|].
  - rewrite Hl. apply NoDup_fmap_fst; [|apply NoDup_filter, NoDup_map_to_list].
    intros t x y Hx%list_elem_of_filter Hy%list_elem_of_filter. destruct Hx as [_ Hx%elem_of_map_to_list], Hy as [_ Hy%elem_of_map_to_list]. congruence.
  - intros _ s' (K1 & K2 & K3). split; [done|]. split; [done|]. intros v V HV Hst.
    assert (v ∈ GetValidatorQueueTimeSlice (UnbondingCompletionTime V) s') as Hq by (apply (vi_queue WInv s' K1); by exists V).
    unfold GetValidatorQueueTimeSlice in Hq. rewrite K3 in Hq. case_decide as Hd; [by apply elem_of_nil in Hq|].
    destruct (validatorQueue s !! UnbondingCompletionTime V) as [x|] eqn:Ex; [|by apply elem_of_nil in Hq].
    destruct (decide (BlockTime ctx < UnbondingCompletionTime V)); [done|]. destruct Hd. apply list_elem_of_fmap.
    exists (UnbondingCompletionTime V, x). split; [done|]. apply Hin. split; [lia|done].
Qed.

(** ** Undelegations *)

(** What an undelegation that is complete leaves. *)
Record completed (key : Z * AccAddress) s s' : Prop := {
  co_und : undelegations s' = delete (snd key) (undelegations s);
  co_time : timeQueue s' = timeQueue s ∖ {[key]};
  co_paid a : a ≠ notBondedAcc → bal s' a = bal s a + if decide (a = snd key) then from_option Quantity 0 (undelegations s !! a) else 0;
  co_rest : ∃ U T w', s' = set_timeQueue T (set_undelegations U (set_world w' s));
}.

(** The pool pays, and the undelegation and its key are deleted. *)
Lemma completed_inv key u s w' : sinv s → undelegations s !! snd key = Some u →
  transferred WInv (BondDenom (params s)) notBondedAcc (snd key) (Quantity u) (world s) w' →
  let s' := set_timeQueue (timeQueue s ∖ {[key]}) (set_undelegations (delete (snd key) (undelegations s)) (set_world w' s)) in
  kept s s' ∧ completed key s s'.
Proof.
  intros [HV HS HP HM HE HAb] Hu [Tw Tb Ta] s'. set (a := snd key) in *. destruct (mo_users _ s HM a) as [Huser _]; [right; right; by eexists|].
  destruct (user_own protected a Huser) as (_ & Hab & Han & _).
  pose proof (pools_differ (WInv:=WInv) (protected:=protected)) as Hpd.
  assert (bal s' notBondedAcc = bal s notBondedAcc - Quantity u) as En.
  { unfold bal. cbn. rewrite Tb, decide_True, decide_False by congruence. lia. }
  assert (bal s' bondedAcc = bal s bondedAcc) as Eb.
  { unfold bal. cbn. rewrite Tb, !decide_False by congruence. lia. }
  assert (surplus s' = surplus s) as Es.
  { unfold surplus. rewrite En. cbn. rewrite msum_delete, Hu. cbn. lia. }
  split; [split; [|done]; split|split].
  - by apply (vinv_same _ s).
  - destruct HS. by split.
  - destruct HP. by split.
  - destruct HM as [M1 M2 M3 M4 M5 M6]. split; try done; [by rewrite Eb|by rewrite Es|..].
    + intros b x. cbn. rewrite lookup_delete_Some. intros [Hb Hx]. destruct (M5 b x Hx) as (?&?&?). split; [done|]. split; [done|].
      unfold s'. cbn. apply elem_of_difference. split; [done|]. intros <-%elem_of_singleton. by apply Hb.
    + intros b Hb. destruct (M6 b) as [H1 H2].
      * destruct Hb as [Hb|[Hb|Hb]]; [by left|by right; left|]. right; right. destruct Hb as [x Hx]. cbn in Hx. apply lookup_delete_Some in Hx as [_ Hx]. by eexists.
      * split; [done|by apply Ta].
  - done.
  - done.
  - done.
  - done.
  - intros b Hb. unfold bal. cbn. rewrite Tb, decide_False by done. fold a. case_decide as E; [subst b; rewrite Hu; cbn; lia|lia].
  - by eexists _, _, _.
Qed.

(** A key without an undelegation is deleted. *)
Lemma stale_key_inv key s : sinv s → undelegations s !! snd key = None →
  let s' := set_timeQueue (timeQueue s ∖ {[key]}) s in kept s s' ∧ completed key s s'.
Proof.
  intros [HV HS HP HM HE HAb] Hu s'. split; [split; [|done]; split|split].
  - by apply (vinv_same _ s); [|apply HV|].
  - destruct HS. by split.
  - destruct HP. by split.
  - destruct HM as [M1 M2 M3 M4 M5 M6]. split; try done. intros b x Hx. destruct (M5 b x Hx) as (?&?&?). split; [done|]. split; [done|].
    unfold s'. cbn. apply elem_of_difference. split; [done|]. intros <-%elem_of_singleton. cbn in Hu, Hx. congruence.
  - done.
  - done.
  - cbn. by rewrite delete_id.
  - done.
  - intros b Hb. change (bal s' b) with (bal s b). case_decide as E; [subst b; rewrite Hu; cbn; lia|lia].
  - exists (undelegations s), (timeQueue s ∖ {[key]}), (world s). by destruct s.
Qed.

Lemma complete_due key s : sinv s → runs (complete_one key) s (λ _ s', kept s s' ∧ completed key s s').
Proof.
  intros HI. pose proof HI as [HV HS HP HM HE HAb]. destruct key as [t a]. unfold complete_one. cbn [fst snd].
  apply runs_bind, runs_modify. set (s1 := set_timeQueue _ s). apply runs_bind. unfold catch. unfold runs at 1.
  destruct (undelegations s !! a) as [u|] eqn:Hu.
  - destruct (mo_und _ s HM a u Hu) as (Ha & Hq & _). destruct (mo_users _ s HM a) as [Huser Hacc]; [right; right; by eexists|].
    destruct (user_own protected a Huser) as (Hown & _).
    assert (Quantity u ≤ bal s notBondedAcc) as Hle.
    { assert (Quantity u ≤ msum Quantity (undelegations s)).
      { apply (msum_le Quantity _ a); [|done]. intros b x Hx. by apply Z.lt_le_incl, (mo_und _ s HM b x Hx). }
      pose proof (mo_surplus _ s HM) as Hs. unfold surplus in Hs. lia. }
    assert (Coins.ValidDenom (BondDenom (params s)) = true) as Hd by (rewrite (mo_denom _ s HM); apply Coins.DefaultBondDenom_valid).
    set (c := MkCoin (BondDenom (params s)) (Quantity u)).
    destruct (undelegate_total NotBondedPoolName a [c] (bank (world s))) as [b Eb].
    { apply Coins.IsValid_spec. split; [apply sorted_coins_single|]. by apply Forall_singleton. }
    { done. }
    { intros d. rewrite amt_single. unfold coin_amt. case_decide as E; [by subst d|]. apply Bank.balance_nonneg. }
    assert (transferred WInv (BondDenom (params s)) notBondedAcc a (Quantity u) (world s) (set_bank b (world s))) as Htr.
    { destruct (undelegate_ok _ _ _ _ _ Eb) as [Hmv _]. apply (moved_transferred WInv protected _ _ _ [c]); try done; [apply HV|apply (own_pools WInv protected)|..].
      - rewrite amt_single. apply coin_amt_eq.
      - intros x. by apply (undelegate_account _ _ _ _ _ _ Eb). }
    pose proof (completed_inv (t, a) u s _ HI Hu Htr) as Hc. cbn [snd] in Hc.
    assert (CompleteUndelegation a s1 = (Ok (Quantity u), set_timeQueue (timeQueue s ∖ {[(t, a)]})
      (set_undelegations (delete a (undelegations s)) (set_world (set_bank b (world s)) s)))) as E.
    { unfold CompleteUndelegation, GetUndelegating, DeleteUndelegating, on_supply, zoom, or_throw, or_panic, lift, gets, modify, mret, M_ret, mbind, M_bind.
      cbn. rewrite Hu. cbn. rewrite Coins.NewDecCoinFromDec_ok by (done || lia). cbn. rewrite Ha. fold c. by rewrite Eb. }
    eexists _, _. rewrite E. split; [done|]. by apply runs_ret.
  - pose proof (stale_key_inv (t, a) s HI Hu) as Hc. cbn [snd] in Hc.
    assert (CompleteUndelegation a s1 = (Err StakingErr.ErrNotInDelegating, s1)) as E.
    { unfold CompleteUndelegation, GetUndelegating, or_throw, gets, mbind, M_bind. cbn. by rewrite Hu. }
    eexists _, _. rewrite E. split; [done|]. by apply runs_ret.
Qed.

(** All keys that are due. *)
Definition due_of (l : list (Z * AccAddress)) s a : Z :=
  if decide (a ∈ snd <$> l) then from_option Quantity 0 (undelegations s !! a) else 0.

Record completes (l : list (Z * AccAddress)) s s' : Prop := {
  cs_und a : undelegations s' !! a = if decide (a ∈ snd <$> l) then None else undelegations s !! a;
  cs_time k : k ∈ timeQueue s' ↔ k ∈ timeQueue s ∧ k ∉ l;
  cs_paid a : a ≠ notBondedAcc → bal s' a = bal s a + due_of l s a;
  cs_rest : ∃ U T w', s' = set_timeQueue T (set_undelegations U (set_world w' s));
}.

Lemma complete_all_due l s : sinv s → runs (mapM_ complete_one l) s (λ _ s', kept s s' ∧ completes l s s').
Proof.
  revert s. induction l as [|k l IH]; intros s HI; cbn [mapM_].
  - apply runs_ret. split; [done|]. split.
    + intros a. by rewrite decide_False by apply not_elem_of_nil.
    + intros k. split; [|tauto]. split; [done|apply not_elem_of_nil].
    + intros a _. unfold due_of. rewrite decide_False by apply not_elem_of_nil. lia.
    + exists (undelegations s), (timeQueue s), (world s). by destruct s.
  - apply runs_bind. eapply runs_mono; [by apply complete_due|]. intros _ s1 ([H1 H2] & [C1 C2 C3 C4]).
    eapply runs_mono; [by apply IH|]. intros _ s2 ([K1 K2] & [D1 D2 D3 D4]). split; [split; [done|congruence]|].
    assert (∀ a, undelegations s1 !! a = if decide (a = snd k) then None else undelegations s !! a) as E1.
    { intros a. rewrite C1, lookup_delete. destruct (decide (snd k = a)) as [<-|]; [by rewrite decide_True|by rewrite decide_False]. }
    split.
    + intros a. rewrite D1, E1. cbn. destruct (decide (a ∈ snd <$> l)) as [Ha|Ha]; [by rewrite decide_True by (by right)|].
      destruct (decide (a = snd k)) as [->|Hk]; [by rewrite decide_True by left|]. rewrite decide_False; [done|]. by intros [?|?]%elem_of_cons.
    + intros x. rewrite D2, C2, elem_of_difference, elem_of_singleton, elem_of_cons. naive_solver.
    + intros a Ha. rewrite D3, C3 by done. unfold due_of. rewrite E1. cbn.
      destruct (decide (a = snd k)) as [->|Hk]; [rewrite (decide_True (P := snd k ∈ snd k :: _)) by left; case_decide; cbn; lia|].
      destruct (decide (a ∈ snd <$> l)) as [Hl|Hl]; [rewrite decide_True by (by right); lia|].
      rewrite (decide_False (P := a ∈ _ :: _)); [lia|]. by intros [?|?]%elem_of_cons.
    + destruct C4 as (U1 & T1 & w1 & ->), D4 as (U2 & T2 & w2 & ->). by exists U2, T2, w2.
Qed.

(** ** The end of a block *)

(** The powers after the end of a block: those of the elected validators at the end of an
    epoch; otherwise the abandoned ones leave and as many candidates are promoted. *)
Definition next_power ctx s (v : ValAddress) : option Z :=
  match IsEndOfEpoch ctx s with
  | Ok true => if decide (v ∈ elected_set s) then Some (power_of s v) else None
  | _ => if decide (v ∈ abandoned s) then None
         else if decide (v ∈ promoted_set s) then Some (power_of s v) else lastPowers s !! v
  end.

Lemma no_promotion lastBonded keys s : promoted lastBonded keys 0 s = [].
Proof. by destruct keys. Qed.

Lemma updates_runs ctx s : sinv s → runs (validator_updates ctx) s (λ ups s',
  vinv s' ∧ vst s s' ∧ abandoned s' = [] ∧ 0 < GetEpoch s' ∧ (∀ m, known m s → known (tells m ups) s') ∧
  ∀ v, lastPowers s' !! v = next_power ctx s v).
Proof.
  intros [HV HS HP HM [HE1 HE2] HAb]. unfold validator_updates, next_power. apply runs_bind, runs_get.
  assert (∃ b, IsEndOfEpoch ctx s = Ok b) as [b Eb].
  { unfold IsEndOfEpoch. rewrite (proj2 (Z.eqb_neq _ _)) by lia. by eexists. }
  rewrite Eb. apply runs_bind. eapply runs_lift; [done|]. destruct b.
  - apply runs_bind. eapply (runs_mono _ _ (λ _ s1, ∃ e, s1 = set_epoch e s ∧ 0 < default DefaultEpoch e)).
    { destruct (GetEpoch s =? Epoch (params s))%Z; [apply runs_ret; exists (epoch s); by destruct s|].
      apply runs_modify. by exists (Some (Epoch (params s))). }
    intros _ s1 (e & -> & He). apply runs_bind, runs_modify. set (s1 := set_endOfLastEpoch _ _).
    assert (vinv s1) as HI1 by (by apply (vinv_same _ s); [|apply HV|]).
    apply runs_bind. eapply runs_mono; [by apply (apply_runs WInv protected)|]. intros ups s2 (H1 & H2 & H3 & H4 & H5).
    apply runs_bind, runs_modify, runs_ret. injection H3 as F1 F2 F3.
    split; [destruct H1; split; try done; by intros v ?%elem_of_nil|]. split.
    { apply (vstep_same WInv protected s s2); [|done|done|apply calm_refl, H1]. eapply vstep_trans; [|exact H2]. by eapply vstep_same; [apply vstep_refl, HV|done|done|apply calm_refl, HV]. }
    split; [done|]. split; [unfold GetEpoch; cbn; by rewrite F2|]. split; [intros m Hm; exact (H4 m Hm)|]. intros v.
    assert (elected_set s1 = elected_set s) as Ee by exact (elected_ext _ _ s s1 (λ _ _, eq_refl)). rewrite Ee in H5. exact (H5 v).
  - destruct (IsKickedOut s) eqn:Ek.
    + apply runs_bind. eapply runs_mono; [by apply (kickout_runs WInv protected)|]. intros ups s2 (H1 & H2 & H3 & H4 & H5).
      apply runs_bind, runs_modify, runs_ret. injection H3 as F1 F2 F3.
      split; [destruct H1; split; try done; by intros v ?%elem_of_nil|]. split; [by eapply vstep_same; [exact H2|done|done|apply calm_refl, H1]|].
      split; [done|]. split; [unfold GetEpoch in *; cbn; by rewrite F2|]. split; [intros m Hm; exact (H4 m Hm)|]. intros v. exact (H5 v).
    + apply runs_ret. unfold IsKickedOut, getAbandonedValidatorAddrs in Ek. apply negb_false_iff, Nat.eqb_eq, length_zero_iff_nil in Ek.
      split; [done|]. split; [by apply vstep_refl, HV|]. split; [done|]. split; [done|]. split; [done|]. intros v.
      unfold promoted_set. rewrite Ek. cbn [length]. rewrite no_promotion, !decide_False by apply not_elem_of_nil. done.
Qed.

(** Delegators' accounts do not pay in a step of the validators. *)
Lemma vstep_pays s s' a : vst s s' → ¬ protected a → bal s a ≤ bal s' a.
Proof.
  intros [A B _] Ha. destruct (kept_fields_eq _ _ B) as (_ & _ & _ & _ & _ & E). unfold bal. rewrite E. by apply (calm_pays _ _ _ _ A).
Qed.

Lemma known_mature m s s' : vinv s' → vst s s' → lastPowers s' = lastPowers s → known m s → known m s'.
Proof.
  intros HI [_ _ C] ELP HK k x. rewrite (HK k x). split; intros (v & V & HV & Ek & Hx).
  - destruct (proj1 (vi_last WInv s' HI v)) as (V' & HV' & _); [rewrite ELP; by eexists|]. specialize (C v). rewrite HV' in C.
    destruct C as (V0 & HV0 & E). injection E as _ _ _ E. exists v, V'. split; [done|]. split; [congruence|by rewrite ELP].
  - specialize (C v). rewrite HV in C. destruct C as (V0 & HV0 & E). injection E as _ _ _ E. exists v, V0. rewrite <-ELP.
    split; [done|]. split; [congruence|done].
Qed.

(** The undelegations that a block pays. *)
Definition due ctx s a : Z := due_of (getAddrByTimeKeyIterator (BlockTime ctx) s) s a.

Record block_done ctx s (ups : list ValidatorUpdate) s' : Prop := {
  bd_inv : sinv s';
  bd_surplus : surplus s' = surplus s;
  bd_known m : known m s → known (tells m ups) s';
  bd_powers v : lastPowers s' !! v = next_power ctx s v;
  bd_paid a : ¬ protected a → a ≠ notBondedAcc → bal s a + due ctx s a ≤ bal s' a;
  bd_waiting a u : undelegations s' !! a = Some u → undelegations s !! a = Some u ∧ BlockTime ctx < CompletionTime u;
  bd_unbonding v V : validators s' !! v = Some V → Status V = Unbonding → BlockTime ctx < UnbondingCompletionTime V;
}.

Lemma end_block_runs ctx s : sinv s → runs (EndBlocker ctx) s (block_done ctx s).
Proof.
  intros HI. unfold EndBlocker. apply runs_bind. eapply runs_mono; [by apply updates_runs|].
  intros ups s1 (H1 & H2 & H3 & H4 & H5 & H6). apply runs_bind. eapply runs_mono; [by apply unbond_all_runs|].
  intros _ s2 (K1 & [K2 K3 K4] & K5). injection K3 as F1 F2 F3. pose proof (vstep_trans _ _ _ _ _ H2 K2) as Hst.
  destruct (kept_fields_eq _ _ (vs_kept _ _ _ _ Hst)) as (_ & _ & EU & ET & _).
  destruct (vstep_inv WInv protected s s2 HI Hst K1) as [HI2 Hs2].
  { unfold GetEpoch in *. by rewrite F2. }
  { intros v V. rewrite F1, H3. by intros ?%elem_of_nil. }
  apply runs_bind. unfold IterateKeysBeforeCurrentTime. apply runs_bind, runs_gets.
  set (l := getAddrByTimeKeyIterator (BlockTime ctx) s2).
  assert (l = getAddrByTimeKeyIterator (BlockTime ctx) s) as El by (unfold l, getAddrByTimeKeyIterator; by rewrite ET).
  assert (∀ k, k ∈ l ↔ fst k ≤ BlockTime ctx ∧ k ∈ timeQueue s2) as Hl.
  { intros k. unfold l, getAddrByTimeKeyIterator. by rewrite merge_sort_Permutation, list_elem_of_filter, elem_of_elements. }
  eapply runs_mono; [by apply complete_all_due|]. intros _ s3 ([L1 L2] & [C1 C2 C3 C4]). apply runs_ret. split.
  - done.
  - congruence.
  - intros m Hm. assert (known (tells m ups) s2) as Hk by (apply (known_mature _ s1); auto).
    destruct C4 as (U & T & w' & ->). exact Hk.
  - intros v. rewrite <-H6, <-K4. by destruct C4 as (U & T & w' & ->).
  - intros a Ha Hn. rewrite C3 by done. pose proof (vstep_pays s s2 a Hst Ha). unfold due, due_of. rewrite <-El, EU. lia.
  - intros a u Hu. pose proof Hu as Hu'. rewrite C1 in Hu. case_decide as Hd; [done|]. rewrite EU in Hu. split; [done|].
    destruct (mo_und _ s3 (inv_money _ _ _ L1) a u Hu') as (_ & _ & Ht). apply C2 in Ht as [Ht Hnl].
    destruct (decide (BlockTime ctx < CompletionTime u)); [done|]. destruct Hnl. apply Hl. cbn. split; [lia|done].
  - intros v V HV. apply (K5 v). by destruct C4 as (U & T & w' & ->).
Qed.
End ends.

End StakingEnd.
