(* ===== verification/StakingImpl.v ===== *)
(** * Concrete instances of the interfaces of the staking module

    The supply keeper on top of [BankImpl], and the environment; both satisfy the laws of
    [StakingSpec].  The witnesses of the theorems on the staking module run on them. *)

From S2P Require Import Prelude Runs SdkDec SdkCoins GoStd CoinFacts Common StakingErrors Token Staking StakingSpec.

#[local] Open Scope Z_scope.

Module StakingImpl.
Import Staking StakingSpec.

#[local] Existing Instance Dec18.ops.
#[local] Existing Instance Dec18.dec_laws.
#[local] Existing Instance CoinsImpl.ops.
#[local] Existing Instance CoinsImpl.coins_laws.
#[local] Existing Instance BankImpl.ops.
#[local] Existing Instance BankImpl.bank_laws.

Definition has_account (b : BankImpl.st) (a : AccAddress) : bool := bool_decide (is_Some (BankImpl.accts b !! a)).

(** The two calls fail on an account that does not exist. *)
Definition if_account (a : AccAddress) (m : M BankImpl.st unit) : M BankImpl.st unit := λ b,
  if has_account b a then m b else (Err BankImpl.bank_error, b).

#[local] Instance supply : SupplyOps := {|
  HasAccount := has_account;
  DelegateCoinsFromAccountToModule a m c := if_account a (BankImpl.send a (BankImpl.mod_addr m) c);
  UndelegateCoinsFromModuleToAccount m a c := if_account a (BankImpl.send (BankImpl.mod_addr m) a c);
|}.

Lemma set_coins_account a c b x : has_account b x = true → has_account (BankImpl.set_coins a c b) x = true.
Proof.
  unfold has_account, BankImpl.set_coins. cbn. rewrite !bool_decide_eq_true. intros [y Hy].
  destruct (decide (a = x)) as [<-|Hne]; [rewrite lookup_insert_eq; by eexists|by rewrite lookup_insert_ne].
Qed.

Lemma send_keeps_account f t c b b' x : BankImpl.send f t c b = (Ok tt, b') → has_account b x = true → has_account b' x = true.
Proof.
  unfold BankImpl.send. destruct (Coins.IsValid c); [|done]. destruct (Coins.SafeSub _ c) as [r neg]. destruct neg; [done|].
  intros [= <-] H. by do 2 apply set_coins_account.
Qed.

#[local] Instance supply_laws : SupplyLaws.
Proof.
  split; unfold DelegateCoinsFromAccountToModule, UndelegateCoinsFromModuleToAccount, HasAccount, supply, if_account.
  - intros a m c b b'. destruct (has_account b a); [|done]. intros H.
    destruct (Bank.SendCoins_ok a (BankImpl.mod_addr m) c b b' H) as [H1 H2]. by split_and!.
  - intros a m c b b'. destruct (has_account b a); [|done]. apply (Bank.SendCoins_no_panic a (BankImpl.mod_addr m) c b b').
  - intros m a c b b'. destruct (has_account b a); [|done]. intros H.
    destruct (Bank.SendCoins_ok (BankImpl.mod_addr m) a c b b' H) as [H1 H2]. split; [done|]. intros d. apply H2.
  - intros m a c b e b'. destruct (has_account b a); [|by intros [= _ <-]].
    apply (Bank.SendCoins_err (BankImpl.mod_addr m) a c b e b').
  - intros m a c b b'. destruct (has_account b a); [|done]. apply (Bank.SendCoins_no_panic (BankImpl.mod_addr m) a c b b').
  - intros m a c b Hv ->. apply (Bank.ModuleSend_total m a c b Hv).
  - intros f t c b b' a. apply send_keeps_account.
  - intros f m c b b' a. destruct (has_account b f); [|done]. apply send_keeps_account.
  - intros m t c b b' a. destruct (has_account b t); [|done]. apply send_keeps_account.
Qed.

(** Powers in millionths of a share, and weights that double at every whole year. *)
#[local] Instance env : Env := {|
  pk_Address pk := "cons/" +:+ pk;
  pk_Type _ := "ed25519";
  PubKeyTypes := Some ["ed25519"];
  pk_Bytes pk := pk;
  PubKeyFromBytes bz := Some bz;
  bech32_ConvertAndEncode bz := Some bz;
  GetFromBech32 str := Some str;
  PowerReduction := 10 ^ 12;
  ValidatorUpdateDelay := 1;
  QuoInt x n := Z.quot x n;
  DecInt64 x := int64 x;
  pow_weight n := if decide (0 ≤ n) then Ok (2 ^ (n / 52) * Dec.unit) else Err Common.plain_error;
|}.

#[local] Instance env_laws : EnvLaws.
Proof.
  split; unfold pow_weight, env.
  - intros n Hn. rewrite decide_True by lia. by eexists.
  - intros k Hk. rewrite decide_True by lia. by rewrite (Z.mul_comm 52 k), Z.div_mul by lia.
  - intros n m w w' Hn. rewrite !decide_True by lia. intros [= <-] [= <-]. pose proof unit_pos.
    apply Z.mul_le_mono_nonneg_r; [lia|]. apply Z.pow_le_mono_r; [lia|]. apply Z.div_le_mono; lia.
  - intros n. by case_decide.
Qed.

End StakingImpl.
