(* ===== verification/StakingTheorems.v ===== *)
(** * Theorems on the staking module

    Every message keeps the staking module in order and the tokens covered; the end of a
    block always comes, tells Tendermint the new validator set and pays what is due; the
    registered invariants hold as long as no validator with a pending undelegation is
    destroyed, and break when one is. *)

From S2P Require Import Prelude Runs SdkDec SdkCoins GoStd CoinFacts Common StakingErrors Token Staking StakingSpec.
From S2P Require Import StakingShares StakingMoney StakingMsgs StakingHandlers StakingBlock StakingEnd Gov GovTally StakingImpl.

#[local] Open Scope Z_scope.

Module StakingTheorems.
Import Staking StakingSpec StakingShares StakingMoney StakingMsgs StakingHandlers StakingBlock StakingEnd.

Section theorems.
Context `{DO : Dec.Ops} `{DL : !Dec.Laws} `{CO : Coins.Ops} `{CL : !Coins.Laws} `{BO : Bank.Ops} `{BL : !Bank.Laws}
  `{SO : !SupplyOps} `{SL : !SupplyLaws} `{EV : Env} `{EL : !EnvLaws} {W : Type} `{AP : !App W}
  (WInv : W → Prop) (protected : AccAddress → Prop) `{AL : !AppLaws WInv protected}.
Implicit Types (w : W) (s : StakingState W) (V : Validator) (v : ValAddress) (a p : AccAddress).

Abbreviation MS := (M (StakingState W)) (only parsing).
Abbreviation vinv := (val_inv WInv) (only parsing).
Abbreviation sinv := (staking_inv WInv protected) (only parsing).

(** ** Messages *)

(** What a transaction has passed before its handler runs: the stateless check and the
    check of the signatures, in a block after the year 2000. *)
Definition admitted ctx msg : Prop :=
  ValidateBasic msg = Ok tt ∧ Forall (user protected) (GetSigners msg) ∧ blockTimestampEpoch ≤ Unix ctx.

(** The undelegation that the destruction of a validator overwrites. *)
Definition overwritten msg s : Z :=
  match msg with MDestroyValidator m => from_option Quantity 0 (undelegations s !! dvDelAddr m) | _ => 0 end.

Lemma handler_safe ctx msg s : sinv s → admitted ctx msg →
  safe (NewHandler ctx msg) s (λ _ s', sinv s' ∧ surplus s' = surplus s + overwritten msg s).
Proof.
  intros HI (HB & HU & HT). destruct msg; cbn [NewHandler overwritten ValidateBasic GetSigners] in *; rewrite ?Z.add_0_r.
  - apply Forall_cons in HU as [HU _]. eapply create_validator_inv; try done. unfold MsgCreateValidator_ValidateBasic in HB.
    repeat case_match; try done. apply String.eqb_eq. by apply negb_false_iff.
  - by apply edit_inv.
  - apply Forall_cons in HU as [HU _]. unfold handleMsgDeposit. apply safe_bind, safe_gets, safe_bind, safe_throw_if.
    intros Hd. apply negb_false_iff, String.eqb_eq in Hd. by apply delegate_inv.
  - unfold handleMsgWithdraw. apply safe_bind, safe_bind, safe_gets, safe_bind, safe_throw_if.
    intros Hd. apply negb_false_iff, String.eqb_eq in Hd. eapply safe_mono; [by apply withdraw_stake_inv|done].
  - eapply add_shares_inv; try done. unfold MsgAddShares_ValidateBasic in HB. by repeat case_match.
  - by apply bind_inv.
  - eapply safe_mono; [by apply unbind_inv|]. by intros _ s' (? & _).
  - unfold handleRegProxy. destruct (Reg m); [by apply reg_inv|by apply unreg_inv].
  - apply safe_bind. destruct m as [a]. eapply safe_mono; [by apply destroy_validator_inv|done].
  - apply safe_throw.
Qed.

(** ** All steps *)

(** What the rest of the application may do between two calls: it keeps its own
    invariant, leaves the pools alone and removes no account. *)
Record elsewhere w w' : Prop := {
  el_inv : WInv w';
  el_pools a d : a = bondedAcc ∨ a = notBondedAcc → Bank.balance (bank w') a d = Bank.balance (bank w) a d;
  el_accounts a : HasAccount (bank w) a = true → HasAccount (bank w') a = true;
}.

Lemma elsewhere_kept s w' : sinv s → elsewhere (world s) w' → sinv (set_world w' s) ∧ surplus (set_world w' s) = surplus s.
Proof.
  intros [HV HS HP HM HE HAb] [E1 E2 E3].
  assert (surplus (set_world w' s) = surplus s) as Es by (unfold surplus, bal; cbn; rewrite E2 by auto; done).
  split; [|done]. split; [by apply (vinv_same _ s)|by destruct HS|by destruct HP| |done|done].
  destruct HM as [M1 M2 M3 M4 M5 M6]. split; [done|done| |by rewrite Es|done|].
  - unfold bal in *. cbn. rewrite E2 by auto. done.
  - intros a Ha. destruct (M6 a Ha) as [HU HA]. split; [done|]. by apply E3.
Qed.

(** Double signing and absence abandon the validator before they put it in jail. *)
Lemma punish_eq c v V s : vinv s → validators s !! v = Some V → c = ConsAddress_of V → Jailed V = false →
  (AppendAbandonedValidatorAddrs c;; Jail c) s = (Jail c;; AppendAbandonedValidatorAddrs c) s.
Proof.
  intros HI HV -> HJ. destruct (vi_op WInv s HI v V HV) as [Ho _].
  assert (byConsAddr s !! ConsAddress_of V = Some v) as Hc by (apply (vi_cons WInv s HI); by exists V).
  unfold AppendAbandonedValidatorAddrs, Jail, mustGetValidatorByConsAddr, jailValidator, SetValidator, DeleteValidatorByPowerIndex.
  unfold GetValidatorByConsAddr, GetValidator, getAbandonedValidatorAddrs, modify, gets, lift, or_panic, mbind, M_bind, option_bind.
  cbn. rewrite Hc, HV. cbn. rewrite ?Hc, ?HV. cbn. rewrite ?HJ. cbn. rewrite Hc, Ho, lookup_insert_eq. cbn. by rewrite Ho.
Qed.

Lemma punish_runs c v V s : sinv s → validators s !! v = Some V → c = ConsAddress_of V → Jailed V = false → Status V ≠ Unbonded →
  runs (AppendAbandonedValidatorAddrs c;; Jail c) s (λ _ s', sinv s' ∧ surplus s' = surplus s).
Proof.
  intros HI HV Hc HJ Hs. unfold runs. rewrite (punish_eq c v V) by (done || apply HI).
  apply (runs_bind (Jail c)). eapply runs_mono; [by eapply jail_runs|]. intros _ s1 (E & HI1 & ES).
  eapply runs_mono.
  - eapply (append_runs _ _ c v (set_Jailed true V)); [done| |done|done|done]. rewrite E. cbn. rewrite lookup_upd. by rewrite decide_True.
  - intros _ s2 (_ & HI2 & ES2). split; [done|congruence].
Qed.

Inductive step s : StakingState W → Prop :=
| step_message ctx msg s' : admitted ctx msg → NewHandler ctx msg s = (Ok tt, s') → step s s'
| step_end ctx ups s' : EndBlocker ctx s = (Ok ups, s') → step s s'
| step_jail v V s' : validators s !! v = Some V → Jailed V = false →
    Jail (ConsAddress_of V) s = (Ok tt, s') → step s s'
| step_punish v V s' : validators s !! v = Some V → Jailed V = false → Status V ≠ Unbonded →
    (AppendAbandonedValidatorAddrs (ConsAddress_of V);; Jail (ConsAddress_of V)) s = (Ok tt, s') → step s s'
| step_unjail v V s' : validators s !! v = Some V → Jailed V = true → vMinSelfDelegation V ≠ 0 → v ∉ abandoned s →
    Unjail (ConsAddress_of V) s = (Ok tt, s') → step s s'
| step_elsewhere w' : elsewhere (world s) w' → step s (set_world w' s).

Lemma step_inv s s' : sinv s → step s s' → sinv s' ∧ surplus s ≤ surplus s'.
Proof.
  intros HI H. destruct H.
  - destruct (safe_ok _ _ _ _ _ (handler_safe ctx msg s HI H) H0) as [HI' E]. split; [done|]. rewrite E.
    destruct msg; cbn [overwritten]; try lia. destruct (undelegations s !! dvDelAddr m) as [u|] eqn:Hu; cbn; [|lia].
    pose proof (mo_und _ s (inv_money _ _ _ HI) _ _ Hu). lia.
  - destruct (runs_eq _ _ _ _ _ H (end_block_runs _ _ ctx s HI)) as [H1 H2 _ _ _ _ _]. by rewrite H2.
  - destruct (runs_eq _ _ _ _ _ H1 (jail_runs _ _ _ v V s HI H eq_refl H0)) as (_ & H2 & H3). by rewrite H3.
  - destruct (runs_eq _ _ _ _ _ H2 (punish_runs _ v V s HI H eq_refl H0 H1)) as (H3 & H4). by rewrite H4.
  - destruct (runs_eq _ _ _ _ _ H3 (unjail_runs _ _ _ v V s HI H eq_refl H0 H1 H2)) as (_ & H4 & H5). by rewrite H5.
  - destruct (elsewhere_kept s w' HI H) as [H1 H2]. by rewrite H2.
Qed.

(** ** The registered invariants *)

Lemma foldl_Add_sum {A} (f : A → Z) (l : list A) t : foldl (λ t x, Dec.Add t (f x)) t l = t + zsum (f <$> l).
Proof.
  revert t. induction l as [|x l IH]; intros t; [cbn; lia|]. cbn [foldl]. rewrite IH, fmap_cons, zsum_cons, Dec.Add_spec. lia.
Qed.

(** The shares that are stored for a validator. *)
Lemma stored_shares s v : share_inv s → zsum (snd <$> GetValidatorAllShares v s) = voted s v.
Proof.
  intros [_ HD HS]. unfold GetValidatorAllShares. rewrite <-list_fmap_compose.
  set (m := filter _ (allShares s)).
  assert (zsum ((snd ∘ (λ kx : ValAddress * AccAddress * Dec, (snd (fst kx), snd kx))) <$> keyed_sorted pair_key m) = msum id m) as ->.
  { unfold msum. apply zsum_perm. by rewrite keyed_sorted_perm. }
  set (X := set_map (λ a, (v, a)) (dom (delegators s)) : gset (ValAddress * AccAddress)).
  assert (elements X ≡ₚ (λ a, (v, a)) <$> elements (dom (delegators s))) as EX.
  { apply NoDup_Permutation; [apply NoDup_elements|apply (NoDup_fmap_2 _), NoDup_elements|].
    intros k. unfold X. rewrite elem_of_elements, elem_of_map, list_elem_of_fmap. split; intros (x & ? & ?); exists x; (split; [done|]); by apply elem_of_elements. }
  assert (∀ a, m !! (v, a) = allShares s !! (v, a)) as Em.
  { intros a. unfold m. rewrite map_lookup_filter. destruct (allShares s !! (v, a)) as [x|]; [|done]. cbn. by case_guard. }
  unfold voted. rewrite (msum_over _ (delegators s) (dom (delegators s))) by done. rewrite (msum_over id m X).
  - rewrite (zsum_perm _ _ (fmap_Permutation _ _ _ EX)), <-list_fmap_compose. f_equal. apply list_fmap_ext. intros i a Ha.
    apply list_elem_of_lookup_2, elem_of_elements, elem_of_dom in Ha as [d Hd]. cbn. rewrite Em, Hd. cbn.
    destruct (allShares s !! (v, a)) as [x|] eqn:Ex.
    + apply HS in Ex as (d' & Hd' & Hv & ->). rewrite Hd in Hd'. injection Hd' as <-. by rewrite decide_True.
    + case_decide as Hv; [|done]. by rewrite (proj2 (HS v a (Shares d)) (ex_intro _ d (conj Hd (conj Hv eq_refl)))) in Ex.
  - intros [u a] [x Hx]%elem_of_dom. apply map_lookup_filter_Some in Hx as [Hx Hu]. cbn in Hu. subst u.
    apply HS in Hx as (d & Hd & _). apply elem_of_map. exists a. split; [done|]. apply elem_of_dom. by eexists.
Qed.

Lemma voted_nonneg s v : share_inv s → 0 ≤ voted s v.
Proof.
  intros HI. apply msum_nonneg. intros a d Hd. case_decide; [|done]. apply (good_nonneg _ _ _ (good_of s a d HI Hd)).
Qed.

Lemma existsb_false {A} (f : A → bool) (l : list A) : (∀ x, x ∈ l → f x = false) → existsb f l = false.
Proof.
  induction l as [|x l IH]; intros Hl; [done|]. cbn. rewrite Hl by left. apply IH. intros y Hy. apply Hl. by right.
Qed.

Lemma all_values {A} (m : gmap string A) x : x ∈ snd <$> kv_sorted m → ∃ k, m !! k = Some x.
Proof. intros ([k y] & -> & H)%list_elem_of_fmap. apply elem_of_kv_sorted in H. by exists k. Qed.

Lemma shares_hold s : sinv s → DelegatorAddSharesInvariant s = false.
Proof.
  intros HI. apply existsb_false. intros V [v HV]%all_values. destruct (vi_op WInv s (inv_val _ _ _ HI) v V HV) as [Ho _].
  destruct (sh_val s (inv_share _ _ _ HI) v V HV) as (E & Hm & HJ). unfold shares_broken. rewrite foldl_Add_sum, Ho.
  rewrite stored_shares by apply HI. apply negb_false_iff. rewrite Dec.Equal_spec. apply Z.eqb_eq. rewrite E. unfold own_share, getSharesFromDefaultMinSelfDelegation.
  destruct (decide (vMinSelfDelegation V = 0)) as [E0|E0].
  - rewrite Dec.Equal_spec, Dec.ZeroDec_spec, E0, HJ by done. done.
  - rewrite Dec.Equal_spec, Dec.ZeroDec_spec, (proj2 (Z.eqb_neq _ _)) by done. cbn. by rewrite Dec.OneDec_spec.
Qed.

Lemma delegators_positive s : sinv s → PositiveDelegatorInvariant s = false.
Proof.
  intros HI. apply existsb_false. intros d [a Hd]%all_values. destruct (sh_del s (inv_share _ _ _ HI) a d Hd) as (_ & Ht & _).
  rewrite Dec.IsNegative_spec, Dec.IsZero_spec. lia.
Qed.

Lemma powers_hold s : sinv s → NonNegativePowerInvariantCustom s = Ok false.
Proof.
  intros HI. unfold NonNegativePowerInvariantCustom.
  assert (∀ kx, kx ∈ merge_sort rank_le (map_to_list (powerIndex s)) → powerIndex s !! fst kx = Some (snd kx)) as Hl.
  { intros [k v]. rewrite merge_sort_Permutation, elem_of_map_to_list. done. }
  induction (merge_sort rank_le (map_to_list (powerIndex s))) as [|[k v] l IH]; [done|]. cbn [power_broken].
  destruct (proj1 (vi_power WInv s (inv_val _ _ _ HI) k v) (Hl (k, v) (list_elem_of_here _ _))) as (V & HV & _ & Ek).
  unfold GetValidator. rewrite HV. cbn. rewrite IH by (intros kx Hk; apply Hl; by right). cbn. rewrite (bool_decide_eq_true_2 _ Ek). cbn.
  rewrite Dec.IsNegative_spec. assert (DelegatorShares V <? 0 = false) as ->; [|done].
  destruct (sh_val s (inv_share _ _ _ HI) v V HV) as (-> & _). pose proof (voted_nonneg s v (inv_share _ _ _ HI)).
  unfold own_share. pose proof unit_pos. case_decide; lia.
Qed.

(** The tokens are all there; the check of the pools also notices a surplus. *)
Lemma pools_hold s : sinv s → ModuleAccountInvariantsCustom s = negb (surplus s =? 0).
Proof.
  intros HI. pose proof (mo_bonded _ s (inv_money _ _ _ HI)) as EB. unfold ModuleAccountInvariantsCustom.
  rewrite !foldl_Add_sum, Dec.ZeroDec_spec. unfold GetAllValidators, all_delegators, all_undelegations. rewrite !zsum_values.
  unfold GetBondedPool, GetNotBondedPool. rewrite !Coins.AmountOf_spec by apply Bank.GetCoins_sorted.
  change (amt _ (Bank.GetCoins _ (Bank.GetModuleAddress BondedPoolName))) with (bal s bondedAcc).
  change (amt _ (Bank.GetCoins _ (Bank.GetModuleAddress NotBondedPoolName))) with (bal s notBondedAcc).
  rewrite !Dec.Equal_spec, (proj2 (Z.eqb_eq (bal s bondedAcc) _)) by lia. cbn. f_equal. unfold surplus. lia.
Qed.

(** ** The best candidates *)

(** A validator that may be elected. *)
Definition candidate s v : Prop :=
  (∃ V, validators s !! v = Some V ∧ Jailed V = false) ∧ power_of s v ≠ 0.

(** The powers are numbers of 63 bits, as in the key of the index. *)
Definition powers_fit s : Prop := ∀ v, 0 ≤ power_of s v < 2 ^ 63.

#[local] Instance rank_le_total : Total rank_le.
Proof.
  intros [[p a] u] [[q b] w]. unfold rank_le. cbn. destruct (Z.lt_trichotomy p q) as [?|[->|?]]; [right; by left| |left; by left].
  destruct (total String.le a b); [left|right]; right; by split.
Qed.
#[local] Instance rank_le_trans : Transitive rank_le.
Proof.
  intros [[p a] u] [[q b] w] [[r c] x]. unfold rank_le. cbn. intros [?|[-> ?]] [?|[-> ?]]; [left; lia..|right]. split; [done|by etrans].
Qed.

Lemma StronglySorted_values {A B} (f : A → B) (R : A → A → Prop) (R' : B → B → Prop) l :
  StronglySorted R l → (∀ x y, x ∈ l → y ∈ l → R x y → R' (f x) (f y)) → StronglySorted R' (f <$> l).
Proof.
  induction 1 as [|x l HS IH HF]; intros HR; [constructor|]. rewrite fmap_cons. constructor.
  - apply IH. intros y z Hy Hz. apply HR; by right.
  - apply Forall_fmap, Forall_forall. intros y Hy. cbn. apply HR; [by left|by right|]. by eapply Forall_forall in HF.
Qed.

Lemma ranked_sorted s : vinv s → powers_fit s →
  StronglySorted (λ u v, power_of s v ≤ power_of s u) (ValidatorsPowerStoreIterator s).
Proof.
  intros HI HF. unfold ValidatorsPowerStoreIterator, ranked.
  apply (StronglySorted_values _ rank_le); [apply (StronglySorted_merge_sort rank_le)|].
  intros [k u] [k' v]. rewrite !merge_sort_Permutation, !elem_of_map_to_list.
  intros (U & HU & _ & ->)%(vi_power WInv s HI) (V & HV & _ & ->)%(vi_power WInv s HI). cbn.
  pose proof (HF u) as Fu. pose proof (HF v) as Fv. unfold power_of, PotentialConsensusPowerByShares in *. rewrite HU, HV in *. cbn in *.
  unfold rank_le. cbn. unfold uint64. rewrite !Z.mod_small by lia. lia.
Qed.

Lemma elected_best keys n s : StronglySorted (λ u v, power_of s v ≤ power_of s u) keys →
  (∀ v, v ∈ keys → is_Some (validators s !! v)) → powers_fit s →
  (length (elected keys n s) ≤ n)%nat ∧ (∀ v, v ∈ elected keys n s → power_of s v ≠ 0) ∧
  ∀ u, u ∈ keys → power_of s u ≠ 0 → u ∉ elected keys n s →
    length (elected keys n s) = n ∧ ∀ v, v ∈ elected keys n s → power_of s u ≤ power_of s v.
Proof.
  intros HS Hk HF. revert n Hk. induction HS as [|v keys HS IH HA]; intros n Hk.
  - split; [cbn; lia|]. split; intros v; [by intros ?%elem_of_nil|by intros ?%elem_of_nil].
  - destruct n as [|n]; cbn [elected].
    { split; [done|]. split; [by intros u ?%elem_of_nil|]. intros u _ _ _. split; [done|]. by intros w ?%elem_of_nil. }
    destruct (Hk v ltac:(left)) as [V HV]. rewrite HV.
    assert (power_of s v = PotentialConsensusPowerByShares V) as Ep by (unfold power_of; by rewrite HV). rewrite <-Ep.
    destruct (Z.eqb_spec (power_of s v) 0) as [E0|E0].
    + split; [cbn; lia|]. split; [by intros u ?%elem_of_nil|]. intros u Hu Hp _. exfalso.
      apply elem_of_cons in Hu as [->|Hu]; [done|]. eapply Forall_forall in HA; [|done]. cbn in HA. pose proof (HF u). lia.
    + destruct (IH n) as (L1 & L2 & L3); [intros u Hu; apply Hk; by right|]. split; [cbn; lia|]. split.
      * intros u [->|Hu]%elem_of_cons; [done|by apply L2].
      * intros u Hu Hp Hn. apply not_elem_of_cons in Hn as [Huv Hn]. apply elem_of_cons in Hu as [->|Hu]; [done|].
        destruct (L3 u Hu Hp Hn) as [M1 M2]. split; [cbn; by rewrite M1|]. intros w [->|Hw]%elem_of_cons; [|by apply M2].
        by eapply Forall_forall in HA.
Qed.

Lemma elected_set_best s : vinv s → powers_fit s →
  NoDup (elected_set s) ∧ Z.of_nat (length (elected_set s)) ≤ Z.max 0 (MaxValidators (params s)) ∧
  (∀ v, v ∈ elected_set s → candidate s v) ∧
  ∀ u, candidate s u → u ∉ elected_set s → Z.of_nat (length (elected_set s)) = Z.max 0 (MaxValidators (params s)) ∧
    ∀ v, v ∈ elected_set s → power_of s u ≤ power_of s v.
Proof.
  intros HI HF. destruct (ranked_spec WInv s (ready_of _ s HI)) as [HN HK].
  destruct (elected_best (ValidatorsPowerStoreIterator s) (Z.to_nat (MaxValidators (params s))) s) as (L1 & L2 & L3);
    [by apply ranked_sorted|intros v (V & HV & _)%HK; by eexists|done|].
  unfold elected_set in *. split; [by apply elected_NoDup|]. split; [lia|]. split.
  - intros v Hv. split; [apply HK; by eapply elected_in|by apply L2].
  - intros u [Hu Hp] Hn. destruct (L3 u) as [M1 M2]; [by apply HK|done|done|]. split; [lia|done].
Qed.

(** ** What the gov module asks for *)

Lemma bonded_from_runs keys n s : vinv s → (∀ v, v ∈ keys → is_Some (validators s !! v)) →
  ∃ l, bonded_from keys n s = Ok l ∧ (getValsAddrs l) `sublist_of` keys ∧
    ∀ V, V ∈ l → validators s !! OperatorAddress V = Some V ∧ Status V = Bonded.
Proof.
  intros HI. revert n. induction keys as [|v keys IH]; intros n Hk; cbn [bonded_from].
  - exists []. split; [done|]. split; [done|]. by intros V ?%elem_of_nil.
  - destruct n as [|n]; [exists []; split; [done|]; split; [apply sublist_nil_l|by intros V ?%elem_of_nil]|].
    destruct (Hk v ltac:(left)) as [V HV]. unfold GetValidator. rewrite HV. cbn. destruct (vi_op WInv s HI v V HV) as [Ho _].
    unfold IsBonded. destruct (bool_decide_reflect (Status V = Bonded)) as [Hb|Hb].
    + destruct (IH n) as (l & -> & Hs & Hl); [intros u Hu; apply Hk; by right|]. exists (V :: l). split; [done|]. split.
      * unfold getValsAddrs. rewrite fmap_cons, Ho. by constructor.
      * intros U [->|HU]%elem_of_cons; [by rewrite Ho|by apply Hl].
    + destruct (IH (S n)) as (l & E & Hs & Hl); [intros u Hu; apply Hk; by right|]. exists l. split; [exact E|].
      split; [by constructor|done].
Qed.

Lemma bonded_runs s : vinv s → ∃ l, IterateBondedValidatorsByPower s = Ok l ∧ NoDup (getValsAddrs l) ∧
  ∀ V, V ∈ l → validators s !! OperatorAddress V = Some V ∧ Status V = Bonded.
Proof.
  intros HI. destruct (ranked_spec WInv s (ready_of _ s HI)) as [HN HK].
  destruct (bonded_from_runs (ValidatorsPowerStoreIterator s) (Z.to_nat (MaxValidators (params s))) s) as (l & E & Hs & Hl);
    [done|intros v (V & HV & _)%HK; by eexists|].
  exists l. split; [done|]. split; [by eapply sublist_NoDup|done].
Qed.

(** The validators and the delegators, as the gov module sees them. *)
Definition ValidatorI_of V : Gov.ValidatorI := Gov.MkValidatorI (OperatorAddress V) 0 (DelegatorShares V).
Definition gov_validators s : list Gov.ValidatorI :=
  match IterateBondedValidatorsByPower s with Ok l => ValidatorI_of <$> l | _ => [] end.
Definition gov_delegator s a : option Gov.DelegatorI :=
  (λ d, Gov.MkDelegatorI (ValidatorAddresses d) (Shares d)) <$> GetDelegator a s.

Lemma gov_validators_in s x : vinv s → x ∈ gov_validators s → ∃ V, x = ValidatorI_of V ∧ validators s !! OperatorAddress V = Some V.
Proof.
  intros HI. unfold gov_validators. destruct (bonded_runs s HI) as (l & -> & _ & Hl).
  intros (V & -> & HV)%list_elem_of_fmap. exists V. split; [done|]. by apply Hl.
Qed.

(** The shares of some delegators on a validator are at most those of all. *)
Lemma voted_part s v l : share_inv s → NoDup l → zsum ((λ a, weight_on v (delegators s !! a)) <$> l) ≤ voted s v.
Proof.
  intros HI HN. unfold voted. set (g := λ d : Delegator, if decide (v ∈ ValidatorAddresses d) then Shares d else 0).
  assert (∀ m : gmap AccAddress Delegator, map_Forall (λ _ d, 0 ≤ g d) m →
    zsum ((λ a, from_option g 0 (m !! a)) <$> l) ≤ msum g m) as H.
  { induction HN as [|a l Ha HN IH]; intros m Hm; [by apply msum_nonneg|]. rewrite fmap_cons, zsum_cons.
    pose proof (IH (delete a m) (map_Forall_delete _ _ _ Hm)) as Hd. rewrite (msum_delete g) in Hd.
    assert (((λ b, from_option g 0 (delete a m !! b)) <$> l) = ((λ b, from_option g 0 (m !! b)) <$> l)) as E; [|rewrite E in Hd; lia].
    apply list_fmap_ext. intros i b Hb. rewrite lookup_delete_ne; [done|]. intros <-. destruct Ha. by eapply list_elem_of_lookup_2. }
  apply H. intros a d Hd. unfold g. case_decide; [|done]. apply (good_nonneg _ _ _ (good_of s a d HI Hd)).
Qed.

Lemma steps_inv s s' : rtc step s s' → sinv s → sinv s' ∧ surplus s ≤ surplus s'.
Proof.
  induction 1 as [|s1 s2 s3 H12 _ IH]; intros HI; [done|]. destruct (step_inv s1 s2 HI H12) as [HI2 H2].
  destruct (IH HI2) as [HI3 H3]. split; [done|lia].
Qed.

(** ** The properties *)

(** C4 A message that has passed its stateless check and is signed by a user never
    panics; when it succeeds the module is in order and every token is accounted for: the
    not bonded pool holds exactly as much more than the undelegations as before, but for
    an undelegation that the destruction of a validator overwrote. *)
Theorem staking_message ctx msg s : sinv s → admitted ctx msg →
  fst (NewHandler ctx msg s) ≠ Panic ∧
  ∀ s', NewHandler ctx msg s = (Ok tt, s') → sinv s' ∧ surplus s' = surplus s + overwritten msg s.
Proof.
  intros HI HA. pose proof (handler_safe ctx msg s HI HA) as H. split; [by eapply safe_no_panic|].
  intros s' E. by apply (safe_ok _ _ _ _ _ H E).
Qed.

(** The staking module stays in order in every run of messages, ends of blocks and
    calls of other modules, and tokens never leave the pools without a record. *)
Theorem staking_steps s s' : rtc step s s' → sinv s → sinv s' ∧ surplus s ≤ surplus s'.
Proof. apply steps_inv. Qed.

(** C5 The end of a block succeeds from every state in order.  Applied to the validator
    set that Tendermint had, the updates it returns give the validator set of the module,
    and this is the one of the specification [next_power]: at the end of an epoch the
    elected validators with their powers, otherwise the old set with the abandoned
    validators replaced by candidates. *)
Theorem staking_end_block ctx s m : sinv s → known m s → ∃ ups s', EndBlocker ctx s = (Ok ups, s') ∧
  sinv s' ∧ surplus s' = surplus s ∧ known (tells m ups) s' ∧ ∀ v, lastPowers s' !! v = next_power ctx s v.
Proof.
  intros HI Hm. destruct (end_block_runs _ _ ctx s HI) as (ups & s' & E & [H1 H2 H3 H4 _ _ _]).
  exists ups, s'. split_and!; auto.
Qed.

(** C7 At the end of a block every account has been paid at least the undelegation of its
    that was due; no undelegation that is still stored is due, and no validator is still
    unbonding whose time is over. *)
Theorem undelegations_paid ctx s : sinv s → ∃ ups s', EndBlocker ctx s = (Ok ups, s') ∧
  (∀ a, ¬ protected a → a ≠ notBondedAcc → bal s a + due ctx s a ≤ bal s' a) ∧
  (∀ a u, undelegations s' !! a = Some u → undelegations s !! a = Some u ∧ BlockTime ctx < CompletionTime u) ∧
  (∀ v V, validators s' !! v = Some V → Status V = Unbonding → BlockTime ctx < UnbondingCompletionTime V).
Proof.
  intros HI. destruct (end_block_runs _ _ ctx s HI) as (ups & s' & E & [_ _ _ _ H5 H6 H7]). by exists ups, s'.
Qed.

(** C6 The validators in the set after an epoch are the best candidates: at most
    MaxValidators of them, all out of jail and with their own power, and no candidate
    that is left out has more power than one that is in, nor is it left out while there
    is room. *)
Theorem epoch_elects_best ctx s : sinv s → powers_fit s → IsEndOfEpoch ctx s = Ok true →
  ∃ ups s' l, EndBlocker ctx s = (Ok ups, s') ∧ NoDup l ∧ Z.of_nat (length l) ≤ Z.max 0 (MaxValidators (params s)) ∧
    (∀ v, lastPowers s' !! v = if decide (v ∈ l) then Some (power_of s v) else None) ∧
    (∀ v, v ∈ l → candidate s v) ∧
    ∀ u, candidate s u → u ∉ l → Z.of_nat (length l) = Z.max 0 (MaxValidators (params s)) ∧
      ∀ v, v ∈ l → power_of s u ≤ power_of s v.
Proof.
  intros HI HF HE. destruct (end_block_runs _ _ ctx s HI) as (ups & s' & E & [_ _ _ H4 _ _ _]).
  destruct (elected_set_best s (inv_val _ _ _ HI) HF) as (L1 & L2 & L3 & L4). exists ups, s', (elected_set s).
  split_and!; try done. intros v. rewrite H4. unfold next_power. by rewrite HE.
Qed.

(** C37 In a state in order none of the registered invariants of the shares, the delegators
    and the power index is broken, and the one of the module accounts is broken exactly
    when the not bonded pool holds more than the undelegations. *)
Theorem staking_registered_invariants s : sinv s →
  DelegatorAddSharesInvariant s = false ∧ PositiveDelegatorInvariant s = false ∧
  NonNegativePowerInvariantCustom s = Ok false ∧ ModuleAccountInvariantsCustom s = negb (surplus s =? 0).
Proof. intros HI. split_and!; [by apply shares_hold|by apply delegators_positive|by apply powers_hold|by apply pools_hold]. Qed.

(** C40 An account that destroys its validator while an undelegation of its is pending
    loses it: the record is overwritten, its tokens stay in the not bonded pool, and the
    invariant of the module accounts is broken from then on, whatever happens. *)
Theorem destroying_strands_undelegation ctx a u t s s' s'' : sinv s → undelegations s !! a = Some u →
  handleMsgDestroyValidator ctx (MkMsgDestroyValidator a) s = (Ok t, s') → rtc step s' s'' →
  surplus s + Quantity u ≤ surplus s'' ∧ ModuleAccountInvariantsCustom s'' = true.
Proof.
  intros HI Hu E HS. destruct (safe_ok _ _ _ _ _ (destroy_validator_inv _ _ ctx a s HI) E) as [HI' ES].
  rewrite Hu in ES. cbn in ES. destruct (steps_inv s' s'' HS HI') as [HI'' H]. split; [lia|].
  rewrite pools_hold by done. pose proof (mo_surplus _ s (inv_money _ _ _ HI)).
  destruct (mo_und _ s (inv_money _ _ _ HI) a u Hu) as (_ & Hq & _). by rewrite (proj2 (Z.eqb_neq _ _)) by lia.
Qed.

(** C38 The staking keeper keeps its promise to the gov module: where a gov module reads
    the validators and the delegators from a staking module in order, the laws hold that
    its tally is proved against. *)
Theorem staking_serves_gov {W2 C} `{GA : !Gov.App W2 C} (staking_of : W2 → StakingState W) :
  (∀ g, Gov.BondedValidators g = gov_validators (staking_of g)) →
  (∀ g a, Gov.Delegator g a = gov_delegator (staking_of g) a) →
  GovTally.StakingLaws (λ g, sinv (staking_of g)).
Proof.
  intros EB ED.
  assert (∀ g v l, sinv (staking_of g) → NoDup l →
    zsum ((λ a, GovTally.share_of g a v) <$> l) ≤ voted (staking_of g) v) as HV.
  { intros g v l HI HN. rewrite <-(voted_part (staking_of g) v l) by (done || apply HI).
    assert ((λ a, GovTally.share_of g a v) <$> l = (λ a, weight_on v (delegators (staking_of g) !! a)) <$> l) as ->; [|done].
    apply list_fmap_ext. intros _ a _. unfold GovTally.share_of. rewrite ED. unfold gov_delegator, GetDelegator, weight_on.
    by destruct (delegators (staking_of g) !! a). }
  split.
  - intros g HI. unfold GovTally.operators. rewrite EB. unfold gov_validators.
    destruct (bonded_runs (staking_of g) (inv_val _ _ _ HI)) as (l & -> & HN & _). rewrite <-list_fmap_compose. exact HN.
  - intros g v HI Hv. rewrite EB in Hv. destruct (gov_validators_in _ v (inv_val _ _ _ HI) Hv) as (V & -> & HV'). cbn.
    destruct (sh_val _ (inv_share _ _ _ HI) _ _ HV') as (-> & _). pose proof (voted_nonneg (staking_of g) (OperatorAddress V) (inv_share _ _ _ HI)).
    unfold own_share. pose proof unit_pos. case_decide; lia.
  - intros g a d HI Hd. rewrite ED in Hd. unfold gov_delegator, GetDelegator in Hd.
    destruct (delegators (staking_of g) !! a) as [D|] eqn:ED'; [|done]. injection Hd as <-. cbn.
    destruct (sh_del _ (inv_share _ _ _ HI) a D ED') as (_ & _ & HN & _ & HS & _). by split.
  - intros g v l HI Hv HN. rewrite EB in Hv. destruct (gov_validators_in _ v (inv_val _ _ _ HI) Hv) as (V & -> & HV'). cbn.
    destruct (sh_val _ (inv_share _ _ _ HI) _ _ HV') as (-> & _). pose proof (HV g (OperatorAddress V) l HI HN).
    unfold own_share. pose proof unit_pos. case_decide; lia.
Qed.
End theorems.

(** ** Witnesses: validators, a delegator and an undelegation *)

#[local] Existing Instance Dec18.ops.
#[local] Existing Instance Dec18.dec_laws.
#[local] Existing Instance CoinsImpl.ops.
#[local] Existing Instance CoinsImpl.coins_laws.
#[local] Existing Instance BankImpl.ops.
#[local] Existing Instance BankImpl.bank_laws.
#[local] Existing Instance StakingImpl.supply.
#[local] Existing Instance StakingImpl.supply_laws.
#[local] Existing Instance StakingImpl.env.
#[local] Existing Instance StakingImpl.env_laws.

(** An application with a bank and without hooks. *)
#[local] Instance ex_app : App BankImpl.st := {|
  bank b := b;
  set_bank b _ := b;
  hookValidatorCreated _ _ := mret tt;
  hookValidatorRemoved _ _ _ := mret tt;
  hookValidatorBonded _ _ _ := mret tt;
  hookValidatorBeginUnbonding _ _ _ := mret tt;
  hookValidatorDestroyed _ _ _ := mret tt;
|}.

Definition no_account : AccAddress → Prop := λ _, False.
Definition any_world : BankImpl.st → Prop := λ _, True.

Lemma ex_calm w : calm any_world no_account w w.
Proof. by split. Qed.

#[local] Instance ex_app_laws : AppLaws any_world no_account.
Proof.
  split; [done|split; by intros ?|done|done|..].
  - intros ctx v V s _ _. apply runs_ret. exists (world s). split; [by destruct s|apply ex_calm].
  - intros ctx v V s _ _ _. apply runs_ret. exists (world s). split; [by destruct s|apply ex_calm].
  - intros ctx v V s _ _. apply runs_ret. exists (world s). split; [by destruct s|apply ex_calm].
  - intros ctx v V s _ _. apply runs_ret. exists (world s). split; [by destruct s|apply ex_calm].
  - intros ctx v V s _ _. apply runs_ret. exists (world s). split; [by destruct s|apply ex_calm].
Qed.

Definition ex_coin (n : Z) : SysCoin := MkCoin Coins.DefaultBondDenom (n * Dec.unit).
Definition ex_params : Params := MkParams 1000 1 2 5 Coins.DefaultBondDenom Dec.unit (10 * Dec.unit).

Definition ex_start : StakingState BankImpl.st :=
  MkStakingState _
    (BankImpl.MkSt {[ "alice" := [ex_coin 100]; "bob" := [ex_coin 100]; "carol" := [ex_coin 100] ]} {[ Coins.DefaultBondDenom := 300 * Dec.unit ]})
    ∅ ∅ ∅ ∅ ∅ None ∅ ∅ ∅ ∅ ∅ [] (Some 2) None ex_params.

(** In the twentieth year of the weights; times are in nanoseconds. *)
Definition ex_time : Z := (946684800 + 20 * 52 * 604800) * 10 ^ 9.
Definition at_height (h t : Z) : Context := MkContext h (ex_time + t) "tx".

Definition run {A} (m : M (StakingState BankImpl.st) A) (s : StakingState BankImpl.st) : StakingState BankImpl.st := snd (m s).

Lemma ex_staking_run {A} (m : M (StakingState BankImpl.st) A) s a : fst (m s) = Ok a → m s = (Ok a, run m s).
Proof. apply run_ok. Qed.

Abbreviation ex_inv := (staking_inv any_world no_account) (only parsing).

Lemma ex_staking_start_inv : ex_inv ex_start.
Proof.
  split.
  - split; cbn; try done.
    + intros k v. rewrite lookup_empty. split; [done|]. intros (V & HV & _). by rewrite lookup_empty in HV.
    + intros k v. rewrite lookup_empty. split; [done|]. intros (V & HV & _). by rewrite lookup_empty in HV.
    + intros v. rewrite lookup_empty. split; [by intros []|]. intros (V & HV & _). by rewrite lookup_empty in HV.
    + intros t v. unfold GetValidatorQueueTimeSlice. cbn. rewrite lookup_empty. cbn. split; [by intros ?%elem_of_nil|].
      intros (V & HV & _). by rewrite lookup_empty in HV.
    + intros t. unfold GetValidatorQueueTimeSlice. cbn. rewrite lookup_empty. constructor.
    + by intros v ?%elem_of_nil.
  - split; cbn; try done. intros v a x. rewrite lookup_empty. split; [done|]. intros (d & Hd & _). by rewrite lookup_empty in Hd.
  - split; cbn; try done. intros p a. split; [set_solver|]. intros (_ & d & Hd & _). by rewrite lookup_empty in Hd.
  - split; try done. intros a [[d Hd]|[[d Hd]|[d Hd]]]; cbn in Hd; by rewrite lookup_empty in Hd.
  - done.
  - by intros v V ?%elem_of_nil.
Qed.

Definition ex_desc : Description := MkDescription "m" "" "" "".
Definition ex_create (a : AccAddress) : Msg := MCreateValidator (MkMsgCreateValidator ex_desc (ex_coin 10) a a ("pk/" +:+ a)).
Definition ex_deposit : Msg := MDeposit (MkMsgDeposit "bob" (ex_coin 60)).
Definition ex_vote : Msg := MAddShares (MkMsgAddShares "bob" ["carol"]).

Definition ex_msgs (ctx : Context) (l : list Msg) (s : StakingState BankImpl.st) : StakingState BankImpl.st :=
  foldl (λ s m, run (NewHandler ctx m) s) s l.

(** Two validators, and a delegator that added shares to one of them. *)
Definition ex_shares_added : StakingState BankImpl.st :=
  ex_msgs (at_height 1 0) [ex_create "alice"; ex_create "carol"; ex_deposit; ex_vote] ex_start.

Definition ex_elected : StakingState BankImpl.st := run (EndBlocker (at_height 2 10)) ex_shares_added.

(** Both the delegator and the operator of a validator take tokens out. *)
Definition ex_withdraw (a : AccAddress) : Msg := MWithdraw (MkMsgWithdraw a (ex_coin 20)).
Definition ex_self_deposit : Msg := MDeposit (MkMsgDeposit "carol" (ex_coin 30)).
Definition ex_leaving : StakingState BankImpl.st :=
  ex_msgs (at_height 3 20) [ex_withdraw "bob"; ex_self_deposit; ex_withdraw "carol"] ex_elected.

Definition ex_ok (o : outcome unit) : bool := match o with Ok _ => true | _ => false end.
Lemma ex_ok_eq o : ex_ok o = true → o = Ok tt.
Proof. by destruct o as [[]| |]. Qed.

Definition ex_admitted (ctx : Context) (msg : Msg) : bool :=
  (ex_ok (ValidateBasic msg)
   && forallb (λ a, bool_decide (a ≠ bondedAcc ∧ a ≠ notBondedAcc ∧ a ≠ "")) (GetSigners msg)
   && bool_decide (blockTimestampEpoch ≤ Unix ctx))%bool.

Lemma ex_admitted_ok ctx msg : ex_admitted ctx msg = true → admitted no_account ctx msg.
Proof.
  unfold ex_admitted. rewrite !andb_true_iff, !bool_decide_eq_true. intros [[H1%ex_ok_eq H2] H3]. split; [done|]. split; [|done].
  rewrite forallb_forall in H2. apply Forall_forall. intros a Ha. split; [by intros ?|].
  apply list_elem_of_In in Ha. specialize (H2 a Ha). by apply bool_decide_eq_true in H2.
Qed.

(** Whether messages pass their checks and succeed one after the other. *)
Fixpoint ex_works (ctx : Context) (l : list Msg) (s : StakingState BankImpl.st) : bool :=
  match l with
  | [] => true
  | m :: l => (ex_admitted ctx m && ex_ok (fst (NewHandler ctx m s))
               && ex_works ctx l (run (NewHandler ctx m) s))%bool
  end.

Lemma ex_msgs_steps ctx l s : ex_works ctx l s = true → rtc (step any_world no_account) s (ex_msgs ctx l s).
Proof.
  revert s. induction l as [|m l IH]; intros s; [by intros _; apply rtc_refl|]. cbn [ex_works].
  rewrite !andb_true_iff. intros [[H1 H2%ex_ok_eq] H3]. eapply rtc_l; [|by apply IH].
  eapply step_message; [by apply ex_admitted_ok|by apply ex_staking_run].
Qed.

Lemma ex_shares_added_steps : rtc (step any_world no_account) ex_start ex_shares_added.
Proof. apply ex_msgs_steps. vm_compute. reflexivity. Qed.

Lemma ex_shares_added_inv : ex_inv ex_shares_added.
Proof. apply (steps_inv _ _ ex_start); [apply ex_shares_added_steps|apply ex_staking_start_inv]. Qed.

Lemma ex_elected_end : EndBlocker (at_height 2 10) ex_shares_added = (Ok [MkValidatorUpdate "pk/carol" 62914561000000], ex_elected).
Proof. apply (ex_staking_run (EndBlocker (at_height 2 10)) ex_shares_added). vm_compute. reflexivity. Qed.

Lemma ex_elected_step : step any_world no_account ex_shares_added ex_elected.
Proof. eapply step_end, ex_elected_end. Qed.

Lemma ex_elected_inv : ex_inv ex_elected.
Proof. apply (step_inv _ _ ex_shares_added); [apply ex_shares_added_inv|apply ex_elected_step]. Qed.

Lemma ex_leaving_steps : rtc (step any_world no_account) ex_shares_added ex_leaving.
Proof. eapply rtc_l; [apply ex_elected_step|]. apply ex_msgs_steps. vm_compute. reflexivity. Qed.

Lemma ex_leaving_inv : ex_inv ex_leaving.
Proof. apply (steps_inv _ _ ex_shares_added); [apply ex_leaving_steps|apply ex_shares_added_inv]. Qed.

Lemma staking_message_witness : fst (NewHandler (at_height 3 20) (ex_withdraw "bob") ex_elected) ≠ Panic ∧
  ∀ s', NewHandler (at_height 3 20) (ex_withdraw "bob") ex_elected = (Ok tt, s') →
    ex_inv s' ∧ surplus s' = surplus ex_elected + 0.
Proof.
  apply (staking_message any_world no_account (at_height 3 20) (ex_withdraw "bob") ex_elected).
  - apply ex_elected_inv.
  - apply ex_admitted_ok. vm_compute. reflexivity.
Defined.

Lemma staking_steps_witness : ex_inv ex_leaving ∧ surplus ex_shares_added ≤ surplus ex_leaving.
Proof. apply (staking_steps any_world no_account ex_shares_added ex_leaving); [apply ex_leaving_steps|apply ex_shares_added_inv]. Defined.

Lemma staking_end_block_witness : ∃ ups s', EndBlocker (at_height 2 10) ex_shares_added = (Ok ups, s') ∧
  ex_inv s' ∧ surplus s' = surplus ex_shares_added ∧ known (tells ∅ ups) s' ∧
  ∀ v, lastPowers s' !! v = next_power (at_height 2 10) ex_shares_added v.
Proof.
  apply (staking_end_block any_world no_account (at_height 2 10) ex_shares_added ∅); [apply ex_shares_added_inv|].
  intros k x. rewrite lookup_empty. split; [done|]. intros (v & V & _ & _ & Hv). revert Hv.
  assert (lastPowers ex_shares_added = ∅) as -> by (vm_compute; reflexivity). by rewrite lookup_empty.
Defined.

Lemma undelegations_paid_witness : due (at_height 5 2000) ex_leaving "bob" = 20 * Dec.unit ∧
  ∃ ups s', EndBlocker (at_height 5 2000) ex_leaving = (Ok ups, s') ∧
    (∀ a, ¬ no_account a → a ≠ notBondedAcc → bal ex_leaving a + due (at_height 5 2000) ex_leaving a ≤ bal s' a) ∧
    (∀ a u, undelegations s' !! a = Some u → undelegations ex_leaving !! a = Some u ∧ BlockTime (at_height 5 2000) < CompletionTime u) ∧
    (∀ v V, validators s' !! v = Some V → Status V = Unbonding → BlockTime (at_height 5 2000) < UnbondingCompletionTime V).
Proof.
  split; [vm_compute; reflexivity|]. apply (undelegations_paid any_world no_account (at_height 5 2000) ex_leaving), ex_leaving_inv.
Defined.

Definition ex_fit (s : StakingState BankImpl.st) : bool :=
  forallb (λ kV, (0 <=? PotentialConsensusPowerByShares (snd kV)) && (PotentialConsensusPowerByShares (snd kV) <? 2 ^ 63))%Z
    (map_to_list (validators s)).
Lemma ex_fit_powers s : ex_fit s = true → powers_fit s.
Proof.
  unfold ex_fit. rewrite forallb_forall. intros H v. unfold power_of. destruct (validators s !! v) as [V|] eqn:E; [|done].
  apply elem_of_map_to_list, list_elem_of_In in E. specialize (H _ E). cbn in *. lia.
Qed.

Lemma ex_shares_added_powers : powers_fit ex_shares_added.
Proof. apply ex_fit_powers. vm_compute. reflexivity. Qed.

Lemma epoch_elects_best_witness : ∃ ups s' l, EndBlocker (at_height 2 10) ex_shares_added = (Ok ups, s') ∧ NoDup l ∧
  Z.of_nat (length l) ≤ Z.max 0 (MaxValidators (params ex_shares_added)) ∧
  (∀ v, lastPowers s' !! v = if decide (v ∈ l) then Some (power_of ex_shares_added v) else None) ∧
  (∀ v, v ∈ l → candidate ex_shares_added v) ∧
  ∀ u, candidate ex_shares_added u → u ∉ l → Z.of_nat (length l) = Z.max 0 (MaxValidators (params ex_shares_added)) ∧
    ∀ v, v ∈ l → power_of ex_shares_added u ≤ power_of ex_shares_added v.
Proof.
  apply (epoch_elects_best any_world no_account (at_height 2 10) ex_shares_added); [apply ex_shares_added_inv|apply ex_shares_added_powers|].
  vm_compute. reflexivity.
Defined.

Lemma staking_registered_invariants_witness : DelegatorAddSharesInvariant ex_leaving = false ∧
  PositiveDelegatorInvariant ex_leaving = false ∧ NonNegativePowerInvariantCustom ex_leaving = Ok false ∧
  ModuleAccountInvariantsCustom ex_leaving = negb (surplus ex_leaving =? 0).
Proof. apply (staking_registered_invariants any_world no_account ex_leaving), ex_leaving_inv. Defined.

(** The operator of the validator destroys it while 20 tokens are on their way to it. *)
Definition ex_destroyed : StakingState BankImpl.st :=
  run (handleMsgDestroyValidator (at_height 4 30) (MkMsgDestroyValidator "carol")) ex_leaving.

Lemma destroying_strands_undelegation_witness :
  surplus ex_leaving + 20 * Dec.unit ≤ surplus ex_destroyed ∧ ModuleAccountInvariantsCustom ex_destroyed = true.
Proof.
  apply (destroying_strands_undelegation any_world no_account (at_height 4 30) "carol"
    (MkUndelegationInfo "carol" (20 * Dec.unit) (ex_time + 1020)) (ex_time + 1030) ex_leaving ex_destroyed ex_destroyed).
  - apply ex_leaving_inv.
  - vm_compute. reflexivity.
  - apply (ex_staking_run (handleMsgDestroyValidator (at_height 4 30) (MkMsgDestroyValidator "carol")) ex_leaving). vm_compute. reflexivity.
  - apply rtc_refl.
Defined.

(** A gov module that reads a staking module. *)
#[local] Instance ex_gov : Gov.App (StakingState BankImpl.st) unit := {|
  Gov.bank s := world s;
  Gov.set_bank b s := set_world b s;
  Gov.BondedValidators := gov_validators;
  Gov.Delegator := gov_delegator;
  Gov.GetRoute _ := None;
  Gov.module_handlers _ := None;
  Gov.feeCollectorName := "fee_collector";
|}.

Lemma staking_serves_gov_witness : GovTally.StakingLaws (W := StakingState BankImpl.st) (C := unit) (λ s, ex_inv s).
Proof. by apply (staking_serves_gov any_world no_account (λ s : StakingState BankImpl.st, s)). Defined.

End StakingTheorems.
