(* ===== verification/Slashing.v ===== *)
(** * The slashing module: src/x/slashing

    Who signed, who missed how many of the last blocks, who is jailed until when, and who
    may leave the jail.  The module keeps, by consensus address, the public key, the
    signing info and a bit for each block of a sliding window; it is told about validators
    by the hooks of the staking module and jails them there.  [SlashingStore] is its store,
    a part of the state [W] around the staking module that [SlashApp] gives access to.
    Times and durations are in nanoseconds.

    [SlashEnv] holds what the module uses of the SDK beyond [Dec.Ops]: a product with an
    integer, the rounding to an int64 (which panics when it does not fit), and bech32. *)

From S2P Require Import Prelude SdkDec SdkCoins GoStd Common Token Staking.

#[local] Open Scope Z_scope.

Module SlashingErr.
Definition ModuleName : string := "slashing".
Definition ErrNoValidatorForAddress : error := MkError ModuleName 5002.
Definition ErrBadValidatorAddr : error := MkError ModuleName 5003.
Definition ErrValidatorJailed : error := MkError ModuleName 5004.
Definition ErrValidatorNotJailed : error := MkError ModuleName 5005.
Definition ErrMissingSelfDelegation : error := MkError ModuleName 5006.
Definition ErrSelfDelegationTooLowToUnjail : error := MkError ModuleName 5007.
Definition ErrNoSigningInfoFound : error := MkError ModuleName 5008.
Definition ErrValidatorDestroying : error := MkError ModuleName 5009.
End SlashingErr.

Module Slashing.
Import Staking.

(** ** Data (internal/types) *)

Inductive ValStatus := Created | Destroying | Destroyed.

#[export] Instance ValStatus_eq_dec : EqDecision ValStatus.
Proof. solve_decision. Defined.

Record ValidatorSigningInfo := MkValidatorSigningInfo {
  Address : ConsAddress;
  StartHeight : Z;
  IndexOffset : Z;
  JailedUntil : Z;
  Tombstoned : bool;
  MissedBlocksCounter : Z;
  ValidatorStatus : ValStatus;
}.

Record Params := MkParams {
  SignedBlocksWindow : Z;
  pMinSignedPerWindow : Dec;
  DowntimeJailDuration : Z;
  SlashFractionDoubleSign : Dec;
  SlashFractionDowntime : Dec;
}.

(** The store: signing infos, the bits of the missed blocks by address and index, and the
    public keys by address; and the parameters. *)
Record SlashingStore := MkSlashingStore {
  signingInfos : gmap ConsAddress ValidatorSigningInfo;
  missedBits : gmap (ConsAddress * Z) bool;
  pubkeys : gmap ConsAddress PubKey;
  sparams : Params;
}.

Section setters.
Implicit Type i : ValidatorSigningInfo.
Definition set_IndexOffset (x : Z) i : ValidatorSigningInfo :=
  MkValidatorSigningInfo (Address i) (StartHeight i) x (JailedUntil i) (Tombstoned i) (MissedBlocksCounter i)
    (ValidatorStatus i).
Definition set_JailedUntil (x : Z) i : ValidatorSigningInfo :=
  MkValidatorSigningInfo (Address i) (StartHeight i) (IndexOffset i) x (Tombstoned i) (MissedBlocksCounter i)
    (ValidatorStatus i).
Definition set_Tombstoned (x : bool) i : ValidatorSigningInfo :=
  MkValidatorSigningInfo (Address i) (StartHeight i) (IndexOffset i) (JailedUntil i) x (MissedBlocksCounter i)
    (ValidatorStatus i).
Definition set_MissedBlocksCounter (x : Z) i : ValidatorSigningInfo :=
  MkValidatorSigningInfo (Address i) (StartHeight i) (IndexOffset i) (JailedUntil i) (Tombstoned i) x
    (ValidatorStatus i).
Definition set_ValidatorStatus (x : ValStatus) i : ValidatorSigningInfo :=
  MkValidatorSigningInfo (Address i) (StartHeight i) (IndexOffset i) (JailedUntil i) (Tombstoned i)
    (MissedBlocksCounter i) x.
End setters.

Section store_setters.
Implicit Type t : SlashingStore.
Definition set_signingInfos x t : SlashingStore := MkSlashingStore x (missedBits t) (pubkeys t) (sparams t).
Definition set_missedBits x t : SlashingStore := MkSlashingStore (signingInfos t) x (pubkeys t) (sparams t).
Definition set_pubkeys x t : SlashingStore := MkSlashingStore (signingInfos t) (missedBits t) x (sparams t).
Definition set_sparams x t : SlashingStore := MkSlashingStore (signingInfos t) (missedBits t) (pubkeys t) x.
End store_setters.

(** abci.VoteInfo *)
Record VoteInfo := MkVoteInfo { VoteAddress : ConsAddress; VotePower : Z; SignedLastBlock : bool }.

Record MsgUnjail := MkMsgUnjail { ujValidatorAddr : ValAddress }.

Inductive Msg := MUnjail (m : MsgUnjail) | MOther.

Record MissedBlock := MkMissedBlock { Index : Z; Missed : bool }.

Record GenesisState := MkGenesisState {
  gParams : Params;
  gSigningInfos : gmap string ValidatorSigningInfo;
  gMissedBlocks : gmap string (list MissedBlock);
}.

(** ** Interfaces *)

Class SlashEnv := {
  MulInt64 : Dec → Z → Dec;
  RoundInt64 : Dec → outcome Z;
  ConsAddressFromBech32 : string → option ConsAddress;
  ConsAddressString : ConsAddress → string;
}.

Class SlashApp (W : Type) := {
  slash : W → SlashingStore;
  set_slash : SlashingStore → W → W;
}.

(** ** Parameters *)

Section params.
Context `{DO : Dec.Ops}.

Definition DefaultParams : Params :=
  MkParams 10000 (Dec.NewDecWithPrec 5 2) (60 * 10 * 10 ^ 9) Dec.ZeroDec Dec.ZeroDec.

Definition validateSignedBlocksWindow (v : Z) : outcome unit := if (v <=? 0)%Z then Err Common.plain_error else Ok tt.
Definition validateMinSignedPerWindow (v : Dec) : outcome unit :=
  if Dec.IsNegative v then Err Common.plain_error
  else if Dec.GT v Dec.OneDec then Err Common.plain_error else Ok tt.
Definition validateDowntimeJailDuration (v : Z) : outcome unit := if (v <=? 0)%Z then Err Common.plain_error else Ok tt.
Definition validateSlashFractionDoubleSign (v : Dec) : outcome unit :=
  if Dec.IsNegative v then Err Common.plain_error
  else if Dec.GT v Dec.OneDec then Err Common.plain_error else Ok tt.
Definition validateSlashFractionDowntime (v : Dec) : outcome unit :=
  if Dec.IsNegative v then Err Common.plain_error
  else if Dec.GT v Dec.OneDec then Err Common.plain_error else Ok tt.

(** The validators of ParamSetPairs, in its order. *)
Definition ParamSetPairs_valid (p : Params) : outcome unit :=
  _ ← validateSignedBlocksWindow (SignedBlocksWindow p);
  _ ← validateMinSignedPerWindow (pMinSignedPerWindow p);
  _ ← validateDowntimeJailDuration (DowntimeJailDuration p);
  _ ← validateSlashFractionDoubleSign (SlashFractionDoubleSign p);
  validateSlashFractionDowntime (SlashFractionDowntime p).

Definition ValidateGenesis (data : GenesisState) : outcome unit :=
  let p := gParams data in
  if (Dec.IsNegative (SlashFractionDowntime p) || Dec.GT (SlashFractionDowntime p) Dec.OneDec)%bool
  then Err Common.plain_error
  else if (Dec.IsNegative (SlashFractionDoubleSign p) || Dec.GT (SlashFractionDoubleSign p) Dec.OneDec)%bool
  then Err Common.plain_error
  else if (Dec.IsNegative (pMinSignedPerWindow p) || Dec.GT (pMinSignedPerWindow p) Dec.OneDec)%bool
  then Err Common.plain_error
  else if (DowntimeJailDuration p <? 60 * 10 ^ 9)%Z then Err Common.plain_error
  else if (SignedBlocksWindow p <? 10)%Z then Err Common.plain_error
  else Ok tt.

Definition MsgUnjail_ValidateBasic (msg : MsgUnjail) : outcome unit :=
  if Token.Empty (ujValidatorAddr msg) then Err SlashingErr.ErrBadValidatorAddr else Ok tt.
End params.

(** ** Keeper *)

Section keeper.
Context `{DO : Dec.Ops} `{EV : Env} `{SE : SlashEnv} {W : Type} `{SA : !SlashApp W}.

Abbreviation State := (StakingState W) (only parsing).
Abbreviation MS := (M (StakingState W)) (only parsing).

Definition sl (s : State) : SlashingStore := slash (world s).
Definition modify_sl (f : SlashingStore → SlashingStore) : MS unit :=
  modify (λ s, set_world (set_slash (f (slash (world s))) (world s)) s).

(** *** Keys and signing infos (internal/keeper/keeper.go, signing_info.go, params.go) *)

Definition GetPubkey (address : ConsAddress) (s : State) : option PubKey := pubkeys (sl s) !! address.
Definition setAddrPubkeyRelation (addr : ConsAddress) (pubkey : PubKey) : MS unit :=
  modify_sl (λ t, set_pubkeys (<[addr := pubkey]> (pubkeys t)) t).
Definition AddPubkey (pubkey : PubKey) : MS unit := setAddrPubkeyRelation (pk_Address pubkey) pubkey.
Definition deleteAddrPubkeyRelation (addr : ConsAddress) : MS unit :=
  modify_sl (λ t, set_pubkeys (delete addr (pubkeys t)) t).

Definition GetValidatorSigningInfo (address : ConsAddress) (s : State) : option ValidatorSigningInfo :=
  signingInfos (sl s) !! address.
Definition HasValidatorSigningInfo (consAddr : ConsAddress) (s : State) : bool :=
  bool_decide (is_Some (GetValidatorSigningInfo consAddr s)).
Definition SetValidatorSigningInfo (address : ConsAddress) (info : ValidatorSigningInfo) : MS unit :=
  modify_sl (λ t, set_signingInfos (<[address := info]> (signingInfos t)) t).

Definition GetValidatorMissedBlockBitArray (address : ConsAddress) (index : Z) (s : State) : bool :=
  default false (missedBits (sl s) !! (address, uint64 index)).
Definition SetValidatorMissedBlockBitArray (address : ConsAddress) (index : Z) (missed : bool) : MS unit :=
  modify_sl (λ t, set_missedBits (<[(address, uint64 index) := missed]> (missedBits t)) t).
Definition clearValidatorMissedBlockBitArray (address : ConsAddress) : MS unit :=
  modify_sl (λ t, set_missedBits (filter (λ kx : ConsAddress * Z * bool, fst (fst kx) ≠ address) (missedBits t)) t).

(** The stored bits with an index inside of the window. *)
Definition IterateValidatorMissedBlockBitArray (address : ConsAddress) (s : State) : list MissedBlock :=
  omap (λ index, MkMissedBlock index <$> missedBits (sl s) !! (address, uint64 index))
    (seqZ 0 (SignedBlocksWindow (sparams (sl s)))).

Definition MinSignedPerWindow (s : State) : outcome Z :=
  RoundInt64 (MulInt64 (pMinSignedPerWindow (sparams (sl s))) (SignedBlocksWindow (sparams (sl s)))).

Definition JailUntil (consAddr : ConsAddress) (jailTime : Z) : MS unit :=
  o ← gets (GetValidatorSigningInfo consAddr);
  match o with
  | None => panic
  | Some signInfo => SetValidatorSigningInfo consAddr (set_JailedUntil jailTime signInfo)
  end.

Definition Tombstone (consAddr : ConsAddress) : MS unit :=
  o ← gets (GetValidatorSigningInfo consAddr);
  match o with
  | None => panic
  | Some signInfo =>
      if Tombstoned signInfo then panic
      else SetValidatorSigningInfo consAddr (set_Tombstoned true signInfo)
  end.

Definition IsTombstoned (consAddr : ConsAddress) (s : State) : bool :=
  match GetValidatorSigningInfo consAddr s with Some signInfo => Tombstoned signInfo | None => false end.

(** keeper.go: jails at the staking keeper. *)
Definition keeper_Jail (consAddr : ConsAddress) : MS unit := Jail consAddr.

Definition modifyValidatorStatus (consAddress : ConsAddress) (status : ValStatus) : MS unit :=
  o ← gets (GetValidatorSigningInfo consAddress);
  match o with
  | Some signingInfo => SetValidatorSigningInfo consAddress (set_ValidatorStatus status signingInfo)
  | None => mret tt
  end.

(** *** Hooks (internal/keeper/hooks.go) *)

Definition AfterValidatorBonded (ctx : Context) (address : ConsAddress) : MS unit :=
  o ← gets (GetValidatorSigningInfo address);
  match o with
  | Some _ => mret tt
  | None => SetValidatorSigningInfo address (MkValidatorSigningInfo address (BlockHeight ctx) 0 0 false 0 Created)
  end.

Definition AfterValidatorCreated (valAddr : ValAddress) : MS unit :=
  o ← gets (GetValidator valAddr);
  validator ← lift (or_panic o);
  AddPubkey (ConsPubKey validator);;
  modifyValidatorStatus (ConsAddress_of validator) Created.

Definition AfterValidatorRemoved (address : ConsAddress) : MS unit :=
  deleteAddrPubkeyRelation address;; modifyValidatorStatus address Destroyed.

Definition AfterValidatorDestroyed (valAddr : ValAddress) : MS unit :=
  o ← gets (GetValidator valAddr);
  match o with
  | Some validator => modifyValidatorStatus (ConsAddress_of validator) Destroying
  | None => mret tt
  end.

(** *** Signatures (internal/keeper/infractions.go) *)

(** One vote: the bit and the counter of the window, and jail for too many misses. *)
Definition HandleValidatorSignature (ctx : Context) (addr : ConsAddress) (signed : bool) : MS unit :=
  let height := BlockHeight ctx in
  o ← gets (GetPubkey addr);
  lift (or_panic o);;
  o ← gets (GetValidatorSigningInfo addr);
  signInfo ← lift (or_panic o);
  window ← gets (λ s, SignedBlocksWindow (sparams (sl s)));
  (if (window =? 0)%Z then panic else mret tt);;
  let index := Z.rem (IndexOffset signInfo) window in
  let signInfo := set_IndexOffset (int64 (IndexOffset signInfo + 1)) signInfo in
  previous ← gets (GetValidatorMissedBlockBitArray addr index);
  let missed := negb signed in
  signInfo ← (if (negb previous && missed)%bool then
                SetValidatorMissedBlockBitArray addr index true;;
                mret (set_MissedBlocksCounter (int64 (MissedBlocksCounter signInfo + 1)) signInfo)
              else if (previous && negb missed)%bool then
                SetValidatorMissedBlockBitArray addr index false;;
                mret (set_MissedBlocksCounter (int64 (MissedBlocksCounter signInfo - 1)) signInfo)
              else mret signInfo);
  minSigned ← gets MinSignedPerWindow;
  minSigned ← lift minSigned;
  let minHeight := int64 (StartHeight signInfo + window) in
  let maxMissed := int64 (window - minSigned) in
  signInfo ← (if ((minHeight <? height) && (maxMissed <? MissedBlocksCounter signInfo))%Z%bool then
                o ← gets (GetValidatorByConsAddr addr);
                match o with
                | Some validator =>
                    if Jailed validator then mret signInfo
                    else
                      Jail addr;;
                      AppendAbandonedValidatorAddrs addr;;
                      duration ← gets (λ s, DowntimeJailDuration (sparams (sl s)));
                      clearValidatorMissedBlockBitArray addr;;
                      mret (set_IndexOffset 0 (set_MissedBlocksCounter 0
                        (set_JailedUntil (BlockTime ctx + duration) signInfo)))
                | None => mret signInfo
                end
              else mret signInfo);
  SetValidatorSigningInfo addr signInfo.

(** abci.go *)
Definition BeginBlocker (ctx : Context) (votes : list VoteInfo) : MS unit :=
  mapM_ (λ v, HandleValidatorSignature ctx (VoteAddress v) (SignedLastBlock v)) votes.

(** *** Leaving the jail (internal/keeper/unjail.go, handler.go) *)

Definition keeper_Unjail (ctx : Context) (validatorAddr : ValAddress) : MS unit :=
  o ← gets (GetValidator validatorAddr);
  validator ← or_throw o SlashingErr.ErrNoValidatorForAddress;
  throw_if (negb (Jailed validator)) SlashingErr.ErrValidatorNotJailed;;
  let consAddr := pk_Address (ConsPubKey validator) in
  o ← gets (GetValidatorSigningInfo consAddr);
  info ← or_throw o SlashingErr.ErrNoValidatorForAddress;
  throw_if (bool_decide (ValidatorStatus info = Destroying)) SlashingErr.ErrValidatorDestroying;;
  throw_if (Tombstoned info) SlashingErr.ErrValidatorJailed;;
  throw_if (BlockTime ctx <? JailedUntil info)%Z SlashingErr.ErrValidatorJailed;;
  Unjail consAddr.

Definition handleMsgUnjail (ctx : Context) (msg : MsgUnjail) : MS unit :=
  o ← gets (GetValidator (ujValidatorAddr msg));
  validator ← or_throw o SlashingErr.ErrNoValidatorForAddress;
  throw_if (Dec.IsZero (vMinSelfDelegation validator)) SlashingErr.ErrMissingSelfDelegation;;
  keeper_Unjail ctx (ujValidatorAddr msg).

Definition NewHandler `{CO : Coins.Ops} (ctx : Context) (msg : Msg) : MS unit :=
  match msg with
  | MUnjail m => handleMsgUnjail ctx m
  | MOther => throw Coins.ErrUnknownRequest
  end.

(** *** Genesis (genesis.go)

    The maps are visited by key; the order does not matter, for the addresses differ. *)

Definition init_info (x : string * ValidatorSigningInfo) : MS unit :=
  address ← lift (or_panic (ConsAddressFromBech32 (fst x)));
  SetValidatorSigningInfo address (snd x).

Definition init_missed (x : string * list MissedBlock) : MS unit :=
  address ← lift (or_panic (ConsAddressFromBech32 (fst x)));
  mapM_ (λ m, SetValidatorMissedBlockBitArray address (Index m) (Missed m)) (snd x).

Definition InitGenesis (data : GenesisState) : MS unit :=
  validators ← gets GetAllValidators;
  mapM_ (λ v, AddPubkey (ConsPubKey v)) validators;;
  mapM_ init_info (kv_sorted (gSigningInfos data));;
  mapM_ init_missed (kv_sorted (gMissedBlocks data));;
  modify_sl (set_sparams (gParams data)).

Definition ExportGenesis (s : State) : GenesisState :=
  let infos := kv_sorted (signingInfos (sl s)) in
  MkGenesisState (sparams (sl s))
    (foldl (λ m x, <[ConsAddressString (fst x) := snd x]> m) ∅ infos)
    (foldl (λ m x, <[ConsAddressString (fst x) := IterateValidatorMissedBlockBitArray (fst x) s]> m) ∅ infos).
End keeper.

End Slashing.
