(* ===== verification/Evidence.v ===== *)
(** * The evidence module: src/x/evidence

    Evidence of misbehavior, stored by hash.  Tendermint's evidence of double signing is
    handled at the beginning of a block: the validator leaves the set, goes to jail for
    good and is tombstoned.  Evidence that users submit goes to the handler that the router
    has for its type.  [EvidenceApp] gives access to the store.

    [EvidenceType] is the interface of a piece of evidence (exported/evidence.go) as far as
    the module uses it; [Equivocation] is the type of this module, whose hash is a
    parameter. *)

From S2P Require Import Prelude SdkDec SdkCoins GoStd Common Token Staking Slashing.

#[local] Open Scope Z_scope.

Module EvidenceErr.
Definition ModuleName : string := "evidence".
Definition ErrNoEvidenceHandlerExists : error := MkError ModuleName 9002.
Definition ErrInvalidEvidence : error := MkError ModuleName 9003.
Definition ErrNoEvidenceExists : error := MkError ModuleName 9004.
Definition ErrEvidenceExists : error := MkError ModuleName 9005.
End EvidenceErr.

Module Evidence.
Import Staking.

(** ** Data (internal/types) *)

Definition RouteEquivocation : string := "equivocation".
(** The end of the year 9999. *)
Definition DoubleSignJailEndTime : Z := 253402300799 * 10 ^ 9.

(** The zero time of Go is none of the times since 1970. *)
Record Equivocation := MkEquivocation {
  Height : Z; Time : option Z; Power : Z; ConsensusAddress : ConsAddress
}.

(** abci.Evidence, of the type of duplicate votes or of another one. *)
Inductive EvidenceKind := DuplicateVote | OtherKind (name : string).
Record AbciEvidence := MkAbciEvidence { aType : EvidenceKind; aHeight : Z; aPower : Z; aAddress : ConsAddress; aTime : Z }.

Record Params := MkParams { pMaxEvidenceAge : Z }.

Class EvidenceType (E : Type) := {
  Route : E → string;
  Hash : E → string;
  Evidence_ValidateBasic : E → outcome unit;
}.

Record EvidenceStore {E : Type} := MkEvidenceStore { evidences : gmap string E; eparams : Params }.
Arguments EvidenceStore : clear implicits.

Record MsgSubmitEvidence {E : Type} := MkMsgSubmitEvidence { mEvidence : option E; Submitter : AccAddress }.
Arguments MsgSubmitEvidence : clear implicits.

Inductive Msg {E : Type} := MSubmitEvidence (m : MsgSubmitEvidence E) | MOther.
Arguments Msg : clear implicits.

Record GenesisState {E : Type} := MkGenesisState { gParams : Params; gEvidence : list E }.
Arguments GenesisState : clear implicits.

(** A nil handler is an empty entry. *)
Record Router {H : Type} := MkRouter { routes : gmap string H; sealed : bool }.
Arguments Router : clear implicits.

Class EvidenceApp (W E : Type) := {
  evid : W → EvidenceStore E;
  set_evid : EvidenceStore E → W → W;
}.

(** ** Types (internal/types/evidence.go, msgs.go, params.go, genesis.go, router.go) *)

Definition Equivocation_ValidateBasic (e : Equivocation) : outcome unit :=
  match Time e with
  | None => Err Common.plain_error
  | Some _ =>
      if (Height e <? 1)%Z then Err Common.plain_error
      else if (Power e <? 1)%Z then Err Common.plain_error
      else if Token.Empty (ConsensusAddress e) then Err Common.plain_error
      else Ok tt
  end.

Definition ConvertDuplicateVoteEvidence (dupVote : AbciEvidence) : Equivocation :=
  MkEquivocation (aHeight dupVote) (Some (aTime dupVote)) (aPower dupVote) (aAddress dupVote).

Definition DefaultParams : Params := MkParams (60 * 2 * 10 ^ 9).
Definition validateMaxEvidenceAge (v : Z) : outcome unit := if (v <=? 0)%Z then Err Common.plain_error else Ok tt.

Section types.
Context `{CO : Coins.Ops} {E : Type} `{ET : EvidenceType E}.

Definition MsgSubmitEvidence_ValidateBasic (m : MsgSubmitEvidence E) : outcome unit :=
  match mEvidence m with
  | None => Err EvidenceErr.ErrInvalidEvidence
  | Some e =>
      _ ← Evidence_ValidateBasic e;
      if Token.Empty (Submitter m) then Err Coins.ErrInvalidAddress else Ok tt
  end.

Fixpoint validate_all (l : list E) : outcome unit :=
  match l with
  | [] => Ok tt
  | e :: l => _ ← Evidence_ValidateBasic e; validate_all l
  end.
Definition GenesisState_Validate (gs : GenesisState E) : outcome unit :=
  _ ← validate_all (gEvidence gs);
  if (pMaxEvidenceAge (gParams gs) <? 60 * 10 ^ 9)%Z then Err Common.plain_error else Ok tt.
End types.

Section router.
Context {H : Type}.
Definition NewRouter : Router H := MkRouter _ ∅ false.
Definition HasRoute (r : string) (rtr : Router H) : bool := bool_decide (is_Some (routes rtr !! r)).
Definition GetRoute (path : string) (rtr : Router H) : outcome H :=
  if negb (HasRoute path rtr) then Panic else or_panic (routes rtr !! path).
Definition Seal (rtr : Router H) : outcome (Router H) :=
  if sealed rtr then Panic else Ok (MkRouter _ (routes rtr) true).
Definition AddRoute (IsAlphaNumeric : string → bool) (path : string) (h : H) (rtr : Router H) : outcome (Router H) :=
  if sealed rtr then Panic
  else if negb (IsAlphaNumeric path) then Panic
  else if HasRoute path rtr then Panic
  else Ok (MkRouter _ (<[path := h]> (routes rtr)) (sealed rtr)).
End router.

(** ** Keeper *)

Section keeper.
Context `{DO : Dec.Ops} `{CO : Coins.Ops} `{EV : Env} {W E : Type} `{SA : !Slashing.SlashApp W} `{ET : EvidenceType E}
  `{EA : !EvidenceApp W E}.

Abbreviation State := (StakingState W) (only parsing).
Abbreviation MS := (M (StakingState W)) (only parsing).

(** What the keeper's router holds. *)
Definition Handler : Type := Context → E → M (StakingState W) unit.

Definition MaxEvidenceAge (s : State) : Z := pMaxEvidenceAge (eparams (evid (world s))).
Definition GetEvidence (hash : string) (s : State) : option E := evidences (evid (world s)) !! hash.
Definition SetEvidence (evidence : E) : MS unit :=
  modify (λ s, set_world (set_evid (MkEvidenceStore _ (<[Hash evidence := evidence]> (evidences (evid (world s))))
                                      (eparams (evid (world s)))) (world s)) s).
Definition GetAllEvidence (s : State) : list E := snd <$> kv_sorted (evidences (evid (world s))).
Definition SetParams (p : Params) : MS unit :=
  modify (λ s, set_world (set_evid (MkEvidenceStore _ (evidences (evid (world s))) p) (world s)) s).

(** The age is the difference of two times. *)
Definition HandleDoubleSign (ctx : Context) (evidence : Equivocation) : MS unit :=
  let consAddr := ConsensusAddress evidence in
  let age := BlockTime ctx - default 0 (Time evidence) in
  pubkey ← gets (Slashing.GetPubkey consAddr);
  match pubkey with
  | None => mret tt
  | Some _ =>
      maxAge ← gets MaxEvidenceAge;
      if (maxAge <? age)%Z then mret tt
      else
        o ← gets (GetValidatorByConsAddr consAddr);
        match o with
        | None => mret tt
        | Some validator =>
            if IsUnbonded validator then mret tt
            else
              has ← gets (Slashing.HasValidatorSigningInfo consAddr);
              if negb has then panic
              else
                tombstoned ← gets (Slashing.IsTombstoned consAddr);
                if tombstoned : bool then mret tt
                else
                  AppendAbandonedValidatorAddrs consAddr;;
                  (if negb (Jailed validator) then Slashing.keeper_Jail consAddr else mret tt);;
                  Slashing.JailUntil consAddr DoubleSignJailEndTime;;
                  Slashing.Tombstone consAddr
        end
  end.

(** abci.go: other types of evidence are only logged. *)
Definition BeginBlocker (ctx : Context) (byzantine : list AbciEvidence) : MS unit :=
  mapM_ (λ e, match aType e with
              | DuplicateVote => HandleDoubleSign ctx (ConvertDuplicateVoteEvidence e)
              | OtherKind _ => mret tt
              end) byzantine.

Definition GetEvidenceHandler (router : Router Handler) (evidenceRoute : string) : outcome Handler :=
  if negb (HasRoute evidenceRoute router) then Err EvidenceErr.ErrNoEvidenceHandlerExists
  else GetRoute evidenceRoute router.

Definition SubmitEvidence (router : Router Handler) (ctx : Context) (evidence : E) : MS unit :=
  o ← gets (GetEvidence (Hash evidence));
  throw_if (bool_decide (is_Some o)) EvidenceErr.ErrEvidenceExists;;
  throw_if (negb (HasRoute (Route evidence) router)) EvidenceErr.ErrNoEvidenceHandlerExists;;
  handler ← lift (GetRoute (Route evidence) router);
  wrap_err (λ _, EvidenceErr.ErrInvalidEvidence) (handler ctx evidence);;
  SetEvidence evidence.

(** A nil evidence does not pass ValidateBasic. *)
Definition handleMsgSubmitEvidence (router : Router Handler) (ctx : Context) (msg : MsgSubmitEvidence E) : MS unit :=
  e ← lift (or_panic (mEvidence msg)); SubmitEvidence router ctx e.

Definition NewHandler (router : Router Handler) (ctx : Context) (msg : Msg E) : MS unit :=
  match msg with
  | MSubmitEvidence m => handleMsgSubmitEvidence router ctx m
  | MOther => throw Coins.ErrUnknownRequest
  end.

(** genesis.go *)
Definition init_evidence (e : E) : MS unit :=
  o ← gets (GetEvidence (Hash e));
  if bool_decide (is_Some o) then panic else SetEvidence e.
Definition InitGenesis (gs : GenesisState E) : MS unit :=
  (match GenesisState_Validate gs with Ok _ => mret tt | _ => panic end);;
  mapM_ init_evidence (gEvidence gs);;
  SetParams (gParams gs).
Definition ExportGenesis (s : State) : GenesisState E :=
  MkGenesisState _ (eparams (evid (world s))) (GetAllEvidence s).
End keeper.

End Evidence.
