(* ===== verification/DistrErrors.v ===== *)
(** * Errors of the distribution module: src/x/distribution/types/errors.go

    An error is its codespace and code; the constructors' arguments only fill in
    the message, which the model drops. *)

From S2P Require Import Prelude.

#[local] Open Scope Z_scope.

Module DistrErr.
Definition DefaultCodespace : string := "distribution".

Definition ErrNilDelegatorAddr : error := MkError DefaultCodespace 67800.
Definition ErrNoValidatorCommission : error := MkError DefaultCodespace 67801.
Definition ErrSetWithdrawAddrDisabled : error := MkError DefaultCodespace 67802.
Definition ErrSendCoinsFromModuleToAccountFailed : error := MkError DefaultCodespace 67807.
Definition ErrWithdrawValidatorCommissionFailed : error := MkError DefaultCodespace 67808.
Definition ErrUnknownDistributionMsgType : error := MkError DefaultCodespace 67809.
Definition ErrUnknownDistributionCommunityPoolProposaType : error := MkError DefaultCodespace 67810.
Definition ErrUnknownDistributionQueryType : error := MkError DefaultCodespace 67811.
Definition ErrUnknownDistributionParamType : error := MkError DefaultCodespace 67812.
Definition ErrWithdrawAddrInblacklist : error := MkError DefaultCodespace 67813.
Definition ErrNilWithdrawAddr : error := MkError DefaultCodespace 67814.
Definition ErrNilValidatorAddr : error := MkError DefaultCodespace 67815.
Definition ErrBadDistribution : error := MkError DefaultCodespace 67816.
Definition ErrInvalidProposalAmount : error := MkError DefaultCodespace 67817.
Definition ErrEmptyProposalRecipient : error := MkError DefaultCodespace 67818.

  (** Every error the file can build, in the order of the file. *)
Definition all : list error := [
    ErrNilDelegatorAddr;
    ErrNoValidatorCommission;
    ErrSetWithdrawAddrDisabled;
    ErrSendCoinsFromModuleToAccountFailed;
    ErrWithdrawValidatorCommissionFailed;
    ErrUnknownDistributionMsgType;
    ErrUnknownDistributionCommunityPoolProposaType;
    ErrUnknownDistributionQueryType;
    ErrUnknownDistributionParamType;
    ErrWithdrawAddrInblacklist;
    ErrNilWithdrawAddr;
    ErrNilValidatorAddr;
    ErrBadDistribution;
    ErrInvalidProposalAmount;
    ErrEmptyProposalRecipient
  ].
End DistrErr.
