(* ===== verification/Distribution.v ===== *)
(** * The distribution module: src/x/distribution

    The fees of a block go to the validators: a quarter in equal parts to those that voted
    for the previous block, three quarters by shares to all that are not in jail; the
    community tax and what the roundings leave go to the community pool.  A validator's
    part is its accumulated commission until it is withdrawn; all coins lie in the account
    of the module.  [DistrStore] is the store, [DistrApp] gives access to it and to the
    bank of the state [W] around the staking module.

    [DistrEnv] holds what is code of others: the split of coins into whole coins and the
    rest, the account that collects the fees, the accounts that may not receive coins, the
    first height of the chain and an error of the SDK. *)

From S2P Require Import Prelude SdkDec SdkCoins GoStd Common DistrErrors GovErrors Token Gov Staking Slashing.

#[local] Open Scope Z_scope.

Module Distribution.
Import Staking.

(** ** Data (types) *)

Definition ModuleName : string := "distribution".

Record Params := MkParams { CommunityTax : Dec; WithdrawAddrEnabled : bool }.
Record FeePool := MkFeePool { CommunityPool : SysCoins }.

(** The store: withdraw addresses, fee pool, previous proposer and accumulated commissions;
    and the parameters. *)
Record DistrStore := MkDistrStore {
  withdrawAddrs : gmap AccAddress AccAddress;
  feePool : option FeePool;
  prevProposer : option ConsAddress;
  commissions : gmap ValAddress SysCoins;
  dparams : Params;
}.

Section store_setters.
Implicit Type t : DistrStore.
Definition set_withdrawAddrs x t : DistrStore := MkDistrStore x (feePool t) (prevProposer t) (commissions t) (dparams t).
Definition set_feePool x t : DistrStore := MkDistrStore (withdrawAddrs t) x (prevProposer t) (commissions t) (dparams t).
Definition set_prevProposer x t : DistrStore := MkDistrStore (withdrawAddrs t) (feePool t) x (commissions t) (dparams t).
Definition set_commissions x t : DistrStore := MkDistrStore (withdrawAddrs t) (feePool t) (prevProposer t) x (dparams t).
Definition set_dparams x t : DistrStore := MkDistrStore (withdrawAddrs t) (feePool t) (prevProposer t) (commissions t) x.
End store_setters.

Record MsgSetWithdrawAddress := MkMsgSetWithdrawAddress { swDelegatorAddress : AccAddress; swWithdrawAddress : AccAddress }.
Record MsgWithdrawValidatorCommission := MkMsgWithdrawValidatorCommission { wcValidatorAddress : ValAddress }.

Inductive Msg :=
| MSetWithdrawAddress (m : MsgSetWithdrawAddress)
| MWithdrawValidatorCommission (m : MsgWithdrawValidatorCommission)
| MOther.

Record CommunityPoolSpendProposal := MkCommunityPoolSpendProposal {
  csTitle : string; csDescription : string; Recipient : AccAddress; csAmount : SysCoins
}.

Inductive Content := CCommunityPoolSpend (p : CommunityPoolSpendProposal) | COther.

Record GenesisState := MkGenesisState {
  gParams : Params;
  gFeePool : FeePool;
  (* delegator and withdraw address *)
  gDelegatorWithdrawInfos : list (AccAddress * AccAddress);
  gPreviousProposer : ConsAddress;
  gValidatorAccumulatedCommissions : list (ValAddress * SysCoins);
}.

(** ** Interfaces *)

Class DistrEnv := {
  TruncateDecimal : SysCoins → SysCoins * SysCoins;
  feeCollectorName : string;
  blacklistedAddrs : AccAddress → bool;
  StartBlockHeight : Z;
  ErrUnauthorized : error;
}.

Class DistrApp (W : Type) `{BO : Bank.Ops} := {
  dbank : W → Bank.state;
  set_dbank : Bank.state → W → W;
  distr : W → DistrStore;
  set_distr : DistrStore → W → W;
}.

(** ** Stateless checks *)

Section validate.
Context `{DO : Dec.Ops} `{CO : Coins.Ops}.

Definition MsgSetWithdrawAddress_ValidateBasic (msg : MsgSetWithdrawAddress) : outcome unit :=
  if Token.Empty (swDelegatorAddress msg) then Err DistrErr.ErrNilDelegatorAddr
  else if Token.Empty (swWithdrawAddress msg) then Err DistrErr.ErrNilWithdrawAddr else Ok tt.
Definition MsgWithdrawValidatorCommission_ValidateBasic (msg : MsgWithdrawValidatorCommission) : outcome unit :=
  if Token.Empty (wcValidatorAddress msg) then Err DistrErr.ErrNilValidatorAddr else Ok tt.

Definition Proposal_ValidateBasic (csp : CommunityPoolSpendProposal) : outcome unit :=
  _ ← Gov.ValidateAbstract (csTitle csp) (csDescription csp);
  if negb (Coins.IsValid (csAmount csp)) then Err DistrErr.ErrInvalidProposalAmount
  else if Token.Empty (Recipient csp) then Err DistrErr.ErrEmptyProposalRecipient
  else Ok tt.

Definition DefaultParams : Params := MkParams (Dec.NewDecWithPrec 2 2) true.
Definition InitialFeePool : FeePool := MkFeePool [].
Definition InitialValidatorAccumulatedCommission : SysCoins := [].

Definition Params_ValidateBasic (p : Params) : outcome unit :=
  if (Dec.IsNegative (CommunityTax p) || Dec.GT (CommunityTax p) Dec.OneDec)%bool then Err Common.plain_error else Ok tt.
(** A nil decimal is the value None. *)
Definition validateCommunityTax (v : option Dec) : outcome unit :=
  match v with
  | None => Err Common.plain_error
  | Some v =>
      if Dec.IsNegative v then Err Common.plain_error
      else if Dec.GT v Dec.OneDec then Err Common.plain_error else Ok tt
  end.
Definition FeePool_ValidateGenesis (f : FeePool) : outcome unit :=
  if Coins.IsAnyNegative (CommunityPool f) then Err Common.plain_error else Ok tt.
Definition ValidateGenesis (gs : GenesisState) : outcome unit :=
  _ ← Params_ValidateBasic (gParams gs); FeePool_ValidateGenesis (gFeePool gs).
Definition DefaultGenesisState : GenesisState := MkGenesisState DefaultParams InitialFeePool [] "" [].
End validate.

(** ** Keeper *)

Section keeper.
Context `{DO : Dec.Ops} `{CO : Coins.Ops} `{BO : Bank.Ops} `{EV : Env} `{DE : DistrEnv} {W : Type} `{DA : !DistrApp W}.

Abbreviation State := (StakingState W) (only parsing).
Abbreviation MS := (M (StakingState W)) (only parsing).

Definition ds (s : State) : DistrStore := distr (world s).
Definition modify_ds (f : DistrStore → DistrStore) : MS unit :=
  modify (λ s, set_world (set_distr (f (distr (world s))) (world s)) s).
Definition on_bank {A} (m : M Bank.state A) : MS A :=
  zoom (λ s, dbank (world s)) (λ b s, set_world (set_dbank b (world s)) s) m.

(** *** The store (keeper/store.go, params.go, alias_functions.go) *)

Definition GetDelegatorWithdrawAddr (delAddr : AccAddress) (s : State) : AccAddress :=
  default delAddr (withdrawAddrs (ds s) !! delAddr).
Definition SetDelegatorWithdrawAddr (delAddr withdrawAddr : AccAddress) : MS unit :=
  modify_ds (λ t, set_withdrawAddrs (<[delAddr := withdrawAddr]> (withdrawAddrs t)) t).

Definition GetFeePool : MS FeePool := o ← gets (λ s, feePool (ds s)); lift (or_panic o).
Definition SetFeePool (pool : FeePool) : MS unit := modify_ds (set_feePool (Some pool)).
Definition GetFeePoolCommunityCoins : MS SysCoins := pool ← GetFeePool; mret (CommunityPool pool).

Definition GetPreviousProposerConsAddr : MS ConsAddress := o ← gets (λ s, prevProposer (ds s)); lift (or_panic o).
Definition SetPreviousProposerConsAddr (consAddr : ConsAddress) : MS unit := modify_ds (set_prevProposer (Some consAddr)).

Definition GetValidatorAccumulatedCommission (val : ValAddress) (s : State) : SysCoins :=
  default [] (commissions (ds s) !! val).
Definition SetValidatorAccumulatedCommission (val : ValAddress) (commission : SysCoins) : MS unit :=
  let c := if Coins.IsZero commission then InitialValidatorAccumulatedCommission else commission in
  modify_ds (λ t, set_commissions (<[val := c]> (commissions t)) t).
Definition deleteValidatorAccumulatedCommission (val : ValAddress) : MS unit :=
  modify_ds (λ t, set_commissions (delete val (commissions t)) t).

Definition GetCommunityTax (s : State) : Dec := CommunityTax (dparams (ds s)).
Definition GetWithdrawAddrEnabled (s : State) : bool := WithdrawAddrEnabled (dparams (ds s)).
Definition SetParams (p : Params) : MS unit := modify_ds (set_dparams p).

Definition GetDistributionAccount (s : State) : SysCoins :=
  Bank.GetCoins (dbank (world s)) (Bank.GetModuleAddress ModuleName).

(** *** Withdrawals (keeper/keeper.go) *)

Definition SetWithdrawAddr (delegatorAddr withdrawAddr : AccAddress) : MS unit :=
  throw_if (blacklistedAddrs withdrawAddr) DistrErr.ErrWithdrawAddrInblacklist;;
  enabled ← gets GetWithdrawAddrEnabled;
  throw_if (negb enabled) DistrErr.ErrSetWithdrawAddrDisabled;;
  SetDelegatorWithdrawAddr delegatorAddr withdrawAddr.

Definition WithdrawValidatorCommission (valAddr : ValAddress) : MS SysCoins :=
  accumCommission ← gets (GetValidatorAccumulatedCommission valAddr);
  throw_if (Coins.IsZero accumCommission) DistrErr.ErrNoValidatorCommission;;
  let '(commission, remainder) := TruncateDecimal accumCommission in
  SetValidatorAccumulatedCommission valAddr remainder;;
  (if Coins.IsZero commission then mret tt
   else
     withdrawAddr ← gets (GetDelegatorWithdrawAddr valAddr);
     wrap_err (λ _, DistrErr.ErrSendCoinsFromModuleToAccountFailed)
       (on_bank (Bank.SendCoinsFromModuleToAccount ModuleName withdrawAddr commission)));;
  mret commission.

(** *** Allocation (keeper/allocation.go) *)

Definition valPortion : Dec := Dec.NewDecWithPrec 25 2.
Definition votePortion : Dec := Dec.NewDecWithPrec 75 2.

Definition AllocateTokensToValidator (val : Validator) (tokens : SysCoins) : MS unit :=
  commission ← gets (GetValidatorAccumulatedCommission (OperatorAddress val));
  SetValidatorAccumulatedCommission (OperatorAddress val) (Coins.Add commission tokens).

(** The validators of the votes that are not in jail. *)
Definition unjailed_voters (previousVotes : list Slashing.VoteInfo) (s : State) : list Validator :=
  filter (λ v, Jailed v = false) (omap (λ vote, GetValidatorByConsAddr (Slashing.VoteAddress vote) s) previousVotes).

Fixpoint equal_loop (validators : list Validator) (reward remaining : SysCoins) : MS SysCoins :=
  match validators with
  | [] => mret remaining
  | val :: l =>
      AllocateTokensToValidator val reward;;
      remaining ← lift (or_panic (Coins.Sub remaining reward));
      equal_loop l reward remaining
  end.

(** The division panics when no validator that voted is out of jail. *)
Definition allocateByEqual (rewards : SysCoins) (previousVotes : list Slashing.VoteInfo) : MS SysCoins :=
  validators ← gets (unjailed_voters previousVotes);
  powerFraction ← lift (or_panic (Dec.QuoTruncate (Dec.NewDec 1) (Dec.NewDec (Z.of_nat (length validators)))));
  equal_loop validators (Coins.MulDecTruncate rewards powerFraction) rewards.

Fixpoint shares_loop (validators : list Validator) (totalVotes : Dec) (rewards remaining : SysCoins) : MS SysCoins :=
  match validators with
  | [] => mret remaining
  | val :: l =>
      powerFraction ← lift (or_panic (Dec.QuoTruncate (DelegatorShares val) totalVotes));
      let reward := Coins.MulDecTruncate rewards powerFraction in
      AllocateTokensToValidator val reward;;
      remaining ← lift (or_panic (Coins.Sub remaining reward));
      shares_loop l totalVotes rewards remaining
  end.

Definition unjailed_validators (s : State) : list Validator := filter (λ v, Jailed v = false) (GetAllValidators s).

Definition allocateByShares (rewards : SysCoins) : MS SysCoins :=
  validators ← gets unjailed_validators;
  let totalVotes := foldl (λ t v, Dec.Add t (DelegatorShares v)) (Dec.NewDec 0) validators in
  shares_loop validators totalVotes rewards rewards.

(** The fees after the tax, and their two parts. *)
Definition AllocateTokens (totalPreviousPower : Z) (previousVotes : list Slashing.VoteInfo) : MS unit :=
  feesCollected ← gets (λ s, Bank.GetCoins (dbank (world s)) (Bank.GetModuleAddress feeCollectorName));
  if (length feesCollected =? 0)%nat then mret tt
  else
    must (on_bank (Bank.SendCoinsFromModuleToModule feeCollectorName ModuleName feesCollected));;
    pool ← GetFeePool;
    if (totalPreviousPower =? 0)%Z
    then SetFeePool (MkFeePool (Coins.Add (CommunityPool pool) feesCollected))
    else
      tax ← gets GetCommunityTax;
      let feesToVals := Coins.MulDecTruncate feesCollected (Dec.Sub Dec.OneDec tax) in
      let feeByEqual := Coins.MulDecTruncate feesToVals valPortion in
      let feeByVote := Coins.MulDecTruncate feesToVals votePortion in
      feesToCommunity ← lift (or_panic (Coins.Sub feesCollected (Coins.Add feeByEqual feeByVote)));
      remainByEqual ← allocateByEqual feeByEqual previousVotes;
      remainByShare ← allocateByShares feeByVote;
      let feesToCommunity := Coins.Add feesToCommunity (Coins.Add remainByEqual remainByShare) in
      if Coins.IsZero feesToCommunity then mret tt
      else SetFeePool (MkFeePool (Coins.Add (CommunityPool pool) feesToCommunity)).

(** abci.go; the sum of the powers is an int64. *)
Definition BeginBlocker (ctx : Context) (proposer : ConsAddress) (votes : list Slashing.VoteInfo) : MS unit :=
  let previousTotalPower := foldl (λ t v, int64 (t + Slashing.VotePower v)) 0 votes in
  (if (StartBlockHeight + 1 <? BlockHeight ctx)%Z then
     GetPreviousProposerConsAddr;;
     AllocateTokens previousTotalPower votes
   else mret tt);;
  SetPreviousProposerConsAddr proposer.

(** *** Hooks (keeper/hooks.go, validator.go) *)

Definition initializeValidator (val : Validator) : MS unit :=
  SetValidatorAccumulatedCommission (OperatorAddress val) InitialValidatorAccumulatedCommission.

Definition AfterValidatorCreated (valAddr : ValAddress) : MS unit :=
  o ← gets (GetValidator valAddr);
  val ← lift (or_panic o);
  initializeValidator val.

Definition AfterValidatorRemoved (valAddr : ValAddress) : MS unit :=
  commission ← gets (GetValidatorAccumulatedCommission valAddr);
  (if Coins.IsZero commission then mret tt
   else
     let '(coins, remainder) := TruncateDecimal commission in
     (if Coins.IsZero remainder then mret tt
      else
        pool ← GetFeePool;
        SetFeePool (MkFeePool (Coins.Add (CommunityPool pool) remainder)));;
     (if Coins.IsZero coins then mret tt
      else
        withdrawAddr ← gets (GetDelegatorWithdrawAddr valAddr);
        must (on_bank (Bank.SendCoinsFromModuleToAccount ModuleName withdrawAddr coins))));;
  deleteValidatorAccumulatedCommission valAddr.

(** *** Proposals (keeper/proposal_handler.go) *)

Definition distributeFromFeePool (amount : SysCoins) (receiveAddr : AccAddress) : MS unit :=
  pool ← GetFeePool;
  let '(newPool, negative) := Coins.SafeSub (CommunityPool pool) amount in
  throw_if negative DistrErr.ErrBadDistribution;;
  on_bank (Bank.SendCoinsFromModuleToAccount ModuleName receiveAddr amount);;
  SetFeePool (MkFeePool newPool).

Definition HandleCommunityPoolSpendProposal (p : CommunityPoolSpendProposal) : MS unit :=
  throw_if (blacklistedAddrs (Recipient p)) ErrUnauthorized;;
  distributeFromFeePool (csAmount p) (Recipient p).

(** *** Handlers (handler.go) *)

Definition handleMsgModifyWithdrawAddress (msg : MsgSetWithdrawAddress) : MS unit :=
  SetWithdrawAddr (swDelegatorAddress msg) (swWithdrawAddress msg).
Definition handleMsgWithdrawValidatorCommission (msg : MsgWithdrawValidatorCommission) : MS unit :=
  WithdrawValidatorCommission (wcValidatorAddress msg);; mret tt.

Definition NewHandler (msg : Msg) : MS unit :=
  match msg with
  | MSetWithdrawAddress m => handleMsgModifyWithdrawAddress m
  | MWithdrawValidatorCommission m => handleMsgWithdrawValidatorCommission m
  | MOther => throw DistrErr.ErrUnknownDistributionMsgType
  end.

Definition NewCommunityPoolSpendProposalHandler (content : Content) : MS unit :=
  match content with
  | CCommunityPoolSpend c => HandleCommunityPoolSpendProposal c
  | COther => throw DistrErr.ErrUnknownDistributionCommunityPoolProposaType
  end.

(** *** Invariants (keeper/invariants.go): whether they are broken *)

Definition all_commissions (s : State) : list SysCoins := snd <$> kv_sorted (commissions (ds s)).

Definition NonNegativeCommissionsInvariant (s : State) : bool := existsb Coins.IsAnyNegative (all_commissions s).

(** Withdraws the commission of every validator, one after the other, on a copy of the
    state. *)
Fixpoint withdraw_all (validators : list Validator) (s : State) : outcome bool :=
  match validators with
  | [] => Ok false
  | val :: l =>
      if Coins.IsZero (GetValidatorAccumulatedCommission (OperatorAddress val) s) then withdraw_all l s
      else
        match WithdrawValidatorCommission (OperatorAddress val) s with
        | (Ok _, s') => withdraw_all l s'
        | (Err _, s') => _ ← withdraw_all l s'; Ok true
        | (Panic, _) => Panic
        end
  end.
Definition CanWithdrawInvariant (s : State) : outcome bool := withdraw_all (GetAllValidators s) s.

Definition ModuleAccountInvariant (s : State) : outcome bool :=
  let accumulatedCommission := foldl Coins.Add [] (all_commissions s) in
  communityPool ← or_panic (CommunityPool <$> feePool (ds s));
  eq ← or_panic (Coins.IsEqual (GetDistributionAccount s) (Coins.Add communityPool accumulatedCommission));
  Ok (negb eq).

(** *** Genesis (genesis.go) *)

Definition init_commission (holdings : SysCoins) (acc : ValAddress * SysCoins) : MS SysCoins :=
  SetValidatorAccumulatedCommission (fst acc) (snd acc);; mret (Coins.Add holdings (snd acc)).

Fixpoint init_commissions (holdings : SysCoins) (l : list (ValAddress * SysCoins)) : MS SysCoins :=
  match l with
  | [] => mret holdings
  | acc :: l => holdings ← init_commission holdings acc; init_commissions holdings l
  end.

Definition InitGenesis (data : GenesisState) : MS unit :=
  SetFeePool (gFeePool data);;
  SetParams (gParams data);;
  SetPreviousProposerConsAddr (gPreviousProposer data);;
  mapM_ (λ dwi, SetDelegatorWithdrawAddr (fst dwi) (snd dwi)) (gDelegatorWithdrawInfos data);;
  moduleHoldings ← init_commissions [] (gValidatorAccumulatedCommissions data);
  let moduleHoldings := Coins.Add moduleHoldings (CommunityPool (gFeePool data)) in
  coins ← gets GetDistributionAccount;
  if Coins.IsZero coins
  then modify (λ s, set_world (set_dbank (Bank.SetModuleCoins ModuleName moduleHoldings (dbank (world s))) (world s)) s)
  else mret tt.

Definition ExportGenesis (s : State) : outcome GenesisState :=
  pool ← or_panic (feePool (ds s));
  pp ← or_panic (prevProposer (ds s));
  Ok (MkGenesisState (dparams (ds s)) pool (kv_sorted (withdrawAddrs (ds s))) pp (kv_sorted (commissions (ds s)))).
End keeper.

End Distribution.
