(* ===== verification/DistrSpec.v ===== *)
(** * The distribution module in order

    [distr_inv]: the account of the module holds at least the community pool and all
    accumulated commissions, commissions belong to accounts that can be paid, and so do
    withdraw addresses.  [pays ps] describes an allocation by the list [ps] of the payments
    it makes: the commissions of the payees grow by them, and nothing else changes.  The
    loops of the allocation make the payments [equal_payments] and [share_payments]. *)

From S2P Require Import Prelude Runs SdkDec SdkCoins GoStd CoinFacts Common DistrErrors Token Staking Slashing Distribution.

#[local] Open Scope Z_scope.

Module DistrSpec.
Import Staking Distribution.

(** ** Laws of the interfaces *)

(** A part of the state that the module has no access to is [rest]. *)
Class DistrAppLaws (W R : Type) `{BO : Bank.Ops} `{DA : !DistrApp W} (rest : W → R) : Prop := {
  distr_set_distr t w : distr (set_distr t w) = t;
  dbank_set_distr t w : dbank (set_distr t w) = dbank w;
  distr_set_dbank b w : distr (set_dbank b w) = distr w;
  dbank_set_dbank b w : dbank (set_dbank b w) = b;
  rest_set_distr t w : rest (set_distr t w) = rest w;
  rest_set_dbank b w : rest (set_dbank b w) = rest w;
}.

Definition distrAcc `{BO : Bank.Ops} : AccAddress := Bank.GetModuleAddress ModuleName.
Definition feeAcc `{BO : Bank.Ops} `{DE : DistrEnv} : AccAddress := Bank.GetModuleAddress feeCollectorName.

(** An account that the module may pay. *)
Definition payable `{BO : Bank.Ops} (a : AccAddress) : Prop :=
  a ≠ distrAcc ∧ a ≠ Bank.GetModuleAddress BondedPoolName ∧ a ≠ Bank.GetModuleAddress NotBondedPoolName.

(** The split leaves less than one whole coin of each denomination, and the module
    accounts are on the list of those that may not receive coins. *)
Class DistrEnvLaws `{DO : Dec.Ops} `{CO : Coins.Ops} `{BO : Bank.Ops} `{DE : DistrEnv} : Prop := {
  TruncateDecimal_valid c : Coins.IsValid c = true →
    Coins.IsValid (TruncateDecimal c).1 = true ∧ Coins.IsValid (TruncateDecimal c).2 = true;
  TruncateDecimal_amt c d : Coins.IsValid c = true →
    amt d (TruncateDecimal c).1 = amt d c / Dec.unit * Dec.unit ∧
    amt d (TruncateDecimal c).2 = amt d c mod Dec.unit;
  blacklisted_modules : blacklistedAddrs distrAcc = true ∧
    blacklistedAddrs (Bank.GetModuleAddress BondedPoolName) = true ∧
    blacklistedAddrs (Bank.GetModuleAddress NotBondedPoolName) = true;
  accounts_differ : feeAcc ≠ distrAcc ∧ payable feeAcc;
}.

(** ** Facts on coins *)

Section coins.
Context `{DO : Dec.Ops} `{DL : !Dec.Laws} `{CO : Coins.Ops} `{CL : !Coins.Laws}.

Lemma valid_zero c : Coins.IsValid c = true → Coins.IsZero c = true → c = [].
Proof.
  rewrite Coins.IsValid_spec, Coins.IsZero_spec. intros [_ HV] HZ. destruct c as [|x c]; [done|].
  apply Forall_cons in HV as [[? _] _]. apply Forall_cons in HZ as [? _]. lia.
Qed.

Lemma valid_nonzero c : Coins.IsValid c = true → Coins.IsZero c = false → c ≠ [].
Proof. intros _ H ->. assert (Coins.IsZero [] = true) by (by apply Coins.IsZero_spec). congruence. Qed.

(** A difference that does not become negative. *)
Lemma Sub_some a b : Coins.good a → Coins.good b → (∀ d, amt d b ≤ amt d a) →
  ∃ c, Coins.Sub a b = Some c ∧ Coins.IsValid c = true ∧ ∀ d, amt d c = amt d a - amt d b.
Proof.
  intros Ha Hb Hle. rewrite Coins.Sub_spec. pose proof (proj2 (Coins.SafeSub_neg a b (good_sorted _ Ha) (good_sorted _ Hb)) Hle) as Hn.
  rewrite Hn. eexists. split; [done|]. split; [by apply Coins.SafeSub_valid|]. intros d. apply Coins.SafeSub_amt; by apply good_sorted.
Qed.

Lemma Add_valid a b : Coins.good a → Coins.good b → Coins.IsValid (Coins.Add a b) = true.
Proof. intros. rewrite Coins.Add_spec. by apply Coins.Add2_valid. Qed.

Lemma Add_amt a b d : Coins.good a → Coins.good b → amt d (Coins.Add a b) = amt d a + amt d b.
Proof. intros. rewrite Coins.Add_spec. apply Coins.Add2_amt; by apply good_sorted. Qed.

Lemma Mul_amt c x d : Coins.good c → 0 ≤ x → amt d (Coins.MulDecTruncate c x) = amt d c * x / Dec.unit.
Proof.
  intros Hc Hx. rewrite Coins.MulDecTruncate_amt by done. pose proof unit_pos. pose proof (good_amt c d Hc).
  apply Z.quot_div_nonneg; nia.
Qed.
End coins.

(** ** Frames and payments *)

Section spec.
Context `{DO : Dec.Ops} `{DL : !Dec.Laws} `{CO : Coins.Ops} `{CL : !Coins.Laws} `{BO : Bank.Ops} `{BL : !Bank.Laws}
  `{EV : Env} `{DE : DistrEnv} `{EL : !DistrEnvLaws} {W R : Type} `{DA : !DistrApp W} (rest : W → R)
  `{AL : !DistrAppLaws W R rest}.
Implicit Types (w : W) (s : StakingState W) (v : ValAddress) (a : AccAddress) (ps : list (ValAddress * SysCoins)).

Abbreviation MS := (M (StakingState W)) (only parsing).

(** The module writes to its store and to the bank only. *)
Definition frame s s' : Prop := (∃ w', s' = set_world w' s) ∧ rest (world s') = rest (world s).

Lemma frame_refl s : frame s s.
Proof. split; [|done]. exists (world s). by destruct s. Qed.

Lemma frame_trans s1 s2 s3 : frame s1 s2 → frame s2 s3 → frame s1 s3.
Proof. intros [[w1 ->] H1] [[w2 ->] H2]. split; [by exists w2|]. by rewrite H2. Qed.

Lemma frame_ds f s : frame s (set_world (set_distr f (world s)) s).
Proof. split; [by eexists|]. cbn. apply rest_set_distr. Qed.

Lemma frame_bank b s : frame s (set_world (set_dbank b (world s)) s).
Proof. split; [by eexists|]. cbn. apply rest_set_dbank. Qed.

(** All payments to an account, and all payments. *)
Definition gain ps v (d : string) : Z := zsum ((λ p, if decide (fst p = v) then amt d (snd p) else 0) <$> ps).
Definition paid ps (d : string) : Z := zsum ((λ p, amt d (snd p)) <$> ps).

Definition comm_ok (m : gmap ValAddress SysCoins) : Prop :=
  ∀ v c, m !! v = Some c → Coins.IsValid c = true ∧ (c ≠ [] → payable v).
Definition comm_of s v : SysCoins := GetValidatorAccumulatedCommission v s.

Record pays ps s s' : Prop := {
  pa_frame : frame s s';
  pa_bank : dbank (world s') = dbank (world s);
  pa_store : set_commissions ∅ (ds s') = set_commissions ∅ (ds s);
  pa_ok : comm_ok (commissions (ds s'));
  pa_gain v d : amt d (comm_of s' v) = amt d (comm_of s v) + gain ps v d;
  pa_total d : msum (amt d) (commissions (ds s')) = msum (amt d) (commissions (ds s)) + paid ps d;
}.

Lemma pays_nil s : comm_ok (commissions (ds s)) → pays [] s s.
Proof. intros H. split; try done; [apply frame_refl|..]; intros; unfold gain, paid; cbn; lia. Qed.

Lemma pays_app ps1 ps2 s1 s2 s3 : pays ps1 s1 s2 → pays ps2 s2 s3 → pays (ps1 ++ ps2) s1 s3.
Proof.
  intros [A1 A2 A3 A4 A5 A6] [B1 B2 B3 B4 B5 B6]. split; [by eapply frame_trans|congruence..|done| |].
  - intros v d. rewrite B5, A5. unfold gain. rewrite fmap_app, zsum_app. lia.
  - intros d. rewrite B6, A6. unfold paid. rewrite fmap_app, zsum_app. lia.
Qed.

(** Writing the commission of one validator. *)
Lemma set_commission_runs v c s : Coins.IsValid c = true → runs (SetValidatorAccumulatedCommission v c) s
  (λ _ s', frame s s' ∧ dbank (world s') = dbank (world s) ∧ ds s' = set_commissions (<[v := c]> (commissions (ds s))) (ds s)).
Proof.
  intros HV. unfold SetValidatorAccumulatedCommission, modify_ds. apply runs_modify.
  split; [apply frame_ds|]. cbn. rewrite dbank_set_distr. split; [done|]. unfold ds. cbn. rewrite distr_set_distr.
  destruct (Coins.IsZero c) eqn:E; [|done]. by rewrite (valid_zero c HV E).
Qed.

Lemma comm_ok_insert m v c : comm_ok m → Coins.IsValid c = true → (c ≠ [] → payable v) → comm_ok (<[v := c]> m).
Proof.
  intros Hm Hc Hp u x. rewrite lookup_insert. case_decide as E; [|apply Hm]. intros [= <-]. subst u. done.
Qed.

Lemma comm_valid s v : comm_ok (commissions (ds s)) → Coins.IsValid (comm_of s v) = true.
Proof.
  intros H. unfold comm_of, GetValidatorAccumulatedCommission. destruct (commissions (ds s) !! v) as [c|] eqn:E; [|apply valid_nil].
  apply (H v c E).
Qed.

Lemma comm_amt s v d : from_option (amt d) 0 (commissions (ds s) !! v) = amt d (comm_of s v).
Proof. unfold comm_of, GetValidatorAccumulatedCommission. by destruct (commissions (ds s) !! v). Qed.

Lemma pay_one_runs V c s : comm_ok (commissions (ds s)) → payable (OperatorAddress V) → Coins.IsValid c = true →
  runs (AllocateTokensToValidator V c) s (λ _, pays [(OperatorAddress V, c)] s).
Proof.
  intros HC HP HV. unfold AllocateTokensToValidator. apply runs_bind, runs_gets. set (v := OperatorAddress V).
  fold (comm_of s v). pose proof (comm_valid s v HC) as HV0.
  assert (Coins.IsValid (Coins.Add (comm_of s v) c) = true) as HV1 by (apply Add_valid; by apply valid_good).
  eapply runs_mono; [by apply set_commission_runs|]. intros _ s' (HF & HB & HD). cbn beta.
  assert (∀ d, amt d (Coins.Add (comm_of s v) c) = amt d (comm_of s v) + amt d c) as HA
    by (intros d; apply Add_amt; by apply valid_good).
  split; [done|done|by rewrite HD| | |].
  - rewrite HD. cbn. by apply comm_ok_insert.
  - intros u d. unfold gain. cbn. rewrite <-!comm_amt, HD. cbn [commissions set_commissions]. rewrite lookup_insert.
    destruct (decide (v = u)) as [<-|Hu]; cbn.
    + rewrite HA, comm_amt. lia.
    + lia.
  - intros d. rewrite HD. cbn [commissions set_commissions]. rewrite msum_insert, comm_amt, HA. unfold paid. cbn. lia.
Qed.

(** ** The loops of the allocation *)

Definition equal_payments (l : list Validator) (reward : SysCoins) : list (ValAddress * SysCoins) :=
  (λ V, (OperatorAddress V, reward)) <$> l.

Lemma equal_loop_runs l reward remaining s : comm_ok (commissions (ds s)) → Forall (λ V, payable (OperatorAddress V)) l →
  Coins.IsValid reward = true → Coins.IsValid remaining = true →
  (∀ d, Z.of_nat (length l) * amt d reward ≤ amt d remaining) →
  runs (equal_loop l reward remaining) s (λ r s', pays (equal_payments l reward) s s' ∧ Coins.IsValid r = true ∧
    ∀ d, amt d r = amt d remaining - paid (equal_payments l reward) d).
Proof.
  intros HC HP HV. revert remaining s HC. induction HP as [|V l HPV HP IH]; intros remaining s HC HR Hle; cbn [equal_loop].
  - apply runs_ret. split; [by apply pays_nil|]. split; [done|]. intros d. unfold paid. cbn. lia.
  - apply runs_bind. eapply runs_mono; [by apply pay_one_runs|]. intros [] s1 H1. cbn beta in H1 |- *.
    assert (∀ d, Z.of_nat (length l) * amt d reward + amt d reward ≤ amt d remaining) as Hle'
      by (intros d; specialize (Hle d); cbn [length] in Hle; lia).
    destruct (Sub_some remaining reward) as (r & Er & Hr & Ha); [by apply valid_good..| |].
    { intros d. specialize (Hle' d). pose proof (valid_amt reward d HV). nia. }
    apply runs_bind. eapply runs_lift; [by rewrite Er|]. eapply runs_mono.
    { apply IH; [apply H1|done|]. intros d. specialize (Hle' d). rewrite Ha. lia. }
    intros r' s2 (H2 & Hr' & Ha'). split; [by apply (pays_app [_] _ s s1 s2)|]. split; [done|]. intros d. rewrite Ha', Ha.
    unfold paid, equal_payments. rewrite !fmap_cons, zsum_cons. cbn [snd]. lia.
Qed.

(** The part of a validator in what goes by shares. *)
Definition fraction (total : Dec) V : Dec := DelegatorShares V * Dec.unit / total.
Definition share_payments (total : Dec) (l : list Validator) (rewards : SysCoins) : list (ValAddress * SysCoins) :=
  (λ V, (OperatorAddress V, Coins.MulDecTruncate rewards (fraction total V))) <$> l.

Lemma fraction_nonneg total V : 0 < total → 0 ≤ DelegatorShares V → 0 ≤ fraction total V.
Proof. intros Ht Hs. pose proof unit_pos. apply Z.div_pos; nia. Qed.

(** What a list of validators is paid of a reward whose fractions sum up to [q]. *)
Lemma share_payments_le total l rewards d : Coins.good rewards → 0 < total → Forall (λ V, 0 ≤ DelegatorShares V) l →
  paid (share_payments total l rewards) d * Dec.unit ≤ amt d rewards * zsum (fraction total <$> l).
Proof.
  intros HR Ht. pose proof unit_pos as Hu. pose proof (good_amt rewards d HR) as Ha. induction 1 as [|V l HV HL IH]; [cbn; lia|].
  unfold paid, share_payments in *. rewrite !fmap_cons, !zsum_cons. cbn [snd].
  rewrite Mul_amt by (done || by apply fraction_nonneg).
  pose proof (Z.mul_div_le (amt d rewards * fraction total V) Dec.unit Hu). nia.
Qed.

Lemma fractions_le total l : 0 < total → Forall (λ V, 0 ≤ DelegatorShares V) l →
  zsum (fraction total <$> l) * total ≤ zsum (DelegatorShares <$> l) * Dec.unit.
Proof.
  intros Ht. pose proof unit_pos as Hu. induction 1 as [|V l HV HL IH]; [cbn; lia|]. rewrite !fmap_cons, !zsum_cons.
  unfold fraction at 1. pose proof (Z.mul_div_le (DelegatorShares V * Dec.unit) total Ht). nia.
Qed.

Lemma shares_loop_runs l total rewards remaining s : comm_ok (commissions (ds s)) →
  Forall (λ V, payable (OperatorAddress V) ∧ 0 ≤ DelegatorShares V) l → (l = [] ∨ 0 < total) →
  Coins.IsValid rewards = true → Coins.IsValid remaining = true →
  (∀ d, paid (share_payments total l rewards) d ≤ amt d remaining) →
  runs (shares_loop l total rewards remaining) s (λ r s', pays (share_payments total l rewards) s s' ∧
    Coins.IsValid r = true ∧ ∀ d, amt d r = amt d remaining - paid (share_payments total l rewards) d).
Proof.
  intros HC HP HT HV. revert remaining s HC. induction HP as [|V l [HPV HSV] HP IH]; intros remaining s HC HR Hle; cbn [shares_loop].
  - apply runs_ret. split; [by apply pays_nil|]. split; [done|]. intros d. unfold paid. cbn. lia.
  - destruct HT as [?|HT]; [done|]. apply runs_bind. eapply runs_lift; [by rewrite Dec.QuoTruncate_spec by lia|].
    rewrite Z.quot_div_nonneg by (pose proof unit_pos; nia). cbv beta zeta.
    fold (fraction total V). set (reward := Coins.MulDecTruncate rewards (fraction total V)).
    assert (Coins.IsValid reward = true) as HVr by (apply Coins.MulDecTruncate_valid; [by apply valid_good|by apply fraction_nonneg]).
    apply runs_bind. eapply runs_mono; [by apply pay_one_runs|]. intros [] s1 H1. cbn beta in H1 |- *.
    assert (∀ d, amt d reward + paid (share_payments total l rewards) d ≤ amt d remaining) as Hle' by exact Hle.
    assert (∀ d, 0 ≤ paid (share_payments total l rewards) d) as Hpos.
    { intros d. apply zsum_nonneg, Forall_fmap. unfold share_payments. apply Forall_fmap. eapply Forall_impl; [exact HP|].
      intros U [_ HU]. cbn. apply valid_amt, Coins.MulDecTruncate_valid; [by apply valid_good|by apply fraction_nonneg]. }
    destruct (Sub_some remaining reward) as (r & Er & Hr & Ha); [by apply valid_good..| |].
    { intros d. specialize (Hle' d). specialize (Hpos d). lia. }
    apply runs_bind. eapply runs_lift; [by rewrite Er|]. eapply runs_mono.
    { apply IH; [by right|apply H1|done|]. intros d. specialize (Hle' d). rewrite Ha. lia. }
    intros r' s2 (H2 & Hr' & Ha'). split; [by apply (pays_app [_] _ s s1 s2)|]. split; [done|]. intros d. rewrite Ha', Ha.
    unfold paid, share_payments. rewrite !fmap_cons, zsum_cons. cbn [snd]. fold reward. lia.
Qed.

(** ** The invariant *)

Definition pool_amt w (d : string) : Z := from_option (λ p, amt d (CommunityPool p)) 0 (feePool (distr w)).
(** What the account of the module has to cover, and what it holds beyond that. *)
Definition owed w (d : string) : Z := pool_amt w d + msum (amt d) (commissions (distr w)).
Definition dsurplus w (d : string) : Z := Bank.balance (dbank w) distrAcc d - owed w d.

Record distr_inv w : Prop := {
  di_comm : comm_ok (commissions (distr w));
  di_pool : ∃ p, feePool (distr w) = Some p ∧ Coins.IsValid (CommunityPool p) = true;
  di_owed d : 0 ≤ dsurplus w d;
  di_addrs a x : withdrawAddrs (distr w) !! a = Some x → payable x;
  di_tax : 0 ≤ CommunityTax (dparams (distr w)) ≤ Dec.unit;
  di_proposer : is_Some (prevProposer (distr w));
}.

(** What the module needs to know of the staking module. *)
Definition validators_ok s : Prop := ∀ v V, validators s !! v = Some V →
  OperatorAddress V = v ∧ payable v ∧ 0 ≤ DelegatorShares V ∧ (Jailed V = false → 0 < DelegatorShares V).

Definition fees_of s : SysCoins := Bank.GetCoins (dbank (world s)) feeAcc.
Definition total_shares (l : list Validator) : Z := zsum (DelegatorShares <$> l).

(** The payments of a block: one part in equal shares to those that voted, one by the
    shares of delegators. *)
Definition allocation (power : Z) (votes : list Slashing.VoteInfo) s : list (ValAddress * SysCoins) :=
  if decide (fees_of s = [] ∨ power = 0) then []
  else
    let feesToVals := Coins.MulDecTruncate (fees_of s) (Dec.unit - CommunityTax (dparams (ds s))) in
    let voters := unjailed_voters votes s in
    equal_payments voters (Coins.MulDecTruncate (Coins.MulDecTruncate feesToVals valPortion) (Dec.unit / Z.of_nat (length voters)))
    ++ share_payments (total_shares (unjailed_validators s)) (unjailed_validators s) (Coins.MulDecTruncate feesToVals votePortion).

Lemma portions : valPortion + votePortion = Dec.unit ∧ 0 ≤ valPortion ∧ 0 ≤ votePortion.
Proof.
  unfold valPortion, votePortion. pose proof Dec.Precision_ge. rewrite !Dec.NewDecWithPrec_spec by lia. unfold Dec.unit.
  replace (10 ^ Dec.Precision) with (100 * 10 ^ (Dec.Precision - 2)).
  - pose proof (Z.pow_nonneg 10 (Dec.Precision - 2)). lia.
  - change 100 with (10 ^ 2). rewrite <-Z.pow_add_r by lia. f_equal. lia.
Qed.

Lemma parts_le (n x y : Z) : 0 ≤ n → 0 ≤ x → 0 ≤ y → x + y ≤ Dec.unit → n * x / Dec.unit + n * y / Dec.unit ≤ n.
Proof.
  intros Ha Hx Hy Hxy. pose proof unit_pos as Hu. pose proof (Z.mul_div_le (n * x) Dec.unit Hu). pose proof (Z.mul_div_le (n * y) Dec.unit Hu). nia.
Qed.

Lemma tax_part_le (n t : Z) : 0 ≤ n → 0 ≤ t ≤ Dec.unit → 0 ≤ n * (Dec.unit - t) / Dec.unit ≤ n.
Proof.
  intros Ha Ht. pose proof unit_pos as Hu. split; [apply Z.div_pos; nia|]. pose proof (Z.mul_div_le (n * (Dec.unit - t)) Dec.unit Hu). nia.
Qed.

(** The two parts of the fees are at most the fees. *)
Lemma fee_parts (fees : SysCoins) tax : Coins.IsValid fees = true → 0 ≤ tax ≤ Dec.unit →
  let feesToVals := Coins.MulDecTruncate fees (Dec.unit - tax) in
  let e := Coins.MulDecTruncate feesToVals valPortion in
  let v := Coins.MulDecTruncate feesToVals votePortion in
  Coins.IsValid e = true ∧ Coins.IsValid v = true ∧ ∀ d, amt d e + amt d v ≤ amt d fees.
Proof.
  intros HV Ht. destruct portions as (P1 & P2 & P3). cbv zeta.
  assert (Coins.good (Coins.MulDecTruncate fees (Dec.unit - tax))) as Hg
    by (apply valid_good, Coins.MulDecTruncate_valid; [by apply valid_good|lia]).
  split; [by apply Coins.MulDecTruncate_valid|]. split; [by apply Coins.MulDecTruncate_valid|]. intros d.
  rewrite !(Mul_amt _ _ d Hg) by done. rewrite Mul_amt by (lia || by apply valid_good).
  pose proof (tax_part_le (amt d fees) tax (valid_amt fees d HV) Ht).
  pose proof (parts_le (amt d fees * (Dec.unit - tax) / Dec.unit) valPortion votePortion). lia.
Qed.

Lemma equal_fits (c : SysCoins) (n : nat) d : Coins.IsValid c = true → (0 < n)%nat →
  Z.of_nat n * amt d (Coins.MulDecTruncate c (Dec.unit / Z.of_nat n)) ≤ amt d c.
Proof.
  intros HV Hn. pose proof unit_pos as Hu. pose proof (valid_amt c d HV) as Ha. set (q := Dec.unit / Z.of_nat n).
  assert (0 ≤ q) by (apply Z.div_pos; lia). assert (Z.of_nat n * q ≤ Dec.unit) by (apply Z.mul_div_le; lia).
  rewrite Mul_amt by (done || by apply valid_good). pose proof (Z.mul_div_le (amt d c * q) Dec.unit Hu). nia.
Qed.

Lemma shares_fit l (c : SysCoins) d : Coins.IsValid c = true → Forall (λ V, 0 ≤ DelegatorShares V) l → l = [] ∨ 0 < total_shares l →
  paid (share_payments (total_shares l) l c) d ≤ amt d c.
Proof.
  intros HV HF HT. pose proof (valid_amt c d HV) as Ha. destruct HT as [->|HT]; [done|].
  pose proof unit_pos as Hu. pose proof (share_payments_le (total_shares l) l c d (valid_good _ HV) HT HF).
  pose proof (fractions_le (total_shares l) l HT HF) as H2. fold (total_shares l) in H2.
  assert (zsum (fraction (total_shares l) <$> l) ≤ Dec.unit) by nia. nia.
Qed.

(** ** Allocation *)

Lemma frame_staking s s' : frame s s' → (∀ votes, unjailed_voters votes s' = unjailed_voters votes s) ∧
  unjailed_validators s' = unjailed_validators s ∧ validators s' = validators s.
Proof. by intros [[w' ->] _]. Qed.

Lemma voter_ok votes s V : validators_ok s → V ∈ unjailed_voters votes s → payable (OperatorAddress V).
Proof.
  intros HV [_ (x & _ & Hx)%list_elem_of_omap]%list_elem_of_filter. unfold GetValidatorByConsAddr in Hx.
  destruct (byConsAddr s !! _) as [v|]; [|done]. destruct (HV v V Hx) as (-> & Hp & _). done.
Qed.

Lemma unjailed_ok s V : validators_ok s → V ∈ unjailed_validators s → payable (OperatorAddress V) ∧ 0 < DelegatorShares V.
Proof.
  intros HV [HJ Hx]%list_elem_of_filter. unfold GetAllValidators in Hx. apply list_elem_of_fmap in Hx as ([v U] & -> & Hx).
  apply elem_of_kv_sorted in Hx. cbn in *. destruct (HV v U Hx) as (-> & Hp & _ & Hs). split; [done|by apply Hs].
Qed.

Lemma equal_fraction n : (0 < n)%nat → Dec.QuoTruncate (Dec.NewDec 1) (Dec.NewDec (Z.of_nat n)) = Some (Dec.unit / Z.of_nat n).
Proof.
  intros Hn. pose proof unit_pos as Hu. rewrite !Dec.NewDec_spec, Dec.QuoTruncate_spec by nia. f_equal.
  rewrite Z.mul_1_l, Z.quot_mul_cancel_r by lia. apply Z.quot_div_nonneg; lia.
Qed.

Lemma equal_runs rewards votes s : comm_ok (commissions (ds s)) → Coins.IsValid rewards = true → validators_ok s →
  unjailed_voters votes s ≠ [] →
  let l := unjailed_voters votes s in
  let ps := equal_payments l (Coins.MulDecTruncate rewards (Dec.unit / Z.of_nat (length l))) in
  runs (allocateByEqual rewards votes) s (λ r s', pays ps s s' ∧ Coins.IsValid r = true ∧ ∀ d, amt d r = amt d rewards - paid ps d).
Proof.
  intros HC HV HO Hn l ps. unfold allocateByEqual. apply runs_bind, runs_gets. fold l.
  assert (0 < length l)%nat as Hl by (unfold l; destruct (unjailed_voters votes s); [done|cbn; lia]).
  apply runs_bind. eapply runs_lift; [by rewrite equal_fraction|]. apply equal_loop_runs; [done|..|done|].
  - apply Forall_forall. intros V. by apply voter_ok.
  - apply Coins.MulDecTruncate_valid; [by apply valid_good|]. pose proof unit_pos. apply Z.div_pos; lia.
  - intros d. by apply equal_fits.
Qed.

Lemma equal_panics rewards votes s : unjailed_voters votes s = [] → allocateByEqual rewards votes s = (Panic, s).
Proof.
  intros E. unfold allocateByEqual, gets, lift, mbind, M_bind. rewrite E. cbn [length]. change (Z.of_nat 0) with 0.
  by rewrite (Dec.NewDec_spec 0), Dec.QuoTruncate_zero.
Qed.

Lemma foldl_shares (l : list Validator) (t : Z) : foldl (λ t V, Dec.Add t (DelegatorShares V)) t l = t + total_shares l.
Proof.
  revert t. unfold total_shares. induction l as [|V l IH]; intros t; [cbn; lia|]. cbn [foldl]. rewrite IH, fmap_cons, zsum_cons, Dec.Add_spec. lia.
Qed.

Lemma shares_runs rewards s : comm_ok (commissions (ds s)) → Coins.IsValid rewards = true → validators_ok s →
  let ps := share_payments (total_shares (unjailed_validators s)) (unjailed_validators s) rewards in
  runs (allocateByShares rewards) s (λ r s', pays ps s s' ∧ Coins.IsValid r = true ∧ ∀ d, amt d r = amt d rewards - paid ps d).
Proof.
  intros HC HV HO ps. unfold allocateByShares. apply runs_bind, runs_gets. cbv zeta.
  rewrite foldl_shares, Dec.NewDec_spec. change (0 * Dec.unit + total_shares (unjailed_validators s)) with (total_shares (unjailed_validators s)).
  assert (unjailed_validators s = [] ∨ 0 < total_shares (unjailed_validators s)) as Ht.
  { assert (∀ V, V ∈ unjailed_validators s → 0 < DelegatorShares V) as H by (intros V HVs; by destruct (unjailed_ok s V HO HVs)).
    destruct (unjailed_validators s) as [|V l]; [by left|right]. unfold total_shares. rewrite fmap_cons, zsum_cons.
    pose proof (H V ltac:(left)). assert (0 ≤ zsum (DelegatorShares <$> l)); [|lia]. apply zsum_nonneg, Forall_fmap, Forall_forall.
    intros U HU. cbn. apply Z.lt_le_incl, H. by right. }
  assert (Forall (λ V, payable (OperatorAddress V) ∧ 0 ≤ DelegatorShares V) (unjailed_validators s)) as HF.
  { apply Forall_forall. intros V HVs. destruct (unjailed_ok s V HO HVs). split; [done|lia]. }
  apply shares_loop_runs; try done. intros d. apply shares_fit; [done| |done]. eapply Forall_impl; [exact HF|]. by intros V [_ ?].
Qed.

(** All fees go to the account of the module, or there are none. *)
Definition collect_step (b b' : Bank.state) : Prop := b' = b ∨ ∃ c, Bank.SendCoins feeAcc distrAcc c b = (Ok tt, b').

(** What the fees become: nothing but the fee collector pays, and it is emptied. *)
Record allocated (power : Z) (votes : list Slashing.VoteInfo) s s' : Prop := {
  ad_frame : frame s s';
  ad_inv : distr_inv (world s');
  ad_surplus d : dsurplus (world s') d = dsurplus (world s) d;
  ad_collector d : Bank.balance (dbank (world s')) feeAcc d = 0;
  ad_others a d : a ≠ feeAcc → a ≠ distrAcc → Bank.balance (dbank (world s')) a d = Bank.balance (dbank (world s)) a d;
  ad_gain v d : amt d (comm_of s' v) = amt d (comm_of s v) + gain (allocation power votes s) v d;
  ad_pool d : pool_amt (world s') d = pool_amt (world s) d + amt d (fees_of s) - paid (allocation power votes s) d;
  ad_bank : collect_step (dbank (world s)) (dbank (world s'));
}.

(** The fees arrive at the module. *)
Lemma collect_runs s (Q : unit → StakingState W → Prop) :
  (∀ b', Bank.moved (dbank (world s)) b' feeAcc distrAcc (fees_of s) → collect_step (dbank (world s)) b' →
    Q tt (set_world (set_dbank b' (world s)) s)) →
  runs (must (on_bank (Bank.SendCoinsFromModuleToModule feeCollectorName ModuleName (fees_of s)))) s Q.
Proof.
  intros HQ. rewrite Bank.ModuleToModule_spec. fold distrAcc.
  destruct (Bank.ModuleSend_total feeCollectorName distrAcc (fees_of s) (dbank (world s))) as [b' Hb].
  { apply Bank.GetCoins_valid. }
  { intros d. unfold Bank.balance, fees_of, feeAcc. lia. }
  destruct (Bank.SendCoins_ok _ _ _ _ _ Hb) as [Hm _]. exists tt, (set_world (set_dbank b' (world s)) s). split; [|apply HQ; [done|right; by eexists]].
  unfold must, on_bank, zoom. by rewrite Hb.
Qed.

Lemma pays_inv_fields ps s s' : pays ps s s' → feePool (ds s') = feePool (ds s) ∧ prevProposer (ds s') = prevProposer (ds s) ∧
  withdrawAddrs (ds s') = withdrawAddrs (ds s) ∧ dparams (ds s') = dparams (ds s).
Proof. intros [_ _ H _ _ _]. by injection H as -> -> -> ->. Qed.

(** After the fees have arrived and the payments are made, the pool gets [c]. *)
Lemma fill_pool ps s s1 s2 pool c b' : distr_inv (world s) → feePool (ds s) = Some pool →
  s1 = set_world (set_dbank b' (world s)) s → Bank.moved (dbank (world s)) b' feeAcc distrAcc (fees_of s) →
  pays ps s1 s2 → Coins.IsValid c = true → (∀ d, amt d c = amt d (fees_of s) - paid ps d) →
  runs (if Coins.IsZero c then mret tt else SetFeePool (MkFeePool (Coins.Add (CommunityPool pool) c))) s2 (λ _ s',
    frame s s' ∧ distr_inv (world s') ∧ (∀ d, dsurplus (world s') d = dsurplus (world s) d) ∧ dbank (world s') = b' ∧
    (∀ v d, amt d (comm_of s' v) = amt d (comm_of s v) + gain ps v d) ∧
    ∀ d, pool_amt (world s') d = pool_amt (world s) d + amt d (fees_of s) - paid ps d).
Proof.
  intros [I1 (p & Hp & Hpv) I3 I4 I5 I6] Epool Es1 Hm HP HV Ha. unfold ds in Epool. rewrite Hp in Epool. injection Epool as ->.
  pose proof (pays_inv_fields _ _ _ HP) as (F1 & F2 & F3 & F4). destruct HP as [P1 P2 P3 P4 P5 P6].
  assert (ds s1 = ds s) as Eds by (subst s1; unfold ds; cbn; apply distr_set_dbank).
  assert (dbank (world s1) = b') as Eb by (subst s1; cbn; apply dbank_set_dbank).
  assert (frame s s2) as HF by (eapply frame_trans; [|exact P1]; subst s1; apply frame_bank).
  rewrite Eds in *. rewrite Eb in P2.
  set (Q := λ s', frame s s' ∧ distr_inv (world s') ∧ (∀ d, dsurplus (world s') d = dsurplus (world s) d) ∧ dbank (world s') = b' ∧
    (∀ v d, amt d (comm_of s' v) = amt d (comm_of s v) + gain ps v d) ∧
    ∀ d, pool_amt (world s') d = pool_amt (world s) d + amt d (fees_of s) - paid ps d).
  assert (∀ s3 q, frame s s3 → dbank (world s3) = b' → ds s3 = set_feePool (Some q) (ds s2) → Coins.IsValid (CommunityPool q) = true →
    (∀ d, amt d (CommunityPool q) = amt d (CommunityPool pool) + amt d c) → Q s3) as Hdone.
  { intros s3 q K1 K2 K3 K4 K5. unfold ds in *.
    assert (∀ d, pool_amt (world s3) d = pool_amt (world s) d + amt d (fees_of s) - paid ps d) as Hpool.
    { intros d. unfold pool_amt. rewrite K3, Hp. cbn. rewrite K5, Ha. lia. }
    assert (∀ d, dsurplus (world s3) d = dsurplus (world s) d) as Hsur.
    { intros d. unfold dsurplus, owed. rewrite Hpool, K2, K3. cbn [commissions set_feePool]. rewrite P6.
      rewrite (proj1 Hm). pose proof (proj1 accounts_differ). repeat case_decide; try congruence; lia. }
    split; [done|]. split.
    - split.
      + by rewrite K3.
      + exists q. by rewrite K3.
      + intros d. rewrite Hsur. apply I3.
      + intros a x. rewrite K3. cbn. rewrite F3. apply I4.
      + rewrite K3. cbn. by rewrite F4.
      + rewrite K3. cbn. by rewrite F2.
    - split; [done|]. split; [done|]. split; [|done]. intros v d. rewrite <-!comm_amt. unfold ds. rewrite K3. cbn.
      specialize (P5 v d). rewrite <-!comm_amt in P5. unfold ds in P5. rewrite P5. subst s1. cbn. by rewrite distr_set_dbank. }
  destruct (Coins.IsZero c) eqn:EZ.
  - apply runs_ret. rewrite (valid_zero c HV EZ) in *. apply (Hdone s2 pool); try done.
    + unfold ds in *. destruct (distr (world s2)) as [? fp ? ? ?]. cbn in *. unfold set_feePool. cbn. rewrite F1, Hp. done.
    + intros d. rewrite amt_nil. lia.
  - unfold SetFeePool, modify_ds. apply runs_modify. eapply (Hdone _ (MkFeePool (Coins.Add (CommunityPool pool) c))).
    + eapply frame_trans; [exact HF|apply frame_ds].
    + cbn. by rewrite dbank_set_distr.
    + unfold ds. cbn. apply distr_set_distr.
    + cbn. apply Add_valid; by apply valid_good.
    + intros d. cbn. apply Add_amt; by apply valid_good.
Qed.

Lemma empty_fees s : (length (fees_of s) =? 0)%nat = bool_decide (fees_of s = []).
Proof. destruct (fees_of s); [done|]. by rewrite bool_decide_eq_false_2. Qed.

(** The payments after the fees have arrived. *)
Lemma allocation_parts power votes s b' : distr_inv (world s) → validators_ok s → fees_of s ≠ [] → power ≠ 0 →
  unjailed_voters votes s ≠ [] → let s1 := set_world (set_dbank b' (world s)) s in
  let feesToVals := Coins.MulDecTruncate (fees_of s) (Dec.unit - CommunityTax (dparams (ds s))) in
  runs (feesToCommunity ← lift (or_panic (Coins.Sub (fees_of s)
          (Coins.Add (Coins.MulDecTruncate feesToVals valPortion) (Coins.MulDecTruncate feesToVals votePortion))));
        remainByEqual ← allocateByEqual (Coins.MulDecTruncate feesToVals valPortion) votes;
        remainByShare ← allocateByShares (Coins.MulDecTruncate feesToVals votePortion);
        mret (Coins.Add feesToCommunity (Coins.Add remainByEqual remainByShare))) s1
    (λ c s2, pays (allocation power votes s) s1 s2 ∧ Coins.IsValid c = true ∧
      ∀ d, amt d c = amt d (fees_of s) - paid (allocation power votes s) d).
Proof.
  intros [I1 _ _ _ I5 _] HO Hf Hp Hn s1 feesToVals.
  destruct (fee_parts (fees_of s) (CommunityTax (dparams (ds s)))) as (V1 & V2 & Hle); [apply Bank.GetCoins_valid|done|].
  fold feesToVals in V1, V2, Hle.
  set (e := Coins.MulDecTruncate feesToVals valPortion) in *. set (v := Coins.MulDecTruncate feesToVals votePortion) in *.
  assert (Coins.IsValid (Coins.Add e v) = true) as V3 by (apply Add_valid; by apply valid_good).
  destruct (Sub_some (fees_of s) (Coins.Add e v)) as (rest0 & E0 & V0 & A0); [apply valid_good, Bank.GetCoins_valid|by apply valid_good|..].
  { intros d. rewrite Add_amt by (by apply valid_good). apply Hle. }
  assert (ds s1 = ds s) as Eds by (unfold s1, ds; cbn; apply distr_set_dbank).
  apply runs_bind. eapply runs_lift; [by rewrite E0|].
  apply runs_bind. eapply runs_mono; [apply (equal_runs e votes s1); [by rewrite Eds|done|exact HO|exact Hn]|].
  cbv zeta. intros r1 s2 (P1 & W1 & B1).
  pose proof (frame_staking _ _ (pa_frame _ _ _ P1)) as (_ & EV2 & EV3).
  apply runs_bind. eapply runs_mono; [apply (shares_runs v s2); [apply P1|done|]|].
  { intros u U. rewrite EV3. exact (HO u U). }
  cbv zeta. intros r2 s3 (P2 & W2 & B2). apply runs_ret. rewrite EV2 in P2, B2.
  assert (Coins.IsValid (Coins.Add r1 r2) = true) as W3 by (apply Add_valid; by apply valid_good).
  assert (allocation power votes s = equal_payments (unjailed_voters votes s1) (Coins.MulDecTruncate e (Dec.unit / Z.of_nat (length (unjailed_voters votes s1))))
    ++ share_payments (total_shares (unjailed_validators s1)) (unjailed_validators s1) v) as EA.
  { unfold allocation. rewrite decide_False; [done|]. by intros [?|?]. }
  rewrite EA. split; [by eapply pays_app|]. split; [apply Add_valid; by apply valid_good|]. intros d.
  rewrite !Add_amt by (by apply valid_good). rewrite A0, B1, B2, Add_amt by (by apply valid_good).
  unfold paid. rewrite fmap_app, zsum_app. lia.
Qed.

Lemma runs_bind3 {A B C D} (m1 : MS A) (m2 : MS B) (m3 : MS C) (f : A → B → C → D) (k : D → MS unit) s Q :
  runs ((x ← m1; y ← m2; z ← m3; mret (f x y z)) ≫= k) s Q → runs (x ← m1; y ← m2; z ← m3; k (f x y z)) s Q.
Proof.
  unfold runs, mbind, M_bind, mret, M_ret. destruct (m1 s) as [[x| |] s1]; [|done..]. destruct (m2 s1) as [[y| |] s2]; [|done..].
  by destruct (m3 s2) as [[z| |] s3].
Qed.

Lemma allocate_runs power votes s : distr_inv (world s) → validators_ok s →
  fees_of s = [] ∨ power = 0 ∨ unjailed_voters votes s ≠ [] →
  runs (AllocateTokens power votes) s (λ _, allocated power votes s).
Proof.
  intros HI HO HC. unfold AllocateTokens. apply runs_bind, runs_gets. fold feeAcc. fold (fees_of s). rewrite empty_fees.
  destruct (bool_decide_reflect (fees_of s = [])) as [Ef|Ef].
  - apply runs_ret. assert (allocation power votes s = []) as EA by (unfold allocation; rewrite decide_True; auto).
    split; rewrite ?EA; try done; [apply frame_refl|..].
    + intros d. unfold Bank.balance. change (Bank.GetCoins (dbank (world s)) feeAcc) with (fees_of s). by rewrite Ef.
    + intros v d. unfold gain. cbn. lia.
    + intros d. rewrite Ef, amt_nil. unfold paid. cbn. lia.
    + by left.
  - destruct HC as [?|HC]; [done|]. apply runs_bind, collect_runs. intros b' Hm Hb. set (s1 := set_world (set_dbank b' (world s)) s).
    destruct (di_pool _ HI) as (pool & Hpool & _). unfold GetFeePool. apply runs_bind, runs_bind, runs_gets.
    assert (ds s1 = ds s) as Eds by (unfold s1, ds; cbn; apply distr_set_dbank). rewrite Eds. eapply runs_lift; [unfold ds; by rewrite Hpool|].
    assert (∀ s', frame s s' ∧ distr_inv (world s') ∧ (∀ d, dsurplus (world s') d = dsurplus (world s) d) ∧
      dbank (world s') = b' ∧ (∀ v d, amt d (comm_of s' v) = amt d (comm_of s v) + gain (allocation power votes s) v d) ∧
      (∀ d, pool_amt (world s') d = pool_amt (world s) d + amt d (fees_of s) - paid (allocation power votes s) d) →
      allocated power votes s s') as Hdone.
    { intros s' (K1 & K2 & K3 & K4 & K5 & K6). split; try done.
      - intros d. rewrite K4, (proj1 Hm). rewrite decide_True by done. rewrite decide_False by (apply accounts_differ).
        unfold Bank.balance. change (Bank.GetCoins (dbank (world s)) feeAcc) with (fees_of s). lia.
      - intros a d Ha Hd. rewrite K4, (proj1 Hm), !decide_False by done. lia.
      - by rewrite K4. }
    destruct (Z.eqb_spec power 0) as [E0|E0].
    + assert (allocation power votes s = []) as EA by (unfold allocation; rewrite decide_True; auto).
      assert (∀ c, Coins.IsZero (fees_of s) = c → c = false) as Hz.
      { intros [] Ez; [|done]. destruct Ef. apply valid_zero; [apply Bank.GetCoins_valid|done]. }
      pose proof (fill_pool [] s s1 s1 pool (fees_of s) b' HI Hpool eq_refl Hm) as H. rewrite (Hz _ eq_refl) in H.
      eapply runs_mono; [apply H; [|apply Bank.GetCoins_valid|]|].
      * apply pays_nil. rewrite Eds. apply HI.
      * intros d. unfold paid. cbn. lia.
      * intros [] s' Hs. cbn beta in Hs. apply Hdone. by rewrite EA.
    + destruct HC as [?|Hn]; [done|]. apply runs_bind, runs_gets. unfold GetCommunityTax. rewrite Eds. cbv zeta.
      rewrite Dec.Sub_spec, Dec.OneDec_spec.
      apply (runs_bind3 _ _ _ (λ x y z, Coins.Add x (Coins.Add y z))
        (λ c, if Coins.IsZero c then mret tt else SetFeePool (MkFeePool (Coins.Add (CommunityPool pool) c)))).
      apply runs_bind. eapply runs_mono; [by apply (allocation_parts power votes s b')|]. intros c s2 (P & V & A). cbn beta.
      eapply runs_mono; [by eapply (fill_pool (allocation power votes s) s s1 s2 pool c b')|]. intros [] s'. apply Hdone.
Qed.

(** A panic in the first part of a bind, or after it. *)
Lemma panic_now {A B} (m : MS A) (f : A → MS B) s : fst (m s) = Panic → fst ((m ≫= f) s) = Panic.
Proof. unfold mbind, M_bind. by destruct (m s) as [[] s']. Qed.

Lemma panic_later {A B} (m : MS A) (f : A → MS B) s : runs m s (λ x s', fst (f x s') = Panic) → fst ((m ≫= f) s) = Panic.
Proof. intros (x & s' & E & H). by rewrite (bind_eq _ _ _ _ _ E). Qed.

(** Fees and votes, but no voter out of jail: the chain stops. *)
Lemma allocate_panics power votes s : distr_inv (world s) → fees_of s ≠ [] → power ≠ 0 → unjailed_voters votes s = [] →
  fst (AllocateTokens power votes s) = Panic.
Proof.
  intros HI Hf Hp Hn. unfold AllocateTokens. apply panic_later, runs_gets. fold feeAcc. fold (fees_of s). rewrite empty_fees.
  rewrite bool_decide_eq_false_2 by done. apply panic_later, collect_runs. intros b' _ _.
  destruct (di_pool _ HI) as (pool & Hpool & _). apply panic_later. unfold GetFeePool. apply runs_bind, runs_gets.
  unfold ds at 1. cbn. rewrite distr_set_dbank. eapply runs_lift; [by rewrite Hpool|].
  rewrite (proj2 (Z.eqb_neq _ _)) by done. apply panic_later, runs_gets. cbv zeta.
  destruct (Coins.Sub _ _) as [c|] eqn:E; [|by apply panic_now]. apply panic_later. eapply runs_lift; [done|].
  apply panic_now. by rewrite equal_panics.
Qed.

(** ** Withdrawals *)

(** The module pays an account, or nothing happens. *)
Definition bank_step (b b' : Bank.state) : Prop :=
  b' = b ∨ ∃ x c, payable x ∧ Bank.SendCoins distrAcc x c b = (Ok tt, b').

Lemma owed_part w v d : distr_inv w → amt d (default [] (commissions (distr w) !! v)) + pool_amt w d ≤ Bank.balance (dbank w) distrAcc d.
Proof.
  intros [I1 _ I3 _ _ _]. specialize (I3 d). unfold dsurplus, owed in I3.
  assert (amt d (default [] (commissions (distr w) !! v)) ≤ msum (amt d) (commissions (distr w))); [|lia].
  assert (map_Forall (λ _ c, 0 ≤ amt d c) (commissions (distr w))) as HF by (intros u c Hc; by apply valid_amt, (I1 u c Hc)).
  destruct (commissions (distr w) !! v) as [c|] eqn:E; [by apply (msum_le _ _ v)|]. cbn. rewrite amt_nil. by apply msum_nonneg.
Qed.

Lemma pool_amt_nonneg w d : distr_inv w → 0 ≤ pool_amt w d.
Proof. intros HI. destruct (di_pool w HI) as (p & Hp & Hv). unfold pool_amt. rewrite Hp. by apply valid_amt. Qed.

(** Coins that go to an account, or none at all. *)
Lemma pay_out_runs x c s (wrap : MS unit → MS unit) (Q : unit → StakingState W → Prop) :
  (∀ m s r, fst (m s) = Ok tt → m s = (Ok tt, r) → wrap m s = m s) →
  Coins.IsValid c = true → payable x → (∀ d, amt d c ≤ Bank.balance (dbank (world s)) distrAcc d) →
  (∀ b', bank_step (dbank (world s)) b' → Bank.moved (dbank (world s)) b' distrAcc x c → Q tt (set_world (set_dbank b' (world s)) s)) →
  runs (wrap (on_bank (Bank.SendCoinsFromModuleToAccount ModuleName x c))) s Q.
Proof.
  intros Hw HV HP Hle HQ. rewrite Bank.ModuleToAccount_spec. fold distrAcc.
  destruct (Bank.ModuleSend_total ModuleName x c (dbank (world s)) HV Hle) as [b' Hb].
  destruct (Bank.SendCoins_ok _ _ _ _ _ Hb) as [Hm _]. exists tt, (set_world (set_dbank b' (world s)) s).
  assert (on_bank (Bank.SendCoins distrAcc x c) s = (Ok tt, set_world (set_dbank b' (world s)) s)) as E
    by (unfold on_bank, zoom; unfold distrAcc; by rewrite Hb).
  split; [|by apply HQ; [right; by exists x, c|]]. rewrite <-E. eapply Hw; [|exact E]. by rewrite E.
Qed.

Lemma withdraw_payable w v : distr_inv w → default [] (commissions (distr w) !! v) ≠ [] → payable (default v (withdrawAddrs (distr w) !! v)).
Proof.
  intros HI Hc. destruct (withdrawAddrs (distr w) !! v) as [x|] eqn:E; [by apply (di_addrs w HI v)|]. cbn.
  destruct (commissions (distr w) !! v) as [c|] eqn:E'; [|done]. by apply (di_comm w HI v c E').
Qed.

Lemma moved_none b x : Bank.moved b b distrAcc x [].
Proof. split; [|done]. intros a d. rewrite amt_nil. repeat case_decide; lia. Qed.

(** What is taken from the commission goes to the pool or to an account. *)
Lemma settle_inv v o q p b x c w w' : distr_inv w → feePool (distr w) = Some p → Bank.moved (dbank w) b distrAcc x c → payable x →
  (∀ r, o = Some r → Coins.IsValid r = true ∧ (r ≠ [] → payable v)) → Coins.IsValid (CommunityPool q) = true →
  (∀ d, amt d (default [] (commissions (distr w) !! v)) + amt d (CommunityPool p) = amt d c + amt d (default [] o) + amt d (CommunityPool q)) →
  distr w' = set_feePool (Some q) (set_commissions (upd v o (commissions (distr w))) (distr w)) → dbank w' = b →
  distr_inv w' ∧ ∀ d, dsurplus w' d = dsurplus w d.
Proof.
  intros [I1 _ I3 I4 I5 I6] Hp Hm Hx Ho Hq Ha Ed Eb.
  assert (∀ d, dsurplus w' d = dsurplus w d) as Hs.
  { intros d. unfold dsurplus, owed, pool_amt. rewrite Ed, Eb, Hp. cbn [feePool set_feePool commissions set_commissions from_option].
    rewrite msum_upd, (proj1 Hm). specialize (Ha d). rewrite decide_True by done. rewrite decide_False by (destruct Hx as [Hx _]; congruence).
    destruct o, (commissions (distr w) !! v); cbn in *; rewrite ?amt_nil in Ha; lia. }
  split; [|done]. split; rewrite ?Ed; cbn; try done.
  - intros u r. rewrite lookup_upd. case_decide as E; [|apply I1]. subst u. apply Ho.
  - by exists q.
  - intros d. rewrite Hs. apply I3.
Qed.

Lemma truncated c d : Coins.IsValid c = true → amt d (TruncateDecimal c).1 + amt d (TruncateDecimal c).2 = amt d c.
Proof. intros HV. destruct (TruncateDecimal_amt c d HV) as [-> ->]. pose proof unit_pos. pose proof (Z.div_mod (amt d c) Dec.unit). lia. Qed.

Record withdrawn v s (c : SysCoins) s' : Prop := {
  wd_frame : frame s s';
  wd_inv : distr_inv (world s');
  wd_surplus d : dsurplus (world s') d = dsurplus (world s) d;
  wd_bank : bank_step (dbank (world s)) (dbank (world s'));
  wd_moved : Bank.moved (dbank (world s)) (dbank (world s')) distrAcc (GetDelegatorWithdrawAddr v s) c;
  wd_coins d : amt d c = amt d (comm_of s v) / Dec.unit * Dec.unit;
  wd_rest d : amt d (comm_of s' v) = amt d (comm_of s v) mod Dec.unit;
  wd_store : ∃ r, ds s' = set_commissions (<[v := r]> (commissions (ds s))) (ds s);
}.

Lemma withdraw_runs v s : distr_inv (world s) → comm_of s v ≠ [] → runs (WithdrawValidatorCommission v) s (withdrawn v s).
Proof.
  intros HI Hc. pose proof (comm_valid s v (di_comm _ HI)) as HV. unfold WithdrawValidatorCommission. apply runs_bind, runs_gets.
  fold (comm_of s v). destruct (Coins.IsZero (comm_of s v)) eqn:EZ; [by rewrite (valid_zero _ HV EZ) in Hc|].
  apply runs_bind, runs_ret. destruct (TruncateDecimal_valid (comm_of s v) HV) as [V1 V2].
  assert (∀ d, amt d (TruncateDecimal (comm_of s v)).1 + amt d (TruncateDecimal (comm_of s v)).2 = amt d (comm_of s v)) as HT
    by (intros d; by apply truncated).
  pose proof (λ d, TruncateDecimal_amt (comm_of s v) d HV) as HA. destruct (TruncateDecimal (comm_of s v)) as [coins remainder] eqn:ET. cbn in *.
  apply runs_bind. eapply runs_mono; [by apply set_commission_runs|]. intros _ s1 (F1 & B1 & D1). cbn beta.
  assert (payable v) as Hpv.
  { unfold comm_of, GetValidatorAccumulatedCommission in Hc. destruct (commissions (ds s) !! v) as [c|] eqn:E; [|done].
    by apply (di_comm _ HI v c E). }
  assert (payable (GetDelegatorWithdrawAddr v s)) as Hx by (by apply withdraw_payable).
  destruct (di_pool _ HI) as (p & Hp & Hpv').
  assert (∀ s' b', frame s1 s' → ds s' = ds s1 → dbank (world s') = b' → bank_step (dbank (world s)) b' →
    Bank.moved (dbank (world s)) b' distrAcc (GetDelegatorWithdrawAddr v s) coins → withdrawn v s coins s') as Hdone.
  { intros s' b' K1 K2 K3 K4 K5. rewrite D1 in K2.
    assert (distr (world s') = set_feePool (Some p) (set_commissions (upd v (Some remainder) (commissions (distr (world s)))) (distr (world s)))) as Ed.
    { unfold ds in K2. rewrite K2. unfold set_feePool, set_commissions. cbn. by rewrite Hp. }
    destruct (settle_inv v (Some remainder) p p b' (GetDelegatorWithdrawAddr v s) coins (world s) (world s')) as [L1 L2]; try done.
    { by intros r [= <-]. }
    { intros d. cbn. specialize (HT d). unfold comm_of, GetValidatorAccumulatedCommission, ds in HT. lia. }
    split; try done; [by eapply frame_trans|by rewrite K3|by rewrite K3|apply HA| |].
    - intros d. rewrite <-comm_amt, K2. cbn. rewrite lookup_insert_eq. apply HA.
    - exists remainder. by rewrite K2. }
  apply runs_bind. destruct (Coins.IsZero coins) eqn:EZ'.
  - apply runs_ret, runs_ret. apply (Hdone s1 (dbank (world s1))); [apply frame_refl|done|done|by left|].
    rewrite B1, (valid_zero _ V1 EZ'). apply moved_none.
  - assert (GetDelegatorWithdrawAddr v s1 = GetDelegatorWithdrawAddr v s) as EA by (unfold GetDelegatorWithdrawAddr; by rewrite D1).
    apply runs_bind, runs_gets. rewrite EA.
    apply pay_out_runs; [by intros m s0 r E0 E; unfold wrap_err; rewrite E|done|done|..].
    + intros d. rewrite B1. pose proof (owed_part (world s) v d HI). pose proof (pool_amt_nonneg (world s) d HI).
      specialize (HT d). unfold comm_of, GetValidatorAccumulatedCommission, ds in HT. pose proof (valid_amt remainder d V2). lia.
    + intros b'. rewrite B1. intros H1 H2. apply runs_ret. apply (Hdone _ b'); [apply frame_bank|unfold ds; cbn; apply distr_set_dbank|cbn; apply dbank_set_dbank|done|done].
Qed.

(** ** Hooks *)

(** What a call of the module does to the rest: it keeps its invariant and pays out at
    most. *)
Definition distr_step s s' : Prop :=
  frame s s' ∧ distr_inv (world s') ∧ bank_step (dbank (world s)) (dbank (world s')).

Lemma created_runs v V s : distr_inv (world s) → validators s !! v = Some V →
  runs (AfterValidatorCreated v) s (λ _ s', distr_step s s' ∧ ∀ d, dsurplus (world s) d ≤ dsurplus (world s') d).
Proof.
  intros HI HV. unfold AfterValidatorCreated, GetValidator. apply runs_bind, runs_gets. rewrite HV. apply runs_bind. eapply runs_lift; [done|].
  unfold initializeValidator. eapply runs_mono; [apply set_commission_runs, valid_nil|]. intros _ s' (F & B & D).
  pose proof HI as [I1 I2 I3 I4 I5 I6]. unfold ds in D.
  assert (∀ d, dsurplus (world s) d ≤ dsurplus (world s') d) as HS.
  { intros d. unfold dsurplus, owed, pool_amt. rewrite D, B. cbn. rewrite msum_insert, amt_nil.
    destruct (commissions (distr (world s)) !! OperatorAddress V) as [c|] eqn:E; cbn; [|lia].
    pose proof (valid_amt c d (proj1 (I1 _ c E))). lia. }
  split; [|done]. split; [done|]. split; [|left; exact B]. split; rewrite ?D; cbn; try done.
  - apply comm_ok_insert; [done|apply valid_nil|done].
  - intros d. by etrans; [apply I3|].
Qed.

Lemma upd_None v (m : gmap ValAddress SysCoins) : delete v m = upd v None m.
Proof. done. Qed.

(** What is left of a validator's commission: whole coins to its account, the rest to the
    pool. *)
Record cleared v s s' : Prop := {
  cl_step : distr_step s s';
  cl_surplus d : dsurplus (world s') d = dsurplus (world s) d;
  cl_commissions : commissions (ds s') = delete v (commissions (ds s));
  cl_pool d : pool_amt (world s') d = pool_amt (world s) d + amt d (comm_of s v) mod Dec.unit;
  cl_moved : ∃ c, Bank.moved (dbank (world s)) (dbank (world s')) distrAcc (GetDelegatorWithdrawAddr v s) c ∧
    ∀ d, amt d c = amt d (comm_of s v) / Dec.unit * Dec.unit;
}.

(** The record is deleted when the pool has the rest and the coins have left. *)
Lemma drop_runs v s s' p q coins : distr_inv (world s) → feePool (distr (world s)) = Some p →
  frame s s' → bank_step (dbank (world s)) (dbank (world s')) →
  Bank.moved (dbank (world s)) (dbank (world s')) distrAcc (GetDelegatorWithdrawAddr v s) coins →
  ds s' = set_feePool (Some q) (ds s) → Coins.IsValid (CommunityPool q) = true →
  (comm_of s v = [] ∨ payable (GetDelegatorWithdrawAddr v s)) →
  (∀ d, amt d coins = amt d (comm_of s v) / Dec.unit * Dec.unit) →
  (∀ d, amt d (CommunityPool q) = amt d (CommunityPool p) + amt d (comm_of s v) mod Dec.unit) →
  runs (deleteValidatorAccumulatedCommission v) s' (λ _, cleared v s).
Proof.
  intros HI Hp K1 K2 K3 K4 K5 K6 K7 K8. unfold deleteValidatorAccumulatedCommission, modify_ds. apply runs_modify.
  set (s2 := set_world _ s').
  assert (distr (world s2) = set_feePool (Some q) (set_commissions (upd v None (commissions (distr (world s)))) (distr (world s)))) as Ed.
  { unfold s2. cbn. rewrite distr_set_distr. unfold ds in K4. rewrite K4. unfold set_feePool, set_commissions. cbn. by rewrite upd_None. }
  assert (dbank (world s2) = dbank (world s')) as Eb by (unfold s2; cbn; apply dbank_set_distr).
  assert (∀ d, amt d (comm_of s v) / Dec.unit * Dec.unit + amt d (comm_of s v) mod Dec.unit = amt d (comm_of s v)) as HT.
  { intros d. pose proof unit_pos. pose proof (Z.div_mod (amt d (comm_of s v)) Dec.unit). lia. }
  assert (distr_inv (world s2) ∧ ∀ d, dsurplus (world s2) d = dsurplus (world s) d) as [L1 L2].
  { destruct K6 as [Ec|Hx].
    - destruct accounts_differ as [_ Hf]. apply (settle_inv v None q p (dbank (world s')) feeAcc [] (world s) (world s2)); try done.
      + split; [|apply K3]. intros a d. rewrite (proj1 K3). assert (amt d coins = 0) as -> by (rewrite K7; by rewrite Ec).
        rewrite amt_nil. repeat case_decide; lia.
      + intros d. rewrite K8. unfold comm_of, GetValidatorAccumulatedCommission, ds in *. rewrite Ec. cbn. rewrite amt_nil.
        rewrite Z.mod_0_l by (pose proof unit_pos; lia). lia.
    - apply (settle_inv v None q p (dbank (world s')) (GetDelegatorWithdrawAddr v s) coins (world s) (world s2)); try done.
      intros d. specialize (HT d). rewrite K7, K8. unfold comm_of, GetValidatorAccumulatedCommission, ds in *. cbn. rewrite amt_nil. lia. }
  split; [split; [eapply frame_trans; [exact K1|apply frame_ds]|]; split; [done|by rewrite Eb]|done|unfold ds at 1; by rewrite Ed| |].
  - intros d. unfold pool_amt. rewrite Ed, Hp. cbn. apply K8.
  - exists coins. by rewrite Eb.
Qed.

(** The pool takes what is less than a whole coin. *)
Lemma remainder_runs v p r s : distr_inv (world s) → feePool (distr (world s)) = Some p → Coins.IsValid r = true →
  (∀ d, amt d r = amt d (comm_of s v) mod Dec.unit) →
  runs (if Coins.IsZero r then mret tt else pool ← GetFeePool; SetFeePool (MkFeePool (Coins.Add (CommunityPool pool) r))) s
    (λ _ s1, frame s s1 ∧ dbank (world s1) = dbank (world s) ∧ ∃ q, ds s1 = set_feePool (Some q) (ds s) ∧
      Coins.IsValid (CommunityPool q) = true ∧ ∀ d, amt d (CommunityPool q) = amt d (CommunityPool p) + amt d (comm_of s v) mod Dec.unit).
Proof.
  intros HI Hp HV HA. destruct (di_pool _ HI) as (p' & Hp' & Hpv). rewrite Hp in Hp'. injection Hp' as <-. destruct (Coins.IsZero r) eqn:EZr.
  - apply runs_ret. split; [apply frame_refl|]. split; [done|]. exists p. split; [|split; [done|]].
    + unfold ds. destruct (distr (world s)). cbn in *. unfold set_feePool. cbn. by rewrite Hp.
    + intros d. rewrite <-HA, (valid_zero _ HV EZr), amt_nil. lia.
  - unfold GetFeePool. apply runs_bind, runs_bind, runs_gets. unfold ds at 1. rewrite Hp. eapply runs_lift; [done|].
    unfold SetFeePool, modify_ds. apply runs_modify. split; [apply frame_ds|]. cbn. split; [apply dbank_set_distr|].
    eexists. unfold ds. cbn. rewrite distr_set_distr. split; [done|]. cbn. split; [apply Add_valid; by apply valid_good|].
    intros d. rewrite Add_amt by (by apply valid_good). by rewrite HA.
Qed.

(** The commission of a validator that is removed is paid out, and what is less than a
    whole coin goes to the community pool. *)
Lemma removed_runs v s : distr_inv (world s) → runs (AfterValidatorRemoved v) s (λ _, cleared v s).
Proof.
  intros HI. pose proof (comm_valid s v (di_comm _ HI)) as HV. destruct (di_pool _ HI) as (p & Hp & Hpv).
  unfold AfterValidatorRemoved. apply runs_bind, runs_gets. fold (comm_of s v).
  apply runs_bind. destruct (Coins.IsZero (comm_of s v)) eqn:EZ.
  { pose proof (valid_zero _ HV EZ) as Ec. apply runs_ret. apply (drop_runs v s s p p []); try done; [apply frame_refl|by left|apply moved_none|..].
    - unfold ds. destruct (distr (world s)). cbn in *. unfold set_feePool. cbn. by rewrite Hp.
    - by left.
    - intros d. by rewrite Ec, amt_nil, Z.div_0_l, Z.mul_0_l by (pose proof unit_pos; lia).
    - intros d. rewrite Ec, amt_nil, Z.mod_0_l by (pose proof unit_pos; lia). lia. }
  destruct (TruncateDecimal_valid (comm_of s v) HV) as [V1 V2].
  pose proof (λ d, TruncateDecimal_amt (comm_of s v) d HV) as HA.
  assert (comm_of s v ≠ []) as Hc by (by apply valid_nonzero).
  assert (payable (GetDelegatorWithdrawAddr v s)) as Hx by (by apply withdraw_payable).
  destruct (TruncateDecimal (comm_of s v)) as [coins remainder] eqn:ET. cbn in *.
  apply runs_bind. eapply runs_mono; [by apply (remainder_runs v p remainder); try done; intros d; apply HA|].
  intros _ s1 (F1 & B1 & q & D1 & Vq & Aq).
  assert (GetDelegatorWithdrawAddr v s1 = GetDelegatorWithdrawAddr v s) as EA by (unfold GetDelegatorWithdrawAddr; by rewrite D1).
  destruct (Coins.IsZero coins) eqn:EZc.
  - apply runs_ret. apply (drop_runs v s s1 p q coins); try done; [by left|by rewrite B1, (valid_zero _ V1 EZc); apply moved_none|by right|apply HA].
  - apply runs_bind, runs_gets. rewrite EA. apply (pay_out_runs _ _ _ must); [by intros m s0 r E0 E; unfold must; rewrite E|done|done|..].
    + intros d. rewrite B1. destruct (HA d) as [-> _]. pose proof (owed_part (world s) v d HI) as H. pose proof (pool_amt_nonneg (world s) d HI).
      unfold comm_of, GetValidatorAccumulatedCommission, ds. pose proof unit_pos as Hu.
      pose proof (Z.mul_div_le (amt d (default [] (commissions (distr (world s)) !! v))) Dec.unit Hu). lia.
    + intros b'. rewrite B1. intros H1 H2. set (s2 := set_world (set_dbank b' (world s1)) s1).
      assert (dbank (world s2) = b') as Eb by (unfold s2; cbn; apply dbank_set_dbank).
      apply (drop_runs v s s2 p q coins); rewrite ?Eb; try done; [eapply frame_trans; [exact F1|apply frame_bank]|unfold s2, ds; cbn; by rewrite distr_set_dbank|by right|apply HA].
Qed.

(** ** Messages, proposals, the beginning of a block *)

Lemma not_blacklisted a : blacklistedAddrs a = false → payable a.
Proof. intros H. destruct blacklisted_modules as (H1 & H2 & H3). split_and!; intros ->; congruence. Qed.

(** A store that keeps its pool and its commissions keeps the invariant. *)
Lemma distr_inv_store w w' : distr_inv w → dbank w' = dbank w → feePool (distr w') = feePool (distr w) →
  commissions (distr w') = commissions (distr w) → (∀ a x, withdrawAddrs (distr w') !! a = Some x → payable x) →
  0 ≤ CommunityTax (dparams (distr w')) ≤ Dec.unit → is_Some (prevProposer (distr w')) →
  distr_inv w' ∧ ∀ d, dsurplus w' d = dsurplus w d.
Proof.
  intros [I1 I2 I3 _ _ _] Eb Ef Ec HA HT HP.
  assert (∀ d, dsurplus w' d = dsurplus w d) as Hs by (intros d; unfold dsurplus, owed, pool_amt; by rewrite Eb, Ef, Ec).
  split; [|done]. split; rewrite ?Ef, ?Ec; try done. intros d. rewrite Hs. apply I3.
Qed.

Lemma set_withdraw_addr_safe a x s : distr_inv (world s) → safe (SetWithdrawAddr a x) s (λ _ s',
  frame s s' ∧ distr_inv (world s') ∧ (∀ d, dsurplus (world s') d = dsurplus (world s) d) ∧ dbank (world s') = dbank (world s) ∧
  GetDelegatorWithdrawAddr a s' = x).
Proof.
  intros HI. unfold SetWithdrawAddr. apply safe_bind, safe_throw_if. intros Hb. apply safe_bind, safe_gets, safe_bind, safe_throw_if. intros _.
  unfold SetDelegatorWithdrawAddr, modify_ds, safe, modify. split; [apply frame_ds|]. cbn.
  pose proof HI as [I1 I2 I3 I4 I5 I6].
  destruct (distr_inv_store (world s) (set_distr (set_withdrawAddrs (<[a:=x]> (withdrawAddrs (distr (world s)))) (distr (world s))) (world s)))
    as [H1 H2]; rewrite ?distr_set_distr, ?dbank_set_distr; try done.
  - cbn. intros b y. rewrite lookup_insert. case_decide; [intros [= <-]; by apply not_blacklisted|apply I4].
  - split; [done|]. split; [done|]. split; [done|]. unfold GetDelegatorWithdrawAddr, ds. cbn. rewrite distr_set_distr. cbn. by rewrite lookup_insert_eq.
Qed.

(** A spending of the community pool: all of the amount, when it is there. *)
Lemma spend_safe p s : distr_inv (world s) → Coins.IsValid (csAmount p) = true →
  safe (HandleCommunityPoolSpendProposal p) s (λ _ s', distr_step s s' ∧
    (∀ d, dsurplus (world s') d = dsurplus (world s) d) ∧ commissions (ds s') = commissions (ds s) ∧
    (∀ d, pool_amt (world s') d = pool_amt (world s) d - amt d (csAmount p)) ∧
    Bank.moved (dbank (world s)) (dbank (world s')) distrAcc (Recipient p) (csAmount p)).
Proof.
  intros HI HV. pose proof HI as [I1 (q & Hq & Hqv) I3 I4 I5 I6]. unfold HandleCommunityPoolSpendProposal, distributeFromFeePool.
  apply safe_bind, safe_throw_if. intros Hb. apply not_blacklisted in Hb. apply safe_bind. unfold GetFeePool. apply safe_bind, safe_gets.
  unfold ds at 1. rewrite Hq. apply safe_lift; [done|]. intros q' [= <-].
  pose proof (good_sorted _ (valid_good _ Hqv)) as S1. pose proof (good_sorted _ (valid_good _ HV)) as S2.
  pose proof (λ d, Coins.SafeSub_amt (CommunityPool q) (csAmount p) d S1 S2) as HA.
  pose proof (Coins.SafeSub_neg (CommunityPool q) (csAmount p) S1 S2) as HN.
  pose proof (Coins.SafeSub_valid (CommunityPool q) (csAmount p) (valid_good _ Hqv) (valid_good _ HV)) as HVn.
  destruct (Coins.SafeSub _ _) as [newPool negative]. cbn in *. apply safe_bind, safe_throw_if. intros ->.
  specialize (proj1 HN eq_refl) as Hle. specialize (HVn eq_refl).
  apply safe_bind, safe_runs, (pay_out_runs _ _ _ (λ m, m)); [done|done|done|..].
  { intros d. pose proof (owed_part (world s) "" d HI) as H. specialize (Hle d). unfold pool_amt in H. rewrite Hq in H. cbn in H.
    pose proof (valid_amt _ d (comm_valid s "" I1)) as Hc. unfold comm_of, GetValidatorAccumulatedCommission, ds in Hc. lia. }
  intros b' Hstep Hm. unfold SetFeePool, modify_ds, safe, modify. set (s2 := set_world _ _).
  assert (distr (world s2) = set_feePool (Some (MkFeePool newPool)) (distr (world s))) as Ed
    by (unfold s2; cbn; by rewrite distr_set_distr, distr_set_dbank).
  assert (dbank (world s2) = b') as Eb by (unfold s2; cbn; by rewrite dbank_set_distr, dbank_set_dbank).
  assert (∀ d, pool_amt (world s2) d = pool_amt (world s) d - amt d (csAmount p)) as Hpool
    by (intros d; unfold pool_amt; rewrite Ed, Hq; cbn; apply HA).
  assert (∀ d, dsurplus (world s2) d = dsurplus (world s) d) as Hs.
  { intros d. unfold dsurplus, owed. rewrite Hpool, Eb, Ed, (proj1 Hm). cbn. destruct Hb as [Hb _]. repeat case_decide; try congruence; lia. }
  split; [|split; [done|split; [unfold ds; by rewrite Ed|split; [done|by rewrite Eb]]]]. split.
  { eapply frame_trans; [apply frame_bank|apply frame_ds]. }
  split; [|by rewrite Eb]. split; rewrite ?Ed; cbn; try done; [by eexists|]. intros d. rewrite Hs. apply I3.
Qed.

(** The sum of the powers of the votes. *)
Definition total_power (votes : list Slashing.VoteInfo) : Z := foldl (λ t x, int64 (t + Slashing.VotePower x)) 0 votes.

Definition can_allocate (votes : list Slashing.VoteInfo) s : Prop :=
  fees_of s = [] ∨ total_power votes = 0 ∨ unjailed_voters votes s ≠ [].

Lemma can_allocate_or votes s : can_allocate votes s ∨ ¬ can_allocate votes s.
Proof.
  unfold can_allocate. destruct (decide (fees_of s = [])); [tauto|]. destruct (decide (total_power votes = 0)); [tauto|].
  destruct (unjailed_voters votes s); [right; tauto|left; right; by right].
Qed.

(** The first blocks only note their proposer. *)
Record begun ctx (votes : list Slashing.VoteInfo) s s' : Prop := {
  bg_frame : frame s s';
  bg_inv : distr_inv (world s');
  bg_surplus d : dsurplus (world s') d = dsurplus (world s) d;
  bg_gain v d : amt d (comm_of s' v) = amt d (comm_of s v) +
    if decide (StartBlockHeight + 1 < BlockHeight ctx) then gain (allocation (total_power votes) votes s) v d else 0;
  bg_others a d : a ≠ feeAcc → a ≠ distrAcc → Bank.balance (dbank (world s')) a d = Bank.balance (dbank (world s)) a d;
  bg_bank : collect_step (dbank (world s)) (dbank (world s'));
}.

Lemma set_proposer_runs c s : distr_inv (world s) → runs (SetPreviousProposerConsAddr c) s (λ _ s',
  frame s s' ∧ distr_inv (world s') ∧ (∀ d, dsurplus (world s') d = dsurplus (world s) d) ∧
  dbank (world s') = dbank (world s) ∧ ∀ v, comm_of s' v = comm_of s v).
Proof.
  intros HI. pose proof HI as [I1 I2 I3 I4 I5 I6]. unfold SetPreviousProposerConsAddr, modify_ds. apply runs_modify. split; [apply frame_ds|]. cbn.
  destruct (distr_inv_store (world s) (set_distr (set_prevProposer (Some c) (distr (world s))) (world s))) as [H1 H2];
    rewrite ?distr_set_distr, ?dbank_set_distr; try done. split; [done|]. split; [done|]. split; [done|].
  intros v. unfold comm_of, GetValidatorAccumulatedCommission, ds. cbn. by rewrite distr_set_distr.
Qed.

Lemma begin_block_runs ctx proposer votes s : distr_inv (world s) → validators_ok s →
  (StartBlockHeight + 1 < BlockHeight ctx → can_allocate votes s) →
  runs (BeginBlocker ctx proposer votes) s (λ _, begun ctx votes s).
Proof.
  intros HI HO HC. unfold BeginBlocker. fold (total_power votes). apply runs_bind. destruct (Z.ltb_spec (StartBlockHeight + 1) (BlockHeight ctx)) as [Hh|Hh].
  - destruct (di_proposer _ HI) as [pp Hpp]. unfold GetPreviousProposerConsAddr. apply runs_bind, runs_bind, runs_gets.
    unfold ds at 1. rewrite Hpp. eapply runs_lift; [done|]. eapply runs_mono; [apply allocate_runs; [done|done|by apply HC]|].
    intros _ s1 [A1 A2 A3 A4 A5 A6 A7 A8]. eapply runs_mono; [by apply set_proposer_runs|]. intros _ s2 (B1 & B2 & B3 & B4 & B5). split.
    + by eapply frame_trans.
    + done.
    + intros d. by rewrite B3.
    + intros v d. by rewrite decide_True, B5, A6 by done.
    + intros a d H1 H2. rewrite B4. by apply A5.
    + by rewrite B4.
  - apply runs_ret. eapply runs_mono; [by apply set_proposer_runs|]. intros _ s2 (B1 & B2 & B3 & B4 & B5). split; try done.
    + intros v d. rewrite decide_False by lia. rewrite B5. lia.
    + intros a d _ _. by rewrite B4.
    + left. exact B4.
Qed.

Lemma begin_block_panics ctx proposer votes s : distr_inv (world s) → StartBlockHeight + 1 < BlockHeight ctx →
  ¬ can_allocate votes s → fst (BeginBlocker ctx proposer votes s) = Panic.
Proof.
  intros HI Hh HC. unfold BeginBlocker. fold (total_power votes). apply panic_now. rewrite (proj2 (Z.ltb_lt _ _)) by done.
  destruct (di_proposer _ HI) as [pp Hpp]. apply panic_later. unfold GetPreviousProposerConsAddr. apply runs_bind, runs_gets.
  unfold ds at 1. rewrite Hpp. eapply runs_lift; [done|]. apply allocate_panics; [done|intros E; apply HC; by left|intros E; apply HC; by right; left|].
  destruct (unjailed_voters votes s) eqn:E; [done|]. destruct HC. right; right. by rewrite E.
Qed.

(** ** The registered invariants *)

Lemma commissions_valid s c : distr_inv (world s) → c ∈ all_commissions s → Coins.IsValid c = true.
Proof.
  intros HI ([v x] & -> & H)%list_elem_of_fmap. apply elem_of_kv_sorted in H. by apply (di_comm _ HI v x H).
Qed.

Lemma commissions_nonnegative s : distr_inv (world s) → NonNegativeCommissionsInvariant s = false.
Proof.
  intros HI. unfold NonNegativeCommissionsInvariant. assert (∀ c, c ∈ all_commissions s → Coins.IsAnyNegative c = false) as H.
  { intros c Hc. pose proof (commissions_valid s c HI Hc) as HV. apply not_true_iff_false. rewrite Coins.IsAnyNegative_spec.
    apply Coins.IsValid_spec in HV as [_ HV]. rewrite Exists_exists. intros (x & Hx & Hn). eapply Forall_forall in HV; [|exact Hx]. lia. }
  induction (all_commissions s) as [|c l IH]; [done|]. cbn. rewrite H by left. apply IH. intros x Hx. apply H. by right.
Qed.

Lemma withdraw_all_runs l s : distr_inv (world s) → withdraw_all l s = Ok false.
Proof.
  revert s. induction l as [|V l IH]; intros s HI; [done|]. cbn [withdraw_all]. fold (comm_of s (OperatorAddress V)).
  destruct (Coins.IsZero (comm_of s (OperatorAddress V))) eqn:EZ; [by apply IH|].
  assert (comm_of s (OperatorAddress V) ≠ []) as Hc by (apply valid_nonzero; [by apply comm_valid, HI|done]).
  destruct (withdraw_runs (OperatorAddress V) s HI Hc) as (c & s' & -> & H). apply IH, H.
Qed.

Lemma foldl_Add_coins (l : list SysCoins) (t : SysCoins) : Coins.IsValid t = true → Forall (λ c, Coins.IsValid c = true) l →
  Coins.IsValid (foldl Coins.Add t l) = true ∧ ∀ d, amt d (foldl Coins.Add t l) = amt d t + zsum (amt d <$> l).
Proof.
  intros Ht HL. revert t Ht. induction HL as [|c l Hc HL IH]; intros t Ht; cbn [foldl]; [split; [done|intros d; cbn; lia]|].
  destruct (IH (Coins.Add t c)) as [H1 H2]; [apply Add_valid; by apply valid_good|]. split; [done|]. intros d.
  rewrite H2, fmap_cons, zsum_cons, Add_amt by (by apply valid_good). lia.
Qed.

(** The account holds exactly what it owes unless it was sent coins by others. *)
Lemma account_exact s : distr_inv (world s) → (∀ d, dsurplus (world s) d = 0) → ModuleAccountInvariant s = Ok false.
Proof.
  intros HI Hs. destruct (di_pool _ HI) as (p & Hp & Hpv). unfold ModuleAccountInvariant. unfold ds at 1. rewrite Hp. cbn.
  destruct (foldl_Add_coins (all_commissions s) [] valid_nil) as [V1 A1].
  { apply Forall_forall. intros c Hc. by apply (commissions_valid s). }
  rewrite Coins.IsEqual_true; [done|apply Bank.GetCoins_valid|apply Add_valid; by apply valid_good|].
  intros d. rewrite Add_amt, A1, amt_nil by (by apply valid_good). specialize (Hs d). unfold dsurplus, owed, pool_amt in Hs. rewrite Hp in Hs. cbn in Hs.
  unfold all_commissions. rewrite zsum_values. unfold GetDistributionAccount.
  change (amt d (Bank.GetCoins (dbank (world s)) (Bank.GetModuleAddress ModuleName))) with (Bank.balance (dbank (world s)) distrAcc d).
  unfold ds. lia.
Qed.
End spec.

End DistrSpec.
