(* ===== verification/SlashSpec.v ===== *)
(** * The slashing and the evidence module in order

    [slash_inv]: the counter of a signing info is the number of blocks marked as missed,
    no block is marked without a signing info, and the parameters are valid.  A vote
    ([vote_runs]) updates the window; it has the validator jailed and abandoned when too
    many blocks are missed, and otherwise leaves the staking module alone. *)

From S2P Require Import Prelude Runs SdkDec SdkCoins GoStd CoinFacts Common StakingErrors Token Staking StakingSpec.
From S2P Require Import StakingShares StakingMoney StakingMsgs StakingHandlers StakingBlock StakingEnd StakingTheorems Slashing Evidence.

#[local] Open Scope Z_scope.

Module SlashSpec.
Import Staking StakingSpec StakingShares StakingMoney StakingMsgs StakingHandlers.

(** ** Laws of the interfaces *)

(** The product is exact; the rounding is that of decimals and panics beyond an int64. *)
Class SlashEnvLaws `{DO : Dec.Ops} `{SE : Slashing.SlashEnv} : Prop := {
  MulInt64_spec x n : Slashing.MulInt64 x n = x * n;
  RoundInt64_spec x : 0 ≤ x → Dec.bankers x Dec.unit < 2 ^ 63 → Slashing.RoundInt64 x = Ok (Dec.bankers x Dec.unit);
}.

Class SlashAppLaws (W R : Type) `{SA : !Slashing.SlashApp W} (others : W → R) : Prop := {
  slash_set t w : Slashing.slash (Slashing.set_slash t w) = t;
  set_slash_same w : Slashing.set_slash (Slashing.slash w) w = w;
  set_slash_twice t u w : Slashing.set_slash t (Slashing.set_slash u w) = Slashing.set_slash t w;
  others_set_slash t w : others (Slashing.set_slash t w) = others w;
}.

(** ** Counting missed blocks *)

Section count.
Implicit Types (m : gmap (ConsAddress * Z) bool) (c : ConsAddress).

Definition is_missed c (kb : ConsAddress * Z * bool) : bool := (bool_decide (fst (fst kb) = c) && snd kb)%bool.
Definition missed_count m c : Z := zsum ((λ kb, if is_missed c kb then 1 else 0) <$> map_to_list m).

Lemma count_delete m c k : missed_count (delete k m) c
  = missed_count m c - from_option (λ b, if is_missed c (k, b) then 1 else 0) 0 (m !! k).
Proof.
  destruct (m !! k) as [b|] eqn:E; cbn [from_option]; [|rewrite delete_id by done; lia].
  unfold missed_count. rewrite (zsum_perm (_ <$> map_to_list m) _ (fmap_Permutation _ _ _ (symmetry (map_to_list_delete m k b E)))).
  rewrite fmap_cons, zsum_cons. lia.
Qed.

Lemma count_insert m c k b : missed_count (<[k := b]> m) c
  = missed_count m c - from_option (λ b, if is_missed c (k, b) then 1 else 0) 0 (m !! k) + if is_missed c (k, b) then 1 else 0.
Proof.
  rewrite <-count_delete, <-insert_delete_eq. unfold missed_count.
  rewrite (zsum_perm _ _ (fmap_Permutation _ _ _ (map_to_list_insert (delete k m) k b (lookup_delete_eq m k)))).
  rewrite fmap_cons, zsum_cons. lia.
Qed.

Lemma missed_insert m c (i : Z) (b : bool) : missed_count (<[(c, i) := b]> m) c
  = missed_count m c - (if default false (m !! (c, i)) then 1 else 0) + (if b then 1 else 0).
Proof.
  rewrite count_insert. unfold is_missed. cbn. rewrite bool_decide_eq_true_2 by done.
  destruct (m !! (c, i)) as [x|]; cbn; lia.
Qed.

Lemma missed_insert_ne m c c' (i : Z) (b : bool) : c ≠ c' → missed_count (<[(c', i) := b]> m) c = missed_count m c.
Proof.
  intros Hne. rewrite count_insert. unfold is_missed. cbn. rewrite bool_decide_eq_false_2 by congruence.
  destruct (m !! (c', i)) as [x|]; cbn; lia.
Qed.

(** No bit of the address is left, and the others stay. *)
Lemma count_filter m c c' : missed_count (filter (λ kx : ConsAddress * Z * bool, fst (fst kx) ≠ c') m) c
  = if decide (c = c') then 0 else missed_count m c.
Proof.
  induction m as [|k b m Hk IH] using map_ind.
  - rewrite map_filter_empty. unfold missed_count. rewrite map_to_list_empty. cbn. by case_decide.
  - destruct (decide (fst k = c')) as [Ec|Ec].
    + rewrite map_filter_insert_False by (cbn; tauto). rewrite delete_id by done. rewrite IH, count_insert, Hk.
      cbn. case_decide as Hd; [done|]. unfold is_missed. cbn. rewrite bool_decide_eq_false_2 by congruence. cbn. lia.
    + rewrite map_filter_insert_True by done. rewrite !count_insert, Hk, IH.
      assert (filter (λ kx : ConsAddress * Z * bool, fst (fst kx) ≠ c') m !! k = None) as -> by (by apply map_lookup_filter_None; left).
      cbn. case_decide as Hd; [|lia]. unfold is_missed. cbn. rewrite bool_decide_eq_false_2 by congruence. cbn. lia.
Qed.
End count.

(** ** The invariant of the store *)

Section store.
Context `{DO : Dec.Ops} `{DL : !Dec.Laws} `{EV : Env} `{SE : Slashing.SlashEnv} `{SL : !SlashEnvLaws}.
Implicit Types (t : Slashing.SlashingStore) (c : ConsAddress) (i : Slashing.ValidatorSigningInfo).

Record slash_inv t : Prop := {
  si_window : 0 < Slashing.SignedBlocksWindow (Slashing.sparams t) < 2 ^ 63;
  si_min : 0 ≤ Slashing.pMinSignedPerWindow (Slashing.sparams t) ≤ Dec.unit;
  si_duration : 0 < Slashing.DowntimeJailDuration (Slashing.sparams t);
  si_counter c i : Slashing.signingInfos t !! c = Some i →
    Slashing.MissedBlocksCounter i = int64 (missed_count (Slashing.missedBits t) c);
  si_bits c n b : Slashing.missedBits t !! (c, n) = Some b → is_Some (Slashing.signingInfos t !! c);
}.

(** The block of the window that a vote is about, whether it was missed before, and what
    the vote makes of the bits and the signing info. *)
Definition vote_index t i : Z := uint64 (Z.rem (Slashing.IndexOffset i) (Slashing.SignedBlocksWindow (Slashing.sparams t))).
Definition missed_before t c i : bool := default false (Slashing.missedBits t !! (c, vote_index t i)).

Definition vote_bits t c (signed : bool) i : gmap (ConsAddress * Z) bool :=
  if Bool.eqb (missed_before t c i) (negb signed) then Slashing.missedBits t
  else <[(c, vote_index t i) := negb signed]> (Slashing.missedBits t).
Definition vote_info t c (signed : bool) i : Slashing.ValidatorSigningInfo :=
  let i' := Slashing.set_IndexOffset (int64 (Slashing.IndexOffset i + 1)) i in
  match missed_before t c i, signed with
  | false, false => Slashing.set_MissedBlocksCounter (int64 (Slashing.MissedBlocksCounter i + 1)) i'
  | true, true => Slashing.set_MissedBlocksCounter (int64 (Slashing.MissedBlocksCounter i - 1)) i'
  | _, _ => i'
  end.

(** The store after the vote, and after the vote that exhausts the patience. *)
Definition voted_store t c signed i : Slashing.SlashingStore :=
  Slashing.set_signingInfos (<[c := vote_info t c signed i]> (Slashing.signingInfos t))
    (Slashing.set_missedBits (vote_bits t c signed i) t).
Definition reset_info ctx t i : Slashing.ValidatorSigningInfo :=
  Slashing.set_IndexOffset 0 (Slashing.set_MissedBlocksCounter 0
    (Slashing.set_JailedUntil (BlockTime ctx + Slashing.DowntimeJailDuration (Slashing.sparams t)) i)).
Definition punished_store ctx t c signed i : Slashing.SlashingStore :=
  Slashing.set_signingInfos (<[c := reset_info ctx t (vote_info t c signed i)]> (Slashing.signingInfos t))
    (Slashing.set_missedBits (filter (λ kx : ConsAddress * Z * bool, fst (fst kx) ≠ c) (vote_bits t c signed i)) t).

(** How many blocks of the window have to be signed. *)
Definition min_signed t : Z :=
  Dec.bankers (Slashing.pMinSignedPerWindow (Slashing.sparams t) * Slashing.SignedBlocksWindow (Slashing.sparams t)) Dec.unit.
Definition too_many ctx t i : bool :=
  ((int64 (Slashing.StartHeight i + Slashing.SignedBlocksWindow (Slashing.sparams t)) <? BlockHeight ctx)
   && (int64 (Slashing.SignedBlocksWindow (Slashing.sparams t) - min_signed t) <? Slashing.MissedBlocksCounter i))%Z.

Lemma bankers_le n d k : 0 < d → n ≤ k * d → Dec.bankers n d ≤ k.
Proof.
  intros Hd Hn. unfold Dec.bankers. pose proof (Z.div_mod n d). pose proof (Z.mod_pos_bound n d Hd).
  assert (n / d ≤ k) by nia. assert (n mod d = 0 ∨ n / d < k) by nia. repeat case_match; lia.
Qed.

Lemma min_signed_ok t : slash_inv t →
  Slashing.RoundInt64 (Slashing.MulInt64 (Slashing.pMinSignedPerWindow (Slashing.sparams t)) (Slashing.SignedBlocksWindow (Slashing.sparams t)))
  = Ok (min_signed t).
Proof.
  intros [H1 H2 _ _ _]. pose proof unit_pos as Hu. rewrite MulInt64_spec. apply RoundInt64_spec; [nia|].
  eapply Z.le_lt_trans; [apply (bankers_le _ _ (Slashing.SignedBlocksWindow (Slashing.sparams t))); [done|nia]|lia].
Qed.

Lemma int64_plus x y : int64 (int64 x + y) = int64 (x + y).
Proof.
  unfold int64. f_equal. replace ((x + 2 ^ 63) mod 2 ^ 64 - 2 ^ 63 + y + 2 ^ 63) with ((x + 2 ^ 63) mod 2 ^ 64 + y) by lia.
  rewrite Zplus_mod_idemp_l. f_equal. lia.
Qed.

Lemma vote_count t c signed i : missed_count (vote_bits t c signed i) c = missed_count (Slashing.missedBits t) c
  - (if missed_before t c i then 1 else 0) + (if signed then 0 else 1).
Proof.
  unfold vote_bits. destruct (missed_before t c i) eqn:E, signed; cbn [negb Bool.eqb]; rewrite ?missed_insert; unfold missed_before in E; rewrite ?E; lia.
Qed.

Lemma vote_count_ne t c c' signed i : c' ≠ c → missed_count (vote_bits t c signed i) c' = missed_count (Slashing.missedBits t) c'.
Proof. intros Hne. unfold vote_bits. case_match; [done|]. by apply missed_insert_ne. Qed.

Lemma vote_counter t c signed i : slash_inv t → Slashing.signingInfos t !! c = Some i →
  Slashing.MissedBlocksCounter (vote_info t c signed i) = int64 (missed_count (vote_bits t c signed i) c).
Proof.
  intros HI Hi. rewrite vote_count. pose proof (si_counter t HI c i Hi) as Ec. unfold vote_info.
  destruct (missed_before t c i), signed; cbn; rewrite Ec; unfold Z.sub; rewrite ?int64_plus; f_equal; lia.
Qed.

Lemma vote_bits_in t c signed i c' n b : vote_bits t c signed i !! (c', n) = Some b →
  c' = c ∨ Slashing.missedBits t !! (c', n) = Some b.
Proof.
  unfold vote_bits. case_match; [by right|]. rewrite lookup_insert. case_decide as E; [|by right]. intros _. left. congruence.
Qed.

Lemma voted_inv t c signed i : slash_inv t → Slashing.signingInfos t !! c = Some i → slash_inv (voted_store t c signed i).
Proof.
  intros HI Hi. pose proof HI as [H1 H2 H3 H4 H5]. split; try done.
  - intros c' i'. cbn. rewrite lookup_insert. case_decide as E; [|intros Hi'; rewrite vote_count_ne by done; by apply H4].
    intros [= <-]. subst c'. by apply vote_counter.
  - intros c' n b. cbn. intros [->|Hb]%vote_bits_in; [rewrite lookup_insert_eq; by eexists|].
    rewrite lookup_insert. case_decide; [by eexists|by eapply H5].
Qed.

Lemma punished_inv ctx t c signed i : slash_inv t → Slashing.signingInfos t !! c = Some i → slash_inv (punished_store ctx t c signed i).
Proof.
  intros HI Hi. pose proof HI as [H1 H2 H3 H4 H5]. split; try done.
  - intros c' i'. cbn. rewrite lookup_insert, count_filter. case_decide as E.
    + intros [= <-]. subst c'. by rewrite decide_True.
    + intros Hi'. rewrite decide_False by done. rewrite vote_count_ne by done. by apply H4.
  - intros c' n b. cbn. intros [Hb _]%map_lookup_filter_Some. apply vote_bits_in in Hb as [->|Hb]; [rewrite lookup_insert_eq; by eexists|].
    rewrite lookup_insert. case_decide; [by eexists|by eapply H5].
Qed.

(** No signing info disappears, and what is tombstoned stays so. *)
Definition slash_kept t t' : Prop := ∀ c i, Slashing.signingInfos t !! c = Some i →
  ∃ i', Slashing.signingInfos t' !! c = Some i' ∧ (Slashing.Tombstoned i = true → Slashing.Tombstoned i' = true).

Lemma slash_kept_trans t1 t2 t3 : slash_kept t1 t2 → slash_kept t2 t3 → slash_kept t1 t3.
Proof. intros H1 H2 c i (j & Hj & Ej)%H1. apply H2 in Hj as (k & Hk & Ek). exists k. auto. Qed.

Lemma slash_kept_same t t' : Slashing.signingInfos t' = Slashing.signingInfos t → slash_kept t t'.
Proof. intros E c i Hi. exists i. by rewrite E. Qed.

Lemma slash_kept_info t t' c i' : Slashing.signingInfos t' = <[c := i']> (Slashing.signingInfos t) →
  (∀ i, Slashing.signingInfos t !! c = Some i → Slashing.Tombstoned i = true → Slashing.Tombstoned i' = true) → slash_kept t t'.
Proof.
  intros E Hi b j Hj. rewrite E, lookup_insert. case_decide as Eb; [|by exists j]. subst b. exists i'. split; [done|]. by apply Hi.
Qed.

Lemma vote_info_tomb t c signed i : Slashing.Tombstoned (vote_info t c signed i) = Slashing.Tombstoned i.
Proof. unfold vote_info. by repeat case_match. Qed.

(** Writes to signing infos that keep the counter, and to the keys. *)
Lemma info_inv t c i : slash_inv t → Slashing.MissedBlocksCounter i = int64 (missed_count (Slashing.missedBits t) c) →
  slash_inv (Slashing.set_signingInfos (<[c := i]> (Slashing.signingInfos t)) t).
Proof.
  intros [H1 H2 H3 H4 H5] Hc. split; try done; cbn.
  - intros c' i'. rewrite lookup_insert. case_decide as E; [|apply H4]. intros [= <-]. by subst c'.
  - intros c' n b Hb. rewrite lookup_insert. case_decide; [by eexists|by eapply H5].
Qed.

Lemma keys_inv t m : slash_inv t → slash_inv (Slashing.set_pubkeys m t).
Proof. intros []. by split. Qed.

Lemma no_bits t c : slash_inv t → Slashing.signingInfos t !! c = None → missed_count (Slashing.missedBits t) c = 0.
Proof.
  intros HI Hc. assert (filter (λ kx : ConsAddress * Z * bool, fst (fst kx) ≠ c) (Slashing.missedBits t) = Slashing.missedBits t) as E.
  { apply map_filter_id. intros [c' n] b Hb. cbn. intros ->. destruct (si_bits t HI c n b Hb) as [x Hx]. congruence. }
  rewrite <-E, count_filter. by rewrite decide_True.
Qed.
End store.

(** ** Hooks *)

Section hooks.
Context `{DO : Dec.Ops} `{DL : !Dec.Laws} `{EV : Env} `{SE : Slashing.SlashEnv} `{SL : !SlashEnvLaws}
  {W R : Type} `{SA : !Slashing.SlashApp W} (others : W → R) `{AL : !SlashAppLaws W R others}.
Implicit Types (w : W) (s : StakingState W) (v : ValAddress) (c : ConsAddress) (t : Slashing.SlashingStore).

(** The state with another store. *)
Definition with_slash t s : StakingState W := set_world (Slashing.set_slash t (world s)) s.

Lemma sl_with t s : Slashing.sl (with_slash t s) = t.
Proof. unfold Slashing.sl, with_slash. cbn. apply slash_set. Qed.

Lemma with_slash_twice t u s : with_slash t (with_slash u s) = with_slash t s.
Proof. unfold with_slash. cbn. by rewrite set_slash_twice. Qed.

Lemma with_slash_same s : with_slash (Slashing.sl s) s = s.
Proof. unfold with_slash, Slashing.sl. rewrite set_slash_same. by destruct s. Qed.

Lemma modify_runs f s (Q : unit → StakingState W → Prop) :
  Q tt (with_slash (f (Slashing.sl s)) s) → runs (Slashing.modify_sl f) s Q.
Proof. intros HQ. by apply runs_modify. Qed.

(** A step of the module alone, in order. *)
Definition slash_step s s' : Prop := ∃ t, s' = with_slash t s ∧ slash_inv t ∧ slash_kept (Slashing.sl s) t.

Lemma slash_step_refl s : slash_inv (Slashing.sl s) → slash_step s s.
Proof. intros HI. exists (Slashing.sl s). rewrite with_slash_same. split; [done|]. split; [done|]. by apply slash_kept_same. Qed.

Lemma slash_step_trans s1 s2 s3 : slash_step s1 s2 → slash_step s2 s3 → slash_step s1 s3.
Proof. intros (t & -> & _ & H1) (u & -> & Hu & H2). exists u. rewrite sl_with in H2. rewrite with_slash_twice. split; [done|]. split; [done|]. by eapply slash_kept_trans. Qed.

Lemma modify_status_runs c st s : slash_inv (Slashing.sl s) → runs (Slashing.modifyValidatorStatus c st) s (λ _, slash_step s).
Proof.
  intros HI. unfold Slashing.modifyValidatorStatus. apply runs_bind, runs_gets. unfold Slashing.GetValidatorSigningInfo.
  destruct (Slashing.signingInfos (Slashing.sl s) !! c) as [i|] eqn:E; [|apply runs_ret; by apply slash_step_refl].
  unfold Slashing.SetValidatorSigningInfo. apply modify_runs. eexists. split; [done|]. split.
  - apply info_inv; [done|]. cbn. by apply (si_counter _ HI).
  - eapply slash_kept_info; [done|]. intros j. rewrite E. by intros [= <-].
Qed.

Lemma slash_bonded_runs ctx c s : slash_inv (Slashing.sl s) → runs (Slashing.AfterValidatorBonded ctx c) s (λ _, slash_step s).
Proof.
  intros HI. unfold Slashing.AfterValidatorBonded. apply runs_bind, runs_gets. unfold Slashing.GetValidatorSigningInfo.
  destruct (Slashing.signingInfos (Slashing.sl s) !! c) as [i|] eqn:E; [apply runs_ret; by apply slash_step_refl|].
  unfold Slashing.SetValidatorSigningInfo. apply modify_runs. eexists. split; [done|]. split.
  - apply info_inv; [done|]. cbn. by rewrite (no_bits _ c HI E).
  - eapply slash_kept_info; [done|]. intros j. by rewrite E.
Qed.

Lemma keys_then_status f c st s : slash_inv (Slashing.sl s) →
  runs (Slashing.modify_sl (λ t, Slashing.set_pubkeys (f (Slashing.pubkeys t)) t);; Slashing.modifyValidatorStatus c st) s (λ _, slash_step s).
Proof.
  intros HI. apply runs_bind, modify_runs. set (s1 := with_slash _ s).
  assert (slash_step s s1) as H1 by (eexists; split; [done|split; [by apply keys_inv|by apply slash_kept_same]]).
  eapply runs_mono; [apply modify_status_runs; unfold s1; rewrite sl_with; by apply keys_inv|]. intros [] s2 H2. cbn beta in H2 |- *. by eapply slash_step_trans.
Qed.

Lemma slash_created_runs v V s : slash_inv (Slashing.sl s) → validators s !! v = Some V →
  runs (Slashing.AfterValidatorCreated v) s (λ _, slash_step s).
Proof.
  intros HI HV. unfold Slashing.AfterValidatorCreated, GetValidator. apply runs_bind, runs_gets. rewrite HV. apply runs_bind. eapply runs_lift; [done|].
  by apply (keys_then_status (λ m, <[pk_Address (ConsPubKey V) := ConsPubKey V]> m)).
Qed.

Lemma slash_removed_runs c s : slash_inv (Slashing.sl s) → runs (Slashing.AfterValidatorRemoved c) s (λ _, slash_step s).
Proof. intros HI. by apply (keys_then_status (λ m, delete c m)). Qed.

Lemma slash_destroyed_runs v s : slash_inv (Slashing.sl s) → runs (Slashing.AfterValidatorDestroyed v) s (λ _, slash_step s).
Proof.
  intros HI. unfold Slashing.AfterValidatorDestroyed. apply runs_bind, runs_gets. destruct (GetValidator v s); [by apply modify_status_runs|].
  apply runs_ret. by apply slash_step_refl.
Qed.

(** ** Jail and the rest of the application *)

(** Jailing and abandoning a validator touch the stores of the staking module only. *)
Lemma jail_world t c s : Jail c (with_slash t s) = (fst (Jail c s), with_slash t (snd (Jail c s))).
Proof.
  unfold Jail, mustGetValidatorByConsAddr, jailValidator, SetValidator, DeleteValidatorByPowerIndex, GetValidatorByConsAddr, GetValidator.
  unfold gets, lift, modify, mbind, M_bind, option_bind, with_slash. cbn. destruct (byConsAddr s !! c) as [v|]; cbn; [|done].
  destruct (validators s !! v) as [V|]; cbn; [|done]. by destruct (Jailed V).
Qed.

Lemma append_world t c s : AppendAbandonedValidatorAddrs c (with_slash t s)
  = (fst (AppendAbandonedValidatorAddrs c s), with_slash t (snd (AppendAbandonedValidatorAddrs c s))).
Proof.
  unfold AppendAbandonedValidatorAddrs, mustGetValidatorByConsAddr, GetValidatorByConsAddr, GetValidator, getAbandonedValidatorAddrs.
  unfold gets, lift, modify, mbind, M_bind, option_bind, with_slash. cbn. destruct (byConsAddr s !! c) as [v|]; cbn; [|done].
  by destruct (validators s !! v) as [V|].
Qed.

(** A run from the state with another store. *)
Lemma runs_world (m : M (StakingState W) unit) t s Q :
  (∀ s, m (with_slash t s) = (fst (m s), with_slash t (snd (m s)))) →
  runs m s (λ _ s', Q tt (with_slash t s')) → runs m (with_slash t s) Q.
Proof. intros Hw ([] & s' & E & HQ). exists tt, (with_slash t s'). by rewrite Hw, E. Qed.
End hooks.

(** ** Votes *)

(** The store is a part of the application that the staking module does not look at. *)
Class SlashHome {W : Type} `{DO : Dec.Ops} `{BO : Bank.Ops} `{SO : !SupplyOps} `{EV : Env} `{AP : !App W} `{SA : !Slashing.SlashApp W}
    (WInv : W → Prop) : Prop := {
  home_inv w : WInv w → slash_inv (Slashing.slash w);
  home_set w t : WInv w → slash_inv t → slash_kept (Slashing.slash w) t → StakingTheorems.elsewhere WInv w (Slashing.set_slash t w);
}.

Section votes.
Context `{DO : Dec.Ops} `{DL : !Dec.Laws} `{CO : Coins.Ops} `{CL : !Coins.Laws} `{BO : Bank.Ops} `{BL : !Bank.Laws}
  `{SO : !SupplyOps} `{SL : !SupplyLaws} `{EV : Env} `{EL : !EnvLaws} {W R : Type} `{AP : !App W}
  (WInv : W → Prop) (protected : AccAddress → Prop) `{AL : !AppLaws WInv protected}
  `{SE : Slashing.SlashEnv} `{SEL : !SlashEnvLaws} `{SA : !Slashing.SlashApp W} (others : W → R) `{SAL : !SlashAppLaws W R others}
  `{SH : !SlashHome WInv}.
Implicit Types (w : W) (s : StakingState W) (v : ValAddress) (c : ConsAddress) (t : Slashing.SlashingStore)
  (V : Validator) (i : Slashing.ValidatorSigningInfo).

Abbreviation sinv := (staking_inv WInv protected) (only parsing).

Lemma store_inv s : sinv s → slash_inv (Slashing.sl s).
Proof. intros HI. apply (home_inv (WInv := WInv)), (vi_world WInv s (inv_val _ _ _ HI)). Qed.

Lemma with_slash_kept t s : sinv s → slash_inv t → slash_kept (Slashing.sl s) t → sinv (with_slash t s) ∧ surplus (with_slash t s) = surplus s.
Proof.
  intros HI Ht Hk. apply StakingTheorems.elsewhere_kept; [done|]. apply home_set; [|done..]. apply (vi_world WInv s (inv_val _ _ _ HI)).
Qed.

(** A vote finds the key and the signing info of the validator, which is not unbonded yet. *)
Definition voter_ok s c : Prop :=
  is_Some (Slashing.pubkeys (Slashing.sl s) !! c) ∧ is_Some (Slashing.signingInfos (Slashing.sl s) !! c) ∧
  ∀ V, GetValidatorByConsAddr c s = Some V → Status V ≠ Unbonded.

Lemma by_cons_of c V s : sinv s → GetValidatorByConsAddr c s = Some V →
  validators s !! OperatorAddress V = Some V ∧ c = ConsAddress_of V.
Proof.
  intros HI. pose proof (inv_val _ _ _ HI) as HV. unfold GetValidatorByConsAddr, GetValidator.
  destruct (byConsAddr s !! c) as [v|] eqn:Hc; [|done]. intros E. apply (vi_cons WInv s HV) in Hc as (U & HU & ->).
  rewrite E in HU. injection HU as <-. by rewrite (proj1 (vi_op WInv s HV v V E)).
Qed.

(** Jailed and abandoned. *)
Definition dismissed V s : StakingState W :=
  set_abandoned (abandoned s ++ [OperatorAddress V]) (rewrite_val (OperatorAddress V) (Some (set_Jailed true V)) s).

(** The state after the vote of [c], whose signing info was [i]. *)
Definition vote_state ctx c (signed : bool) i s : StakingState W :=
  let t := Slashing.sl s in
  let voted := with_slash (voted_store t c signed i) s in
  if too_many ctx t (vote_info t c signed i) then
    match GetValidatorByConsAddr c s with
    | Some V =>
        if Jailed V then voted
        else with_slash (punished_store ctx t c signed i) (dismissed V s)
    | None => voted
    end
  else voted.

Lemma dismissed_kept c V s : sinv s → GetValidatorByConsAddr c s = Some V → Jailed V = false → Status V ≠ Unbonded →
  runs (Jail c) s (λ _ s1, runs (AppendAbandonedValidatorAddrs c) s1 (λ _ s2, s2 = dismissed V s)) ∧
  sinv (dismissed V s) ∧ surplus (dismissed V s) = surplus s.
Proof.
  intros HI HV HJ Hs. destruct (by_cons_of c V s HI HV) as [HV' Hc].
  assert (runs (Jail c) s (λ _ s1, runs (AppendAbandonedValidatorAddrs c) s1
    (λ _ s2, s2 = dismissed V s ∧ sinv s2 ∧ surplus s2 = surplus s))) as H.
  - eapply runs_mono; [by eapply jail_runs|]. intros [] s1 (E & HI1 & ES1). eapply runs_mono.
    + eapply (append_runs _ _ c (OperatorAddress V) (set_Jailed true V)); [done| |done|done|done]. rewrite E. cbn. rewrite lookup_upd. by rewrite decide_True.
    + intros [] s2 (E2 & HI2 & ES2). cbn beta. split; [by rewrite E2, E|]. split; [done|]. congruence.
  - split.
    + eapply runs_mono; [exact H|]. intros [] s1 H1. eapply runs_mono; [exact H1|]. by intros [] s2 [-> _].
    + destruct H as ([] & s1 & _ & [] & s2 & _ & -> & H). exact H.
Qed.

Lemma dismiss_vote_runs {A} t c V s (k : M (StakingState W) A) Q :
  sinv s → GetValidatorByConsAddr c s = Some V → Jailed V = false → Status V ≠ Unbonded →
  runs k (with_slash t (dismissed V s)) Q → runs (Jail c;; AppendAbandonedValidatorAddrs c;; k) (with_slash t s) Q.
Proof.
  intros HI HV HJ Hs Hk. apply runs_bind, runs_world; [apply jail_world|].
  eapply runs_mono; [by apply (dismissed_kept c V)|]. intros [] s1 H1. cbn beta in H1 |- *. apply runs_bind, runs_world; [apply append_world|].
  eapply runs_mono; [exact H1|]. by intros [] s2 ->.
Qed.

Lemma bits_runs {A} c (signed : bool) i s (k : Slashing.ValidatorSigningInfo → M (StakingState W) A) Q :
  let t := Slashing.sl s in
  runs (k (vote_info t c signed i)) (with_slash (Slashing.set_missedBits (vote_bits t c signed i) t) s) Q →
  let i' := Slashing.set_IndexOffset (int64 (Slashing.IndexOffset i + 1)) i in
  let index := Z.rem (Slashing.IndexOffset i) (Slashing.SignedBlocksWindow (Slashing.sparams t)) in
  runs (i2 ← (if (negb (missed_before t c i) && negb signed)%bool then
                Slashing.SetValidatorMissedBlockBitArray c index true;;
                mret (Slashing.set_MissedBlocksCounter (int64 (Slashing.MissedBlocksCounter i' + 1)) i')
              else if (missed_before t c i && negb (negb signed))%bool then
                Slashing.SetValidatorMissedBlockBitArray c index false;;
                mret (Slashing.set_MissedBlocksCounter (int64 (Slashing.MissedBlocksCounter i' - 1)) i')
              else mret i'); k i2) s Q.
Proof.
  intros t Hk i' index. apply runs_bind. revert Hk. unfold vote_info, vote_bits.
  assert (Slashing.set_missedBits (Slashing.missedBits t) t = t) as Et by (by destruct t).
  destruct (missed_before t c i), signed; cbn [negb andb Bool.eqb]; intros Hk.
  - apply runs_bind. unfold Slashing.SetValidatorMissedBlockBitArray. by apply modify_runs, runs_ret.
  - apply runs_ret. rewrite Et in Hk. unfold t in Hk. by rewrite (with_slash_same others) in Hk.
  - apply runs_ret. rewrite Et in Hk. unfold t in Hk. by rewrite (with_slash_same others) in Hk.
  - apply runs_bind. unfold Slashing.SetValidatorMissedBlockBitArray. by apply modify_runs, runs_ret.
Qed.

Lemma vote_runs ctx c signed i s : sinv s → voter_ok s c → Slashing.signingInfos (Slashing.sl s) !! c = Some i →
  runs (Slashing.HandleValidatorSignature ctx c signed) s (λ _ s', s' = vote_state ctx c signed i s).
Proof.
  intros HI ([pk Hpk] & _ & Hs) Hi. pose proof (store_inv s HI) as HT. unfold Slashing.HandleValidatorSignature.
  apply runs_bind, runs_gets. unfold Slashing.GetPubkey. rewrite Hpk. apply runs_bind. eapply runs_lift; [done|].
  apply runs_bind, runs_gets. unfold Slashing.GetValidatorSigningInfo. rewrite Hi. apply runs_bind. eapply runs_lift; [done|].
  apply runs_bind, runs_gets. rewrite (proj2 (Z.eqb_neq _ 0)) by (pose proof (si_window _ HT); lia). cbv iota.
  apply runs_bind, runs_ret, runs_bind, runs_gets. change (Slashing.GetValidatorMissedBlockBitArray c _ s) with (missed_before (Slashing.sl s) c i).
  apply bits_runs. set (t := Slashing.sl s) in *. set (t1 := Slashing.set_missedBits _ t). set (s1 := with_slash t1 s).
  assert (Slashing.sl s1 = t1) as E1 by apply (sl_with others).
  apply runs_bind, runs_gets. unfold Slashing.MinSignedPerWindow. rewrite E1. change (Slashing.sparams t1) with (Slashing.sparams t).
  rewrite min_signed_ok by done. apply runs_bind. eapply runs_lift; [done|].
  change (((int64 (Slashing.StartHeight (vote_info t c signed i) + _) <? _) && _)%bool) with (too_many ctx t (vote_info t c signed i)).
  assert (∀ j s2, s2 = with_slash t1 s → runs (Slashing.SetValidatorSigningInfo c j) s2 (λ _ s', s' = with_slash (Slashing.set_signingInfos (<[c := j]> (Slashing.signingInfos t)) t1) s)) as Hset.
  { intros j s2 ->. unfold Slashing.SetValidatorSigningInfo. apply modify_runs. by rewrite (sl_with others), (with_slash_twice others). }
  unfold vote_state. fold t. destruct (too_many ctx t _); [|by apply runs_bind, runs_ret, Hset].
  apply runs_bind, runs_bind, runs_gets. change (GetValidatorByConsAddr c s1) with (GetValidatorByConsAddr c s).
  destruct (GetValidatorByConsAddr c s) as [V|] eqn:EV'; [|by apply runs_ret, Hset].
  destruct (Jailed V) eqn:EJ; [by apply runs_ret, Hset|]. eapply dismiss_vote_runs; try done; [by apply Hs|].
  apply runs_bind, runs_gets. rewrite (sl_with others). apply runs_bind. unfold Slashing.clearValidatorMissedBlockBitArray.
  apply modify_runs. rewrite (sl_with others), (with_slash_twice others). apply runs_ret.
  unfold Slashing.SetValidatorSigningInfo. apply modify_runs. by rewrite (sl_with others), (with_slash_twice others).
Qed.

Lemma vote_kept ctx c signed i s : sinv s → voter_ok s c → Slashing.signingInfos (Slashing.sl s) !! c = Some i →
  sinv (vote_state ctx c signed i s) ∧ surplus (vote_state ctx c signed i s) = surplus s ∧
  ∀ c', voter_ok s c' → voter_ok (vote_state ctx c signed i s) c'.
Proof.
  intros HI (_ & _ & Hs) Hi. pose proof (store_inv s HI) as HT.
  assert (∀ j b, is_Some (<[c := j]> (Slashing.signingInfos (Slashing.sl s)) !! b) ↔ b = c ∨ is_Some (Slashing.signingInfos (Slashing.sl s) !! b)) as Hdom.
  { intros j b. rewrite lookup_insert. case_decide as E; [|split; [by right|by intros [->|?]]]. split; [by left|by eexists]. }
  assert (∀ b, voter_ok s b → voter_ok (with_slash (voted_store (Slashing.sl s) c signed i) s) b) as Hv.
  { intros b (H1 & H2 & H3). unfold voter_ok. rewrite (sl_with others). split; [done|]. split; [apply Hdom; by right|done]. }
  assert (slash_kept (Slashing.sl s) (voted_store (Slashing.sl s) c signed i)) as T1.
  { eapply slash_kept_info; [done|]. intros j. rewrite Hi, vote_info_tomb. by intros [= <-]. }
  assert (slash_kept (Slashing.sl s) (punished_store ctx (Slashing.sl s) c signed i)) as T2.
  { eapply slash_kept_info; [done|]. intros j. cbn. rewrite Hi, vote_info_tomb. by intros [= <-]. }
  pose proof (with_slash_kept _ s HI (voted_inv _ c signed i HT Hi) T1) as [K1 K2].
  unfold vote_state. destruct (too_many _ _ _); [|done]. destruct (GetValidatorByConsAddr c s) as [V|] eqn:EV'; [|done].
  destruct (Jailed V) eqn:EJ; [done|]. destruct (dismissed_kept c V s HI EV' EJ (Hs V eq_refl)) as (_ & HD & ED).
  destruct (with_slash_kept (punished_store ctx (Slashing.sl s) c signed i) _ HD (punished_inv ctx _ c signed i HT Hi) T2) as [K3 K4].
  split; [done|]. split; [congruence|]. intros b (H1 & H2 & H3). unfold voter_ok. rewrite (sl_with others).
  split; [done|]. split; [apply Hdom; by right|]. intros U. unfold GetValidatorByConsAddr, GetValidator, with_slash, dismissed. cbn.
  destruct (by_cons_of c V s HI EV') as [HV' _]. unfold GetValidatorByConsAddr, GetValidator in H3.
  destruct (byConsAddr s !! b) as [u|]; [|done]. rewrite lookup_upd. case_decide as Eu; [|apply H3].
  intros [= <-]. cbn. by apply Hs.
Qed.

(** The states of the votes of a block. *)
Fixpoint votes_state ctx (votes : list Slashing.VoteInfo) s : StakingState W :=
  match votes with
  | [] => s
  | x :: l =>
      match Slashing.signingInfos (Slashing.sl s) !! Slashing.VoteAddress x with
      | Some i => votes_state ctx l (vote_state ctx (Slashing.VoteAddress x) (Slashing.SignedLastBlock x) i s)
      | None => s
      end
  end.

Lemma votes_run ctx votes s : sinv s → Forall (λ x, voter_ok s (Slashing.VoteAddress x)) votes →
  runs (Slashing.BeginBlocker ctx votes) s (λ _ s', s' = votes_state ctx votes s ∧ sinv s' ∧ surplus s' = surplus s).
Proof.
  unfold Slashing.BeginBlocker. revert s. induction votes as [|x l IH]; intros s HI HF; [by apply runs_ret|].
  apply Forall_cons in HF as [Hv HF]. cbn [mapM_ votes_state]. pose proof Hv as (_ & [i Hi] & _). rewrite Hi.
  apply runs_bind. eapply runs_mono; [by eapply vote_runs|]. intros [] s1 ->. cbn beta.
  destruct (vote_kept ctx _ (Slashing.SignedLastBlock x) i s HI Hv Hi) as (H1 & H2 & H3).
  eapply runs_mono; [apply IH; [done|eapply Forall_impl; [exact HF|]; cbn beta; auto]|].
  intros [] s2 (-> & H4 & H5). split; [done|]. split; [done|]. congruence.
Qed.

(** How long the validator has to be there before it is judged, and the blocks of the
    window it may miss. *)
Definition judged ctx t i n : bool :=
  ((Slashing.StartHeight i + Slashing.SignedBlocksWindow (Slashing.sparams t) <? BlockHeight ctx)
   && (Slashing.SignedBlocksWindow (Slashing.sparams t) - min_signed t <? n))%Z.

Lemma int64_id x : - 2 ^ 63 ≤ x < 2 ^ 63 → int64 x = x.
Proof. intros Hx. unfold int64. rewrite Z.mod_small by lia. lia. Qed.

Lemma count_nonneg m c : 0 ≤ missed_count m c.
Proof. unfold missed_count. apply zsum_nonneg, Forall_fmap, Forall_forall. intros [k b] _. cbn. by case_match. Qed.

Lemma judged_eq ctx t c signed i : slash_inv t → Slashing.signingInfos t !! c = Some i → 0 ≤ Slashing.StartHeight i →
  Slashing.StartHeight i + Slashing.SignedBlocksWindow (Slashing.sparams t) < 2 ^ 63 → missed_count (vote_bits t c signed i) c < 2 ^ 63 →
  too_many ctx t (vote_info t c signed i) = judged ctx t i (missed_count (vote_bits t c signed i) c).
Proof.
  intros HI Hi H0 HS HM. unfold too_many, judged. rewrite vote_counter by done. pose proof (count_nonneg (vote_bits t c signed i) c).
  assert (Slashing.StartHeight (vote_info t c signed i) = Slashing.StartHeight i) as -> by (unfold vote_info; by repeat case_match).
  pose proof (si_window t HI) as Hw. pose proof (si_min t HI) as Hm. pose proof unit_pos as Hu.
  assert (0 ≤ min_signed t ≤ Slashing.SignedBlocksWindow (Slashing.sparams t)) as Hb.
  { unfold min_signed. split; [|apply bankers_le; [done|nia]]. unfold Dec.bankers.
    pose proof (Z.div_pos (Slashing.pMinSignedPerWindow (Slashing.sparams t) * Slashing.SignedBlocksWindow (Slashing.sparams t)) Dec.unit ltac:(nia) ltac:(done)).
    repeat case_match; lia. }
  by rewrite !int64_id by lia.
Qed.

Lemma judged_ext ctx t i n n' : n = n' → judged ctx t i n = judged ctx t i n'.
Proof. by intros ->. Qed.

(** The blocks of the window that are missed after the vote. *)
Definition missed_after t c (signed : bool) i : Z :=
  missed_count (Slashing.missedBits t) c - (if missed_before t c i then 1 else 0) + (if signed then 0 else 1).

(** The validator that the vote puts in jail. *)
Definition accused ctx c (signed : bool) i s : option Validator :=
  if judged ctx (Slashing.sl s) i (missed_after (Slashing.sl s) c signed i)
  then match GetValidatorByConsAddr c s with Some V => if Jailed V then None else Some V | None => None end
  else None.

Record heights_fit t c (signed : bool) i : Prop := {
  hf_start : 0 ≤ Slashing.StartHeight i;
  hf_window : Slashing.StartHeight i + Slashing.SignedBlocksWindow (Slashing.sparams t) < 2 ^ 63;
  hf_missed : missed_after t c signed i < 2 ^ 63;
}.

Lemma vote_state_accused ctx c signed i s : sinv s → Slashing.signingInfos (Slashing.sl s) !! c = Some i →
  heights_fit (Slashing.sl s) c signed i →
  vote_state ctx c signed i s = match accused ctx c signed i s with
    | Some V => with_slash (punished_store ctx (Slashing.sl s) c signed i) (dismissed V s)
    | None => with_slash (voted_store (Slashing.sl s) c signed i) s
    end.
Proof.
  intros HI Hi [F1 F2 F3]. pose proof (store_inv s HI) as HT. unfold vote_state, accused, missed_after in *. rewrite <-vote_count in *.
  rewrite judged_eq by done. destruct (judged _ _ _ _); [|done]. destruct (GetValidatorByConsAddr c s) as [V|]; [|done]. by destruct (Jailed V).
Qed.

(** ** Leaving the jail *)

(** The validators that are abandoned in this block have to wait for another one. *)
Definition waits ctx v s : Prop := v ∈ abandoned s → ∀ V i, validators s !! v = Some V →
  Slashing.signingInfos (Slashing.sl s) !! ConsAddress_of V = Some i → Slashing.Tombstoned i = true ∨ BlockTime ctx < Slashing.JailedUntil i.

(** A validator that may leave the jail now. *)
Record released ctx v V i s : Prop := {
  rl_val : validators s !! v = Some V;
  rl_jailed : Jailed V = true;
  rl_own : vMinSelfDelegation V ≠ 0;
  rl_info : Slashing.signingInfos (Slashing.sl s) !! ConsAddress_of V = Some i;
  rl_status : Slashing.ValidatorStatus i ≠ Slashing.Destroying;
  rl_tomb : Slashing.Tombstoned i = false;
  rl_time : Slashing.JailedUntil i ≤ BlockTime ctx;
}.

Lemma unjail_message_safe ctx msg s : sinv s → waits ctx (Slashing.ujValidatorAddr msg) s →
  safe (Slashing.handleMsgUnjail ctx msg) s (λ _ s', ∃ V i, released ctx (Slashing.ujValidatorAddr msg) V i s ∧
    s' = rewrite_val (Slashing.ujValidatorAddr msg) (Some (set_Jailed false V)) s ∧ sinv s' ∧ surplus s' = surplus s).
Proof.
  intros HI HW. set (v := Slashing.ujValidatorAddr msg) in *. unfold Slashing.handleMsgUnjail, Slashing.keeper_Unjail. fold v.
  apply safe_bind, safe_gets, safe_bind, safe_or_throw. intros V HV. apply safe_bind, safe_throw_if. intros Hz.
  apply safe_bind, safe_gets, safe_bind, safe_or_throw. intros U HU. assert (U = V) as -> by (unfold GetValidator in *; congruence).
  apply safe_bind, safe_throw_if. intros HJ%negb_false_iff. apply safe_bind, safe_gets, safe_bind, safe_or_throw. intros i Hi.
  apply safe_bind, safe_throw_if. intros Hst%bool_decide_eq_false. apply safe_bind, safe_throw_if. intros Ht.
  apply safe_bind, safe_throw_if. intros Hn%Z.ltb_ge. rewrite Dec.IsZero_spec in Hz. apply Z.eqb_neq in Hz. apply safe_runs.
  assert (v ∉ abandoned s) as Hab by (intros Hv; destruct (HW Hv V i HV Hi); [congruence|lia]).
  eapply runs_mono; [by eapply (unjail_runs WInv protected)|]. intros [] s' (E & H1 & H2). exists V, i. by split.
Qed.

(** Tombstoned, or not yet: no way out. *)
Lemma unjail_refused ctx msg V i s : validators s !! Slashing.ujValidatorAddr msg = Some V → Jailed V = true →
  Slashing.signingInfos (Slashing.sl s) !! ConsAddress_of V = Some i → Slashing.Tombstoned i = true ∨ BlockTime ctx < Slashing.JailedUntil i →
  ∃ e, Slashing.handleMsgUnjail ctx msg s = (Err e, s) ∧
    e ∈ [SlashingErr.ErrValidatorJailed; SlashingErr.ErrValidatorDestroying; SlashingErr.ErrMissingSelfDelegation].
Proof.
  intros HV HJ Hi Ht. unfold Slashing.handleMsgUnjail, Slashing.keeper_Unjail, or_throw, throw_if, gets, GetValidator, mbind, M_bind. rewrite HV. cbn.
  destruct (Dec.IsZero (vMinSelfDelegation V)); [eexists; split; [done|do 2 right; left]|]. cbn. rewrite HV. cbn. rewrite HJ. cbn.
  unfold Slashing.GetValidatorSigningInfo. change (pk_Address (ConsPubKey V)) with (ConsAddress_of V). rewrite Hi. cbn.
  destruct (bool_decide (Slashing.ValidatorStatus i = Slashing.Destroying)); [eexists; split; [done|right; left]|]. cbn.
  destruct (Slashing.Tombstoned i); [eexists; split; [done|left]|]. destruct Ht as [Ht|Ht]; [done|].
  apply Z.ltb_lt in Ht. rewrite Ht. eexists. split; [done|left].
Qed.

(** ** Double signing *)

Section evidence.
Context {E : Type} `{ET : Evidence.EvidenceType E} `{EA : !Evidence.EvidenceApp W E}.
Implicit Type e : Evidence.Equivocation.

(** The evidence counts: it is not too old, and the validator is still there and not
    punished for it already. *)
Record caught ctx e V i s : Prop := {
  ca_key : is_Some (Slashing.pubkeys (Slashing.sl s) !! Evidence.ConsensusAddress e);
  ca_age : BlockTime ctx - default 0 (Evidence.Time e) ≤ Evidence.pMaxEvidenceAge (Evidence.eparams (Evidence.evid (world s)));
  ca_val : GetValidatorByConsAddr (Evidence.ConsensusAddress e) s = Some V;
  ca_status : Status V ≠ Unbonded;
  ca_info : Slashing.signingInfos (Slashing.sl s) !! Evidence.ConsensusAddress e = Some i;
  ca_tomb : Slashing.Tombstoned i = false;
}.

(** The same validators by consensus address, in the same status, and no signing info less. *)
Definition same_voters s s' : Prop :=
  (∀ b U', GetValidatorByConsAddr b s' = Some U' → ∃ U, GetValidatorByConsAddr b s = Some U ∧ Status U' = Status U) ∧
  slash_kept (Slashing.sl s) (Slashing.sl s').

Lemma same_voters_refl s s' : byConsAddr s' = byConsAddr s → validators s' = validators s → Slashing.sl s' = Slashing.sl s → same_voters s s'.
Proof.
  intros E1 E2 E3. split; [|by apply slash_kept_same; rewrite E3]. intros b U. unfold GetValidatorByConsAddr, GetValidator. rewrite E1, E2. by exists U.
Qed.

Lemma same_voters_trans s1 s2 s3 : same_voters s1 s2 → same_voters s2 s3 → same_voters s1 s3.
Proof.
  intros [H1 K1] [H2 K2]. split; [|by eapply slash_kept_trans]. intros b U3 (U2 & E2 & S2)%H2. apply H1 in E2 as (U1 & E1 & S1).
  exists U1. split; [done|]. congruence.
Qed.

Lemma dismissed_voters c V s : sinv s → GetValidatorByConsAddr c s = Some V → same_voters s (dismissed V s).
Proof.
  intros HI HV. destruct (by_cons_of c V s HI HV) as [HV' _]. split; [|by apply slash_kept_same].
  intros b U. unfold GetValidatorByConsAddr, GetValidator, dismissed. cbn. destruct (byConsAddr s !! b) as [u|]; [|done].
  rewrite lookup_upd. case_decide as Eu; [|by exists U]. intros [= <-]. subst u. exists V. by split.
Qed.

(** In jail for good. *)
Definition condemned V i c s' : Prop :=
  validators s' !! OperatorAddress V = Some (set_Jailed true V) ∧ OperatorAddress V ∈ abandoned s' ∧
  Slashing.signingInfos (Slashing.sl s') !! c
    = Some (Slashing.set_Tombstoned true (Slashing.set_JailedUntil Evidence.DoubleSignJailEndTime i)).

(** Nobody's stake changes: no other validator, no delegation or undelegation, and nothing
    outside of the two modules, in particular no balance. *)
Record unslashed V s s' : Prop := {
  us_vals u : u ≠ OperatorAddress V → validators s' !! u = validators s !! u;
  us_delegators : delegators s' = delegators s;
  us_undelegations : undelegations s' = undelegations s;
  us_others : others (world s') = others (world s);
}.

Lemma unslashed_trans V s1 s2 s3 : unslashed V s1 s2 → unslashed V s2 s3 → unslashed V s1 s3.
Proof. intros [A1 A2 A3 A4] [B1 B2 B3 B4]. split; try congruence. intros u Hu. by rewrite B1, A1. Qed.

Lemma set_jailed_same V : Jailed V = true → set_Jailed true V = V.
Proof. destruct V. cbn. by intros ->. Qed.

Lemma tombstone_runs c V i s1 : sinv s1 → slash_inv (Slashing.sl s1) →
  Slashing.signingInfos (Slashing.sl s1) !! c = Some i → Slashing.Tombstoned i = false →
  validators s1 !! OperatorAddress V = Some (set_Jailed true V) → OperatorAddress V ∈ abandoned s1 →
  runs (Slashing.JailUntil c Evidence.DoubleSignJailEndTime;; Slashing.Tombstone c) s1 (λ _ s',
    sinv s' ∧ surplus s' = surplus s1 ∧ same_voters s1 s' ∧ condemned V i c s' ∧ unslashed V s1 s').
Proof.
  intros HI HT Hi Ht HV Hab. unfold Slashing.JailUntil, Slashing.Tombstone, Slashing.SetValidatorSigningInfo.
  apply runs_bind, runs_bind, runs_gets. unfold Slashing.GetValidatorSigningInfo. rewrite Hi. apply modify_runs.
  apply runs_bind, runs_gets. rewrite (sl_with others). cbn. rewrite lookup_insert_eq. cbn. rewrite Ht. apply modify_runs.
  rewrite (sl_with others), (with_slash_twice others). cbn. rewrite insert_insert_eq. set (t := Slashing.set_signingInfos _ _).
  assert (slash_inv t) as Ht'.
  { pose proof (info_inv (Slashing.sl s1) c (Slashing.set_Tombstoned true (Slashing.set_JailedUntil Evidence.DoubleSignJailEndTime i)) HT (si_counter _ HT c i Hi)) as X.
    unfold t. destruct X as [X1 X2 X3 X4 X5]. by split. }
  destruct (with_slash_kept t s1 HI Ht') as [K1 K2]; [by eapply slash_kept_info|]. split; [done|]. split; [done|].
  split; [split; [by intros b U HU; exists U|rewrite (sl_with others); by eapply slash_kept_info]|]. split; [|split; [done..|]; apply others_set_slash].
  split; [done|]. split; [done|]. rewrite (sl_with others). unfold t. cbn. by rewrite lookup_insert_eq.
Qed.

Lemma double_sign_runs ctx e s : sinv s →
  (∀ V, GetValidatorByConsAddr (Evidence.ConsensusAddress e) s = Some V → Status V ≠ Unbonded →
    is_Some (Slashing.signingInfos (Slashing.sl s) !! Evidence.ConsensusAddress e)) →
  runs (Evidence.HandleDoubleSign ctx e) s (λ _ s', sinv s' ∧ surplus s' = surplus s ∧ same_voters s s' ∧
    ((∃ V i, caught ctx e V i s ∧ condemned V i (Evidence.ConsensusAddress e) s' ∧ unslashed V s s') ∨
     (¬ (∃ V i, caught ctx e V i s) ∧ s' = s))).
Proof.
  intros HI Hinfo. set (c := Evidence.ConsensusAddress e) in *. unfold Evidence.HandleDoubleSign. fold c.
  assert (∀ Q : Prop, Q → (Q → ¬ (∃ V i, caught ctx e V i s)) → runs (mret tt) s (λ _ s', sinv s' ∧ surplus s' = surplus s ∧ same_voters s s' ∧
    ((∃ V i, caught ctx e V i s ∧ condemned V i c s' ∧ unslashed V s s') ∨ (¬ (∃ V i, caught ctx e V i s) ∧ s' = s)))) as Hno.
  { intros Q HQ HN. apply runs_ret. split; [done|]. split; [done|]. split; [by apply same_voters_refl|]. right. auto. }
  apply runs_bind, runs_gets. unfold Slashing.GetPubkey. destruct (Slashing.pubkeys (Slashing.sl s) !! c) as [pk|] eqn:Ek.
  2:{ apply (Hno _ Ek). intros _ (V & i & [[x Hx] _ _ _ _ _]). fold c in Hx. congruence. }
  apply runs_bind, runs_gets. unfold Evidence.MaxEvidenceAge. destruct (Z.ltb_spec (Evidence.pMaxEvidenceAge (Evidence.eparams (Evidence.evid (world s)))) (BlockTime ctx - default 0 (Evidence.Time e))) as [Ea|Ea].
  { apply (Hno _ Ea). intros _ (V & i & [_ Hx _ _ _ _]). lia. }
  apply runs_bind, runs_gets. destruct (GetValidatorByConsAddr c s) as [V|] eqn:EV'.
  2:{ apply (Hno _ EV'). intros _ (V & i & [_ _ Hx _ _ _]). fold c in Hx. congruence. }
  unfold IsUnbonded. destruct (bool_decide_reflect (Status V = Unbonded)) as [Es|Es].
  { apply (Hno _ Es). intros _ (U & i & [_ _ Hx Hy _ _]). fold c in Hx. congruence. }
  destruct (Hinfo V eq_refl Es) as [i Hi]. apply runs_bind, runs_gets. unfold Slashing.HasValidatorSigningInfo, Slashing.GetValidatorSigningInfo.
  rewrite Hi. cbn [negb]. rewrite bool_decide_eq_true_2 by by eexists. cbn [negb]. apply runs_bind, runs_gets.
  unfold Slashing.IsTombstoned, Slashing.GetValidatorSigningInfo. rewrite Hi. destruct (Slashing.Tombstoned i) eqn:Et.
  { apply (Hno _ Et). intros _ (U & j & [_ _ _ _ Hx Hy]). fold c in Hx. congruence. }
  destruct (by_cons_of c V s HI EV') as [HV Hc].
  assert (caught ctx e V i s) as Hcaught by (split; fold c; try done; by eexists).
  assert (∀ s1, sinv s1 → surplus s1 = surplus s → Slashing.sl s1 = Slashing.sl s → same_voters s s1 →
    validators s1 !! OperatorAddress V = Some (set_Jailed true V) → OperatorAddress V ∈ abandoned s1 → unslashed V s s1 →
    runs (Slashing.JailUntil c Evidence.DoubleSignJailEndTime;; Slashing.Tombstone c) s1 (λ _ s', sinv s' ∧ surplus s' = surplus s ∧ same_voters s s' ∧
    ((∃ V i, caught ctx e V i s ∧ condemned V i c s' ∧ unslashed V s s') ∨ (¬ (∃ V i, caught ctx e V i s) ∧ s' = s)))) as Hyes.
  { intros s1 H1 H2 H3 H6 H4 H5 H7. eapply runs_mono; [eapply (tombstone_runs c V i); try done; rewrite H3; try done; by apply store_inv|].
    intros [] s2 (K1 & K2 & K4 & K3 & K5). cbn beta. split; [done|]. split; [congruence|]. split; [by eapply same_voters_trans|]. left. exists V, i.
    split; [done|]. split; [done|]. by eapply unslashed_trans. }
  destruct (Jailed V) eqn:EJ; cbn [negb]; cbv iota.
  - apply runs_bind. eapply runs_mono; [by eapply (append_runs WInv protected)|]. intros [] s1 (E1 & H1 & H2).
    apply runs_bind, runs_ret. apply Hyes; [done|done|by rewrite E1|by apply same_voters_refl; rewrite E1|rewrite E1; cbn; by rewrite set_jailed_same| |by rewrite E1].
    rewrite E1. apply elem_of_app. right. by apply list_elem_of_singleton.
  - unfold Slashing.keeper_Jail. destruct (dismissed_kept c V s HI EV' EJ Es) as (HD & HI1 & HS1).
    assert (runs (AppendAbandonedValidatorAddrs c;; Jail c) s (λ _ s', s' = dismissed V s)) as HR.
    { unfold runs. rewrite (StakingTheorems.punish_eq WInv c (OperatorAddress V) V) by (done || apply HI). by apply runs_bind. }
    apply runs_assoc. eapply runs_bind, runs_mono; [exact HR|]. intros [] s1 ->. cbn beta. apply Hyes; [done|done|done|by eapply dismissed_voters| | |].
    + unfold dismissed. cbn. rewrite lookup_upd. by rewrite decide_True.
    + unfold dismissed. cbn. apply elem_of_app. right. by apply list_elem_of_singleton.
    + split; [|done..]. intros u Hu. unfold dismissed. cbn. rewrite lookup_upd. by rewrite decide_False.
Qed.

(** Every validator that is not unbonded has a signing info. *)
Definition signed_up s : Prop := ∀ c V, GetValidatorByConsAddr c s = Some V → Status V ≠ Unbonded →
  is_Some (Slashing.signingInfos (Slashing.sl s) !! c).

Lemma signed_up_same s s' : same_voters s s' → signed_up s → signed_up s'.
Proof. intros [H1 H2] HS c U (V & HV & EU)%H1 Hs. destruct (HS c V HV ltac:(congruence)) as [i (j & Hj & _)%H2]. by exists j. Qed.

Lemma evidence_block_runs ctx l s : sinv s → signed_up s →
  runs (Evidence.BeginBlocker ctx l) s (λ _ s', sinv s' ∧ surplus s' = surplus s ∧ signed_up s').
Proof.
  intros HI HS. unfold Evidence.BeginBlocker.
  apply (runs_mapM_ _ _ _ (λ s', sinv s' ∧ surplus s' = surplus s ∧ signed_up s')); [done|].
  intros x s1 _ (H1 & H2 & H3). destruct (Evidence.aType x); [|by apply runs_ret].
  eapply runs_mono; [apply double_sign_runs; [done|apply H3]|]. intros [] s2 (K1 & K2 & K3 & _). split; [done|].
  split; [congruence|]. by eapply signed_up_same.
Qed.
End evidence.
End votes.

End SlashSpec.
