(* ===== verification/JailLock.v ===== *)
(** * Validators that cannot leave the jail

    A consensus address is locked in a state when every validator with it is in jail.
    No operation of the staking, slashing, evidence or distribution module unlocks it,
    except for a message to create a validator with the key and for a message to unjail
    one: every validator that they store was read from the store, and they only put it
    into the jail.  The rules below follow the operations, on every outcome. *)

From S2P Require Import Prelude SdkDec SdkCoins GoStd Common StakingErrors Token Staking Slashing Evidence Distribution.

#[local] Open Scope Z_scope.

Module JailLock.
Import Staking.

Create HintDb guards discriminated.
#[export] Hint Constants Opaque : guards.

(** ** Rules *)

Section rules.
Context `{EV : Env} {W : Type} (c : ConsAddress).
Implicit Types (s : StakingState W) (V : Validator).

Definition locked V : Prop := ConsAddress_of V = c → Jailed V = true.
Definition all_locked s : Prop := ∀ v V, validators s !! v = Some V → locked V.

(** The computation keeps the lock, whatever its outcome, and a result has [Q]. *)
Definition guards {A} (m : M (StakingState W) A) (Q : A → Prop) : Prop :=
  ∀ s, all_locked s → all_locked (snd (m s)) ∧ ∀ a, fst (m s) = Ok a → Q a.

Lemma guards_bind {A B} (m : M (StakingState W) A) (f : A → M (StakingState W) B) Q R :
  guards m Q → (∀ a, Q a → guards (f a) R) → guards (m ≫= f) R.
Proof.
  intros Hm Hf s HL. destruct (Hm s HL) as [H1 H2]. unfold mbind, M_bind.
  destruct (m s) as [[a|e|] s']; cbn in *; [by apply Hf; [apply H2|]|by split..].
Qed.

Lemma guards_mono {A} (m : M (StakingState W) A) (Q R : A → Prop) : guards m Q → (∀ a, Q a → R a) → guards m R.
Proof. intros Hm HQ s HL. destruct (Hm s HL) as [H1 H2]. split; [done|]. auto. Qed.

Lemma guards_any {A} (m : M (StakingState W) A) Q : guards m Q → guards m (λ _, True).
Proof. intros H. by eapply guards_mono. Qed.

Lemma guards_ret {A} (a : A) (Q : A → Prop) : Q a → guards (mret a) Q.
Proof. intros H s HL. split; [done|]. by intros b [= <-]. Qed.

Lemma guards_stop {A} (o : outcome A) Q : (∀ a, o = Ok a → Q a) → guards (lift o) Q.
Proof. intros H s HL. split; [done|]. apply H. Qed.

Lemma guards_lift {A} (o : outcome A) : guards (lift o) (λ _, True).
Proof. by apply guards_stop. Qed.
Lemma guards_throw {A} e Q : guards (throw e : M _ A) Q.
Proof. intros s HL. by split. Qed.
Lemma guards_panic {A} Q : guards (panic : M _ A) Q.
Proof. intros s HL. by split. Qed.
Lemma guards_throw_if b e : guards (throw_if b e) (λ _, True).
Proof. destruct b; intros s HL; by split. Qed.
Lemma guards_gets {A} (f : StakingState W → A) : guards (gets f) (λ _, True).
Proof. intros s HL. by split. Qed.
Lemma guards_get : guards get all_locked.
Proof. intros s HL. split; [done|]. by intros a [= <-]. Qed.

Lemma guards_modify (f : StakingState W → StakingState W) : (∀ s, all_locked s → all_locked (f s)) → guards (modify f) (λ _, True).
Proof. intros H s HL. split; [by apply H|done]. Qed.
Lemma guards_elsewhere (f : StakingState W → StakingState W) : (∀ s, validators (f s) = validators s) → guards (modify f) (λ _, True).
Proof. intros H. apply guards_modify. intros s HL v V. rewrite H. apply HL. Qed.

Lemma guards_or_throw {A} (o : option A) e : guards (or_throw o e) (λ _, True).
Proof. destruct o; intros s HL; by split. Qed.
Lemma guards_wrap {A} f (m : M (StakingState W) A) Q : guards m Q → guards (wrap_err f m) Q.
Proof. intros Hm s HL. destruct (Hm s HL) as [H1 H2]. unfold wrap_err. by destruct (m s) as [[]]. Qed.
Lemma guards_must {A} (m : M (StakingState W) A) Q : guards m Q → guards (must m) Q.
Proof. intros Hm s HL. destruct (Hm s HL) as [H1 H2]. unfold must. by destruct (m s) as [[]]. Qed.
Lemma guards_catch {A} (m : M (StakingState W) A) Q : guards m Q → guards (catch m) (λ _, True).
Proof. intros Hm s HL. destruct (Hm s HL) as [H1 H2]. unfold catch. by destruct (m s) as [[]]. Qed.
Lemma guards_mapM_ {A} (f : A → M (StakingState W) unit) l (P : A → Prop) :
  Forall P l → (∀ x, P x → guards (f x) (λ _, True)) → guards (mapM_ f l) (λ _, True).
Proof.
  intros HP Hf. induction HP as [|x l Hx HP IH]; cbn [mapM_]; [by apply guards_ret|].
  eapply guards_bind; [by apply Hf|]. done.
Qed.
Lemma guards_mapM_any {A} (f : A → M (StakingState W) unit) l :
  (∀ x, guards (f x) (λ _, True)) → guards (mapM_ f l) (λ _, True).
Proof. intros Hf. apply (guards_mapM_ f l (λ _, True)); [|done]. by apply Forall_forall. Qed.
Lemma guards_zoom {A T} (view : StakingState W → T) update (m : M T A) : (∀ t s, validators (update t s) = validators s) →
  guards (zoom view update m) (λ _, True).
Proof. intros H s HL. unfold zoom. destruct (m (view s)) as [r t]. split; [|done]. intros v V. cbn. rewrite H. apply HL. Qed.

(** Validators that are read are locked, and only such may be stored. *)
Definition found (o : option Validator) : Prop := ∀ V, o = Some V → locked V.

Lemma found_some V : found (Some V) → locked V.
Proof. intros H. by apply H. Qed.
Lemma get_found a s : all_locked s → found (GetValidator a s).
Proof. intros HL V HV. by eapply HL. Qed.
Lemma guards_read a : guards (gets (GetValidator a)) found.
Proof. intros s HL. split; [done|]. intros o [= <-]. by apply get_found. Qed.
Lemma guards_read_cons a : guards (gets (GetValidatorByConsAddr a)) found.
Proof.
  intros s HL. split; [done|]. intros o [= <-]. unfold GetValidatorByConsAddr. destruct (byConsAddr s !! a); [|by intros V].
  by apply get_found.
Qed.
Lemma guards_found_throw o e : found o → guards (or_throw o e) locked.
Proof. intros H. destruct o as [V|]; [apply guards_ret; by apply H|apply guards_throw]. Qed.
Lemma guards_found_panic o : found o → guards (lift (or_panic o)) locked.
Proof. intros H. apply guards_stop. intros V E. destruct o; [injection E as <-; by apply H|done]. Qed.
Lemma guards_SetValidator V : locked V → guards (SetValidator V) (λ _, True).
Proof.
  intros HV. apply guards_modify. intros s HL v U. cbn. rewrite lookup_insert. case_decide; [by intros [= <-]|apply HL].
Qed.
Lemma guards_delete a : guards (modify (λ s, set_validators (delete a (validators s)) s)) (λ _, True).
Proof. apply guards_modify. intros s HL v V. cbn. rewrite lookup_delete_Some. intros [_ HV]. by eapply HL. Qed.
End rules.

#[export] Hint Resolve guards_throw guards_panic guards_throw_if guards_get guards_read guards_read_cons : guards.
#[export] Hint Resolve guards_SetValidator guards_delete found_some : guards.
#[export] Hint Resolve guards_gets guards_lift guards_or_throw | 5 : guards.
#[export] Hint Resolve guards_wrap guards_must guards_catch : guards.
#[export] Hint Extern 1 (guards _ (modify _) _) => (apply guards_elsewhere; done) : guards.
#[export] Hint Extern 1 (guards _ (zoom _ _ _) _) => (apply guards_zoom; done) : guards.
#[export] Hint Extern 1 (guards _ (mret _) (λ _, True)) => (apply guards_ret; done) : guards.
#[export] Hint Extern 2 (guards _ (mret _) _) => (apply guards_ret; eauto 2 with guards) : guards.
#[export] Hint Extern 1 (locked _ _) => (unfold locked, ConsAddress_of in *; cbn in *; solve [auto]) : guards.
#[export] Hint Extern 9 (guards _ _ (λ _, True)) => (eapply guards_any; solve [eauto 3 with guards nocore]) : guards.

(** A validator was found. *)
Ltac known := first [apply guards_found_throw; assumption|apply guards_found_panic; assumption].

(** Walks through a computation: a result is known to have what a rule says of it. *)
Ltac walk :=
  lazymatch goal with
  | |- guards _ (_ ≫= _) _ =>
      first [ eapply guards_bind; [first [known|solve [eauto 4 with guards]]|]; cbv beta; intros ? ?; walk
            | apply (guards_bind _ _ _ (λ _, True)); [walk|intros ? _; walk] ]
  | |- guards _ (if ?b then _ else _) _ => destruct b; walk
  | |- guards _ (match ?x with _ => _ end) _ => destruct x; walk
  | |- guards _ (let _ := _ in _) _ => cbv zeta; walk
  | |- guards _ _ _ => first [known|solve [eauto 4 with guards]]
  | |- _ => idtac
  end.

(** ** The staking module *)

Section staking.
Context `{DO : Dec.Ops} `{CO : Coins.Ops} `{BO : Bank.Ops} `{SO : !SupplyOps} `{EV : Env} {W : Type} `{AP : !App W}
  (c : ConsAddress).

(** The hooks of the application keep the lock, as those that only change the rest of the
    world do. *)
Class HooksGuard : Prop := {
  guards_created ctx v : guards c (hookValidatorCreated ctx v) (λ _, True);
  guards_removed ctx a v : guards c (hookValidatorRemoved ctx a v) (λ _, True);
  guards_bonded ctx a v : guards c (hookValidatorBonded ctx a v) (λ _, True);
  guards_unbonding ctx a v : guards c (hookValidatorBeginUnbonding ctx a v) (λ _, True);
  guards_destroyed ctx a v : guards c (hookValidatorDestroyed ctx a v) (λ _, True);
}.
#[local] Hint Resolve guards_created guards_removed guards_bonded guards_unbonding guards_destroyed : guards.

Context `{HG : !HooksGuard}.

Lemma guards_mustGet a : guards c (mustGetValidator a : M (StakingState W) _) (locked c).
Proof. unfold mustGetValidator. walk. Qed.
Lemma guards_mustGetByCons a : guards c (mustGetValidatorByConsAddr a : M (StakingState W) _) (locked c).
Proof. unfold mustGetValidatorByConsAddr. walk. Qed.
#[local] Hint Resolve guards_mustGet guards_mustGetByCons : guards.

Lemma guards_reindex V : guards c (SetValidatorByPowerIndex V : M (StakingState W) _) (λ _, True).
Proof. unfold SetValidatorByPowerIndex. walk. Qed.
Lemma guards_unindex V : guards c (DeleteValidatorByPowerIndex V : M (StakingState W) _) (λ _, True).
Proof. unfold DeleteValidatorByPowerIndex. walk. Qed.
#[local] Hint Resolve guards_reindex guards_unindex : guards.

Lemma guards_remove ctx a : guards c (RemoveValidator ctx a : M (StakingState W) _) (λ _, True).
Proof. unfold RemoveValidator. walk. Qed.
#[local] Hint Resolve guards_remove : guards.

Lemma guards_enqueue V : guards c (InsertValidatorQueue V : M (StakingState W) _) (λ _, True).
Proof. unfold InsertValidatorQueue, SetValidatorQueueTimeSlice. walk. Qed.
Lemma guards_dequeue V : guards c (DeleteValidatorQueue V : M (StakingState W) _) (λ _, True).
Proof. unfold DeleteValidatorQueue, SetValidatorQueueTimeSlice, DeleteValidatorQueueTimeSlice. walk. Qed.
#[local] Hint Resolve guards_enqueue guards_dequeue : guards.

Lemma guards_bond ctx V : locked c V → guards c (bondValidator ctx V : M (StakingState W) _) (locked c).
Proof. intros HV. unfold bondValidator. walk. Qed.
Lemma guards_begin_unbonding ctx V : locked c V → guards c (beginUnbondingValidator ctx V : M (StakingState W) _) (locked c).
Proof. intros HV. unfold beginUnbondingValidator. walk. Qed.
Lemma guards_complete_unbonding V : locked c V → guards c (completeUnbondingValidator V : M (StakingState W) _) (locked c).
Proof. intros HV. unfold completeUnbondingValidator. walk. Qed.
#[local] Hint Resolve guards_bond guards_begin_unbonding guards_complete_unbonding : guards.

Lemma guards_bondedToUnbonding ctx V : locked c V → guards c (bondedToUnbonding ctx V : M (StakingState W) _) (locked c).
Proof. intros HV. unfold bondedToUnbonding. walk. Qed.
Lemma guards_unbondingToBonded ctx V : locked c V → guards c (unbondingToBonded ctx V : M (StakingState W) _) (locked c).
Proof. intros HV. unfold unbondingToBonded. walk. Qed.
Lemma guards_unbondedToBonded ctx V : locked c V → guards c (unbondedToBonded ctx V : M (StakingState W) _) (locked c).
Proof. intros HV. unfold unbondedToBonded. walk. Qed.
Lemma guards_unbondingToUnbonded V : locked c V → guards c (unbondingToUnbonded V : M (StakingState W) _) (locked c).
Proof. intros HV. unfold unbondingToUnbonded. walk. Qed.
#[local] Hint Resolve guards_bondedToUnbonding guards_unbondingToBonded guards_unbondedToBonded guards_unbondingToUnbonded : guards.

Lemma guards_Jail a : guards c (Jail a : M (StakingState W) _) (λ _, True).
Proof. unfold Jail, jailValidator. walk. Qed.
Lemma guards_Append a : guards c (AppendAbandonedValidatorAddrs a : M (StakingState W) _) (λ _, True).
Proof. unfold AppendAbandonedValidatorAddrs. walk. Qed.

(** *** The end of a block *)

Lemma guards_promote ctx last keys n ups tot : guards c (promote ctx last keys n ups tot : M (StakingState W) _) (λ _, True).
Proof.
  revert n ups tot. induction keys as [|v keys IH]; intros [|n] ups tot; cbn [promote]; try by apply guards_ret.
  case_decide; [apply IH|]. eapply guards_bind; [apply guards_mustGet|]. intros V HV. cbv beta. case_match; [apply IH|].
  eapply (guards_bind _ _ _ (locked c)); [destruct (Status V); walk|]. intros V' _. unfold SetLastValidatorPower. walk.
Qed.
Lemma guards_discharge ctx last keys ups tot : guards c (discharge ctx last keys ups tot : M (StakingState W) _) (λ _, True).
Proof.
  revert ups tot. induction keys as [|v keys IH]; intros ups tot; cbn [discharge]; [by apply guards_ret|].
  unfold DeleteLastValidatorPower. walk.
Qed.
Lemma guards_elect ctx keys n last ups tot : guards c (elect ctx keys n last ups tot : M (StakingState W) _) (λ _, True).
Proof.
  revert n last ups tot. induction keys as [|v keys IH]; intros [|n] last ups tot; cbn [elect]; try by apply guards_ret.
  eapply guards_bind; [apply guards_mustGet|]. intros V HV. cbv beta. case_match; [walk|]. case_match; [walk|].
  eapply (guards_bind _ _ _ (locked c)); [destruct (Status V); walk|]. intros V' _. unfold SetLastValidatorPower. walk.
Qed.
Lemma guards_retire ctx l ups : guards c (retire ctx l ups : M (StakingState W) _) (λ _, True).
Proof.
  revert ups. induction l as [|v l IH]; intros ups; cbn [retire]; [by apply guards_ret|].
  unfold DeleteLastValidatorPower. walk.
Qed.
#[local] Hint Resolve guards_promote guards_discharge guards_elect guards_retire guards_Jail guards_Append : guards.

Lemma guards_unbond_one ctx v : guards c (unbond_one ctx v : M (StakingState W) _) (λ _, True).
Proof. unfold unbond_one. walk. Qed.
Lemma guards_mature ctx : guards c (UnbondAllMatureValidatorQueue ctx : M (StakingState W) _) (λ _, True).
Proof.
  unfold UnbondAllMatureValidatorQueue, DeleteValidatorQueueTimeSlice. eapply guards_bind; [apply guards_gets|]. intros l _.
  apply guards_mapM_any. intros x. eapply guards_bind; [apply guards_mapM_any, guards_unbond_one|]. intros _ _. walk.
Qed.
Lemma guards_due t : guards c (IterateKeysBeforeCurrentTime t : M (StakingState W) _) (λ _, True).
Proof.
  unfold IterateKeysBeforeCurrentTime, complete_one. eapply guards_bind; [apply guards_gets|]. intros l _.
  apply guards_mapM_any. intros x. unfold DeleteAddrByTimeKey, CompleteUndelegation, on_supply, DeleteUndelegating.
  eapply guards_bind; [walk|]. intros _ _. eapply guards_bind; [apply (guards_catch _ _ (λ _, True)); walk|]. intros _ _. walk.
Qed.
#[local] Hint Resolve guards_mature guards_due : guards.

Lemma guards_end ctx : guards c (EndBlocker ctx : M (StakingState W) _) (λ _, True).
Proof.
  unfold EndBlocker, validator_updates, SetEpoch, SetTheEndOfLastEpoch, ApplyAndReturnValidatorSetUpdates,
    KickOutAndReturnValidatorSetUpdates, DeleteAbandonedValidatorAddrs, SetLastTotalPower. walk.
Qed.

(** *** Messages *)

#[local] Hint Extern 1 (guards _ (SetDelegator _) _) => (unfold SetDelegator) : guards.
#[local] Hint Extern 1 (guards _ (DeleteDelegator _) _) => (unfold DeleteDelegator) : guards.
#[local] Hint Extern 1 (guards _ (SetShares _ _ _) _) => (unfold SetShares) : guards.
#[local] Hint Extern 1 (guards _ (DeleteShares _ _) _) => (unfold DeleteShares) : guards.
#[local] Hint Extern 1 (guards _ (SetUndelegating _) _) => (unfold SetUndelegating) : guards.
#[local] Hint Extern 1 (guards _ (SetAddrByTimeKeyWithNilValue _ _) _) => (unfold SetAddrByTimeKeyWithNilValue) : guards.
#[local] Hint Extern 1 (guards _ (DeleteAddrByTimeKey _ _) _) => (unfold DeleteAddrByTimeKey) : guards.
#[local] Hint Extern 1 (guards _ (SetProxyBinding _ _ _) _) => (unfold SetProxyBinding) : guards.
#[local] Hint Extern 1 (guards _ (on_supply _) _) => (unfold on_supply) : guards.
#[local] Hint Extern 1 (guards _ (bondedTokensToNotBonded _) _) => (unfold bondedTokensToNotBonded, on_supply) : guards.

(** The validators that a delegator added shares to. *)
Lemma guards_last a : guards c (gets (GetLastValsAddedSharesExisted a) : M (StakingState W) _) (λ r, Forall (locked c) (fst r)).
Proof.
  intros s HL. split; [done|]. intros r [= <-]. unfold GetLastValsAddedSharesExisted. destruct (GetDelegator a s); cbn; [|constructor].
  apply Forall_forall. intros V (v & _ & HV)%list_elem_of_omap. by eapply get_found.
Qed.
Lemma guards_wanted l (s : StakingState W) : all_locked c s → guards c (lift (GetValidatorsToAddShares l s) : M (StakingState W) _) (Forall (locked c)).
Proof.
  intros HL. apply guards_stop. intros vals. unfold GetValidatorsToAddShares. destruct (mapM _ l) as [k|] eqn:E; [|done].
  intros [= <-]. apply mapM_Some in E. induction E as [|v V l k HV E IH]; constructor; [|done]. by eapply get_found.
Qed.
#[local] Hint Resolve guards_last : guards.

Lemma guards_update_one a x y V : locked c V → guards c (update_shares_one a x y V : M (StakingState W) _) (λ _, True).
Proof. intros HV. unfold update_shares_one. walk. Qed.
Lemma guards_add a x V : locked c V → guards c (addShares a x V : M (StakingState W) _) (λ _, True).
Proof. intros HV. unfold addShares. walk. Qed.
Lemma guards_withdraw_one ctx a x V : locked c V → guards c (withdrawShares ctx a x V : M (StakingState W) _) (λ _, True).
Proof. intros HV. unfold withdrawShares. walk. Qed.

Lemma guards_UpdateShares ctx a x : guards c (UpdateShares ctx a x : M (StakingState W) _) (λ _, True).
Proof.
  unfold UpdateShares. eapply guards_bind; [apply guards_last|]. intros [vals last] HV. cbn in HV. case_match; [walk|].
  do 3 (eapply guards_bind; [eauto 2 with guards|]; intros ? _). 
  eapply guards_bind; [eapply guards_mapM_; [exact HV|apply guards_update_one]|]. intros _ _. walk.
Qed.
Lemma guards_WithdrawLast ctx a vals x : Forall (locked c) vals →
  guards c (WithdrawLastShares ctx a vals x : M (StakingState W) _) (λ _, True).
Proof. intros HV. eapply guards_mapM_; [exact HV|apply guards_withdraw_one]. Qed.
Lemma guards_AddShares ctx a vals x : Forall (locked c) vals →
  guards c (AddSharesToValidators ctx a vals x : M (StakingState W) _) (λ _, True).
Proof.
  intros HV. unfold AddSharesToValidators. eapply guards_bind; [apply guards_lift|]. intros y _.
  eapply guards_bind; [eapply guards_mapM_; [exact HV|apply guards_add]|]. intros _ _. walk.
Qed.
#[local] Hint Resolve guards_UpdateShares guards_WithdrawLast guards_AddShares : guards.

Lemma guards_UpdateProxy ctx d x : guards c (UpdateProxy ctx d x : M (StakingState W) _) (λ _, True).
Proof. unfold UpdateProxy. walk. Qed.
#[local] Hint Resolve guards_UpdateProxy : guards.
Lemma guards_Delegate ctx a x : guards c (Delegate ctx a x : M (StakingState W) _) (λ _, True).
Proof. unfold Delegate. walk. Qed.
Lemma guards_Withdraw ctx a x : guards c (Withdraw ctx a x : M (StakingState W) _) (λ _, True).
Proof. unfold Withdraw. walk. Qed.
Lemma guards_destroy ctx a V : locked c V → guards c (WithdrawMinSelfDelegation ctx a V : M (StakingState W) _) (λ _, True).
Proof. intros HV. unfold WithdrawMinSelfDelegation. walk. Qed.
Lemma guards_unbindProxy ctx a : guards c (unbindProxy ctx a : M (StakingState W) _) (λ _, True).
Proof. unfold unbindProxy. walk. Qed.
Lemma guards_ClearProxy a : guards c (ClearProxy a : M (StakingState W) _) (λ _, True).
Proof. unfold ClearProxy. eapply guards_bind; [apply guards_gets|]. intros l _. apply guards_mapM_any. intros x. walk. Qed.
#[local] Hint Resolve guards_Delegate guards_Withdraw guards_destroy guards_unbindProxy guards_ClearProxy : guards.

(** A new validator has its own key. *)
Lemma guards_create ctx m : pk_Address (cvPubKey m) ≠ c → guards c (handleMsgCreateValidator ctx m : M (StakingState W) _) (λ _, True).
Proof.
  intros Hk. unfold handleMsgCreateValidator, SetValidatorByConsAddr, SetNewValidatorByPowerIndex, AddSharesAsMinSelfDelegation,
    addSharesAsDefaultMinSelfDelegation. do 2 (eapply guards_bind; [apply guards_gets|]; intros ? _; eapply guards_bind; [walk|]; intros _ _).
  eapply guards_bind; [apply guards_gets|]. intros p _. do 3 (apply (guards_bind _ _ _ (λ _, True)); [walk|]; intros _ _). cbv zeta.
  eapply (guards_bind _ _ _ (locked c)); [|intros V HV; walk].
  apply guards_stop. intros V. unfold SetInitialCommission.
  intros (u & _ & [= <-])%obind_ok Hc. by destruct Hk.
Qed.

Lemma guards_vote ctx m : guards c (handleMsgAddShares ctx m : M (StakingState W) _) (λ _, True).
Proof.
  unfold handleMsgAddShares. do 7 (eapply guards_bind; [eauto 2 with guards|]; intros ? _).
  eapply guards_bind; [apply guards_last|]. intros last HL. eapply guards_bind; [by apply guards_WithdrawLast|]. intros _ _.
  eapply guards_bind; [apply guards_get|]. intros s Hs. eapply guards_bind; [by apply guards_wanted|]. intros vals HV. walk.
Qed.
#[local] Hint Resolve guards_vote : guards.

Lemma guards_message ctx msg : (∀ m, msg = MCreateValidator m → pk_Address (cvPubKey m) ≠ c) →
  guards c (NewHandler ctx msg : M (StakingState W) _) (λ _, True).
Proof.
  intros Hk. destruct msg as [m|m|m|m|m|m|m|m|m|]; cbn [NewHandler]; [by apply guards_create, Hk|..];
    unfold handleMsgEditValidator, handleMsgDeposit, handleMsgWithdraw, handleMsgBindProxy, handleMsgUnbindProxy,
      handleRegProxy, regProxy, unregProxy, handleMsgDestroyValidator; walk.
Qed.
End staking.

#[export] Hint Resolve guards_Jail guards_Append : guards.

(** ** The slashing and the evidence module *)

Section slashing.
Context `{DO : Dec.Ops} `{EV : Env} `{SE : Slashing.SlashEnv} {W : Type} `{SA : !Slashing.SlashApp W} (c : ConsAddress).

Lemma guards_sl f : guards c (Slashing.modify_sl f : M (StakingState W) _) (λ _, True).
Proof. unfold Slashing.modify_sl. walk. Qed.
#[local] Hint Resolve guards_sl : guards.
#[local] Hint Extern 1 (guards _ (Slashing.SetValidatorSigningInfo _ _) _) => (unfold Slashing.SetValidatorSigningInfo) : guards.
#[local] Hint Extern 1 (guards _ (Slashing.SetValidatorMissedBlockBitArray _ _ _) _) => (unfold Slashing.SetValidatorMissedBlockBitArray) : guards.

Lemma guards_status a x : guards c (Slashing.modifyValidatorStatus a x : M (StakingState W) _) (λ _, True).
Proof. unfold Slashing.modifyValidatorStatus. walk. Qed.
#[local] Hint Resolve guards_status : guards.

Lemma guards_slash_created v : guards c (Slashing.AfterValidatorCreated v : M (StakingState W) _) (λ _, True).
Proof. unfold Slashing.AfterValidatorCreated, Slashing.AddPubkey, Slashing.setAddrPubkeyRelation. walk. Qed.
Lemma guards_slash_removed a : guards c (Slashing.AfterValidatorRemoved a : M (StakingState W) _) (λ _, True).
Proof. unfold Slashing.AfterValidatorRemoved, Slashing.deleteAddrPubkeyRelation. walk. Qed.
Lemma guards_slash_bonded ctx a : guards c (Slashing.AfterValidatorBonded ctx a : M (StakingState W) _) (λ _, True).
Proof. unfold Slashing.AfterValidatorBonded. walk. Qed.
Lemma guards_slash_destroyed v : guards c (Slashing.AfterValidatorDestroyed v : M (StakingState W) _) (λ _, True).
Proof. unfold Slashing.AfterValidatorDestroyed. walk. Qed.

Lemma guards_signature ctx a b : guards c (Slashing.HandleValidatorSignature ctx a b : M (StakingState W) _) (λ _, True).
Proof. unfold Slashing.HandleValidatorSignature, Slashing.clearValidatorMissedBlockBitArray. walk. Qed.
Lemma guards_votes ctx l : guards c (Slashing.BeginBlocker ctx l : M (StakingState W) _) (λ _, True).
Proof. apply guards_mapM_any. intros x. apply guards_signature. Qed.

Section evidence.
Context {E : Type} `{EA : !Evidence.EvidenceApp W E}.

Lemma guards_double_sign ctx e : guards c (Evidence.HandleDoubleSign ctx e : M (StakingState W) _) (λ _, True).
Proof. unfold Evidence.HandleDoubleSign, Slashing.keeper_Jail, Slashing.JailUntil, Slashing.Tombstone. walk. Qed.
Lemma guards_evidence ctx l : guards c (Evidence.BeginBlocker ctx l : M (StakingState W) _) (λ _, True).
Proof. apply guards_mapM_any. intros x. destruct (Evidence.aType x); [apply guards_double_sign|walk]. Qed.
End evidence.
End slashing.

(** ** The distribution module *)

Section distribution.
Context `{DO : Dec.Ops} `{CO : Coins.Ops} `{BO : Bank.Ops} `{EV : Env} `{DE : Distribution.DistrEnv} {W : Type}
  `{DA : !Distribution.DistrApp W} (c : ConsAddress).

Lemma guards_ds f : guards c (Distribution.modify_ds f : M (StakingState W) _) (λ _, True).
Proof. unfold Distribution.modify_ds. walk. Qed.
Lemma guards_on_bank {A} (m : M Bank.state A) : guards c (Distribution.on_bank m : M (StakingState W) _) (λ _, True).
Proof. unfold Distribution.on_bank. walk. Qed.
#[local] Hint Resolve guards_ds guards_on_bank : guards.
Lemma guards_pool : guards c (Distribution.GetFeePool : M (StakingState W) _) (λ _, True).
Proof. unfold Distribution.GetFeePool. walk. Qed.
Lemma guards_set_pool p : guards c (Distribution.SetFeePool p : M (StakingState W) _) (λ _, True).
Proof. unfold Distribution.SetFeePool. walk. Qed.
Lemma guards_set_commission v x : guards c (Distribution.SetValidatorAccumulatedCommission v x : M (StakingState W) _) (λ _, True).
Proof. unfold Distribution.SetValidatorAccumulatedCommission. walk. Qed.
#[local] Hint Resolve guards_pool guards_set_pool guards_set_commission : guards.
Lemma guards_allocate_one V x : guards c (Distribution.AllocateTokensToValidator V x : M (StakingState W) _) (λ _, True).
Proof. unfold Distribution.AllocateTokensToValidator. walk. Qed.
#[local] Hint Resolve guards_allocate_one : guards.

Lemma guards_equal l x y : guards c (Distribution.equal_loop l x y : M (StakingState W) _) (λ _, True).
Proof. revert y. induction l as [|V l IH]; intros y; cbn [Distribution.equal_loop]; walk. Qed.
Lemma guards_shares l t x y : guards c (Distribution.shares_loop l t x y : M (StakingState W) _) (λ _, True).
Proof. revert y. induction l as [|V l IH]; intros y; cbn [Distribution.shares_loop]; walk. Qed.
#[local] Hint Resolve guards_equal guards_shares : guards.

Lemma guards_fees ctx p l : guards c (Distribution.BeginBlocker ctx p l : M (StakingState W) _) (λ _, True).
Proof.
  unfold Distribution.BeginBlocker, Distribution.GetPreviousProposerConsAddr, Distribution.AllocateTokens, Distribution.allocateByEqual,
    Distribution.allocateByShares, Distribution.SetPreviousProposerConsAddr. walk.
Qed.
Lemma guards_distr_created v : guards c (Distribution.AfterValidatorCreated v : M (StakingState W) _) (λ _, True).
Proof. unfold Distribution.AfterValidatorCreated, Distribution.initializeValidator. walk. Qed.
Lemma guards_distr_removed v : guards c (Distribution.AfterValidatorRemoved v : M (StakingState W) _) (λ _, True).
Proof. unfold Distribution.AfterValidatorRemoved, Distribution.deleteValidatorAccumulatedCommission. walk. Qed.
Lemma guards_distr_message msg : guards c (Distribution.NewHandler msg : M (StakingState W) _) (λ _, True).
Proof.
  destruct msg; cbn [Distribution.NewHandler]; unfold Distribution.handleMsgModifyWithdrawAddress, Distribution.SetWithdrawAddr,
    Distribution.SetDelegatorWithdrawAddr, Distribution.handleMsgWithdrawValidatorCommission, Distribution.WithdrawValidatorCommission; walk.
Qed.
Lemma guards_spend p : guards c (Distribution.HandleCommunityPoolSpendProposal p : M (StakingState W) _) (λ _, True).
Proof. unfold Distribution.HandleCommunityPoolSpendProposal, Distribution.distributeFromFeePool. walk. Qed.
End distribution.
End JailLock.
