(* ===== verification/PosApp.v ===== *)
(** * The modules of the stakes together

    The world around the staking module as app.go builds it: the bank and the stores of the
    distribution, the slashing and the evidence module.  The hooks of the staking module
    go to the distribution and then to the slashing module.  [pos_step] is a step of any of
    these modules; the theorems hold over all runs of such steps: all books are in order,
    the module accounts cover what they owe, and what is tombstoned stays in jail. *)

From S2P Require Import Prelude Runs SdkDec SdkCoins GoStd CoinFacts Common StakingErrors DistrErrors Token Staking StakingSpec.
From S2P Require Import StakingShares StakingMoney StakingMsgs StakingHandlers StakingBlock StakingEnd StakingImpl StakingTheorems.
From S2P Require Import Slashing Evidence Distribution DistrSpec SlashSpec JailLock.

#[local] Open Scope Z_scope.

Module PosApp.
Import Staking StakingSpec.

(** ** The world *)

Section world.
Context `{BO : Bank.Ops} {E : Type}.

Record World := MkWorld {
  wBank : Bank.state;
  wDistr : Distribution.DistrStore;
  wSlash : Slashing.SlashingStore;
  wEvid : Evidence.EvidenceStore E;
}.

#[export] Instance world_slash : Slashing.SlashApp World := {|
  Slashing.slash := wSlash;
  Slashing.set_slash t w := MkWorld (wBank w) (wDistr w) t (wEvid w);
|}.

#[export] Instance world_evid : Evidence.EvidenceApp World E := {|
  Evidence.evid := wEvid;
  Evidence.set_evid t w := MkWorld (wBank w) (wDistr w) (wSlash w) t;
|}.

#[export] Instance world_distr : Distribution.DistrApp World := {|
  Distribution.dbank := wBank;
  Distribution.set_dbank b w := MkWorld b (wDistr w) (wSlash w) (wEvid w);
  Distribution.distr := wDistr;
  Distribution.set_distr t w := MkWorld (wBank w) t (wSlash w) (wEvid w);
|}.
End world.
Arguments World {BO} E.

Section app.
Context `{DO : Dec.Ops} `{CO : Coins.Ops} `{BO : Bank.Ops} `{SO : !SupplyOps} `{EV : Env} `{DE : Distribution.DistrEnv} {E : Type}.

(** The hooks of the staking module: NewMultiStakingHooks of the distribution and the
    slashing module. *)
#[export] Instance world_app : App (World E) := {|
  bank := wBank;
  set_bank b w := MkWorld b (wDistr w) (wSlash w) (wEvid w);
  hookValidatorCreated ctx v := Distribution.AfterValidatorCreated v;; Slashing.AfterValidatorCreated v;
  hookValidatorRemoved ctx c v := Distribution.AfterValidatorRemoved v;; Slashing.AfterValidatorRemoved c;
  hookValidatorBonded ctx c v := Slashing.AfterValidatorBonded ctx c;
  hookValidatorBeginUnbonding ctx c v := mret tt;
  hookValidatorDestroyed ctx c v := Slashing.AfterValidatorDestroyed v;
|}.
End app.

(** Different modules have different accounts. *)
Class PosAccounts `{BO : Bank.Ops} : Prop := {
  pos_accounts : bondedAcc ≠ notBondedAcc ∧ DistrSpec.distrAcc ≠ bondedAcc ∧ DistrSpec.distrAcc ≠ notBondedAcc;
}.

(** ** The invariant of the world *)

Section inv.
Context `{DO : Dec.Ops} `{DL : !Dec.Laws} `{CO : Coins.Ops} `{CL : !Coins.Laws} `{BO : Bank.Ops} `{BL : !Bank.Laws}
  `{SO : !SupplyOps} `{SL : !SupplyLaws} `{EV : Env} `{EL : !EnvLaws} `{DE : Distribution.DistrEnv} `{DEL : !DistrSpec.DistrEnvLaws}
  `{SE : Slashing.SlashEnv} `{SEL : !SlashSpec.SlashEnvLaws} `{PA : !PosAccounts} {E : Type}.
Implicit Types (w : World E) (s : StakingState (World E)) (v : ValAddress) (c : ConsAddress) (V : Validator) (T : gset ConsAddress) (L : string → Z).

Definition distr_rest w : Slashing.SlashingStore * Evidence.EvidenceStore E := (wSlash w, wEvid w).
Definition slash_rest w : Bank.state * Distribution.DistrStore * Evidence.EvidenceStore E := (wBank w, wDistr w, wEvid w).

#[export] Instance distr_laws : DistrSpec.DistrAppLaws (World E) _ distr_rest.
Proof. by split. Qed.
#[export] Instance slash_laws : SlashSpec.SlashAppLaws (World E) _ slash_rest.
Proof. split; try done. by intros []. Qed.

(** The distribution module depends on its own account. *)
Definition protected (a : AccAddress) : Prop := a = DistrSpec.distrAcc.

(** Both modules are in order; the consensus addresses [T] are tombstoned, and the account
    of the distribution module holds at least [L] more than it owes. *)
Record world_inv T L w : Prop := {
  wi_distr : DistrSpec.distr_inv w;
  wi_slash : SlashSpec.slash_inv (wSlash w);
  wi_tombs c : c ∈ T → ∃ i, Slashing.signingInfos (wSlash w) !! c = Some i ∧ Slashing.Tombstoned i = true;
  wi_surplus d : L d ≤ DistrSpec.dsurplus w d;
}.

(** ** Hooks *)

(** The module pays from its own account, to accounts that are none of the pools. *)
Lemma bank_calm b b' : DistrSpec.bank_step b b' →
  (∀ a d, a = bondedAcc ∨ a = notBondedAcc → Bank.balance b' a d = Bank.balance b a d) ∧
  (∀ a d, ¬ protected a → Bank.balance b a d ≤ Bank.balance b' a d) ∧
  ∀ a, HasAccount b a = true → HasAccount b' a = true.
Proof.
  intros [->|(x & co & (Hx1 & Hx2 & Hx3) & E')]; [done|]. destruct (Bank.SendCoins_ok _ _ _ _ _ E') as [Hm Hle].
  destruct pos_accounts as (_ & P1 & P2). split_and!.
  - intros a d Ha. rewrite (proj1 Hm). fold bondedAcc in Hx2. fold notBondedAcc in Hx3.
    rewrite decide_False, decide_False by (destruct Ha as [->| ->]; congruence). lia.
  - intros a d Ha. rewrite (proj1 Hm). rewrite decide_False by done. specialize (Hle d). case_decide; lia.
  - intros a. by eapply send_account.
Qed.

Abbreviation calm_world T L := (calm (world_inv T L) protected) (only parsing).

Lemma pos_calm_trans (I : World E → Prop) (P : AccAddress → Prop) w1 w2 w3 : calm I P w1 w2 → calm I P w2 w3 → calm I P w1 w3.
Proof.
  intros [A1 A2 A3 A4] [B1 B2 B3 B4]. split; [done|..].
  - intros a d Ha. by rewrite B2, A2.
  - intros a d Ha. by etrans; [apply A3|apply B3].
  - auto.
Qed.

(** A step of the distribution module. *)
Lemma distr_calm T L s s' : world_inv T L (world s) → DistrSpec.distr_step distr_rest s s' →
  (∀ d, DistrSpec.dsurplus (world s) d ≤ DistrSpec.dsurplus (world s') d) →
  ∃ w', s' = set_world w' s ∧ calm_world T L (world s) w'.
Proof.
  intros [W1 W2 W3 W4] ([[w' ->] ER] & HD & HB) HS. exists w'. split; [done|]. cbn in *. unfold distr_rest in ER. injection ER as ES EE.
  destruct (bank_calm _ _ HB) as (B1 & B2 & B3). split; [|done..]. split; [done|by rewrite ES|by rewrite ES|].
  intros d. by etrans; [apply W4|apply HS].
Qed.

(** A step of the slashing module. *)
Lemma slash_world T L w t : world_inv T L w → SlashSpec.slash_inv t → SlashSpec.slash_kept (wSlash w) t →
  world_inv T L (Slashing.set_slash t w).
Proof.
  intros [W1 W2 W3 W4] Ht Hk. split; [by destruct W1|done| |done]. intros c Hc. destruct (W3 c Hc) as (i & Hi & Et).
  destruct (Hk c i Hi) as (j & Hj & Ej). exists j. split; [done|by apply Ej].
Qed.

Lemma slash_calm T L s s' : world_inv T L (world s) → SlashSpec.slash_step s s' →
  ∃ w', s' = set_world w' s ∧ calm_world T L (world s) w'.
Proof.
  intros HW (t & -> & Ht & Hk). exists (Slashing.set_slash t (world s)). split; [done|]. split; [by apply slash_world|done..].
Qed.

Lemma slash_after T L (m : M (StakingState (World E)) unit) s w1 : calm_world T L (world s) w1 →
  (SlashSpec.slash_inv (Slashing.sl (set_world w1 s)) → runs m (set_world w1 s) (λ _, SlashSpec.slash_step (set_world w1 s))) →
  runs m (set_world w1 s) (λ _ s', ∃ w', s' = set_world w' s ∧ calm_world T L (world s) w').
Proof.
  intros HC Hm. pose proof (calm_inv _ _ _ _ HC) as HW. eapply runs_mono; [apply Hm, HW|]. intros [] s2 H2. cbn beta.
  destruct (slash_calm T L (set_world w1 s) s2 HW H2) as (w2 & -> & HC2). exists w2. split; [done|]. by eapply pos_calm_trans.
Qed.

#[export] Instance world_app_laws T L : AppLaws (world_inv T L) protected.
Proof.
  destruct pos_accounts as (P1 & P2 & P3). split; [done|unfold protected; by split; congruence|done|..].
  - intros b w [W1 W2 W3 W4] Hb. assert (∀ d, DistrSpec.dsurplus (set_bank b w) d = DistrSpec.dsurplus w d) as Es
      by (intros d; unfold DistrSpec.dsurplus; cbn; by rewrite Hb).
    split; [|done|done|by intros d; rewrite Es]. destruct W1 as [D1 D2 D3 D4 D5 D6]. split; try done. intros d. by rewrite Es.
  - intros ctx v V s HW HV. cbn [hookValidatorCreated world_app]. apply runs_bind.
    eapply runs_mono; [apply (DistrSpec.created_runs distr_rest v V); [apply HW|done]|]. intros [] s1 [H1 H2]. cbn beta.
    destruct (distr_calm T L s s1 HW H1 H2) as (w1 & -> & HC). apply slash_after; [done|]. intros HI.
    by apply (SlashSpec.slash_created_runs slash_rest v V).
  - intros ctx v V s HW HV EV'. cbn [hookValidatorRemoved world_app]. apply runs_bind.
    eapply runs_mono; [by apply (DistrSpec.removed_runs distr_rest), HW|]. intros [] s1 [H1 H2 _ _ _]. cbn beta.
    destruct (distr_calm T L s s1 HW H1) as (w1 & -> & HC); [by intros d; rewrite H2|]. apply slash_after; [done|].
    by apply (SlashSpec.slash_removed_runs slash_rest).
  - intros ctx v V s HW HV. cbn [hookValidatorBonded world_app]. eapply runs_mono; [by apply (SlashSpec.slash_bonded_runs slash_rest), HW|].
    intros [] s1 H1. by apply slash_calm.
  - intros ctx v V s HW HV. apply runs_ret. exists (world s). by split; [destruct s|].
  - intros ctx v V s HW HV. cbn [hookValidatorDestroyed world_app]. eapply runs_mono; [by apply (SlashSpec.slash_destroyed_runs slash_rest), HW|].
    intros [] s1 H1. by apply slash_calm.
Qed.

#[export] Instance world_home T L : SlashSpec.SlashHome (world_inv T L).
Proof. split; [by intros w []|]. intros w t HW Ht Hk. split; [by apply slash_world|done..]. Qed.

(** ** Steps of the modules *)

Abbreviation pos_inv T L := (staking_inv (world_inv T L) protected) (only parsing).

(** Every operation of the four modules that the application calls, between them what
    other modules do: they leave the pools and the two stores alone and take nothing from
    the account of the distribution module. *)
Record others w w' : Prop := {
  ot_distr : wDistr w' = wDistr w;
  ot_slash : wSlash w' = wSlash w;
  ot_pools a d : a = bondedAcc ∨ a = notBondedAcc → Bank.balance (wBank w') a d = Bank.balance (wBank w) a d;
  ot_own d : Bank.balance (wBank w) DistrSpec.distrAcc d ≤ Bank.balance (wBank w') DistrSpec.distrAcc d;
  ot_accounts a : HasAccount (wBank w) a = true → HasAccount (wBank w') a = true;
}.

Context `{ET : Evidence.EvidenceType E}.

Inductive pos_step s : StakingState (World E) → Prop :=
| pos_staking ctx msg s' : StakingTheorems.admitted protected ctx msg → NewHandler ctx msg s = (Ok tt, s') → pos_step s s'
| pos_end ctx ups s' : EndBlocker ctx s = (Ok ups, s') → pos_step s s'
| pos_votes ctx votes s' : Forall (λ x, SlashSpec.voter_ok s (Slashing.VoteAddress x)) votes →
    Slashing.BeginBlocker ctx votes s = (Ok tt, s') → pos_step s s'
| pos_unjail ctx msg s' : SlashSpec.waits ctx (Slashing.ujValidatorAddr msg) s →
    Slashing.handleMsgUnjail ctx msg s = (Ok tt, s') → pos_step s s'
| pos_evidence ctx l s' : SlashSpec.signed_up s → Evidence.BeginBlocker ctx l s = (Ok tt, s') → pos_step s s'
| pos_distr_begin ctx proposer votes s' : Distribution.BeginBlocker ctx proposer votes s = (Ok tt, s') → pos_step s s'
| pos_distr msg s' : Distribution.NewHandler msg s = (Ok tt, s') → pos_step s s'
| pos_spend p s' : Coins.IsValid (Distribution.csAmount p) = true →
    Distribution.HandleCommunityPoolSpendProposal p s = (Ok tt, s') → pos_step s s'
| pos_others w' : others (world s) w' → pos_step s (set_world w' s).

(** A step of the distribution module, seen from the staking module. *)
Lemma distr_elsewhere T L s w' : pos_inv T L s → world_inv T L w' →
  (∀ a d, a = bondedAcc ∨ a = notBondedAcc → Bank.balance (wBank w') a d = Bank.balance (wBank (world s)) a d) →
  (∀ a, HasAccount (wBank (world s)) a = true → HasAccount (wBank w') a = true) →
  pos_inv T L (set_world w' s) ∧ surplus (set_world w' s) = surplus s.
Proof. intros HI HW HP HA. by apply StakingTheorems.elsewhere_kept. Qed.

Lemma world_of T L s : pos_inv T L s → world_inv T L (world s).
Proof. intros HI. apply (vi_world _ s (inv_val _ _ _ HI)). Qed.

Lemma distr_step_kept T L s s' : pos_inv T L s → DistrSpec.distr_step distr_rest s s' →
  (∀ d, DistrSpec.dsurplus (world s) d ≤ DistrSpec.dsurplus (world s') d) → pos_inv T L s' ∧ surplus s' = surplus s.
Proof.
  intros HI H1 H2. destruct (distr_calm T L s s' (world_of T L s HI) H1 H2) as (w' & -> & [C1 C2 _ C4]). by apply distr_elsewhere.
Qed.

(** What the distribution module relies on. *)
Lemma staking_serves_distr T L s : pos_inv T L s → DistrSpec.validators_ok s.
Proof.
  intros HI v V HV. destruct (vi_op _ s (inv_val _ _ _ HI) v V HV) as [Ho _]. split; [done|].
  destruct (mo_users _ s (inv_money _ _ _ HI) v) as [(U1 & U2 & U3 & _) _]; [right; left; by eexists|].
  destruct (sh_val s (inv_share _ _ _ HI) v V HV) as (Es & Hm & HJ). pose proof (StakingTheorems.voted_nonneg s v (inv_share _ _ _ HI)) as Hv.
  pose proof unit_pos as Hu. unfold own_share in Es. split; [by split_and!|]. split; [case_decide; lia|].
  intros EJ. case_decide as E0; [|lia]. by rewrite HJ in EJ.
Qed.

Lemma others_kept T L s w' : pos_inv T L s → others (world s) w' → pos_inv T L (set_world w' s) ∧ surplus (set_world w' s) = surplus s.
Proof.
  intros HI [O1 O2 O3 O4 O5]. pose proof (world_of T L s HI) as [W1 W2 W3 W4].
  assert (∀ d, DistrSpec.dsurplus (world s) d ≤ DistrSpec.dsurplus w' d) as HS.
  { intros d. unfold DistrSpec.dsurplus, DistrSpec.owed, DistrSpec.pool_amt. cbn. rewrite O1. specialize (O4 d). lia. }
  apply distr_elsewhere; try done. split; [|by rewrite O2|by rewrite O2|intros d; by etrans; [apply W4|apply HS]].
  destruct W1 as [D1 D2 D3 D4 D5 D6]. split; cbn in *; rewrite ?O1; try done. intros d. by etrans; [apply D3|apply HS].
Qed.

Lemma frame_world s s' : DistrSpec.frame distr_rest s s' → ∃ w', s' = set_world w' s ∧ wSlash w' = wSlash (world s).
Proof. intros [[w' ->] ER]. unfold distr_rest in ER. injection ER as ES _. by exists w'. Qed.

(** The fees reach the distribution module. *)
Lemma collect_calm b b' : DistrSpec.collect_step b b' →
  (∀ a d, a = bondedAcc ∨ a = notBondedAcc → Bank.balance b' a d = Bank.balance b a d) ∧
  ∀ a, HasAccount b a = true → HasAccount b' a = true.
Proof.
  intros [->|(co & E')]; [done|]. destruct (Bank.SendCoins_ok _ _ _ _ _ E') as [Hm _]. destruct pos_accounts as (_ & P1 & P2).
  destruct DistrSpec.accounts_differ as (_ & _ & F1 & F2). split; [|intros a; by eapply send_account].
  intros a d Ha. rewrite (proj1 Hm). fold bondedAcc in F1. fold notBondedAcc in F2.
  rewrite decide_False, decide_False by (destruct Ha as [->| ->]; congruence). lia.
Qed.

Lemma begun_kept T L ctx votes s s' : pos_inv T L s → DistrSpec.begun distr_rest ctx votes s s' → pos_inv T L s' ∧ surplus s' = surplus s.
Proof.
  intros HI [B1 B2 B3 _ _ B6]. destruct (frame_world s s' B1) as (w' & -> & ES). destruct (collect_calm _ _ B6) as [C1 C2]. cbn in *.
  destruct (world_of T L s HI) as [W1 W2 W3 W4]. apply distr_elsewhere; [done| |exact C1|exact C2].
  split; [done|by rewrite ES|by rewrite ES|intros d; by rewrite B3].
Qed.

Lemma distr_message_safe T L msg s : pos_inv T L s → safe (Distribution.NewHandler msg) s (λ _ s', pos_inv T L s' ∧ surplus s' = surplus s).
Proof.
  intros HI. pose proof (wi_distr _ _ _ (world_of T L s HI)) as HD. destruct msg; cbn [Distribution.NewHandler]; [| |apply safe_throw].
  - unfold Distribution.handleMsgModifyWithdrawAddress. eapply safe_mono; [by apply (DistrSpec.set_withdraw_addr_safe distr_rest)|].
    intros [] s' (H1 & H2 & H3 & H4 & _). eapply distr_step_kept; [done| |intros d; by rewrite H3]. split; [done|]. split; [done|]. by left.
  - unfold Distribution.handleMsgWithdrawValidatorCommission. apply safe_bind. set (v := Distribution.wcValidatorAddress m).
    destruct (decide (DistrSpec.comm_of s v = [])) as [E0|E0].
    + unfold Distribution.WithdrawValidatorCommission. apply safe_bind, safe_gets, safe_bind, safe_throw_if. fold (DistrSpec.comm_of s v).
      rewrite E0. intros Hz. assert (Coins.IsZero [] = true) as Hz' by (by apply Coins.IsZero_spec). congruence.
    + apply safe_runs. eapply runs_mono; [by apply (DistrSpec.withdraw_runs distr_rest)|]. intros co s' [H1 H2 H3 H4 _ _ _ _]. cbn beta.
      apply safe_ret. eapply distr_step_kept; [done| |intros d; by rewrite H3]. by split.
Qed.

Lemma pos_step_inv T L s s' : pos_inv T L s → pos_step s s' → pos_inv T L s' ∧ surplus s ≤ surplus s'.
Proof.
  intros HI H. pose proof (wi_distr _ _ _ (world_of T L s HI)) as HD.
  assert (∀ s1, pos_inv T L s1 ∧ surplus s1 = surplus s → pos_inv T L s1 ∧ surplus s ≤ surplus s1) as Hle by (intros s1 [H1 ->]; done).
  destruct H as [ctx msg s' HA E0|ctx ups s' E0|ctx votes s' HF E0|ctx msg s' HW E0|ctx l s' HS E0|ctx pr votes s' E0|msg s' E0|p s' HV E0|w' HO].
  - apply (StakingTheorems.step_inv (world_inv T L) protected s s' HI). by eapply StakingTheorems.step_message.
  - apply (StakingTheorems.step_inv (world_inv T L) protected s s' HI). by eapply StakingTheorems.step_end.
  - apply Hle. by destruct (runs_eq _ _ _ _ _ E0 (SlashSpec.votes_run (world_inv T L) protected slash_rest ctx votes s HI HF)) as (_ & H1 & H2).
  - apply Hle. by destruct (safe_ok _ _ _ _ _ (SlashSpec.unjail_message_safe (world_inv T L) protected ctx msg s HI HW) E0) as (V & i & _ & _ & H1 & H2).
  - apply Hle. by destruct (runs_eq _ _ _ _ _ E0 (SlashSpec.evidence_block_runs (world_inv T L) protected slash_rest ctx l s HI HS)) as (H1 & H2 & _).
  - apply Hle. apply (begun_kept T L ctx votes); [done|]. apply (runs_eq _ _ tt _ (λ _, DistrSpec.begun distr_rest ctx votes s) E0).
    apply (DistrSpec.begin_block_runs distr_rest); [done|by eapply staking_serves_distr|]. intros Hh.
    destruct (DistrSpec.can_allocate_or votes s) as [?|HC]; [done|]. pose proof (DistrSpec.begin_block_panics distr_rest ctx pr votes s HD Hh HC) as Hp. by rewrite E0 in Hp.
  - apply Hle. by apply (safe_ok _ _ _ _ _ (distr_message_safe T L msg s HI) E0).
  - apply Hle. destruct (safe_ok _ _ _ _ _ (DistrSpec.spend_safe distr_rest p s HD HV) E0) as (H1 & H2 & _).
    eapply distr_step_kept; [done|done|]. intros d. by rewrite H2.
  - apply Hle. by apply others_kept.
Qed.

Lemma pos_steps_inv T L s s' : rtc pos_step s s' → pos_inv T L s → pos_inv T L s' ∧ surplus s ≤ surplus s'.
Proof.
  induction 1 as [s|s s1 s2 H1 _ IH]; intros HI; [done|]. destruct (pos_step_inv T L s s1 HI H1) as [HI1 E1].
  destruct (IH HI1) as [HI2 E2]. split; [done|]. lia.
Qed.

(** ** The theorems *)

(** All modules are in order, and every module account covers what the module owes. *)
Definition pos_ok s : Prop := pos_inv ∅ (λ _, 0) s.

Lemma pos_inv_change T L T' L' s : pos_inv T L s → world_inv T' L' (world s) → pos_inv T' L' s.
Proof. intros [[A1 A2 A3 A4 A5 A6 A7 A8 A9] B C D F G] HW. by split. Qed.

(** The addresses that are tombstoned now, and the surplus of now. *)
Lemma pos_sharp s c i : pos_ok s → Slashing.signingInfos (Slashing.sl s) !! c = Some i → Slashing.Tombstoned i = true →
  pos_inv {[ c ]} (DistrSpec.dsurplus (world s)) s.
Proof.
  intros HI Hi Ht. destruct (world_of _ _ s HI) as [W1 W2 W3 W4]. apply (pos_inv_change ∅ (λ _, 0)); [done|]. split; try done.
  intros b ->%elem_of_singleton. by exists i.
Qed.

Lemma pos_ok_weaken T L s : pos_inv T L s → pos_ok s.
Proof.
  intros HI. destruct (world_of _ _ s HI) as [W1 W2 W3 W4]. apply (pos_inv_change T L); [done|]. split; try done. apply W1.
Qed.

(** C3 Whatever the four modules and the others do, the staking, the distribution and the
    slashing module stay in order: the tokens of delegators and validators lie in the
    pools, commissions and the community pool in the account of the distribution module,
    the counters of missed blocks count the bits of the window.  No pool loses tokens
    without a record of it. *)
Theorem pos_invariant s s' : rtc pos_step s s' → pos_ok s →
  pos_ok s' ∧ surplus s ≤ surplus s' ∧ ∀ d, DistrSpec.dsurplus (world s) d ≤ DistrSpec.dsurplus (world s') d.
Proof.
  intros HS HI. assert (pos_inv ∅ (DistrSpec.dsurplus (world s)) s) as HI'.
  { destruct (world_of _ _ s HI) as [W1 W2 W3 W4]. apply (pos_inv_change ∅ (λ _, 0)); [done|]. by split. }
  destruct (pos_steps_inv _ _ s s' HS HI') as [H1 H2]. split; [by eapply pos_ok_weaken|]. split; [done|]. apply (world_of _ _ s' H1).
Qed.

(** C32 The distribution of a block's fees succeeds when there are no fees, no votes, or a
    voter that is not in jail.  The collector is emptied, the commissions grow by the
    payments of [allocation] and the community pool by the rest; no other account is
    touched, and what the module holds beyond its debts stays the same. *)
Theorem fees_allocated votes s : pos_ok s → DistrSpec.can_allocate votes s →
  ∃ s', Distribution.AllocateTokens (DistrSpec.total_power votes) votes s = (Ok tt, s') ∧ pos_ok s' ∧
    (∀ d, Bank.balance (wBank (world s')) DistrSpec.feeAcc d = 0) ∧
    (∀ v d, amt d (DistrSpec.comm_of s' v)
      = amt d (DistrSpec.comm_of s v) + DistrSpec.gain (DistrSpec.allocation (DistrSpec.total_power votes) votes s) v d) ∧
    (∀ d, DistrSpec.pool_amt (world s') d + DistrSpec.paid (DistrSpec.allocation (DistrSpec.total_power votes) votes s) d
      = DistrSpec.pool_amt (world s) d + Bank.balance (wBank (world s)) DistrSpec.feeAcc d) ∧
    (∀ a d, a ≠ DistrSpec.feeAcc → a ≠ DistrSpec.distrAcc → Bank.balance (wBank (world s')) a d = Bank.balance (wBank (world s)) a d) ∧
    (∀ d, DistrSpec.dsurplus (world s') d = DistrSpec.dsurplus (world s) d) ∧ surplus s' = surplus s.
Proof.
  intros HI HC. pose proof (world_of _ _ s HI) as HW.
  destruct (DistrSpec.allocate_runs distr_rest (DistrSpec.total_power votes) votes s (wi_distr _ _ _ HW) (staking_serves_distr _ _ s HI) HC)
    as ([] & s' & E0 & [A1 A2 A3 A4 A5 A6 A7 A8]).
  destruct (frame_world s s' A1) as (w' & -> & ES). destruct (collect_calm _ _ A8) as [C1 C2].
  destruct (distr_elsewhere ∅ (λ _, 0) s w' HI) as [K1 K2]; [|exact C1|exact C2|].
  { destruct HW as [W1 W2 W3 W4]. cbn in *. split; [done|by rewrite ES|by rewrite ES|intros d; by rewrite A3]. }
  exists (set_world w' s). split_and!; try done. intros d. rewrite A7.
  change (Bank.balance (wBank (world s)) DistrSpec.feeAcc d) with (amt d (DistrSpec.fees_of s)). lia.
Qed.

(** C39 When fees were paid and none of the validators that voted for the last block is
    still out of jail, the beginning of the block panics in the distribution module, at
    every node: the chain halts. *)
Theorem no_voter_halts ctx proposer votes s : pos_ok s → Distribution.StartBlockHeight + 1 < BlockHeight ctx →
  DistrSpec.fees_of s ≠ [] → DistrSpec.total_power votes ≠ 0 → Distribution.unjailed_voters votes s = [] →
  fst (Distribution.BeginBlocker ctx proposer votes s) = Panic.
Proof.
  intros HI Hh Hf Hp Hv. apply (DistrSpec.begin_block_panics distr_rest); [apply (world_of _ _ s HI)|done|].
  intros [?|[?|?]]; congruence.
Qed.

(** The state with another bank and another commission of one validator. *)
Definition settled v (rest : SysCoins) (b : Bank.state) s : StakingState (World E) :=
  let t := wDistr (world s) in
  set_world (MkWorld b (Distribution.set_commissions (<[v := rest]> (Distribution.commissions t)) t)
    (wSlash (world s)) (wEvid (world s))) s.

(** C36 Whoever has a commission can withdraw it: the whole coins of it are there and go to
    the account that it named, and the fractions are kept as its commission.  Nothing else
    changes, in no store of the four modules and in no other account. *)
Theorem commission_withdrawn v s : pos_ok s → DistrSpec.comm_of s v ≠ [] →
  ∃ co rest b, Distribution.WithdrawValidatorCommission v s = (Ok co, settled v rest b s) ∧ pos_ok (settled v rest b s) ∧
    Bank.moved (wBank (world s)) b DistrSpec.distrAcc (Distribution.GetDelegatorWithdrawAddr v s) co ∧
    ∀ d, amt d co = amt d (DistrSpec.comm_of s v) / Dec.unit * Dec.unit ∧
         amt d rest = amt d (DistrSpec.comm_of s v) mod Dec.unit.
Proof.
  intros HI Hc. pose proof (wi_distr _ _ _ (world_of _ _ s HI)) as HD.
  destruct (DistrSpec.withdraw_runs distr_rest v s HD Hc) as (co & s' & E0 & [H1 H2 H3 H4 H5 H6 H7 [r H8]]).
  assert (pos_ok s') as HI'.
  { eapply (distr_step_kept ∅ (λ _, 0) s s'); [done|by split|intros d; by rewrite H3]. }
  assert (s' = settled v r (wBank (world s')) s) as Es.
  { destruct H1 as [[w' ->] ER]. injection ER as ES EE. cbn in *. unfold settled. f_equal.
    unfold Distribution.ds in H8. cbn in H8. destruct w'. cbn in *. congruence. }
  exists co, r, (wBank (world s')). rewrite <-Es. split; [done|]. split; [done|]. split; [done|].
  intros d. split; [done|]. rewrite <-H7. unfold DistrSpec.comm_of, Distribution.GetValidatorAccumulatedCommission. rewrite H8. cbn.
  by rewrite lookup_insert_eq.
Qed.

(** The votes of a block succeed for validators with a key and a signing info, and keep
    all modules in order.  (Votes and evidence jail validators without moving a token.) *)
Theorem votes_handled ctx votes s : pos_ok s → Forall (λ x, SlashSpec.voter_ok s (Slashing.VoteAddress x)) votes →
  ∃ s', Slashing.BeginBlocker ctx votes s = (Ok tt, s') ∧ pos_ok s' ∧ surplus s' = surplus s ∧
    ∀ c i, Slashing.signingInfos (Slashing.sl s') !! c = Some i →
      Slashing.MissedBlocksCounter i = int64 (SlashSpec.missed_count (Slashing.missedBits (Slashing.sl s')) c).
Proof.
  intros HI HF. destruct (SlashSpec.votes_run (world_inv ∅ (λ _, 0)) protected slash_rest ctx votes s HI HF) as ([] & s' & E0 & _ & H1 & H2).
  exists s'. split_and!; try done. apply (SlashSpec.si_counter _ (wi_slash _ _ _ (world_of _ _ s' H1))).
Qed.

(** What is left of a validator's window: no bit, no miss counted, and a time to wait. *)
Record window_cleared ctx c s s' : Prop := {
  wc_bits : SlashSpec.missed_count (Slashing.missedBits (Slashing.sl s')) c = 0;
  wc_info : ∃ i, Slashing.signingInfos (Slashing.sl s') !! c = Some i ∧ Slashing.MissedBlocksCounter i = 0 ∧ Slashing.IndexOffset i = 0 ∧
    Slashing.JailedUntil i = BlockTime ctx + Slashing.DowntimeJailDuration (Slashing.sparams (Slashing.sl s));
}.

(** C33 A vote counts the missed blocks of the window.  A validator that is out of jail is
    put there, abandoned and has its window cleared when it has been there for a whole
    window and missed more blocks of it than it may; otherwise no validator changes, and
    the counter is the number of missed blocks. *)
Theorem vote_counts ctx c signed i s : pos_ok s → SlashSpec.voter_ok s c → Slashing.signingInfos (Slashing.sl s) !! c = Some i →
  SlashSpec.heights_fit (Slashing.sl s) c signed i →
  ∃ s', Slashing.HandleValidatorSignature ctx c signed s = (Ok tt, s') ∧ pos_ok s' ∧
    match SlashSpec.accused ctx c signed i s with
    | Some V => validators s' = <[OperatorAddress V := set_Jailed true V]> (validators s) ∧
        abandoned s' = abandoned s ++ [OperatorAddress V] ∧ window_cleared ctx c s s'
    | None => validators s' = validators s ∧ abandoned s' = abandoned s ∧
        SlashSpec.missed_count (Slashing.missedBits (Slashing.sl s')) c = SlashSpec.missed_after (Slashing.sl s) c signed i
    end.
Proof.
  intros HI Hv Hi HF. pose proof (SlashSpec.vote_runs (world_inv ∅ (λ _, 0)) protected slash_rest ctx c signed i s HI Hv Hi) as ([] & s' & E0 & ->).
  exists (SlashSpec.vote_state ctx c signed i s). split; [done|].
  split; [by apply (SlashSpec.vote_kept (world_inv ∅ (λ _, 0)) protected slash_rest ctx c signed i s HI Hv Hi)|].
  rewrite (SlashSpec.vote_state_accused (world_inv ∅ (λ _, 0)) protected ctx c signed i s HI Hi HF).
  destruct (SlashSpec.accused ctx c signed i s) as [V|]; (split; [done|]; split; [done|]).
  - split; rewrite (SlashSpec.sl_with slash_rest); cbn; [rewrite SlashSpec.count_filter; by rewrite decide_True|].
    eexists. rewrite lookup_insert_eq. by split.
  - rewrite (SlashSpec.sl_with slash_rest). cbn. apply SlashSpec.vote_count.
Qed.

(** C34 Evidence of double signing that is not too old, against a validator that is not
    unbonded or tombstoned yet, puts it in jail, has it leave the set with this block and
    tombstones it; any other evidence changes nothing.  Contrary to the comment of
    HandleDoubleSign and to the specification of the module nobody is slashed: no shares,
    delegation, undelegation or balance changes. *)
Theorem double_sign_punished ctx e s : pos_ok s → SlashSpec.signed_up s →
  ∃ s', Evidence.HandleDoubleSign ctx e s = (Ok tt, s') ∧ pos_ok s' ∧ SlashSpec.signed_up s' ∧ surplus s' = surplus s ∧
    ((∃ V i, SlashSpec.caught ctx e V i s ∧ SlashSpec.condemned V i (Evidence.ConsensusAddress e) s' ∧
        SlashSpec.unslashed slash_rest V s s') ∨
     (¬ (∃ V i, SlashSpec.caught ctx e V i s) ∧ s' = s)).
Proof.
  intros HI HS. destruct (SlashSpec.double_sign_runs (world_inv ∅ (λ _, 0)) protected slash_rest ctx e s HI (HS (Evidence.ConsensusAddress e)))
    as ([] & s' & E0 & H1 & H2 & H3 & H4). exists s'. split_and!; try done. by eapply SlashSpec.signed_up_same.
Qed.

(** *** Tombstones *)

#[local] Instance hooks_guard c : JailLock.HooksGuard (W := World E) c.
Proof.
  split; intros; cbn.
  - eapply JailLock.guards_bind; [apply JailLock.guards_distr_created|]. intros _ _. apply JailLock.guards_slash_created.
  - eapply JailLock.guards_bind; [apply JailLock.guards_distr_removed|]. intros _ _. apply JailLock.guards_slash_removed.
  - apply JailLock.guards_slash_bonded.
  - by apply JailLock.guards_ret.
  - apply JailLock.guards_slash_destroyed.
Qed.

(** The step is a message that creates a validator with the consensus address. *)
Definition rejoins c s s' : Prop := ∃ ctx m, NewHandler ctx (MCreateValidator m) s = (Ok tt, s') ∧ pk_Address (cvPubKey m) = c.

(** A key that is in use cannot be used again. *)
Lemma present_no_rejoin c s s' : is_Some (GetValidatorByConsAddr c s) → ¬ rejoins c s s'.
Proof.
  intros HS (ctx & m & E0 & <-). revert E0. cbn [NewHandler]. unfold handleMsgCreateValidator.
  intros (o & s1 & [-> ->]%gets_ok & E0)%bind_ok. apply bind_ok in E0 as (u & s1 & [_ [_ ->]]%throw_if_ok & E0).
  apply bind_ok in E0 as (o & s1 & [-> ->]%gets_ok & E0). apply bind_ok in E0 as (u' & s1 & [H _]%throw_if_ok & _).
  by apply bool_decide_eq_false in H.
Qed.

Definition tombstoned c s : Prop := ∃ i, Slashing.signingInfos (Slashing.sl s) !! c = Some i ∧ Slashing.Tombstoned i = true.

Lemma guarded {A} c (m : M (StakingState (World E)) A) a s s' : JailLock.guards c m (λ _, True) → m s = (Ok a, s') →
  JailLock.all_locked c s → JailLock.all_locked c s'.
Proof. intros Hm E0 HL. destruct (Hm s HL) as [H _]. by rewrite E0 in H. Qed.

Lemma unjail_locked ctx msg c s s' : pos_ok s → tombstoned c s → SlashSpec.waits ctx (Slashing.ujValidatorAddr msg) s →
  Slashing.handleMsgUnjail ctx msg s = (Ok tt, s') → JailLock.all_locked c s → JailLock.all_locked c s'.
Proof.
  intros HI (i & Hi & Ht) HW E0 HL.
  destruct (safe_ok _ _ _ _ _ (SlashSpec.unjail_message_safe (world_inv ∅ (λ _, 0)) protected ctx msg s HI HW) E0) as (V & j & HR & -> & _).
  intros u U. cbn. rewrite lookup_upd. case_decide; [|apply HL]. intros [= <-] Hc. destruct HR as [_ _ _ R4 _ R6 _].
  change (ConsAddress_of V = c) in Hc. congruence.
Qed.

Lemma step_locked c s s' : pos_ok s → tombstoned c s → pos_step s s' → ¬ rejoins c s s' →
  JailLock.all_locked c s → JailLock.all_locked c s'.
Proof.
  intros HI HT H HN. destruct H as [ctx msg s' HA E0|ctx ups s' E0|ctx votes s' HF E0|ctx msg s' HW E0|ctx l s' HS E0|ctx pr votes s' E0|msg s' E0|p s' HV E0|w' HO].
  - eapply guarded; [|exact E0]. apply (JailLock.guards_message c). intros m -> Hc. destruct HN. by exists ctx, m.
  - eapply guarded; [|exact E0]. apply (JailLock.guards_end c).
  - eapply guarded; [|exact E0]. apply JailLock.guards_votes.
  - by eapply unjail_locked.
  - eapply guarded; [|exact E0]. apply JailLock.guards_evidence.
  - eapply guarded; [|exact E0]. apply JailLock.guards_fees.
  - eapply guarded; [|exact E0]. apply JailLock.guards_distr_message.
  - eapply guarded; [|exact E0]. apply JailLock.guards_spend.
  - done.
Qed.

Lemma pos_tombs s c : pos_ok s → tombstoned c s → ∀ s', rtc pos_step s s' → pos_ok s' ∧ tombstoned c s'.
Proof.
  intros HI (i & Hi & Ht) s' HS. destruct (pos_steps_inv _ _ s s' HS (pos_sharp s c i HI Hi Ht)) as [HI' _].
  split; [by eapply pos_ok_weaken|]. apply (wi_tombs _ _ _ (world_of _ _ s' HI') c). by apply elem_of_singleton.
Qed.

Lemma locked_later s s' c : rtc (λ x y, pos_step x y ∧ ¬ rejoins c x y) s s' → pos_ok s → tombstoned c s →
  JailLock.all_locked c s → tombstoned c s' ∧ JailLock.all_locked c s'.
Proof.
  induction 1 as [s|s s1 s2 [H1 HN] _ IH]; intros HI HT HL; [done|].
  destruct (pos_tombs s c HI HT s1) as [HI1 HT1]; [by apply rtc_once|].
  apply IH; [done|done|]. exact (step_locked c s s1 HI HT H1 HN HL).
Qed.

(** C35 A tombstone is never taken off, whatever the modules do later.  And as long as nobody
    creates a new validator with the key, a tombstoned validator that is in jail stays
    there: no message, vote, evidence or end of a block lets it out, and its messages to be
    unjailed fail without effect.  (A new validator with the key is not in jail, see
    [tombstoned_key_returns].) *)
Theorem tombstone_final s c : pos_ok s → tombstoned c s →
  (∀ s', rtc pos_step s s' → tombstoned c s') ∧
  ((∀ v V, validators s !! v = Some V → ConsAddress_of V = c → Jailed V = true) →
   ∀ s', rtc (λ x y, pos_step x y ∧ ¬ rejoins c x y) s s' →
   ∀ v V, validators s' !! v = Some V → ConsAddress_of V = c → Jailed V = true ∧
     ∀ ctx, ∃ e, Slashing.handleMsgUnjail ctx (Slashing.MkMsgUnjail v) s' = (Err e, s') ∧
       e ∈ [SlashingErr.ErrValidatorJailed; SlashingErr.ErrValidatorDestroying; SlashingErr.ErrMissingSelfDelegation]).
Proof.
  intros HI HT. split; [intros s' HS; by apply (pos_tombs s c HI HT s')|]. intros HL s' HS.
  destruct (locked_later s s' c HS HI HT HL) as [(i & Hi & Ht) HL']. intros v V HV Hc. pose proof (HL' v V HV Hc) as HJ.
  split; [done|]. intros ctx. rewrite <-Hc in Hi. eapply SlashSpec.unjail_refused; [exact HV|done|exact Hi|by left].
Qed.
End inv.

(** ** Witnesses: an application with two validators

    The environment: the split of coins, the accounts, products of decimals. *)

#[local] Existing Instance Dec18.ops.
#[local] Existing Instance Dec18.dec_laws.
#[local] Existing Instance CoinsImpl.ops.
#[local] Existing Instance CoinsImpl.coins_laws.
#[local] Existing Instance BankImpl.ops.
#[local] Existing Instance BankImpl.bank_laws.
#[local] Existing Instance StakingImpl.supply.
#[local] Existing Instance StakingImpl.supply_laws.
#[local] Existing Instance StakingImpl.env.
#[local] Existing Instance StakingImpl.env_laws.

#[local] Instance ex_accounts : PosAccounts.
Proof. by split. Qed.

#[local] Instance ex_distr_env : Distribution.DistrEnv := {|
  Distribution.TruncateDecimal c :=
    (CoinsImpl.map_amount (λ n, n / Dec.unit * Dec.unit) c, CoinsImpl.map_amount (λ n, n mod Dec.unit) c);
  Distribution.feeCollectorName := "fee_collector";
  Distribution.blacklistedAddrs a := bool_decide (a ∈ [DistrSpec.distrAcc; bondedAcc; notBondedAcc]);
  Distribution.StartBlockHeight := 0;
  Distribution.ErrUnauthorized := MkError "sdk" 4;
|}.

#[local] Instance ex_distr_env_laws : DistrSpec.DistrEnvLaws.
Proof.
  pose proof unit_pos as Hu.
  assert (∀ f c, Coins.IsValid c = true → f 0 = 0 → (∀ a, 0 ≤ a → 0 ≤ f a) →
    Coins.IsValid (CoinsImpl.map_amount f c) = true ∧ ∀ d, amt d (CoinsImpl.map_amount f c) = f (amt d c)) as H.
  { intros f c Hc H0 Hp. destruct (CoinsImpl.map_amount_spec f c (valid_good _ Hc) H0 Hp) as [H1 H2]. split; [|done]. by apply Coins.IsValid_spec. }
  assert (∀ a, 0 ≤ a → 0 ≤ a / Dec.unit * Dec.unit) as Hq by (intros a Ha; pose proof (Z.div_pos a Dec.unit Ha Hu); nia).
  assert (∀ a, 0 ≤ a → 0 ≤ a mod Dec.unit) as Hm by (intros a _; apply (Z.mod_pos_bound a Dec.unit Hu)).
  split.
  - intros c Hc. split; by apply H.
  - intros c d Hc. split; by apply (H (λ n, _) c Hc).
  - split_and!; apply bool_decide_eq_true_2; set_solver.
  - by split_and!.
Qed.

#[local] Instance ex_slash_env : Slashing.SlashEnv := {|
  Slashing.MulInt64 x n := x * n;
  Slashing.RoundInt64 x := if decide (Dec.bankers x Dec.unit < 2 ^ 63) then Ok (Dec.bankers x Dec.unit) else Panic;
  Slashing.ConsAddressFromBech32 str := Some str;
  Slashing.ConsAddressString c := c;
|}.

#[local] Instance ex_slash_env_laws : SlashSpec.SlashEnvLaws.
Proof. split; [done|]. intros x _ Hx. unfold Slashing.RoundInt64, ex_slash_env. by rewrite decide_True. Qed.

#[local] Instance ex_evidence : Evidence.EvidenceType Evidence.Equivocation := {|
  Evidence.Route _ := Evidence.RouteEquivocation;
  Evidence.Hash e := Evidence.ConsensusAddress e;
  Evidence.Evidence_ValidateBasic := Evidence.Equivocation_ValidateBasic;
|}.

Abbreviation ExState := (StakingState (World Evidence.Equivocation)) (only parsing).

(** Fees are waiting; three accounts have coins. *)
Definition ex_pos_bank : BankImpl.st :=
  BankImpl.MkSt {[ "alice" := [StakingTheorems.ex_coin 100]; "bob" := [StakingTheorems.ex_coin 100]; "carol" := [StakingTheorems.ex_coin 100];
                   BankImpl.mod_addr "fee_collector" := [StakingTheorems.ex_coin 1000] ]} {[ Coins.DefaultBondDenom := 1300 * Dec.unit ]}.
(** Two of four blocks have to be signed. *)
Definition ex_slash_params : Slashing.Params := Slashing.MkParams 4 (Dec.unit / 2) (600 * 10 ^ 9) 0 0.
Definition ex_world : World Evidence.Equivocation :=
  MkWorld ex_pos_bank
    (Distribution.MkDistrStore ∅ (Some Distribution.InitialFeePool) (Some "") ∅ Distribution.DefaultParams)
    (Slashing.MkSlashingStore ∅ ∅ ∅ ex_slash_params)
    (Evidence.MkEvidenceStore _ ∅ Evidence.DefaultParams).
Definition ex_pos_start : ExState :=
  MkStakingState _ ex_world ∅ ∅ ∅ ∅ ∅ None ∅ ∅ ∅ ∅ ∅ [] (Some 2) None StakingTheorems.ex_params.

Lemma ex_world_inv : world_inv ∅ (λ _, 0) ex_world.
Proof.
  assert (∀ d, DistrSpec.dsurplus ex_world d = 0) as HS.
  { intros d. unfold DistrSpec.dsurplus, DistrSpec.owed, DistrSpec.pool_amt. cbn. by rewrite msum_empty. }
  split.
  - split.
    + intros v c. cbn. by rewrite lookup_empty.
    + by exists Distribution.InitialFeePool.
    + intros d. by rewrite HS.
    + intros a x. cbn. by rewrite lookup_empty.
    + cbn. vm_compute. split; intros ?; discriminate.
    + by eexists.
  - split.
    + cbn. lia.
    + vm_compute. split; intros ?; discriminate.
    + cbn. lia.
    + intros c i. cbn. by rewrite lookup_empty.
    + intros c n b. cbn. by rewrite lookup_empty.
  - set_solver.
  - intros d. by rewrite HS.
Qed.

Lemma ex_pos_start_ok : pos_ok ex_pos_start.
Proof.
  split.
  - split; [apply ex_world_inv|..]; cbn; try done.
    + intros k v. rewrite lookup_empty. split; [done|]. intros (V & HV & _). by rewrite lookup_empty in HV.
    + intros k v. rewrite lookup_empty. split; [done|]. intros (V & HV & _). by rewrite lookup_empty in HV.
    + intros v. rewrite lookup_empty. split; [by intros []|]. intros (V & HV & _). by rewrite lookup_empty in HV.
    + intros t v. unfold GetValidatorQueueTimeSlice. cbn. rewrite lookup_empty. cbn. split; [by intros ?%elem_of_nil|].
      intros (V & HV & _). by rewrite lookup_empty in HV.
    + intros t. unfold GetValidatorQueueTimeSlice. cbn. rewrite lookup_empty. constructor.
    + by intros v ?%elem_of_nil.
  - split; cbn; try done. intros v a x. rewrite lookup_empty. split; [done|]. intros (d & Hd & _). by rewrite lookup_empty in Hd.
  - split; cbn; try done. intros p a. split; [set_solver|]. intros (_ & d & Hd & _). by rewrite lookup_empty in Hd.
  - split; try done. intros a [[d Hd]|[[d Hd]|[d Hd]]]; cbn in Hd; by rewrite lookup_empty in Hd.
  - done.
  - by intros v V ?%elem_of_nil.
Qed.

Definition pos_run {A} (m : M ExState A) (s : ExState) : ExState := snd (m s).
Lemma pos_run_eq {A} (m : M ExState A) s a : fst (m s) = Ok a → m s = (Ok a, pos_run m s).
Proof. apply run_ok. Qed.

(** *** Checks that can be evaluated *)

Definition ex_pos_admitted (ctx : Context) (msg : Msg) : bool :=
  (StakingTheorems.ex_ok (ValidateBasic msg)
   && forallb (λ a, bool_decide (a ≠ DistrSpec.distrAcc ∧ a ≠ bondedAcc ∧ a ≠ notBondedAcc ∧ a ≠ "")) (GetSigners msg)
   && bool_decide (blockTimestampEpoch ≤ Unix ctx))%bool.

Lemma ex_pos_admitted_ok ctx msg : ex_pos_admitted ctx msg = true → StakingTheorems.admitted protected ctx msg.
Proof.
  unfold ex_pos_admitted. rewrite !andb_true_iff, !bool_decide_eq_true. intros [[H1%StakingTheorems.ex_ok_eq H2] H3]. split; [done|]. split; [|done].
  rewrite forallb_forall in H2. apply Forall_forall. intros a Ha. apply list_elem_of_In in Ha. specialize (H2 a Ha). by apply bool_decide_eq_true in H2.
Qed.

Fixpoint ex_pos_works (ctx : Context) (l : list Msg) (s : ExState) : bool :=
  match l with
  | [] => true
  | m :: l => (ex_pos_admitted ctx m && StakingTheorems.ex_ok (fst (NewHandler ctx m s))
               && ex_pos_works ctx l (pos_run (NewHandler ctx m) s))%bool
  end.
Definition ex_pos_msgs (ctx : Context) (l : list Msg) (s : ExState) : ExState :=
  foldl (λ s m, pos_run (NewHandler ctx m) s) s l.

Lemma ex_pos_msgs_steps ctx l s : ex_pos_works ctx l s = true → rtc pos_step s (ex_pos_msgs ctx l s).
Proof.
  revert s. induction l as [|m l IH]; intros s; [by intros _; apply rtc_refl|]. cbn [ex_pos_works].
  rewrite !andb_true_iff. intros [[H1 H2%StakingTheorems.ex_ok_eq] H3]. eapply rtc_l; [|by apply IH].
  eapply pos_staking; [by apply ex_pos_admitted_ok|by apply pos_run_eq].
Qed.

Definition ex_voter (s : ExState) (c : ConsAddress) : bool :=
  (bool_decide (is_Some (Slashing.pubkeys (Slashing.sl s) !! c)) && bool_decide (is_Some (Slashing.signingInfos (Slashing.sl s) !! c))
   && match GetValidatorByConsAddr c s with Some V => negb (IsUnbonded V) | None => true end)%bool.

Lemma ex_voter_ok s c : ex_voter s c = true → SlashSpec.voter_ok s c.
Proof.
  unfold ex_voter, IsUnbonded. rewrite !andb_true_iff, !bool_decide_eq_true. intros [[H1 H2] H3]. split; [done|]. split; [done|].
  intros V HV. rewrite HV in H3. by apply negb_true_iff, bool_decide_eq_false in H3.
Qed.

Definition ex_signed_up (s : ExState) : bool :=
  forallb (λ cv, match validators s !! snd cv with
                 | Some V => (IsUnbonded V || bool_decide (is_Some (Slashing.signingInfos (Slashing.sl s) !! fst cv)))%bool
                 | None => true
                 end) (map_to_list (byConsAddr s)).

Lemma ex_signed_up_ok s : ex_signed_up s = true → SlashSpec.signed_up s.
Proof.
  unfold ex_signed_up, IsUnbonded. rewrite forallb_forall. intros H c V. unfold GetValidatorByConsAddr, GetValidator.
  destruct (byConsAddr s !! c) as [v|] eqn:E; [|done]. apply elem_of_map_to_list, list_elem_of_In in E. specialize (H _ E). cbn in H.
  intros HV Hs. rewrite HV in H. apply orb_true_iff in H as [H|H]; by apply bool_decide_eq_true in H.
Qed.

(** *** Two validators, one of them elected *)

Definition ex_pos_joined : ExState :=
  ex_pos_msgs (StakingTheorems.at_height 1 0)
    [StakingTheorems.ex_create "alice"; StakingTheorems.ex_create "carol"; StakingTheorems.ex_deposit; StakingTheorems.ex_vote] ex_pos_start.
Definition ex_pos_elected : ExState := pos_run (EndBlocker (StakingTheorems.at_height 2 10)) ex_pos_joined.

Lemma ex_pos_joined_steps : rtc pos_step ex_pos_start ex_pos_joined.
Proof. apply ex_pos_msgs_steps. vm_compute. reflexivity. Qed.

Lemma ex_pos_elected_step : pos_step ex_pos_joined ex_pos_elected.
Proof.
  apply (pos_end _ (StakingTheorems.at_height 2 10) [MkValidatorUpdate "pk/carol" 62914561000000]).
  apply (pos_run_eq (EndBlocker (StakingTheorems.at_height 2 10)) ex_pos_joined). vm_compute. reflexivity.
Qed.

Lemma ex_pos_elected_steps : rtc pos_step ex_pos_start ex_pos_elected.
Proof. eapply rtc_r; [apply ex_pos_joined_steps|apply ex_pos_elected_step]. Qed.

Lemma ex_pos_elected_ok : pos_ok ex_pos_elected.
Proof. apply (pos_steps_inv ∅ (λ _, 0) _ _ ex_pos_elected_steps), ex_pos_start_ok. Qed.

(** The votes of the last block, and fees for the distribution. *)
Definition ex_ballot (signed : bool) : list Slashing.VoteInfo := [Slashing.MkVoteInfo "cons/pk/carol" 62914561000000 signed].
Definition ex_pos_paid : ExState :=
  pos_run (Distribution.BeginBlocker (StakingTheorems.at_height 3 20) "cons/pk/carol" (ex_ballot true)) ex_pos_elected.

Lemma ex_pos_paid_step : pos_step ex_pos_elected ex_pos_paid.
Proof.
  apply (pos_distr_begin _ (StakingTheorems.at_height 3 20) "cons/pk/carol" (ex_ballot true)).
  apply (pos_run_eq (Distribution.BeginBlocker (StakingTheorems.at_height 3 20) "cons/pk/carol" (ex_ballot true)) ex_pos_elected).
  vm_compute. reflexivity.
Qed.

Lemma ex_pos_paid_ok : pos_ok ex_pos_paid.
Proof. apply (pos_step_inv ∅ (λ _, 0) _ _ ex_pos_elected_ok ex_pos_paid_step). Qed.

Lemma pos_invariant_witness : pos_ok ex_pos_paid ∧ surplus ex_pos_start ≤ surplus ex_pos_paid ∧
  ∀ d, DistrSpec.dsurplus (world ex_pos_start) d ≤ DistrSpec.dsurplus (world ex_pos_paid) d.
Proof.
  apply (pos_invariant ex_pos_start ex_pos_paid); [|apply ex_pos_start_ok].
  eapply rtc_r; [apply ex_pos_elected_steps|apply ex_pos_paid_step].
Defined.

Lemma not_nil {A} (l : list A) n : length l = S n → l ≠ [].
Proof. by destruct l. Qed.

Lemma is_there {A} (o : option A) : match o with Some _ => true | None => false end = true → is_Some o.
Proof. by destruct o. Qed.

Lemma fees_allocated_witness : ∃ s', Distribution.AllocateTokens (DistrSpec.total_power (ex_ballot true)) (ex_ballot true) ex_pos_elected = (Ok tt, s') ∧
  pos_ok s' ∧ (∀ d, Bank.balance (wBank (world s')) DistrSpec.feeAcc d = 0) ∧
  (∀ v d, amt d (DistrSpec.comm_of s' v) = amt d (DistrSpec.comm_of ex_pos_elected v)
     + DistrSpec.gain (DistrSpec.allocation (DistrSpec.total_power (ex_ballot true)) (ex_ballot true) ex_pos_elected) v d) ∧
  (∀ d, DistrSpec.pool_amt (world s') d
     + DistrSpec.paid (DistrSpec.allocation (DistrSpec.total_power (ex_ballot true)) (ex_ballot true) ex_pos_elected) d
     = DistrSpec.pool_amt (world ex_pos_elected) d + Bank.balance (wBank (world ex_pos_elected)) DistrSpec.feeAcc d) ∧
  (∀ a d, a ≠ DistrSpec.feeAcc → a ≠ DistrSpec.distrAcc →
     Bank.balance (wBank (world s')) a d = Bank.balance (wBank (world ex_pos_elected)) a d) ∧
  (∀ d, DistrSpec.dsurplus (world s') d = DistrSpec.dsurplus (world ex_pos_elected) d) ∧ surplus s' = surplus ex_pos_elected.
Proof.
  apply (fees_allocated (ex_ballot true) ex_pos_elected); [apply ex_pos_elected_ok|]. right; right.
  apply (not_nil _ 0). vm_compute. reflexivity.
Defined.

(** What the elected validator gets of the fees: with the tax of 2 percent, a quarter of 980
    and its part by shares of three quarters. *)
Example ex_allocation : DistrSpec.gain (DistrSpec.allocation (DistrSpec.total_power (ex_ballot true)) (ex_ballot true) ex_pos_elected)
  "carol" "okt" = 979999988317489995275.
Proof. vm_compute. reflexivity. Qed.

(** The only validator of the set destroys itself. *)
Definition ex_pos_left : ExState :=
  ex_pos_msgs (StakingTheorems.at_height 3 20) [MDestroyValidator (MkMsgDestroyValidator "carol")] ex_pos_elected.

Lemma ex_pos_left_steps : rtc pos_step ex_pos_start ex_pos_left.
Proof. etrans; [apply ex_pos_elected_steps|]. apply ex_pos_msgs_steps. vm_compute. reflexivity. Qed.

Lemma ex_pos_left_ok : pos_ok ex_pos_left.
Proof. apply (pos_steps_inv ∅ (λ _, 0) _ _ ex_pos_left_steps), ex_pos_start_ok. Qed.

Lemma no_voter_halts_witness : rtc pos_step ex_pos_start ex_pos_left ∧
  fst (Distribution.BeginBlocker (StakingTheorems.at_height 4 30) "cons/pk/carol" (ex_ballot true) ex_pos_left) = Panic.
Proof.
  split; [apply ex_pos_left_steps|].
  apply (no_voter_halts (StakingTheorems.at_height 4 30) "cons/pk/carol" (ex_ballot true) ex_pos_left).
  - apply ex_pos_left_ok.
  - vm_compute. reflexivity.
  - apply (not_nil _ 0). vm_compute. reflexivity.
  - assert (DistrSpec.total_power (ex_ballot true) = 62914561000000) as -> by (vm_compute; reflexivity). lia.
  - vm_compute. reflexivity.
Defined.

Lemma commission_withdrawn_witness : ∃ co rest b,
  Distribution.WithdrawValidatorCommission "carol" ex_pos_paid = (Ok co, settled "carol" rest b ex_pos_paid) ∧
  amt Coins.DefaultBondDenom co = amt Coins.DefaultBondDenom (DistrSpec.comm_of ex_pos_paid "carol") / Dec.unit * Dec.unit.
Proof.
  destruct (commission_withdrawn "carol" ex_pos_paid) as (co & rest & b & E & _ & _ & Ha); [apply ex_pos_paid_ok| |].
  { apply (not_nil _ 0). vm_compute. reflexivity. }
  exists co, rest, b. split; [exact E|apply Ha].
Defined.

(** *** Absence and double signing *)

Lemma ex_ballot_ok signed s : ex_voter s "cons/pk/carol" = true →
  Forall (λ x, SlashSpec.voter_ok s (Slashing.VoteAddress x)) (ex_ballot signed).
Proof. intros H. apply Forall_singleton. by apply ex_voter_ok. Qed.

Definition ex_absent (h : Z) (s : ExState) : ExState := pos_run (Slashing.BeginBlocker (StakingTheorems.at_height h 20) (ex_ballot false)) s.
Lemma ex_absent_step h s : ex_voter s "cons/pk/carol" = true →
  fst (Slashing.BeginBlocker (StakingTheorems.at_height h 20) (ex_ballot false) s) = Ok tt → pos_step s (ex_absent h s).
Proof.
  intros H1 H2. apply (pos_votes _ (StakingTheorems.at_height h 20) (ex_ballot false)); [by apply ex_ballot_ok|].
  by apply (pos_run_eq (Slashing.BeginBlocker (StakingTheorems.at_height h 20) (ex_ballot false)) s).
Qed.

(** Two of the blocks are missed. *)
Definition ex_pos_missed1 : ExState := ex_absent 5 ex_pos_elected.
Definition ex_pos_missed : ExState := ex_absent 6 ex_pos_missed1.

Lemma ex_pos_missed_ok : pos_ok ex_pos_missed.
Proof.
  apply (pos_step_inv ∅ (λ _, 0) ex_pos_missed1).
  - apply (pos_step_inv ∅ (λ _, 0) ex_pos_elected); [apply ex_pos_elected_ok|]. apply ex_absent_step; vm_compute; reflexivity.
  - apply ex_absent_step; vm_compute; reflexivity.
Qed.

Lemma votes_handled_witness : ∃ s', Slashing.BeginBlocker (StakingTheorems.at_height 7 20) (ex_ballot false) ex_pos_missed = (Ok tt, s') ∧
  pos_ok s' ∧ surplus s' = surplus ex_pos_missed ∧
  ∀ c i, Slashing.signingInfos (Slashing.sl s') !! c = Some i →
    Slashing.MissedBlocksCounter i = int64 (SlashSpec.missed_count (Slashing.missedBits (Slashing.sl s')) c).
Proof.
  apply (votes_handled (StakingTheorems.at_height 7 20) (ex_ballot false) ex_pos_missed); [apply ex_pos_missed_ok|].
  apply ex_ballot_ok. vm_compute. reflexivity.
Defined.

Definition ex_info : Slashing.ValidatorSigningInfo := Slashing.MkValidatorSigningInfo "cons/pk/carol" 2 2 0 false 2 Slashing.Created.

(** The third one is too much. *)
Lemma vote_counts_witness : is_Some (SlashSpec.accused (StakingTheorems.at_height 7 20) "cons/pk/carol" false ex_info ex_pos_missed) ∧
  ∃ s', Slashing.HandleValidatorSignature (StakingTheorems.at_height 7 20) "cons/pk/carol" false ex_pos_missed = (Ok tt, s') ∧ pos_ok s' ∧
    match SlashSpec.accused (StakingTheorems.at_height 7 20) "cons/pk/carol" false ex_info ex_pos_missed with
    | Some V => validators s' = <[OperatorAddress V := set_Jailed true V]> (validators ex_pos_missed) ∧
        abandoned s' = abandoned ex_pos_missed ++ [OperatorAddress V] ∧
        window_cleared (StakingTheorems.at_height 7 20) "cons/pk/carol" ex_pos_missed s'
    | None => validators s' = validators ex_pos_missed ∧ abandoned s' = abandoned ex_pos_missed ∧
        SlashSpec.missed_count (Slashing.missedBits (Slashing.sl s')) "cons/pk/carol"
        = SlashSpec.missed_after (Slashing.sl ex_pos_missed) "cons/pk/carol" false ex_info
    end.
Proof.
  split.
  - apply is_there. vm_compute. reflexivity.
  - apply (vote_counts (StakingTheorems.at_height 7 20) "cons/pk/carol" false ex_info ex_pos_missed).
    + apply ex_pos_missed_ok.
    + apply ex_voter_ok. vm_compute. reflexivity.
    + vm_compute. reflexivity.
    + split; vm_compute; [discriminate|reflexivity..].
Defined.

Definition ex_proof : Evidence.Equivocation :=
  Evidence.MkEquivocation 3 (Some (StakingTheorems.ex_time + 5)) 62914561000000 "cons/pk/carol".

Lemma ex_signed_up_elected : SlashSpec.signed_up ex_pos_elected.
Proof. apply ex_signed_up_ok. vm_compute. reflexivity. Qed.

Lemma double_sign_punished_witness :
  ∃ s', Evidence.HandleDoubleSign (StakingTheorems.at_height 4 30) ex_proof ex_pos_elected = (Ok tt, s') ∧
    pos_ok s' ∧ SlashSpec.signed_up s' ∧ surplus s' = surplus ex_pos_elected ∧
    ((∃ V i, SlashSpec.caught (StakingTheorems.at_height 4 30) ex_proof V i ex_pos_elected ∧
             SlashSpec.condemned V i (Evidence.ConsensusAddress ex_proof) s' ∧ SlashSpec.unslashed slash_rest V ex_pos_elected s') ∨
     (¬ (∃ V i, SlashSpec.caught (StakingTheorems.at_height 4 30) ex_proof V i ex_pos_elected) ∧ s' = ex_pos_elected)).
Proof.
  apply (double_sign_punished (StakingTheorems.at_height 4 30) ex_proof ex_pos_elected); [apply ex_pos_elected_ok|apply ex_signed_up_elected].
Defined.

Definition ex_pos_condemned : ExState :=
  pos_run (Evidence.BeginBlocker (StakingTheorems.at_height 4 30)
    [Evidence.MkAbciEvidence Evidence.DuplicateVote 3 62914561000000 "cons/pk/carol" (StakingTheorems.ex_time + 5)]) ex_pos_elected.

Lemma ex_pos_condemned_step : pos_step ex_pos_elected ex_pos_condemned.
Proof.
  eapply (pos_evidence _ (StakingTheorems.at_height 4 30)); [apply ex_signed_up_elected|].
  apply (pos_run_eq (Evidence.BeginBlocker _ _)). vm_compute. reflexivity.
Qed.

Lemma ex_pos_condemned_ok : pos_ok ex_pos_condemned.
Proof. apply (pos_step_inv ∅ (λ _, 0) _ _ ex_pos_elected_ok ex_pos_condemned_step). Qed.

Lemma ex_condemned_tombstoned : tombstoned "cons/pk/carol" ex_pos_condemned.
Proof.
  exists (Slashing.MkValidatorSigningInfo "cons/pk/carol" 2 0 Evidence.DoubleSignJailEndTime true 0 Slashing.Created).
  split; [vm_compute; reflexivity|reflexivity].
Qed.

(** Whether every validator with the consensus address is in jail. *)
Definition ex_locked (c : ConsAddress) (s : ExState) : bool :=
  forallb (λ vV, negb (String.eqb (ConsAddress_of (snd vV)) c) || Jailed (snd vV))%bool (map_to_list (validators s)).
Lemma ex_locked_ok c s : ex_locked c s = true → ∀ v V, validators s !! v = Some V → ConsAddress_of V = c → Jailed V = true.
Proof.
  unfold ex_locked. rewrite forallb_forall. intros H v V HV Hc.
  specialize (H (v, V)). cbn [snd] in H. rewrite Hc, String.eqb_refl in H. apply H. by apply list_elem_of_In, elem_of_map_to_list.
Qed.

Definition ex_pos_expelled : ExState := pos_run (EndBlocker (StakingTheorems.at_height 4 30)) ex_pos_condemned.
Lemma ex_pos_expelled_step : pos_step ex_pos_condemned ex_pos_expelled.
Proof.
  apply (pos_end _ (StakingTheorems.at_height 4 30) [MkValidatorUpdate "pk/alice" 1000000; MkValidatorUpdate "pk/carol" 0]).
  apply (pos_run_eq (EndBlocker (StakingTheorems.at_height 4 30)) ex_pos_condemned). vm_compute. reflexivity.
Qed.

(** *** A tombstoned key that returns

    The delegator turns to the other validator, the tombstoned one leaves for good, and is
    created again with its key: it is elected, in spite of the tombstone. *)

Definition ex_pos_leaving : ExState :=
  ex_pos_msgs (StakingTheorems.at_height 5 40)
    [MAddShares (MkMsgAddShares "bob" ["alice"]); MDestroyValidator (MkMsgDestroyValidator "carol")] ex_pos_expelled.
Definition ex_pos_gone : ExState := pos_run (EndBlocker (StakingTheorems.at_height 6 2000)) ex_pos_leaving.
Definition ex_pos_back : ExState :=
  ex_pos_msgs (StakingTheorems.at_height 7 2010) [StakingTheorems.ex_create "carol"; StakingTheorems.ex_vote] ex_pos_gone.
Definition ex_pos_reelected : ExState := pos_run (EndBlocker (StakingTheorems.at_height 8 2020)) ex_pos_back.

Lemma ex_pos_leaving_steps : rtc pos_step ex_pos_expelled ex_pos_leaving.
Proof. apply ex_pos_msgs_steps. vm_compute. reflexivity. Qed.
Lemma ex_pos_gone_step : pos_step ex_pos_leaving ex_pos_gone.
Proof.
  apply (pos_end _ (StakingTheorems.at_height 6 2000) [MkValidatorUpdate "pk/alice" 62914561000000]).
  apply (pos_run_eq (EndBlocker (StakingTheorems.at_height 6 2000)) ex_pos_leaving). vm_compute. reflexivity.
Qed.
Lemma ex_pos_back_steps : rtc pos_step ex_pos_gone ex_pos_back.
Proof. apply ex_pos_msgs_steps. vm_compute. reflexivity. Qed.
Lemma ex_pos_reelected_step : pos_step ex_pos_back ex_pos_reelected.
Proof.
  apply (pos_end _ (StakingTheorems.at_height 8 2020) [MkValidatorUpdate "pk/carol" 62914561000000; MkValidatorUpdate "pk/alice" 0]).
  apply (pos_run_eq (EndBlocker (StakingTheorems.at_height 8 2020)) ex_pos_back). vm_compute. reflexivity.
Qed.

Lemma ex_pos_reelected_steps : rtc pos_step ex_pos_condemned ex_pos_reelected.
Proof.
  eapply rtc_l; [apply ex_pos_expelled_step|]. eapply rtc_r; [|apply ex_pos_reelected_step].
  etrans; [apply ex_pos_leaving_steps|]. eapply rtc_l; [apply ex_pos_gone_step|apply ex_pos_back_steps].
Qed.

Lemma ex_free (o : option Validator) c :
  match o with Some V => (String.eqb (ConsAddress_of V) c && negb (Jailed V) && IsBonded V)%bool | None => false end = true →
  ∃ V, o = Some V ∧ ConsAddress_of V = c ∧ Jailed V = false ∧ Status V = Bonded.
Proof.
  destruct o as [V|]; [|done]. rewrite !andb_true_iff. intros [[H1%String.eqb_eq H2%negb_true_iff] H3%bool_decide_eq_true]. by exists V.
Qed.

Lemma tombstoned_key_returns : pos_ok ex_pos_condemned ∧ tombstoned "cons/pk/carol" ex_pos_condemned ∧
  rtc pos_step ex_pos_condemned ex_pos_reelected ∧ tombstoned "cons/pk/carol" ex_pos_reelected ∧
  ∃ V, validators ex_pos_reelected !! "carol" = Some V ∧ ConsAddress_of V = "cons/pk/carol" ∧ Jailed V = false ∧ Status V = Bonded.
Proof.
  split; [apply ex_pos_condemned_ok|]. split; [apply ex_condemned_tombstoned|]. split; [apply ex_pos_reelected_steps|].
  split; [by apply (pos_tombs _ _ ex_pos_condemned_ok ex_condemned_tombstoned), ex_pos_reelected_steps|].
  apply ex_free. vm_compute. reflexivity.
Qed.

Lemma ex_expelled_carol : ∃ V, validators ex_pos_expelled !! "carol" = Some V ∧ ConsAddress_of V = "cons/pk/carol".
Proof.
  destruct (validators ex_pos_expelled !! "carol") as [V|] eqn:E; [|vm_compute in E; discriminate E].
  exists V. split; [done|]. vm_compute in E. injection E as <-. reflexivity.
Qed.

Lemma tombstone_final_witness : tombstoned "cons/pk/carol" ex_pos_reelected ∧
  ∃ e, Slashing.handleMsgUnjail (StakingTheorems.at_height 9 1000000000000) (Slashing.MkMsgUnjail "carol") ex_pos_expelled = (Err e, ex_pos_expelled).
Proof.
  destruct (tombstone_final ex_pos_condemned "cons/pk/carol" ex_pos_condemned_ok ex_condemned_tombstoned) as [H1 H2].
  split; [apply H1, ex_pos_reelected_steps|]. destruct ex_expelled_carol as (V & HV & Hc).
  assert (ex_locked "cons/pk/carol" ex_pos_condemned = true) as HL by (vm_compute; reflexivity).
  destruct (H2 (ex_locked_ok _ _ HL) ex_pos_expelled) with (v := "carol") (V := V) as [_ H]; [|exact HV|exact Hc|].
  - apply rtc_once. split; [apply ex_pos_expelled_step|]. apply present_no_rejoin, is_there. vm_compute. reflexivity.
  - destruct (H (StakingTheorems.at_height 9 1000000000000)) as (e & E0 & _). by exists e.
Defined.

End PosApp.
